(* ===== verification/_CoqProject ===== *)
-Q . S2P
Prelude.v
Text.v
F64.v
Time.v
Role.v
Node.v
Job.v
Event.v
Scheduler.v
Workload.v
Protocol.v
Agent.v
Store.v
Snapshot.v
Supervisor.v
SupervisorInv.v
SupervisorBoot.v
SupervisorLog.v
Sqlite.v
SupervisorSpec.v
Remote.v
LocalNode.v
Market.v
Catalog.v
Depth.v
DepthLaws.v
DepthCodec.v
Engine.v
EngineLaws.v
Series.v
MarketKey.v
Realm.v
Alerts.v
PriceStore.v
AppError.v
Collector.v
Window.v
MarketEvent.v
Release.v
Archive.v
Daily.v
Throttle.v
Analysis.v
Correlate.v
CorrelateLaws.v
Materialise.v
Rollup.v
Deals.v
FragmentCache.v
Csrf.v
AccountStore.v
Accounts.v
ReadRows.v
ReadModel.v
Metrics.v
AnalysisWork.v
RealmStore.v
MaterialiseTask.v
EventStore.v
SmallStores.v
CollectorTask.v
AdminDate.v
Admin.v
Locale.v
Prefs.v
Tooltips.v
EnvFile.v
Charts.v
Cards.v
Pages.v
Gear.v
Bonuses.v
Live.v
Tsm.v
Config.v
