(* ===== verification/Prelude.v ===== *)
(** * Gavel: a verification development

    Gavel is a Rust service that collects auction-house prices, works out what the
    market does and shows it on web pages.  The heavy computations run as jobs on a
    small work cluster that is part of the program.  This development models the
    cluster, the market analytics, the accounts and the read model from the source,
    and proves what makes them correct.

    ** The program

    - [crates/cluster-core]: the cluster's vocabulary without I/O -- time,
      identifiers, roles, nodes, jobs and tasks with their state machines, events,
      placement and election policies, the built-in workload, the wire protocol,
      the worker as a state machine, and the store interfaces.
    - [crates/cluster-local]: the runtime -- the supervisor (one task that owns
      everything and handles one message at a time), the in-process node, the
      coordinator's end of a TCP connection to a remote worker, the deferred
      writer and the telemetry counters.
    - [crates/app-core]: the market (prices, depth, statistics, windows, events,
      correlations, roll-ups, deals), the catalogue and its releases, the accounts'
      data and the interfaces of the repositories.
    - [crates/storage/src/sqlite]: the repositories over SQLite.
    - [crates/app-web]: sessions, throttles, request forgery, the fragment cache,
      metrics, and the pages.
    - [crates/server]: start-up and the background tasks; the remote worker.

    A job is submitted as a command to the supervisor, which splits it into tasks,
    stores them, queues them and hands them to idle nodes through bounded
    mailboxes.  A node reports that it started and finished; the supervisor counts,
    retries or gives up, and settles the job.  A tick sweeps the heartbeats,
    requeues the work of nodes that went away, elects the leader, dispatches and
    prunes what it keeps in memory.  Every state change is announced as a numbered
    event and handed to the writer.

    The collector stores a snapshot of prices per region and realm and raises
    alerts; a materialiser run turns the histories into the state of every market,
    its windows and its roll-ups, stages them under a new version and publishes it;
    the pages read what is published, through the fragment cache.

    ** The files: foundations

    - [Prelude]: machine integers ([N] with saturation and wrap-around written
      out), the [Result] type, maps iterated in key order as a [BTreeMap] is, maps
      keyed by a field, counting.
    - [Text]: splitting, trimming and reading of text.  White space is that of
      ASCII.
    - [F64]: binary64 as scaled integers, with rounding to nearest even, where the
      source computes in [f64].

    ** The files: the cluster

    - [Time] ([time.rs]), [Role] ([role.rs]), [Node] ([node.rs], [ids.rs]), [Job]
      ([job.rs], [error.rs]), [Event] ([event.rs]): the data and its operations.
    - [Scheduler] ([scheduler.rs], [coordinator.rs]): the traits [Scheduler] and
      [Elector] as type classes, their laws, and the three policies.
    - [Workload] ([workload.rs], [build_job_spec]): what a task computes.
    - [Protocol] ([protocol.rs]): messages, artifacts, shipping, token, frames.
    - [Agent] ([agent.rs]): the worker; a run is a list of inputs.
    - [Store] ([persist.rs], [persistence.rs], [telemetry.rs]): the store traits as
      type classes; [ClusterStoreLaws] is what the supervisor relies on.
    - [Snapshot] ([cluster.rs]): what the status page is shown.
    - [Supervisor] ([supervisor.rs], [config.rs]): the state record [Sup] and one
      definition per handler, over an arbitrary store, scheduler and elector.
      [step] is one turn of the event loop, or something that happens beside it
      (the writer applies a write or dies, a mailbox is opened, drained or closed);
      [reachable] is any sequence of turns.
    - [SupervisorInv]: the invariant of the registry, the tables and the queue.
    - [SupervisorBoot]: the restart from a store.
    - [SupervisorLog]: the event stream, the acts a turn is made of.
    - [Sqlite] ([jobs.rs], [events.rs], [cluster.rs] of [storage/src/sqlite]): the
      tables as lists of rows, each statement as a function, the instance of
      [ClusterStore] and of its laws.
    - [SupervisorSpec]: the properties of runs, and small runs that exhibit them.
    - [Remote] ([remote.rs], [worker.rs]): both ends of a worker connection.
    - [LocalNode] ([node.rs], [exec.rs] of [cluster-local]): the in-process node.

    ** The files: the market ([app-core/src/market])

    - [Market] ([mod.rs], [stats.rs], [alerts.rs]), [MarketKey] ([key.rs]), [Realm]
      ([realm.rs] and the cadence of [server/src/collector_task.rs]), [Alerts]
      ([alerts.rs]): the vocabulary, keys and the alert rule.
    - [Depth], [DepthLaws], [DepthCodec] ([depth.rs]): the ladder of an order book,
      its sweeps and walls, and its stored bytes.
    - [Engine], [EngineLaws] ([engine.rs], [stats.rs]): gates, distributions,
      valuation and position.  [Series] ([series.rs]), [Window] ([window.rs]),
      [Daily] ([daily.rs] and the daily pass of [prices.rs]): charts, analysis
      windows, a day's row.
    - [PriceStore] ([storage/src/sqlite/prices.rs]): the class [PriceRepository]
      and the SQLite instance of its laws.  [Collector] ([collector.rs]): a pass of
      the collector, proved against that class.
    - [Catalog] ([catalog.rs]), [Release] ([release.rs], [releases.rs]), [Archive]
      ([archive.rs]), [MarketEvent] ([event.rs]).
    - [Analysis] ([analysis.rs]), [Correlate], [CorrelateLaws] ([correlate.rs]),
      [Materialise], [Rollup] ([materialise.rs]), [Deals] ([deals.rs]).
    - [AppError] ([app-core/src/error.rs]): errors and what is shown of them.
    - [RealmStore] ([storage/src/sqlite/realm_prices.rs]): realm snapshots stored as
      changes with a ledger of polls, and the histories expanded from them.
    - [EventStore] ([storage/src/sqlite/market_events.rs]): the timeline table.
      [SmallStores] ([kv.rs], [settings.rs], [wow_token.rs], [cache.rs] there).
    - [Bonuses] ([app-core/src/market/bonuses.rs]): item levels from bonus lists, over
      generated rules.  [Tsm] ([app-core/src/market/tsm.rs],
      [storage/src/sqlite/tsm.rs], [server/src/tsm_task.rs]): a third party's prices
      beside ours.

    ** The files: the web tier and its tables

    - [Throttle] ([throttle.rs]), [FragmentCache] ([fragment_cache.rs]), [Csrf]
      ([csrf.rs]), [Metrics] ([metrics.rs], [timing.rs]).
    - [AccountStore] ([users.rs], [sessions.rs], [watches.rs] of
      [storage/src/sqlite]): the account tables; [Accounts] ([auth.rs],
      [session.rs], [routes/account.rs]): the handlers over the class [AuthStore],
      which the tables discharge.
    - [ReadRows], [ReadModel] ([read_model.rs], and [publish] of
      [server/src/materialise_task.rs]): rows and their codecs, versions, queries.
    - [AnalysisWork] ([server/src/analysis_work.rs]): the partitions of an analysis
      job and the store of their results, [work_step] the interleaved calls of
      workers.  [MaterialiseTask] ([server/src/materialise_task.rs]): the task that
      cuts, distributes or computes, stages and publishes.
    - [CollectorTask] ([server/src/collector_task.rs]): one realm's collection as a
      state machine ([task_step]), a cycle as the interleaving of such tasks with
      the loop that starts and joins them ([cycle_step]), and cycles with what
      happens around them ([tracker_step]).
    - [AdminDate], [Admin] ([app-web/src/routes/admin.rs], [alerts.rs], [jobs.rs],
      [cluster.rs] there, the gate of [session.rs]): every handler that changes
      something, over the store's interface, and [visits], any requests in turn.
    - [Locale] ([app-core/src/locale.rs]), [Prefs] ([app-web/src/prefs.rs]): languages,
      and what a visitor chose, from query, cookie and browser.
    - [Tooltips] ([app-core/src/item.rs], [ItemTooltipService] of
      [app-core/src/service.rs], the warm-up of [collector_task.rs]), [Cards]
      ([app-web/src/cards.rs], [read_model.rs], [routes/tooltip.rs]) and [Pages]
      ([app-web/src/groups.rs], [routes/reagents.rs], [routes/enhancements.rs],
      [routes/market.rs]): the category pages from the stored rows to the groups of
      a response.  [Charts] ([app-web/src/chart.rs]): the sparkline of a card.
      [Gear] ([routes/gear.rs] there): the per-realm pages, whose groups obey the same
      interface ([DeferrableLaws] of [Pages]).
    - [Live] ([cluster-local/src/cluster.rs], [app-web/src/shutdown.rs],
      [routes/stream.rs]): the handle on the supervisor and a browser's stream.
    - [EnvFile] ([server/src/env_file.rs]): the settings file.  [Config]
      ([server/src/config.rs], the head of [main.rs] there): what a process is told.

    ** What is proved

    - Runs of the supervisor, from any consistent store through any inputs: no task
      is lost or held twice; a job's counters and state are those of its tasks; a
      restart brings back what was unfinished; work does not wait for an idle node;
      leader and gateway are who they should be, and who the events say; attempts
      are bounded; events are numbered without a gap; a stale report does nothing;
      a joining worker gets the lowest free id ([SupervisorSpec]).
    - Workers: each assignment is answered once, by the remote agent and by the
      in-process node alike; the sliced prime count is the reference computation;
      a task gives the same output and artifact on either kind of node; heartbeats
      keep their cadence ([Agent], [LocalNode]).
    - The wire: frames and streams of frames round trip, also when cut off; a
      session is read as the messages of its agent; a connection cannot report
      work it was not handed; nobody joins without the token; the listener keeps
      its limits; artifacts are protected by their digest ([Protocol], [Remote]).
    - The store hands out fresh identifiers and reads back what was written
      ([Sqlite]); dates, role sets, splits, primality and placement meet their
      specifications ([Time], [Role], [Job], [Workload], [Scheduler]).
    - The market's figures are those of the observations: a sweep is the cheapest
      purchase; a distribution is ordered and within what was seen, in floating
      point too; a chart shows the newest of each slot; an association depends on
      ranks alone; the one-pass swings are those between any two prices; a roll-up
      prices from what no newer snapshot supersedes; a deal is justified by its
      rows.  Stored forms read back.  Alerts are spaced by the cooldown.
    - The catalogue has at most one active release, drafts are never shown, and
      the archive shows what the visible catalogues declare.
    - Accounts: the tables keep their integrity under any statements; a sign-in
      needs the password, within the throttle; a token is its session's account as
      long as that lives; forms are accepted with their own token only.
    - Concurrency: the stream gate, the fragment cache and the request counters
      are step relations of single atomic actions ([sse_step], [cache_step],
      [metrics_step]) and their properties hold of every interleaving.
    - The read model refines "the newest published run that spoke of it", through
      runs that fail or are cut short anywhere.
    - Storing realm snapshots as changes loses nothing: what is read back is what
      every poll saw ([RealmStore]).  Cutting a region into partitions changes no
      row; whatever workers send and when, the rows collected are those of the
      inputs; a recalculation publishes exactly the figures of the observations,
      wherever they were computed, or abandons its version ([AnalysisWork],
      [MaterialiseTask]).
    - A collection cycle ends, within the cluster's width, and asks each due realm
      once under every interleaving; through any number of cycles the pages read
      exactly the snapshots that were stored ([CollectorTask]).  The timeline is a
      map of events ([EventStore]), the cache answers until the time is up
      ([SmallStores]).
    - Nothing behind the administrator's gate happens without an administrator and
      the form's token; what visitors see of the timeline and which catalogue is
      active was decided by one ([Admin]).  A choice sticks through its cookie
      ([Prefs]).  A category page loses no entry between its first response and the
      groups that fetch themselves ([Pages]); a sparkline draws what was observed
      and nothing else ([Charts]); a tooltip is that of its item and
      language and is fetched once ([Tooltips]).  A stream carries the events in
      order, tells their kind to administrators only and ends with the server
      ([Live]).  A settings file gives what it says and overrides nothing
      ([EnvFile]), and no process listens for workers without a token ([Config]); a
      per-realm page shows of each track the stored price of the realm asked for
      ([Gear]); a curve stays within its points under rounding ([Bonuses]); the
      comparison with the feed is made item by item ([Tsm]).
    - Runs that end badly are recorded as closed examples beside the theorems: at
      the end of [SupervisorSpec] a reconnecting worker whose task is stranded, a
      crash that leaves a job running for ever, and an entry that outlives its
      worker; others in the files of their components.

    ** Fuel

    [dispatch] loops once more than the queue is long: a turn that goes on has
    taken a task off the queue.  The recovery loop pages with one turn more than
    there are identifiers.  [is_prime_loop] has the square root of its argument
    and one.  [reader] has one more than the bytes to read, since each frame takes
    at least four.  [reset_events] has a turn per week of the interval, and the
    ranking of [Correlate] one per value; [grouped] and [chunks] have one per sample.
    The wait for the cluster ends with its deadline ([watch_ends]).  Each is proved
    to be enough.

    ** Parameters

    The postcard codec of the frames ([Postcard], [PostcardLaws]) and the JSON
    codec of the stored columns ([Json], [JsonLaws]) are third-party code; what is
    assumed is that what encodes decodes to itself, and codecs for which this holds
    are given.  The clock is an arbitrary sequence of readings.  The host's workload
    and artifact store, the password hasher, the reading of an address and the
    random bytes of tokens are arbitrary functions and values.

    ** Not modelled

    Logging; the timing of awaits and the back-pressure of full channels, which
    only delay the supervisor; socket errors other than the end of the stream and a
    failed write; failures inside SQLite other than violated constraints (the
    handlers of [Accounts] are proved over a store that may fail); the start of
    the background tasks; the redial loop of the worker; templates and translations,
    which are presentation; start-up and configuration.  Beyond those: Unicode's
    tables (which letters are alphanumeric, their lower case), the form parser and
    the broadcast channel are arguments; the charts other than the sparkline, the item,
    archive and arbitrage pages and the HTTP clients of third-party services are left
    out: they lay out or fetch what the modelled parts decide. *)
From stdpp Require Import prelude gmap sorting strings pretty.

(** ** Machine integers

    Unsigned Rust integers are modelled as [N].  The operations the source
    spells out ([saturating_add], [saturating_sub], [wrapping_mul], [as u16])
    are written out; [N] subtraction truncates at zero and is therefore exactly
    [saturating_sub].  A plain [+] or [*] of the source wraps in the release
    profile (no [overflow-checks]) and is written with [wrap] wherever the sum
    can leave its width. *)
Declare Scope gavel_scope.
Delimit Scope gavel_scope with gavel.
Open Scope N_scope.

Definition u8_max : N := 255.
Definition u16_max : N := 65535.
Definition u32_max : N := 4294967295.
Definition u64_max : N := 18446744073709551615.

Definition sat_add (max a b : N) : N := N.min (a + b) max.
Definition wrap (w n : N) : N := n mod 2 ^ w.

Lemma sat_add_le max a b : sat_add max a b <= max.
Proof. unfold sat_add. lia. Qed.

Lemma sat_add_small max a b : a + b <= max -> sat_add max a b = a + b.
Proof. unfold sat_add. lia. Qed.

Lemma sat_add_lower max a b : a <= max -> a <= sat_add max a b.
Proof. unfold sat_add. lia. Qed.

Lemma wrap_small w n : n < 2 ^ w -> wrap w n = n.
Proof. apply N.mod_small. Qed.

Lemma wrap_lt w n : wrap w n < 2 ^ w.
Proof. apply N.mod_lt. lia. Qed.

(** ** Results *)
Inductive Result (A E : Type) : Type :=
| Ok (a : A)
| Err (e : E).
Arguments Ok {A E} a.
Arguments Err {A E} e.

#[export] Instance Result_eq_dec {A E} `{EqDecision A, EqDecision E} :
  EqDecision (Result A E).
Proof. solve_decision. Defined.

Definition is_ok {A E} (r : Result A E) : bool :=
  match r with Ok _ => true | Err _ => false end.

Definition ok_or {A E} (e : E) (o : option A) : Result A E :=
  match o with Some a => Ok a | None => Err e end.

(** Rust's [?]: return the error early, or go on with the value. *)
Notation "'let?' x ':=' e 'in' k" :=
  (match e with Ok x => k | Err err => Err err end)
  (at level 10, x pattern, e at level 100, k at level 200) : gavel_scope.
Open Scope gavel_scope.

(** ** Lists sorted by a key *)
Lemma sorted_by_distinct_key {A} (f : A -> N) (l : list A) :
  StronglySorted (fun x y => f x <= f y) l -> NoDup (f <$> l) ->
  StronglySorted (fun x y => f x < f y) l.
Proof.
  intros Hs. induction Hs as [|x l Hs IH Hall]; intros Hnd; [constructor|].
  rewrite fmap_cons in Hnd. apply NoDup_cons in Hnd as [Hni Hnd]. constructor; [by apply IH|].
  rewrite Forall_forall in Hall |- *. intros y Hy. specialize (Hall y Hy).
  assert (f x <> f y); [|lia]. intros E. apply Hni. rewrite E. by apply list_elem_of_fmap_2.
Qed.

Lemma NoDup_omap_key {A B} (f : A -> option B) (g : B -> A) (l : list A) :
  (forall x y, f x = Some y -> g y = x) -> NoDup l -> NoDup (g <$> omap f l).
Proof.
  intros Hfg. induction l as [|x l IH]; intros Hl; [constructor|].
  apply NoDup_cons in Hl as [Hni Hl]. simpl. destruct (f x) as [y|] eqn:Hf; [|by apply IH].
  rewrite fmap_cons. apply NoDup_cons. split; [|by apply IH]. rewrite (Hfg _ _ Hf).
  intros (z & Hz & Hin)%list_elem_of_fmap. apply list_elem_of_omap in Hin as (x' & Hx' & Hf').
  apply Hfg in Hf'. congruence.
Qed.

(** ** Ordered maps

    A [BTreeMap] keyed by an integer is a [gmap N V]; iterating it visits the
    keys in increasing order, which [entries] makes explicit. *)
Section BTreeMap.
Context {V : Type}.
Implicit Types m : gmap N V.

Definition key_le (p q : N * V) : Prop := p.1 <= q.1.

#[export] Instance key_le_dec p q : Decision (key_le p q).
Proof. unfold key_le. apply _. Defined.

Definition entries m : list (N * V) := merge_sort key_le (map_to_list m).
Definition keys m : list N := (entries m).*1.
Definition values m : list V := (entries m).*2.

#[export] Instance key_le_total : Total key_le.
Proof. intros p q. unfold key_le. lia. Qed.

#[export] Instance key_le_trans : Transitive key_le.
Proof. intros p q r. unfold key_le. lia. Qed.

Lemma entries_perm m : entries m ≡ₚ map_to_list m.
Proof. apply merge_sort_Permutation. Qed.

Lemma elem_of_entries m k v : (k, v) ∈ entries m <-> m !! k = Some v.
Proof. rewrite entries_perm. apply elem_of_map_to_list. Qed.

Lemma elem_of_values m v : v ∈ values m <-> exists k, m !! k = Some v.
Proof.
  unfold values. rewrite list_elem_of_fmap. split.
  - intros [[k v'] [-> H]]. exists k. by apply elem_of_entries.
  - intros [k H]. exists (k, v). by rewrite elem_of_entries.
Qed.

Lemma elem_of_keys m k : k ∈ keys m <-> is_Some (m !! k).
Proof.
  unfold keys. rewrite list_elem_of_fmap. split.
  - intros [[k' v] [-> H]]. exists v. by apply elem_of_entries.
  - intros [v H]. exists (k, v). by rewrite elem_of_entries.
Qed.

Lemma keys_perm m : keys m ≡ₚ (map_to_list m).*1.
Proof. unfold keys. by rewrite entries_perm. Qed.

Lemma keys_NoDup m : NoDup (keys m).
Proof. rewrite keys_perm. apply NoDup_fst_map_to_list. Qed.

Lemma entries_sorted m : StronglySorted key_le (entries m).
Proof. apply (StronglySorted_merge_sort key_le). Qed.

Lemma keys_sorted m : StronglySorted N.lt (keys m).
Proof.
  pose proof (sorted_by_distinct_key fst _ (entries_sorted m) (keys_NoDup m)) as Hs.
  unfold keys. induction Hs as [|p l Hs IH Hall]; constructor; [done|].
  apply Forall_fmap. exact Hall.
Qed.

Lemma length_values m : length (values m) = size m.
Proof. unfold values. by rewrite length_fmap, entries_perm, length_map_to_list. Qed.
End BTreeMap.

(** Values are found under their key when the map is keyed by a field. *)
Definition keyed {V} (id : V -> N) (m : gmap N V) : Prop :=
  map_Forall (fun k v => id v = k) m.

Lemma keyed_insert {V} (id : V -> N) m k v :
  keyed id m -> id v = k -> keyed id (<[k := v]> m).
Proof. intros Hm Hk. by apply map_Forall_insert_2. Qed.

Lemma keyed_delete {V} (id : V -> N) m k : keyed id m -> keyed id (delete k m).
Proof. apply map_Forall_delete. Qed.

Lemma keyed_empty {V} (id : V -> N) : keyed id (∅ : gmap N V).
Proof. apply map_Forall_empty. Qed.

Lemma keyed_lookup {V} (id : V -> N) m k v : keyed id m -> m !! k = Some v -> id v = k.
Proof. intros Hm Hk. exact (Hm k v Hk). Qed.

Lemma alter_as_insert `{Countable K} {V} (f : V -> V) (m : gmap K V) k v : m !! k = Some v -> alter f k m = <[k := f v]> m.
Proof.
  intros Hk. apply map_eq. intros i. rewrite lookup_alter, lookup_insert, Hk. by destruct (decide (k = i)).
Qed.

Lemma filter_all {A} (Q : A -> Prop) `{forall x, Decision (Q x)} (l : list A) : Forall Q l -> filter Q l = l.
Proof. induction 1 as [|x l Hx _ IH]; [done|]. rewrite filter_cons, decide_True by done. by rewrite IH. Qed.

Lemma NoDup_fmap_filter {A B} (f : A -> B) (Q : A -> Prop) `{forall x, Decision (Q x)} (l : list A) :
  NoDup (f <$> l) -> NoDup (f <$> filter Q l).
Proof.
  induction l as [|x l IH]; [done|]. rewrite fmap_cons, filter_cons. intros [Hni Hl]%NoDup_cons.
  destruct (decide (Q x)); [|by apply IH]. rewrite fmap_cons. apply NoDup_cons. split; [|by apply IH].
  intros (y & Hy & Hin)%list_elem_of_fmap. apply Hni, list_elem_of_fmap. exists y.
  split; [done|]. by apply list_elem_of_filter in Hin as [_ ?].
Qed.

(** A map keyed by a field iterates in the order of that field. *)
Lemma keyed_values {V} (id : V -> N) m : keyed id m -> id <$> values m = keys m.
Proof.
  intros Hk. unfold values, keys. rewrite <-list_fmap_compose. apply list_fmap_ext. intros i [k v] Hi.
  apply list_elem_of_lookup_2, elem_of_entries in Hi. cbn. by apply Hk.
Qed.

Lemma keyed_values_NoDup {V} (id : V -> N) m : keyed id m -> NoDup (id <$> values m).
Proof. intros Hk. rewrite keyed_values by done. apply keys_NoDup. Qed.

Create HintDb gavel.
#[export] Hint Resolve sat_add_le wrap_lt keyed_insert keyed_delete keyed_empty keyed_lookup : gavel.

(** ** Counting the values of a map *)
Section Count.
Context {V : Type} (P : V -> Prop) `{forall v, Decision (P v)}.

Definition count (m : gmap N V) : nat := size (filter (fun kv => P kv.2) m).
Definition weight (o : option V) : nat :=
  match o with Some v => if decide (P v) then 1 else 0 | None => 0 end.

Lemma count_empty : count ∅ = 0%nat.
Proof. unfold count. by rewrite map_filter_empty, map_size_empty. Qed.

Lemma count_insert_None m k v :
  m !! k = None -> count (<[k := v]> m) = (weight (Some v) + count m)%nat.
Proof.
  intros Hk. unfold count, weight. case_decide as HP.
  - rewrite map_filter_insert_True by done. rewrite map_size_insert_None; [done|].
    apply map_lookup_filter_None. by left.
  - rewrite map_filter_insert_False by done. by rewrite delete_id.
Qed.

Lemma count_delete m k v :
  m !! k = Some v -> count m = (weight (Some v) + count (delete k m))%nat.
Proof.
  intros Hk. rewrite <- (insert_delete_id m k v) at 1 by done.
  by rewrite count_insert_None by apply lookup_delete_eq.
Qed.

(** Replacing a value moves the count by the difference of the weights. *)
Lemma count_insert m k v :
  (weight (m !! k) + count (<[k := v]> m) = weight (Some v) + count m)%nat.
Proof.
  destruct (m !! k) as [w|] eqn:Hk.
  - rewrite (count_delete m k w) by done.
    rewrite <- insert_delete_eq, count_insert_None by apply lookup_delete_eq. lia.
  - rewrite count_insert_None by done. simpl. lia.
Qed.

Lemma count_pos m : (0 < count m)%nat <-> exists k v, m !! k = Some v /\ P v.
Proof.
  unfold count. split.
  - intros Hlt. destruct (map_choose (filter (fun kv => P kv.2) m)) as (k & v & Hk).
    { intros Heq. rewrite Heq, map_size_empty in Hlt. lia. }
    apply map_lookup_filter_Some in Hk as [Hk HP]. eauto.
  - intros (k & v & Hk & HP). apply Nat.neq_0_lt_0. intros Hz.
    apply map_size_empty_inv in Hz.
    assert (filter (fun kv => P kv.2) m !! k = Some v) as Hf
      by (by apply map_lookup_filter_Some).
    by rewrite Hz, lookup_empty in Hf.
Qed.
End Count.

(** ** Sums

    Rust's [iter().sum::<u64>()] is [wrap 64 (sumN l)]: addition modulo [2 ^ 64] in
    any order. *)
Definition sumN (l : list N) : N := foldr N.add 0 l.

Lemma sumN_app l k : sumN (l ++ k) = sumN l + sumN k.
Proof. unfold sumN. induction l as [|x l IH]; cbn; lia. Qed.

Lemma sumN_cons x l : sumN (x :: l) = x + sumN l.
Proof. done. Qed.

#[export] Instance sumN_perm : Proper ((≡ₚ) ==> (=)) sumN.
Proof. intros l k H. induction H; rewrite ?sumN_cons in *; try lia; done. Qed.

Lemma sumN_fmap_le {A} (f g : A -> N) l : (forall x, x ∈ l -> f x <= g x) -> sumN (f <$> l) <= sumN (g <$> l).
Proof.
  induction l as [|x l IH]; intros H; [done|]. rewrite !fmap_cons, !sumN_cons.
  pose proof (H x ltac:(left)). assert (sumN (f <$> l) <= sumN (g <$> l)) by (apply IH; intros y Hy; apply H; by right). lia.
Qed.

Lemma sumN_elem x l : x ∈ l -> x <= sumN l.
Proof. induction 1; rewrite sumN_cons; lia. Qed.

Lemma sumN_bounds (l : list N) lo hi : Forall (fun v => lo <= v <= hi) l ->
  lo * N.of_nat (length l) <= sumN l <= hi * N.of_nat (length l).
Proof. induction 1 as [|v l Hv _ IH]; cbn [length sumN foldr]; [lia|]. unfold sumN in *. lia. Qed.

Lemma sumN_filter_le {A} (f : A -> N) (Q : A -> Prop) `{forall x, Decision (Q x)} l :
  sumN (f <$> filter Q l) <= sumN (f <$> l).
Proof. induction l as [|x l IH]; [done|]. rewrite filter_cons. case_decide; rewrite ?fmap_cons, ?sumN_cons; lia. Qed.

(** [slice::partition_point] of a slice partitioned by [p]: how many lead. *)
Fixpoint partition_point {A} (p : A -> bool) (l : list A) : nat :=
  match l with
  | [] => 0
  | x :: l' => if p x then S (partition_point p l') else 0
  end.

Lemma partition_point_le {A} (p : A -> bool) (l : list A) : (partition_point p l <= length l)%nat.
Proof. induction l as [|x l IH]; cbn; [lia|]. destruct (p x); cbn; lia. Qed.

(** On a slice sorted by a key, they are the elements that satisfy a
    downward closed test. *)
Lemma partition_point_sorted {A} (f : A -> N) (p : N -> bool) (l : list A) :
  StronglySorted (fun x y => f x <= f y) l -> (forall a b, a <= b -> p b = true -> p a = true) ->
  take (partition_point (fun x => p (f x)) l) l = filter (fun x => p (f x) = true) l.
Proof.
  intros Hs Hp. induction Hs as [|x l Hs IH Hall]; [done|]. cbn [partition_point].
  rewrite filter_cons. destruct (p (f x)) eqn:Hx.
  - rewrite decide_True by done. cbn [take]. by rewrite IH.
  - rewrite decide_False by done. symmetry. clear IH Hs. induction Hall as [|y l Hy _ IH]; [done|].
    rewrite filter_cons, decide_False; [done|]. intros Hpy. by rewrite (Hp _ _ Hy Hpy) in Hx.
Qed.

Lemma filter_Permutation {A} (Q : A -> Prop) `{forall x, Decision (Q x)} (l k : list A) :
  l ≡ₚ k -> filter Q l ≡ₚ filter Q k.
Proof. by intros ->. Qed.
