(* ===== verification/Text.v ===== *)
(** * Text: the string operations of the standard library the codecs use

    Rust's [str::split(char)], [split_once], [strip_prefix], [strip_suffix],
    [eq_ignore_ascii_case] and the decimal [Display]/[FromStr] of the unsigned
    integers, over byte strings.  [Display] of an unsigned integer is [pretty];
    [parse_uint] follows [u64::from_str]: an optional single plus sign, at least
    one digit, nothing but digits, and an error on overflow.

    The lemmas are the ones every stored form below rests on: printing a number
    and reading it back is the identity, a printed number holds no separator, and
    splitting a joined list of pieces that hold no separator gives the pieces
    back. *)
From Stdlib Require Import Ascii.
From stdpp Require Import prelude strings pretty.
From S2P Require Import Prelude.

(** ** Characters and pieces *)
Fixpoint has_char (c : ascii) (s : string) : bool :=
  match s with
  | EmptyString => false
  | String a s' => bool_decide (a = c) || has_char c s'
  end.

(** [str::split(c)]: one more piece than there are separators. *)
Fixpoint split (c : ascii) (s : string) : list string :=
  match s with
  | EmptyString => [""]
  | String a s' =>
      if decide (a = c) then "" :: split c s'
      else match split c s' with
           | [] => [String a EmptyString]
           | p :: ps => String a p :: ps
           end
  end.

(** [str::split_once(c)]: around the first separator. *)
Fixpoint split_once (c : ascii) (s : string) : option (string * string) :=
  match s with
  | EmptyString => None
  | String a s' =>
      if decide (a = c) then Some ("", s')
      else match split_once c s' with
           | Some (l, r) => Some (String a l, r)
           | None => None
           end
  end.

Fixpoint strip_prefix (p s : string) : option string :=
  match p, s with
  | EmptyString, _ => Some s
  | String a p', String b s' => if decide (a = b) then strip_prefix p' s' else None
  | String _ _, EmptyString => None
  end.

(** [str::strip_suffix(char)]. *)
Fixpoint strip_suffix (c : ascii) (s : string) : option string :=
  match s with
  | EmptyString => None
  | String a EmptyString => if decide (a = c) then Some "" else None
  | String a s' => String a <$> strip_suffix c s'
  end.

(** Pieces with a separator between them. *)
Fixpoint join (c : ascii) (l : list string) : string :=
  match l with
  | [] => ""
  | [p] => p
  | p :: ps => (p +:+ String c (join c ps))%string
  end.

Definition ascii_lower (a : ascii) : ascii :=
  let n := N_of_ascii a in
  if decide (65 <= n <= 90) then ascii_of_N (n + 32) else a.

Fixpoint to_lower (s : string) : string :=
  match s with EmptyString => EmptyString | String a s' => String (ascii_lower a) (to_lower s') end.

Definition eq_ignore_ascii_case (s t : string) : bool := bool_decide (to_lower s = to_lower t).

(** ** Numbers *)
Definition digit (a : ascii) : option N :=
  let n := N_of_ascii a in
  if decide (48 <= n <= 57) then Some (n - 48) else None.

Fixpoint parse_digits (max acc : N) (s : string) : option N :=
  match s with
  | EmptyString => Some acc
  | String a s' =>
      d ← digit a;
      let acc' := acc * 10 + d in
      if decide (acc' <= max) then parse_digits max acc' s' else None
  end.

(** [uN::from_str] for the unsigned width whose greatest value is [max]. *)
Definition parse_uint (max : N) (s : string) : option N :=
  match s with
  | EmptyString => None
  | String a s' =>
      if decide (a = "+"%char) then
        match s' with EmptyString => None | _ => parse_digits max 0 s' end
      else parse_digits max 0 s
  end.

Abbreviation parse_u64 := (parse_uint u64_max).
Abbreviation parse_u32 := (parse_uint u32_max).
Abbreviation parse_u8 := (parse_uint u8_max).

(** ** White space *)
Definition is_space (a : ascii) : bool := let n := N_of_ascii a in bool_decide (n = 32 \/ 9 <= n <= 13).

Fixpoint trim_left (s : string) : string :=
  match s with String a t => if is_space a then trim_left t else s | EmptyString => s end.

Fixpoint trim_right (s : string) : string :=
  match s with
  | String a t => match trim_right t with EmptyString => if is_space a then EmptyString else String a EmptyString | t' => String a t' end
  | EmptyString => s
  end.

(** [str::trim], of visible ASCII. *)
Definition trim (s : string) : string := trim_right (trim_left s).

(** ** Laws *)
Lemma has_char_app c s t : has_char c (s +:+ t) = has_char c s || has_char c t.
Proof. induction s as [|a s IH]; [done|]. simpl. rewrite IH. by rewrite orb_assoc. Qed.

Lemma split_no_sep c s : has_char c s = false -> split c s = [s].
Proof.
  induction s as [|a s IH]; [done|]. simpl. intros [Ha Hs]%orb_false_iff.
  rewrite decide_False by (by apply bool_decide_eq_false in Ha). by rewrite IH.
Qed.

Lemma split_cons c s t : has_char c s = false -> split c (s +:+ String c t) = s :: split c t.
Proof.
  induction s as [|a s IH]; simpl; [by rewrite decide_True|]. intros [Ha Hs]%orb_false_iff.
  rewrite decide_False by (by apply bool_decide_eq_false in Ha). by rewrite IH.
Qed.

(** Splitting what was joined gives the pieces back. *)
Lemma split_join c l :
  l <> [] -> Forall (fun p => has_char c p = false) l -> split c (join c l) = l.
Proof.
  induction l as [|p l IH]; [done|]. intros _ [Hp Hl]%Forall_cons.
  destruct l as [|q l]; [by apply split_no_sep|].
  change (join c (p :: q :: l)) with (p +:+ String c (join c (q :: l))). rewrite split_cons by done. by rewrite IH.
Qed.

Lemma split_nonempty c s : split c s <> [].
Proof. destruct s as [|a s]; [done|]. simpl. case_decide; [done|]. by destruct (split c s). Qed.

Lemma split_once_none c s : has_char c s = false -> split_once c s = None.
Proof.
  induction s as [|a s IH]; [done|]. cbn [has_char split_once]. intros [Ha Hs]%orb_false_iff. rewrite decide_False by (by apply bool_decide_eq_false in Ha). by rewrite IH.
Qed.

Lemma text_app_assoc (a b c : string) : ((a +:+ b) +:+ c = a +:+ (b +:+ c))%string.
Proof. induction a as [|x a IH]; [done|]. change (String x ((a +:+ b) +:+ c) = String x (a +:+ (b +:+ c)))%string. by rewrite IH. Qed.

Lemma split_once_app c s t : has_char c s = false -> split_once c (s +:+ String c t) = Some (s, t).
Proof.
  induction s as [|a s IH]; simpl; [by rewrite decide_True|]. intros [Ha Hs]%orb_false_iff.
  rewrite decide_False by (by apply bool_decide_eq_false in Ha). by rewrite IH.
Qed.

Lemma strip_prefix_app p s : strip_prefix p (p +:+ s) = Some s.
Proof. induction p as [|a p IH]; [done|]. simpl. by rewrite decide_True. Qed.

Lemma strip_prefix_Some p s r : strip_prefix p s = Some r -> s = p +:+ r.
Proof.
  revert s. induction p as [|a p IH]; intros s; simpl; [by intros [= ->]|].
  destruct s as [|b s]; [done|]. case_decide; [|done]. intros Hr. subst. by rewrite (IH _ Hr).
Qed.

Lemma strip_suffix_app c s : strip_suffix c (s +:+ String c EmptyString) = Some s.
Proof.
  induction s as [|a s IH]; simpl; [by rewrite decide_True|].
  destruct (s +:+ String c EmptyString) as [|b r] eqn:Hs; [by destruct s|]. rewrite IH. done.
Qed.

Lemma strip_suffix_Some c s r : strip_suffix c s = Some r -> s = r +:+ String c EmptyString.
Proof.
  revert r. induction s as [|a s IH]; intros r; [done|]. simpl. destruct s as [|b s].
  - case_decide; [|done]. intros [= <-]. by subst.
  - intros (r' & Hr & ->)%fmap_Some. by rewrite (IH _ Hr).
Qed.

Lemma parse_digits_le max acc s n : acc <= max -> parse_digits max acc s = Some n -> acc <= n <= max.
Proof.
  revert acc. induction s as [|a s IH]; intros acc Hacc; simpl; [intros [= <-]; lia|].
  destruct (digit a) as [d|]; [|done]. simpl. case_decide; [|done]. intros Hp. apply IH in Hp; [|done]. lia.
Qed.

Lemma parse_uint_le max s n : parse_uint max s = Some n -> n <= max.
Proof.
  unfold parse_uint. destruct s as [|a s]; [done|].
  case_decide; [destruct s as [|b s]; [done|]|]; intros Hp; apply parse_digits_le in Hp; lia.
Qed.

(** *** Printed numbers *)
Definition is_digit (a : ascii) : bool := bool_decide (48 <= N_of_ascii a <= 57).

Fixpoint all_digits (s : string) : bool :=
  match s with EmptyString => true | String a s' => is_digit a && all_digits s' end.

Lemma pretty_N_char_digit d : d < 10 -> digit (pretty_N_char d) = Some d /\ is_digit (pretty_N_char d) = true.
Proof.
  intros Hd. assert (d = 0 \/ d = 1 \/ d = 2 \/ d = 3 \/ d = 4 \/ d = 5 \/ d = 6 \/ d = 7 \/ d = 8 \/ d = 9)
    as Hc by lia. by repeat destruct Hc as [-> | Hc]; subst.
Qed.

(** The accumulator of [pretty_N_go] collects the digits of [x] in front of [s]. *)
Lemma pretty_N_go_spec max x s :
  all_digits s = true ->
  all_digits (pretty_N_go x s) = true /\
  forall acc, (acc = 0) -> x <= max ->
    parse_digits max acc (pretty_N_go x s) = parse_digits max x s.
Proof.
  revert s. induction (N.lt_wf_0 x) as [x _ IH]; intros s Hs. destruct (decide (x = 0)) as [->|Hx].
  { rewrite pretty_N_go_0. split; [done|]. by intros acc ->. }
  rewrite pretty_N_go_step by lia. assert (x mod 10 < 10) as Hm by (apply N.mod_lt; lia).
  destruct (pretty_N_char_digit _ Hm) as [Hd Hi]. assert (x / 10 < x) as Hlt by (apply N.div_lt; lia).
  destruct (IH _ Hlt (String (pretty_N_char (x mod 10)) s)) as [Hall Hp]; [simpl; by rewrite Hi, Hs|].
  split; [done|]. intros acc -> Hle. rewrite Hp by lia. cbn [parse_digits]. rewrite Hd. simpl.
  pose proof (N.div_mod x 10 ltac:(lia)) as Hdm. rewrite decide_True by lia. f_equal. lia.
Qed.

Lemma pretty_all_digits (n : N) : all_digits (pretty n) = true.
Proof.
  unfold pretty, pretty_N. case_decide; [done|]. by apply (pretty_N_go_spec n).
Qed.

Lemma pretty_N_go_nonempty x s : (x <> 0 \/ s <> "") -> pretty_N_go x s <> "".
Proof.
  revert s. induction (N.lt_wf_0 x) as [x _ IH]; intros s Hs. destruct (decide (x = 0)) as [->|Hx].
  { rewrite pretty_N_go_0. by destruct Hs. }
  rewrite pretty_N_go_step by lia. apply IH; [apply N.div_lt; lia|by right].
Qed.

Lemma pretty_nonempty (n : N) : pretty n <> "".
Proof. unfold pretty, pretty_N. case_decide; [done|]. apply pretty_N_go_nonempty. by left. Qed.

Lemma all_digits_has_char c s : is_digit c = false -> all_digits s = true -> has_char c s = false.
Proof.
  intros Hc. induction s as [|a s IH]; [done|]. simpl. intros [Ha Hs]%andb_true_iff.
  rewrite IH by done. rewrite bool_decide_eq_false_2; [done|]. intros ->. congruence.
Qed.

(** A printed number holds no character that is not a digit. *)
Lemma pretty_has_char c (n : N) : is_digit c = false -> has_char c (pretty n) = false.
Proof. intros Hc. apply all_digits_has_char; [done|]. apply pretty_all_digits. Qed.

(** Printing and reading back is the identity on the numbers of the width. *)
Lemma parse_pretty max n : n <= max -> parse_uint max (pretty n) = Some n.
Proof.
  intros Hn. assert (parse_digits max 0 (pretty n) = Some n) as Hp.
  { unfold pretty, pretty_N. case_decide as H0; [subst; by destruct max|].
    destruct (pretty_N_go_spec max n "" eq_refl) as [_ ->]; [done|done|lia]. }
  pose proof (pretty_nonempty n) as Hne. pose proof (pretty_all_digits n) as Hd.
  unfold parse_uint. destruct (pretty n) as [|a s]; [done|]. rewrite decide_False; [done|].
  intros ->. by simpl in Hd.
Qed.

Lemma pretty_inj' (n m : N) : pretty n = pretty m -> n = m.
Proof. intros H. by apply (inj pretty) in H. Qed.

(** Pieces printed from numbers, split again. *)
Lemma split_join_pretty c (l : list N) :
  is_digit c = false -> l <> [] -> split c (join c (pretty <$> l)) = pretty <$> l.
Proof.
  intros Hc Hl. apply split_join; [by destruct l|]. apply Forall_fmap, Forall_true. intros n.
  by apply pretty_has_char.
Qed.

#[export] Hint Resolve pretty_has_char split_nonempty pretty_nonempty : gavel.

(** ** Lengths and trimming *)
Lemma length_text_app (s t : string) : String.length (s +:+ t) = (String.length s + String.length t)%nat.
Proof. induction s as [|a s IH]; [done|]. change (S (String.length (s +:+ t)) = S (String.length s + String.length t)). by rewrite IH. Qed.

Lemma app_suffix_inj (s t u : string) : s +:+ u = t +:+ u -> s = t.
Proof.
  revert t. induction s as [|a s IH]; intros [|b t] H; [done|..].
  - apply (f_equal String.length) in H. rewrite !length_text_app in H. cbn in H. lia.
  - apply (f_equal String.length) in H. rewrite !length_text_app in H. cbn in H. lia.
  - change (String a (s +:+ u) = String b (t +:+ u)) in H. injection H as -> H. f_equal. by apply IH.
Qed.

Lemma trim_right_snoc s a : is_space a = false -> trim_right (s +:+ String a EmptyString) = s +:+ String a EmptyString.
Proof.
  intros Ha. induction s as [|b s IH].
  - change (trim_right (String a EmptyString) = String a EmptyString). cbn. by rewrite Ha.
  - change (trim_right (String b (s +:+ String a EmptyString)) = String b (s +:+ String a EmptyString)). cbn [trim_right]. rewrite IH.
    destruct s; done.
Qed.

(** A text that begins and ends with something else than white space is left as it is. *)
Lemma trim_solid s a b : is_space a = false -> is_space b = false -> trim (String a (s +:+ String b EmptyString)) = String a (s +:+ String b EmptyString).
Proof. intros Ha Hb. unfold trim. cbn [trim_left]. rewrite Ha. by apply (trim_right_snoc (String a s)). Qed.
