(* ===== verification/F64.v ===== *)
(** * F64: the double-precision arithmetic the statistics use

    The percentile estimator and the daily means are written with [f64].  Every
    finite double is a whole multiple of the smallest positive one, 2^-1074, so a
    finite [f64] is modelled as that multiple, an integer, and 1.0 is 2^1074.  An
    operation computes the exact rational result and rounds it to the nearest
    multiple of a power of two that leaves 53 significant bits, ties to the even
    one: IEEE 754's roundTiesToEven, gradual underflow included.  What is left out
    is overflow to infinity and NaN; the values the modelled code computes stay
    below 2^118, where neither arises, and it never divides by zero.

    The lemmas are the facts about rounding the estimator's theorems rest on:
    rounding is monotone, leaves representable values alone, and never crosses a
    representable value. *)
From stdpp Require Import prelude.
From S2P Require Import Prelude.

#[local] Open Scope Z_scope.

(** A finite double, counted in units of 2^-1074. *)
Abbreviation f64 := Z.
Definition one : f64 := 2 ^ 1074.

(** [n / d] to the nearest integer, ties to even, for [d] positive. *)
Definition rne (n d : Z) : Z :=
  let q := n / d in
  match 2 * (n mod d) ?= d with
  | Lt => q
  | Gt => q + 1
  | Eq => if Z.even q then q else q + 1
  end.

(** The weight of the last of 53 bits of a value of [v] units. *)
Definition ulp_exp (v : Z) : Z := Z.max 0 (Z.log2 v - 52).

Definition rnd_pos (n d : Z) : f64 :=
  let e := ulp_exp (n / d) in rne n (d * 2 ^ e) * 2 ^ e.

(** The exact value of [n / d] units, rounded to a double. *)
Definition rnd (n d : Z) : f64 := if decide (n < 0) then - rnd_pos (- n) d else rnd_pos n d.

Definition fadd (x y : f64) : f64 := rnd (x + y) 1.
Definition fsub (x y : f64) : f64 := rnd (x - y) 1.
Definition fmul (x y : f64) : f64 := rnd (x * y) one.
(** For a positive divisor, which is all the code has. *)
Definition fdiv (x y : f64) : f64 := rnd (x * one) y.

(** A decimal literal [n / d], and the conversion [n as f64]. *)
Definition lit (n d : Z) : f64 := rnd (n * one) d.
Definition of_u64 (n : N) : f64 := lit (Z.of_N n) 1.

Definition fclamp (x lo hi : f64) : f64 := Z.max lo (Z.min hi x).
Definition ffloor (x : f64) : f64 := x / one * one.
(** [f64::round]: halves away from zero. *)
Definition fround (x : f64) : f64 := Z.sgn x * ((2 * Z.abs x + one) / (2 * one)) * one.
(** [x as u64]: truncation, saturating at both ends. *)
Definition to_u64 (x : f64) : N := Z.to_N (Z.min (Z.of_N u64_max) (Z.quot x one)).
Abbreviation to_usize := to_u64.

(** ** Rounding *)
Lemma one_pos : 0 < one.
Proof. apply Z.pow_pos_nonneg; lia. Qed.

Lemma one_ge : 2 ^ 53 <= one.
Proof. apply Z.pow_le_mono_r; lia. Qed.

(** The values that round to themselves. *)
Definition representable (x : f64) : Prop := exists m e, 0 <= e /\ Z.abs m <= 2 ^ 53 /\ x = m * 2 ^ e.

Lemma rne_bounds n d : 0 < d -> n / d <= rne n d <= n / d + 1.
Proof. intros Hd. unfold rne. destruct (2 * (n mod d) ?= d); [destruct (Z.even _)|..]; lia. Qed.

(** An integer is never crossed. *)
Lemma rne_ge n d g : 0 < d -> g * d <= n -> g <= rne n d.
Proof. intros Hd Hg. pose proof (rne_bounds n d Hd). assert (g <= n / d) by (apply Z.div_le_lower_bound; lia). lia. Qed.

Lemma rne_le n d g : 0 < d -> n <= g * d -> rne n d <= g.
Proof.
  intros Hd Hg. pose proof (rne_bounds n d Hd). destruct (decide (n = g * d)) as [->|Hne].
  - unfold rne. rewrite Z.mod_mul, Z.div_mul by lia. destruct (2 * 0 ?= d) eqn:Hc; [|lia|].
    + apply Z.compare_eq in Hc. lia.
    + apply Z.compare_gt_iff in Hc. lia.
  - assert (n / d < g) by (apply Z.div_lt_upper_bound; lia). lia.
Qed.

Lemma rne_mono n1 d1 n2 d2 : 0 < d1 -> 0 < d2 -> n1 * d2 <= n2 * d1 -> rne n1 d1 <= rne n2 d2.
Proof.
  intros H1 H2 Hle. pose proof (rne_bounds n1 d1 H1) as B1. pose proof (rne_bounds n2 d2 H2) as B2.
  pose proof (Z.div_mod n1 d1 ltac:(lia)) as E1. pose proof (Z.div_mod n2 d2 ltac:(lia)) as E2.
  pose proof (Z.mod_pos_bound n1 d1 H1) as M1. pose proof (Z.mod_pos_bound n2 d2 H2) as M2.
  destruct (Z.lt_trichotomy (n1 / d1) (n2 / d2)) as [Hq|[Hq|Hq]]; [lia| |exfalso].
  2: { assert (n2 < d2 * (n2 / d2 + 1)) by lia. assert (d1 * (n1 / d1) <= n1) by lia.
       assert (n2 * d1 < d2 * (n2 / d2 + 1) * d1) by (apply Z.mul_lt_mono_pos_r; lia).
       assert (d1 * (n1 / d1) * d2 <= n1 * d2) by (apply Z.mul_le_mono_nonneg_r; lia).
       assert (d2 * d1 * (n2 / d2 + 1) <= d2 * d1 * (n1 / d1)) by (apply Z.mul_le_mono_nonneg_l; nia). lia. }
  unfold rne in *. rewrite Hq in *. assert (n1 mod d1 * d2 <= n2 mod d2 * d1) as Hr by nia.
  destruct (2 * (n1 mod d1) ?= d1) eqn:C1, (2 * (n2 mod d2) ?= d2) eqn:C2; try (destruct (Z.even _)); try lia;
    repeat match goal with
      | H : (_ ?= _) = Eq |- _ => apply Z.compare_eq in H
      | H : (_ ?= _) = Lt |- _ => apply (proj1 (Z.compare_lt_iff _ _)) in H
      | H : (_ ?= _) = Gt |- _ => apply (proj1 (Z.compare_gt_iff _ _)) in H
      end; exfalso; nia.
Qed.

Lemma ulp_exp_nonneg v : 0 <= ulp_exp v.
Proof. unfold ulp_exp. lia. Qed.

Lemma ulp_exp_mono v w : v <= w -> ulp_exp v <= ulp_exp w.
Proof. intros H. unfold ulp_exp. pose proof (Z.log2_le_mono v w H). lia. Qed.

(** Where the significand of a value lies: below 2^53, and from 2^52 on unless the
    value is so small that its unit is the smallest there is. *)
Lemma ulp_exp_spec n d :
  0 <= n -> 0 < d -> let e := ulp_exp (n / d) in
  n < 2 ^ 53 * (d * 2 ^ e) /\ (0 < e -> 2 ^ 52 * (d * 2 ^ e) <= n).
Proof.
  intros Hn Hd e. assert (0 <= n / d) as Hv by (apply Z.div_pos; lia).
  pose proof (Z.div_mod n d ltac:(lia)) as Ed. pose proof (Z.mod_pos_bound n d Hd) as Md.
  unfold e, ulp_exp. destruct (decide (n / d = 0)) as [H0|H0].
  { rewrite H0. cbn. split; [nia|lia]. }
  destruct (Z.log2_spec (n / d) ltac:(lia)) as [L1 L2]. pose proof (Z.log2_nonneg (n / d)) as L3.
  set (k := Z.log2 (n / d)) in *. destruct (decide (k <= 52)) as [Hk|Hk].
  - rewrite Z.max_l by lia. split; [|lia]. assert (2 ^ Z.succ k <= 2 ^ 53) by (apply Z.pow_le_mono_r; lia). nia.
  - rewrite Z.max_r by lia. split.
    + assert (2 ^ Z.succ k = 2 ^ 53 * 2 ^ (k - 52)) by (rewrite <- Z.pow_add_r by lia; f_equal; lia). nia.
    + intros _. assert (2 ^ k = 2 ^ 52 * 2 ^ (k - 52)) by (rewrite <- Z.pow_add_r by lia; f_equal; lia). nia.
Qed.

Lemma rnd_pos_bounds n d :
  0 <= n -> 0 < d -> let e := ulp_exp (n / d) in
  0 <= rne n (d * 2 ^ e) <= 2 ^ 53 /\ (0 < e -> 2 ^ 52 <= rne n (d * 2 ^ e)).
Proof.
  intros Hn Hd e. destruct (ulp_exp_spec n d Hn Hd) as [Hu Hl]. fold e in Hu, Hl.
  assert (0 < 2 ^ e) by (apply Z.pow_pos_nonneg; [lia|apply ulp_exp_nonneg]).
  split; [split|]; [apply rne_ge; nia|apply rne_le; nia|]. intros He. apply rne_ge; [nia|]. by apply Hl.
Qed.

Lemma rnd_pos_mono n1 d1 n2 d2 :
  0 <= n1 -> 0 < d1 -> 0 < d2 -> n1 * d2 <= n2 * d1 -> rnd_pos n1 d1 <= rnd_pos n2 d2.
Proof.
  intros Hn H1 H2 Hle. assert (0 <= n2) by nia. unfold rnd_pos. assert (n1 / d1 <= n2 / d2) as Hd.
  { apply Z.div_le_lower_bound; [done|]. pose proof (Z.mul_div_le n1 d1 H1). nia. }
  pose proof (ulp_exp_mono _ _ Hd) as He. pose proof (ulp_exp_nonneg (n1 / d1)) as He0.
  destruct (rnd_pos_bounds n1 d1 Hn H1) as [[_ B1] _]. destruct (rnd_pos_bounds n2 d2 ltac:(lia) H2) as [[B2 _] B3].
  set (e1 := ulp_exp (n1 / d1)) in *. set (e2 := ulp_exp (n2 / d2)) in *.
  assert (0 < 2 ^ e1) by (apply Z.pow_pos_nonneg; lia). destruct (decide (e1 = e2)) as [Heq|Hne].
  - rewrite <- Heq in *. apply Z.mul_le_mono_nonneg_r; [lia|]. apply rne_mono; nia.
  - assert (2 ^ e2 = 2 * 2 ^ (e2 - 1)) as E by (rewrite <- Z.pow_succ_r by lia; f_equal; lia).
    assert (2 ^ e1 <= 2 ^ (e2 - 1)) by (apply Z.pow_le_mono_r; lia). specialize (B3 ltac:(lia)).
    assert (2 ^ 53 = 2 * 2 ^ 52) by reflexivity. nia.
Qed.

Lemma rnd_pos_nonneg n d : 0 <= n -> 0 < d -> 0 <= rnd_pos n d.
Proof. intros Hn Hd. destruct (rnd_pos_bounds n d Hn Hd) as [[H _] _]. unfold rnd_pos. pose proof (Z.pow_nonneg 2 (ulp_exp (n / d))). nia. Qed.

Lemma rnd_mono n1 d1 n2 d2 : 0 < d1 -> 0 < d2 -> n1 * d2 <= n2 * d1 -> rnd n1 d1 <= rnd n2 d2.
Proof.
  intros H1 H2 Hle. unfold rnd. repeat case_decide.
  - pose proof (rnd_pos_mono (- n2) d2 (- n1) d1). lia.
  - pose proof (rnd_pos_nonneg (- n1) d1). pose proof (rnd_pos_nonneg n2 d2). lia.
  - exfalso. nia.
  - apply rnd_pos_mono; lia.
Qed.

Lemma rnd_pos_exact m e d : 0 <= m <= 2 ^ 53 -> 0 <= e -> 0 < d -> rnd_pos (m * 2 ^ e * d) d = m * 2 ^ e.
Proof.
  intros Hm He Hd. assert (0 < 2 ^ e) as Hp by (apply Z.pow_pos_nonneg; lia).
  unfold rnd_pos. rewrite Z.div_mul by lia. set (k := ulp_exp (m * 2 ^ e)). pose proof (ulp_exp_nonneg (m * 2 ^ e)) as Hk.
  fold k in Hk. assert (0 < 2 ^ k) as Hpk by (apply Z.pow_pos_nonneg; lia).
  assert (exists c, m * 2 ^ e = c * 2 ^ k) as [c Hc].
  { destruct (decide (k <= e)) as [Hke|Hke].
    - exists (m * 2 ^ (e - k)). rewrite <- Z.mul_assoc, <- Z.pow_add_r by lia. do 2 f_equal. lia.
    - assert (0 < k) as Hk0 by lia. unfold k, ulp_exp in Hk0, Hke.
      assert (m = 2 ^ 53 /\ k = e + 1) as [-> ->].
      { assert (m * 2 ^ e <= 2 ^ (53 + e)) as Hle by (rewrite Z.pow_add_r by lia; nia).
        apply Z.log2_le_mono in Hle. rewrite Z.log2_pow2 in Hle by lia.
        destruct (decide (m = 2 ^ 53)) as [->|Hm']; [split; [done|unfold k, ulp_exp; lia]|exfalso].
        destruct (decide (m = 0)) as [->|Hm0]; [rewrite Z.mul_0_l in Hke; cbn [Z.log2] in Hke; lia|].
        assert (Z.log2 (m * 2 ^ e) < 53 + e) as Hlt; [|lia]. apply Z.log2_lt_pow2; [nia|].
        rewrite Z.pow_add_r by lia. nia. }
      exists (2 ^ 52). rewrite <- !Z.pow_add_r by lia. f_equal. lia. }
  rewrite Hc. f_equal. apply Z.le_antisymm; [apply rne_le|apply rne_ge]; nia.
Qed.

(** A representable value rounds to itself. *)
Lemma rnd_exact x d : representable x -> 0 < d -> rnd (x * d) d = x.
Proof.
  intros (m & e & He & Hm & ->) Hd. assert (0 < 2 ^ e) as Hp by (apply Z.pow_pos_nonneg; lia). unfold rnd. case_decide as Hs.
  - replace (- (m * 2 ^ e * d)) with (- m * 2 ^ e * d) by ring. rewrite rnd_pos_exact by (try lia; nia). ring.
  - apply rnd_pos_exact; [nia|lia..].
Qed.

(** Rounding never crosses a representable value. *)
Lemma rnd_ge n d g : representable g -> 0 < d -> g * d <= n -> g <= rnd n d.
Proof. intros Hg Hd Hle. rewrite <- (rnd_exact g d Hg Hd). apply rnd_mono; nia. Qed.

Lemma rnd_le n d g : representable g -> 0 < d -> n <= g * d -> rnd n d <= g.
Proof. intros Hg Hd Hle. rewrite <- (rnd_exact g d Hg Hd). apply rnd_mono; nia. Qed.

Lemma rnd_representable n d : 0 < d -> representable (rnd n d).
Proof.
  assert (forall k, 0 <= k -> 0 < d -> representable (rnd_pos k d)) as H.
  { intros k Hk Hd. destruct (rnd_pos_bounds k d Hk Hd) as [[Hl Hu] _]. unfold rnd_pos.
    eexists _, _. split; [apply (ulp_exp_nonneg (k / d))|]. split; [|done]. lia. }
  intros Hd. unfold rnd. case_decide; [|by apply H; lia].
  destruct (H (- n) ltac:(lia) Hd) as (m & e & He & Hm & ->). exists (- m), e. split_and!; [done|lia|ring].
Qed.

Lemma representable_0 : representable 0.
Proof. exists 0, 0. by split_and!. Qed.

Lemma representable_int m : Z.abs m <= 2 ^ 53 -> representable (m * one).
Proof. intros Hm. exists m, 1074. split_and!; [lia|done|done]. Qed.

Lemma representable_small m : Z.abs m <= 2 ^ 53 -> representable m.
Proof. intros Hm. exists m, 0. split_and!; [lia|done|lia]. Qed.

Lemma of_u64_nonneg n : 0 <= of_u64 n.
Proof. unfold of_u64, lit. pose proof one_pos. apply rnd_ge; [apply representable_0|lia|lia]. Qed.

(** Whole numbers up to 2^53 convert exactly. *)
Lemma of_u64_exact n : (n <= 2 ^ 53)%N -> of_u64 n = Z.of_N n * one.
Proof.
  intros Hn. unfold of_u64, lit. rewrite <- (Z.mul_1_r (Z.of_N n * one)) at 1. apply rnd_exact; [|lia].
  apply representable_int. lia.
Qed.

Lemma fadd_mono x x' y y' : x <= x' -> y <= y' -> fadd x y <= fadd x' y'.
Proof. intros. apply rnd_mono; lia. Qed.

Lemma fmul_mono x x' y y' : 0 <= x <= x' -> 0 <= y <= y' -> fmul x y <= fmul x' y'.
Proof. intros. pose proof one_pos. apply rnd_mono; [done..|]. apply Z.mul_le_mono_nonneg_r; [lia|]. nia. Qed.

Lemma fmul_nonneg x y : 0 <= x -> 0 <= y -> 0 <= fmul x y.
Proof. intros. pose proof one_pos. apply rnd_ge; [apply representable_0|done|nia]. Qed.

(** A factor of at most 1.0 does not enlarge. *)
Lemma fmul_le_l x y : representable y -> 0 <= x <= one -> 0 <= y -> fmul x y <= y.
Proof. intros Hr Hx Hy. pose proof one_pos. apply rnd_le; [done..|]. nia. Qed.

Lemma fadd_le x y g : representable g -> x + y <= g -> fadd x y <= g.
Proof. intros Hg H. apply rnd_le; [done|lia|lia]. Qed.

Lemma fadd_ge x y g : representable g -> g <= x + y -> g <= fadd x y.
Proof. intros Hg H. apply rnd_ge; [done|lia|lia]. Qed.

Lemma fsub_exact x y : representable (x - y) -> fsub x y = x - y.
Proof. intros Hr. unfold fsub. rewrite <- (Z.mul_1_r (x - y)) at 1. by apply rnd_exact. Qed.

(** Rounding to a whole number stays between whole numbers. *)
Lemma fround_mono x y : 0 <= x <= y -> fround x <= fround y.
Proof.
  intros [Hx Hy]. pose proof one_pos. unfold fround. destruct (decide (x = 0)) as [->|Hx0].
  - rewrite Z.sgn_0. assert (0 <= (2 * Z.abs y + one) / (2 * one)) by (apply Z.div_pos; lia).
    pose proof (Z.sgn_nonneg y). nia.
  - rewrite !Z.sgn_pos by lia. apply Z.mul_le_mono_nonneg_r; [lia|].
    assert ((2 * Z.abs x + one) / (2 * one) <= (2 * Z.abs y + one) / (2 * one)); [|lia]. apply Z.div_le_mono; lia.
Qed.

Lemma fround_int n : 0 <= n -> fround (n * one) = n * one.
Proof.
  intros Hn. pose proof one_pos. unfold fround. destruct (decide (n = 0)) as [->|Hn0]; [done|].
  rewrite Z.sgn_pos by nia. rewrite Z.abs_eq by nia. rewrite Z.mul_1_l. f_equal. symmetry.
  apply (Z.div_unique_pos _ _ n one); lia.
Qed.

Lemma to_u64_int n : (n <= u64_max)%N -> to_u64 (Z.of_N n * one) = n.
Proof. intros Hn. pose proof one_pos. unfold to_u64. rewrite Z.quot_mul by lia. lia. Qed.

Lemma to_u64_mono x y : x <= y -> (to_u64 x <= to_u64 y)%N.
Proof. intros H. pose proof one_pos. unfold to_u64. pose proof (Z.quot_le_mono x y one). lia. Qed.

#[export] Hint Resolve one_pos representable_0 rnd_representable : gavel.

#[global] Opaque one rnd.
