(* ===== verification/Time.v ===== *)
(** * Time: milliseconds, and the calendar they are shown in

    Models [crates/cluster-core/src/time.rs].  [Millis] is a [u64] count of
    milliseconds since the Unix epoch; the signed calendar arithmetic of
    [from_utc_date] and [to_utc_parts] is in [Z] (the source uses [i64]; no
    intermediate value leaves that width for a date that fits a [u64] of
    milliseconds).  The theorems: elapsed time saturates, and the two calendar
    conversions are inverse to each other on every valid date from 1970 on and
    on every instant. *)
From stdpp Require Import prelude pretty.
From S2P Require Import Prelude.

Abbreviation Millis := N.
Definition Millis_ZERO : Millis := 0.

Definition since (self earlier : Millis) : N := self - earlier.
Definition plus_ms (self : Millis) (ms : N) : Millis := sat_add u64_max self ms.

#[local] Open Scope Z_scope.

(** [day] and [month] are [u32] in the source, [year] an [i64]. *)
Definition from_utc_date (year : Z) (month day : Z) : Millis :=
  let y := if decide (month <= 2) then year - 1 else year in
  let era := y / 400 in
  let yoe := y - era * 400 in
  let mp := if decide (month > 2) then month - 3 else month + 9 in
  let doy := (153 * mp + 2) / 5 + day - 1 in
  let doe := yoe * 365 + yoe / 4 - yoe / 100 + doy in
  let days := era * 146097 + doe - 719468 in
  wrap 64 (Z.to_N (Z.max days 0) * 86400000)%N.

Record UtcParts := { utc_y : Z; utc_m : Z; utc_d : Z; utc_h : Z; utc_mi : Z; utc_s : Z }.

Definition to_utc_parts (self : Millis) : UtcParts :=
  let secs := Z.of_N (self / 1000)%N in
  let days := secs / 86400 in
  let rem := secs mod 86400 in
  let z := days + 719468 in
  let era := z / 146097 in
  let doe := z mod 146097 in
  let yoe := (doe - doe / 1460 + doe / 36524 - doe / 146096) / 365 in
  let y := yoe + era * 400 in
  let doy := doe - (365 * yoe + yoe / 4 - yoe / 100) in
  let mp := (5 * doy + 2) / 153 in
  let d := doy - (153 * mp + 2) / 5 + 1 in
  let m := if decide (mp < 10) then mp + 3 else mp - 9 in
  let y := if decide (m <= 2) then y + 1 else y in
  {| utc_y := y; utc_m := m; utc_d := d;
     utc_h := rem / 3600; utc_mi := rem mod 3600 / 60; utc_s := rem mod 60 |}.

(** [{n:0w}]: decimal, zero padded on the left to [w] columns. *)
Definition pad (w : nat) (n : N) : string :=
  let d := pretty n in
  String.append (String.concat "" (replicate (w - String.length d) "0")) d.

Definition to_clock_string (self : Millis) : string :=
  let p := to_utc_parts self in
  (pad 2 (Z.to_N (utc_h p)) +:+ ":" +:+ pad 2 (Z.to_N (utc_mi p)) +:+ ":" +:+ pad 2 (Z.to_N (utc_s p)))%string.

Definition to_date_string (self : Millis) : string :=
  let p := to_utc_parts self in
  (pad 4 (Z.to_N (utc_y p)) +:+ "-" +:+ pad 2 (Z.to_N (utc_m p)) +:+ "-" +:+ pad 2 (Z.to_N (utc_d p)))%string.

Definition to_utc_string (self : Millis) : string :=
  (to_date_string self +:+ " " +:+ to_clock_string self)%string.

Example to_utc_string_2026 : to_utc_string 1787012645000%N = "2026-08-18 00:24:05".
Proof. vm_compute. reflexivity. Qed.

(** ** The calendar the conversions are measured against *)
Definition leap (y : Z) : Prop := y mod 4 = 0 /\ (y mod 100 <> 0 \/ y mod 400 = 0).
#[export] Instance leap_dec y : Decision (leap y).
Proof. unfold leap. apply _. Defined.

Definition days_in_month (y m : Z) : Z :=
  if decide (m = 2) then if decide (leap y) then 29 else 28
  else if decide (m = 4 \/ m = 6 \/ m = 9 \/ m = 11) then 30 else 31.

Definition valid_date (y m d : Z) : Prop :=
  1970 <= y /\ 1 <= m <= 12 /\ 1 <= d <= days_in_month y m.

(** ** Within one 400-year era *)
Definition yoe_of (doe : Z) : Z := doe - doe / 1460 + doe / 36524 - doe / 146096.
Definition year_start (yoe : Z) : Z := 365 * yoe + yoe / 4 - yoe / 100.

Lemma yoe_of_step doe : 0 <= doe < 146096 -> yoe_of doe <= yoe_of (doe + 1).
Proof. unfold yoe_of. intros H. Z.to_euclidean_division_equations. lia. Qed.

Lemma yoe_of_mono a b : 0 <= a -> a <= b -> b <= 146096 -> yoe_of a <= yoe_of b.
Proof.
  intros Ha Hab Hb. replace b with (a + Z.of_nat (Z.to_nat (b - a))) in * by lia.
  revert Hb. generalize (Z.to_nat (b - a)). clear Hab. intros n. induction n as [|n IH]; intros Hb.
  - rewrite Z.add_0_r. lia.
  - rewrite Nat2Z.inj_succ in *. unfold Z.succ in *. rewrite Z.add_assoc in *.
    specialize (IH ltac:(lia)). pose proof (yoe_of_step (a + Z.of_nat n) ltac:(lia)). lia.
Qed.

Definition year_end (yoe : Z) : Z :=
  if decide (yoe = 399) then 146096 else year_start (yoe + 1) - 1.

Definition year_bounds_ok (n : nat) : bool :=
  let yoe := Z.of_nat n in
  (365 * yoe <=? yoe_of (year_start yoe)) && (yoe_of (year_end yoe) <? 365 * (yoe + 1)).

Lemma year_bounds : forallb year_bounds_ok (seq 0 400) = true.
Proof. vm_compute. reflexivity. Qed.

Lemma year_start_nonneg yoe : 0 <= yoe -> 0 <= year_start yoe.
Proof. unfold year_start. intros H. Z.to_euclidean_division_equations. lia. Qed.

Lemma year_end_bound yoe : 0 <= yoe < 400 -> year_end yoe <= 146096.
Proof.
  unfold year_end, year_start. intros H. case_decide; [lia|].
  Z.to_euclidean_division_equations. lia.
Qed.

(** The closed formula finds the year of the era a day belongs to. *)
Lemma yoe_unique yoe doe :
  0 <= yoe < 400 -> year_start yoe <= doe <= year_end yoe -> yoe_of doe / 365 = yoe.
Proof.
  intros Hy Hd. pose proof (year_start_nonneg yoe ltac:(lia)).
  pose proof (year_end_bound yoe Hy).
  pose proof year_bounds as Hb. rewrite forallb_forall in Hb.
  specialize (Hb (Z.to_nat yoe)). unfold year_bounds_ok in Hb.
  rewrite Z2Nat.id in Hb by lia.
  apply andb_prop in Hb as [H1 H2]; [|apply in_seq; lia].
  apply Z.leb_le in H1. apply Z.ltb_lt in H2.
  pose proof (yoe_of_mono (year_start yoe) doe ltac:(lia) ltac:(lia) ltac:(lia)).
  pose proof (yoe_of_mono doe (year_end yoe) ltac:(lia) ltac:(lia) ltac:(lia)).
  symmetry. apply (Z.div_unique_pos _ _ _ (yoe_of doe - 365 * yoe)); lia.
Qed.

Lemma yoe_exists doe :
  0 <= doe <= 146096 -> exists yoe, 0 <= yoe < 400 /\ year_start yoe <= doe <= year_end yoe.
Proof.
  intros Hd.
  assert (forall n : nat, (n < 400)%nat -> doe <= year_end (Z.of_nat n) ->
    exists yoe, 0 <= yoe < 400 /\ year_start yoe <= doe <= year_end yoe) as H.
  { induction n as [|n IH]; intros Hn He.
    - exists 0. change (year_start 0) with 0. change (Z.of_nat 0) with 0 in He. lia.
    - destruct (decide (doe <= year_end (Z.of_nat n))) as [|Hgt]; [apply IH; lia|].
      exists (Z.of_nat (S n)). split; [lia|]. split; [|done].
      unfold year_end in Hgt. rewrite decide_False in Hgt by lia.
      rewrite Nat2Z.inj_succ. unfold Z.succ. lia. }
  apply (H 399%nat); [lia|]. unfold year_end. simpl. lia.
Qed.

(** Length of a March-based year: 366 days when the civil year it ends in leaps. *)
Lemma year_length era yoe :
  0 <= yoe < 400 ->
  year_end yoe - year_start yoe = if decide (leap (yoe + era * 400 + 1)) then 365 else 364.
Proof.
  intros Hy. unfold year_end, year_start, leap. repeat case_decide; Z.to_euclidean_division_equations; lia.
Qed.

Definition month_of (doy : Z) : Z * Z :=
  let mp := (5 * doy + 2) / 153 in
  (if decide (mp < 10) then mp + 3 else mp - 9, doy - (153 * mp + 2) / 5 + 1).
Definition doy_of (m d : Z) : Z :=
  let mp := if decide (m > 2) then m - 3 else m + 9 in (153 * mp + 2) / 5 + d - 1.

Lemma month_of_doy_of (lp : bool) m d :
  1 <= m <= 12 ->
  1 <= d <= (if decide (m = 2) then if lp then 29 else 28
             else if decide (m = 4 \/ m = 6 \/ m = 9 \/ m = 11) then 30 else 31) ->
  0 <= doy_of m d <= (if lp then 365 else 364) /\ month_of (doy_of m d) = (m, d).
Proof.
  intros Hm Hd.
  assert (m = 1 \/ m = 2 \/ m = 3 \/ m = 4 \/ m = 5 \/ m = 6 \/ m = 7 \/ m = 8 \/ m = 9 \/
    m = 10 \/ m = 11 \/ m = 12) as Hc by lia.
  unfold month_of, doy_of.
  destruct_or! Hc; subst m; simpl in Hd |- *; destruct lp;
    (split; [Z.to_euclidean_division_equations; lia|]);
    match goal with |- context [(5 * ?x + 2) / 153] =>
      assert (0 <= (5 * x + 2) / 153) by (Z.to_euclidean_division_equations; lia);
      case_decide; f_equal; Z.to_euclidean_division_equations; lia end.
Qed.

Lemma doy_of_month_of doy : 0 <= doy <= 365 -> let '(m, d) := month_of doy in
  1 <= m <= 12 /\ doy_of m d = doy.
Proof.
  intros H. unfold month_of, doy_of.
  assert (0 <= (5 * doy + 2) / 153 <= 11) by (Z.to_euclidean_division_equations; lia).
  repeat case_decide; split; Z.to_euclidean_division_equations; lia.
Qed.

(** Day number of a civil date, and its era decomposition. *)
Definition day_number (y m d : Z) : Z :=
  let y' := if decide (m <= 2) then y - 1 else y in
  let era := y' / 400 in era * 146097 + year_start (y' - era * 400) + doy_of m d - 719468.

Lemma from_utc_date_day y m d :
  0 <= day_number y m d < 213503982335 ->
  from_utc_date y m d = (Z.to_N (day_number y m d) * 86400000)%N.
Proof.
  intros H. unfold from_utc_date.
  match goal with |- wrap 64 (Z.to_N (Z.max ?x 0) * _) = _ =>
    replace x with (day_number y m d) by (unfold day_number, year_start, doy_of; lia) end.
  rewrite Z.max_l by lia. apply wrap_small. lia.
Qed.

(** [to_utc_parts] in terms of the era arithmetic above. *)
Lemma to_utc_parts_day era yoe doy secs :
  0 <= yoe < 400 -> 0 <= doy -> year_start yoe + doy <= year_end yoe ->
  0 <= era * 146097 + year_start yoe + doy - 719468 -> 0 <= secs < 86400 ->
  forall ms, Z.of_N (ms / 1000)%N =
    (era * 146097 + year_start yoe + doy - 719468) * 86400 + secs ->
  let '(m, d) := month_of doy in
  to_utc_parts ms =
    {| utc_y := (if decide (m <= 2) then yoe + era * 400 + 1 else yoe + era * 400);
       utc_m := m; utc_d := d;
       utc_h := secs / 3600; utc_mi := secs mod 3600 / 60; utc_s := secs mod 60 |}.
Proof.
  intros Hyoe Hdoy Hle Hday Hsecs ms Hms. unfold to_utc_parts. rewrite Hms.
  pose proof (year_start_nonneg yoe ltac:(lia)). pose proof (year_end_bound yoe Hyoe).
  set (D := era * 146097 + year_start yoe + doy - 719468) in *.
  rewrite (Z.add_comm (D * 86400)), Z.div_add, Z.mod_add by lia.
  rewrite (Z.div_small secs), (Z.mod_small secs) by lia. rewrite Z.add_0_l.
  replace (D + 719468) with ((year_start yoe + doy) + era * 146097) by (unfold D; lia).
  rewrite Z.div_add, Z.mod_add by lia.
  rewrite (Z.div_small (year_start yoe + doy)), (Z.mod_small (year_start yoe + doy)) by lia.
  fold (yoe_of (year_start yoe + doy)). rewrite (yoe_unique yoe) by lia.
  fold (year_start yoe). replace (year_start yoe + doy - year_start yoe) with doy by lia.
  unfold month_of. repeat case_decide; f_equal; lia.
Qed.

Lemma march_year_fits (era yoe y m d : Z) :
  0 <= yoe < 400 -> (m <= 2 -> y = yoe + era * 400 + 1) -> 1 <= m <= 12 ->
  1 <= d <= days_in_month y m ->
  0 <= doy_of m d /\ year_start yoe + doy_of m d <= year_end yoe /\ month_of (doy_of m d) = (m, d).
Proof.
  intros Hyoe Hy Hm Hd. pose proof (year_length era yoe Hyoe) as Hlen.
  destruct (month_of_doy_of (bool_decide (leap y)) m d Hm) as [Hdoy Hmo].
  { unfold days_in_month in Hd. case_bool_decide; repeat case_decide; tauto || lia. }
  split_and!; [lia| |done]. destruct (decide (m <= 2)) as [Hm2|Hm2].
  - rewrite (Hy Hm2) in Hdoy. case_bool_decide; case_decide; tauto || lia.
  - assert (doy_of m d <= 305); [|case_decide; lia].
    unfold doy_of. rewrite decide_True by lia. unfold days_in_month in Hd.
    repeat case_decide; Z.to_euclidean_division_equations; lia.
Qed.

Lemma day_number_decomposition y m d :
  valid_date y m d -> y <= 99999 ->
  exists era yoe, 0 <= yoe < 400 /\
    day_number y m d = era * 146097 + year_start yoe + doy_of m d - 719468 /\
    0 <= day_number y m d < 213503982335 /\
    (if decide (m <= 2) then yoe + era * 400 + 1 else yoe + era * 400) = y.
Proof.
  intros (Hy & Hm & Hd) Hmax.
  set (y' := if decide (m <= 2) then y - 1 else y).
  assert (1969 <= y' <= 99999) as Hy' by (unfold y'; case_decide; lia).
  exists (y' / 400), (y' - y' / 400 * 400).
  assert (0 <= y' - y' / 400 * 400 < 400 /\ 4 <= y' / 400 <= 249) as [Hyoe Hera]
    by (Z.to_euclidean_division_equations; lia).
  assert ((if decide (m <= 2) then y' - y' / 400 * 400 + y' / 400 * 400 + 1
    else y' - y' / 400 * 400 + y' / 400 * 400) = y) as Hyy.
  { rewrite Z.sub_add. unfold y'. case_decide; lia. }
  split_and!; [lia..|reflexivity| | |exact Hyy];
    change (day_number y m d) with
      (y' / 400 * 146097 + year_start (y' - y' / 400 * 400) + doy_of m d - 719468);
    destruct (march_year_fits (y' / 400) _ y m d Hyoe
      ltac:(intros; rewrite decide_True in Hyy by done; lia) Hm Hd) as (Hdoy & Hle & _);
    pose proof (year_end_bound _ Hyoe); pose proof (year_start_nonneg _ (proj1 Hyoe)); [|lia].
  destruct (decide (y' = 1969)) as [E|E].
  - assert (m <= 2) by (unfold y' in E; case_decide; lia). rewrite E in *.
    change (year_start _) with 134774 in *. assert (306 <= doy_of m d); [|lia].
    unfold doy_of. rewrite decide_False by lia. Z.to_euclidean_division_equations; lia.
  - destruct (decide (y' / 400 = 4)) as [He|He]; [|lia]. rewrite He in *.
    assert (135139 <= year_start (y' - 4 * 400)); [|lia].
    unfold year_start. Z.to_euclidean_division_equations; lia.
Qed.

Definition midnight (ms : Millis) : Millis := (ms - ms mod 86400000)%N.

(** Every valid date survives the trip to milliseconds and back. *)
Theorem from_to_utc (y m d : Z) :
  valid_date y m d -> y <= 99999 ->
  to_utc_parts (from_utc_date y m d) =
    {| utc_y := y; utc_m := m; utc_d := d; utc_h := 0; utc_mi := 0; utc_s := 0 |}.
Proof.
  intros Hv Hmax. destruct (day_number_decomposition y m d Hv Hmax)
    as (era & yoe & Hyoe & Hdn & Hrange & Hy). destruct Hv as (_ & Hm & Hd).
  destruct (march_year_fits era yoe y m d Hyoe ltac:(intros; rewrite decide_True in Hy; lia) Hm Hd)
    as (Hdoy & Hle & Hmo).
  rewrite from_utc_date_day by done.
  pose proof (to_utc_parts_day era yoe (doy_of m d) 0 Hyoe Hdoy Hle ltac:(lia) ltac:(lia)
    (Z.to_N (day_number y m d) * 86400000)) as Hp.
  rewrite Hmo in Hp. rewrite Hp, Hy; [reflexivity|].
  rewrite <- Hdn. replace (Z.to_N (day_number y m d) * 86400000)%N
    with ((Z.to_N (day_number y m d) * 86400) * 1000)%N by lia.
  rewrite N.div_mul by done. lia.
Qed.

Lemma from_to_utc_witness :
  valid_date 2024 2 29 /\
  to_utc_parts (from_utc_date 2024 2 29) =
    {| utc_y := 2024; utc_m := 2; utc_d := 29; utc_h := 0; utc_mi := 0; utc_s := 0 |}.
Proof.
  assert (valid_date 2024 2 29) as H by (unfold valid_date; vm_compute; intuition discriminate).
  split; [exact H|]. apply (from_to_utc 2024 2 29 H). lia.
Defined.

Lemma month_of_valid (lp : bool) doy :
  0 <= doy <= (if lp then 365 else 364) ->
  let '(m, d) := month_of doy in
  1 <= m <= 12 /\ doy_of m d = doy /\ (m <= 2 <-> 306 <= doy) /\
  1 <= d <= (if decide (m = 2) then if lp then 29 else 28
             else if decide (m = 4 \/ m = 6 \/ m = 9 \/ m = 11) then 30 else 31).
Proof.
  intros H. assert (0 <= doy <= 365) as H' by (destruct lp; lia).
  pose proof (doy_of_month_of doy H') as Hd. unfold month_of in *. destruct Hd as [Hm Hdoy].
  split; [done|]. split; [done|]. clear Hdoy.
  assert (0 <= (5 * doy + 2) / 153 <= 11) as Hmp by (Z.to_euclidean_division_equations; lia).
  split; [case_decide; Z.to_euclidean_division_equations; lia|].
  destruct lp; repeat case_decide; try lia; Z.to_euclidean_division_equations; lia.
Qed.

Lemma year_end_1969 yoe : 0 <= yoe <= 368 -> year_end yoe <= 134773.
Proof.
  intros H. unfold year_end, year_start. rewrite decide_False by lia.
  Z.to_euclidean_division_equations; lia.
Qed.

(** The era decomposition of a day counted from the epoch. *)
Lemma day_decomposition day :
  0 <= day ->
  exists era yoe doy, 0 <= yoe < 400 /\ 0 <= doy /\ year_start yoe + doy <= year_end yoe /\
    day = era * 146097 + year_start yoe + doy - 719468 /\
    1969 <= yoe + era * 400 /\ (yoe + era * 400 = 1969 -> 306 <= doy).
Proof.
  intros Hday. set (z := day + 719468).
  pose proof (Z.mod_pos_bound z 146097 ltac:(lia)) as Hz.
  destruct (yoe_exists (z mod 146097) ltac:(lia)) as (yoe & Hyoe & Hlo & Hhi).
  exists (z / 146097), yoe, (z mod 146097 - year_start yoe).
  pose proof (Z.div_mod z 146097 ltac:(lia)). pose proof (year_end_bound yoe Hyoe).
  split_and!; try lia.
  - destruct (decide (5 <= z / 146097)); [lia|]. assert (z / 146097 = 4) as He by lia.
    rewrite He. destruct (decide (369 <= yoe)); [lia|]. exfalso.
    pose proof (year_end_1969 yoe ltac:(lia)). lia.
  - intros Hy. assert (z / 146097 = 4 /\ yoe = 369) as [He ->] by lia.
    change (year_start 369) with 134774 in *. lia.
Qed.

Lemma midnight_spec ms :
  midnight ms = (ms / 86400000 * 86400000)%N /\ ((ms - midnight ms) / 1000 = (ms / 1000) mod 86400)%N.
Proof.
  unfold midnight. pose proof (N.div_mod ms 86400000 ltac:(done)) as Hdm.
  assert (ms - (ms - ms mod 86400000) = ms mod 86400000)%N as ->.
  { revert Hdm. generalize (ms / 86400000)%N (ms mod 86400000)%N. lia. }
  split. { revert Hdm. generalize (ms / 86400000)%N (ms mod 86400000)%N. lia. }
  change 86400000%N with (1000 * 86400)%N.
  rewrite N.Div0.mod_mul_r, N.add_comm, N.mul_comm, N.div_add_l by done.
  rewrite (N.div_small (ms mod 1000)) by (apply N.mod_lt; done). lia.
Qed.

(** Every instant is shown as a valid calendar date and time of day, and
    that date converts back to the midnight the instant follows. *)
Theorem to_from_utc (ms : Millis) :
  (ms <= u64_max)%N ->
  let p := to_utc_parts ms in
  valid_date (utc_y p) (utc_m p) (utc_d p) /\
  from_utc_date (utc_y p) (utc_m p) (utc_d p) = midnight ms /\
  0 <= utc_h p < 24 /\ 0 <= utc_mi p < 60 /\ 0 <= utc_s p < 60 /\
  Z.of_N ((ms - midnight ms) / 1000)%N = utc_h p * 3600 + utc_mi p * 60 + utc_s p.
Proof.
  intros Hms. unfold u64_max in Hms. destruct (midnight_spec ms) as [Hmid Hsec].
  set (secs := Z.of_N (ms / 1000)%N mod 86400).
  set (day := Z.of_N (ms / 86400000)%N).
  assert (Z.of_N (ms / 1000) = day * 86400 + secs) as Hsplit.
  { unfold day, secs. change 86400000%N with (1000 * 86400)%N.
    rewrite <- N.Div0.div_div, N2Z.inj_div.
    pose proof (Z.div_mod (Z.of_N (ms / 1000)) 86400 ltac:(lia)). lia. }
  assert (ms / 86400000 < 213503982335)%N as Hday by (apply N.Div0.div_lt_upper_bound; lia).
  destruct (day_decomposition day ltac:(lia)) as (era & yoe & doy & Hyoe & Hdoy & Hle & Hd & Hy & Hy').
  assert (0 <= secs < 86400) as Hs by (apply Z.mod_pos_bound; lia).
  pose proof (to_utc_parts_day era yoe doy secs Hyoe Hdoy Hle ltac:(lia) Hs ms ltac:(lia)) as Hp.
  pose proof (year_length era yoe Hyoe) as Hlen.
  assert (0 <= doy <= (if bool_decide (leap (yoe + era * 400 + 1)) then 365 else 364)) as Hb.
  { case_bool_decide; case_decide; tauto || lia. }
  pose proof (month_of_valid _ doy Hb) as Hmv.
  destruct (month_of doy) as [m d] eqn:Hmo. rewrite Hp. clear Hp. simpl.
  destruct Hmv as (Hm & Hdoy' & Hfeb & Hdm).
  set (y := if decide (m <= 2) then yoe + era * 400 + 1 else yoe + era * 400).
  assert (valid_date y m d) as Hv.
  { unfold y. split; [destruct (decide (m <= 2)); lia|]. split; [done|]. unfold days_in_month.
    repeat case_decide; case_bool_decide; tauto || lia. }
  assert (day_number y m d = day) as Hdn.
  { unfold day_number. rewrite Hdoy', Hd.
    assert ((if decide (m <= 2) then y - 1 else y) = yoe + era * 400) as ->
      by (unfold y; destruct (decide (m <= 2)); lia).
    rewrite Z.div_add, Z.div_small by lia. replace (yoe + era * 400 - _) with yoe by lia. lia. }
  split; [done|]. split.
  - rewrite from_utc_date_day, Hdn, Hmid; unfold day; lia.
  - rewrite Hsec, N2Z.inj_mod. fold secs. Z.to_euclidean_division_equations; lia.
Qed.

Lemma to_from_utc_witness :
  from_utc_date (utc_y (to_utc_parts 1709210096789)) (utc_m (to_utc_parts 1709210096789)) (utc_d (to_utc_parts 1709210096789)) =
    midnight 1709210096789 /\ midnight 1709210096789 = 1709164800000%N.
Proof.
  split; [|reflexivity]. refine (proj1 (proj2 (to_from_utc 1709210096789 _))). vm_compute. discriminate.
Defined.
