(* ===== verification/Role.v ===== *)
(** * Roles, role sets and replica policies

    Models [crates/cluster-core/src/role.rs].  A [RoleSet] is the source's
    one-byte bitmask; its operations are proved to refine the operations of a
    finite set of roles.  [RolePolicies] is the source's six-element array. *)
From stdpp Require Import prelude gmap sorting strings.
From S2P Require Import Prelude.

Inductive Role := Gateway | Frontend | Backend | Compute | Storage | Coordinator.

#[export] Instance Role_eq_dec : EqDecision Role.
Proof. solve_decision. Defined.

Definition ALL_ROLES : list Role := [Gateway; Frontend; Backend; Compute; Storage; Coordinator].
Definition DEGRADATION_PRIORITY : list Role :=
  [Gateway; Frontend; Backend; Storage; Coordinator; Compute].

Definition Role_index (r : Role) : nat :=
  match r with
  | Gateway => 0 | Frontend => 1 | Backend => 2 | Compute => 3 | Storage => 4 | Coordinator => 5
  end%nat.

Definition Role_bit (r : Role) : N := N.shiftl 1 (N.of_nat (Role_index r)).

Definition Role_as_str (r : Role) : string :=
  match r with
  | Gateway => "gateway" | Frontend => "frontend" | Backend => "backend"
  | Compute => "compute" | Storage => "storage" | Coordinator => "coordinator"
  end.

(** [Iterator::position] and [Iterator::find]. *)
Definition position {A} (P : A -> bool) (l : list A) : option nat := fst <$> list_find (fun x => P x = true) l.
Definition find {A} (P : A -> bool) (l : list A) : option A := snd <$> list_find (fun x => P x = true) l.

Definition shed_priority (r : Role) : N :=
  match position (fun x => bool_decide (x = r)) DEGRADATION_PRIORITY with
  | Some i => N.of_nat i
  | None => u64_max
  end.

Definition Role_parse (s : string) : option Role :=
  find (fun r => bool_decide (Role_as_str r = s)) ALL_ROLES.

#[export] Instance Role_finite : finite.Finite Role.
Proof.
  refine {| finite.enum := ALL_ROLES |}.
  - apply (bool_decide_unpack _). vm_compute. exact I.
  - intros []; apply (bool_decide_unpack _); vm_compute; exact I.
Defined.

Lemma shed_priority_inj r1 r2 : shed_priority r1 = shed_priority r2 -> r1 = r2.
Proof. destruct r1, r2; vm_compute; congruence. Qed.

Lemma Role_parse_as_str r : Role_parse (Role_as_str r) = Some r.
Proof. by destruct r. Qed.

Lemma Role_parse_sound s r : Role_parse s = Some r -> Role_as_str r = s.
Proof.
  unfold Role_parse, find. intros H.
  apply fmap_Some in H as ([i r'] & Hf & Heq). simpl in Heq. subst r'.
  apply list_find_Some in Hf as (_ & Hr & _). by apply bool_decide_eq_true in Hr.
Qed.

(** ** Role sets *)
Definition RoleSet := N.
Definition RoleSet_EMPTY : RoleSet := 0.

Definition RoleSet_contains (self : RoleSet) (r : Role) : bool :=
  negb (N.land self (Role_bit r) =? 0).

(** Returns the new set and whether it changed. *)
Definition RoleSet_insert (self : RoleSet) (r : Role) : RoleSet * bool :=
  let had := RoleSet_contains self r in
  (N.lor self (Role_bit r), negb had).

(** [self.0 &= !bit], the complement taken in eight bits. *)
Definition RoleSet_remove (self : RoleSet) (r : Role) : RoleSet * bool :=
  let had := RoleSet_contains self r in
  (N.land self (N.lnot (Role_bit r) 8), had).

Definition RoleSet_from_roles (roles : list Role) : RoleSet :=
  foldl (fun set r => (RoleSet_insert set r).1) RoleSet_EMPTY roles.

Definition RoleSet_is_empty (self : RoleSet) : bool := self =? 0.

(** [u8::count_ones]. *)
Definition RoleSet_len (self : RoleSet) : nat :=
  length (filter (fun i => N.testbit self (N.of_nat i) = true) (seq 0 8)).

Definition RoleSet_iter (self : RoleSet) : list Role :=
  filter (fun r => RoleSet_contains self r = true) ALL_ROLES.

Definition RoleSet_fmt (self : RoleSet) : string :=
  match RoleSet_iter self with
  | [] => "none"
  | rs => String.concat ", " (Role_as_str <$> rs)
  end.

(** A mask the type can hold, and one that holds roles only. *)
Definition RoleSet_wf (s : RoleSet) : Prop := s < 2 ^ 6.

(** The set of roles a mask stands for. *)
Definition roles_of (s : RoleSet) : gset Role := list_to_set (RoleSet_iter s).

Lemma RoleSet_contains_testbit s r :
  RoleSet_contains s r = N.testbit s (N.of_nat (Role_index r)).
Proof.
  unfold RoleSet_contains, Role_bit. rewrite N.shiftl_1_l.
  destruct (N.testbit s _) eqn:Hb.
  - apply negb_true_iff, N.eqb_neq. intros Hz.
    apply (f_equal (fun n => N.testbit n (N.of_nat (Role_index r)))) in Hz.
    by rewrite N.land_spec, N.pow2_bits_true, Hb in Hz.
  - apply negb_false_iff, N.eqb_eq. apply N.bits_inj. intros n.
    rewrite N.land_spec, N.bits_0. destruct (N.eq_dec n (N.of_nat (Role_index r))) as [->|Hne].
    + by rewrite Hb.
    + rewrite N.pow2_bits_false by done. apply andb_false_r.
Qed.

Lemma Role_index_inj r1 r2 : Role_index r1 = Role_index r2 -> r1 = r2.
Proof. destruct r1, r2; simpl; congruence. Qed.

Lemma Role_index_lt r : (Role_index r < 6)%nat.
Proof. destruct r; simpl; lia. Qed.

Lemma elem_of_ALL_ROLES r : r ∈ ALL_ROLES.
Proof. exact (finite.elem_of_enum r). Qed.

Lemma elem_of_roles_of s r : r ∈ roles_of s <-> RoleSet_contains s r = true.
Proof.
  unfold roles_of, RoleSet_iter. rewrite elem_of_list_to_set, list_elem_of_filter.
  pose proof (elem_of_ALL_ROLES r). tauto.
Qed.

Lemma contains_insert s r r' :
  RoleSet_contains (RoleSet_insert s r).1 r' = RoleSet_contains s r' || bool_decide (r = r').
Proof.
  rewrite !RoleSet_contains_testbit. unfold RoleSet_insert, Role_bit. simpl.
  rewrite N.lor_spec, N.shiftl_1_l. f_equal. case_bool_decide as H.
  - subst. apply N.pow2_bits_true.
  - apply N.pow2_bits_false. intros E. apply H, Role_index_inj. lia.
Qed.

Lemma contains_remove s r r' :
  RoleSet_contains (RoleSet_remove s r).1 r' = RoleSet_contains s r' && negb (bool_decide (r = r')).
Proof.
  rewrite !RoleSet_contains_testbit. unfold RoleSet_remove, Role_bit. simpl.
  pose proof (Role_index_lt r').
  rewrite N.land_spec, N.shiftl_1_l, N.lnot_spec_low by lia. f_equal. f_equal.
  case_bool_decide as E.
  - subst. apply N.pow2_bits_true.
  - apply N.pow2_bits_false. intros E'. apply E, Role_index_inj. lia.
Qed.

(** The one-byte mask implements a finite set of roles.  Insertion, removal
    and membership act on the set the mask stands for, and the returned flag
    says whether the set changed. *)
Theorem RoleSet_refines_set (s : RoleSet) (r : Role) :
  RoleSet_contains s r = bool_decide (r ∈ roles_of s) /\
  roles_of (RoleSet_insert s r).1 = {[r]} ∪ roles_of s /\
  (RoleSet_insert s r).2 = bool_decide (r ∉ roles_of s) /\
  roles_of (RoleSet_remove s r).1 = roles_of s ∖ {[r]} /\
  (RoleSet_remove s r).2 = bool_decide (r ∈ roles_of s).
Proof.
  assert (RoleSet_contains s r = bool_decide (r ∈ roles_of s)) as Hc.
  { symmetry. destruct (RoleSet_contains s r) eqn:E.
    - apply bool_decide_true. by apply elem_of_roles_of.
    - apply bool_decide_false. rewrite elem_of_roles_of. congruence. }
  split; [done|]. split; [|split; [|split]].
  - apply set_eq. intros r'. rewrite elem_of_union, elem_of_singleton, !elem_of_roles_of,
      contains_insert, orb_true_iff, bool_decide_eq_true. intuition congruence.
  - simpl. rewrite Hc. symmetry. apply bool_decide_not.
  - apply set_eq. intros r'. rewrite elem_of_difference, elem_of_singleton, !elem_of_roles_of,
      contains_remove, andb_true_iff, negb_true_iff, bool_decide_eq_false. intuition congruence.
  - exact Hc.
Qed.

Lemma RoleSet_insert_wf s r : RoleSet_wf s -> RoleSet_wf (RoleSet_insert s r).1.
Proof.
  unfold RoleSet_wf, RoleSet_insert. simpl. intros H.
  destruct (N.eq_0_gt_0_cases (N.lor s (Role_bit r))) as [->|Hpos]; [done|].
  apply N.log2_lt_pow2; [done|]. rewrite N.log2_lor. apply N.max_lub_lt.
  - destruct (N.eq_0_gt_0_cases s) as [->|]; [done|]. by apply N.log2_lt_pow2.
  - by destruct r.
Qed.

(** ** Replica policies *)
Record RolePolicy := { min_replicas : N; max_replicas : option N }.
Definition RolePolicy_new (min : N) : RolePolicy := {| min_replicas := min; max_replicas := None |}.
Definition RolePolicy_default : RolePolicy := RolePolicy_new 0.

(** [struct RolePolicies([RolePolicy; 6])]; the array always has six elements,
    so the default of [get] is never used (see [RolePolicies_get_set]). *)
Abbreviation RolePolicies := (list RolePolicy).
Definition RolePolicies_get (self : RolePolicies) (r : Role) : RolePolicy :=
  default RolePolicy_default (self !! Role_index r).
Definition RolePolicies_set (self : RolePolicies) (r : Role) (p : RolePolicy) : RolePolicies :=
  <[Role_index r := p]> self.

(** [sort_by_key(|(role, _)| role.shed_priority())]; the keys are distinct. *)
Definition shed_le (x y : Role * N) : Prop := shed_priority x.1 <= shed_priority y.1.
#[export] Instance shed_le_dec x y : Decision (shed_le x y).
Proof. unfold shed_le. apply _. Defined.
#[export] Instance shed_le_total : Total shed_le.
Proof. intros x y. unfold shed_le. lia. Qed.
#[export] Instance shed_le_trans : Transitive shed_le.
Proof. intros x y z. unfold shed_le. lia. Qed.

Definition RolePolicies_unmet (self : RolePolicies) (counts : Role -> N) : list (Role * N) :=
  let deficits := omap (fun r =>
    let want := min_replicas (RolePolicies_get self r) in
    let have := counts r in
    if have <? want then Some (r, want - have) else None) ALL_ROLES in
  merge_sort shed_le deficits.

Definition RolePolicies_default : RolePolicies :=
  let p := replicate 6 RolePolicy_default in
  let p := RolePolicies_set p Gateway (RolePolicy_new 1) in
  let p := RolePolicies_set p Frontend (RolePolicy_new 2) in
  let p := RolePolicies_set p Backend (RolePolicy_new 2) in
  let p := RolePolicies_set p Storage (RolePolicy_new 1) in
  RolePolicies_set p Coordinator (RolePolicy_new 1).

Definition RolePolicies_wf (p : RolePolicies) : Prop := length p = 6%nat.

Lemma RolePolicies_get_set p r r' q :
  RolePolicies_wf p ->
  RolePolicies_get (RolePolicies_set p r q) r' = if decide (r = r') then q else RolePolicies_get p r'.
Proof.
  intros Hwf. unfold RolePolicies_get, RolePolicies_set. pose proof (Role_index_lt r).
  case_decide as E.
  - subst. by rewrite list_lookup_insert_eq by (rewrite Hwf; lia).
  - rewrite list_lookup_insert_ne; [done|]. intros E'. by apply E, Role_index_inj.
Qed.

(** [unmet] lists exactly the roles below their minimum, with their
    deficits, the role to fix first in front. *)
Theorem RolePolicies_unmet_spec (p : RolePolicies) (counts : Role -> N) :
  StronglySorted (fun x y : Role * N => shed_priority x.1 < shed_priority y.1)
    (RolePolicies_unmet p counts) /\
  forall r n, (r, n) ∈ RolePolicies_unmet p counts <->
    counts r < min_replicas (RolePolicies_get p r) /\ n = min_replicas (RolePolicies_get p r) - counts r.
Proof.
  unfold RolePolicies_unmet.
  set (f := fun r => if counts r <? _ then _ else _).
  assert (forall r n, (r, n) ∈ omap f ALL_ROLES <-> counts r < min_replicas (RolePolicies_get p r)
    /\ n = min_replicas (RolePolicies_get p r) - counts r) as Hin.
  { intros r n. rewrite list_elem_of_omap. unfold f. split.
    - intros (r' & _ & H). destruct (N.ltb_spec (counts r') (min_replicas (RolePolicies_get p r'))); naive_solver.
    - intros [Hlt ->]. exists r. split; [apply elem_of_ALL_ROLES|].
      by rewrite (proj2 (N.ltb_lt _ _) Hlt). }
  split; [|intros r n; by rewrite merge_sort_Permutation].
  apply (sorted_by_distinct_key (fun x : Role * N => shed_priority x.1)).
  - apply (StronglySorted_merge_sort shed_le).
  - rewrite (merge_sort_Permutation shed_le).
    change (NoDup (shed_priority ∘ fst <$> omap f ALL_ROLES)).
    rewrite list_fmap_compose. apply NoDup_fmap_2.
    + intros r1 r2. apply shed_priority_inj.
    + apply NoDup_omap_key; [|exact (finite.NoDup_enum Role)].
      intros r [r' n]. unfold f. destruct (N.ltb _ _); simpl; congruence.
Qed.
