(* ===== verification/Node.v ===== *)
(** * Identifiers, nodes and health

    Models [crates/cluster-core/src/ids.rs] and [crates/cluster-core/src/node.rs]:
    the integer identifiers and their display form, what a worker can do, its
    status, its sampled load, the registry record [Node], and the heartbeat-age
    policy that drives [Healthy -> Suspect -> Offline]. *)
From stdpp Require Import prelude strings pretty.
From S2P Require Import Prelude Time Role.

(** ** Identifiers: [int_id!(NodeId, u16)], [int_id!(JobId, u64)], [int_id!(TaskId, u64)] *)
Abbreviation NodeId := N.
Abbreviation JobId := N.
Abbreviation TaskId := N.

Definition NodeId_fmt (id : NodeId) : string := ("node-" +:+ pad 2 id)%string.
Definition JobId_fmt (id : JobId) : string := ("job-" +:+ pad 2 id)%string.
Definition TaskId_fmt (id : TaskId) : string := ("task-" +:+ pad 2 id)%string.

(** ** Capabilities *)
Record NodeCapabilities := { cores : N; memory_bytes : N }.
#[export] Instance NodeCapabilities_eq_dec : EqDecision NodeCapabilities.
Proof. solve_decision. Defined.

Definition NodeCapabilities_new (c m : N) : NodeCapabilities := {| cores := c; memory_bytes := m |}.

(** [NodeCapabilities::local]; the argument is what
    [std::thread::available_parallelism] answered. *)
Definition NodeCapabilities_local (available_parallelism : option N) : NodeCapabilities :=
  {| cores := match available_parallelism with
              | Some n => N.min n u8_max
              | None => 1
              end;
     memory_bytes := 0 |}.

Definition usable_ram_bytes (self : NodeCapabilities) : N := memory_bytes self.
Definition compute_weight (self : NodeCapabilities) : N := cores self * 100.

(** ** Status *)
Inductive NodeStatus := Starting | Healthy | Suspect | Offline.
#[export] Instance NodeStatus_eq_dec : EqDecision NodeStatus.
Proof. solve_decision. Defined.

Definition NodeStatus_ALL : list NodeStatus := [Starting; Healthy; Suspect; Offline].

Definition NodeStatus_as_str (s : NodeStatus) : string :=
  match s with
  | Starting => "starting" | Healthy => "healthy" | Suspect => "suspect" | Offline => "offline"
  end.

Definition NodeStatus_parse (s : string) : option NodeStatus :=
  find (fun v => bool_decide (NodeStatus_as_str v = s)) [Starting; Healthy; Suspect; Offline].

Definition accepts_work (s : NodeStatus) : bool :=
  match s with Healthy => true | _ => false end.

(** ** Load and the registry record *)
Record NodeLoad := {
  load_percent : N;
  running_tasks : N;
  free_memory_bytes : N;
  simulated : bool
}.
#[export] Instance NodeLoad_eq_dec : EqDecision NodeLoad.
Proof. solve_decision. Defined.
Definition NodeLoad_default : NodeLoad :=
  {| load_percent := 0; running_tasks := 0; free_memory_bytes := 0; simulated := false |}.

Record Node := {
  node_id : NodeId;
  node_status : NodeStatus;
  node_roles : RoleSet;
  node_capabilities : NodeCapabilities;
  node_load : NodeLoad;
  node_last_seen : Millis;
  node_joined_at : Millis
}.
#[export] Instance Node_eq_dec : EqDecision Node.
Proof. solve_decision. Defined.

Definition Node_new (id : NodeId) (caps : NodeCapabilities) (at_ : Millis) : Node :=
  {| node_id := id; node_status := Starting; node_roles := RoleSet_EMPTY;
     node_capabilities := caps; node_load := NodeLoad_default;
     node_last_seen := at_; node_joined_at := at_ |}.

Definition has_role (self : Node) (r : Role) : bool := RoleSet_contains (node_roles self) r.
Definition is_schedulable (self : Node) : bool :=
  accepts_work (node_status self) && has_role self Compute.
Definition age_ms (self : Node) (now : Millis) : N := since now (node_last_seen self).

Record Heartbeat := { hb_node : NodeId; hb_load : NodeLoad; hb_at : Millis }.

(** ** Health policy *)
Record HealthPolicy := {
  heartbeat_interval_ms : N;
  suspect_after_ms : N;
  offline_after_ms : N
}.

Definition classify (self : HealthPolicy) (last_seen now : Millis) : option NodeStatus :=
  let age := since now last_seen in
  if offline_after_ms self <=? age then Some Offline
  else if suspect_after_ms self <=? age then Some Suspect
  else None.

Definition HealthPolicy_default : HealthPolicy :=
  {| heartbeat_interval_ms := 1000; suspect_after_ms := 3000; offline_after_ms := 6000 |}.

(** The status a sweep assigns to a running node: what its heartbeat age
    implies, and Healthy while it is within budget. *)
Definition implied_status (p : HealthPolicy) (last_seen now : Millis) : NodeStatus :=
  default Healthy (classify p last_seen now).

Definition status_rank (s : NodeStatus) : N :=
  match s with Starting => 0 | Healthy => 0 | Suspect => 1 | Offline => 2 end.

Lemma NodeStatus_parse_as_str s : NodeStatus_parse (NodeStatus_as_str s) = Some s.
Proof. by destruct s. Qed.

(** Silence only ever degrades a node: with no new heartbeat, a later sweep
    never assigns a better status than an earlier one, and the verdict is the
    age measured against the two thresholds. *)
Theorem classify_monotone (p : HealthPolicy) (last_seen t1 t2 : Millis) :
  suspect_after_ms p <= offline_after_ms p -> t1 <= t2 ->
  status_rank (implied_status p last_seen t1) <= status_rank (implied_status p last_seen t2) /\
  (implied_status p last_seen t2 = Offline <-> offline_after_ms p <= t2 - last_seen) /\
  (implied_status p last_seen t2 = Healthy <-> t2 - last_seen < suspect_after_ms p).
Proof.
  intros Hp Ht. unfold implied_status, classify, since.
  repeat match goal with |- context [?a <=? ?b] => destruct (N.leb_spec a b) end;
    simpl; repeat split; intros; try congruence; lia.
Qed.

Lemma classify_monotone_witness :
  status_rank (implied_status HealthPolicy_default 1000 5000) <=
    status_rank (implied_status HealthPolicy_default 1000 8000) /\
  implied_status HealthPolicy_default 1000 5000 = Suspect.
Proof.
  split; [|reflexivity].
  refine (proj1 (classify_monotone HealthPolicy_default 1000 5000 8000 _ _)); vm_compute; discriminate.
Defined.
