(* ===== verification/Job.v ===== *)
(** * Jobs, tasks and their state machines

    Models [crates/cluster-core/src/job.rs] and [crates/cluster-core/src/error.rs]:
    what a user submits ([JobSpec]), how it is split into independent tasks
    ([JobSpec_split]), and the job and task state machines with their errors. *)
From stdpp Require Import prelude strings pretty.
From S2P Require Import Prelude Time Role Node.

(** ** Specifications *)
Inductive JobSpec :=
| JobSleep (total_ms tasks : N)
| JobPrimes (upper_bound tasks : N)
| JobAnalysis (version algorithm partitions : N).

Inductive TaskSpec :=
| TaskSleep (millis : N)
| TaskPrimes (start end_ : N)
| TaskAnalysis (version algorithm partition : N).

#[export] Instance JobSpec_eq_dec : EqDecision JobSpec.
Proof. solve_decision. Defined.
#[export] Instance TaskSpec_eq_dec : EqDecision TaskSpec.
Proof. solve_decision. Defined.

Definition JobSpec_kind (self : JobSpec) : string :=
  match self with
  | JobSleep _ _ => "sleep" | JobPrimes _ _ => "primes" | JobAnalysis _ _ _ => "analysis"
  end.

Definition JobSpec_task_count (self : JobSpec) : N :=
  match self with
  | JobSleep _ tasks | JobPrimes _ tasks | JobAnalysis _ _ tasks => N.max tasks 1
  end.

Definition JobSpec_describe (self : JobSpec) : string :=
  match self with
  | JobSleep total_ms tasks => "sleep " +:+ pretty total_ms +:+ "ms over " +:+ pretty tasks +:+ " tasks"
  | JobPrimes upper_bound tasks =>
      "primes below " +:+ pretty upper_bound +:+ " over " +:+ pretty tasks +:+ " tasks"
  | JobAnalysis version _ partitions =>
      "materialise analysis " +:+ pretty version +:+ " over " +:+ pretty partitions +:+ " partitions"
  end%string.

(** [(0..n)] *)
Definition range0 (n : N) : list N := N.of_nat <$> seq 0 (N.to_nat n).

Definition JobSpec_split (self : JobSpec) : list TaskSpec :=
  let n := JobSpec_task_count self in
  match self with
  | JobSleep total_ms _ =>
      let each := total_ms / n in
      let rem := total_ms mod n in
      (fun i => TaskSleep (each + if i <? rem then 1 else 0)) <$> range0 n
  | JobPrimes upper_bound _ =>
      let chunk := upper_bound / n in
      (fun i =>
         let start := i * chunk in
         let end_ := if i + 1 =? n then upper_bound else start + chunk in
         TaskPrimes start end_) <$> range0 n
  | JobAnalysis version algorithm _ =>
      (fun i => TaskAnalysis version algorithm (wrap 32 i)) <$> range0 n
  end.

Definition TaskSpec_describe (self : TaskSpec) : string :=
  match self with
  | TaskSleep millis => "sleep " +:+ pretty millis +:+ "ms"
  | TaskPrimes start end_ => "primes in " +:+ pretty start +:+ ".." +:+ pretty end_
  | TaskAnalysis version _ partition =>
      "analysis " +:+ pretty version +:+ " partition " +:+ pretty partition
  end%string.

Definition TaskSpec_weight (self : TaskSpec) : N :=
  match self with
  | TaskSleep millis => millis
  | TaskPrimes start end_ => end_ - start
  | TaskAnalysis _ _ _ => 1
  end.

(** ** Job states *)
Module JobState.
Inductive t := Queued | Running | Completed | Failed | Cancelled.
End JobState.
Abbreviation JobState := JobState.t.
#[export] Instance JobState_eq_dec : EqDecision JobState.
Proof. solve_decision. Defined.

Definition JobState_ALL : list JobState :=
  [JobState.Queued; JobState.Running; JobState.Completed; JobState.Failed; JobState.Cancelled].

Definition JobState_as_str (s : JobState) : string :=
  match s with
  | JobState.Queued => "queued" | JobState.Running => "running"
  | JobState.Completed => "completed" | JobState.Failed => "failed"
  | JobState.Cancelled => "cancelled"
  end.

Definition JobState_is_terminal (s : JobState) : bool :=
  match s with
  | JobState.Completed | JobState.Failed | JobState.Cancelled => true
  | _ => false
  end.

Definition JobState_parse (s : string) : option JobState :=
  find (fun v => bool_decide (JobState_as_str v = s))
    [JobState.Queued; JobState.Running; JobState.Completed; JobState.Failed; JobState.Cancelled].

Definition JobState_can_transition_to (self next : JobState) : bool :=
  match self, next with
  | JobState.Queued, JobState.Running
  | JobState.Queued, JobState.Cancelled
  | JobState.Queued, JobState.Failed
  | JobState.Running, JobState.Completed
  | JobState.Running, JobState.Failed
  | JobState.Running, JobState.Cancelled => true
  | _, _ => false
  end.

(** ** Task states *)
Module TaskState.
Inductive t := Queued | Assigned | Running | Completed | Failed.
End TaskState.
Abbreviation TaskState := TaskState.t.
#[export] Instance TaskState_eq_dec : EqDecision TaskState.
Proof. solve_decision. Defined.

Definition TaskState_ALL : list TaskState :=
  [TaskState.Queued; TaskState.Assigned; TaskState.Running; TaskState.Completed; TaskState.Failed].

Definition TaskState_as_str (s : TaskState) : string :=
  match s with
  | TaskState.Queued => "queued" | TaskState.Assigned => "assigned"
  | TaskState.Running => "running" | TaskState.Completed => "completed"
  | TaskState.Failed => "failed"
  end.

Definition TaskState_is_terminal (s : TaskState) : bool :=
  match s with TaskState.Completed | TaskState.Failed => true | _ => false end.

Definition TaskState_parse (s : string) : option TaskState :=
  find (fun v => bool_decide (TaskState_as_str v = s))
    [TaskState.Queued; TaskState.Assigned; TaskState.Running; TaskState.Completed; TaskState.Failed].

Definition TaskState_can_transition_to (self next : TaskState) : bool :=
  match self, next with
  | TaskState.Queued, TaskState.Assigned
  | TaskState.Assigned, TaskState.Running
  | TaskState.Assigned, TaskState.Failed
  | TaskState.Assigned, TaskState.Queued
  | TaskState.Running, TaskState.Completed
  | TaskState.Running, TaskState.Failed
  | TaskState.Running, TaskState.Queued
  | TaskState.Failed, TaskState.Queued => true
  | _, _ => false
  end.

(** ** Failure reasons and errors *)
Inductive FailureReason := NodeOffline | ExecutionError | Injected | Timeout | Cancelled.
#[export] Instance FailureReason_eq_dec : EqDecision FailureReason.
Proof. solve_decision. Defined.

Definition FailureReason_as_str (r : FailureReason) : string :=
  match r with
  | NodeOffline => "node_offline" | ExecutionError => "execution_error"
  | Injected => "injected" | Timeout => "timeout" | Cancelled => "cancelled"
  end.

Definition FailureReason_parse (s : string) : option FailureReason :=
  find (fun v => bool_decide (FailureReason_as_str v = s))
    [NodeOffline; ExecutionError; Injected; Timeout; Cancelled].

Inductive StateError :=
| IllegalJobTransition (from to : JobState)
| IllegalTaskTransition (from to : TaskState).

Inductive SchedulerError := NoEligibleNode.

Inductive ClusterError :=
| UnknownNode (n : NodeId)
| UnknownJob (j : JobId)
| UnknownTask (t : TaskId)
| NodeAlreadyRunning (n : NodeId)
| NodeNotRunning (n : NodeId)
| Invalid (why : string)
| ClusterStateError (e : StateError)
| ClusterSchedulerError (e : SchedulerError)
| Unavailable (why : string).

(** ** Jobs *)
Record Job := {
  job_id : JobId;
  job_spec : JobSpec;
  job_state : JobState;
  job_task_count : N;
  job_tasks_completed : N;
  job_tasks_failed : N;
  job_created_at : Millis;
  job_finished_at : option Millis
}.

Definition Job_new (id : JobId) (spec : JobSpec) (at_ : Millis) : Job :=
  {| job_id := id; job_spec := spec; job_state := JobState.Queued;
     job_task_count := JobSpec_task_count spec; job_tasks_completed := 0; job_tasks_failed := 0;
     job_created_at := at_; job_finished_at := None |}.

Definition job_set_state (j : Job) (s : JobState) (f : option Millis) : Job :=
  {| job_id := job_id j; job_spec := job_spec j; job_state := s;
     job_task_count := job_task_count j; job_tasks_completed := job_tasks_completed j;
     job_tasks_failed := job_tasks_failed j; job_created_at := job_created_at j;
     job_finished_at := f |}.

Definition job_set_counts (j : Job) (completed failed : N) : Job :=
  {| job_id := job_id j; job_spec := job_spec j; job_state := job_state j;
     job_task_count := job_task_count j; job_tasks_completed := completed;
     job_tasks_failed := failed; job_created_at := job_created_at j;
     job_finished_at := job_finished_at j |}.

Definition Job_transition_to (self : Job) (next : JobState) (at_ : Millis) : Result Job StateError :=
  if bool_decide (job_state self = next) then Ok self
  else if negb (JobState_can_transition_to (job_state self) next)
  then Err (IllegalJobTransition (job_state self) next)
  else Ok (job_set_state self next
             (if JobState_is_terminal next then Some at_ else job_finished_at self)).

Definition Job_progress_percent (self : Job) : N :=
  if job_task_count self =? 0 then 100
  else wrap 8 (job_tasks_completed self * 100 / job_task_count self).

Definition Job_duration_ms (self : Job) (now : Millis) : N :=
  since (default now (job_finished_at self)) (job_created_at self).

(** ** Tasks *)
Record Task := {
  task_id : TaskId;
  task_job_id : JobId;
  task_index : N;
  task_spec : TaskSpec;
  task_state : TaskState;
  task_assigned_to : option NodeId;
  task_attempt : N;
  task_output : option string;
  task_updated_at : Millis
}.

Definition Task_new (id : TaskId) (job : JobId) (index : N) (spec : TaskSpec) (at_ : Millis) : Task :=
  {| task_id := id; task_job_id := job; task_index := index; task_spec := spec;
     task_state := TaskState.Queued; task_assigned_to := None; task_attempt := 0;
     task_output := None; task_updated_at := at_ |}.

(** A task with its mutable fields replaced. *)
Definition task_with (t : Task) (s : TaskState) (a : option NodeId) (n : N)
    (o : option string) (at_ : Millis) : Task :=
  {| task_id := task_id t; task_job_id := task_job_id t; task_index := task_index t;
     task_spec := task_spec t; task_state := s; task_assigned_to := a; task_attempt := n;
     task_output := o; task_updated_at := at_ |}.

Definition Task_transition_to (self : Task) (next : TaskState) (at_ : Millis) : Result Task StateError :=
  if negb (TaskState_can_transition_to (task_state self) next)
  then Err (IllegalTaskTransition (task_state self) next)
  else Ok (task_with self next (task_assigned_to self) (task_attempt self) (task_output self) at_).

Definition Task_assign (self : Task) (node : NodeId) (at_ : Millis) : Result Task StateError :=
  let? t := Task_transition_to self TaskState.Assigned at_ in
  Ok (task_with t (task_state t) (Some node) (sat_add u16_max (task_attempt t) 1)
        (task_output t) (task_updated_at t)).

Definition Task_start (self : Task) (at_ : Millis) : Result Task StateError :=
  Task_transition_to self TaskState.Running at_.

Definition Task_complete (self : Task) (output : string) (at_ : Millis) : Result Task StateError :=
  let? t := Task_transition_to self TaskState.Completed at_ in
  Ok (task_with t (task_state t) (task_assigned_to t) (task_attempt t) (Some output)
        (task_updated_at t)).

Definition Task_fail (self : Task) (at_ : Millis) : Result Task StateError :=
  Task_transition_to self TaskState.Failed at_.

Definition Task_requeue (self : Task) (at_ : Millis) : Result Task StateError :=
  let? t := Task_transition_to self TaskState.Queued at_ in
  Ok (task_with t (task_state t) None (task_attempt t) None (task_updated_at t)).

Record TaskAttempt := {
  ta_task_id : TaskId;
  ta_job_id : JobId;
  ta_node_id : option NodeId;
  ta_attempt : N;
  ta_at : Millis;
  ta_reason : FailureReason;
  ta_detail : string
}.

Definition TaskAttempt_new (task : Task) (reason : FailureReason) (detail : string) (at_ : Millis) :
    TaskAttempt :=
  {| ta_task_id := task_id task; ta_job_id := task_job_id task; ta_node_id := task_assigned_to task;
     ta_attempt := task_attempt task; ta_at := at_; ta_reason := reason; ta_detail := detail |}.

Inductive TaskOutcome :=
| OutcomeCompleted (output : string)
| OutcomeFailed (reason : FailureReason) (detail : string).

(** ** Splitting *)
Definition sleep_total (l : list TaskSpec) : N :=
  foldr (fun t acc => match t with TaskSleep ms => ms + acc | _ => acc end) 0 l.

(** The ranges of [l] tile the half-open interval [from, to). *)
Fixpoint tiles (from to : N) (l : list TaskSpec) : Prop :=
  match l with
  | [] => from = to
  | TaskPrimes a b :: l => a = from /\ a <= b /\ tiles b to l
  | _ :: _ => False
  end.

Lemma range0_length n : length (range0 n) = N.to_nat n.
Proof. unfold range0. by rewrite length_fmap, length_seq. Qed.

Lemma elem_of_range0 n i : i ∈ range0 n <-> i < n.
Proof.
  unfold range0. rewrite list_elem_of_fmap. split.
  - intros (k & -> & Hk). apply elem_of_seq in Hk. lia.
  - intros Hi. exists (N.to_nat i). rewrite elem_of_seq. lia.
Qed.

Lemma sleep_total_seq each rem (k len : nat) :
  sleep_total ((fun i => TaskSleep (each + if i <? rem then 1 else 0)) <$> (N.of_nat <$> seq k len)) =
    N.of_nat len * each + (N.min rem (N.of_nat (k + len)) - N.min rem (N.of_nat k)).
Proof.
  revert k. induction len as [|len IH]; intros k; simpl; [lia|].
  fold (sleep_total ((fun i => TaskSleep (each + if i <? rem then 1 else 0)) <$> (N.of_nat <$> seq (S k) len))).
  rewrite IH. destruct (N.ltb_spec (N.of_nat k) rem); lia.
Qed.

Lemma primes_tiles_seq upper n chunk (k len : nat) :
  N.of_nat (k + len) = n -> (0 < len)%nat -> n * chunk <= upper ->
  tiles (N.of_nat k * chunk) upper
    ((fun i => TaskPrimes (i * chunk) (if i + 1 =? n then upper else i * chunk + chunk)) <$>
      (N.of_nat <$> seq k len)).
Proof.
  revert k. induction len as [|len IH]; intros k Hn Hlen Hc; [lia|]. simpl.
  split; [done|]. destruct (N.eqb_spec (N.of_nat k + 1) n) as [E|E].
  - assert (len = 0%nat) as -> by lia. simpl. split; [nia|done].
  - split; [nia|]. replace (N.of_nat k * chunk + chunk) with (N.of_nat (S k) * chunk) by lia.
    apply IH; lia.
Qed.

Lemma JobSpec_task_count_pos s : 0 < JobSpec_task_count s.
Proof. destruct s; simpl; lia. Qed.

Lemma split_primes_tiles ub tasks : tiles 0 ub (JobSpec_split (JobPrimes ub tasks)).
Proof.
  unfold JobSpec_split, range0. pose proof (JobSpec_task_count_pos (JobPrimes ub tasks)).
  set (n := JobSpec_task_count _) in *.
  apply (primes_tiles_seq ub n (ub / n) 0); [lia..|]. apply N.Div0.mul_div_le.
Qed.

Lemma split_sleep_total total tasks : sleep_total (JobSpec_split (JobSleep total tasks)) = total.
Proof.
  unfold JobSpec_split, range0. pose proof (JobSpec_task_count_pos (JobSleep total tasks)).
  set (n := JobSpec_task_count _) in *. rewrite sleep_total_seq.
  pose proof (N.div_mod total n ltac:(lia)) as Hdm. pose proof (N.mod_lt total n ltac:(lia)) as Hlt.
  rewrite Nat.add_0_l, N2Nat.id. revert Hdm Hlt. generalize (total / n) (total mod n). lia.
Qed.

Lemma split_length s : length (JobSpec_split s) = N.to_nat (JobSpec_task_count s).
Proof. destruct s; unfold JobSpec_split; rewrite length_fmap; apply range0_length. Qed.

(** Splitting a job loses and duplicates nothing: there is one task per
    requested task (at least one), the sleeping time is shared out exactly, the
    prime ranges tile [0, upper_bound), and the partitions are numbered
    0, 1, ..., n-1. *)
Theorem split_partitions_work (s : JobSpec) :
  JobSpec_task_count s <= u16_max ->
  length (JobSpec_split s) = N.to_nat (JobSpec_task_count s) /\
  match s with
  | JobSleep total_ms _ => sleep_total (JobSpec_split s) = total_ms
  | JobPrimes upper_bound _ => tiles 0 upper_bound (JobSpec_split s)
  | JobAnalysis v a _ => JobSpec_split s = TaskAnalysis v a <$> range0 (JobSpec_task_count s)
  end.
Proof.
  intros Hmax. split; [apply split_length|].
  destruct s as [total k|ub k|v a k]; [apply split_sleep_total|apply split_primes_tiles|].
  apply list_fmap_ext. intros i x Hx. apply list_elem_of_lookup_2, elem_of_range0 in Hx.
  f_equal. apply wrap_small. unfold u16_max in Hmax. simpl. lia.
Qed.

Lemma split_partitions_work_witness :
  JobSpec_task_count (JobPrimes 100 3) <= u16_max /\
  tiles 0 100 (JobSpec_split (JobPrimes 100 3)).
Proof.
  assert (JobSpec_task_count (JobPrimes 100 3) <= u16_max) as H by (vm_compute; discriminate).
  split; [exact H|]. exact (proj2 (split_partitions_work (JobPrimes 100 3) H)).
Defined.

(** ** The task life cycle *)
Definition held (s : TaskState) : bool :=
  match s with TaskState.Assigned | TaskState.Running => true | _ => false end.

(** A task in flight is held by a node and has no output yet; a queued one is
    held by nobody; a completed one has its output. *)
Definition Task_wf (t : Task) : Prop :=
  match task_state t with
  | TaskState.Queued => task_assigned_to t = None /\ task_output t = None
  | TaskState.Assigned | TaskState.Running => is_Some (task_assigned_to t) /\ task_output t = None
  | TaskState.Completed => is_Some (task_assigned_to t) /\ is_Some (task_output t)
  | TaskState.Failed => is_Some (task_assigned_to t) /\ task_output t = None
  end.

Inductive task_op := OpAssign (n : NodeId) | OpStart | OpComplete (o : string) | OpFail | OpRequeue.

Definition run_op (op : task_op) (t : Task) (at_ : Millis) : Result Task StateError :=
  match op with
  | OpAssign n => Task_assign t n at_
  | OpStart => Task_start t at_
  | OpComplete o => Task_complete t o at_
  | OpFail => Task_fail t at_
  | OpRequeue => Task_requeue t at_
  end.

Definition op_target (op : task_op) : TaskState :=
  match op with
  | OpAssign _ => TaskState.Assigned | OpStart => TaskState.Running
  | OpComplete _ => TaskState.Completed | OpFail => TaskState.Failed | OpRequeue => TaskState.Queued
  end.

(** The task state machine: an operation succeeds exactly on the edges of
    [can_transition_to] and reports the attempted edge otherwise; a success
    moves to the operation's state, keeps the task's identity, preserves
    well-formedness, and only [assign] counts an attempt.  A completed task is
    final. *)
Theorem task_state_machine (op : task_op) (t : Task) (at_ : Millis) :
  Task_wf t ->
  match run_op op t at_ with
  | Ok t' =>
      TaskState_can_transition_to (task_state t) (op_target op) = true /\
      task_state t <> TaskState.Completed /\
      task_state t' = op_target op /\ Task_wf t' /\
      task_id t' = task_id t /\ task_job_id t' = task_job_id t /\
      task_index t' = task_index t /\ task_spec t' = task_spec t /\ task_updated_at t' = at_ /\
      task_attempt t' = match op with OpAssign _ => N.min (task_attempt t + 1) u16_max
                        | _ => task_attempt t end
  | Err e =>
      TaskState_can_transition_to (task_state t) (op_target op) = false /\
      e = IllegalTaskTransition (task_state t) (op_target op)
  end.
Proof.
  intros Hwf. destruct t as [id job idx spec st asg att out upd].
  destruct op, st; cbn in Hwf |- *; repeat split; try congruence; try tauto; eauto.
Qed.

Lemma task_state_machine_witness :
  Task_wf (Task_new 7 1 0 (TaskSleep 5) 0) /\
  exists t', run_op (OpAssign 3) (Task_new 7 1 0 (TaskSleep 5) 0) 10 = Ok t' /\
    task_state t' = TaskState.Assigned.
Proof.
  assert (Task_wf (Task_new 7 1 0 (TaskSleep 5) 0)) as H by (vm_compute; split; reflexivity).
  split; [exact H|]. pose proof (task_state_machine (OpAssign 3) _ 10 H) as M.
  destruct (run_op _ _ _) as [t'|e]; [|exfalso; destruct M as [M _]; vm_compute in M; discriminate].
  exists t'. split; [reflexivity|]. apply M.
Defined.

(** ** The job life cycle *)
Definition Job_wf (j : Job) : Prop :=
  is_Some (job_finished_at j) <-> JobState_is_terminal (job_state j) = true.

(** The job state machine: a terminal job never leaves its state, a job is
    stamped [finished_at] exactly when it becomes terminal, and an illegal edge
    is reported and changes nothing. *)
Theorem job_state_machine (j : Job) (next : JobState) (at_ : Millis) :
  Job_wf j ->
  match Job_transition_to j next at_ with
  | Ok j' =>
      job_state j' = next /\ Job_wf j' /\
      (job_state j = next \/ JobState_can_transition_to (job_state j) next = true) /\
      (JobState_is_terminal (job_state j) = true -> j' = j) /\
      (job_state j <> next -> JobState_is_terminal next = true -> job_finished_at j' = Some at_) /\
      job_id j' = job_id j /\ job_task_count j' = job_task_count j /\
      job_tasks_completed j' = job_tasks_completed j /\ job_tasks_failed j' = job_tasks_failed j
  | Err e => job_state j <> next /\ e = IllegalJobTransition (job_state j) next /\
      JobState_can_transition_to (job_state j) next = false
  end.
Proof.
  unfold Job_wf. intros Hwf. destruct j as [id spec st n c f cr fin].
  destruct st, next; cbn in Hwf |- *; repeat split; try congruence; try tauto; eauto;
    intros; exfalso; eapply is_Some_None; tauto.
Qed.

Lemma job_state_machine_witness :
  Job_wf (Job_new 1 (JobSleep 10 2) 0) /\
  match Job_transition_to (Job_new 1 (JobSleep 10 2) 0) JobState.Completed 5 with
  | Ok _ => False | Err e => e = IllegalJobTransition JobState.Queued JobState.Completed end.
Proof.
  assert (Job_wf (Job_new 1 (JobSleep 10 2) 0)) as H.
  { split; [intros [? E]; discriminate E|discriminate]. }
  split; [exact H|]. exact (proj1 (proj2 (job_state_machine _ JobState.Completed 5 H))).
Defined.

Lemma progress_bounded j :
  job_tasks_completed j <= job_task_count j -> Job_progress_percent j <= 100.
Proof.
  intros H. unfold Job_progress_percent. destruct (N.eqb_spec (job_task_count j) 0); [lia|].
  assert (job_tasks_completed j * 100 / job_task_count j <= 100) as Hle.
  { apply N.Div0.div_le_upper_bound. lia. }
  rewrite wrap_small; [done|]. revert Hle. generalize (job_tasks_completed j * 100 / job_task_count j).
  simpl. lia.
Qed.
