(* ===== verification/Event.v ===== *)
(** * Cluster events

    Models [crates/cluster-core/src/event.rs]: the event type, its severity and
    database discriminator, the message pattern with its substitutions, and the
    numbered record. *)
From Stdlib Require Import Ascii.
From stdpp Require Import prelude strings pretty.
From S2P Require Import Prelude Time Role Node Job.

Inductive ClusterEvent :=
| NodeJoined (node : NodeId)
| NodeLeft (node : NodeId)
| NodeUnhealthy (node : NodeId)
| NodeRecovered (node : NodeId)
| RoleAssigned (node : NodeId) (role : Role)
| RoleRemoved (node : NodeId) (role : Role)
| LeaderElected (node : NodeId)
| LeaderLost (node : NodeId)
| JobCreated (job : JobId)
| JobCompleted (job : JobId)
| JobFailed (job : JobId)
| TaskAssigned (task : TaskId) (node : NodeId)
| TaskCompleted (task : TaskId) (node : NodeId)
| TaskFailed (task : TaskId) (node : option NodeId) (reason : FailureReason)
| TaskRequeued (task : TaskId).
#[export] Instance ClusterEvent_eq_dec : EqDecision ClusterEvent.
Proof. solve_decision. Defined.

Inductive EventSeverity := Info | Warn | Error.

Definition EventSeverity_as_str (s : EventSeverity) : string :=
  match s with Info => "info" | Warn => "warn" | Error => "error" end.

Definition ClusterEvent_severity (e : ClusterEvent) : EventSeverity :=
  match e with
  | NodeUnhealthy _ | NodeLeft _ | TaskRequeued _ | LeaderLost _ => Warn
  | TaskFailed _ _ _ | JobFailed _ => Error
  | _ => Info
  end.

Definition ClusterEvent_kind (e : ClusterEvent) : string :=
  match e with
  | NodeJoined _ => "node_joined" | NodeLeft _ => "node_left"
  | NodeUnhealthy _ => "node_unhealthy" | NodeRecovered _ => "node_recovered"
  | RoleAssigned _ _ => "role_assigned" | RoleRemoved _ _ => "role_removed"
  | LeaderElected _ => "leader_elected" | LeaderLost _ => "leader_lost"
  | JobCreated _ => "job_created" | JobCompleted _ => "job_completed" | JobFailed _ => "job_failed"
  | TaskAssigned _ _ => "task_assigned" | TaskCompleted _ _ => "task_completed"
  | TaskFailed _ _ _ => "task_failed" | TaskRequeued _ => "task_requeued"
  end.

(** [out.find("{}")] followed by [replace_range]: the first placeholder is
    replaced, a string without one is left alone. *)
Fixpoint replace_first (s arg : string) : string :=
  match s with
  | String "{"%char (String "}"%char rest) => String.append arg rest
  | String c rest => String c (replace_first rest arg)
  | EmptyString => EmptyString
  end.

Definition message_parts (e : ClusterEvent) : string * list string :=
  match e with
  | NodeJoined node => ("{} joined", [NodeId_fmt node])
  | NodeLeft node => ("{} left", [NodeId_fmt node])
  | NodeUnhealthy node => ("{} heartbeat lost", [NodeId_fmt node])
  | NodeRecovered node => ("{} recovered", [NodeId_fmt node])
  | RoleAssigned node role => ("{} assigned to {}", [Role_as_str role; NodeId_fmt node])
  | RoleRemoved node role => ("{} removed from {}", [Role_as_str role; NodeId_fmt node])
  | LeaderElected node => ("{} elected coordinator", [NodeId_fmt node])
  | LeaderLost node => ("{} lost coordinator role", [NodeId_fmt node])
  | JobCreated job => ("{} created", [JobId_fmt job])
  | JobCompleted job => ("{} completed", [JobId_fmt job])
  | JobFailed job => ("{} failed", [JobId_fmt job])
  | TaskAssigned task node => ("{} assigned to {}", [TaskId_fmt task; NodeId_fmt node])
  | TaskCompleted task node => ("{} completed on {}", [TaskId_fmt task; NodeId_fmt node])
  | TaskFailed task (Some node) reason =>
      ("{} failed on {} ({})", [TaskId_fmt task; NodeId_fmt node; FailureReason_as_str reason])
  | TaskFailed task None reason => ("{} failed ({})", [TaskId_fmt task; FailureReason_as_str reason])
  | TaskRequeued task => ("{} requeued", [TaskId_fmt task])
  end.

Definition ClusterEvent_message (e : ClusterEvent) : string :=
  let '(pattern, args) := message_parts e in foldl replace_first pattern args.

Definition ClusterEvent_node (e : ClusterEvent) : option NodeId :=
  match e with
  | NodeJoined node | NodeLeft node | NodeUnhealthy node | NodeRecovered node
  | RoleAssigned node _ | RoleRemoved node _ | LeaderElected node | LeaderLost node
  | TaskAssigned _ node | TaskCompleted _ node => Some node
  | TaskFailed _ node _ => node
  | _ => None
  end.

Record EventRecord := { er_seq : N; er_at : Millis; er_event : ClusterEvent }.
Definition EventRecord_new (seq : N) (at_ : Millis) (e : ClusterEvent) : EventRecord :=
  {| er_seq := seq; er_at := at_; er_event := e |}.

Example message_failed :
  ClusterEvent_message (TaskFailed 12 (Some 3) NodeOffline) = "task-12 failed on node-03 (node_offline)".
Proof. reflexivity. Qed.
