(* ===== verification/Scheduler.v ===== *)
(** * Placement and leader election

    Models [crates/cluster-core/src/scheduler.rs] and
    [crates/cluster-core/src/coordinator.rs].  The two traits are type classes;
    [SchedulerLaws] and [ElectorLaws] are what the supervisor relies on, and the
    instances [LeastLoaded], [RoundRobin] and [LowestHealthyId] discharge them. *)
From stdpp Require Import prelude sorting.
From S2P Require Import Prelude Time Role Node Job.

(** [trait Scheduler] and [trait Elector]. *)
Class Scheduler (S : Type) := select_node : S -> Task -> list Node -> Result NodeId SchedulerError.
Class Elector (L : Type) := elect : L -> list Node -> option NodeId.

(** What a placement policy owes its caller: it answers with the id of an
    eligible node of the list it was given, and refuses only when the list has
    no eligible node. *)
Class SchedulerLaws (S : Type) `{Scheduler S} : Prop := {
  select_node_sound : forall s task nodes id,
    select_node s task nodes = Ok id ->
    exists n, n ∈ nodes /\ node_id n = id /\ is_schedulable n = true;
  select_node_complete : forall s task nodes e,
    select_node s task nodes = Err e -> Forall (fun n => is_schedulable n = false) nodes
}.

(** What an election policy owes: a healthy member of the list, when there is
    one. *)
Class ElectorLaws (L : Type) `{Elector L} : Prop := {
  elect_sound : forall l nodes id, elect l nodes = Some id ->
    exists n, n ∈ nodes /\ node_id n = id /\ accepts_work (node_status n) = true;
  elect_complete : forall l nodes, elect l nodes = None ->
    Forall (fun n => accepts_work (node_status n) = false) nodes
}.

Definition schedulable (nodes : list Node) (_task : Task) : list Node :=
  filter (fun n => is_schedulable n = true) nodes.

(** [Iterator::min_by_key]: the first element no other is strictly below. *)
Section MinBy.
Context {A : Type} (ltb : A -> A -> bool).

Definition min_by (l : list A) : option A :=
  match l with
  | [] => None
  | x :: l => Some (foldl (fun best y => if ltb y best then y else best) x l)
  end.

Context (ltb_irrefl : forall x, ltb x x = false)
  (ltb_trans : forall x y z, ltb y x = false -> ltb z y = false -> ltb z x = false)
  (ltb_asym : forall x y, ltb x y = true -> ltb y x = false).

Lemma foldl_min_spec l x :
  let m := foldl (fun best y => if ltb y best then y else best) x l in
  m ∈ x :: l /\ Forall (fun y => ltb y m = false) (x :: l).
Proof.
  revert x. induction l as [|y l IH]; intros x; simpl.
  - split; [by constructor|]. by repeat constructor.
  - destruct (ltb y x) eqn:E; (destruct (IH (if ltb y x then y else x)) as [Hin Hall]; rewrite E in *).
    + split; [by apply list_elem_of_further|]. apply Forall_cons in Hall as [Hy Hall].
      constructor; [|by constructor]. eapply ltb_trans; [exact Hy|]. by apply ltb_asym.
    + split.
      * apply elem_of_cons in Hin as [->|Hin]; [by left|by do 2 right].
      * apply Forall_cons in Hall as [Hx Hall]. constructor; [done|]. constructor; [|done].
        by eapply ltb_trans.
Qed.
End MinBy.

(** ** [LeastLoaded] *)
Record LeastLoaded := least_loaded {}.

(** The lexicographic order on
    [(running_tasks, load_percent, Reverse(compute_weight), id)]. *)
Definition load_ltb (x y : Node) : bool :=
  let rx := running_tasks (node_load x) in let ry := running_tasks (node_load y) in
  let px := load_percent (node_load x) in let py := load_percent (node_load y) in
  let wx := compute_weight (node_capabilities x) in let wy := compute_weight (node_capabilities y) in
  (rx <? ry) || ((rx =? ry) &&
  ((px <? py) || ((px =? py) &&
  ((wy <? wx) || ((wx =? wy) &&
  (node_id x <? node_id y)))))).

#[export] Instance LeastLoaded_select_node : Scheduler LeastLoaded := fun _ task nodes =>
  ok_or NoEligibleNode (node_id <$> min_by load_ltb (schedulable nodes task)).

Lemma load_ltb_spec x y :
  load_ltb x y = true <->
  let rx := running_tasks (node_load x) in let ry := running_tasks (node_load y) in
  let px := load_percent (node_load x) in let py := load_percent (node_load y) in
  let wx := compute_weight (node_capabilities x) in let wy := compute_weight (node_capabilities y) in
  rx < ry \/ rx = ry /\ (px < py \/ px = py /\ (wy < wx \/ wx = wy /\ node_id x < node_id y)).
Proof.
  unfold load_ltb. cbv zeta.
  rewrite !orb_true_iff, !andb_true_iff, !orb_true_iff, !andb_true_iff, !orb_true_iff, !andb_true_iff,
    !N.ltb_lt, !N.eqb_eq. reflexivity.
Qed.

Lemma load_ltb_false x y : load_ltb x y = false <-> ~ load_ltb x y = true.
Proof. destruct (load_ltb x y); intuition congruence. Qed.

Ltac load_order := intros; rewrite ?load_ltb_false, ?load_ltb_spec in *; cbv zeta in *; lia.

Lemma load_ltb_irrefl x : load_ltb x x = false.
Proof. load_order. Qed.
Lemma load_ltb_asym x y : load_ltb x y = true -> load_ltb y x = false.
Proof. load_order. Qed.
Lemma load_ltb_trans x y z : load_ltb y x = false -> load_ltb z y = false -> load_ltb z x = false.
Proof. load_order. Qed.

Lemma LeastLoaded_select_Ok s task nodes id :
  select_node (S := LeastLoaded) s task nodes = Ok id ->
  exists n, n ∈ schedulable nodes task /\ node_id n = id /\
    Forall (fun m => load_ltb m n = false) (schedulable nodes task).
Proof.
  unfold select_node, LeastLoaded_select_node, min_by.
  destruct (schedulable nodes task) as [|x l]; simpl; [discriminate|]. intros [= <-].
  destruct (foldl_min_spec load_ltb load_ltb_irrefl load_ltb_trans load_ltb_asym l x) as [Hin Hall].
  eauto.
Qed.

Lemma schedulable_nil nodes task :
  schedulable nodes task = [] -> Forall (fun n => is_schedulable n = false) nodes.
Proof.
  intros H. apply Forall_forall. intros n Hn. apply not_true_is_false. intros Hs.
  assert (n ∈ schedulable nodes task) as Hin by (by apply list_elem_of_filter).
  rewrite H in Hin. by apply not_elem_of_nil in Hin.
Qed.

#[export] Instance LeastLoaded_laws : SchedulerLaws LeastLoaded.
Proof.
  split.
  - intros s task nodes id H. apply LeastLoaded_select_Ok in H as (n & Hin & Hid & _).
    apply list_elem_of_filter in Hin as [Hs Hin]. eauto.
  - intros s task nodes e. unfold select_node, LeastLoaded_select_node, min_by.
    destruct (schedulable nodes task) eqn:E; simpl; [|discriminate].
    intros _. by eapply schedulable_nil.
Qed.

(** [LeastLoaded] answers with an eligible node that no eligible node beats
    on (running tasks, load, capacity, id) -- it strictly beats every other one,
    so the answer is determined -- and refuses exactly when no node is eligible. *)
Theorem LeastLoaded_optimal (task : Task) (nodes : list Node) :
  NoDup (node_id <$> nodes) ->
  match select_node least_loaded task nodes with
  | Ok id => exists n, n ∈ nodes /\ node_id n = id /\ is_schedulable n = true /\
      forall m, m ∈ nodes -> is_schedulable m = true -> m <> n -> load_ltb n m = true
  | Err _ => forall n, n ∈ nodes -> is_schedulable n = false
  end.
Proof.
  intros Hnd. destruct (select_node least_loaded task nodes) as [id|e] eqn:E.
  - apply LeastLoaded_select_Ok in E as (n & Hin & Hid & Hall).
    apply list_elem_of_filter in Hin as [Hs Hin]. exists n. repeat split; [done..|].
    intros m Hm Hms Hne. rewrite Forall_forall in Hall.
    specialize (Hall m ltac:(by apply list_elem_of_filter)).
    assert (node_id m <> node_id n) as Hid'.
    { intros Heq. apply Hne. apply list_elem_of_lookup in Hm as [i Hi], Hin as [j Hj].
      assert (i = j) as ->; [|congruence].
      apply (NoDup_lookup _ i j (node_id n) Hnd); rewrite list_lookup_fmap, ?Hi, ?Hj; simpl; congruence. }
    load_order.
  - apply select_node_complete in E. by rewrite Forall_forall in E.
Qed.

(** Two busy nodes and an idle one with the compute role: the idle one is chosen. *)
Lemma LeastLoaded_optimal_witness :
  let node id running := {| node_id := id; node_status := Healthy; node_roles := (RoleSet_insert RoleSet_EMPTY Compute).1;
    node_capabilities := NodeCapabilities_new 4 0;
    node_load := {| load_percent := 5; running_tasks := running; free_memory_bytes := 0; simulated := false |};
    node_last_seen := 0; node_joined_at := 0 |} in
  let nodes := [node 1 1; node 2 0; node 3 1] in
  select_node least_loaded (Task_new 1 1 0 (TaskSleep 5) 0) nodes = Ok 2 /\
  exists n, n ∈ nodes /\ node_id n = 2 /\ is_schedulable n = true /\
    forall m, m ∈ nodes -> is_schedulable m = true -> m <> n -> load_ltb n m = true.
Proof.
  intros node nodes. split; [reflexivity|].
  refine (LeastLoaded_optimal (Task_new 1 1 0 (TaskSleep 5) 0) nodes _).
  unfold nodes. cbn. repeat constructor; set_solver.
Defined.

(** ** [RoundRobin] *)
Record RoundRobin := round_robin {}.

#[export] Instance RoundRobin_select_node : Scheduler RoundRobin := fun _ task nodes =>
  let eligible := schedulable nodes task in
  match eligible with
  | [] => Err NoEligibleNode
  | _ =>
      let slot := N.to_nat (task_id task mod N.of_nat (length eligible)) in
      ok_or NoEligibleNode (node_id <$> eligible !! slot)
  end.

Lemma RoundRobin_in_range task (l : list Node) :
  l <> [] -> is_Some (l !! N.to_nat (task_id task mod N.of_nat (length l))).
Proof.
  intros Hl. apply lookup_lt_is_Some.
  pose proof (N.mod_lt (task_id task) (N.of_nat (length l))). destruct l; simpl in *; [done|lia].
Qed.

#[export] Instance RoundRobin_laws : SchedulerLaws RoundRobin.
Proof.
  split.
  - intros s task nodes id. unfold select_node, RoundRobin_select_node.
    pose proof (RoundRobin_in_range task (schedulable nodes task)) as Hr.
    destruct (schedulable nodes task) as [|x l] eqn:E; [discriminate|].
    destruct Hr as [n Hn]; [done|]. rewrite Hn. simpl. intros [= <-].
    apply list_elem_of_lookup_2 in Hn. rewrite <- E in Hn.
    apply list_elem_of_filter in Hn as [Hs Hn]. eauto.
  - intros s task nodes e. unfold select_node, RoundRobin_select_node.
    pose proof (RoundRobin_in_range task (schedulable nodes task)) as Hr.
    destruct (schedulable nodes task) as [|x l] eqn:E.
    + intros _. by eapply schedulable_nil.
    + destruct Hr as [n Hn]; [done|]. rewrite Hn. discriminate.
Qed.

(** ** [LowestHealthyId] *)
Record LowestHealthyId := lowest_healthy_id {}.

Definition id_ltb (x y : Node) : bool := node_id x <? node_id y.

#[export] Instance LowestHealthyId_elect : Elector LowestHealthyId := fun _ nodes =>
  node_id <$> min_by id_ltb (filter (fun n => accepts_work (node_status n) = true) nodes).

Lemma LowestHealthyId_spec l nodes :
  match elect (L := LowestHealthyId) l nodes with
  | Some id => exists n, n ∈ nodes /\ node_id n = id /\ accepts_work (node_status n) = true /\
      forall m, m ∈ nodes -> accepts_work (node_status m) = true -> id <= node_id m
  | None => Forall (fun n => accepts_work (node_status n) = false) nodes
  end.
Proof.
  unfold elect, LowestHealthyId_elect, min_by.
  destruct (filter _ nodes) as [|x k] eqn:E; simpl.
  - apply Forall_forall. intros n Hn. apply not_true_is_false. intros Hs.
    assert (n ∈ filter (fun n => accepts_work (node_status n) = true) nodes) as Hin
      by (by apply list_elem_of_filter).
    rewrite E in Hin. by apply not_elem_of_nil in Hin.
  - destruct (foldl_min_spec id_ltb ltac:(unfold id_ltb; intros; apply N.ltb_irrefl)
      ltac:(unfold id_ltb; intros; rewrite N.ltb_ge in *; lia)
      ltac:(unfold id_ltb; intros; rewrite ?N.ltb_ge, ?N.ltb_lt in *; lia) k x) as [Hin Hall].
    rewrite <- E in Hin, Hall. apply list_elem_of_filter in Hin as [Hs Hin]. eexists.
    split; [exact Hin|]. split; [done|]. split; [done|]. intros m Hm Hms.
    rewrite Forall_forall in Hall. specialize (Hall m ltac:(by apply list_elem_of_filter)).
    unfold id_ltb in Hall at 1. by rewrite N.ltb_ge in Hall.
Qed.

#[export] Instance LowestHealthyId_laws : ElectorLaws LowestHealthyId.
Proof.
  split; intros l nodes; pose proof (LowestHealthyId_spec l nodes) as H.
  - intros id E. rewrite E in H. destruct H as (n & Hin & Hid & Hs & _). eauto.
  - intros E. by rewrite E in H.
Qed.
