(* ===== verification/Workload.v ===== *)
(** * What a task computes

    Models [crates/cluster-core/src/workload.rs].  [is_prime] is the source's
    6k+/-1 trial division with its [u64] products wrapped as the release profile
    wraps them; it is proved to decide primality below the first square that
    overflows, and a prime job's tasks are proved to add up to the whole count. *)
From stdpp Require Import prelude strings pretty.
From Stdlib Require Import ZArith.
From S2P Require Import Prelude Time Role Node Job.

(** A [Vec<u8>]. *)
Definition Bytes := list N.

Inductive TaskWork :=
| WorkWait (millis : N) (output : string)
| WorkDone (output : string)
| WorkProduced (output : string) (artifact : Bytes).

(** [trait Workload]: the handler the host installs. *)
Definition Workload := NodeId -> TaskSpec -> Bytes -> option TaskWork.

Definition primes_output (node : NodeId) (start end_ count : N) : string :=
  (pretty count +:+ " primes in " +:+ pretty start +:+ ".." +:+ pretty end_ +:+ " on " +:+ NodeId_fmt node)%string.

Definition is_multiple_of (n d : N) : bool := n mod d =? 0.

(** The [while d * d <= n] loop; [None] when the fuel ran out. *)
Fixpoint is_prime_loop (fuel : nat) (n d : N) : option bool :=
  match fuel with
  | O => None
  | S fuel =>
      if wrap 64 (d * d) <=? n then
        if is_multiple_of n d || is_multiple_of n (wrap 64 (d + 2)) then Some false
        else is_prime_loop fuel n (wrap 64 (d + 6))
      else Some true
  end.

Definition is_prime (n : N) : bool :=
  if n <? 2 then false
  else if is_multiple_of n 2 then n =? 2
  else if is_multiple_of n 3 then n =? 3
  else default false (is_prime_loop (S (N.to_nat (N.sqrt n))) n 5).

(** [(a..b)] *)
Definition rangeN (a b : N) : list N := (fun i => a + N.of_nat i) <$> seq 0 (N.to_nat (b - a)).

Definition count_primes (start end_ : N) : N :=
  N.of_nat (length (filter (fun n => is_prime n = true) (rangeN (N.max start 2) end_))).

Definition run_task (node : NodeId) (spec : TaskSpec) : option TaskWork :=
  match spec with
  | TaskSleep millis =>
      Some (WorkWait millis ("slept " +:+ pretty millis +:+ "ms on " +:+ NodeId_fmt node)%string)
  | TaskPrimes start end_ => Some (WorkDone (primes_output node start end_ (count_primes start end_)))
  | TaskAnalysis _ _ _ => None
  end.

Example count_primes_100 : count_primes 0 100 = 25.
Proof. vm_compute. reflexivity. Qed.

(** ** Primality *)
Definition no_divisor_below (n d : N) : Prop := forall q, 2 <= q < d -> n mod q <> 0.

(** The largest candidate whose square fits a [u64]. *)
Definition prime_bound : N := 4294967291.

Lemma mod_trans n a b : a <> 0 -> n mod (a * b) = 0 -> n mod a = 0.
Proof.
  intros Ha H. destruct (N.eq_dec b 0) as [->|Hb].
  - rewrite N.mul_0_r in H. rewrite N.mod_0_r in H. subst. by apply N.Div0.mod_0_l.
  - apply N.Div0.mod_divides in H as [k ->]. apply N.Div0.mod_divides. exists (b * k). lia.
Qed.

Lemma no_divisor_step n d :
  d mod 6 = 5 -> n mod 2 <> 0 -> n mod 3 <> 0 -> no_divisor_below n d ->
  n mod d <> 0 -> n mod (d + 2) <> 0 -> no_divisor_below n (d + 6).
Proof.
  intros Hd H2 H3 Hnd Hn Hn2 q [Hq1 Hq2].
  destruct (decide (q < d)) as [|Hge]; [by apply Hnd|].
  pose proof (N.div_mod d 6 ltac:(done)) as Hdm. rewrite Hd in Hdm. set (k := d / 6) in *.
  assert (q = d \/ q = 2 * (3 * k + 3) \/ q = d + 2 \/ q = 2 * (3 * k + 4) \/ q = 3 * (2 * k + 3)
    \/ q = 2 * (3 * k + 5)) as Hc by lia.
  intros Hq. destruct_or! Hc; subst q; try done; apply mod_trans in Hq; done.
Qed.

(** A number with no divisor up to its square root is prime. *)
Lemma prime_of_no_divisor n d : 2 <= n -> n < d * d -> no_divisor_below n d -> Z.prime (Z.of_N n).
Proof.
  intros Hn Hd Hnd. split; [lia|]. intros q Hq [k Hk].
  destruct (Z.le_gt_cases q k) as [Hle|Hgt].
  - apply (Hnd (Z.to_N q)); [nia|]. apply N.Div0.mod_divides. exists (Z.to_N k).
    apply N2Z.inj. rewrite N2Z.inj_mul, !Z2N.id by nia. lia.
  - apply (Hnd (Z.to_N k)); [nia|]. apply N.Div0.mod_divides. exists (Z.to_N q).
    apply N2Z.inj. rewrite N2Z.inj_mul, !Z2N.id by nia. lia.
Qed.

Lemma not_prime_of_divisor n q : 1 < q -> q < n -> n mod q = 0 -> ~ Z.prime (Z.of_N n).
Proof.
  intros Hq1 Hq2 Hm Hp. destruct Hp as [_ Hp]. apply (Hp (Z.of_N q)); [lia|].
  apply N.Div0.mod_divides in Hm as [k ->]. exists (Z.of_N k). lia.
Qed.

Lemma is_prime_loop_S fuel n d :
  is_prime_loop (S fuel) n d =
  if wrap 64 (d * d) <=? n then
    if is_multiple_of n d || is_multiple_of n (wrap 64 (d + 2)) then Some false
    else is_prime_loop fuel n (wrap 64 (d + 6))
  else Some true.
Proof. reflexivity. Qed.

Lemma candidate_bound d : d mod 6 = 5 -> d < prime_bound -> d + 6 <= prime_bound.
Proof.
  unfold prime_bound. intros Hd6 Hlt. pose proof (N.div_mod d 6 ltac:(done)) as Hdm.
  rewrite Hd6 in Hdm. clear Hd6. revert Hdm. generalize (d / 6). lia.
Qed.

Lemma is_prime_loop_correct fuel n d :
  n < prime_bound * prime_bound -> 2 <= n -> n mod 2 <> 0 -> n mod 3 <> 0 ->
  5 <= d <= prime_bound -> d mod 6 = 5 -> no_divisor_below n d ->
  n < (d + 6 * N.of_nat fuel) * (d + 6 * N.of_nat fuel) ->
  exists b, is_prime_loop (S fuel) n d = Some b /\ (b = true <-> Z.prime (Z.of_N n)).
Proof.
  intros Hb Hn H2 H3. revert d. induction fuel as [|fuel IH]; intros d Hd Hd6 Hnd Hf;
    rewrite is_prime_loop_S; pose proof candidate_bound as Hcb; unfold prime_bound in *.
  - rewrite (wrap_small 64 (d * d)) by (simpl; nia). rewrite (proj2 (N.leb_gt _ _)) by lia.
    exists true. split; [done|]. split; [intros _|done]. apply (prime_of_no_divisor n d); [done|lia|done].
  - rewrite (wrap_small 64 (d * d)) by (simpl; nia). destruct (N.leb_spec (d * d) n) as [Hle|Hgt].
    + rewrite !wrap_small by (simpl; lia).
      destruct (is_multiple_of n d || is_multiple_of n (d + 2)) eqn:E.
      * exists false. split; [done|]. split; [done|]. intros Hp. exfalso. revert Hp.
        apply orb_true_iff in E as [E|E]; apply N.eqb_eq in E;
          eapply not_prime_of_divisor; try exact E; nia.
      * apply orb_false_iff in E as [E1 E2]. apply N.eqb_neq in E1, E2. apply IH.
        -- assert (d < 4294967291) by nia. specialize (Hcb d Hd6). lia.
        -- by rewrite <- (N.Div0.mod_add d 1 6), N.mul_1_l in Hd6.
        -- by apply no_divisor_step.
        -- replace (d + 6 + 6 * N.of_nat fuel) with (d + 6 * N.of_nat (S fuel)) by lia. done.
    + exists true. split; [done|]. split; [intros _|done]. by apply (prime_of_no_divisor n d).
Qed.

Lemma is_prime_loop_from_5 n :
  n < prime_bound * prime_bound -> 2 <= n -> n mod 2 <> 0 -> n mod 3 <> 0 ->
  exists b, is_prime_loop (S (N.to_nat (N.sqrt n))) n 5 = Some b /\ (b = true <-> Z.prime (Z.of_N n)).
Proof.
  intros Hb H2 E2 E3. apply is_prime_loop_correct; try done.
  - intros q Hq. assert (q = 2 \/ q = 3 \/ q = 4) as Hc by lia.
    destruct_or! Hc; subst q; [done..|]. intros E. by apply (mod_trans n 2 2) in E.
  - pose proof (N.sqrt_spec' n). rewrite N2Nat.id. nia.
Qed.

Lemma is_prime_iff n :
  n < prime_bound * prime_bound -> is_prime n = true <-> Z.prime (Z.of_N n).
Proof.
  intros Hb. unfold is_prime, is_multiple_of.
  destruct (N.ltb_spec n 2) as [H|H2].
  { split; [done|]. intros Hp. apply Z.prime_ge_2 in Hp. lia. }
  destruct (N.eqb_spec (n mod 2) 0) as [E2|E2].
  { rewrite N.eqb_eq. split; [intros ->; apply Z.prime_2|]. intros Hp.
    destruct (N.eq_dec n 2); [done|]. exfalso. by apply (not_prime_of_divisor n 2); [lia..|]. }
  destruct (N.eqb_spec (n mod 3) 0) as [E3|E3].
  { rewrite N.eqb_eq. split; [intros ->; apply Z.prime_3|]. intros Hp.
    destruct (N.eq_dec n 3); [done|]. exfalso.
    apply (not_prime_of_divisor n 3); [lia| |done..]. destruct (N.eq_dec n 2); [by subst|lia]. }
  by destruct (is_prime_loop_from_5 n Hb H2 E2 E3) as (b & -> & Hp).
Qed.

(** Below the square of the largest candidate whose square fits a [u64], the
    loop terminates within its fuel and [is_prime] decides primality. *)
Theorem is_prime_correct (n : N) :
  n < prime_bound * prime_bound ->
  (is_prime n = true <-> Z.prime (Z.of_N n)) /\
  (2 <= n -> n mod 2 <> 0 -> n mod 3 <> 0 ->
     is_Some (is_prime_loop (S (N.to_nat (N.sqrt n))) n 5)).
Proof.
  intros Hb. split; [by apply is_prime_iff|]. intros H2 E2 E3.
  destruct (is_prime_loop_from_5 n Hb H2 E2 E3) as (b & -> & _). eauto.
Qed.

Lemma is_prime_correct_witness : 97 < prime_bound * prime_bound /\ Z.prime (Z.of_N 97).
Proof.
  assert (97 < prime_bound * prime_bound) as H by (vm_compute; reflexivity).
  split; [exact H|]. apply (proj1 (is_prime_correct 97 H)). vm_compute. reflexivity.
Defined.

(** ** Counting in pieces *)
Lemma rangeN_app a b c : a <= b -> b <= c -> rangeN a c = rangeN a b ++ rangeN b c.
Proof.
  intros Hab Hbc. unfold rangeN.
  replace (N.to_nat (c - a)) with (N.to_nat (b - a) + N.to_nat (c - b))%nat by lia.
  rewrite seq_app, fmap_app. f_equal.
  replace (0 + N.to_nat (b - a))%nat with (N.to_nat (b - a) + 0)%nat by lia.
  rewrite <- fmap_add_seq, <- list_fmap_compose. apply list_fmap_ext. intros i x _. simpl. lia.
Qed.

Lemma rangeN_nil a b : b <= a -> rangeN a b = [].
Proof. intros H. unfold rangeN. replace (N.to_nat (b - a)) with 0%nat by lia. done. Qed.

Lemma count_primes_app a b c :
  a <= b -> b <= c -> count_primes a c = count_primes a b + count_primes b c.
Proof.
  intros Hab Hbc. unfold count_primes. destruct (decide (b <= 2)) as [Hb|Hb].
  - rewrite (rangeN_nil (N.max a 2) b), (N.max_r a), (N.max_r b) by lia. done.
  - rewrite (N.max_l b 2) by lia. destruct (decide (N.max a 2 <= b)); [|lia].
    rewrite (rangeN_app (N.max a 2) b c) by lia. rewrite filter_app, length_app. lia.
Qed.

Lemma count_primes_empty a b : b <= a -> count_primes a b = 0.
Proof. intros H. unfold count_primes. by rewrite rangeN_nil by lia. Qed.

Definition task_prime_count (t : TaskSpec) : N :=
  match t with TaskPrimes a b => count_primes a b | _ => 0 end.

Lemma tiles_le l from to : tiles from to l -> from <= to.
Proof.
  revert from. induction l as [|[|a b|] l IH]; intros from; simpl; try tauto; [lia|].
  intros (-> & Hab & Hl). apply IH in Hl. lia.
Qed.

Lemma tiles_count l from to :
  tiles from to l -> foldr (fun t acc => task_prime_count t + acc) 0 l = count_primes from to.
Proof.
  revert from. induction l as [|[|a b|] l IH]; intros from; simpl; try tauto.
  - intros ->. by rewrite count_primes_empty.
  - intros (-> & Hab & Hl). pose proof (tiles_le _ _ _ Hl).
    rewrite (IH _ Hl), <- count_primes_app by done. done.
Qed.

(** However many tasks a prime job is split into, their counts add up to the
    number of primes below the bound. *)
Theorem split_primes_count (upper_bound tasks : N) :
  foldr (fun t acc => task_prime_count t + acc) 0 (JobSpec_split (JobPrimes upper_bound tasks)) =
    count_primes 0 upper_bound.
Proof. apply tiles_count, split_primes_tiles. Qed.

(** ** Validated submissions: [build_job_spec] of [crates/app-core/src/service.rs] *)
Definition MAX_TASKS_PER_JOB : N := 64.
Definition MAX_SLEEP_MS : N := 120000.
Definition MAX_PRIME_BOUND : N := 50000000.

Inductive SpecError := TaskCountRange | SleepRange | PrimeRange | UnknownJobKind (kind : string).

Definition build_job_spec (kind : string) (size tasks : N) : Result JobSpec SpecError :=
  if (tasks =? 0) || (MAX_TASKS_PER_JOB <? tasks) then Err TaskCountRange
  else if bool_decide (kind = "sleep"%string) then
    if (size =? 0) || (MAX_SLEEP_MS <? size) then Err SleepRange else Ok (JobSleep size tasks)
  else if bool_decide (kind = "primes"%string) then
    if negb ((2 <=? size) && (size <=? MAX_PRIME_BOUND)) then Err PrimeRange
    else Ok (JobPrimes size tasks)
  else Err (UnknownJobKind kind).

Lemma sleep_total_ge l ms : TaskSleep ms ∈ l -> ms <= sleep_total l.
Proof.
  induction l as [|t l IH]; intros Hin; [by apply not_elem_of_nil in Hin|]. simpl.
  apply elem_of_cons in Hin as [<-|Hin]; [lia|]. specialize (IH Hin). destruct t; simpl; lia.
Qed.

Lemma tiles_elem l from to t :
  tiles from to l -> t ∈ l -> exists a b, t = TaskPrimes a b /\ a <= b /\ b <= to.
Proof.
  revert from. induction l as [|u l IH]; intros from; simpl; [by intros _ ?%not_elem_of_nil|].
  destruct u as [|a b|]; try done. intros (-> & Hab & Hl) [->|Hin]%elem_of_cons; [|eauto].
  exists from, b. pose proof (tiles_le _ _ _ Hl). done.
Qed.

(** A submission that passes validation splits into at most 64 tasks, and
    every number its prime tasks test is far below the overflow bound of
    [is_prime]. *)
Theorem build_job_spec_bounds (kind : string) (size tasks : N) (spec : JobSpec) :
  build_job_spec kind size tasks = Ok spec ->
  JobSpec_task_count spec = tasks /\ 1 <= tasks <= 64 /\
  length (JobSpec_split spec) = N.to_nat tasks /\
  forall t, t ∈ JobSpec_split spec ->
    match t with
    | TaskSleep ms => ms <= MAX_SLEEP_MS
    | TaskPrimes a b => a <= b <= MAX_PRIME_BOUND /\
        forall n, n < b -> is_prime n = true <-> Z.prime (Z.of_N n)
    | TaskAnalysis _ _ _ => False
    end.
Proof.
  unfold build_job_spec. intros H.
  destruct ((tasks =? 0) || (MAX_TASKS_PER_JOB <? tasks)) eqn:E; [done|].
  apply orb_false_iff in E as [E1%N.eqb_neq E2%N.ltb_ge]. unfold MAX_TASKS_PER_JOB in E2.
  repeat case_bool_decide; [| |done].
  - destruct ((size =? 0) || (MAX_SLEEP_MS <? size)) eqn:E; [done|]. injection H as <-.
    apply orb_false_iff in E as [_ E%N.ltb_ge]. rewrite split_length. simpl JobSpec_task_count.
    split_and!; [lia..|]. intros t Ht. pose proof (split_sleep_total size tasks) as Hs.
    destruct t; [pose proof (sleep_total_ge _ _ Ht); lia|..];
      apply list_elem_of_fmap in Ht as (? & ? & _); discriminate.
  - destruct (negb ((2 <=? size) && (size <=? MAX_PRIME_BOUND))) eqn:E; [done|]. injection H as <-.
    apply negb_false_iff, andb_true_iff in E as [_ E%N.leb_le]. rewrite split_length.
    simpl JobSpec_task_count. split_and!; [lia..|]. intros t Ht.
    destruct (tiles_elem _ _ _ _ (split_primes_tiles size tasks) Ht) as (a & b & -> & Hab & Hb).
    split; [lia|]. intros n Hn. apply is_prime_iff. unfold MAX_PRIME_BOUND, prime_bound in *. lia.
Qed.

Lemma build_job_spec_bounds_witness :
  exists spec, build_job_spec "primes" 1000 8 = Ok spec /\ JobSpec_task_count spec = 8.
Proof.
  exists (JobPrimes 1000 8). split; [vm_compute; reflexivity|].
  refine (proj1 (build_job_spec_bounds "primes" 1000 8 (JobPrimes 1000 8) _)). vm_compute. reflexivity.
Defined.
