(* ===== verification/Protocol.v ===== *)
(** * The worker wire protocol

    Models [crates/cluster-core/src/protocol.rs]: the two message types, the
    wire mirror of a task with its integrity-checked artifact, the join token
    comparison and the length-prefixed frames.  The postcard codec is not part
    of the repository; it is the class [Postcard], whose law is the codec's
    documented round trip. *)
From stdpp Require Import prelude strings pretty.
From Stdlib Require Import Ascii.
From Stdlib Require String.
From S2P Require Import Prelude Time Role Node Job Workload.

Definition PROTOCOL_VERSION : N := 4.
Definition MAX_TOKEN : N := 256.
Definition MAX_FRAME : N := 256 * 1024.
Definition MAX_ARTIFACT : N := MAX_FRAME - 1024.
Definition LENGTH_PREFIX : nat := 4.

Definition len {A} (l : list A) : N := N.of_nat (length l).
Definition is_byte (b : N) : Prop := b < 256.

(** ** Artifacts *)
Definition FNV_OFFSET : N := 14695981039346656037.
Definition FNV_PRIME : N := 1099511628211.

Definition digest_step (hash byte : N) : N := wrap 64 (N.lxor hash byte * FNV_PRIME).

Definition digest (bytes : Bytes) : N := foldl digest_step FNV_OFFSET bytes.

Record Artifact := { artifact_bytes : Bytes; artifact_digest : N }.

Definition Artifact_new (bytes : Bytes) : Artifact :=
  {| artifact_bytes := bytes; artifact_digest := digest bytes |}.

Definition Artifact_verify (self : Artifact) : option Bytes :=
  if digest (artifact_bytes self) =? artifact_digest self then Some (artifact_bytes self) else None.

(** ** Tasks on the wire *)
Inductive WireTaskSpec :=
| WireSleep (millis : N)
| WirePrimes (start end_ : N)
| WireAnalysis (version algorithm partition : N) (input : Artifact).

Inductive Unshippable := InputGone | TooLarge (bytes : N).
Record NotShippable := { ns_kind : string; ns_why : Unshippable }.

Definition NotShippable_fmt (self : NotShippable) : string :=
  match ns_why self with
  | InputGone => "a " +:+ ns_kind self +:+ " task cannot be sent: the input it references is no longer registered, so the candidate it belongs to has been abandoned"
  | TooLarge bytes => "a " +:+ ns_kind self +:+ " task cannot be sent: its input is " +:+ pretty bytes +:+ " bytes and a frame carries at most " +:+ pretty MAX_ARTIFACT
  end%string.

Definition WireTaskSpec_of (spec : TaskSpec) (input : option Bytes) : Result WireTaskSpec NotShippable :=
  match spec with
  | TaskSleep millis => Ok (WireSleep millis)
  | TaskPrimes start end_ => Ok (WirePrimes start end_)
  | TaskAnalysis version algorithm partition =>
      match input with
      | Some bytes =>
          if MAX_ARTIFACT <? len bytes
          then Err {| ns_kind := "analysis"; ns_why := TooLarge (len bytes) |}
          else Ok (WireAnalysis version algorithm partition (Artifact_new bytes))
      | None => Err {| ns_kind := "analysis"; ns_why := InputGone |}
      end
  end.

Definition WireTaskSpec_input (self : WireTaskSpec) : option Bytes :=
  match self with
  | WireAnalysis _ _ _ input => Artifact_verify input
  | _ => Some []
  end.

(** [impl From<&WireTaskSpec> for TaskSpec] *)
Definition TaskSpec_from (spec : WireTaskSpec) : TaskSpec :=
  match spec with
  | WireSleep millis => TaskSleep millis
  | WirePrimes start end_ => TaskPrimes start end_
  | WireAnalysis version algorithm partition _ => TaskAnalysis version algorithm partition
  end.

(** ** Messages *)
Inductive RejectReason := ProtocolMismatch | RejectUnknownNode | AlreadyConnected | Full | Unauthorized.
#[export] Instance RejectReason_eq_dec : EqDecision RejectReason.
Proof. solve_decision. Defined.

Definition RejectReason_as_str (r : RejectReason) : string :=
  match r with
  | ProtocolMismatch => "protocol version mismatch"
  | RejectUnknownNode => "node id not in cluster topology"
  | AlreadyConnected => "a node with that id is already connected"
  | Full => "the coordinator is not accepting more workers"
  | Unauthorized => "missing or incorrect join token"
  end.

Inductive NodeMessage :=
| Hello (protocol : N) (node : option NodeId) (capabilities : NodeCapabilities) (token : option string)
| MsgHeartbeat (hb : Heartbeat)
| TaskProduced (task : TaskId) (artifact : Artifact)
| MsgTaskStarted (task : TaskId)
| MsgTaskFinished (task : TaskId) (outcome : TaskOutcome).

Inductive SupervisorMessage :=
| Welcome (protocol : N) (node : NodeId) (interval_ms : N)
| Rejected (reason : RejectReason)
| Assign (task : TaskId) (spec : WireTaskSpec)
| MsgPauseHeartbeat (paused : bool)
| MsgInjectFailures (count : N)
| MsgSetDelay (millis : N)
| Shutdown.

Inductive ProtocolError := FrameTooLarge (size : N) | Malformed.

(** ** The join token *)
Definition as_bytes (s : string) : Bytes := N_of_ascii <$> String.list_ascii_of_string s.

Definition token_accepted (expected presented : option string) : bool :=
  match expected with
  | None => true
  | Some expected =>
      match presented with
      | None => false
      | Some presented =>
          if MAX_TOKEN <? len (as_bytes presented) then false
          else
            let a := as_bytes expected in
            let b := as_bytes presented in
            (len a =? len b) &&
            (foldl (fun acc xy => N.lor acc (N.lxor xy.1 xy.2)) 0 (zip a b) =? 0)
      end
  end.

(** ** Frames *)
Class Postcard (T : Type) := {
  to_allocvec : T -> option Bytes;
  from_bytes : Bytes -> option T
}.
(** What the protocol relies on: a value that encodes decodes to itself. *)
Class PostcardLaws (T : Type) `{Postcard T} : Prop :=
  from_to_bytes : forall (m : T) (b : Bytes), to_allocvec m = Some b -> from_bytes b = Some m.

(** [u32::to_be_bytes] and [u32::from_be_bytes]. *)
Definition to_be_bytes (n : N) : Bytes :=
  [N.shiftr n 24 mod 256; N.shiftr n 16 mod 256; N.shiftr n 8 mod 256; n mod 256].
Definition from_be_bytes (b : Bytes) : N := foldl (fun acc x => acc * 256 + x) 0 b.

Section Frames.
Context {T : Type} `{Postcard T}.

Definition encode_frame (message : T) (out : Bytes) : Result Bytes ProtocolError :=
  let? body := ok_or Malformed (to_allocvec message) in
  if MAX_FRAME <? len body then Err (FrameTooLarge (len body))
  else Ok ((out ++ to_be_bytes (wrap 32 (len body))) ++ body).

Definition decode_frame (body : Bytes) : Result T ProtocolError :=
  ok_or Malformed (from_bytes body).
End Frames.

Definition frame_len (prefix : Bytes) : Result N ProtocolError :=
  let size := from_be_bytes prefix in
  if MAX_FRAME <? size then Err (FrameTooLarge size) else Ok size.

(** ** The digest detects a corrupted byte *)

(** The multiplicative inverse of [FNV_PRIME] modulo [2^64]. *)
Definition FNV_INVERSE : N := 14886173955864302971.

Lemma fnv_unmul x : x < 2 ^ 64 -> (x * FNV_PRIME mod 2 ^ 64) * FNV_INVERSE mod 2 ^ 64 = x.
Proof.
  intros Hx. rewrite N.Div0.mul_mod_idemp_l, <-N.mul_assoc.
  rewrite <-N.Div0.mul_mod_idemp_r.
  replace (FNV_PRIME * FNV_INVERSE mod 2 ^ 64) with 1 by reflexivity.
  rewrite N.mul_1_r. by apply N.mod_small.
Qed.

Lemma lxor_lt_pow2 a b w : a < 2 ^ w -> b < 2 ^ w -> N.lxor a b < 2 ^ w.
Proof.
  intros Ha Hb. destruct (decide (N.lxor a b = 0)) as [->|Hne].
  { apply N.neq_0_lt_0, N.pow_nonzero; lia. }
  apply N.log2_lt_pow2; [lia|].
  pose proof (N.log2_lxor a b).
  assert (forall c, c < 2 ^ w -> 0 < w -> N.log2 c < w) as Hlog.
  { intros c Hc Hw. destruct (decide (c = 0)) as [->|]; [by cbn|]. apply N.log2_lt_pow2; lia. }
  destruct (decide (w = 0)) as [->|].
  - rewrite N.pow_0_r in *. assert (a = 0 /\ b = 0) as [-> ->] by lia. by cbn in Hne.
  - pose proof (Hlog a Ha ltac:(lia)). pose proof (Hlog b Hb ltac:(lia)). lia.
Qed.

Lemma digest_step_lt h b : digest_step h b < 2 ^ 64.
Proof. unfold digest_step, wrap. apply N.mod_lt. done. Qed.

Lemma digest_step_inj h h' b b' :
  h < 2 ^ 64 -> h' < 2 ^ 64 -> is_byte b -> is_byte b' ->
  digest_step h b = digest_step h' b' -> N.lxor h b = N.lxor h' b'.
Proof.
  unfold digest_step, wrap, is_byte. intros Hh Hh' Hb Hb' Heq.
  assert (N.lxor h b < 2 ^ 64) by (apply lxor_lt_pow2; [done|lia]).
  assert (N.lxor h' b' < 2 ^ 64) by (apply lxor_lt_pow2; [done|lia]).
  rewrite <-(fnv_unmul (N.lxor h b)), <-(fnv_unmul (N.lxor h' b')) by done.
  by rewrite Heq.
Qed.

Lemma lxor_cancel_r a b c : N.lxor a c = N.lxor b c -> a = b.
Proof.
  intros Heq. rewrite <-(N.lxor_0_r a), <-(N.lxor_0_r b), <-(N.lxor_nilpotent c).
  by rewrite <-!N.lxor_assoc, Heq.
Qed.

Lemma lxor_cancel_l a b c : N.lxor c a = N.lxor c b -> a = b.
Proof. rewrite !(N.lxor_comm c). apply lxor_cancel_r. Qed.

Lemma digest_foldl_lt l h : h < 2 ^ 64 -> foldl digest_step h l < 2 ^ 64.
Proof. revert h. induction l as [|b l IH]; intros h Hh; [done|]. apply IH, digest_step_lt. Qed.

Lemma digest_foldl_inj l h h' :
  h < 2 ^ 64 -> h' < 2 ^ 64 -> Forall is_byte l ->
  foldl digest_step h l = foldl digest_step h' l -> h = h'.
Proof.
  revert h h'. induction l as [|b l IH]; intros h h' Hh Hh' Hl Heq; [done|].
  apply Forall_cons in Hl as [Hb Hl].
  apply lxor_cancel_r with b, digest_step_inj; [done..|].
  apply IH; auto using digest_step_lt.
Qed.

Lemma digest_one_byte l1 l2 b b' :
  Forall is_byte l2 -> is_byte b -> is_byte b' ->
  digest (l1 ++ b :: l2) = digest (l1 ++ b' :: l2) -> b = b'.
Proof.
  unfold digest. rewrite !foldl_app. cbn [foldl]. intros Hl Hb Hb' Heq.
  assert (foldl digest_step FNV_OFFSET l1 < 2 ^ 64) by by apply digest_foldl_lt.
  apply digest_foldl_inj in Heq; auto using digest_step_lt.
  apply digest_step_inj in Heq; auto. by apply lxor_cancel_l in Heq.
Qed.

(** The artifact check.  What [Artifact::new] wraps verifies and gives the
    same bytes back; and when any one byte is changed on the way, whatever its
    position and value, [verify] refuses the artifact. *)
Theorem artifact_integrity (l1 l2 : Bytes) (b b' : N) :
  Forall is_byte l2 -> is_byte b -> is_byte b' ->
  let sent := Artifact_new (l1 ++ b :: l2) in
  Artifact_verify sent = Some (l1 ++ b :: l2) /\
  Artifact_verify {| artifact_bytes := l1 ++ b' :: l2; artifact_digest := artifact_digest sent |}
    = (if decide (b = b') then Some (l1 ++ b :: l2) else None).
Proof.
  intros Hl Hb Hb' sent. unfold Artifact_verify, sent, Artifact_new; cbn [artifact_bytes artifact_digest].
  rewrite N.eqb_refl. split; [done|].
  destruct (decide (b = b')) as [->|Hne]; [by rewrite N.eqb_refl|].
  destruct (N.eqb_spec (digest (l1 ++ b' :: l2)) (digest (l1 ++ b :: l2))) as [Heq|]; [|done].
  by apply digest_one_byte in Heq.
Qed.

Lemma artifact_integrity_witness :
  Artifact_verify {| artifact_bytes := [1; 3] ++ 7 :: [9; 255];
                     artifact_digest := artifact_digest (Artifact_new ([1; 3] ++ 6 :: [9; 255])) |} = None.
Proof.
  refine (proj2 (artifact_integrity [1; 3] [9; 255] 6 7 _ _ _)); unfold is_byte; [|done..].
  repeat constructor.
Defined.

(** ** The join token *)

#[export] Instance N_of_ascii_inj : Inj (=) (=) N_of_ascii.
Proof. intros a b Hab. by rewrite <-(ascii_N_embedding a), Hab, ascii_N_embedding. Qed.

Lemma as_bytes_inj : Inj (=) (=) as_bytes.
Proof.
  intros s t Heq. unfold as_bytes in Heq. apply (inj (fmap N_of_ascii)) in Heq.
  by rewrite <-(String.string_of_list_ascii_of_string s), Heq, String.string_of_list_ascii_of_string.
Qed.

Lemma fold_xor_zero a b acc :
  length a = length b ->
  foldl (fun acc (xy : N * N) => N.lor acc (N.lxor xy.1 xy.2)) acc (zip a b) = 0 <-> acc = 0 /\ a = b.
Proof.
  revert b acc. induction a as [|x a IH]; intros [|y b] acc Hlen; try done; cbn.
  { split; [done|by intros [-> _]]. }
  rewrite IH by (cbn in Hlen; lia). rewrite N.lor_eq_0_iff, N.lxor_eq_0_iff.
  split; [intros [[-> ->] ->]|intros [-> [= -> ->]]]; done.
Qed.

(** The join token.  A coordinator without a token accepts every worker; one
    with a token accepts exactly the worker that presents the same string, of at
    most [MAX_TOKEN] bytes.  The branch-free comparison is string equality. *)
Lemma token_accepted_iff (expected presented : option string) :
  token_accepted expected presented = true <->
  match expected with
  | None => True
  | Some e => presented = Some e /\ len (as_bytes e) <= MAX_TOKEN
  end.
Proof.
  destruct expected as [e|]; [|done]. destruct presented as [p|]; cbn; [|naive_solver].
  unfold len. destruct (N.ltb_spec MAX_TOKEN (N.of_nat (length (as_bytes p)))).
  { split; [done|]. intros [[= ->] ?]. lia. }
  rewrite andb_true_iff, !N.eqb_eq. split.
  - intros [Hlen Hz]. apply fold_xor_zero in Hz as [_ Heq]; [|lia].
    apply as_bytes_inj in Heq as ->. done.
  - intros [[= ->] ?]. split; [done|]. by apply fold_xor_zero.
Qed.

(** ** Tasks on the wire *)

Definition is_analysis (spec : TaskSpec) : bool :=
  match spec with TaskAnalysis _ _ _ => true | _ => false end.

(** Shipping a task.  A task goes on the wire exactly when it is not an
    analysis, or its input is still registered and fits an artifact; what
    arrives names the same task, and the input the worker reads from it is the
    input that was put in (empty for a task that has none).  A refused task says
    which of the two reasons it was. *)
Theorem wire_task_roundtrip (spec : TaskSpec) (input : option Bytes) :
  match WireTaskSpec_of spec input with
  | Ok wire =>
      TaskSpec_from wire = spec /\
      WireTaskSpec_input wire = Some (if is_analysis spec then default [] input else []) /\
      (is_analysis spec = true -> exists b, input = Some b /\ len b <= MAX_ARTIFACT)
  | Err why =>
      is_analysis spec = true /\
      match input with
      | None => ns_why why = InputGone
      | Some b => ns_why why = TooLarge (len b) /\ MAX_ARTIFACT < len b
      end
  end.
Proof.
  destruct spec as [ms|a b|v al pt]; cbn; [done..|].
  destruct input as [b|]; [|done].
  destruct (N.ltb_spec MAX_ARTIFACT (len b)); [done|].
  cbn [TaskSpec_from WireTaskSpec_input]. unfold Artifact_verify, Artifact_new; cbn [artifact_bytes artifact_digest].
  rewrite N.eqb_refl. repeat split; eauto.
Qed.

(** ** Frames *)

Lemma len_app {A} (l k : list A) : len (l ++ k) = len l + len k.
Proof. unfold len. rewrite length_app. lia. Qed.

Lemma len_cons {A} (x : A) l : len (x :: l) = len l + 1.
Proof. unfold len. cbn. lia. Qed.

Lemma length_to_be_bytes n : length (to_be_bytes n) = LENGTH_PREFIX.
Proof. done. Qed.

Lemma from_to_be_bytes n : n < 2 ^ 32 -> from_be_bytes (to_be_bytes n) = n.
Proof.
  intros Hn. unfold from_be_bytes, to_be_bytes; cbn [foldl].
  rewrite !N.shiftr_div_pow2.
  zify. Z.to_euclidean_division_equations. lia.
Qed.

Section FrameLaws.
Context {T : Type} `{PostcardLaws T}.

(** The body, its prefix and what both decode to, for any message that was encoded. *)
Lemma encode_frame_ok (m : T) (out frame : Bytes) :
  encode_frame m out = Ok frame ->
  exists prefix body,
    frame = out ++ prefix ++ body /\ length prefix = LENGTH_PREFIX /\ len body <= MAX_FRAME /\
    frame_len prefix = Ok (len body) /\ decode_frame body = Ok m.
Proof.
  unfold encode_frame. destruct (to_allocvec m) as [body|] eqn:Henc; [|done]; cbn.
  destruct (N.ltb_spec MAX_FRAME (len body)) as [|Hle]; [done|]. intros [= <-].
  assert (len body < 2 ^ 32) by (unfold MAX_FRAME in Hle; lia).
  exists (to_be_bytes (wrap 32 (len body))), body.
  rewrite <-app_assoc. split_and!; try done.
  - unfold frame_len. rewrite wrap_small, from_to_be_bytes by done.
    by destruct (N.ltb_spec MAX_FRAME (len body)); [lia|].
  - unfold decode_frame. by rewrite (from_to_bytes _ _ Henc).
Qed.

(** Frames round trip.  When a message is encoded, the bytes appended to the
    buffer are a four-byte prefix and a body such that reading the prefix gives
    the body's exact length, within [MAX_FRAME], and decoding that many of the
    bytes that follow gives the message back, whatever comes after.  It is
    refused only when the codec refuses it or its body exceeds [MAX_FRAME], and
    the error says so. *)
Theorem frame_roundtrip (m : T) (out rest : Bytes) :
  match encode_frame m out with
  | Ok frame =>
      let stream := drop (length out) (frame ++ rest) in
      take (length out) frame = out /\
      exists size,
        frame_len (take LENGTH_PREFIX stream) = Ok size /\ size <= MAX_FRAME /\
        decode_frame (take (N.to_nat size) (drop LENGTH_PREFIX stream)) = Ok m /\
        drop (N.to_nat size) (drop LENGTH_PREFIX stream) = rest
  | Err Malformed => to_allocvec m = None
  | Err (FrameTooLarge size) => exists body, to_allocvec m = Some body /\ len body = size /\ MAX_FRAME < size
  end.
Proof.
  destruct (encode_frame m out) as [frame|e] eqn:Henc.
  - apply encode_frame_ok in Henc as (prefix & body & -> & Hp & Hle & Hlen & Hdec).
    cbv zeta. rewrite take_app_length, <-!app_assoc, drop_app_length. split; [done|].
    exists (len body). rewrite <-Hp, take_app_length, drop_app_length. unfold len.
    rewrite Nat2N.id, take_app_length, drop_app_length. done.
  - unfold encode_frame in Henc. destruct (to_allocvec m) as [body|]; cbn in Henc; [|by simplify_eq].
    destruct (N.ltb_spec MAX_FRAME (len body)); simplify_eq. eauto.
Qed.
End FrameLaws.

(** A codec for which the law holds: byte strings that encode as themselves. *)
Definition raw_postcard : Postcard Bytes :=
  {| to_allocvec := fun m => Some m; from_bytes := fun b => Some b |}.

Lemma raw_postcard_laws : @PostcardLaws Bytes raw_postcard.
Proof. by intros m b [= ->]. Qed.

Lemma frame_roundtrip_witness :
  @encode_frame Bytes raw_postcard [5; 6] [1] = Ok [1; 0; 0; 0; 2; 5; 6] /\
  exists size, frame_len [0; 0; 0; 2] = Ok size /\ size <= MAX_FRAME /\
    @decode_frame Bytes raw_postcard (take (N.to_nat size) [5; 6; 9; 9]) = Ok [5; 6] /\
    drop (N.to_nat size) [5; 6; 9; 9] = [9; 9].
Proof.
  split; [reflexivity|].
  exact (proj2 (@frame_roundtrip Bytes raw_postcard raw_postcard_laws [5; 6] [1] [9; 9])).
Defined.
