(* ===== verification/Agent.v ===== *)
(** * The worker: a state machine over the protocol

    Models [crates/cluster-core/src/agent.rs].  The agent is fed supervisor
    messages and clock readings and answers with the actions the host must take;
    a run is therefore a list of inputs, folded by [Agent_run].  The theorems:
    every assignment is answered exactly once, no frame precedes the welcome and
    an artifact always precedes its completion, the sliced prime count is the
    reference computation, and a joined worker never lets a heartbeat interval
    pass without asking to be woken. *)
From stdpp Require Import prelude strings pretty.
From S2P Require Import Prelude Time Role Node Job Workload Protocol.

Inductive Action :=
| Send (message : NodeMessage)
| WakeIn (ms : N)
| Disconnect.

Definition COMPUTE_SLICE : N := 8000.

Inductive Work :=
| Ready (output : string)
| Produced (output : string) (artifact : Bytes)
| Primes (node : NodeId) (start end_ cursor found : N).

Record Running := { run_id : TaskId; ready_at : Millis; work : Work }.

Record Agent := {
  ag_id : option NodeId;
  ag_capabilities : NodeCapabilities;
  ag_interval_ms : N;
  ag_next_heartbeat : Millis;
  ag_running : option Running;
  ag_heartbeat_paused : bool;
  ag_pending_failures : N;
  ag_extra_delay_ms : N;
  ag_free_memory_bytes : N;
  ag_joined : bool;
  ag_token : option string;
  ag_workload : option Workload
}.

Definition Agent_new (id : option NodeId) (capabilities : NodeCapabilities) (interval : N) : Agent :=
  {| ag_id := id; ag_capabilities := capabilities; ag_interval_ms := interval;
     ag_next_heartbeat := Millis_ZERO; ag_running := None; ag_heartbeat_paused := false;
     ag_pending_failures := 0; ag_extra_delay_ms := 0; ag_free_memory_bytes := 0;
     ag_joined := false; ag_token := None; ag_workload := None |}.

Definition Agent_anonymous (capabilities : NodeCapabilities) (interval : N) : Agent :=
  Agent_new None capabilities interval.
Definition Agent_with_id (id : NodeId) (capabilities : NodeCapabilities) (interval : N) : Agent :=
  Agent_new (Some id) capabilities interval.

(** *** Field updates *)
Definition set_running (r : option Running) (a : Agent) : Agent :=
  {| ag_id := ag_id a; ag_capabilities := ag_capabilities a; ag_interval_ms := ag_interval_ms a;
     ag_next_heartbeat := ag_next_heartbeat a; ag_running := r;
     ag_heartbeat_paused := ag_heartbeat_paused a; ag_pending_failures := ag_pending_failures a;
     ag_extra_delay_ms := ag_extra_delay_ms a; ag_free_memory_bytes := ag_free_memory_bytes a;
     ag_joined := ag_joined a; ag_token := ag_token a; ag_workload := ag_workload a |}.
Definition set_next_heartbeat (t : Millis) (a : Agent) : Agent :=
  {| ag_id := ag_id a; ag_capabilities := ag_capabilities a; ag_interval_ms := ag_interval_ms a;
     ag_next_heartbeat := t; ag_running := ag_running a;
     ag_heartbeat_paused := ag_heartbeat_paused a; ag_pending_failures := ag_pending_failures a;
     ag_extra_delay_ms := ag_extra_delay_ms a; ag_free_memory_bytes := ag_free_memory_bytes a;
     ag_joined := ag_joined a; ag_token := ag_token a; ag_workload := ag_workload a |}.
Definition set_controls (paused : bool) (failures delay : N) (a : Agent) : Agent :=
  {| ag_id := ag_id a; ag_capabilities := ag_capabilities a; ag_interval_ms := ag_interval_ms a;
     ag_next_heartbeat := ag_next_heartbeat a; ag_running := ag_running a;
     ag_heartbeat_paused := paused; ag_pending_failures := failures;
     ag_extra_delay_ms := delay; ag_free_memory_bytes := ag_free_memory_bytes a;
     ag_joined := ag_joined a; ag_token := ag_token a; ag_workload := ag_workload a |}.
Definition set_welcome (node : NodeId) (interval : N) (at_ : Millis) (a : Agent) : Agent :=
  {| ag_id := Some node; ag_capabilities := ag_capabilities a; ag_interval_ms := interval;
     ag_next_heartbeat := at_; ag_running := ag_running a;
     ag_heartbeat_paused := ag_heartbeat_paused a; ag_pending_failures := ag_pending_failures a;
     ag_extra_delay_ms := ag_extra_delay_ms a; ag_free_memory_bytes := ag_free_memory_bytes a;
     ag_joined := true; ag_token := ag_token a; ag_workload := ag_workload a |}.

Definition Agent_with_workload (w : Workload) (a : Agent) : Agent :=
  {| ag_id := ag_id a; ag_capabilities := ag_capabilities a; ag_interval_ms := ag_interval_ms a;
     ag_next_heartbeat := ag_next_heartbeat a; ag_running := ag_running a;
     ag_heartbeat_paused := ag_heartbeat_paused a; ag_pending_failures := ag_pending_failures a;
     ag_extra_delay_ms := ag_extra_delay_ms a; ag_free_memory_bytes := ag_free_memory_bytes a;
     ag_joined := ag_joined a; ag_token := ag_token a; ag_workload := Some w |}.
Definition Agent_with_token (t : option string) (a : Agent) : Agent :=
  {| ag_id := ag_id a; ag_capabilities := ag_capabilities a; ag_interval_ms := ag_interval_ms a;
     ag_next_heartbeat := ag_next_heartbeat a; ag_running := ag_running a;
     ag_heartbeat_paused := ag_heartbeat_paused a; ag_pending_failures := ag_pending_failures a;
     ag_extra_delay_ms := ag_extra_delay_ms a; ag_free_memory_bytes := ag_free_memory_bytes a;
     ag_joined := ag_joined a; ag_token := t; ag_workload := ag_workload a |}.
Definition Agent_set_free_memory (bytes : N) (a : Agent) : Agent :=
  {| ag_id := ag_id a; ag_capabilities := ag_capabilities a; ag_interval_ms := ag_interval_ms a;
     ag_next_heartbeat := ag_next_heartbeat a; ag_running := ag_running a;
     ag_heartbeat_paused := ag_heartbeat_paused a; ag_pending_failures := ag_pending_failures a;
     ag_extra_delay_ms := ag_extra_delay_ms a; ag_free_memory_bytes := bytes;
     ag_joined := ag_joined a; ag_token := ag_token a; ag_workload := ag_workload a |}.

(** ** Reading the state *)
Definition Agent_hello (self : Agent) : NodeMessage :=
  Hello PROTOCOL_VERSION (ag_id self) (ag_capabilities self) (ag_token self).

Definition Agent_load (self : Agent) : NodeLoad :=
  let busy := bool_decide (is_Some (ag_running self)) in
  {| load_percent := if busy then 100 else 0;
     running_tasks := if busy then 1 else 0;
     free_memory_bytes := ag_free_memory_bytes self;
     simulated := false |}.

Definition next_wake_ms (self : Agent) (now : Millis) : option N :=
  let heartbeat :=
    if ag_joined self && negb (ag_heartbeat_paused self)
    then Some (since (ag_next_heartbeat self) now) else None in
  let task :=
    (fun r => match work r with
              | Primes _ _ _ _ _ => 0
              | Ready _ | Produced _ _ => since (ready_at r) now
              end) <$> ag_running self in
  match heartbeat, task with
  | Some a, Some b => Some (N.min a b)
  | Some a, None | None, Some a => Some a
  | None, None => None
  end.

(** ** Driving time forward: [Agent::poll] *)

(** The first block: one slice of a prime count. *)
Definition advance (w : Work) : Work :=
  match w with
  | Primes node start end_ cursor found =>
      let stop := N.min (sat_add u64_max cursor COMPUTE_SLICE) end_ in
      let found := wrap 64 (found + count_primes cursor stop) in
      let cursor := stop in
      if end_ <=? cursor then Ready (primes_output node start end_ found)
      else Primes node start end_ cursor found
  | w => w
  end.

Definition poll_compute (self : Agent) : Agent :=
  match ag_running self with
  | Some r => set_running (Some {| run_id := run_id r; ready_at := ready_at r; work := advance (work r) |}) self
  | None => self
  end.

(** The second block: report a task whose result is known and due. *)
Definition finished (id : TaskId) (outcome : Result string string) : Action :=
  Send (MsgTaskFinished id (match outcome with
                            | Ok output => OutcomeCompleted output
                            | Err detail => OutcomeFailed ExecutionError detail
                            end)).

Definition oversized (artifact : Bytes) : string :=
  ("this result is " +:+ pretty (len artifact) +:+ " bytes and a frame carries at most " +:+ pretty MAX_ARTIFACT)%string.

Definition poll_report (self : Agent) (now : Millis) : Agent * list Action :=
  match ag_running self with
  | Some r =>
      if ready_at r <=? now then
        match work r with
        | Ready output => (set_running None self, [finished (run_id r) (Ok output)])
        | Produced output artifact =>
            if MAX_ARTIFACT <? len artifact
            then (set_running None self, [finished (run_id r) (Err (oversized artifact))])
            else (set_running None self,
                  [Send (TaskProduced (run_id r) (Artifact_new artifact)); finished (run_id r) (Ok output)])
        | Primes _ _ _ _ _ => (self, [])
        end
      else (self, [])
  | None => (self, [])
  end.

(** The third block: the heartbeat. *)
Definition poll_heartbeat (self : Agent) (now : Millis) : Agent * list Action :=
  match ag_id self with
  | Some node =>
      if ag_joined self && negb (ag_heartbeat_paused self) && (ag_next_heartbeat self <=? now)
      then
        let self := set_next_heartbeat (plus_ms now (N.max (ag_interval_ms self) 1)) self in
        (self, [Send (MsgHeartbeat {| hb_node := node; hb_load := Agent_load self; hb_at := now |})])
      else (self, [])
  | None => (self, [])
  end.

Definition Agent_poll (self : Agent) (now : Millis) : Agent * list Action :=
  let self := poll_compute self in
  let '(self, reported) := poll_report self now in
  let '(self, beat) := poll_heartbeat self now in
  (self, reported ++ beat ++ match next_wake_ms self now with Some wake => [WakeIn wake] | None => [] end).

(** ** Beginning a task: [Agent::accept] *)
Definition task_failed (id : TaskId) (reason : FailureReason) (detail : string) : Action :=
  Send (MsgTaskFinished id (OutcomeFailed reason detail)).

(** What the match on the spec answers: how long to wait and what is left to do,
    or nothing when neither this crate nor the host can run it. *)
Definition start_work (self : Agent) (node : NodeId) (wire : WireTaskSpec) : option (N * Work) :=
  match TaskSpec_from wire with
  | TaskPrimes start end_ => Some (0, Primes node start end_ start 0)
  | other =>
      let answer :=
        match run_task node other with
        | Some w => Some w
        | None =>
            match WireTaskSpec_input wire, ag_workload self with
            | Some input, Some workload => workload node other input
            | _, _ => None
            end
        end in
      match answer with
      | Some (WorkDone output) => Some (0, Ready output)
      | Some (WorkWait millis output) => Some (millis, Ready output)
      | Some (WorkProduced output artifact) => Some (0, Produced output artifact)
      | None => None
      end
  end.

Definition Agent_accept (self : Agent) (id : TaskId) (wire : WireTaskSpec) (now : Millis) : Agent * list Action :=
  match ag_id self with
  | None => (self, [])
  | Some node =>
      match ag_running self with
      | Some running =>
          if run_id running =? id then (self, [])
          else (self, [task_failed id ExecutionError "node was already busy"])
      | None =>
          if 0 <? ag_pending_failures self then
            (set_controls (ag_heartbeat_paused self) (ag_pending_failures self - 1) (ag_extra_delay_ms self) self,
             [Send (MsgTaskStarted id); task_failed id Injected "failure injected on this node"])
          else
            match start_work self node wire with
            | None =>
                (self, [Send (MsgTaskStarted id);
                        task_failed id ExecutionError
                          ("this worker cannot run " +:+ TaskSpec_describe (TaskSpec_from wire))%string])
            | Some (wait_ms, w) =>
                let self :=
                  set_running (Some {| run_id := id;
                                       ready_at := plus_ms now (sat_add u64_max wait_ms (ag_extra_delay_ms self));
                                       work := w |}) self in
                let '(self, acts) := Agent_poll self now in
                (self, Send (MsgTaskStarted id) :: acts)
            end
      end
  end.

Definition Agent_handle (self : Agent) (message : SupervisorMessage) (now : Millis) : Agent * list Action :=
  match message with
  | Welcome _ node interval =>
      Agent_poll (set_welcome node (if 0 <? interval then interval else ag_interval_ms self) now self) now
  | Rejected _ => (self, [Disconnect])
  | Shutdown => (self, [Disconnect])
  | MsgPauseHeartbeat paused =>
      Agent_poll (set_controls paused (ag_pending_failures self) (ag_extra_delay_ms self) self) now
  | MsgInjectFailures count =>
      Agent_poll (set_controls (ag_heartbeat_paused self)
                    (sat_add u32_max (ag_pending_failures self) count) (ag_extra_delay_ms self) self) now
  | MsgSetDelay ms =>
      Agent_poll (set_controls (ag_heartbeat_paused self) (ag_pending_failures self) ms self) now
  | Assign task spec => Agent_accept self task spec now
  end.

(** ** Runs *)
Inductive AgentInput :=
| InMessage (m : SupervisorMessage) (now : Millis)
| InPoll (now : Millis)
| InMemory (bytes : N).

Definition Agent_step (self : Agent) (i : AgentInput) : Agent * list Action :=
  match i with
  | InMessage m now => Agent_handle self m now
  | InPoll now => Agent_poll self now
  | InMemory bytes => (Agent_set_free_memory bytes self, [])
  end.

Fixpoint Agent_run (self : Agent) (inputs : list AgentInput) : Agent * list Action :=
  match inputs with
  | [] => (self, [])
  | i :: inputs =>
      let '(self, acts) := Agent_step self i in
      let '(self, rest) := Agent_run self inputs in
      (self, acts ++ rest)
  end.

(** ** Every assignment is answered exactly once *)
Definition outcome_of (t : TaskId) (a : Action) : option TaskOutcome :=
  match a with
  | Send (MsgTaskFinished id outcome) => if decide (id = t) then Some outcome else None
  | _ => None
  end.
(** The outcomes reported for task [t], in order. *)
Definition outcomes (t : TaskId) (acts : list Action) : list TaskOutcome := omap (outcome_of t) acts.

Definition holds (t : TaskId) (a : Agent) : nat :=
  match ag_running a with Some r => if decide (run_id r = t) then 1 else 0 | None => 0 end%nat.

(** An assignment of [t] the worker takes on: it has an identity, and it is not
    already running that very task. *)
Definition takes (t : TaskId) (a : Agent) (i : AgentInput) : nat :=
  match i, ag_id a with
  | InMessage (Assign id _) _, Some _ => if decide (id = t /\ holds t a = 0%nat) then 1 else 0
  | _, _ => 0
  end%nat.

Fixpoint assignments (t : TaskId) (a : Agent) (inputs : list AgentInput) : nat :=
  match inputs with
  | [] => 0
  | i :: inputs => takes t a i + assignments t (Agent_step a i).1 inputs
  end%nat.

Lemma outcomes_app t l k : outcomes t (l ++ k) = outcomes t l ++ outcomes t k.
Proof. apply omap_app. Qed.

Lemma poll_heartbeat_running a now :
  ag_running (poll_heartbeat a now).1 = ag_running a /\ ag_id (poll_heartbeat a now).1 = ag_id a.
Proof. unfold poll_heartbeat. destruct (ag_id a) eqn:?; [case_match|]; done. Qed.

Lemma poll_heartbeat_outcomes t a now : outcomes t (poll_heartbeat a now).2 = [].
Proof. unfold poll_heartbeat. destruct (ag_id a); [case_match|]; done. Qed.

(** A poll is its report: the other blocks neither report nor change the task. *)
Lemma poll_report_part a now :
  ag_running (Agent_poll a now).1 = ag_running (poll_report (poll_compute a) now).1 /\
  (forall t, outcomes t (Agent_poll a now).2 = outcomes t (poll_report (poll_compute a) now).2).
Proof.
  unfold Agent_poll. destruct (poll_report (poll_compute a) now) as [a1 acts1].
  pose proof (poll_heartbeat_running a1 now) as [Hr _].
  pose proof (fun t => poll_heartbeat_outcomes t a1 now) as Ho.
  destruct (poll_heartbeat a1 now) as [a2 acts2]; cbn [fst snd] in *. split; [done|]. intros t.
  rewrite !outcomes_app, Ho. case_match; by rewrite app_nil_r.
Qed.

Lemma poll_conserves t a now :
  (holds t a = length (outcomes t (Agent_poll a now).2) + holds t (Agent_poll a now).1)%nat.
Proof.
  destruct (poll_report_part a now) as [Hr Ho]. unfold holds. rewrite Hr, Ho. clear Hr Ho.
  unfold poll_report, poll_compute. destruct (ag_running a) as [r|] eqn:Hr; cbn; rewrite ?Hr; [|cbn; by rewrite Hr].
  destruct (ready_at r <=? now); cbn; [|lia].
  destruct (advance (work r)); cbn; [..|lia].
  - case_decide; cbn; lia.
  - destruct (_ <? _); cbn; case_decide; cbn; lia.
Qed.

Lemma holds_idle t a : ag_running a = None -> holds t a = 0%nat.
Proof. unfold holds. by intros ->. Qed.

Lemma holds_running t a r :
  ag_running a = Some r -> holds t a = if decide (run_id r = t) then 1%nat else 0%nat.
Proof. unfold holds. by intros ->. Qed.

Lemma step_conserves t a i :
  (holds t a + takes t a i = length (outcomes t (Agent_step a i).2) + holds t (Agent_step a i).1)%nat.
Proof.
  destruct i as [[proto node interval|reason|id wire|p|c|d|] now|now|bytes]; cbn;
    try (rewrite <-poll_conserves; cbn; unfold holds; cbn; lia); try (unfold holds; cbn; lia).
  unfold Agent_accept. destruct (ag_id a) as [node|]; cbn; [|lia].
  destruct (ag_running a) as [r|] eqn:Hr.
  { pose proof (holds_running t a r Hr) as Hh.
    destruct (N.eqb_spec (run_id r) id) as [Heq|Hne]; cbn;
      destruct (decide (id = t /\ _)) as [[]|]; repeat destruct (decide (_ = t)); cbn; naive_solver lia. }
  pose proof (holds_idle t a Hr) as Hh. rewrite (decide_ext _ (id = t)) by naive_solver.
  destruct (0 <? ag_pending_failures a); cbn.
  { change (holds t (set_controls _ _ _ _)) with (holds t a). case_decide; cbn; lia. }
  destruct (start_work a node wire) as [[wait w]|]; cbn; [|case_decide; cbn; lia].
  pose proof (poll_conserves t
    (set_running (Some {| run_id := id; ready_at := plus_ms now (sat_add u64_max wait (ag_extra_delay_ms a)); work := w |}) a) now) as Hc.
  destruct (Agent_poll _ now) as [a' acts]; cbn in *. rewrite Hh. exact Hc.
Qed.

Lemma Agent_run_cons a i inputs :
  Agent_run a (i :: inputs) =
    ((Agent_run (Agent_step a i).1 inputs).1, (Agent_step a i).2 ++ (Agent_run (Agent_step a i).1 inputs).2).
Proof. cbn. destruct (Agent_step a i) as [a1 acts]; cbn. by destruct (Agent_run a1 inputs). Qed.

(** C10: No assignment is lost and none is answered twice.  Over any run of inputs,
    the number of outcomes the worker reports for a task, plus one if it is
    running it at the end, is the number of times it took the task on (plus one
    if it was running it at the start). *)
Theorem assignments_answered_once (t : TaskId) (a : Agent) (inputs : list AgentInput) :
  let '(a', acts) := Agent_run a inputs in
  (holds t a + assignments t a inputs = length (outcomes t acts) + holds t a')%nat.
Proof.
  destruct (Agent_run a inputs) as [a' acts] eqn:Hrun. revert a acts Hrun.
  induction inputs as [|i inputs IH]; intros a acts Hrun; [cbn in Hrun; simplify_eq; cbn; lia|].
  rewrite Agent_run_cons in Hrun. simplify_eq.
  specialize (IH (Agent_step a i).1 _ ltac:(by apply surjective_pairing)).
  cbn [assignments]. rewrite outcomes_app, length_app. pose proof (step_conserves t a i). lia.
Qed.

(** ** What goes on the wire, and in which order *)
Definition is_send (a : Action) : bool := match a with Send _ => true | _ => false end.
Definition is_welcome (i : AgentInput) : bool :=
  match i with InMessage (Welcome _ _ _) _ => true | _ => false end.

(** Every artifact is intact, fits a frame, and is directly followed by the
    completion of its task. *)
Fixpoint artifacts_first (acts : list Action) : Prop :=
  match acts with
  | [] => True
  | Send (TaskProduced t art) :: rest =>
      Artifact_verify art = Some (artifact_bytes art) /\ len (artifact_bytes art) <= MAX_ARTIFACT /\
      match rest with
      | Send (MsgTaskFinished t' (OutcomeCompleted _)) :: _ => t' = t
      | _ => False
      end /\ artifacts_first rest
  | _ :: rest => artifacts_first rest
  end.

Lemma artifacts_first_app l k : artifacts_first l -> artifacts_first k -> artifacts_first (l ++ k).
Proof.
  induction l as [|a l IH]; [done|]. intros Hl Hk.
  destruct a as [[]| |]; try (exact (IH Hl Hk)).
  cbn in Hl |- *. destruct Hl as (Hv & Hlen & Hm & Hl). split_and!; auto.
  destruct l as [|[[]| |]]; done.
Qed.

Lemma artifacts_first_poll a now : artifacts_first (Agent_poll a now).2.
Proof.
  unfold Agent_poll. destruct (poll_report (poll_compute a) now) as [a1 acts1] eqn:Hr.
  destruct (poll_heartbeat a1 now) as [a2 acts2] eqn:Hb. cbn [snd].
  repeat apply artifacts_first_app.
  - unfold poll_report in Hr. destruct (ag_running _) as [r|]; [|by simplify_eq].
    destruct (ready_at r <=? now); [|by simplify_eq].
    destruct (work r); [by simplify_eq| |by simplify_eq].
    destruct (N.ltb_spec MAX_ARTIFACT (len artifact)) as [|Hle]; simplify_eq; [done|].
    unfold finished. cbn [artifacts_first]. unfold Artifact_verify, Artifact_new.
    cbn [artifact_bytes artifact_digest]. by rewrite N.eqb_refl.
  - unfold poll_heartbeat in Hb. repeat case_match; by simplify_eq.
  - by destruct (next_wake_ms a2 now).
Qed.

Lemma artifacts_first_step a i : artifacts_first (Agent_step a i).2.
Proof.
  destruct i as [[] now|now|]; cbn; try apply artifacts_first_poll; try done.
  unfold Agent_accept. destruct (ag_id a); [|done].
  destruct (ag_running a); [by case_match|]. case_match; [done|].
  destruct (start_work a _ spec) as [[wait w]|]; [|done].
  match goal with |- context [Agent_poll ?b now] => pose proof (artifacts_first_poll b now) as H' end.
  by destruct (Agent_poll _ now).
Qed.

(** An agent without an identity has not been welcomed and holds no task. *)
Definition silent (a : Agent) : Prop := ag_id a = None /\ ag_running a = None /\ ag_joined a = false.

Lemma silent_poll a now : silent a -> Agent_poll a now = (a, []).
Proof.
  intros (Hid & Hr & Hj). unfold Agent_poll, poll_compute, poll_report, poll_heartbeat, next_wake_ms.
  rewrite Hr. cbn. rewrite Hr. cbn. rewrite Hid. cbn. by rewrite Hj, Hr.
Qed.

Lemma silent_step a i :
  silent a -> is_welcome i = false ->
  silent (Agent_step a i).1 /\ Forall (fun x => is_send x = false) (Agent_step a i).2.
Proof.
  intros Hs Hi. destruct i as [[] now|now|]; cbn in *; try done;
    try (rewrite silent_poll by done; split; [done|constructor]).
  - split; [done|]. by repeat constructor.
  - destruct Hs as (Hid & ?). unfold Agent_accept. rewrite Hid. split; [done|constructor].
  - split; [done|]. by repeat constructor.
Qed.

(** Frame discipline.  A worker without an assigned identity puts no frame on
    the wire until it has been welcomed, whatever it is sent; and over any run of
    any worker every artifact it sends verifies, fits [MAX_ARTIFACT], and is
    directly followed by the completion of the task that produced it. *)
Theorem agent_frame_discipline (inputs : list AgentInput) :
  (forall caps interval, Forall (fun i => is_welcome i = false) inputs ->
     Forall (fun x => is_send x = false) (Agent_run (Agent_anonymous caps interval) inputs).2) /\
  (forall a, artifacts_first (Agent_run a inputs).2).
Proof.
  split.
  - intros caps interval. assert (silent (Agent_anonymous caps interval)) as Hs by done.
    revert Hs. generalize (Agent_anonymous caps interval).
    induction inputs as [|i inputs IH]; intros a Hs Hw; [constructor|].
    apply Forall_cons in Hw as [Hi Hw]. destruct (silent_step a i Hs Hi) as [Hs' Hacts].
    rewrite Agent_run_cons. cbn [snd]. apply Forall_app. auto.
  - induction inputs as [|i inputs IH]; intros a; [done|]. rewrite Agent_run_cons. cbn [snd].
    apply artifacts_first_app; [apply artifacts_first_step|apply IH].
Qed.

(** ** The sliced prime count is the reference computation *)
Lemma count_primes_le a b : count_primes a b <= b - a.
Proof.
  unfold count_primes.
  pose proof (length_filter (fun n => is_prime n = true) (rangeN (N.max a 2) b)) as Hf.
  assert (length (rangeN (N.max a 2) b) = N.to_nat (b - N.max a 2)) as Hl
    by (unfold rangeN; by rewrite length_fmap, length_seq). lia.
Qed.

(** How many polls a range takes. *)
Definition slices (cursor end_ : N) : N := N.max 1 ((end_ - cursor + (COMPUTE_SLICE - 1)) / COMPUTE_SLICE).

Lemma slices_last cursor end_ : end_ - cursor <= COMPUTE_SLICE -> slices cursor end_ = 1.
Proof.
  unfold slices, COMPUTE_SLICE. intros H.
  assert ((end_ - cursor + (8000 - 1)) / 8000 < 2) by (apply N.Div0.div_lt_upper_bound; lia). lia.
Qed.

Lemma slices_more cursor end_ :
  COMPUTE_SLICE < end_ - cursor -> slices cursor end_ = slices (cursor + COMPUTE_SLICE) end_ + 1.
Proof.
  unfold slices, COMPUTE_SLICE. intros H.
  replace (end_ - cursor + (8000 - 1)) with (end_ - (cursor + 8000) + (8000 - 1) + 1 * 8000) by lia.
  rewrite N.div_add by done.
  assert (1 <= (end_ - (cursor + 8000) + (8000 - 1)) / 8000) by (apply N.div_le_lower_bound; lia). lia.
Qed.

Definition counting (a : Agent) (id : TaskId) (ready : Millis) (node : NodeId) (start end_ cursor : N) : Prop :=
  ag_running a = Some {| run_id := id; ready_at := ready;
                         work := Primes node start end_ cursor (count_primes start cursor) |} /\
  start <= cursor /\ (cursor = start \/ cursor <= end_) /\ end_ <= u64_max.

Lemma advance_counting node start end_ cursor :
  start <= cursor -> cursor = start \/ cursor <= end_ -> end_ <= u64_max ->
  advance (Primes node start end_ cursor (count_primes start cursor)) =
    if end_ - cursor <=? COMPUTE_SLICE then Ready (primes_output node start end_ (count_primes start end_))
    else Primes node start end_ (cursor + COMPUTE_SLICE) (count_primes start (cursor + COMPUTE_SLICE)).
Proof.
  intros Hs Hc He. unfold advance.
  assert (forall s, s <= end_ -> wrap 64 (count_primes start s) = count_primes start s) as Hw.
  { intros s Hse. apply wrap_small. pose proof (count_primes_le start s). unfold u64_max in He. lia. }
  destruct (N.leb_spec (end_ - cursor) COMPUTE_SLICE) as [Hle|Hgt].
  - replace (N.min (sat_add u64_max cursor COMPUTE_SLICE) end_) with end_ by (unfold sat_add; lia).
    rewrite N.leb_refl. destruct (decide (cursor <= end_)).
    + rewrite <-count_primes_app by lia. by rewrite Hw.
    + destruct Hc as [->|]; [|lia]. rewrite !(count_primes_empty) by lia. done.
  - replace (N.min (sat_add u64_max cursor COMPUTE_SLICE) end_) with (cursor + COMPUTE_SLICE)
      by (unfold sat_add; lia).
    destruct (N.leb_spec end_ (cursor + COMPUTE_SLICE)); [lia|].
    rewrite <-count_primes_app by lia. by rewrite Hw by lia.
Qed.

Lemma poll_running_None a now : ag_running a = None -> ag_running (Agent_poll a now).1 = None /\ forall t, outcomes t (Agent_poll a now).2 = [].
Proof.
  intros Hr. destruct (poll_report_part a now) as [-> Ho]. unfold poll_report, poll_compute in *.
  rewrite Hr in *. rewrite Hr. split; [done|]. intros t. rewrite Ho. by rewrite Hr.
Qed.

Lemma polls_idle (ts : list Millis) a t : ag_running a = None -> outcomes t (Agent_run a (InPoll <$> ts)).2 = [].
Proof.
  revert a. induction ts as [|now ts IH]; intros a Hr; [done|]. cbn [fmap list_fmap].
  rewrite Agent_run_cons. cbn [snd Agent_step]. rewrite outcomes_app.
  destruct (poll_running_None a now Hr) as [Hr' ->]. by rewrite IH.
Qed.

Lemma counting_poll a id ready node start end_ cursor now :
  counting a id ready node start end_ cursor -> ready <= now ->
  (COMPUTE_SLICE < end_ - cursor /\ counting (Agent_poll a now).1 id ready node start end_ (cursor + COMPUTE_SLICE) /\
   outcomes id (Agent_poll a now).2 = []) \/
  (end_ - cursor <= COMPUTE_SLICE /\ ag_running (Agent_poll a now).1 = None /\
   outcomes id (Agent_poll a now).2 = [OutcomeCompleted (primes_output node start end_ (count_primes start end_))]).
Proof.
  intros (Hr & Hs & Hc & He) Hnow. unfold counting. destruct (poll_report_part a now) as [-> ->].
  unfold poll_report, poll_compute. rewrite Hr. cbn [ag_running set_running run_id ready_at work].
  rewrite advance_counting by done. destruct (N.leb_spec ready now); [|lia].
  destruct (N.leb_spec (end_ - cursor) COMPUTE_SLICE); [right|left]; cbn [fst snd ag_running set_running].
  - split_and!; [done..|]. unfold outcomes, finished. cbn. by rewrite decide_True.
  - split_and!; try done; lia.
Qed.

Lemma counting_polls (ts : list Millis) a id ready node start end_ cursor :
  counting a id ready node start end_ cursor -> Forall (N.le ready) ts ->
  outcomes id (Agent_run a (InPoll <$> ts)).2 =
    if len ts <? slices cursor end_ then []
    else [OutcomeCompleted (primes_output node start end_ (count_primes start end_))].
Proof.
  revert a cursor. induction ts as [|now ts IH]; intros a cursor Hcnt Hts.
  { unfold len. cbn [length].
    destruct (N.ltb_spec (N.of_nat 0) (slices cursor end_)) as [|Hz]; [done|].
    unfold slices in Hz. lia. }
  apply Forall_cons in Hts as [Hnow Hts]. cbn [fmap list_fmap].
  rewrite Agent_run_cons. cbn [snd Agent_step]. rewrite outcomes_app.
  rewrite len_cons.
  destruct (counting_poll _ _ _ _ _ _ _ now Hcnt Hnow) as [(Hgt & Hc' & ->)|(Hle & Hr' & ->)].
  - rewrite (IH _ _ Hc' Hts), (slices_more cursor) by done. cbn.
    destruct (N.ltb_spec (len ts) (slices (cursor + COMPUTE_SLICE) end_)),
      (N.ltb_spec (len ts + 1) (slices (cursor + COMPUTE_SLICE) end_ + 1)); try done; lia.
  - rewrite slices_last by done.
    change (list_fmap _ _ InPoll ts) with (InPoll <$> ts). rewrite polls_idle by done.
    destruct (N.ltb_spec (len ts + 1) 1); [lia|done].
Qed.

(** Slicing changes nothing.  An idle worker that is assigned a prime range
    and then polled reports nothing until it has been driven [slices] times, and
    then exactly once, with the output [run_task] computes for the whole range in
    one go; and [slices] is the ceiling of the range over [COMPUTE_SLICE], so the
    computation ends. *)
Theorem sliced_primes_equal_run_task (a : Agent) (node : NodeId) (id : TaskId) (start end_ : N)
    (now : Millis) (ts : list Millis) :
  ag_id a = Some node -> ag_running a = None -> ag_pending_failures a = 0 -> ag_extra_delay_ms a = 0 ->
  end_ <= u64_max -> now <= u64_max -> Forall (N.le now) ts ->
  let run := Agent_run a (InMessage (Assign id (WirePrimes start end_)) now :: (InPoll <$> ts)) in
  if len ts + 1 <? slices start end_ then outcomes id run.2 = []
  else exists output, run_task node (TaskPrimes start end_) = Some (WorkDone output) /\
         outcomes id run.2 = [OutcomeCompleted output].
Proof.
  intros Hid Hr Hp Hd He Hnow Hts run. subst run. rewrite Agent_run_cons. cbn [snd Agent_step Agent_handle].
  unfold Agent_accept. rewrite Hid, Hr, Hp. cbn [N.ltb N.compare start_work TaskSpec_from].
  set (a1 := set_running _ a).
  assert (counting a1 id now node start end_ start) as Hc.
  { unfold counting, a1. rewrite Hd, count_primes_empty by lia. cbn. split_and!; [|lia|by left|done].
    unfold plus_ms, sat_add. repeat f_equal. lia. }
  pose proof (counting_polls (now :: ts) a1 _ _ _ _ _ _ Hc ltac:(by constructor)) as Hout.
  cbn [fmap list_fmap] in Hout. rewrite Agent_run_cons in Hout. cbn [snd Agent_step] in Hout.
  rewrite len_cons in Hout.
  destruct (Agent_poll a1 now) as [a2 acts]. cbn [fst snd] in *.
  change ((Send (MsgTaskStarted id) :: acts) ++ ?k) with ([Send (MsgTaskStarted id)] ++ acts ++ k).
  rewrite outcomes_app. change (outcomes id [Send (MsgTaskStarted id)]) with (@nil TaskOutcome).
  rewrite app_nil_l, Hout. destruct (len ts + 1 <? slices start end_); [done|]. eauto.
Qed.

Lemma sliced_primes_witness :
  let a := Agent_with_id 3 (NodeCapabilities_new 1 0) 1000 in
  exists output, run_task 3 (TaskPrimes 0 10000) = Some (WorkDone output) /\
    outcomes 7 (Agent_run a (InMessage (Assign 7 (WirePrimes 0 10000)) 5 :: (InPoll <$> [6]))).2
      = [OutcomeCompleted output].
Proof.
  exact (sliced_primes_equal_run_task (Agent_with_id 3 (NodeCapabilities_new 1 0) 1000) 3 7 0 10000 5 [6]
           eq_refl eq_refl eq_refl eq_refl ltac:(vm_compute; discriminate) ltac:(vm_compute; discriminate)
           ltac:(repeat constructor; vm_compute; discriminate)).
Defined.

(** ** Heartbeats *)

(** Nothing before the heartbeat block touches what it reads. *)
Lemma poll_report_frame a now :
  let a1 := (poll_report (poll_compute a) now).1 in
  ag_id a1 = ag_id a /\ ag_joined a1 = ag_joined a /\ ag_heartbeat_paused a1 = ag_heartbeat_paused a /\
  ag_next_heartbeat a1 = ag_next_heartbeat a /\ ag_interval_ms a1 = ag_interval_ms a.
Proof.
  cbv zeta. unfold poll_report, poll_compute. destruct (ag_running a) as [r|] eqn:Hr; cbn; [|by rewrite Hr].
  destruct (ready_at r <=? now); cbn; [|done]. destruct (advance (work r)); cbn; try done. by case_match.
Qed.

Definition beating (a : Agent) (node : NodeId) : Prop :=
  ag_id a = Some node /\ ag_joined a = true /\ ag_heartbeat_paused a = false.

Lemma poll_beating a node now :
  beating a node ->
  let '(a', acts) := Agent_poll a now in
  beating a' node /\
  ag_next_heartbeat a' = (if ag_next_heartbeat a <=? now
                          then plus_ms now (N.max (ag_interval_ms a) 1) else ag_next_heartbeat a) /\
  (ag_next_heartbeat a <= now -> exists hb, Send (MsgHeartbeat hb) ∈ acts /\ hb_node hb = node /\ hb_at hb = now) /\
  exists w, WakeIn w ∈ acts /\ w <= ag_next_heartbeat a' - now.
Proof.
  intros (Hid & Hj & Hp). unfold Agent_poll.
  pose proof (poll_report_frame a now) as Hf. destruct (poll_report (poll_compute a) now) as [a1 acts1].
  cbn in Hf. destruct Hf as (Hid1 & Hj1 & Hp1 & Hn1 & Hi1).
  unfold poll_heartbeat. rewrite Hid1, Hid, Hj1, Hj, Hp1, Hp, Hn1, Hi1. cbn [andb negb].
  assert (forall b, beating b node ->
    exists w, next_wake_ms b now = Some w /\ w <= ag_next_heartbeat b - now) as Hwake.
  { intros b (_ & Hbj & Hbp). unfold next_wake_ms. rewrite Hbj, Hbp. cbn. unfold since.
    destruct (ag_running b); cbn; eexists; split; try done; lia. }
  destruct (N.leb_spec (ag_next_heartbeat a) now) as [Hle|Hgt].
  - set (b := set_next_heartbeat _ a1). assert (beating b node) as Hb by (repeat split; cbn; congruence).
    destruct (Hwake b Hb) as (w & -> & Hw). split_and!; [done..| |].
    + intros _. eexists. split; [apply elem_of_app; right; apply elem_of_app; left; by apply list_elem_of_singleton|done].
    + exists w. split; [set_solver|done].
  - assert (beating a1 node) as Hb by (repeat split; congruence).
    destruct (Hwake a1 Hb) as (w & -> & Hw). split_and!; [done..|lia|]. exists w. split; [set_solver|done].
Qed.

(** Cadence.  After a poll, a joined and unpaused worker has its next heartbeat
    strictly in the future and at most one interval away, has asked to be woken no
    later than that, and a poll at or after that instant does send a heartbeat,
    stamped with it and carrying the worker's own identity. *)
Theorem heartbeat_cadence (a : Agent) (node : NodeId) (now : Millis) :
  ag_id a = Some node -> ag_joined a = true -> ag_heartbeat_paused a = false ->
  ag_next_heartbeat a <= now + N.max (ag_interval_ms a) 1 -> now + N.max (ag_interval_ms a) 1 <= u64_max ->
  let '(a', acts) := Agent_poll a now in
  now < ag_next_heartbeat a' <= now + N.max (ag_interval_ms a) 1 /\
  (exists w, WakeIn w ∈ acts /\ now + w <= ag_next_heartbeat a') /\
  forall t, ag_next_heartbeat a' <= t ->
    exists hb, Send (MsgHeartbeat hb) ∈ (Agent_poll a' t).2 /\ hb_node hb = node /\ hb_at hb = t.
Proof.
  intros Hid Hj Hp Hn Hmax. pose proof (poll_beating a node now ltac:(done)) as H1.
  destruct (Agent_poll a now) as [a' acts]. destruct H1 as (Hb & Hn' & _ & w & Hw & Hle).
  assert (now < ag_next_heartbeat a' <= now + N.max (ag_interval_ms a) 1) as Hrange.
  { rewrite Hn'. unfold plus_ms, sat_add. destruct (N.leb_spec (ag_next_heartbeat a) now); lia. }
  split_and!; [lia..|exists w; split; [done|lia]|]. intros t Ht.
  pose proof (poll_beating a' node t Hb) as H2. destruct (Agent_poll a' t) as [a'' acts'].
  destruct H2 as (_ & _ & Hsend & _). by apply Hsend.
Qed.

Lemma heartbeat_cadence_witness :
  let a := (Agent_handle (Agent_anonymous (NodeCapabilities_new 1 0) 0) (Welcome PROTOCOL_VERSION 3 1000) 50).1 in
  let '(a', acts) := Agent_poll a 60 in
  60 < ag_next_heartbeat a' <= 60 + N.max (ag_interval_ms a) 1.
Proof.
  exact (proj1 (heartbeat_cadence
    (Agent_handle (Agent_anonymous (NodeCapabilities_new 1 0) 0) (Welcome PROTOCOL_VERSION 3 1000) 50).1 3 60
    eq_refl eq_refl eq_refl ltac:(vm_compute; discriminate) ltac:(vm_compute; discriminate))).
Defined.
