(* ===== verification/Store.v ===== *)
(** * Persistence: the store ports and the deferred writer

    Models [crates/cluster-core/src/persist.rs] (the traits [JobStore],
    [EventLog], [ClusterStore] as type classes over an abstract store state, with
    their provided methods), [crates/cluster-local/src/persistence.rs] (the
    write queue and its drain) and the counters of
    [crates/cluster-local/src/telemetry.rs] that the runtime updates.

    [ClusterStoreLaws] is what the supervisor relies on: identifiers are handed
    out at most once, and what is read back is what belongs to the job asked for.
    [Sqlite.v] gives the SQLite implementation and discharges them. *)
From stdpp Require Import prelude gmap sorting strings.
From S2P Require Import Prelude Time Role Node Job Event.

Inductive StoreError :=
| NotFound
| Conflict (what : string)
| Corrupt (what : string)
| Backend (what : string).

Definition StoreError_fmt (e : StoreError) : string :=
  match e with
  | NotFound => "not found"
  | Conflict w => "conflict: " +:+ w
  | Corrupt w => "stored data is corrupt: " +:+ w
  | Backend w => "storage backend: " +:+ w
  end%string.

Abbreviation StoreResult A := (Result A StoreError).

(** ** The ports

    A method that writes takes the store and answers with the store it leaves
    behind, also when it fails; a method that reads only answers. *)
Class JobStore (P : Type) := {
  next_job_id : P -> StoreResult JobId * P;
  reserve_task_ids : N -> P -> StoreResult TaskId * P;
  create_job : Job -> list Task -> P -> StoreResult unit * P;
  save_job : Job -> P -> StoreResult unit * P;
  save_task : Task -> P -> StoreResult unit * P;
  record_failure : TaskAttempt -> P -> StoreResult unit * P;
  store_job : JobId -> P -> StoreResult (option Job);
  recent_jobs : nat -> P -> StoreResult (list Job);
  tasks_for_job : JobId -> P -> StoreResult (list Task);
  failures_for_job : JobId -> P -> StoreResult (list TaskAttempt);
  unfinished_jobs : P -> StoreResult (list (Job * list Task));
  unfinished_jobs_page : option JobId -> nat -> P -> StoreResult (list (Job * list Task));
  prune_terminal_before : Millis -> P -> StoreResult N * P
}.

Class EventLog (P : Type) := {
  append : EventRecord -> P -> StoreResult unit * P;
  recent : nat -> P -> StoreResult (list EventRecord);
  last_seq : P -> StoreResult N;
  prune_before : Millis -> P -> StoreResult N * P
}.

Class ClusterStore (P : Type) := {
  cluster_store_jobs :: JobStore P;
  cluster_store_events :: EventLog P;
  save_node_roles : NodeId -> RoleSet -> Millis -> P -> StoreResult unit * P;
  load_node_roles : P -> StoreResult (list (NodeId * RoleSet))
}.

(** *** Provided methods *)

(** [after.is_none_or(|id| job.id > id)] *)
Definition past (after : option JobId) (jt : Job * list Task) : Prop :=
  match after with None => True | Some id => id < job_id jt.1 end.
#[export] Instance past_dec after jt : Decision (past after jt).
Proof. destruct after; cbn; apply _. Defined.

(** The default body of [unfinished_jobs_page]. *)
Definition unfinished_jobs_page_default (unfinished : StoreResult (list (Job * list Task)))
    (after : option JobId) (limit : nat) : StoreResult (list (Job * list Task)) :=
  let? jobs := unfinished in
  Ok (take limit (filter (past after) jobs)).

(** The tasks [allocate] builds; the index is cast [as u16]. *)
Definition number_tasks (first : TaskId) (job : JobId) (specs : list TaskSpec) (now : Millis) : list Task :=
  imap (fun index spec => Task_new (first + N.of_nat index) job (wrap 16 (N.of_nat index)) spec now) specs.

Definition allocate {P} `{JobStore P} (spec : JobSpec) (now : Millis) (p : P) :
    StoreResult (Job * list Task) * P :=
  match next_job_id p with
  | (Err e, p) => (Err e, p)
  | (Ok id, p) =>
      let job := Job_new id spec now in
      let specs := JobSpec_split spec in
      match reserve_task_ids (N.of_nat (length specs)) p with
      | (Err e, p) => (Err e, p)
      | (Ok first_task, p) => (Ok (job, number_tasks first_task id specs now), p)
      end
  end.

(** ** What the runtime relies on

    [job_mark] and [task_mark] bound every identifier handed out so far from
    above; they are not part of the code. *)
Class StoreMarks (P : Type) := {
  store_wf : P -> Prop;
  job_mark : P -> N;
  task_mark : P -> N
}.

(** A store that may follow another: sound, and no identifier is forgotten. *)
Definition store_le {P} `{StoreMarks P} (p p' : P) : Prop :=
  (store_wf p -> store_wf p') /\ job_mark p <= job_mark p' /\ task_mark p <= task_mark p'.

#[export] Instance store_le_preorder {P} `{StoreMarks P} : PreOrder (store_le (P := P)).
Proof. split; [intros p; unfold store_le; naive_solver lia|]. intros p q r (?&?&?) (?&?&?). unfold store_le. naive_solver lia. Qed.

Class ClusterStoreLaws (P : Type) `{ClusterStore P, StoreMarks P} : Prop := {
  next_job_id_fresh : forall p id p', store_wf p -> next_job_id p = (Ok id, p') -> job_mark p <= id < job_mark p';
  next_job_id_le : forall p, store_le p (next_job_id p).2;
  reserve_task_ids_fresh : forall n p first p', n <= u16_max -> store_wf p -> reserve_task_ids n p = (Ok first, p') ->
    task_mark p <= first /\ first + n <= task_mark p';
  reserve_task_ids_le : forall n p, n <= u16_max -> store_le p (reserve_task_ids n p).2;
  (** The rows written carry identifiers the store handed out. *)
  create_job_le : forall j ts p,
    job_id j < job_mark p -> Forall (fun t => task_id t < task_mark p) ts -> store_le p (create_job j ts p).2;
  save_job_le : forall j p, store_le p (save_job j p).2;
  save_task_le : forall t p, store_le p (save_task t p).2;
  record_failure_le : forall f p, store_le p (record_failure f p).2;
  append_le : forall r p, store_le p (append r p).2;
  save_node_roles_le : forall n r at_ p, store_le p (save_node_roles n r at_ p).2;
  recent_jobs_sound : forall n p jobs, store_wf p -> recent_jobs n p = Ok jobs ->
    Forall (fun j => job_id j < job_mark p) jobs;
  tasks_for_job_sound : forall id p tasks, store_wf p -> id < job_mark p -> tasks_for_job id p = Ok tasks ->
    Forall (fun t => task_job_id t = id /\ task_id t < task_mark p) tasks /\ NoDup (task_id <$> tasks);
  (** A task belongs to one job. *)
  tasks_for_job_unique : forall j1 j2 p ts1 ts2 t1 t2, store_wf p -> j1 < job_mark p -> j2 < job_mark p ->
    tasks_for_job j1 p = Ok ts1 -> tasks_for_job j2 p = Ok ts2 -> t1 ∈ ts1 -> t2 ∈ ts2 ->
    task_id t1 = task_id t2 -> j1 = j2;
  (** A page is the next [limit] unfinished jobs, in increasing order of id. *)
  unfinished_jobs_page_spec : forall after limit p,
    unfinished_jobs_page after limit p = unfinished_jobs_page_default (unfinished_jobs p) after limit;
  unfinished_jobs_sound : forall p jobs, store_wf p -> unfinished_jobs p = Ok jobs ->
    Forall (fun jt => job_id jt.1 < job_mark p /\ JobState_is_terminal (job_state jt.1) = false /\
                      tasks_for_job (job_id jt.1) p = Ok jt.2) jobs /\
    StronglySorted (fun x y => job_id x.1 < job_id y.1) jobs
}.

(** ** The deferred writer *)
Inductive Write :=
| WriteJob (job : Job)
| WriteTask (task : Task)
| WriteFailure (failure : TaskAttempt)
| WriteEvent (record : EventRecord)
| WriteRoles (node : NodeId) (roles : RoleSet) (at_ : Millis).

Definition Write_kind (w : Write) : string :=
  match w with
  | WriteJob _ => "job" | WriteTask _ => "task" | WriteFailure _ => "failure"
  | WriteEvent _ => "event" | WriteRoles _ _ _ => "roles"
  end.

(** The counters of [Telemetry] the runtime updates.  [oldest] is the reading of
    the monotonic clock when the queue last became non-empty. *)
Record Telemetry := {
  tel_depth : N;
  tel_oldest : option Millis;
  tel_persistence_errors : N;
  tel_jobs_recovered : N;
  tel_task_retries : N;
  tel_connections : N;
  tel_preauth : N;
  tel_rejected : N
}.

Definition Telemetry_default : Telemetry :=
  {| tel_depth := 0; tel_oldest := None; tel_persistence_errors := 0; tel_jobs_recovered := 0;
     tel_task_retries := 0; tel_connections := 0; tel_preauth := 0; tel_rejected := 0 |}.

Definition usize_max : N := u64_max.

Definition Telemetry_queued (instant : Millis) (t : Telemetry) : Telemetry :=
  {| tel_depth := sat_add usize_max (tel_depth t) 1;
     tel_oldest := if tel_depth t =? 0 then Some instant else tel_oldest t;
     tel_persistence_errors := tel_persistence_errors t; tel_jobs_recovered := tel_jobs_recovered t;
     tel_task_retries := tel_task_retries t; tel_connections := tel_connections t;
     tel_preauth := tel_preauth t; tel_rejected := tel_rejected t |}.

Definition Telemetry_dequeued (t : Telemetry) : Telemetry :=
  let depth := tel_depth t - 1 in
  {| tel_depth := depth; tel_oldest := if depth =? 0 then None else tel_oldest t;
     tel_persistence_errors := tel_persistence_errors t; tel_jobs_recovered := tel_jobs_recovered t;
     tel_task_retries := tel_task_retries t; tel_connections := tel_connections t;
     tel_preauth := tel_preauth t; tel_rejected := tel_rejected t |}.

(** The [fetch_add]s and [fetch_sub]s wrap at the width of their atomics. *)
Definition fetch_add (n k : N) : N := wrap 64 (n + k).
Definition fetch_sub (n k : N) : N := wrap 64 (n + 2 ^ 64 - k).

Definition Telemetry_counters (errors recovered retries connections preauth rejected : N) (t : Telemetry) : Telemetry :=
  {| tel_depth := tel_depth t; tel_oldest := tel_oldest t;
     tel_persistence_errors := errors; tel_jobs_recovered := recovered; tel_task_retries := retries;
     tel_connections := connections; tel_preauth := preauth; tel_rejected := rejected |}.

Definition Telemetry_persistence_error (t : Telemetry) : Telemetry :=
  Telemetry_counters (fetch_add (tel_persistence_errors t) 1) (tel_jobs_recovered t) (tel_task_retries t)
    (tel_connections t) (tel_preauth t) (tel_rejected t) t.
Definition Telemetry_recovered (count : N) (t : Telemetry) : Telemetry :=
  Telemetry_counters (tel_persistence_errors t) (fetch_add (tel_jobs_recovered t) count) (tel_task_retries t)
    (tel_connections t) (tel_preauth t) (tel_rejected t) t.
Definition Telemetry_retried (t : Telemetry) : Telemetry :=
  Telemetry_counters (tel_persistence_errors t) (tel_jobs_recovered t) (fetch_add (tel_task_retries t) 1)
    (tel_connections t) (tel_preauth t) (tel_rejected t) t.
Definition Telemetry_connection_opened (t : Telemetry) : Telemetry :=
  Telemetry_counters (tel_persistence_errors t) (tel_jobs_recovered t) (tel_task_retries t)
    (fetch_add (tel_connections t) 1) (tel_preauth t) (tel_rejected t) t.
Definition Telemetry_connection_closed (t : Telemetry) : Telemetry :=
  Telemetry_counters (tel_persistence_errors t) (tel_jobs_recovered t) (tel_task_retries t)
    (fetch_sub (tel_connections t) 1) (tel_preauth t) (tel_rejected t) t.
Definition Telemetry_preauth_opened (t : Telemetry) : Telemetry :=
  Telemetry_counters (tel_persistence_errors t) (tel_jobs_recovered t) (tel_task_retries t)
    (tel_connections t) (fetch_add (tel_preauth t) 1) (tel_rejected t) t.
Definition Telemetry_preauth_closed (t : Telemetry) : Telemetry :=
  Telemetry_counters (tel_persistence_errors t) (tel_jobs_recovered t) (tel_task_retries t)
    (tel_connections t) (fetch_sub (tel_preauth t) 1) (tel_rejected t) t.
Definition Telemetry_rejected (t : Telemetry) : Telemetry :=
  Telemetry_counters (tel_persistence_errors t) (tel_jobs_recovered t) (tel_task_retries t)
    (tel_connections t) (tel_preauth t) (fetch_add (tel_rejected t) 1) t.

(** [ConnectionGuard]: whether the handshake is still pending is its one field. *)
Definition ConnectionGuard_new (t : Telemetry) : bool * Telemetry :=
  (true, Telemetry_preauth_opened (Telemetry_connection_opened t)).
Definition ConnectionGuard_authenticated (guard : bool) (t : Telemetry) : bool * Telemetry :=
  if guard then (false, Telemetry_preauth_closed t) else (guard, t).
Definition ConnectionGuard_drop (guard : bool) (t : Telemetry) : Telemetry :=
  Telemetry_connection_closed (if guard then Telemetry_preauth_closed t else t).

(** One turn of [drain]: the write is applied and the telemetry updated. *)
Definition apply_write {P} `{ClusterStore P} (w : Write) (p : P) : StoreResult unit * P :=
  match w with
  | WriteJob job => save_job job p
  | WriteTask task => save_task task p
  | WriteFailure failure => record_failure failure p
  | WriteEvent record => append record p
  | WriteRoles node roles at_ => save_node_roles node roles at_ p
  end.

Definition drain_one {P} `{ClusterStore P} (w : Write) (p : P) (t : Telemetry) : P * Telemetry :=
  let '(result, p) := apply_write w p in
  let t := Telemetry_dequeued t in
  (p, match result with Ok _ => t | Err _ => Telemetry_persistence_error t end).

Fixpoint drain {P} `{ClusterStore P} (queue : list Write) (p : P) (t : Telemetry) : P * Telemetry :=
  match queue with
  | [] => (p, t)
  | w :: queue => let '(p, t) := drain_one w p t in drain queue p t
  end.

(** ** Consequences of the laws *)
Section StoreLaws.
Context {P : Type} `{ClusterStoreLaws P}.

Lemma number_tasks_lookup first job specs now i t :
  number_tasks first job specs now !! i = Some t ->
  exists spec, specs !! i = Some spec /\
    t = Task_new (first + N.of_nat i) job (wrap 16 (N.of_nat i)) spec now.
Proof. unfold number_tasks. rewrite list_lookup_imap. intros (spec & -> & ->)%fmap_Some. eauto. Qed.

Lemma number_tasks_ids first job specs now :
  NoDup (task_id <$> number_tasks first job specs now).
Proof.
  apply NoDup_alt. intros i j x Hi Hj.
  apply list_lookup_fmap_Some in Hi as (ti & -> & Hi). apply list_lookup_fmap_Some in Hj as (tj & Hx & Hj).
  apply number_tasks_lookup in Hi as (? & _ & ->). apply number_tasks_lookup in Hj as (? & _ & ->).
  cbn in Hx. lia.
Qed.

Lemma number_tasks_Forall first job specs now :
  Forall (fun t => task_job_id t = job /\ first <= task_id t < first + N.of_nat (length specs) /\
    task_state t = TaskState.Queued /\ task_assigned_to t = None /\ task_output t = None /\
    task_attempt t = 0) (number_tasks first job specs now).
Proof.
  apply Forall_lookup. intros i t Hi. apply number_tasks_lookup in Hi as (spec & Hs & ->). cbn.
  apply lookup_lt_Some in Hs. split_and!; try done; lia.
Qed.

(** What a submission gets: fresh identifiers, one queued task per part. *)
Lemma allocate_spec spec now p r p' :
  JobSpec_task_count spec <= u16_max -> store_wf p -> allocate spec now p = (r, p') ->
  store_le p p' /\
  match r with
  | Err _ => True
  | Ok (job, tasks) =>
      job = Job_new (job_id job) spec now /\ job_mark p <= job_id job < job_mark p' /\
      length tasks = N.to_nat (JobSpec_task_count spec) /\ NoDup (task_id <$> tasks) /\
      Forall (fun t => task_job_id t = job_id job /\ task_mark p <= task_id t < task_mark p' /\
        task_state t = TaskState.Queued /\ task_assigned_to t = None /\ task_output t = None /\
        task_attempt t = 0) tasks
  end.
Proof.
  intros Hmax Hwf. unfold allocate. assert (N.of_nat (length (JobSpec_split spec)) <= u16_max) as Hlen
    by (rewrite split_length; lia). pose proof (next_job_id_le p) as Hle1.
  destruct (next_job_id p) as [[id|e] p1] eqn:Hn; [|by intros [= <- <-]].
  pose proof (next_job_id_fresh _ _ _ Hwf Hn) as Hid. cbn in Hle1.
  pose proof (reserve_task_ids_le (N.of_nat (length (JobSpec_split spec))) p1 Hlen) as Hle2.
  destruct (reserve_task_ids _ p1) as [[first|e] p2] eqn:Hr; intros [= <- <-]; cbn in Hle2.
  2:{ split; [by etrans|done]. }
  destruct (reserve_task_ids_fresh _ _ _ _ Hlen (proj1 Hle1 Hwf) Hr) as [Hf1 Hf2].
  split; [by etrans|]. destruct Hle1 as (_ & Hj1 & Ht1), Hle2 as (_ & Hj2 & Ht2). cbn.
  split_and!; try done; try lia.
  - unfold number_tasks. rewrite length_imap. apply split_length.
  - apply number_tasks_ids.
  - eapply Forall_impl; [apply number_tasks_Forall|]. cbn. intros t (? & ? & ?). split_and!; try tauto; lia.
Qed.

Lemma drain_one_le w p t : store_le p (drain_one w p t).1.
Proof.
  unfold drain_one. assert (store_le p (apply_write w p).2) as Hle.
  { destruct w; cbn; [apply save_job_le|apply save_task_le|apply record_failure_le|apply append_le|
      apply save_node_roles_le]. }
  by destruct (apply_write w p).
Qed.
End StoreLaws.

(** ** Connection accounting *)
Lemma fetch_add_sub n : n < 2 ^ 64 -> fetch_sub (fetch_add n 1) 1 = n.
Proof.
  intros Hn. unfold fetch_sub, fetch_add, wrap.
  destruct (decide (n + 1 < 2 ^ 64)).
  - rewrite (N.mod_small (n + 1)) by done. replace (n + 1 + 2 ^ 64 - 1) with (n + 1 * 2 ^ 64) by lia.
    rewrite N.Div0.mod_add. by apply N.mod_small.
  - assert (n + 1 = 2 ^ 64) as -> by lia. rewrite N.Div0.mod_same. rewrite N.mod_small by lia. lia.
Qed.
