(* ===== verification/Snapshot.v ===== *)
(** * The read view of the cluster

    Models the data of [crates/cluster-core/src/cluster.rs]: the counters of a
    snapshot, its health label, and a job with its tasks and failures; and
    [Telemetry::apply] of [crates/cluster-local/src/telemetry.rs], which fills in
    the operational counters. *)
From stdpp Require Import prelude strings.
From S2P Require Import Prelude Time Role Node Job Event Store.

Record JobCounts := { jc_queued : N; jc_running : N; jc_completed : N; jc_failed : N; jc_cancelled : N }.
Definition JobCounts_default : JobCounts :=
  {| jc_queued := 0; jc_running := 0; jc_completed := 0; jc_failed := 0; jc_cancelled := 0 |}.
Definition JobCounts_total (self : JobCounts) : N :=
  jc_queued self + jc_running self + jc_completed self + jc_failed self + jc_cancelled self.

(** The arms of the [match job.state] of [snapshot]. *)
Definition JobCounts_tally (self : JobCounts) (s : JobState) : JobCounts :=
  let '(Build_JobCounts q r c f x) := self in
  match s with
  | JobState.Queued => Build_JobCounts (q + 1) r c f x
  | JobState.Running => Build_JobCounts q (r + 1) c f x
  | JobState.Completed => Build_JobCounts q r (c + 1) f x
  | JobState.Failed => Build_JobCounts q r c (f + 1) x
  | JobState.Cancelled => Build_JobCounts q r c f (x + 1)
  end.

(** [struct RoleCounts(pub [usize; 6])], indexed by [Role::index]. *)
Abbreviation RoleCounts := (list N).
Definition RoleCounts_default : RoleCounts := replicate 6 0.
Definition RoleCounts_get (self : RoleCounts) (r : Role) : N := default 0 (self !! Role_index r).
Definition RoleCounts_increment (self : RoleCounts) (r : Role) : RoleCounts :=
  alter (fun n => n + 1) (Role_index r) self.

Record ClusterSnapshot := {
  nodes_total : N;
  nodes_online : N;
  snap_roles : RoleCounts;
  snap_policies : RolePolicies;
  snap_jobs : JobCounts;
  tasks_running : N;
  tasks_queued : N;
  snap_leader : option NodeId;
  snap_gateway : option NodeId;
  worker_connections : N;
  worker_preauth : N;
  worker_rejected : N;
  persistence_queue : N;
  persistence_oldest_ms : N;
  persistence_errors : N;
  jobs_recovered : N;
  task_retries : N
}.

Definition ClusterSnapshot_default : ClusterSnapshot :=
  {| nodes_total := 0; nodes_online := 0; snap_roles := RoleCounts_default;
     snap_policies := RolePolicies_default; snap_jobs := JobCounts_default; tasks_running := 0;
     tasks_queued := 0; snap_leader := None; snap_gateway := None; worker_connections := 0;
     worker_preauth := 0; worker_rejected := 0; persistence_queue := 0; persistence_oldest_ms := 0;
     persistence_errors := 0; jobs_recovered := 0; task_retries := 0 |}.

Definition is_degraded (self : ClusterSnapshot) : bool :=
  (nodes_online self <? nodes_total self) ||
  match RolePolicies_unmet (snap_policies self) (RoleCounts_get (snap_roles self)) with
  | [] => false
  | _ => true
  end.

Definition status_label (self : ClusterSnapshot) : string :=
  if nodes_online self =? 0 then "down"
  else if is_degraded self then "degraded"
  else "healthy".

(** [instant] is the monotonic clock at the moment of the call. *)
Definition Telemetry_apply (t : Telemetry) (instant : Millis) (s : ClusterSnapshot) : ClusterSnapshot :=
  {| nodes_total := nodes_total s; nodes_online := nodes_online s; snap_roles := snap_roles s;
     snap_policies := snap_policies s; snap_jobs := snap_jobs s; tasks_running := tasks_running s;
     tasks_queued := tasks_queued s; snap_leader := snap_leader s; snap_gateway := snap_gateway s;
     worker_connections := tel_connections t; worker_preauth := tel_preauth t;
     worker_rejected := tel_rejected t; persistence_queue := tel_depth t;
     persistence_oldest_ms :=
       match tel_oldest t with Some at_ => N.min (instant - at_) u64_max | None => 0 end;
     persistence_errors := tel_persistence_errors t; jobs_recovered := tel_jobs_recovered t;
     task_retries := tel_task_retries t |}.

Record JobDetail := { jd_job : Job; jd_tasks : list Task; jd_failures : list TaskAttempt }.
