(* ===== verification/Supervisor.v ===== *)
(** * The supervisor: the single owner of cluster state

    Models [crates/cluster-local/src/supervisor.rs], handler by handler, with
    the handles and messages of [crates/cluster-local/src/node.rs] and the
    configuration of [crates/cluster-local/src/config.rs].

    The supervisor is one task that owns all its state, so a handler is a
    function from state to state.  What it reaches outside itself is explicit in
    the state: the store, the queue of deferred writes, the node mailboxes (a
    bounded channel each), the broadcast channel and the clock, whose every
    reading is a fresh value ([clock] indexed by the number of readings so far).
    Logging is not modelled.  Nothing here is assumed about what arrives: reports
    and commands are arbitrary values. *)
From stdpp Require Import prelude gmap sorting strings.
From S2P Require Import Prelude Time Role Node Job Event Scheduler Store Snapshot Protocol.

(** ** Configuration *)
Record RemoteNode := { rn_id : NodeId; rn_capabilities : NodeCapabilities }.

Record LocalClusterConfig := {
  node_count : N;
  health : HealthPolicy;
  policies : RolePolicies;
  tick_interval_ms : N;
  event_buffer : nat;
  job_buffer : nat;
  max_task_attempts : N;
  profiles : list NodeCapabilities;
  remote_nodes : list RemoteNode;
  join_token : option string;
  max_remote_connections : N;
  max_pending_handshakes : N;
  simulate_load : bool
}.

Definition LocalClusterConfig_default (available_parallelism : option N) : LocalClusterConfig :=
  {| node_count := 8; health := HealthPolicy_default; policies := RolePolicies_default;
     tick_interval_ms := 500; event_buffer := 200; job_buffer := 200; max_task_attempts := 3;
     profiles := [NodeCapabilities_local available_parallelism]; remote_nodes := [];
     join_token := None; max_remote_connections := 64; max_pending_handshakes := 16;
     simulate_load := true |}.

(** ** Mailboxes, handles and messages *)
Inductive NodeInbox :=
| InboxAssign (task : Task)
| InboxPauseHeartbeat (paused : bool)
| InboxInjectFailures (count : N)
| InboxSetDelay (ms : N).

Inductive NodeReport :=
| ReportHeartbeat (hb : Heartbeat)
| ReportTaskStarted (node : NodeId) (task : Task)
| ReportTaskFinished (node : NodeId) (task : Task) (outcome : TaskOutcome).

(** A bounded channel: what was sent and not yet received, whether the receiver
    still exists, and whether the shutdown signal beside it was sent. *)
Abbreviation ChanId := N.
Record Mailbox := { mb_queue : list NodeInbox; mb_capacity : nat; mb_open : bool; mb_shutdown : bool }.
Definition INBOX_CAPACITY : nat := 8.

Record NodeHandle := {
  h_inbox : ChanId;
  h_join : bool   (** whether there is a task to join; a remote node has none *)
}.

Inductive NodeKind := Simulated | Remote (declared : bool).
#[export] Instance NodeKind_eq_dec : EqDecision NodeKind.
Proof. solve_decision. Defined.

Record NodeEntry := {
  e_node : Node;
  e_kind : NodeKind;
  e_handle : option NodeHandle;
  e_heartbeat_paused : bool;
  e_generation : N
}.

Definition node_with (status : NodeStatus) (roles : RoleSet) (caps : NodeCapabilities) (load : NodeLoad)
    (last_seen : Millis) (n : Node) : Node :=
  {| node_id := node_id n; node_status := status; node_roles := roles; node_capabilities := caps;
     node_load := load; node_last_seen := last_seen; node_joined_at := node_joined_at n |}.
Definition with_status (status : NodeStatus) (n : Node) : Node :=
  node_with status (node_roles n) (node_capabilities n) (node_load n) (node_last_seen n) n.
Definition with_roles (roles : RoleSet) (n : Node) : Node :=
  node_with (node_status n) roles (node_capabilities n) (node_load n) (node_last_seen n) n.
Definition with_node (f : Node -> Node) (e : NodeEntry) : NodeEntry :=
  {| e_node := f (e_node e); e_kind := e_kind e; e_handle := e_handle e;
     e_heartbeat_paused := e_heartbeat_paused e; e_generation := e_generation e |}.

(** ** Commands and replies *)
Inductive Command :=
| CmdSnapshot
| CmdNodes
| CmdNode (id : NodeId)
| CmdEvents (limit : nat)
| CmdJobs (limit : nat)
| CmdJob (id : JobId)
| CmdSubmitJob (spec : JobSpec)
| CmdSetRole (node : NodeId) (role : Role) (enabled : bool)
| CmdStopNode (id : NodeId)
| CmdStartNode (id : NodeId)
| CmdPauseHeartbeat (id : NodeId) (paused : bool)
| CmdInjectFailures (id : NodeId) (count : N)
| CmdSetTaskDelay (id : NodeId) (ms : N)
| CmdAttachRemote (id : option NodeId) (capabilities : NodeCapabilities) (inbox : ChanId)
| CmdDetachRemote (id : NodeId) (generation : N).

(** The report channel in it is the supervisor's own. *)
Record RemoteAttachment := { ra_id : NodeId; ra_interval_ms : N; ra_generation : N }.

Inductive Reply :=
| ReplySnapshot (s : ClusterSnapshot)
| ReplyNodes (l : list Node)
| ReplyNode (n : option Node)
| ReplyEvents (l : list EventRecord)
| ReplyJobs (l : list Job)
| ReplyJob (d : option JobDetail)
| ReplySubmit (r : Result JobId ClusterError)
| ReplyUnit (r : Result unit ClusterError)
| ReplyAttach (r : Result RemoteAttachment RejectReason)
| NoReply.

(** ** State *)
Record Env (S L : Type) := {
  config : LocalClusterConfig;
  scheduler : S;
  elector : L;
  clock : nat -> Millis;
  instant : nat -> Millis   (** the monotonic clock the telemetry reads *)
}.
Arguments config {S L}.
Arguments scheduler {S L}.
Arguments elector {S L}.
Arguments clock {S L}.
Arguments instant {S L}.

Record Sup (P : Type) := {
  s_nodes : gmap N NodeEntry;
  s_jobs : gmap N Job;
  s_tasks : gmap N Task;
  s_queue : list TaskId;
  s_events : list EventRecord;
  s_event_seq : N;
  s_leader : option NodeId;
  s_gateway : option NodeId;
  s_store : P;
  s_pending : list Write;            (** the writer's channel *)
  s_writer_alive : bool;
  s_tel : Telemetry;
  s_broadcast : list EventRecord;    (** everything sent to subscribers *)
  s_chans : gmap N Mailbox;
  s_next_chan : ChanId;
  s_ticks : nat                      (** clock readings so far *)
}.
Arguments s_nodes {P}.
Arguments s_jobs {P}.
Arguments s_tasks {P}.
Arguments s_queue {P}.
Arguments s_events {P}.
Arguments s_event_seq {P}.
Arguments s_leader {P}.
Arguments s_gateway {P}.
Arguments s_store {P}.
Arguments s_pending {P}.
Arguments s_writer_alive {P}.
Arguments s_tel {P}.
Arguments s_broadcast {P}.
Arguments s_chans {P}.
Arguments s_next_chan {P}.
Arguments s_ticks {P}.
Arguments Build_Sup {P}.

Section Setters.
Context {P : Type}.
Implicit Types s : Sup P.

Definition set_nodes x s : Sup P :=
  Build_Sup x (s_jobs s) (s_tasks s) (s_queue s) (s_events s) (s_event_seq s) (s_leader s)
    (s_gateway s) (s_store s) (s_pending s) (s_writer_alive s) (s_tel s) (s_broadcast s) (s_chans s)
    (s_next_chan s) (s_ticks s).
Definition set_jobs x s : Sup P :=
  Build_Sup (s_nodes s) x (s_tasks s) (s_queue s) (s_events s) (s_event_seq s) (s_leader s)
    (s_gateway s) (s_store s) (s_pending s) (s_writer_alive s) (s_tel s) (s_broadcast s) (s_chans s)
    (s_next_chan s) (s_ticks s).
Definition set_tasks x s : Sup P :=
  Build_Sup (s_nodes s) (s_jobs s) x (s_queue s) (s_events s) (s_event_seq s) (s_leader s)
    (s_gateway s) (s_store s) (s_pending s) (s_writer_alive s) (s_tel s) (s_broadcast s) (s_chans s)
    (s_next_chan s) (s_ticks s).
Definition set_queue x s : Sup P :=
  Build_Sup (s_nodes s) (s_jobs s) (s_tasks s) x (s_events s) (s_event_seq s) (s_leader s)
    (s_gateway s) (s_store s) (s_pending s) (s_writer_alive s) (s_tel s) (s_broadcast s) (s_chans s)
    (s_next_chan s) (s_ticks s).
Definition set_events x s : Sup P :=
  Build_Sup (s_nodes s) (s_jobs s) (s_tasks s) (s_queue s) x (s_event_seq s) (s_leader s) (s_gateway
    s) (s_store s) (s_pending s) (s_writer_alive s) (s_tel s) (s_broadcast s) (s_chans s)
    (s_next_chan s) (s_ticks s).
Definition set_event_seq x s : Sup P :=
  Build_Sup (s_nodes s) (s_jobs s) (s_tasks s) (s_queue s) (s_events s) x (s_leader s) (s_gateway s)
    (s_store s) (s_pending s) (s_writer_alive s) (s_tel s) (s_broadcast s) (s_chans s) (s_next_chan
    s) (s_ticks s).
Definition set_leader x s : Sup P :=
  Build_Sup (s_nodes s) (s_jobs s) (s_tasks s) (s_queue s) (s_events s) (s_event_seq s) x (s_gateway
    s) (s_store s) (s_pending s) (s_writer_alive s) (s_tel s) (s_broadcast s) (s_chans s)
    (s_next_chan s) (s_ticks s).
Definition set_gateway x s : Sup P :=
  Build_Sup (s_nodes s) (s_jobs s) (s_tasks s) (s_queue s) (s_events s) (s_event_seq s) (s_leader s)
    x (s_store s) (s_pending s) (s_writer_alive s) (s_tel s) (s_broadcast s) (s_chans s)
    (s_next_chan s) (s_ticks s).
Definition set_store x s : Sup P :=
  Build_Sup (s_nodes s) (s_jobs s) (s_tasks s) (s_queue s) (s_events s) (s_event_seq s) (s_leader s)
    (s_gateway s) x (s_pending s) (s_writer_alive s) (s_tel s) (s_broadcast s) (s_chans s)
    (s_next_chan s) (s_ticks s).
Definition set_pending x s : Sup P :=
  Build_Sup (s_nodes s) (s_jobs s) (s_tasks s) (s_queue s) (s_events s) (s_event_seq s) (s_leader s)
    (s_gateway s) (s_store s) x (s_writer_alive s) (s_tel s) (s_broadcast s) (s_chans s)
    (s_next_chan s) (s_ticks s).
Definition set_writer_alive x s : Sup P :=
  Build_Sup (s_nodes s) (s_jobs s) (s_tasks s) (s_queue s) (s_events s) (s_event_seq s) (s_leader s)
    (s_gateway s) (s_store s) (s_pending s) x (s_tel s) (s_broadcast s) (s_chans s) (s_next_chan s)
    (s_ticks s).
Definition set_tel x s : Sup P :=
  Build_Sup (s_nodes s) (s_jobs s) (s_tasks s) (s_queue s) (s_events s) (s_event_seq s) (s_leader s)
    (s_gateway s) (s_store s) (s_pending s) (s_writer_alive s) x (s_broadcast s) (s_chans s)
    (s_next_chan s) (s_ticks s).
Definition set_broadcast x s : Sup P :=
  Build_Sup (s_nodes s) (s_jobs s) (s_tasks s) (s_queue s) (s_events s) (s_event_seq s) (s_leader s)
    (s_gateway s) (s_store s) (s_pending s) (s_writer_alive s) (s_tel s) x (s_chans s) (s_next_chan
    s) (s_ticks s).
Definition set_chans x s : Sup P :=
  Build_Sup (s_nodes s) (s_jobs s) (s_tasks s) (s_queue s) (s_events s) (s_event_seq s) (s_leader s)
    (s_gateway s) (s_store s) (s_pending s) (s_writer_alive s) (s_tel s) (s_broadcast s) x
    (s_next_chan s) (s_ticks s).
Definition set_next_chan x s : Sup P :=
  Build_Sup (s_nodes s) (s_jobs s) (s_tasks s) (s_queue s) (s_events s) (s_event_seq s) (s_leader s)
    (s_gateway s) (s_store s) (s_pending s) (s_writer_alive s) (s_tel s) (s_broadcast s) (s_chans s)
    x (s_ticks s).
Definition set_ticks x s : Sup P :=
  Build_Sup (s_nodes s) (s_jobs s) (s_tasks s) (s_queue s) (s_events s) (s_event_seq s) (s_leader s)
    (s_gateway s) (s_store s) (s_pending s) (s_writer_alive s) (s_tel s) (s_broadcast s) (s_chans s)
    (s_next_chan s) x.
End Setters.

Section Supervisor.
Context {P S L : Type} `{ClusterStore P, StoreMarks P, Scheduler S, Elector L} (E : Env S L).
Implicit Types s : Sup P.

(** ** Plumbing *)
Definition now_of s : Millis := clock E (s_ticks s).
Definition tock s : Sup P := set_ticks (Datatypes.S (s_ticks s)) s.

(** [Writer::push].  The await on a full queue only delays the supervisor. *)
Definition push (w : Write) s : Sup P :=
  let queued := Telemetry_queued (instant E (s_ticks s)) (s_tel s) in
  set_tel (if s_writer_alive s then queued else Telemetry_persistence_error (Telemetry_dequeued queued))
    (set_pending (if s_writer_alive s then s_pending s ++ [w] else s_pending s) s).

Definition persist_task (task : Task) s : Sup P := push (WriteTask task) s.
Definition persist_job (job : Job) s : Sup P := push (WriteJob job) s.
Definition persist_roles (node : NodeId) (roles : RoleSet) s : Sup P :=
  push (WriteRoles node roles (now_of s)) (tock s).

Definition emit (event : ClusterEvent) s : Sup P :=
  let s := set_event_seq (wrap 64 (s_event_seq s + 1)) s in
  let record := EventRecord_new (s_event_seq s) (now_of s) event in
  let s := tock s in
  let s := push (WriteEvent record) s in
  let s := set_broadcast (s_broadcast s ++ [record]) s in
  set_events (s_events s ++ [record]) s.

(** [store.save_task(&task).await] with the result ignored. *)
Definition save_task_inline (task : Task) s : Sup P := set_store (save_task task (s_store s)).2 s.

(** [Sender::try_send]: fails on a full channel and on one whose receiver is gone. *)
Definition try_send (chan : ChanId) (message : NodeInbox) s : bool * Sup P :=
  match s_chans s !! chan with
  | Some mb =>
      if mb_open mb && bool_decide (length (mb_queue mb) < mb_capacity mb)%nat
      then (true, set_chans (<[chan := {| mb_queue := mb_queue mb ++ [message]; mb_capacity := mb_capacity mb;
                                          mb_open := mb_open mb; mb_shutdown := mb_shutdown mb |}]> (s_chans s)) s)
      else (false, s)
  | None => (false, s)
  end.

(** [NodeHandle::terminate]: signal shutdown, and abort the task if there is one
    to abort, which drops the receiver. *)
Definition terminate (h : NodeHandle) s : Sup P :=
  set_chans (alter (fun mb => {| mb_queue := mb_queue mb; mb_capacity := mb_capacity mb;
                                 mb_open := if h_join h then false else mb_open mb;
                                 mb_shutdown := true |}) (h_inbox h) (s_chans s)) s.

(** [self.nodes.get_mut(&id)] with an update of the entry. *)
Definition update_node (id : NodeId) (f : NodeEntry -> NodeEntry) s : Sup P :=
  set_nodes (alter f id (s_nodes s)) s.

(** ** Jobs settle *)
Definition start_job_if_queued (job_id : JobId) s : Sup P :=
  let now := now_of s in
  let s := tock s in
  match s_jobs s !! job_id with
  | None => s
  | Some job =>
      if bool_decide (job_state job = JobState.Queued) then
        match Job_transition_to job JobState.Running now with
        | Ok job => persist_job job (set_jobs (<[job_id := job]> (s_jobs s)) s)
        | Err _ => s
        end
      else s
  end.

Definition settle_job (id : JobId) s : Sup P :=
  let now := now_of s in
  let s := tock s in
  match s_jobs s !! id with
  | None => s
  | Some job =>
      if job_tasks_completed job + job_tasks_failed job <? job_task_count job then s
      else if JobState_is_terminal (job_state job) then s
      else
        let next := if 0 <? job_tasks_failed job then JobState.Failed else JobState.Completed in
        match Job_transition_to job next now with
        | Err _ => s
        | Ok job =>
            let s := set_jobs (<[id := job]> (s_jobs s)) s in
            let s := persist_job job s in
            emit (if bool_decide (next = JobState.Failed) then JobFailed id else JobCompleted id) s
        end
  end.

(** The counter update both ends of a task's life make: the job, if it is still
    in memory, is changed and persisted. *)
Definition count_task (id : JobId) (f : Job -> Job) s : Sup P :=
  match s_jobs s !! id with
  | Some job => persist_job (f job) (set_jobs (<[id := f job]> (s_jobs s)) s)
  | None => s
  end.
Definition one_completed (job : Job) : Job :=
  job_set_counts job (sat_add u16_max (job_tasks_completed job) 1) (job_tasks_failed job).
Definition one_failed (job : Job) : Job :=
  job_set_counts job (job_tasks_completed job) (sat_add u16_max (job_tasks_failed job) 1).

(** ** Failures and retries *)
Definition record_task_failure (task : Task) (reason : FailureReason) (detail : string) s : Sup P :=
  push (WriteFailure (TaskAttempt_new task reason detail (now_of s))) (tock s).

Definition retry_or_give_up (id : TaskId) (now : Millis) s : Sup P :=
  match s_tasks s !! id with
  | None => s
  | Some task =>
      if task_attempt task <? max_task_attempts (config E) then
        match Task_requeue task now with
        | Err _ => s
        | Ok task =>
            let s := set_tasks (<[task_id task := task]> (s_tasks s)) s in
            let s := persist_task task s in
            let s := set_queue (s_queue s ++ [task_id task]) s in
            let s := set_tel (Telemetry_retried (s_tel s)) s in
            emit (TaskRequeued (task_id task)) s
        end
      else
        match Task_fail task now with
        | Err _ => s
        | Ok task =>
            let s := set_tasks (<[task_id task := task]> (s_tasks s)) s in
            let s := persist_task task s in
            let s := count_task (task_job_id task) one_failed s in
            settle_job (task_job_id task) s
        end
  end.

(** One turn of the loop of [requeue_tasks_of]. *)
Definition requeue_one (node : NodeId) (now : Millis) (id : TaskId) s : Sup P :=
  match s_tasks s !! id with
  | None => s
  | Some task =>
      let s := record_task_failure task NodeOffline "node went offline" s in
      let s := emit (TaskFailed id (Some node) NodeOffline) s in
      retry_or_give_up id now s
  end.

Definition tasks_of (node : NodeId) (tasks : gmap N Task) : list TaskId :=
  task_id <$> filter (fun t => task_assigned_to t = Some node /\ TaskState_is_terminal (task_state t) = false)
                (values tasks).

Definition requeue_tasks_of (node : NodeId) s : Sup P :=
  let now := now_of s in
  let s := tock s in
  let affected := tasks_of node (s_tasks s) in
  foldl (fun s id => requeue_one node now id s) s affected.

Definition finish_task (node : NodeId) (id : TaskId) (outcome : TaskOutcome) s : Sup P :=
  let now := now_of s in
  let s := tock s in
  match s_tasks s !! id with
  | None => s
  | Some task =>
      if bool_decide (task_assigned_to task <> Some node) || TaskState_is_terminal (task_state task) then s
      else
        match outcome with
        | OutcomeCompleted output =>
            match Task_complete task output now with
            | Err _ => s
            | Ok task =>
                let s := set_tasks (<[task_id task := task]> (s_tasks s)) s in
                let s := persist_task task s in
                let s := emit (TaskCompleted (task_id task) node) s in
                let s := count_task (task_job_id task) one_completed s in
                settle_job (task_job_id task) s
            end
        | OutcomeFailed reason detail =>
            let s := record_task_failure task reason detail s in
            let s := emit (TaskFailed (task_id task) (Some node) reason) s in
            retry_or_give_up id now s
        end
  end.

(** ** Dispatch *)
Definition busy_nodes (tasks : gmap N Task) : gset NodeId :=
  list_to_set (omap task_assigned_to
    (filter (fun t => task_state t = TaskState.Assigned \/ task_state t = TaskState.Running) (values tasks))).

Definition candidates (nodes : gmap N NodeEntry) (busy : gset NodeId) : list Node :=
  e_node <$> filter (fun e => (is_Some (e_handle e) /\ is_schedulable (e_node e) = true) /\
                              node_id (e_node e) ∉ busy) (values nodes).

(** The send of an assignment to the chosen node's mailbox. *)
Definition send_assign (chosen : NodeId) (task : Task) s : bool * Sup P :=
  match s_nodes s !! chosen ≫= e_handle with
  | Some handle => try_send (h_inbox handle) (InboxAssign task) s
  | None => (false, s)
  end.

Inductive Turn := Stop (s : Sup P) | Continue (busy : gset NodeId) (s : Sup P).

(** One turn of the loop of [dispatch]. *)
Definition dispatch_turn (busy : gset NodeId) s : Turn :=
  match s_queue s with
  | [] => Stop s
  | id :: rest =>
      match s_tasks s !! id with
      | None => Continue busy (set_queue rest s)
      | Some task =>
          match select_node (scheduler E) task (candidates (s_nodes s) busy) with
          | Err _ => Stop s
          | Ok chosen =>
              let s := set_queue rest s in
              let now := now_of s in
              let s := tock s in
              match Task_assign task chosen now with
              | Err _ => Continue busy s
              | Ok task =>
                  match send_assign chosen task s with
                  | (false, s) =>
                      let task := match Task_requeue task now with Ok task => task | Err _ => task end in
                      let s := set_tasks (<[task_id task := task]> (s_tasks s)) s in
                      let s := set_queue (task_id task :: s_queue s) s in
                      Stop (save_task_inline task s)
                  | (true, s) =>
                      let s := set_tasks (<[task_id task := task]> (s_tasks s)) s in
                      let s := persist_task task s in
                      let s := start_job_if_queued (task_job_id task) s in
                      Continue ({[chosen]} ∪ busy) (emit (TaskAssigned (task_id task) chosen) s)
                  end
              end
          end
      end
  end.

Fixpoint dispatch_loop (fuel : nat) (busy : gset NodeId) s : option (Sup P) :=
  match fuel with
  | O => None
  | Datatypes.S fuel =>
      match dispatch_turn busy s with
      | Stop s => Some s
      | Continue busy s => dispatch_loop fuel busy s
      end
  end.

(** A turn that continues has shortened the queue, so the fuel is enough. *)
Definition dispatch s : Sup P :=
  default s (dispatch_loop (Datatypes.S (length (s_queue s))) (busy_nodes (s_tasks s)) s).

(** ** Periodic work *)

(** What the sweep does to one entry, and the transition it notes. *)
Definition sweep_entry (now : Millis) (e : NodeEntry) : NodeEntry * option (NodeId * NodeStatus) :=
  match e_handle e with
  | None => (e, None)
  | Some _ =>
      let next := implied_status (health (config E)) (node_last_seen (e_node e)) now in
      if bool_decide (next <> node_status (e_node e))
      then (with_node (with_status next) e, Some (node_id (e_node e), next))
      else (e, None)
  end.

Definition sweep_transition (s : Sup P) (tr : NodeId * NodeStatus) : Sup P :=
  match tr.2 with
  | Suspect => emit (NodeUnhealthy tr.1) s
  | Offline => requeue_tasks_of tr.1 (emit (NodeLeft tr.1) s)
  | Healthy => emit (NodeRecovered tr.1) s
  | Starting => s
  end.

Definition sweep_health s : Sup P :=
  let now := now_of s in
  let s := tock s in
  let transitions := omap (fun e => (sweep_entry now e).2) (values (s_nodes s)) in
  let s := set_nodes ((fun e => (sweep_entry now e).1) <$> s_nodes s) s in
  foldl sweep_transition s transitions.

(** Who leads, and who is the gateway, for a given registry. *)
Definition healthy_nodes (nodes : gmap N NodeEntry) : list Node :=
  e_node <$> filter (fun e => accepts_work (node_status (e_node e)) = true) (values nodes).
Definition coordinators (nodes : gmap N NodeEntry) : list Node :=
  e_node <$> filter (fun e => accepts_work (node_status (e_node e)) && has_role (e_node e) Coordinator = true)
               (values nodes).
Definition elected (nodes : gmap N NodeEntry) : option NodeId :=
  match elect (elector E) (coordinators nodes) with
  | Some id => Some id
  | None => elect (elector E) (healthy_nodes nodes)
  end.
Definition chosen_gateway (nodes : gmap N NodeEntry) : option NodeId :=
  (fun e => node_id (e_node e)) <$>
    find (fun e => accepts_work (node_status (e_node e)) && has_role (e_node e) Gateway) (values nodes).

Definition refresh_leadership s : Sup P :=
  let new := elected (s_nodes s) in
  let s :=
    if bool_decide (new <> s_leader s) then
      let s := match s_leader s with Some previous => emit (LeaderLost previous) s | None => s end in
      let s := match new with Some node => emit (LeaderElected node) s | None => s end in
      set_leader new s
    else s in
  set_gateway (chosen_gateway (s_nodes s)) s.

Definition removable_jobs (jobs : gmap N Job) : list JobId :=
  take (size jobs - job_buffer (config E))
    (job_id <$> filter (fun j => JobState_is_terminal (job_state j) = true) (values jobs)).

Definition prune_memory s : Sup P :=
  let s := set_events (drop (length (s_events s) - event_buffer (config E)) (s_events s)) s in
  if bool_decide (size (s_jobs s) <= job_buffer (config E))%nat then s
  else
    let removable := removable_jobs (s_jobs s) in
    let s := set_jobs (foldl (fun m id => delete id m) (s_jobs s) removable) s in
    set_tasks (filter (fun kt => task_job_id kt.2 ∉ removable) (s_tasks s)) s.

Definition tick s : Sup P :=
  prune_memory (dispatch (refresh_leadership (sweep_health s))).

(** ** Reports from nodes *)
Definition handle_report (report : NodeReport) s : Sup P :=
  match report with
  | ReportHeartbeat hb =>
      let now := now_of s in
      let s := tock s in
      update_node (hb_node hb)
        (with_node (fun n => node_with (node_status n) (node_roles n) (node_capabilities n) (hb_load hb) now n)) s
  | ReportTaskStarted node task =>
      let now := now_of s in
      let s := tock s in
      match s_tasks s !! task_id task with
      | Some current =>
          if bool_decide (task_assigned_to current = Some node) then
            match Task_start current now with
            | Ok started => persist_task started (set_tasks (<[task_id task := started]> (s_tasks s)) s)
            | Err _ => s
            end
          else s
      | None => s
      end
  | ReportTaskFinished node task outcome => dispatch (finish_task node (task_id task) outcome s)
  end.

(** ** Nodes come and go *)

(** [launch_node] with [spawn_node]: a fresh mailbox with a receiver. *)
Definition launch_node (id : NodeId) s : Sup P :=
  match s_nodes s !! id with
  | None => s
  | Some _ =>
      let chan := s_next_chan s in
      let s := set_next_chan (chan + 1) s in
      let s := set_chans (<[chan := {| mb_queue := []; mb_capacity := INBOX_CAPACITY; mb_open := true;
                                       mb_shutdown := false |}]> (s_chans s)) s in
      let now := now_of s in
      let s := tock s in
      update_node id (fun e =>
        {| e_node := node_with Healthy (node_roles (e_node e)) (node_capabilities (e_node e))
                       NodeLoad_default now (e_node e);
           e_kind := e_kind e; e_handle := Some {| h_inbox := chan; h_join := true |};
           e_heartbeat_paused := false; e_generation := e_generation e |}) s
  end.

(** The lowest id of [1 ..= u16::MAX] no node holds. *)
Definition next_free_id (nodes : gmap N NodeEntry) : option NodeId :=
  find (fun id => bool_decide (nodes !! id = None)) ((fun i => N.of_nat i) <$> seq 1 (N.to_nat u16_max)).

(** The registry entry an anonymous worker is given. *)
Definition anonymous_entry (id : NodeId) (capabilities : NodeCapabilities) (now : Millis) : NodeEntry :=
  {| e_node := with_roles (RoleSet_insert RoleSet_EMPTY Compute).1
                 (with_status Starting (Node_new id capabilities now));
     e_kind := Remote false; e_handle := None; e_heartbeat_paused := false; e_generation := 0 |}.

(** The entry after a successful attach. *)
Definition attached_entry (capabilities : NodeCapabilities) (inbox : ChanId) (now : Millis) (e : NodeEntry) : NodeEntry :=
  {| e_node := node_with Healthy (node_roles (e_node e)) capabilities NodeLoad_default now (e_node e);
     e_kind := e_kind e;
     e_handle := Some {| h_inbox := inbox; h_join := false |};
     e_heartbeat_paused := false;
     e_generation := wrap 64 (e_generation e + 1) |}.

(** The part of [attach_remote] after the connection has its id. *)
Definition attach_named (id : NodeId) (capabilities : NodeCapabilities) (inbox : ChanId) (now : Millis) s :
    Result RemoteAttachment RejectReason * Sup P :=
  match s_nodes s !! id with
  | None => (Err RejectUnknownNode, s)
  | Some entry =>
      match e_kind entry with
      | Simulated => (Err RejectUnknownNode, s)
      | Remote _ =>
          if bool_decide (is_Some (e_handle entry)) && accepts_work (node_status (e_node entry))
          then (Err AlreadyConnected, s)
          else
            let s := match e_handle entry with Some stale => terminate stale s | None => s end in
            let entry := attached_entry capabilities inbox now entry in
            let s := set_nodes (<[id := entry]> (s_nodes s)) s in
            let attachment :=
              {| ra_id := id; ra_interval_ms := heartbeat_interval_ms (health (config E));
                 ra_generation := e_generation entry |} in
            let s := persist_roles id (node_roles (e_node entry)) s in
            let s := emit (NodeJoined id) s in
            let s := refresh_leadership s in
            (Ok attachment, dispatch s)
      end
  end.

Definition attach_remote (id : option NodeId) (capabilities : NodeCapabilities) (inbox : ChanId) s :
    Result RemoteAttachment RejectReason * Sup P :=
  let now := now_of s in
  let s := tock s in
  match id with
  | Some id => attach_named id capabilities inbox now s
  | None =>
      match next_free_id (s_nodes s) with
      | None => (Err Full, s)
      | Some id =>
          attach_named id capabilities inbox now
            (set_nodes (<[id := anonymous_entry id capabilities now]> (s_nodes s)) s)
      end
  end.

(** The entry of a node whose connection or task is gone. *)
Definition offline_entry (e : NodeEntry) : NodeEntry :=
  {| e_node := node_with Offline (node_roles (e_node e)) (node_capabilities (e_node e)) NodeLoad_default
                 (node_last_seen (e_node e)) (e_node e);
     e_kind := e_kind e; e_handle := None; e_heartbeat_paused := e_heartbeat_paused e;
     e_generation := e_generation e |}.

Definition detach_remote (id : NodeId) (generation : N) s : Sup P :=
  match s_nodes s !! id with
  | None => s
  | Some entry =>
      if bool_decide (e_generation entry <> generation) || bool_decide (e_handle entry = None) then s
      else
        let s := set_nodes (<[id := offline_entry entry]> (s_nodes s)) s in
        let s := emit (NodeLeft id) s in
        let s := requeue_tasks_of id s in
        let s :=
          if bool_decide (e_kind entry = Remote true) then s
          else persist_roles id RoleSet_EMPTY (set_nodes (delete id (s_nodes s)) s) in
        dispatch (refresh_leadership s)
  end.

Definition stop_node (id : NodeId) s : Result unit ClusterError * Sup P :=
  match s_nodes s !! id with
  | None => (Err (UnknownNode id), s)
  | Some entry =>
      match e_handle entry with
      | None => (Err (NodeNotRunning id), s)
      | Some handle =>
          let s := terminate handle s in
          let s := set_nodes (<[id := offline_entry entry]> (s_nodes s)) s in
          let s := emit (NodeLeft id) s in
          let s := requeue_tasks_of id s in
          (Ok tt, dispatch (refresh_leadership s))
      end
  end.

Definition start_node (id : NodeId) s : Result unit ClusterError * Sup P :=
  match s_nodes s !! id with
  | None => (Err (UnknownNode id), s)
  | Some entry =>
      if bool_decide (is_Some (e_handle entry)) then (Err (NodeAlreadyRunning id), s)
      else
        match e_kind entry with
        | Remote _ =>
            (Err (Unavailable (NodeId_fmt id +:+ " is a remote worker and rejoins by reconnecting on its own")%string), s)
        | Simulated =>
            let s := launch_node id s in
            let s := emit (NodeJoined id) s in
            (Ok tt, dispatch (refresh_leadership s))
        end
  end.

Definition send_to_node (id : NodeId) (message : NodeInbox) s : Result unit ClusterError * Sup P :=
  match s_nodes s !! id with
  | None => (Err (UnknownNode id), s)
  | Some entry =>
      match e_handle entry with
      | None => (Err (NodeNotRunning id), s)
      | Some handle =>
          match try_send (h_inbox handle) message s with
          | (true, s) => (Ok tt, s)
          | (false, s) => (Err (Unavailable (NodeId_fmt id +:+ " is not responding")%string), s)
          end
      end
  end.

(** ** Commands *)
Definition unavailable (e : StoreError) : ClusterError := Unavailable (StoreError_fmt e).

Definition enqueue_task (s : Sup P) (task : Task) : Sup P :=
  let s := set_queue (s_queue s ++ [task_id task]) s in
  set_tasks (<[task_id task := task]> (s_tasks s)) s.

Definition submit_job (spec : JobSpec) s : Result JobId ClusterError * Sup P :=
  let now := now_of s in
  let s := tock s in
  match allocate spec now (s_store s) with
  | (Err e, p) => (Err (unavailable e), set_store p s)
  | (Ok (job, tasks), p) =>
      match create_job job tasks p with
      | (Err e, p) => (Err (unavailable e), set_store p s)
      | (Ok _, p) =>
          let s := set_store p s in
          let s := set_jobs (<[job_id job := job]> (s_jobs s)) s in
          let s := foldl enqueue_task s tasks in
          let s := emit (JobCreated (job_id job)) s in
          (Ok (job_id job), dispatch s)
      end
  end.

Definition set_role (id : NodeId) (role : Role) (enabled : bool) s : Result unit ClusterError * Sup P :=
  match s_nodes s !! id with
  | None => (Err (UnknownNode id), s)
  | Some entry =>
      let '(roles, changed) :=
        if enabled then RoleSet_insert (node_roles (e_node entry)) role
        else RoleSet_remove (node_roles (e_node entry)) role in
      let s := set_nodes (<[id := with_node (with_roles roles) entry]> (s_nodes s)) s in
      if changed then
        let s := persist_roles id roles s in
        let s := emit (if enabled then RoleAssigned id role else RoleRemoved id role) s in
        (Ok tt, refresh_leadership s)
      else (Ok tt, s)
  end.

Definition index_le (a b : Task) : Prop := task_index a <= task_index b.
#[local] Instance index_le_dec a b : Decision (index_le a b).
Proof. unfold index_le. apply _. Defined.
Definition newest_first (a b : Job) : Prop := job_id b <= job_id a.
#[local] Instance newest_first_dec a b : Decision (newest_first a b).
Proof. unfold newest_first. apply _. Defined.

Definition unwrap_or_default {A} (r : StoreResult (list A)) : list A :=
  match r with Ok l => l | Err _ => [] end.

Definition job_detail (id : JobId) s : option JobDetail :=
  let job :=
    match s_jobs s !! id with
    | Some job => Some job
    | None => match store_job id (s_store s) with Ok found => found | Err _ => None end
    end in
  (fun job =>
    let tasks := filter (fun t => task_job_id t = id) (values (s_tasks s)) in
    let tasks := match tasks with [] => unwrap_or_default (tasks_for_job id (s_store s)) | _ => tasks end in
    {| jd_job := job; jd_tasks := merge_sort index_le tasks;
       jd_failures := unwrap_or_default (failures_for_job id (s_store s)) |}) <$> job.

Definition snapshot s : ClusterSnapshot :=
  let online := filter (fun e => accepts_work (node_status (e_node e)) = true) (values (s_nodes s)) in
  let roles := foldl (fun acc e => foldl RoleCounts_increment acc (RoleSet_iter (node_roles (e_node e))))
                 RoleCounts_default online in
  {| nodes_total := N.of_nat (size (s_nodes s)); nodes_online := N.of_nat (length online);
     snap_roles := roles; snap_policies := policies (config E);
     snap_jobs := foldl (fun acc j => JobCounts_tally acc (job_state j)) JobCounts_default (values (s_jobs s));
     tasks_running := N.of_nat (length (filter (fun t => task_state t = TaskState.Running \/
                                                          task_state t = TaskState.Assigned) (values (s_tasks s))));
     tasks_queued := N.of_nat (length (s_queue s)); snap_leader := s_leader s; snap_gateway := s_gateway s;
     worker_connections := 0; worker_preauth := 0; worker_rejected := 0; persistence_queue := 0;
     persistence_oldest_ms := 0; persistence_errors := 0; jobs_recovered := 0; task_retries := 0 |}.

Definition handle_command (command : Command) s : Reply * Sup P :=
  match command with
  | CmdSnapshot => (ReplySnapshot (snapshot s), s)
  | CmdNodes => (ReplyNodes (e_node <$> values (s_nodes s)), s)
  | CmdNode id => (ReplyNode (e_node <$> s_nodes s !! id), s)
  | CmdEvents limit => (ReplyEvents (take limit (reverse (s_events s))), s)
  | CmdJobs limit => (ReplyJobs (take limit (merge_sort newest_first (values (s_jobs s)))), s)
  | CmdJob id => (ReplyJob (job_detail id s), s)
  | CmdSubmitJob spec => let '(r, s) := submit_job spec s in (ReplySubmit r, s)
  | CmdSetRole node role enabled => let '(r, s) := set_role node role enabled s in (ReplyUnit r, s)
  | CmdStopNode id => let '(r, s) := stop_node id s in (ReplyUnit r, s)
  | CmdStartNode id => let '(r, s) := start_node id s in (ReplyUnit r, s)
  | CmdPauseHeartbeat id paused =>
      let '(r, s) := send_to_node id (InboxPauseHeartbeat paused) s in
      let s := if is_ok r then
                 update_node id (fun e => {| e_node := e_node e; e_kind := e_kind e; e_handle := e_handle e;
                                             e_heartbeat_paused := paused; e_generation := e_generation e |}) s
               else s in
      (ReplyUnit r, s)
  | CmdInjectFailures id count =>
      let '(r, s) := send_to_node id (InboxInjectFailures count) s in (ReplyUnit r, s)
  | CmdAttachRemote id capabilities inbox =>
      let '(r, s) := attach_remote id capabilities inbox s in (ReplyAttach r, s)
  | CmdDetachRemote id generation => (NoReply, detach_remote id generation s)
  | CmdSetTaskDelay id ms =>
      let '(r, s) := send_to_node id (InboxSetDelay ms) s in (ReplyUnit r, s)
  end.

(** ** Startup *)
Definition fresh_entry (id : NodeId) (caps : NodeCapabilities) (status : NodeStatus) (kind : NodeKind) (now : Millis) : NodeEntry :=
  {| e_node := with_status status (Node_new id caps now); e_kind := kind; e_handle := None;
     e_heartbeat_paused := false; e_generation := 0 |}.

(** The registry of in-process nodes; [None] is the index out of bounds that an
    empty [profiles] causes. *)
Fixpoint simulated_nodes (now : Millis) (indices : list nat) (nodes : gmap N NodeEntry) : option (gmap N NodeEntry) :=
  match indices with
  | [] => Some nodes
  | index :: rest =>
      let profiles := profiles (config E) in
      profile ← profiles !! (index mod Nat.max (length profiles) 1)%nat;
      let id := N.of_nat index + 1 in
      simulated_nodes now rest (<[id := fresh_entry id profile Healthy Simulated now]> nodes)
  end.

Definition declare_remote (now : Millis) (nodes : gmap N NodeEntry) (declared : RemoteNode) : gmap N NodeEntry :=
  match nodes !! rn_id declared with
  | Some _ => nodes
  | None => <[rn_id declared := fresh_entry (rn_id declared) (rn_capabilities declared) Offline (Remote true) now]> nodes
  end.

Definition grant (role : Role) (e : NodeEntry) : NodeEntry :=
  with_node (fun n => with_roles (RoleSet_insert (node_roles n) role).1 n) e.

(** The forward scan for a node that does not hold the role yet. *)
Definition place_role (role : Role) (ids : list NodeId) (cursor : nat) (nodes : gmap N NodeEntry) :
    option (nat * gmap N NodeEntry) :=
  offset ← find (fun offset =>
      match ids !! ((cursor + offset) mod length ids)%nat ≫= (fun id => nodes !! id) with
      | Some entry => negb (has_role (e_node entry) role)
      | None => false
      end) (seq 0 (length ids));
  id ← ids !! ((cursor + offset) mod length ids)%nat;
  Some (offset, alter (grant role) id nodes).

Fixpoint place_replicas (role : Role) (ids : list NodeId) (replicas : nat) (cursor : nat) (nodes : gmap N NodeEntry) :
    nat * gmap N NodeEntry :=
  match replicas with
  | O => (cursor, nodes)
  | Datatypes.S replicas =>
      match place_role role ids cursor nodes with
      | Some (offset, nodes) => place_replicas role ids replicas (cursor + offset + 1)%nat nodes
      | None => (cursor, nodes)
      end
  end.

Definition assign_initial_roles (nodes : gmap N NodeEntry) : gmap N NodeEntry :=
  let ids := keys nodes in
  match ids with
  | [] => nodes
  | _ =>
      let nodes := foldl (fun m id => alter (grant Compute) id m) nodes ids in
      (foldl (fun st role =>
          if bool_decide (role = Compute) then st
          else place_replicas role ids (N.to_nat (min_replicas (RolePolicies_get (policies (config E)) role)))
                 st.1 st.2)
        (0%nat, nodes) DEGRADATION_PRIORITY).2
  end.

Definition restore_roles s : Sup P :=
  match load_node_roles (s_store s) with
  | Err _ => s
  | Ok stored =>
      set_nodes (foldl (fun m idr => alter (with_node (with_roles idr.2)) idr.1 m) (s_nodes s) stored) s
  end.

Definition RECOVERY_PAGE : nat := 200.

Abbreviation Restored := (gmap N (Job * list Task)).
Definition collect (m : Restored) (jt : Job * list Task) : Restored := <[job_id jt.1 := jt]> m.

(** The paging loop; [None] when the fuel ran out. *)
Fixpoint restore_pages (fuel : nat) (after : option JobId) (p : P) (restored : Restored) : option Restored :=
  match fuel with
  | O => None
  | Datatypes.S fuel =>
      match unfinished_jobs_page after RECOVERY_PAGE p with
      | Err _ => Some restored
      | Ok page =>
          match last page with
          | None => Some restored
          | Some (job, _) =>
              let restored := foldl collect restored page in
              if bool_decide (length page = RECOVERY_PAGE)
              then restore_pages fuel (Some (job_id job)) p restored
              else Some restored
          end
      end
  end.

Definition restored_jobs (p : P) (recent : list Job) : Restored :=
  let restored := foldl (fun m job => collect m (job, unwrap_or_default (tasks_for_job (job_id job) p))) ∅ recent in
  default restored (restore_pages (Datatypes.S (N.to_nat (job_mark p))) None p restored).

Definition restore_task (unfinished : bool) (now : Millis) (s : Sup P) (task : Task) : Sup P :=
  if unfinished && negb (TaskState_is_terminal (task_state task)) then
    let task := task_with task TaskState.Queued None (task_attempt task) (task_output task) now in
    let s := save_task_inline task s in
    let s := set_queue (s_queue s ++ [task_id task]) s in
    set_tasks (<[task_id task := task]> (s_tasks s)) s
  else set_tasks (<[task_id task := task]> (s_tasks s)) s.

Definition restore_job (now : Millis) (s : Sup P) (jt : Job * list Task) : Sup P :=
  let unfinished := negb (JobState_is_terminal (job_state jt.1)) in
  let s := set_jobs (<[job_id jt.1 := jt.1]> (s_jobs s)) s in
  foldl (restore_task unfinished now) s jt.2.

Definition restore_jobs s : Sup P :=
  match recent_jobs (job_buffer (config E)) (s_store s) with
  | Err _ => s
  | Ok recent =>
      let now := now_of s in
      let s := tock s in
      let restored := restored_jobs (s_store s) recent in
      let recovered := length (filter (fun jt => JobState_is_terminal (job_state jt.1) = false) (values restored)) in
      let s := set_tel (Telemetry_recovered (N.of_nat recovered) (s_tel s)) s in
      foldl (restore_job now) s (values restored)
  end.

Definition bootstrap_node (s : Sup P) (id : NodeId) : Sup P :=
  match s_nodes s !! id with
  | None => s
  | Some entry =>
      let s := persist_roles id (node_roles (e_node entry)) s in
      if bool_decide (e_kind entry = Simulated) then emit (NodeJoined id) (launch_node id s) else s
  end.

(** [Supervisor::new], on a store that may hold the record of an earlier run. *)
Definition Supervisor_new (p : P) : Sup P :=
  {| s_nodes := ∅; s_jobs := ∅; s_tasks := ∅; s_queue := []; s_events := []; s_event_seq := 0;
     s_leader := None; s_gateway := None; s_store := p; s_pending := []; s_writer_alive := true;
     s_tel := Telemetry_default; s_broadcast := []; s_chans := ∅; s_next_chan := 0; s_ticks := 0 |}.

Definition bootstrap s : option (Sup P) :=
  let s := set_event_seq (match last_seq (s_store s) with Ok n => n | Err _ => 0 end) s in
  let now := now_of s in
  let s := tock s in
  nodes ← simulated_nodes now (seq 0 (N.to_nat (node_count (config E)))) (s_nodes s);
  let nodes := foldl (declare_remote now) nodes (remote_nodes (config E)) in
  let s := set_nodes (assign_initial_roles nodes) s in
  let s := restore_roles s in
  let s := foldl bootstrap_node s (keys (s_nodes s)) in
  Some (refresh_leadership (restore_jobs s)).

(** [shutdown]: every handle is asked to stop, and the registry is emptied. *)
Definition shutdown s : Sup P :=
  let nodes := s_nodes s in
  foldl (fun s e =>
      match e_handle e with
      | Some h => set_chans (alter (fun mb => {| mb_queue := mb_queue mb; mb_capacity := mb_capacity mb;
                                                 mb_open := if h_join h then false else mb_open mb;
                                                 mb_shutdown := true |}) (h_inbox h) (s_chans s)) s
      | None => s
      end) (set_nodes ∅ s) (values nodes).

(** ** The event loop

    A step is one turn of the [select!] of [run], or something that happens
    beside it: the writer task applies the oldest pending write or dies, a
    connection opens a mailbox, a node takes a message from one or drops it. *)
Inductive Input :=
| OnCommand (c : Command)
| OnReport (r : NodeReport)
| OnTick
| EnvDrain
| EnvWriterDies
| EnvOpen (capacity : nat)
| EnvReceive (chan : ChanId)
| EnvClose (chan : ChanId).

Definition step (i : Input) s : Sup P :=
  match i with
  | OnCommand c => (handle_command c s).2
  | OnReport r => handle_report r s
  | OnTick => tick s
  | EnvDrain =>
      match s_pending s with
      | [] => s
      | w :: rest =>
          let '(p, t) := drain_one w (s_store s) (s_tel s) in
          set_tel t (set_store p (set_pending rest s))
      end
  | EnvWriterDies => set_writer_alive false s
  | EnvOpen capacity =>
      set_next_chan (s_next_chan s + 1)
        (set_chans (<[s_next_chan s := {| mb_queue := []; mb_capacity := capacity; mb_open := true;
                                          mb_shutdown := false |}]> (s_chans s)) s)
  | EnvReceive chan =>
      set_chans (alter (fun mb => {| mb_queue := tail (mb_queue mb); mb_capacity := mb_capacity mb;
                                     mb_open := mb_open mb; mb_shutdown := mb_shutdown mb |}) chan (s_chans s)) s
  | EnvClose chan =>
      set_chans (alter (fun mb => {| mb_queue := []; mb_capacity := mb_capacity mb;
                                     mb_open := false; mb_shutdown := mb_shutdown mb |}) chan (s_chans s)) s
  end.

(** A submitted task count is a [u16]. *)
Definition typed_input (i : Input) : Prop :=
  match i with
  | OnCommand (CmdSubmitJob spec) => JobSpec_task_count spec <= u16_max
  | _ => True
  end.

(** The states a run of the supervisor goes through. *)
Inductive reachable (s0 : Sup P) : Sup P -> Prop :=
| reach_init : reachable s0 s0
| reach_step i s : reachable s0 s -> typed_input i -> reachable s0 (step i s).

Definition run (inputs : list Input) s : Sup P := foldl (fun s i => step i s) s inputs.
End Supervisor.
