(* ===== verification/SupervisorInv.v ===== *)
(** * The supervisor's invariant

    What holds of the registry, the job and task tables and the queue between
    any two turns of the event loop, whatever commands and reports arrive: the
    queue holds exactly the queued tasks, a task in flight is on a live node and
    alone there, and a job's counters and state are those of its tasks.  The
    handlers are followed one by one; the bulk of the work is [replace_task], the
    lemma all single-task updates share. *)
From stdpp Require Import prelude gmap sorting.
From S2P Require Import Prelude Time Role Node Job Event Scheduler Store Snapshot Protocol Supervisor.

(** ** The invariant *)
Definition of_job (j : JobId) (st : TaskState -> bool) (t : Task) : Prop :=
  task_job_id t = j /\ st (task_state t) = true.
#[export] Instance of_job_dec j st t : Decision (of_job j st t).
Proof. unfold of_job. apply _. Defined.

Definition is_completed (st : TaskState) : bool := match st with TaskState.Completed => true | _ => false end.
Definition is_failed (st : TaskState) : bool := match st with TaskState.Failed => true | _ => false end.
Definition any_state (_ : TaskState) : bool := true.

Definition tally (j : JobId) (st : TaskState -> bool) (tasks : gmap N Task) : N :=
  N.of_nat (count (of_job j st) tasks).

(** The job's counters are counts of its tasks, and its state says what they add up to. *)
Definition job_ok (tasks : gmap N Task) (j : JobId) (job : Job) : Prop :=
  job_tasks_completed job = tally j is_completed tasks /\
  job_tasks_failed job = tally j is_failed tasks /\
  job_task_count job = tally j any_state tasks /\
  1 <= job_task_count job <= u16_max /\
  match job_state job with
  | JobState.Queued => forall id t, tasks !! id = Some t -> task_job_id t = j -> task_state t = TaskState.Queued
  | JobState.Running => job_tasks_completed job + job_tasks_failed job < job_task_count job
  | JobState.Completed => job_tasks_completed job = job_task_count job /\ job_tasks_failed job = 0
  | JobState.Failed => job_tasks_completed job + job_tasks_failed job = job_task_count job /\ 0 < job_tasks_failed job
  | JobState.Cancelled => False
  end.

(** A node that may hold work: reachable, and not declared offline. *)
Definition live (nodes : gmap N NodeEntry) (n : NodeId) : Prop :=
  exists e, nodes !! n = Some e /\ is_Some (e_handle e) /\
    (node_status (e_node e) = Healthy \/ node_status (e_node e) = Suspect).

Definition in_flight (t : Task) : Prop := held (task_state t) = true.

(** [X] are the nodes whose work is about to be requeued; it is empty between turns. *)
Record Good (X : NodeId -> Prop) (nodes : gmap N NodeEntry) (jobs : gmap N Job) (tasks : gmap N Task)
    (queue : list TaskId) : Prop := {
  good_nodes : keyed (fun e => node_id (e_node e)) nodes;
  good_jobs : keyed job_id jobs;
  good_tasks : keyed task_id tasks;
  good_wf : map_Forall (fun _ t => Task_wf t) tasks;
  good_queue_NoDup : NoDup queue;
  good_queue : forall id, id ∈ queue <-> exists t, tasks !! id = Some t /\ task_state t = TaskState.Queued;
  good_held : forall id t, tasks !! id = Some t -> in_flight t ->
    exists n, task_assigned_to t = Some n /\ (X n \/ live nodes n);
  good_one : forall id1 t1 id2 t2, tasks !! id1 = Some t1 -> tasks !! id2 = Some t2 ->
    in_flight t1 -> in_flight t2 -> task_assigned_to t1 = task_assigned_to t2 -> id1 = id2;
  good_owner : forall id t, tasks !! id = Some t -> is_Some (jobs !! task_job_id t);
  good_job : forall j job, jobs !! j = Some job -> job_ok tasks j job
}.

(** Identifiers in memory were handed out by the store. *)
Definition Marked {P} `{StoreMarks P} (jobs : gmap N Job) (tasks : gmap N Task) (p : P) : Prop :=
  store_wf p /\ map_Forall (fun j _ => j < job_mark p) jobs /\ map_Forall (fun id _ => id < task_mark p) tasks.

Definition nobody : NodeId -> Prop := fun _ => False.

Definition Inv {P} `{StoreMarks P} (s : Sup P) : Prop :=
  Good nobody (s_nodes s) (s_jobs s) (s_tasks s) (s_queue s) /\ Marked (s_jobs s) (s_tasks s) (s_store s).

(** ** Counting *)
Lemma count_replace (Q : Task -> Prop) `{forall t, Decision (Q t)} tasks id t t' :
  tasks !! id = Some t ->
  (weight Q (Some t) + count Q (<[id := t']> tasks) = weight Q (Some t') + count Q tasks)%nat.
Proof. intros Hid. rewrite <-Hid. apply count_insert. Qed.

Lemma count_same (Q : Task -> Prop) `{forall t, Decision (Q t)} tasks id t t' :
  tasks !! id = Some t -> (Q t <-> Q t') -> count Q (<[id := t']> tasks) = count Q tasks.
Proof.
  intros Hid HQ. pose proof (count_replace Q _ _ _ t' Hid) as Hc. unfold weight in Hc.
  destruct (decide (Q t)), (decide (Q t')); naive_solver lia.
Qed.

Definition one_if (b : bool) : N := if b then 1 else 0.

(** What task [t] adds to the tally of [j]. *)
Definition share (j : JobId) (st : TaskState -> bool) (t : Task) : N :=
  if decide (task_job_id t = j) then one_if (st (task_state t)) else 0.

Lemma weight_of_job j st t : N.of_nat (weight (of_job j st) (Some t)) = share j st t.
Proof.
  unfold weight, share, one_if. destruct (decide (of_job j st t)) as [[Hj Hs]|Hn].
  - by rewrite decide_True, Hs.
  - destruct (decide (task_job_id t = j)); [|done]. destruct (st (task_state t)) eqn:?; [|done].
    exfalso. by apply Hn.
Qed.

Lemma tally_replace tasks id t t' j st :
  tasks !! id = Some t -> tally j st (<[id := t']> tasks) + share j st t = tally j st tasks + share j st t'.
Proof.
  intros Hid. pose proof (count_replace (of_job j st) _ _ _ t' Hid) as Hc.
  rewrite <-!weight_of_job. unfold tally. lia.
Qed.

Lemma tally_insert tasks id t j st :
  tasks !! id = None -> tally j st (<[id := t]> tasks) = share j st t + tally j st tasks.
Proof. intros Hid. unfold tally. rewrite count_insert_None by done. rewrite <-weight_of_job. lia. Qed.

Lemma tally_pos tasks id t j st :
  tasks !! id = Some t -> of_job j st t -> 0 < tally j st tasks.
Proof. intros Hid Ht. assert (0 < count (of_job j st) tasks)%nat by (apply count_pos; eauto). unfold tally. lia. Qed.

Definition is_open (st : TaskState) : bool := negb (TaskState_is_terminal st).

(** Every task of a job is completed, failed or still open. *)
Lemma tally_partition tasks j :
  tally j is_completed tasks + tally j is_failed tasks + tally j is_open tasks = tally j any_state tasks.
Proof.
  induction tasks as [|id t tasks Hid IH] using map_ind.
  - unfold tally. by rewrite !count_empty.
  - rewrite !tally_insert by done. unfold share. destruct (decide (task_job_id t = j)); [|lia].
    destruct (task_state t); cbn; lia.
Qed.

Lemma open_task_unsettled tasks j job id t :
  job_tasks_completed job = tally j is_completed tasks -> job_tasks_failed job = tally j is_failed tasks ->
  job_task_count job = tally j any_state tasks ->
  tasks !! id = Some t -> task_job_id t = j -> is_open (task_state t) = true ->
  job_tasks_completed job + job_tasks_failed job < job_task_count job.
Proof.
  intros -> -> -> Hid Hj Ho. rewrite <-tally_partition. pose proof (tally_pos tasks id t j is_open Hid ltac:(done)). lia.
Qed.

(** A job with a task in flight is running; a job with an open task is not settled. *)
Lemma job_ok_open tasks j job id t :
  job_ok tasks j job -> tasks !! id = Some t -> task_job_id t = j -> is_open (task_state t) = true ->
  (job_state job = JobState.Queued /\ task_state t = TaskState.Queued \/ job_state job = JobState.Running) /\
  job_tasks_completed job + job_tasks_failed job < job_task_count job.
Proof.
  intros (Hc & Hf & Hn & _ & Hst) Hid Hj Ho.
  pose proof (open_task_unsettled _ _ _ _ _ Hc Hf Hn Hid Hj Ho) as Hlt. split; [|done].
  destruct (job_state job); [left; eauto|by right|exfalso..]; [lia|lia|done].
Qed.

Lemma in_flight_open t : in_flight t -> is_open (task_state t) = true.
Proof. unfold in_flight. by destruct (task_state t). Qed.

Lemma job_ok_in_flight tasks j job id t :
  job_ok tasks j job -> tasks !! id = Some t -> task_job_id t = j -> in_flight t ->
  job_state job = JobState.Running /\ job_tasks_completed job + job_tasks_failed job < job_task_count job.
Proof.
  intros Hok Hid Hj Hf. destruct (job_ok_open _ _ _ _ _ Hok Hid Hj (in_flight_open _ Hf)) as [[[_ Hq]|] ?]; [|done].
  unfold in_flight in Hf. by rewrite Hq in Hf.
Qed.

(** A settled job has no open task. *)
Lemma job_ok_terminal tasks j job id t :
  job_ok tasks j job -> JobState_is_terminal (job_state job) = true ->
  tasks !! id = Some t -> task_job_id t = j -> is_open (task_state t) = false.
Proof.
  intros Hok Ht Hid Hj. destruct (is_open (task_state t)) eqn:Ho; [|done].
  destruct (job_ok_open _ _ _ _ _ Hok Hid Hj Ho) as [[[Hs _]|Hs] _]; by rewrite Hs in Ht.
Qed.

(** ** One task changes *)
Lemma job_ok_other tasks id t t' j job :
  job_ok tasks j job -> tasks !! id = Some t -> task_job_id t' = task_job_id t -> task_job_id t <> j ->
  job_ok (<[id := t']> tasks) j job.
Proof.
  intros (Hc & Hf & Hn & Hb & Hst) Hid Hj Hne.
  assert (forall st, tally j st (<[id := t']> tasks) = tally j st tasks) as Ht.
  { intros st. pose proof (tally_replace _ _ _ t' j st Hid) as Hr. unfold share in Hr.
    rewrite !decide_False in Hr by congruence. lia. }
  unfold job_ok. rewrite !Ht. split_and!; try tauto.
  destruct (job_state job); try done. intros i u Hi Hu.
  destruct (decide (i = id)) as [->|]; [rewrite lookup_insert_eq in Hi; simplify_eq; congruence|].
  rewrite lookup_insert_ne in Hi by done. eauto.
Qed.

Lemma job_ok_update tasks id t t' job job' :
  job_ok tasks (task_job_id t) job -> tasks !! id = Some t -> task_job_id t' = task_job_id t ->
  job_task_count job' = job_task_count job ->
  job_tasks_completed job' + one_if (is_completed (task_state t)) =
    job_tasks_completed job + one_if (is_completed (task_state t')) ->
  job_tasks_failed job' + one_if (is_failed (task_state t)) =
    job_tasks_failed job + one_if (is_failed (task_state t')) ->
  match job_state job' with
  | JobState.Queued => job_state job = JobState.Queued /\ task_state t' = TaskState.Queued
  | JobState.Running => job_tasks_completed job' + job_tasks_failed job' < job_task_count job'
  | JobState.Completed => job_tasks_completed job' = job_task_count job' /\ job_tasks_failed job' = 0
  | JobState.Failed => job_tasks_completed job' + job_tasks_failed job' = job_task_count job' /\ 0 < job_tasks_failed job'
  | JobState.Cancelled => False
  end ->
  job_ok (<[id := t']> tasks) (task_job_id t) job'.
Proof.
  intros (Hc & Hf & Hn & Hb & Hst) Hid Hj Hcnt Hc' Hf' Hs.
  assert (forall st, tally (task_job_id t) st (<[id := t']> tasks) + one_if (st (task_state t)) =
    tally (task_job_id t) st tasks + one_if (st (task_state t'))) as Ht.
  { intros st. pose proof (tally_replace _ _ _ t' (task_job_id t) st Hid) as Hr. unfold share in Hr.
    rewrite !decide_True in Hr by congruence. done. }
  pose proof (Ht is_completed). pose proof (Ht is_failed). pose proof (Ht any_state) as Ha. cbn in Ha.
  split_and!; [lia..|]. destruct (job_state job'); try done. destruct Hs as [Hq Hq'].
  rewrite Hq in Hst. intros i u Hi Hu.
  destruct (decide (i = id)) as [->|]; [rewrite lookup_insert_eq in Hi; by simplify_eq|].
  rewrite lookup_insert_ne in Hi by done. eauto.
Qed.

(** Replacing one task and its job's record, with the queue adjusted to match. *)
Lemma replace_task X nodes jobs tasks queue queue' id t t' job' :
  Good X nodes jobs tasks queue ->
  tasks !! id = Some t -> task_id t' = id -> task_job_id t' = task_job_id t -> Task_wf t' ->
  job_id job' = task_job_id t -> job_ok (<[id := t']> tasks) (task_job_id t) job' ->
  NoDup queue' ->
  (forall i, i ∈ queue' <-> if decide (i = id) then task_state t' = TaskState.Queued else i ∈ queue) ->
  (in_flight t' ->
     in_flight t /\ task_assigned_to t' = task_assigned_to t \/
     exists n, task_assigned_to t' = Some n /\ live nodes n /\
       forall i u, tasks !! i = Some u -> in_flight u -> task_assigned_to u <> Some n) ->
  Good X nodes (<[task_job_id t := job']> jobs) (<[id := t']> tasks) queue'.
Proof.
  intros G Hid Hid' Hj Hwf Hjid Hok Hnd Hq Hfl. destruct G. constructor; auto.
  - by apply keyed_insert.
  - by apply keyed_insert.
  - by apply map_Forall_insert_2.
  - intros i. rewrite Hq. destruct (decide (i = id)) as [->|Hne].
    + rewrite lookup_insert_eq. split; [by eauto|]. by intros (? & [= <-] & ?).
    + rewrite lookup_insert_ne by done. apply good_queue0.
  - intros i u Hi Hu. destruct (decide (i = id)) as [->|Hne].
    + rewrite lookup_insert_eq in Hi. simplify_eq. destruct (Hfl Hu) as [[Ht ->]|(n & ? & ? & _)]; eauto.
    + rewrite lookup_insert_ne in Hi by done. eauto.
  - assert (forall i u, tasks !! i = Some u -> in_flight u -> in_flight t' ->
      task_assigned_to u = task_assigned_to t' -> i = id) as Huniq.
    { intros i u Hi Hu Ht' Ha. destruct (Hfl Ht') as [[Ht Heq]|(n & Hn & _ & Hno)].
      - eapply good_one0; eauto; congruence.
      - exfalso. eapply Hno; eauto; congruence. }
    intros i1 u1 i2 u2 H1 H2 F1 F2 Ha.
    apply lookup_insert_Some in H1 as [[<- <-]|[N1 H1]];
      apply lookup_insert_Some in H2 as [[<- <-]|[N2 H2]]; [done|symmetry| |]; eauto.
  - intros i u Hi. destruct (decide (task_job_id u = task_job_id t)) as [->|Hne]; [rewrite lookup_insert_eq; eauto|].
    rewrite lookup_insert_ne by done. destruct (decide (i = id)) as [->|].
    + rewrite lookup_insert_eq in Hi. congruence.
    + rewrite lookup_insert_ne in Hi by done. eauto.
  - intros j job Hjob. destruct (decide (j = task_job_id t)) as [->|Hne].
    + rewrite lookup_insert_eq in Hjob. by simplify_eq.
    + rewrite lookup_insert_ne in Hjob by done. eapply job_ok_other; eauto.
Qed.

(** ** The handlers, one by one *)
Section Handlers.
Context {P S L : Type} `{ClusterStoreLaws P} `{SchedulerLaws S} `{Elector L} (E : Env S L).
Implicit Types s : Sup P.

(** No job or task appears or disappears, and the store only moves on. *)
Definition Kept s s' : Prop :=
  store_le (s_store s) (s_store s') /\ dom (s_jobs s') = dom (s_jobs s) /\ dom (s_tasks s') = dom (s_tasks s).

(** What a handler that only moves tasks about leaves alone. *)
Definition Frame s s' : Prop := s_nodes s' = s_nodes s /\ Kept s s'.

#[local] Instance Kept_preorder : PreOrder Kept.
Proof.
  split; [done|]. intros s1 s2 s3 (? & ? & ?) (? & ? & ?). split_and!; [by etrans|congruence..].
Qed.

#[local] Instance Frame_preorder : PreOrder Frame.
Proof.
  split; [done|]. intros s1 s2 s3 [? K1] [? K2]. split; [congruence|]. by rewrite K1.
Qed.

Lemma Marked_kept s s' :
  Kept s s' -> Marked (s_jobs s) (s_tasks s) (s_store s) -> Marked (s_jobs s') (s_tasks s') (s_store s').
Proof.
  intros ((Hwf & Hj & Ht) & Hdj & Hdt) (Hw & Hjobs & Htasks). split_and!; [by apply Hwf| |].
  - intros j job Hjob. assert (j ∈ dom (s_jobs s)) as [job0 Hj0]%elem_of_dom
      by (rewrite <-Hdj; by apply elem_of_dom_2 in Hjob). specialize (Hjobs j job0 Hj0). cbn in Hjobs. lia.
  - intros id t Hid. assert (id ∈ dom (s_tasks s)) as [t0 Ht0]%elem_of_dom
      by (rewrite <-Hdt; by apply elem_of_dom_2 in Hid). specialize (Htasks id t0 Ht0). cbn in Htasks. lia.
Qed.

Abbreviation GoodS X s := (Good X (s_nodes s) (s_jobs s) (s_tasks s) (s_queue s)).

Lemma dom_replace {A} (m : gmap N A) k v w : m !! k = Some v -> dom (<[k := w]> m) = dom m.
Proof. intros Hk. rewrite dom_insert_L. apply elem_of_dom_2 in Hk. set_solver. Qed.

(** *** Jobs *)
Definition settled (now : Millis) (job : Job) : Job :=
  if job_tasks_completed job + job_tasks_failed job <? job_task_count job then job
  else if JobState_is_terminal (job_state job) then job
  else match Job_transition_to job (if 0 <? job_tasks_failed job then JobState.Failed else JobState.Completed) now with
       | Ok job => job
       | Err _ => job
       end.

Lemma settle_job_eq j job s :
  s_jobs s !! j = Some job ->
  let s' := settle_job E j s in
  s_jobs s' = <[j := settled (now_of E s) job]> (s_jobs s) /\
  s_nodes s' = s_nodes s /\ s_tasks s' = s_tasks s /\ s_queue s' = s_queue s /\ s_store s' = s_store s.
Proof.
  intros Hj. unfold settle_job, settled. cbn [s_jobs tock set_ticks]. rewrite Hj.
  destruct (_ <? _); [by rewrite insert_id|]. destruct (JobState_is_terminal _); [by rewrite insert_id|].
  destruct (Job_transition_to _ _ _); [done|]. by rewrite insert_id.
Qed.

Lemma count_task_eq j f job s :
  s_jobs s !! j = Some job ->
  let s' := count_task E j f s in
  s_jobs s' = <[j := f job]> (s_jobs s) /\
  s_nodes s' = s_nodes s /\ s_tasks s' = s_tasks s /\ s_queue s' = s_queue s /\ s_store s' = s_store s.
Proof. intros Hj. unfold count_task. by rewrite Hj. Qed.

Lemma count_settle_eq j f job s :
  s_jobs s !! j = Some job ->
  let s' := settle_job E j (count_task E j f s) in
  exists now, s_jobs s' = <[j := settled now (f job)]> (s_jobs s) /\
  s_nodes s' = s_nodes s /\ s_tasks s' = s_tasks s /\ s_queue s' = s_queue s /\ s_store s' = s_store s.
Proof.
  intros Hj s'. destruct (count_task_eq j f job s Hj) as (Hjobs & Hn & Ht & Hq & Hs).
  destruct (settle_job_eq j (f job) (count_task E j f s)) as (Hjobs' & Hn' & Ht' & Hq' & Hs').
  { rewrite Hjobs. apply lookup_insert_eq. }
  exists (now_of E (count_task E j f s)). subst s'. rewrite Hjobs', Hjobs, insert_insert_eq. 
  split_and!; congruence.
Qed.

(** A job whose last open task settles takes the state its counters call for. *)
Lemma settled_ok now job :
  job_state job = JobState.Running ->
  job_tasks_completed job + job_tasks_failed job <= job_task_count job ->
  let job' := settled now job in
  job_id job' = job_id job /\ job_task_count job' = job_task_count job /\
  job_tasks_completed job' = job_tasks_completed job /\ job_tasks_failed job' = job_tasks_failed job /\
  match job_state job' with
  | JobState.Running => job_tasks_completed job + job_tasks_failed job < job_task_count job
  | JobState.Completed => job_tasks_completed job = job_task_count job /\ job_tasks_failed job = 0
  | JobState.Failed => job_tasks_completed job + job_tasks_failed job = job_task_count job /\ 0 < job_tasks_failed job
  | _ => False
  end.
Proof.
  intros Hr Hle. unfold settled.
  destruct (N.ltb_spec (job_tasks_completed job + job_tasks_failed job) (job_task_count job)); [by rewrite Hr|].
  rewrite Hr. cbn [JobState_is_terminal]. unfold Job_transition_to. rewrite Hr.
  destruct (N.ltb_spec 0 (job_tasks_failed job)); rewrite bool_decide_eq_false_2 by done;
    cbn [JobState_can_transition_to negb job_set_state job_state job_id job_task_count
         job_tasks_completed job_tasks_failed]; split_and!; try done; lia.
Qed.

Lemma keyed_job X s id t :
  GoodS X s -> s_tasks s !! id = Some t ->
  exists job, s_jobs s !! task_job_id t = Some job /\ job_id job = task_job_id t /\ job_ok (s_tasks s) (task_job_id t) job.
Proof.
  intros G Hid. destruct (good_owner _ _ _ _ _ G id t Hid) as [job Hjob]. exists job.
  split_and!; [done|by apply (good_jobs _ _ _ _ _ G)|by apply (good_job _ _ _ _ _ G)].
Qed.

(** The end of a task in flight: [t'] is terminal and its job is counted and settled. *)
Lemma end_task X s id t t' f completed failed :
  GoodS X s -> s_tasks s !! id = Some t -> in_flight t ->
  task_id t' = id -> task_job_id t' = task_job_id t -> Task_wf t' ->
  completed = one_if (is_completed (task_state t')) -> failed = one_if (is_failed (task_state t')) ->
  completed + failed = 1 ->
  (forall job, job_ok (s_tasks s) (task_job_id t) job -> job_tasks_completed job + job_tasks_failed job < job_task_count job ->
    f job = job_set_counts job (job_tasks_completed job + completed) (job_tasks_failed job + failed)) ->
  forall s1, s_nodes s1 = s_nodes s -> s_jobs s1 = s_jobs s -> s_tasks s1 = <[id := t']> (s_tasks s) ->
    s_queue s1 = s_queue s -> s_store s1 = s_store s ->
  let s' := settle_job E (task_job_id t') (count_task E (task_job_id t') f s1) in
  GoodS X s' /\ Frame s s' /\ s_tasks s' = <[id := t']> (s_tasks s).
Proof.
  intros G Hid Hfl Hid' Hj' Hwf Hc Hf Hsum Hfj s1 Hn1 Hj1 Ht1 Hq1 Hs1 s'.
  destruct (keyed_job X s id t G Hid) as (job & Hjob & Hjid & Hok).
  destruct (job_ok_in_flight _ _ _ _ _ Hok Hid eq_refl Hfl) as [Hrun Hlt].
  destruct (count_settle_eq (task_job_id t') f job s1) as (now & Hjobs & Hn & Ht & Hq & Hst); [congruence|].
  fold s' in Hjobs, Hn, Ht, Hq, Hst.
  specialize (Hfj job Hok Hlt).
  destruct (settled_ok now (f job)) as (Hsid & Hsn & Hsc & Hsf & Hss); [by rewrite Hfj|rewrite Hfj; cbn; lia|].
  assert (task_state t' = TaskState.Completed \/ task_state t' = TaskState.Failed) as Hterm.
  { destruct (task_state t'); cbn in *; auto; lia. }
  split; [|split].
  - rewrite Hn, Hq, Hjobs, Ht, Hn1, Hq1, Hj1, Ht1, Hj'.
    eapply replace_task; eauto.
    + rewrite Hsid, Hfj. done.
    + eapply job_ok_update; eauto; rewrite ?Hsn, ?Hsc, ?Hsf, ?Hfj; cbn [job_task_count job_tasks_completed job_tasks_failed job_set_counts].
      * done.
      * unfold in_flight in Hfl. rewrite Hc. destruct (task_state t); cbn in *; try done; lia.
      * unfold in_flight in Hfl. rewrite Hf. destruct (task_state t); cbn in *; try done; lia.
      * rewrite Hfj in Hss. cbn in Hss. by rewrite Hfj in *; destruct (job_state (settled now _)).
    + by apply (good_queue_NoDup _ _ _ _ _ G).
    + intros i. destruct (decide (i = id)) as [->|]; [|done].
      rewrite (good_queue _ _ _ _ _ G). split; [|by destruct Hterm; congruence].
      intros (u & Hu & Hq'). simplify_eq. unfold in_flight in Hfl. by rewrite Hq' in Hfl.
    + unfold in_flight. by destruct Hterm as [-> | ->].
  - unfold Frame, Kept. split_and!; [congruence|rewrite Hst, Hs1; done| |].
    + rewrite Hjobs, Hj1. eapply dom_replace. rewrite Hj'. exact Hjob.
    + rewrite Ht, Ht1. by eapply dom_replace.
  - congruence.
Qed.

Lemma one_failed_eq tasks j job :
  job_ok tasks j job -> job_tasks_completed job + job_tasks_failed job < job_task_count job ->
  one_failed job = job_set_counts job (job_tasks_completed job + 0) (job_tasks_failed job + 1).
Proof. intros (_ & _ & _ & [_ Hmax] & _) Hlt. unfold one_failed. rewrite sat_add_small, N.add_0_r by lia. done. Qed.

Lemma one_completed_eq tasks j job :
  job_ok tasks j job -> job_tasks_completed job + job_tasks_failed job < job_task_count job ->
  one_completed job = job_set_counts job (job_tasks_completed job + 1) (job_tasks_failed job + 0).
Proof. intros (_ & _ & _ & [_ Hmax] & _) Hlt. unfold one_completed. rewrite sat_add_small, N.add_0_r by lia. done. Qed.

(** *** Tasks in flight *)
Lemma in_flight_wf t : Task_wf t -> in_flight t -> exists n, task_assigned_to t = Some n /\ task_output t = None.
Proof. unfold Task_wf, in_flight. destruct (task_state t); try done; intros [[n ->] ->] _; eauto. Qed.

Lemma in_flight_requeue t now :
  in_flight t -> Task_requeue t now = Ok (task_with t TaskState.Queued None (task_attempt t) None now).
Proof. unfold in_flight, Task_requeue, Task_transition_to. by destruct (task_state t). Qed.

Lemma in_flight_fail t now :
  in_flight t -> Task_fail t now = Ok (task_with t TaskState.Failed (task_assigned_to t) (task_attempt t) (task_output t) now).
Proof. unfold in_flight, Task_fail, Task_transition_to. by destruct (task_state t). Qed.

Lemma GoodS_task_id X s id t : GoodS X s -> s_tasks s !! id = Some t -> task_id t = id.
Proof. intros G Hid. by apply (good_tasks _ _ _ _ _ G). Qed.

Lemma not_queued X s id t :
  GoodS X s -> s_tasks s !! id = Some t -> task_state t <> TaskState.Queued -> id ∉ s_queue s.
Proof. intros G Hid Hne Hin. apply (good_queue _ _ _ _ _ G) in Hin as (u & Hu & ?). congruence. Qed.

(** A failed attempt: the task is queued again, or fails for good; either way it
    is no longer in flight. *)
Lemma retry_good X s id t now :
  GoodS X s -> s_tasks s !! id = Some t -> in_flight t ->
  let s' := retry_or_give_up E id now s in
  GoodS X s' /\ Frame s s' /\ exists t', s_tasks s' = <[id := t']> (s_tasks s) /\ ~ in_flight t'.
Proof.
  intros G Hid Hfl. pose proof (GoodS_task_id X s id t G Hid) as Hid'.
  pose proof (good_wf _ _ _ _ _ G id t Hid) as Hwf. cbn in Hwf.
  destruct (in_flight_wf t Hwf Hfl) as (n & Hn & Ho).
  unfold retry_or_give_up. rewrite Hid. destruct (task_attempt t <? max_task_attempts (config E)).
  - rewrite in_flight_requeue by done. set (t' := task_with _ _ _ _ _ _). change (task_id t') with (task_id t).
    rewrite Hid'. destruct (keyed_job X s id t G Hid) as (job & Hjob & Hjid & Hok).
    destruct (job_ok_in_flight _ _ _ _ _ Hok Hid eq_refl Hfl) as [Hrun Hlt].
    assert (id ∉ s_queue s) as Hnq.
    { eapply not_queued; eauto. intros Hq. unfold in_flight in Hfl. by rewrite Hq in Hfl. }
    cbv zeta. split; [|split].
    + change (Good X (s_nodes s) (s_jobs s) (<[id := t']> (s_tasks s)) (s_queue s ++ [id])).
      rewrite <-(insert_id (s_jobs s) (task_job_id t) job) by done.
      eapply replace_task; eauto; try done.
      * eapply job_ok_update; eauto; unfold in_flight in Hfl; [by destruct (task_state t)..|]. by rewrite Hrun.
      * apply NoDup_app. split_and!; [by apply (good_queue_NoDup _ _ _ _ _ G)|set_solver|apply NoDup_singleton].
      * intros i. rewrite elem_of_app, list_elem_of_singleton. destruct (decide (i = id)); naive_solver.
    + unfold Frame, Kept. split_and!; try done. by eapply dom_replace.
    + exists t'. done.
  - rewrite in_flight_fail by done. set (t' := task_with _ _ _ _ _ _). change (task_id t') with (task_id t).
    rewrite Hid'. cbv zeta.
    assert (Task_wf t') as Hwf' by (unfold Task_wf, t'; cbn; rewrite Hn, Ho; eauto).
    destruct (end_task X s id t t' one_failed 0 1 G Hid Hfl) with
      (s1 := persist_task E t' (set_tasks (<[id := t']> (s_tasks s)) s)) as (HG & HF & HT); try done.
    + intros job. apply one_failed_eq.
    + split_and!; [done..|]. exists t'. done.
Qed.

Lemma requeue_one_good X s id t node now :
  GoodS X s -> s_tasks s !! id = Some t -> in_flight t ->
  let s' := requeue_one E node now id s in
  GoodS X s' /\ Frame s s' /\ exists t', s_tasks s' = <[id := t']> (s_tasks s) /\ ~ in_flight t'.
Proof.
  intros G Hid Hfl. unfold requeue_one. rewrite Hid.
  set (s1 := emit E _ _). exact (retry_good X s1 id t now G Hid Hfl).
Qed.

Lemma elem_of_tasks_of X s node id :
  GoodS X s ->
  id ∈ tasks_of node (s_tasks s) <->
  exists t, s_tasks s !! id = Some t /\ in_flight t /\ task_assigned_to t = Some node.
Proof.
  intros G. unfold tasks_of. rewrite list_elem_of_fmap. split.
  - intros (t & -> & Ht). apply list_elem_of_filter in Ht as [[Ha Ho] (k & Hk)%elem_of_values].
    pose proof (GoodS_task_id _ _ _ _ G Hk) as ->. exists t. split_and!; try done.
    pose proof (good_wf _ _ _ _ _ G k t Hk) as Hwf. cbn in Hwf. unfold Task_wf, in_flight in *.
    destruct (task_state t); try done. destruct Hwf; congruence.
  - intros (t & Ht & Hfl & Ha). exists t. split; [symmetry; by eapply GoodS_task_id|].
    apply list_elem_of_filter. split; [|apply elem_of_values; eauto].
    split; [done|]. unfold in_flight in Hfl. by destruct (task_state t).
Qed.

Lemma tasks_of_NoDup X s node : GoodS X s -> NoDup (tasks_of node (s_tasks s)).
Proof. intros G. apply NoDup_fmap_filter, keyed_values_NoDup, (good_tasks _ _ _ _ _ G). Qed.

(** Afterwards nobody is left in flight on the node. *)
Lemma requeue_tasks_good X s node :
  GoodS X s ->
  let s' := requeue_tasks_of E node s in
  GoodS X s' /\ Frame s s' /\
  forall id t, s_tasks s' !! id = Some t -> in_flight t -> task_assigned_to t <> Some node.
Proof.
  intros G. unfold requeue_tasks_of. set (now := now_of E s).
  set (s0 := tock s). change (GoodS X s0) in G.
  assert (forall ids s1, GoodS X s1 -> NoDup ids ->
    (forall id, id ∈ ids <-> exists t, s_tasks s1 !! id = Some t /\ in_flight t /\ task_assigned_to t = Some node) ->
    let s' := foldl (fun s id => requeue_one E node now id s) s1 ids in
    GoodS X s' /\ Frame s1 s' /\
    forall id t, s_tasks s' !! id = Some t -> in_flight t -> task_assigned_to t <> Some node) as Hloop.
  { induction ids as [|id ids IH]; intros s1 G1 Hnd Hids; cbn [foldl].
    - split_and!; [done..|]. intros id t Hid Hfl Ha. assert (id ∈ @nil TaskId) as []%elem_of_nil by (apply Hids; eauto).
    - apply NoDup_cons in Hnd as [Hni Hnd].
      destruct (proj1 (Hids id)) as (t & Hid & Hfl & Ha); [by left|].
      destruct (requeue_one_good X s1 id t node now G1 Hid Hfl) as (G2 & F2 & t' & HT & Hn').
      destruct (IH (requeue_one E node now id s1) G2 Hnd) as (G3 & F3 & Hno).
      + intros i. rewrite HT. destruct (decide (i = id)) as [->|Hne].
        * rewrite lookup_insert_eq. split; [done|]. intros (u & [= <-] & ? & _). done.
        * rewrite lookup_insert_ne by done. rewrite <-Hids. set_solver.
      + split_and!; [done|by etrans|done]. }
  destruct (Hloop (tasks_of node (s_tasks s0)) s0 G (tasks_of_NoDup X s0 node G)) as (HG & HF & Hno).
  { intros id. by apply (elem_of_tasks_of X s0). }
  split_and!; [done| |done]. etrans; [|exact HF]. done.
Qed.

(** *** Reports *)
Lemma finish_task_good s node id outcome :
  GoodS nobody s -> let s' := finish_task E node id outcome s in GoodS nobody s' /\ Frame s s'.
Proof.
  intros G. unfold finish_task. set (s0 := tock s). change (GoodS nobody s0) in G.
  assert (GoodS nobody s0 /\ Frame s s0) as Hsame by done.
  destruct (s_tasks s0 !! id) as [t|] eqn:Hid; [|done].
  destruct (bool_decide _ || _) eqn:Hguard; [done|].
  apply orb_false_iff in Hguard as [Ha%bool_decide_eq_false Hterm]. apply dec_stable in Ha.
  pose proof (good_wf _ _ _ _ _ G id t Hid) as Hwf. cbn in Hwf.
  assert (in_flight t) as Hfl.
  { unfold in_flight, Task_wf in *. destruct (task_state t); try done. destruct Hwf; congruence. }
  pose proof (GoodS_task_id _ _ _ _ G Hid) as Hid'. destruct outcome as [output|reason detail].
  - destruct (Task_complete t output _) as [t'|] eqn:Hc; [|done].
    unfold Task_complete, Task_transition_to in Hc.
    destruct (TaskState_can_transition_to _ _); cbn in Hc; [|done]. injection Hc as <-.
    set (t' := task_with _ _ _ _ _ _). change (task_id t') with (task_id t). rewrite Hid'. cbv zeta.
    assert (Task_wf t') as Hwf' by (unfold Task_wf, t'; cbn; rewrite Ha; eauto).
    destruct (end_task nobody s0 id t t' one_completed 1 0 G Hid Hfl) with
      (s1 := emit E (TaskCompleted id node) (persist_task E t' (set_tasks (<[id := t']> (s_tasks s0)) s0)))
      as (HG & HF & _); try done.
    intros job. apply one_completed_eq.
  - cbv zeta. set (s1 := emit E _ _). destruct (retry_good nobody s1 id t (now_of E s) G Hid Hfl) as (HG & HF & _).
    split; [exact HG|exact HF].
Qed.

(** *** Dispatch *)
Definition busy_ok (busy : gset NodeId) (tasks : gmap N Task) : Prop :=
  forall n, n ∈ busy <-> exists id t, tasks !! id = Some t /\ in_flight t /\ task_assigned_to t = Some n.

Lemma busy_nodes_ok tasks : busy_ok (busy_nodes tasks) tasks.
Proof.
  intros n. unfold busy_nodes. rewrite elem_of_list_to_set, list_elem_of_omap. split.
  - intros (t & Ht & Ha). apply list_elem_of_filter in Ht as [Hs (id & Hid)%elem_of_values].
    exists id, t. split_and!; try done. unfold in_flight. by destruct Hs as [-> | ->].
  - intros (id & t & Hid & Hfl & Ha). exists t. split; [|done]. apply list_elem_of_filter.
    split; [|apply elem_of_values; eauto]. unfold in_flight in Hfl. destruct (task_state t); auto; done.
Qed.

Lemma elem_of_candidates X s busy n :
  GoodS X s -> n ∈ candidates (s_nodes s) busy ->
  exists e, s_nodes s !! node_id n = Some e /\ e_node e = n /\ is_Some (e_handle e) /\
    is_schedulable n = true /\ node_id n ∉ busy.
Proof.
  intros G. unfold candidates. intros (e & -> & He)%list_elem_of_fmap.
  apply list_elem_of_filter in He as [[[Hh Hs] Hb] (k & Hk)%elem_of_values].
  pose proof (good_nodes _ _ _ _ _ G k e Hk) as Hid. cbn in Hid. exists e. by rewrite Hid in *.
Qed.

Lemma schedulable_live nodes n e :
  nodes !! n = Some e -> is_Some (e_handle e) -> is_schedulable (e_node e) = true -> live nodes n.
Proof.
  intros Hn Hh Hs. exists e. split_and!; [done..|]. unfold is_schedulable in Hs.
  apply andb_true_iff in Hs as [Hs _]. destruct (node_status (e_node e)); try done. by left.
Qed.

Definition started (now : Millis) (job : Job) : Job :=
  if bool_decide (job_state job = JobState.Queued) then
    match Job_transition_to job JobState.Running now with Ok job => job | Err _ => job end
  else job.

Lemma start_job_eq j job s :
  s_jobs s !! j = Some job ->
  let s' := start_job_if_queued E j s in
  s_jobs s' = <[j := started (now_of E s) job]> (s_jobs s) /\
  s_nodes s' = s_nodes s /\ s_tasks s' = s_tasks s /\ s_queue s' = s_queue s /\ s_store s' = s_store s.
Proof.
  intros Hj. unfold start_job_if_queued, started. cbn [s_jobs tock set_ticks]. rewrite Hj.
  destruct (bool_decide _); [|by rewrite insert_id]. destruct (Job_transition_to _ _ _); [done|]. by rewrite insert_id.
Qed.

Lemma started_ok now job :
  job_state job = JobState.Queued \/ job_state job = JobState.Running ->
  let job' := started now job in
  job_state job' = JobState.Running /\ job_id job' = job_id job /\ job_task_count job' = job_task_count job /\
  job_tasks_completed job' = job_tasks_completed job /\ job_tasks_failed job' = job_tasks_failed job.
Proof.
  unfold started, Job_transition_to. intros [Hs|Hs]; rewrite Hs; [|done]. by cbn.
Qed.

(** Sending touches nothing but a mailbox. *)
Lemma send_assign_eq n t s :
  exists chans, (send_assign n t s).2 = set_chans chans s.
Proof.
  assert (s = set_chans (s_chans s) s) as Hs by by destruct s.
  unfold send_assign. destruct (s_nodes s !! n ≫= e_handle) as [h|]; [|eauto].
  unfold try_send. destruct (s_chans s !! h_inbox h); [|eauto]. destruct (_ && _); cbn; eauto.
Qed.

Lemma Task_assign_queued t n now :
  task_state t = TaskState.Queued ->
  Task_assign t n now =
    Ok (task_with t TaskState.Assigned (Some n) (sat_add u16_max (task_attempt t) 1) (task_output t) now).
Proof. intros Hs. unfold Task_assign, Task_transition_to. by rewrite Hs. Qed.

Lemma head_queued s id rest :
  GoodS nobody s -> s_queue s = id :: rest ->
  exists t, s_tasks s !! id = Some t /\ task_state t = TaskState.Queued /\ task_id t = id /\
    task_assigned_to t = None /\ task_output t = None /\ (id ∉ rest) /\ NoDup rest.
Proof.
  intros G Hq. destruct (proj1 (good_queue _ _ _ _ _ G id)) as (t & Ht & Hs); [rewrite Hq; by left|].
  pose proof (good_wf _ _ _ _ _ G id t Ht) as Hwf. unfold Task_wf in Hwf. cbn in Hwf. rewrite Hs in Hwf.
  pose proof (good_queue_NoDup _ _ _ _ _ G) as Hnd. rewrite Hq in Hnd. apply NoDup_cons in Hnd.
  exists t. split_and!; try done; try tauto. by eapply GoodS_task_id.
Qed.

(** The send failed: the task stays at the head of the queue, one attempt older. *)
Lemma put_back_good s id rest t t' :
  GoodS nobody s -> s_queue s = id :: rest -> s_tasks s !! id = Some t ->
  task_state t = TaskState.Queued -> task_state t' = TaskState.Queued ->
  task_id t' = id -> task_job_id t' = task_job_id t -> Task_wf t' ->
  Good nobody (s_nodes s) (s_jobs s) (<[id := t']> (s_tasks s)) (id :: rest).
Proof.
  intros G Hq Hid Hs Hs' Hid' Hj' Hwf. destruct (keyed_job nobody s id t G Hid) as (job & Hjob & Hjid & Hok).
  rewrite <-(insert_id (s_jobs s) (task_job_id t) job) by done. rewrite <-Hq.
  eapply replace_task; eauto.
  - destruct (job_ok_open _ _ _ _ _ Hok Hid eq_refl) as [Hst Hlt]; [by rewrite Hs|].
    eapply job_ok_update; eauto; [by rewrite Hs, Hs'..|]. destruct Hst as [[-> _]| ->]; done.
  - apply (good_queue_NoDup _ _ _ _ _ G).
  - intros i. destruct (decide (i = id)) as [->|]; [|done]. rewrite Hq, elem_of_cons. tauto.
  - unfold in_flight. by rewrite Hs'.
Qed.

(** The send went through: the task leaves the queue for an idle live node, and
    its job is running. *)
Lemma place_good s id rest t t' job' n :
  GoodS nobody s -> s_queue s = id :: rest -> s_tasks s !! id = Some t ->
  task_state t = TaskState.Queued -> task_state t' = TaskState.Assigned -> task_assigned_to t' = Some n ->
  task_id t' = id -> task_job_id t' = task_job_id t -> Task_wf t' -> live (s_nodes s) n ->
  (forall i u, s_tasks s !! i = Some u -> in_flight u -> task_assigned_to u <> Some n) ->
  (exists now job, s_jobs s !! task_job_id t = Some job /\ job' = started now job) ->
  Good nobody (s_nodes s) (<[task_job_id t := job']> (s_jobs s)) (<[id := t']> (s_tasks s)) rest.
Proof.
  intros G Hq Hid Hs Hs' Ha' Hid' Hj' Hwf Hlive Hfree (now & job & Hjob & ->).
  destruct (keyed_job nobody s id t G Hid) as (job0 & Hjob0 & Hjid & Hok). assert (job0 = job) as -> by congruence.
  pose proof (good_queue_NoDup _ _ _ _ _ G) as Hnd. rewrite Hq in Hnd. apply NoDup_cons in Hnd as [Hni Hnd].
  destruct (job_ok_open _ _ _ _ _ Hok Hid eq_refl) as [Hst Hlt]; [by rewrite Hs|].
  destruct (started_ok now job) as (Hrun & Hi & Hn & Hc & Hf); [tauto|].
  eapply replace_task; eauto.
  - by rewrite Hi.
  - eapply job_ok_update; eauto; rewrite ?Hs, ?Hs', ?Hrun, ?Hn, ?Hc, ?Hf; done.
  - intros i. destruct (decide (i = id)) as [->|]; [|rewrite Hq, elem_of_cons; tauto].
    split; [done|congruence].
Qed.

Definition turn_state (t : Turn) : Sup P := match t with Stop s => s | Continue _ s => s end.

Lemma busy_ok_place busy tasks id t t' n :
  busy_ok busy tasks -> tasks !! id = Some t -> ~ in_flight t -> in_flight t' -> task_assigned_to t' = Some n ->
  busy_ok ({[n]} ∪ busy) (<[id := t']> tasks).
Proof.
  intros Hb Hid Hnf Hfl Ha m. rewrite elem_of_union, elem_of_singleton, (Hb m). split.
  - intros [->|(i & u & Hi & Hu & Hm)]; [exists id, t'; by rewrite lookup_insert_eq|].
    exists i, u. rewrite lookup_insert_ne; [done|]. intros <-. congruence.
  - intros (i & u & Hi & Hu & Hm). apply lookup_insert_Some in Hi as [[<- <-]|[Hne Hi]]; [left; congruence|eauto 6].
Qed.

Lemma dispatch_turn_good busy s :
  GoodS nobody s -> busy_ok busy (s_tasks s) ->
  let s' := turn_state (dispatch_turn E busy s) in
  GoodS nobody s' /\ Frame s s' /\
  match dispatch_turn E busy s with
  | Stop _ => True
  | Continue busy' s' => busy_ok busy' (s_tasks s') /\ s_queue s = hd 0 (s_queue s) :: s_queue s'
  end.
Proof.
  intros G Hb. unfold dispatch_turn. destruct (s_queue s) as [|id rest] eqn:Hq; rewrite <-Hq in G; [by cbn [turn_state]|].
  destruct (head_queued s id rest G Hq) as (t & Hid & Hs & Htid & Ha & Ho & Hni & Hnd). rewrite Hid.
  destruct (select_node (scheduler E) t (candidates (s_nodes s) busy)) as [n|] eqn:Hsel; [|by cbn [turn_state]].
  apply select_node_sound in Hsel as (nd & Hnd' & <- & Hsch).
  destruct (elem_of_candidates _ _ _ _ G Hnd') as (e & He & Hen & Hh & _ & Hidle).
  assert (live (s_nodes s) (node_id nd)) as Hlive by (eapply schedulable_live; eauto; congruence).
  rewrite Task_assign_queued by done. set (t' := task_with _ _ _ _ _ _). set (s1 := tock _).
  destruct (send_assign_eq (node_id nd) t' s1) as (chans & Hs2).
  destruct (send_assign (node_id nd) t' s1) as [sent s2]. cbn in Hs2. subst s2. change (task_id t') with (task_id t).
  change (task_job_id t') with (task_job_id t). rewrite Htid. destruct sent; cbn [turn_state].
  - set (s3 := persist_task E t' _).
    destruct (keyed_job nobody s id t G Hid) as (job & Hjob & _ & _).
    destruct (start_job_eq (task_job_id t) job s3 Hjob) as (Hj4 & Hn4 & Ht4 & Hq4 & Hst4).
    set (s4 := start_job_if_queued E (task_job_id t) s3) in *.
    change (GoodS nobody (emit E (TaskAssigned id (node_id nd)) s4)) with (GoodS nobody s4).
    change (Frame s (emit E (TaskAssigned id (node_id nd)) s4)) with (Frame s s4).
    change (s_tasks (emit E (TaskAssigned id (node_id nd)) s4)) with (s_tasks s4).
    change (s_queue (emit E (TaskAssigned id (node_id nd)) s4)) with (s_queue s4).
    rewrite Hn4, Ht4, Hq4, Hj4. split; [|split; [|split]].
    + change (s_jobs s3) with (s_jobs s). eapply (place_good s id rest t t' _ (node_id nd)); eauto; try done.
      intros i u Hi Hu Hau. apply Hidle, Hb. eauto.
    + unfold Frame, Kept. split_and!; [by rewrite Hn4|by rewrite Hst4|rewrite Hj4; by eapply dom_replace|rewrite Ht4; by eapply dom_replace].
    + eapply busy_ok_place; eauto; try done. unfold in_flight. by rewrite Hs.
    + done.
  - assert (in_flight t') as Hfl by done. rewrite in_flight_requeue by done.
    set (t'' := task_with _ _ _ _ _ _). change (task_id t'') with (task_id t). rewrite Htid.
    split; [|split; [|done]].
    + change (Good nobody (s_nodes s) (s_jobs s) (<[id := t'']> (s_tasks s)) (id :: rest)).
      eapply put_back_good; eauto; try done.
    + unfold Frame, Kept. split_and!; [done| |done|by eapply dom_replace]. apply save_task_le.
Qed.

(** The loop ends within its fuel. *)
Lemma dispatch_loop_good fuel busy s :
  (length (s_queue s) < fuel)%nat -> GoodS nobody s -> busy_ok busy (s_tasks s) ->
  exists s', dispatch_loop E fuel busy s = Some s' /\ GoodS nobody s' /\ Frame s s'.
Proof.
  revert busy s. induction fuel as [|fuel IH]; intros busy s Hf G Hb; [lia|]. cbn [dispatch_loop].
  destruct (dispatch_turn_good busy s G Hb) as (G' & F' & Hc).
  destruct (dispatch_turn E busy s) as [s'|busy' s']; cbn [turn_state] in *; [by eauto|].
  destruct Hc as [Hb' Hq]. assert (length (s_queue s') < fuel)%nat as Hf' by (rewrite Hq in Hf; cbn in Hf; lia).
  destruct (IH busy' s' Hf' G' Hb') as (s'' & -> & G'' & F''). exists s''. split_and!; [done..|]. by etrans.
Qed.

Lemma dispatch_good s : GoodS nobody s -> GoodS nobody (dispatch E s) /\ Frame s (dispatch E s).
Proof.
  intros G. unfold dispatch.
  destruct (dispatch_loop_good (Datatypes.S (length (s_queue s))) (busy_nodes (s_tasks s)) s) as (s' & -> & ?);
    [lia|done|apply busy_nodes_ok|done].
Qed.

(** *** The registry changes *)
Lemma Good_nodes X X' nodes nodes' jobs tasks queue :
  Good X nodes jobs tasks queue -> keyed (fun e => node_id (e_node e)) nodes' ->
  (forall id t n, tasks !! id = Some t -> in_flight t -> task_assigned_to t = Some n ->
     X n \/ live nodes n -> X' n \/ live nodes' n) ->
  Good X' nodes' jobs tasks queue.
Proof.
  intros [] Hk Hl. constructor; auto. intros id t Hid Hfl.
  destruct (good_held0 id t Hid Hfl) as (n & Hn & Hx). exists n. eauto.
Qed.

(** An entry is replaced by one at least as able to hold work. *)
Lemma Good_entry X nodes jobs tasks queue n e e' :
  Good X nodes jobs tasks queue -> nodes !! n = Some e -> node_id (e_node e') = node_id (e_node e) ->
  (live nodes n -> is_Some (e_handle e') /\ (node_status (e_node e') = Healthy \/ node_status (e_node e') = Suspect)) ->
  Good X (<[n := e']> nodes) jobs tasks queue.
Proof.
  intros G Hn Hid Hl. eapply Good_nodes; [exact G| |].
  - apply keyed_insert; [apply (good_nodes _ _ _ _ _ G)|]. rewrite Hid. by apply (good_nodes _ _ _ _ _ G).
  - intros _ _ m _ _ _ [?|Hm]; [by left|]. right. destruct (decide (m = n)) as [->|Hne].
    + exists e'. rewrite lookup_insert_eq. by destruct (Hl Hm).
    + destruct Hm as (e0 & He0 & ?). exists e0. by rewrite lookup_insert_ne.
Qed.

Lemma Good_alter X nodes jobs tasks queue n f :
  Good X nodes jobs tasks queue -> (forall e, node_id (e_node (f e)) = node_id (e_node e)) ->
  (forall e, e_handle (f e) = e_handle e /\ node_status (e_node (f e)) = node_status (e_node e)) ->
  Good X (alter f n nodes) jobs tasks queue.
Proof.
  intros G Hid Hf. destruct (nodes !! n) as [e|] eqn:Hn.
  - rewrite (alter_as_insert f nodes n e) by done. eapply Good_entry; eauto. intros (e0 & He0 & ?).
    destruct (Hf e) as [-> ->]. by simplify_eq.
  - by rewrite alter_id'.
Qed.

(** A node goes offline: its work is what is left to requeue. *)
Lemma Good_offline nodes jobs tasks queue n e e' :
  Good nobody nodes jobs tasks queue -> nodes !! n = Some e -> node_id (e_node e') = node_id (e_node e) ->
  Good (eq n) (<[n := e']> nodes) jobs tasks queue.
Proof.
  intros G Hn Hid. eapply Good_nodes; [exact G| |].
  - apply keyed_insert; [apply (good_nodes _ _ _ _ _ G)|]. rewrite Hid. by apply (good_nodes _ _ _ _ _ G).
  - intros _ _ m _ _ _ [[]|(e0 & He0 & ?)]. destruct (decide (n = m)) as [->|Hne]; [by left|].
    right. exists e0. by rewrite lookup_insert_ne.
Qed.

(** Once nobody is in flight on the node, it is like any other. *)
Lemma Good_cleared X X' nodes jobs tasks queue :
  Good X nodes jobs tasks queue ->
  (forall n id t, X n -> tasks !! id = Some t -> in_flight t -> task_assigned_to t = Some n -> X' n) ->
  Good X' nodes jobs tasks queue.
Proof.
  intros G Hc. eapply Good_nodes; [exact G|apply (good_nodes _ _ _ _ _ G)|].
  intros id t n Hid Hfl Ha [Hx|Hl]; [left; eauto|by right].
Qed.

Lemma Good_forget nodes jobs tasks queue n :
  Good nobody nodes jobs tasks queue ->
  (forall id t, tasks !! id = Some t -> in_flight t -> task_assigned_to t <> Some n) ->
  Good nobody (delete n nodes) jobs tasks queue.
Proof.
  intros G Hno. eapply Good_nodes; [exact G|apply keyed_delete, (good_nodes _ _ _ _ _ G)|].
  intros id t m Hid Hfl Ha [[]|(e & He & ?)]. right. exists e.
  rewrite lookup_delete_ne; [done|]. intros ->. by eapply Hno.
Qed.

Lemma Good_join nodes jobs tasks queue n e :
  Good nobody nodes jobs tasks queue -> nodes !! n = None -> node_id (e_node e) = n ->
  Good nobody (<[n := e]> nodes) jobs tasks queue.
Proof.
  intros G Hn Hid. eapply Good_nodes; [exact G|by apply keyed_insert; [apply (good_nodes _ _ _ _ _ G)|]|].
  intros id t m Hid' Hfl Ha [[]|(e0 & He0 & ?)]. right. exists e0. rewrite lookup_insert_ne; [done|congruence].
Qed.

Lemma refresh_eq s :
  let s' := refresh_leadership E s in
  s_nodes s' = s_nodes s /\ s_jobs s' = s_jobs s /\ s_tasks s' = s_tasks s /\ s_queue s' = s_queue s /\
  s_store s' = s_store s.
Proof.
  unfold refresh_leadership. destruct (bool_decide _); [|done].
  by destruct (s_leader s), (elected E (s_nodes s)).
Qed.

Lemma refresh_good X s : GoodS X s -> GoodS X (refresh_leadership E s) /\ Frame s (refresh_leadership E s).
Proof.
  intros G. destruct (refresh_eq s) as (Hn & Hj & Ht & Hq & Hs). unfold Frame, Kept. rewrite Hn, Hj, Ht, Hq, Hs. done.
Qed.

(** Every handler that changes the registry ends this way. *)
Lemma refresh_dispatch_good s :
  GoodS nobody s -> GoodS nobody (dispatch E (refresh_leadership E s)) /\ Frame s (dispatch E (refresh_leadership E s)).
Proof.
  intros G. destruct (refresh_good nobody s G) as [G1 F1]. destruct (dispatch_good _ G1) as [G2 F2].
  split; [done|]. by etrans.
Qed.

Lemma Inv_kept s s' : Inv s -> GoodS nobody s' -> Kept s s' -> Inv s'.
Proof. intros [_ M] G F. split; [done|]. by eapply Marked_kept. Qed.

(** *** The health sweep *)
Definition going_offline (trs : list (NodeId * NodeStatus)) (n : NodeId) : Prop := (n, Offline) ∈ trs.

Lemma sweep_entry_cases now e :
  let '(e', tr) := sweep_entry E now e in
  node_id (e_node e') = node_id (e_node e) /\ e_handle e' = e_handle e /\ e_kind e' = e_kind e /\
  match tr with
  | None => e' = e
  | Some (n, st) => n = node_id (e_node e) /\ st = node_status (e_node e') /\ st <> Starting
  end.
Proof.
  unfold sweep_entry. destruct (e_handle e) eqn:Hh; [|done]. destruct (bool_decide _); [|done]. cbn.
  split_and!; try done. unfold implied_status, classify. by repeat destruct (_ <=? _).
Qed.

Lemma sweep_transitions_good trs s :
  GoodS (going_offline trs) s ->
  GoodS nobody (foldl (sweep_transition E) s trs) /\ Frame s (foldl (sweep_transition E) s trs).
Proof.
  revert s. induction trs as [|[n st] trs IH]; intros s G; cbn [foldl].
  { split; [|done]. eapply Good_cleared; [exact G|]. intros n id t Hn. by apply elem_of_nil in Hn. }
  assert (GoodS (going_offline trs) (sweep_transition E s (n, st)) /\ Frame s (sweep_transition E s (n, st))) as [G1 F1].
  { unfold sweep_transition; cbn [fst snd]. destruct st.
    1,2,3: split; [|done]; eapply Good_cleared; [exact G|]; intros m id t Hm _ _ _;
      apply elem_of_cons in Hm as [?|Hm]; [congruence|exact Hm].
    destruct (requeue_tasks_good (going_offline ((n, Offline) :: trs)) (emit E (NodeLeft n) s) n G) as (G2 & F2 & Hno).
    split; [|exact F2]. eapply Good_cleared; [exact G2|]. intros m id t Hm Hid Hfl Ha.
    apply elem_of_cons in Hm as [?|Hm]; [|exact Hm]. exfalso. eapply Hno; eauto. congruence. }
  destruct (IH _ G1) as [G2 F2]. split; [done|]. by etrans.
Qed.

Lemma sweep_good s : Inv s -> Inv (sweep_health E s).
Proof.
  intros HI. destruct (HI) as [G _]. unfold sweep_health. set (now := now_of E s). cbv zeta.
  set (trs := omap _ _). set (s1 := set_nodes _ _).
  assert (GoodS (going_offline trs) s1) as G1.
  { eapply Good_nodes; [exact G| |].
    - intros k e Hk. cbn in Hk. rewrite lookup_fmap in Hk. apply fmap_Some in Hk as (e0 & He0 & ->).
      pose proof (sweep_entry_cases now e0) as Hc. destruct (sweep_entry E now e0) as [e' tr]. cbn.
      destruct Hc as [-> _]. by apply (good_nodes _ _ _ _ _ G).
    - intros _ _ n _ _ _ [[]|(e & He & Hh & Hst)].
      pose proof (sweep_entry_cases now e) as Hc. destruct (sweep_entry E now e) as [e' tr] eqn:Hse.
      destruct Hc as (Hid & Hh' & _ & Htr).
      assert (live (s_nodes s1) n \/ tr = Some (n, Offline)) as [?|Hoff]; [|by right|left].
      { unfold live. cbn. rewrite lookup_fmap, He. cbn. rewrite Hse. cbn [fst]. rewrite <-Hh' in Hh.
        destruct tr as [[m st]|]; [|subst; left; eauto].
        destruct Htr as (-> & -> & Hns). rewrite (good_nodes _ _ _ _ _ G n e He).
        destruct (node_status (e_node e')) eqn:Hs'; [done|left; eauto|left; eauto|by right]. }
      unfold going_offline, trs. apply list_elem_of_omap. exists e.
      split; [apply elem_of_values; eauto|]. by rewrite Hse. }
  destruct (sweep_transitions_good trs s1 G1) as [G2 F2].
  eapply Inv_kept; [exact HI|exact G2|apply F2].
Qed.

(** *** Forgetting settled jobs *)
Lemma foldl_delete_lookup {A} (ids : list N) (m : gmap N A) k :
  foldl (fun m id => delete id m) m ids !! k = if decide (k ∈ ids) then None else m !! k.
Proof.
  revert m. induction ids as [|i ids IH]; intros m; cbn [foldl]; [by rewrite decide_False by apply not_elem_of_nil|].
  rewrite IH. destruct (decide (k ∈ ids)); [by rewrite decide_True by by right|].
  destruct (decide (k = i)) as [->|Hne].
  - by rewrite decide_True, lookup_delete_eq by by left.
  - rewrite lookup_delete_ne by done. rewrite decide_False; [done|]. by intros [?|?]%elem_of_cons.
Qed.

Lemma removable_terminal jobs id :
  keyed job_id jobs -> id ∈ removable_jobs E jobs ->
  exists job, jobs !! id = Some job /\ JobState_is_terminal (job_state job) = true.
Proof.
  intros Hk Hin. unfold removable_jobs in Hin. apply elem_of_take in Hin as (i & Hi & _).
  apply list_elem_of_lookup_2, list_elem_of_fmap in Hi as (job & -> & Hj).
  apply list_elem_of_filter in Hj as [Ht (k & Hjk)%elem_of_values]. exists job. by rewrite (Hk k job Hjk).
Qed.

Lemma tally_filter (removable : list JobId) tasks j st :
  j ∉ removable -> tally j st (filter (fun kt => task_job_id kt.2 ∉ removable) tasks) = tally j st tasks.
Proof.
  intros Hj. unfold tally, count. do 2 f_equal. apply map_eq. intros k. apply option_eq. intros t.
  rewrite !map_lookup_filter_Some. cbn. unfold of_job. naive_solver.
Qed.

(** Dropping the removable jobs and their tasks drops nothing that is open. *)
Lemma prune_core nodes jobs tasks queue removable :
  Good nobody nodes jobs tasks queue ->
  (forall j, j ∈ removable -> exists job, jobs !! j = Some job /\ JobState_is_terminal (job_state job) = true) ->
  Good nobody nodes (foldl (fun m id => delete id m) jobs removable)
    (filter (fun kt => task_job_id kt.2 ∉ removable) tasks) queue.
Proof.
  intros G Hrem. assert (forall id t, tasks !! id = Some t -> task_job_id t ∈ removable -> is_open (task_state t) = false) as Hclosed.
  { intros id t Hid Hin. destruct (Hrem _ Hin) as (job & Hjob & Ht).
    eapply job_ok_terminal; eauto. by apply (good_job _ _ _ _ _ G). }
  destruct G. constructor; auto.
  - intros j job. rewrite foldl_delete_lookup. destruct (decide _); [done|]. apply good_jobs0.
  - intros id t [Hid _]%map_lookup_filter_Some. by apply good_tasks0.
  - intros id t [Hid _]%map_lookup_filter_Some. by apply (good_wf0 id).
  - intros id. rewrite good_queue0. split.
    + intros (t & Hid & Hs). exists t. split; [|done]. apply map_lookup_filter_Some. split; [done|]. cbn.
      intros Hin. specialize (Hclosed id t Hid Hin). by rewrite Hs in Hclosed.
    + intros (t & [Hid _]%map_lookup_filter_Some & Hs). eauto.
  - intros id t [Hid _]%map_lookup_filter_Some. eauto.
  - intros i1 t1 i2 t2 [H1' _]%map_lookup_filter_Some [H2' _]%map_lookup_filter_Some. eauto.
  - intros id t [Hid Hni]%map_lookup_filter_Some. rewrite foldl_delete_lookup, decide_False by done. eauto.
  - intros j job. rewrite foldl_delete_lookup. destruct (decide _) as [|Hni]; [done|]. intros Hjob.
    destruct (good_job0 j job Hjob) as (Hc & Hf & Hn & Hb & Hs). unfold job_ok. rewrite !tally_filter by done.
    split_and!; try tauto. destruct (job_state job); try done. intros id t [Hid _]%map_lookup_filter_Some. eauto.
Qed.

Lemma prune_good s : Inv s -> Inv (prune_memory E s).
Proof.
  intros [G M]. unfold prune_memory. destruct (bool_decide _); [by split|]. split.
  - apply prune_core; [exact G|]. intros j Hj. apply removable_terminal; [|exact Hj]. apply (good_jobs _ _ _ _ _ G).
  - destruct M as (Hw & Hj & Ht). split_and!; [done| |].
    + intros j job. cbn. rewrite foldl_delete_lookup. destruct (decide _); [done|]. apply Hj.
    + intros id t. cbn. intros [Hid _]%map_lookup_filter_Some. by eapply Ht.
Qed.

Lemma tick_good s : Inv s -> Inv (tick E s).
Proof.
  intros HI. apply sweep_good in HI. unfold tick.
  destruct (refresh_dispatch_good (sweep_health E s)) as [G F]; [apply HI|].
  apply prune_good. eapply Inv_kept; [exact HI|exact G|apply F].
Qed.

Lemma handle_report_good r s : Inv s -> Inv (handle_report E r s).
Proof.
  intros HI. destruct (HI) as [G M]. destruct r as [hb|node task|node task outcome]; cbn [handle_report].
  - split; [|exact M]. by apply Good_alter.
  - cbv zeta. change (s_tasks (tock s)) with (s_tasks s).
    destruct (s_tasks s !! task_id task) as [t|] eqn:Hid; [|exact HI].
    destruct (bool_decide _) eqn:Ha; [|exact HI]. apply bool_decide_eq_true in Ha.
    unfold Task_start, Task_transition_to. destruct (TaskState_can_transition_to _ _) eqn:Htr; [|exact HI]. cbn [negb].
    assert (task_state t = TaskState.Assigned) as Hs by (by destruct (task_state t)).
    set (t' := task_with _ _ _ _ _ _). destruct (keyed_job nobody s (task_id task) t G Hid) as (job & Hjob & Hjid & Hok).
    pose proof (good_wf _ _ _ _ _ G _ t Hid) as Hwf. unfold Task_wf in Hwf. cbn in Hwf. rewrite Hs in Hwf.
    assert (in_flight t) as Hfl by (unfold in_flight; by rewrite Hs).
    destruct (job_ok_in_flight _ _ _ _ _ Hok Hid eq_refl Hfl) as [Hrun Hlt].
    eapply Inv_kept; [exact HI| |split_and!; [done..|by eapply dom_replace]].
    change (Good nobody (s_nodes s) (s_jobs s) (<[task_id task := t']> (s_tasks s)) (s_queue s)).
    rewrite <-(insert_id (s_jobs s) (task_job_id t) job) by done.
    eapply replace_task; eauto; try done.
    + exact (GoodS_task_id _ _ _ _ G Hid).
    + eapply job_ok_update; eauto; [by rewrite Hs..|by rewrite Hrun].
    + apply (good_queue_NoDup _ _ _ _ _ G).
    + intros i. destruct (decide (i = task_id task)) as [->|]; [|done]. cbn.
      split; [|done]. intros Hin. exfalso. eapply not_queued; eauto. by rewrite Hs.
  - destruct (finish_task_good s node (task_id task) outcome G) as [G1 F1].
    destruct (dispatch_good _ G1) as [G2 F2]. eapply Inv_kept; [exact HI|exact G2|]. etrans; [apply F1|apply F2].
Qed.

(** *** Nodes come and go *)

(** The end of [stop_node] and [detach_remote]: the node is out, its work is
    queued again, and the rest of the cluster takes over. *)
Lemma leave_good s id e e' s1 :
  Inv s -> s_nodes s !! id = Some e -> node_id (e_node e') = node_id (e_node e) ->
  s_nodes s1 = <[id := e']> (s_nodes s) -> s_jobs s1 = s_jobs s -> s_tasks s1 = s_tasks s ->
  s_queue s1 = s_queue s -> s_store s1 = s_store s ->
  let r := requeue_tasks_of E id s1 in
  GoodS nobody r /\ Kept s r /\ Good nobody (delete id (s_nodes r)) (s_jobs r) (s_tasks r) (s_queue r).
Proof.
  intros HI He Hid Hn1 Hj1 Ht1 Hq1 Hs1 r. destruct (HI) as [G _].
  assert (GoodS (eq id) s1) as G1 by (rewrite Hn1, Hj1, Ht1, Hq1; by eapply Good_offline).
  destruct (requeue_tasks_good (eq id) s1 id G1) as (Gr & [_ Fr] & Hno). fold r in Gr, Fr, Hno.
  assert (GoodS nobody r) as Gr'.
  { eapply Good_cleared; [exact Gr|]. intros n i t <- Hi Hfl Ha. by eapply Hno. }
  split_and!; [done| |by apply Good_forget].
  etrans; [|exact Fr]. split_and!; [by rewrite Hs1|by rewrite Hj1|by rewrite Ht1].
Qed.

Lemma refresh_dispatch_inv s s1 :
  Inv s -> GoodS nobody s1 -> Kept s s1 -> Inv (dispatch E (refresh_leadership E s1)).
Proof.
  intros HI G K. destruct (refresh_dispatch_good s1 G) as [G' [_ F]].
  eapply Inv_kept; [exact HI|exact G'|by etrans].
Qed.

Lemma terminate_eq h s : exists chans, terminate h s = set_chans chans s.
Proof. unfold terminate. eauto. Qed.

Lemma stop_node_good id s : Inv s -> Inv (stop_node E id s).2.
Proof.
  intros HI. unfold stop_node. destruct (s_nodes s !! id) as [e|] eqn:He; [|exact HI].
  destruct (e_handle e) as [h|]; [|exact HI]. cbv zeta. cbn [snd].
  set (s1 := emit E (NodeLeft id) _).
  destruct (leave_good s id e (offline_entry e) s1 HI He) as (G & K & _); try done.
  by eapply refresh_dispatch_inv.
Qed.

Lemma detach_good id generation s : Inv s -> Inv (detach_remote E id generation s).
Proof.
  intros HI. unfold detach_remote. destruct (s_nodes s !! id) as [e|] eqn:He; [|exact HI].
  destruct (_ || _); [exact HI|]. cbv zeta. set (s1 := emit E (NodeLeft id) _).
  destruct (leave_good s id e (offline_entry e) s1 HI He) as (G & K & Gd); try done.
  eapply refresh_dispatch_inv; [exact HI| |]; by destruct (bool_decide _).
Qed.

Lemma launch_good id s : GoodS nobody s -> GoodS nobody (launch_node E id s) /\ Kept s (launch_node E id s).
Proof.
  intros G. unfold launch_node. destruct (s_nodes s !! id) as [e|] eqn:He; [|done]. cbv zeta. split; [|done].
  unfold update_node. cbn [s_nodes set_nodes s_jobs s_tasks s_queue tock set_ticks set_chans set_next_chan].
  rewrite (alter_as_insert _ _ _ e) by done. eapply Good_entry; [exact G|exact He|done|].
  intros _. cbn. eauto.
Qed.

Lemma start_node_good id s : Inv s -> Inv (start_node E id s).2.
Proof.
  intros HI. unfold start_node. destruct (s_nodes s !! id) as [e|] eqn:He; [|exact HI].
  destruct (bool_decide _); [exact HI|]. destruct (e_kind e); [|exact HI]. cbv zeta. cbn [snd].
  destruct (launch_good id s) as [G K]; [apply HI|]. by eapply refresh_dispatch_inv.
Qed.

Lemma find_Some {A} (f : A -> bool) l x : find f l = Some x -> x ∈ l /\ f x = true.
Proof.
  unfold find. intros ([i y] & Hf & ->)%fmap_Some. apply list_find_Some in Hf as (Hl & Hfx & _).
  split; [by eapply list_elem_of_lookup_2|done].
Qed.

Lemma next_free_id_free nodes id : next_free_id nodes = Some id -> nodes !! id = None.
Proof. unfold next_free_id. intros [_ Hb]%find_Some. by apply bool_decide_eq_true in Hb. Qed.

Lemma attach_named_good id caps inbox now s : Inv s -> Inv (attach_named E id caps inbox now s).2.
Proof.
  intros HI. unfold attach_named. destruct (s_nodes s !! id) as [e|] eqn:He; [|exact HI].
  destruct (e_kind e); [exact HI|]. destruct (_ && _); [exact HI|]. cbv zeta. cbn [snd].
  set (s1 := match e_handle e with Some stale => terminate stale s | None => s end).
  assert (exists chans, s1 = set_chans chans s) as [chans ->].
  { unfold s1. destruct (e_handle e); [apply terminate_eq|]. exists (s_chans s). by destruct s. }
  eapply refresh_dispatch_inv; [exact HI| |done].
  eapply (Good_entry nobody (s_nodes s)); [apply HI|exact He|done|]. intros _. cbn. eauto.
Qed.

Lemma attach_good id caps inbox s : Inv s -> Inv (attach_remote E id caps inbox s).2.
Proof.
  intros HI. unfold attach_remote. cbv zeta. destruct id as [id|]; [by apply attach_named_good|].
  destruct (next_free_id (s_nodes (tock s))) as [id|] eqn:Hfree; [|exact HI].
  apply attach_named_good. apply next_free_id_free in Hfree. destruct HI as [G M]. split; [|exact M]. by apply Good_join.
Qed.

Lemma send_to_node_eq id m s : exists chans, (send_to_node id m s).2 = set_chans chans s.
Proof.
  assert (s = set_chans (s_chans s) s) as Hs by (by destruct s).
  unfold send_to_node. destruct (s_nodes s !! id) as [e|]; [|by eauto]. destruct (e_handle e) as [h|]; [|by eauto].
  unfold try_send. destruct (s_chans s !! h_inbox h); [|by eauto]. destruct (_ && _); cbn; eauto.
Qed.

Lemma send_to_node_good id m s : Inv s -> Inv (send_to_node id m s).2.
Proof. intros HI. by destruct (send_to_node_eq id m s) as [chans ->]. Qed.

Lemma set_role_good id role enabled s : Inv s -> Inv (set_role E id role enabled s).2.
Proof.
  intros HI. unfold set_role. destruct (s_nodes s !! id) as [e|] eqn:He; [|exact HI].
  destruct (if enabled then _ else _) as [roles changed]. cbv zeta.
  set (s1 := set_nodes _ s).
  assert (GoodS nobody s1) as G1.
  { eapply Good_entry; [apply HI|exact He|done|]. intros (e0 & He0 & ?). by simplify_eq. }
  destruct changed; cbn [snd].
  - set (s2 := emit E _ _). destruct (refresh_good nobody s2 G1) as [G2 [_ F2]].
    eapply Inv_kept; [exact HI|exact G2|]. etrans; [|exact F2]. done.
  - by eapply Inv_kept; [exact HI|exact G1|].
Qed.

(** *** A job is submitted *)
Definition insert_tasks (tasks : gmap N Task) (ts : list Task) : gmap N Task :=
  foldl (fun m t => <[task_id t := t]> m) tasks ts.

Lemma enqueue_tasks_eq ts s :
  let s' := foldl enqueue_task s ts in
  s_tasks s' = insert_tasks (s_tasks s) ts /\ s_queue s' = s_queue s ++ (task_id <$> ts) /\
  s_nodes s' = s_nodes s /\ s_jobs s' = s_jobs s /\ s_store s' = s_store s.
Proof.
  revert s. induction ts as [|t ts IH]; intros s; cbn [foldl]; [by rewrite app_nil_r|].
  destruct (IH (enqueue_task s t)) as (-> & -> & -> & -> & ->). split_and!; try done.
  cbn. by rewrite <-app_assoc.
Qed.

Lemma lookup_insert_tasks tasks ts i t :
  NoDup (task_id <$> ts) ->
  insert_tasks tasks ts !! i = Some t <->
  (t ∈ ts /\ task_id t = i) \/ ((i ∉ task_id <$> ts) /\ tasks !! i = Some t).
Proof.
  unfold insert_tasks. revert tasks. induction ts as [|u ts IH]; intros tasks Hnd; cbn [foldl].
  { split; [right; split; [apply not_elem_of_nil|done]|]. by intros [[[]%elem_of_nil _]|[_ ?]]. }
  rewrite fmap_cons in Hnd |- *. apply NoDup_cons in Hnd as [Hni Hnd]. rewrite IH by done.
  rewrite lookup_insert_Some, !elem_of_cons. split.
  - intros [[Hin Hi]|(Hni' & [[<- <-]|[Hne Hi]])]; [by auto..|]. right. split; [|done]. by intros [?|?].
  - intros [[[->|Hin] Hi]|[Hni' Hi]]; [right|by auto|right].
    + subst i. auto.
    + split; [tauto|]. right. split; [|done]. intros Heq. apply Hni'. auto.
Qed.

Lemma tally_insert_tasks tasks ts j st :
  NoDup (task_id <$> ts) -> Forall (fun t => tasks !! task_id t = None) ts ->
  tally j st (insert_tasks tasks ts) = tally j st tasks + foldr (fun t acc => share j st t + acc) 0 ts.
Proof.
  unfold insert_tasks. revert tasks. induction ts as [|u ts IH]; intros tasks Hnd Hf; cbn [foldl foldr]; [lia|].
  rewrite fmap_cons in Hnd. apply NoDup_cons in Hnd as [Hni Hnd]. apply Forall_cons in Hf as [Hu Hf].
  rewrite IH; [rewrite tally_insert by done; lia|done|].
  rewrite Forall_forall in Hf |- *. intros t Ht. rewrite lookup_insert_ne; [by apply Hf|].
  intros Heq. apply Hni. rewrite Heq. by apply list_elem_of_fmap_2.
Qed.

Definition new_task (j : JobId) (t : Task) : Prop :=
  task_job_id t = j /\ task_state t = TaskState.Queued /\ task_assigned_to t = None /\ task_output t = None.

Lemma share_new j j' st ts :
  Forall (new_task j) ts ->
  foldr (fun t acc => share j' st t + acc) 0 ts =
    if decide (j = j') then one_if (st TaskState.Queued) * N.of_nat (length ts) else 0.
Proof.
  induction 1 as [|t ts (Hj & Hs & _) _ IH]; [by destruct (decide _); cbn; lia|].
  cbn [foldr]. rewrite IH. unfold share. rewrite Hj, Hs. destruct (decide (j = j')); cbn [length]; lia.
Qed.

(** A task that can come in with its job. *)
Definition joining (j : JobId) (t : Task) : Prop := task_job_id t = j /\ Task_wf t /\ ~ in_flight t.

Lemma share_other j j' st ts :
  Forall (joining j) ts -> j <> j' -> foldr (fun t acc => share j' st t + acc) 0 ts = 0.
Proof.
  intros Hts Hne. induction Hts as [|t ts (Hj & _) _ IH]; [done|]. cbn [foldr]. rewrite IH.
  unfold share. by rewrite decide_False by congruence.
Qed.

Lemma tally_joining tasks ts j st :
  NoDup (task_id <$> ts) -> Forall (fun t => tasks !! task_id t = None) ts ->
  (forall id t, tasks !! id = Some t -> task_job_id t <> j) ->
  tally j st (insert_tasks tasks ts) = tally j st (insert_tasks ∅ ts).
Proof.
  intros Hnd Hfresh Hnone. rewrite !tally_insert_tasks; [|done|by apply Forall_true|done..].
  assert (tally j st tasks = 0) as ->; [|unfold tally; by rewrite count_empty].
  destruct (decide (0 < tally j st tasks)) as [Hlt|]; [|lia]. exfalso.
  assert (0 < count (of_job j st) tasks)%nat as (k & t & Hk & Hjt & _)%count_pos by (unfold tally in Hlt; lia).
  by eapply Hnone.
Qed.

(** A job and all its tasks come in together: from a submission, or from the store. *)
Lemma add_job_core nodes jobs tasks queue job ts :
  Good nobody nodes jobs tasks queue ->
  jobs !! job_id job = None -> Forall (fun t => tasks !! task_id t = None) ts ->
  NoDup (task_id <$> ts) -> Forall (joining (job_id job)) ts ->
  job_ok (insert_tasks ∅ ts) (job_id job) job ->
  Good nobody nodes (<[job_id job := job]> jobs) (insert_tasks tasks ts)
    (queue ++ (task_id <$> filter (fun t => task_state t = TaskState.Queued) ts)).
Proof.
  intros G Hj Hfresh Hnd Hnew Hok.
  assert (forall id t, insert_tasks tasks ts !! id = Some t ->
    (t ∈ ts /\ task_id t = id /\ joining (job_id job) t) \/ tasks !! id = Some t) as Hcases.
  { intros id t [[Hin Hi]|[_ Hi]]%lookup_insert_tasks; [left|by right|done].
    rewrite Forall_forall in Hnew. auto. }
  assert (forall id t, tasks !! id = Some t -> task_job_id t <> job_id job) as Hnone.
  { intros id t Hid Heq. destruct (good_owner _ _ _ _ _ G id t Hid) as [? Ho]. congruence. }
  assert (forall id t, tasks !! id = Some t -> id ∉ task_id <$> ts) as Hold.
  { intros id t Hid (u & -> & Hu)%list_elem_of_fmap. rewrite Forall_forall in Hfresh. by rewrite (Hfresh u Hu) in Hid. }
  assert (forall id t, tasks !! id = Some t -> insert_tasks tasks ts !! id = Some t) as Hkeep.
  { intros id t Hid. apply lookup_insert_tasks; [done|]. right. eauto. }
  assert (forall t, t ∈ ts -> insert_tasks tasks ts !! task_id t = Some t) as Hin_new
    by (intros t Ht; apply lookup_insert_tasks; auto).
  destruct G. constructor.
  - done.
  - by apply keyed_insert.
  - intros id t Hid. destruct (Hcases _ _ Hid) as [(_ & ? & _)|?]; eauto.
  - intros id t Hid. destruct (Hcases _ _ Hid) as [(_ & _ & _ & ? & _)|?]; [done|by eapply good_wf0].
  - apply NoDup_app. split_and!; [done| |by apply NoDup_fmap_filter]. intros i (t & Ht & _)%good_queue0 Hin.
    apply (Hold i t Ht). apply list_elem_of_fmap in Hin as (u & -> & [_ ?]%list_elem_of_filter). by apply list_elem_of_fmap_2.
  - intros id. rewrite elem_of_app, good_queue0. split.
    + intros [(t & Hid & Hs)|(t & -> & [Hs Ht]%list_elem_of_filter)%list_elem_of_fmap]; eauto.
    + intros (t & Hid & Hs). destruct (Hcases _ _ Hid) as [(Hin & <- & _)|?]; [right|eauto].
      apply list_elem_of_fmap_2, list_elem_of_filter. done.
  - intros id t Hid Hfl. destruct (Hcases _ _ Hid) as [(_ & _ & _ & _ & ?)|?]; [done|eauto].
  - intros i1 t1 i2 t2 H1' H2' F1 F2. destruct (Hcases _ _ H1') as [(_ & _ & _ & _ & ?)|?]; [done|].
    destruct (Hcases _ _ H2') as [(_ & _ & _ & _ & ?)|?]; [done|eauto].
  - intros id t Hid. destruct (Hcases _ _ Hid) as [(_ & _ & Hjt & _)|Hid'].
    + rewrite Hjt, lookup_insert_eq. eauto.
    + rewrite lookup_insert_ne; [eauto|]. intros Heq. by eapply Hnone.
  - intros j jb Hjb. apply lookup_insert_Some in Hjb as [[<- <-]|[Hne Hjb]].
    + destruct Hok as (Hc & Hf & Hn & Hb & Hs). unfold job_ok.
      assert (forall st, tally (job_id job) st (insert_tasks tasks ts) = tally (job_id job) st (insert_tasks ∅ ts)) as Ht
        by (intros st; by apply tally_joining).
      rewrite !Ht. split_and!; try tauto. destruct (job_state job); try done. intros id t Hid Hjt.
      destruct (Hcases _ _ Hid) as [(Hin & <- & _)|Hid']; [|exfalso; by eapply Hnone].
      eapply Hs; [|exact Hjt]. apply lookup_insert_tasks; auto.
    + destruct (good_job0 j jb Hjb) as (Hc' & Hf' & Hn' & Hb' & Hs').
      unfold job_ok. rewrite !tally_insert_tasks, !(share_other (job_id job)), !N.add_0_r by done.
      split_and!; try tauto. destruct (job_state jb); try done. intros id t Hid Hjt.
      destruct (Hcases _ _ Hid) as [(_ & _ & ? & _)|?]; [congruence|eauto].
Qed.

Lemma submit_core nodes jobs tasks queue job ts :
  Good nobody nodes jobs tasks queue ->
  jobs !! job_id job = None -> Forall (fun t => tasks !! task_id t = None) ts ->
  NoDup (task_id <$> ts) -> Forall (new_task (job_id job)) ts ->
  job_state job = JobState.Queued -> job_tasks_completed job = 0 -> job_tasks_failed job = 0 ->
  job_task_count job = N.of_nat (length ts) -> 1 <= job_task_count job <= u16_max ->
  Good nobody nodes (<[job_id job := job]> jobs) (insert_tasks tasks ts) (queue ++ (task_id <$> ts)).
Proof.
  intros G Hj Hfresh Hnd Hnew Hst Hc Hf Hn Hb.
  rewrite <-(filter_all (fun t => task_state t = TaskState.Queued) ts) at 2
    by (eapply Forall_impl; [exact Hnew|]; by intros t (_ & ? & _)).
  apply add_job_core; try done.
  - eapply Forall_impl; [exact Hnew|]. intros t (? & Hs & ? & ?). unfold joining, Task_wf, in_flight. by rewrite Hs.
  - unfold job_ok. rewrite !tally_insert_tasks; [|done|by apply Forall_true|done|by apply Forall_true|done|by apply Forall_true].
    rewrite !(share_new (job_id job)), !decide_True by done. unfold tally. rewrite !count_empty, Hst, Hc, Hf, Hn.
    cbn [one_if is_completed is_failed any_state]. split_and!; try lia.
    intros id t [[Hin _]|[_ Hx]]%lookup_insert_tasks _; [|by rewrite lookup_empty in Hx|done].
    rewrite Forall_forall in Hnew. apply (Hnew t Hin).
Qed.

(** An accepted job is in memory with its tasks queued when [dispatch] runs. *)
Lemma submit_cases spec s :
  JobSpec_task_count spec <= u16_max -> Inv s ->
  match (submit_job E spec s).1 with
  | Err _ => Inv (submit_job E spec s).2
  | Ok _ => exists s1, Inv s1 /\ (submit_job E spec s).2 = dispatch E s1
  end.
Proof.
  intros Hmax [G M]. unfold submit_job. cbv zeta. set (s0 := tock s).
  destruct (allocate spec (now_of E s) (s_store s0)) as [r p] eqn:Ha. apply allocate_spec in Ha as [Hle Hr]; [|done|apply M].
  assert (Marked (s_jobs s) (s_tasks s) p) as Mp by (apply (Marked_kept s (set_store p s)); [by split_and!|done]).
  destruct r as [[job ts]|]; [|by split]. destruct Hr as (Hjob & Hjid & Hlen & Hnd & Hts).
  assert (store_le p (create_job job ts p).2) as Hle2.
  { apply create_job_le; [lia|]. eapply Forall_impl; [exact Hts|]. cbn. lia. }
  destruct (create_job job ts p) as [[[]|] p2]; cbn in Hle2; cbn [fst snd].
  2:{ split; [exact G|]. apply (Marked_kept (set_store p s) (set_store p2 s)); [by split_and!|done]. }
  set (s1 := set_jobs _ _). destruct (enqueue_tasks_eq ts s1) as (Ht & Hq & Hn & Hj & Hs).
  set (s2 := foldl enqueue_task s1 ts) in *.
  destruct M as (Hw & Hmj & Hmt). destruct Hle2 as (Hw2 & Hmj2 & Hmt2), Hle as (Hw1 & Hmj1 & Hmt1).
  change (s_store s0) with (s_store s) in *.
  assert (GoodS nobody s2) as G2.
  { rewrite Hn, Hj, Ht, Hq. apply submit_core; try done.
    - destruct (s_jobs s !! job_id job) eqn:Hx; [|done]. apply Hmj in Hx. lia.
    - eapply Forall_impl; [exact Hts|]. cbn. intros t (_ & Hid & _).
      destruct (s_tasks s !! task_id t) eqn:Hx; [|done]. apply Hmt in Hx. lia.
    - eapply Forall_impl; [exact Hts|]. cbn. intros t (? & _ & ? & ? & ? & _). done.
    - by rewrite Hjob.
    - by rewrite Hjob.
    - by rewrite Hjob.
    - rewrite Hjob, Hlen. cbn. lia.
    - rewrite Hjob. cbn. pose proof (JobSpec_task_count_pos spec). lia. }
  assert (Marked (s_jobs s2) (s_tasks s2) (s_store s2)) as M2.
  { rewrite Hj, Ht, Hs. cbn [s1 s_jobs s_tasks s_store set_jobs set_store]. split_and!; [by apply Hw2, Hw1| |].
    - intros j jb [[<- <-]|[_ Hx]]%lookup_insert_Some; cbn; [lia|]. apply Hmj in Hx. lia.
    - intros id t [[Hin <-]|[_ Hx]]%lookup_insert_tasks; [|apply Hmt in Hx; cbn; lia|done].
      rewrite Forall_forall in Hts. apply Hts in Hin. cbn in *. lia. }
  exists (emit E (JobCreated (job_id job)) s2). by split; [split|].
Qed.

Lemma dispatch_Inv s : Inv s -> Inv (dispatch E s).
Proof. intros HI. destruct (dispatch_good s (proj1 HI)) as [G [_ K]]. by eapply Inv_kept. Qed.

Lemma submit_good spec s : JobSpec_task_count spec <= u16_max -> Inv s -> Inv (submit_job E spec s).2.
Proof.
  intros Hmax HI. pose proof (submit_cases spec s Hmax HI) as Hc. destruct (submit_job E spec s) as [[id|] s']; cbn in *; [|done].
  destruct Hc as (s1 & HI1 & ->). by apply dispatch_Inv.
Qed.

Lemma handle_command_good c s : typed_input (OnCommand c) -> Inv s -> Inv (handle_command E c s).2.
Proof.
  intros Hty HI. destruct c; cbn [handle_command]; try exact HI.
  - pose proof (submit_good spec s Hty HI). by destruct (submit_job E spec s).
  - pose proof (set_role_good node role enabled s HI). by destruct (set_role E node role enabled s).
  - pose proof (stop_node_good id s HI). by destruct (stop_node E id s).
  - pose proof (start_node_good id s HI). by destruct (start_node E id s).
  - pose proof (send_to_node_good id (InboxPauseHeartbeat paused) s HI) as [G M].
    destruct (send_to_node id _ s) as [r s1]. cbn in *. destruct (is_ok r); [|done].
    split; [by apply Good_alter|exact M].
  - pose proof (send_to_node_good id (InboxInjectFailures count) s HI). by destruct (send_to_node id _ s).
  - pose proof (send_to_node_good id (InboxSetDelay ms) s HI). by destruct (send_to_node id _ s).
  - pose proof (attach_good id capabilities inbox s HI). by destruct (attach_remote E id capabilities inbox s).
  - by apply detach_good.
Qed.

(** Every turn of the event loop keeps the invariant. *)
Lemma step_good i s : typed_input i -> Inv s -> Inv (step E i s).
Proof.
  intros Hty HI. destruct i; cbn [step]; try exact HI.
  - by apply handle_command_good.
  - by apply handle_report_good.
  - by apply tick_good.
  - destruct (s_pending s) as [|w rest]; [exact HI|].
    pose proof (drain_one_le w (s_store s) (s_tel s)) as Hle. destruct (drain_one w (s_store s) (s_tel s)) as [p t].
    eapply Inv_kept; [exact HI|apply HI|]. by split_and!.
Qed.

Lemma reachable_good s0 s : Inv s0 -> reachable E s0 s -> Inv s.
Proof. intros H0' Hr. induction Hr; [done|]. by apply step_good. Qed.
End Handlers.
