(* ===== verification/SupervisorBoot.v ===== *)
(** * Restart: the supervisor comes back from its store

    [bootstrap] builds the registry, loads the recent and the unfinished jobs and
    queues what was in flight.  The paging loop is proved to end and to miss no
    unfinished job, and the state it leads to satisfies the invariant when the
    stored record of each job agrees with the stored tasks. *)
From stdpp Require Import prelude gmap sorting.
From S2P Require Import Prelude Time Role Node Job Event Scheduler Store Snapshot Protocol Supervisor SupervisorInv.

(** ** Paging *)
Section Paging.
Context {P : Type} `{ClusterStoreLaws P}.

Abbreviation id_of jt := (job_id (fst jt)).
Definition before (x y : Job * list Task) : Prop := id_of x < id_of y.

Lemma filter_past_sorted n (l : list (Job * list Task)) x :
  StronglySorted before l -> last (take n l) = Some x -> filter (past (Some (id_of x))) l = drop n l.
Proof.
  revert n. induction l as [|y l IH]; intros n Hs Hl; [by destruct n|].
  destruct n as [|n]; [done|]. apply StronglySorted_inv in Hs as [Hs Hall]. cbn [take drop] in *.
  rewrite filter_cons. destruct (take n l) as [|z k] eqn:Ht.
  - cbn in Hl. injection Hl as ->. rewrite decide_False by (cbn; lia).
    assert (drop n l = l) as ->.
    { by destruct n, l. }
    apply filter_all. eapply Forall_impl; [exact Hall|]. done.
  - assert (last (take n l) = Some x) as Hl' by (by rewrite Ht).
    rewrite last_cons in Hl. rewrite decide_False; [by apply IH|].
    apply last_Some in Hl' as [k' Hk']. rewrite Forall_forall in Hall.
    assert (x ∈ l) as Hx%Hall.
    { rewrite <-(take_drop n l), Hk'. set_solver. }
    unfold before in Hx. cbn. lia.
Qed.

Lemma filter_past_past after x (l : list (Job * list Task)) :
  past after x -> filter (past (Some (id_of x))) (filter (past after) l) = filter (past (Some (id_of x))) l.
Proof.
  intros Hx. rewrite list_filter_filter. apply list_filter_iff. intros y.
  destruct after as [a|]; cbn in *; [lia|tauto].
Qed.

Lemma filter_sorted {A} (R : A -> A -> Prop) (Q : A -> Prop) `{forall x, Decision (Q x)} (l : list A) :
  StronglySorted R l -> StronglySorted R (filter Q l).
Proof.
  induction 1 as [|x l _ IH Hall]; [constructor|]. rewrite filter_cons. destruct (decide (Q x)); [|done].
  constructor; [done|]. rewrite Forall_forall in *. intros y [_ ?]%list_elem_of_filter. auto.
Qed.

Lemma restore_pages_spec fuel after p restored all :
  store_wf p -> unfinished_jobs p = Ok all -> (length (filter (past after) all) < fuel)%nat ->
  restore_pages fuel after p restored = Some (foldl collect restored (filter (past after) all)).
Proof.
  intros Hwf Hall. destruct (unfinished_jobs_sound p all Hwf Hall) as [_ Hs].
  revert after restored. induction fuel as [|fuel IH]; intros after restored Hf; [lia|]. cbn [restore_pages].
  rewrite unfinished_jobs_page_spec, Hall. cbn [unfinished_jobs_page_default].
  set (rest := filter (past after) all) in *.
  assert (StronglySorted before rest) as Hsr by by apply filter_sorted.
  destruct (last (take RECOVERY_PAGE rest)) as [[job ts]|] eqn:Hl.
  2:{ apply last_None in Hl. destruct rest; [done|]. by cbn in Hl. }
  pose proof (filter_past_sorted _ _ _ Hsr Hl) as Hdrop. cbn [fst] in Hdrop.
  assert (past after (job, ts)) as Hpast.
  { apply last_Some in Hl as [k Hk]. assert ((job, ts) ∈ rest) as [? _]%list_elem_of_filter; [|done].
    rewrite <-(take_drop RECOVERY_PAGE rest), Hk. set_solver. }
  pose proof (filter_past_past after (job, ts) all Hpast) as Hpp. cbn [fst] in Hpp. fold rest in Hpp.
  destruct (bool_decide (length (take RECOVERY_PAGE rest) = RECOVERY_PAGE)) eqn:Hfull.
  - apply bool_decide_eq_true in Hfull. rewrite length_take in Hfull. rewrite IH; rewrite <-Hpp, Hdrop.
    + by rewrite <-foldl_app, take_drop.
    + rewrite length_drop. unfold RECOVERY_PAGE in *. lia.
  - apply bool_decide_eq_false in Hfull. rewrite length_take in Hfull. by rewrite take_ge by lia.
Qed.

Lemma sorted_below (l : list (Job * list Task)) m :
  StronglySorted before l -> Forall (fun jt => id_of jt < m) l -> (length l <= N.to_nat m)%nat.
Proof.
  intros Hs Hb. assert (forall k, Forall (fun jt => k <= id_of jt) l -> (length l + N.to_nat k <= N.to_nat m)%nat \/ l = []) as Hk.
  { induction Hs as [|x l Hs IH Hall]; intros k Hk; [by right|]. left.
    apply Forall_cons in Hb as [Hx Hb], Hk as [Hkx _]. cbn [length].
    destruct (IH Hb (id_of x + 1)) as [Hle| ->]; [|lia|cbn; lia].
    eapply Forall_impl; [exact Hall|]. unfold before. cbn. lia. }
  destruct (Hk 0) as [?| ->]; [|lia|cbn; lia]. eapply Forall_impl; [exact Hb|]. cbn. lia.
Qed.

(** The loop ends, and it has seen every unfinished job. *)
Lemma restored_jobs_eq p recent all :
  store_wf p -> unfinished_jobs p = Ok all ->
  restored_jobs p recent =
    foldl collect (foldl (fun m job => collect m (job, unwrap_or_default (tasks_for_job (job_id job) p))) ∅ recent) all.
Proof.
  intros Hwf Hall. unfold restored_jobs.
  destruct (unfinished_jobs_sound p all Hwf Hall) as [Hb Hs].
  assert (filter (past None) all = all) as Hf by (apply filter_all, Forall_true; done).
  rewrite (restore_pages_spec _ None _ _ all Hwf Hall); rewrite Hf; [done|].
  assert (length all <= N.to_nat (job_mark p))%nat; [|lia]. apply sorted_below; [done|].
  eapply Forall_impl; [exact Hb|]. cbn. tauto.
Qed.
End Paging.

(** ** What the store must have recorded *)
Definition in_state (st : TaskState -> bool) (t : Task) : Prop := st (task_state t) = true.
#[export] Instance in_state_dec st t : Decision (in_state st t).
Proof. unfold in_state. apply _. Defined.
Definition how_many (st : TaskState -> bool) (ts : list Task) : N := N.of_nat (length (filter (in_state st) ts)).

(** A stored job whose counters and state agree with its stored tasks. *)
Definition consistent (jt : Job * list Task) : Prop :=
  let '(job, ts) := jt in
  NoDup (task_id <$> ts) /\ Forall (fun t => task_job_id t = job_id job /\ Task_wf t) ts /\
  job_tasks_completed job = how_many is_completed ts /\ job_tasks_failed job = how_many is_failed ts /\
  job_task_count job = N.of_nat (length ts) /\ 1 <= job_task_count job <= u16_max /\
  match job_state job with
  | JobState.Queued => Forall (in_state is_open) ts
  | JobState.Running => job_tasks_completed job + job_tasks_failed job < job_task_count job
  | JobState.Completed => job_tasks_completed job = job_task_count job /\ job_tasks_failed job = 0
  | JobState.Failed => job_tasks_completed job + job_tasks_failed job = job_task_count job /\ 0 < job_tasks_failed job
  | JobState.Cancelled => False
  end.

(** What a restored task looks like in memory. *)
Definition restore_view (unfinished : bool) (now : Millis) (t : Task) : Task :=
  if unfinished && is_open (task_state t)
  then task_with t TaskState.Queued None (task_attempt t) (task_output t) now else t.

Definition unfinished (job : Job) : bool := negb (JobState_is_terminal (job_state job)).

Lemma restore_view_id u now t : task_id (restore_view u now t) = task_id t.
Proof. unfold restore_view. by destruct (_ && _). Qed.
Lemma restore_view_job u now t : task_job_id (restore_view u now t) = task_job_id t.
Proof. unfold restore_view. by destruct (_ && _). Qed.

Lemma how_many_cons st t ts : how_many st (t :: ts) = one_if (st (task_state t)) + how_many st ts.
Proof.
  unfold how_many. rewrite filter_cons. destruct (decide (in_state st t)) as [Hs|Hs]; unfold in_state in Hs.
  - rewrite Hs. cbn [length one_if]. lia.
  - destruct (st (task_state t)); [done|]. cbn [one_if]. lia.
Qed.

Lemma how_many_split ts :
  how_many is_completed ts + how_many is_failed ts + how_many is_open ts = N.of_nat (length ts).
Proof.
  induction ts as [|t ts IH]; [done|]. rewrite !how_many_cons. cbn [length].
  destruct (task_state t); cbn [is_completed is_failed is_open TaskState_is_terminal negb one_if]; lia.
Qed.

Lemma how_many_all st ts : how_many st ts = 0 -> Forall (fun t => ~ in_state st t) ts.
Proof.
  unfold how_many. intros Hz. apply Forall_forall. intros t Ht Hs.
  assert (t ∈ filter (in_state st) ts) as Hin by (by apply list_elem_of_filter).
  destruct (filter (in_state st) ts); [by apply elem_of_nil in Hin|cbn in Hz; lia].
Qed.

Lemma how_many_view st u now ts :
  (forall s, is_open s = true -> st s = false) -> how_many st (restore_view u now <$> ts) = how_many st ts.
Proof.
  intros Hst. induction ts as [|t ts IH]; [done|]. rewrite fmap_cons, !how_many_cons, IH. f_equal. f_equal.
  unfold restore_view. destruct u; [|done]. cbn [andb].
  destruct (is_open (task_state t)) eqn:Ho; [|done]. cbn. by rewrite !Hst.
Qed.

Lemma tally_list j st ts :
  NoDup (task_id <$> ts) -> Forall (fun t => task_job_id t = j) ts ->
  tally j st (insert_tasks ∅ ts) = how_many st ts.
Proof.
  intros Hnd Hj. rewrite tally_insert_tasks by (done || by apply Forall_true). unfold tally at 1. rewrite count_empty, N.add_0_l.
  clear Hnd. induction Hj as [|t ts Ht _ IH]; [done|]. cbn [foldr]. rewrite IH, how_many_cons.
  unfold share. by rewrite decide_True.
Qed.

(** A consistent job comes back with its open tasks queued. *)
Lemma consistent_joining job ts now :
  consistent (job, ts) ->
  let ts' := restore_view (unfinished job) now <$> ts in
  NoDup (task_id <$> ts') /\ Forall (joining (job_id job)) ts' /\ job_ok (insert_tasks ∅ ts') (job_id job) job /\
  task_id <$> filter (fun t => task_state t = TaskState.Queued) ts' =
    task_id <$> filter (fun t => unfinished job && is_open (task_state t) = true) ts.
Proof.
  intros (Hnd & Hts & Hc & Hf & Hn & Hb & Hst) ts'. pose proof (how_many_split ts) as Hsplit.
  assert (unfinished job = false -> Forall (fun t => is_open (task_state t) = false) ts) as Hterm.
  { intros Hu. eapply Forall_impl; [apply (how_many_all is_open ts)|].
    - unfold unfinished in Hu. destruct (job_state job); try done; lia.
    - intros t Ho. unfold in_state in Ho. by destruct (is_open _). }
  assert (task_id <$> ts' = task_id <$> ts) as Hids.
  { unfold ts'. rewrite <-list_fmap_compose. apply list_fmap_ext. intros i t _. apply restore_view_id. }
  assert (NoDup (task_id <$> ts')) as Hnd' by (by rewrite Hids).
  assert (Forall (fun t => task_job_id t = job_id job) ts') as Hj'.
  { apply Forall_fmap. eapply Forall_impl; [exact Hts|]. cbn. intros t [? _]. by rewrite restore_view_job. }
  split_and!; [done| | |].
  - apply Forall_fmap, Forall_forall. intros t Ht. rewrite Forall_forall in Hts. destruct (Hts t Ht) as [Hj Hwf].
    unfold joining, compose. rewrite restore_view_job. split; [done|]. unfold restore_view.
    destruct (unfinished job) eqn:Hu; cbn [andb].
    + unfold Task_wf, in_flight in *. destruct (task_state t) eqn:Hs; cbn; rewrite ?Hs; cbn; split; try done;
        destruct Hwf; try done; auto.
    + split; [done|]. unfold in_flight. specialize (Hterm eq_refl). rewrite Forall_forall in Hterm.
      specialize (Hterm t Ht). by destruct (task_state t).
  - unfold job_ok. rewrite !(tally_list (job_id job)) by done. unfold ts'. rewrite !how_many_view by (by intros []).
    split_and!; try done; try lia.
    { unfold how_many. rewrite filter_all; [by rewrite length_fmap|]. by apply Forall_true. }
    destruct (job_state job) eqn:Hjs; try done. intros id t [[Hin _]|[_ Hx]]%lookup_insert_tasks _;
      [|by rewrite lookup_empty in Hx|done].
    apply list_elem_of_fmap in Hin as (u & -> & Hu). rewrite Forall_forall in Hst. specialize (Hst u Hu).
    unfold in_state in Hst. unfold restore_view, unfinished. by rewrite Hjs, Hst.
  - unfold ts'. destruct (unfinished job) eqn:Hu; cbn [andb].
    + clear. induction ts as [|t ts IH]; [done|]. rewrite fmap_cons, !filter_cons.
      assert (task_state (restore_view true now t) = TaskState.Queued <-> is_open (task_state t) = true) as Hiff.
      { unfold restore_view. cbn [andb]. destruct (is_open (task_state t)) eqn:Ho; [done|].
        split; [|done]. intros Hq. by rewrite Hq in Ho. }
      destruct (decide (task_state (restore_view true now t) = _)), (decide (is_open (task_state t) = true));
        try tauto; rewrite ?fmap_cons, ?restore_view_id; by rewrite IH.
    + specialize (Hterm eq_refl). clear -Hterm. induction Hterm as [|t ts Ho _ IH]; [done|].
      rewrite fmap_cons, !filter_cons. rewrite !decide_False; [done|done|].
      intros Heq. change (task_state t = TaskState.Queued) in Heq. by rewrite Heq in Ho.
Qed.

(** ** The restore loop *)
Section Restore.
Context {P S L : Type} `{ClusterStoreLaws P} `{SchedulerLaws S} `{Elector L} (E : Env S L).
Implicit Types s : Sup P.
Abbreviation GoodS s := (Good nobody (s_nodes s) (s_jobs s) (s_tasks s) (s_queue s)).

Lemma restore_tasks_eq u now ts s :
  let s' := foldl (restore_task u now) s ts in
  s_tasks s' = insert_tasks (s_tasks s) (restore_view u now <$> ts) /\
  s_queue s' = s_queue s ++ (task_id <$> filter (fun t => u && is_open (task_state t) = true) ts) /\
  s_nodes s' = s_nodes s /\ s_jobs s' = s_jobs s /\ store_le (s_store s) (s_store s').
Proof.
  revert s. induction ts as [|t ts IH]; intros s; cbn [foldl]; [by rewrite app_nil_r|].
  destruct (IH (restore_task u now s t)) as (-> & -> & -> & -> & Hle). clear IH.
  rewrite fmap_cons, filter_cons. unfold restore_task, restore_view at 1 2. fold (is_open (task_state t)).
  change (negb (TaskState_is_terminal (task_state t))) with (is_open (task_state t)).
  unfold restore_task in Hle. change (negb (TaskState_is_terminal (task_state t))) with (is_open (task_state t)) in Hle.
  destruct (u && is_open (task_state t)) eqn:Hu.
  - rewrite decide_True by done. split_and!; try done.
    + cbn [s_queue set_tasks set_queue save_task_inline set_store]. by rewrite <-app_assoc.
    + etrans; [|exact Hle]. apply save_task_le.
  - by rewrite decide_False.
Qed.

(** The loop over the jobs: what is in memory so far came from the jobs already
    treated, and the invariant holds all along. *)
Lemma restore_loop now l s :
  GoodS s -> Forall consistent l -> NoDup (job_id ∘ fst <$> l) ->
  (forall jt1 jt2 t1 t2, jt1 ∈ l -> jt2 ∈ l -> t1 ∈ jt1.2 -> t2 ∈ jt2.2 -> task_id t1 = task_id t2 ->
     job_id jt1.1 = job_id jt2.1) ->
  (forall jt, jt ∈ l -> s_jobs s !! job_id jt.1 = None) ->
  (forall jt t, jt ∈ l -> t ∈ jt.2 -> s_tasks s !! task_id t = None) ->
  let s' := foldl (restore_job now) s l in
  GoodS s' /\ s_nodes s' = s_nodes s /\ store_le (s_store s) (s_store s') /\
  (forall j job, s_jobs s' !! j = Some job -> s_jobs s !! j = Some job \/ exists ts, (job, ts) ∈ l /\ job_id job = j) /\
  (forall id t, s_tasks s' !! id = Some t -> s_tasks s !! id = Some t \/
     exists jt u, jt ∈ l /\ u ∈ jt.2 /\ t = restore_view (unfinished jt.1) now u /\ task_id u = id) /\
  (forall jt, jt ∈ l -> s_jobs s' !! job_id jt.1 = Some jt.1 /\
     forall u, u ∈ jt.2 -> s_tasks s' !! task_id u = Some (restore_view (unfinished jt.1) now u)) /\
  (forall j job, s_jobs s !! j = Some job -> (forall jt, jt ∈ l -> job_id jt.1 <> j) -> s_jobs s' !! j = Some job) /\
  (forall id t, s_tasks s !! id = Some t -> s_tasks s' !! id = Some t).
Proof.
  revert s. induction l as [|[job ts] l IH]; intros s G Hcons Hnd Hdis Hjf Htf; cbn [foldl].
  { split_and!; try done; try (by auto); intros jt Hx; by apply elem_of_nil in Hx. }
  apply Forall_cons in Hcons as [Hc Hcons]. rewrite fmap_cons in Hnd. apply NoDup_cons in Hnd as [Hni Hnd].
  destruct (consistent_joining job ts now Hc) as (Hnd' & Hjoin & Hok & Hq').
  set (s1 := restore_job now s (job, ts)).
  destruct (restore_tasks_eq (unfinished job) now ts (set_jobs (<[job_id job := job]> (s_jobs s)) s)) as (Et & Eq & En & Ej & Es).
  change (foldl _ _ ts) with s1 in Et, Eq, En, Ej, Es. cbn [s_jobs set_jobs s_tasks s_queue s_nodes s_store] in Et, Eq, En, Ej, Es.
  assert (forall u, u ∈ ts -> s_tasks s !! task_id u = None) as Htf1 by (intros u Hu; apply (Htf (job, ts)); [by left|done]).
  assert (GoodS s1) as G1.
  { rewrite En, Ej, Et, Eq, <-Hq'. apply add_job_core; try done.
    - apply (Hjf (job, ts)). by left.
    - apply Forall_fmap, Forall_forall. intros u Hu. cbn. rewrite restore_view_id. auto. }
  assert (forall id t, s_tasks s1 !! id = Some t <->
    (exists u, u ∈ ts /\ task_id u = id /\ t = restore_view (unfinished job) now u) \/
    ((forall u, u ∈ ts -> task_id u <> id) /\ s_tasks s !! id = Some t)) as Hlook.
  { intros id t. rewrite Et, lookup_insert_tasks by done. rewrite !list_elem_of_fmap. split.
    - intros [[(u & -> & Hu) Hid]|[Hno Hs]]; [left; exists u; by rewrite restore_view_id in Hid|right].
      split; [|done]. intros u Hu <-. apply Hno. exists (restore_view (unfinished job) now u).
      rewrite restore_view_id. split; [done|]. by apply list_elem_of_fmap_2.
    - intros [(u & Hu & <- & ->)|[Hno Hs]]; [left; rewrite restore_view_id; eauto|right]. split; [|done].
      intros (v & -> & (u & -> & Hu)%list_elem_of_fmap). rewrite restore_view_id in *. by apply (Hno u). }
  destruct (IH s1) as (G2 & N2 & S2 & J2 & T2 & In2 & KJ2 & KT2); clear IH; try done.
  - intros jt1 jt2 t1 t2 H1' H2'. apply Hdis; by right.
  - intros jt Hjt. rewrite Ej, lookup_insert_ne; [apply Hjf; by right|]. intros Heq. apply Hni.
    change ((job_id ∘ fst) (job, ts)) with (job_id job). rewrite Heq.
    by apply (list_elem_of_fmap_2 (job_id ∘ fst)).
  - intros jt t Hjt Ht. destruct (s_tasks s1 !! task_id t) as [v|] eqn:Hv; [|done]. exfalso.
    apply Hlook in Hv as [(u & Hu & Hid & _)|[_ Hv]]; [|rewrite (Htf jt t) in Hv; [done|by right|done]].
    apply Hni. change ((job_id ∘ fst) (job, ts)) with (job_id job).
    assert (job_id job = job_id jt.1) as -> by (apply (Hdis (job, ts) jt u t); [by left|by right|done..]).
    by apply (list_elem_of_fmap_2 (job_id ∘ fst)).
  - assert (forall jt, jt ∈ l -> job_id jt.1 <> job_id job) as Hne.
    { intros jt Hjt Heq. apply Hni. cbn. rewrite <-Heq. by apply (list_elem_of_fmap_2 (job_id ∘ fst)). }
    split_and!; [done|congruence|by etrans|..].
    + intros j jb Hjb. destruct (J2 j jb Hjb) as [Hs1|(ts' & Hin & Hid)]; [|right; exists ts'; split; [by right|done]].
      rewrite Ej in Hs1. apply lookup_insert_Some in Hs1 as [[<- <-]|[_ ?]]; [right|by left]. exists ts. split; [by left|done].
    + intros id t Ht. destruct (T2 id t Ht) as [Hs1|(jt & u & Hin & ?)]; [|right; exists jt, u; split; [by right|done]].
      apply Hlook in Hs1 as [(u & Hu & Hid & ->)|[_ ?]]; [right|by left]. exists (job, ts), u. split; [by left|done].
    + intros jt [->|Hjt]%elem_of_cons; [|auto]. cbn [fst snd]. split.
      * apply KJ2; [by rewrite Ej, lookup_insert_eq|done].
      * intros u Hu. apply KT2, Hlook. left. eauto.
    + intros j jb Hjb Hno. apply KJ2; [|intros jt Hjt; apply Hno; by right].
      rewrite Ej, lookup_insert_ne; [done|]. apply (Hno (job, ts)). by left.
    + intros id t Ht. apply KT2, Hlook. right. split; [|done]. intros u Hu <-. by rewrite Htf1 in Ht.
Qed.
End Restore.

(** ** The registry at startup *)
Abbreviation entry_id := (fun e => node_id (e_node e)).

Lemma keyed_alter {V} (id : V -> N) (f : V -> V) k m :
  (forall v, id (f v) = id v) -> keyed id m -> keyed id (alter f k m).
Proof.
  intros Hf Hm i v Hi. apply lookup_alter_Some in Hi as [(<- & w & Hw & ->)|[_ Hi]]; [rewrite Hf|]; by apply Hm.
Qed.

Lemma keyed_foldl {A V} (id : V -> N) (f : gmap N V -> A -> gmap N V) l m :
  (forall m a, keyed id m -> keyed id (f m a)) -> keyed id m -> keyed id (foldl f m l).
Proof. intros Hf. revert m. induction l as [|a l IH]; intros m Hm; [done|]. cbn. auto. Qed.

Section Registry.
Context {S L : Type} (E : Env S L).

Lemma simulated_nodes_keyed now l nodes nodes' :
  keyed entry_id nodes -> simulated_nodes E now l nodes = Some nodes' -> keyed entry_id nodes'.
Proof.
  revert nodes. induction l as [|i l IH]; intros nodes Hk Hs; [by simplify_eq/=|]. cbn [simulated_nodes] in Hs.
  apply bind_Some in Hs as (prof & _ & Hs). eapply IH; [|exact Hs]. by apply keyed_insert.
Qed.

Lemma declare_remote_keyed now nodes d : keyed entry_id nodes -> keyed entry_id (declare_remote now nodes d).
Proof. intros Hk. unfold declare_remote. destruct (nodes !! rn_id d); [done|]. by apply keyed_insert. Qed.

Lemma place_replicas_keyed role ids n cursor nodes :
  keyed entry_id nodes -> keyed entry_id (place_replicas role ids n cursor nodes).2.
Proof.
  revert cursor nodes. induction n as [|n IH]; intros cursor nodes Hk; [done|]. cbn [place_replicas].
  destruct (place_role role ids cursor nodes) as [[offset nodes']|] eqn:Hp; [|done]. apply IH.
  unfold place_role in Hp. apply bind_Some in Hp as (o & _ & Hp). apply bind_Some in Hp as (id & _ & [= _ <-]).
  by apply keyed_alter.
Qed.

Lemma assign_initial_roles_keyed nodes : keyed entry_id nodes -> keyed entry_id (assign_initial_roles E nodes).
Proof.
  intros Hk. unfold assign_initial_roles. destruct (keys nodes) as [|id ids]; [done|].
  set (nodes1 := foldl _ nodes (id :: ids)).
  assert (keyed entry_id nodes1) as Hk1.
  { apply keyed_foldl; [|done]. intros m a Hm. by apply keyed_alter. }
  clearbody nodes1. generalize 0%nat. revert nodes1 Hk1.
  induction DEGRADATION_PRIORITY as [|role roles IH]; intros nodes1 Hk1 cursor; [done|]. cbn [foldl].
  destruct (bool_decide _); [by apply IH|]. cbn [fst snd].
  pose proof (place_replicas_keyed role (id :: ids)
    (N.to_nat (min_replicas (RolePolicies_get (policies (config E)) role))) cursor nodes1 Hk1) as Hk2.
  destruct (place_replicas role (id :: ids) _ cursor nodes1) as [c n2]. by apply IH.
Qed.
End Registry.

Lemma Good_empty nodes : keyed entry_id nodes -> Good nobody nodes ∅ ∅ [].
Proof.
  intros Hk. constructor; try done.
  - apply NoDup_nil_2.
  - intros id. split; [intros Hx; by apply elem_of_nil in Hx|]. intros (t & Ht & _). by rewrite lookup_empty in Ht.
Qed.

(** ** Restart *)
Section Restart.
Context {P S L : Type} `{ClusterStoreLaws P} `{SchedulerLaws S} `{Elector L} (E : Env S L).
Implicit Types s : Sup P.
Abbreviation GoodS s := (Good nobody (s_nodes s) (s_jobs s) (s_tasks s) (s_queue s)).

Definition blank (p : P) s : Prop :=
  keyed entry_id (s_nodes s) /\ s_jobs s = ∅ /\ s_tasks s = ∅ /\ s_queue s = [] /\ s_store s = p.

Lemma bootstrap_node_blank p s id : blank p s -> blank p (bootstrap_node E s id).
Proof.
  intros (Hk & Hj & Ht & Hq & Hs). unfold bootstrap_node. destruct (s_nodes s !! id) as [e|] eqn:He; [|done].
  destruct (bool_decide _); [|done]. unfold launch_node. cbn [s_nodes persist_roles push set_tel set_pending tock set_ticks].
  rewrite He. split_and!; try done. by apply keyed_alter.
Qed.

Lemma restore_roles_blank p s : blank p s -> blank p (restore_roles s).
Proof.
  intros (Hk & Hj & Ht & Hq & Hs). unfold restore_roles. destruct (load_node_roles (s_store s)); [|done].
  split_and!; try done. apply keyed_foldl; [|done]. intros m ir Hm. by apply keyed_alter.
Qed.

(** The state [restore_jobs] starts from. *)
Lemma bootstrap_blank p s :
  bootstrap E (Supervisor_new p) = Some s ->
  exists s1, blank p s1 /\ s = refresh_leadership E (restore_jobs E s1).
Proof.
  unfold bootstrap. cbv zeta. intros (nodes & Hn & [= <-])%bind_Some. eexists. split; [|reflexivity].
  set (s0 := restore_roles _). assert (blank p s0) as Hb.
  { apply restore_roles_blank. split_and!; try done. apply assign_initial_roles_keyed, keyed_foldl.
    - intros m d Hm. by apply declare_remote_keyed.
    - eapply simulated_nodes_keyed; [|exact Hn]. apply keyed_empty. }
  clearbody s0. generalize (keys (s_nodes s0)). intros ids. revert s0 Hb.
  induction ids as [|id ids IH]; intros s0 Hb; [done|]. cbn [foldl]. by apply IH, bootstrap_node_blank.
Qed.

(** A job as [restore_jobs] loads it. *)
Definition loaded (p : P) (jt : Job * list Task) : Prop :=
  (exists n jobs, recent_jobs n p = Ok jobs /\ jt.1 ∈ jobs /\
     jt.2 = unwrap_or_default (tasks_for_job (job_id jt.1) p)) \/
  (exists all, unfinished_jobs p = Ok all /\ jt ∈ all).

Lemma loaded_tasks p jt :
  store_wf p -> loaded p jt ->
  job_id jt.1 < job_mark p /\ jt.2 = unwrap_or_default (tasks_for_job (job_id jt.1) p) /\
  Forall (fun t => task_id t < task_mark p) jt.2.
Proof.
  intros Hwf Hl. assert (job_id jt.1 < job_mark p /\ jt.2 = unwrap_or_default (tasks_for_job (job_id jt.1) p)) as [Hj Ht].
  { destruct Hl as [(n & jobs & Hr & Hin & Heq)|(all & Hu & Hin)].
    - split; [|done]. pose proof (recent_jobs_sound n p jobs Hwf Hr) as Hf. rewrite Forall_forall in Hf. auto.
    - destruct (unfinished_jobs_sound p all Hwf Hu) as [Hf _]. rewrite Forall_forall in Hf.
      destruct (Hf jt Hin) as (? & _ & ->). done. }
  split_and!; try done. rewrite Ht. destruct (tasks_for_job (job_id jt.1) p) as [ts|] eqn:Hts; cbn; [|constructor].
  destruct (tasks_for_job_sound _ _ _ Hwf Hj Hts) as [Hf _]. eapply Forall_impl; [exact Hf|]. cbn. tauto.
Qed.

Lemma collect_lookup m l jt j :
  foldl collect m l !! j = Some jt -> m !! j = Some jt \/ (jt ∈ l /\ job_id jt.1 = j).
Proof.
  revert m. induction l as [|x l IH]; intros m Hm; [by left|]. cbn [foldl] in Hm.
  destruct (IH _ Hm) as [Hx|[Hin Hid]]; [|right; split; [by right|done]].
  unfold collect in Hx. apply lookup_insert_Some in Hx as [[<- <-]|[_ ?]]; [right; split; [by left|done]|by left].
Qed.

Lemma collect_last m l jt :
  StronglySorted before l -> jt ∈ l -> foldl collect m l !! job_id jt.1 = Some jt.
Proof.
  intros Hs. revert m. induction Hs as [|x l Hs IH Hall]; intros m Hin; [by apply elem_of_nil in Hin|].
  apply elem_of_cons in Hin as [->|Hin]; [|by apply IH]. cbn [foldl].
  assert (forall l m, Forall (before x) l -> foldl collect m l !! job_id x.1 = m !! job_id x.1) as Hkeep.
  { clear. induction l as [|y l IH]; intros m Hb; [done|]. apply Forall_cons in Hb as [Hy Hb]. cbn [foldl].
    rewrite IH by done. unfold collect. rewrite lookup_insert_ne; [done|]. unfold before in Hy. lia. }
  rewrite Hkeep by done. apply lookup_insert_eq.
Qed.

Lemma restored_loaded p recent n all jt j :
  store_wf p -> recent_jobs n p = Ok recent -> unfinished_jobs p = Ok all ->
  restored_jobs p recent !! j = Some jt -> loaded p jt /\ job_id jt.1 = j.
Proof.
  intros Hwf Hr Hu Hj. rewrite (restored_jobs_eq p recent all) in Hj by done.
  apply collect_lookup in Hj as [Hj|[Hin <-]]; [|split; [right; eauto|done]].
  assert (forall l, foldl (fun m job => collect m (job, unwrap_or_default (tasks_for_job (job_id job) p))) ∅ l =
    foldl collect ∅ ((fun job => (job, unwrap_or_default (tasks_for_job (job_id job) p))) <$> l)) as Heq.
  { intros l. generalize (∅ : gmap N (Job * list Task)). induction l as [|x l IH]; intros m; [done|]. cbn. by rewrite IH. }
  rewrite Heq in Hj. apply collect_lookup in Hj as [Hj|[Hin <-]]; [by rewrite lookup_empty in Hj|].
  split; [|done]. left. apply list_elem_of_fmap in Hin as (job & -> & Hin). eauto.
Qed.

(** The state after a restart, from any store whose jobs agree with their tasks. *)
Lemma restart_good p s recent all :
  store_wf p -> (forall jt, loaded p jt -> consistent jt) ->
  recent_jobs (job_buffer (config E)) p = Ok recent -> unfinished_jobs p = Ok all ->
  bootstrap E (Supervisor_new p) = Some s ->
  Inv s /\ forall jt, jt ∈ all -> s_jobs s !! job_id jt.1 = Some jt.1 /\
    forall t, t ∈ jt.2 -> exists now, s_tasks s !! task_id t = Some (restore_view true now t).
Proof.
  intros Hwf Hcons Hr Hu Hboot. destruct (bootstrap_blank p s Hboot) as (s1 & (Hk & Hj & Ht & Hq & Hs) & ->).
  destruct (refresh_eq E (restore_jobs E s1)) as (Rn & Rj & Rt & Rq & Rs). unfold Inv. rewrite Rn, Rj, Rt, Rq, Rs.
  clear Rn Rj Rt Rq Rs Hboot. unfold restore_jobs. rewrite Hs, Hr. cbv zeta.
  change (s_store (tock s1)) with (s_store s1). rewrite Hs.
  set (l := values (restored_jobs p recent)). set (s2 := set_tel _ _).
  assert (forall jt, jt ∈ l -> loaded p jt) as Hl.
  { intros jt (j & Hjt)%elem_of_values. by eapply restored_loaded. }
  assert (keyed (job_id ∘ fst) (restored_jobs p recent)) as Hkey.
  { intros j jt Hjt. by eapply restored_loaded. }
  destruct (restore_loop (now_of E s1) l s2) as (G & En & Es & J & T & In & _).
  - change (Good nobody (s_nodes s1) (s_jobs s1) (s_tasks s1) (s_queue s1)). rewrite Hj, Ht, Hq. by apply Good_empty.
  - apply Forall_forall. auto.
  - by apply keyed_values_NoDup.
  - intros jt1 jt2 t1 t2 H1' H2' Ht1 Ht2 Hid. destruct (loaded_tasks p jt1 Hwf (Hl _ H1')) as (B1 & E1 & _).
    destruct (loaded_tasks p jt2 Hwf (Hl _ H2')) as (B2 & E2 & _). rewrite E1 in Ht1. rewrite E2 in Ht2.
    destruct (tasks_for_job (job_id jt1.1) p) eqn:T1; [|by apply elem_of_nil in Ht1].
    destruct (tasks_for_job (job_id jt2.1) p) eqn:T2; [|by apply elem_of_nil in Ht2].
    eapply (tasks_for_job_unique _ _ p); eauto.
  - intros jt _. change (s_jobs s2) with (s_jobs s1). by rewrite Hj.
  - intros jt t _ _. change (s_tasks s2) with (s_tasks s1). by rewrite Ht.
  - change (s_jobs s2) with (s_jobs s1) in J. change (s_tasks s2) with (s_tasks s1) in T. rewrite Hj in J. rewrite Ht in T.
    change (s_store s2) with (s_store s1) in Es. rewrite Hs in Es. destruct Es as (Ew & Ej & Et).
    split; [split; [exact G|split_and!]|].
    + by apply Ew.
    + intros j job Hjob. destruct (J j job Hjob) as [Hx|(ts & Hin & <-)]; [by rewrite lookup_empty in Hx|].
      destruct (loaded_tasks p _ Hwf (Hl _ Hin)) as (Hlt & _). cbn in *. lia.
    + intros id t Hid. destruct (T id t Hid) as [Hx|(jt & u & Hin & Huin & _ & <-)]; [by rewrite lookup_empty in Hx|].
      destruct (loaded_tasks p _ Hwf (Hl _ Hin)) as (_ & _ & Hlt). rewrite Forall_forall in Hlt.
      specialize (Hlt u Huin). cbn in *. lia.
    + intros jt Hjt. destruct (unfinished_jobs_sound p all Hwf Hu) as [Hf Hsort]. rewrite Forall_forall in Hf.
      destruct (Hf jt Hjt) as (_ & Hopen & _).
      destruct (In jt) as [Hjob Htasks].
      { apply elem_of_values. exists (job_id jt.1). rewrite (restored_jobs_eq p recent all) by done. by apply collect_last. }
      split; [done|]. intros t Htin. exists (now_of E s1). rewrite (Htasks t Htin). unfold unfinished. by rewrite Hopen.
Qed.
End Restart.
