(* ===== verification/SupervisorLog.v ===== *)
(** * What the supervisor tells its subscribers

    The event stream as the handlers produce it: its numbering, who is announced
    as leader, and how often a task is announced as assigned.  A handler is
    [Calm] when it neither assigns a task nor touches the leadership; only
    [dispatch] does the first and only [refresh_leadership] the second, so the
    three are followed separately. *)
From stdpp Require Import prelude gmap sorting.
From S2P Require Import Prelude Time Role Node Job Event Scheduler Store Snapshot Protocol Supervisor SupervisorInv.

(** ** The stream *)
Definition numbered (base : N) (recs : list EventRecord) : Prop :=
  forall i r, recs !! i = Some r -> er_seq r = wrap 64 (base + N.of_nat i + 1).

Definition leader_event (ev : ClusterEvent) : bool :=
  match ev with LeaderElected _ | LeaderLost _ => true | _ => false end.
Definition assigns_of (id : TaskId) (ev : ClusterEvent) : nat :=
  match ev with TaskAssigned t _ => if decide (t = id) then 1 else 0 | _ => 0 end.
Definition assigns (id : TaskId) (evs : list ClusterEvent) : nat := foldr (fun ev n => assigns_of id ev + n)%nat 0%nat evs.

(** The leader a subscriber that replays the stream knows of. *)
Definition hear (leader : option NodeId) (ev : ClusterEvent) : option NodeId :=
  match ev with LeaderElected node => Some node | LeaderLost _ => None | _ => leader end.
Definition told_leader (evs : list ClusterEvent) : option NodeId := foldl hear None evs.

Definition quiet_assign (ev : ClusterEvent) : Prop := forall id, assigns_of id ev = 0%nat.
Definition quiet_leader (ev : ClusterEvent) : Prop := leader_event ev = false.
Definition plain (ev : ClusterEvent) : Prop := quiet_assign ev /\ quiet_leader ev.

Lemma assigns_app id l k : assigns id (l ++ k) = (assigns id l + assigns id k)%nat.
Proof. unfold assigns. induction l as [|ev l IH]; [done|]. cbn [foldr app]. rewrite IH. lia. Qed.
Lemma assigns_quiet id l : Forall quiet_assign l -> assigns id l = 0%nat.
Proof. unfold assigns. induction 1 as [|ev l Hev _ IH]; [done|]. cbn [foldr]. by rewrite IH, (Hev id). Qed.
Lemma told_quiet o l : Forall quiet_leader l -> foldl hear o l = o.
Proof. induction 1 as [|ev l Hev _ IH]; [done|]. cbn. by destruct ev. Qed.

Lemma wrap_add_l w a b : wrap w (wrap w a + b) = wrap w (a + b).
Proof. unfold wrap. by rewrite N.Div0.add_mod_idemp_l. Qed.
Lemma wrap_congr w a b c : wrap w a = wrap w b -> wrap w (a + c) = wrap w (b + c).
Proof. intros Hab. by rewrite <-(wrap_add_l w a), Hab, wrap_add_l. Qed.

Section Log.
Context {P S L : Type} `{ClusterStoreLaws P} `{SchedulerLaws S} `{Elector L} (E : Env S L).
Implicit Types s : Sup P.

Definition heard s : list ClusterEvent := er_event <$> s_broadcast s.

(** [s'] has emitted [evs] more than [s]. *)
Definition Log s (evs : list ClusterEvent) s' : Prop :=
  exists recs, s_broadcast s' = s_broadcast s ++ recs /\ er_event <$> recs = evs /\
    numbered (s_event_seq s) recs /\
    wrap 64 (s_event_seq s') = wrap 64 (s_event_seq s + N.of_nat (length recs)) /\
    (s_events s `suffix_of` s_broadcast s -> s_events s' `suffix_of` s_broadcast s').

Lemma Log_heard s evs s' : Log s evs s' -> heard s' = heard s ++ evs.
Proof. intros (recs & Hb & <- & _). unfold heard. by rewrite Hb, fmap_app. Qed.

Lemma Log_nil s s' :
  s_broadcast s' = s_broadcast s -> s_event_seq s' = s_event_seq s ->
  (s_events s `suffix_of` s_broadcast s -> s_events s' `suffix_of` s_broadcast s') -> Log s [] s'.
Proof.
  intros Hb Hq He. exists []. rewrite app_nil_r, Hq, N.add_0_r. split_and!; try done.
Qed.

Lemma Log_trans s1 s2 s3 l k : Log s1 l s2 -> Log s2 k s3 -> Log s1 (l ++ k) s3.
Proof.
  intros (r1 & B1 & <- & N1 & Q1 & E1) (r2 & B2 & <- & N2 & Q2 & E2). exists (r1 ++ r2).
  rewrite B2, B1, app_assoc, fmap_app, length_app. split_and!; [done..| | |].
  - intros i r [Hi|[Hge Hi]]%lookup_app_Some; [by apply N1|]. rewrite (N2 _ _ Hi), <-N.add_assoc.
    rewrite (wrap_congr _ _ _ _ Q1). f_equal. lia.
  - rewrite Q2, (wrap_congr _ _ _ _ Q1). f_equal. lia.
  - rewrite <-B1, <-B2. auto.
Qed.

Lemma Log_lead s evs s1 l g : Log s evs s1 -> Log s evs (set_gateway g (set_leader l s1)).
Proof. intros HL. exact HL. Qed.

Lemma Log_emit ev s : Log s [ev] (emit E ev s).
Proof.
  eexists [_]. split_and!; [done|done| | |].
  - intros [|i] r Hi; [|done]. injection Hi as <-. cbn. f_equal. lia.
  - cbn. unfold wrap. by rewrite N.Div0.mod_mod.
  - intros [k Hk]. exists k. cbn. by rewrite Hk, app_assoc.
Qed.

(** ** Handlers that emit events of one sort and leave the leadership alone *)
Definition Quiet (K : ClusterEvent -> Prop) s s' : Prop :=
  s_leader s' = s_leader s /\ s_gateway s' = s_gateway s /\ exists evs, Log s evs s' /\ Forall K evs.

(** A task may be given up, or queued again while it has attempts left. *)
Definition Moved s s' : Prop :=
  keyed task_id (s_tasks s) -> keyed task_id (s_tasks s') /\
  forall id t', s_tasks s' !! id = Some t' -> exists t, s_tasks s !! id = Some t /\ task_attempt t <= task_attempt t' /\
    (task_state t' = TaskState.Queued -> task_state t = TaskState.Queued \/ task_attempt t < max_task_attempts (config E)).

Definition Calm s s' : Prop := Quiet plain s s' /\ Moved s s' /\ s_store s' = s_store s.

#[export] Instance Quiet_preorder K : PreOrder (Quiet K).
Proof.
  split.
  - intros s. split_and!; [done..|]. exists []. split; [by apply Log_nil|done].
  - intros s1 s2 s3 (? & ? & l & L1 & K1) (? & ? & k & L2 & K2). split_and!; [congruence..|].
    exists (l ++ k). split; [by eapply Log_trans|]. by apply Forall_app.
Qed.

#[export] Instance Moved_preorder : PreOrder Moved.
Proof.
  split.
  - intros s Hk. split; [done|]. intros id t Hid. exists t. split_and!; [done|lia|auto].
  - intros s1 s2 s3 H12 H23 Hk. destruct (H12 Hk) as [Hk2 M12]. destruct (H23 Hk2) as [Hk3 M23]. split; [done|].
    intros id t3 Ht3. destruct (M23 id t3 Ht3) as (t2 & H2' & A2 & Q2). destruct (M12 id t2 H2') as (t1 & H1' & A1 & Q1).
    exists t1. split_and!; [done|lia|]. intros Hq. destruct (Q2 Hq) as [Hq2|Hlt]; [auto|right; lia].
Qed.

#[export] Instance Calm_preorder : PreOrder Calm.
Proof.
  split; [done|]. intros s1 s2 s3 (? & ? & ?) (? & ? & ?). split_and!; [by etrans..|congruence].
Qed.

Lemma Quiet_mono (K K' : ClusterEvent -> Prop) s s' : (forall ev, K ev -> K' ev) -> Quiet K s s' -> Quiet K' s s'.
Proof.
  intros HK (? & ? & evs & HL & HF). split_and!; [done..|]. exists evs. split; [done|]. by eapply Forall_impl.
Qed.

(** A state change the stream does not see. *)
Definition silent s s' : Prop :=
  s_leader s' = s_leader s /\ s_gateway s' = s_gateway s /\ s_broadcast s' = s_broadcast s /\
  s_event_seq s' = s_event_seq s /\ s_events s' = s_events s.

Lemma Quiet_silent K s s' : silent s s' -> Quiet K s s'.
Proof.
  intros (Hl & Hg & Hb & Hq & He). split_and!; [done..|]. exists []. split; [|done]. apply Log_nil; [done..|]. by rewrite He, Hb.
Qed.

Lemma Calm_silent s s' : silent s s' -> s_tasks s' = s_tasks s -> s_store s' = s_store s -> Calm s s'.
Proof.
  intros Hs Ht Hst. split_and!; [by apply Quiet_silent| |done]. unfold Moved. rewrite Ht. apply Moved_preorder.
Qed.

Lemma Quiet_emit (K : ClusterEvent -> Prop) ev s : K ev -> Quiet K s (emit E ev s).
Proof. intros HK. split_and!; [done..|]. exists [ev]. split; [apply Log_emit|by constructor]. Qed.

Lemma Calm_emit ev s : plain ev -> Calm s (emit E ev s).
Proof.
  intros Hp. split_and!; [by apply Quiet_emit| |done]. change (Moved s s). reflexivity.
Qed.

(** One task is replaced. *)
Lemma Calm_task s s' id t t' :
  silent s s' -> s_store s' = s_store s -> s_tasks s !! id = Some t ->
  (task_id t = id -> s_tasks s' = <[id := t']> (s_tasks s) /\ task_id t' = id) ->
  task_attempt t <= task_attempt t' ->
  (task_state t' = TaskState.Queued -> task_state t = TaskState.Queued \/ task_attempt t < max_task_attempts (config E)) ->
  Calm s s'.
Proof.
  intros Hsil Hst Hid Ht Ha Hq. split_and!; [by apply Quiet_silent| |done]. intros Hk. destruct (Ht (Hk _ _ Hid)) as [-> Hid'].
  split; [by apply keyed_insert|]. intros i u Hu.
  apply lookup_insert_Some in Hu as [[<- <-]|[_ Hu]]; [by eauto|]. exists u. split_and!; [done|lia|auto].
Qed.

Lemma Calm_foldl {A} (f : Sup P -> A -> Sup P) l s : (forall s x, Calm s (f s x)) -> Calm s (foldl f s l).
Proof. intros Hf. revert s. induction l as [|x l IH]; intros s; cbn [foldl]; [done|]. etrans; [apply Hf|apply IH]. Qed.

Lemma plain_other ev : leader_event ev = false -> (forall id, assigns_of id ev = 0%nat) -> plain ev.
Proof. done. Qed.

(** *** The handlers *)
Lemma Calm_settle j s : Calm s (settle_job E j s).
Proof.
  unfold settle_job. destruct (s_jobs (tock s) !! j) as [job|]; [|by apply Calm_silent].
  destruct (_ <? _); [by apply Calm_silent|]. destruct (JobState_is_terminal _); [by apply Calm_silent|].
  destruct (Job_transition_to _ _ _) as [job'|]; [|by apply Calm_silent].
  etrans; [|apply Calm_emit; by destruct (bool_decide _)]. by apply Calm_silent.
Qed.

Lemma Calm_count j f s : Calm s (count_task E j f s).
Proof. unfold count_task. destruct (s_jobs s !! j); by apply Calm_silent. Qed.

Lemma Calm_end_task s s1 j f : Calm s s1 -> Calm s (settle_job E j (count_task E j f s1)).
Proof. intros Hc. etrans; [exact Hc|]. etrans; [apply Calm_count|apply Calm_settle]. Qed.

Lemma Calm_retry id now s : Calm s (retry_or_give_up E id now s).
Proof.
  unfold retry_or_give_up. destruct (s_tasks s !! id) as [t|] eqn:Hid; [|done].
  destruct (_ <? _) eqn:Hlt.
  - apply N.ltb_lt in Hlt. destruct (Task_requeue t now) as [t'|] eqn:Hr; [|done].
    assert (task_id t' = task_id t /\ task_attempt t' = task_attempt t) as [Htid Hat].
    { unfold Task_requeue, Task_transition_to in Hr. destruct (TaskState_can_transition_to _ _); [|done].
      cbn in Hr. by injection Hr as <-. }
    etrans; [|by apply Calm_emit]. eapply (Calm_task _ _ id t t'); try done; [|lia|by right].
    intros Heq. by rewrite Htid, Heq.
  - destruct (Task_fail t now) as [t'|] eqn:Hr; [|done].
    assert (task_id t' = task_id t /\ task_attempt t' = task_attempt t /\ task_state t' = TaskState.Failed) as (Htid & Hat & Hst).
    { unfold Task_fail, Task_transition_to in Hr. destruct (TaskState_can_transition_to _ _); [|done].
      cbn in Hr. by injection Hr as <-. }
    apply Calm_end_task. eapply (Calm_task _ _ id t t'); try done; [|lia|by rewrite Hst].
    intros Heq. by rewrite Htid, Heq.
Qed.

Lemma Calm_requeue_one node now id s : Calm s (requeue_one E node now id s).
Proof.
  unfold requeue_one. destruct (s_tasks s !! id); [|done]. etrans; [|apply Calm_retry].
  etrans; [|by apply Calm_emit]. by apply Calm_silent.
Qed.

Lemma Calm_requeue_tasks node s : Calm s (requeue_tasks_of E node s).
Proof.
  unfold requeue_tasks_of. trans (tock s); [by apply Calm_silent|]. apply Calm_foldl. intros. apply Calm_requeue_one.
Qed.

Lemma Calm_finish node id outcome s : Calm s (finish_task E node id outcome s).
Proof.
  unfold finish_task. trans (tock s); [by apply Calm_silent|]. cbv zeta.
  destruct (s_tasks (tock s) !! id) as [t|] eqn:Hid; [|done]. destruct (_ || _); [done|]. destruct outcome as [output|reason detail].
  - destruct (Task_complete t output _) as [t'|] eqn:Hc; [|done].
    assert (task_id t' = task_id t /\ task_attempt t' = task_attempt t /\ task_state t' = TaskState.Completed) as (Htid & Hat & Hst).
    { unfold Task_complete, Task_transition_to in Hc. destruct (TaskState_can_transition_to _ _); [|done].
      cbn in Hc. by injection Hc as <-. }
    apply Calm_end_task. etrans; [|by apply Calm_emit]. eapply (Calm_task _ _ id t t'); try done; [|lia|by rewrite Hst].
    intros Heq. by rewrite Htid, Heq.
  - etrans; [|apply Calm_retry]. etrans; [|by apply Calm_emit]. by apply Calm_silent.
Qed.

Lemma Calm_sweep s : Calm s (sweep_health E s).
Proof.
  unfold sweep_health. cbv zeta. etrans; [|apply Calm_foldl]; [by apply Calm_silent|].
  intros s' [n st]. unfold sweep_transition. cbn [fst snd]. destruct st; try done; try (by apply Calm_emit).
  etrans; [|apply Calm_requeue_tasks]. by apply Calm_emit.
Qed.

Lemma Calm_prune s : Calm s (prune_memory E s).
Proof.
  unfold prune_memory. set (s1 := set_events _ s). assert (Calm s s1) as H1'.
  { split_and!; [split_and!; [done..|]|change (Moved s s); reflexivity|done]. exists []. split; [|done].
    apply Log_nil; [done..|]. intros [k Hk]. cbn. rewrite Hk.
    exists (k ++ take (length (s_events s) - event_buffer (config E)) (s_events s)). by rewrite <-app_assoc, take_drop. }
  destruct (bool_decide _); [done|]. etrans; [exact H1'|]. split_and!; [by apply Quiet_silent| |done].
  intros Hk. split.
  - intros id t [Hid _]%map_lookup_filter_Some. by apply Hk.
  - intros id t [Hid _]%map_lookup_filter_Some. exists t. split_and!; [done|lia|auto].
Qed.

Lemma Calm_started node task s : Calm s (handle_report E (ReportTaskStarted node task) s).
Proof.
  cbn [handle_report]. trans (tock s); [by apply Calm_silent|]. cbv zeta.
  destruct (s_tasks (tock s) !! task_id task) as [t|] eqn:Hid; [|done]. destruct (bool_decide _); [|done].
  destruct (Task_start t _) as [t'|] eqn:Hc; [|done].
  assert (task_id t' = task_id t /\ task_attempt t' = task_attempt t /\ task_state t' = TaskState.Running) as (Htid & Hat & Hst).
  { unfold Task_start, Task_transition_to in Hc. destruct (TaskState_can_transition_to _ _); [|done]. by injection Hc as <-. }
  eapply (Calm_task _ _ (task_id task) t t'); try done; [|lia|by rewrite Hst]. intros Heq. by rewrite Htid, Heq.
Qed.

(** ** Dispatch and elections *)
Lemma send_assign_silent n t s : silent s (send_assign n t s).2.
Proof. by destruct (send_assign_eq n t s) as (chans & ->). Qed.

Lemma start_job_silent j s : silent s (start_job_if_queued E j s).
Proof.
  unfold start_job_if_queued. destruct (s_jobs (tock s) !! j); [|done]. destruct (bool_decide _); [|done].
  by destruct (Job_transition_to _ _ _).
Qed.

#[export] Instance silent_preorder : PreOrder silent.
Proof. split; [done|]. intros s1 s2 s3 (?&?&?&?&?) (?&?&?&?&?). split_and!; congruence. Qed.

Lemma dispatch_turn_quiet busy s : Quiet quiet_leader s (turn_state (dispatch_turn E busy s)).
Proof.
  unfold dispatch_turn. destruct (s_queue s) as [|id rest]; [done|]. destruct (s_tasks s !! id) as [t|]; [|by apply Quiet_silent].
  destruct (select_node _ _ _) as [n|]; [|done]. destruct (Task_assign t n _) as [t'|]; [|by apply Quiet_silent].
  set (s1 := tock _). pose proof (send_assign_silent n t' s1) as Hs.
  destruct (send_assign n t' s1) as [[] s2]; cbn [snd turn_state] in *.
  - etrans; [|by apply Quiet_emit].
    apply Quiet_silent. etrans; [|apply start_job_silent]. exact Hs.
  - apply Quiet_silent. exact Hs.
Qed.

Lemma dispatch_ind (R : Sup P -> Sup P -> Prop) `{!PreOrder R} s :
  (forall busy s, R s (turn_state (dispatch_turn E busy s))) -> R s (dispatch E s).
Proof.
  intros Hturn. unfold dispatch. generalize (Datatypes.S (length (s_queue s))) (busy_nodes (s_tasks s)).
  intros fuel busy. assert (forall s0, R s s0 -> R s (default s (dispatch_loop E fuel busy s0))) as Hall; [|by apply Hall].
  revert busy. induction fuel as [|fuel IH]; intros busy s0 HR; cbn [dispatch_loop]; [done|].
  pose proof (Hturn busy s0) as Ht. destruct (dispatch_turn E busy s0); cbn [turn_state] in Ht; [cbn; by etrans|].
  apply IH. by etrans.
Qed.

Lemma dispatch_nodes s : s_nodes (dispatch E s) = s_nodes s.
Proof.
  assert (PreOrder (fun s s' : Sup P => s_nodes s' = s_nodes s)) by (split; [done|]; intros x y z; congruence).
  apply (dispatch_ind (fun s s' => s_nodes s' = s_nodes s)). intros busy s1. unfold dispatch_turn.
  destruct (s_queue s1) as [|id rest]; [done|]. destruct (s_tasks s1 !! id) as [t|]; [|done].
  destruct (select_node _ _ _) as [n|]; [|done]. destruct (Task_assign t n _) as [t'|]; [|done].
  set (s2 := tock _). destruct (send_assign_eq n t' s2) as (chans & Hs3). destruct (send_assign n t' s2) as [[] s3]; cbn in Hs3; subst s3; [|done].
  cbn [turn_state]. unfold start_job_if_queued. destruct (s_jobs _ !! _); [|done]. destruct (bool_decide _); [|done].
  by destruct (Job_transition_to _ _ _).
Qed.

Lemma dispatch_quiet s : Quiet quiet_leader s (dispatch E s).
Proof. apply dispatch_ind; [apply _|apply dispatch_turn_quiet]. Qed.

Lemma refresh_log s :
  exists evs, Log s evs (refresh_leadership E s) /\ Forall quiet_assign evs /\
    foldl hear (s_leader s) evs = s_leader (refresh_leadership E s).
Proof.
  unfold refresh_leadership. destruct (bool_decide _) eqn:Hne.
  2:{ exists []. split; [by apply Log_nil|]. by split. }
  apply bool_decide_eq_true in Hne.
  destruct (s_leader s) as [old|], (elected E (s_nodes s)) as [new|].
  - exists [LeaderLost old; LeaderElected new]. split; [|by repeat constructor].
    apply Log_lead. exact (Log_trans _ _ _ [_] [_] (Log_emit _ _) (Log_emit _ _)).
  - exists [LeaderLost old]. split; [|by repeat constructor].
    apply Log_lead, Log_emit.
  - exists [LeaderElected new]. split; [|by repeat constructor].
    apply Log_lead, Log_emit.
  - done.
Qed.

(** ** The acts a turn of the event loop is made of *)
Inductive Act : Sup P -> Sup P -> Prop :=
| act_calm s s' : Calm s s' -> Act s s'
| act_dispatch s : Act s (dispatch E s)
| act_refresh s : Act s (refresh_leadership E s)
| act_store s s' : silent s s' -> s_tasks s' = s_tasks s -> store_le (s_store s) (s_store s') -> Act s s'
| act_add s s' ts :
    silent s s' -> s_tasks s' = insert_tasks (s_tasks s) ts -> NoDup (task_id <$> ts) ->
    Forall (fun t => task_mark (s_store s) <= task_id t < task_mark (s_store s') /\ task_attempt t = 0) ts ->
    store_le (s_store s) (s_store s') -> Act s s'.

Abbreviation Acts := (rtc Act).
Lemma acts_one s s' : Act s s' -> Acts s s'.
Proof. apply rtc_once. Qed.
Lemma acts_calm s s' : Calm s s' -> Acts s s'.
Proof. intros. by apply acts_one, act_calm. Qed.
Lemma acts_silent s s' : silent s s' -> s_tasks s' = s_tasks s -> s_store s' = s_store s -> Acts s s'.
Proof. intros. by apply acts_calm, Calm_silent. Qed.
Lemma acts_emit ev s : plain ev -> Acts s (emit E ev s).
Proof. intros. by apply acts_calm, Calm_emit. Qed.

(** A registry change announced and acted upon. *)
Lemma acts_refresh_dispatch s s' : Acts s s' -> Acts s (dispatch E (refresh_leadership E s')).
Proof. intros Ha. etrans; [exact Ha|]. etrans; [apply acts_one, act_refresh|apply acts_one, act_dispatch]. Qed.

Lemma enqueue_silent ts s : silent s (foldl enqueue_task s ts).
Proof. revert s. induction ts as [|t ts IH]; intros s; [done|]. cbn [foldl]. etrans; [|apply IH]. done. Qed.

Lemma launch_silent id s :
  silent s (launch_node E id s) /\ s_tasks (launch_node E id s) = s_tasks s /\ s_store (launch_node E id s) = s_store s.
Proof. unfold launch_node. by destruct (s_nodes s !! id). Qed.

Lemma submit_acts spec s : JobSpec_task_count spec <= u16_max -> store_wf (s_store s) -> Acts s (submit_job E spec s).2.
Proof.
  intros Hmax Hwf. unfold submit_job. cbv zeta. trans (tock s); [by apply acts_silent|].
  destruct (allocate spec (now_of E s) (s_store (tock s))) as [r p] eqn:Ha. apply allocate_spec in Ha as [Hle Hr]; [|done..].
  destruct r as [[job ts]|]; [|by apply acts_one, act_store]. destruct Hr as (_ & Hjid & _ & Hnd & Hts).
  assert (store_le p (create_job job ts p).2) as Hle2.
  { apply create_job_le; [lia|]. eapply Forall_impl; [exact Hts|]. cbn. lia. }
  destruct (create_job job ts p) as [[[]|] p2]; cbn in Hle2; cbn [snd].
  2:{ apply acts_one, act_store; [done..|]. by trans p. }
  set (s1 := set_jobs _ _). destruct (enqueue_tasks_eq ts s1) as (Ht & _ & _ & _ & Hs).
  pose proof (enqueue_silent ts s1) as Hsil. set (s2 := foldl enqueue_task s1 ts) in *.
  etrans; [|apply acts_one, act_dispatch]. etrans; [|by apply acts_emit]. apply acts_one.
  apply (act_add _ _ ts); [exact Hsil|exact Ht|done| |rewrite Hs; by trans p].
  rewrite Hs. eapply Forall_impl; [exact Hts|]. cbn. destruct Hle2 as (_ & _ & ?).
  intros t (_ & ? & _ & _ & _ & ?). lia.
Qed.

Lemma attach_named_acts id caps inbox now s : Acts s (attach_named E id caps inbox now s).2.
Proof.
  unfold attach_named. destruct (s_nodes s !! id) as [e|]; [|done]. destruct (e_kind e); [done|]. destruct (_ && _); [done|].
  cbv zeta. cbn [snd]. apply acts_refresh_dispatch. etrans; [|by apply acts_emit].
  by destruct (e_handle e); apply acts_silent.
Qed.

Lemma send_to_node_acts id m s : Acts s (send_to_node id m s).2.
Proof. destruct (send_to_node_eq id m s) as [chans ->]. by apply acts_silent. Qed.

Lemma leave_acts id e s : Acts s (requeue_tasks_of E id (emit E (NodeLeft id) (set_nodes (<[id := e]> (s_nodes s)) s))).
Proof. etrans; [|apply acts_calm, Calm_requeue_tasks]. etrans; [|by apply acts_emit]. by apply acts_silent. Qed.

Lemma handle_command_acts c s :
  typed_input (OnCommand c) -> store_wf (s_store s) -> Acts s (handle_command E c s).2.
Proof.
  intros Hty Hwf. destruct c; cbn [handle_command]; try done.
  - pose proof (submit_acts spec s Hty Hwf). by destruct (submit_job E spec s).
  - unfold set_role. destruct (s_nodes s !! node); [|done]. destruct (if enabled then _ else _) as [roles []]; cbv zeta; cbn [snd].
    + etrans; [|apply acts_one, act_refresh]. etrans; [|apply acts_emit; by destruct enabled]. by apply acts_silent.
    + by apply acts_silent.
  - unfold stop_node. destruct (s_nodes s !! id) as [e|]; [|done]. destruct (e_handle e) as [h|]; [|done]. cbv zeta. cbn [snd].
    apply acts_refresh_dispatch. etrans; [|apply leave_acts]. by apply acts_silent.
  - unfold start_node. destruct (s_nodes s !! id) as [e|]; [|done]. destruct (bool_decide _); [done|].
    destruct (e_kind e); [|done]. cbv zeta. cbn [snd]. apply acts_refresh_dispatch. etrans; [|by apply acts_emit].
    destruct (launch_silent id s) as (? & ? & ?). by apply acts_silent.
  - pose proof (send_to_node_acts id (InboxPauseHeartbeat paused) s) as Ha. destruct (send_to_node id _ s) as [r s1].
    cbn [snd] in *. destruct (is_ok r); [|done]. etrans; [exact Ha|]. by apply acts_silent.
  - pose proof (send_to_node_acts id (InboxInjectFailures count) s). by destruct (send_to_node id _ s).
  - pose proof (send_to_node_acts id (InboxSetDelay ms) s). by destruct (send_to_node id _ s).
  - assert (Acts s (attach_remote E id capabilities inbox s).2) as Ha; [|by destruct (attach_remote _ _ _ _ _)].
    unfold attach_remote. cbv zeta. trans (tock s); [by apply acts_silent|]. destruct id as [id|]; [apply attach_named_acts|].
    destruct (next_free_id _); [|done]. etrans; [|apply attach_named_acts]. by apply acts_silent.
  - unfold detach_remote. cbn [snd]. destruct (s_nodes s !! id) as [e|]; [|done]. destruct (_ || _); [done|]. cbv zeta.
    apply acts_refresh_dispatch. etrans; [apply (leave_acts id (offline_entry e))|].
    generalize (requeue_tasks_of E id (emit E (NodeLeft id) (set_nodes (<[id := offline_entry e]> (s_nodes s)) s))). intros s1.
    destruct (bool_decide _); [done|]. by apply acts_silent.
Qed.

Lemma step_acts i s : typed_input i -> store_wf (s_store s) -> Acts s (step E i s).
Proof.
  intros Hty Hwf. destruct i as [c|r| | | |capacity|chan|chan]; cbn [step]; try (by apply acts_silent).
  - by apply handle_command_acts.
  - destruct r as [hb|node task|node task outcome].
    + by apply acts_silent.
    + apply acts_calm, Calm_started.
    + cbn [handle_report]. etrans; [|apply acts_one, act_dispatch]. apply acts_calm, Calm_finish.
  - unfold tick. etrans; [|apply acts_calm, Calm_prune]. apply acts_refresh_dispatch, acts_calm, Calm_sweep.
  - destruct (s_pending s) as [|w rest]; [done|]. pose proof (drain_one_le w (s_store s) (s_tel s)) as Hle.
    destruct (drain_one w (s_store s) (s_tel s)) as [p t]. by apply acts_one, act_store.
Qed.

(** An invariant of the acts is an invariant of every run. *)
Lemma reachable_acts s0 s : Inv s0 -> reachable E s0 s -> Acts s0 s.
Proof.
  intros HI Hr. assert (Inv s /\ Acts s0 s) as [_ ?]; [|done]. induction Hr as [|i s Hr [HIs IH] Hty]; [done|].
  split; [by apply step_good|]. etrans; [exact IH|]. apply step_acts; [done|]. apply HIs.
Qed.

Lemma acts_ind (Q : Sup P -> Prop) s s' : (forall s s', Act s s' -> Q s -> Q s') -> Acts s s' -> Q s -> Q s'.
Proof. intros HQ Ha. induction Ha; eauto. Qed.

(** ** What the stream says *)
Lemma act_log s s' : Act s s' -> exists evs, Log s evs s'.
Proof.
  assert (forall s s', silent s s' -> exists evs, Log s evs s') as Hsil.
  { intros x y Hx. destruct (Quiet_silent plain x y Hx) as (_ & _ & evs & HL & _). eauto. }
  intros [s1 s2 ((_ & _ & evs & HL & _) & _)|s1|s1|s1 s2 Hs _ _|s1 s2 ts Hs _ _ _ _]; eauto.
  - destruct (dispatch_quiet s1) as (_ & _ & evs & HL & _). eauto.
  - destruct (refresh_log s1) as (evs & HL & _). eauto.
Qed.

Lemma acts_log s s' : Acts s s' -> exists evs, Log s evs s'.
Proof.
  induction 1 as [s|s1 s2 s3 H12 _ (k & HL2)]; [exists []; by apply Log_nil|].
  destruct (act_log _ _ H12) as (l & HL1). exists (l ++ k). by eapply Log_trans.
Qed.

Definition Told s : Prop := told_leader (heard s) = s_leader s.

Lemma Told_quiet s s' : Quiet quiet_leader s s' -> Told s -> Told s'.
Proof.
  intros (Hl & _ & evs & HL & HK) HT. unfold Told, told_leader in *. rewrite (Log_heard _ _ _ HL), foldl_app, HT, Hl.
  by apply told_quiet.
Qed.

Lemma Told_act s s' : Act s s' -> Told s -> Told s'.
Proof.
  intros [s1 s2 (HQ & _)|s1|s1|s1 s2 Hs _ _|s1 s2 ts Hs _ _ _ _].
  - apply Told_quiet. eapply Quiet_mono; [|exact HQ]. by intros ev [_ ?].
  - apply Told_quiet, dispatch_quiet.
  - destruct (refresh_log s1) as (evs & HL & _ & Hl). unfold Told, told_leader. intros HT.
    by rewrite (Log_heard _ _ _ HL), foldl_app, HT.
  - by apply Told_quiet, Quiet_silent.
  - by apply Told_quiet, Quiet_silent.
Qed.

(** ** How often a task is assigned *)
Definition attempts_cap : N := N.max 1 (max_task_attempts (config E)).

(** [heard] counts at most the attempts made, and a task in the queue has one left. *)
Definition Tried s : Prop :=
  keyed task_id (s_tasks s) /\ forall id, let n := N.of_nat (assigns id (heard s)) in
    n <= attempts_cap /\ (task_mark (s_store s) <= id -> n = 0) /\
    forall t, s_tasks s !! id = Some t -> id < task_mark (s_store s) /\
      n <= task_attempt t /\ (task_state t = TaskState.Queued -> n = 0 \/ n < max_task_attempts (config E)).

Lemma Tried_moved s s' evs :
  Log s evs s' -> Forall quiet_assign evs -> Moved s s' -> store_le (s_store s) (s_store s') -> Tried s -> Tried s'.
Proof.
  intros HL HK HM (_ & _ & Hmark) [Hk HT]. destruct (HM Hk) as [Hk' Hmv]. split; [done|]. intros id.
  destruct (HT id) as (Hcap & Hfresh & Htask). rewrite (Log_heard _ _ _ HL), assigns_app, (assigns_quiet id evs) by done.
  rewrite Nat.add_0_r. split_and!; [done|intros; apply Hfresh; lia|]. intros t' Ht'.
  destruct (Hmv id t' Ht') as (t & Ht & Ha & Hq). destruct (Htask t Ht) as (Hlt & Hle & Hopen). split_and!; [lia..|].
  intros Hs. destruct (Hq Hs) as [?|?]; [auto|right; lia].
Qed.

Lemma Moved_same s s' : s_tasks s' = s_tasks s -> Moved s s'.
Proof. unfold Moved. intros ->. apply Moved_preorder. Qed.

Lemma Tried_silent s s' :
  silent s s' -> s_tasks s' = s_tasks s -> store_le (s_store s) (s_store s') -> Tried s -> Tried s'.
Proof.
  intros Hs Ht Hle. destruct (Quiet_silent quiet_assign s s' Hs) as (_ & _ & evs & HL & HK).
  eapply Tried_moved; eauto using Moved_same.
Qed.

(** A put-back leaves the task queued, with one attempt more unless the counter is full. *)
Lemma Tried_put_back s s' id t t' :
  max_task_attempts (config E) <= u16_max ->
  silent s s' -> s_tasks s !! id = Some t -> task_id t' = id -> s_tasks s' = <[id := t']> (s_tasks s) ->
  task_state t = TaskState.Queued -> task_attempt t' = sat_add u16_max (task_attempt t) 1 ->
  store_le (s_store s) (s_store s') -> Tried s -> Tried s'.
Proof.
  intros Hmax Hs Hid Hid' Ht Hq Ha (_ & _ & Hmark) [Hk HT].
  destruct (Quiet_silent quiet_assign s s' Hs) as (_ & _ & evs & HL & HK). unfold Tried. rewrite Ht.
  split; [by apply keyed_insert|]. intros i. rewrite (Log_heard _ _ _ HL), assigns_app, (assigns_quiet i evs) by done.
  rewrite Nat.add_0_r. destruct (HT i) as (Hcap & Hfresh & Htask). split_and!; [done|intros; apply Hfresh; lia|].
  intros u [[<- <-]|[_ Hu]]%lookup_insert_Some; [|destruct (Htask u Hu) as (? & ? & ?); split_and!; [lia|done..]].
  destruct (Htask t Hid) as (Hlt & Hle & Hopen). specialize (Hopen Hq).
  rewrite Ha. split_and!; [lia|unfold sat_add; lia|auto].
Qed.

(** An assignment is announced once, and counts as an attempt. *)
Lemma Tried_assign s s' s'' id t t' node :
  max_task_attempts (config E) <= u16_max ->
  silent s s' -> s_tasks s !! id = Some t -> task_id t' = id -> s_tasks s' = <[id := t']> (s_tasks s) ->
  task_state t = TaskState.Queued -> task_state t' = TaskState.Assigned ->
  task_attempt t' = sat_add u16_max (task_attempt t) 1 -> s_store s' = s_store s ->
  s'' = emit E (TaskAssigned id node) s' -> Tried s -> Tried s''.
Proof.
  intros Hmax Hs Hid Hid' Ht Hq Hq' Ha Hst -> [Hk HT]. destruct (Quiet_silent quiet_assign s s' Hs) as (_ & _ & evs & HL & HK).
  assert (heard (emit E (TaskAssigned id node) s') = heard s ++ evs ++ [TaskAssigned id node]) as Hh.
  { rewrite (Log_heard _ _ _ (Log_emit (TaskAssigned id node) s')), (Log_heard _ _ _ HL). by rewrite app_assoc. }
  change (s_tasks (emit E (TaskAssigned id node) s')) with (s_tasks s'). unfold Tried. rewrite Hh.
  change (s_tasks (emit E (TaskAssigned id node) s')) with (s_tasks s').
  change (s_store (emit E (TaskAssigned id node) s')) with (s_store s'). rewrite Ht, Hst. split; [by apply keyed_insert|].
  intros i. rewrite !assigns_app, (assigns_quiet i evs) by done. destruct (HT i) as (Hcap & Hfresh & Htask).
  assert (assigns i [TaskAssigned id node] = if decide (id = i) then 1%nat else 0%nat) as ->.
  { cbn. by destruct (decide (id = i)). }
  destruct (decide (id = i)) as [<-|Hne].
  - destruct (Htask t Hid) as (Hlt & Hle & Hopen). specialize (Hopen Hq). unfold attempts_cap in *.
    split_and!; [lia|lia|]. intros u [[_ <-]|[? _]]%lookup_insert_Some; [|done]. rewrite Ha, Hq'. split_and!; [done| |done].
    unfold sat_add. assert (1 <= u16_max) by done. lia.
  - replace (assigns i (heard s) + (0 + 0))%nat with (assigns i (heard s)) by lia.
    split_and!; [done..|]. intros u [[? _]|[_ Hu]]%lookup_insert_Some; [done|]. by apply Htask.
Qed.

Lemma Task_assign_Ok t n now t' :
  Task_assign t n now = Ok t' ->
  task_state t = TaskState.Queued /\
  t' = task_with t TaskState.Assigned (Some n) (sat_add u16_max (task_attempt t) 1) (task_output t) now.
Proof. unfold Task_assign, Task_transition_to. destruct (task_state t); [|done..]. cbn. by intros [= <-]. Qed.

Lemma start_job_frame j s :
  s_tasks (start_job_if_queued E j s) = s_tasks s /\ s_store (start_job_if_queued E j s) = s_store s.
Proof.
  unfold start_job_if_queued. destruct (s_jobs (tock s) !! j); [|done]. destruct (bool_decide _); [|done].
  by destruct (Job_transition_to _ _ _).
Qed.

Lemma Tried_turn busy s :
  max_task_attempts (config E) <= u16_max -> Tried s -> Tried (turn_state (dispatch_turn E busy s)).
Proof.
  intros Hmax HT. unfold dispatch_turn. destruct (s_queue s) as [|id rest] eqn:Hq; [done|].
  destruct (s_tasks s !! id) as [t|] eqn:Hid; [|by eapply Tried_silent].
  destruct (select_node _ _ _) as [n|]; [|done]. set (s1 := tock _).
  destruct (Task_assign t n _) as [t'|] eqn:Ha; [|by eapply Tried_silent].
  apply Task_assign_Ok in Ha as [Hs Ht']. assert (task_id t = id) as Htid by (by eapply HT).
  destruct (send_assign_eq n t' s1) as (chans & Hs2). destruct (send_assign n t' s1) as [sent s2]. cbn in Hs2. subst s2.
  assert (task_id t' = id /\ in_flight t') as [Htid' Hfl] by (by subst t'). rewrite Htid'. destruct sent; cbn [turn_state].
  - set (s3 := persist_task E t' _). pose proof (start_job_silent (task_job_id t') s3) as Hsil.
    destruct (start_job_frame (task_job_id t') s3) as [Ht4 Hst4].
    eapply (Tried_assign s _ _ id t t'); [done| |done|done|exact Ht4|done|by subst t'|by subst t'|exact Hst4|reflexivity|done].
    exact Hsil.
  - rewrite in_flight_requeue by done. set (t'' := task_with _ _ _ _ _ _). change (task_id t'') with (task_id t'). rewrite Htid'.
    eapply (Tried_put_back s _ id t t''); [done|done|done|done|done|done|by subst t'|apply save_task_le|done].
Qed.

Lemma Tried_act s s' : max_task_attempts (config E) <= u16_max -> Act s s' -> Tried s -> Tried s'.
Proof.
  intros Hmax [s1 s2 (HQ & HM & Hst)|s1|s1|s1 s2 Hs Ht Hle|s1 s2 ts Hs Ht Hnd Hts Hle].
  - destruct HQ as (_ & _ & evs & HL & HK). apply (Tried_moved _ _ evs); [done| |done|by rewrite Hst].
    eapply Forall_impl; [exact HK|]. by intros ev [? _].
  - assert (PreOrder (fun s s' => Tried s -> Tried s')) by (split; [intros ??|intros ????? ?]; auto).
    apply (dispatch_ind (fun s s' => Tried s -> Tried s')). intros. by apply Tried_turn.
  - destruct (refresh_log s1) as (evs & HL & HK & _). destruct (refresh_eq E s1) as (_ & _ & Ht & _ & Hst).
    apply (Tried_moved _ _ evs); [done..|by apply Moved_same|by rewrite Hst].
  - by apply Tried_silent.
  - intros [Hk HT]. destruct (Quiet_silent quiet_assign s1 s2 Hs) as (_ & _ & evs & HL & HK). unfold Tried. rewrite Ht. split.
    { intros i u [[_ ?]|[_ Hu]]%lookup_insert_tasks; [done|by apply Hk|done]. }
    intros i. rewrite (Log_heard _ _ _ HL), assigns_app, (assigns_quiet i evs) by done. rewrite Nat.add_0_r.
    destruct (HT i) as (Hcap & Hfresh & Htask). destruct Hle as (_ & _ & Hmark).
    split_and!; [done|intros; apply Hfresh; lia|]. intros u [[Hin <-]|[_ Hu]]%lookup_insert_tasks; [| |done].
    + rewrite Forall_forall in Hts. destruct (Hts u Hin) as [[Hlo Hhi] Ha]. specialize (Hfresh Hlo). split_and!; [done|lia|by left].
    + destruct (Htask u Hu) as (? & ? & ?). split_and!; [lia|done..].
Qed.

(** ** Startup *)
Lemma restore_jobs_silent s : silent s (restore_jobs E s).
Proof.
  unfold restore_jobs. destruct (recent_jobs _ _) as [recent|]; [|done]. cbv zeta.
  generalize (values (restored_jobs (s_store (tock s)) recent)). intros l. set (s1 := set_tel _ _).
  assert (silent s s1) as Hs by done. clearbody s1. revert s1 Hs. induction l as [|[job ts] l IH]; intros s1 Hs; [done|].
  cbn [foldl]. apply IH. unfold restore_job. cbn [fst snd]. set (s2 := set_jobs _ s1). assert (silent s s2) as H2' by done.
  clearbody s2. clear -H2'. revert s2 H2'. induction ts as [|t ts IH]; intros s2 Hs; [done|]. cbn [foldl]. apply IH.
  unfold restore_task. by destruct (_ && _).
Qed.

Lemma bootstrap_node_quiet s id : Quiet plain s (bootstrap_node E s id).
Proof.
  unfold bootstrap_node. destruct (s_nodes s !! id) as [e|]; [|done]. set (s1 := persist_roles _ _ _ _).
  trans s1; [by apply Quiet_silent|]. clearbody s1. destruct (bool_decide _); [|done].
  etrans; [|by apply Quiet_emit]. apply Quiet_silent, launch_silent.
Qed.

(** The numbering goes on from what the log remembers. *)
Definition seq_base (p : P) : N := match last_seq p with Ok n => n | Err _ => 0 end.

Lemma bootstrap_log p s0 :
  bootstrap E (Supervisor_new p) = Some s0 ->
  (exists evs, Log (set_event_seq (seq_base p) (Supervisor_new p)) evs s0 /\ Forall quiet_assign evs) /\ Told s0.
Proof.
  unfold bootstrap. cbv zeta. set (sb := set_event_seq _ _). intros (nodes & _ & [= <-])%bind_Some.
  set (s1 := foldl (bootstrap_node E) _ _). assert (Quiet plain sb s1) as HQ.
  { unfold s1. set (s2 := restore_roles _). assert (Quiet plain sb s2) as H2'.
    { apply Quiet_silent. unfold s2, restore_roles. by destruct (load_node_roles _). }
    generalize (keys (s_nodes s2)). clearbody s2. intros l. revert s2 H2'.
    induction l as [|id l IH]; intros s2 H2'; [done|]. cbn [foldl]. apply IH. etrans; [exact H2'|apply bootstrap_node_quiet]. }
  assert (Quiet plain sb (restore_jobs E s1)) as HR.
  { etrans; [exact HQ|]. apply Quiet_silent, restore_jobs_silent. }
  destruct (refresh_log (restore_jobs E s1)) as (evs2 & HL2 & HK2 & Hl2). split.
  - destruct HR as (_ & _ & evs & HL & HK). exists (evs ++ evs2). split; [by eapply Log_trans|].
    apply Forall_app. split; [|done]. eapply Forall_impl; [exact HK|]. by intros ev [? _].
  - eapply Told_act; [apply act_refresh|]. eapply Told_quiet; [eapply Quiet_mono; [|exact HR]|done]. by intros ev [_ ?].
Qed.
End Log.
