(* ===== verification/Sqlite.v ===== *)
(** * The SQLite cluster store

    Models [crates/storage/src/sqlite/jobs.rs], [events.rs] and [cluster.rs]: the
    rows of the tables [jobs], [tasks], [task_failures], [cluster_events],
    [node_roles] and [sequences], the statements over them, and the decoding of
    rows.  A table is the list of its rows in insertion order; [INSERT] refuses a
    primary key already present, [UPDATE] of a missing row changes nothing, and
    deleting a job deletes its tasks ([foreign_keys] is on, [ON DELETE CASCADE]).
    A transaction that fails leaves the tables as they were.

    The JSON columns go through [serde_json], which is not part of the repository:
    it is the class [Json], whose law is that a value read back is the value
    written.  The store is proved to satisfy [ClusterStoreLaws]. *)
From stdpp Require Import prelude countable sorting strings.
From Stdlib Require Import Ascii ZArith.
From S2P Require Import Prelude Time Role Node Job Event Store.

(** ** Columns *)
Class Json (T : Type) := { to_json : T -> string; from_json : string -> option T }.
Class JsonLaws (T : Type) `{Json T} : Prop := from_to_json : forall x : T, from_json (to_json x) = Some x.

(** The casts [as i64], [as u64], [as u16], [as u8] between a column and a field. *)
Definition as_i64 (n : N) : Z :=
  (let z := Z.of_N (wrap 64 n) in if z <? 2 ^ 63 then z else z - 2 ^ 64)%Z.
Definition as_u64 (z : Z) : N := Z.to_N (z mod 2 ^ 64).
Definition as_u16 (z : Z) : N := Z.to_N (z mod 2 ^ 16).
Definition as_u8 (z : Z) : N := Z.to_N (z mod 2 ^ 8).
Definition i64_max : Z := 9223372036854775807.

Lemma as_u64_i64 n : n < 2 ^ 64 -> as_u64 (as_i64 n) = n.
Proof.
  intros Hn. unfold as_u64, as_i64. rewrite wrap_small by done.
  destruct (Z.ltb_spec (Z.of_N n) (2 ^ 63)).
  - rewrite Z.mod_small by lia. lia.
  - replace (Z.of_N n - 2 ^ 64)%Z with (Z.of_N n + (-1) * 2 ^ 64)%Z by lia.
    rewrite Z.mod_add, Z.mod_small by lia. lia.
Qed.

Lemma as_i64_small n : n < 2 ^ 63 -> as_i64 n = Z.of_N n.
Proof.
  intros Hn. unfold as_i64. rewrite wrap_small by lia. destruct (Z.ltb_spec (Z.of_N n) (2 ^ 63)); lia.
Qed.

Lemma as_u16_i64 n : n <= u16_max -> as_u16 (as_i64 n) = n.
Proof. unfold u16_max. intros Hn. rewrite as_i64_small by lia. unfold as_u16. rewrite Z.mod_small by lia. lia. Qed.

(** ** Rows *)
Record JobRow := {
  jr_id : Z; jr_kind : string; jr_spec_json : string; jr_state : string; jr_task_count : Z;
  jr_tasks_completed : Z; jr_tasks_failed : Z; jr_created_at : Z; jr_finished_at : option Z
}.
Record TaskRow := {
  tr_id : Z; tr_job_id : Z; tr_idx : Z; tr_spec_json : string; tr_state : string;
  tr_assigned_to : option Z; tr_attempt : Z; tr_output : option string; tr_updated_at : Z
}.
Record FailureRow := {
  fr_id : Z; fr_task_id : Z; fr_job_id : Z; fr_node_id : option Z; fr_attempt : Z; fr_at : Z;
  fr_reason : string; fr_detail : string
}.
Record EventRow := { ev_seq : Z; ev_at : Z; ev_kind : string; ev_node_id : option Z; ev_payload_json : string }.
Record RolesRow := { rr_node_id : Z; rr_roles : Z; rr_updated_at : Z }.

Record Tables := {
  tb_job_seq : Z; tb_task_seq : Z;
  tb_jobs : list JobRow; tb_tasks : list TaskRow; tb_failures : list FailureRow;
  tb_events : list EventRow; tb_roles : list RolesRow
}.

(** The database a migration leaves behind. *)
Definition Tables_empty : Tables :=
  {| tb_job_seq := 0; tb_task_seq := 0; tb_jobs := []; tb_tasks := []; tb_failures := [];
     tb_events := []; tb_roles := [] |}.

Definition with_jobs (l : list JobRow) (p : Tables) : Tables :=
  {| tb_job_seq := tb_job_seq p; tb_task_seq := tb_task_seq p; tb_jobs := l; tb_tasks := tb_tasks p;
     tb_failures := tb_failures p; tb_events := tb_events p; tb_roles := tb_roles p |}.
Definition with_tasks (l : list TaskRow) (p : Tables) : Tables :=
  {| tb_job_seq := tb_job_seq p; tb_task_seq := tb_task_seq p; tb_jobs := tb_jobs p; tb_tasks := l;
     tb_failures := tb_failures p; tb_events := tb_events p; tb_roles := tb_roles p |}.
Definition with_failures (l : list FailureRow) (p : Tables) : Tables :=
  {| tb_job_seq := tb_job_seq p; tb_task_seq := tb_task_seq p; tb_jobs := tb_jobs p; tb_tasks := tb_tasks p;
     tb_failures := l; tb_events := tb_events p; tb_roles := tb_roles p |}.
Definition with_events (l : list EventRow) (p : Tables) : Tables :=
  {| tb_job_seq := tb_job_seq p; tb_task_seq := tb_task_seq p; tb_jobs := tb_jobs p; tb_tasks := tb_tasks p;
     tb_failures := tb_failures p; tb_events := l; tb_roles := tb_roles p |}.
Definition with_roles_rows (l : list RolesRow) (p : Tables) : Tables :=
  {| tb_job_seq := tb_job_seq p; tb_task_seq := tb_task_seq p; tb_jobs := tb_jobs p; tb_tasks := tb_tasks p;
     tb_failures := tb_failures p; tb_events := tb_events p; tb_roles := l |}.
Definition with_sequences (j t : Z) (p : Tables) : Tables :=
  {| tb_job_seq := j; tb_task_seq := t; tb_jobs := tb_jobs p; tb_tasks := tb_tasks p;
     tb_failures := tb_failures p; tb_events := tb_events p; tb_roles := tb_roles p |}.

(** [ORDER BY key] and [ORDER BY key DESC]. *)
Section OrderBy.
Context {A : Type} (key : A -> Z).
Definition key_asc (x y : A) : Prop := (key x <= key y)%Z.
Definition key_desc (x y : A) : Prop := (key y <= key x)%Z.
#[export] Instance key_asc_dec x y : Decision (key_asc x y).
Proof. unfold key_asc. apply _. Defined.
#[export] Instance key_desc_dec x y : Decision (key_desc x y).
Proof. unfold key_desc. apply _. Defined.
Definition order_by : list A -> list A := merge_sort key_asc.
Definition order_by_desc : list A -> list A := merge_sort key_desc.
End OrderBy.

(** [.collect()] of results: the first error, or all the values. *)
Fixpoint collect_results {A} (l : list (StoreResult A)) : StoreResult (list A) :=
  match l with
  | [] => Ok []
  | Ok x :: l => let? xs := collect_results l in Ok (x :: xs)
  | Err e :: _ => Err e
  end.

Definition corrupt (what value : string) : StoreError := Corrupt (what +:+ ": " +:+ value)%string.
(** What [map_err] makes of a unique violation, and of any other database error. *)
Definition unique_violation : StoreError := Conflict "UNIQUE constraint failed".
Definition backend_error (what : string) : StoreError := Backend what.

Section Sqlite.
Context `{Json JobSpec, Json TaskSpec, Json ClusterEvent}.

(** *** Encoding and decoding *)
Definition job_row (job : Job) : JobRow :=
  {| jr_id := as_i64 (job_id job); jr_kind := JobSpec_kind (job_spec job);
     jr_spec_json := to_json (job_spec job); jr_state := JobState_as_str (job_state job);
     jr_task_count := as_i64 (job_task_count job); jr_tasks_completed := as_i64 (job_tasks_completed job);
     jr_tasks_failed := as_i64 (job_tasks_failed job); jr_created_at := as_i64 (job_created_at job);
     jr_finished_at := as_i64 <$> job_finished_at job |}.

Definition job_from_row (row : JobRow) : StoreResult Job :=
  let? spec := ok_or (corrupt "job spec" (jr_spec_json row)) (from_json (jr_spec_json row)) in
  let? state := ok_or (corrupt "job state" (jr_state row)) (JobState_parse (jr_state row)) in
  Ok {| job_id := as_u64 (jr_id row); job_spec := spec; job_state := state;
        job_task_count := as_u16 (jr_task_count row); job_tasks_completed := as_u16 (jr_tasks_completed row);
        job_tasks_failed := as_u16 (jr_tasks_failed row); job_created_at := as_u64 (jr_created_at row);
        job_finished_at := as_u64 <$> jr_finished_at row |}.

Definition task_row (task : Task) : TaskRow :=
  {| tr_id := as_i64 (task_id task); tr_job_id := as_i64 (task_job_id task); tr_idx := as_i64 (task_index task);
     tr_spec_json := to_json (task_spec task); tr_state := TaskState_as_str (task_state task);
     tr_assigned_to := as_i64 <$> task_assigned_to task; tr_attempt := as_i64 (task_attempt task);
     tr_output := task_output task; tr_updated_at := as_i64 (task_updated_at task) |}.

Definition task_from_row (row : TaskRow) : StoreResult Task :=
  let? spec := ok_or (corrupt "task spec" (tr_spec_json row)) (from_json (tr_spec_json row)) in
  let? state := ok_or (corrupt "task state" (tr_state row)) (TaskState_parse (tr_state row)) in
  Ok {| task_id := as_u64 (tr_id row); task_job_id := as_u64 (tr_job_id row); task_index := as_u16 (tr_idx row);
        task_spec := spec; task_state := state; task_assigned_to := as_u16 <$> tr_assigned_to row;
        task_attempt := as_u16 (tr_attempt row); task_output := tr_output row;
        task_updated_at := as_u64 (tr_updated_at row) |}.

Definition failure_from_row (row : FailureRow) : StoreResult TaskAttempt :=
  let? reason := ok_or (corrupt "failure reason" (fr_reason row)) (FailureReason_parse (fr_reason row)) in
  Ok {| ta_task_id := as_u64 (fr_task_id row); ta_job_id := as_u64 (fr_job_id row);
        ta_node_id := as_u16 <$> fr_node_id row; ta_attempt := as_u16 (fr_attempt row);
        ta_at := as_u64 (fr_at row); ta_reason := reason; ta_detail := fr_detail row |}.

(** *** [SqliteJobs] *)

(** [UPDATE sequences ... RETURNING value]: the last identifier reserved.  A sum
    past [i64::MAX] is no longer an integer value and cannot be read back. *)
Definition reserve (value : Z) (count : N) : StoreResult N * Z :=
  let sum := (value + as_i64 count)%Z in
  if (i64_max <? sum)%Z then (Err (backend_error "integer overflow"), value) else (Ok (as_u64 sum), sum).

Definition sql_next_job_id (p : Tables) : StoreResult JobId * Tables :=
  let '(r, value) := reserve (tb_job_seq p) 1 in (r, with_sequences value (tb_task_seq p) p).

Definition sql_reserve_task_ids (count : N) (p : Tables) : StoreResult TaskId * Tables :=
  let count := N.max count 1 in
  let '(r, value) := reserve (tb_task_seq p) count in
  (match r with Ok last => Ok (last - count + 1) | Err e => Err e end, with_sequences (tb_job_seq p) value p).

Definition insert_job_row (row : JobRow) (l : list JobRow) : StoreResult (list JobRow) :=
  if bool_decide (jr_id row ∈ jr_id <$> l) then Err unique_violation else Ok (l ++ [row]).

Definition insert_task_row (jobs : list JobRow) (row : TaskRow) (l : list TaskRow) : StoreResult (list TaskRow) :=
  if bool_decide (tr_id row ∈ tr_id <$> l) then Err unique_violation
  else if bool_decide (tr_job_id row ∉ jr_id <$> jobs) then Err (backend_error "FOREIGN KEY constraint failed")
  else Ok (l ++ [row]).

Fixpoint insert_task_rows (jobs : list JobRow) (rows : list TaskRow) (l : list TaskRow) : StoreResult (list TaskRow) :=
  match rows with
  | [] => Ok l
  | row :: rows => let? l := insert_task_row jobs row l in insert_task_rows jobs rows l
  end.

(** The transaction commits both tables or neither. *)
Definition sql_create_job (job : Job) (tasks : list Task) (p : Tables) : StoreResult unit * Tables :=
  match insert_job_row (job_row job) (tb_jobs p) with
  | Err e => (Err e, p)
  | Ok jobs =>
      match insert_task_rows jobs (task_row <$> tasks) (tb_tasks p) with
      | Err e => (Err e, p)
      | Ok tasks => (Ok tt, with_tasks tasks (with_jobs jobs p))
      end
  end.

Definition update_job_row (job : Job) (row : JobRow) : JobRow :=
  if bool_decide (jr_id row = as_i64 (job_id job)) then
    {| jr_id := jr_id row; jr_kind := jr_kind row; jr_spec_json := jr_spec_json row;
       jr_state := JobState_as_str (job_state job); jr_task_count := jr_task_count row;
       jr_tasks_completed := as_i64 (job_tasks_completed job); jr_tasks_failed := as_i64 (job_tasks_failed job);
       jr_created_at := jr_created_at row; jr_finished_at := as_i64 <$> job_finished_at job |}
  else row.
Definition sql_save_job (job : Job) (p : Tables) : StoreResult unit * Tables :=
  (Ok tt, with_jobs (update_job_row job <$> tb_jobs p) p).

Definition update_task_row (task : Task) (row : TaskRow) : TaskRow :=
  if bool_decide (tr_id row = as_i64 (task_id task)) then
    {| tr_id := tr_id row; tr_job_id := tr_job_id row; tr_idx := tr_idx row; tr_spec_json := tr_spec_json row;
       tr_state := TaskState_as_str (task_state task); tr_assigned_to := as_i64 <$> task_assigned_to task;
       tr_attempt := as_i64 (task_attempt task); tr_output := task_output task;
       tr_updated_at := as_i64 (task_updated_at task) |}
  else row.
Definition sql_save_task (task : Task) (p : Tables) : StoreResult unit * Tables :=
  (Ok tt, with_tasks (update_task_row task <$> tb_tasks p) p).

(** [AUTOINCREMENT]: one more than the largest identifier so far. *)
Definition sql_record_failure (f : TaskAttempt) (p : Tables) : StoreResult unit * Tables :=
  let id := (1 + foldr Z.max 0 (fr_id <$> tb_failures p))%Z in
  let row := {| fr_id := id; fr_task_id := as_i64 (ta_task_id f); fr_job_id := as_i64 (ta_job_id f);
                fr_node_id := as_i64 <$> ta_node_id f; fr_attempt := as_i64 (ta_attempt f);
                fr_at := as_i64 (ta_at f); fr_reason := FailureReason_as_str (ta_reason f);
                fr_detail := ta_detail f |} in
  (Ok tt, with_failures (tb_failures p ++ [row]) p).

Definition sql_job (id : JobId) (p : Tables) : StoreResult (option Job) :=
  match find (fun row => bool_decide (jr_id row = as_i64 id)) (tb_jobs p) with
  | None => Ok None
  | Some row => let? job := job_from_row row in Ok (Some job)
  end.

Definition sql_recent_jobs (limit : nat) (p : Tables) : StoreResult (list Job) :=
  collect_results (job_from_row <$> take limit (order_by_desc jr_id (tb_jobs p))).

Definition sql_tasks_for_job (id : JobId) (p : Tables) : StoreResult (list Task) :=
  collect_results (task_from_row <$>
    order_by tr_idx (filter (fun row => tr_job_id row = as_i64 id) (tb_tasks p))).

(** [ORDER BY at DESC, id DESC]: a stable sort by [at] of the rows by id. *)
Definition sql_failures_for_job (id : JobId) (p : Tables) : StoreResult (list TaskAttempt) :=
  collect_results (failure_from_row <$>
    order_by_desc fr_at (order_by_desc fr_id (filter (fun row => fr_job_id row = as_i64 id) (tb_failures p)))).

Definition row_unfinished (row : JobRow) : Prop := jr_state row = "queued"%string \/ jr_state row = "running"%string.
#[export] Instance row_unfinished_dec row : Decision (row_unfinished row).
Proof. unfold row_unfinished. apply _. Defined.

Definition job_with_tasks (p : Tables) (row : JobRow) : StoreResult (Job * list Task) :=
  let? job := job_from_row row in
  let? tasks := sql_tasks_for_job (job_id job) p in
  Ok (job, tasks).

Definition sql_unfinished_jobs (p : Tables) : StoreResult (list (Job * list Task)) :=
  collect_results (job_with_tasks p <$> order_by jr_id (filter row_unfinished (tb_jobs p))).

(** [SqliteJobs] overrides the paged query; [SqliteClusterStore], the store the
    runtime is given, does not delegate it and gets the default body. *)
Definition sql_unfinished_jobs_page (after : option JobId) (limit : nat) (p : Tables) :
    StoreResult (list (Job * list Task)) :=
  collect_results (job_with_tasks p <$> take limit (order_by jr_id
    (filter (fun row => row_unfinished row /\ (as_i64 (default 0%N after) < jr_id row)%Z) (tb_jobs p)))).

Definition row_terminal_before (before : Millis) (row : JobRow) : Prop :=
  (jr_state row = "completed" \/ jr_state row = "failed" \/ jr_state row = "cancelled")%string /\
  (default (jr_created_at row) (jr_finished_at row) < as_i64 before)%Z.
#[export] Instance row_terminal_before_dec before row : Decision (row_terminal_before before row).
Proof. unfold row_terminal_before. apply _. Defined.

Definition sql_prune_terminal_before (before : Millis) (p : Tables) : StoreResult N * Tables :=
  let dead := jr_id <$> filter (row_terminal_before before) (tb_jobs p) in
  let p := with_failures (filter (fun row => fr_job_id row ∉ dead) (tb_failures p)) p in
  let p := with_tasks (filter (fun row => tr_job_id row ∉ dead) (tb_tasks p)) p in
  let p := with_jobs (filter (fun row => ~ row_terminal_before before row) (tb_jobs p)) p in
  (Ok (N.of_nat (length dead)), p).

(** *** [SqliteEvents] *)
Definition sql_append (r : EventRecord) (p : Tables) : StoreResult unit * Tables :=
  if bool_decide (as_i64 (er_seq r) ∈ ev_seq <$> tb_events p) then (Ok tt, p)
  else
    let row := {| ev_seq := as_i64 (er_seq r); ev_at := as_i64 (er_at r); ev_kind := ClusterEvent_kind (er_event r);
                  ev_node_id := as_i64 <$> ClusterEvent_node (er_event r); ev_payload_json := to_json (er_event r) |} in
    (Ok tt, with_events (tb_events p ++ [row]) p).

Definition event_from_row (row : EventRow) : StoreResult EventRecord :=
  let? event := ok_or (corrupt "event payload" (ev_payload_json row)) (from_json (ev_payload_json row)) in
  Ok {| er_seq := as_u64 (ev_seq row); er_at := as_u64 (ev_at row); er_event := event |}.

Definition sql_recent (limit : nat) (p : Tables) : StoreResult (list EventRecord) :=
  collect_results (event_from_row <$> take limit (order_by_desc ev_seq (tb_events p))).

(** [COALESCE(MAX(seq), 0)] *)
Definition sql_last_seq (p : Tables) : StoreResult N :=
  match ev_seq <$> tb_events p with
  | [] => Ok 0
  | seq :: rest => Ok (as_u64 (foldr Z.max seq rest))
  end.

Definition sql_prune_before (before : Millis) (p : Tables) : StoreResult N * Tables :=
  let gone := filter (fun row => (ev_at row < as_i64 before)%Z) (tb_events p) in
  (Ok (N.of_nat (length gone)), with_events (filter (fun row => ~ (ev_at row < as_i64 before)%Z) (tb_events p)) p).

(** *** [SqliteClusterStore] *)
Definition sql_save_node_roles (node : NodeId) (roles : RoleSet) (now : Millis) (p : Tables) : StoreResult unit * Tables :=
  let row := {| rr_node_id := as_i64 node; rr_roles := as_i64 roles; rr_updated_at := as_i64 now |} in
  if bool_decide (as_i64 node ∈ rr_node_id <$> tb_roles p)
  then (Ok tt, with_roles_rows ((fun r => if bool_decide (rr_node_id r = as_i64 node) then row else r) <$> tb_roles p) p)
  else (Ok tt, with_roles_rows (tb_roles p ++ [row]) p).

Definition sql_load_node_roles (p : Tables) : StoreResult (list (NodeId * RoleSet)) :=
  Ok ((fun r => (as_u16 (rr_node_id r), as_u8 (rr_roles r))) <$> order_by rr_node_id (tb_roles p)).

#[export] Instance SqliteClusterStore_jobs : JobStore Tables := {
  next_job_id := sql_next_job_id;
  reserve_task_ids := sql_reserve_task_ids;
  create_job := sql_create_job;
  save_job := sql_save_job;
  save_task := sql_save_task;
  record_failure := sql_record_failure;
  store_job := sql_job;
  recent_jobs := sql_recent_jobs;
  tasks_for_job := sql_tasks_for_job;
  failures_for_job := sql_failures_for_job;
  unfinished_jobs := sql_unfinished_jobs;
  unfinished_jobs_page after limit p := unfinished_jobs_page_default (sql_unfinished_jobs p) after limit;
  prune_terminal_before := fun _ p => (Ok 0, p)
}.

#[export] Instance SqliteClusterStore_events : EventLog Tables := {
  append := sql_append;
  recent := sql_recent;
  last_seq := sql_last_seq;
  prune_before := fun _ p => (Ok 0, p)
}.

#[export] Instance SqliteClusterStore : ClusterStore Tables := {
  save_node_roles := sql_save_node_roles;
  load_node_roles := sql_load_node_roles
}.
End Sqlite.

(** ** Round trips *)

(** The fields fit their columns. *)
Definition job_typed (j : Job) : Prop :=
  job_id j < 2 ^ 64 /\ job_task_count j <= u16_max /\ job_tasks_completed j <= u16_max /\
  job_tasks_failed j <= u16_max /\ job_created_at j < 2 ^ 64 /\
  match job_finished_at j with Some t => t < 2 ^ 64 | None => True end.
Definition task_typed (t : Task) : Prop :=
  task_id t < 2 ^ 64 /\ task_job_id t < 2 ^ 64 /\ task_index t <= u16_max /\ task_attempt t <= u16_max /\
  task_updated_at t < 2 ^ 64 /\ match task_assigned_to t with Some n => n <= u16_max | None => True end.

Lemma JobState_parse_as_str s : JobState_parse (JobState_as_str s) = Some s.
Proof. by destruct s. Qed.
Lemma TaskState_parse_as_str s : TaskState_parse (TaskState_as_str s) = Some s.
Proof. by destruct s. Qed.

Lemma fmap_u64_i64 (o : option N) :
  match o with Some t => t < 2 ^ 64 | None => True end -> as_u64 <$> (as_i64 <$> o) = o.
Proof. destruct o as [t|]; [|done]. intros Ht. cbn. by rewrite as_u64_i64. Qed.

Lemma fmap_u16_i64 (o : option N) :
  match o with Some t => t <= u16_max | None => True end -> as_u16 <$> (as_i64 <$> o) = o.
Proof. destruct o as [t|]; [|done]. intros Ht. cbn. by rewrite as_u16_i64. Qed.

Section SqliteLaws.
Context `{JsonLaws JobSpec, JsonLaws TaskSpec, JsonLaws ClusterEvent}.

Lemma job_from_job_row j : job_typed j -> job_from_row (job_row j) = Ok j.
Proof.
  intros (? & ? & ? & ? & ? & ?). unfold job_from_row, job_row.
  cbn [jr_id jr_spec_json jr_state jr_task_count jr_tasks_completed jr_tasks_failed jr_created_at jr_finished_at].
  rewrite from_to_json, JobState_parse_as_str. cbn [ok_or].
  rewrite !as_u64_i64, !as_u16_i64, fmap_u64_i64 by done. by destruct j.
Qed.

Lemma task_from_task_row t : task_typed t -> task_from_row (task_row t) = Ok t.
Proof.
  intros (? & ? & ? & ? & ? & ?). unfold task_from_row, task_row.
  cbn [tr_id tr_job_id tr_idx tr_spec_json tr_state tr_assigned_to tr_attempt tr_output tr_updated_at].
  rewrite from_to_json, TaskState_parse_as_str. cbn [ok_or].
  rewrite !as_u64_i64, !as_u16_i64, fmap_u16_i64 by done. by destruct t.
Qed.

(** ** The laws of the store *)
#[export] Instance Tables_marks : StoreMarks Tables := {
  store_wf p :=
    (0 <= tb_job_seq p <= i64_max /\ 0 <= tb_task_seq p <= i64_max)%Z /\
    NoDup (jr_id <$> tb_jobs p) /\ Forall (fun row => 0 <= jr_id row <= tb_job_seq p)%Z (tb_jobs p) /\
    NoDup (tr_id <$> tb_tasks p) /\ Forall (fun row => 0 <= tr_id row <= tb_task_seq p)%Z (tb_tasks p);
  job_mark p := Z.to_N (tb_job_seq p) + 1;
  task_mark p := Z.to_N (tb_task_seq p) + 1
}.

Lemma collect_results_Ok {A B} (f : A -> StoreResult B) l xs :
  collect_results (f <$> l) = Ok xs -> Forall2 (fun a b => f a = Ok b) l xs.
Proof.
  revert xs. induction l as [|a l IH]; intros xs Hc; cbn in Hc; [injection Hc as <-; constructor|].
  destruct (f a) as [b|] eqn:Hf; [|done]. destruct (collect_results (f <$> l)) as [ys|]; [|done].
  injection Hc as <-. constructor; auto.
Qed.

Lemma job_from_row_id row j : job_from_row row = Ok j ->
  job_id j = as_u64 (jr_id row) /\ JobState_parse (jr_state row) = Some (job_state j).
Proof.
  unfold job_from_row. destruct (from_json (jr_spec_json row)); cbn [ok_or]; [|done].
  destruct (JobState_parse (jr_state row)); cbn [ok_or]; [|done]. by intros [= <-].
Qed.

Lemma task_from_row_id row t : task_from_row row = Ok t ->
  task_id t = as_u64 (tr_id row) /\ task_job_id t = as_u64 (tr_job_id row).
Proof.
  unfold task_from_row. destruct (from_json (tr_spec_json row)); cbn [ok_or]; [|done].
  destruct (TaskState_parse (tr_state row)); cbn [ok_or]; [|done]. by intros [= <-].
Qed.

Lemma as_u64_range z m : (0 <= z <= m)%Z -> (m <= i64_max)%Z -> as_u64 z = Z.to_N z.
Proof. intros Hz Hm. unfold as_u64, i64_max in *. by rewrite Z.mod_small by lia. Qed.

Lemma reserve_spec value count :
  let '(r, value') := reserve value count in
  (value <= value' \/ as_i64 count < 0)%Z /\
  match r with
  | Ok last => value' = (value + as_i64 count)%Z /\ (value' <= i64_max)%Z /\ last = as_u64 value'
  | Err _ => value' = value
  end.
Proof. unfold reserve. destruct (Z.ltb_spec i64_max (value + as_i64 count)); split_and!; try done; lia. Qed.

Lemma sql_next_job_id_spec p id p' :
  store_wf p -> sql_next_job_id p = (Ok id, p') -> job_mark p <= id < job_mark p'.
Proof.
  intros ((Hj & _) & _). unfold sql_next_job_id. pose proof (reserve_spec (tb_job_seq p) 1) as Hr.
  destruct (reserve (tb_job_seq p) 1) as [r value]. intros [= -> <-]. destruct Hr as (_ & Hv & Hmax & ->).
  rewrite as_i64_small in Hv by lia. cbn. rewrite (as_u64_range value value) by lia. lia.
Qed.

Lemma sql_reserve_task_ids_spec n p first p' :
  n <= u16_max -> store_wf p -> sql_reserve_task_ids n p = (Ok first, p') ->
  task_mark p <= first /\ first + n <= task_mark p'.
Proof.
  intros Hn ((_ & Ht) & _). unfold sql_reserve_task_ids. pose proof (reserve_spec (tb_task_seq p) (N.max n 1)) as Hr.
  destruct (reserve (tb_task_seq p) (N.max n 1)) as [[last|] value]; [|done]. intros [= <- <-].
  destruct Hr as (_ & Hv & Hmax & ->). unfold u16_max in Hn.
  rewrite as_i64_small in Hv by lia. cbn. rewrite (as_u64_range value value) by lia. lia.
Qed.

(** A write that keeps the rows' identifiers keeps the store sound. *)
Lemma store_le_ids p p' :
  tb_job_seq p' = tb_job_seq p -> tb_task_seq p' = tb_task_seq p ->
  jr_id <$> tb_jobs p' = jr_id <$> tb_jobs p -> tr_id <$> tb_tasks p' = tr_id <$> tb_tasks p -> store_le p p'.
Proof.
  intros Hj Ht Hjobs Htasks. split; [|cbn; rewrite Hj, Ht; lia]. cbn. rewrite Hj, Ht, Hjobs, Htasks.
  intros (Hs & Hn1 & Hf1 & Hn2 & Hf2). split_and!; try tauto.
  - change (Forall ((fun z => 0 <= z <= tb_job_seq p)%Z ∘ jr_id) (tb_jobs p')). rewrite <-Forall_fmap, Hjobs. by apply Forall_fmap.
  - change (Forall ((fun z => 0 <= z <= tb_task_seq p)%Z ∘ tr_id) (tb_tasks p')). rewrite <-Forall_fmap, Htasks. by apply Forall_fmap.
Qed.

Lemma fmap_id_ext {A} (f : A -> A) (key : A -> Z) (l : list A) : (forall x, key (f x) = key x) -> key <$> (f <$> l) = key <$> l.
Proof. intros Hf. rewrite <-list_fmap_compose. apply list_fmap_ext. intros i x _. apply Hf. Qed.

Lemma insert_task_rows_spec jobs rows l l' :
  insert_task_rows jobs rows l = Ok l' -> NoDup (tr_id <$> l) -> l' = l ++ rows /\ NoDup (tr_id <$> l').
Proof.
  revert l. induction rows as [|row rows IH]; intros l Hi Hnd; cbn in Hi.
  { injection Hi as <-. by rewrite app_nil_r. }
  unfold insert_task_row in Hi. destruct (bool_decide (tr_id row ∈ _)) eqn:Hd; [done|].
  destruct (bool_decide (tr_job_id row ∉ _)); [done|]. apply bool_decide_eq_false in Hd.
  destruct (IH _ Hi) as [-> Hnd']; [|by rewrite <-app_assoc in *].
  rewrite fmap_app. apply NoDup_app. split_and!; [done|set_solver|apply NoDup_singleton].
Qed.

Lemma sql_create_job_le j ts p :
  job_id j < job_mark p -> Forall (fun t => task_id t < task_mark p) ts -> store_le p (sql_create_job j ts p).2.
Proof.
  intros Hj Hts. unfold sql_create_job, insert_job_row.
  destruct (bool_decide (_ ∈ _)) eqn:Hd; [done|]. apply bool_decide_eq_false in Hd.
  destruct (insert_task_rows _ _ _) as [l'|] eqn:Hi; [|done]. split; [|done].
  intros ((Hs1 & Hs2) & Hn1 & Hf1 & Hn2 & Hf2). destruct (insert_task_rows_spec _ _ _ _ Hi Hn2) as [-> Hn2'].
  cbn in Hj |- *. unfold i64_max in *. split_and!; try done; try tauto.
  - rewrite fmap_app. apply NoDup_app. split_and!; [done| |apply NoDup_singleton].
    intros z Hz ->%list_elem_of_singleton. done.
  - apply Forall_app. split; [done|]. constructor; [|constructor]. cbn. rewrite as_i64_small; lia.
  - apply Forall_app. split; [done|]. apply Forall_fmap. eapply Forall_impl; [exact Hts|].
    cbn. intros t Ht. rewrite as_i64_small; lia.
Qed.

(** What [tasks_for_job] reads. *)
Lemma sql_tasks_for_job_rows id p ts :
  sql_tasks_for_job id p = Ok ts ->
  exists rows, rows ≡ₚ filter (fun row => tr_job_id row = as_i64 id) (tb_tasks p) /\
    Forall2 (fun row t => task_from_row row = Ok t) rows ts.
Proof.
  intros Hts. apply collect_results_Ok in Hts. eexists. split; [|exact Hts]. apply merge_sort_Permutation.
Qed.

Lemma sql_task_row id p ts t :
  store_wf p -> sql_tasks_for_job id p = Ok ts -> t ∈ ts ->
  exists row, row ∈ tb_tasks p /\ tr_job_id row = as_i64 id /\ task_id t = Z.to_N (tr_id row) /\
    (0 <= tr_id row <= tb_task_seq p)%Z /\ task_job_id t = as_u64 (as_i64 id).
Proof.
  intros ((_ & Hs) & _ & _ & _ & Hf) Hts Ht. destruct (sql_tasks_for_job_rows id p ts Hts) as (rows & Hp & Hall).
  apply list_elem_of_lookup in Ht as [i Hi]. destruct (Forall2_lookup_r _ _ _ _ _ Hall Hi) as (row & Hrow & Hr).
  assert (row ∈ filter (fun row => tr_job_id row = as_i64 id) (tb_tasks p)) as [Hj Hin]%list_elem_of_filter
    by (rewrite <-Hp; by eapply list_elem_of_lookup_2).
  rewrite Forall_forall in Hf. specialize (Hf row Hin). destruct (task_from_row_id row t Hr) as [-> ->].
  exists row. rewrite Hj. split_and!; try done; try lia. by apply (as_u64_range _ (tb_task_seq p)); lia.
Qed.

Lemma sql_tasks_NoDup id p ts : store_wf p -> sql_tasks_for_job id p = Ok ts -> NoDup (task_id <$> ts).
Proof.
  intros ((_ & Hs) & _ & _ & Hnd & Hf) Hts. destruct (sql_tasks_for_job_rows id p ts Hts) as (rows & Hp & Hall).
  assert (NoDup (tr_id <$> rows)) as Hndr by (rewrite Hp; by apply NoDup_fmap_filter).
  assert (Forall (fun row => 0 <= tr_id row <= tb_task_seq p)%Z rows) as Hfr.
  { rewrite Hp. rewrite Forall_forall in Hf |- *. intros row [_ ?]%list_elem_of_filter. auto. }
  clear Hp Hts. revert Hndr Hfr. induction Hall as [|row t rows ts Hr Hall IH]; intros Hndr Hfr; [constructor|].
  rewrite fmap_cons in Hndr. rewrite fmap_cons. apply NoDup_cons in Hndr as [Hni Hndr]. apply Forall_cons in Hfr as [Hrow Hfr].
  apply NoDup_cons. split; [|by apply IH]. destruct (task_from_row_id row t Hr) as [-> _].
  rewrite (as_u64_range _ (tb_task_seq p)) by lia. intros (u & Hu & Hin)%list_elem_of_fmap.
  apply list_elem_of_lookup in Hin as [i Hi]. destruct (Forall2_lookup_r _ _ _ _ _ Hall Hi) as (row' & Hrow' & Hr').
  destruct (task_from_row_id row' u Hr') as [Hid _]. rewrite Forall_lookup in Hfr. specialize (Hfr i row' Hrow').
  rewrite Hid, (as_u64_range _ (tb_task_seq p)) in Hu by lia. apply Hni.
  assert (tr_id row = tr_id row') as -> by lia. eapply list_elem_of_fmap_2, list_elem_of_lookup_2. exact Hrow'.
Qed.

Lemma NoDup_key_inj {A} (key : A -> Z) l x y : NoDup (key <$> l) -> x ∈ l -> y ∈ l -> key x = key y -> x = y.
Proof.
  intros Hnd [i Hi]%list_elem_of_lookup [j Hj]%list_elem_of_lookup Heq.
  assert (i = j) as ->; [|congruence]. eapply (NoDup_lookup (key <$> l)); [done|..];
    rewrite list_lookup_fmap; [by rewrite Hi|by rewrite Hj, Heq].
Qed.

(** The order of [ORDER BY id] is strict, as the identifiers are distinct. *)
Lemma order_by_strict rows :
  NoDup (jr_id <$> rows) -> StronglySorted (fun x y => jr_id x < jr_id y)%Z (order_by jr_id rows).
Proof.
  intros Hnd. assert (StronglySorted (key_asc jr_id) (order_by jr_id rows)) as Hs.
  { apply StronglySorted_merge_sort; unfold key_asc; [intros x y z; lia|intros x y; lia]. }
  assert (NoDup (jr_id <$> order_by jr_id rows)) as Hnd' by (unfold order_by; by rewrite merge_sort_Permutation).
  induction Hs as [|x l Hs IH Hall]; [constructor|].
  rewrite fmap_cons in Hnd'. apply NoDup_cons in Hnd' as [Hni Hnd']. constructor; [by apply IH|].
  rewrite Forall_forall in Hall |- *. intros y Hy. specialize (Hall y Hy). unfold key_asc in Hall.
  assert (jr_id x <> jr_id y); [|lia]. intros Heq. apply Hni. rewrite Heq. by apply list_elem_of_fmap_2.
Qed.

Lemma job_with_tasks_Ok p row jt :
  job_with_tasks p row = Ok jt -> job_from_row row = Ok jt.1 /\ sql_tasks_for_job (job_id jt.1) p = Ok jt.2.
Proof.
  unfold job_with_tasks. destruct (job_from_row row) as [j|]; [|done].
  destruct (sql_tasks_for_job (job_id j) p) as [ts|] eqn:Hts; [|done]. by intros [= <-].
Qed.

Lemma sql_unfinished_spec p jobs :
  store_wf p -> sql_unfinished_jobs p = Ok jobs ->
  Forall (fun jt => job_id jt.1 < job_mark p /\ JobState_is_terminal (job_state jt.1) = false /\
                    sql_tasks_for_job (job_id jt.1) p = Ok jt.2) jobs /\
  StronglySorted (fun x y => job_id x.1 < job_id y.1) jobs.
Proof.
  intros ((Hs & _) & Hnd & Hf & _) Hu. apply collect_results_Ok in Hu.
  pose proof (order_by_strict (filter row_unfinished (tb_jobs p)) ltac:(by apply NoDup_fmap_filter)) as Hsort.
  assert (Forall (fun row => (0 <= jr_id row <= tb_job_seq p)%Z /\ row_unfinished row)
    (order_by jr_id (filter row_unfinished (tb_jobs p)))) as Hrows.
  { unfold order_by. rewrite merge_sort_Permutation. apply Forall_forall. rewrite Forall_forall in Hf.
    intros row [Hr Hin]%list_elem_of_filter. auto. }
  set (rows := order_by jr_id _) in *. clearbody rows. revert Hsort Hrows.
  induction Hu as [|row jt rows jobs Hr Hall IH]; intros Hsort Hrows; [split; constructor|].
  apply StronglySorted_inv in Hsort as [Hsort Hlt]. apply Forall_cons in Hrows as [[Hb Hst] Hrows].
  destruct (IH Hsort Hrows) as [IH1 IH2]. destruct (job_with_tasks_Ok p row jt Hr) as [Hj Ht].
  destruct (job_from_row_id _ _ Hj) as [Hid Hps]. rewrite (as_u64_range _ (tb_job_seq p)) in Hid by lia.
  split; constructor; try done.
  - split_and!; [cbn; lia| |done].
    destruct Hst as [Hst|Hst]; rewrite Hst in Hps.
    + change (Some JobState.Queued = Some (job_state jt.1)) in Hps. injection Hps as Hps. by rewrite <-Hps.
    + change (Some JobState.Running = Some (job_state jt.1)) in Hps. injection Hps as Hps. by rewrite <-Hps.
  - apply Forall_forall. intros jt' [i Hi]%list_elem_of_lookup.
    destruct (Forall2_lookup_r _ _ _ _ _ Hall Hi) as (row' & Hrow' & Hr').
    destruct (job_with_tasks_Ok p row' jt' Hr') as [Hj' _]. destruct (job_from_row_id _ _ Hj') as [Hid' _].
    rewrite Forall_lookup in Hlt, Hrows. specialize (Hlt i row' Hrow'). destruct (Hrows i row' Hrow') as [Hb' _].
    rewrite (as_u64_range _ (tb_job_seq p)) in Hid' by lia. cbn in Hlt. lia.
Qed.

(** The SQLite store keeps what the runtime relies on. *)
#[export] Instance SqliteClusterStore_laws : ClusterStoreLaws Tables.
Proof.
  constructor.
  - intros p id p' Hwf Hn. by apply sql_next_job_id_spec.
  - intros p. cbn. unfold sql_next_job_id. pose proof (reserve_spec (tb_job_seq p) 1) as Hr.
    destruct (reserve (tb_job_seq p) 1) as [r value] eqn:Hres. destruct Hr as [[Hle|Hneg] Hr]; [|by vm_compute in Hneg].
    split; [|cbn; lia]. intros ((Hs1 & Hs2) & Hn1 & Hf1 & Hrest).
    assert (0 <= value <= i64_max)%Z as Hv by (destruct r; [destruct Hr as (? & ? & _)|]; lia).
    split; [exact (conj Hv Hs2)|]. split; [exact Hn1|]. split; [|exact Hrest].
    eapply Forall_impl; [exact Hf1|]. cbn. lia.
  - intros n p first p' Hn Hwf Hr. by apply sql_reserve_task_ids_spec.
  - intros n p Hn. cbn. unfold sql_reserve_task_ids. pose proof (reserve_spec (tb_task_seq p) (N.max n 1)) as Hr.
    destruct (reserve (tb_task_seq p) (N.max n 1)) as [r value] eqn:Hres. unfold u16_max in Hn.
    rewrite as_i64_small in Hr by lia. destruct Hr as [[Hle|Hneg] Hr]; [|lia].
    split; [|cbn; lia]. intros ((Hs1 & Hs2) & Hn1 & Hf1 & Hn2 & Hf2).
    assert (0 <= value <= i64_max)%Z as Hv by (destruct r; [destruct Hr as (? & ? & _)|]; lia).
    split; [exact (conj Hs1 Hv)|]. split; [exact Hn1|]. split; [exact Hf1|]. split; [exact Hn2|].
    eapply Forall_impl; [exact Hf2|]. cbn. lia.
  - intros j ts p. apply sql_create_job_le.
  - intros j p. apply store_le_ids; try done. cbn. apply fmap_id_ext. intros row. unfold update_job_row. by destruct (bool_decide _).
  - intros t p. apply store_le_ids; try done. cbn. apply fmap_id_ext. intros row. unfold update_task_row. by destruct (bool_decide _).
  - intros f p. by apply store_le_ids.
  - intros r p. cbn. unfold sql_append. destruct (bool_decide _); by apply store_le_ids.
  - intros n r at_ p. cbn. unfold sql_save_node_roles. destruct (bool_decide _); by apply store_le_ids.
  - intros n p jobs ((Hs & _) & _ & Hf & _) Hr. cbn in Hr. unfold sql_recent_jobs in Hr. apply collect_results_Ok in Hr.
    apply Forall_forall. intros j [i Hi]%list_elem_of_lookup.
    destruct (Forall2_lookup_r _ _ _ _ _ Hr Hi) as (row & Hrow & Hj). destruct (job_from_row_id _ _ Hj) as [Hid _].
    assert (row ∈ tb_jobs p) as Hin.
    { apply list_elem_of_lookup_2, elem_of_take in Hrow as (k & Hk & _). apply list_elem_of_lookup_2 in Hk.
      unfold order_by_desc in Hk. by rewrite merge_sort_Permutation in Hk. }
    rewrite Forall_forall in Hf. specialize (Hf row Hin). rewrite (as_u64_range _ (tb_job_seq p)) in Hid by lia. cbn. lia.
  - intros id p ts Hwf Hid Hts. split; [|exact (sql_tasks_NoDup id p ts Hwf Hts)]. apply Forall_forall. intros t Ht.
    destruct (sql_task_row id p ts t Hwf Hts Ht) as (row & _ & _ & Htid & Hb & ->). destruct Hwf as ((Hs & _) & _).
    cbn in Hid |- *. unfold i64_max in Hs. rewrite as_u64_i64 by lia. lia.
  - intros j1 j2 p ts1 ts2 t1 t2 Hwf Hj1 Hj2 H1' H2' Ht1 Ht2 Heq.
    destruct (sql_task_row j1 p ts1 t1 Hwf H1' Ht1) as (r1 & Hr1 & Hjr1 & Hid1 & Hb1 & _).
    destruct (sql_task_row j2 p ts2 t2 Hwf H2' Ht2) as (r2 & Hr2 & Hjr2 & Hid2 & Hb2 & _).
    destruct Hwf as ((Hs & _) & _ & _ & Hnd & _). cbn in Hj1, Hj2. unfold i64_max in Hs.
    assert (r1 = r2) as -> by (apply (NoDup_key_inj tr_id (tb_tasks p)); [done..|lia]).
    rewrite Hjr1 in Hjr2. rewrite !as_i64_small in Hjr2 by lia. lia.
  - done.
  - intros p jobs Hwf Hu. by apply sql_unfinished_spec.
Qed.
End SqliteLaws.

(** ** A job that was created can be read back *)
Section ReadBack.
Context `{JsonLaws JobSpec, JsonLaws TaskSpec, JsonLaws ClusterEvent}.

Lemma find_new {A} (Q : A -> bool) l x : Forall (fun y => Q y = false) l -> Q x = true -> find Q (l ++ [x]) = Some x.
Proof.
  intros Hl Hx. induction Hl as [|y l Hy _ IH]; unfold find in *; cbn.
  - by rewrite decide_True.
  - rewrite decide_False by (by rewrite Hy). destruct (list_find _ (l ++ [x])) as [[i z]|]; cbn in *; [|done]. by injection IH as ->.
Qed.

Lemma collect_results_all {A B} (f : A -> StoreResult B) l xs :
  Forall2 (fun a b => f a = Ok b) l xs -> collect_results (f <$> l) = Ok xs.
Proof. induction 1 as [|a b l xs Hf _ IH]; [done|]. cbn. by rewrite Hf, IH. Qed.

(** Rows already in index order stay as they are. *)
Lemma order_by_rows ts :
  Forall task_typed ts -> StronglySorted (fun a b => task_index a < task_index b) ts ->
  order_by tr_idx (task_row <$> ts) = task_row <$> ts.
Proof.
  intros Htt Hsort.
  assert (forall t, t ∈ ts -> tr_idx (task_row t) = Z.of_N (task_index t)) as Hidx.
  { intros t Ht. rewrite Forall_forall in Htt. destruct (Htt t Ht) as (_ & _ & Hi & _). cbn.
    apply as_i64_small. unfold u16_max in Hi. lia. }
  assert (StronglySorted (fun a b => tr_idx a < tr_idx b)%Z (task_row <$> ts)) as Hs.
  { clear Htt. induction Hsort as [|t ts Hs IH Hall]; [constructor|]. rewrite fmap_cons. constructor.
    - apply IH. intros u Hu. apply Hidx. by right.
    - apply Forall_fmap. rewrite Forall_forall in Hall |- *. intros u Hu. unfold compose.
      rewrite (Hidx t), (Hidx u) by (by constructor || by right). specialize (Hall u Hu). cbn in Hall. lia. }
  apply (StronglySorted_unique_strong (key_asc tr_idx)).
  - intros x y Hx Hy Hxy Hyx. unfold order_by in Hx. rewrite merge_sort_Permutation in Hx. unfold key_asc in *.
    eapply (NoDup_key_inj tr_idx); [|exact Hx|exact Hy|lia]. clear -Hs.
    induction Hs as [|x l Hs IH Hall]; [constructor|]. rewrite fmap_cons. apply NoDup_cons. split; [|done].
    intros (y & Hy & Hin)%list_elem_of_fmap. rewrite Forall_forall in Hall. specialize (Hall y Hin). cbn in Hall. lia.
  - apply StronglySorted_merge_sort; unfold key_asc; [intros x y z; lia|intros x y; lia].
  - clear -Hs. induction Hs as [|x l Hs IH Hall]; constructor; [done|]. eapply Forall_impl; [exact Hall|].
    unfold key_asc. cbn. lia.
  - apply merge_sort_Permutation.
Qed.

(** Create, then read.  When [create_job] succeeds, the job is found under its
    id and its tasks are listed in index order, each exactly as it was written;
    when it fails, the tables are untouched. *)
Theorem create_job_read_back (job : Job) (ts : list Task) (p : Tables) :
  store_wf p -> job_typed job -> Forall task_typed ts -> Forall (fun t => task_job_id t = job_id job) ts ->
  StronglySorted (fun a b => task_index a < task_index b) ts ->
  Forall (fun row => tr_job_id row <> as_i64 (job_id job)) (tb_tasks p) ->
  match sql_create_job job ts p with
  | (Ok _, p') => sql_job (job_id job) p' = Ok (Some job) /\ sql_tasks_for_job (job_id job) p' = Ok ts
  | (Err _, p') => p' = p
  end.
Proof.
  intros Hwf Hjt Htt Hown Hsort Hnone. unfold sql_create_job, insert_job_row.
  destruct (bool_decide (_ ∈ _)) eqn:Hd; [done|]. apply bool_decide_eq_false in Hd.
  destruct (insert_task_rows _ _ _) as [l'|] eqn:Hi; [|done].
  destruct (insert_task_rows_spec _ _ _ _ Hi) as [-> _]; [apply Hwf|]. split.
  - unfold sql_job. cbn [tb_jobs with_tasks with_jobs]. rewrite find_new.
    + by rewrite job_from_job_row.
    + apply Forall_forall. intros row Hin. apply bool_decide_eq_false. intros Heq. apply Hd.
      change (jr_id (job_row job)) with (as_i64 (job_id job)). rewrite <-Heq. by apply list_elem_of_fmap_2.
    + by apply bool_decide_eq_true.
  - unfold sql_tasks_for_job. cbn [tb_tasks with_tasks with_jobs]. apply collect_results_all.
    assert (filter (fun row => tr_job_id row = as_i64 (job_id job)) (tb_tasks p ++ (task_row <$> ts)) = task_row <$> ts) as ->.
    { rewrite filter_app, (filter_all _ (task_row <$> ts)).
      - assert (filter (fun row => tr_job_id row = as_i64 (job_id job)) (tb_tasks p) = []) as ->; [|done].
        clear -Hnone. induction Hnone as [|row l Hr _ IH]; [done|]. by rewrite filter_cons, decide_False.
      - apply Forall_fmap. eapply Forall_impl; [exact Hown|]. cbn. intros t ->. done. }
    assert (order_by tr_idx (task_row <$> ts) = task_row <$> ts) as ->.
    { by apply order_by_rows. }
    clear -Htt H2. induction Htt as [|t ts Ht _ IH]; [constructor|]. constructor; [by apply task_from_task_row|done].
Qed.
End ReadBack.

(** ** A codec for which the law of [Json] holds

    Every value has a list of numbers as its code; the text is the binary
    numeral of that list's position in a fixed enumeration. *)
Fixpoint digits (p : positive) : string :=
  match p with
  | xH => ""
  | xO p => String "0"%char (digits p)
  | xI p => String "1"%char (digits p)
  end.
Fixpoint undigits (s : string) : positive :=
  match s with
  | EmptyString => xH
  | String c s => if bool_decide (c = "0"%char) then xO (undigits s) else xI (undigits s)
  end.
Lemma undigits_digits p : undigits (digits p) = p.
Proof. induction p as [p IH|p IH|]; cbn; by rewrite ?IH. Qed.

Definition numeral_json {T} (code : T -> list N) (uncode : list N -> option T) : Json T :=
  {| to_json x := digits (encode (code x)); from_json s := decode (undigits s) ≫= uncode |}.
Lemma numeral_json_laws {T} (code : T -> list N) uncode :
  (forall x, uncode (code x) = Some x) -> @JsonLaws T (numeral_json code uncode).
Proof. intros Hc x. cbn. rewrite undigits_digits, decode_encode. apply Hc. Qed.

Definition JobSpec_code (s : JobSpec) : list N :=
  match s with JobSleep a b => [0; a; b] | JobPrimes a b => [1; a; b] | JobAnalysis a b c => [2; a; b; c] end.
Definition JobSpec_uncode (l : list N) : option JobSpec :=
  match l with
  | [0; a; b] => Some (JobSleep a b) | [1; a; b] => Some (JobPrimes a b) | [2; a; b; c] => Some (JobAnalysis a b c)
  | _ => None
  end.
Definition TaskSpec_code (s : TaskSpec) : list N :=
  match s with TaskSleep a => [0; a] | TaskPrimes a b => [1; a; b] | TaskAnalysis a b c => [2; a; b; c] end.
Definition TaskSpec_uncode (l : list N) : option TaskSpec :=
  match l with
  | [0; a] => Some (TaskSleep a) | [1; a; b] => Some (TaskPrimes a b) | [2; a; b; c] => Some (TaskAnalysis a b c)
  | _ => None
  end.

Definition Role_code (r : Role) : N := N.of_nat (Role_index r).
Definition Role_uncode (n : N) : option Role := ALL_ROLES !! N.to_nat n.
Definition FailureReason_ALL : list FailureReason := [NodeOffline; ExecutionError; Injected; Timeout; Cancelled].
Definition FailureReason_code (r : FailureReason) : N :=
  match r with NodeOffline => 0 | ExecutionError => 1 | Injected => 2 | Timeout => 3 | Cancelled => 4 end.
Definition FailureReason_uncode (n : N) : option FailureReason := FailureReason_ALL !! N.to_nat n.

Definition ClusterEvent_code (e : ClusterEvent) : list N :=
  match e with
  | NodeJoined n => [0; n] | NodeLeft n => [1; n] | NodeUnhealthy n => [2; n] | NodeRecovered n => [3; n]
  | RoleAssigned n r => [4; n; Role_code r] | RoleRemoved n r => [5; n; Role_code r]
  | LeaderElected n => [6; n] | LeaderLost n => [7; n]
  | JobCreated j => [8; j] | JobCompleted j => [9; j] | JobFailed j => [10; j]
  | TaskAssigned t n => [11; t; n] | TaskCompleted t n => [12; t; n]
  | TaskFailed t (Some n) r => [13; t; n; FailureReason_code r]
  | TaskFailed t None r => [14; t; FailureReason_code r]
  | TaskRequeued t => [15; t]
  end.
Definition ClusterEvent_uncode (l : list N) : option ClusterEvent :=
  match l with
  | [0; n] => Some (NodeJoined n) | [1; n] => Some (NodeLeft n) | [2; n] => Some (NodeUnhealthy n)
  | [3; n] => Some (NodeRecovered n)
  | [4; n; r] => RoleAssigned n <$> Role_uncode r | [5; n; r] => RoleRemoved n <$> Role_uncode r
  | [6; n] => Some (LeaderElected n) | [7; n] => Some (LeaderLost n)
  | [8; j] => Some (JobCreated j) | [9; j] => Some (JobCompleted j) | [10; j] => Some (JobFailed j)
  | [11; t; n] => Some (TaskAssigned t n) | [12; t; n] => Some (TaskCompleted t n)
  | [13; t; n; r] => TaskFailed t (Some n) <$> FailureReason_uncode r
  | [14; t; r] => TaskFailed t None <$> FailureReason_uncode r
  | [15; t] => Some (TaskRequeued t)
  | _ => None
  end.

Definition JobSpec_numeral : Json JobSpec := numeral_json JobSpec_code JobSpec_uncode.
Definition TaskSpec_numeral : Json TaskSpec := numeral_json TaskSpec_code TaskSpec_uncode.
Definition ClusterEvent_numeral : Json ClusterEvent := numeral_json ClusterEvent_code ClusterEvent_uncode.

Lemma JobSpec_numeral_laws : @JsonLaws JobSpec JobSpec_numeral.
Proof. apply numeral_json_laws. by intros []. Qed.
Lemma TaskSpec_numeral_laws : @JsonLaws TaskSpec TaskSpec_numeral.
Proof. apply numeral_json_laws. by intros []. Qed.
Lemma ClusterEvent_numeral_laws : @JsonLaws ClusterEvent ClusterEvent_numeral.
Proof. apply numeral_json_laws. by intros [?|?|?|?|? []|? []|?|?|?|?|?|? ?|? ?|? [] []|?]. Qed.

Lemma create_job_read_back_witness :
  let job := Job_new 1 (JobSleep 10 2) 5 in
  let ts := [Task_new 1 1 0 (TaskSleep 5) 5; Task_new 2 1 1 (TaskSleep 5) 5] in
  exists p', @sql_create_job JobSpec_numeral TaskSpec_numeral job ts Tables_empty = (Ok tt, p') /\
    @sql_tasks_for_job TaskSpec_numeral 1 p' = Ok ts.
Proof.
  eexists. split; [reflexivity|].
  refine (proj2 (@create_job_read_back JobSpec_numeral JobSpec_numeral_laws TaskSpec_numeral TaskSpec_numeral_laws
    ClusterEvent_numeral ClusterEvent_numeral_laws (Job_new 1 (JobSleep 10 2) 5) [Task_new 1 1 0 (TaskSleep 5) 5; Task_new 2 1 1 (TaskSleep 5) 5] Tables_empty _ _ _ _ _ _)).
  - vm_compute. repeat split; try discriminate; constructor.
  - vm_compute. repeat split; discriminate.
  - repeat constructor; vm_compute; try discriminate; exact I.
  - repeat constructor.
  - repeat constructor.
  - constructor.
Defined.
