(* ===== verification/SupervisorSpec.v ===== *)
(** * What the supervisor guarantees

    The properties of every run: from a store that agrees with itself, through
    [bootstrap], after any sequence of commands, reports, ticks and events of the
    surroundings.  The invariants behind them are in [SupervisorInv],
    [SupervisorLog] and [SupervisorBoot]; here they are read off, stated in the
    terms of the program, and run on a small cluster over the SQLite store. *)
From stdpp Require Import prelude gmap sorting strings.
From S2P Require Import Prelude Time Role Node Job Event Scheduler Store Snapshot Protocol Supervisor SupervisorInv SupervisorBoot SupervisorLog Sqlite.

Section Boots.
Context {P S L : Type} `{ClusterStoreLaws P} `{SchedulerLaws S} `{Elector L} (E : Env S L).
Implicit Types s : Sup P.

(** The supervisor starts on the store [p]: its jobs can be read and agree with
    their tasks, and the configuration does not make it panic. *)
Definition boots (p : P) s : Prop :=
  store_wf p /\ (forall jt, loaded p jt -> consistent jt) /\
  is_ok (recent_jobs (job_buffer (config E)) p) = true /\ is_ok (unfinished_jobs p) = true /\
  bootstrap E (Supervisor_new p) = Some s.

Lemma boots_Inv p s0 : boots p s0 -> Inv s0.
Proof.
  intros (Hwf & Hc & Hr & Hu & Hb). destruct (recent_jobs _ p) as [recent|] eqn:Hr'; [|done].
  destruct (unfinished_jobs p) as [all|] eqn:Hu'; [|done]. by destruct (restart_good E p s0 recent all).
Qed.

Lemma run_Inv p s0 s : boots p s0 -> reachable E s0 s -> Inv s.
Proof. intros Hb Hr. eapply reachable_good; [|exact Hr]. by eapply boots_Inv. Qed.

(** Where a task of a run can be. *)
Definition accounted s (id : TaskId) (t : Task) : Prop :=
  match task_state t with
  | TaskState.Queued => id ∈ s_queue s /\ task_assigned_to t = None
  | TaskState.Assigned | TaskState.Running =>
      (id ∉ s_queue s) /\ exists n, task_assigned_to t = Some n /\ live (s_nodes s) n /\
        forall id' t', s_tasks s !! id' = Some t' -> in_flight t' -> task_assigned_to t' = Some n -> id' = id
  | TaskState.Completed => (id ∉ s_queue s) /\ is_Some (task_output t)
  | TaskState.Failed => id ∉ s_queue s
  end.

(** C1: No task is lost or doubled, whatever happens to the nodes: at every point
    of every run the queue holds each queued task once and nothing else, and a
    task that is assigned or running is on a node that has a connection and is
    not offline, as the only task there. *)
Theorem no_task_lost (p : P) s0 s :
  boots p s0 -> reachable E s0 s ->
  NoDup (s_queue s) /\ (forall id, id ∈ s_queue s -> is_Some (s_tasks s !! id)) /\
  forall id t, s_tasks s !! id = Some t -> task_id t = id /\ accounted s id t.
Proof.
  intros Hb Hr. destruct (run_Inv p s0 s Hb Hr) as [G _]. destruct G as [_ _ Kt Wf Nd Q Held One _ _].
  split_and!; [done|intros id (t & Ht & _)%Q; by eauto|]. intros id t Ht. split; [by apply Kt|].
  specialize (Wf _ _ Ht). unfold accounted, Task_wf in *.
  assert (task_state t <> TaskState.Queued -> id ∉ s_queue s) as Hnq by (intros Hne (u & Hu & ?)%Q; congruence).
  assert (in_flight t -> exists n, task_assigned_to t = Some n /\ live (s_nodes s) n /\
    forall id' t', s_tasks s !! id' = Some t' -> in_flight t' -> task_assigned_to t' = Some n -> id' = id) as Hfl.
  { intros Hf. destruct (Held id t Ht Hf) as (n & Ha & [[]|Hl]). exists n. split_and!; [done..|].
    intros id' t' Ht' Hf' Ha'. eapply One; eauto. congruence. }
  unfold in_flight in Hfl. destruct (task_state t) eqn:Hs; cbn [held] in Hfl.
  - split; [apply Q; eauto|apply Wf].
  - split; [by apply Hnq|by apply Hfl].
  - split; [by apply Hnq|by apply Hfl].
  - split; [by apply Hnq|apply Wf].
  - by apply Hnq.
Qed.

Lemma tally_none (tasks : gmap N Task) j st :
  (forall id t, tasks !! id = Some t -> task_job_id t = j -> st (task_state t) = false) -> tally j st tasks = 0.
Proof.
  intros Hall. unfold tally. destruct (count (of_job j st) tasks) eqn:Hc; [done|]. exfalso.
  assert (0 < count (of_job j st) tasks)%nat as (id & t & Ht & Hj & Hs)%count_pos by lia. by rewrite (Hall id t) in Hs.
Qed.



(** ** Work conservation *)

(** A node [dispatch] could give work to. *)
Definition idle s (n : NodeId) : Prop :=
  exists e, s_nodes s !! n = Some e /\ is_Some (e_handle e) /\ is_schedulable (e_node e) = true /\
    forall id t, s_tasks s !! id = Some t -> in_flight t -> task_assigned_to t <> Some n.

(** Nothing more can be handed out: the queue is empty, or nobody is idle, or an
    idle node's mailbox takes nothing. *)
Definition saturated s : Prop :=
  s_queue s = [] \/ (forall n, ~ idle s n) \/ exists n, idle s n /\ forall t, (send_assign n t s).1 = false.

Lemma idle_candidate busy s n :
  keyed (fun e => node_id (e_node e)) (s_nodes s) -> busy_ok busy (s_tasks s) ->
  idle s n <-> exists nd, nd ∈ candidates (s_nodes s) busy /\ node_id nd = n.
Proof.
  intros Hk Hb. unfold candidates. split.
  - intros (e & He & Hh & Hs & Hfree). exists (e_node e). assert (node_id (e_node e) = n) as Hn by by apply Hk.
    split; [|done]. apply list_elem_of_fmap. exists e. split; [done|]. apply list_elem_of_filter.
    split; [|apply elem_of_values; eauto]. split; [done|]. rewrite Hn, (Hb n). intros (id & t & Ht & Hf & Ha). by eapply Hfree.
  - intros (nd & Hin & <-). apply list_elem_of_fmap in Hin as (e & -> & Hin). apply list_elem_of_filter in Hin as [[[Hh Hs] Hni] Hv].
    apply elem_of_values in Hv as (k & He). pose proof (Hk _ _ He) as Hid. cbn in Hid. subst k.
    exists e. split_and!; [done..|]. intros id t Ht Hf Ha. apply Hni, Hb. eauto.
Qed.

Lemma send_assign_refused n t t' s : (send_assign n t s).1 = (send_assign n t' s).1.
Proof.
  unfold send_assign, try_send. destruct (s_nodes s !! n ≫= e_handle) as [h|]; [|done].
  destruct (s_chans s !! h_inbox h) as [mb|]; [|done]. by destruct (_ && _).
Qed.

Lemma send_assign_same n t s s' :
  s_nodes s' = s_nodes s -> s_chans s' = s_chans s -> (send_assign n t s').1 = (send_assign n t s).1.
Proof.
  unfold send_assign, try_send. intros -> Hc. destruct (s_nodes s !! n ≫= e_handle) as [h|]; [|done]. rewrite Hc.
  destruct (s_chans s !! h_inbox h) as [mb|]; [|done]. by destruct (_ && _).
Qed.

Lemma send_failed_chans n t s : (send_assign n t s).1 = false -> (send_assign n t s).2 = s.
Proof.
  unfold send_assign, try_send. destruct (s_nodes s !! n ≫= e_handle) as [h|]; [|done].
  destruct (s_chans s !! h_inbox h) as [mb|]; [|done]. by destruct (_ && _).
Qed.

Lemma idle_put_back s s' id t' n :
  s_nodes s' = s_nodes s -> s_tasks s' = <[id := t']> (s_tasks s) -> ~ in_flight t' -> idle s n -> idle s' n.
Proof.
  intros Hn Ht Hnf (e & He & Hh & Hs & Hfree). exists e. rewrite Hn, Ht. split_and!; [done..|].
  intros i u [[_ <-]|[_ Hu]]%lookup_insert_Some Hf; [done|]. by eapply Hfree.
Qed.

Lemma dispatch_stops busy s s' :
  Good nobody (s_nodes s) (s_jobs s) (s_tasks s) (s_queue s) -> busy_ok busy (s_tasks s) ->
  dispatch_turn E busy s = Stop s' -> saturated s'.
Proof.
  intros G Hb. pose proof (idle_candidate busy s) as Hidle. unfold dispatch_turn.
  destruct (s_queue s) as [|id rest] eqn:Hq; [intros [= <-]; by left|]. rewrite <-Hq in G.
  destruct (head_queued s id rest G Hq) as (t & Hid & Hs & Htid & _). rewrite Hid.
  destruct (select_node (scheduler E) t (candidates (s_nodes s) busy)) as [n|e] eqn:Hsel.
  - apply select_node_sound in Hsel as (nd & Hnd & Hn & _). rewrite Task_assign_queued by done.
    assert (idle s n) as Hi by (apply Hidle; [apply G|done|eauto]).
    set (t' := task_with _ _ _ _ _ _). set (s1 := tock _). pose proof (send_failed_chans n t' s1) as Hf.
    destruct (send_assign n t' s1) as [[] s2] eqn:Hsend; [done|]. cbn in Hf. rewrite in_flight_requeue by done.
    specialize (Hf eq_refl). subst s2. intros [= <-]. right. right. exists n. split.
    + eapply idle_put_back; [| | |exact Hi]; [done|done|]. by unfold in_flight.
    + intros u. rewrite (send_assign_same n u s1) by done. rewrite (send_assign_refused n u t'). by rewrite Hsend.
  - intros [= <-]. right. left. intros n (nd & Hnd & <-)%Hidle; [|apply G|done].
    apply select_node_complete in Hsel. rewrite Forall_forall in Hsel. specialize (Hsel nd Hnd).
    destruct (elem_of_candidates _ _ _ _ G Hnd) as (e' & _ & _ & _ & Hsch & _). congruence.
Qed.

Lemma dispatch_loop_saturates fuel busy s s' :
  Good nobody (s_nodes s) (s_jobs s) (s_tasks s) (s_queue s) -> busy_ok busy (s_tasks s) ->
  dispatch_loop E fuel busy s = Some s' -> saturated s'.
Proof.
  revert busy s. induction fuel as [|fuel IH]; intros busy s G Hb; [done|]. cbn [dispatch_loop].
  pose proof (dispatch_stops busy s) as Hstop. destruct (dispatch_turn_good E busy s G Hb) as (G' & _ & Hc).
  destruct (dispatch_turn E busy s) as [s1|busy' s1]; cbn [turn_state] in *; [intros [= <-]; by apply Hstop|].
  destruct Hc as [Hb' _]. by apply IH.
Qed.

Lemma dispatch_saturates s : Good nobody (s_nodes s) (s_jobs s) (s_tasks s) (s_queue s) -> saturated (dispatch E s).
Proof.
  intros G. unfold dispatch.
  destruct (dispatch_loop_good E (Datatypes.S (length (s_queue s))) (busy_nodes (s_tasks s)) s) as (s' & Heq & _);
    [lia|done|apply busy_nodes_ok|]. rewrite Heq. cbn. eapply dispatch_loop_saturates; [exact G| |exact Heq]. apply busy_nodes_ok.
Qed.

Lemma saturated_same s s' :
  s_nodes s' = s_nodes s -> s_chans s' = s_chans s -> s_queue s' = s_queue s ->
  (forall id t, in_flight t -> s_tasks s' !! id = Some t <-> s_tasks s !! id = Some t) -> saturated s -> saturated s'.
Proof.
  intros Hn Hc Hq Hfl Hs. assert (forall n, idle s' n <-> idle s n) as Hidle.
  { intros n. unfold idle. rewrite Hn. split; intros (e & He & Hh & Hsch & Hfree); exists e; (split_and!; [done..|]);
      intros id t Ht Hf; apply (Hfree id t); [by apply Hfl|done|by apply Hfl|done]. }
  unfold saturated. rewrite Hq. destruct Hs as [?|[Hno|(n & Hi & Hr)]]; [by left|right; left; intros n; rewrite Hidle; apply Hno|].
  right. right. exists n. split; [by apply Hidle|]. intros t. rewrite (send_assign_same n t s s') by done. apply Hr.
Qed.

(** Pruning removes finished jobs only, so it frees nobody. *)
Lemma prune_saturated s : Inv s -> saturated s -> saturated (prune_memory E s).
Proof.
  intros [G _]. apply saturated_same; unfold prune_memory; try (by destruct (bool_decide _)).
  intros id t Hf. destruct (bool_decide _); [done|]. cbn [s_tasks set_tasks]. rewrite map_lookup_filter_Some.
  split; [by intros [? _]|]. intros Ht. split; [done|]. cbn. intros Hin.
  apply removable_terminal in Hin as (job & Hj & Hterm); [|apply (good_jobs _ _ _ _ _ G)].
  pose proof (job_ok_terminal _ _ _ id t (good_job _ _ _ _ _ G _ _ Hj) Hterm Ht eq_refl) as Ho.
  apply in_flight_open in Hf. congruence.
Qed.

(** The inputs after which work may be waiting for a node. *)
Definition redispatches (i : Input) s : bool :=
  match i with
  | OnTick | OnReport (ReportTaskFinished _ _ _) => true
  | OnCommand (CmdSubmitJob spec) => is_ok (submit_job E spec s).1
  | _ => false
  end.

(** C4: The scheduler is work-conserving: after a tick, a finished task or an
    accepted job, either the queue is empty, or no reachable, healthy compute
    node is without a task, or an idle one refuses messages. *)
Theorem dispatch_work_conserving (p : P) s0 s i :
  boots p s0 -> reachable E s0 s -> typed_input i -> redispatches i s = true -> saturated (step E i s).
Proof.
  intros Hb Hr Hty Hi. pose proof (run_Inv p s0 s Hb Hr) as HI. destruct i as [c|r| | | |?|?|?]; try done.
  - destruct c as [| | | | | |spec| | | | | | | |]; try done. cbn [step handle_command redispatches] in *.
    pose proof (submit_cases E spec s Hty HI) as Hc. destruct (submit_job E spec s) as [[id|] s2]; [|done].
    cbn in *. destruct Hc as (s1 & [G1 _] & ->). by apply dispatch_saturates.
  - destruct r as [|?|node task outcome]; try done. cbn [step handle_report]. apply dispatch_saturates.
    by apply (finish_task_good E s node (task_id task) outcome), HI.
  - cbn [step]. unfold tick. pose proof (sweep_good E s HI) as HI1. set (s1 := sweep_health E s) in *.
    destruct (refresh_good E nobody s1 (proj1 HI1)) as [G2 [_ K2]]. apply prune_saturated; [|by apply dispatch_saturates].
    apply dispatch_Inv. by eapply Inv_kept.
Qed.
End Boots.

(** ** Leadership *)

(** [o] is the lowest id among the entries that satisfy [p], if there is one. *)
Definition lowest (p : NodeEntry -> bool) (nodes : gmap N NodeEntry) (o : option NodeId) : Prop :=
  match o with
  | Some id => (exists e, nodes !! id = Some e /\ p e = true) /\
      forall id' e', nodes !! id' = Some e' -> p e' = true -> id <= id'
  | None => forall id e, nodes !! id = Some e -> p e = false
  end.

Definition is_healthy (e : NodeEntry) : bool := accepts_work (node_status (e_node e)).
Definition healthy_with (r : Role) (e : NodeEntry) : bool := is_healthy e && has_role (e_node e) r.

(** The lowest healthy coordinator leads; without one, the lowest healthy node. *)
Definition leads (nodes : gmap N NodeEntry) (leader : option NodeId) : Prop :=
  exists c, lowest (healthy_with Coordinator) nodes c /\
    match c with Some _ => leader = c | None => lowest is_healthy nodes leader end.

(** Registries that agree on who is there, healthy, and in which role. *)
Definition same_standing (nodes nodes' : gmap N NodeEntry) : Prop :=
  forall id, (fun e => (is_healthy e, healthy_with Coordinator e, healthy_with Gateway e)) <$> nodes' !! id =
             (fun e => (is_healthy e, healthy_with Coordinator e, healthy_with Gateway e)) <$> nodes !! id.

Lemma lowest_ext p nodes nodes' o :
  (forall id, p <$> nodes' !! id = p <$> nodes !! id) -> lowest p nodes o -> lowest p nodes' o.
Proof.
  intros Hext. assert (forall id e', nodes' !! id = Some e' -> exists e, nodes !! id = Some e /\ p e = p e') as Hb.
  { intros id e' He'. specialize (Hext id). rewrite He' in Hext. destruct (nodes !! id) as [e|]; [|done].
    injection Hext as Heq. eauto. }
  destruct o as [id|]; cbn.
  - intros ((e & He & Hp) & Hmin). split.
    + specialize (Hext id). rewrite He in Hext. destruct (nodes' !! id) as [e'|]; [|done]. injection Hext as Heq.
      exists e'. split; [done|congruence].
    + intros id' e' He' Hp'. destruct (Hb _ _ He') as (e0 & He0 & Heq). apply (Hmin id' e0); congruence.
  - intros Hno id e' He'. destruct (Hb _ _ He') as (e0 & He0 & Heq). rewrite <-Heq. by eapply Hno.
Qed.

Lemma same_standing_p (f : bool * bool * bool -> bool) nodes nodes' o :
  same_standing nodes nodes' ->
  lowest (fun e => f (is_healthy e, healthy_with Coordinator e, healthy_with Gateway e)) nodes o ->
  lowest (fun e => f (is_healthy e, healthy_with Coordinator e, healthy_with Gateway e)) nodes' o.
Proof.
  intros Hs. apply lowest_ext. intros id. specialize (Hs id).
  destruct (nodes !! id), (nodes' !! id); try done. injection Hs as ? ? ?. cbn. congruence.
Qed.

Lemma leads_standing nodes nodes' leader : same_standing nodes nodes' -> leads nodes leader -> leads nodes' leader.
Proof.
  intros Hs (c & Hc & Hl). exists c. split; [by apply (same_standing_p (fun x => x.1.2) nodes)|].
  destruct c; [done|]. by apply (same_standing_p (fun x => x.1.1) nodes).
Qed.

Lemma gateway_standing nodes nodes' o :
  same_standing nodes nodes' -> lowest (healthy_with Gateway) nodes o -> lowest (healthy_with Gateway) nodes' o.
Proof. intros Hs. by apply (same_standing_p (fun x => x.2)). Qed.

(** *** The election and the gateway meet the specification *)
Lemma elect_lowest (p : NodeEntry -> bool) nodes :
  keyed (fun e => node_id (e_node e)) nodes -> (forall e, p e = true -> is_healthy e = true) ->
  lowest p nodes (elect lowest_healthy_id (e_node <$> filter (fun e => p e = true) (values nodes))).
Proof.
  intros Hk Hp. set (l := e_node <$> _). pose proof (LowestHealthyId_spec lowest_healthy_id l) as Hspec.
  assert (forall n, n ∈ l <-> exists e, nodes !! node_id n = Some e /\ p e = true /\ e_node e = n) as Hl.
  { intros n. unfold l. rewrite list_elem_of_fmap. split.
    - intros (e & -> & [Hpe (k & He)%elem_of_values]%list_elem_of_filter). exists e. pose proof (Hk _ _ He) as Hid.
      cbn in Hid. by rewrite Hid.
    - intros (e & He & Hpe & <-). exists e. split; [done|]. apply list_elem_of_filter. split; [done|]. apply elem_of_values. eauto. }
  destruct (elect lowest_healthy_id l) as [id|]; cbn.
  - destruct Hspec as (n & Hn & <- & _ & Hmin). split.
    + apply Hl in Hn as (e & He & Hpe & _). eauto.
    + intros id' e' He' Hp'. assert (node_id (e_node e') = id') as Hid by by apply Hk. rewrite <-Hid. apply Hmin; [|by apply Hp].
      apply Hl. exists e'. by rewrite Hid.
  - intros id e He. destruct (p e) eqn:Hpe; [|done]. exfalso. rewrite Forall_forall in Hspec.
    assert (node_id (e_node e) = id) as Hid by by apply Hk. specialize (Hspec (e_node e)). rewrite Hl in Hspec.
    apply Hp in Hpe as Hh. unfold is_healthy in Hh. rewrite Hspec in Hh; [done|]. exists e. by rewrite Hid.
Qed.

Lemma find_cons {A} (f : A -> bool) x (l : list A) : find f (x :: l) = if f x then Some x else find f l.
Proof.
  unfold find. cbn [list_find]. destruct (decide (f x = true)) as [->|Hf]; [done|]. apply not_true_is_false in Hf. rewrite Hf.
  by destruct (list_find _ l) as [[]|].
Qed.

Lemma find_sorted_lowest {A} (key : A -> N) (f : A -> bool) (l : list A) :
  StronglySorted N.lt (key <$> l) ->
  match find f l with
  | Some x => x ∈ l /\ f x = true /\ forall y, y ∈ l -> f y = true -> key x <= key y
  | None => forall y, y ∈ l -> f y = false
  end.
Proof.
  induction l as [|x l IH]; intros Hs; [by intros y []%elem_of_nil|]. rewrite fmap_cons in Hs.
  apply StronglySorted_inv in Hs as [Hs Hall]. specialize (IH Hs). rewrite find_cons. destruct (f x) eqn:Hx.
  - split_and!; [by left|done|]. intros y [->|Hy]%elem_of_cons _; [done|]. rewrite Forall_fmap, Forall_forall in Hall.
    specialize (Hall y Hy). cbn in Hall. lia.
  - destruct (find f l) as [z|].
    + destruct IH as (Hz & Hfz & Hmin). split_and!; [by right|done|]. intros y [->|Hy]%elem_of_cons Hfy; [congruence|auto].
    + intros y [->|Hy]%elem_of_cons; [done|auto].
Qed.

Lemma gateway_lowest nodes :
  keyed (fun e => node_id (e_node e)) nodes -> lowest (healthy_with Gateway) nodes (chosen_gateway nodes).
Proof.
  intros Hk. unfold chosen_gateway. change (fun e => _ && _) with (healthy_with Gateway).
  pose proof (find_sorted_lowest (fun e => node_id (e_node e)) (healthy_with Gateway) (values nodes)) as Hf.
  rewrite keyed_values in Hf by done. specialize (Hf (keys_sorted nodes)).
  destruct (find (healthy_with Gateway) (values nodes)) as [x|]; cbn.
  - destruct Hf as ((k & Hx)%elem_of_values & Hfx & Hmin). assert (node_id (e_node x) = k) as -> by by apply Hk.
    split; [by eauto|]. intros id' e' He' Hp'. assert (node_id (e_node e') = id') as <- by by apply Hk.
    assert (node_id (e_node x) = k) as <- by by apply Hk. apply Hmin; [|done]. apply elem_of_values. eauto.
  - intros id e He. apply Hf, elem_of_values. eauto.
Qed.

Section Leadership.
Context {P S : Type} `{ClusterStoreLaws P} `{SchedulerLaws S} (E : Env S LowestHealthyId).
Implicit Types s : Sup P.

Lemma elected_leads nodes : keyed (fun e => node_id (e_node e)) nodes -> leads nodes (elected E nodes).
Proof.
  intros Hk. unfold elected. destruct (elector E).
  pose proof (elect_lowest (healthy_with Coordinator) nodes Hk) as Hc. specialize (Hc ltac:(by intros e [? _]%andb_prop)).
  change (coordinators nodes) with (e_node <$> filter (fun e => healthy_with Coordinator e = true) (values nodes)).
  destruct (elect lowest_healthy_id (e_node <$> filter (fun e => healthy_with Coordinator e = true) (values nodes))) as [id|].
  - by exists (Some id).
  - exists None. split; [done|]. by apply elect_lowest.
Qed.

(** The offices are filled as the registry demands. *)
Definition Led s : Prop := leads (s_nodes s) (s_leader s) /\ lowest (healthy_with Gateway) (s_nodes s) (s_gateway s).

Lemma refresh_led s : keyed (fun e => node_id (e_node e)) (s_nodes s) -> Led (refresh_leadership E s).
Proof.
  intros Hk. unfold refresh_leadership. set (new := elected E (s_nodes s)).
  assert (leads (s_nodes s) new) as Hl by by apply elected_leads. pose proof (gateway_lowest (s_nodes s) Hk) as Hg.
  destruct (bool_decide (new <> s_leader s)) eqn:Hne.
  - clearbody new. by destruct (s_leader s), new.
  - apply bool_decide_eq_false in Hne. apply dec_stable in Hne. split; [|done]. cbn. by rewrite <-Hne.
Qed.

Lemma Led_quiet K s s' : Quiet K s s' -> same_standing (s_nodes s) (s_nodes s') -> Led s -> Led s'.
Proof.
  intros (Hl & Hg & _) Hs [HL HG]. unfold Led. rewrite Hl, Hg. split; [by eapply leads_standing|by eapply gateway_standing].
Qed.

Lemma Led_same K s s' : Quiet K s s' -> s_nodes s' = s_nodes s -> Led s -> Led s'.
Proof. intros HQ Hn. apply (Led_quiet K); [done|]. by rewrite Hn. Qed.

Lemma Led_dispatch s : Led s -> Led (dispatch E s).
Proof. apply (Led_same quiet_leader); [apply dispatch_quiet|apply dispatch_nodes]. Qed.

(** Whoever ends with an election leaves the offices filled. *)
Lemma Led_refreshed s : Inv (dispatch E (refresh_leadership E s)) -> Led (dispatch E (refresh_leadership E s)).
Proof.
  intros [G _]. apply Led_dispatch, refresh_led. pose proof (good_nodes _ _ _ _ _ G) as Hk.
  rewrite dispatch_nodes in Hk. by destruct (refresh_eq E s) as (<- & _).
Qed.

Lemma same_standing_insert nodes id e e' :
  nodes !! id = Some e -> is_healthy e' = is_healthy e -> healthy_with Coordinator e' = healthy_with Coordinator e ->
  healthy_with Gateway e' = healthy_with Gateway e -> same_standing nodes (<[id := e']> nodes).
Proof.
  intros He Hh Hc Hg i. destruct (decide (id = i)) as [<-|Hne]; [|by rewrite lookup_insert_ne].
  rewrite lookup_insert_eq, He. cbn. congruence.
Qed.

Lemma same_standing_alter nodes id f :
  (forall e, is_healthy (f e) = is_healthy e /\ healthy_with Coordinator (f e) = healthy_with Coordinator e /\
     healthy_with Gateway (f e) = healthy_with Gateway e) -> same_standing nodes (alter f id nodes).
Proof.
  intros Hf. destruct (nodes !! id) as [e|] eqn:He.
  - rewrite (alter_as_insert f nodes id e He). destruct (Hf e) as (? & ? & ?). by eapply same_standing_insert.
  - intros i. rewrite lookup_alter. destruct (decide (id = i)) as [<-|]; by rewrite ?He.
Qed.

Lemma role_unchanged (enabled : bool) roles role roles' r :
  (if enabled then RoleSet_insert roles role else RoleSet_remove roles role) = (roles', false) ->
  RoleSet_contains roles' r = RoleSet_contains roles r.
Proof.
  destruct enabled; intros Heq.
  - pose proof (contains_insert roles role r) as Hc. rewrite Heq in Hc. cbn in Hc. rewrite Hc.
    unfold RoleSet_insert in Heq. injection Heq as _ Hh. apply negb_false_iff in Hh. case_bool_decide; [subst|by rewrite orb_false_r].
    by rewrite Hh.
  - pose proof (contains_remove roles role r) as Hc. rewrite Heq in Hc. cbn in Hc. rewrite Hc.
    unfold RoleSet_remove in Heq. injection Heq as _ Hh. case_bool_decide; [subst|by rewrite andb_true_r]. by rewrite Hh.
Qed.

Lemma submit_led spec s : Led s -> Led (submit_job E spec s).2.
Proof.
  unfold submit_job. cbv zeta. destruct (allocate _ _ _) as [[[job ts]|] p]; [|done].
  destruct (create_job job ts p) as [[[]|] p2]; [|done]. cbn [snd]. intros HL. apply Led_dispatch.
  set (s1 := set_jobs _ _). destruct (enqueue_tasks_eq ts s1) as (_ & _ & Hn & _).
  apply (Led_same quiet_leader s); [|exact Hn|done]. etrans; [|by apply Quiet_emit].
  apply Quiet_silent. exact (enqueue_silent ts s1).
Qed.

Lemma set_role_led id role enabled s : Inv s -> Led s -> Led (set_role E id role enabled s).2.
Proof.
  intros HI HL. pose proof (set_role_good E id role enabled s HI) as [G' _]. revert G'. unfold set_role.
  destruct (s_nodes s !! id) as [e|] eqn:He; [|done].
  destruct (if enabled then _ else _) as [roles []] eqn:Hr; cbv zeta; cbn [snd]; intros G'.
  - apply refresh_led. pose proof (good_nodes _ _ _ _ _ G') as Hk.
    by destruct (refresh_eq E (emit E (if enabled then RoleAssigned id role else RoleRemoved id role)
      (persist_roles E id roles (set_nodes (<[id := with_node (with_roles roles) e]> (s_nodes s)) s)))) as (<- & _).
  - apply (Led_quiet plain s); [by apply Quiet_silent| |done]. apply (same_standing_insert _ _ e); [done|done|..];
      unfold healthy_with, has_role; cbn; by rewrite (role_unchanged enabled _ role roles _ Hr).
Qed.

Lemma attach_named_led id caps inbox now s :
  Inv (attach_named E id caps inbox now s).2 ->
  Led s \/ (exists e, s_nodes s !! id = Some e /\ e_kind e <> Simulated /\ e_handle e = None) ->
  Led (attach_named E id caps inbox now s).2.
Proof.
  unfold attach_named. destruct (s_nodes s !! id) as [e|]; [|intros _ [?|(? & ? & _)]; done].
  destruct (e_kind e) eqn:Hkind; [intros _ [?|(? & [= <-] & ? & _)]; done|].
  destruct (_ && _) eqn:Hbusy; [intros _ [?|(? & [= <-] & _ & Hh)]; [done|]|]; [by rewrite Hh in Hbusy|].
  cbv zeta. cbn [snd]. intros HI _. by apply Led_refreshed.
Qed.

Lemma handle_command_led c s : typed_input (OnCommand c) -> Inv s -> Led s -> Led (handle_command E c s).2.
Proof.
  intros Hty HI HL. pose proof (handle_command_good E c s Hty HI) as HI'. destruct c; cbn [handle_command] in *; try exact HL.
  - pose proof (submit_led spec s HL). by destruct (submit_job E spec s).
  - pose proof (set_role_led node role enabled s HI HL). by destruct (set_role E node role enabled s).
  - revert HI'. unfold stop_node. destruct (s_nodes s !! id) as [e|]; [|done]. destruct (e_handle e); [|done]. by apply Led_refreshed.
  - revert HI'. unfold start_node. destruct (s_nodes s !! id) as [e|]; [|done]. destruct (bool_decide _); [done|].
    destruct (e_kind e); [|done]. by apply Led_refreshed.
  - clear HI'. destruct (send_to_node_eq id (InboxPauseHeartbeat paused) s) as [chans Hs].
    destruct (send_to_node id _ s) as [r s1]. cbn in Hs. subst s1. cbn [snd]. destruct (is_ok r); [|done].
    apply (Led_quiet plain s); [by apply Quiet_silent| |done]. by apply same_standing_alter.
  - clear HI'. destruct (send_to_node_eq id (InboxInjectFailures count) s) as [chans Hs].
    destruct (send_to_node id _ s) as [r s1]. cbn in Hs. by subst s1.
  - clear HI'. destruct (send_to_node_eq id (InboxSetDelay ms) s) as [chans Hs].
    destruct (send_to_node id _ s) as [r s1]. cbn in Hs. by subst s1.
  - assert (Inv (attach_remote E id capabilities inbox s).2) as HI2 by by apply attach_good.
    assert (Led (attach_remote E id capabilities inbox s).2) as HL2; [|by destruct (attach_remote _ _ _ _ _)].
    revert HI2. unfold attach_remote. cbv zeta. destruct id as [id|]; [intros HI2; apply attach_named_led; [exact HI2|by left]|].
    destruct (next_free_id _) as [id|]; [|done]. intros HI2. apply attach_named_led; [exact HI2|]. right.
    exists (anonymous_entry id capabilities (now_of E s)). cbn [s_nodes set_nodes]. by rewrite lookup_insert_eq.
  - revert HI'. unfold detach_remote. cbn [snd]. destruct (s_nodes s !! id) as [e|]; [|done]. destruct (_ || _); [done|].
    by apply Led_refreshed.
Qed.

Lemma step_led i s : typed_input i -> Inv s -> Led s -> Led (step E i s).
Proof.
  intros Hty HI HL. pose proof (step_good E i s Hty HI) as HI'.
  destruct i as [c|r| | | |?|?|?]; cbn [step] in *; try exact HL.
  - by apply handle_command_led.
  - destruct r as [hb|node task|node task outcome].
    + apply (Led_quiet plain s); [by apply Quiet_silent| |done]. by apply same_standing_alter.
    + destruct (Calm_started E node task s) as [HQ _]. apply (Led_same plain s); [done| |done]. cbn [handle_report].
      destruct (s_tasks (tock s) !! task_id task); [|done]. destruct (bool_decide _); [|done]. by destruct (Task_start _ _).
    + cbn [handle_report]. apply Led_dispatch. destruct (Calm_finish E node (task_id task) outcome s) as [HQ _].
      apply (Led_same plain s); [done| |done]. by destruct (finish_task_good E s node (task_id task) outcome (proj1 HI)) as [_ [? _]].
  - unfold tick in *. set (s1 := dispatch E _) in *. destruct (Calm_prune E s1) as [HQ _].
    assert (s_nodes (prune_memory E s1) = s_nodes s1) as Hn by (unfold prune_memory; by destruct (bool_decide _)).
    apply (Led_same plain s1); [done..|]. apply Led_dispatch, refresh_led. pose proof (good_nodes _ _ _ _ _ (proj1 HI')) as Hk.
    rewrite Hn in Hk. unfold s1 in Hk. rewrite dispatch_nodes in Hk. by destruct (refresh_eq E (sweep_health E s)) as (<- & _).
  - destruct (s_pending s) as [|w rest]; [done|]. by destruct (drain_one w (s_store s) (s_tel s)).
Qed.

Lemma boots_led p s0 : boots E p s0 -> Led s0.
Proof.
  intros Hb. pose proof (boots_Inv E p s0 Hb) as [G _]. destruct Hb as (_ & _ & _ & _ & Hboot).
  apply bootstrap_blank in Hboot as (s1 & _ & ->). apply refresh_led. pose proof (good_nodes _ _ _ _ _ G) as Hk.
  by destruct (refresh_eq E (restore_jobs E s1)) as (<- & _).
Qed.

Lemma run_led p s0 s : boots E p s0 -> reachable E s0 s -> Led s.
Proof.
  intros Hb Hr. induction Hr as [|i s Hr IH Hty]; [by eapply boots_led|]. apply step_led; [done|by eapply run_Inv|done].
Qed.

(** C5: At every point of every run the leader is the lowest-numbered healthy
    coordinator, or the lowest-numbered healthy node when no coordinator is
    healthy, and there is none only when no node is healthy; the gateway is the
    lowest-numbered healthy gateway; and the leader is the one the events tell. *)
Theorem leadership_consistent (p : P) s0 s :
  boots E p s0 -> reachable E s0 s ->
  leads (s_nodes s) (s_leader s) /\ lowest (healthy_with Gateway) (s_nodes s) (s_gateway s) /\
  told_leader (er_event <$> s_broadcast s) = s_leader s.
Proof.
  intros Hb Hr. destruct (run_led p s0 s Hb Hr) as [HL HG]. split_and!; [done..|].
  pose proof (boots_Inv E p s0 Hb) as HI. apply (acts_ind E Told s0); [by apply Told_act|by apply reachable_acts|].
  apply (bootstrap_log E p s0), Hb.
Qed.
End Leadership.

(** ** Attempts and the event stream *)
Section Stream.
Context {P S L : Type} `{ClusterStoreLaws P} `{SchedulerLaws S} `{Elector L} (E : Env S L).
Implicit Types s : Sup P.

Lemma boots_tried p s0 : boots E p s0 -> Tried E s0.
Proof.
  intros Hb. destruct (boots_Inv E p s0 Hb) as [G (_ & _ & Hmark)]. destruct Hb as (_ & _ & _ & _ & Hboot).
  destruct (bootstrap_log E p s0 Hboot) as [(evs & HL & HK) _]. split; [apply (good_tasks _ _ _ _ _ G)|]. intros id.
  rewrite (Log_heard _ _ _ HL), assigns_app, (assigns_quiet id evs) by done. cbn [assigns heard]. cbn -[attempts_cap N.le].
  split_and!; [lia|done|]. intros t Ht. split_and!; [by apply (Hmark id t)|lia|by left].
Qed.

(** C6: No task is handed out more often than the configuration allows: in one
    run of the process the assignments announced for a task number at most
    [max_task_attempts], or one when that is zero. *)
Theorem attempts_bounded (p : P) s0 s id :
  boots E p s0 -> reachable E s0 s -> max_task_attempts (config E) <= u16_max ->
  N.of_nat (assigns id (er_event <$> s_broadcast s)) <= N.max 1 (max_task_attempts (config E)).
Proof.
  intros Hb Hr Hmax. assert (Tried E s) as [_ HT]; [|apply HT].
  apply (acts_ind E (Tried E) s0); [intros s1 s2; by apply Tried_act| |by eapply boots_tried].
  apply reachable_acts; [|done]. by eapply boots_Inv.
Qed.

(** C7: Events are numbered consecutively, modulo 2^64, from what the stored log
    ends with; the recent events a client can ask for are the latest ones sent,
    in order; and after a tick no more than [event_buffer] are kept. *)
Theorem events_numbered (p : P) s0 s :
  boots E p s0 -> reachable E s0 s ->
  (forall i r, s_broadcast s !! i = Some r ->
     er_seq r = (match last_seq p with Ok n => n | Err _ => 0 end + N.of_nat i + 1) mod 2 ^ 64) /\
  s_events s `suffix_of` s_broadcast s /\ (length (s_events (tick E s)) <= event_buffer (config E))%nat.
Proof.
  intros Hb Hr. pose proof (boots_Inv E p s0 Hb) as HI. destruct (acts_log E _ _ (reachable_acts E s0 s HI Hr)) as (l & HL).
  destruct Hb as (_ & _ & _ & _ & Hboot). destruct (bootstrap_log E p s0 Hboot) as [(evs & HL0 & _) _].
  destruct (Log_trans _ _ _ _ _ HL0 HL) as (recs & Hbr & _ & Hnum & _ & Hsuf). cbn in Hbr. split_and!.
  - intros i r Hi. rewrite Hbr in Hi. exact (Hnum i r Hi).
  - by apply Hsuf.
  - unfold tick. set (s1 := dispatch _ _). unfold prune_memory. destruct (bool_decide _); cbn; rewrite length_drop; lia.
Qed.

(** C8: A node only speaks for the work it holds: a report that finishes a task
    unknown to the supervisor, given to somebody else meanwhile, or already over,
    changes nothing but the clock before the queue is looked at again. *)
Theorem stale_report_ignored (p : P) s0 s node task outcome :
  boots E p s0 -> reachable E s0 s ->
  (forall t, s_tasks s !! task_id task = Some t -> task_assigned_to t = Some node -> ~ in_flight t) ->
  step E (OnReport (ReportTaskFinished node task outcome)) s = dispatch E (tock s).
Proof.
  intros Hb Hr Hstale. destruct (run_Inv E p s0 s Hb Hr) as [G _]. cbn [step handle_report]. f_equal. unfold finish_task. cbv zeta.
  change (s_tasks (tock s)) with (s_tasks s). destruct (s_tasks s !! task_id task) as [t|] eqn:Ht; [|done].
  pose proof (good_wf _ _ _ _ _ G _ _ Ht) as Hwf. unfold Task_wf, in_flight in *. specialize (Hstale t eq_refl).
  destruct (bool_decide (task_assigned_to t <> Some node)) eqn:Ha; [done|]. apply bool_decide_eq_false, dec_stable in Ha.
  specialize (Hstale Ha). cbn [orb]. destruct (task_state t); cbn in *; try done; destruct Hwf; congruence.
Qed.

Lemma seq_sorted n k : StronglySorted N.lt (id <$> ((fun i => N.of_nat i) <$> seq k n)).
Proof.
  rewrite list_fmap_id. revert k. induction n as [|n IH]; intros k; [constructor|]. cbn [seq]. rewrite fmap_cons. constructor; [apply IH|].
  apply Forall_fmap, Forall_forall. intros i Hi%elem_of_seq. cbn. lia.
Qed.

Lemma next_free_id_spec nodes :
  match next_free_id nodes with
  | Some i => 1 <= i <= u16_max /\ nodes !! i = None /\ forall j, 1 <= j < i -> is_Some (nodes !! j)
  | None => forall j, 1 <= j <= u16_max -> is_Some (nodes !! j)
  end.
Proof.
  unfold next_free_id. generalize u16_max. intros top.
  assert (forall j, j ∈ (fun i => N.of_nat i) <$> seq 1 (N.to_nat top) <-> 1 <= j <= top) as Hin.
  { intros j. rewrite list_elem_of_fmap. split; [intros (i & -> & Hi%elem_of_seq); lia|].
    intros Hj. exists (N.to_nat j). rewrite elem_of_seq. lia. }
  pose proof (find_sorted_lowest id (fun i => bool_decide (nodes !! i = None)) _ (seq_sorted (N.to_nat top) 1)) as Hf.
  assert (forall j, bool_decide (nodes !! j = None) = false <-> is_Some (nodes !! j)) as Hb.
  { intros j. rewrite bool_decide_eq_false. destruct (nodes !! j); split; try done; by intros []. }
  destruct (find _ _) as [i|].
  - destruct Hf as (Hi%Hin & Hfree & Hmin). apply bool_decide_eq_true in Hfree. split_and!; [lia..|done|].
    intros j Hj. apply Hb. destruct (bool_decide (nodes !! j = None)) eqn:Hj'; [|done].
    specialize (Hmin j ltac:(apply Hin; lia) Hj'). unfold id in Hmin. lia.
  - intros j Hj. by apply Hb, Hf, Hin.
Qed.

(** The id a worker without one is given: free, and no lower one is. *)
Definition lowest_free (nodes : gmap N NodeEntry) (id : N) : Prop :=
  1 <= id <= u16_max /\ nodes !! id = None /\ forall j, 1 <= j < id -> is_Some (nodes !! j).

(** The entry of a node that attachment [a] serves through [inbox]. *)
Definition serving_remote (a : RemoteAttachment) (inbox : ChanId) (e : NodeEntry) : Prop :=
  is_schedulable (e_node e) = true /\ node_id (e_node e) = ra_id a /\
  e_handle e = Some {| h_inbox := inbox; h_join := false |} /\ e_kind e = Remote false /\
  e_generation e = ra_generation a.

(** A worker that brings no id gets the lowest free one of 1 to 65535 and is
    from then on a healthy compute node with a mailbox, and is turned away as full
    exactly when every id is taken. *)
Theorem anonymous_attach s caps inbox :
  match attach_remote E None caps inbox s with
  | (Ok a, s') => lowest_free (s_nodes s) (ra_id a) /\
      exists e, s_nodes s' = <[ra_id a := e]> (s_nodes s) /\ serving_remote a inbox e
  | (Err r, s') => r = Full /\ s' = tock s /\ forall id, 1 <= id <= u16_max -> is_Some (s_nodes s !! id)
  end.
Proof.
  unfold attach_remote. cbv zeta. change (s_nodes (tock s)) with (s_nodes s). pose proof (next_free_id_spec (s_nodes s)) as Hspec.
  destruct (next_free_id (s_nodes s)) as [i|]; [|done]. destruct Hspec as (Hi & Hfree & Hmin). unfold attach_named.
  cbn [s_nodes set_nodes tock set_ticks]. rewrite lookup_insert_eq. cbn [e_kind anonymous_entry e_handle].
  rewrite bool_decide_eq_false_2 by (by intros []). cbn [andb ra_id]. split; [split_and!; [lia..|done|done]|].
  exists (attached_entry caps inbox (now_of E s) (anonymous_entry i caps (now_of E s))). rewrite dispatch_nodes.
  split; [|by split_and!].
  match goal with |- s_nodes (refresh_leadership E ?x) = _ => destruct (refresh_eq E x) as (-> & _) end.
  cbn [s_nodes set_nodes emit push persist_roles tock set_ticks set_event_seq set_events set_broadcast set_tel set_pending].
  by rewrite insert_insert_eq.
Qed.
End Stream.

(** ** A small cluster

    Two in-process nodes and one declared worker over an empty SQLite store: the
    hypotheses of the properties hold there, and the model runs. *)
#[local] Existing Instance JobSpec_numeral.
#[local] Existing Instance TaskSpec_numeral.
#[local] Existing Instance ClusterEvent_numeral.
#[local] Existing Instance JobSpec_numeral_laws.
#[local] Existing Instance TaskSpec_numeral_laws.
#[local] Existing Instance ClusterEvent_numeral_laws.

Definition small_caps : NodeCapabilities := NodeCapabilities_local (Some 4).
Definition small_config : LocalClusterConfig :=
  {| node_count := 2; health := HealthPolicy_default; policies := RolePolicies_default;
     tick_interval_ms := 500; event_buffer := 4; job_buffer := 2; max_task_attempts := 2;
     profiles := [small_caps]; remote_nodes := [{| rn_id := 7; rn_capabilities := small_caps |}];
     join_token := None; max_remote_connections := 64; max_pending_handshakes := 16; simulate_load := true |}.
Definition small_env : Env LeastLoaded LowestHealthyId :=
  {| config := small_config; scheduler := least_loaded; elector := lowest_healthy_id;
     clock := fun k => N.of_nat k; instant := fun k => N.of_nat k |}.
Definition small_start : Sup Tables := default (Supervisor_new Tables_empty) (bootstrap small_env (Supervisor_new Tables_empty)).

Lemma small_boots : boots small_env Tables_empty small_start.
Proof.
  split_and!; [..|vm_compute; reflexivity|vm_compute; reflexivity|].
  - split_and!; vm_compute; try discriminate; try constructor.
  - intros jt [(n & jobs & Hr & Hin & _)|(all & Hu & Hin)].
    + unfold recent_jobs in Hr. cbn in Hr. destruct n; cbn in Hr; injection Hr as <-; by apply elem_of_nil in Hin.
    + vm_compute in Hu. injection Hu as <-. by apply elem_of_nil in Hin.
  - unfold small_start. destruct (bootstrap small_env (Supervisor_new Tables_empty)) eqn:Hb; [done|].
    exfalso. assert (is_Some (bootstrap small_env (Supervisor_new Tables_empty))) as [? ?] by (vm_compute; eauto). congruence.
Qed.

Lemma run_reachable {P S L} `{ClusterStore P, StoreMarks P, Scheduler S, Elector L} (E : Env S L) (s0 : Sup P) inputs :
  Forall typed_input inputs -> reachable E s0 (run E inputs s0).
Proof.
  unfold run. induction inputs as [|i inputs IH] using rev_ind; intros Hty; [constructor|].
  apply Forall_app in Hty as [Hty Hi]. rewrite Forall_singleton in Hi. rewrite foldl_app. cbn [foldl]. constructor; [by apply IH|exact Hi].
Qed.

(** Three tasks on two nodes; node 1 is stopped, and node 2 does the rest. *)
Definition small_inputs : list Input :=
  [OnCommand (CmdSubmitJob (JobSleep 10 3)); OnCommand (CmdStopNode 1);
   OnReport (ReportTaskStarted 2 (Task_new 2 1 1 (TaskSleep 3) 0));
   OnReport (ReportTaskFinished 2 (Task_new 2 1 1 (TaskSleep 3) 0) (OutcomeCompleted "done"));
   OnReport (ReportTaskStarted 2 (Task_new 3 1 2 (TaskSleep 3) 0));
   OnReport (ReportTaskFinished 2 (Task_new 3 1 2 (TaskSleep 3) 0) (OutcomeCompleted "done"))].
Definition small_state : Sup Tables := run small_env small_inputs small_start.

Lemma small_reachable : reachable small_env small_start small_state.
Proof. apply run_reachable. repeat constructor; vm_compute; discriminate. Qed.

Lemma no_task_lost_witness :
  NoDup (s_queue small_state) /\ exists t, s_tasks small_state !! 1 = Some t /\ accounted small_state 1 t.
Proof.
  destruct (no_task_lost small_env Tables_empty small_start small_state small_boots small_reachable) as (Hnd & _ & Hall).
  split; [exact Hnd|]. assert (is_Some (s_tasks small_state !! 1)) as [t Ht] by (vm_compute; eauto).
  exists t. split; [exact Ht|]. apply (Hall 1 t Ht).
Defined.


Lemma dispatch_work_conserving_witness : saturated (step small_env OnTick small_state).
Proof.
  exact (dispatch_work_conserving small_env Tables_empty small_start small_state OnTick small_boots small_reachable I eq_refl).
Defined.

Lemma leadership_consistent_witness :
  s_leader small_state = Some 2 /\ leads (s_nodes small_state) (s_leader small_state).
Proof.
  split; [vm_compute; reflexivity|].
  exact (proj1 (leadership_consistent small_env Tables_empty small_start small_state small_boots small_reachable)).
Defined.

Lemma attempts_bounded_witness :
  assigns 1 (er_event <$> s_broadcast small_state) = 2%nat /\
  N.of_nat (assigns 1 (er_event <$> s_broadcast small_state)) <= 2.
Proof.
  split; [vm_compute; reflexivity|].
  refine (attempts_bounded small_env Tables_empty small_start small_state 1 small_boots small_reachable _). vm_compute. discriminate.
Defined.

Lemma events_numbered_witness :
  exists r, s_broadcast small_state !! 3%nat = Some r /\ er_seq r = 4.
Proof.
  pose proof (proj1 (events_numbered small_env Tables_empty small_start small_state small_boots small_reachable) 3%nat) as Hseq.
  destruct (s_broadcast small_state !! 3%nat) as [r|] eqn:Hr.
  - exists r. split; [reflexivity|]. exact (Hseq r eq_refl).
  - exfalso. assert (is_Some (s_broadcast small_state !! 3%nat)) as [? ?] by (vm_compute; eauto). congruence.
Defined.

Lemma stale_report_ignored_witness :
  step small_env (OnReport (ReportTaskFinished 1 (Task_new 1 1 0 (TaskSleep 4) 0) (OutcomeCompleted "late"))) small_state =
  dispatch small_env (tock small_state).
Proof.
  refine (stale_report_ignored small_env Tables_empty small_start small_state 1 (Task_new 1 1 0 (TaskSleep 4) 0)
    (OutcomeCompleted "late") small_boots small_reachable _).
  intros t Ht Ha. assert ((task_assigned_to <$> s_tasks small_state !! 1) <> Some (Some 1)) as Hne by (vm_compute; discriminate).
  change (task_id (Task_new 1 1 0 (TaskSleep 4) 0)) with 1 in Ht. rewrite Ht in Hne. cbn in Hne. congruence.
Defined.

Lemma anonymous_attach_witness :
  match attach_remote small_env None small_caps 2 small_state with
  | (Ok a, s') => ra_id a = 3 /\ s_nodes small_state !! ra_id a = None
  | (Err _, _) => False
  end.
Proof.
  pose proof (anonymous_attach small_env small_state small_caps 2) as Hspec.
  assert (ra_id <$> match (attach_remote small_env None small_caps 2 small_state).1 with Ok a => Some a | Err _ => None end = Some 3) as Hid
    by (vm_compute; reflexivity).
  destruct (attach_remote small_env None small_caps 2 small_state) as [[a|r] s']; [|discriminate].
  injection Hid as Hid. split; [exact Hid|]. exact (proj1 (proj2 (proj1 Hspec))).
Defined.

(** The same cluster, restarted while its job was in flight. *)
Definition small_store : Tables :=
  Eval vm_compute in s_store (run small_env (OnCommand (CmdSubmitJob (JobSleep 10 3)) :: replicate 20 EnvDrain) small_start).
Definition small_restart : Sup Tables :=
  default (Supervisor_new small_store) (bootstrap small_env (Supervisor_new small_store)).
Definition small_unfinished : list (Job * list Task) :=
  Eval vm_compute in match sql_unfinished_jobs small_store with Ok l => l | Err _ => [] end.

Lemma small_loaded jt : loaded small_store jt -> jt ∈ small_unfinished.
Proof.
  intros [(n & jobs & Hr & Hin & Hts)|(all & Hu & Hin)].
  - assert (recent_jobs n small_store = recent_jobs (min n 1) small_store) as Hn.
    { cbn [recent_jobs cluster_store_jobs SqliteClusterStore SqliteClusterStore_jobs]. unfold sql_recent_jobs.
      assert (order_by_desc jr_id (tb_jobs small_store) = tb_jobs small_store) as -> by (vm_compute; reflexivity).
      unfold small_store. cbn [tb_jobs]. by destruct n as [|[|n]]. }
    rewrite Hn in Hr. destruct n as [|n]; [vm_compute in Hr; injection Hr as <-; by apply elem_of_nil in Hin|].
    replace (min (Datatypes.S n) 1) with 1%nat in Hr by lia. vm_compute in Hr. injection Hr as <-. apply elem_of_cons in Hin as [Hj|Hin]; [|by apply elem_of_nil in Hin].
    destruct jt as [job ts]. cbn [fst snd] in *. subst job ts. vm_compute. constructor.
  - vm_compute in Hu. injection Hu as <-. exact Hin.
Qed.

Lemma small_restarts : boots small_env small_store small_restart.
Proof.
  split_and!; [..|vm_compute; reflexivity|vm_compute; reflexivity|].
  - split_and!; vm_compute; try discriminate; repeat constructor; try discriminate; set_solver.
  - intros jt Hin%small_loaded. apply elem_of_cons in Hin as [->|Hin]; [|by apply elem_of_nil in Hin].
    vm_compute. split_and!; repeat constructor; try discriminate; try (by eauto); set_solver.
  - unfold small_restart. destruct (bootstrap small_env (Supervisor_new small_store)) eqn:Hb; [done|].
    exfalso. assert (is_Some (bootstrap small_env (Supervisor_new small_store))) as [? ?] by (vm_compute; eauto). congruence.
Qed.


(** ** Two runs that end badly *)

(** The process stops after the write of a completed task and before the write of
    its job's counter. *)
Definition crash_inputs : list Input :=
  OnCommand (CmdSubmitJob (JobSleep 10 1)) :: replicate 20 EnvDrain ++
  [OnReport (ReportTaskStarted 1 (Task_new 1 1 0 (TaskSleep 10) 0)); EnvDrain;
   OnReport (ReportTaskFinished 1 (Task_new 1 1 0 (TaskSleep 10) 0) (OutcomeCompleted "done")); EnvDrain].
Definition crash_store : Tables := s_store (run small_env crash_inputs small_start).

(** After the restart the job has no open task and is still running: recovery
    takes the counters as they are stored and does not settle the job. *)
Example crash_leaves_job_running :
  option_map (fun s => (job_state <$> s_jobs s !! 1, task_state <$> s_tasks s !! 1, s_queue s))
    (run small_env [OnTick; OnTick] <$> bootstrap small_env (Supervisor_new crash_store)) =
  Some (Some JobState.Running, Some TaskState.Completed, []).
Proof. vm_compute. reflexivity. Qed.

(** The declared worker 7 goes silent with a task, is suspected, and reconnects. *)
Definition slow_env : Env LeastLoaded LowestHealthyId :=
  {| config := small_config; scheduler := least_loaded; elector := lowest_healthy_id;
     clock := fun k => 400 * N.of_nat k; instant := fun k => 400 * N.of_nat k |}.
Definition slow_start : Sup Tables := default (Supervisor_new Tables_empty) (bootstrap slow_env (Supervisor_new Tables_empty)).
Definition beat (n : NodeId) : Input :=
  OnReport (ReportHeartbeat {| hb_node := n; hb_load := NodeLoad_default; hb_at := 0 |}).
Definition reconnect_inputs : list Input :=
  [OnCommand (CmdStopNode 1); OnCommand (CmdStopNode 2); EnvOpen 8; OnCommand (CmdAttachRemote (Some 7) small_caps 2);
   OnCommand (CmdSubmitJob (JobSleep 10 1)); OnTick; EnvClose 2; EnvOpen 8; OnCommand (CmdAttachRemote (Some 7) small_caps 3);
   OnCommand (CmdDetachRemote 7 1); beat 7; OnTick; beat 7; OnTick].

(** The task is still counted as the worker's, the connection the worker now has
    was never given it, and the late report of the old connection's end is ignored. *)
Example reconnect_strands_task :
  let s := run slow_env reconnect_inputs slow_start in
  (task_state <$> s_tasks s !! 1, task_assigned_to <$> s_tasks s !! 1, mb_queue <$> s_chans s !! 3,
   node_status ∘ e_node <$> s_nodes s !! 7, h_inbox <$> (s_nodes s !! 7 ≫= e_handle)) =
  (Some TaskState.Assigned, Some (Some 7), Some [], Some Healthy, Some 3).
Proof. vm_compute. reflexivity. Qed.

(** A worker that is attached but cannot be sent its welcome: the connection ends
    without detaching, and the entry of a node that no longer exists stays. *)
Example unwelcomed_worker_stays :
  let s := run slow_env ([EnvOpen 8; OnCommand (CmdAttachRemote None small_caps 2); EnvClose 2] ++ replicate 20 OnTick) slow_start in
  (node_status ∘ e_node <$> s_nodes s !! 3, e_kind <$> s_nodes s !! 3, h_inbox <$> (s_nodes s !! 3 ≫= e_handle)) =
  (Some Offline, Some (Remote false), Some 2).
Proof. vm_compute. reflexivity. Qed.
