(* ===== verification/Remote.v ===== *)
(** * Workers over TCP

    Models [crates/cluster-local/src/remote.rs] (the coordinator's end of a worker
    connection: listener limits, handshake, the connection loop, frames) and
    [crates/server/src/worker.rs] (the worker's end: the session that drives an
    [Agent]).  A socket is the list of bytes the peer sends before it closes; the
    codec of the frames is the [Postcard] parameter of [Protocol].  The theorems:
    what one end writes the other reads, a connection reports nothing but the work
    it was handed, nobody reaches the supervisor without the token, and the
    listener keeps its limits. *)
From stdpp Require Import prelude gmap strings pretty.
From S2P Require Import Prelude Time Role Node Job Event Scheduler Workload Store Snapshot Protocol Agent Supervisor.

(** ** Frames on a socket *)
Inductive IoError := UnexpectedEof | InvalidData (e : ProtocolError) | WriteFailed.

(** [read_exact] on what is left of the stream. *)
Definition read_exact (n : nat) (stream : Bytes) : option (Bytes * Bytes) :=
  if bool_decide (length stream < n)%nat then None else Some (take n stream, drop n stream).

Section Frames.
Context {T : Type} `{Postcard T}.

Definition read_frame (stream : Bytes) : Result (option (T * Bytes)) IoError :=
  match read_exact LENGTH_PREFIX stream with
  | None => Ok None
  | Some (prefix, stream) =>
      match frame_len prefix with
      | Err e => Err (InvalidData e)
      | Ok size =>
          match read_exact (N.to_nat size) stream with
          | None => Err UnexpectedEof
          | Some (body, stream) =>
              match decode_frame body with
              | Err e => Err (InvalidData e)
              | Ok message => Ok (Some (message, stream))
              end
          end
      end
  end.

Definition write_frame (message : T) : Result Bytes IoError :=
  match encode_frame message [] with Ok frame => Ok frame | Err e => Err (InvalidData e) end.

(** The reader task of either end: it forwards messages until the stream ends or
    a frame cannot be read.  [None] when the fuel ran out. *)
Fixpoint reader (fuel : nat) (stream : Bytes) : option (list T) :=
  match fuel with
  | O => None
  | S fuel =>
      match read_frame stream with
      | Ok (Some (message, stream)) => cons message <$> reader fuel stream
      | Ok None | Err _ => Some []
      end
  end.

Definition received (stream : Bytes) : list T := default [] (reader (S (length stream)) stream).
End Frames.

(** ** The listener *)
Record ListenerLimits := { lim_connections : N; lim_handshakes : N }.

(** Open connections, each with its guard: whether the handshake is pending.  A
    connection is named by how many were accepted before it. *)
Record Listener := { ls_open : list (N * bool); ls_next : N; ls_tel : Telemetry }.

Definition pending (l : Listener) : N := N.of_nat (length (filter (fun c => c.2 = true) (ls_open l))).

Inductive ListenerInput := LsAccept | LsAuthenticated (conn : N) | LsEnded (conn : N).

Definition serve_step (limits : ListenerLimits) (i : ListenerInput) (l : Listener) : Listener :=
  match i with
  | LsAccept =>
      if (N.of_nat (length (ls_open l)) <? N.max (lim_connections limits) 1) &&
         (pending l <? N.max (lim_handshakes limits) 1)
      then let '(guard, tel) := ConnectionGuard_new (ls_tel l) in
           {| ls_open := (ls_next l, guard) :: ls_open l; ls_next := ls_next l + 1; ls_tel := tel |}
      else {| ls_open := ls_open l; ls_next := ls_next l; ls_tel := Telemetry_rejected (ls_tel l) |}
  | LsAuthenticated conn =>
      match find (fun c => c.1 =? conn) (ls_open l) with
      | None => l
      | Some c =>
          let '(guard, tel) := ConnectionGuard_authenticated c.2 (ls_tel l) in
          {| ls_open := (fun c => if c.1 =? conn then (c.1, guard) else c) <$> ls_open l;
             ls_next := ls_next l; ls_tel := tel |}
      end
  | LsEnded conn =>
      match find (fun c => c.1 =? conn) (ls_open l) with
      | None => l
      | Some c =>
          {| ls_open := filter (fun c => c.1 <> conn) (ls_open l); ls_next := ls_next l; ls_tel := ConnectionGuard_drop c.2 (ls_tel l) |}
      end
  end.

Definition serve (limits : ListenerLimits) (inputs : list ListenerInput) : Listener :=
  foldl (fun l i => serve_step limits i l) {| ls_open := []; ls_next := 0; ls_tel := Telemetry_default |} inputs.

Section Connection.
Context `{Postcard SupervisorMessage, Postcard NodeMessage}.

(** ** The handshake *)
Inductive Handshake :=
| HsDrop                                   (** close without a word *)
| HsReject (reason : RejectReason)
| HsAttach (requested : option NodeId) (capabilities : NodeCapabilities).

(** What the first frame leads to; [None] is the timeout. *)
Definition handshake (token : option string) (first : option (Result (option (NodeMessage * Bytes)) IoError)) : Handshake :=
  match first with
  | Some (Ok (Some (Hello protocol requested capabilities presented, _))) =>
      if negb (protocol =? PROTOCOL_VERSION) then HsReject ProtocolMismatch
      else if negb (token_accepted token presented) then HsReject Unauthorized
      else HsAttach requested capabilities
  | _ => HsDrop
  end.

Definition reject (reason : RejectReason) : Result Bytes IoError := write_frame (Rejected reason).

(** ** The connection loop *)
Record ArtifactStore := { as_input : TaskSpec -> option Bytes }.

Record Connection := { cn_id : NodeId; cn_generation : N; cn_assigned : option Task }.
Definition set_assigned (t : option Task) (c : Connection) : Connection :=
  {| cn_id := cn_id c; cn_generation := cn_generation c; cn_assigned := t |}.

Inductive ConnInput :=
| ConnShutdown
| ConnInbox (message : option NodeInbox)
| ConnFrame (message : option NodeMessage).

(** Whether the supervisor still takes reports and the socket still takes bytes. *)
Record Link := { lk_reports : bool; lk_writable : bool }.

Record ConnOut := {
  out_bytes : Bytes;
  out_reports : list NodeReport;
  out_produced : list (TaskSpec * Bytes);
  out_end : bool
}.
Definition nothing : ConnOut := {| out_bytes := []; out_reports := []; out_produced := []; out_end := false |}.
Definition ended : ConnOut := {| out_bytes := []; out_reports := []; out_produced := []; out_end := true |}.

Definition ProtocolError_fmt (e : ProtocolError) : string :=
  match e with
  | FrameTooLarge size => "frame of " +:+ pretty size +:+ " bytes exceeds the " +:+ pretty MAX_FRAME +:+ " byte limit"
  | Malformed => "malformed frame"
  end%string.

Definition ship (id : TaskId) (spec : TaskSpec) (input : option Bytes) : Result Bytes string :=
  match WireTaskSpec_of spec input with
  | Err why => Err (NotShippable_fmt why)
  | Ok spec =>
      match encode_frame (Assign id spec) [] with
      | Ok out => Ok out
      | Err why => Err (ProtocolError_fmt why)
      end
  end.

Definition match_task (assigned : option Task) (reported : TaskId) : option Task :=
  match assigned with
  | Some task => if task_id task =? reported then Some task else None
  | None => None
  end.

(** [wr.write_all(&out)] at the end of the inbox branch. *)
Definition sent (link : Link) (out : Bytes) : ConnOut :=
  {| out_bytes := if lk_writable link then out else []; out_reports := []; out_produced := [];
     out_end := negb (lk_writable link) |}.

(** [reports.send(report)] at the end of the frame branch. *)
Definition reported (link : Link) (produced : list (TaskSpec * Bytes)) (report : option NodeReport) : ConnOut :=
  match report with
  | None => {| out_bytes := []; out_reports := []; out_produced := produced; out_end := false |}
  | Some r => {| out_bytes := []; out_reports := if lk_reports link then [r] else []; out_produced := produced;
                 out_end := negb (lk_reports link) |}
  end.

Definition control_frame (message : NodeInbox) : option SupervisorMessage :=
  match message with
  | InboxPauseHeartbeat paused => Some (MsgPauseHeartbeat paused)
  | InboxInjectFailures count => Some (MsgInjectFailures count)
  | InboxSetDelay ms => Some (MsgSetDelay ms)
  | InboxAssign _ => None
  end.

Definition on_inbox (artifacts : option ArtifactStore) (link : Link) (message : NodeInbox) (c : Connection) :
    Connection * ConnOut :=
  match message with
  | InboxAssign task =>
      match ship (task_id task) (task_spec task) (artifacts ≫= fun a => as_input a (task_spec task)) with
      | Ok out => (set_assigned (Some task) c, sent link out)
      | Err why =>
          let report := ReportTaskFinished (cn_id c) task (OutcomeFailed ExecutionError why) in
          (c, {| out_bytes := []; out_reports := if lk_reports link then [report] else [];
                 out_produced := []; out_end := false |})
      end
  | other =>
      match control_frame other ≫= fun m => match encode_frame m [] with Ok out => Some out | Err _ => None end with
      | Some out => (c, sent link out)
      | None => (c, nothing)
      end
  end.

Definition on_frame (artifacts : option ArtifactStore) (link : Link) (message : NodeMessage) (c : Connection) :
    Connection * ConnOut :=
  match message with
  | MsgHeartbeat hb =>
      (c, reported link [] (Some (ReportHeartbeat {| hb_node := cn_id c; hb_load := hb_load hb; hb_at := hb_at hb |})))
  | MsgTaskStarted task =>
      (c, reported link [] (ReportTaskStarted (cn_id c) <$> match_task (cn_assigned c) task))
  | TaskProduced task artifact =>
      let produced :=
        match match_task (cn_assigned c) task with
        | Some task =>
            match Artifact_verify artifact, artifacts with
            | Some bytes, Some _ => [(task_spec task, bytes)]
            | _, _ => []
            end
        | None => []
        end in
      (c, reported link produced None)
  | MsgTaskFinished task outcome =>
      let report := (fun task => ReportTaskFinished (cn_id c) task outcome) <$> match_task (cn_assigned c) task in
      (match report with Some _ => set_assigned None c | None => c end, reported link [] report)
  | Hello _ _ _ _ => (c, nothing)
  end.

Definition conn_step (artifacts : option ArtifactStore) (link : Link) (i : ConnInput) (c : Connection) :
    Connection * ConnOut :=
  match i with
  | ConnShutdown =>
      (c, {| out_bytes := match write_frame Shutdown with
                          | Ok frame => if lk_writable link then frame else []
                          | Err _ => []
                          end;
             out_reports := []; out_produced := []; out_end := true |})
  | ConnInbox None => (c, ended)
  | ConnInbox (Some message) => on_inbox artifacts link message c
  | ConnFrame None => (c, ended)
  | ConnFrame (Some message) => on_frame artifacts link message c
  end.

(** The loop: what it reports and writes until it breaks, and the command it
    leaves behind when it has. *)
Fixpoint conn_run (artifacts : option ArtifactStore) (inputs : list (Link * ConnInput)) (c : Connection) :
    list ConnOut * option Command :=
  match inputs with
  | [] => ([], None)
  | (link, i) :: inputs =>
      let '(c, out) := conn_step artifacts link i c in
      if out_end out then ([out], Some (CmdDetachRemote (cn_id c) (cn_generation c)))
      else let '(outs, cmd) := conn_run artifacts inputs c in (out :: outs, cmd)
  end.

(** What follows the supervisor's verdict: a refusal is one frame, an attachment
    is the welcome and the loop.  A welcome that cannot be written ends it all,
    the supervisor not being told. *)
Definition connection (artifacts : option ArtifactStore) (verdict : Result RemoteAttachment RejectReason) (writable : bool)
    (inputs : list (Link * ConnInput)) : Result Bytes IoError * (list ConnOut * option Command) :=
  match verdict with
  | Err reason => (reject reason, ([], None))
  | Ok a =>
      match write_frame (Welcome PROTOCOL_VERSION (ra_id a) (ra_interval_ms a)) with
      | Err e => (Err e, ([], None))
      | Ok welcome =>
          if negb writable then (Err WriteFailed, ([], None))
          else (Ok welcome, conn_run artifacts inputs {| cn_id := ra_id a; cn_generation := ra_generation a; cn_assigned := None |})
      end
  end.

(** ** The worker's end *)

(** The frames of the actions of one pass; a message that cannot be encoded or a
    disconnect ends the session, with what was written before it. *)
Fixpoint perform (actions : list Action) : Bytes * bool :=
  match actions with
  | [] => ([], true)
  | Send message :: actions =>
      match encode_frame message [] with
      | Ok frame => let '(rest, on) := perform actions in (frame ++ rest, on)
      | Err _ => ([], false)
      end
  | WakeIn _ :: actions => perform actions
  | Disconnect :: _ => ([], false)
  end.

(** One pass of [drive]: a frame or the alarm, then a poll, then the actions. *)
Definition drive_step (message : option SupervisorMessage) (now now' : Millis) (a : Agent) : Agent * (Bytes * bool) :=
  let '(a, actions) :=
    match message with
    | Some message => Agent_handle a message now
    | None => (a, [])
    end in
  let '(a, more) := Agent_poll a now' in
  (a, perform (actions ++ more)).

Fixpoint drive (inputs : list (option SupervisorMessage * Millis * Millis)) (a : Agent) : Agent * Bytes :=
  match inputs with
  | [] => (a, [])
  | (message, now, now') :: inputs =>
      let '(a, (bytes, on)) := drive_step message now now' a in
      if on then let '(a, rest) := drive inputs a in (a, bytes ++ rest) else (a, bytes)
  end.

(** [session]: the hello, then [drive]. *)
Definition session (capabilities : NodeCapabilities) (token : option string) (workload : Workload)
    (inputs : list (option SupervisorMessage * Millis * Millis)) : Bytes :=
  let a := Agent_with_workload workload (Agent_with_token token (Agent_anonymous capabilities 1000)) in
  match encode_frame (Agent_hello a) [] with
  | Ok hello => hello ++ (drive inputs a).2
  | Err _ => []
  end.
End Connection.

(** ** What one end writes the other reads *)
Section Streams.
Context {T : Type} `{PostcardLaws T}.

Lemma read_exact_app (a b : Bytes) : read_exact (length a) (a ++ b) = Some (a, b).
Proof.
  unfold read_exact. rewrite bool_decide_eq_false_2 by (rewrite length_app; lia).
  by rewrite take_app_length, drop_app_length.
Qed.

Lemma read_exact_short n (s : Bytes) : (length s < n)%nat -> read_exact n s = None.
Proof. intros Hs. unfold read_exact. by rewrite bool_decide_eq_true_2. Qed.

Lemma read_frame_encoded (m : T) frame rest :
  encode_frame m [] = Ok frame -> read_frame (frame ++ rest) = Ok (Some (m, rest)) /\ (4 <= length frame)%nat.
Proof.
  intros (prefix & body & -> & Hp & _ & Hlen & Hdec)%encode_frame_ok. rewrite app_nil_l, <-app_assoc.
  unfold read_frame. rewrite <-Hp, read_exact_app, Hlen. unfold len. rewrite Nat2N.id, read_exact_app, Hdec.
  split; [done|]. rewrite length_app, Hp. unfold LENGTH_PREFIX. lia.
Qed.

(** A frame cut short is not delivered. *)
Lemma read_frame_cut (m : T) frame k :
  encode_frame m [] = Ok frame -> (k < length frame)%nat ->
  match read_frame (T := T) (take k frame) with Ok (Some _) => False | _ => True end.
Proof.
  intros (prefix & body & -> & Hp & _ & Hlen & Hdec)%encode_frame_ok. rewrite app_nil_l, length_app. intros Hk.
  unfold read_frame. destruct (decide (k < length prefix)%nat) as [Hs|Hs].
  - rewrite read_exact_short; [done|]. rewrite length_take. lia.
  - rewrite take_app_ge by lia. rewrite <-Hp, read_exact_app, Hlen. rewrite read_exact_short; [done|].
    rewrite length_take. unfold len. lia.
Qed.

Lemma reader_encoded (ms : list T) frames rest fuel :
  Forall2 (fun m f => encode_frame m [] = Ok f) ms frames -> (length (concat frames ++ rest) < fuel)%nat ->
  (match read_frame (T := T) rest with Ok (Some _) => False | _ => True end) -> reader fuel (concat frames ++ rest) = Some ms.
Proof.
  intros Hf. revert fuel. induction Hf as [|m f ms frames Hmf _ IH]; intros fuel Hlen Hrest; (destruct fuel as [|fuel]; [lia|]).
  - cbn [concat app reader]. by destruct (read_frame rest) as [[[]|]|].
  - cbn [concat reader]. rewrite <-app_assoc. destruct (read_frame_encoded m f (concat frames ++ rest) Hmf) as [-> Hge].
    cbn [concat] in Hlen. rewrite <-app_assoc, length_app in Hlen. rewrite IH by (done || lia). done.
Qed.

(** The stream round trip.  A peer that writes the frames of [ms] one after
    the other and is then cut off, anywhere inside one more frame, has delivered
    exactly [ms], in order. *)
Theorem frame_stream_roundtrip (ms : list T) (frames : list Bytes) (m : T) (cut : Bytes) (k : nat) :
  Forall2 (fun m f => write_frame m = Ok f) ms frames -> write_frame m = Ok cut -> (k < length cut)%nat ->
  received (concat frames ++ take k cut) = ms.
Proof.
  assert (forall (m : T) f, write_frame m = Ok f -> encode_frame m [] = Ok f) as Hw.
  { intros m' f. unfold write_frame. by destruct (encode_frame m' []); intros [= <-]. }
  intros Hf Hcut Hk. unfold received. rewrite (reader_encoded ms); [done| |lia|by eapply read_frame_cut; eauto].
  eapply Forall2_impl; [exact Hf|]. eauto.
Qed.
End Streams.

(** ** The worker's bytes are its agent's messages *)
Section Worker.
Context `{PostcardLaws NodeMessage}.

Definition message_of (a : Action) : option NodeMessage := match a with Send m => Some m | _ => None end.

(** The agent's inputs in a run of [drive]. *)
Definition agent_inputs (i : option SupervisorMessage * Millis * Millis) : list AgentInput :=
  let '(message, now, now') := i in
  (match message with Some m => [InMessage m now] | None => [] end) ++ [InPoll now'].

(** [bytes] are the frames of [ms]. *)
Definition framed (bytes : Bytes) (ms : list NodeMessage) : Prop :=
  exists frames, bytes = concat frames /\ Forall2 (fun m f => encode_frame m [] = Ok f) ms frames.

Lemma framed_app b1 b2 m1 m2 : framed b1 m1 -> framed b2 m2 -> framed (b1 ++ b2) (m1 ++ m2).
Proof.
  intros (f1 & -> & H1') (f2 & -> & H2'). exists (f1 ++ f2). split; [by rewrite concat_app|by apply Forall2_app].
Qed.

Lemma perform_framed actions :
  exists ms, framed (perform actions).1 ms /\ ms `prefix_of` omap message_of actions /\
    ((perform actions).2 = true -> ms = omap message_of actions).
Proof.
  induction actions as [|[m|w|] actions (ms & Hf & Hp & Hall)].
  - exists []. split; [by exists []|]. split; [apply prefix_nil|done].
  - cbn [perform]. destruct (encode_frame m []) as [frame|] eqn:Hm.
    + destruct (perform actions) as [rest on]. exists (m :: ms). split_and!.
      * apply (framed_app frame rest [m] ms); [|done]. exists [frame]. split; [cbn; by rewrite app_nil_r|by repeat constructor].
      * by apply prefix_cons.
      * intros Hon. cbn. by rewrite <-Hall.
    + exists []. split; [by exists []|]. split; [apply prefix_nil|done].
  - exists ms. done.
  - exists []. split; [by exists []|]. split; [apply prefix_nil|done].
Qed.

Lemma Agent_run_app a l k :
  Agent_run a (l ++ k) = ((Agent_run (Agent_run a l).1 k).1, (Agent_run a l).2 ++ (Agent_run (Agent_run a l).1 k).2).
Proof.
  revert a. induction l as [|i l IH]; intros a; [cbn; by destruct (Agent_run a k)|]. cbn [app].
  rewrite !Agent_run_cons, IH. cbn [fst snd]. by rewrite app_assoc.
Qed.

Lemma drive_step_run message now now' a :
  (drive_step message now now' a).1 = (Agent_run a (agent_inputs (message, now, now'))).1 /\
  (drive_step message now now' a).2 = perform (Agent_run a (agent_inputs (message, now, now'))).2.
Proof.
  unfold drive_step, agent_inputs. destruct message as [m|]; cbn.
  - destruct (Agent_handle a m now) as [a1 l]. destruct (Agent_poll a1 now') as [a2 k]. cbn. by rewrite app_nil_r.
  - destruct (Agent_poll a now') as [a2 k]. cbn. by rewrite app_nil_r.
Qed.

(** C12: The worker's end of the wire.  Whatever the coordinator sends and whenever
    the worker is woken, the bytes of a session are read by the coordinator as the
    worker's hello followed by messages its agent asked to be sent, in that order
    and with none left out before the point where the session ended. *)
Theorem session_speaks_for_agent (caps : NodeCapabilities) (token : option string) (w : Workload)
    (inputs : list (option SupervisorMessage * Millis * Millis)) (hello : Bytes) :
  let a := Agent_with_workload w (Agent_with_token token (Agent_anonymous caps 1000)) in
  write_frame (Agent_hello a) = Ok hello ->
  exists ms, received (session caps token w inputs) = Agent_hello a :: ms /\
    ms `prefix_of` omap message_of (Agent_run a (inputs ≫= agent_inputs)).2.
Proof.
  intros a Hh. assert (encode_frame (Agent_hello a) [] = Ok hello) as Hhello.
  { unfold write_frame in Hh. destruct (encode_frame (Agent_hello a) []); by simplify_eq. }
  assert (forall a, exists ms, framed (drive inputs a).2 ms /\ ms `prefix_of` omap message_of (Agent_run a (inputs ≫= agent_inputs)).2) as Hd.
  { clear. induction inputs as [|[[message now] now'] inputs IH]; intros a; [exists []; split; [by exists []|apply prefix_nil]|].
    cbn [drive]. change (((message, now, now') :: inputs) ≫= agent_inputs) with (agent_inputs (message, now, now') ++ (inputs ≫= agent_inputs)).
    rewrite Agent_run_app. cbn [snd]. rewrite omap_app. destruct (drive_step_run message now now' a) as [Ha Hp].
    set (l := Agent_run a (agent_inputs (message, now, now'))) in *.
    destruct (drive_step message now now' a) as [a1 [bytes on]]. cbn [fst snd] in Ha, Hp. subst a1.
    destruct (perform_framed l.2) as (ms & Hf & Hpre & Hall). rewrite <-Hp in Hf, Hall. cbn [fst snd] in Hf, Hall. destruct on.
    - destruct (IH l.1) as (ms' & Hf' & Hpre'). destruct (drive inputs l.1) as [a2 rest]. cbn in *. exists (ms ++ ms').
      split; [by apply framed_app|]. rewrite (Hall eq_refl). by apply prefix_app.
    - exists ms. split; [done|]. by apply prefix_app_r. }
  destruct (Hd a) as (ms & (frames & Heq & Hf) & Hpre). exists ms. split; [|done].
  unfold session. fold a. rewrite Hhello, Heq. unfold received.
  replace (hello ++ concat frames) with (concat (hello :: frames) ++ []) by (cbn; by rewrite app_nil_r).
  rewrite (reader_encoded (Agent_hello a :: ms)); [done|by constructor|lia|done].
Qed.
End Worker.

(** ** A connection speaks only for the work it was handed *)
Section Reports.
Context `{Postcard SupervisorMessage, Postcard NodeMessage} (artifacts : option ArtifactStore).

Definition handed (i : Link * ConnInput) : option Task :=
  match i.2 with ConnInbox (Some (InboxAssign task)) => Some task | _ => None end.
Definition report_node (r : NodeReport) : NodeId :=
  match r with ReportHeartbeat hb => hb_node hb | ReportTaskStarted n _ => n | ReportTaskFinished n _ _ => n end.
Definition report_task (r : NodeReport) : option Task :=
  match r with ReportHeartbeat _ => None | ReportTaskStarted _ t => Some t | ReportTaskFinished _ t _ => Some t end.
Definition finishes (r : NodeReport) : bool := match r with ReportTaskFinished _ _ _ => true | _ => false end.

Definition reports_of (outs : list ConnOut) : list NodeReport := outs ≫= out_reports.
Definition finish_count (rs : list NodeReport) : nat := length (filter (fun r => finishes r = true) rs).
Definition holding (c : Connection) : nat := match cn_assigned c with Some _ => 1 | None => 0 end.

Lemma match_task_Some assigned reported t : match_task assigned reported = Some t -> assigned = Some t /\ task_id t = reported.
Proof.
  unfold match_task. destruct assigned as [u|]; [|done]. destruct (N.eqb_spec (task_id u) reported) as [Hid|]; [|done].
  by intros [= ->].
Qed.

(** One turn: whose reports, about which tasks, and how many completions. *)
Definition turn_ok (c : Connection) (i : Link * ConnInput) (r : Connection * ConnOut) : Prop :=
  cn_id r.1 = cn_id c /\ cn_generation r.1 = cn_generation c /\
  Forall (fun rep => report_node rep = cn_id c) (out_reports r.2) /\
  (forall rep t, rep ∈ out_reports r.2 -> report_task rep = Some t -> cn_assigned c = Some t \/ handed i = Some t) /\
  (forall t, cn_assigned r.1 = Some t -> cn_assigned c = Some t \/ handed i = Some t) /\
  (finish_count (out_reports r.2) + holding r.1 <= holding c + length (omap handed [i]))%nat.

Lemma turn_quiet c i out : out_reports out = [] -> turn_ok c i (c, out).
Proof.
  intros Hr. unfold turn_ok. cbn [fst snd]. rewrite Hr. split_and!; [done..|by constructor|by intros ?? ?%elem_of_nil|by auto|].
  change (finish_count []) with 0%nat. lia.
Qed.

(** At most one report, of the node itself, with a task it holds or was just handed. *)
Lemma turn_one c c' i out rep :
  cn_id c' = cn_id c -> cn_generation c' = cn_generation c -> report_node rep = cn_id c ->
  out_reports out = [rep] \/ out_reports out = [] ->
  (forall t, report_task rep = Some t -> cn_assigned c = Some t \/ handed i = Some t) ->
  (forall t, cn_assigned c' = Some t -> cn_assigned c = Some t) ->
  (finish_count [rep] + holding c' <= holding c + length (omap handed [i]))%nat -> turn_ok c i (c', out).
Proof.
  intros Hid Hg Hn Hr Ht Ha Hc. unfold turn_ok. cbn [fst snd]. split_and!; [done..| | |by auto|].
  - destruct Hr as [-> | ->]; by repeat constructor.
  - intros r t Hin. destruct Hr as [Hr|Hr]; rewrite Hr in Hin; [|by apply elem_of_nil in Hin].
    apply list_elem_of_singleton in Hin as ->. apply Ht.
  - destruct Hr as [-> | ->]; [done|]. change (finish_count []) with 0%nat. lia.
Qed.

Lemma sent_or_not (out : NodeReport) (b : bool) : (if b then [out] else []) = [out] \/ (if b then [out] else []) = [].
Proof. destruct b; auto. Qed.

Lemma on_inbox_ok link message c : turn_ok c (link, ConnInbox (Some message)) (on_inbox artifacts link message c).
Proof.
  destruct message as [task|p|n|ms]; cbn [on_inbox]; try (destruct (_ ≫= _); by apply turn_quiet).
  destruct (ship _ _ _) as [out|why].
  - unfold turn_ok. cbn [fst snd sent out_reports set_assigned cn_id cn_generation cn_assigned].
    split_and!; [done..|by constructor|by intros ?? ?%elem_of_nil|by intros t [= <-]; right|].
    change (finish_count []) with 0%nat. change (omap handed [(link, ConnInbox (Some (InboxAssign task)))]) with [task].
    cbn. lia.
  - eapply (turn_one _ _ _ _ (ReportTaskFinished _ task _)); try done; [apply sent_or_not|by intros t [= <-]; right|].
    change (finish_count [_]) with 1%nat. change (omap handed [(link, ConnInbox (Some (InboxAssign task)))]) with [task]. cbn. lia.
Qed.

Lemma on_frame_ok link message c : turn_ok c (link, ConnFrame (Some message)) (on_frame artifacts link message c).
Proof.
  destruct message as [proto n caps tok|hb|task art|task|task outcome]; cbn [on_frame]; try (by apply turn_quiet).
  - eapply (turn_one _ _ _ _ (ReportHeartbeat {| hb_node := cn_id c; hb_load := hb_load hb; hb_at := hb_at hb |}));
      try done; [apply sent_or_not|]. change (finish_count [_]) with 0%nat. lia.
  - destruct (match_task (cn_assigned c) task) as [t|] eqn:Hm; [|by apply turn_quiet].
    apply match_task_Some in Hm as [Ha _]. eapply (turn_one _ _ _ _ (ReportTaskStarted _ t));
      try done; [apply sent_or_not|by intros u [= <-]; left|].
    change (finish_count [_]) with 0%nat. lia.
  - destruct (match_task (cn_assigned c) task) as [t|] eqn:Hm; [|by apply turn_quiet].
    apply match_task_Some in Hm as [Ha _]. eapply (turn_one _ _ _ _ (ReportTaskFinished _ t _));
      try done; [apply sent_or_not|by intros u [= <-]; left|].
    change (finish_count [_]) with 1%nat. unfold holding. rewrite Ha. cbn. lia.
Qed.

Lemma conn_step_ok link i c : turn_ok c (link, i) (conn_step artifacts link i c).
Proof.
  destruct i as [|[message|]|[message|]]; cbn [conn_step]; try (by apply turn_quiet); [apply on_inbox_ok|apply on_frame_ok].
Qed.

Lemma finish_count_app l k : finish_count (l ++ k) = (finish_count l + finish_count k)%nat.
Proof. unfold finish_count. by rewrite filter_app, length_app. Qed.

(** The claim for a connection that may already hold a task. *)
Lemma conn_run_ok inputs c :
  let '(outs, cmd) := conn_run artifacts inputs c in
  Forall (fun r => report_node r = cn_id c) (reports_of outs) /\
  (forall r t, r ∈ reports_of outs -> report_task r = Some t -> cn_assigned c = Some t \/ t ∈ omap handed inputs) /\
  (finish_count (reports_of outs) <= holding c + length (omap handed inputs))%nat /\
  (cmd = if existsb out_end outs then Some (CmdDetachRemote (cn_id c) (cn_generation c)) else None).
Proof.
  revert c. induction inputs as [|[link i] inputs IH]; intros c; cbn [conn_run].
  { split_and!; [by constructor|by intros ?? ?%elem_of_nil|cbn; lia|done]. }
  destruct (conn_step_ok link i c) as (Hid & Hg & Hn & Ht & Ha & Hc). specialize (IH (conn_step artifacts link i c).1).
  destruct (conn_step artifacts link i c) as [c1 out]. cbn [fst snd] in *.
  change ((link, i) :: inputs) with ([(link, i)] ++ inputs). rewrite omap_app, length_app.
  assert (forall t, handed (link, i) = Some t -> t ∈ omap handed [(link, i)] ++ omap handed inputs) as Hin.
  { intros t Hh. apply elem_of_app. left. apply list_elem_of_omap. exists (link, i). split; [by left|done]. }
  destruct (out_end out) eqn:Hend.
  - unfold reports_of. cbn [mbind list_bind existsb]. rewrite app_nil_r, Hend, Hid, Hg. split_and!; [done| |lia|done].
    intros r t Hr Hrt. destruct (Ht r t Hr Hrt); [by left|right; auto].
  - destruct (conn_run artifacts inputs c1) as [outs cmd]. destruct IH as (I1 & I2 & I3 & I4).
    unfold reports_of in *. cbn [mbind list_bind existsb]. rewrite finish_count_app, Hend. split_and!.
    + apply Forall_app. split; [done|]. by rewrite <-Hid.
    + intros r t [Hr|Hr]%elem_of_app Hrt; [destruct (Ht r t Hr Hrt); [by left|right; auto]|].
      destruct (I2 r t Hr Hrt) as [Hx|Hx]; [destruct (Ha t Hx); [by left|right; auto]|right; by apply elem_of_app; right].
    + lia.
    + by rewrite I4, Hid, Hg.
Qed.

End Reports.

(** ** The gate *)

(** Nobody reaches the supervisor without the token.  A connection asks to be
    attached exactly when its first frame arrived in time and is a hello of this
    protocol version that presents the configured token, if one is configured. *)
Theorem handshake_gate (token : option string) (first : option (Result (option (NodeMessage * Bytes)) IoError))
    (requested : option NodeId) (caps : NodeCapabilities) :
  handshake token first = HsAttach requested caps <->
  exists presented rest, first = Some (Ok (Some (Hello PROTOCOL_VERSION requested caps presented, rest))) /\
    match token with
    | None => True
    | Some secret => presented = Some secret /\ len (as_bytes secret) <= MAX_TOKEN
    end.
Proof.
  split.
  - intros Hh. destruct first as [[[[[proto req cap presented| | | |] rest]|]|]|]; try done. cbn [handshake] in Hh.
    destruct (N.eqb_spec proto PROTOCOL_VERSION) as [->|]; [|done].
    destruct (token_accepted token presented) eqn:Ht; [|done]. injection Hh as -> ->. exists presented, rest. split; [done|].
    by apply token_accepted_iff in Ht.
  - intros (presented & rest & -> & Ht). cbn [handshake]. rewrite N.eqb_refl. cbn [negb].
    assert (token_accepted token presented = true) as -> by (by apply token_accepted_iff). done.
Qed.

(** ** The listener keeps its limits *)
Lemma fetch_add_small n k : n + k <= u64_max -> fetch_add n k = n + k.
Proof. intros Hn. unfold fetch_add. apply wrap_small. unfold u64_max in Hn. lia. Qed.
Lemma fetch_sub_small n k : k <= n -> n <= u64_max -> fetch_sub n k = n - k.
Proof.
  intros Hk Hn. unfold fetch_sub, wrap. replace (n + 2 ^ 64 - k) with (n - k + 1 * 2 ^ 64) by lia.
  rewrite N.Div0.mod_add. apply N.mod_small. unfold u64_max in Hn. lia.
Qed.

Definition guards (l : list (N * bool)) : N := N.of_nat (length (filter (fun c => c.2 = true) l)).
Definition one (b : bool) : N := if b then 1 else 0.

Lemma guards_cons c l : guards (c :: l) = one c.2 + guards l.
Proof. unfold guards. rewrite filter_cons. destruct c as [k []]; cbn [snd one length]; case_decide; try done; cbn [length]; lia. Qed.

Lemma guards_le l : guards l <= N.of_nat (length l).
Proof. unfold guards. pose proof (length_filter (fun c : N * bool => c.2 = true) l). lia. Qed.

Lemma guards_authenticated conn b l :
  NoDup l.*1 -> (conn, b) ∈ l ->
  guards ((fun c => if c.1 =? conn then (c.1, false) else c) <$> l) + one b = guards l.
Proof.
  induction l as [|[k g] l IH]; intros Hnd Hin; [by apply elem_of_nil in Hin|]. rewrite fmap_cons in Hnd.
  apply NoDup_cons in Hnd as [Hni Hnd]. rewrite fmap_cons, !guards_cons. cbn [fst snd].
  apply elem_of_cons in Hin as [[= -> ->]|Hin].
  - rewrite N.eqb_refl. cbn [snd one]. assert ((fun c : N * bool => if c.1 =? k then (c.1, false) else c) <$> l = l) as ->; [|lia].
    rewrite <-(list_fmap_id l) at 2. apply list_fmap_ext. intros i [k' g'] Hi%list_elem_of_lookup_2. cbn.
    destruct (N.eqb_spec k' k) as [->|]; [|done]. exfalso. apply Hni, list_elem_of_fmap. by exists (k, g').
  - destruct (N.eqb_spec k conn) as [->|]; [exfalso; apply Hni, list_elem_of_fmap; by exists (conn, b)|]. cbn [snd].
    specialize (IH Hnd Hin). lia.
Qed.

Lemma open_removed conn b l :
  NoDup l.*1 -> (conn, b) ∈ l ->
  guards (filter (fun c => c.1 <> conn) l) + one b = guards l /\
  (length (filter (fun c => c.1 <> conn) l) + 1 = length l)%nat.
Proof.
  induction l as [|[k g] l IH]; intros Hnd Hin; [by apply elem_of_nil in Hin|]. rewrite fmap_cons in Hnd.
  apply NoDup_cons in Hnd as [Hni Hnd]. rewrite filter_cons, guards_cons. cbn [fst snd].
  apply elem_of_cons in Hin as [[= -> ->]|Hin].
  - rewrite decide_False by naive_solver. rewrite filter_all; [cbn [length]; lia|].
    apply Forall_forall. intros [k' g'] Hx Heq. cbn in Heq. subst k'. apply Hni, list_elem_of_fmap. by exists (k, g').
  - rewrite decide_True by (intros ->; apply Hni, list_elem_of_fmap; by exists (conn, b)). rewrite guards_cons. cbn [snd length].
    destruct (IH Hnd Hin). lia.
Qed.

Definition listening (limits : ListenerLimits) (l : Listener) : Prop :=
  NoDup (ls_open l).*1 /\ Forall (fun c => c.1 < ls_next l) (ls_open l) /\
  N.of_nat (length (ls_open l)) <= N.max (lim_connections limits) 1 /\
  pending l <= N.max (lim_handshakes limits) 1 /\
  tel_connections (ls_tel l) = N.of_nat (length (ls_open l)) /\ tel_preauth (ls_tel l) = pending l.

Lemma find_open conn l c : find (fun c : N * bool => c.1 =? conn) l = Some c -> c ∈ l /\ c.1 = conn.
Proof.
  unfold find. intros ([i y] & Hf & ->)%fmap_Some. apply list_find_Some in Hf as (Hl & Hx & _).
  split; [by eapply list_elem_of_lookup_2|by apply N.eqb_eq].
Qed.

Lemma serve_step_listening limits i l :
  lim_connections limits <= u64_max -> listening limits l -> listening limits (serve_step limits i l).
Proof.
  intros Hmax (Hnd & Hlt & Hlen & Hpend & Hc & Hp). pose proof (guards_le (ls_open l)) as Hg.
  unfold pending in *. fold (guards (ls_open l)) in *. assert (1 <= u64_max) by done.
  assert (N.of_nat (length (ls_open l)) <= u64_max) as Hu by lia.
  destruct i as [|conn|conn]; cbn [serve_step].
  - unfold pending. fold (guards (ls_open l)).
    destruct (N.ltb_spec (N.of_nat (length (ls_open l))) (N.max (lim_connections limits) 1)) as [Hroom|], (N.ltb_spec (guards (ls_open l)) (N.max (lim_handshakes limits) 1));
      cbn [andb]; [|by split_and!..].
    unfold listening, pending. cbn [ConnectionGuard_new ls_open ls_next ls_tel]. fold (guards ((ls_next l, true) :: ls_open l)).
    rewrite guards_cons. cbn [snd one length]. split_and!.
    + rewrite fmap_cons. apply NoDup_cons. split; [|done]. intros (c & Heq & Hin)%list_elem_of_fmap. rewrite Forall_forall in Hlt.
      specialize (Hlt c Hin). cbn in Hlt, Heq. lia.
    + constructor; [cbn; lia|]. eapply Forall_impl; [exact Hlt|]. cbn. lia.
    + lia.
    + lia.
    + cbn [Telemetry_preauth_opened Telemetry_connection_opened Telemetry_counters tel_connections]. rewrite Hc, fetch_add_small; lia.
    + cbn [Telemetry_preauth_opened Telemetry_connection_opened Telemetry_counters tel_preauth]. rewrite Hp, fetch_add_small; lia.
  - destruct (find _ _) as [[k b]|] eqn:Hf; [|by split_and!]. apply find_open in Hf as [Hin Hk]. cbn in Hk. subst k.
    pose proof (guards_authenticated conn b (ls_open l) Hnd Hin) as Ha.
    assert (((fun c : N * bool => if c.1 =? conn then (c.1, false) else c) <$> ls_open l).*1 = (ls_open l).*1) as Hids.
    { rewrite <-list_fmap_compose. apply list_fmap_ext. intros i [k g] _. cbn. by destruct (k =? conn). }
    assert (forall tel, tel_connections tel = tel_connections (ls_tel l) -> tel_preauth tel = guards (ls_open l) - one b ->
      listening limits {| ls_open := (fun c => if c.1 =? conn then (c.1, false) else c) <$> ls_open l; ls_next := ls_next l; ls_tel := tel |}) as Hok.
    { intros tel Htc Htp. unfold listening, pending. cbn [ls_open ls_next ls_tel]. rewrite length_fmap, Hids.
      change (N.of_nat (length (filter _ ?x))) with (guards x). split_and!; [done| |lia|lia|congruence|lia].
      apply Forall_fmap. eapply Forall_impl; [exact Hlt|]. intros [k g]. cbn. by destruct (k =? conn). }
    destruct b; cbn [ConnectionGuard_authenticated snd one] in *; apply Hok; try done; [|lia].
    cbn [Telemetry_preauth_closed Telemetry_counters tel_preauth]. rewrite Hp, fetch_sub_small; lia.
  - destruct (find _ _) as [[k b]|] eqn:Hf; [|by split_and!]. apply find_open in Hf as [Hin Hk]. cbn in Hk. subst k.
    destruct (open_removed conn b (ls_open l) Hnd Hin) as [Hrg Hrl]. unfold listening, pending. cbn [ls_open ls_next ls_tel snd].
    change (N.of_nat (length (filter _ (filter _ (ls_open l))))) with (guards (filter (fun c => c.1 <> conn) (ls_open l))).
    split_and!; [by apply NoDup_fmap_filter| |lia|lia| |].
    + apply Forall_forall. intros c [_ Hx]%list_elem_of_filter. rewrite Forall_forall in Hlt. auto.
    + destruct b; cbn [ConnectionGuard_drop Telemetry_connection_closed Telemetry_preauth_closed Telemetry_counters tel_connections];
        rewrite Hc, fetch_sub_small; lia.
    + destruct b; cbn [ConnectionGuard_drop Telemetry_connection_closed Telemetry_preauth_closed Telemetry_counters tel_preauth one] in *;
        [rewrite Hp, fetch_sub_small; lia|lia].
Qed.

(** However connections come and go, the listener never has more of them open,
    nor more handshakes pending, than configured (one at least), and the counters
    shown in the snapshot are the true numbers of both. *)
Theorem listener_limits (limits : ListenerLimits) (inputs : list ListenerInput) :
  lim_connections limits <= u64_max ->
  let l := serve limits inputs in
  N.of_nat (length (ls_open l)) <= N.max (lim_connections limits) 1 /\
  pending l <= N.max (lim_handshakes limits) 1 /\
  tel_connections (ls_tel l) = N.of_nat (length (ls_open l)) /\ tel_preauth (ls_tel l) = pending l.
Proof.
  intros Hmax. assert (listening limits (serve limits inputs)) as (_ & _ & ?); [|done]. unfold serve.
  assert (listening limits {| ls_open := []; ls_next := 0; ls_tel := Telemetry_default |}) as Hinit.
  { unfold listening. change (pending _) with 0. cbn [ls_open ls_next ls_tel length].
    split_and!; try done; [apply NoDup_nil_2|lia..]. }
  revert Hinit. generalize {| ls_open := []; ls_next := 0; ls_tel := Telemetry_default |}.
  induction inputs as [|i inputs IH]; intros l Hl; [done|]. cbn [foldl]. by apply IH, serve_step_listening.
Qed.

Lemma listener_limits_witness :
  let l := serve {| lim_connections := 2; lim_handshakes := 1 |} [LsAccept; LsAuthenticated 0; LsAccept; LsAccept; LsEnded 1] in
  ls_open l = [(0, false)] /\ tel_rejected (ls_tel l) = 1 /\ tel_connections (ls_tel l) = N.of_nat (length (ls_open l)).
Proof.
  split; [vm_compute; reflexivity|]. split; [vm_compute; reflexivity|].
  refine (proj1 (proj2 (proj2 (listener_limits {| lim_connections := 2; lim_handshakes := 1 |}
    [LsAccept; LsAuthenticated 0; LsAccept; LsAccept; LsEnded 1] _)))). vm_compute. discriminate.
Defined.

(** ** A codec for the witnesses

    Messages as bit strings, one bit a byte: lawful, and total. *)
Fixpoint bits (p : positive) : Bytes :=
  match p with xH => [1] | xO p => 0 :: bits p | xI p => 2 :: bits p end.
Fixpoint unbits (b : Bytes) : option positive :=
  match b with
  | [] => None
  | 1 :: _ => Some xH
  | 0 :: b => xO <$> unbits b
  | _ :: b => xI <$> unbits b
  end.
Lemma unbits_bits p : unbits (bits p) = Some p.
Proof. induction p as [p IH|p IH|]; cbn; by rewrite ?IH. Qed.

Definition NodeMessage_code (m : NodeMessage) :
    (N * option N * (N * N) * option string) + (N * (N * N * N * bool) * N) + (N * (list N * N)) + N +
    (N * (string + (N * string))) :=
  match m with
  | Hello p n c t => inl (inl (inl (inl (p, n, (cores c, memory_bytes c), t))))
  | MsgHeartbeat hb =>
      let l := hb_load hb in
      inl (inl (inl (inr (hb_node hb, (load_percent l, running_tasks l, free_memory_bytes l, simulated l), hb_at hb))))
  | TaskProduced t a => inl (inl (inr (t, (artifact_bytes a, artifact_digest a))))
  | MsgTaskStarted t => inl (inr t)
  | MsgTaskFinished t (OutcomeCompleted o) => inr (t, inl o)
  | MsgTaskFinished t (OutcomeFailed r d) =>
      inr (t, inr (match r with NodeOffline => 0 | ExecutionError => 1 | Injected => 2 | Timeout => 3 | Cancelled => 4 end, d))
  end.
Definition NodeMessage_uncode (x : (N * option N * (N * N) * option string) + (N * (N * N * N * bool) * N) +
    (N * (list N * N)) + N + (N * (string + (N * string)))) : NodeMessage :=
  match x with
  | inl (inl (inl (inl (p, n, (c, m), t)))) => Hello p n {| cores := c; memory_bytes := m |} t
  | inl (inl (inl (inr (n, (lp, rt, fm, si), at_)))) =>
      MsgHeartbeat {| hb_node := n; hb_load := {| load_percent := lp; running_tasks := rt; free_memory_bytes := fm; simulated := si |};
                      hb_at := at_ |}
  | inl (inl (inr (t, (b, d)))) => TaskProduced t {| artifact_bytes := b; artifact_digest := d |}
  | inl (inr t) => MsgTaskStarted t
  | inr (t, inl o) => MsgTaskFinished t (OutcomeCompleted o)
  | inr (t, inr (r, d)) =>
      MsgTaskFinished t (OutcomeFailed (match r with 0 => NodeOffline | 1 => ExecutionError | 2 => Injected | 3 => Timeout | _ => Cancelled end) d)
  end.
Lemma NodeMessage_uncode_code m : NodeMessage_uncode (NodeMessage_code m) = m.
Proof. by destruct m as [? ? [] ?|[? [] ?]|? []|?|? [?|[] ?]]. Qed.

Definition NodeMessage_postcard : Postcard NodeMessage :=
  {| to_allocvec := fun m => Some (bits (encode (NodeMessage_code m)));
     from_bytes := fun b => NodeMessage_uncode <$> (unbits b ≫= decode) |}.
Lemma NodeMessage_postcard_laws : @PostcardLaws NodeMessage NodeMessage_postcard.
Proof. intros m b [= <-]. cbn. rewrite unbits_bits. cbn. rewrite decode_encode. cbn. by rewrite NodeMessage_uncode_code. Qed.

Lemma frame_stream_roundtrip_witness :
  @received Bytes raw_postcard (concat [[0; 0; 0; 2; 5; 6]; [0; 0; 0; 1; 7]] ++ take 5 [0; 0; 0; 2; 8; 9]) = [[5; 6]; [7]].
Proof.
  refine (@frame_stream_roundtrip Bytes raw_postcard raw_postcard_laws [[5; 6]; [7]] [[0; 0; 0; 2; 5; 6]; [0; 0; 0; 1; 7]]
    [8; 9] [0; 0; 0; 2; 8; 9] 5 _ _ _).
  - repeat constructor.
  - reflexivity.
  - vm_compute. repeat constructor.
Defined.

Definition demo_inputs : list (option SupervisorMessage * Millis * Millis) :=
  [(Some (Welcome PROTOCOL_VERSION 3 1000), 5, 6); (Some (Assign 7 (WirePrimes 0 100)), 8, 9)].

Lemma session_speaks_for_agent_witness :
  exists ms, @received NodeMessage NodeMessage_postcard
      (@session NodeMessage_postcard (NodeCapabilities_new 1 0) (Some "secret") (fun _ _ _ => None) demo_inputs) =
    Hello PROTOCOL_VERSION None (NodeCapabilities_new 1 0) (Some "secret") :: ms /\
    ms `prefix_of` omap message_of (Agent_run (Agent_with_workload (fun _ _ _ => None)
      (Agent_with_token (Some "secret") (Agent_anonymous (NodeCapabilities_new 1 0) 1000))) (demo_inputs ≫= agent_inputs)).2.
Proof.
  eapply (@session_speaks_for_agent NodeMessage_postcard NodeMessage_postcard_laws
    (NodeCapabilities_new 1 0) (Some "secret") (fun _ _ _ => None) demo_inputs).
  vm_compute. reflexivity.
Defined.
