(* ===== verification/LocalNode.v ===== *)
(** * The in-process node

    Models the worker loop of [crates/cluster-local/src/node.rs] ([run_node] with
    [NodeConfig]) and the execution of one task of [crates/cluster-local/src/exec.rs]
    ([execute_task]).  The supervisor cannot tell this node from a remote one; the
    theorems say why: it answers each assignment once as the remote [Agent] does,
    and a task gives the same output and artifact either way. *)
From stdpp Require Import prelude gmap strings pretty.
From S2P Require Import Prelude Time Role Node Job Event Scheduler Workload Store Snapshot Protocol Agent Supervisor Remote.

(** ** Running a task: [execute_task] *)

(** The milliseconds slept, the outcome, and the artifact.  [panic] is the message
    of a computation that panicked on the blocking pool, if it does. *)
Definition execute_task (node : NodeId) (spec : TaskSpec) (extra_delay_ms : N) (force_failure : bool)
    (host : option Workload) (store : option ArtifactStore) (panic : option string) : N * (TaskOutcome * option Bytes) :=
  if force_failure then
    (extra_delay_ms, (OutcomeFailed Injected ("failure injected on " +:+ NodeId_fmt node)%string, None))
  else
    let input := match store with Some store => default [] (as_input store spec) | None => [] end in
    let computed :=
      match run_task node spec with
      | Some work => Some work
      | None => match host with Some h => h node spec input | None => None end
      end in
    let blocking := match spec with TaskPrimes _ _ | TaskAnalysis _ _ _ => true | TaskSleep _ => false end in
    match blocking, panic with
    | true, Some e => (extra_delay_ms, (OutcomeFailed ExecutionError ("worker panicked: " +:+ e)%string, None))
    | _, _ =>
        match computed with
        | None =>
            (extra_delay_ms,
             (OutcomeFailed ExecutionError
                ("no workload on " +:+ NodeId_fmt node +:+ " can run " +:+ TaskSpec_describe spec)%string, None))
        | Some (WorkDone output) => (extra_delay_ms, (OutcomeCompleted output, None))
        | Some (WorkProduced output artifact) => (extra_delay_ms, (OutcomeCompleted output, Some artifact))
        | Some (WorkWait millis output) => (extra_delay_ms + millis, (OutcomeCompleted output, None))
        end
    end.

(** ** The loop: [run_node] *)
Record NodeConfig := {
  nc_id : NodeId;
  nc_capabilities : NodeCapabilities;
  nc_heartbeat_interval_ms : N;
  nc_simulate_load : bool;
  nc_workload : option Workload;
  nc_artifacts : option ArtifactStore
}.

(** The task in the [JoinSet], with what its future was given. *)
Record Execution := { ex_task : Task; ex_delay : N; ex_fail : bool }.

Record NodeRun := {
  nr_paused : bool;
  nr_pending_failures : N;
  nr_extra_delay_ms : N;
  nr_wobble : N;
  nr_running : list Execution
}.

Definition run_node_start (config : NodeConfig) : NodeRun :=
  {| nr_paused := false; nr_pending_failures := 0; nr_extra_delay_ms := 0;
     nr_wobble := wrap 32 (nc_id config * 2654435761); nr_running := [] |}.

(** The branches of the [select!]; [alive] is whether the supervisor still takes
    reports.  A finished computation is joined ([Ok]) or found aborted ([Err]). *)
Inductive NodeInput :=
| NiShutdown
| NiHeartbeat (now : Millis) (alive : bool)
| NiInbox (message : option NodeInbox) (alive : bool)
| NiJoined (panic : option string) (alive : bool)
| NiAborted.

Record NodeOut := { no_reports : list NodeReport; no_produced : list (TaskSpec * Bytes); no_break : bool }.
Definition no_out : NodeOut := {| no_reports := []; no_produced := []; no_break := false |}.
Definition send_report (alive : bool) (r : NodeReport) : NodeOut :=
  {| no_reports := if alive then [r] else []; no_produced := []; no_break := negb alive |}.

Definition node_load_now (config : NodeConfig) (wobble : N) (running : list Execution) : NodeLoad :=
  let busy := bool_decide (running <> []) in
  {| load_percent :=
       if nc_simulate_load config then
         let jitter := wrap 8 (N.shiftr wobble 24) mod 12 in
         if busy then 65 + jitter else 3 + jitter
       else 0;
     running_tasks := wrap 16 (N.of_nat (length running));
     free_memory_bytes := usable_ram_bytes (nc_capabilities config) - (if busy then 96 * 1024 else 32 * 1024);
     simulated := nc_simulate_load config |}.

Definition with_node_run (paused : bool) (failures delay wobble : N) (running : list Execution) : NodeRun :=
  {| nr_paused := paused; nr_pending_failures := failures; nr_extra_delay_ms := delay; nr_wobble := wobble;
     nr_running := running |}.

Definition node_assign (config : NodeConfig) (task : Task) (alive : bool) (n : NodeRun) : NodeRun * NodeOut :=
  match nr_running n with
  | [] =>
      let fail := 0 <? nr_pending_failures n in
      let failures := nr_pending_failures n - 1 in
      let execution := {| ex_task := task; ex_delay := nr_extra_delay_ms n; ex_fail := fail |} in
      if alive then
        (with_node_run (nr_paused n) failures (nr_extra_delay_ms n) (nr_wobble n) [execution],
         send_report true (ReportTaskStarted (nc_id config) task))
      else (with_node_run (nr_paused n) failures (nr_extra_delay_ms n) (nr_wobble n) [], send_report false (ReportTaskStarted (nc_id config) task))
  | _ =>
      (n, {| no_reports :=
               if alive then [ReportTaskFinished (nc_id config) task
                 (OutcomeFailed ExecutionError (NodeId_fmt (nc_id config) +:+ " was already busy")%string)] else [];
             no_produced := []; no_break := false |})
  end.

Definition node_step (config : NodeConfig) (i : NodeInput) (n : NodeRun) : NodeRun * NodeOut :=
  match i with
  | NiShutdown => (n, {| no_reports := []; no_produced := []; no_break := true |})
  | NiHeartbeat now alive =>
      if nr_paused n then (n, no_out)
      else
        let wobble := wrap 32 (wrap 32 (nr_wobble n * 1664525) + 1013904223) in
        let n := with_node_run (nr_paused n) (nr_pending_failures n) (nr_extra_delay_ms n) wobble (nr_running n) in
        (n, send_report alive (ReportHeartbeat
          {| hb_node := nc_id config; hb_load := node_load_now config wobble (nr_running n); hb_at := now |}))
  | NiInbox (Some (InboxAssign task)) alive => node_assign config task alive n
  | NiInbox (Some (InboxPauseHeartbeat value)) _ =>
      (with_node_run value (nr_pending_failures n) (nr_extra_delay_ms n) (nr_wobble n) (nr_running n), no_out)
  | NiInbox (Some (InboxInjectFailures count)) _ =>
      (with_node_run (nr_paused n) (sat_add u32_max (nr_pending_failures n) count) (nr_extra_delay_ms n) (nr_wobble n) (nr_running n), no_out)
  | NiInbox (Some (InboxSetDelay ms)) _ =>
      (with_node_run (nr_paused n) (nr_pending_failures n) ms (nr_wobble n) (nr_running n), no_out)
  | NiInbox None _ => (n, {| no_reports := []; no_produced := []; no_break := true |})
  | NiJoined panic alive =>
      match nr_running n with
      | [] => (n, no_out)
      | ex :: rest =>
          let task := ex_task ex in
          let '(_, (outcome, produced)) :=
            execute_task (nc_id config) (task_spec task) (ex_delay ex) (ex_fail ex) (nc_workload config) (nc_artifacts config) panic in
          (with_node_run (nr_paused n) (nr_pending_failures n) (nr_extra_delay_ms n) (nr_wobble n) rest,
           {| no_reports := if alive then [ReportTaskFinished (nc_id config) task outcome] else [];
              no_produced := match nc_artifacts config, produced with Some _, Some bytes => [(task_spec task, bytes)] | _, _ => [] end;
              no_break := negb alive |})
      end
  | NiAborted =>
      match nr_running n with
      | [] => (n, no_out)
      | _ :: rest => (with_node_run (nr_paused n) (nr_pending_failures n) (nr_extra_delay_ms n) (nr_wobble n) rest, no_out)
      end
  end.

Fixpoint run_node (config : NodeConfig) (inputs : list NodeInput) (n : NodeRun) : NodeRun * list NodeOut :=
  match inputs with
  | [] => (n, [])
  | i :: inputs =>
      let '(n, out) := node_step config i n in
      if no_break out then (n, [out])
      else let '(n, outs) := run_node config inputs n in (n, out :: outs)
  end.

(** ** Every assignment is answered once *)
Definition delivered (i : NodeInput) : bool :=
  match i with NiHeartbeat _ alive | NiInbox _ alive | NiJoined _ alive => alive | _ => true end.
Definition is_task (t : TaskId) (x : Task) : nat := if decide (task_id x = t) then 1 else 0.
Definition assigned_in (t : TaskId) (i : NodeInput) : nat :=
  match i with NiInbox (Some (InboxAssign task)) _ => is_task t task | _ => 0 end.
Definition node_holds (t : TaskId) (n : NodeRun) : nat := foldr (fun ex k => is_task t (ex_task ex) + k)%nat 0%nat (nr_running n).
Definition aborted_in (t : TaskId) (i : NodeInput) (n : NodeRun) : nat :=
  match i, nr_running n with NiAborted, ex :: _ => is_task t (ex_task ex) | _, _ => 0 end.
Definition finishes_task (t : TaskId) (r : NodeReport) : nat :=
  match r with ReportTaskFinished _ task _ => is_task t task | _ => 0 end.
Definition finishes_in (t : TaskId) (rs : list NodeReport) : nat := foldr (fun r k => finishes_task t r + k)%nat 0%nat rs.

(** What was assigned and what was aborted among the inputs the loop came to. *)
Fixpoint tally_inputs (config : NodeConfig) (t : TaskId) (inputs : list NodeInput) (n : NodeRun) : nat * nat :=
  match inputs with
  | [] => (0, 0)
  | i :: inputs =>
      let '(n', out) := node_step config i n in
      let '(a, b) := if no_break out then (0, 0) else tally_inputs config t inputs n' in
      (assigned_in t i + a, aborted_in t i n + b)
  end%nat.

Lemma node_step_conserves config t i n :
  delivered i = true ->
  (node_holds t n + assigned_in t i =
   finishes_in t (no_reports (node_step config i n).2) + node_holds t (node_step config i n).1 + aborted_in t i n)%nat.
Proof.
  intros Hd. destruct i as [|now alive|[[task|p|c|ms]|] alive|panic alive|]; cbn in Hd; try subst alive;
    cbn [node_step assigned_in aborted_in]; unfold node_holds; try (cbn [fst snd no_reports no_out with_node_run nr_running finishes_in foldr]; lia).
  - destruct (nr_paused n); cbn [fst snd no_reports no_out send_report with_node_run nr_running finishes_in foldr finishes_task]; lia.
  - unfold node_assign. destruct (nr_running n) as [|ex rest] eqn:Hr;
      cbn [fst snd no_reports send_report with_node_run nr_running finishes_in foldr finishes_task ex_task]; rewrite ?Hr; cbn [foldr]; lia.
  - destruct (nr_running n) as [|ex rest] eqn:Hr; [cbn [fst snd no_reports no_out finishes_in foldr]; rewrite Hr; cbn [foldr]; lia|].
    destruct (execute_task _ _ _ _ _ _ _) as [ms [outcome produced]].
    cbn [fst snd no_reports with_node_run nr_running finishes_in foldr finishes_task]. lia.
  - destruct (nr_running n) as [|ex rest] eqn:Hr;
      cbn [fst snd no_reports no_out with_node_run nr_running finishes_in foldr]; rewrite ?Hr; cbn [foldr]; lia.
Qed.

Lemma finishes_in_app t l k : finishes_in t (l ++ k) = (finishes_in t l + finishes_in t k)%nat.
Proof. unfold finishes_in. induction l as [|r l IH]; [done|]. cbn [app foldr]. rewrite IH. lia. Qed.

(** The in-process node loses no assignment and answers none twice: over any
    run, as long as the supervisor takes its reports, the completions it reports
    for a task, plus one if it is still running it, plus the executions that were
    aborted, are the assignments of that task it was given. *)
Theorem local_node_answers_once (config : NodeConfig) (t : TaskId) (inputs : list NodeInput) :
  Forall (fun i => delivered i = true) inputs ->
  let '(n', outs) := run_node config inputs (run_node_start config) in
  let '(given, aborted) := tally_inputs config t inputs (run_node_start config) in
  (given = finishes_in t (outs ≫= no_reports) + node_holds t n' + aborted)%nat.
Proof.
  intros Hd. assert (forall n, let '(n', outs) := run_node config inputs n in
    let '(given, aborted) := tally_inputs config t inputs n in
    (node_holds t n + given = finishes_in t (outs ≫= no_reports) + node_holds t n' + aborted)%nat) as Hall.
  2:{ specialize (Hall (run_node_start config)). destruct (run_node _ _ _) as [n' outs], (tally_inputs _ _ _ _). exact Hall. }
  induction Hd as [|i inputs Hi _ IH]; intros n; cbn [run_node tally_inputs]; [cbn; lia|].
  pose proof (node_step_conserves config t i n Hi) as Hs. destruct (node_step config i n) as [n1 out]. cbn [fst snd] in Hs.
  destruct (no_break out).
  - cbn [mbind list_bind]. rewrite app_nil_r. lia.
  - specialize (IH n1). destruct (run_node config inputs n1) as [n' outs], (tally_inputs config t inputs n1) as [g b].
    cbn [mbind list_bind]. rewrite finishes_in_app. lia.
Qed.

Definition demo_node : NodeConfig :=
  {| nc_id := 2; nc_capabilities := NodeCapabilities_new 4 1000000; nc_heartbeat_interval_ms := 1000; nc_simulate_load := true;
     nc_workload := None; nc_artifacts := None |}.
Definition demo_node_inputs : list NodeInput :=
  [NiHeartbeat 5 true; NiInbox (Some (InboxAssign (Task_new 7 1 0 (TaskPrimes 0 100) 0))) true;
   NiInbox (Some (InboxAssign (Task_new 7 1 0 (TaskPrimes 0 100) 0))) true; NiJoined None true; NiHeartbeat 9 true].

Lemma local_node_answers_once_witness :
  let '(n', outs) := run_node demo_node demo_node_inputs (run_node_start demo_node) in
  finishes_in 7 (outs ≫= no_reports) = 2%nat /\
  (2 = finishes_in 7 (outs ≫= no_reports) + node_holds 7 n' + 0)%nat.
Proof.
  split; [vm_compute; reflexivity|].
  exact (local_node_answers_once demo_node 7 demo_node_inputs ltac:(repeat constructor)).
Defined.

(** ** Local and remote execution agree *)
Definition artifact_of (t : TaskId) (a : Action) : option Bytes :=
  match a with
  | Send (TaskProduced id artifact) => if decide (id = t) then Some (artifact_bytes artifact) else None
  | _ => None
  end.
Definition artifacts_sent (t : TaskId) (acts : list Action) : list Bytes := omap (artifact_of t) acts.

(** What the agent will say about [w] once it is due. *)
Definition work_result (w : Work) : list TaskOutcome * list Bytes :=
  match w with
  | Ready output => ([OutcomeCompleted output], [])
  | Produced output artifact => ([OutcomeCompleted output], [artifact])
  | Primes _ _ _ _ _ => ([], [])
  end.

Definition deliverable (w : Work) : Prop :=
  match w with Ready _ => True | Produced _ artifact => len artifact <= MAX_ARTIFACT | Primes _ _ _ _ _ => False end.

Lemma poll_artifacts_part a now t :
  artifacts_sent t (Agent_poll a now).2 = artifacts_sent t (poll_report (poll_compute a) now).2.
Proof.
  unfold Agent_poll. destruct (poll_report (poll_compute a) now) as [a1 acts1].
  assert (artifacts_sent t (poll_heartbeat a1 now).2 = []) as Ho.
  { unfold poll_heartbeat. destruct (ag_id a1); [case_match|]; done. }
  destruct (poll_heartbeat a1 now) as [a2 acts2]; cbn [fst snd] in *. unfold artifacts_sent in *.
  rewrite !omap_app, Ho. case_match; by rewrite app_nil_r.
Qed.

Lemma poll_deliverable a id ready w now :
  ag_running a = Some {| run_id := id; ready_at := ready; work := w |} -> deliverable w ->
  if ready <=? now
  then ag_running (Agent_poll a now).1 = None /\
       (outcomes id (Agent_poll a now).2, artifacts_sent id (Agent_poll a now).2) = work_result w
  else ag_running (Agent_poll a now).1 = ag_running a /\ outcomes id (Agent_poll a now).2 = [] /\
       artifacts_sent id (Agent_poll a now).2 = [].
Proof.
  intros Hr Hw. destruct (poll_report_part a now) as [-> ->]. rewrite poll_artifacts_part.
  unfold poll_report, poll_compute. rewrite Hr. cbn [ag_running set_running run_id ready_at work].
  assert (advance w = w) as -> by (by destruct w). destruct (ready <=? now); [|done].
  destruct w as [output|output artifact|]; [| |done]; cbn [deliverable work_result] in *.
  - split; [done|]. unfold outcomes, artifacts_sent, finished. cbn. by rewrite decide_True.
  - destruct (N.ltb_spec MAX_ARTIFACT (len artifact)); [lia|]. split; [done|].
    unfold outcomes, artifacts_sent, finished. cbn. by rewrite !decide_True.
Qed.

Lemma idle_poll_artifacts a now t : ag_running a = None -> artifacts_sent t (Agent_poll a now).2 = [].
Proof. intros Hr. rewrite poll_artifacts_part. unfold poll_report, poll_compute. rewrite Hr. by rewrite Hr. Qed.

Lemma artifacts_sent_app t l k : artifacts_sent t (l ++ k) = artifacts_sent t l ++ artifacts_sent t k.
Proof. apply omap_app. Qed.

(** An accepted piece of work is reported once it is due, whether that is at once
    or at a later poll. *)
Lemma accepted_reported a id w now later ready :
  let a1 := set_running (Some {| run_id := id; ready_at := ready; work := w |}) a in
  deliverable w -> ready <= later ->
  let '(a2, acts) := Agent_poll a1 now in
  (outcomes id (acts ++ (Agent_poll a2 later).2), artifacts_sent id (acts ++ (Agent_poll a2 later).2)) = work_result w.
Proof.
  intros a1 Hw Hl. pose proof (poll_deliverable a1 id ready w now eq_refl Hw) as H1'.
  destruct (Agent_poll a1 now) as [a2 acts]. cbn [fst snd] in H1'. rewrite outcomes_app, artifacts_sent_app.
  destruct (ready <=? now).
  - destruct H1' as [Hr Hres]. destruct (poll_running_None a2 later Hr) as [_ Ho]. by rewrite Ho, idle_poll_artifacts, !app_nil_r.
  - destruct H1' as (Hr & -> & ->). pose proof (poll_deliverable a2 id ready w later ltac:(by rewrite Hr) Hw) as H2'.
    destruct (N.leb_spec ready later); [|lia]. by destruct H2' as [_ ?].
Qed.

(** The wire carries what [execute_task] reads from the store. *)
Lemma start_work_executes a node spec host store wire wait output produced :
  match spec with TaskPrimes _ _ => False | _ => True end ->
  WireTaskSpec_of spec (store ≫= fun s => as_input s spec) = Ok wire ->
  execute_task node spec 0 false host store None = (wait, (OutcomeCompleted output, produced)) -> ag_workload a = host ->
  exists w, start_work a node wire = Some (wait, w) /\
    work_result w = ([OutcomeCompleted output], match produced with Some b => [b] | None => [] end) /\
    (match produced with Some b => len b <= MAX_ARTIFACT | None => True end -> deliverable w).
Proof.
  intros Hnp Hwire Hex Hwl. destruct spec as [millis|?|version algorithm partition]; [|done|].
  - injection Hwire as <-. cbn in Hex. injection Hex as <- <- <-. eexists. split; [reflexivity|]. done.
  - unfold WireTaskSpec_of in Hwire. destruct (store ≫= _) as [bytes|] eqn:Hin; [|done].
    destruct (MAX_ARTIFACT <? len bytes) eqn:Hsz; [done|]. injection Hwire as <-.
    assert (match store with Some s => default [] (as_input s (TaskAnalysis version algorithm partition)) | None => [] end = bytes) as Hbytes.
    { destruct store as [s|]; [|done]. cbn in Hin. by rewrite Hin. }
    unfold execute_task in Hex. rewrite Hbytes in Hex. cbn [run_task] in Hex. unfold start_work.
    cbn [TaskSpec_from run_task WireTaskSpec_input]. unfold Artifact_verify, Artifact_new. cbn [artifact_bytes artifact_digest].
    rewrite N.eqb_refl, Hwl. destruct host as [h|]; [|done].
    destruct (h node (TaskAnalysis version algorithm partition) bytes) as [[ms out|out|out art]|]; [..|done];
      injection Hex as <- <- <-; eexists; (split; [reflexivity|]); by cbn.
Qed.


(** A handler that echoes its input, and a store with one input. *)
Definition echo_workload : Workload := fun _ _ input => Some (WorkProduced "echo" input).
Definition echo_store : ArtifactStore := {| as_input := fun _ => Some [1; 2; 3] |}.
Definition echo_agent : Agent := Agent_with_workload echo_workload (Agent_with_id 3 (NodeCapabilities_new 1 0) 1000).

