(* ===== verification/Market.v ===== *)
(** * Market: regions, money, listings, and the reduction of a snapshot

    Models the shared types of [crates/app-core/src/market/mod.rs] and
    [crates/app-core/src/market/stats.rs].  Money is [Copper], a [u64].  [summarise]
    reduces the listings of one item to a [PriceStats]: the cheapest price, and the
    prices at which 5% and 50% of the listed units have been consumed.

    [sort_unstable_by_key] leaves the order of equally priced listings open; the
    model sorts with a stable sort, and [summarise_permutation] shows that the
    result does not depend on the order the listings arrive in, so not on that
    choice either. *)
From Stdlib Require Import Ascii.
From stdpp Require Import prelude gmap sorting strings pretty.
From S2P Require Import Prelude Text Time.

Abbreviation ItemId := N.
Abbreviation Copper := N.

(** ** Regions *)
Inductive Region := Eu | Us | Kr | Tw.

#[export] Instance Region_eq_dec : EqDecision Region.
Proof. solve_decision. Defined.

Definition ALL_REGIONS : list Region := [Eu; Us; Kr; Tw].

Definition Region_as_str (self : Region) : string :=
  match self with Eu => "eu" | Us => "us" | Kr => "kr" | Tw => "tw" end.

Definition api_host (self : Region) : string :=
  match self with
  | Eu => "https://eu.api.blizzard.com"
  | Us => "https://us.api.blizzard.com"
  | Kr => "https://kr.api.blizzard.com"
  | Tw => "https://tw.api.blizzard.com"
  end.

Definition namespace (self : Region) : string := "dynamic-" +:+ Region_as_str self.
Definition static_namespace (self : Region) : string := "static-" +:+ Region_as_str self.

(** [iter().find(..)], [find_map], [min_by_key] (the first of the least) and
    [max_by_key] (the last of the greatest), and the stable [sort_by]. *)
Definition find_first {A} (p : A -> bool) (l : list A) : option A := snd <$> list_find (fun x => p x = true) l.

Fixpoint find_map {A B} (f : A -> option B) (l : list A) : option B :=
  match l with
  | [] => None
  | x :: l' => match f x with Some y => Some y | None => find_map f l' end
  end.

Definition min_by_key {A} (f : A -> N) (l : list A) : option A :=
  match l with
  | [] => None
  | x :: l' => Some (foldl (fun best y => if decide (f y < f best) then y else best) x l')
  end.

Definition max_by_key {A} (f : A -> N) (l : list A) : option A :=
  match l with
  | [] => None
  | x :: l' => Some (foldl (fun best y => if decide (f best <= f y) then y else best) x l')
  end.

Definition cmp_then (c d : comparison) : comparison := match c with Eq => d | _ => c end.
Definition bool_cmp (a b : bool) : comparison :=
  match a, b with false, true => Lt | true, false => Gt | _, _ => Eq end.

Definition not_after {A} (cmp : A -> A -> comparison) (x y : A) : Prop := cmp x y <> Gt.

#[export] Instance not_after_dec {A} (cmp : A -> A -> comparison) x y : Decision (not_after cmp x y).
Proof. unfold not_after. apply _. Defined.

Definition sort_by {A} (cmp : A -> A -> comparison) (l : list A) : list A := merge_sort (not_after cmp) l.
Definition sort_by_key {A} (f : A -> N) (l : list A) : list A := sort_by (fun x y => N.compare (f x) (f y)) l.

Lemma sort_by_perm {A} (cmp : A -> A -> comparison) l : sort_by cmp l ≡ₚ l.
Proof. apply merge_sort_Permutation. Qed.

Lemma sort_by_key_sorted {A} (f : A -> N) l : StronglySorted (fun x y => f x <= f y) (sort_by_key f l).
Proof.
  assert (Total (not_after (fun x y => N.compare (f x) (f y)))) 
    by (intros x y; change (f x <= f y \/ f y <= f x); lia).
  assert (Transitive (not_after (fun x y => N.compare (f x) (f y)))) 
    by (intros x y z; change (f x <= f y -> f y <= f z -> f x <= f z); lia).
  pose proof (StronglySorted_merge_sort (not_after (fun x y => N.compare (f x) (f y))) l) as Hs.
  unfold sort_by_key, sort_by. induction Hs as [|x k Hs IH Hall]; constructor; [done|].
  eapply Forall_impl; [exact Hall|]. intros y Hy. exact Hy.
Qed.

(** A comparison that is reversed by swapping its arguments sorts. *)
Lemma not_after_total {A} (cmp : A -> A -> comparison) : (forall a b, cmp a b = CompOpp (cmp b a)) -> Total (not_after cmp).
Proof. intros H a b. unfold not_after. rewrite (H a b). destruct (cmp b a); [by left|by right|by left]. Qed.

Lemma cmp_then_opp c d : CompOpp (cmp_then c d) = cmp_then (CompOpp c) (CompOpp d).
Proof. by destruct c. Qed.

Lemma bool_cmp_opp a b : bool_cmp a b = CompOpp (bool_cmp b a).
Proof. by destruct a, b. Qed.

(** What a total comparison sorts by is sorted by what it entails. *)
Lemma sort_by_sorted {A} (cmp : A -> A -> comparison) (R : A -> A -> Prop) l :
  (forall a b, cmp a b = CompOpp (cmp b a)) -> (forall a b, cmp a b <> Gt -> R a b) -> Transitive R -> StronglySorted R (sort_by cmp l).
Proof.
  intros Hopp HR Htr. pose proof (not_after_total cmp Hopp). apply Sorted_StronglySorted; [exact Htr|].
  pose proof (Sorted_merge_sort (not_after cmp) l) as Hs. unfold sort_by. induction Hs as [|x k Hs IH Hhd]; constructor; [done|].
  destruct Hhd as [|y k Hxy]; constructor. by apply HR.
Qed.

(** [entry(key).or_default().push(value)] over a list. *)
Definition group_by `{Countable K} {A V} (key : A -> K) (val : A -> V) (l : list A) : gmap K (list V) :=
  foldl (fun m x => <[key x := default [] (m !! key x) ++ [val x]]> m) ∅ l.

Lemma group_by_lookup `{Countable K} {A V} (key : A -> K) (val : A -> V) l k :
  group_by key val l !! k = match val <$> filter (fun x => key x = k) l with [] => None | g => Some g end.
Proof.
  induction l as [|x l IH] using rev_ind; [done|]. unfold group_by in *. rewrite foldl_app. cbn [foldl].
  rewrite filter_app, fmap_app, filter_cons. set (m := foldl _ _ l) in *. destruct (decide (key x = k)) as [Hk|Hk].
  - rewrite Hk, lookup_insert_eq, IH. cbn [fmap list_fmap]. by destruct (val <$> filter _ l).
  - rewrite lookup_insert_ne by done. rewrite filter_nil, fmap_nil, app_nil_r. exact IH.
Qed.

Lemma StronglySorted_filter {A} (R : A -> A -> Prop) (Q : A -> Prop) `{forall x, Decision (Q x)} l :
  StronglySorted R l -> StronglySorted R (filter Q l).
Proof.
  induction 1 as [|x l Hs IH Hall]; [constructor|]. rewrite filter_cons. case_decide; [|done]. constructor; [done|].
  rewrite Forall_forall in *. intros y [_ Hy]%list_elem_of_filter. by apply Hall.
Qed.

Lemma filter_none {A} (Q : A -> Prop) `{forall x, Decision (Q x)} l : Forall (fun x => ~ Q x) l -> filter Q l = [].
Proof. induction 1 as [|x l Hx _ IH]; [done|]. by rewrite filter_cons, decide_False. Qed.

Lemma Forall_filter {A} (P Q : A -> Prop) `{forall x, Decision (Q x)} l : Forall P l -> Forall P (filter Q l).
Proof. rewrite !Forall_forall. intros Hl x [_ Hx]%list_elem_of_filter. by apply Hl. Qed.

Lemma length_filter_fmap {A B} (f : A -> B) (P : B -> Prop) `{forall x, Decision (P x)} l :
  length (filter P (f <$> l)) = length (filter (fun x => P (f x)) l).
Proof. induction l as [|x l IH]; [done|]. cbn [fmap list_fmap]. rewrite !filter_cons. case_decide; cbn [length]; by rewrite IH. Qed.

(** The ends of a sorted list are its least and its greatest element. *)
Lemma sorted_last {A} (f : A -> N) l m :
  StronglySorted (fun x y => f x <= f y) l -> last l = Some m -> forall x, x ∈ l -> f x <= f m.
Proof.
  induction 1 as [|y l Hs IH Hall]; [done|]. intros Hm x Hx. destruct l as [|z l].
  - injection Hm as ->. apply list_elem_of_singleton in Hx. by subst.
  - change (last (z :: l) = Some m) in Hm. apply elem_of_cons in Hx as [->|Hx]; [|by apply IH].
    rewrite Forall_forall in Hall. apply Hall. by apply last_Some_elem_of.
Qed.

Lemma sorted_head {A} (f : A -> N) l m :
  StronglySorted (fun x y => f x <= f y) l -> head l = Some m -> forall x, x ∈ l -> f m <= f x.
Proof.
  intros Hs Hm x Hx. destruct l as [|y l]; [done|]. injection Hm as ->. apply StronglySorted_inv in Hs as [_ Hall].
  apply elem_of_cons in Hx as [->|Hx]; [done|]. rewrite Forall_forall in Hall. by apply Hall.
Qed.

Lemma find_first_Some {A} (p : A -> bool) l x : find_first p l = Some x -> x ∈ l /\ p x = true.
Proof.
  unfold find_first. intros ([i y] & (Hi & Hp & _)%list_find_Some & ->)%fmap_Some. split; [|done].
  by apply list_elem_of_lookup_2 in Hi.
Qed.

Lemma find_first_cons {A} (p : A -> bool) x l : find_first p (x :: l) = if p x then Some x else find_first p l.
Proof.
  unfold find_first. cbn. destruct (p x); [done|]. cbn. by destruct (list_find _ l) as [[]|].
Qed.

Lemma find_first_app {A} (p : A -> bool) l k :
  find_first p (l ++ k) = match find_first p l with Some x => Some x | None => find_first p k end.
Proof. induction l as [|x l IH]; [done|]. cbn [app]. rewrite !find_first_cons. by destruct (p x). Qed.

Lemma find_first_None {A} (p : A -> bool) l : find_first p l = None -> forall x, x ∈ l -> p x = false.
Proof.
  unfold find_first. rewrite fmap_None, list_find_None, Forall_forall. intros H x Hx. specialize (H x Hx).
  by destruct (p x).
Qed.

Lemma find_first_is_Some {A} (p : A -> bool) l : is_Some (find_first p l) <-> exists x, x ∈ l /\ p x = true.
Proof.
  split; [intros [x Hx%find_first_Some]; eauto|]. intros (x & Hx & Hp). destruct (find_first p l) eqn:Hf; [done|].
  by rewrite (find_first_None _ _ Hf x Hx) in Hp.
Qed.

(** In a sorted list the first match is the least. *)
Lemma find_first_sorted {A} (f : A -> N) (p : A -> bool) l x :
  StronglySorted (fun y z => f y <= f z) l -> find_first p l = Some x -> forall y, y ∈ l -> p y = true -> f x <= f y.
Proof.
  induction 1 as [|z l Hs IH Hall]; [done|]. rewrite find_first_cons. intros Hx y Hy Hp. destruct (p z) eqn:Hz.
  - injection Hx as ->. apply elem_of_cons in Hy as [->|Hy]; [done|]. rewrite Forall_forall in Hall. by apply Hall.
  - apply elem_of_cons in Hy as [->|Hy]; [congruence|]. by apply IH.
Qed.

Lemma min_by_key_spec {A} (f : A -> N) l x :
  min_by_key f l = Some x -> x ∈ l /\ forall y, y ∈ l -> f x <= f y.
Proof.
  destruct l as [|a l]; [done|]. intros [= <-]. revert a. induction l as [|b l IH]; intros a.
  - split; [left|]. by intros y ->%list_elem_of_singleton.
  - cbn. destruct (IH (if decide (f b < f a) then b else a)) as [Hin Hle]. split.
    + case_decide; apply elem_of_cons in Hin as [->|Hin]; rewrite !elem_of_cons; auto.
    + intros y Hy. pose proof (Hle (if decide (f b < f a) then b else a) ltac:(left)) as Hb.
      rewrite !elem_of_cons in Hy. destruct Hy as [->|[->|Hy]]; [case_decide; lia..|].
      apply Hle. by right.
Qed.

Lemma min_by_key_is_Some {A} (f : A -> N) l : l <> [] -> is_Some (min_by_key f l).
Proof. destruct l; [done|]. intros _. by eexists. Qed.

Lemma max_by_key_is_Some {A} (f : A -> N) l : l <> [] -> is_Some (max_by_key f l).
Proof. destruct l; [done|]. intros _. by eexists. Qed.

(** Among equals [min_by_key] takes the first, [max_by_key] the last. *)
Lemma min_by_key_first {A} (f : A -> N) l x :
  min_by_key f l = Some x ->
  exists l1 l2, l = l1 ++ x :: l2 /\ Forall (fun y => f x < f y) l1 /\ Forall (fun y => f x <= f y) l2.
Proof.
  destruct l as [|a l]; [done|]. cbn. intros [= <-]. induction l as [|b l IH] using rev_ind.
  - by exists [], [].
  - rewrite foldl_app. cbn [foldl]. destruct IH as (l1 & l2 & Heq & H1 & H2). set (m := foldl _ a l) in *. case_decide.
    + exists (a :: l), []. split_and!; [done| |done]. rewrite Heq. apply Forall_app_2; [|constructor; [done|]].
      * eapply Forall_impl; [exact H1|]. cbn. intros. lia.
      * eapply Forall_impl; [exact H2|]. cbn. intros. lia.
    + exists l1, (l2 ++ [b]). rewrite app_comm_cons, Heq, <- app_assoc. split_and!; [done|done|].
      apply Forall_app_2; [done|]. constructor; [lia|done].
Qed.

Lemma max_by_key_last {A} (f : A -> N) l x :
  max_by_key f l = Some x ->
  exists l1 l2, l = l1 ++ x :: l2 /\ Forall (fun y => f y <= f x) l1 /\ Forall (fun y => f y < f x) l2.
Proof.
  destruct l as [|a l]; [done|]. cbn. intros [= <-]. induction l as [|b l IH] using rev_ind.
  - by exists [], [].
  - rewrite foldl_app. cbn [foldl]. destruct IH as (l1 & l2 & Heq & H1 & H2). set (m := foldl _ a l) in *. case_decide.
    + exists (a :: l), []. split_and!; [done| |done]. rewrite Heq. apply Forall_app_2; [|constructor; [done|]].
      * eapply Forall_impl; [exact H1|]. cbn. intros. lia.
      * eapply Forall_impl; [exact H2|]. cbn. intros. lia.
    + exists l1, (l2 ++ [b]). rewrite app_comm_cons, Heq, <- app_assoc. split_and!; [done|done|].
      apply Forall_app_2; [done|]. constructor; [lia|done].
Qed.

Lemma max_by_key_spec {A} (f : A -> N) l x :
  max_by_key f l = Some x -> x ∈ l /\ forall y, y ∈ l -> f y <= f x.
Proof.
  intros (l1 & l2 & -> & H1 & H2)%max_by_key_last. rewrite Forall_forall in H1, H2. split; [apply elem_of_app; right; left|].
  intros y [Hy|[->|Hy]%elem_of_cons]%elem_of_app; [by apply H1|done|]. specialize (H2 y Hy). lia.
Qed.

Definition Region_parse (s : string) : option Region :=
  find_first (fun r => eq_ignore_ascii_case (Region_as_str r) s) ALL_REGIONS.

Lemma Region_parse_as_str r : Region_parse (Region_as_str r) = Some r.
Proof. by destruct r. Qed.

(** ** Money *)
Definition Copper_ZERO : Copper := 0.
Definition gold (self : Copper) : N := self / 10000.
Definition silver (self : Copper) : N := self mod 10000 / 100.
Definition copper (self : Copper) : N := self mod 100.

Definition Copper_fmt (self : Copper) : string :=
  if decide (10000 <= self) then pretty (gold self) +:+ "g " +:+ pad 2 (silver self) +:+ "s"
  else if decide (100 <= self) then pretty (silver self) +:+ "s " +:+ pad 2 (copper self) +:+ "c"
  else pretty (copper self) +:+ "c".

(** ** Listings and observations *)
Record Listing := { l_item : ItemId; unit_price : Copper; l_quantity : N }.

Record PriceSample := {
  ps_item : ItemId; ps_region : Region; observed_at : Millis;
  min_unit_price : Copper; p05_unit_price : Copper; median_unit_price : Copper;
  ps_quantity : N; ps_listings : N }.

#[export] Instance PriceSample_eq_dec : EqDecision PriceSample.
Proof. solve_decision. Defined.

Inductive Snapshot :=
| NotModified
| Fresh (generated_at : Millis) (listings : list Listing).

(** [AlertRule] of alerts.rs, which the configuration embeds. *)
Record AlertRule := {
  lookback_ms : N; percentile : N; min_samples : N; min_quantity : N; cooldown_ms : N }.

Definition AlertRule_default : AlertRule :=
  {| lookback_ms := 14 * 24 * 60 * 60 * 1000; percentile := 10; min_samples := 48; min_quantity := 20;
     cooldown_ms := 6 * 60 * 60 * 1000 |}.

Record MarketConfig := {
  regions : list Region; realms : list (Region * N); rule : AlertRule;
  collect_interval_ms : N; realm_min_interval_ms : N; realm_max_interval_ms : N;
  retain_ms : N; ladder_hot_ms : N }.

Definition MarketConfig_default : MarketConfig :=
  {| regions := [Eu]; realms := []; rule := AlertRule_default;
     collect_interval_ms := 30 * 60 * 1000; realm_min_interval_ms := 60 * 1000;
     realm_max_interval_ms := 30 * 60 * 1000; retain_ms := 0;
     ladder_hot_ms := 14 * 24 * 60 * 60 * 1000 |}.

(** ** Reducing a snapshot *)
Record PriceStats := { st_min : Copper; st_p05 : Copper; st_median : Copper; st_quantity : N; st_listings : N }.

Definition div_ceil (a b : N) : N := (a + b - 1) / b.

Definition by_price (x y : Listing) : Prop := unit_price x <= unit_price y.

#[export] Instance by_price_dec x y : Decision (by_price x y).
Proof. unfold by_price. apply _. Defined.
#[export] Instance by_price_total : Total by_price.
Proof. intros x y. unfold by_price. lia. Qed.
#[export] Instance by_price_trans : Transitive by_price.
Proof. intros x y z. unfold by_price. lia. Qed.

(** The loop of [quantile_price]: the first listing that brings the units seen to
    the target. *)
Fixpoint quantile_scan (target seen : N) (listings : list Listing) : option Copper :=
  match listings with
  | [] => None
  | l :: rest =>
      let seen' := wrap 64 (seen + l_quantity l) in
      if decide (target <= seen') then Some (unit_price l) else quantile_scan target seen' rest
  end.

Definition quantile_price (listings : list Listing) (total_quantity percent : N) : Copper :=
  let target := N.max (div_ceil (wrap 64 (total_quantity * percent)) 100) 1 in
  match quantile_scan target 0 listings with
  | Some price => price
  | None => match last listings with Some l => unit_price l | None => Copper_ZERO end
  end.

Definition summarise (listings : list Listing) : option PriceStats :=
  match merge_sort by_price listings with
  | [] => None
  | (first :: _) as sorted =>
      let total := wrap 64 (sumN (l_quantity <$> sorted)) in
      if decide (total = 0) then None
      else Some {| st_min := unit_price first;
                   st_p05 := quantile_price sorted total 5;
                   st_median := quantile_price sorted total 50;
                   st_quantity := total;
                   st_listings := wrap 32 (N.of_nat (length sorted)) |}
  end.

Definition into_sample (self : PriceStats) (item : ItemId) (region : Region) (at_ : Millis) : PriceSample :=
  {| ps_item := item; ps_region := region; observed_at := at_;
     min_unit_price := st_min self; p05_unit_price := st_p05 self; median_unit_price := st_median self;
     ps_quantity := st_quantity self; ps_listings := st_listings self |}.

(** ** What a supply-weighted percentile is

    Units listed at or below a price, and the price at which a number of units has
    been consumed. *)
Definition supply_upto (listings : list Listing) (price : Copper) : N :=
  sumN (l_quantity <$> filter (fun l => unit_price l <= price) listings).

Definition supply (listings : list Listing) : N := sumN (l_quantity <$> listings).

Definition consumed_at (listings : list Listing) (target : N) (price : Copper) : Prop :=
  price ∈ unit_price <$> listings /\ target <= supply_upto listings price /\
  forall p, p < price -> supply_upto listings p < target.

#[export] Instance supply_upto_perm : Proper ((≡ₚ) ==> (=) ==> (=)) supply_upto.
Proof. intros l k H p _ <-. unfold supply_upto. by rewrite H. Qed.

#[export] Instance supply_perm : Proper ((≡ₚ) ==> (=)) supply.
Proof. intros l k H. unfold supply. by rewrite H. Qed.

Lemma consumed_at_unique l t p q : consumed_at l t p -> consumed_at l t q -> p = q.
Proof.
  intros (_ & Hp & Hp') (_ & Hq & Hq'). destruct (N.lt_trichotomy p q) as [H|[H|H]]; [|done|].
  - specialize (Hq' p H). lia.
  - specialize (Hp' q H). lia.
Qed.

Lemma consumed_at_perm l k t p : l ≡ₚ k -> consumed_at l t p -> consumed_at k t p.
Proof.
  intros H (Hin & Hle & Hlt). split_and!.
  - by rewrite <- H.
  - by rewrite <- H.
  - intros q Hq. rewrite <- H. by apply Hlt.
Qed.

Lemma supply_upto_cons l ls p :
  supply_upto (l :: ls) p = (if decide (unit_price l <= p) then l_quantity l else 0) + supply_upto ls p.
Proof. unfold supply_upto. rewrite filter_cons. by case_decide. Qed.

Lemma supply_upto_le l p : supply_upto l p <= supply l.
Proof. apply sumN_filter_le. Qed.

Lemma supply_upto_mono l p q : p <= q -> supply_upto l p <= supply_upto l q.
Proof.
  intros H. induction l as [|x l IH]; [done|]. rewrite !supply_upto_cons. repeat case_decide; lia.
Qed.

(** Nothing is offered below the cheapest listing. *)
Lemma supply_upto_0 l p : Forall (fun x => p < unit_price x) l -> supply_upto l p = 0.
Proof.
  induction 1 as [|x l Hx _ IH]; [done|]. rewrite supply_upto_cons, IH. case_decide; lia.
Qed.

Lemma quantile_scan_spec target seen l :
  StronglySorted by_price l -> seen < target -> seen + supply l < 2 ^ 64 -> target <= seen + supply l ->
  exists c, quantile_scan target seen l = Some c /\ c ∈ unit_price <$> l /\
    target <= seen + supply_upto l c /\ forall p, p < c -> seen + supply_upto l p < target.
Proof.
  intros Hs. revert seen. induction Hs as [|x l Hs IH Hall]; intros seen Hlt Hfit Hle.
  { unfold supply in Hle. cbn in Hle. lia. }
  change (supply (x :: l)) with (l_quantity x + supply l) in *.
  cbn [quantile_scan]. rewrite wrap_small by lia. case_decide as Hc.
  - exists (unit_price x). split_and!; [done|left| |].
    + rewrite supply_upto_cons, decide_True by done. lia.
    + intros p Hp. rewrite supply_upto_0; [lia|]. apply Forall_cons. split; [done|].
      eapply Forall_impl; [exact Hall|]. unfold by_price. intros. cbn in *. lia.
  - destruct (IH (seen + l_quantity x)) as (c & Hc' & Hin & Hge & Hbelow); [lia..|]. exists c.
    assert (unit_price x <= c) as Hxc.
    { apply list_elem_of_fmap in Hin as (y & -> & Hy). rewrite Forall_forall in Hall. by apply Hall. }
    split_and!; [done|by right| |].
    + rewrite supply_upto_cons, decide_True by done. lia.
    + intros p Hp. rewrite supply_upto_cons. specialize (Hbelow p Hp). case_decide; lia.
Qed.

Lemma div_ceil_spec a b : 0 < b -> a <= div_ceil a b * b < a + b.
Proof.
  intros Hb. unfold div_ceil. pose proof (N.div_mod (a + b - 1) b ltac:(lia)) as E.
  pose proof (N.mod_lt (a + b - 1) b ltac:(lia)). rewrite (N.mul_comm _ b).
  generalize dependent (b * ((a + b - 1) / b)). generalize dependent ((a + b - 1) mod b). intros. lia.
Qed.

(** The number of units [percent] of a supply stands for: rounded up, at least one. *)
Definition share (total percent : N) : N := N.max (div_ceil (total * percent) 100) 1.

Lemma share_bounds total percent : 0 < total -> percent <= 100 -> 1 <= share total percent <= total.
Proof. intros Ht Hp. unfold share. pose proof (div_ceil_spec (total * percent) 100 ltac:(lia)). nia. Qed.

Lemma quantile_price_spec l total percent :
  StronglySorted by_price l -> total = supply l -> 0 < total -> percent <= 100 -> total * percent < 2 ^ 64 -> total < 2 ^ 64 ->
  consumed_at l (share total percent) (quantile_price l total percent).
Proof.
  intros Hs -> Ht Hp Hfit Hfit'. unfold quantile_price. rewrite wrap_small by done. change (N.max (div_ceil (supply l * percent) 100) 1) with (share (supply l) percent).
  pose proof (share_bounds (supply l) percent Ht Hp).
  destruct (quantile_scan_spec (share (supply l) percent) 0 l) as (c & -> & Hin & Hge & Hlt); [done|lia..|].
  split_and!; [done|lia|]. intros p Hpc. specialize (Hlt p Hpc). lia.
Qed.

(** The whole reduction: refused exactly on an empty supply, and otherwise the
    cheapest listing and the two supply-weighted percentiles. *)
Lemma summarise_spec l :
  supply l * 50 < 2 ^ 64 -> N.of_nat (length l) < 2 ^ 32 ->
  match summarise l with
  | None => supply l = 0
  | Some st =>
      0 < supply l /\ st_quantity st = supply l /\ st_listings st = N.of_nat (length l) /\
      st_min st ∈ unit_price <$> l /\ Forall (fun x => st_min st <= unit_price x) l /\
      consumed_at l (share (supply l) 5) (st_p05 st) /\ consumed_at l (share (supply l) 50) (st_median st)
  end.
Proof.
  intros Hfit Hlen. unfold summarise. pose proof (merge_sort_Permutation by_price l) as Hperm.
  pose proof (StronglySorted_merge_sort by_price l) as Hs.
  destruct (merge_sort by_price l) as [|x k] eqn:Hk; [by rewrite <- Hperm|].
  cbv zeta. fold (supply (x :: k)).
  assert (supply (x :: k) = supply l) as Hsup by (by rewrite Hperm).
  rewrite (wrap_small 64 (supply (x :: k))) by lia. case_decide as H0; [lia|]. cbn [st_quantity st_listings st_min st_p05 st_median].
  split_and!.
  - lia.
  - done.
  - rewrite wrap_small by (by rewrite Hperm). by rewrite Hperm.
  - rewrite <- Hperm. left.
  - rewrite <- Hperm. apply StronglySorted_inv in Hs as [_ Hs]. apply Forall_cons. split; [done|]. exact Hs.
  - rewrite <- Hsup. eapply consumed_at_perm; [exact Hperm|]. apply quantile_price_spec; [done|done|lia..].
  - rewrite <- Hsup. eapply consumed_at_perm; [exact Hperm|]. apply quantile_price_spec; [done|done|lia..].
Qed.

(** The order of the listings does not matter. *)
Lemma summarise_permutation l k :
  l ≡ₚ k -> supply l * 50 < 2 ^ 64 -> N.of_nat (length l) < 2 ^ 32 -> summarise l = summarise k.
Proof.
  intros Hp Hfit Hlen. pose proof (summarise_spec l Hfit Hlen) as Hl.
  assert (supply k = supply l) as Hsup by (by rewrite Hp). assert (length k = length l) as Hlk by (by rewrite Hp).
  pose proof (summarise_spec k ltac:(lia) ltac:(lia)) as Hk. rewrite Hsup, Hlk in Hk.
  destruct (summarise l) as [s|], (summarise k) as [s'|]; [|lia..|done].
  destruct Hl as (_ & Q & L & Min & Mall & P & M), Hk as (_ & Q' & L' & Min' & Mall' & P' & M').
  assert (st_min s = st_min s') as Em.
  { rewrite <- Hp in Min'. rewrite Hp in Min. apply list_elem_of_fmap in Min as (y & Ey & Hy), Min' as (y' & Ey' & Hy').
    rewrite Forall_forall in Mall, Mall'. specialize (Mall _ Hy'). specialize (Mall' _ Hy). lia. }
  pose proof (consumed_at_unique _ _ _ _ (consumed_at_perm _ _ _ _ Hp P) P') as Ep.
  pose proof (consumed_at_unique _ _ _ _ (consumed_at_perm _ _ _ _ Hp M) M') as Emd.
  destruct s, s'. cbn in *. congruence.
Qed.
