(* ===== verification/Catalog.v ===== *)
(** * Catalog: the tracked items, their expansions, patches and raid tiers

    Models [crates/app-core/src/market/catalog.rs]: the catalogue's data as it is
    embedded, its index and look-ups, the windows its patches span, the problems an
    administrator is told about, and the order catalogues are shown in.  A
    [BTreeMap<String, _>] is a [gmap string _].  Reading the embedded JSON is not
    modelled; [decode_variant] is in the bonus tables, which are data.

    Proved here: the words written for the catalogue's enumerations read back, the
    patch windows partition the time since the first patch, the index agrees with
    the catalogue's items. *)
From Stdlib Require Import Ascii.
From stdpp Require Import prelude gmap sorting strings pretty.
From S2P Require Import Prelude Text Time Market.

(** ** Enumerations *)
Module Audience.
Inductive t := Melee | Caster | Common.
#[global] Instance eq_dec : EqDecision t.
Proof. solve_decision. Defined.
Definition ALL : list t := [Melee; Caster; Common].
Definition as_str (self : t) : string :=
  match self with Melee => "melee" | Caster => "caster" | Common => "common" end.
Definition parse (s : string) : option t := find_first (fun a => bool_decide (as_str a = s)) ALL.
End Audience.

Module Stat.
Inductive t := Haste | Crit | Mastery | Versatility | Primary | Stamina | None_.
#[global] Instance eq_dec : EqDecision t.
Proof. solve_decision. Defined.
Definition ALL : list t := [Haste; Crit; Mastery; Versatility; Primary; Stamina; None_].
Definition as_str (self : t) : string :=
  match self with
  | Haste => "haste" | Crit => "crit" | Mastery => "mastery" | Versatility => "versatility"
  | Primary => "primary" | Stamina => "stamina" | None_ => "none"
  end.
End Stat.

Module Category.
Inductive t :=
| Flask | CombatPotion | HealingPotion | ManaPotion | Food | Feast | WeaponOil | WeaponStone
| AugmentRune | Boe | Recipe | VantusRune | Utility | Reagent | Enchant | Gem.
#[global] Instance eq_dec : EqDecision t.
Proof. solve_decision. Defined.
Definition ALL : list t :=
  [Flask; CombatPotion; HealingPotion; ManaPotion; Food; Feast; WeaponOil; WeaponStone;
   AugmentRune; VantusRune; Utility; Reagent; Enchant; Gem; Boe; Recipe].
Definition as_str (self : t) : string :=
  match self with
  | Flask => "flask" | CombatPotion => "combat_potion" | HealingPotion => "healing_potion"
  | ManaPotion => "mana_potion" | Food => "food" | Feast => "feast" | WeaponOil => "weapon_oil"
  | WeaponStone => "weapon_stone" | AugmentRune => "augment_rune" | VantusRune => "vantus_rune"
  | Utility => "utility" | Reagent => "reagent" | Enchant => "enchant" | Gem => "gem"
  | Boe => "boe" | Recipe => "recipe"
  end.
Definition label (self : t) : string :=
  match self with
  | Flask => "Flasks" | CombatPotion => "Combat potions" | HealingPotion => "Healing potions"
  | ManaPotion => "Mana potions" | Food => "Food" | Feast => "Feasts" | WeaponOil => "Weapon oils"
  | WeaponStone => "Weapon stones" | AugmentRune => "Augment runes" | VantusRune => "Vantus runes"
  | Utility => "Utility" | Reagent => "Reagents" | Enchant => "Enchants" | Gem => "Gems"
  | Boe => "Bind-on-equip gear" | Recipe => "Recipes"
  end.
End Category.

Module Profession.
Inductive t :=
| Alchemy | Blacksmithing | Cooking | Enchanting | Engineering | Fishing | Herbalism | Inscription
| Jewelcrafting | Leatherworking | Mining | Skinning | Tailoring | Shared.
#[global] Instance eq_dec : EqDecision t.
Proof. solve_decision. Defined.
Definition ALL : list t :=
  [Alchemy; Blacksmithing; Cooking; Enchanting; Engineering; Fishing; Herbalism; Inscription;
   Jewelcrafting; Leatherworking; Mining; Skinning; Tailoring; Shared].
Definition as_str (self : t) : string :=
  match self with
  | Alchemy => "alchemy" | Blacksmithing => "blacksmithing" | Cooking => "cooking"
  | Enchanting => "enchanting" | Engineering => "engineering" | Fishing => "fishing"
  | Herbalism => "herbalism" | Inscription => "inscription" | Jewelcrafting => "jewelcrafting"
  | Leatherworking => "leatherworking" | Mining => "mining" | Skinning => "skinning"
  | Tailoring => "tailoring" | Shared => "shared"
  end.
Definition label (self : t) : string :=
  match self with
  | Alchemy => "Alchemy" | Blacksmithing => "Blacksmithing" | Cooking => "Cooking"
  | Enchanting => "Enchanting" | Engineering => "Engineering" | Fishing => "Fishing"
  | Herbalism => "Herbalism" | Inscription => "Inscription" | Jewelcrafting => "Jewelcrafting"
  | Leatherworking => "Leatherworking" | Mining => "Mining" | Skinning => "Skinning"
  | Tailoring => "Tailoring" | Shared => "Shared reagents"
  end.
End Profession.

Module ItemKind.
Inductive t := Consumable | Reagent | Enchant | Gem | Boe | Recipe.
#[global] Instance eq_dec : EqDecision t.
Proof. solve_decision. Defined.
Definition ALL : list t := [Consumable; Reagent; Enchant; Gem; Boe; Recipe].
Definition as_str (self : t) : string :=
  match self with
  | Consumable => "consumable" | Reagent => "reagent" | Enchant => "enchant" | Gem => "gem"
  | Boe => "boe" | Recipe => "recipe"
  end.
Definition label (self : t) : string :=
  match self with
  | Consumable => "Consumables" | Reagent => "Reagents" | Enchant => "Enchants" | Gem => "Gems"
  | Boe => "Bind-on-equip gear" | Recipe => "Recipes"
  end.
Definition is_commodity (self : t) : bool := match self with Boe | Recipe => false | _ => true end.
Definition is_generated (self : t) : bool := match self with Enchant | Gem => true | _ => false end.
(** The derived order: the order of declaration. *)
Definition rank (self : t) : N :=
  match self with Consumable => 0 | Reagent => 1 | Enchant => 2 | Gem => 3 | Boe => 4 | Recipe => 5 end.
End ItemKind.

Module Slot.
Inductive t :=
| Head | Neck | Shoulder | Cloak | Chest | Wrist | Hands | Waist | Legs | Feet | Finger | Weapon | TwoHandedWeapon.
#[global] Instance eq_dec : EqDecision t.
Proof. solve_decision. Defined.
Definition ALL : list t :=
  [Head; Neck; Shoulder; Cloak; Chest; Wrist; Hands; Waist; Legs; Feet; Finger; Weapon; TwoHandedWeapon].
Definition as_str (self : t) : string :=
  match self with
  | Head => "head" | Neck => "neck" | Shoulder => "shoulder" | Cloak => "cloak" | Chest => "chest"
  | Wrist => "wrist" | Hands => "hands" | Waist => "waist" | Legs => "legs" | Feet => "feet"
  | Finger => "finger" | Weapon => "weapon" | TwoHandedWeapon => "two_handed_weapon"
  end.
Definition label (self : t) : string :=
  match self with
  | Head => "Head" | Neck => "Neck" | Shoulder => "Shoulder" | Cloak => "Cloak" | Chest => "Chest"
  | Wrist => "Wrist" | Hands => "Hands" | Waist => "Waist" | Legs => "Legs" | Feet => "Feet"
  | Finger => "Finger" | Weapon => "Weapon" | TwoHandedWeapon => "Two-handed weapon"
  end.
End Slot.

Module Track.
Inductive t := Veteran | Champion | Hero | Myth.
#[global] Instance eq_dec : EqDecision t.
Proof. solve_decision. Defined.
Definition ALL : list t := [Veteran; Champion; Hero; Myth].
Definition as_str (self : t) : string :=
  match self with Veteran => "Veteran" | Champion => "Champion" | Hero => "Hero" | Myth => "Myth" end.
Definition slug (self : t) : string :=
  match self with Veteran => "veteran" | Champion => "champion" | Hero => "hero" | Myth => "myth" end.
Definition from_slug (s : string) : option t := find_first (fun x => bool_decide (slug x = s)) ALL.
Definition rank (self : t) : N := match self with Veteran => 0 | Champion => 1 | Hero => 2 | Myth => 3 end.

(** [split_whitespace().next()] over ASCII white space: the first word. *)
Fixpoint word (s : string) : string :=
  match s with
  | EmptyString => ""
  | String a s' => if is_space a then "" else String a (word s')
  end.
Fixpoint skip_spaces (s : string) : string :=
  match s with String a s' => if is_space a then skip_spaces s' else s | EmptyString => "" end.
Definition parse (raw : string) : option t :=
  let w := match skip_spaces raw with EmptyString => raw | s => word s end in
  find_first (fun x => eq_ignore_ascii_case w (as_str x)) ALL.
End Track.

Module CatalogStatus.
Inductive t := DraftPtr | Active | Archived.
#[global] Instance eq_dec : EqDecision t.
Proof. solve_decision. Defined.
Definition ALL : list t := [DraftPtr; Active; Archived].
Definition as_str (self : t) : string :=
  match self with DraftPtr => "draft_ptr" | Active => "active" | Archived => "archived" end.
Definition parse (raw : string) : option t := find_first (fun s => bool_decide (as_str s = raw)) ALL.
Definition is_active (self : t) : bool := match self with Active => true | _ => false end.
Definition is_public (self : t) : bool := match self with Active | Archived => true | _ => false end.
Definition is_collected (self : t) : bool := match self with Active => true | _ => false end.
End CatalogStatus.

(** ** Items, patches and tiers *)
Record ItemRank := { ir_rank : N; ir_item_id : ItemId }.

Record CatalogItem := {
  ci_name : string; ci_category : Category.t; ci_kind : ItemKind.t; ci_profession : option Profession.t;
  ci_slot : option Slot.t; ci_audience : Audience.t; ci_stat : Stat.t; ci_ranks : list ItemRank;
  ci_floor_copper : option N; ci_icon : option string; ci_target_quantity : option N }.

Definition default_stat : Stat.t := Stat.None_.
Definition default_catalog_version : N := 1.

Definition icon_url (self : CatalogItem) : option string :=
  (fun slug => "https://render.worldofwarcraft.com/eu/icons/56/" +:+ slug) <$> ci_icon self.

Definition item_ids (self : CatalogItem) : list ItemId := ir_item_id <$> ci_ranks self.

Definition rank_of (self : CatalogItem) (item : ItemId) : option N :=
  ir_rank <$> find_first (fun r => bool_decide (ir_item_id r = item)) (ci_ranks self).

Definition display_name (self : CatalogItem) (item : ItemId) : string :=
  match rank_of self item with
  | Some rank => if decide (1 < length (ci_ranks self))%nat then ci_name self +:+ " (R" +:+ pretty rank +:+ ")" else ci_name self
  | None => ci_name self
  end.

Record ItemLevel := { il_item_level : N; il_upgrade : string }.
Record Patch := { p_patch : string; p_name : string; p_started : string }.
Record RaidTier := { t_id : string; t_name : string; t_patch : string; t_opened : string; t_season : option N }.

Definition i64_max : N := 9223372036854775807.

(** The pieces between dashes hold no sign but a plus, so reading the year as an
    [i64] is reading an unsigned number below 2^63. *)
Definition parse_date (value : string) : option Millis :=
  match split "-"%char value with
  | y :: m :: d :: _ =>
      year ← parse_uint i64_max y; month ← parse_u32 m; day ← parse_u32 d;
      if decide (1 <= month <= 12 /\ 1 <= day <= 31)
      then Some (from_utc_date (Z.of_N year) (Z.of_N month) (Z.of_N day)) else None
  | _ => None
  end.

Definition started_at (self : Patch) : Millis := default Millis_ZERO (parse_date (p_started self)).
Definition Patch_label (self : Patch) : string := p_patch self +:+ " — " +:+ p_name self.
Definition opened_at (self : RaidTier) : Millis := default Millis_ZERO (parse_date (t_opened self)).

(** ** A catalogue *)
Record Catalog := {
  c_id : string; c_expansion : string; c_status : CatalogStatus.t; c_version : N;
  c_patches : list Patch; c_raid_tiers : list RaidTier; c_items : list CatalogItem;
  c_item_levels : gmap string ItemLevel; c_tracks : gmap string Track.t; c_modifiers : gmap string string;
  c_notes : list string }.

Definition shipped_status (self : Catalog) : CatalogStatus.t := c_status self.
Definition current_tier (self : Catalog) : option RaidTier := max_by_key opened_at (c_raid_tiers self).
Definition tiers_of_patch (self : Catalog) (patch : string) : list RaidTier :=
  filter (fun t => t_patch t = patch) (c_raid_tiers self).

Definition season_label (self : Catalog) : string :=
  let label := match max_by_key started_at (c_patches self) with
               | Some patch => c_expansion self +:+ " " +:+ p_patch patch
               | None => c_expansion self
               end in
  match current_tier self with
  | None => label
  | Some tier =>
      match t_season tier with
      | Some season => label +:+ " — Season " +:+ pretty season +:+ " (" +:+ t_name tier +:+ ")"
      | None => label +:+ " — " +:+ t_name tier
      end
  end.

(** [problems], each with the texts its message is made of. *)
Inductive Problem :=
| PatchDate (patch started : string)
| TierDeclaredTwice (id : string) (count : N)
| TierDate (id opened : string)
| TierPatchMissing (id patch : string)
| TierBeforePatch (id opened patch started : string).

#[export] Instance Problem_eq_dec : EqDecision Problem.
Proof. solve_decision. Defined.

Definition string_cmp (s t : string) : comparison := String.compare s t.

(** [BTreeMap<&str, u32>] iterates in the order of its keys. *)
Definition tier_counts (self : Catalog) : gmap string N :=
  foldl (fun m t => <[t_id t := wrap 32 (default 0 (m !! t_id t) + 1)]> m) ∅ (c_raid_tiers self).

Definition tier_problem (self : Catalog) (tier : RaidTier) : list Problem :=
  match parse_date (t_opened tier) with
  | None => [TierDate (t_id tier) (t_opened tier)]
  | Some _ =>
      match find_first (fun p => bool_decide (p_patch p = t_patch tier)) (c_patches self) with
      | None => [TierPatchMissing (t_id tier) (t_patch tier)]
      | Some patch =>
          if decide (opened_at tier < started_at patch)
          then [TierBeforePatch (t_id tier) (t_opened tier) (p_patch patch) (p_started patch)] else []
      end
  end.

Definition problems (self : Catalog) : list Problem :=
  (c_patches self ≫= fun patch =>
     match parse_date (p_started patch) with None => [PatchDate (p_patch patch) (p_started patch)] | Some _ => [] end) ++
  (sort_by (fun x y => string_cmp x.1 y.1) (map_to_list (tier_counts self)) ≫= fun '(id, count) =>
     if decide (1 < count) then [TierDeclaredTwice id count] else []) ++
  (c_raid_tiers self ≫= tier_problem self).

Fixpoint windows_of (sorted : list Patch) : list (Patch * Millis * option Millis) :=
  match sorted with
  | [] => []
  | p :: rest => (p, started_at p, started_at <$> head rest) :: windows_of rest
  end.

Definition patch_windows (self : Catalog) : list (Patch * Millis * option Millis) :=
  windows_of (sort_by_key started_at (c_patches self)).

Definition minN (l : list N) : option N :=
  match l with [] => None | x :: l' => Some (foldl N.min x l') end.
Definition maxN (l : list N) : option N :=
  match l with [] => None | x :: l' => Some (foldl N.max x l') end.

Definition span_start (self : Catalog) : Millis := default Millis_ZERO (minN (started_at <$> c_patches self)).

Fixpoint dedup (l : list N) : list N :=
  match l with
  | x :: ((y :: _) as l') => if decide (x = y) then dedup l' else x :: dedup l'
  | _ => l
  end.

Definition ids_where (self : Catalog) (keep : ItemKind.t -> bool) : list ItemId :=
  dedup (sort_by_key id (filter (fun i => keep (ci_kind i) = true) (c_items self) ≫= item_ids)).

Definition tracked_ids (self : Catalog) : list ItemId := ids_where self ItemKind.is_commodity.
Definition realm_tracked_ids (self : Catalog) : list ItemId := ids_where self (fun k => negb (ItemKind.is_commodity k)).

(** Later items of the catalogue overwrite earlier ones. *)
Definition index_items {V} (f : CatalogItem -> V) (items : list CatalogItem) (m : gmap N V) : gmap N V :=
  foldl (fun m i => foldl (fun m id => <[id := f i]> m) m (item_ids i)) m items.
Definition index (self : Catalog) : gmap N CatalogItem := index_items (fun i => i) (c_items self) ∅.

Definition find_item (self : Catalog) (item : ItemId) : option CatalogItem :=
  find_first (fun i => bool_decide (is_Some (rank_of i item))) (c_items self).

Definition by_audience (self : Catalog) (audience : Audience.t) : list CatalogItem :=
  filter (fun i => ci_kind i = ItemKind.Consumable /\ ci_audience i = audience) (c_items self).
Definition of_kind (self : Catalog) (kind : ItemKind.t) : list CatalogItem :=
  filter (fun i => ci_kind i = kind) (c_items self).
Definition by_profession (self : Catalog) (profession : Profession.t) : list CatalogItem :=
  filter (fun i => ci_profession i = Some profession) (of_kind self ItemKind.Reagent).
Definition by_slot (self : Catalog) (slot : Slot.t) : list CatalogItem :=
  filter (fun i => ci_slot i = Some slot) (of_kind self ItemKind.Enchant).
Definition recipes_for (self : Catalog) (profession : Profession.t) : list CatalogItem :=
  filter (fun i => ci_profession i = Some profession) (of_kind self ItemKind.Recipe).

Definition item_level (self : Catalog) (bonus : N) : option ItemLevel := c_item_levels self !! (pretty bonus : string).
Definition track (self : Catalog) (bonus : N) : option Track.t := c_tracks self !! (pretty bonus : string).
Definition modifier (self : Catalog) (bonus : N) : option string := c_modifiers self !! (pretty bonus : string).

Definition bonuses (variant : string) : list N := omap parse_u32 (split ","%char variant).
Definition upgrade_in (self : Catalog) (variant : string) : option N :=
  find_first (fun id => bool_decide (is_Some (item_level self id))) (bonuses variant).
Definition rank_in (self : Catalog) (variant : string) : option ItemLevel :=
  b ← upgrade_in self variant; item_level self b.
Definition track_in (self : Catalog) (variant : string) : option Track.t :=
  match find_map (track self) (bonuses variant) with
  | Some t => Some t
  | None => l ← rank_in self variant; Track.parse (il_upgrade l)
  end.
Definition modifier_names (self : Catalog) (variant : string) : list string :=
  omap (modifier self) (bonuses variant).

Definition level_range (self : Catalog) (variants : list string) : string :=
  let levels := omap (fun v => il_item_level <$> rank_in self v) variants in
  match minN levels, maxN levels with
  | Some low, Some high => if decide (low = high) then pretty low else pretty low +:+ "–" +:+ pretty high
  | _, _ => ""
  end.

(** ** The set of catalogues *)
Record CatalogSet := { catalogs : list Catalog }.

Definition shipped_active (self : CatalogSet) : option Catalog :=
  find_first (fun c => CatalogStatus.is_active (c_status c)) (catalogs self).
Definition shipped_states (self : CatalogSet) : list (string * CatalogStatus.t) :=
  (fun c => (c_id c, c_status c)) <$> catalogs self.

Definition display_cmp (state_of : Catalog -> CatalogStatus.t) (a b : Catalog) : comparison :=
  cmp_then (bool_cmp (CatalogStatus.is_active (state_of b)) (CatalogStatus.is_active (state_of a)))
    (cmp_then (N.compare (span_start b) (span_start a)) (string_cmp (c_id a) (c_id b))).

Definition ordered_by (self : CatalogSet) (state_of : Catalog -> CatalogStatus.t) : list Catalog :=
  sort_by (display_cmp state_of) (catalogs self).
Definition by_id (self : CatalogSet) (id : string) : option Catalog :=
  find_first (fun c => bool_decide (c_id c = id)) (catalogs self).

Definition set_index (self : CatalogSet) : gmap N (Catalog * CatalogItem) :=
  foldl (fun m c => index_items (fun i => (c, i)) (c_items c) m) ∅ (catalogs self).

(** ** Laws *)
(** [iter().min()] and [iter().max()]. *)
Lemma minN_spec l m : minN l = Some m -> m ∈ l /\ forall x, x ∈ l -> m <= x.
Proof.
  destruct l as [|a l]; [done|]. cbn. intros [= <-]. induction l as [|b l IH] using rev_ind.
  - split; [left|]. by intros x ->%list_elem_of_singleton.
  - rewrite foldl_app. cbn [foldl]. destruct IH as [Hin Hle]. split.
    + rewrite app_comm_cons, elem_of_app, list_elem_of_singleton. destruct (N.min_spec (foldl N.min a l) b) as [[_ ->]|[_ ->]]; auto.
    + intros x. rewrite app_comm_cons, elem_of_app, list_elem_of_singleton. intros [Hx| ->]; [specialize (Hle x Hx)|]; lia.
Qed.

Lemma maxN_spec l m : maxN l = Some m -> m ∈ l /\ forall x, x ∈ l -> x <= m.
Proof.
  destruct l as [|a l]; [done|]. cbn. intros [= <-]. induction l as [|b l IH] using rev_ind.
  - split; [left|]. by intros x ->%list_elem_of_singleton.
  - rewrite foldl_app. cbn [foldl]. destruct IH as [Hin Hle]. split.
    + rewrite app_comm_cons, elem_of_app, list_elem_of_singleton. destruct (N.max_spec (foldl N.max a l) b) as [[_ ->]|[_ ->]]; auto.
    + intros x. rewrite app_comm_cons, elem_of_app, list_elem_of_singleton. intros [Hx| ->]; [specialize (Hle x Hx)|]; lia.
Qed.

Lemma minN_lower l x : x ∈ l -> exists m, minN l = Some m /\ m <= x.
Proof.
  intros Hx. destruct (minN l) as [m|] eqn:Hm; [|by destruct l; [apply not_elem_of_nil in Hx|]]. exists m. split; [done|].
  by apply minN_spec in Hm as [_ Hm]; apply Hm.
Qed.

Lemma maxN_upper l x : x ∈ l -> exists m, maxN l = Some m /\ x <= m.
Proof.
  intros Hx. destruct (maxN l) as [m|] eqn:Hm; [|by destruct l; [apply not_elem_of_nil in Hx|]]. exists m. split; [done|].
  by apply maxN_spec in Hm as [_ Hm]; apply Hm.
Qed.

Lemma Track_from_slug t : Track.from_slug (Track.slug t) = Some t.
Proof. by destruct t. Qed.

Lemma CatalogStatus_parse s : CatalogStatus.parse (CatalogStatus.as_str s) = Some s.
Proof. by destruct s. Qed.

(** What an index of items holds: the last entry of the catalogue that lists the id. *)
Lemma index_ids {V} (v : V) ids (m : gmap N V) id :
  foldl (fun m id => <[id := v]> m) m ids !! id = if decide (id ∈ ids) then Some v else m !! id.
Proof.
  revert m. induction ids as [|i ids IH]; intros m; [done|]. cbn. rewrite IH. repeat case_decide; try done.
  - exfalso. set_solver.
  - assert (id = i) as Hid by set_solver. by rewrite Hid, lookup_insert_eq.
  - rewrite lookup_insert_ne by set_solver. done.
Qed.

Lemma index_items_lookup {V} (f : CatalogItem -> V) items m id :
  index_items f items m !! id = match find_first (fun i => bool_decide (id ∈ item_ids i)) (reverse items) with
                                | Some i => Some (f i)
                                | None => m !! id
                                end.
Proof.
  revert m. induction items as [|i items IH] using rev_ind; intros m; [done|].
  unfold index_items. rewrite foldl_app. cbn. rewrite index_ids. rewrite reverse_app. cbn [reverse rev_append app].
  change (reverse [i] ++ reverse items) with (i :: reverse items). rewrite find_first_cons.
  fold (@index_items V). unfold index_items in IH. rewrite IH. case_decide as Hd.
  - by rewrite bool_decide_eq_true_2.
  - by rewrite bool_decide_eq_false_2.
Qed.

Lemma rank_of_is_Some i item : is_Some (rank_of i item) <-> item ∈ item_ids i.
Proof.
  unfold rank_of, item_ids. rewrite fmap_is_Some, list_elem_of_fmap. split.
  - intros [r [Hin Hr]%find_first_Some]. apply bool_decide_eq_true in Hr. eauto.
  - intros (r & -> & Hin). destruct (find_first _ _) as [r'|] eqn:Hf; [by eexists|].
    pose proof (find_first_None _ _ Hf r Hin) as Hr. cbv beta in Hr. by rewrite bool_decide_eq_true_2 in Hr.
Qed.

(** The patches' windows tile the time from the first patch on: every instant lies
    in the window of exactly one of them, where the start dates differ. *)
Lemma windows_of_cover sorted at_ :
  StronglySorted (fun x y => started_at x <= started_at y) sorted ->
  (exists p, head sorted = Some p /\ started_at p <= at_) ->
  exists w, w ∈ windows_of sorted /\ w.1.2 <= at_ /\ from_option (fun u => at_ < u) True w.2.
Proof.
  induction 1 as [|p ps Hs IH Hall]; [by intros (? & ? & ?)|]. intros (p' & [= <-] & Hle). cbn.
  destruct ps as [|q ps]; [eexists; split; [left|by split]|]. destruct (decide (at_ < started_at q)).
  - eexists. split; [left|]. by split.
  - destruct IH as (w & Hw & H1 & H2); [exists q; split; [done|lia]|]. exists w. split; [by right|by split].
Qed.

Lemma windows_of_disjoint sorted at_ w w' :
  StronglySorted (fun x y => started_at x <= started_at y) sorted ->
  w ∈ windows_of sorted -> w' ∈ windows_of sorted ->
  w.1.2 <= at_ -> from_option (fun u => at_ < u) True w.2 ->
  w'.1.2 <= at_ -> from_option (fun u => at_ < u) True w'.2 -> w.1.2 = w'.1.2.
Proof.
  assert (forall sorted w, w ∈ windows_of sorted -> w.1.1 ∈ sorted /\ w.1.2 = started_at w.1.1) as Hin.
  { clear. induction sorted as [|p ps IH]; intros w; [by intros ?%elem_of_nil|]. cbn.
    intros [->|Hw]%elem_of_cons; [split; [left|done]|]. destruct (IH w Hw). split; [by right|done]. }
  induction 1 as [|p ps Hs IH Hall]; [by intros ?%elem_of_nil|]. cbn. rewrite !elem_of_cons.
  assert (forall v, v ∈ windows_of ps -> v.1.2 <= at_ -> from_option (fun u => at_ < u) True (started_at <$> head ps) -> False) as Hex.
  { intros v Hv Hle Hlt. destruct (Hin _ _ Hv) as [Hv1 Hv2]. destruct ps as [|q ps]; [by apply elem_of_nil in Hv1|].
    cbn in Hlt. apply StronglySorted_inv in Hs as [_ Hq]. apply elem_of_cons in Hv1 as [Hv1|Hv1].
    - rewrite Hv2, Hv1 in Hle. lia.
    - rewrite Forall_forall in Hq. specialize (Hq _ Hv1). cbn in Hq. lia. }
  intros [->|Hw] [->|Hw'] H1 H2 H3 H4; cbn in *; [done|exfalso..|by apply IH].
  - by apply (Hex w').
  - by apply (Hex w).
Qed.
