(* ===== verification/Depth.v ===== *)
(** * Depth: the supply of one snapshot, and what it costs to take it

    Models [crates/app-core/src/market/depth.rs]: a [Ladder] groups the listings of
    a market by price, a [Curve] is a ladder at archive resolution, [fill] sweeps a
    ladder for a number of units, [Depth] is everything a page shows about a shelf,
    and ladders and depths have a stored text form.

    [u64] arithmetic wraps as in the release profile; the [u128] intermediate values
    cannot overflow and are plain [N].  The laws of ladders, curves and sweeps are in
    [DepthLaws]. *)
From Stdlib Require Import Ascii.
From stdpp Require Import prelude gmap sorting strings pretty.
From S2P Require Import Prelude Text Market Catalog.

Record Step := { s_price : Copper; s_quantity : N; s_cumulative : N }.

#[export] Instance Step_eq_dec : EqDecision Step.
Proof. solve_decision. Defined.

Record Ladder := { steps : list Step }.

Definition CURVE_BANDS : list N := [0; 1; 2; 5; 10; 20; 35; 50; 100; 200; 500; 1000].

Record Curve := { cv_cheapest : Copper; cv_cumulative : list N; cv_total : N; cv_levels : N }.

Definition Curve_default : Curve :=
  {| cv_cheapest := 0; cv_cumulative := replicate (length CURVE_BANDS) 0; cv_total := 0; cv_levels := 0 |}.

Definition SPARSE_STEPS : N := 5.
Definition WALL_SHARE : N := 20.

(** [a - b] on [u64] in the release profile. *)
Definition wsub (w a b : N) : N := wrap w (a + (2 ^ w - b)).

(** ** Curves *)
Definition Curve_is_sparse (self : Curve) : bool := bool_decide (cv_levels self < SPARSE_STEPS).

Definition position {A} (p : A -> bool) (l : list A) : option nat := fst <$> list_find (fun x => p x = true) l.

Definition Curve_quantity_within (self : Curve) (percent : N) : option N :=
  if decide (cv_cheapest self = Copper_ZERO) then None
  else match position (fun b => bool_decide (b = percent)) CURVE_BANDS with
  | Some i => Some (nth i (cv_cumulative self) 0)
  | None =>
      match position (fun b => bool_decide (percent < b)) CURVE_BANDS with
      | None => Some (cv_total self)
      | Some O => Some (nth 0 (cv_cumulative self) 0)
      | Some (S below) =>
          let lo := nth below CURVE_BANDS 0 in let hi := nth (S below) CURVE_BANDS 0 in
          let a := nth below (cv_cumulative self) 0 in let b := nth (S below) (cv_cumulative self) 0 in
          Some (wrap 64 (a + wrap 64 (wsub 64 b a * (percent - lo) / (hi - lo))))
      end
  end.

(** The price [ratio] percent above [base], in [u128] and back to [u64]. *)
Definition above (base ratio : N) : Copper := N.min (base * (100 + ratio) / 100) u64_max.

(** The bands in turn: the band before, and the units up to it. *)
Fixpoint curve_scan (base wanted lo below : N) (bands : list (N * N)) : option Copper :=
  match bands with
  | [] => None
  | (hi, units) :: rest =>
      if decide (units < wanted) then curve_scan base wanted hi units rest
      else
        let span := units - below in
        let into := wanted - below in
        let ratio := if decide (span = 0) then lo else lo + div_ceil ((hi - lo) * into) span in
        Some (above base ratio)
  end.

Definition Curve_supply_percentile (self : Curve) (percent : N) : option Copper :=
  if decide (Curve_is_sparse self = true \/ cv_total self = 0) then None
  else
    let wanted := wrap 64 (div_ceil (cv_total self * percent) 100) in
    match curve_scan (cv_cheapest self) wanted 0 0 (zip CURVE_BANDS (cv_cumulative self)) with
    | Some price => Some price
    | None => Some (above (cv_cheapest self) 1000)
    end.

(** ** Ladders *)
Definition add_units (m : gmap N N) (price quantity : N) : gmap N N :=
  <[price := wrap 64 (default 0 (m !! price) + quantity)]> m.

(** The running sum over the rungs, cheapest first. *)
Fixpoint accumulate (cumulative : N) (rungs : list (N * N)) : list Step :=
  match rungs with
  | [] => []
  | (price, quantity) :: rest =>
      let cumulative' := wrap 64 (cumulative + quantity) in
      {| s_price := price; s_quantity := quantity; s_cumulative := cumulative' |} :: accumulate cumulative' rest
  end.

Definition group_listings (listings : list Listing) (m : gmap N N) : gmap N N :=
  foldl (fun m l => if decide (l_quantity l = 0) then m else add_units m (unit_price l) (l_quantity l)) m listings.

Definition Ladder_of (listings : list Listing) : Ladder :=
  {| steps := accumulate 0 (entries (group_listings listings ∅)) |}.

Definition Ladder_is_empty (self : Ladder) : bool := bool_decide (steps self = []).

Definition merged (ladders : list Ladder) : Ladder :=
  {| steps := accumulate 0 (entries (foldl (fun m s => add_units m (s_price s) (s_quantity s)) ∅ (ladders ≫= steps))) |}.

Definition levels (self : Ladder) : N := N.of_nat (length (steps self)).
Definition total (self : Ladder) : N := match last (steps self) with Some s => s_cumulative s | None => 0 end.
Definition cheapest (self : Ladder) : option Copper := s_price <$> head (steps self).
Definition dearest (self : Ladder) : option Copper := s_price <$> last (steps self).
Definition is_sparse (self : Ladder) : bool := bool_decide (levels self < SPARSE_STEPS).

Definition quantity_upto (self : Ladder) (price : Copper) : N :=
  match partition_point (fun s => bool_decide (s_price s <= price)) (steps self) with
  | O => 0
  | S i => match steps self !! i with Some s => s_cumulative s | None => 0 end
  end.

Definition compact (self : Ladder) : Curve :=
  match cheapest self with
  | None => Curve_default
  | Some base =>
      {| cv_cheapest := base;
         cv_cumulative := (fun percent => quantity_upto self (above base percent)) <$> CURVE_BANDS;
         cv_total := total self; cv_levels := wrap 32 (levels self) |}
  end.

Definition quantity_within (self : Ladder) (percent : N) : option N :=
  base ← cheapest self; Some (quantity_upto self (above base percent)).

Definition supply_percentile (self : Ladder) (percent : N) : option Copper :=
  if is_sparse self then None
  else if decide (total self = 0) then None
  else
    let target := N.max (div_ceil (wrap 64 (total self * percent)) 100) 1 in
    match find_first (fun s => bool_decide (target <= s_cumulative s)) (steps self) with
    | Some s => Some (s_price s)
    | None => dearest self
    end.

(** ** Sweeping *)
Record Fill := {
  f_wanted : N; f_filled : N; f_complete : bool; f_total_cost : Copper; f_average_unit : Copper;
  f_clearing_price : Copper; f_impact_percent : N }.

#[export] Instance Fill_eq_dec : EqDecision Fill.
Proof. solve_decision. Defined.

Fixpoint sweep (wanted filled cost : N) (clearing : Copper) (rungs : list Step) : N * N * Copper :=
  match rungs with
  | [] => (filled, cost, clearing)
  | step :: rest =>
      if decide (wanted <= filled) then (filled, cost, clearing)
      else
        let take := N.min (s_quantity step) (wanted - filled) in
        sweep wanted (filled + take) (cost + take * s_price step) (s_price step) rest
  end.

(** [as u32] of an [i128]. *)
Definition i128_as_u32 (z : Z) : N := Z.to_N (z mod 2 ^ 32)%Z.

Definition fill (self : Ladder) (wanted : N) : Fill :=
  let base := default Copper_ZERO (cheapest self) in
  let '(filled, cost, clearing) := sweep wanted 0 0 base (steps self) in
  let average := if decide (filled = 0) then Copper_ZERO else wrap 64 (cost / filled) in
  {| f_wanted := wanted; f_filled := filled; f_complete := bool_decide (filled = wanted);
     f_total_cost := N.min cost u64_max; f_average_unit := average; f_clearing_price := clearing;
     f_impact_percent :=
       if decide (base = 0 \/ filled = 0) then 0
       else i128_as_u32 (Z.quot ((Z.of_N average - Z.of_N base) * 100) (Z.of_N base)) |}.

(** ** Walls *)
Record Wall := { w_price : Copper; w_quantity : N; w_share_percent : N }.

#[export] Instance Wall_eq_dec : EqDecision Wall.
Proof. solve_decision. Defined.

Definition wall_of (total : N) (step : Step) : option Wall :=
  let share := wrap 32 (s_quantity step * 100 / total) in
  if decide (WALL_SHARE <= share)
  then Some {| w_price := s_price step; w_quantity := s_quantity step; w_share_percent := share |} else None.

Definition walls (self : Ladder) : list Wall :=
  if is_sparse self then []
  else if decide (total self = 0) then []
  else omap (wall_of (total self)) (steps self).

(** ** The stored forms *)
Definition encode_rung (s : Step) : string := pretty (s_price s) +:+ String ":"%char (pretty (s_quantity s)).
Definition Ladder_encode (self : Ladder) : string := join ","%char (encode_rung <$> steps self).

Fixpoint decode_rungs (cumulative : N) (rungs : list string) : list Step :=
  match rungs with
  | [] => []
  | rung :: rest =>
      match ('(p, q) ← split_once ":"%char rung;
             price ← parse_u64 p; quantity ← parse_u64 q;
             if decide (0 < price /\ 0 < quantity) then Some (price, quantity) else None) with
      | None => decode_rungs cumulative rest
      | Some (price, quantity) =>
          let cumulative' := wrap 64 (cumulative + quantity) in
          {| s_price := price; s_quantity := quantity; s_cumulative := cumulative' |} :: decode_rungs cumulative' rest
      end
  end.

Definition Ladder_decode (raw : string) : Ladder :=
  match raw with
  | EmptyString => {| steps := [] |}
  | _ => {| steps := decode_rungs 0 (split ","%char raw) |}
  end.

(** ** Targets *)
Definition Target_of (kind : ItemKind.t) : N :=
  match kind with
  | ItemKind.Consumable => 20
  | ItemKind.Reagent => 200
  | ItemKind.Enchant => 5
  | ItemKind.Gem => 5
  | ItemKind.Boe | ItemKind.Recipe => 1
  end.

Definition target (self : CatalogItem) : N := default (Target_of (ci_kind self)) (ci_target_quantity self).

(** ** The depth of one market *)
Record Depth := {
  d_levels : N; d_total : N; d_cheapest : Copper; d_p25 : option Copper; d_p50 : option Copper;
  d_within_5 : option N; d_within_20 : option N; d_target : N; d_fill : Fill; d_walls : list Wall; d_sparse : bool }.

Definition unless_sparse (self : Ladder) (o : option N) : option N := if is_sparse self then None else o.

Definition Depth_of (ladder : Ladder) (target : N) : option Depth :=
  base ← cheapest ladder;
  Some {| d_levels := wrap 32 (levels ladder); d_total := total ladder; d_cheapest := base;
          d_p25 := supply_percentile ladder 25; d_p50 := supply_percentile ladder 50;
          d_within_5 := unless_sparse ladder (quantity_within ladder 5);
          d_within_20 := unless_sparse ladder (quantity_within ladder 20);
          d_target := target; d_fill := fill ladder target; d_walls := walls ladder;
          d_sparse := is_sparse ladder |}.

Definition opt (value : option N) : string := match value with Some v => pretty v | None => "" end.

Definition encode_wall (w : Wall) : string :=
  join ":"%char [pretty (w_price w); pretty (w_quantity w); pretty (w_share_percent w)].

Definition Depth_fields (self : Depth) : list string :=
  [pretty (d_levels self); pretty (d_total self); pretty (d_cheapest self);
   opt (d_p25 self); opt (d_p50 self); opt (d_within_5 self); opt (d_within_20 self);
   pretty (d_target self); pretty (f_filled (d_fill self)); pretty (f_total_cost (d_fill self));
   pretty (f_average_unit (d_fill self)); pretty (f_clearing_price (d_fill self));
   pretty (f_impact_percent (d_fill self))].

Definition Depth_encode (self : Depth) : string :=
  join "|"%char (Depth_fields self ++ (encode_wall <$> d_walls self)).

Definition read_opt (field : string) : option (option N) :=
  match field with EmptyString => Some None | _ => Some <$> parse_u64 field end.

Definition decode_wall (wall : string) : option Wall :=
  match split ":"%char wall with
  | p :: q :: s :: _ =>
      price ← parse_u64 p; quantity ← parse_u64 q; share ← parse_u32 s;
      Some {| w_price := price; w_quantity := quantity; w_share_percent := share |}
  | _ => None
  end.

Definition Depth_decode (raw : string) : option Depth :=
  match split "|"%char raw with
  | f1 :: f2 :: f3 :: f4 :: f5 :: f6 :: f7 :: f8 :: f9 :: f10 :: f11 :: f12 :: f13 :: rest =>
      levels ← wrap 32 <$> parse_u64 f1; total ← parse_u64 f2; base ← parse_u64 f3;
      p25 ← read_opt f4; p50 ← read_opt f5; within_5 ← read_opt f6; within_20 ← read_opt f7;
      tgt ← parse_u64 f8; filled ← parse_u64 f9; total_cost ← parse_u64 f10;
      average_unit ← parse_u64 f11; clearing_price ← parse_u64 f12; impact_percent ← wrap 32 <$> parse_u64 f13;
      Some {| d_levels := levels; d_total := total; d_cheapest := base; d_p25 := p25; d_p50 := p50;
              d_within_5 := within_5; d_within_20 := within_20; d_target := tgt;
              d_fill := {| f_wanted := tgt; f_filled := filled; f_complete := bool_decide (filled = tgt);
                           f_total_cost := total_cost; f_average_unit := average_unit;
                           f_clearing_price := clearing_price; f_impact_percent := impact_percent |};
              d_walls := omap decode_wall rest;
              d_sparse := bool_decide (levels < SPARSE_STEPS) |}
  | _ => None
  end.
