(* ===== verification/DepthLaws.v ===== *)
(** * DepthLaws: what ladders, sweeps and curves answer

    A ladder built from listings holds exactly their supply: the units at or below a
    price, the supply percentiles (the very ones [Market.summarise] computes) and the
    cheapest way to buy a number of units.  The archive curve keeps the band edges
    exactly, and the stored forms read back. *)
From Stdlib Require Import Ascii.
From stdpp Require Import prelude gmap sorting strings pretty.
From S2P Require Import Prelude Text Market Catalog Depth.

(** ** Sums over a grouping *)
Definition map_sum (f : N -> N) (m : gmap N N) : N := sumN ((fun kv => f kv.1 * kv.2) <$> map_to_list m).
Definition listings_sum (f : N -> N) (l : list Listing) : N := sumN ((fun x => f (unit_price x) * l_quantity x) <$> l).

Lemma map_sum_insert f m k v : m !! k = None -> map_sum f (<[k := v]> m) = f k * v + map_sum f m.
Proof. intros Hk. unfold map_sum. by rewrite map_to_list_insert. Qed.

Lemma map_sum_add f m p q :
  default 0 (m !! p) + q < 2 ^ 64 -> map_sum f (add_units m p q) = map_sum f m + f p * q.
Proof.
  intros Hfit. unfold add_units. rewrite wrap_small by done. destruct (m !! p) as [x|] eqn:Hp; cbn in *.
  - rewrite <- insert_delete_eq, map_sum_insert by apply lookup_delete_eq.
    rewrite <- (insert_delete_id m p x) at 2 by done. rewrite map_sum_insert by apply lookup_delete_eq. lia.
  - rewrite map_sum_insert by done. lia.
Qed.

Lemma map_sum_lookup m k v : m !! k = Some v -> v <= map_sum (fun _ => 1) m.
Proof.
  intros Hk. rewrite <- (insert_delete_id m k v) by done. rewrite map_sum_insert by apply lookup_delete_eq. lia.
Qed.

Lemma listings_sum_1 l : listings_sum (fun _ => 1) l = supply l.
Proof. unfold listings_sum, supply. f_equal. apply list_fmap_ext. intros. lia. Qed.

Lemma listings_sum_cons f x l : listings_sum f (x :: l) = f (unit_price x) * l_quantity x + listings_sum f l.
Proof. done. Qed.

Lemma listings_sum_upto l p : listings_sum (fun x => if decide (x <= p) then 1 else 0) l = supply_upto l p.
Proof.
  induction l as [|x l IH]; [done|]. rewrite listings_sum_cons, supply_upto_cons, IH. case_decide; lia.
Qed.

(** Grouping loses nothing: any price-weighted sum over the rungs is the one over
    the listings. *)
Lemma group_listings_sum l m :
  map_sum (fun _ => 1) m + supply l < 2 ^ 64 ->
  forall f, map_sum f (group_listings l m) = map_sum f m + listings_sum f l.
Proof.
  revert m. induction l as [|x l IH]; intros m Hfit f; [unfold listings_sum; cbn; lia|].
  change (supply (x :: l)) with (l_quantity x + supply l) in Hfit. rewrite listings_sum_cons.
  cbn [group_listings foldl]. fold (group_listings l). case_decide as H0.
  - unfold group_listings in *. rewrite IH by lia. rewrite H0. lia.
  - assert (default 0 (m !! unit_price x) <= map_sum (fun _ => 1) m) as Hd.
    { destruct (m !! unit_price x) eqn:Hx; cbn; [by eapply map_sum_lookup|lia]. }
    unfold group_listings in *. rewrite IH; rewrite !map_sum_add by lia; lia.
Qed.

(** Every rung holds units, at a price of some listing. *)
Definition rungs_ok (m : gmap N N) (l : list Listing) : Prop :=
  forall p q, m !! p = Some q -> 0 < q < 2 ^ 64 /\ exists x, x ∈ l /\ unit_price x = p /\ 0 < l_quantity x.

Lemma group_listings_ok l l0 m :
  map_sum (fun _ => 1) m + supply l < 2 ^ 64 -> rungs_ok m l0 -> rungs_ok (group_listings l m) (l0 ++ l).
Proof.
  revert l0 m. induction l as [|x l IH]; intros l0 m Hfit Hok; [by rewrite app_nil_r|].
  change (supply (x :: l)) with (l_quantity x + supply l) in Hfit.
  cbn [group_listings foldl]. fold (group_listings l). replace (l0 ++ x :: l) with ((l0 ++ [x]) ++ l) by (by rewrite <- app_assoc).
  unfold group_listings in *. case_decide as H0.
  - apply IH; [lia|]. intros p q Hp. destruct (Hok p q Hp) as (Hq & y & Hy & ?). split; [done|]. exists y. split; [by apply elem_of_app; left|done].
  - assert (default 0 (m !! unit_price x) <= map_sum (fun _ => 1) m) as Hd.
    { destruct (m !! unit_price x) eqn:Hx; cbn; [by eapply map_sum_lookup|lia]. }
    apply IH; [rewrite map_sum_add by lia; lia|]. unfold add_units. rewrite wrap_small by lia.
    intros p q [[<- <-]|[Hne Hp]]%lookup_insert_Some.
    + split; [lia|]. exists x. split; [set_solver|]. split; [done|lia].
    + destruct (Hok p q Hp) as (Hq & y & Hy & ?). split; [done|]. exists y. split; [by apply elem_of_app; left|done].
Qed.

(** ** Rungs as listings *)
Definition rung_listing (r : N * N) : Listing := {| l_item := 0; unit_price := r.1; l_quantity := r.2 |}.

Lemma rung_sum f m : listings_sum f (rung_listing <$> entries m) = map_sum f m.
Proof. unfold listings_sum, map_sum. rewrite <- list_fmap_compose. by rewrite entries_perm. Qed.

Lemma rung_sorted m : StronglySorted by_price (rung_listing <$> entries m).
Proof.
  pose proof (entries_sorted m) as Hs. induction Hs as [|r l Hs IH Hall]; constructor; [done|].
  apply Forall_fmap. eapply Forall_impl; [exact Hall|]. intros r' Hr. exact Hr.
Qed.

Section OfListings.
Context (l : list Listing) (Hfit : supply l < 2 ^ 64).

Let m := group_listings l ∅.
Let rungs := entries m.

Lemma of_sum f : listings_sum f (rung_listing <$> rungs) = listings_sum f l.
Proof. unfold rungs. rewrite rung_sum. unfold m. rewrite group_listings_sum; [done|]. unfold map_sum. rewrite map_to_list_empty. cbn. lia. Qed.

Lemma of_supply : supply (rung_listing <$> rungs) = supply l.
Proof. rewrite <- !listings_sum_1. apply of_sum. Qed.

Lemma of_supply_upto p : supply_upto (rung_listing <$> rungs) p = supply_upto l p.
Proof. rewrite <- !listings_sum_upto. apply of_sum. Qed.

Lemma of_rung p q : (p, q) ∈ rungs -> 0 < q < 2 ^ 64 /\ exists x, x ∈ l /\ unit_price x = p /\ 0 < l_quantity x.
Proof.
  intros Hin%elem_of_entries. revert Hin. apply (group_listings_ok l [] ∅).
  - unfold map_sum. rewrite map_to_list_empty. cbn. lia.
  - intros p' q' Hp'. by rewrite lookup_empty in Hp'.
Qed.

Lemma of_prices_sorted : StronglySorted N.lt (rungs.*1).
Proof. apply keys_sorted. Qed.
End OfListings.

(** ** The running sum *)
Lemma accumulate_pairs c r : (fun s => (s_price s, s_quantity s)) <$> accumulate c r = r.
Proof. revert c. induction r as [|[p q] r IH]; intros c; [done|]. cbn. by rewrite IH. Qed.

Lemma length_accumulate c r : length (accumulate c r) = length r.
Proof. rewrite <- (accumulate_pairs c r) at 2. by rewrite length_fmap. Qed.

Lemma accumulate_last c r :
  c + supply (rung_listing <$> r) < 2 ^ 64 -> r <> [] ->
  s_cumulative <$> last (accumulate c r) = Some (c + supply (rung_listing <$> r)).
Proof.
  revert c. induction r as [|[p q] r IH]; intros c Hfit Hne; [done|].
  change (supply (rung_listing <$> (p, q) :: r)) with (q + supply (rung_listing <$> r)) in *.
  cbn [accumulate]. rewrite wrap_small by lia. destruct r as [|r0 r]; [unfold supply in *; cbn in *; f_equal; lia|].
  destruct (accumulate (c + q) (r0 :: r)) as [|s k] eqn:Hk; [by destruct r0|].
  change (last (?a :: s :: k)) with (last (s :: k)). rewrite <- Hk, IH; [f_equal; lia|lia|done].
Qed.

Lemma total_of l : supply l < 2 ^ 64 -> total (Ladder_of l) = supply l.
Proof.
  intros Hfit. unfold total, Ladder_of. cbn [steps]. set (r := entries _).
  pose proof (of_supply l Hfit) as Hs. fold r in Hs. destruct (decide (r = [])) as [H0|H0].
  - rewrite H0 in Hs |- *. cbn. unfold supply at 1 in Hs. cbn in Hs. done.
  - pose proof (accumulate_last 0 r ltac:(lia) H0) as Hl. destruct (last (accumulate 0 r)); [|done].
    injection Hl as Hl. lia.
Qed.

(** Looking a target up in the running sum is the scan of the listings. *)
Lemma accumulate_find c r t :
  s_price <$> find_first (fun s => bool_decide (t <= s_cumulative s)) (accumulate c r) = quantile_scan t c (rung_listing <$> r).
Proof.
  revert c. induction r as [|[p q] r IH]; intros c; [done|]. cbn [accumulate fmap list_fmap quantile_scan].
  rewrite find_first_cons. cbn [s_cumulative rung_listing l_quantity unit_price fst snd]. case_decide.
  - by rewrite bool_decide_eq_true_2.
  - rewrite bool_decide_eq_false_2 by done. apply IH.
Qed.

Lemma upto_step c r p :
  StronglySorted N.lt (r.*1) -> c + supply (rung_listing <$> r) < 2 ^ 64 ->
  match partition_point (fun s => bool_decide (s_price s <= p)) (accumulate c r) with
  | O => supply_upto (rung_listing <$> r) p = 0
  | S i => exists s, accumulate c r !! i = Some s /\ s_cumulative s = c + supply_upto (rung_listing <$> r) p
  end.
Proof.
  revert c. induction r as [|[p0 q0] r IH]; intros c Hs Hfit; [done|].
  rewrite fmap_cons in Hs. apply StronglySorted_inv in Hs as [Hs Hall]. cbn [fst] in Hall.
  rewrite fmap_cons in *. change (supply (rung_listing (p0, q0) :: ?k)) with (q0 + supply k) in Hfit.
  rewrite supply_upto_cons. cbn [rung_listing unit_price l_quantity fst snd accumulate partition_point s_price].
  rewrite wrap_small by lia. case_decide as Hp.
  - rewrite bool_decide_eq_true_2 by done. specialize (IH (c + q0) Hs ltac:(lia)).
    destruct (partition_point _ (accumulate (c + q0) r)) as [|i].
    + eexists. split; [done|]. cbn [s_cumulative]. lia.
    + destruct IH as (s & Hi & Hc). exists s. split; [done|]. lia.
  - rewrite bool_decide_eq_false_2 by done. rewrite supply_upto_0; [done|].
    apply Forall_fmap, Forall_forall. intros [p' q'] Hin. rewrite Forall_forall in Hall.
    specialize (Hall p' ltac:(by apply (list_elem_of_fmap_2 fst _ (p', q')))). cbn. lia.
Qed.

(** Units at or below a price, from the ladder. *)
Lemma quantity_upto_of l p : supply l < 2 ^ 64 -> quantity_upto (Ladder_of l) p = supply_upto l p.
Proof.
  intros Hfit. unfold quantity_upto, Ladder_of. cbn [steps]. set (r := entries (group_listings l ∅)).
  pose proof (of_supply l Hfit) as Hsup. fold r in Hsup.
  pose proof (upto_step 0 r p (of_prices_sorted l) ltac:(lia)) as Hst.
  pose proof (of_supply_upto l Hfit p) as Hup. fold r in Hup. rewrite Hup in Hst.
  destruct (partition_point _ _) as [|i]; [done|]. destruct Hst as (s & -> & Hc). lia.
Qed.

(** The percentile of the ladder is the percentile of the listings. *)
Lemma supply_percentile_of l percent :
  percent <= 100 -> supply l * percent < 2 ^ 64 -> supply l < 2 ^ 64 -> is_sparse (Ladder_of l) = false -> 0 < supply l ->
  exists p, supply_percentile (Ladder_of l) percent = Some p /\ consumed_at l (share (supply l) percent) p.
Proof.
  intros Hpc Hfit' Hfit Hsp Hpos. unfold supply_percentile. rewrite Hsp, (total_of l Hfit), decide_False by lia.
  rewrite wrap_small by done. fold (share (supply l) percent). cbv zeta. fold (share (supply l) percent).
  set (r := entries (group_listings l ∅)). pose proof (of_supply l Hfit) as Hsup. fold r in Hsup.
  pose proof (share_bounds (supply l) percent Hpos Hpc) as Hsh.
  destruct (quantile_scan_spec (share (supply l) percent) 0 (rung_listing <$> r)) as (c & Hc & Hin & Hge & Hlt);
    [apply rung_sorted|lia..|]. rewrite <- accumulate_find in Hc.
  change (steps (Ladder_of l)) with (accumulate 0 r).
  apply fmap_Some in Hc as (s & -> & ->). exists (s_price s). split; [done|].
  split; [|split].
  - apply list_elem_of_fmap in Hin as (x & Ex & (r0 & -> & Hr0)%list_elem_of_fmap). destruct r0 as [p q].
    cbn in Ex. rewrite Ex. destruct (of_rung l Hfit p q Hr0) as (_ & x & Hx & <- & _). by apply list_elem_of_fmap_2.
  - pose proof (of_supply_upto l Hfit (s_price s)) as Hu. fold r in Hu. lia.
  - intros p Hp. specialize (Hlt p Hp). pose proof (of_supply_upto l Hfit p) as Hu. fold r in Hu. lia.
Qed.

(** ** Buying

    A purchase takes some units of each listing, no more than it offers. *)
Definition purchase (l : list Listing) (plan : list N) : Prop := Forall2 (fun x t => t <= l_quantity x) l plan.
Definition units (plan : list N) : N := sumN plan.
Definition cost (l : list Listing) (plan : list N) : N := sumN (zip_with (fun x t => t * unit_price x) l plan).

Definition below (c p : N) : N := if decide (p < c) then 1 else 0.
Definition at_price (c p : N) : N := if decide (p = c) then 1 else 0.
Definition below_cost (c p : N) : N := if decide (p < c) then p else 0.

Lemma price_lt c p : p < c -> below c p = 1 /\ at_price c p = 0 /\ below_cost c p = p.
Proof. intros H. unfold below, at_price, below_cost. repeat case_decide; lia. Qed.

Lemma price_eq c : below c c = 0 /\ at_price c c = 1 /\ below_cost c c = 0.
Proof. unfold below, at_price, below_cost. repeat case_decide; lia. Qed.

Lemma price_gt c p : c < p -> below c p = 0 /\ at_price c p = 0 /\ below_cost c p = 0.
Proof. intros H. unfold below, at_price, below_cost. repeat case_decide; lia. Qed.

(** Taking everything below a price and some of what is offered at it. *)
Lemma purchase_exists l c r :
  r <= listings_sum (at_price c) l ->
  exists plan, purchase l plan /\ units plan = listings_sum (below c) l + r /\
    cost l plan = listings_sum (below_cost c) l + r * c.
Proof.
  revert r. induction l as [|x l IH]; intros r Hr; rewrite ?listings_sum_cons in *.
  { exists []. unfold listings_sum in *. cbn in *. split; [constructor|]. lia. }
  destruct (N.lt_trichotomy (unit_price x) c) as [Hp|[Hp|Hp]].
  - destruct (price_lt c _ Hp) as (E1 & E2 & E3). rewrite E1, E3. rewrite E2 in Hr.
    destruct (IH r ltac:(lia)) as (plan & Hv & Hu & Hc). exists (l_quantity x :: plan). split_and!.
    + by constructor.
    + unfold units in *. rewrite sumN_cons, Hu. lia.
    + unfold cost in *. cbn [zip_with]. rewrite sumN_cons, Hc. lia.
  - destruct (price_eq c) as (E1 & E2 & E3). rewrite Hp, E1, E3. rewrite Hp, E2 in Hr.
    destruct (IH (r - N.min r (l_quantity x)) ltac:(lia)) as (plan & Hv & Hu & Hc).
    exists (N.min r (l_quantity x) :: plan). split_and!.
    + constructor; [lia|done].
    + unfold units in *. rewrite sumN_cons, Hu. lia.
    + unfold cost in *. cbn [zip_with]. rewrite sumN_cons, Hc, Hp.
      assert (r * c = N.min r (l_quantity x) * c + (r - N.min r (l_quantity x)) * c) as ->
        by (rewrite <- N.mul_add_distr_r; f_equal; lia). lia.
  - destruct (price_gt c _ Hp) as (E1 & E2 & E3). rewrite E1, E3. rewrite E2 in Hr.
    destruct (IH r ltac:(lia)) as (plan & Hv & Hu & Hc). exists (0 :: plan). split_and!.
    + constructor; [lia|done].
    + unfold units in *. rewrite sumN_cons, Hu. lia.
    + unfold cost in *. cbn [zip_with]. rewrite sumN_cons, Hc. lia.
Qed.

(** No purchase of as many units is cheaper: weigh every unit against the clearing
    price. *)
Lemma purchase_bound l c plan :
  purchase l plan ->
  units plan * c + listings_sum (below_cost c) l <= cost l plan + listings_sum (below c) l * c.
Proof.
  intros Hp. unfold units, cost. induction Hp as [|x t l plan Ht Hp IH]; [unfold listings_sum; cbn; lia|].
  cbn [zip_with]. rewrite !sumN_cons, !listings_sum_cons. unfold below, below_cost in *. case_decide; nia.
Qed.

(** Rungs above a price weigh nothing against it. *)
Lemma dear_rungs c r :
  Forall (N.lt c) (r.*1) -> let L := rung_listing <$> r in
  listings_sum (below c) L = 0 /\ listings_sum (at_price c) L = 0 /\ listings_sum (below_cost c) L = 0.
Proof.
  intros Hall L. unfold L. induction r as [|[p q] r IH]; [done|]. rewrite fmap_cons in Hall. apply Forall_cons in Hall as [Hp Hall].
  rewrite fmap_cons, !listings_sum_cons. destruct (IH Hall) as (-> & -> & ->).
  change (unit_price (rung_listing (p, q))) with p. destruct (price_gt c p Hp) as (-> & -> & ->). lia.
Qed.

(** What a sweep over sorted rungs does: everything below the clearing price, and
    some of what is offered at it. *)
Lemma sweep_spec wanted r : forall filled c0 cl cum,
  StronglySorted N.lt (r.*1) -> Forall (fun x => 0 < x.2) r -> filled < wanted -> r <> [] ->
  let L := rung_listing <$> r in
  exists c k, c ∈ r.*1 /\
    sweep wanted filled c0 cl (accumulate cum r) =
      (N.min wanted (filled + supply L), c0 + listings_sum (below_cost c) L + k * c, c) /\
    k <= listings_sum (at_price c) L /\ N.min wanted (filled + supply L) = filled + listings_sum (below c) L + k.
Proof.
  induction r as [|[p q] r IH]; intros filled c0 cl cum Hs Hq Hlt Hne L; [done|].
  rewrite fmap_cons in Hs. apply StronglySorted_inv in Hs as [Hs Hall]. apply Forall_cons in Hq as [Hq0 Hq]. cbn in Hq0.
  change L with (rung_listing (p, q) :: (rung_listing <$> r)). set (L' := rung_listing <$> r).
  change (supply (rung_listing (p, q) :: L')) with (q + supply L').
  cbn [accumulate sweep s_quantity s_price]. rewrite decide_False by lia.
  destruct (decide (wanted <= filled + q \/ r = [])) as [Hdone|Hmore].
  - exists p, (N.min q (wanted - filled)). rewrite !listings_sum_cons.
    change (unit_price (rung_listing (p, q))) with p. change (l_quantity (rung_listing (p, q))) with q.
    destruct (price_eq p) as (-> & -> & ->), (dear_rungs p r Hall) as (D1 & D2 & D3). fold L' in D1, D2, D3. rewrite D1, D2, D3.
    assert (N.min wanted (filled + (q + supply L')) = filled + N.min q (wanted - filled)) as ->.
    { destruct Hdone as [Hdone|Hr]; [lia|]. unfold L'. rewrite Hr. unfold supply. cbn. lia. }
    split_and!; [left| |lia|lia]. destruct Hdone as [Hdone| ->]; [|cbn; do 2 f_equal; lia].
    destruct (accumulate _ r); cbn; rewrite ?decide_True by lia; do 2 f_equal; lia.
  - replace (N.min q (wanted - filled)) with q by lia.
    destruct (IH (filled + q) (c0 + q * p) p (wrap 64 (cum + q)) Hs Hq ltac:(lia) ltac:(tauto)) as (c & k & Hin & Hsw & Hk & HF).
    fold L' in Hsw, Hk, HF. exists c, k. assert (p < c) as Hpc by (rewrite Forall_forall in Hall; by apply Hall).
    rewrite Hsw, !listings_sum_cons.
    change (unit_price (rung_listing (p, q))) with p. change (l_quantity (rung_listing (p, q))) with q.
    destruct (price_lt c p Hpc) as (-> & -> & ->). split_and!; [by right| |lia|lia]. do 2 f_equal; lia.
Qed.

(** The exact cost of a sweep is the least any purchase of as many units has. *)
Lemma sweep_cheapest l wanted :
  supply l < 2 ^ 64 -> exists plan c,
    sweep wanted 0 0 (default 0 (cheapest (Ladder_of l))) (steps (Ladder_of l)) = (N.min wanted (supply l), cost l plan, c) /\
    purchase l plan /\ units plan = N.min wanted (supply l) /\
    forall plan', purchase l plan' -> N.min wanted (supply l) <= units plan' -> cost l plan <= cost l plan'.
Proof.
  intros Hfit. set (base := default 0 _). change (steps (Ladder_of l)) with (accumulate 0 (entries (group_listings l ∅))).
  pose proof (of_supply l Hfit) as Hsup. pose proof (of_sum l Hfit) as Hsum. set (r := entries (group_listings l ∅)) in *.
  destruct (decide (wanted = 0 \/ r = [])) as [H0|H0].
  - assert (N.min wanted (supply l) = 0) as Hz.
    { destruct H0 as [->|Hr]; [lia|]. rewrite <- Hsup, Hr. unfold supply. cbn. lia. }
    destruct (purchase_exists l 0 0 ltac:(lia)) as (plan & Hv & Hu & Hc).
    assert (forall f, (forall p, f p = 0) -> listings_sum f l = 0) as Hf0.
    { intros f Hf. unfold listings_sum. induction l as [|x k IH]; [done|]. rewrite fmap_cons, sumN_cons, Hf. clear -IH Hf.
      assert (sumN ((fun x => f (unit_price x) * l_quantity x) <$> k) = 0) as ->; [|lia].
      clear IH. induction k as [|y k IH]; [done|]. rewrite fmap_cons, sumN_cons, Hf, IH. lia. }
    rewrite Hf0 in Hu, Hc by (intros p; unfold below, below_cost; by case_decide; [lia|]).
    exists plan, base. rewrite Hz, Hc. split_and!; [|done|lia|lia].
    destruct H0 as [-> | ->]; [|done]. by destruct (accumulate 0 r).
  - destruct (sweep_spec wanted r 0 0 base 0) as (c & k & _ & Hsw & Hk & HF);
      [apply of_prices_sorted| |lia|tauto|].
    { apply Forall_forall. intros [p q] Hin. apply (of_rung l Hfit) in Hin as [Hq _]. cbn. lia. }
    rewrite Hsup, !Hsum, N.add_0_l in *. destruct (purchase_exists l c k Hk) as (plan & Hv & Hu & Hc).
    exists plan, c. rewrite Hsw. split_and!; [by rewrite Hc|done|lia|]. intros plan' Hp' Hle.
    pose proof (purchase_bound l c plan' Hp') as Hb.
    assert ((listings_sum (below c) l + k) * c <= units plan' * c) by (apply N.mul_le_mono_r; lia). lia.
Qed.

(** C35: Sweeping a market's ladder buys the wanted units, or every unit there is,
    and no way of buying as many units from the listings costs less. *)
Theorem fill_cheapest l wanted :
  supply l < 2 ^ 64 ->
  let f := fill (Ladder_of l) wanted in
  f_filled f = N.min wanted (supply l) /\ f_complete f = bool_decide (wanted <= supply l) /\
  exists plan, purchase l plan /\ units plan = f_filled f /\ f_total_cost f = N.min (cost l plan) u64_max /\
    forall plan', purchase l plan' -> f_filled f <= units plan' -> cost l plan <= cost l plan'.
Proof.
  intros Hfit. cbv zeta. destruct (sweep_cheapest l wanted Hfit) as (plan & c & Hsw & Hv & Hu & Hmin).
  unfold fill. change Copper_ZERO with 0. rewrite Hsw. cbn [f_filled f_complete f_total_cost]. split_and!; [done| |eauto].
  apply bool_decide_ext. lia.
Qed.

Definition demo_listings : list Listing :=
  [{| l_item := 1; unit_price := 500; l_quantity := 3 |}; {| l_item := 1; unit_price := 400; l_quantity := 2 |};
   {| l_item := 1; unit_price := 900; l_quantity := 10 |}; {| l_item := 1; unit_price := 400; l_quantity := 1 |}].

(** Five of the sixteen units: three at 400 and two at 500. *)
Lemma fill_cheapest_witness :
  f_total_cost (fill (Ladder_of demo_listings) 5) = 2200 /\
  exists plan, purchase demo_listings plan /\ units plan = 5 /\ 2200 = N.min (cost demo_listings plan) u64_max.
Proof.
  assert (f_total_cost (fill (Ladder_of demo_listings) 5) = 2200) as Hc by (vm_compute; reflexivity). split; [exact Hc|].
  destruct (fill_cheapest demo_listings 5 eq_refl) as (_ & _ & plan & Hv & Hu & Ht & _).
  exists plan. split; [exact Hv|]. rewrite Hc in Ht. split; [|exact Ht]. rewrite Hu. vm_compute. reflexivity.
Defined.

(** ** The two percentiles are one

    [Market.summarise] scans the sorted listings; the ladder looks its running sum
    up.  They answer the same. *)
Definition percentiles_agree (l : list Listing) (st : PriceStats) : Prop :=
  supply_percentile (Ladder_of l) 5 = Some (st_p05 st) /\ supply_percentile (Ladder_of l) 50 = Some (st_median st) /\
  total (Ladder_of l) = st_quantity st.

Lemma summarise_ladder_agree l st :
  supply l * 50 < 2 ^ 64 -> N.of_nat (length l) < 2 ^ 32 -> is_sparse (Ladder_of l) = false ->
  summarise l = Some st -> percentiles_agree l st.
Proof.
  intros Hfit Hlen Hsp Hst. pose proof (summarise_spec l Hfit Hlen) as Hs. rewrite Hst in Hs.
  destruct Hs as (Hpos & Hq & _ & _ & _ & H5 & H50). assert (supply l < 2 ^ 64) as Hf by lia.
  destruct (supply_percentile_of l 5) as (p & Hp & Cp); [lia|lia|done..|].
  destruct (supply_percentile_of l 50) as (m & Hm & Cm); [lia|lia|done..|].
  split_and!.
  - by rewrite Hp, (consumed_at_unique _ _ _ _ Cp H5).
  - by rewrite Hm, (consumed_at_unique _ _ _ _ Cm H50).
  - by rewrite total_of, Hq.
Qed.

(** ** Curves

    On a band edge the archive answers what the ladder did. *)
Lemma compact_band_exact ladder percent :
  percent ∈ CURVE_BANDS -> cheapest ladder <> Some 0 -> cheapest ladder <> None ->
  Curve_quantity_within (compact ladder) percent = quantity_within ladder percent.
Proof.
  intros Hin Hz Hn. unfold Curve_quantity_within, quantity_within, compact. destruct (cheapest ladder) as [base|]; [|done].
  cbn [cv_cheapest mbind option_bind]. rewrite decide_False by (unfold Copper_ZERO; congruence).
  repeat (apply elem_of_cons in Hin as [->|Hin]; [reflexivity|]). by apply elem_of_nil in Hin.
Qed.
