(* ===== verification/DepthCodec.v ===== *)
(** * DepthCodec: the stored forms of ladders and depths read back

    [Ladder::encode]/[decode] and [Depth::encode]/[decode]: what the collector
    writes is what a page reads, for every ladder built from priced listings. *)
From Stdlib Require Import Ascii.
From stdpp Require Import prelude gmap sorting strings pretty.
From S2P Require Import Prelude Text Market Catalog Depth DepthLaws.

(** ** Ladders *)
Definition rung_ok (r : N * N) : Prop := 0 < r.1 <= u64_max /\ 0 < r.2 <= u64_max.

(** Rungs that hold units at a price, with their running sum. *)
Definition ladder_wf (self : Ladder) : Prop := exists r, steps self = accumulate 0 r /\ Forall rung_ok r.

(** Listings as the collector receives them: priced, with a supply that fits. *)
Definition priced (l : list Listing) : Prop :=
  supply l < 2 ^ 64 /\ Forall (fun x => 0 < unit_price x <= u64_max) l.

Lemma Ladder_of_wf l : priced l -> ladder_wf (Ladder_of l).
Proof.
  intros [Hfit Hpr]. eexists. split; [done|]. apply Forall_forall. intros [p q] Hin.
  destruct (of_rung l Hfit p q Hin) as (Hq & x & Hx & <- & _). rewrite Forall_forall in Hpr. specialize (Hpr x Hx).
  unfold rung_ok, u64_max in *. cbn. lia.
Qed.

Lemma encode_rung_sep s : has_char ","%char (encode_rung s) = false /\ encode_rung s <> "".
Proof.
  unfold encode_rung. split.
  - rewrite has_char_app. cbn. by rewrite !pretty_has_char.
  - pose proof (pretty_nonempty (s_price s)). by destruct (pretty (s_price s)).
Qed.

Lemma decode_encode_rungs c r :
  Forall rung_ok r -> decode_rungs c (encode_rung <$> accumulate c r) = accumulate c r.
Proof.
  intros Hr. revert c. induction Hr as [|[p q] r [[Hp Hp'] [Hq Hq']] _ IH]; intros c; [done|]. cbn in Hp, Hp', Hq, Hq'.
  cbn [accumulate fmap list_fmap decode_rungs]. unfold encode_rung at 1. cbn [s_price s_quantity].
  rewrite split_once_app by (by apply pretty_has_char). cbn [mbind option_bind].
  rewrite !parse_pretty by done. cbn [mbind option_bind]. rewrite decide_True by done. by rewrite IH.
Qed.

Lemma join_nonempty c p ps : p <> "" -> join c (p :: ps) <> "".
Proof. intros Hp. destruct ps as [|q ps]; [done|]. cbn. by destruct p. Qed.

Lemma Ladder_roundtrip self : ladder_wf self -> Ladder_decode (Ladder_encode self) = self.
Proof.
  intros (r & Hs & Hr). destruct self as [st]. cbn in Hs. subst st. unfold Ladder_encode, Ladder_decode. cbn [steps].
  destruct r as [|r0 r]; [done|]. pose proof (decode_encode_rungs 0 _ Hr) as Hd.
  destruct (encode_rung <$> accumulate 0 (r0 :: r)) as [|e es] eqn:He; [by destruct r0|].
  assert (Forall (fun p => has_char ","%char p = false) (e :: es)) as Hsep.
  { rewrite <- He. apply Forall_fmap, Forall_true. intros s. apply encode_rung_sep. }
  assert (e <> "") as Hne by (destruct r0; injection He as <- _; apply encode_rung_sep).
  pose proof (join_nonempty ","%char e es Hne) as Hj.
  destruct (join ","%char (e :: es)) as [|a s] eqn:Ej; [done|]. rewrite <- Ej, split_join by done. by rewrite Hd.
Qed.

(** ** Depths *)
Definition fits (n : N) : Prop := n <= u64_max.
Definition opt_fits (o : option N) : Prop := from_option fits True o.
Definition wall_ok (w : Wall) : Prop := fits (w_price w) /\ fits (w_quantity w) /\ w_share_percent w <= u32_max.

(** What [Depth::of] makes: numbers of their widths, and the fields the decoder
    recomputes. *)
Definition depth_wf (d : Depth) : Prop :=
  d_levels d <= u32_max /\ fits (d_total d) /\ fits (d_cheapest d) /\ opt_fits (d_p25 d) /\ opt_fits (d_p50 d) /\
  opt_fits (d_within_5 d) /\ opt_fits (d_within_20 d) /\ fits (d_target d) /\
  fits (f_filled (d_fill d)) /\ fits (f_total_cost (d_fill d)) /\ fits (f_average_unit (d_fill d)) /\
  fits (f_clearing_price (d_fill d)) /\ f_impact_percent (d_fill d) <= u32_max /\
  f_wanted (d_fill d) = d_target d /\ f_complete (d_fill d) = bool_decide (f_filled (d_fill d) = d_target d) /\
  Forall wall_ok (d_walls d) /\ d_sparse d = bool_decide (d_levels d < SPARSE_STEPS).

Lemma opt_sep c o : is_digit c = false -> has_char c (opt o) = false.
Proof. intros Hc. destruct o as [n|]; [by apply pretty_has_char|done]. Qed.

Lemma read_opt_opt o : opt_fits o -> read_opt (opt o) = Some o.
Proof.
  intros Ho. destruct o as [n|]; [|done]. cbn in *. unfold read_opt. pose proof (pretty_nonempty n) as Hne.
  destruct (pretty n) as [|a s] eqn:Hp; [done|]. by rewrite <- Hp, parse_pretty.
Qed.

Lemma decode_encode_wall w : wall_ok w -> decode_wall (encode_wall w) = Some w.
Proof.
  intros (Hp & Hq & Hs). unfold decode_wall, encode_wall. rewrite split_join; [|done|].
  - rewrite !parse_pretty by done. by destruct w.
  - repeat constructor; by apply pretty_has_char.
Qed.

Lemma encode_wall_sep w : has_char "|"%char (encode_wall w) = false.
Proof. unfold encode_wall. cbn [join]. rewrite !has_char_app. cbn. rewrite !has_char_app. cbn. by rewrite !pretty_has_char. Qed.

Lemma omap_decode_walls ws : Forall wall_ok ws -> omap decode_wall (encode_wall <$> ws) = ws.
Proof. induction 1 as [|w ws Hw _ IH]; [done|]. rewrite fmap_cons.
  change (omap decode_wall (encode_wall w :: (encode_wall <$> ws))) with
    (match decode_wall (encode_wall w) with Some y => y :: omap decode_wall (encode_wall <$> ws)
     | None => omap decode_wall (encode_wall <$> ws) end).
  rewrite decode_encode_wall by done. by rewrite IH. Qed.

Lemma u32_u64 n : n <= u32_max -> n <= u64_max.
Proof. unfold u32_max, u64_max. lia. Qed.

Lemma Depth_roundtrip d : depth_wf d -> Depth_decode (Depth_encode d) = Some d.
Proof.
  intros (H1 & H2 & H3 & H4 & H5 & H6 & H7 & H8 & H9 & H10 & H11 & H12 & H13 & Hw & Hcomp & Hwalls & Hsp).
  unfold Depth_decode, Depth_encode. rewrite split_join; [|done|].
  2: { apply Forall_app. split; [|apply Forall_fmap, Forall_true; intros w; apply encode_wall_sep].
       unfold Depth_fields. repeat constructor; (by apply pretty_has_char) || by apply opt_sep. }
  unfold Depth_fields. cbn [app]. rewrite !parse_pretty, !read_opt_opt by (done || by apply u32_u64).
  cbn [fmap option_fmap option_map mbind option_bind]. rewrite !wrap_small by (unfold u32_max in *; lia).
  rewrite omap_decode_walls by done. f_equal. rewrite <- Hsp, <- Hcomp.
  destruct d as [a1 a2 a3 a4 a5 a6 a7 a8 fl a10 a11]. destruct fl. cbn in Hw |- *. by subst.
Qed.

(** *** The depth of a ladder is well formed *)
Lemma price_of_step l s : priced l -> s ∈ steps (Ladder_of l) -> fits (s_price s) /\ fits (s_quantity s).
Proof.
  intros Hp Hs. destruct (Ladder_of_wf l Hp) as (r & Hr & Hok). rewrite Hr in Hs.
  assert ((s_price s, s_quantity s) ∈ r) as Hin.
  { rewrite <- (accumulate_pairs 0 r). by apply (list_elem_of_fmap_2 (fun s => (s_price s, s_quantity s))). }
  rewrite Forall_forall in Hok. destruct (Hok _ Hin). unfold fits. cbn in *. lia.
Qed.

Lemma sweep_clearing wanted F c0 cl st :
  (sweep wanted F c0 cl st).2 = cl \/ exists s, s ∈ st /\ (sweep wanted F c0 cl st).2 = s_price s.
Proof.
  revert F c0 cl. induction st as [|s st IH]; intros F c0 cl; [by left|]. cbn. case_decide; [by left|].
  destruct (IH (F + N.min (s_quantity s) (wanted - F)) (c0 + N.min (s_quantity s) (wanted - F) * s_price s) (s_price s)) as [->|(s' & Hs' & ->)].
  - right. exists s. split; [left|done].
  - right. exists s'. split; [by right|done].
Qed.

Lemma head_elem {A} (l : list A) x : head l = Some x -> x ∈ l.
Proof. destruct l; [done|]. intros [= ->]. left. Qed.

Lemma percentile_fits l percent : priced l -> opt_fits (supply_percentile (Ladder_of l) percent).
Proof.
  intros Hp. unfold supply_percentile. destruct (is_sparse _); [done|]. case_decide; [done|].
  destruct (find_first _ _) as [s|] eqn:Hf.
  - apply find_first_Some in Hf as [Hin _]. by apply (price_of_step l).
  - unfold dearest. destruct (last _) as [s|] eqn:Hl; [|done]. apply last_Some_elem_of in Hl. by apply (price_of_step l).
Qed.

Lemma Depth_of_wf l target d :
  priced l -> N.of_nat (length (steps (Ladder_of l))) <= u32_max -> fits target ->
  Depth_of (Ladder_of l) target = Some d -> depth_wf d.
Proof.
  intros Hp Hlen Ht. unfold Depth_of. pose proof Hp as [Hfit _]. destruct (cheapest (Ladder_of l)) as [base|] eqn:Hb; [|done].
  assert (fits base) as Hbase.
  { unfold cheapest in Hb. apply fmap_Some in Hb as (s & Hs%head_elem & ->). by apply (price_of_step l). }
  intros [= <-].
  assert (wrap 32 (levels (Ladder_of l)) = levels (Ladder_of l)) as Hlv by (apply wrap_small; unfold levels, u32_max in *; lia).
  destruct (sweep_cheapest l target Hfit) as (plan & c & Hsw & _).
  pose proof (sweep_clearing target 0 0 base (steps (Ladder_of l))) as Hcl. rewrite Hb in Hsw. change (default 0 (Some base)) with base in Hsw.
  assert (fits c) as Hc.
  { rewrite Hsw in Hcl. cbn in Hcl. destruct Hcl as [->|(s & Hs & ->)]; [done|by apply (price_of_step l)]. }
  assert (forall n, opt_fits (unless_sparse (Ladder_of l) (quantity_within (Ladder_of l) n))) as Hqw.
  { intros n. unfold unless_sparse, quantity_within. destruct (is_sparse _); [done|]. rewrite Hb. cbn.
    rewrite quantity_upto_of by done. pose proof (supply_upto_le l (above base n)). unfold fits, u64_max. lia. }
  unfold depth_wf, fill. rewrite Hb. change (default Copper_ZERO (Some base)) with base. rewrite Hsw. cbn.
  assert (2 ^ 64 = u64_max + 1) as E64 by reflexivity. assert (2 ^ 32 = u32_max + 1) as E32 by reflexivity.
  split_and!; rewrite ?Hlv.
  - exact Hlen.
  - rewrite total_of by done. unfold fits. lia.
  - done.
  - by apply percentile_fits.
  - by apply percentile_fits.
  - apply Hqw.
  - apply Hqw.
  - done.
  - unfold fits. lia.
  - unfold fits. lia.
  - case_decide; [unfold fits, Copper_ZERO; lia|]. pose proof (wrap_lt 64 (cost l plan / N.min target (supply l))). unfold fits. lia.
  - done.
  - case_decide; [lia|]. unfold i128_as_u32. match goal with |- Z.to_N (?z mod _) <= _ => pose proof (Z.mod_pos_bound z (2 ^ 32)) end.
    unfold u32_max. lia.
  - done.
  - done.
  - unfold walls. destruct (is_sparse _); [done|]. case_decide; [done|]. apply Forall_forall. intros w Hw.
    apply list_elem_of_omap in Hw as (s & Hs & Hw). unfold wall_of in Hw. case_decide; [|done]. injection Hw as <-.
    destruct (price_of_step l s Hp Hs). split_and!; [done..|]. cbn. pose proof (wrap_lt 32 (s_quantity s * 100 / total (Ladder_of l))). lia.
  - done.
Qed.

(** What the collector stores about a market's shelf reads back: the ladder
    rung for rung with its running sums, and the depth computed from it field for
    field, walls and refusals included. *)
Theorem stored_depth_reads_back l :
  priced l -> N.of_nat (length (steps (Ladder_of l))) <= u32_max ->
  Ladder_decode (Ladder_encode (Ladder_of l)) = Ladder_of l /\
  forall target d, target <= u64_max -> Depth_of (Ladder_of l) target = Some d ->
    Depth_decode (Depth_encode d) = Some d.
Proof.
  intros Hp Hlen. split; [by apply Ladder_roundtrip, Ladder_of_wf|].
  intros target d Ht Hd. apply Depth_roundtrip. by eapply Depth_of_wf.
Qed.

Lemma stored_depth_reads_back_witness :
  Ladder_encode (Ladder_of demo_listings) = "400:3,500:3,900:10" /\
  Ladder_decode "400:3,500:3,900:10" = Ladder_of demo_listings /\
  option_map Depth_encode (Depth_decode "3|16|400|||||5|5|2200|440|500|10") = Some "3|16|400|||||5|5|2200|440|500|10".
Proof.
  assert (priced demo_listings) as Hp
    by (split; [vm_compute; reflexivity|repeat constructor; vm_compute; (reflexivity || discriminate)]).
  assert (N.of_nat (length (steps (Ladder_of demo_listings))) <= u32_max) as Hlen by (vm_compute; discriminate).
  destruct (stored_depth_reads_back demo_listings Hp Hlen) as [Hl Hd].
  assert (Ladder_encode (Ladder_of demo_listings) = "400:3,500:3,900:10") as He by (vm_compute; reflexivity).
  split; [exact He|]. rewrite He in Hl. split; [exact Hl|].
  destruct (Depth_of (Ladder_of demo_listings) 5) as [d|] eqn:E.
  - specialize (Hd 5 d ltac:(vm_compute; discriminate) E).
    assert (option_map Depth_encode (Depth_of (Ladder_of demo_listings) 5) = Some "3|16|400|||||5|5|2200|440|500|10") as Ee
      by (vm_compute; reflexivity).
    rewrite E in Ee. cbn [option_map] in Ee. injection Ee as Ee. rewrite Ee in Hd. rewrite Hd. cbn [option_map]. by rewrite Ee.
  - exfalso. assert (is_Some (Depth_of (Ladder_of demo_listings) 5)) as [? ?] by (vm_compute; eauto). congruence.
Defined.
