(* ===== verification/Engine.v ===== *)
(** * Engine: the statistics of a market's own history

    Models [crates/app-core/src/market/engine.rs]: hourly [Buckets], the
    Hyndman-Fan type 8 quantile over them (in [F64] arithmetic), mid-ranks, the
    five-number [Distribution], [Valuation] bands, Tukey's fences, the evidence
    [Gates], the [Position] a card shows, and the sparkline with its stored form.
    The theorems are in [EngineLaws]. *)
From Stdlib Require Import Ascii.
From stdpp Require Import prelude gmap sorting strings pretty.
From S2P Require Import Prelude Text F64 Time Market.

Definition BUCKET_MS : N := 60 * 60 * 1000.

(** ** Buckets *)
Record Buckets := { prices : list N }.

(** The last observation of an hour wins; a later one of the same instant too. *)
Definition observe (latest : gmap N (Millis * Copper)) (o : Millis * Copper) : gmap N (Millis * Copper) :=
  let bucket := o.1 / BUCKET_MS in
  let slot := default o (latest !! bucket) in
  <[bucket := if decide (slot.1 <= o.1) then o else slot]> latest.

Definition sort_unstable (l : list N) : list N := sort_by_key id l.

Definition from_observations (observations : list (Millis * Copper)) : Buckets :=
  {| prices := sort_unstable (snd <$> values (foldl observe ∅ observations)) |}.

Definition len (self : Buckets) : N := N.of_nat (length (prices self)).
Definition is_empty (self : Buckets) : bool := bool_decide (prices self = []).

(** [self.prices[i - 1]]: the definition counts from one, the slice from zero. *)
Definition at_rank (self : Buckets) (i : N) : N := nth (N.to_nat (i - 1)) (prices self) 0.

Definition third : f64 := fdiv one (lit 3 1).

(** [h = (n + 1/3) p + 1/3]. *)
Definition quantile_h (n : N) (p : f64) : f64 := fadd (fmul (fadd (of_u64 n) third) p) third.

Definition quantile_lower (n : N) (p : f64) : N := to_usize (fclamp (ffloor (quantile_h n p)) one (of_u64 n)).

Definition quantile (self : Buckets) (p : f64) : option Copper :=
  let n := len self in
  if decide (n = 0) then None
  else if decide (n = 1) then Some (at_rank self 1)
  else
    let p := fclamp p 0 one in
    let h := quantile_h n p in
    let lower := quantile_lower n p in
    let upper := N.min (lower + 1) n in
    let low := of_u64 (at_rank self lower) in
    let high := of_u64 (at_rank self upper) in
    let value := fadd low (fmul (fclamp (fsub h (of_u64 lower)) 0 one) (fsub high low)) in
    Some (to_u64 (Z.max (fround value) 0)).

Definition rank_of (self : Buckets) (price : Copper) : option N :=
  if is_empty self then None
  else
    let below := N.of_nat (partition_point (fun p => bool_decide (p < price)) (prices self)) in
    let at_or_below := N.of_nat (partition_point (fun p => bool_decide (p <= price)) (prices self)) in
    let midpoint := below + at_or_below in
    Some (wrap 8 (N.min (midpoint * 100 / (2 * len self)) 100)).

(** ** Distributions *)
Record Distribution := {
  p05 : Copper; p25 : Copper; median : Copper; p75 : Copper; p95 : Copper; iqr : Copper; mad : Copper; buckets : N }.

#[export] Instance Distribution_eq_dec : EqDecision Distribution.
Proof. solve_decision. Defined.

Definition abs_diff (a b : N) : N := (a - b) + (b - a).

Definition Distribution_of (self : Buckets) : option Distribution :=
  median ← quantile self (lit 50 100);
  p25 ← quantile self (lit 25 100);
  p75 ← quantile self (lit 75 100);
  let deviations := sort_unstable ((fun p => abs_diff p median) <$> prices self) in
  mad ← quantile {| prices := deviations |} (lit 50 100);
  p05 ← quantile self (lit 5 100);
  p95 ← quantile self (lit 95 100);
  Some {| p05 := p05; p25 := p25; median := median; p75 := p75; p95 := p95;
          iqr := p75 - p25; mad := mad; buckets := wrap 32 (len self) |}.

(** ** Valuation and anomaly *)
Module Valuation.
Inductive t := VeryCheap | Cheap | Typical | Expensive | VeryExpensive.
#[global] Instance eq_dec : EqDecision t.
Proof. solve_decision. Defined.
Definition ALL : list t := [VeryCheap; Cheap; Typical; Expensive; VeryExpensive].
Definition of_rank (rank : N) : t :=
  if decide (rank <= 5) then VeryCheap else if decide (rank <= 25) then Cheap
  else if decide (rank <= 75) then Typical else if decide (rank <= 95) then Expensive else VeryExpensive.
Definition as_str (self : t) : string :=
  match self with
  | VeryCheap => "Very cheap" | Cheap => "Cheap" | Typical => "Typical" | Expensive => "Expensive"
  | VeryExpensive => "Very expensive"
  end.
Definition slug (self : t) : string :=
  match self with
  | VeryCheap => "very-cheap" | Cheap => "cheap" | Typical => "typical" | Expensive => "expensive"
  | VeryExpensive => "very-expensive"
  end.
End Valuation.

Module Anomaly.
Inductive t := Ordinary | Mild | Extreme.
#[global] Instance eq_dec : EqDecision t.
Proof. solve_decision. Defined.
Definition as_str (self : t) : string :=
  match self with Ordinary => "Ordinary" | Mild => "Unusual" | Extreme => "Extreme" end.

(** Beyond [factor / 2] interquartile ranges of the nearer quartile. *)
Definition beyond (price low high iqr factor : Z) : bool :=
  bool_decide (price < low - Z.quot (factor * iqr) 2 \/ high + Z.quot (factor * iqr) 2 < price)%Z.

Definition of_ (price : Copper) (d : Distribution) : t :=
  let q := Z.of_N (iqr d) in
  if decide (q = 0%Z) then Ordinary
  else
    let far := beyond (Z.of_N price) (Z.of_N (p25 d)) (Z.of_N (p75 d)) q in
    if far 6%Z then Extreme else if far 3%Z then Mild else Ordinary.
End Anomaly.

(** [Swing]: the range as a percentage of the mean. *)
Definition Swing_of (self : Buckets) : N :=
  match head (prices self), last (prices self) with
  | Some low, Some high =>
      let mean := sumN (prices self) / len self in
      if decide (mean = 0) then 0 else wrap 32 ((high - low) * 100 / mean)
  | _, _ => 0
  end.

(** ** Evidence *)
Inductive Insufficient :=
| NotEnoughHistory (have need : N)
| TooManyGaps (coverage need : N).

#[export] Instance Insufficient_eq_dec : EqDecision Insufficient.
Proof. solve_decision. Defined.

Record Gates := { g_median : N; g_tails : N; g_coverage : N }.
Definition Gates_default : Gates := {| g_median := 12; g_tails := 24; g_coverage := 25 |}.

Definition Gates_admit (self : Gates) (buckets : N) (coverage : option N) : Result unit Insufficient :=
  if decide (buckets < g_tails self) then Err (NotEnoughHistory buckets (g_tails self))
  else match coverage with
       | Some c => if decide (c < g_coverage self) then Err (TooManyGaps c (g_coverage self)) else Ok tt
       | None => Ok tt
       end.

Definition admits_median (self : Gates) (buckets : N) : bool := bool_decide (g_median self <= buckets).

(** ** Positions *)
Record Position := {
  pos_rank : option N; pos_valuation : option Valuation.t; pos_insufficient : option Insufficient;
  pos_from_median_percent : option Z; pos_anomaly : Anomaly.t }.

#[export] Instance Position_eq_dec : EqDecision Position.
Proof. solve_decision. Defined.

(** [as i32] of an [i128]. *)
Definition as_i32 (z : Z) : Z := ((z + 2 ^ 31) mod 2 ^ 32 - 2 ^ 31)%Z.

Definition percent_from (price median : N) : Z :=
  if decide (median = 0) then 0%Z
  else as_i32 (Z.quot ((Z.of_N price - Z.of_N median) * 100) (Z.of_N median)).

Definition Position_of (price : Copper) (self : Buckets) (coverage : option N) (gates : Gates) : Position :=
  let held := wrap 32 (len self) in
  match Distribution_of self with
  | None =>
      {| pos_rank := None; pos_valuation := None; pos_insufficient := Some (NotEnoughHistory 0 (g_tails gates));
         pos_from_median_percent := None; pos_anomaly := Anomaly.Ordinary |}
  | Some d =>
      let rank := if admits_median gates held then rank_of self price else None in
      let admitted := Gates_admit gates held coverage in
      {| pos_rank := rank;
         pos_valuation := match admitted, rank with Ok _, Some r => Some (Valuation.of_rank r) | _, _ => None end;
         pos_insufficient :=
           match admitted with
           | Ok _ => match rank with None => Some (NotEnoughHistory held (g_median gates)) | Some _ => None end
           | Err reason => Some reason
           end;
         pos_from_median_percent := if admits_median gates held then Some (percent_from price (median d)) else None;
         pos_anomaly := Anomaly.of_ price d |}
  end.

(** ** Sparklines *)
Definition SPARK_SLOTS : N := 16.

Record Spark := { slots : list (option Copper) }.
Definition Spark_default : Spark := {| slots := [] |}.

(** The slot of a window [from, from + span] an instant falls in. *)
Definition slot_of (resolution from span at_ : N) : nat :=
  N.to_nat (N.min (wrap 64 ((at_ - from) * resolution) / span) (resolution - 1)).

(** Keep what is held if it is newer, else take the observation. *)
Definition keep_latest {A} (at_ : A -> Millis) (o : A) (held : option A) : option A :=
  match held with
  | Some h => if decide (at_ o < at_ h) then Some h else Some o
  | None => Some o
  end.

(** One observation into the slots of a window: the step of [Spark::over] and of
    the chart series. *)
Definition place {A} (at_ : A -> Millis) (resolution from until : N) (held : list (option A)) (o : A) : list (option A) :=
  if decide (at_ o < from \/ until < at_ o) then held
  else alter (keep_latest at_ o) (slot_of resolution from (until - from) (at_ o)) held.

Definition Spark_over (observations : list (Millis * Copper)) (from until : Millis) : Spark :=
  if decide (until - from = 0) then Spark_default
  else {| slots := (option_map snd) <$> foldl (place fst SPARK_SLOTS from until) (replicate (N.to_nat SPARK_SLOTS) None) observations |}.

Definition Spark_is_empty (self : Spark) : bool :=
  bool_decide (length (filter is_Some (slots self)) < 2)%nat.

Definition Spark_encode (self : Spark) : string :=
  join ","%char ((fun s => match s with Some price => pretty price | None => "" end) <$> slots self).

Definition Spark_decode (raw : string) : Spark :=
  match raw with
  | EmptyString => Spark_default
  | _ => {| slots := parse_u64 <$> take (N.to_nat SPARK_SLOTS) (split ","%char raw) |}
  end.
