(* ===== verification/EngineLaws.v ===== *)
(** * EngineLaws: the estimator brackets and orders, the gates hold

    - the floating-point quantile always lies between the two order statistics it
      interpolates, and is monotone in the requested share; so a [Distribution] is
      ordered and stays inside the observed range;
    - one price per hour, the last observed, whatever was collected;
    - a rank is a percentage, grows with the price, and a market that never moved is
      in the middle of its own history;
    - a valuation is shown only behind the evidence gates. *)
From Stdlib Require Import Ascii.
From stdpp Require Import prelude gmap sorting strings pretty.
From S2P Require Import Prelude Text F64 Time Market Engine.

(** Sorted prices that a double holds exactly: up to 2^53 copper, some nine hundred
    billion gold, over at most 2^53 hours. *)
Definition exact (self : Buckets) : Prop :=
  StronglySorted N.le (prices self) /\ Forall (fun p => p <= 2 ^ 53) (prices self) /\ len self <= 2 ^ 53.

(** ** Order statistics *)
Lemma nth_sorted (l : list N) i j :
  StronglySorted N.le l -> (i <= j < length l)%nat -> nth i l 0 <= nth j l 0.
Proof.
  intros Hs. revert i j. induction Hs as [|x l Hs IH Hall]; intros i j Hij; [cbn in Hij; lia|].
  destruct i as [|i], j as [|j]; cbn in *; [lia| |lia|apply IH; lia].
  rewrite Forall_forall in Hall. apply Hall. apply list_elem_of_In, nth_In. lia.
Qed.

Lemma at_rank_mono self i j :
  StronglySorted N.le (prices self) -> 1 <= i -> i <= j <= len self -> at_rank self i <= at_rank self j.
Proof. intros Hs Hi Hj. unfold at_rank. apply nth_sorted; [done|]. unfold len in Hj. lia. Qed.

Lemma at_rank_elem self i : 1 <= i <= len self -> at_rank self i ∈ prices self.
Proof. intros Hi. unfold at_rank. apply list_elem_of_In, nth_In. unfold len in Hi. lia. Qed.

Lemma at_rank_exact self i : exact self -> 1 <= i <= len self -> at_rank self i <= 2 ^ 53.
Proof. intros (_ & Hall & _) Hi. rewrite Forall_forall in Hall. by apply Hall, at_rank_elem. Qed.

(** ** The interpolation point *)
#[local] Open Scope Z_scope.

Lemma third_pos : 0 <= third.
Proof. unfold third, fdiv. apply rnd_ge; [apply representable_0| |]; [unfold lit; pose proof one_pos|pose proof one_pos; nia].
  assert (1 * one <= lit 3 1) as H1; [|unfold lit in *; lia].
  unfold lit. apply rnd_ge; [apply representable_int; lia|lia|]. pose proof one_pos. lia.
Qed.

Lemma quantile_h_mono n p p' : 0 <= p -> p <= p' -> quantile_h n p <= quantile_h n p'.
Proof.
  intros Hp Hpp. unfold quantile_h. apply fadd_mono; [|lia]. apply fmul_mono; [|lia]. split; [|lia].
  unfold fadd. pose proof third_pos. pose proof (of_u64_nonneg n). apply rnd_ge; [apply representable_0|lia|lia].
Qed.

(** The floor, clamped to the ranks there are, is a whole rank. *)
Lemma quantile_lower_spec n p :
  (2 <= n <= 2 ^ 53)%N ->
  Z.of_N (quantile_lower n p) * one = fclamp (ffloor (quantile_h n p)) one (of_u64 n) /\ (1 <= quantile_lower n p <= n)%N.
Proof.
  intros Hn. pose proof one_pos as Ho. unfold quantile_lower. rewrite (of_u64_exact n) by lia. unfold ffloor.
  set (k := quantile_h n p / one). assert (fclamp (k * one) one (Z.of_N n * one) = Z.max 1 (Z.min (Z.of_N n) k) * one) as ->.
  { unfold fclamp. rewrite <- Z.mul_max_distr_nonneg_r, <- Z.mul_min_distr_nonneg_r by lia. by rewrite Z.mul_1_l. }
  set (j := Z.max 1 (Z.min (Z.of_N n) k)). assert (1 <= j <= Z.of_N n) as Hj by lia.
  assert (to_usize (j * one) = Z.to_N j) as ->.
  { rewrite <- (Z2N.id j) at 1 by lia. apply to_u64_int. unfold u64_max. lia. }
  split; [f_equal; lia|lia].
Qed.

Lemma quantile_lower_mono n p p' :
  (2 <= n <= 2 ^ 53)%N -> 0 <= p -> p <= p' -> (quantile_lower n p <= quantile_lower n p')%N.
Proof.
  intros Hn Hp Hpp. pose proof one_pos. pose proof (quantile_h_mono n p p' Hp Hpp) as Hh.
  unfold quantile_lower. apply to_u64_mono. unfold fclamp, ffloor.
  assert (quantile_h n p / one <= quantile_h n p' / one) by (by apply Z.div_le_mono). nia.
Qed.

(** ** The interpolated value *)
Definition interpolate (low high : N) (t : f64) : N :=
  to_u64 (Z.max (fround (fadd (of_u64 low) (fmul (fclamp t 0 one) (fsub (of_u64 high) (of_u64 low))))) 0).

Lemma interpolate_bracket low high t :
  (low <= high)%N -> (high <= 2 ^ 53)%N -> (low <= interpolate low high t <= high)%N.
Proof.
  intros Hlh Hh. pose proof one_pos as Ho. unfold interpolate. rewrite !of_u64_exact by lia.
  assert (representable (Z.of_N high * one - Z.of_N low * one)) as Hr.
  { rewrite <- Z.mul_sub_distr_r. apply representable_int. lia. }
  rewrite (fsub_exact _ _ Hr). set (d := Z.of_N high * one - Z.of_N low * one) in *. assert (0 <= d) as Hd by nia.
  set (c := fclamp t 0 one). assert (0 <= c <= one) as Hc by (unfold c, fclamp; lia).
  assert (0 <= fmul c d <= d) as [Hm1 Hm2] by (split; [apply fmul_nonneg; lia|by apply fmul_le_l]).
  assert (Z.of_N low * one <= fadd (Z.of_N low * one) (fmul c d)) as V1
    by (apply fadd_ge; [apply representable_int; lia|lia]).
  assert (fadd (Z.of_N low * one) (fmul c d) <= Z.of_N high * one) as V2
    by (apply fadd_le; [apply representable_int; lia|lia]).
  set (v := fadd _ _) in *. assert (0 <= Z.of_N low * one) as Hz by nia.
  pose proof (fround_mono _ _ (conj Hz V1)) as R1. rewrite fround_int in R1 by lia.
  assert (fround v <= Z.of_N high * one) as R2 by (rewrite <- (fround_int (Z.of_N high)) by lia; apply fround_mono; lia).
  rewrite Z.max_l by lia. split.
  - rewrite <- (to_u64_int low) by (unfold u64_max; lia). by apply to_u64_mono.
  - rewrite <- (to_u64_int high) by (unfold u64_max; lia). by apply to_u64_mono.
Qed.

Lemma interpolate_mono low high t t' :
  (low <= high)%N -> (high <= 2 ^ 53)%N -> t <= t' -> (interpolate low high t <= interpolate low high t')%N.
Proof.
  intros Hlh Hh Ht. pose proof one_pos as Ho. unfold interpolate. apply to_u64_mono.
  assert (0 <= fsub (of_u64 high) (of_u64 low)) as Hd.
  { unfold fsub. apply rnd_ge; [apply representable_0|lia|]. rewrite !of_u64_exact by lia. nia. }
  set (d := fsub _ _) in *. assert (0 <= fclamp t 0 one <= fclamp t' 0 one) as Hc by (unfold fclamp; lia).
  pose proof (fmul_nonneg (fclamp t 0 one) d ltac:(lia) Hd). pose proof (of_u64_nonneg low).
  assert (fmul (fclamp t 0 one) d <= fmul (fclamp t' 0 one) d) as Hm by (apply fmul_mono; lia).
  assert (0 <= fadd (of_u64 low) (fmul (fclamp t 0 one) d)) as Hge
    by (unfold fadd; apply rnd_ge; [apply representable_0|lia|lia]).
  apply Z.max_le_compat_r, fround_mono. split; [done|]. apply fadd_mono; lia.
Qed.

#[local] Open Scope N_scope.

Lemma quantile_unfold self p :
  2 <= len self ->
  quantile self p =
    let p := fclamp p 0 one in let lower := quantile_lower (len self) p in
    Some (interpolate (at_rank self lower) (at_rank self (N.min (lower + 1) (len self)))
            (fsub (quantile_h (len self) p) (of_u64 lower))).
Proof. intros Hn. unfold quantile. rewrite !decide_False by lia. reflexivity. Qed.

Lemma quantile_None self p : quantile self p = None <-> prices self = [].
Proof.
  unfold quantile, len. case_decide as H0.
  - split; [|done]. intros _. destruct (prices self); [done|]. cbn in H0. lia.
  - assert (prices self <> []) by (by intros E; rewrite E in H0). by case_decide.
Qed.

(** The estimate lies between the order statistics around it. *)
Lemma quantile_bracket self p v :
  exact self -> quantile self p = Some v ->
  exists i, 1 <= i <= len self /\ at_rank self i <= v <= at_rank self (N.min (i + 1) (len self)).
Proof.
  intros He Hv. destruct (decide (2 <= len self)) as [Hn|Hn].
  - rewrite quantile_unfold in Hv by done. injection Hv as <-. pose proof He as (Hs & _ & Hlen).
    destruct (quantile_lower_spec (len self) (fclamp p 0 one) ltac:(lia)) as [_ Hl].
    exists (quantile_lower (len self) (fclamp p 0 one)). split; [done|]. apply interpolate_bracket.
    + apply at_rank_mono; [done|lia|lia].
    + apply at_rank_exact; [done|lia].
  - unfold quantile in Hv. case_decide; [done|]. case_decide as H1; [|lia]. injection Hv as <-. exists 1. rewrite H1. split; [lia|]. change (N.min (1 + 1) 1) with 1. lia.
Qed.

(** Inside the observed range. *)
Lemma quantile_in_range self p v :
  exact self -> quantile self p = Some v -> at_rank self 1 <= v <= at_rank self (len self).
Proof.
  intros He Hv. pose proof He as (Hs & _). destruct (quantile_bracket self p v He Hv) as (i & Hi & Hlo & Hhi).
  pose proof (at_rank_mono self 1 i Hs ltac:(lia) ltac:(lia)).
  pose proof (at_rank_mono self (N.min (i + 1) (len self)) (len self) Hs ltac:(lia) ltac:(lia)). lia.
Qed.

(** A larger share never gives a smaller estimate. *)
Lemma quantile_mono self p p' v v' :
  exact self -> (p <= p')%Z -> quantile self p = Some v -> quantile self p' = Some v' -> v <= v'.
Proof.
  intros He Hp Hv Hv'. destruct (decide (2 <= len self)) as [Hn|Hn].
  2: { unfold quantile in *. assert (v = v'); [|lia]. repeat case_decide; first [done|lia|congruence]. }
  rewrite quantile_unfold in Hv, Hv' by done. injection Hv as <-. injection Hv' as <-. pose proof He as (Hs & _ & Hlen).
  pose proof one_pos. set (q := fclamp p 0 one). set (q' := fclamp p' 0 one).
  assert (0 <= q <= q')%Z as Hq by (unfold q, q', fclamp; lia).
  destruct (quantile_lower_spec (len self) q ltac:(lia)) as [_ Hl], (quantile_lower_spec (len self) q' ltac:(lia)) as [_ Hl'].
  pose proof (quantile_lower_mono (len self) q q' ltac:(lia) ltac:(lia) ltac:(lia)) as Hll.
  set (i := quantile_lower (len self) q) in *. set (i' := quantile_lower (len self) q') in *.
  pose proof (at_rank_exact self (N.min (i + 1) (len self)) He ltac:(lia)) as Hx.
  pose proof (at_rank_exact self (N.min (i' + 1) (len self)) He ltac:(lia)) as Hx'.
  pose proof (at_rank_mono self i (N.min (i + 1) (len self)) Hs ltac:(lia) ltac:(lia)) as Ho.
  pose proof (at_rank_mono self i' (N.min (i' + 1) (len self)) Hs ltac:(lia) ltac:(lia)) as Ho'.
  destruct (decide (i = i')) as [<-|Hne].
  - apply interpolate_mono; [done..|]. apply rnd_mono; [lia..|].
    pose proof (quantile_h_mono (len self) q q' ltac:(lia) ltac:(lia)). lia.
  - pose proof (interpolate_bracket _ _ (fsub (quantile_h (len self) q) (of_u64 i)) Ho Hx) as [_ B].
    pose proof (interpolate_bracket _ _ (fsub (quantile_h (len self) q') (of_u64 i')) Ho' Hx') as [B' _].
    pose proof (at_rank_mono self (N.min (i + 1) (len self)) i' Hs ltac:(lia) ltac:(lia)). lia.
Qed.

(** ** One price per hour *)
Definition hour (at_ : Millis) : N := at_ / BUCKET_MS.

(** The observation that stands for its hour: none of the hour is newer. *)
Definition last_of_hour (obs : list (Millis * Copper)) (o : Millis * Copper) : Prop :=
  o ∈ obs /\ forall o', o' ∈ obs -> hour o'.1 = hour o.1 -> o'.1 <= o.1.

Definition hours (obs : list (Millis * Copper)) : gset N := list_to_set (hour <$> obs.*1).

Lemma observe_spec obs b :
  match foldl observe ∅ obs !! b with
  | Some o => hour o.1 = b /\ last_of_hour obs o
  | None => forall o, o ∈ obs -> hour o.1 <> b
  end.
Proof.
  induction obs as [|o obs IH] using rev_ind; [cbn [foldl]; rewrite lookup_empty; by intros o ?%elem_of_nil|].
  rewrite foldl_app. cbn [foldl]. set (m := foldl observe ∅ obs) in *. unfold observe. fold (hour o.1).
  destruct (decide (hour o.1 = b)) as [Hb|Hb].
  - rewrite Hb, lookup_insert_eq. destruct (m !! b) as [s|] eqn:Hs; cbn [default from_option id].
    + destruct IH as [Hh [Hin Hmax]]. case_decide as Hd.
      * split; [done|]. split; [set_solver|]. intros o' [Ho'|Ho']%elem_of_app Hh'; [|apply list_elem_of_singleton in Ho'; by subst].
        specialize (Hmax o' Ho' ltac:(congruence)). lia.
      * split; [done|]. split; [set_solver|]. intros o' [Ho'|Ho']%elem_of_app Hh'; [by apply Hmax|].
        apply list_elem_of_singleton in Ho'. subst. lia.
    + rewrite decide_True by done. split; [done|]. split; [set_solver|].
      intros o' [Ho'|Ho']%elem_of_app Hh'; [by destruct (IH o' Ho'); congruence|apply list_elem_of_singleton in Ho'; by subst].
  - rewrite lookup_insert_ne by done. destruct (m !! b) as [s|].
    + destruct IH as [Hh [Hin Hmax]]. split; [done|]. split; [set_solver|].
      intros o' [Ho'|Ho']%elem_of_app Hh'; [by apply Hmax|apply list_elem_of_singleton in Ho'; congruence].
    + intros o' [Ho'|Ho']%elem_of_app; [by apply IH|apply list_elem_of_singleton in Ho'; by subst].
Qed.

Lemma from_observations_perm obs :
  prices (from_observations obs) ≡ₚ (fun kv => kv.2.2) <$> map_to_list (foldl observe ∅ obs).
Proof.
  unfold from_observations, sort_unstable, sort_by_key. cbn [prices]. rewrite sort_by_perm. unfold values.
  rewrite <- list_fmap_compose. rewrite entries_perm. done.
Qed.

Lemma from_observations_elem obs p :
  p ∈ prices (from_observations obs) <-> exists o, last_of_hour obs o /\ o.2 = p /\ foldl observe ∅ obs !! hour o.1 = Some o.
Proof.
  rewrite from_observations_perm, list_elem_of_fmap. split.
  - intros ([b o] & -> & Hin%elem_of_map_to_list). pose proof (observe_spec obs b) as Hs. rewrite Hin in Hs.
    destruct Hs as [Hb Hl]. exists o. by rewrite Hb.
  - intros (o & _ & <- & Ho). exists (hour o.1, o). split; [done|]. by apply elem_of_map_to_list.
Qed.

Lemma from_observations_len obs : len (from_observations obs) = N.of_nat (size (hours obs)).
Proof.
  unfold len. rewrite from_observations_perm, length_fmap, length_map_to_list. f_equal.
  rewrite <- size_dom. f_equal. apply set_eq. intros b. unfold hours. rewrite elem_of_dom, elem_of_list_to_set, list_elem_of_fmap.
  pose proof (observe_spec obs b) as Hs. split.
  - intros [o Ho]. rewrite Ho in Hs. destruct Hs as [Hb [Hin _]]. exists o.1. split; [done|]. by apply list_elem_of_fmap_2.
  - intros (t & -> & (o & -> & Hin)%list_elem_of_fmap). destruct (foldl observe ∅ obs !! hour o.1); [by eexists|].
    by destruct (Hs o Hin).
Qed.

Lemma sort_unstable_sorted l : StronglySorted N.le (sort_unstable l).
Proof. pose proof (sort_by_key_sorted id l) as Hs. exact Hs. Qed.

(** Histories a double holds exactly. *)
Definition priced_history (obs : list (Millis * Copper)) : Prop :=
  Forall (fun o => o.2 <= 2 ^ 53) obs /\ N.of_nat (size (hours obs)) <= 2 ^ 53.

Lemma from_observations_exact obs : priced_history obs -> exact (from_observations obs).
Proof.
  intros [Hp Hh]. split_and!.
  - apply sort_unstable_sorted.
  - apply Forall_forall. intros p (o & [Hin _] & <- & _)%from_observations_elem. rewrite Forall_forall in Hp. by apply Hp.
  - by rewrite from_observations_len.
Qed.

Lemma from_observations_nil obs : prices (from_observations obs) = [] <-> obs = [].
Proof.
  split; [|by intros ->]. intros Hn. destruct obs as [|o obs]; [done|]. exfalso.
  pose proof (from_observations_len (o :: obs)) as Hl. unfold len in Hl. rewrite Hn in Hl. cbn [length] in Hl.
  assert (hour o.1 ∈ hours (o :: obs)) as Hin by (unfold hours; rewrite elem_of_list_to_set; left).
  assert (size (hours (o :: obs)) = 0%nat) as Hz by lia. apply size_empty_inv in Hz. by apply (Hz (hour o.1)), not_elem_of_empty in Hin.
Qed.

(** ** Distributions *)
Lemma Distribution_of_Some self :
  prices self <> [] -> exists d, Distribution_of self = Some d /\
    quantile self (lit 5 100) = Some (p05 d) /\ quantile self (lit 25 100) = Some (p25 d) /\
    quantile self (lit 50 100) = Some (median d) /\ quantile self (lit 75 100) = Some (p75 d) /\
    quantile self (lit 95 100) = Some (p95 d) /\ iqr d = p75 d - p25 d /\ buckets d = wrap 32 (len self).
Proof.
  intros Hne. unfold Distribution_of.
  assert (forall p, exists v, quantile self p = Some v) as Hq.
  { intros p. destruct (quantile self p) eqn:E; [by eexists|]. by apply quantile_None in E. }
  destruct (Hq (lit 50 100)) as [m Em], (Hq (lit 25 100)) as [q1 E1], (Hq (lit 75 100)) as [q3 E3],
    (Hq (lit 5 100)) as [a Ea], (Hq (lit 95 100)) as [b Eb]. rewrite Em, E1, E3. cbn [mbind option_bind].
  destruct (quantile {| prices := sort_unstable _ |} (lit 50 100)) as [d|] eqn:Ed.
  - rewrite Ea, Eb. cbn [mbind option_bind]. eexists. split; [reflexivity|]. done.
  - exfalso. apply quantile_None in Ed. cbn [prices] in Ed. apply (f_equal length) in Ed.
    unfold sort_unstable, sort_by_key in Ed. rewrite sort_by_perm, length_fmap in Ed. by destruct (prices self).
Qed.

Lemma Distribution_of_None self : Distribution_of self = None <-> prices self = [].
Proof.
  split.
  - intros Hn. destruct (decide (prices self = [])) as [|Hne]; [done|].
    destruct (Distribution_of_Some self Hne) as (d & Hd & _). congruence.
  - intros Hn. unfold Distribution_of. by rewrite (proj2 (quantile_None self (lit 50 100)) Hn).
Qed.

Lemma lit_mono n m d : (0 < d)%Z -> (n <= m)%Z -> (lit n d <= lit m d)%Z.
Proof. intros Hd H. apply rnd_mono; [done..|]. pose proof one_pos. repeat (apply Z.mul_le_mono_nonneg_r; [lia|]). done. Qed.

(** The numbers of a distribution, from the least hourly price to the greatest. *)
Lemma Distribution_of_ordered b d :
  exact b -> Distribution_of b = Some d ->
  (forall p, p ∈ prices b -> at_rank b 1 <= p <= at_rank b (len b)) /\
  at_rank b 1 <= p05 d /\ p05 d <= p25 d /\ p25 d <= median d /\ median d <= p75 d /\ p75 d <= p95 d /\ p95 d <= at_rank b (len b).
Proof.
  intros He Hd. assert (prices b <> []) as Hn by (intros Hn; by rewrite (proj2 (Distribution_of_None b) Hn) in Hd).
  destruct (Distribution_of_Some b Hn) as (d' & Hd' & Q5 & Q25 & Q50 & Q75 & Q95 & _). rewrite Hd in Hd'. injection Hd' as <-.
  assert (1 <= len b) as Hlen by (unfold len; destruct (prices b); [done|cbn; lia]). pose proof He as (Hs & _). split_and!.
  - intros p Hin. apply list_elem_of_In, (In_nth _ _ 0) in Hin as (i & Hi' & <-).
    assert (nth i (prices b) 0 = at_rank b (N.of_nat i + 1)) as -> by (unfold at_rank; f_equal; lia).
    unfold len in *. split; apply at_rank_mono; unfold len; (done || lia).
  - by apply (quantile_in_range b (lit 5 100)).
  - eapply quantile_mono; [exact He| |exact Q5|exact Q25]. apply lit_mono; lia.
  - eapply quantile_mono; [exact He| |exact Q25|exact Q50]. apply lit_mono; lia.
  - eapply quantile_mono; [exact He| |exact Q50|exact Q75]. apply lit_mono; lia.
  - eapply quantile_mono; [exact He| |exact Q75|exact Q95]. apply lit_mono; lia.
  - by apply (quantile_in_range b (lit 95 100)).
Qed.

(** C38: The floating-point summary of a history is ordered and inside what was
    observed: the least hourly price, P5, P25, the median, P75, P95 and the greatest
    hourly price follow each other, an hour counts once with its last price, and only
    an empty history has no summary. *)
Theorem distribution_ordered obs :
  priced_history obs ->
  match Distribution_of (from_observations obs) with
  | None => obs = []
  | Some d =>
      (forall p, p ∈ prices (from_observations obs) -> exists o, last_of_hour obs o /\ o.2 = p) /\
      exists lo hi, lo ∈ prices (from_observations obs) /\ hi ∈ prices (from_observations obs) /\
        (forall p, p ∈ prices (from_observations obs) -> lo <= p <= hi) /\
        lo <= p05 d /\ p05 d <= p25 d /\ p25 d <= median d /\ median d <= p75 d /\ p75 d <= p95 d /\ p95 d <= hi /\
        iqr d = p75 d - p25 d /\ buckets d = wrap 32 (N.of_nat (size (hours obs)))
  end.
Proof.
  intros Hp. pose proof (from_observations_exact obs Hp) as He. set (b := from_observations obs) in *.
  destruct (Distribution_of b) as [d|] eqn:Hd; [|by apply from_observations_nil, Distribution_of_None].
  assert (prices b <> []) as Hn by (intros Hn; by rewrite (proj2 (Distribution_of_None b) Hn) in Hd).
  destruct (Distribution_of_Some b Hn) as (d' & Hd' & _ & _ & _ & _ & _ & Hi & Hb). rewrite Hd in Hd'. injection Hd' as <-.
  assert (1 <= len b) as Hlen by (unfold len; destruct (prices b); [done|cbn; lia]).
  destruct (Distribution_of_ordered b d He Hd) as (Hr & ? & ? & ? & ? & ? & ?).
  split; [intros p (o & Ho & Hp' & _)%from_observations_elem; eauto|].
  exists (at_rank b 1), (at_rank b (len b)). split_and!; try done; [apply at_rank_elem; lia|apply at_rank_elem; lia|].
  rewrite Hb. unfold b. by rewrite from_observations_len.
Qed.

Definition demo_history : list (Millis * Copper) :=
  [(3600000, 900); (100, 500); (200, 400); (7200000, 700); (10800000, 800); (14400000, 9000)].

(** Five hours: the observation at 100 ms is overtaken by the one at 200 ms. *)
Lemma distribution_ordered_witness :
  prices (from_observations demo_history) = [400; 700; 800; 900; 9000] /\
  exists d, Distribution_of (from_observations demo_history) = Some d /\ 400 <= p05 d /\ p95 d <= 9000 /\ buckets d = 5.
Proof.
  assert (prices (from_observations demo_history) = [400; 700; 800; 900; 9000]) as Hp by (vm_compute; reflexivity).
  split; [exact Hp|].
  assert (priced_history demo_history) as Hh
    by (split; [repeat constructor; vm_compute; discriminate|vm_compute; discriminate]).
  pose proof (distribution_ordered demo_history Hh) as H.
  destruct (Distribution_of (from_observations demo_history)) as [d|]; [|discriminate].
  destruct H as (_ & lo & hi & Hlo & Hhi & Hr & H1 & _ & _ & _ & _ & H6 & _ & Hb). exists d. split; [reflexivity|].
  pose proof (Hr 400 ltac:(rewrite Hp; left)) as R1. pose proof (Hr 9000 ltac:(rewrite Hp; do 4 right; left)) as R2.
  rewrite Hp in Hlo, Hhi. split_and!; [|..|exact Hb].
  - repeat (apply elem_of_cons in Hlo as [->|Hlo]; [lia|]). by apply elem_of_nil in Hlo.
  - repeat (apply elem_of_cons in Hhi as [->|Hhi]; [lia|]). by apply elem_of_nil in Hhi.
Defined.

(** ** Ranks *)
Definition count_below (self : Buckets) (price : Copper) : N := N.of_nat (length (filter (fun p => p < price) (prices self))).
Definition count_upto (self : Buckets) (price : Copper) : N := N.of_nat (length (filter (fun p => p <= price) (prices self))).

Lemma partition_count (P : N -> Prop) `{forall x, Decision (P x)} l :
  StronglySorted N.le l -> (forall a b, a <= b -> P b -> P a) ->
  partition_point (fun x => bool_decide (P x)) l = length (filter P l).
Proof.
  intros Hs HP. rewrite <- (length_take_le l (partition_point (fun x => bool_decide (P x)) l)) by apply partition_point_le.
  pose proof (partition_point_sorted id (fun x => bool_decide (P x)) l) as Ht. cbn [id] in Ht. rewrite Ht.
  - f_equal. clear. induction l as [|x l IH]; [done|]. rewrite !filter_cons. rewrite IH.
    case_decide as Hd; case_decide as Hd'; [done|..|done]; exfalso; by rewrite bool_decide_eq_true in Hd.
  - exact Hs.
  - intros a b Hab Hb. apply bool_decide_eq_true in Hb. by apply bool_decide_eq_true_2, (HP a b).
Qed.

(** The mid-rank: half-way between the share below and the share at or below. *)
Lemma rank_of_spec self price :
  StronglySorted N.le (prices self) -> prices self <> [] ->
  rank_of self price = Some ((count_below self price + count_upto self price) * 100 / (2 * len self)) /\
  (count_below self price + count_upto self price) * 100 / (2 * len self) <= 100.
Proof.
  intros Hs Hne. unfold rank_of, is_empty. rewrite bool_decide_eq_false_2 by done.
  rewrite (partition_count (fun p => p < price)), (partition_count (fun p => p <= price)) by (done || (intros; lia)).
  fold (count_below self price) (count_upto self price).
  assert (count_below self price <= len self /\ count_upto self price <= len self) as [Hb Hu].
  { unfold count_below, count_upto, len. pose proof (length_filter (fun p => p < price) (prices self)).
    pose proof (length_filter (fun p => p <= price) (prices self)). lia. }
  assert (0 < len self) as Hl by (unfold len; destruct (prices self); [done|cbn; lia]).
  assert ((count_below self price + count_upto self price) * 100 / (2 * len self) <= 100) as Hle
    by (apply N.Div0.div_le_upper_bound; lia).
  split; [|done]. rewrite N.min_l by done. rewrite wrap_small; [done|]. change (2 ^ 8) with 256. lia.
Qed.

Lemma rank_of_mono self p q r r' :
  StronglySorted N.le (prices self) -> p <= q -> rank_of self p = Some r -> rank_of self q = Some r' -> r <= r'.
Proof.
  intros Hs Hpq Hr Hr'. assert (prices self <> []) as Hne.
  { intros E. unfold rank_of, is_empty in Hr. by rewrite E in Hr. }
  destruct (rank_of_spec self p Hs Hne) as [Hp _], (rank_of_spec self q Hs Hne) as [Hq _]. rewrite Hr in Hp. rewrite Hr' in Hq.
  injection Hp as ->. injection Hq as ->. apply N.Div0.div_le_mono.
  assert (forall (P Q : N -> Prop) `{forall x, Decision (P x)} `{forall x, Decision (Q x)} l,
    (forall x, P x -> Q x) -> (length (filter P l) <= length (filter Q l))%nat) as Hf.
  { clear. intros P Q ? ? l H. induction l as [|x l IH]; [done|]. rewrite !filter_cons.
    repeat case_decide; cbn; try lia. exfalso. auto. }
  pose proof (Hf (fun x => x < p) (fun x => x < q) _ _ (prices self) ltac:(cbn; intros; lia)).
  pose proof (Hf (fun x => x <= p) (fun x => x <= q) _ _ (prices self) ltac:(cbn; intros; lia)).
  unfold count_below, count_upto. lia.
Qed.

(** A market that never moved is typical. *)
Lemma rank_of_steady self price :
  prices self <> [] -> Forall (fun p => p = price) (prices self) ->
  rank_of self price = Some 50 /\ Valuation.of_rank 50 = Valuation.Typical.
Proof.
  intros Hne Hall. split; [|done]. assert (StronglySorted N.le (prices self)) as Hs.
  { clear Hne. induction Hall as [|x l Hx Hall IH]; constructor; [done|]. eapply Forall_impl; [exact Hall|]. cbn. intros. lia. }
  destruct (rank_of_spec self price Hs Hne) as [-> _].
  assert (count_below self price = 0 /\ count_upto self price = len self) as [-> ->].
  { unfold count_below, count_upto, len. clear Hs Hne. induction Hall as [|x l -> Hall IH]; [done|]. rewrite !filter_cons.
    rewrite decide_False, decide_True by lia. cbn [length]. lia. }
  assert (0 < len self) as Hl by (unfold len; destruct (prices self); [done|cbn; lia]).
  f_equal. symmetry. apply (N.div_unique _ _ 50 0); lia.
Qed.

(** ** The gates *)
Definition enough (gates : Gates) (held : N) (coverage : option N) : Prop :=
  g_median gates <= held /\ g_tails gates <= held /\ from_option (fun c => g_coverage gates <= c) True coverage.

(** A position carries a valuation exactly when it carries no refusal, and then
    the history holds the buckets both gates ask for at the coverage they ask for, and
    the band is the one of the shown rank; a price is called an anomaly only against a
    distribution that has a spread. *)
Theorem position_gated price self coverage gates :
  StronglySorted N.le (prices self) ->
  let pos := Position_of price self coverage gates in
  (is_Some (pos_valuation pos) <-> pos_insufficient pos = None) /\
  (forall v, pos_valuation pos = Some v ->
     enough gates (wrap 32 (len self)) coverage /\
     exists r, pos_rank pos = Some r /\ r <= 100 /\ rank_of self price = Some r /\ v = Valuation.of_rank r) /\
  (pos_anomaly pos <> Anomaly.Ordinary -> exists d, Distribution_of self = Some d /\ p25 d < p75 d).
Proof.
  intros Hs pos. unfold pos, Position_of. destruct (decide (prices self = [])) as [Hn|Hn].
  { rewrite (proj2 (Distribution_of_None self) Hn). cbn. split_and!; [|done|done].
    split; [by intros [? ?]|done]. }
  destruct (Distribution_of_Some self Hn) as (d & Hd & _ & _ & _ & _ & _ & Hiqr & _). rewrite Hd. cbv zeta.
  cbn [pos_valuation pos_insufficient pos_rank pos_anomaly]. destruct (rank_of_spec self price Hs Hn) as [Hr Hle].
  unfold Gates_admit, admits_median. split_and!.
  - rewrite Hr. repeat case_decide || case_match; simplify_eq; split; try done; by intros [? ?].
  - intros v Hv. revert Hv. case_decide as Ht; [done|].
    assert (from_option (fun c => g_coverage gates <= c) True coverage \/ exists c, coverage = Some c /\ c < g_coverage gates) as [Hc|(c & -> & Hc)].
    { destruct coverage as [c|]; [|by left]. cbn. destruct (decide (c < g_coverage gates)); [right; eauto|left; lia]. }
    2: { by rewrite decide_True. }
    assert (match coverage with Some c => if decide (c < g_coverage gates) then Err (TooManyGaps c (g_coverage gates)) else Ok tt | None => Ok tt end
      = Ok (E := Insufficient) tt) as ->.
    { destruct coverage as [c|]; [|done]. cbn in Hc. by rewrite decide_False by lia. }
    rewrite Hr. case_bool_decide as Hm; [|done]. intros [= <-]. split; [split_and!; [done|lia|done]|]. by eexists.
  - intros Ha. exists d. split; [done|]. unfold Anomaly.of_ in Ha. case_decide as Hq; [done|]. rewrite Hiqr in Hq. lia.
Qed.

Lemma position_gated_witness :
  StronglySorted N.le (prices {| prices := [5; 5; 5] |}) /\
  let pos := Position_of 5 {| prices := [5; 5; 5] |} None {| g_median := 2; g_tails := 3; g_coverage := 25 |} in
  pos_valuation pos = Some Valuation.Typical /\ pos_insufficient pos = None.
Proof.
  assert (StronglySorted N.le (prices {| prices := [5; 5; 5] |})) as Hs by (repeat constructor; vm_compute; discriminate).
  split; [exact Hs|]. cbv zeta.
  assert (pos_valuation (Position_of 5 {| prices := [5; 5; 5] |} None {| g_median := 2; g_tails := 3; g_coverage := 25 |}) =
    Some Valuation.Typical) as Hv.
  { destruct (Distribution_of_Some {| prices := [5; 5; 5] |} ltac:(discriminate)) as (d & Hd & _).
    unfold Position_of. rewrite Hd. reflexivity. }
  split; [exact Hv|].
  exact (proj1 (proj1 (position_gated 5 _ None {| g_median := 2; g_tails := 3; g_coverage := 25 |} Hs)) (mk_is_Some _ _ Hv)).
Defined.
