(* ===== verification/Series.v ===== *)
(** * Series: charts and histograms at a fixed resolution

    Models [crates/app-core/src/market/series.rs]: [ChartSeries::over] reduces the
    observations of a window to 96 slots, with a rolling band over the trailing
    twelve, and [Histogram::of] counts hourly prices in 21 bins.  Both have a stored
    text form.

    Proved here: every slot holds the newest observation that falls into it and is a
    gap exactly when none does, for charts and for the sparklines of [Engine]; the
    stored forms read back; a histogram counts every bucket once. *)
From Stdlib Require Import Ascii.
From stdpp Require Import prelude gmap sorting strings pretty.
From S2P Require Import Prelude Text F64 Time Market Engine EngineLaws.

Definition RESOLUTION : N := 96.
Definition ROLLING_SLOTS : N := 12.

Record ChartPoint := {
  cp_at : Millis; cp_price : Copper; cp_median : Copper; cp_p25 : Copper; cp_p75 : Copper;
  cp_quantity : N; cp_listings : N; cp_observed : bool }.

Record ChartSeries := { cs_from : Millis; cs_until : Millis; cs_points : list ChartPoint }.
Definition ChartSeries_default : ChartSeries := {| cs_from := 0; cs_until := 0; cs_points := [] |}.

Record Observation := { o_at : Millis; o_price : Copper; o_quantity : N; o_listings : N }.

Definition gap (at_ : Millis) : ChartPoint :=
  {| cp_at := at_; cp_price := 0; cp_median := 0; cp_p25 := 0; cp_p75 := 0; cp_quantity := 0; cp_listings := 0;
     cp_observed := false |}.

(** The instant of slot [index] of [slots] over [from, from + span]. *)
Definition slot_at (from span slots : N) (index : nat) : Millis :=
  wrap 64 (from + wrap 64 (span * N.of_nat index) / slots).

(** The observations in the twelve slots up to [index]. *)
Definition trailing (held : list (option Observation)) (index : nat) : Buckets :=
  let start := N.to_nat (N.of_nat index - (ROLLING_SLOTS - 1)) in
  from_observations ((fun o => (o_at o, o_price o)) <$> omap id (drop start (take (S index) held))).

Definition point_of (from span : N) (held : list (option Observation)) (index : nat) (slot : option Observation) : ChartPoint :=
  let at_ := slot_at from span RESOLUTION index in
  match slot with
  | Some o =>
      let band := trailing held index in
      {| cp_at := at_; cp_price := o_price o;
         cp_median := default (o_price o) (quantile band (lit 50 100));
         cp_p25 := default (o_price o) (quantile band (lit 25 100));
         cp_p75 := default (o_price o) (quantile band (lit 75 100));
         cp_quantity := o_quantity o; cp_listings := o_listings o; cp_observed := true |}
  | None => gap at_
  end.

Definition slots_over (observations : list Observation) (from until : Millis) : list (option Observation) :=
  foldl (place o_at RESOLUTION from until) (replicate (N.to_nat RESOLUTION) None) observations.

Definition over (observations : list Observation) (from until : Millis) : ChartSeries :=
  let span := until - from in
  if decide (span = 0) then ChartSeries_default
  else
    let held := slots_over observations from until in
    {| cs_from := from; cs_until := until; cs_points := imap (point_of from span held) held |}.

Definition observed (self : ChartSeries) : N := N.of_nat (length (filter (fun p => cp_observed p = true) (cs_points self))).
Definition ChartSeries_is_empty (self : ChartSeries) : bool := bool_decide (observed self < 2).

Definition encode_point (p : ChartPoint) : string :=
  if cp_observed p
  then join ","%char (pretty <$> [cp_price p; cp_median p; cp_p25 p; cp_p75 p; cp_quantity p; cp_listings p])
  else "".

Definition ChartSeries_encode (self : ChartSeries) : string :=
  match cs_points self with
  | [] => ""
  | points => join ";"%char (join ","%char [pretty (cs_from self); pretty (cs_until self)] :: (encode_point <$> points))
  end.

Definition decode_point (at_ : Millis) (record : string) : ChartPoint :=
  match parse_u64 <$> split ","%char record with
  | Some price :: Some median :: Some p25 :: Some p75 :: Some quantity :: Some listings :: _ =>
      {| cp_at := at_; cp_price := price; cp_median := median; cp_p25 := p25; cp_p75 := p75;
         cp_quantity := quantity; cp_listings := wrap 32 listings; cp_observed := true |}
  | _ => gap at_
  end.

Definition ChartSeries_decode (raw : string) : ChartSeries :=
  match split ";"%char raw with
  | [] => ChartSeries_default
  | header :: slots =>
      match parse_u64 <$> split ","%char header with
      | Some from :: Some until :: _ =>
          match slots with
          | [] => ChartSeries_default
          | _ =>
              let span := until - from in
              {| cs_from := from; cs_until := until;
                 cs_points := imap (fun i => decode_point (slot_at from span (N.of_nat (length slots)) i)) slots |}
          end
      | _ => ChartSeries_default
      end
  end.

(** ** Histograms *)
Definition BINS : N := 21.

Record Histogram := { h_lo : Copper; h_hi : Copper; h_bins : list N }.

Definition bin (lo hi price : N) : N :=
  if decide (hi = lo) then BINS / 2 else N.min ((price - lo) * (BINS - 1) / (hi - lo)) (BINS - 1).

(** One more hour in the bin of each price. *)
Definition tally (lo hi : N) (bins : list N) (prices : list N) : list N :=
  foldl (fun bins p => alter (fun n => wrap 32 (n + 1)) (N.to_nat (bin lo hi p)) bins) bins prices.

Definition Histogram_of (self : Buckets) : option Histogram :=
  lo ← head (prices self); hi ← last (prices self);
  Some {| h_lo := lo; h_hi := hi;
          h_bins := tally lo hi (replicate (N.to_nat BINS) 0) (prices self) |}.

Definition bin_of (self : Histogram) (price : Copper) : option N :=
  if decide (price < h_lo self \/ h_hi self < price) then None else Some (bin (h_lo self) (h_hi self) price).

Definition tallest (self : Histogram) : N := foldr N.max 0 (h_bins self).
Definition Histogram_is_empty (self : Histogram) : bool := bool_decide (Forall (fun n => n = 0) (h_bins self)).

Definition Histogram_encode (self : Histogram) : string :=
  if Histogram_is_empty self then "" else join ","%char (pretty <$> (h_lo self :: h_hi self :: h_bins self)).

Definition Histogram_decode (raw : string) : option Histogram :=
  match split ","%char raw with
  | lo :: hi :: rest =>
      lo ← parse_u64 lo; hi ← parse_u64 hi;
      let bins := (fun f => default 0 (parse_u32 f)) <$> rest in
      if decide (N.of_nat (length bins) = BINS) then Some {| h_lo := lo; h_hi := hi; h_bins := bins |} else None
  | _ => None
  end.

(** ** Slots *)
Section Slots.
Context {A : Type} (at_ : A -> Millis) (resolution from until : N).

(** An observation of the window in slot [i]. *)
Definition in_slot (i : nat) (o : A) : Prop :=
  from <= at_ o <= until /\ slot_of resolution from (until - from) (at_ o) = i.

Lemma length_place held o : length (place at_ resolution from until held o) = length held.
Proof. unfold place. case_decide; [done|]. by rewrite length_alter. Qed.

Lemma length_places obs held : length (foldl (place at_ resolution from until) held obs) = length held.
Proof. revert held. induction obs as [|o obs IH]; intros held; [done|]. cbn. by rewrite IH, length_place. Qed.

(** A slot ends up with the newest observation that falls into it, and stays empty
    exactly when none does. *)
Lemma places_spec obs i n :
  (i < n)%nat ->
  exists slot, foldl (place at_ resolution from until) (replicate n None) obs !! i = Some slot /\
    match slot with
    | Some o => o ∈ obs /\ in_slot i o /\ forall o', o' ∈ obs -> in_slot i o' -> at_ o' <= at_ o
    | None => forall o, o ∈ obs -> ~ in_slot i o
    end.
Proof.
  intros Hi. induction obs as [|o obs IH] using rev_ind.
  { exists None. cbn. rewrite lookup_replicate_2 by done. split; [done|]. by intros o ?%elem_of_nil. }
  destruct IH as (slot & Hslot & IH). rewrite foldl_app. cbn [foldl]. set (held := foldl _ _ obs) in *. unfold place.
  case_decide as Hw.
  - exists slot. split; [done|]. assert (~ in_slot i o) as Hno by (intros [? _]; lia). destruct slot as [h|].
    + destruct IH as (Hin & Hs & Hmax). split_and!; [set_solver|done|]. intros o' [Ho'|Ho']%elem_of_app Hs'; [by apply Hmax|].
      apply list_elem_of_singleton in Ho'. by subst.
    + intros o' [Ho'|Ho']%elem_of_app; [by apply IH|]. apply list_elem_of_singleton in Ho'. by subst.
  - destruct (decide (slot_of resolution from (until - from) (at_ o) = i)) as [Hd|Hd].
    + assert (in_slot i o) as Ho by (split; [lia|done]). rewrite <- Hd, list_lookup_alter_eq, Hd, Hslot. cbn.
      eexists. split; [done|]. unfold keep_latest. destruct slot as [h|].
      * destruct IH as (Hin & Hs & Hmax). case_decide as Hlt.
        -- split_and!; [set_solver|done|]. intros o' [Ho'|Ho']%elem_of_app Hs'; [by apply Hmax|].
           apply list_elem_of_singleton in Ho'. subst. lia.
        -- split_and!; [set_solver|done|]. intros o' [Ho'|Ho']%elem_of_app Hs'.
           ++ specialize (Hmax o' Ho' Hs'). lia.
           ++ apply list_elem_of_singleton in Ho'. by subst.
      * split_and!; [set_solver|done|]. intros o' [Ho'|Ho']%elem_of_app Hs'; [by destruct (IH o' Ho')|].
        apply list_elem_of_singleton in Ho'. by subst.
    + rewrite list_lookup_alter_ne by done. exists slot. split; [done|].
      assert (~ in_slot i o) as Hno by (by intros [_ ?]). destruct slot as [h|].
      * destruct IH as (Hin & Hs & Hmax). split_and!; [set_solver|done|]. intros o' [Ho'|Ho']%elem_of_app Hs'; [by apply Hmax|].
        apply list_elem_of_singleton in Ho'. by subst.
      * intros o' [Ho'|Ho']%elem_of_app; [by apply IH|]. apply list_elem_of_singleton in Ho'. by subst.
Qed.
End Slots.

(** ** Charts *)
Definition window_ok (from until : Millis) : Prop := from < until <= u64_max /\ (until - from) * RESOLUTION < 2 ^ 64.
Definition observation_ok (o : Observation) : Prop := o_price o <= u64_max /\ o_quantity o <= u64_max /\ o_listings o <= u32_max.

Lemma to_u64_le x : to_u64 x <= u64_max.
Proof. unfold to_u64, u64_max. lia. Qed.

Lemma quantile_le self p v : Forall (fun x => x <= u64_max) (prices self) -> quantile self p = Some v -> v <= u64_max.
Proof.
  intros Hp. unfold quantile. case_decide; [done|]. case_decide.
  - intros [= <-]. rewrite Forall_forall in Hp. apply Hp, at_rank_elem. lia.
  - intros [= <-]. apply to_u64_le.
Qed.

Lemma length_slots_over obs from until : length (slots_over obs from until) = N.to_nat RESOLUTION.
Proof. unfold slots_over. by rewrite length_places, length_replicate. Qed.

Lemma slots_over_elem obs from until o : Some o ∈ slots_over obs from until -> o ∈ obs.
Proof.
  intros (i & Hi)%list_elem_of_lookup_1.
  assert (i < N.to_nat RESOLUTION)%nat as Hlt.
  { apply lookup_lt_Some in Hi. by rewrite length_slots_over in Hi. }
  destruct (places_spec o_at RESOLUTION from until obs i _ Hlt) as (slot & Hs & H).
  unfold slots_over in Hi. rewrite Hs in Hi. injection Hi as ->. by destruct H.
Qed.

Lemma trailing_prices obs from until i :
  Forall observation_ok obs -> Forall (fun x => x <= u64_max) (prices (trailing (slots_over obs from until) i)).
Proof.
  intros Ho. apply Forall_forall. intros p (o & [Hin _] & <- & _)%from_observations_elem.
  apply list_elem_of_fmap in Hin as (x & -> & (s & Hs & Hx)%list_elem_of_omap). cbn in Hx. subst s.
  assert (Some x ∈ slots_over obs from until) as Hin.
  { rewrite <- (take_drop (S i) (slots_over obs from until)). apply elem_of_app. left.
    rewrite <- (take_drop (N.to_nat (N.of_nat i - (ROLLING_SLOTS - 1))) (take (S i) _)). apply elem_of_app. by right. }
  apply slots_over_elem in Hin. rewrite Forall_forall in Ho. by apply Ho.
Qed.

(** Points as [over] makes them: numbers of their widths, and gaps that claim
    nothing. *)
Definition point_ok (from span : N) (i : nat) (p : ChartPoint) : Prop :=
  cp_at p = slot_at from span RESOLUTION i /\
  if cp_observed p
  then cp_price p <= u64_max /\ cp_median p <= u64_max /\ cp_p25 p <= u64_max /\ cp_p75 p <= u64_max /\
       cp_quantity p <= u64_max /\ cp_listings p <= u32_max
  else p = gap (cp_at p).

Lemma decode_encode_point from span i p :
  point_ok from span i p -> decode_point (slot_at from span RESOLUTION i) (encode_point p) = p.
Proof.
  intros [Hat Hp]. rewrite <- Hat. unfold decode_point, encode_point. destruct (cp_observed p) eqn:Ho; [|by rewrite Hp].
  destruct Hp as (H1 & H2 & H3 & H4 & H5 & H6). rewrite split_join_pretty by done.
  assert (cp_listings p <= u64_max) as H6' by (unfold u32_max, u64_max in *; lia).
  cbn [fmap list_fmap]. rewrite !parse_pretty by done. rewrite wrap_small by (unfold u32_max in *; lia). rewrite <- Ho. by destruct p.
Qed.

Lemma encode_point_sep p : has_char ";"%char (encode_point p) = false.
Proof.
  unfold encode_point. destruct (cp_observed p); [|done]. cbn [fmap list_fmap join].
  repeat (rewrite has_char_app, pretty_has_char by done; cbn [has_char orb]; rewrite bool_decide_eq_false_2 by done; cbn [orb]).
  by apply pretty_has_char.
Qed.

Lemma imap_decode from span points :
  (forall i p, points !! i = Some p -> point_ok from span i p) ->
  imap (fun i => decode_point (slot_at from span RESOLUTION i)) (encode_point <$> points) = points.
Proof.
  intros Hp. apply list_eq. intros i. rewrite list_lookup_imap, list_lookup_fmap. destruct (points !! i) as [p|] eqn:Hi; [|done].
  cbn. by rewrite (decode_encode_point from span i p (Hp i p Hi)).
Qed.

Lemma series_roundtrip self :
  cs_from self <= u64_max -> cs_until self <= u64_max ->
  length (cs_points self) = N.to_nat RESOLUTION ->
  (forall i p, cs_points self !! i = Some p -> point_ok (cs_from self) (cs_until self - cs_from self) i p) ->
  ChartSeries_decode (ChartSeries_encode self) = self.
Proof.
  intros Hf Hu Hlen Hp. unfold ChartSeries_encode, ChartSeries_decode. destruct self as [from until points].
  cbn [cs_points cs_from cs_until] in *.
  destruct points as [|p0 ps]; [done|]. set (points := p0 :: ps) in *.
  set (header := join ","%char [pretty from; pretty until]).
  assert (split ";"%char (join ";"%char (header :: (encode_point <$> points))) = header :: (encode_point <$> points)) as ->.
  { apply split_join; [done|]. apply Forall_cons. split.
    - unfold header. cbn [join]. rewrite has_char_app. cbn. by rewrite !pretty_has_char.
    - apply Forall_fmap, Forall_true. intros p. apply encode_point_sep. }
  unfold header. change [pretty from; pretty until] with (pretty <$> [from; until]). rewrite split_join_pretty by done.
  cbn [fmap list_fmap]. rewrite !parse_pretty by done.
  destruct (encode_point <$> points) as [|r rs] eqn:Hr.
  { apply (f_equal length) in Hr. rewrite length_fmap, Hlen in Hr. done. }
  rewrite <- Hr. f_equal. rewrite length_fmap, Hlen, N2Nat.id. by apply imap_decode.
Qed.

Lemma over_point_ok obs from until i p :
  Forall observation_ok obs -> cs_points (over obs from until) !! i = Some p -> point_ok from (until - from) i p.
Proof.
  intros Ho. unfold over. case_decide; [done|]. cbn [cs_points]. rewrite list_lookup_imap. intros (slot & Hs & ->)%fmap_Some.
  unfold point_of. destruct slot as [o|]; [|by split]. split; [done|]. cbn.
  assert (observation_ok o) as (H1 & H2 & H3).
  { apply list_elem_of_lookup_2, slots_over_elem in Hs. rewrite Forall_forall in Ho. by apply Ho. }
  pose proof (trailing_prices obs from until i Ho) as Ht.
  assert (forall q, default (o_price o) (quantile (trailing (slots_over obs from until) i) q) <= u64_max) as Hd.
  { intros q. destruct (quantile _ q) as [v|] eqn:Hq; [|done]. cbn. by eapply quantile_le. }
  split_and!; auto.
Qed.

(** A chart has 96 slots whatever the window; slot [i] stands at
    [from + i * span / 96], shows the newest observation of the slot with its own
    price, quantity and listings, and is a gap exactly when no observation of the
    window falls into it; and the stored text of the chart reads back as the chart. *)
Theorem chart_faithful obs from until :
  window_ok from until -> Forall observation_ok obs ->
  let s := over obs from until in
  length (cs_points s) = N.to_nat RESOLUTION /\
  (forall i p, cs_points s !! i = Some p ->
     cp_at p = from + (until - from) * N.of_nat i / RESOLUTION /\
     if cp_observed p
     then exists o, o ∈ obs /\ in_slot o_at RESOLUTION from until i o /\
       (forall o', o' ∈ obs -> in_slot o_at RESOLUTION from until i o' -> o_at o' <= o_at o) /\
       cp_price p = o_price o /\ cp_quantity p = o_quantity o /\ cp_listings p = o_listings o
     else forall o, o ∈ obs -> ~ in_slot o_at RESOLUTION from until i o) /\
  ChartSeries_decode (ChartSeries_encode s) = s.
Proof.
  intros [[Hlt Hu] Hfit] Ho s. assert (s = {| cs_from := from; cs_until := until;
    cs_points := imap (point_of from (until - from) (slots_over obs from until)) (slots_over obs from until) |}) as Es.
  { unfold s, over. by rewrite decide_False by lia. }
  assert (length (cs_points s) = N.to_nat RESOLUTION) as Hlen by (rewrite Es; cbn; by rewrite length_imap, length_slots_over).
  split_and!; [done| |].
  - intros i p Hi. assert (i < N.to_nat RESOLUTION)%nat as Hir by (rewrite <- Hlen; by eapply lookup_lt_Some).
    destruct (over_point_ok obs from until i p Ho Hi) as [Hat _]. split.
    + rewrite Hat. unfold slot_at, RESOLUTION in *. rewrite (wrap_small 64 ((until - from) * N.of_nat i)) by nia.
      apply wrap_small. assert ((until - from) * N.of_nat i / 96 <= until - from) by (apply N.Div0.div_le_upper_bound; nia).
      unfold u64_max in *. lia.
    + rewrite Es in Hi. cbn in Hi. rewrite list_lookup_imap in Hi. apply fmap_Some in Hi as (slot & Hs & ->).
      destruct (places_spec o_at RESOLUTION from until obs i _ Hir) as (slot' & Hs' & Hspec).
      unfold slots_over in Hs. rewrite Hs in Hs'. injection Hs' as <-.
      destruct slot as [o|]; cbn; [|done]. destruct Hspec as (H1 & H2 & H3). exists o. done.
  - apply series_roundtrip; [rewrite Es; cbn; lia|rewrite Es; cbn; lia|done|]. intros i p Hi.
    rewrite Es at 1 2 3. cbn. by apply (over_point_ok obs).
Qed.

Definition demo_observations : list Observation :=
  [{| o_at := 3500; o_price := 70; o_quantity := 4; o_listings := 2 |};
   {| o_at := 3100; o_price := 90; o_quantity := 1; o_listings := 1 |};
   {| o_at := 96000; o_price := 80; o_quantity := 6; o_listings := 3 |}].

Lemma chart_faithful_witness :
  (cp_price <$> cs_points (over demo_observations 0 96000) !! 3%nat) = Some 70 /\
  (cp_observed <$> cs_points (over demo_observations 0 96000) !! 4%nat) = Some false /\
  ChartSeries_decode (ChartSeries_encode (over demo_observations 0 96000)) = over demo_observations 0 96000.
Proof.
  assert (window_ok 0 96000) as Hw by (split; [split|]; vm_compute; (reflexivity || discriminate)).
  assert (Forall observation_ok demo_observations) as Ho by (repeat constructor; vm_compute; discriminate).
  split; [vm_compute; reflexivity|]. split; [vm_compute; reflexivity|].
  exact (proj2 (proj2 (chart_faithful demo_observations 0 96000 Hw Ho))).
Defined.

(** ** Sparklines

    The same slots, the same forgiving text form. *)
Lemma spark_slots obs from until i :
  until - from <> 0 -> (i < N.to_nat SPARK_SLOTS)%nat ->
  exists slot, slots (Spark_over obs from until) !! i = Some slot /\
    match slot with
    | Some price => exists o, o ∈ obs /\ o.2 = price /\ in_slot fst SPARK_SLOTS from until i o /\
        forall o', o' ∈ obs -> in_slot fst SPARK_SLOTS from until i o' -> o'.1 <= o.1
    | None => forall o, o ∈ obs -> ~ in_slot fst SPARK_SLOTS from until i o
    end.
Proof.
  intros Hs Hi. unfold Spark_over. rewrite decide_False by done. cbn [slots]. rewrite list_lookup_fmap.
  destruct (places_spec fst SPARK_SLOTS from until obs i _ Hi) as (slot & -> & Hspec). eexists. split; [done|].
  destruct slot as [o|]; cbn; [|done]. destruct Hspec as (H1 & H2 & H3). by exists o.
Qed.

Lemma spark_roundtrip self :
  (1 < length (slots self) <= N.to_nat SPARK_SLOTS)%nat -> Forall (fun s => from_option (fun p => p <= u64_max) True s) (slots self) ->
  Spark_decode (Spark_encode self) = self.
Proof.
  intros Hl Hp. unfold Spark_decode, Spark_encode. destruct self as [sl]. cbn [slots] in *.
  set (enc := fun s : option Copper => match s with Some price => pretty price | None => "" end).
  assert (Forall (fun p => has_char ","%char p = false) (enc <$> sl)) as Hsep.
  { apply Forall_fmap, Forall_true. intros [p|]; [|done]. by apply pretty_has_char. }
  assert (split ","%char (join ","%char (enc <$> sl)) = enc <$> sl) as Hsj.
  { apply split_join; [|done]. by destruct sl; [cbn in Hl; lia|]. }
  destruct (join ","%char (enc <$> sl)) as [|a s] eqn:Hj.
  { cbn in Hsj. apply (f_equal length) in Hsj. rewrite length_fmap in Hsj. cbn in Hsj. lia. }
  rewrite Hsj, take_ge by (rewrite length_fmap; lia). f_equal. clear -Hp.
  induction Hp as [|s sl Hs _ IH]; [done|]. rewrite !fmap_cons. f_equal; [|exact IH].
  destruct s as [p|]; [|done]. cbn in *. by apply parse_pretty.
Qed.

(** ** Histograms count every bucket once *)
Lemma bin_lt lo hi price : bin lo hi price < BINS.
Proof. unfold bin, BINS. case_decide; [done|]. lia. Qed.

Lemma alter_count (bins : list N) i :
  (i < length bins)%nat -> Forall (fun n => n + 1 < 2 ^ 32) bins ->
  sumN (alter (fun n => wrap 32 (n + 1)) i bins) = sumN bins + 1.
Proof.
  revert i. induction bins as [|n bins IH]; intros i Hi Hb; [cbn in Hi; lia|]. apply Forall_cons in Hb as [Hn Hb].
  destruct i as [|i].
  - change (sumN (alter ?f 0%nat (n :: bins))) with (f n + sumN bins). cbv beta. rewrite wrap_small, sumN_cons by done. lia.
  - change (sumN (alter ?f (S i) (n :: bins))) with (n + sumN (alter f i bins)). cbn [length] in Hi.
    rewrite IH, sumN_cons by (done || lia). lia.
Qed.

Lemma tally_sum lo hi l bins :
  length bins = N.to_nat BINS -> sumN bins + N.of_nat (length l) < 2 ^ 32 ->
  sumN (tally lo hi bins l) = sumN bins + N.of_nat (length l) /\ length (tally lo hi bins l) = N.to_nat BINS.
Proof.
  revert bins. induction l as [|p l IH]; intros bins Hl Hs.
  { change (tally lo hi bins []) with bins. split; [cbn [length]; lia|done]. }
  change (tally lo hi bins (p :: l)) with (tally lo hi (alter (fun n => wrap 32 (n + 1)) (N.to_nat (bin lo hi p)) bins) l).
  cbn [length] in *. pose proof (bin_lt lo hi p) as Hb. assert (N.to_nat (bin lo hi p) < length bins)%nat as Hi by lia.
  assert (Forall (fun n => n + 1 < 2 ^ 32) bins) as Hn.
  { apply Forall_forall. intros n Hin. pose proof (sumN_elem n bins Hin). lia. }
  pose proof (alter_count bins _ Hi Hn) as Ha.
  destruct (IH (alter (fun n => wrap 32 (n + 1)) (N.to_nat (bin lo hi p)) bins)) as [H1 H2].
  - by rewrite length_alter.
  - rewrite Ha. lia.
  - split; [rewrite H1, Ha; lia|done].
Qed.

Lemma histogram_counts self h :
  Histogram_of self = Some h -> len self < 2 ^ 32 ->
  sumN (h_bins h) = len self /\ N.of_nat (length (h_bins h)) = BINS /\ Forall (fun n => n <= len self) (h_bins h).
Proof.
  unfold Histogram_of. destruct (head (prices self)) as [lo|]; [|done]. destruct (last (prices self)) as [hi|]; [|done].
  intros <-%(inj Some) Hlen. cbn [h_bins].
  destruct (tally_sum lo hi (prices self) (replicate (N.to_nat BINS) 0)) as [H1 H2]; [done|exact Hlen|].
  change (sumN (replicate (N.to_nat BINS) 0)) with 0 in H1. rewrite N.add_0_l in H1. fold (len self) in H1.
  split_and!; [done|by rewrite H2|]. apply Forall_forall. intros n Hin. rewrite <- H1. by apply sumN_elem.
Qed.

Lemma histogram_roundtrip self :
  Histogram_is_empty self = false -> N.of_nat (length (h_bins self)) = BINS -> h_lo self <= u64_max -> h_hi self <= u64_max ->
  Forall (fun n => n <= u32_max) (h_bins self) -> Histogram_decode (Histogram_encode self) = Some self.
Proof.
  intros He Hl Hlo Hhi Hb. unfold Histogram_encode, Histogram_decode. rewrite He, split_join_pretty by done.
  cbn [fmap list_fmap]. rewrite !parse_pretty by done. cbn [mbind option_bind].
  assert ((fun f => default 0 (parse_u32 f)) <$> (pretty <$> h_bins self) = h_bins self) as Hbins.
  { rewrite <- list_fmap_compose. clear -Hb. induction Hb as [|n l Hn _ IH]; [done|].
    rewrite fmap_cons. f_equal; [|exact IH]. cbn. by rewrite parse_pretty. }
  change (list_fmap _ _ pretty (h_bins self)) with (pretty <$> h_bins self). rewrite Hbins, decide_True by done. by destruct self.
Qed.
