(* ===== verification/MarketKey.v ===== *)
(** * MarketKey: what identifies a market, and its canonical text

    Models [crates/app-core/src/market/key.rs] and the functions of
    [crates/app-core/src/market/catalog.rs] that file a sample under its market.

    Proved here: the canonical text of a key reads back as the key, so two markets
    are never filed under one text; whatever text is accepted names a key of the
    widths and ranks the constructors give, and one that canonicalises to itself. *)
From Stdlib Require Import Ascii.
From stdpp Require Import prelude gmap strings pretty.
From S2P Require Import Prelude Text Time Market Catalog.

Abbreviation RealmId := N.

Inductive MarketKey :=
| Commodity (region : Region) (item : ItemId) (rank : N)
| Recipe (region : Region) (realm : RealmId) (item : ItemId)
| Boe (region : Region) (realm : RealmId) (item : ItemId) (track : option Track.t).

#[export] Instance MarketKey_eq_dec : EqDecision MarketKey.
Proof. solve_decision. Defined.

(** A rank of zero means the caller did not know, and becomes one. *)
Definition commodity (region : Region) (item : ItemId) (rank : N) : MarketKey := Commodity region item (N.max rank 1).
Definition recipe (region : Region) (realm : RealmId) (item : ItemId) : MarketKey := Recipe region realm item.
Definition boe (region : Region) (realm : RealmId) (item : ItemId) (track : option Track.t) : MarketKey :=
  Boe region realm item track.

Definition key_region (self : MarketKey) : Region :=
  match self with Commodity r _ _ | Recipe r _ _ | Boe r _ _ _ => r end.
Definition key_item (self : MarketKey) : ItemId :=
  match self with Commodity _ i _ | Recipe _ _ i | Boe _ _ i _ => i end.
Definition key_realm (self : MarketKey) : option RealmId :=
  match self with Commodity _ _ _ => None | Recipe _ r _ | Boe _ r _ _ => Some r end.
Definition key_is_commodity (self : MarketKey) : bool := match self with Commodity _ _ _ => true | _ => false end.
Definition tag (self : MarketKey) : string :=
  match self with Commodity _ _ _ => "c" | Recipe _ _ _ => "r" | Boe _ _ _ _ => "b" end.

Definition track_slug (track : option Track.t) : string :=
  match track with None => "-" | Some t => Track.slug t end.

Definition key_fields (self : MarketKey) : list string :=
  match self with
  | Commodity _ item rank => [pretty item; pretty rank]
  | Recipe _ realm item => [pretty realm; pretty item]
  | Boe _ realm item track => [pretty realm; pretty item; track_slug track]
  end.

(** [Display]: the fields with colons between them. *)
Definition key_to_string (self : MarketKey) : string :=
  join ":"%char (tag self :: Region_as_str (key_region self) :: key_fields self).

Inductive BadMarketKey := NotAKey (raw : string).

Definition read_track (slug : string) : option (option Track.t) :=
  if decide (slug = "-") then Some None else Some <$> Track.from_slug slug.

(** [from_str], with every failing step an error that names the text. *)
Definition read_key (tag : string) (region : Region) (parts : list string) : option MarketKey :=
  if decide (tag = "c") then
    match parts with
    | [a; b] =>
        item ← parse_u32 a; rank ← parse_u8 b;
        if decide (rank = 0) then None else Some (Commodity region item rank)
    | _ => None
    end
  else if decide (tag = "r") then
    match parts with
    | [a; b] => realm ← parse_u32 a; item ← parse_u32 b; Some (Recipe region realm item)
    | _ => None
    end
  else if decide (tag = "b") then
    match parts with
    | [a; b; c] => realm ← parse_u32 a; item ← parse_u32 b; track ← read_track c; Some (Boe region realm item track)
    | _ => None
    end
  else None.

Definition from_str (raw : string) : Result MarketKey BadMarketKey :=
  ok_or (NotAKey raw)
    match split ":"%char raw with
    | tag :: region :: parts => r ← Region_parse region; read_key tag r parts
    | _ => None
    end.

(** ** Filing a sample under its market *)
Definition market_of_key (self : Catalog) (region : Region) (item : ItemId) : MarketKey :=
  commodity region item (default 1 (entry ← find_item self item; rank_of entry item)).

Definition market_of (self : Catalog) (sample : PriceSample) : MarketKey :=
  market_of_key self (ps_region sample) (ps_item sample).

(** ** Laws *)
Definition key_wf (self : MarketKey) : Prop :=
  match self with
  | Commodity _ item rank => item <= u32_max /\ 1 <= rank <= u8_max
  | Recipe _ realm item | Boe _ realm item _ => realm <= u32_max /\ item <= u32_max
  end.

Lemma key_fields_sep self : Forall (fun p => has_char ":"%char p = false) (tag self :: Region_as_str (key_region self) :: key_fields self).
Proof.
  repeat (apply Forall_cons; split); [by destruct self|by destruct (key_region self)|].
  destruct self as [r i k|r m i|r m i t]; repeat constructor; try by apply pretty_has_char. by destruct t as [[]|].
Qed.

Lemma read_track_slug t : read_track (track_slug t) = Some t.
Proof. by destruct t as [[]|]. Qed.

Lemma from_str_to_string self : key_wf self -> from_str (key_to_string self) = Ok self.
Proof.
  intros Hwf. unfold from_str, key_to_string. rewrite split_join by (done || apply key_fields_sep).
  rewrite Region_parse_as_str. cbn [mbind option_bind].
  destruct self as [r i k|r m i|r m i t]; cbn in Hwf; cbn [tag key_fields key_region]; unfold read_key.
  - rewrite decide_True by done. destruct Hwf as [Hi [Hk Hk']]. rewrite !parse_pretty by done.
    cbn [mbind option_bind]. by rewrite decide_False by lia.
  - rewrite decide_False, decide_True by done. destruct Hwf as [Hm Hi]. by rewrite !parse_pretty by done.
  - rewrite !decide_False, decide_True by done. destruct Hwf as [Hm Hi]. rewrite !parse_pretty by done.
    cbn [mbind option_bind]. by rewrite read_track_slug.
Qed.

Lemma read_key_wf tag r parts k : read_key tag r parts = Some k -> key_wf k.
Proof.
  unfold read_key. repeat case_decide; try done.
  - destruct parts as [|a [|b [|]]]; try done. destruct (parse_u32 a) as [i|] eqn:Ha; [|done]. cbn.
    destruct (parse_u8 b) as [k0|] eqn:Hb; [|done]. cbn. case_decide; [done|]. intros [= <-].
    apply parse_uint_le in Ha, Hb. cbn. lia.
  - destruct parts as [|a [|b [|]]]; try done. destruct (parse_u32 a) as [i|] eqn:Ha; [|done]. cbn.
    destruct (parse_u32 b) as [j|] eqn:Hb; [|done]. cbn. intros [= <-]. by apply parse_uint_le in Ha, Hb.
  - destruct parts as [|a [|b [|c [|]]]]; try done. destruct (parse_u32 a) as [i|] eqn:Ha; [|done]. cbn.
    destruct (parse_u32 b) as [j|] eqn:Hb; [|done]. cbn. destruct (read_track c) as [t|]; [|done]. cbn.
    intros [= <-]. by apply parse_uint_le in Ha, Hb.
Qed.

Lemma from_str_wf raw k : from_str raw = Ok k -> key_wf k.
Proof.
  unfold from_str. destruct (split ":"%char raw) as [|t [|r parts]]; try done. destruct (Region_parse r) as [reg|]; [|done]. cbn.
  destruct (read_key t reg parts) as [k'|] eqn:Hk; [|done]. intros [= <-]. by eapply read_key_wf.
Qed.

(** C39: The canonical text of a market key reads back as the key, different keys have
    different texts, and every text that is accepted stands for a well-formed key,
    commodity ranks counted from one, whose canonical text reads back as that key. *)
Theorem market_key_canonical :
  (forall k, key_wf k -> from_str (key_to_string k) = Ok k) /\
  (forall k k', key_wf k -> key_wf k' -> key_to_string k = key_to_string k' -> k = k') /\
  (forall raw k, from_str raw = Ok k -> key_wf k /\ from_str (key_to_string k) = Ok k) /\
  (forall raw e, from_str raw = Err e -> e = NotAKey raw /\ forall k, key_wf k -> raw <> key_to_string k).
Proof.
  split_and!.
  - apply from_str_to_string.
  - intros k k' Hk Hk' E. pose proof (from_str_to_string k Hk) as H. rewrite E, from_str_to_string in H by done. congruence.
  - intros raw k Hr. pose proof (from_str_wf raw k Hr) as Hk. split; [done|]. by apply from_str_to_string.
  - intros raw e He. split.
    + unfold from_str, ok_or in He. case_match; congruence.
    + intros k Hk ->. rewrite from_str_to_string in He by done. done.
Qed.

(** A key stays a key of the catalogue: the rank filed is one a reader can see. *)
Lemma market_of_key_rank self region item : exists rank, market_of_key self region item = Commodity region item rank /\ 1 <= rank.
Proof. eexists. split; [done|]. lia. Qed.

(** Texts that differ from the canonical one are accepted: the region in any case, and
    numbers with a sign or leading zeros. *)
Example noncanonical_key_accepted :
  from_str "c:EU:+0212265:03" = from_str "c:eu:212265:3" /\ from_str "c:eu:212265:3" = Ok (Commodity Eu 212265 3).
Proof. by vm_compute. Qed.
