(* ===== verification/Realm.v ===== *)
(** * Realm: the per-realm auction house and when to ask it again

    Models [crates/app-core/src/market/realm.rs] and the realm half of
    [crates/server/src/collector_task.rs]: the polling cadence of one realm, its text
    in the key/value store, the choice of the realms that are due, and the reduction
    of a realm's listings to one sample and one ladder per variant.

    The answer of the upstream and of the store is an [Outcome] argument.  Proved:
    whatever was stored before, after a poll the realm is asked again no sooner than
    the configured minimum and no later than the configured maximum, a fresh snapshot
    returns it to the minimum and three unchanged ones take it to the maximum; the
    bonus list is the identity of a variant; every listing is counted in exactly one
    sample. *)
From Stdlib Require Import Ascii.
From stdpp Require Import prelude gmap sorting strings pretty.
From S2P Require Import Prelude Text Time Market Catalog Depth DepthLaws MarketKey.

Record Realm := {
  r_id : RealmId; r_region : Region; r_name : string; r_members : list string; r_locale : string; r_enabled : bool }.

(** ** Cadence *)
Record RealmCadence := { interval_ms : N; next_check_at : Millis }.

#[export] Instance RealmCadence_eq_dec : EqDecision RealmCadence.
Proof. solve_decision. Defined.

Definition sat_mul (max a b : N) : N := N.min (a * b) max.

Definition bounds (minimum_ms maximum_ms : N) : N * N :=
  let minimum := N.max minimum_ms 1 in (minimum, N.max maximum_ms minimum).

Definition RealmCadence_new (now : Millis) (minimum_ms : N) : RealmCadence :=
  {| interval_ms := minimum_ms; next_check_at := now |}.

Definition is_due (self : RealmCadence) (now : Millis) : bool := bool_decide (next_check_at self <= now).

Definition within_bounds (self : RealmCadence) (minimum_ms maximum_ms : N) : RealmCadence :=
  let '(minimum, maximum) := bounds minimum_ms maximum_ms in
  let previous := N.max (interval_ms self) 1 in
  let checked_at := next_check_at self - previous in
  let interval := N.max minimum (N.min maximum (interval_ms self)) in
  {| interval_ms := interval; next_check_at := plus_ms checked_at interval |}.

Definition after_unchanged (self : RealmCadence) (now : Millis) (minimum_ms maximum_ms : N) : RealmCadence :=
  let '(minimum, maximum) := bounds minimum_ms maximum_ms in
  let five := N.min (sat_mul u64_max minimum 5) maximum in
  let fifteen := N.min (sat_mul u64_max minimum 15) maximum in
  let interval := if decide (interval_ms self < five) then five
                  else if decide (interval_ms self < fifteen) then fifteen else maximum in
  {| interval_ms := interval; next_check_at := plus_ms now interval |}.

Definition after_activity (now : Millis) (minimum_ms maximum_ms : N) : RealmCadence :=
  let '(minimum, _) := bounds minimum_ms maximum_ms in
  {| interval_ms := minimum; next_check_at := plus_ms now minimum |}.

Definition after_failure (self : RealmCadence) (now : Millis) (minimum_ms maximum_ms : N) : RealmCadence :=
  let '(_, maximum) := bounds minimum_ms maximum_ms in
  let current := within_bounds self minimum_ms maximum in
  let interval := N.min (sat_mul u64_max (interval_ms current) 2) maximum in
  {| interval_ms := interval; next_check_at := plus_ms now interval |}.

(** ** The collector's side of it *)
Definition realm_cadence_key (realm : Realm) : string :=
  "market/realm-cadence/" +:+ Region_as_str (r_region realm) +:+ "/" +:+ pretty (r_id realm).

(** [load_realm_cadence] on the stored value: text that does not parse counts as
    absent. *)
Definition parse_cadence (value : string) : option RealmCadence :=
  '(i, n) ← split_once ","%char value; interval ← parse_u64 i; next ← parse_u64 n;
  Some {| interval_ms := interval; next_check_at := next |}.

Definition cadence_text (c : RealmCadence) : string :=
  pretty (interval_ms c) +:+ String ","%char (pretty (next_check_at c)).

(** The cadence a cycle works with: what the store holds, within the configured
    bounds, or a new one where it holds nothing or could not be read. *)
Definition load_cadence (read : option (option string)) (now : Millis) (minimum_ms maximum_ms : N) : RealmCadence :=
  match read with
  | Some (Some value) =>
      match parse_cadence value with
      | Some c => within_bounds c minimum_ms maximum_ms
      | None => RealmCadence_new now minimum_ms
      end
  | _ => RealmCadence_new now minimum_ms
  end.

(** What one realm's collection did. *)
Inductive Outcome := Collected | Unchanged | Failed.

(** [collect_one_realm]'s new cadence: a snapshot that could not be stored is a failure. *)
Definition next_cadence (o : Outcome) (c : RealmCadence) (now : Millis) (minimum_ms maximum_ms : N) : RealmCadence :=
  match o with
  | Unchanged => after_unchanged c now minimum_ms maximum_ms
  | Collected => after_activity now minimum_ms maximum_ms
  | Failed => after_failure c now minimum_ms maximum_ms
  end.

(** The enabled realms that are due, with the cadence they are polled under. *)
Definition due_realms (read : Realm -> option (option string)) (realms : list Realm) (now : Millis)
    (config : MarketConfig) : list (Realm * RealmCadence) :=
  omap (fun r => let c := load_cadence (read r) now (realm_min_interval_ms config) (realm_max_interval_ms config) in
                 if is_due c now then Some (r, c) else None)
    (filter (fun r => r_enabled r = true) realms).

(** One realm's turn of a cycle: the store's value afterwards. [saved] says whether the
    write succeeded, which the collector only logs. *)
Definition poll (o : Outcome) (saved : bool) (value : option string) (now polled : Millis) (minimum_ms maximum_ms : N) : option string :=
  let c := load_cadence (Some value) now minimum_ms maximum_ms in
  if is_due c now then
    if saved then Some (cadence_text (next_cadence o c polled minimum_ms maximum_ms)) else value
  else value.

(** ** Listings *)
Record GearListing := { g_item : ItemId; g_price : Copper; g_bonus_ids : list N }.

Definition variant (self : GearListing) : string := join ","%char (pretty <$> g_bonus_ids self).

Record RealmSample := {
  rs_item : ItemId; rs_region : Region; rs_realm : RealmId; rs_variant : string; rs_observed_at : Millis;
  rs_min_price : Copper; rs_median_price : Copper; rs_max_price : Copper; rs_listings : N }.

Definition group_gear (listings : list GearListing) : gmap (N * string) (list Copper) :=
  group_by (fun l => (g_item l, variant l)) g_price listings.

Definition market_cmp (a b : (N * string) * list Copper) : comparison :=
  cmp_then (N.compare a.1.1 b.1.1) (string_cmp a.1.2 b.1.2).

Definition gear_sample (region : Region) (realm : RealmId) (observed : Millis) (group : (N * string) * list Copper) :
    option (RealmSample * (ItemId * string * Ladder)) :=
  let '((item, v), ps) := group in
  let sorted := sort_by_key id ps in
  min ← head sorted; max ← last sorted;
  Some ({| rs_item := item; rs_region := region; rs_realm := realm; rs_variant := v; rs_observed_at := observed;
           rs_min_price := min; rs_median_price := nth (length sorted / 2) sorted 0; rs_max_price := max;
           rs_listings := wrap 32 (N.of_nat (length sorted)) |},
        (item, v, Ladder_of ((fun p => {| l_item := item; unit_price := p; l_quantity := 1 |}) <$> sorted))).

Definition summarise_realm (listings : list GearListing) (region : Region) (realm : RealmId) (observed : Millis) :
    list RealmSample * list (ItemId * string * Ladder) :=
  let all := omap (gear_sample region realm observed) (sort_by market_cmp (map_to_list (group_gear listings))) in
  (all.*1, all.*2).

Definition market_of_realm (self : Catalog) (sample : RealmSample) : MarketKey :=
  match ci_kind <$> find_item self (rs_item sample) with
  | Some ItemKind.Recipe => recipe (rs_region sample) (rs_realm sample) (rs_item sample)
  | _ => boe (rs_region sample) (rs_realm sample) (rs_item sample) (track_in self (rs_variant sample))
  end.

(** ** Laws of the cadence *)
Definition in_bounds (minimum_ms maximum_ms : N) (interval : N) : Prop :=
  let '(minimum, maximum) := bounds minimum_ms maximum_ms in minimum <= interval <= maximum.

Ltac solve_bounds := unfold in_bounds, bounds, sat_mul, plus_ms, sat_add in *; cbn in *; repeat case_decide; lia.

Lemma within_bounds_in self a b : in_bounds a b (interval_ms (within_bounds self a b)).
Proof. unfold within_bounds. solve_bounds. Qed.

Lemma next_cadence_in o c now a b :
  in_bounds a b (interval_ms c) -> b <= u64_max -> a <= u64_max ->
  in_bounds a b (interval_ms (next_cadence o c now a b)) /\
  next_check_at (next_cadence o c now a b) = plus_ms now (interval_ms (next_cadence o c now a b)).
Proof.
  intros Hc Hb Ha. destruct o; cbn [next_cadence].
  - split; [|done]. unfold after_activity. solve_bounds.
  - split; [|done]. unfold after_unchanged. unfold u64_max in *. solve_bounds.
  - split; [|done]. unfold after_failure, within_bounds. unfold u64_max in *. solve_bounds.
Qed.

Lemma parse_cadence_text c :
  interval_ms c <= u64_max -> next_check_at c <= u64_max -> parse_cadence (cadence_text c) = Some c.
Proof.
  intros Hi Hn. unfold parse_cadence, cadence_text. rewrite split_once_app by (by apply pretty_has_char). cbn [mbind option_bind].
  rewrite !parse_pretty by done. by destruct c.
Qed.

(** A cadence already within the bounds is left as it is. *)
Lemma within_bounds_id c a b :
  in_bounds a b (interval_ms c) -> interval_ms c <= next_check_at c <= u64_max -> within_bounds c a b = c.
Proof.
  intros Hc Hn. destruct c as [i n]. unfold within_bounds, in_bounds, bounds, plus_ms, sat_add in *. cbn in *. f_equal; lia.
Qed.

(** A realm never polled before starts at the configured minimum, which is below the
    lower bound only when it is zero. *)
Lemma load_cadence_in read now a b :
  0 < a -> in_bounds a b (interval_ms (load_cadence read now a b)).
Proof.
  intros Ha. unfold load_cadence. assert (in_bounds a b (interval_ms (RealmCadence_new now a))) as Hn by (cbn; solve_bounds).
  destruct read as [[v|]|]; [|done..]. destruct (parse_cadence v); [apply within_bounds_in|done].
Qed.

(** The cadence a realm is next loaded with after a poll that was saved. *)
Definition reloaded (o : Outcome) (value : option string) (now polled later : Millis) (a b : N) : RealmCadence :=
  load_cadence (Some (poll o true value now polled a b)) later a b.

Lemma poll_reload o value now polled later a b :
  0 < a -> a <= u64_max -> b <= u64_max -> polled + N.max a b <= u64_max ->
  is_due (load_cadence (Some value) now a b) now = true ->
  reloaded o value now polled later a b = next_cadence o (load_cadence (Some value) now a b) polled a b /\
  in_bounds a b (interval_ms (reloaded o value now polled later a b)) /\
  next_check_at (reloaded o value now polled later a b) = polled + interval_ms (reloaded o value now polled later a b).
Proof.
  intros Ha Ha' Hb Hfit Hdue. unfold reloaded, poll. rewrite Hdue. set (c := load_cadence (Some value) now a b).
  destruct (next_cadence_in o c polled a b) as [Hin Hnext]; [by apply load_cadence_in|done|done|].
  set (c' := next_cadence o c polled a b) in *.
  assert (interval_ms c' <= N.max a b) as Hle by (unfold in_bounds, bounds in Hin; cbn in Hin; lia).
  unfold plus_ms in Hnext. rewrite sat_add_small in Hnext by lia.
  cbn [load_cadence]. clearbody c'. clear c Hdue. rewrite parse_cadence_text by lia. rewrite within_bounds_id by (done || lia). done.
Qed.

(** However the stored schedule of a realm reads, once it has been polled and the
    new schedule saved it is due again no sooner than the configured minimum and no
    later than the configured maximum after the poll; a fresh snapshot brings it to the
    minimum, an unchanged one or a failure never makes it more frequent, and after
    three unchanged polls in a row it is at the maximum. *)
Theorem realm_cadence_fresh value now polled later a b :
  0 < a -> a <= b -> b <= u64_max -> polled + b <= u64_max ->
  is_due (load_cadence (Some value) now a b) now = true ->
  (forall o, let c := reloaded o value now polled later a b in
     is_due c (polled + b) = true /\ forall t, t < polled + a -> is_due c t = false) /\
  interval_ms (reloaded Collected value now polled later a b) = a /\
  (forall o, o <> Collected ->
     interval_ms (load_cadence (Some value) now a b) <= interval_ms (reloaded o value now polled later a b)) /\
  (forall c t1 t2 t3, in_bounds a b (interval_ms c) ->
     interval_ms (after_unchanged (after_unchanged (after_unchanged c t1 a b) t2 a b) t3 a b) = b).
Proof.
  intros Ha Hab Hb Hfit Hdue.
  assert (forall o, _) as Hre by (intros o; exact (poll_reload o value now polled later a b Ha ltac:(lia) Hb ltac:(lia) Hdue)).
  split_and!.
  - intros o c. destruct (Hre o) as (_ & Hin & Hn). fold c in Hin, Hn. clearbody c. unfold in_bounds, bounds in Hin. cbn in Hin.
    unfold is_due. split; [apply bool_decide_eq_true_2; lia|]. intros t Ht. apply bool_decide_eq_false_2. lia.
  - destruct (Hre Collected) as (-> & _ & _). cbn. lia.
  - intros o Ho. destruct (Hre o) as (-> & _ & _). pose proof (load_cadence_in (Some value) now a b Ha) as Hin.
    destruct o; [done| |]; cbn [next_cadence].
    + unfold after_unchanged. unfold u64_max in *. solve_bounds.
    + unfold after_failure, within_bounds. unfold u64_max in *. solve_bounds.
  - intros c t1 t2 t3 Hc. unfold after_unchanged, in_bounds, bounds, sat_mul, u64_max in *. cbn in *. repeat case_decide; lia.
Qed.

(** The default one minute to half an hour, with an unreadable stored value. *)
Lemma realm_cadence_fresh_witness :
  is_due (load_cadence (Some (Some "garbled")) 1000000 60000 1800000) 1000000 = true /\
  is_due (reloaded Unchanged (Some "garbled") 1000000 1000500 2000000 60000 1800000) (1000500 + 1800000) = true.
Proof.
  assert (is_due (load_cadence (Some (Some "garbled")) 1000000 60000 1800000) 1000000 = true) as Hd by (vm_compute; reflexivity).
  split; [exact Hd|].
  exact (proj1 (proj1 (realm_cadence_fresh (Some "garbled") 1000000 1000500 2000000 60000 1800000
    eq_refl ltac:(vm_compute; discriminate) ltac:(vm_compute; discriminate) ltac:(vm_compute; discriminate) Hd) Unchanged)).
Defined.

(** ** Laws of the reduction *)

(** The bonus list is the identity of a variant: it can be read back from the text. *)
Lemma bonuses_variant l : Forall (fun b => b <= u32_max) (g_bonus_ids l) -> bonuses (variant l) = g_bonus_ids l.
Proof.
  intros Hb. unfold bonuses, variant. destruct (g_bonus_ids l) as [|b bs]; [done|]. rewrite split_join_pretty by done.
  clear l. induction Hb as [|x xs Hx _ IH]; [done|]. rewrite fmap_cons.
  change (omap parse_u32 (pretty x :: (pretty <$> xs))) with
    (match parse_u32 (pretty x) with Some y => y :: omap parse_u32 (pretty <$> xs) | None => omap parse_u32 (pretty <$> xs) end).
  by rewrite parse_pretty, IH.
Qed.

(** The prices listed for one variant of one item, in the order they came. *)
Definition listed (listings : list GearListing) (k : N * string) : list Copper :=
  g_price <$> filter (fun l => (g_item l, variant l) = k) listings.

Lemma group_gear_lookup listings k :
  group_gear listings !! k = match listed listings k with [] => None | ps => Some ps end.
Proof.
  apply group_by_lookup.
Qed.

Lemma gear_sample_spec region realm at_ k ps :
  ps <> [] -> N.of_nat (length ps) < 2 ^ 32 ->
  exists s lad, gear_sample region realm at_ (k, ps) = Some (s, (k.1, k.2, lad)) /\
    rs_item s = k.1 /\ rs_variant s = k.2 /\ rs_listings s = N.of_nat (length ps) /\
    rs_min_price s ∈ ps /\ rs_max_price s ∈ ps /\ rs_median_price s ∈ ps /\
    Forall (fun p => rs_min_price s <= p <= rs_max_price s) ps /\ total lad = N.of_nat (length ps).
Proof.
  intros Hne Hlen. destruct k as [i v]. unfold gear_sample. pose proof (sort_by_perm (fun x y => N.compare (id x) (id y)) ps) as Hp.
  pose proof (sort_by_key_sorted id ps) as Hs. fold (sort_by_key id ps) in Hp. set (st := sort_by_key id ps) in *. clearbody st.
  assert (length st = length ps) as Hl by (by rewrite Hp).
  destruct (head st) as [mn|] eqn:Hh; [|destruct st; [|done]; destruct ps; [done|cbn in Hl; lia]].
  destruct (last st) as [mx|] eqn:Hla; [|apply last_None in Hla; subst st; done]. cbn [mbind option_bind].
  eexists _, _. split; [reflexivity|].
  cbn [rs_item rs_variant rs_listings rs_min_price rs_max_price rs_median_price fst snd]. pose proof (last_Some_elem_of _ _ Hla) as Hmx.
  assert (mn ∈ st) as Hmn by (destruct st; [done|]; injection Hh as ->; left).
  pose proof (sorted_head id st mn Hs Hh) as Hlo. pose proof (sorted_last id st mx Hs Hla) as Hhi.
  assert (forall p, p ∈ st -> p ∈ ps) as Hst by (intros p Hin; by rewrite <- Hp).
  rewrite wrap_small by lia. split_and!; [done|done|by rewrite Hl|by apply Hst|by apply Hst| | |].
  - apply Hst, list_elem_of_In, nth_In. apply Nat.div_lt; [|lia]. destruct ps; [done|]. rewrite Hl. cbn. lia.
  - rewrite <- Hp. apply Forall_forall. intros p Hin. split; [by apply Hlo|by apply Hhi].
  - assert (supply ((fun p => {| l_item := i; unit_price := p; l_quantity := 1 |}) <$> st) = N.of_nat (length st)) as Hsup.
    { clear. induction st as [|p st IH]; [done|]. unfold supply in *. rewrite !fmap_cons, sumN_cons, IH. cbn. lia. }
    rewrite total_of; rewrite Hsup, Hl; [done|]. assert (2 ^ 32 < 2 ^ 64) by done. lia.
Qed.

(** One sample per variant of an item, with the extremes of its listings and their
    number. *)
Lemma summarise_realm_spec listings region realm at_ s :
  N.of_nat (length listings) < 2 ^ 32 ->
  s ∈ (summarise_realm listings region realm at_).1 ->
  let ps := listed listings (rs_item s, rs_variant s) in
  rs_listings s = N.of_nat (length ps) /\ ps <> [] /\
  rs_min_price s ∈ ps /\ rs_max_price s ∈ ps /\ Forall (fun p => rs_min_price s <= p <= rs_max_price s) ps.
Proof.
  intros Hlen. unfold summarise_realm. cbn [fst]. intros ([s' x] & -> & (g & Hg & Hs)%list_elem_of_omap)%list_elem_of_fmap.
  destruct g as [k ps]. rewrite (sort_by_perm market_cmp) in Hg. apply elem_of_map_to_list in Hg. rewrite group_gear_lookup in Hg.
  assert (listed listings k = ps /\ ps <> []) as [Hps Hne] by (destruct (listed listings k); [done|]; injection Hg as <-; done).
  assert (N.of_nat (length ps) < 2 ^ 32) as Hl.
  { rewrite <- Hps. unfold listed. rewrite length_fmap. pose proof (length_filter (fun l => (g_item l, variant l) = k) listings). lia. }
  destruct (gear_sample_spec region realm at_ k ps Hne Hl) as (s0 & lad & Hs0 & Hi & Hv & Hn & Hmin & Hmax & _ & Hall & _).
  rewrite Hs in Hs0. injection Hs0 as -> _. cbn [fst]. rewrite Hi, Hv. destruct k as [i v]. cbn [fst snd]. rewrite Hps. done.
Qed.
