(* ===== verification/Alerts.v ===== *)
(** * Alerts: when a price is very low

    Models [crates/app-core/src/market/alerts.rs]: [evaluate] compares one sample with
    the hourly buckets of its own history, using the estimator of [Engine], or with
    a hard floor that works from the first observation on. *)
From Stdlib Require Import Ascii.
From stdpp Require Import prelude strings pretty.
From S2P Require Import Prelude Text F64 Time Market Engine EngineLaws.

Module AlertSeverity.
Inductive t := Low | VeryLow.
#[global] Instance eq_dec : EqDecision t.
Proof. solve_decision. Defined.
Definition as_str (self : t) : string := match self with Low => "low" | VeryLow => "very_low" end.
End AlertSeverity.

Record Alert := {
  al_item : ItemId; al_region : Region; al_severity : AlertSeverity.t; al_observed_at : Millis;
  al_current : Copper; al_baseline : Copper; al_threshold : Copper; al_discount_percent : N; al_quantity : N }.

#[export] Instance Alert_eq_dec : EqDecision Alert.
Proof. solve_decision. Defined.

Definition headline (self : Alert) (name : string) : string :=
  name +:+ " is " +:+ pretty (al_discount_percent self) +:+ "% below normal on " +:+ Region_as_str (al_region self) +:+
  ": " +:+ Copper_fmt (al_current self) +:+ " (usually " +:+ Copper_fmt (al_baseline self) +:+ ")".

Definition build (current : PriceSample) (threshold baseline : Copper) (severity : AlertSeverity.t) : Alert :=
  {| al_item := ps_item current; al_region := ps_region current; al_severity := severity;
     al_observed_at := observed_at current; al_current := p05_unit_price current; al_baseline := baseline;
     al_threshold := threshold;
     al_discount_percent :=
       if decide (baseline = 0) then 0
       else N.min (wrap 64 ((baseline - p05_unit_price current) * 100) / baseline) 100;
     al_quantity := ps_quantity current |}.

(** [f64::from(percent) / 100.0]. *)
Definition fraction (percent : N) : f64 := fdiv (of_u64 percent) (lit 100 1).

(** The hourly history the rule looks back over. *)
Definition baseline_window (rule : AlertRule) (current : PriceSample) (history : list PriceSample) : Buckets :=
  from_observations ((fun s => (observed_at s, p05_unit_price s)) <$>
    filter (fun s => since (observed_at current) (observed_at s) <= lookback_ms rule) history).

Definition evaluate (rule : AlertRule) (current : PriceSample) (history : list PriceSample) (floor : option Copper) : option Alert :=
  if decide (ps_quantity current < min_quantity rule) then None
  else
    let floored := match floor with
                   | Some f => if decide (p05_unit_price current <= f) then Some (build current f f AlertSeverity.VeryLow) else None
                   | None => None
                   end in
    match floored with
    | Some alert => Some alert
    | None =>
        let window := baseline_window rule current history in
        if decide (len window < min_samples rule) then None
        else
          threshold ← quantile window (fraction (percentile rule));
          if decide (threshold < p05_unit_price current) then None
          else
            baseline ← quantile window (lit 50 100);
            severe ← quantile window (fraction (N.max (percentile rule / 2) 1));
            let severity := if decide (p05_unit_price current <= severe) then AlertSeverity.VeryLow else AlertSeverity.Low in
            Some (build current threshold baseline severity)
    end.

(** ** What an alert means *)
Lemma build_fields c t b s :
  al_item (build c t b s) = ps_item c /\ al_region (build c t b s) = ps_region c /\
  al_observed_at (build c t b s) = observed_at c /\ al_current (build c t b s) = p05_unit_price c /\
  al_discount_percent (build c t b s) <= 100.
Proof. split_and!; try done. cbn. case_decide; lia. Qed.

(** An alert is about the sample it was raised for, in a market that is not thin, at a
    price no higher than the threshold it names: the floor, or the share of the history
    the rule asks for, backed by enough hours. *)
Lemma evaluate_sound rule current history floor a :
  evaluate rule current history floor = Some a ->
  al_item a = ps_item current /\ al_region a = ps_region current /\ al_observed_at a = observed_at current /\
  al_current a = p05_unit_price current /\ al_discount_percent a <= 100 /\
  min_quantity rule <= ps_quantity current /\ al_current a <= al_threshold a /\
  (floor = Some (al_threshold a) \/
   (min_samples rule <= len (baseline_window rule current history) /\
    quantile (baseline_window rule current history) (fraction (percentile rule)) = Some (al_threshold a) /\
    quantile (baseline_window rule current history) (lit 50 100) = Some (al_baseline a))).
Proof.
  unfold evaluate. case_decide as Hq; [done|]. cbv zeta. intros He.
  assert ((exists f, floor = Some f /\ p05_unit_price current <= f /\ a = build current f f AlertSeverity.VeryLow) \/
    (min_samples rule <= len (baseline_window rule current history) /\ exists t b s,
       quantile (baseline_window rule current history) (fraction (percentile rule)) = Some t /\
       quantile (baseline_window rule current history) (lit 50 100) = Some b /\ p05_unit_price current <= t /\ a = build current t b s))
    as [(f & Hf & Hle & ->)|(Hn & t & b & s & Ht & Hb & Hle & ->)].
  { destruct (match floor with Some f => _ | None => _ end) as [x|] eqn:Hf.
    - left. destruct floor as [f|]; [|done]. revert Hf. case_decide; [|done]. intros [= <-]. injection He as <-. eauto.
    - right. revert He. case_decide as Hs; [done|]. destruct (quantile _ (fraction (percentile rule))) as [t|]; [|done]. cbn.
      case_decide as Ht; [done|]. destruct (quantile _ (lit 50 100)) as [b|]; [|done]. cbn.
      destruct (quantile _ (fraction (N.max _ 1))) as [s|]; [|done]. cbn. intros [= <-]. split; [lia|].
      eexists t, b, _. split_and!; [done|done|lia|done]. }
  - destruct (build_fields current f f AlertSeverity.VeryLow) as (-> & -> & -> & -> & Hd). split_and!; try done; [lia|by left].
  - destruct (build_fields current t b s) as (-> & -> & -> & -> & Hd). split_and!; try done; [lia|right]. done.
Qed.
