(* ===== verification/PriceStore.v ===== *)
(** * PriceStore: the price repository port and its SQLite implementation

    [PriceRepository] of [crates/app-core/src/repo.rs] as a type class over the state
    of the store, with [PriceRepositoryLaws] stating what the collector relies on
    through an abstract view (the samples by item, region and instant, and the alerts
    in the order they were raised); and [crates/storage/src/sqlite/prices.rs]: the rows
    of [price_samples], [price_ladders] and [price_alerts] and the statements over
    them.  A table is the list of its rows in insertion order, [ON CONFLICT DO NOTHING]
    and [INSERT OR IGNORE] skip a primary key already present, and a snapshot is one
    transaction.  [SqlitePrices_laws] discharges the laws.

    [window_stats] (SQLite's [AVG] and bare columns) is not modelled. *)
From Stdlib Require Import Ascii ZArith.
From stdpp Require Import prelude gmap sorting strings pretty.
From S2P Require Import Prelude Text F64 Time Store Sqlite Market Catalog Depth Engine Alerts.

(** ** The port *)
Class PriceRepository (P : Type) := {
  record_snapshot : list PriceSample -> Region -> Millis -> list (ItemId * Ladder) -> P -> StoreResult (N * N) * P;
  history : ItemId -> Region -> Millis -> P -> StoreResult (list PriceSample);
  last_observed : Region -> P -> StoreResult (option Millis);
  record_alert : Alert -> P -> StoreResult unit * P;
  last_alert_at : ItemId -> Region -> P -> StoreResult (option Millis) }.

(** What a store holds, whatever its representation: the sample under each key, the
    alerts in the order they were raised, and whether its rows are ones it wrote. *)
Class PriceView (P : Type) := {
  stored : P -> ItemId -> Region -> Millis -> option PriceSample;
  raised : P -> list Alert;
  sane : P -> Prop }.

(** Values the columns hold: identifiers and counts of 32 bits, percentages of 8,
    amounts of 64, and instants below 2^63, which compare as they should. *)
Definition storable_sample (s : PriceSample) : Prop :=
  ps_item s <= u32_max /\ observed_at s < 2 ^ 63 /\ min_unit_price s < 2 ^ 64 /\ p05_unit_price s < 2 ^ 64 /\
  median_unit_price s < 2 ^ 64 /\ ps_quantity s < 2 ^ 64 /\ ps_listings s <= u32_max.
Definition storable_alert (a : Alert) : Prop :=
  al_item a <= u32_max /\ al_observed_at a < 2 ^ 63 /\ al_current a < 2 ^ 64 /\ al_baseline a < 2 ^ 64 /\
  al_threshold a < 2 ^ 64 /\ al_discount_percent a < 256 /\ al_quantity a < 2 ^ 64.

Definition at_key (i : ItemId) (r : Region) (t : Millis) (s : PriceSample) : bool :=
  bool_decide (ps_item s = i /\ ps_region s = r /\ observed_at s = t).

(** The instants alerts about an item were raised at. *)
Definition alerts_of (l : list Alert) (i : ItemId) (r : Region) : list Millis :=
  al_observed_at <$> filter (fun a => al_item a = i /\ al_region a = r) l.

(** Whether every sample of a snapshot was there before. *)
Definition all_stored {P} `{PriceView P} (p : P) (ss : list PriceSample) : Prop :=
  forall s, s ∈ ss -> is_Some (stored p (ps_item s) (ps_region s) (observed_at s)).

Class PriceRepositoryLaws (P : Type) `{PriceRepository P, PriceView P} := {
  (** A snapshot adds the samples whose key is new, and only those, the first of each
      key; an error adds nothing. *)
  record_snapshot_ok : forall ss r t ls p n k p', Forall storable_sample ss -> sane p ->
    record_snapshot ss r t ls p = (Ok (n, k), p') ->
    sane p' /\ raised p' = raised p /\ (n = 0 <-> all_stored p ss) /\
    (forall i r t, i <= u32_max -> t < 2 ^ 63 ->
      stored p' i r t = match stored p i r t with Some s => Some s | None => find_first (at_key i r t) ss end);
  record_snapshot_err : forall ss r t ls p e p', record_snapshot ss r t ls p = (Err e, p') -> p' = p;
  record_alert_ok : forall a p u p', storable_alert a -> sane p -> record_alert a p = (Ok u, p') ->
    sane p' /\ raised p' = raised p ++ [a] /\ stored p' = stored p;
  record_alert_err : forall a p e p', record_alert a p = (Err e, p') -> p' = p;
  last_alert_at_ok : forall i r p o, sane p -> i <= u32_max -> last_alert_at i r p = Ok o ->
    o = maxN (alerts_of (raised p) i r);
  (** A history is made of samples of the item, none before the instant asked for. *)
  history_ok : forall i r t p h, sane p -> i <= u32_max -> t < 2 ^ 63 -> history i r t p = Ok h ->
    Forall (fun s => storable_sample s /\ ps_item s = i /\ ps_region s = r /\ t <= observed_at s) h
}.

(** ** The SQLite tables *)
Record SampleRow := {
  sr_item : Z; sr_region : string; sr_observed_at : Z; sr_min_unit : Z; sr_p05_unit : Z; sr_median_unit : Z;
  sr_quantity : Z; sr_listings : Z }.
Record LadderRow := {
  lr_item : Z; lr_region : string; lr_observed_at : Z; lr_levels : Z; lr_total : Z; lr_steps : string }.
Record AlertRow := {
  ar_item : Z; ar_region : string; ar_severity : string; ar_observed_at : Z; ar_current : Z; ar_baseline : Z;
  ar_threshold : Z; ar_discount : Z; ar_quantity : Z }.

Record PriceTables := { pt_samples : list SampleRow; pt_ladders : list LadderRow; pt_alerts : list AlertRow }.
Definition PriceTables_empty : PriceTables := {| pt_samples := []; pt_ladders := []; pt_alerts := [] |}.

Definition as_u32 (z : Z) : N := Z.to_N (z mod 2 ^ 32).

Definition sample_row (s : PriceSample) : SampleRow :=
  {| sr_item := as_i64 (ps_item s); sr_region := Region_as_str (ps_region s); sr_observed_at := as_i64 (observed_at s);
     sr_min_unit := as_i64 (min_unit_price s); sr_p05_unit := as_i64 (p05_unit_price s);
     sr_median_unit := as_i64 (median_unit_price s); sr_quantity := as_i64 (ps_quantity s);
     sr_listings := as_i64 (ps_listings s) |}.

Definition sample_from_row (row : SampleRow) : StoreResult PriceSample :=
  let? region := ok_or (corrupt "region" (sr_region row)) (Region_parse (sr_region row)) in
  Ok {| ps_item := as_u32 (sr_item row); ps_region := region; observed_at := as_u64 (sr_observed_at row);
        min_unit_price := as_u64 (sr_min_unit row); p05_unit_price := as_u64 (sr_p05_unit row);
        median_unit_price := as_u64 (sr_median_unit row); ps_quantity := as_u64 (sr_quantity row);
        ps_listings := as_u32 (sr_listings row) |}.

Definition alert_row (a : Alert) : AlertRow :=
  {| ar_item := as_i64 (al_item a); ar_region := Region_as_str (al_region a);
     ar_severity := AlertSeverity.as_str (al_severity a); ar_observed_at := as_i64 (al_observed_at a);
     ar_current := as_i64 (al_current a); ar_baseline := as_i64 (al_baseline a); ar_threshold := as_i64 (al_threshold a);
     ar_discount := as_i64 (al_discount_percent a); ar_quantity := as_i64 (al_quantity a) |}.

Definition alert_from_row (row : AlertRow) : StoreResult Alert :=
  let? region := ok_or (corrupt "region" (ar_region row)) (Region_parse (ar_region row)) in
  let? severity :=
    if decide (ar_severity row = "very_low") then Ok AlertSeverity.VeryLow
    else if decide (ar_severity row = "low") then Ok AlertSeverity.Low
    else Err (corrupt "alert severity" (ar_severity row)) in
  Ok {| al_item := as_u32 (ar_item row); al_region := region; al_severity := severity;
        al_observed_at := as_u64 (ar_observed_at row); al_current := as_u64 (ar_current row);
        al_baseline := as_u64 (ar_baseline row); al_threshold := as_u64 (ar_threshold row);
        al_discount_percent := as_u8 (ar_discount row); al_quantity := as_u64 (ar_quantity row) |}.

(** [INSERT ... ON CONFLICT(item_id, region, observed_at) DO NOTHING], and the rows
    affected. *)
Definition same_key (a b : SampleRow) : Prop :=
  sr_item a = sr_item b /\ sr_region a = sr_region b /\ sr_observed_at a = sr_observed_at b.

#[export] Instance same_key_dec a b : Decision (same_key a b).
Proof. unfold same_key. apply _. Defined.

Definition insert_sample (acc : N * list SampleRow) (s : PriceSample) : N * list SampleRow :=
  let row := sample_row s in
  if decide (Exists (same_key row) acc.2) then acc else (acc.1 + 1, acc.2 ++ [row]).

Definition insert_ladder (region : Region) (at_ : Millis) (acc : N * list LadderRow) (l : ItemId * Ladder) : N * list LadderRow :=
  let row := {| lr_item := as_i64 l.1; lr_region := Region_as_str region; lr_observed_at := as_i64 at_;
                lr_levels := as_i64 (levels l.2); lr_total := as_i64 (total l.2); lr_steps := Ladder_encode l.2 |} in
  if decide (Exists (fun o => lr_item o = lr_item row /\ lr_region o = lr_region row /\ lr_observed_at o = lr_observed_at row) acc.2)
  then acc else (acc.1 + 1, acc.2 ++ [row]).

Definition insert_ladders (region : Region) (at_ : Millis) (ladders : list (ItemId * Ladder)) (rows : list LadderRow) : N * list LadderRow :=
  foldl (insert_ladder region at_) (0, rows) (filter (fun l => Ladder_is_empty l.2 = false) ladders).

Definition sql_record_snapshot (samples : list PriceSample) (region : Region) (at_ : Millis) (ladders : list (ItemId * Ladder))
    (p : PriceTables) : StoreResult (N * N) * PriceTables :=
  let '(sample_rows, ss) := foldl insert_sample (0, pt_samples p) samples in
  let '(ladder_rows, ls) := insert_ladders region at_ ladders (pt_ladders p) in
  (Ok (sample_rows, ladder_rows), {| pt_samples := ss; pt_ladders := ls; pt_alerts := pt_alerts p |}).

Definition sql_record_samples (samples : list PriceSample) (p : PriceTables) : StoreResult N * PriceTables :=
  match samples with
  | [] => (Ok 0, p)
  | _ => let '(n, ss) := foldl insert_sample (0, pt_samples p) samples in
         (Ok n, {| pt_samples := ss; pt_ladders := pt_ladders p; pt_alerts := pt_alerts p |})
  end.

Definition sql_record_ladders (region : Region) (at_ : Millis) (ladders : list (ItemId * Ladder)) (p : PriceTables) :
    StoreResult N * PriceTables :=
  match ladders with
  | [] => (Ok 0, p)
  | _ => let '(n, ls) := insert_ladders region at_ ladders (pt_ladders p) in
         (Ok n, {| pt_samples := pt_samples p; pt_ladders := ls; pt_alerts := pt_alerts p |})
  end.

Definition sql_history (item : ItemId) (region : Region) (since : Millis) (p : PriceTables) : StoreResult (list PriceSample) :=
  collect_results (sample_from_row <$> order_by sr_observed_at
    (filter (fun r => sr_item r = as_i64 item /\ sr_region r = Region_as_str region /\ (as_i64 since <= sr_observed_at r)%Z) (pt_samples p))).

Definition sql_history_in_region (region : Region) (p : PriceTables) : StoreResult (list PriceSample) :=
  collect_results (sample_from_row <$>
    order_by sr_item (order_by sr_observed_at (filter (fun r => sr_region r = Region_as_str region) (pt_samples p)))).

(** [MAX(column)]. *)
Definition maxZ (l : list Z) : option Z := match l with [] => None | x :: l' => Some (foldl Z.max x l') end.

(** The newest row of each item: the join with the grouped maximum. *)
Definition sql_latest (region : Region) (p : PriceTables) : StoreResult (list PriceSample) :=
  let rows := filter (fun r => sr_region r = Region_as_str region) (pt_samples p) in
  let newest item := maxZ (sr_observed_at <$> filter (fun r => sr_item r = item) rows) in
  collect_results (sample_from_row <$> order_by sr_item (filter (fun r => newest (sr_item r) = Some (sr_observed_at r)) rows)).

Definition sql_last_observed (region : Region) (p : PriceTables) : StoreResult (option Millis) :=
  Ok (as_u64 <$> maxZ (sr_observed_at <$> filter (fun r => sr_region r = Region_as_str region) (pt_samples p))).

Definition sql_record_alert (a : Alert) (p : PriceTables) : StoreResult unit * PriceTables :=
  (Ok tt, {| pt_samples := pt_samples p; pt_ladders := pt_ladders p; pt_alerts := pt_alerts p ++ [alert_row a] |}).

Definition sql_last_alert_at (item : ItemId) (region : Region) (p : PriceTables) : StoreResult (option Millis) :=
  Ok (as_u64 <$> maxZ (ar_observed_at <$> filter (fun r => ar_item r = as_i64 item /\ ar_region r = Region_as_str region) (pt_alerts p))).

(** [ORDER BY observed_at DESC, id DESC]: newest first, later rows first among equals. *)
Definition sql_recent_alerts (limit : nat) (p : PriceTables) : StoreResult (list Alert) :=
  collect_results (alert_from_row <$> take limit (order_by_desc ar_observed_at (reverse (pt_alerts p)))).

Definition sql_alerts_since (since : Millis) (limit : nat) (p : PriceTables) : StoreResult (list Alert) :=
  collect_results (alert_from_row <$> take limit (order_by_desc ar_observed_at
    (filter (fun r => (as_i64 since <= ar_observed_at r)%Z) (pt_alerts p)))).

Definition sql_prune_before (before : Millis) (p : PriceTables) : StoreResult N * PriceTables :=
  let kept := filter (fun r => ~ (sr_observed_at r < as_i64 before)%Z) (pt_samples p) in
  (Ok (N.of_nat (length (pt_samples p) - length kept)),
   {| pt_samples := kept; pt_ladders := pt_ladders p; pt_alerts := pt_alerts p |}).

Definition sql_prune_ladders_before (before : Millis) (p : PriceTables) : StoreResult N * PriceTables :=
  let kept := filter (fun r => ~ (lr_observed_at r < as_i64 before)%Z) (pt_ladders p) in
  (Ok (N.of_nat (length (pt_ladders p) - length kept)),
   {| pt_samples := pt_samples p; pt_ladders := kept; pt_alerts := pt_alerts p |}).

(** [GROUP BY item_id] with the bare column of the newest row. *)
Definition sql_latest_ladders (region : Region) (p : PriceTables) : StoreResult (list (ItemId * Millis * Ladder)) :=
  let rows := filter (fun r => lr_region r = Region_as_str region) (pt_ladders p) in
  let newest item := maxZ (lr_observed_at <$> filter (fun r => lr_item r = item) rows) in
  Ok ((fun r => (as_u32 (lr_item r), as_u64 (lr_observed_at r), Ladder_decode (lr_steps r))) <$>
    order_by lr_item (filter (fun r => newest (lr_item r) = Some (lr_observed_at r)) rows)).

#[export] Instance SqlitePrices : PriceRepository PriceTables := {
  record_snapshot := sql_record_snapshot; history := sql_history; last_observed := sql_last_observed;
  record_alert := sql_record_alert; last_alert_at := sql_last_alert_at }.

(** ** The view of the tables *)
Definition row_at (i : ItemId) (r : Region) (t : Millis) (row : SampleRow) : bool :=
  bool_decide (sr_item row = as_i64 i /\ sr_region row = Region_as_str r /\ sr_observed_at row = as_i64 t).

Definition ok_option {A} (r : StoreResult A) : option A := match r with Ok a => Some a | Err _ => None end.

Definition written_sample (row : SampleRow) : Prop := exists s, storable_sample s /\ row = sample_row s.
Definition written_alert (row : AlertRow) : Prop := exists a, storable_alert a /\ row = alert_row a.

#[export] Instance SqlitePrices_view : PriceView PriceTables := {
  stored p i r t := row ← find_first (row_at i r t) (pt_samples p); ok_option (sample_from_row row);
  raised p := omap (fun row => ok_option (alert_from_row row)) (pt_alerts p);
  sane p := Forall written_sample (pt_samples p) /\ Forall written_alert (pt_alerts p) }.

(** ** The tables keep the contract *)
Lemma as_u32_i64 n : n <= u32_max -> as_u32 (as_i64 n) = n.
Proof. unfold u32_max. intros Hn. rewrite as_i64_small by lia. unfold as_u32. rewrite Z.mod_small by lia. lia. Qed.

Lemma as_i64_inj_small n m : n < 2 ^ 63 -> m < 2 ^ 63 -> as_i64 n = as_i64 m -> n = m.
Proof. intros Hn Hm. rewrite !as_i64_small by done. lia. Qed.

Lemma u32_small n : n <= u32_max -> n < 2 ^ 63.
Proof. unfold u32_max. lia. Qed.

#[export] Instance Region_as_str_inj : Inj (=) (=) Region_as_str.
Proof. intros [] []; done. Qed.

(** What is written is what is read. *)
Lemma sample_row_reads_back s : storable_sample s -> sample_from_row (sample_row s) = Ok s.
Proof.
  destruct s as [i r]. intros (? & ? & ? & ? & ? & ? & ?). cbn in *. unfold sample_from_row.
  change (sr_region (sample_row _)) with (Region_as_str r). rewrite Region_parse_as_str.
  cbn -[as_u32 as_u64 as_i64]. by rewrite !as_u32_i64, !as_u64_i64 by lia.
Qed.

Lemma alert_row_reads_back a : storable_alert a -> alert_from_row (alert_row a) = Ok a.
Proof.
  destruct a as [i r sev]. intros (? & ? & ? & ? & ? & ? & ?). cbn in *. unfold alert_from_row.
  change (ar_region (alert_row _)) with (Region_as_str r). rewrite Region_parse_as_str.
  cbn -[as_u32 as_u64 as_i64 as_u8 decide]. assert (as_u8 (as_i64 al_discount_percent) = al_discount_percent) as ->.
  { rewrite as_i64_small by lia. unfold as_u8. rewrite Z.mod_small by lia. lia. }
  destruct sev; cbn -[as_u32 as_u64 as_i64]; by rewrite as_u32_i64, !as_u64_i64 by lia.
Qed.

Lemma row_at_sample_row i r t s :
  i <= u32_max -> t < 2 ^ 63 -> storable_sample s -> row_at i r t (sample_row s) = at_key i r t s.
Proof.
  intros Hi Ht (Hs & Hso & _). unfold row_at, at_key. apply bool_decide_ext. cbn. split.
  - intros (He%as_i64_inj_small & ->%Region_as_str_inj & ->%as_i64_inj_small); auto using u32_small.
  - by intros (-> & -> & ->).
Qed.

(** The tables seen as the samples and alerts they were written from. *)
Lemma written_samples rows : Forall written_sample rows -> exists ss, Forall storable_sample ss /\ rows = sample_row <$> ss.
Proof.
  induction 1 as [|row rows (s & Hs & ->) _ (ss & Hss & ->)]; [by exists []|]. exists (s :: ss). split; [by constructor|done].
Qed.

Lemma written_alerts rows : Forall written_alert rows -> exists l, Forall storable_alert l /\ rows = alert_row <$> l.
Proof.
  induction 1 as [|row rows (s & Hs & ->) _ (ss & Hss & ->)]; [by exists []|]. exists (s :: ss). split; [by constructor|done].
Qed.

Lemma read_samples ss i r t :
  Forall storable_sample ss -> i <= u32_max -> t < 2 ^ 63 ->
  (row ← find_first (row_at i r t) (sample_row <$> ss); ok_option (sample_from_row row)) = find_first (at_key i r t) ss.
Proof.
  intros Hss Hi Ht. induction Hss as [|s ss Hs _ IH]; [done|]. rewrite fmap_cons, !find_first_cons, row_at_sample_row by done.
  destruct (at_key i r t s); [|done]. cbn [mbind option_bind]. by rewrite sample_row_reads_back.
Qed.

Lemma read_alerts l : Forall storable_alert l -> omap (fun row => ok_option (alert_from_row row)) (alert_row <$> l) = l.
Proof.
  induction 1 as [|a l Ha _ IH]; [done|]. rewrite fmap_cons. cbn [omap list_omap]. rewrite alert_row_reads_back by done. cbn. f_equal. exact IH.
Qed.

(** Inserting samples, row by row. *)
Abbreviation key_of s := (at_key (ps_item s) (ps_region s) (observed_at s)).

Lemma key_of_refl s : key_of s s = true.
Proof. unfold at_key. by rewrite bool_decide_true. Qed.

Lemma at_key_same i r t s : at_key i r t s = true -> at_key i r t = key_of s.
Proof. unfold at_key. rewrite bool_decide_eq_true. by intros (-> & -> & ->). Qed.

Lemma insert_sample_step n old s :
  Forall storable_sample old -> storable_sample s ->
  insert_sample (n, sample_row <$> old) s =
    match find_first (key_of s) old with
    | Some _ => (n, sample_row <$> old)
    | None => (n + 1, sample_row <$> old ++ [s])
    end.
Proof.
  intros Hold Hs. unfold insert_sample. cbn [fst snd].
  assert (forall o, o ∈ old -> same_key (sample_row s) (sample_row o) <-> key_of s o = true) as Hk.
  { intros o Ho. rewrite Forall_forall in Hold. pose proof (Hold o Ho) as Hso. destruct Hs as (Hi & Ht & _).
    rewrite <- row_at_sample_row by done. unfold row_at, same_key. cbn. rewrite bool_decide_eq_true. intuition congruence. }
  destruct (find_first (key_of s) old) as [o|] eqn:Hf.
  - apply find_first_Some in Hf as [Ho Hko]. rewrite decide_True; [done|].
    apply Exists_exists. exists (sample_row o). split; [by apply list_elem_of_fmap_2|by apply Hk].
  - rewrite decide_False; [by rewrite fmap_app|]. intros (? & (o & -> & Ho)%list_elem_of_fmap & Hsk)%Exists_exists.
    apply Hk in Hsk; [|done]. by rewrite (find_first_None _ _ Hf o Ho) in Hsk.
Qed.

Lemma insert_samples_spec ss : forall n n' old rows,
  Forall storable_sample old -> Forall storable_sample ss -> foldl insert_sample (n, sample_row <$> old) ss = (n', rows) ->
  exists new, rows = sample_row <$> new /\ Forall storable_sample new /\ n <= n' /\
    (n' = n <-> forall s, s ∈ ss -> is_Some (find_first (key_of s) old)) /\
    forall i r t, find_first (at_key i r t) new = match find_first (at_key i r t) old with
                                                  | Some s => Some s | None => find_first (at_key i r t) ss end.
Proof.
  induction ss as [|s ss IH]; intros n n' old rows Hold Hss Hf; cbn in Hf.
  { injection Hf as <- <-. exists old. split_and!; try done; [split; [by intros _ s ?%not_elem_of_nil|done]|].
    intros. by destruct (find_first _ old). }
  apply Forall_cons in Hss as [Hs Hss]. rewrite insert_sample_step in Hf by done.
  destruct (find_first (key_of s) old) as [o|] eqn:Ho.
  - apply IH in Hf as (new & -> & Hnew & Hle & Hn & Hl); [|done..]. exists new. split_and!; try done.
    + rewrite Hn. setoid_rewrite elem_of_cons. split; [intros H x [->|Hx]; eauto|eauto].
    + intros i r t. rewrite Hl, find_first_cons. destruct (find_first (at_key i r t) old) eqn:Hf'; [done|].
      destruct (at_key i r t s) eqn:Hk; [|done]. rewrite (at_key_same _ _ _ _ Hk) in Hf'. congruence.
  - apply IH in Hf as (new & -> & Hnew & Hle & Hn & Hl);
      [|by apply Forall_app_2; [|apply Forall_singleton]|done]. exists new. split_and!; try done; [lia|..].
    + split; [lia|]. intros H. destruct (H s) as [? ?]; [constructor|congruence].
    + intros i r t. rewrite Hl, find_first_app, find_first_cons. destruct (find_first (at_key i r t) old); [done|].
      rewrite find_first_cons. by destruct (at_key i r t s).
Qed.

(** [MAX] over the column is the maximum of the values written to it. *)
Lemma foldl_max_of_N l : forall a, foldl Z.max (Z.of_N a) (Z.of_N <$> l) = Z.of_N (foldl N.max a l).
Proof. induction l as [|b l IH]; intros a; [done|]. cbn. by rewrite <- N2Z.inj_max. Qed.

Lemma foldl_max_small l : forall a, a < 2 ^ 63 -> Forall (fun x => x < 2 ^ 63) l -> foldl N.max a l < 2 ^ 63.
Proof. induction l as [|b l IH]; intros a Ha Hl; [done|]. apply Forall_cons in Hl as [??]. apply IH; [lia|done]. Qed.

Lemma max_of_column (l : list N) : Forall (fun x => x < 2 ^ 63) l -> as_u64 <$> maxZ (as_i64 <$> l) = maxN l.
Proof.
  intros Hl. assert (as_i64 <$> l = Z.of_N <$> l) as ->.
  { apply list_fmap_ext. intros i x Hx. eapply Forall_lookup_1 in Hl; [|done]. by apply as_i64_small. }
  destruct Hl as [|a l Ha Hl]; [done|]. cbn [fmap list_fmap maxZ maxN option_fmap option_map]. f_equal.
  change (list_fmap _ _ Z.of_N l) with (Z.of_N <$> l).
  rewrite foldl_max_of_N, <- as_i64_small by by apply foldl_max_small. apply as_u64_i64. pose proof (foldl_max_small l a Ha Hl). lia.
Qed.

Lemma alert_rows_of l i r : Forall storable_alert l -> i <= u32_max ->
  ar_observed_at <$> filter (fun row => ar_item row = as_i64 i /\ ar_region row = Region_as_str r) (alert_row <$> l) =
    as_i64 <$> alerts_of l i r.
Proof.
  intros Hl Hi. unfold alerts_of. induction Hl as [|a l Ha _ IH]; [done|]. rewrite fmap_cons, !filter_cons.
  destruct Ha as (Hai & _). destruct (decide (al_item a = i /\ al_region a = r)) as [[Ei Er]|Hne].
  - rewrite decide_True by (subst; done). rewrite !fmap_cons. f_equal. exact IH.
  - rewrite decide_False; [exact IH|]. cbn. intros [He%as_i64_inj_small Hr%Region_as_str_inj]; auto using u32_small.
Qed.

Lemma collect_results_elem {A B} (f : A -> StoreResult B) l k :
  collect_results (f <$> l) = Ok k -> forall y, y ∈ k -> exists x, x ∈ l /\ f x = Ok y.
Proof.
  revert k. induction l as [|x l IH]; cbn; intros k Hk y Hy.
  - injection Hk as <-. by apply not_elem_of_nil in Hy.
  - destruct (f x) as [b|] eqn:Hf; [|done]. change (list_fmap _ _ f l) with (f <$> l) in Hk.
    destruct (collect_results (f <$> l)) as [k'|]; [|done]. injection Hk as <-.
    apply elem_of_cons in Hy as [->|Hy]; [exists x; split; [constructor|done]|].
    destruct (IH k' eq_refl y Hy) as (x' & Hx & Hfx). exists x'. split; [by constructor|done].
Qed.

Lemma sql_history_ok i r t p h :
  sane p -> i <= u32_max -> t < 2 ^ 63 -> sql_history i r t p = Ok h ->
  Forall (fun s => storable_sample s /\ ps_item s = i /\ ps_region s = r /\ t <= observed_at s) h.
Proof.
  intros [Hp _] Hi Ht Hh. apply Forall_forall. intros s Hs.
  destruct (collect_results_elem _ _ _ Hh s Hs) as (row & Hrow & Hr).
  unfold order_by in Hrow. rewrite merge_sort_Permutation in Hrow. apply list_elem_of_filter in Hrow as [(Ei & Er & Et) Hin].
  rewrite Forall_forall in Hp. destruct (Hp row Hin) as (s' & Hs' & ->). rewrite sample_row_reads_back in Hr by done.
  injection Hr as ->. pose proof Hs' as (Hsi & Hst & _). cbn in Ei, Er, Et.
  apply as_i64_inj_small in Ei; [|auto using u32_small..]. apply Region_as_str_inj in Er.
  rewrite !as_i64_small in Et by done. split_and!; [done..|lia].
Qed.

#[export] Instance SqlitePrices_laws : PriceRepositoryLaws PriceTables.
Proof.
  split.
  - intros ss r t ls p n k p' Hss [Hp Ha] Hrec. cbn in Hrec. unfold sql_record_snapshot in Hrec.
    destruct (foldl insert_sample _ ss) as [n' rows] eqn:Hf. destruct (insert_ladders _ _ _ _). injection Hrec as <- <- <-.
    apply written_samples in Hp as (old & Hold & Heq). rewrite Heq in Hf.
    apply insert_samples_spec in Hf as (new & -> & Hnew & _ & Hn & Hl); [|done..].
    split_and!; cbn [stored raised sane SqlitePrices_view pt_samples pt_alerts].
    + split; [|done]. apply Forall_fmap. eapply Forall_impl; [done|]. intros s Hs. by exists s.
    + done.
    + rewrite Hn. unfold all_stored. cbn [stored SqlitePrices_view]. rewrite Heq. split; intros H s Hin; specialize (H s Hin);
        eapply Forall_forall in Hss as (? & ? & _); try exact Hin; by rewrite read_samples in *.
    + intros i r' t' Hi Ht. rewrite Heq, !read_samples by done. apply Hl.
  - intros ss r t ls p e p'. cbn. unfold sql_record_snapshot. by destruct (foldl _ _ _), (insert_ladders _ _ _ _).
  - intros a p u p' Hst [Hp (l & Hl & Heq)%written_alerts] [= <- <-]. cbn. rewrite Heq. split_and!; [done|..].
    + apply Forall_app. split; [apply Forall_fmap; eapply Forall_impl; [done|]; intros x Hx; by exists x|].
      apply Forall_singleton. by exists a.
    + change [alert_row a] with (alert_row <$> [a]). rewrite <- fmap_app, !read_alerts; [done|done|].
      apply Forall_app. by rewrite Forall_singleton.
    + done.
  - done.
  - intros i r p o [_ (l & Hl & Heq)%written_alerts] Hi [= <-]. cbn. rewrite Heq, read_alerts, alert_rows_of by done.
    apply max_of_column, Forall_fmap, Forall_forall. intros x [_ Hx]%list_elem_of_filter.
    rewrite Forall_forall in Hl. by destruct (Hl x Hx) as (_ & ? & _).
  - exact sql_history_ok.
Qed.
