(* ===== verification/Collector.v ===== *)
(** * Collector: one collection pass

    Models [crates/app-core/src/market/collector.rs]: fetch the region's snapshot,
    reduce it to one sample and one ladder per item, record both, and raise alerts.
    The store is any [PriceRepository] and the provider of snapshots is an argument
    ([CommodityProvider], whose implementation talks to the game's API); the sink
    collects what was published, with the name it was published under.

    The theorems are proved against [PriceRepositoryLaws], which the SQLite tables
    discharge: alerts about one item are never closer than the cooldown, every alert
    recorded is published once, and a snapshot recorded before raises nothing. *)
From Stdlib Require Import Ascii ZArith.
From stdpp Require Import prelude gmap sorting strings pretty.
From S2P Require Import Prelude Text F64 Time Role Node Job Store Market Catalog Depth Engine EngineLaws Alerts PriceStore AppError.

Module Collector.

Inductive Outcome :=
| NotModified
| NoActiveCatalog
| AlreadyRecorded
| Collected (samples : N) (written : N) (ladders : N) (alerts : list Alert).

#[global] Instance Outcome_eq_dec : EqDecision Outcome.
Proof. solve_decision. Defined.

Record Report := { rp_region : Region; rp_generated_at : Millis; rp_outcome : Outcome }.

(** [CommodityProvider::commodities]. *)
Abbreviation Provider := (Region -> list ItemId -> option Millis -> AppResult Snapshot).

(** The collector's own fields that are data. *)
Record Config := { catalog : Catalog; alert_rule : AlertRule; skip : list ItemKind.t }.

Definition tracked (self : Config) : list ItemId :=
  filter (fun i => ItemKind.is_commodity (ci_kind i) = true /\ ~ ci_kind i ∈ skip self) (c_items (catalog self)) ≫= item_ids.

(** The entry of a listing's item, grown by the listing. *)
Definition group_by_item (listings : list Listing) : gmap N (list Listing) :=
  group_by l_item id listings.

Definition reduce_item (region : Region) (at_ : Millis) (entry : ItemId * list Listing) : option (PriceSample * (ItemId * Ladder)) :=
  let '(item, group) := entry in
  let ladder := Ladder_of group in
  stats ← summarise group; Some (into_sample stats item region at_, (item, ladder)).

Definition summarise_all (region : Region) (at_ : Millis) (listings : list Listing) : list PriceSample * list (ItemId * Ladder) :=
  let all := omap (reduce_item region at_) (entries (group_by_item listings)) in (all.*1, all.*2).

Section collector.
Context {P : Type} `{PriceRepository P}.

(** The store and the sink. *)
Record World := { prices : P; published : list (Alert * string) }.

Variable self : Config.

(** One turn of the loop of [raise_alerts]: the alert it raised, if any. *)
Definition raise_one (now : Millis) (sample : PriceSample) (w : World) : AppResult (option Alert) * World :=
  match Catalog.index (catalog self) !! ps_item sample with
  | None => (Ok None, w)
  | Some entry =>
      match last_alert_at (ps_item sample) (ps_region sample) (prices w) with
      | Err e => (Err (AppError.Repo e), w)
      | Ok last =>
          if from_option (fun t => bool_decide (since now t < cooldown_ms (alert_rule self))) false last then (Ok None, w)
          else
            let window_start := now - lookback_ms (alert_rule self) in
            match history (ps_item sample) (ps_region sample) window_start (prices w) with
            | Err e => (Err (AppError.Repo e), w)
            | Ok history =>
                let baseline := filter (fun s => observed_at s <> observed_at sample) history in
                match evaluate (alert_rule self) sample baseline (ci_floor_copper entry) with
                | None => (Ok None, w)
                | Some alert =>
                    let '(r, p) := record_alert alert (prices w) in
                    match r with
                    | Err e => (Err (AppError.Repo e), {| prices := p; published := published w |})
                    | Ok _ =>
                        (Ok (Some alert),
                         {| prices := p; published := published w ++ [(alert, display_name entry (ps_item sample))] |})
                    end
                end
            end
      end
  end.

Fixpoint raise_loop (now : Millis) (samples : list PriceSample) (raised : list Alert) (w : World) : AppResult (list Alert) * World :=
  match samples with
  | [] => (Ok raised, w)
  | sample :: rest =>
      let '(r, w') := raise_one now sample w in
      match r with
      | Err e => (Err e, w')
      | Ok None => raise_loop now rest raised w'
      | Ok (Some alert) => raise_loop now rest (raised ++ [alert]) w'
      end
  end.

Definition raise_alerts (samples : list PriceSample) (now : Millis) (w : World) : AppResult (list Alert) * World :=
  raise_loop now samples [] w.

(** A missing Last-Modified is stamped with the clock. *)
Definition stamped (generated_at now : Millis) : Millis := if decide (generated_at = 0) then now else generated_at.

Definition collect (provider : Provider) (region : Region) (now : Millis) (w : World) : AppResult Report * World :=
  match last_observed region (prices w) with
  | Err e => (Err (AppError.Repo e), w)
  | Ok since =>
      match provider region (tracked self) since with
      | Err e => (Err e, w)
      | Ok Market.NotModified =>
          (Ok {| rp_region := region; rp_generated_at := default now since; rp_outcome := NotModified |}, w)
      | Ok (Fresh generated listings) =>
          let generated_at := stamped generated now in
          let '(samples, ladders) := summarise_all region generated_at listings in
          let '(r, p) := record_snapshot samples region generated_at ladders (prices w) in
          let w := {| prices := p; published := published w |} in
          match r with
          | Err e => (Err (AppError.Repo e), w)
          | Ok (written, ladder_rows) =>
              if decide (written = 0 /\ samples <> []) then
                (Ok {| rp_region := region; rp_generated_at := generated_at; rp_outcome := AlreadyRecorded |}, w)
              else
                let '(r, w) := raise_alerts samples generated_at w in
                match r with
                | Err e => (Err e, w)
                | Ok alerts =>
                    (Ok {| rp_region := region; rp_generated_at := generated_at;
                           rp_outcome := Collected (N.of_nat (length samples)) written ladder_rows alerts |}, w)
                end
          end
      end
  end.

(** A collector's life: the passes of its schedule, each with what the provider
    answered then. *)
Fixpoint run (passes : list (Provider * Region * Millis)) (w : World) : list (AppResult Report) * World :=
  match passes with
  | [] => ([], w)
  | (provider, region, now) :: rest =>
      let '(r, w') := collect provider region now w in
      let '(rs, w'') := run rest w' in (r :: rs, w'')
  end.

End collector.
Arguments World P : clear implicits.

(** ** What a pass writes *)

(** Identifiers of 32 bits and prices of 64. *)
Definition listing_ok (l : Listing) : Prop := l_item l <= u32_max /\ unit_price l < 2 ^ 64.

Lemma group_by_item_lookup listings i :
  group_by_item listings !! i = match filter (fun l => l_item l = i) listings with [] => None | g => Some g end.
Proof.
  unfold group_by_item. rewrite group_by_lookup. by rewrite list_fmap_id.
Qed.

Lemma quantile_price_bound l total percent : Forall listing_ok l -> quantile_price l total percent < 2 ^ 64.
Proof.
  intros Hl. unfold quantile_price. set (target := N.max _ _). clearbody target.
  destruct (quantile_scan target 0 l) as [c|] eqn:Hc.
  - revert Hc. generalize 0 as seen. induction Hl as [|x l [_ Hx] Hl IH]; [done|]. intros seen. cbn [quantile_scan].
    case_decide; [|apply IH]. by intros [= <-].
  - destruct (last l) as [x|] eqn:Hx; [|done]. apply last_Some_elem_of in Hx. rewrite Forall_forall in Hl. by apply Hl.
Qed.

Lemma summarise_storable l st item region at_ :
  Forall listing_ok l -> item <= u32_max -> at_ < 2 ^ 63 -> summarise l = Some st -> storable_sample (into_sample st item region at_).
Proof.
  intros Hl Hi Hat Hs. unfold summarise in Hs. pose proof (merge_sort_Permutation by_price l) as Hp. rewrite <- Hp in Hl.
  destruct (merge_sort by_price l) as [|x k]; [done|]. cbv zeta in Hs. case_decide; [done|]. injection Hs as <-.
  pose proof (proj1 (Forall_cons _ _ _) Hl) as [[_ Hx] _].
  unfold storable_sample, into_sample. cbn. split_and!; [done|done|done|by apply quantile_price_bound..|apply wrap_lt|].
  pose proof (wrap_lt 32 (N.of_nat (S (length k)))). unfold u32_max. lia.
Qed.

(** The samples of a snapshot are of its region and instant, and fit the columns. *)
Definition sample_of (region : Region) (at_ : Millis) (s : PriceSample) : Prop :=
  storable_sample s /\ ps_region s = region /\ observed_at s = at_.

Lemma summarise_all_samples region at_ listings :
  Forall listing_ok listings -> at_ < 2 ^ 63 -> Forall (sample_of region at_) (summarise_all region at_ listings).1.
Proof.
  intros Hl Hat. unfold summarise_all. cbn [fst]. apply Forall_forall.
  intros s ([s' e] & -> & ([i g] & Hin & Hr)%list_elem_of_omap)%list_elem_of_fmap. cbn [fst].
  apply elem_of_entries in Hin. rewrite group_by_item_lookup in Hin.
  assert (g = filter (fun l => l_item l = i) listings /\ g <> []) as [Hg Hne] by (destruct (filter _ listings); by simplify_eq).
  assert (Forall listing_ok g) as Hgl.
  { subst g. apply Forall_forall. intros x [_ Hx]%list_elem_of_filter. rewrite Forall_forall in Hl. by apply Hl. }
  assert (i <= u32_max) as Hi.
  { destruct g as [|x g']; [done|]. assert (x ∈ filter (fun l => l_item l = i) listings) as Hx by (rewrite <- Hg; constructor).
    apply list_elem_of_filter in Hx as [<- _]. by apply Forall_cons in Hgl as [[? _] _]. }
  unfold reduce_item in Hr. destruct (summarise g) as [st|] eqn:Hs; [|done]. injection Hr as <- <-.
  split_and!; [by eapply summarise_storable|done|done].
Qed.

(** An alert fits the columns too. *)
Lemma quantile_bound b p v : Forall (fun x => x < 2 ^ 64) (Engine.prices b) -> quantile b p = Some v -> v < 2 ^ 64.
Proof.
  intros Hb. unfold quantile. cbv zeta. case_decide as H0; [done|]. case_decide as H1.
  - intros [= <-]. rewrite Forall_forall in Hb. apply Hb, at_rank_elem. lia.
  - set (x := Z.max _ _). clearbody x. intros [= <-]. unfold to_u64, u64_max. lia.
Qed.

Lemma baseline_window_bound rule current h :
  Forall storable_sample h -> Forall (fun x => x < 2 ^ 64) (Engine.prices (baseline_window rule current h)).
Proof.
  intros Hh. apply Forall_forall. intros p (o & [Hin _] & <- & _)%from_observations_elem.
  apply list_elem_of_fmap in Hin as (s & -> & [_ Hs]%list_elem_of_filter). rewrite Forall_forall in Hh.
  by destruct (Hh s Hs) as (_ & _ & _ & ? & _).
Qed.

Lemma evaluate_storable rule current h floor a :
  storable_sample current -> Forall storable_sample h -> from_option (fun f => f < 2 ^ 64) True floor ->
  evaluate rule current h floor = Some a -> storable_alert a.
Proof.
  intros (Hi & Ht & _ & Hp & _ & Hq & _) Hh Hf He. pose proof (baseline_window_bound rule current h Hh) as Hb.
  assert (forall t b s, t < 2 ^ 64 -> b < 2 ^ 64 -> storable_alert (build current t b s)) as Hbuild.
  { intros t b s Ht' Hb'. unfold storable_alert. destruct (build_fields current t b s) as (-> & _ & -> & -> & Hd).
    split_and!; try done. lia. }
  unfold evaluate in He. case_decide; [done|]. cbv zeta in He.
  destruct (match floor with Some f => _ | None => _ end) as [x|] eqn:Hfl.
  { destruct floor as [f|]; [|done]. case_decide; [|done]. injection Hfl as <-. injection He as <-. by apply Hbuild. }
  case_decide; [done|]. set (win := baseline_window rule current h) in *. clearbody win.
  destruct (quantile win (fraction (percentile rule))) as [t|] eqn:Hqt; [|done]. cbn in He. case_decide; [done|].
  destruct (quantile win (lit 50 100)) as [b|] eqn:Hqb; [|done]. cbn in He.
  destruct (quantile win (fraction (N.max _ 1))); [|done]. cbn in He. injection He as <-.
  apply Hbuild; by eapply quantile_bound.
Qed.

(** ** Invariants of a pass *)

(** Alerts about one item, in the order they were raised, at least [gap] apart. *)
Definition spaced (gap : N) (l : list Alert) : Prop :=
  forall i r, StronglySorted (fun a b => a + gap <= b) (alerts_of l i r).

Definition spaced_before (gap : N) (l : list Alert) (a : Alert) : Prop :=
  forall t, t ∈ alerts_of l (al_item a) (al_region a) -> t + gap <= al_observed_at a.

Lemma alerts_of_app l k i r : alerts_of (l ++ k) i r = alerts_of l i r ++ alerts_of k i r.
Proof. unfold alerts_of. by rewrite filter_app, fmap_app. Qed.

Lemma StronglySorted_snoc {A} (R : A -> A -> Prop) l x : StronglySorted R l -> Forall (fun y => R y x) l -> StronglySorted R (l ++ [x]).
Proof.
  induction 1 as [|y l Hs IH Hall]; intros Hx; [by repeat constructor|]. apply Forall_cons in Hx as [Hyx Hx].
  cbn. constructor; [by apply IH|]. apply Forall_app. split; [done|by apply Forall_singleton].
Qed.

Lemma spaced_snoc gap l a : spaced gap l -> spaced_before gap l a -> spaced gap (l ++ [a]).
Proof.
  intros Hl Ha i r. rewrite alerts_of_app. specialize (Hl i r). unfold alerts_of at 2. rewrite filter_cons.
  case_decide as Hk; [|by rewrite app_nil_r]. destruct Hk as [<- <-]. apply StronglySorted_snoc; [done|].
  apply Forall_forall. exact Ha.
Qed.

Section proofs.
Context {P : Type} {HR : PriceRepository P} {HV : PriceView P} {HL : PriceRepositoryLaws P}.
Variable self : Config.

Abbreviation gap := (cooldown_ms (alert_rule self)).

(** The name an alert goes out under. *)
Definition named (a : Alert) : Alert * string :=
  (a, from_option (fun e => display_name e (al_item a)) "" (Catalog.index (catalog self) !! al_item a)).

(** An alert is about a tracked item, at a price no higher than its threshold. *)
Definition justified (a : Alert) : Prop :=
  is_Some (Catalog.index (catalog self) !! al_item a) /\ al_current a <= al_threshold a /\
  al_discount_percent a <= 100.

(** [new] is what was raised on the way from [w] to [w']: recorded, published under its
    name, in the same order, spaced if what was there before was. *)
Definition extends (w : World P) (new : list Alert) (w' : World P) : Prop :=
  sane (prices w') /\ raised (prices w') = raised (prices w) ++ new /\ published w' = published w ++ (named <$> new) /\
  Forall justified new /\ (spaced gap (raised (prices w)) -> spaced gap (raised (prices w'))).

Lemma extends_refl w : sane (prices w) -> extends w [] w.
Proof. intros. split_and!; [done|by rewrite app_nil_r..|done|done]. Qed.

Lemma extends_trans w1 w2 w3 n1 n2 : extends w1 n1 w2 -> extends w2 n2 w3 -> extends w1 (n1 ++ n2) w3.
Proof.
  intros (_ & R1 & P1 & J1 & S1) (Hs & R2 & P2 & J2 & S2). split_and!; [done|..].
  - by rewrite R2, R1, (assoc app).
  - by rewrite P2, P1, fmap_app, (assoc app).
  - by apply Forall_app.
  - auto.
Qed.

Definition floors_ok : Prop :=
  Forall (fun i => from_option (fun f => f < 2 ^ 64) True (ci_floor_copper i)) (c_items (catalog self)).

Hypothesis Hfloors : floors_ok.
Hypothesis Hgap : 0 < gap.

Lemma index_floor i entry : Catalog.index (catalog self) !! i = Some entry -> from_option (fun f => f < 2 ^ 64) True (ci_floor_copper entry).
Proof.
  unfold Catalog.index. rewrite index_items_lookup. destruct (find_first _ _) as [e|] eqn:He; [|by rewrite lookup_empty].
  intros [= <-]. apply find_first_Some in He as [Hin _]. rewrite elem_of_reverse in Hin.
  unfold floors_ok in Hfloors. rewrite Forall_forall in Hfloors. by apply Hfloors.
Qed.

(** The cooldown test lets an alert through only a whole cooldown after the newest. *)
Lemma cooldown_passed p i r now last a :
  sane p -> i <= u32_max -> last_alert_at i r p = Ok last ->
  from_option (fun t => bool_decide (since now t < gap)) false last = false ->
  al_item a = i -> al_region a = r -> al_observed_at a = now -> spaced_before gap (raised p) a.
Proof.
  intros Hp Hi Hl Hc <- <- <- t Ht. apply last_alert_at_ok in Hl; [|done..].
  apply maxN_upper in Ht as (m & Hm & Htm). rewrite Hl, Hm in Hc. cbn in Hc. apply bool_decide_eq_false in Hc. unfold since in Hc. lia.
Qed.

Lemma raise_one_spec now s w r w' :
  sane (prices w) -> now < 2 ^ 63 -> storable_sample s -> observed_at s = now -> raise_one self now s w = (r, w') ->
  stored (prices w') = stored (prices w) /\
  extends w (match r with Ok (Some a) => [a] | _ => [] end) w'.
Proof.
  intros Hw Hnow Hs Hat Hr. unfold raise_one in Hr. pose proof (extends_refl w Hw) as Hrefl.
  destruct (Catalog.index _ !! _) as [entry|] eqn:Hi; [|by injection Hr as <- <-].
  destruct (last_alert_at _ _ _) as [last|] eqn:Hl; [|by injection Hr as <- <-].
  destruct (from_option _ _ last) eqn:Hc; [by injection Hr as <- <-|].
  destruct (history _ _ _ _) as [h|] eqn:Hh; [|by injection Hr as <- <-].
  destruct (evaluate _ _ _ _) as [a|] eqn:He; [|by injection Hr as <- <-].
  pose proof Hs as (Hsi & _). apply history_ok in Hh; [|done|done|lia].
  assert (storable_alert a) as Ha.
  { eapply evaluate_storable; [exact Hs| |by eapply index_floor|exact He].
    apply Forall_forall. intros x [_ Hx]%list_elem_of_filter. rewrite Forall_forall in Hh. by apply Hh. }
  apply evaluate_sound in He as (Ei & Er & Et & _ & Hd & _ & Hth & _).
  destruct (record_alert a (prices w)) as [[u|e] p'] eqn:Hra; injection Hr as <- <-.
  - apply record_alert_ok in Hra as (Hp' & Hra & Hst); [|done..]. cbn [prices published]. split; [done|].
    split_and!; cbn [prices published fmap list_fmap].
    + done.
    + done.
    + unfold named. by rewrite Ei, Hi.
    + apply Forall_singleton. split_and!; [by rewrite Ei, Hi|done|done].
    + intros Hsp. rewrite Hra. apply spaced_snoc; [done|]. eapply cooldown_passed; eauto. congruence.
  - apply record_alert_err in Hra as ->. by destruct w.
Qed.

Lemma raise_loop_spec now samples : forall acc w r w',
  sane (prices w) -> now < 2 ^ 63 -> Forall (fun s => storable_sample s /\ observed_at s = now) samples ->
  raise_loop self now samples acc w = (r, w') ->
  stored (prices w') = stored (prices w) /\
  exists new, extends w new w' /\ forall l, r = Ok l -> l = acc ++ new.
Proof.
  induction samples as [|s samples IH]; intros acc w r w' Hw Hnow Hs Hr; cbn [raise_loop] in Hr.
  { injection Hr as <- <-. split; [done|]. exists []. split; [by apply extends_refl|]. intros l [= <-]. by rewrite app_nil_r. }
  apply Forall_cons in Hs as [[Hs Hat] Hss]. destruct (raise_one self now s w) as [r1 w1] eqn:H1.
  apply raise_one_spec in H1 as [Hst1 He1]; [|done..]. assert (sane (prices w1)) as Hw1 by apply He1.
  destruct r1 as [[a|]|e].
  - apply IH in Hr as (Hst & new & He & Hl); [|done..]. split; [congruence|]. exists ([a] ++ new).
    split; [by eapply extends_trans|]. intros l Hrl. rewrite (Hl l Hrl). by rewrite <- (assoc app).
  - apply IH in Hr as (Hst & new & He & Hl); [|done..]. split; [congruence|]. exists new.
    split; [|done]. by apply (extends_trans _ _ _ [] new He1).
  - injection Hr as <- <-. split; [done|]. by exists [].
Qed.

(** ** The pass *)
Definition provider_ok (provider : Provider) : Prop :=
  forall region ids since g ls, provider region ids since = Ok (Fresh g ls) -> g < 2 ^ 63 /\ Forall listing_ok ls.

Lemma stamped_lt g now : g < 2 ^ 63 -> now < 2 ^ 63 -> stamped g now < 2 ^ 63.
Proof. unfold stamped. by case_decide. Qed.

Definition alerts_in (r : AppResult Report) : option (list Alert) :=
  match r with Ok rep => match rp_outcome rep with Collected _ _ _ l => Some l | _ => Some [] end | Err _ => None end.

Lemma sample_of_storable region at_ ss : Forall (sample_of region at_) ss -> Forall storable_sample ss.
Proof. intros Hs. eapply Forall_impl; [exact Hs|]. by intros s []. Qed.

(** Before the alerts: what the snapshot did to the store. *)
Lemma record_spec region at_ samples ladders w r p :
  sane (prices w) -> Forall storable_sample samples ->
  record_snapshot samples region at_ ladders (prices w) = (r, p) ->
  extends w [] {| prices := p; published := published w |} /\
  (is_ok r = true -> all_stored p samples) /\ (is_ok r = false -> p = prices w).
Proof.
  intros Hw Hs Hr. destruct r as [[n k]|e].
  - apply record_snapshot_ok in Hr as (Hp & Hra & _ & Hst); [|done..]. split_and!; [|..|done]; cbn.
    + split_and!; cbn; [done|by rewrite app_nil_r..|done|by rewrite Hra].
    + intros _ s Hin. rewrite Forall_forall in Hs. destruct (Hs s Hin) as (? & ? & _). rewrite Hst by done.
      destruct (stored (prices w) _ _ _); [done|]. destruct (find_first _ samples) eqn:Hf; [done|].
      apply find_first_None with (x := s) in Hf; [|done]. by rewrite key_of_refl in Hf.
  - apply record_snapshot_err in Hr as ->. split_and!; [|done..]. by destruct w; apply extends_refl.
Qed.

Lemma collect_spec provider region now w r w' :
  sane (prices w) -> provider_ok provider -> now < 2 ^ 63 -> collect self provider region now w = (r, w') ->
  exists new, extends w new w' /\ forall l, alerts_in r = Some l -> l = new.
Proof.
  intros Hw Hpr Hnow Hc. unfold collect in Hc. pose proof (extends_refl w Hw) as Hrefl.
  assert (exists new, extends w new w /\ forall l, Some [] = Some l -> l = new) as Hnone by (exists []; split; [done|by intros l [= <-]]).
  destruct (last_observed _ _) as [since|]; [|injection Hc as <- <-; by exists []].
  destruct (provider _ _ _) as [[|g ls]|] eqn:Hp; [by injection Hc as <- <-| |injection Hc as <- <-; by exists []].
  apply Hpr in Hp as [Hg Hls]. cbv zeta in Hc. set (at_ := stamped g now) in *.
  assert (at_ < 2 ^ 63) as Hat by by apply stamped_lt. clearbody at_.
  pose proof (summarise_all_samples region at_ ls Hls Hat) as Hss. destruct (summarise_all _ _ _) as [samples ladders]. cbn [fst] in Hss.
  destruct (record_snapshot _ _ _ _ _) as [res p] eqn:Hr.
  apply record_spec in Hr as (He & _ & _); [|done|by eapply sample_of_storable].
  destruct res as [[written rows]|]; [|injection Hc as <- <-; by exists []].
  case_decide; [injection Hc as <- <-; exists []; split; [done|by intros l [= <-]]|].
  destruct (raise_alerts _ _ _ _) as [res w2] eqn:Hra. unfold raise_alerts in Hra.
  apply raise_loop_spec in Hra as (_ & new & He2 & Hl); [|by apply He|done|eapply Forall_impl; [exact Hss|]; by intros s (? & _ & ?)].
  exists new. split.
  - destruct res; injection Hc as _ <-; by apply (extends_trans _ _ _ [] new He).
  - destruct res; injection Hc as <- _; [|done]. intros l [= <-]. by apply Hl.
Qed.

(** Alerts of the passes that reported, in order. *)
Definition reported (rs : list (AppResult Report)) : list Alert := concat (omap alerts_in rs).

Lemma run_spec passes : forall w,
  sane (prices w) -> Forall (fun p => provider_ok p.1.1 /\ p.2 < 2 ^ 63) passes ->
  exists new, extends w new (run self passes w).2 /\ reported (run self passes w).1 `sublist_of` new /\
    (Forall (fun r => is_ok r = true) (run self passes w).1 -> reported (run self passes w).1 = new).
Proof.
  induction passes as [|[[pr region] now] passes IH]; intros w Hw Hp; [exists []; split_and!; [by apply extends_refl|done..]|].
  apply Forall_cons in Hp as [[Hpr Hnow] Hp]. cbn [run]. cbn [fst snd] in *.
  destruct (collect self pr region now w) as [r w1] eqn:Hc. apply collect_spec in Hc as (n1 & He1 & Hl1); [|done..].
  destruct (IH w1) as (n2 & He2 & Hs2 & Hl2); [by apply He1|done|]. destruct (run self passes w1) as [rs w2]. cbn [fst snd] in *.
  exists (n1 ++ n2). split; [by eapply extends_trans|]. unfold reported in *. cbn [omap list_omap].
  destruct r as [rep|e]; cbn [alerts_in] in *.
  - destruct (match rp_outcome rep with Collected _ _ _ l => _ | _ => _ end) as [l|] eqn:Hl; [|by destruct (rp_outcome rep)].
    rewrite (Hl1 l eq_refl). cbn [concat]. split; [by apply sublist_app|]. intros [_ Hall]%Forall_cons. f_equal. by apply Hl2.
  - split; [by apply sublist_inserts_l|]. by intros [? _]%Forall_cons.
Qed.

(** A snapshot whose samples are all there writes nothing and raises nothing. *)
Lemma collect_stored provider region now w g ls r w' :
  sane (prices w) -> provider_ok provider -> g <> 0 -> (forall since, provider region (tracked self) since = Ok (Fresh g ls)) ->
  (summarise_all region g ls).1 <> [] -> all_stored (prices w) (summarise_all region g ls).1 ->
  collect self provider region now w = (r, w') ->
  ((exists e, r = Err (AppError.Repo e)) \/
   r = Ok {| rp_region := region; rp_generated_at := g; rp_outcome := AlreadyRecorded |}) /\
  raised (prices w') = raised (prices w) /\ published w' = published w /\
  forall i r t, i <= u32_max -> t < 2 ^ 63 -> stored (prices w') i r t = stored (prices w) i r t.
Proof.
  intros Hw Hpr Hg Hsnap Hne Hall Hc. unfold collect in Hc.
  destruct (last_observed _ _) as [since|]; [|injection Hc as <- <-; by split; [left; eexists|]].
  rewrite Hsnap in Hc. unfold stamped in Hc. rewrite decide_False in Hc by done.
  destruct (Hpr _ _ _ _ _ (Hsnap since)) as [Hg' Hls]. pose proof (summarise_all_samples region g ls Hls Hg') as Hss. cbv zeta in Hc.
  destruct (summarise_all region g ls) as [samples ladders]. cbn [fst] in *. apply sample_of_storable in Hss.
  destruct (record_snapshot _ _ _ _ _) as [[[n k]|e] p] eqn:Hr.
  - apply record_snapshot_ok in Hr as (_ & Hra & Hn & Hst); [|done..]. rewrite decide_True in Hc by (split; [by apply Hn|done]).
    injection Hc as <- <-. cbn [prices published]. split_and!; [by right|done|done|]. intros i r t Hi Ht. rewrite Hst by done.
    destruct (stored (prices w) i r t) eqn:Hs; [done|]. destruct (find_first (at_key i r t) samples) as [s|] eqn:Hf; [|done].
    apply find_first_Some in Hf as [Hin Hk]. destruct (Hall s Hin) as [x Hx]. unfold at_key in Hk.
    apply bool_decide_eq_true in Hk as (<- & <- & <-). congruence.
  - apply record_snapshot_err in Hr as ->. injection Hc as <- <-. split; [left; by eexists|done].
Qed.

(** A pass that succeeded leaves its samples stored. *)
Lemma collect_ok_stored provider region now w g ls r w' :
  sane (prices w) -> provider_ok provider -> g <> 0 -> (forall since, provider region (tracked self) since = Ok (Fresh g ls)) ->
  collect self provider region now w = (r, w') -> is_ok r = true -> all_stored (prices w') (summarise_all region g ls).1.
Proof.
  intros Hw Hpr Hg Hsnap Hc Hok. unfold collect in Hc.
  destruct (last_observed _ _) as [since|]; [|by injection Hc as <- <-].
  rewrite Hsnap in Hc. unfold stamped in Hc. rewrite decide_False in Hc by done.
  destruct (Hpr _ _ _ _ _ (Hsnap since)) as [Hg' Hls]. pose proof (summarise_all_samples region g ls Hls Hg') as Hss. cbv zeta in Hc.
  destruct (summarise_all region g ls) as [samples ladders]. cbn [fst] in *.
  destruct (record_snapshot _ _ _ _ _) as [res p] eqn:Hr.
  apply record_spec in Hr as (He & Hall & _); [|done|by eapply sample_of_storable].
  destruct res as [[n k]|e]; [|by injection Hc as <- <-]. specialize (Hall eq_refl).
  case_decide; [by injection Hc as _ <-|]. destruct (raise_alerts _ _ _ _) as [res w2] eqn:Hra. unfold raise_alerts in Hra.
  apply raise_loop_spec in Hra as (Hst & _); [|by apply He|done|eapply Forall_impl; [exact Hss|]; by intros s (? & _ & ?)].
  assert (w' = w2) as -> by (destruct res; by injection Hc as _ <-). unfold all_stored. rewrite Hst. exact Hall.
Qed.

End proofs.

(** C36: However the passes of a collector go, failures of the store and of the
    provider included, the alerts it adds are recorded and published one for one, under
    the item's name and in the same order; each is about an item of the catalogue, at a
    price at or below its threshold; two alerts about one item in one region are never
    closer than the cooldown; and the reports name the alerts that were raised, all of
    them when no pass failed. *)
Theorem alerts_spaced {P} {HR : PriceRepository P} {HV : PriceView P} {HL : PriceRepositoryLaws P} self passes (w : World P) :
  floors_ok self -> 0 < cooldown_ms (alert_rule self) -> sane (prices w) ->
  Forall (fun p => provider_ok p.1.1 /\ p.2 < 2 ^ 63) passes -> spaced (cooldown_ms (alert_rule self)) (raised (prices w)) ->
  let '(reports, w') := run self passes w in
  exists new, raised (prices w') = raised (prices w) ++ new /\ published w' = published w ++ (named self <$> new) /\
    spaced (cooldown_ms (alert_rule self)) (raised (prices w')) /\ Forall (justified self) new /\
    reported reports `sublist_of` new /\ (Forall (fun r => is_ok r = true) reports -> reported reports = new).
Proof.
  intros Hf Hg Hw Hp Hs. destruct (run_spec self Hf Hg passes w Hw Hp) as (new & (_ & HR' & HP & HJ & HS) & Hsub & Heq).
  destruct (run self passes w) as [reports w']. cbn [fst snd] in *. exists new. split_and!; [done|done|by apply HS|done..].
Qed.

(** Collecting is idempotent.  A pass that succeeded has stored the samples of its
    snapshot, and where they are all stored, also after a pass that failed later on, a
    second pass over the same snapshot reports that it is already recorded (or that the
    store failed), and neither raises nor publishes an alert nor changes a sample. *)
Theorem recollect_silent {P} {HR : PriceRepository P} {HV : PriceView P} {HL : PriceRepositoryLaws P} self provider region now g ls (w : World P) :
  floors_ok self -> 0 < cooldown_ms (alert_rule self) -> sane (prices w) -> provider_ok provider -> now < 2 ^ 63 ->
  g <> 0 -> (forall since, provider region (tracked self) since = Ok (Fresh g ls)) -> (summarise_all region g ls).1 <> [] ->
  let '(r, w1) := collect self provider region now w in
  (is_ok r = true -> all_stored (prices w1) (summarise_all region g ls).1) /\
  (all_stored (prices w1) (summarise_all region g ls).1 -> forall now',
   let '(r', w2) := collect self provider region now' w1 in
   ((exists e, r' = Err (AppError.Repo e)) \/
    r' = Ok {| rp_region := region; rp_generated_at := g; rp_outcome := AlreadyRecorded |}) /\
   raised (prices w2) = raised (prices w1) /\ published w2 = published w1 /\
   forall i r t, i <= u32_max -> t < 2 ^ 63 -> stored (prices w2) i r t = stored (prices w1) i r t).
Proof.
  intros Hf Hgap Hw Hp Hnow Hg Hsnap Hne. destruct (collect self provider region now w) as [r w1] eqn:Hc. split.
  - by eapply collect_ok_stored.
  - intros Hall now'. destruct (collect self provider region now' w1) as [r' w2] eqn:Hc2.
    eapply collect_stored; [|done..|exact Hc2]. by apply (collect_spec self Hf Hgap) in Hc as (new & (? & _) & _).
Qed.

(** ** A collector over the SQLite tables *)
Definition demo_item : CatalogItem :=
  {| ci_name := "Flask"; ci_category := Category.Flask; ci_kind := ItemKind.Consumable; ci_profession := None;
     ci_slot := None; ci_audience := Audience.Common; ci_stat := default_stat;
     ci_ranks := [{| ir_rank := 1; ir_item_id := 7 |}; {| ir_rank := 2; ir_item_id := 8 |}];
     ci_floor_copper := Some 500; ci_icon := None; ci_target_quantity := None |}.

Definition demo : Config :=
  {| catalog := {| c_id := "demo"; c_expansion := "Demo"; c_status := CatalogStatus.Active; c_version := 1; c_patches := [];
                   c_raid_tiers := []; c_items := [demo_item]; c_item_levels := ∅; c_tracks := ∅; c_modifiers := ∅; c_notes := [] |};
     alert_rule := AlertRule_default; skip := [] |}.

(** Cheap flasks, offered at an instant in hours. *)
Definition demo_provider (hour : N) : Provider :=
  fun _ _ _ => Ok (Fresh (hour * 3600000) [{| l_item := 8; unit_price := 400; l_quantity := 30 |};
                                           {| l_item := 9; unit_price := 1; l_quantity := 90 |}]).

Definition demo_world : World PriceTables := {| prices := PriceTables_empty; published := [] |}.

Definition demo_passes : list (Provider * Region * Millis) :=
  (fun h => (demo_provider h, Eu, h * 3600000)) <$> [1; 2; 6; 7; 7; 8].

(** Six passes over floor-priced flasks raise an alert in the first hour and the
    next when the six hours are over. *)
Lemma demo_world_sane : sane (prices demo_world).
Proof. split; constructor. Qed.

Lemma alerts_spaced_witness :
  let w' := (run demo demo_passes demo_world).2 in
  spaced (cooldown_ms AlertRule_default) (raised (prices w')) /\
  (al_observed_at <$> raised (prices w')) = [3600000; 25200000] /\
  (snd <$> published w') = ["Flask (R2)"; "Flask (R2)"].
Proof.
  assert (floors_ok demo) as Hf by (apply Forall_singleton; vm_compute; reflexivity).
  assert (Forall (fun p => provider_ok p.1.1 /\ p.2 < 2 ^ 63) demo_passes) as Hp.
  { assert (forall h, h < 2 ^ 32 -> provider_ok (demo_provider h)) as Hok.
    { intros h Hh region ids since g ls [= <- <-]. split; [lia|]. by repeat constructor. }
    unfold demo_passes. apply Forall_fmap. repeat (apply Forall_cons; split; [split; [by apply Hok|done]|]). constructor. }
  pose proof (alerts_spaced demo demo_passes demo_world Hf eq_refl demo_world_sane Hp ltac:(intros i r; constructor)) as H.
  assert ((al_observed_at <$> raised (prices (run demo demo_passes demo_world).2)) = [3600000; 25200000] /\
    (snd <$> published (run demo demo_passes demo_world).2) = ["Flask (R2)"; "Flask (R2)"]) as [Ha Hn]
    by (split; vm_compute; reflexivity).
  destruct (run demo demo_passes demo_world) as [reports w']. destruct H as (new & _ & _ & Hs & _).
  cbv zeta. cbn [snd] in *. split; [exact Hs|]. split; [exact Ha|exact Hn].
Defined.

(** The same snapshot twice: the second pass finds it recorded. *)
Lemma recollect_silent_witness :
  let '(r, w1) := collect demo (demo_provider 5) Eu 18000100 demo_world in
  is_ok r = true /\ length (published w1) = 1%nat /\
  published (collect demo (demo_provider 5) Eu 18000900 w1).2 = published w1.
Proof.
  assert (floors_ok demo) as Hf by (apply Forall_singleton; vm_compute; reflexivity).
  assert (provider_ok (demo_provider 5)) as Hp by (intros region ids since g ls [= <- <-]; split; [done|by repeat constructor]).
  pose proof (recollect_silent demo (demo_provider 5) Eu 18000100 18000000 _ demo_world Hf eq_refl demo_world_sane Hp eq_refl
    ltac:(done) (fun _ => eq_refl) ltac:(vm_compute; discriminate)) as H.
  assert (is_ok (collect demo (demo_provider 5) Eu 18000100 demo_world).1 = true /\
    length (published (collect demo (demo_provider 5) Eu 18000100 demo_world).2) = 1%nat) as [Hr Hl]
    by (split; vm_compute; reflexivity).
  destruct (collect demo (demo_provider 5) Eu 18000100 demo_world) as [r w1]. destruct H as [Hok H]. cbn [fst snd] in *.
  split; [exact Hr|]. split; [exact Hl|]. specialize (H (Hok Hr) 18000900).
  destruct (collect demo (demo_provider 5) Eu 18000900 w1) as [r' w2]. apply H.
Defined.

End Collector.
