(* ===== verification/Window.v ===== *)
(** * Window: the intervals a market is described over

    Models [crates/app-core/src/market/window.rs]: the rolling and the named windows,
    the half-open interval each covers, how many hourly buckets a complete one would
    hold, and the text a window is stored under.

    Reading that text back tries the rolling form, a number and a final [d], before the
    named ones, so a patch or a tier whose own identifier ends in [d] does not read
    back: [window_key_roundtrip] states exactly which windows do. *)
From Stdlib Require Import Ascii.
From stdpp Require Import prelude gmap sorting strings pretty.
From S2P Require Import Prelude Text Time Market Catalog.

Module Window.

Inductive t :=
| Days (days : N)
| Patch (patch : string)
| Tier (id : string)
| Expansion
| All.

#[global] Instance eq_dec : EqDecision t.
Proof. solve_decision. Defined.

Definition HOUR_MS : N := 60 * 60 * 1000.
Definition DAY_MS : N := 24 * HOUR_MS.
Definition ROLLING_DAYS : list N := [1; 3; 7; 14; 30].

Definition universal : list t := (Days <$> ROLLING_DAYS) ++ [Expansion; All].

Definition all_for (catalog : Catalog) : list t :=
  universal ++ ((fun p => Patch (p_patch p)) <$> c_patches catalog) ++ ((fun x => Tier (t_id x)) <$> c_raid_tiers catalog).

(** When the next tier opens after an instant. *)
Definition next_tier (catalog : Catalog) (at_ : Millis) : option Millis :=
  minN (filter (fun o => at_ < o) (opened_at <$> c_raid_tiers catalog)).

Definition bounds (self : t) (catalog : Catalog) (now : Millis) : option (Millis * option Millis) :=
  match self with
  | Days days => Some (now - wrap 64 (days * DAY_MS), None)
  | Patch patch =>
      w ← find_first (fun w => bool_decide (p_patch w.1.1 = patch)) (patch_windows catalog); Some (w.1.2, w.2)
  | Tier id =>
      tier ← find_first (fun x => bool_decide (t_id x = id)) (c_raid_tiers catalog);
      Some (opened_at tier, next_tier catalog (opened_at tier))
  | Expansion => Some (span_start catalog, None)
  | All => Some (Millis_ZERO, None)
  end.

Definition expected_buckets (self : t) (catalog : Catalog) (now : Millis) : option N :=
  b ← bounds self catalog now;
  if decide (b.1 = Millis_ZERO) then None
  else let end_ := default now b.2 in Some (wrap 32 ((end_ - b.1) / HOUR_MS)).

Definition key (self : t) : string :=
  match self with
  | Days days => pretty days +:+ "d"
  | Patch patch => "patch:" +:+ patch
  | Tier tier => "tier:" +:+ tier
  | Expansion => "expansion"
  | All => "all"
  end.

Definition non_empty (s : string) (w : t) : option t := if decide (s = "") then None else Some w.

Definition parse (raw : string) : option t :=
  if decide (raw = "expansion") then Some Expansion
  else if decide (raw = "all") then Some All
  else match strip_suffix "d" raw with
       | Some days => Days <$> parse_u64 days
       | None =>
           match strip_prefix "patch:" raw with
           | Some patch => non_empty patch (Patch patch)
           | None =>
               match strip_prefix "tier:" raw with
               | Some tier => non_empty tier (Tier tier)
               | None => None
               end
           end
       end.

Example key_7 : key (Days 7) = "7d" /\ parse "7d" = Some (Days 7) /\ parse "tier:venomous-abyss" = Some (Tier "venomous-abyss").
Proof. vm_compute. done. Qed.

(** ** Reading a stored window back *)

(** The count of days is a [u64]. *)
Definition fits (w : t) : Prop := match w with Days days => days <= u64_max | _ => True end.

(** The windows whose text reads back. *)
Definition readable (w : t) : bool :=
  match w with
  | Patch s | Tier s => bool_decide (s <> "" /\ strip_suffix "d" s = None)
  | Days _ | Expansion | All => true
  end.

Lemma strip_suffix_prepend c p s : s <> "" -> strip_suffix c (p +:+ s) = (fun r => p +:+ r) <$> strip_suffix c s.
Proof.
  intros Hs. induction p as [|a p IH].
  { change ("" +:+ s) with s. by destruct (strip_suffix c s). }
  change (String a p +:+ s) with (String a (p +:+ s)). destruct (p +:+ s) as [|b r] eqn:E; [by destruct p, s|].
  change (strip_suffix c (String a (String b r))) with (String a <$> strip_suffix c (String b r)). rewrite IH.
  by destruct (strip_suffix c s).
Qed.

(** A named window's text: a prefix that is no number, and the identifier. *)
Lemma parse_named p s w :
  (forall r, p +:+ r <> "expansion") -> (forall r, p +:+ r <> "all") -> (forall r, parse_u64 (p +:+ r) = None) ->
  strip_suffix "d" p = None ->
  (match strip_prefix "patch:" (p +:+ s) with
   | Some patch => non_empty patch (Patch patch)
   | None => match strip_prefix "tier:" (p +:+ s) with Some tier => non_empty tier (Tier tier) | None => None end
   end) = non_empty s w ->
  parse (p +:+ s) = if bool_decide (s <> "" /\ strip_suffix "d" s = None) then Some w else None.
Proof.
  intros He Ha Hn Hd Hw. unfold parse. rewrite !decide_False by done. unfold non_empty in *.
  destruct (decide (s = "")) as [->|Hs].
  - rewrite bool_decide_eq_false_2 by naive_solver. assert (p +:+ "" = p) as Hp.
    { clear. induction p as [|a p IH]; [done|]. change (String a (p +:+ "") = String a p). by rewrite IH. }
    rewrite Hp, Hd in *. by rewrite Hw.
  - rewrite strip_suffix_prepend by done. destruct (strip_suffix "d" s) as [r|] eqn:Hr; cbn [fmap option_fmap option_map].
    + rewrite bool_decide_eq_false_2 by naive_solver. by rewrite Hn.
    + rewrite bool_decide_eq_true_2 by done. exact Hw.
Qed.

(** A window's stored text reads back as that window or not at all, never as
    another one, and it fails to read back exactly when the window is named by a patch
    or tier identifier that is empty or ends in [d]. *)
Theorem window_key_roundtrip w :
  fits w -> parse (key w) = if readable w then Some w else None.
Proof.
  intros Hw. destruct w as [days|s|s| |]; cbn [key readable].
  - unfold parse. assert (forall r, r <> "" -> all_digits r = true -> r +:+ "d" <> "expansion" /\ r +:+ "d" <> "all") as Hne.
    { intros [|a r] Hr Hd; [done|]. cbn in Hd. apply andb_true_iff in Hd as [Hd _]. split; intros [= -> _]; done. }
    destruct (Hne (pretty days)) as [H1 H2]; [apply pretty_nonempty|apply pretty_all_digits|]. rewrite !decide_False by done.
    rewrite strip_suffix_app, parse_pretty by done. done.
  - by apply parse_named.
  - by apply parse_named.
  - done.
  - done.
Qed.

Lemma window_key_roundtrip_witness :
  parse (key (Tier "venomous-abyss")) = Some (Tier "venomous-abyss") /\ parse (key (Tier "the-void")) = None /\
  parse (key (Days 30)) = Some (Days 30).
Proof.
  split; [exact (window_key_roundtrip (Tier "venomous-abyss") I)|]. split; [exact (window_key_roundtrip (Tier "the-void") I)|].
  apply (window_key_roundtrip (Days 30)). cbn. unfold u64_max. lia.
Defined.

(** ** The intervals *)

(** Every window a market is summarised over has an interval. *)
Lemma bounds_all_for catalog now w : w ∈ all_for catalog -> is_Some (bounds w catalog now).
Proof.
  assert (forall sorted p, p ∈ sorted -> exists v, v ∈ windows_of sorted /\ v.1.1 = p) as Hwin.
  { induction sorted as [|q sorted IH]; intros p; [by intros ?%not_elem_of_nil|]. cbn.
    intros [->|Hp]%elem_of_cons; [eexists; split; [constructor|done]|]. destruct (IH p Hp) as (v & Hv & <-).
    exists v. split; [by constructor|done]. }
  unfold all_for, universal. rewrite !elem_of_app, !list_elem_of_fmap.
  intros [[(d & -> & _)|Hn]|[(p & -> & Hp)|(x & -> & Hx)]]; cbn [bounds]; [done|..].
  - apply elem_of_cons in Hn as [->|[->|[]%not_elem_of_nil]%elem_of_cons]; done.
  - destruct (Hwin (sort_by_key started_at (c_patches catalog)) p) as (v & Hv & Hvp).
    { unfold sort_by_key. by rewrite sort_by_perm. }
    destruct (find_first _ _) eqn:Hf; [done|]. pose proof (find_first_None _ _ Hf v Hv) as Hn. cbv beta in Hn.
    rewrite Hvp, bool_decide_eq_true_2 in Hn; done.
  - destruct (find_first _ _) eqn:Hf; [done|]. pose proof (find_first_None _ _ Hf x Hx) as Hn. cbv beta in Hn.
    rewrite bool_decide_eq_true_2 in Hn; done.
Qed.

(** Two tiers whose windows share an instant opened together. *)
Lemma tier_windows_disjoint catalog now id id' b b' at_ :
  bounds (Tier id) catalog now = Some b -> bounds (Tier id') catalog now = Some b' ->
  b.1 <= at_ -> from_option (fun u => at_ < u) True b.2 -> b'.1 <= at_ -> from_option (fun u => at_ < u) True b'.2 ->
  b.1 = b'.1.
Proof.
  assert (forall o x, o < opened_at x -> x ∈ c_raid_tiers catalog -> opened_at x <= at_ ->
    from_option (fun u => at_ < u) True (next_tier catalog o) -> False) as Hnext.
  { intros o x Hlt Hx Hle Hn. unfold next_tier in Hn.
    destruct (minN_lower (filter (fun y => o < y) (opened_at <$> c_raid_tiers catalog)) (opened_at x)) as (m & Hm & Hmx).
    { apply list_elem_of_filter. split; [done|]. by apply list_elem_of_fmap_2. }
    rewrite Hm in Hn. cbn in Hn. lia. }
  cbn [bounds]. destruct (find_first _ (c_raid_tiers catalog)) as [x|] eqn:Hx; [|done]. intros [= <-]. cbn [fst snd].
  destruct (find_first (fun y => bool_decide (t_id y = id')) _) as [y|] eqn:Hy; [|done]. intros [= <-]. cbn [fst snd].
  apply find_first_Some in Hx as [Hx _], Hy as [Hy _]. intros H1 H2 H3 H4.
  destruct (N.lt_trichotomy (opened_at x) (opened_at y)) as [H|[H|H]]; [|done|]; exfalso; eauto.
Qed.

End Window.
