(* ===== verification/MarketEvent.v ===== *)
(** * MarketEvent: things that happened, and when

    Models [crates/app-core/src/market/event.rs]: the record of an event with its
    provenance, validation and visibility, the events a reviewed catalogue states, and
    the weekly resets a calendar rule generates.

    The loop of [ResetRule::events] advances by a week with a wrapping addition; it is
    run with fuel, and [reset_events_complete] gives the fuel that is enough. *)
From Stdlib Require Import Ascii ZArith.
From stdpp Require Import prelude gmap sorting strings pretty.
From S2P Require Import Prelude Text Time Market Catalog MarketKey.

Module EventKind.
Inductive t := PatchRelease | RaidOpening | SeasonStart | WeeklyReset | Hotfix | ProfessionChange | Holiday | Annotation.
#[global] Instance eq_dec : EqDecision t.
Proof. solve_decision. Defined.
Definition ALL : list t := [PatchRelease; RaidOpening; SeasonStart; WeeklyReset; Hotfix; ProfessionChange; Holiday; Annotation].
Definition as_str (self : t) : string :=
  match self with
  | PatchRelease => "patch_release" | RaidOpening => "raid_opening" | SeasonStart => "season_start"
  | WeeklyReset => "weekly_reset" | Hotfix => "hotfix" | ProfessionChange => "profession_change"
  | Holiday => "holiday" | Annotation => "annotation"
  end.
Definition label (self : t) : string :=
  match self with
  | PatchRelease => "Patch release" | RaidOpening => "Raid opening" | SeasonStart => "Season start"
  | WeeklyReset => "Weekly reset" | Hotfix => "Hotfix" | ProfessionChange => "Profession change"
  | Holiday => "Holiday" | Annotation => "Note"
  end.
Definition parse (raw : string) : option t := find_first (fun k => bool_decide (as_str k = raw)) ALL.
End EventKind.

Module Provenance.
Inductive t := Catalogue | Calendar | Administrator.
#[global] Instance eq_dec : EqDecision t.
Proof. solve_decision. Defined.
Definition ALL : list t := [Catalogue; Calendar; Administrator].
Definition as_str (self : t) : string :=
  match self with Catalogue => "catalogue" | Calendar => "calendar" | Administrator => "administrator" end.
Definition parse (raw : string) : option t := find_first (fun k => bool_decide (as_str k = raw)) ALL.
End Provenance.

Module Validation.
Inductive t := Unvalidated | Validated | Rejected.
#[global] Instance eq_dec : EqDecision t.
Proof. solve_decision. Defined.
Definition ALL : list t := [Unvalidated; Validated; Rejected].
Definition as_str (self : t) : string :=
  match self with Unvalidated => "unvalidated" | Validated => "validated" | Rejected => "rejected" end.
Definition parse (raw : string) : option t := find_first (fun k => bool_decide (as_str k = raw)) ALL.
End Validation.

Module Visibility.
Inductive t := Internal | Public.
#[global] Instance eq_dec : EqDecision t.
Proof. solve_decision. Defined.
Definition ALL : list t := [Internal; Public].
Definition as_str (self : t) : string := match self with Internal => "internal" | Public => "public" end.
Definition parse (raw : string) : option t := find_first (fun k => bool_decide (as_str k = raw)) ALL.
End Visibility.

Record EventScope := {
  es_regions : list Region; es_expansion : option string; es_patch : option string; es_tier : option string;
  es_category : option ItemKind.t; es_item : option ItemId; es_market : option MarketKey }.

Definition EventScope_default : EventScope :=
  {| es_regions := []; es_expansion := None; es_patch := None; es_tier := None; es_category := None; es_item := None;
     es_market := None |}.

Definition covers_region (self : EventScope) (region : Region) : bool :=
  bool_decide (es_regions self = []) || bool_decide (region ∈ es_regions self).

Record MarketEvent := {
  ev_id : string; ev_kind : EventKind.t; ev_title : string; ev_notes : option string; starts_at : Millis;
  ends_at : option Millis; scope : EventScope; ev_provenance : Provenance.t; ev_validation : Validation.t;
  ev_visibility : Visibility.t }.

Definition is_public (self : MarketEvent) : bool :=
  bool_decide (ev_visibility self = Visibility.Public) && bool_decide (ev_validation self = Validation.Validated).

(** ** Events that are already data *)
Definition DAY_MS : N := 24 * 60 * 60 * 1000.
Definition WEEK_MS : N := 7 * DAY_MS.

(** Monday is 0; the first of January 1970 was a Thursday. *)
Definition weekday (at_ : Millis) : N := (at_ / DAY_MS + 3) mod 7.

Definition patch_event (catalog : Catalog) (patch : Patch) : MarketEvent :=
  {| ev_id := "catalogue:" +:+ c_id catalog +:+ ":patch:" +:+ p_patch patch; ev_kind := EventKind.PatchRelease;
     ev_title := Patch_label patch; ev_notes := None; starts_at := started_at patch; ends_at := None;
     scope := {| es_regions := []; es_expansion := Some (c_expansion catalog); es_patch := Some (p_patch patch);
                 es_tier := None; es_category := None; es_item := None; es_market := None |};
     ev_provenance := Provenance.Catalogue; ev_validation := Validation.Validated; ev_visibility := Visibility.Public |}.

Definition tier_event (catalog : Catalog) (tier : RaidTier) : MarketEvent :=
  {| ev_id := "catalogue:" +:+ c_id catalog +:+ ":tier:" +:+ t_id tier; ev_kind := EventKind.RaidOpening;
     ev_title := t_name tier; ev_notes := None; starts_at := opened_at tier; ends_at := None;
     scope := {| es_regions := []; es_expansion := Some (c_expansion catalog); es_patch := Some (t_patch tier);
                 es_tier := Some (t_id tier); es_category := None; es_item := None; es_market := None |};
     ev_provenance := Provenance.Catalogue; ev_validation := Validation.Validated; ev_visibility := Visibility.Public |}.

Definition event_cmp (a b : MarketEvent) : comparison :=
  cmp_then (N.compare (starts_at a) (starts_at b)) (string_cmp (ev_id a) (ev_id b)).

Definition from_catalogue (catalog : Catalog) : list MarketEvent :=
  sort_by event_cmp ((patch_event catalog <$> c_patches catalog) ++ (tier_event catalog <$> c_raid_tiers catalog)).

(** ** Weekly resets *)
Record ResetRule := { rr_region : Region; rr_weekday : N; rr_hour_utc : N }.

Definition RESET_RULES : list ResetRule :=
  [{| rr_region := Us; rr_weekday := 1; rr_hour_utc := 15 |}; {| rr_region := Eu; rr_weekday := 2; rr_hour_utc := 3 |};
   {| rr_region := Kr; rr_weekday := 2; rr_hour_utc := 22 |}; {| rr_region := Tw; rr_weekday := 2; rr_hour_utc := 22 |}].

Definition first_at_or_after (self : ResetRule) (from : Millis) : Millis :=
  let day := from / DAY_MS * DAY_MS in
  let ahead := (7 + rr_weekday self - weekday day) mod 7 in
  let candidate := wrap 64 (day + ahead * DAY_MS + rr_hour_utc self * 60 * 60 * 1000) in
  if decide (from <= candidate) then candidate else wrap 64 (candidate + WEEK_MS).

(** [to_uppercase] of a region's text. *)
Definition Region_upper (r : Region) : string := match r with Eu => "EU" | Us => "US" | Kr => "KR" | Tw => "TW" end.

Definition reset_event (self : ResetRule) (at_ : Millis) : MarketEvent :=
  {| ev_id := "calendar:reset:" +:+ Region_as_str (rr_region self) +:+ ":" +:+ pretty at_; ev_kind := EventKind.WeeklyReset;
     ev_title := Region_upper (rr_region self) +:+ " weekly reset"; ev_notes := None; starts_at := at_; ends_at := None;
     scope := {| es_regions := [rr_region self]; es_expansion := None; es_patch := None; es_tier := None;
                 es_category := None; es_item := None; es_market := None |};
     ev_provenance := Provenance.Calendar; ev_validation := Validation.Unvalidated; ev_visibility := Visibility.Internal |}.

(** The loop; [None] is a loop that has not ended within the fuel. *)
Fixpoint reset_loop (fuel : nat) (self : ResetRule) (at_ until : Millis) (events : list MarketEvent) : option (list MarketEvent) :=
  if decide (at_ < until) then
    match fuel with
    | O => None
    | S fuel => reset_loop fuel self (wrap 64 (at_ + WEEK_MS)) until (events ++ [reset_event self at_])
    end
  else Some events.

Definition reset_events (fuel : nat) (self : ResetRule) (from until : Millis) : option (list MarketEvent) :=
  reset_loop fuel self (first_at_or_after self from) until [].

Definition weekly_resets (fuel : nat) (from until : Millis) : option (list MarketEvent) :=
  per_rule ← mapM (fun rule => reset_events fuel rule from until) RESET_RULES;
  Some (sort_by event_cmp (concat per_rule)).

(** ** The catalogue's events are public, the calendar's are not *)
Lemma from_catalogue_elem catalog e :
  e ∈ from_catalogue catalog <->
  (exists p, p ∈ c_patches catalog /\ e = patch_event catalog p) \/ (exists x, x ∈ c_raid_tiers catalog /\ e = tier_event catalog x).
Proof. unfold from_catalogue. rewrite sort_by_perm, elem_of_app, !list_elem_of_fmap.
  split; (intros [(y & ? & ?)|(y & ? & ?)]; [left|right]; by exists y). Qed.

Lemma from_catalogue_public catalog : Forall (fun e => is_public e = true) (from_catalogue catalog).
Proof. apply Forall_forall. intros e [(p & _ & ->)|(x & _ & ->)]%from_catalogue_elem; done. Qed.

(** ** The resets in an interval *)
Definition rule_ok (self : ResetRule) : Prop := rr_weekday self < 7 /\ rr_hour_utc self < 24.

(** An instant is a reset when it is on the rule's weekday at the rule's hour. *)
Definition is_reset (self : ResetRule) (at_ : Millis) : Prop :=
  weekday at_ = rr_weekday self /\ at_ mod DAY_MS = rr_hour_utc self * 60 * 60 * 1000.

Ltac calendar := unfold is_reset, rule_ok, weekday, WEEK_MS, DAY_MS in *; zify; Z.to_euclidean_division_equations; lia.

Lemma is_reset_week self t : is_reset self t -> is_reset self (t + WEEK_MS).
Proof. calendar. Qed.

Lemma resets_apart self t u : is_reset self t -> is_reset self u -> t < u -> t + WEEK_MS <= u.
Proof. calendar. Qed.

Lemma first_at_or_after_spec self from :
  rule_ok self -> from + 2 * WEEK_MS < 2 ^ 64 ->
  let first := first_at_or_after self from in
  is_reset self first /\ from <= first < from + WEEK_MS.
Proof.
  intros [Hw Hh] Hfit. unfold first_at_or_after. cbv zeta.
  set (q := from / DAY_MS). assert (from = q * DAY_MS + from mod DAY_MS /\ from mod DAY_MS < DAY_MS) as [Hq Hr].
  { unfold q, DAY_MS. pose proof (N.div_mod from (24 * 60 * 60 * 1000)). pose proof (N.mod_lt from (24 * 60 * 60 * 1000)). lia. }
  assert (weekday (q * DAY_MS) = (q + 3) mod 7) as -> by (unfold weekday; by rewrite N.div_mul by done).
  set (ahead := (7 + rr_weekday self - (q + 3) mod 7) mod 7).
  assert (ahead < 7 /\ (q + ahead + 3) mod 7 = rr_weekday self) as [Ha Hday].
  { unfold ahead. clear -Hw. zify. Z.to_euclidean_division_equations. lia. }
  set (tod := rr_hour_utc self * 60 * 60 * 1000) in *. assert (tod < DAY_MS) as Htod by (unfold tod, DAY_MS; lia).
  clearbody q ahead. unfold WEEK_MS in *.
  assert (forall k, is_reset self ((q + ahead + 7 * k) * DAY_MS + tod)) as Hreset.
  { intros k. split.
    - unfold weekday. rewrite N.div_add_l by done. rewrite (N.div_small tod) by done. rewrite N.add_0_r. rewrite <- Hday.
      clear. zify. Z.to_euclidean_division_equations. lia.
    - rewrite N.add_comm, N.Div0.mod_add. by apply N.mod_small. }
  assert (ahead * DAY_MS <= 6 * DAY_MS) as Ha6 by (apply N.mul_le_mono_r; lia).
  clearbody tod. set (x := q * DAY_MS) in *. set (y := ahead * DAY_MS) in *. set (r := from mod DAY_MS) in *.
  assert (x + y + tod < from + 7 * DAY_MS) as Hub by (clearbody x y r; clear Hday; lia).
  assert (from < x + 7 * DAY_MS) as Hlo by (clearbody x y r; clear Hday; lia).
  rewrite (wrap_small 64 (x + y + tod)) by lia. case_decide as Hle.
  - split; [|lia]. specialize (Hreset 0). by replace (x + y + tod) with ((q + ahead + 7 * 0) * DAY_MS + tod) by (unfold x, y; lia).
  - rewrite wrap_small by lia. split; [|lia]. specialize (Hreset 1).
    by replace (x + y + tod + 7 * DAY_MS) with ((q + ahead + 7 * 1) * DAY_MS + tod) by (unfold x, y; lia).
Qed.

Ltac weeks := unfold WEEK_MS, DAY_MS in *; lia.

(** The events the loop pushes: one per week from the first reset on. *)
Fixpoint weekly (n : nat) (at_ : Millis) : list Millis := match n with O => [] | S n => at_ :: weekly n (at_ + WEEK_MS) end.

Lemma reset_loop_spec self until fuel : forall at_ acc,
  until + WEEK_MS < 2 ^ 64 -> until <= at_ + N.of_nat fuel * WEEK_MS ->
  exists n, reset_loop fuel self at_ until acc = Some (acc ++ (reset_event self <$> weekly n at_)) /\
    Forall (fun t => t < until) (weekly n at_) /\ until <= at_ + N.of_nat n * WEEK_MS.
Proof.
  induction fuel as [|fuel IH]; intros at_ acc Hfit Hfuel; cbn [reset_loop].
  - rewrite decide_False by weeks. exists 0%nat. split_and!; [by rewrite app_nil_r|constructor|weeks].
  - case_decide as Hlt; [|exists 0%nat; split_and!; [by rewrite app_nil_r|constructor|weeks]].
    rewrite wrap_small by weeks. destruct (IH (at_ + WEEK_MS) (acc ++ [reset_event self at_])) as (n & Heq & Hall & Hn); [weeks..|].
    exists (S n). cbn [weekly fmap list_fmap]. split_and!.
    + by rewrite Heq, <- (assoc app).
    + by constructor.
    + weeks.
Qed.

Lemma weekly_elem n : forall at_ t, t ∈ weekly n at_ <-> exists k, k < N.of_nat n /\ t = at_ + k * WEEK_MS.
Proof.
  induction n as [|n IH]; intros at_ t; cbn [weekly].
  - split; [by intros ?%not_elem_of_nil|]. intros (k & Hk & _). lia.
  - rewrite elem_of_cons, IH. split.
    + intros [->|(k & Hk & ->)]; [exists 0; weeks|exists (k + 1); weeks].
    + intros (k & Hk & ->). destruct (decide (k = 0)) as [->|Hk0]; [left; weeks|]. right. exists (k - 1). weeks.
Qed.

Lemma weekly_resets_ok self n : forall at_, is_reset self at_ -> Forall (is_reset self) (weekly n at_).
Proof. induction n as [|n IH]; intros at_ Hat; constructor; [done|]. by apply IH, is_reset_week. Qed.

Lemma weekly_sorted n : forall at_, StronglySorted N.lt (weekly n at_).
Proof.
  induction n as [|n IH]; intros at_; constructor; [apply IH|]. apply Forall_forall. intros t (k & _ & ->)%weekly_elem.
  weeks.
Qed.

(** Every reset from the first on is a whole number of weeks after it. *)
Lemma reset_multiple self first : forall k t, is_reset self first -> is_reset self t -> first <= t < first + N.of_nat k * WEEK_MS ->
  t ∈ weekly k first.
Proof.
  intros k. revert first. induction k as [|k IH]; intros first t Hf Ht Hb; [weeks|]. cbn [weekly].
  destruct (decide (t = first)) as [->|Hne]; [constructor|]. constructor. apply IH; [by apply is_reset_week|done|].
  pose proof (resets_apart self first t Hf Ht). weeks.
Qed.

(** Fuel for an interval: a turn per week. *)
Definition reset_fuel (from until : Millis) : nat := N.to_nat ((until - from) / WEEK_MS + 1).

(** Generating the resets of an interval ends, within a turn per week of it, and
    yields one event per reset: the start times are, in ascending order, exactly the
    instants of the interval that fall on the rule's weekday at its hour, a week apart,
    and no such event is public.  The interval must end a week before the clock's
    64-bit range does; beyond that the advance wraps around. *)
Theorem reset_events_complete self from until fuel :
  rule_ok self -> from <= until -> until + 2 * WEEK_MS < 2 ^ 64 -> (reset_fuel from until <= fuel)%nat ->
  exists events, reset_events fuel self from until = Some events /\
    StronglySorted N.lt (starts_at <$> events) /\
    (forall t, t ∈ starts_at <$> events <-> from <= t < until /\ is_reset self t) /\
    Forall (fun e => is_public e = false /\ es_regions (scope e) = [rr_region self]) events.
Proof.
  intros Hrule Hle Hfit Hfuel. destruct (first_at_or_after_spec self from Hrule ltac:(weeks)) as [Hf Hb].
  unfold reset_events. set (first := first_at_or_after self from) in *. clearbody first.
  assert (until - from < (until - from) / WEEK_MS * WEEK_MS + WEEK_MS) as Hdiv.
  { pose proof (N.div_mod (until - from) WEEK_MS ltac:(done)). pose proof (N.mod_lt (until - from) WEEK_MS ltac:(done)). weeks. }
  unfold reset_fuel in Hfuel. set (q := (until - from) / WEEK_MS) in *. clearbody q.
  assert ((q + 1) * WEEK_MS <= N.of_nat fuel * WEEK_MS) as Hq by (apply N.mul_le_mono_r; lia).
  destruct (reset_loop_spec self until fuel first [] ltac:(weeks) ltac:(weeks)) as (n & Heq & Hall & Hn).
  eexists. split; [exact Heq|]. cbn [app].
  assert (starts_at <$> (reset_event self <$> weekly n first) = weekly n first) as Hs.
  { rewrite <- list_fmap_compose. apply list_fmap_id. }
  rewrite Hs. split_and!; [apply weekly_sorted| |].
  - intros t. pose proof (weekly_resets_ok self n first Hf) as Hok. split.
    + intros Ht. pose proof (proj1 (weekly_elem _ _ _) Ht) as (k & _ & Hk). rewrite Forall_forall in Hall, Hok.
      split; [|by apply Hok]. specialize (Hall t Ht). cbv beta in Hall. weeks.
    + intros [Ht Hr]. apply (reset_multiple self); [done|done|]. split; [|weeks].
      destruct (decide (first <= t)); [done|]. pose proof (resets_apart self t first Hr Hf). weeks.
  - apply Forall_fmap. by apply Forall_true.
Qed.

(** The European resets of January 1970: the first is Wednesday the seventh at three. *)
Lemma reset_events_complete_witness :
  exists events, reset_events 5 {| rr_region := Eu; rr_weekday := 2; rr_hour_utc := 3 |} 0 1814400000 = Some events /\
    (starts_at <$> events) = [529200000; 1134000000; 1738800000] /\ Forall (fun e => is_public e = false) events.
Proof.
  destruct (reset_events_complete {| rr_region := Eu; rr_weekday := 2; rr_hour_utc := 3 |} 0 1814400000 5) as (events & He & _ & _ & Hp).
  - split; cbn; lia.
  - lia.
  - unfold WEEK_MS, DAY_MS. lia.
  - unfold reset_fuel. vm_compute. lia.
  - exists events. split; [exact He|]. split; [revert He; vm_compute; by intros [= <-]|].
    eapply Forall_impl; [exact Hp|]. by intros e [].
Defined.
