(* ===== verification/Release.v ===== *)
(** * Release: where each catalogue is in its life, and who may see it

    Models [crates/storage/src/sqlite/releases.rs] over its table (a map by primary key,
    with the partial unique index that allows one active row), the [Release] and
    [Activation] of [crates/app-core/src/repo.rs], and [crates/app-core/src/market/release.rs]:
    the states the pages read and the functions that decide what a visitor may see.

    A statement that would break the unique index fails, and its transaction with it;
    [release_lifecycle] shows that none of them ever does. *)
From Stdlib Require Import Ascii ZArith.
From stdpp Require Import prelude gmap sorting strings pretty.
From S2P Require Import Prelude Text Time Store Sqlite Market Catalog.

Record Release := {
  r_catalog : string; r_state : CatalogStatus.t; r_changed_at : Millis; r_activated_at : option Millis;
  r_archived_at : option Millis }.

Record Activation := { activated : string; archived : option string }.

(** ** The table *)
Record ReleaseRow := { rw_state : string; rw_changed_at : Z; rw_activated_at : option Z; rw_archived_at : option Z }.

Abbreviation ReleaseTable := (gmap string ReleaseRow).

(** Rows in the order of the primary key. *)
Definition release_rows (t : ReleaseTable) : list (string * ReleaseRow) :=
  sort_by (fun a b => string_cmp a.1 b.1) (map_to_list t).

Definition release_from_row (row : string * ReleaseRow) : StoreResult Release :=
  let? state := ok_or (corrupt "catalog release state" (rw_state row.2)) (CatalogStatus.parse (rw_state row.2)) in
  Ok {| r_catalog := row.1; r_state := state; r_changed_at := as_u64 (rw_changed_at row.2);
        r_activated_at := as_u64 <$> rw_activated_at row.2; r_archived_at := as_u64 <$> rw_archived_at row.2 |}.

Definition sql_releases (t : ReleaseTable) : StoreResult (list Release) :=
  collect_results (release_from_row <$> release_rows t).

Definition is_active_row (row : ReleaseRow) : bool := bool_decide (rw_state row = "active").

(** [SELECT catalog_id ... WHERE state = 'active']. *)
Definition active_id (t : ReleaseTable) : option string :=
  fst <$> find_first (fun row => is_active_row row.2) (release_rows t).

(** Whether the partial unique index refuses a row: another one is active already. *)
Definition index_refuses (id : string) (row : ReleaseRow) (t : ReleaseTable) : bool :=
  is_active_row row && bool_decide (Exists (fun other => other.1 <> id /\ is_active_row other.2 = true) (release_rows t)).

(** [INSERT ... ON CONFLICT(catalog_id) DO NOTHING]. *)
Definition insert_release (id : string) (row : ReleaseRow) (t : ReleaseTable) : StoreResult (N * ReleaseTable) :=
  match t !! id with
  | Some _ => Ok (0, t)
  | None => if index_refuses id row t then Err unique_violation else Ok (1, <[id := row]> t)
  end.

(** [UPDATE ... WHERE catalog_id = ?]. *)
Definition update_release (id : string) (f : ReleaseRow -> ReleaseRow) (t : ReleaseTable) : StoreResult ReleaseTable :=
  match t !! id with
  | None => Ok t
  | Some row => if index_refuses id (f row) t then Err unique_violation else Ok (<[id := f row]> t)
  end.

(** The state a shipped catalogue is seeded in: a second active one waits as a draft. *)
Definition seed_state (catalog : string) (shipped : CatalogStatus.t) (collecting : option string) : CatalogStatus.t :=
  match CatalogStatus.is_active shipped, collecting with
  | true, Some held => if decide (held <> catalog) then CatalogStatus.DraftPtr else shipped
  | _, _ => shipped
  end.

Definition seed_row (state : CatalogStatus.t) (now : Millis) : ReleaseRow :=
  {| rw_state := CatalogStatus.as_str state; rw_changed_at := as_i64 now;
     rw_activated_at := if CatalogStatus.is_active state then Some (as_i64 now) else None; rw_archived_at := None |}.

Fixpoint seed_loop (now : Millis) (defaults : list (string * CatalogStatus.t)) (collecting : option string) (written : N)
    (t : ReleaseTable) : StoreResult (N * ReleaseTable) :=
  match defaults with
  | [] => Ok (written, t)
  | (catalog, shipped) :: rest =>
      let state := seed_state catalog shipped collecting in
      let collecting := if CatalogStatus.is_active state then Some catalog else collecting in
      match insert_release catalog (seed_row state now) t with
      | Err e => Err e
      | Ok (n, t) => seed_loop now rest collecting (written + n) t
      end
  end.

Definition sql_seed (defaults : list (string * CatalogStatus.t)) (now : Millis) (t : ReleaseTable) : StoreResult N * ReleaseTable :=
  match seed_loop now defaults (active_id t) 0 t with
  | Ok (n, t') => (Ok n, t')
  | Err e => (Err e, t)
  end.

Definition archive_row (now : Millis) (row : ReleaseRow) : ReleaseRow :=
  {| rw_state := "archived"; rw_changed_at := as_i64 now; rw_activated_at := rw_activated_at row; rw_archived_at := Some (as_i64 now) |}.
Definition activate_row (now : Millis) (row : ReleaseRow) : ReleaseRow :=
  {| rw_state := "active"; rw_changed_at := as_i64 now; rw_activated_at := Some (as_i64 now); rw_archived_at := None |}.

Definition sql_activate (catalog : string) (now : Millis) (t : ReleaseTable) : StoreResult Activation * ReleaseTable :=
  match t !! catalog with
  | None => (Err NotFound, t)
  | Some row =>
      if decide (rw_state row = CatalogStatus.as_str CatalogStatus.Active) then
        (Ok {| activated := catalog; archived := None |}, t)
      else
        let previous := active_id t in
        let step1 := match previous with Some old => update_release old (archive_row now) t | None => Ok t end in
        match step1 with
        | Err e => (Err e, t)
        | Ok t1 =>
            match update_release catalog (activate_row now) t1 with
            | Err e => (Err e, t)
            | Ok t2 => (Ok {| activated := catalog; archived := previous |}, t2)
            end
        end
  end.

(** ** The states the pages read *)
Record ReleaseStates := { states : gmap string CatalogStatus.t }.

Definition ReleaseStates_new : ReleaseStates := {| states := ∅ |}.
(** Collecting pairs into a map: the last of a key wins. *)
Definition replace (fresh : list (string * CatalogStatus.t)) : ReleaseStates :=
  {| states := foldl (fun m kv => <[kv.1 := kv.2]> m) ∅ fresh |}.
Definition lookup_state (self : ReleaseStates) (catalog : string) (shipped : CatalogStatus.t) : CatalogStatus.t :=
  default shipped (states self !! catalog).
Definition ReleaseStates_is_empty (self : ReleaseStates) : bool := bool_decide (states self = ∅).

(** [main.rs] and [POST /admin/release]: what the pages read after the table was. *)
Definition loaded (t : ReleaseTable) : StoreResult ReleaseStates :=
  let? known := sql_releases t in Ok (replace ((fun r => (r_catalog r, r_state r)) <$> known)).

Definition state_of (st : ReleaseStates) (catalog : Catalog) : CatalogStatus.t :=
  lookup_state st (c_id catalog) (shipped_status catalog).

Definition active (cs : CatalogSet) (st : ReleaseStates) : option Catalog :=
  find_first (fun c => CatalogStatus.is_active (state_of st c)) (catalogs cs).

Definition public (cs : CatalogSet) (st : ReleaseStates) (id : string) : option Catalog :=
  c ← by_id cs id; if CatalogStatus.is_public (state_of st c) then Some c else None.

Definition public_all (cs : CatalogSet) (st : ReleaseStates) : list Catalog :=
  filter (fun c => CatalogStatus.is_public (state_of st c) = true) (ordered_by cs (state_of st)).

Definition all (cs : CatalogSet) (st : ReleaseStates) : list Catalog := ordered_by cs (state_of st).

Definition public_owners (cs : CatalogSet) (st : ReleaseStates) : gmap N Catalog :=
  foldl (fun m c => index_items (fun _ => c) (c_items c) m) ∅ (reverse (public_all cs st)).

Definition public_item (cs : CatalogSet) (st : ReleaseStates) (item : ItemId) : option (Catalog * CatalogItem) :=
  find_map (fun c => (fun e => (c, e)) <$> find_item c item) (public_all cs st).

Definition public_index (cs : CatalogSet) (st : ReleaseStates) : gmap N (Catalog * CatalogItem) :=
  foldl (fun m c => index_items (fun i => (c, i)) (c_items c) m) ∅ (reverse (public_all cs st)).

(** ** The lifecycle *)
Definition state_in (t : ReleaseTable) (id : string) : option string := rw_state <$> t !! id.

Definition one_active (t : ReleaseTable) : Prop :=
  forall i j, state_in t i = Some "active" -> state_in t j = Some "active" -> i = j.

Lemma release_rows_elem t id row : (id, row) ∈ release_rows t <-> t !! id = Some row.
Proof. unfold release_rows. rewrite sort_by_perm. apply elem_of_map_to_list. Qed.

Lemma state_in_active t i : state_in t i = Some "active" <-> exists row, t !! i = Some row /\ is_active_row row = true.
Proof.
  unfold state_in, is_active_row. rewrite fmap_Some. split; intros (row & Ht & Hr); exists row; split; try done.
  - by rewrite bool_decide_eq_true_2.
  - by apply bool_decide_eq_true in Hr.
Qed.

Lemma active_id_spec t : one_active t -> forall i, active_id t = Some i <-> state_in t i = Some "active".
Proof.
  intros Hone i. unfold active_id. destruct (find_first _ _) as [[k row]|] eqn:Hf; cbn.
  - apply find_first_Some in Hf as [Hin%release_rows_elem Hr]. assert (state_in t k = Some "active") as Hk by (apply state_in_active; eauto).
    split; [by intros [= <-]|]. intros Hi. f_equal. by apply Hone.
  - split; [done|]. intros (row & Hin%release_rows_elem & Hr)%state_in_active.
    pose proof (find_first_None _ _ Hf _ Hin) as Hn. cbn in Hn. congruence.
Qed.

Lemma index_refuses_false id row t :
  (is_active_row row = true -> forall i, state_in t i = Some "active" -> i = id) -> index_refuses id row t = false.
Proof.
  intros H. unfold index_refuses. destruct (is_active_row row) eqn:Hr; [|done]. cbn. apply bool_decide_eq_false_2.
  intros ([k o] & Hin%release_rows_elem & Hne & Ho)%Exists_exists. cbn in *. apply Hne, H; [done|]. apply state_in_active. eauto.
Qed.

Lemma state_in_insert t id row j : state_in (<[id := row]> t) j = if decide (j = id) then Some (rw_state row) else state_in t j.
Proof. unfold state_in. case_decide as Hj; [subst; by rewrite lookup_insert_eq|by rewrite lookup_insert_ne]. Qed.

(** Every state of the table is one the program knows. *)
Definition valid_states (t : ReleaseTable) : Prop := forall i s, state_in t i = Some s -> exists x, s = CatalogStatus.as_str x.

(** What the loop of [seed] keeps: every active row is the one it knows is collecting. *)
Lemma seed_loop_spec now defaults : forall collecting written t,
  one_active t -> (forall i, state_in t i = Some "active" -> collecting = Some i) ->
  exists n t', seed_loop now defaults collecting written t = Ok (written + n, t') /\ one_active t' /\ t ⊆ t' /\ (valid_states t -> valid_states t') /\
    dom t' = dom t ∪ list_to_set defaults.*1 /\ N.of_nat (size t') = N.of_nat (size t) + n.
Proof.
  induction defaults as [|[catalog shipped] rest IH]; intros collecting written t Hone Hcol; cbn [seed_loop].
  { exists 0, t. split_and!; [by rewrite N.add_0_r|done|done|done|set_solver|lia]. }
  set (state := seed_state catalog shipped collecting). set (col := if CatalogStatus.is_active state then Some catalog else collecting).
  assert (CatalogStatus.is_active state = true -> forall i, state_in t i = Some "active" -> i = catalog) as Hst.
  { unfold state, seed_state. intros Ha i Hi. specialize (Hcol i Hi). rewrite Hcol in Ha.
    destruct (decide (i = catalog)) as [|Hne]; [done|]. destruct (CatalogStatus.is_active shipped) eqn:Hsh; [|congruence].
    rewrite decide_True in Ha by done. done. }
  assert (is_active_row (seed_row state now) = CatalogStatus.is_active state) as Hrow by (by destruct state).
  unfold insert_release. destruct (t !! catalog) as [row|] eqn:Ht.
  - destruct (IH col (written + 0) t Hone) as (n & t' & Heq & H1 & H2 & Hv & H3 & H4).
    { intros i Hi. unfold col. destruct (CatalogStatus.is_active state) eqn:Ha; [by rewrite (Hst eq_refl i Hi)|by apply Hcol]. }
    exists n, t'. split_and!; [by rewrite Heq, N.add_0_r|done|done|done| |done]. rewrite H3. cbn. assert (catalog ∈ dom t) by (by apply elem_of_dom_2 in Ht). set_solver.
  - rewrite index_refuses_false by (rewrite Hrow; exact Hst).
    destruct (IH col (written + 1) (<[catalog := seed_row state now]> t)) as (n & t' & Heq & H1 & H2 & Hv & H3 & H4).
    { intros i j. rewrite !state_in_insert. repeat case_decide; subst; try done; intros Hi Hj.
      - assert (is_active_row (seed_row state now) = true) as Ha by (unfold is_active_row; apply bool_decide_eq_true_2; congruence).
        rewrite Hrow in Ha. symmetry. by apply Hst.
      - assert (is_active_row (seed_row state now) = true) as Ha by (unfold is_active_row; apply bool_decide_eq_true_2; congruence).
        rewrite Hrow in Ha. by apply Hst.
      - by apply Hone. }
    { intros i. rewrite state_in_insert. unfold col. case_decide as Hi; intros Ha.
      - subst i. assert (is_active_row (seed_row state now) = true) as Hr by (unfold is_active_row; apply bool_decide_eq_true_2; congruence).
        rewrite Hrow in Hr. by rewrite Hr.
      - destruct (CatalogStatus.is_active state) eqn:Hs; [by rewrite (Hst eq_refl i Ha)|by apply Hcol]. }
    exists (1 + n), t'. split_and!.
    + by rewrite Heq, N.add_assoc.
    + done.
    + etrans; [by apply insert_subseteq|done].
    + intros Hval. apply Hv. intros i x. rewrite state_in_insert. case_decide; [intros [= <-]; by eexists|apply Hval].
    + rewrite H3, dom_insert_L. cbn. set_solver.
    + rewrite map_size_insert_None in H4 by done. lia.
Qed.

Lemma sql_seed_spec defaults now t :
  one_active t -> exists n t', sql_seed defaults now t = (Ok n, t') /\ one_active t' /\ t ⊆ t' /\ (valid_states t -> valid_states t') /\
    dom t' = dom t ∪ list_to_set defaults.*1 /\ N.of_nat (size t') = N.of_nat (size t) + n.
Proof.
  intros Hone. destruct (seed_loop_spec now defaults (active_id t) 0 t Hone) as (n & t' & Heq & H1 & H2 & Hv & H3 & H4).
  { intros i Hi. by apply active_id_spec. }
  exists n, t'. unfold sql_seed. rewrite Heq. by split_and!.
Qed.

(** After an activation: the chosen one is active, what was active is archived, and
    the rest is as it was. *)
Definition after_activate (id : string) (t : ReleaseTable) (j : string) : option string :=
  if decide (j = id) then Some "active"
  else if decide (state_in t j = Some "active") then Some "archived" else state_in t j.

Lemma sql_activate_spec id now t :
  one_active t ->
  match sql_activate id now t with
  | (Err e, t') => e = NotFound /\ t' = t /\ t !! id = None
  | (Ok a, t') => activated a = id /\ is_Some (t !! id) /\ one_active t' /\ dom t' = dom t /\
      (forall j, state_in t' j = after_activate id t j) /\
      forall old, archived a = Some old <-> old <> id /\ state_in t old = Some "active"
  end.
Proof.
  intros Hone. unfold sql_activate. destruct (t !! id) as [row|] eqn:Ht; [|done].
  assert (state_in t id = Some (rw_state row)) as Hid by (unfold state_in; by rewrite Ht).
  assert (forall t', (forall j, state_in t' j = after_activate id t j) -> one_active t') as Hafter.
  { intros t' H i j. rewrite !H. unfold after_activate. repeat case_decide; subst; done || congruence. }
  case_decide as Ha.
  { assert (forall j, state_in t j = after_activate id t j) as Hj.
    { intros j. unfold after_activate. destruct (decide (j = id)) as [->|Hd]; [by rewrite Hid, Ha|].
      case_decide; [|done]. exfalso. apply Hd, Hone; [done|by rewrite Hid, Ha]. }
    split_and!; [done|by eexists|done|done|done|]. intros old. split; [done|]. intros [Hne Ho]. exfalso. apply Hne, Hone; [done|].
    by rewrite Hid, Ha. }
  set (prev := active_id t). pose proof (active_id_spec t Hone) as Hact. fold prev in Hact.
  set (t1 := match prev with Some old => alter (archive_row now) old t | None => t end).
  assert (match prev with Some old => update_release old (archive_row now) t | None => Ok t end = Ok t1) as ->.
  { subst t1. destruct prev as [old|]; [|done]. unfold update_release.
    destruct (proj1 (state_in_active _ _) (proj1 (Hact old) eq_refl)) as (r & Hr & _). rewrite Hr.
    rewrite index_refuses_false by done. by rewrite (alter_as_insert _ _ _ _ Hr). }
  assert (forall j, state_in t1 j = if decide (state_in t j = Some "active") then Some "archived" else state_in t j) as H1.
  { intros j. unfold t1. destruct prev as [old|] eqn:Hp.
    - case_decide as Hj; [apply Hact in Hj as [= ->]|].
      + apply (fun H => proj1 H eq_refl) in Hact as Hold. unfold state_in. rewrite lookup_alter_eq.
        unfold state_in in Hold. apply fmap_Some in Hold as (r & -> & _). done.
      + unfold state_in. rewrite lookup_alter_ne; [done|]. intros ->. by apply Hj, Hact.
    - rewrite decide_False; [done|]. by intros Hj%Hact. }
  assert (exists r1, t1 !! id = Some r1) as [r1 Hr1].
  { specialize (H1 id). unfold state_in in H1. rewrite Ht in H1. destruct (t1 !! id); [eauto|]. cbn in H1. by case_decide. }
  unfold update_release. rewrite Hr1. rewrite index_refuses_false.
  2: { intros _ i. rewrite H1. by case_decide. }
  assert (forall j, state_in (<[id:=activate_row now r1]> t1) j = after_activate id t j) as H2.
  { intros j. rewrite state_in_insert. unfold after_activate. case_decide; [done|]. apply H1. }
  split_and!; [done|by eexists|by apply Hafter| |exact H2|].
  - apply set_eq. intros j. rewrite !elem_of_dom. pose proof (H2 j) as Hj. unfold after_activate, state_in in Hj.
    split; intros [r Hr].
    + rewrite Hr in Hj. cbn in Hj. destruct (decide (j = id)); [subst; eauto|]. destruct (t !! j); [eauto|]. by cbn in Hj.
    + destruct (_ !! j) as [r'|] eqn:Hr' in Hj |- *; [eauto|]. rewrite Hr in Hj. cbn in Hj. exfalso. repeat case_decide; done.
  - intros old. cbn [archived]. rewrite Hact. split; [|by intros [_ ?]]. intros Ho. split; [|done]. intros ->. rewrite Hid in Ho. by injection Ho.
Qed.

Lemma after_activate_valid id t t' : valid_states t -> (forall j, state_in t' j = after_activate id t j) -> valid_states t'.
Proof.
  intros Hv Ha i s. rewrite Ha. unfold after_activate. repeat case_decide; [| |apply Hv]; intros [= <-].
  - by exists CatalogStatus.Active.
  - by exists CatalogStatus.Archived.
Qed.

(** Everything that is ever done to the table. *)
Inductive ReleaseOp :=
| Seed (defaults : list (string * CatalogStatus.t)) (now : Millis)
| Activate (catalog : string) (now : Millis).

Definition exec (t : ReleaseTable) (op : ReleaseOp) : ReleaseTable :=
  match op with Seed d now => (sql_seed d now t).2 | Activate c now => (sql_activate c now t).2 end.

Definition run (ops : list ReleaseOp) : ReleaseTable := foldl exec ∅ ops.

Lemma run_inv ops : one_active (run ops) /\ valid_states (run ops).
Proof.
  induction ops as [|op ops [Hone Hv]] using rev_ind; [by split|]. unfold run in *. rewrite foldl_app. cbn [foldl].
  set (t := foldl exec ∅ ops) in *. destruct op as [d now|c now]; cbn [exec].
  - destruct (sql_seed_spec d now t Hone) as (n & t' & -> & H1 & _ & H2 & _). cbn. auto.
  - pose proof (sql_activate_spec c now t Hone) as H. destruct (sql_activate c now t) as [[a|e] t']; cbn.
    + destruct H as (_ & _ & H1 & _ & H2 & _). split; [done|by eapply after_activate_valid].
    + by destruct H as (_ & -> & _).
Qed.

(** What the pages read is what the table says. *)
Lemma replace_lookup l k v : NoDup l.*1 -> states (replace l) !! k = Some v <-> (k, v) ∈ l.
Proof.
  unfold replace. cbn [states]. induction l as [|[k' v'] l IH] using rev_ind; intros Hnd.
  { cbn. rewrite lookup_empty. split; [done|by intros ?%not_elem_of_nil]. }
  rewrite fmap_app in Hnd. apply NoDup_app in Hnd as (Hl & Hdis & _). rewrite foldl_app. cbn [foldl fst snd].
  rewrite elem_of_app, list_elem_of_singleton. destruct (decide (k = k')) as [->|Hne].
  - rewrite lookup_insert_eq. split; [intros [= ->]; by right|]. intros [Hin|[= ->]]; [|done]. exfalso.
    apply (Hdis k'); [by apply (list_elem_of_fmap_2 fst _ (k', v))|left].
  - rewrite lookup_insert_ne by done. rewrite (IH Hl). split; [by left|]. intros [?|[= -> ->]]; done.
Qed.

Lemma loaded_spec t : valid_states t -> exists st, loaded t = Ok st /\
  forall id s, states st !! id = Some s <-> state_in t id = Some (CatalogStatus.as_str s).
Proof.
  intros Hv. assert (forall rows, (forall x, x ∈ rows -> t !! x.1 = Some x.2) -> exists rs,
    collect_results (release_from_row <$> rows) = Ok rs /\
    (fun r => (r_catalog r, CatalogStatus.as_str (r_state r))) <$> rs = (fun x => (x.1, rw_state x.2)) <$> rows) as Hrows.
  { induction rows as [|[id row] rows IH]; intros Hin; [by exists []|].
    destruct IH as (rs & Hrs & Heq); [by intros x Hx; apply Hin; constructor|].
    assert (t !! id = Some row) as Hrow by (apply (Hin (id, row)); constructor).
    destruct (Hv id (rw_state row)) as [x Hx]; [unfold state_in; by rewrite Hrow|].
    rewrite fmap_cons. cbn [collect_results]. unfold release_from_row at 1. cbn [fst snd]. rewrite Hx, CatalogStatus_parse. cbn [ok_or].
    rewrite Hrs. eexists. split; [done|]. rewrite !fmap_cons. cbn [r_catalog r_state fst snd]. by rewrite Heq, Hx. }
  destruct (Hrows (release_rows t)) as (rs & Hrs & Heq); [by intros [id row] Hx%release_rows_elem|].
  unfold loaded, sql_releases. rewrite Hrs. eexists. split; [done|]. intros id s. rewrite replace_lookup.
  - rewrite list_elem_of_fmap. split.
    + intros (r & [= -> ->] & Hr). apply (list_elem_of_fmap_2 (fun r => (r_catalog r, CatalogStatus.as_str (r_state r)))) in Hr.
      rewrite Heq in Hr. apply list_elem_of_fmap in Hr as ([i row] & [= -> ->] & Hin%release_rows_elem). unfold state_in. by rewrite Hin.
    + unfold state_in. intros (row & Hrow & Hs)%fmap_Some. apply release_rows_elem in Hrow.
      apply (list_elem_of_fmap_2 (fun x => (x.1, rw_state x.2))) in Hrow. rewrite <- Heq in Hrow. cbn in Hrow.
      apply list_elem_of_fmap in Hrow as (r & [= -> Hr] & Hin). exists r. split; [|done]. f_equal.
      rewrite Hr in Hs. by destruct s, (r_state r).
  - assert ((((fun r => (r_catalog r, r_state r)) <$> rs).*1) = (release_rows t).*1) as ->.
    { rewrite <- list_fmap_compose. apply (f_equal (fmap fst)) in Heq. by rewrite <- !list_fmap_compose in Heq. }
    unfold release_rows. rewrite sort_by_perm. apply NoDup_fst_map_to_list.
Qed.

(** Whatever sequence of seedings at start-up and activations by an administrator
    led to the table, at most one catalogue is active and the pages read exactly the
    table's states.  Seeding never fails, so never keeps the server from starting: it
    adds the catalogues it had not seen and changes no other row.  Activating answers
    not-found, changing nothing, exactly for a catalogue without a row, and otherwise
    makes it the active one, archives the one that was, and leaves the rest alone. *)
Theorem release_lifecycle ops :
  let t := run ops in
  one_active t /\
  (exists st, loaded t = Ok st /\ forall id s, states st !! id = Some s <-> state_in t id = Some (CatalogStatus.as_str s)) /\
  (forall defaults now, exists n t', sql_seed defaults now t = (Ok n, t') /\ t ⊆ t' /\
     dom t' = dom t ∪ list_to_set defaults.*1 /\ N.of_nat (size t') = N.of_nat (size t) + n) /\
  (forall id now,
     match sql_activate id now t with
     | (Err e, t') => e = NotFound /\ t' = t /\ t !! id = None
     | (Ok a, t') => activated a = id /\ is_Some (t !! id) /\ dom t' = dom t /\
         (forall j, state_in t' j = after_activate id t j) /\
         forall old, archived a = Some old <-> old <> id /\ state_in t old = Some "active"
     end).
Proof.
  destruct (run_inv ops) as [Hone Hv]. intros t. fold t in Hone, Hv. split_and!; [done|by apply loaded_spec| |].
  - intros d now. destruct (sql_seed_spec d now t Hone) as (n & t' & Heq & _ & H1 & _ & H2 & H3). eauto 10.
  - intros id now. pose proof (sql_activate_spec id now t Hone) as H. destruct (sql_activate id now t) as [[a|e] t']; [|done].
    destruct H as (? & ? & _ & ? & ? & ?). by split_and!.
Qed.

(** ** Who may see what *)
Lemma find_map_Some {A B} (f : A -> option B) l y : find_map f l = Some y -> exists x, x ∈ l /\ f x = Some y.
Proof.
  induction l as [|x l IH]; [done|]. cbn [find_map]. destruct (f x) as [b|] eqn:Hf.
  - intros [= <-]. exists x. split; [constructor|done].
  - intros Hl. destruct (IH Hl) as (x' & Hx & Hfx). exists x'. split; [by constructor|done].
Qed.

Lemma find_map_None {A B} (f : A -> option B) l : find_map f l = None <-> forall x, x ∈ l -> f x = None.
Proof.
  induction l as [|x l IH]; cbn [find_map]; [split; [by intros _ x ?%not_elem_of_nil|done]|].
  setoid_rewrite elem_of_cons. destruct (f x) as [b|] eqn:Hf.
  - split; [done|]. intros H. by rewrite <- Hf, (H x (or_introl eq_refl)).
  - rewrite IH. split; [by intros H y [->|Hy]; auto|auto].
Qed.

(** In a sorted list, what is found comes before everything else that could be. *)
Lemma find_map_sorted {A B} (R : A -> A -> Prop) (f : A -> option B) l y :
  StronglySorted R l -> find_map f l = Some y ->
  exists x, f x = Some y /\ forall x', x' ∈ l -> is_Some (f x') -> x' = x \/ R x x'.
Proof.
  induction 1 as [|x l Hs IH Hall]; [done|]. cbn [find_map]. destruct (f x) as [b|] eqn:Hf.
  - intros [= <-]. exists x. split; [done|]. intros x' [->|Hx']%elem_of_cons _; [by left|]. right. rewrite Forall_forall in Hall. by apply Hall.
  - intros Hl. destruct (IH Hl) as (z & Hz & Hlater). exists z. split; [done|]. intros x' [->|Hx']%elem_of_cons [b Hb]; [congruence|by eauto].
Qed.

(** Display order is active first. *)
Definition active_before (st : ReleaseStates) (a b : Catalog) : Prop :=
  CatalogStatus.is_active (state_of st b) = true -> CatalogStatus.is_active (state_of st a) = true.

Lemma ordered_active_first cs st : StronglySorted (active_before st) (ordered_by cs (state_of st)).
Proof.
  set (le := fun a b => active_before st a b). assert (Transitive le) as Htr by (intros a b c H1 H2 H3; by apply H1, H2).
  apply Sorted_StronglySorted; [exact Htr|]. unfold ordered_by, sort_by.
  assert (Total (not_after (display_cmp (state_of st)))) as Htot.
  { apply not_after_total. intros a b. unfold display_cmp. rewrite cmp_then_opp, cmp_then_opp, <- bool_cmp_opp, <- N.compare_antisym.
    f_equal. f_equal. apply String.compare_antisym. }
  pose proof (Sorted_merge_sort (not_after (display_cmp (state_of st))) (catalogs cs)) as Hs.
  induction Hs as [|a l Hs IH Hhd]; constructor; [done|]. destruct Hhd as [|b l Hab]; constructor.
  unfold not_after, display_cmp in Hab. unfold le, active_before.
  destruct (CatalogStatus.is_active (state_of st a)), (CatalogStatus.is_active (state_of st b)); done.
Qed.

(** *** The indexes, catalogue by catalogue *)
Definition lists_item (item : ItemId) (i : CatalogItem) : bool := bool_decide (item ∈ item_ids i).

Lemma fold_index_lookup {V} (g : Catalog -> CatalogItem -> V) L item :
  foldl (fun m c => index_items (g c) (c_items c) m) ∅ (reverse L) !! item =
    find_map (fun c => g c <$> find_first (lists_item item) (reverse (c_items c))) L.
Proof.
  induction L as [|c L IH]; [done|]. rewrite reverse_cons, foldl_app. cbn [foldl find_map]. rewrite index_items_lookup. unfold lists_item in *.
  destruct (find_first _ (reverse (c_items c))); [done|]. exact IH.
Qed.

Lemma find_item_listed c item : find_item c item = find_first (lists_item item) (c_items c).
Proof.
  unfold find_item. induction (c_items c) as [|i l IH]; [done|]. rewrite !find_first_cons, IH.
  assert (bool_decide (is_Some (rank_of i item)) = lists_item item i) as -> by (apply bool_decide_ext, rank_of_is_Some). done.
Qed.

Lemma find_first_reverse_Some {A} (p : A -> bool) l : is_Some (find_first p (reverse l)) <-> is_Some (find_first p l).
Proof. rewrite !find_first_is_Some. by setoid_rewrite elem_of_reverse. Qed.

Lemma find_map_ext {A B} (f g : A -> option B) l : (forall x, x ∈ l -> f x = g x) -> find_map f l = find_map g l.
Proof.
  induction l as [|x l IH]; [done|]. intros H. cbn [find_map]. rewrite (H x) by constructor. rewrite IH; [done|].
  intros y Hy. apply H. by constructor.
Qed.

Lemma fmap_find_map {A B C} (h : B -> C) (f : A -> option B) l : h <$> find_map f l = find_map (fun x => h <$> f x) l.
Proof. induction l as [|x l IH]; [done|]. cbn [find_map]. by destruct (f x). Qed.

(** An identifier listed once in a catalogue is found from either end. *)
Definition ids_unique (c : Catalog) : Prop := NoDup (c_items c ≫= item_ids).

Lemma listed_once l item i j : NoDup (l ≫= item_ids) -> i ∈ l -> j ∈ l -> item ∈ item_ids i -> item ∈ item_ids j -> i = j.
Proof.
  induction l as [|x l IH]; [by intros _ ?%not_elem_of_nil|]. rewrite bind_cons. intros (_ & Hdis & Hnd)%NoDup_app Hi Hj Hii Hjj.
  assert (forall k, k ∈ l -> item ∈ item_ids k -> item ∈ l ≫= item_ids) as Hin by (intros k ??; apply list_elem_of_bind; eauto).
  apply elem_of_cons in Hi as [->|Hi], Hj as [->|Hj]; [done| | |by apply IH].
  - exfalso. eapply Hdis; [exact Hii|]. by eapply Hin.
  - exfalso. eapply Hdis; [exact Hjj|]. by eapply Hin.
Qed.

Lemma find_unique c item : ids_unique c -> find_first (lists_item item) (reverse (c_items c)) = find_first (lists_item item) (c_items c).
Proof.
  intros Hu. destruct (find_first (lists_item item) (c_items c)) as [e|] eqn:He.
  - destruct (proj2 (find_first_reverse_Some (lists_item item) (c_items c))) as [e' He']; [by eexists|]. rewrite He'. f_equal.
    apply find_first_Some in He as [Hin Hl], He' as [Hin' Hl']. rewrite elem_of_reverse in Hin'.
    apply bool_decide_eq_true in Hl, Hl'. by eapply listed_once.
  - destruct (find_first _ (reverse _)) eqn:Hf; [|done]. exfalso. eapply is_Some_None. rewrite <- He. apply find_first_reverse_Some. by eexists.
Qed.

(** A catalogue a visitor may see: one of the set, and no draft. *)
Definition visible (cs : CatalogSet) (st : ReleaseStates) (c : Catalog) : Prop :=
  c ∈ catalogs cs /\ state_of st c <> CatalogStatus.DraftPtr.

Lemma public_all_elem cs st c : c ∈ public_all cs st <-> visible cs st c.
Proof.
  unfold public_all, ordered_by, visible. rewrite list_elem_of_filter, sort_by_perm. destruct (state_of st c); naive_solver.
Qed.

(** Nothing a visitor can reach comes from a draft.  A catalogue found by its
    identifier, and the one an item's page, the index of a page's items or the owner of
    an item names, is visible; an item is found exactly when a visible catalogue lists
    it, in an entry that lists it, and under the active catalogue whenever that one
    does; and the three ways of asking agree on the catalogue, and on the entry where
    no catalogue lists an identifier twice. *)
Theorem public_gate cs st :
  (forall id c, public cs st id = Some c -> visible cs st c /\ c_id c = id) /\
  (forall item c e, public_item cs st item = Some (c, e) ->
     visible cs st c /\ e ∈ c_items c /\ item ∈ item_ids e /\
     forall c' e', visible cs st c' -> e' ∈ c_items c' -> item ∈ item_ids e' -> active_before st c c') /\
  (forall item, public_item cs st item = None <->
     forall c e, visible cs st c -> e ∈ c_items c -> item ∉ item_ids e) /\
  (forall item, public_owners cs st !! item = fst <$> public_item cs st item /\
     fst <$> public_index cs st !! item = fst <$> public_item cs st item) /\
  (Forall ids_unique (catalogs cs) -> forall item, public_index cs st !! item = public_item cs st item).
Proof.
  assert (forall c e item, e ∈ c_items c -> item ∈ item_ids e -> is_Some (find_item c item)) as Hfind.
  { intros c e item He Hi. rewrite find_item_listed. apply find_first_is_Some. exists e. split; [done|by apply bool_decide_eq_true_2]. }
  assert (forall c e item, find_item c item = Some e -> e ∈ c_items c /\ item ∈ item_ids e) as Hfound.
  { intros c e item. rewrite find_item_listed. intros [He Hl]%find_first_Some. by apply bool_decide_eq_true in Hl. }
  split_and!.
  - intros id c. unfold public, by_id. destruct (find_first _ _) as [c'|] eqn:Hc; [|done]. cbn. apply find_first_Some in Hc as [Hin Hid].
    apply bool_decide_eq_true in Hid. destruct (CatalogStatus.is_public (state_of st c')) eqn:Hp; [|done]. intros [= <-].
    split; [|done]. split; [done|]. intros Hd. by rewrite Hd in Hp.
  - intros item c e Hit. unfold public_item in Hit.
    pose proof (StronglySorted_filter _ (fun c => CatalogStatus.is_public (state_of st c) = true) _ (ordered_active_first cs st)) as Hs.
    destruct (find_map_sorted _ _ _ _ Hs Hit) as (x & Hx & Hlater). apply fmap_Some in Hx as (e' & Hx & [= <- <-]).
    apply Hfound in Hx as [? ?]. split_and!; [|done|done|].
    + apply find_map_Some in Hit as (y & Hy & (e'' & _ & [= <- _])%fmap_Some). by apply public_all_elem.
    + intros c' e' Hv He' Hi'. assert (c' = c \/ active_before st c c') as [->|Hab]; [|by intros ?|exact Hab].
      apply Hlater; [by apply public_all_elem|]. apply fmap_is_Some. by eapply Hfind.
  - intros item. unfold public_item. rewrite find_map_None. split.
    + intros H c e Hv He Hi. apply public_all_elem in Hv. specialize (H c Hv). apply fmap_None in H. destruct (Hfind c e item He Hi). congruence.
    + intros H c Hc%public_all_elem. apply fmap_None. destruct (find_item c item) as [e|] eqn:He; [|done].
      apply Hfound in He as [He Hi]. by destruct (H c e Hc He).
  - intros item. unfold public_owners, public_index, public_item.
    rewrite (fold_index_lookup (fun c _ => c)), (fold_index_lookup (fun c i => (c, i))), !fmap_find_map.
    split; apply find_map_ext; intros c _; rewrite find_item_listed;
      pose proof (find_first_reverse_Some (lists_item item) (c_items c)) as Hr;
      destruct (find_first _ (reverse _)), (find_first _ (c_items c)); try done; exfalso; eapply is_Some_None; apply Hr; by eexists.
  - intros Hu item. unfold public_index, public_item. rewrite (fold_index_lookup (fun c i => (c, i))). apply find_map_ext.
    intros c [Hc _]%public_all_elem. rewrite find_item_listed, find_unique; [done|]. rewrite Forall_forall in Hu. by apply Hu.
Qed.
