(* ===== verification/Archive.v ===== *)
(** * Archive: expansion, patch and raid tier

    Models [crates/app-core/src/market/archive.rs] and the [archive] of
    [crates/app-core/src/market/release.rs]: the navigation built from the catalogues a
    visitor may see.  Catalogues of one expansion are merged newest first; patches are
    merged by key, tiers by identifier, each filed under the patch it names. *)
From Stdlib Require Import Ascii.
From stdpp Require Import prelude gmap sorting strings pretty.
From S2P Require Import Prelude Text Time Market Catalog Release.

Record ArchivedTier := {
  at_id : string; at_name : string; at_patch : string; at_opened : Millis; at_until : option Millis; at_season : option N;
  at_catalog : string; at_declared_by : list string }.

Record ArchivedPatch := {
  ap_patch : string; ap_name : string; ap_started : Millis; ap_until : option Millis; ap_catalogs : list string;
  ap_tiers : list ArchivedTier }.

Record ArchivedExpansion := {
  ae_slug : string; ae_name : string; ae_catalogs : list string; ae_collecting : bool; ae_from : Millis;
  ae_until : option Millis; ae_patches : list ArchivedPatch }.

Record Archive := { expansions : list ArchivedExpansion }.

(** ** Names *)
Definition is_alnum (c : ascii) : bool :=
  let n := N_of_ascii c in bool_decide (48 <= n <= 57 \/ 65 <= n <= 90 \/ 97 <= n <= 122).
Definition lower (c : ascii) : ascii :=
  let n := N_of_ascii c in if decide (65 <= n <= 90) then ascii_of_N (n + 32) else c.

(** A character outside ASCII is several bytes here and one [char] there; both leave
    a single dash. *)
Fixpoint slug_loop (ends_dash : bool) (name : string) : string :=
  match name with
  | EmptyString => ""
  | String c rest =>
      if is_alnum c then String (lower c) (slug_loop false rest)
      else if ends_dash then slug_loop true rest else String "-" (slug_loop true rest)
  end.

Fixpoint trim_start (s : string) : string :=
  match s with String c rest => if decide (c = "-"%char) then trim_start rest else s | EmptyString => "" end.
Fixpoint trim_end (s : string) : string :=
  match s with
  | EmptyString => ""
  | String c rest => match trim_end rest with
                     | EmptyString => if decide (c = "-"%char) then "" else String c ""
                     | r => String c r
                     end
  end.

Definition slug (name : string) : string := trim_end (trim_start (slug_loop false name)).

Example slug_examples : slug "The War Within" = "the-war-within" /\ slug " Midnight!" = "midnight".
Proof. vm_compute. done. Qed.

(** ** One expansion *)
Definition latest_patch (catalog : Catalog) : Millis := default Millis_ZERO (maxN (started_at <$> c_patches catalog)).

Definition declares (id : string) (c : Catalog) : bool := bool_decide (Exists (fun x => t_id x = id) (c_raid_tiers c)).

Definition opener (cs : list Catalog) (tier : RaidTier) : string :=
  let declaring := filter (fun c => declares (t_id tier) c = true) cs in
  let opened := find_first (fun c => match current_tier c with
                                     | Some latest => bool_decide (t_id latest = t_id tier) | None => false end) declaring in
  match opened with
  | Some c => c_id c
  | None => match last declaring with Some c => c_id c | None => "" end
  end.

(** The entry of a patch's key: made on first sight, then told each catalogue once. *)
Definition add_patch (cid : string) (m : gmap string ArchivedPatch) (p : Patch) : gmap string ArchivedPatch :=
  let entry := default {| ap_patch := p_patch p; ap_name := p_name p; ap_started := started_at p; ap_until := None;
                          ap_catalogs := []; ap_tiers := [] |} (m !! p_patch p) in
  <[p_patch p := if decide (cid ∈ ap_catalogs entry) then entry
                 else {| ap_patch := ap_patch entry; ap_name := ap_name entry; ap_started := ap_started entry;
                         ap_until := ap_until entry; ap_catalogs := ap_catalogs entry ++ [cid]; ap_tiers := ap_tiers entry |}]> m.

Definition merge_patches (cs : list Catalog) : gmap string ArchivedPatch :=
  foldl (fun m c => foldl (add_patch (c_id c)) m (c_patches c)) ∅ cs.

(** [retain] with the identifiers seen so far. *)
Fixpoint distinct_tiers (seen : list string) (tiers : list RaidTier) : list RaidTier :=
  match tiers with
  | [] => []
  | x :: rest => if decide (t_id x ∈ seen) then distinct_tiers seen rest else x :: distinct_tiers (seen ++ [t_id x]) rest
  end.

Definition merged_tiers (cs : list Catalog) : list RaidTier :=
  distinct_tiers [] (sort_by_key opened_at (cs ≫= c_raid_tiers)).

Definition archived_tier (cs : list Catalog) (tier : RaidTier) (until : option Millis) : ArchivedTier :=
  {| at_id := t_id tier; at_name := t_name tier; at_patch := t_patch tier; at_opened := opened_at tier; at_until := until;
     at_season := t_season tier; at_catalog := opener cs tier;
     at_declared_by := c_id <$> filter (fun c => declares (t_id tier) c = true) cs |}.

Definition push_tier (p : ArchivedPatch) (x : ArchivedTier) : ArchivedPatch :=
  {| ap_patch := ap_patch p; ap_name := ap_name p; ap_started := ap_started p; ap_until := ap_until p;
     ap_catalogs := ap_catalogs p; ap_tiers := ap_tiers p ++ [x] |}.

(** Each tier under the patch it names, if the expansion has it, closed at the next. *)
Fixpoint file_tiers (cs : list Catalog) (tiers : list RaidTier) (m : gmap string ArchivedPatch) : gmap string ArchivedPatch :=
  match tiers with
  | [] => m
  | x :: rest =>
      let filed := archived_tier cs x (opened_at <$> head rest) in
      file_tiers cs rest (match m !! t_patch x with Some p => <[t_patch x := push_tier p filed]> m | None => m end)
  end.

(** Each patch closed at the start of the next. *)
Fixpoint close_patches (ps : list ArchivedPatch) : list ArchivedPatch :=
  match ps with
  | [] => []
  | p :: rest =>
      {| ap_patch := ap_patch p; ap_name := ap_name p; ap_started := ap_started p; ap_until := ap_started <$> head rest;
         ap_catalogs := ap_catalogs p; ap_tiers := sort_by_key at_opened (ap_tiers p) |} :: close_patches rest
  end.

(** The values of a [BTreeMap] keyed by text. *)
Definition text_values {V} (m : gmap string V) : list V := (sort_by (fun a b => string_cmp a.1 b.1) (map_to_list m)).*2.

Definition expansion_of (name : string) (cs : list Catalog) (collecting : Catalog -> bool) : ArchivedExpansion :=
  let filed := file_tiers cs (merged_tiers cs) (merge_patches cs) in
  let patches := close_patches (sort_by_key ap_started (text_values filed)) in
  {| ae_slug := slug name; ae_name := name; ae_catalogs := c_id <$> cs; ae_collecting := existsb collecting cs;
     ae_from := default Millis_ZERO (ap_started <$> head patches); ae_until := None; ae_patches := reverse patches |}.

(** ** The archive *)
Definition by_expansion (cs : list Catalog) : gmap string (list Catalog) :=
  group_by c_expansion id cs.

Definition newest_first (a b : Catalog) : comparison :=
  cmp_then (N.compare (latest_patch b) (latest_patch a))
    (cmp_then (Nat.compare (length (c_raid_tiers b)) (length (c_raid_tiers a))) (string_cmp (c_id a) (c_id b))).

Definition expansion_cmp (a b : ArchivedExpansion) : comparison :=
  cmp_then (bool_cmp (ae_collecting b) (ae_collecting a))
    (cmp_then (N.compare (ae_from b) (ae_from a)) (string_cmp (ae_slug a) (ae_slug b))).

Definition set_until (u : Millis) (e : ArchivedExpansion) : ArchivedExpansion :=
  {| ae_slug := ae_slug e; ae_name := ae_name e; ae_catalogs := ae_catalogs e; ae_collecting := ae_collecting e;
     ae_from := ae_from e; ae_until := Some u; ae_patches := ae_patches e |}.

(** Chronologically, each expansion is closed at the start of the one after it; the
    list keeps its display order. *)
Fixpoint close_expansions (order : list nat) (es : list ArchivedExpansion) : list ArchivedExpansion :=
  match order with
  | earlier :: ((later :: _) as rest) =>
      close_expansions rest (match es !! later with Some e => alter (set_until (ae_from e)) earlier es | None => es end)
  | _ => es
  end.

Definition Archive_of (cs : list Catalog) (collecting : Catalog -> bool) : Archive :=
  let groups := sort_by (fun a b => string_cmp a.1 b.1) (map_to_list (by_expansion cs)) in
  let es := sort_by expansion_cmp ((fun g => expansion_of g.1 (sort_by newest_first g.2) collecting) <$> groups) in
  let order := sort_by_key (fun i => from_option ae_from 0 (es !! i)) (seq 0 (length es)) in
  {| expansions := close_expansions order es |}.

Definition find_expansion (self : Archive) (s : string) : option ArchivedExpansion :=
  find_first (fun e => bool_decide (ae_slug e = s)) (expansions self).
Definition find_patch (self : ArchivedExpansion) (key : string) : option ArchivedPatch :=
  find_first (fun p => bool_decide (ap_patch p = key)) (ae_patches self).
Definition find_tier (self : ArchivedPatch) (id : string) : option ArchivedTier :=
  find_first (fun x => bool_decide (at_id x = id)) (ap_tiers self).
Definition tiers (self : ArchivedExpansion) : list ArchivedTier :=
  sort_by (fun a b => N.compare (at_opened b) (at_opened a)) (ae_patches self ≫= ap_tiers).
Definition patch_catalog (self : ArchivedPatch) : string := default "" (head (ap_catalogs self)).

(** [problems]: the reader, the tier it declares and the next one it does not. *)
Fixpoint pair_problems (xs : list ArchivedTier) : list (string * string * string) :=
  match xs with
  | x :: ((next :: _) as rest) =>
      match at_declared_by x with
      | reader :: _ => if decide (reader ∈ at_declared_by next) then [] else [(reader, at_id x, at_id next)]
      | [] => []
      end ++ pair_problems rest
  | _ => []
  end.

Definition archive_problems (self : Archive) : list (string * string * string) :=
  expansions self ≫= fun e => pair_problems (sort_by_key at_opened (ae_patches e ≫= ap_tiers)).

(** [release::archive]. *)
Definition archive (cs : CatalogSet) (st : ReleaseStates) : Archive :=
  Archive_of (public_all cs st) (fun c => CatalogStatus.is_collected (state_of st c)).

(** ** What the archive shows *)

(** A patch or a tier declared by one of the catalogues. *)
Definition declared_patch (cs : list Catalog) (key : string) : Prop :=
  exists c p, c ∈ cs /\ p ∈ c_patches c /\ p_patch p = key.
Definition declared_tier (cs : list Catalog) (key id : string) : Prop :=
  exists c x, c ∈ cs /\ x ∈ c_raid_tiers c /\ t_id x = id /\ t_patch x = key.

(** Entries filed under their own key, with tiers that name it. *)
Definition well_filed (cs : list Catalog) (m : gmap string ArchivedPatch) : Prop :=
  forall k ap, m !! k = Some ap -> ap_patch ap = k /\ Forall (fun x => declared_tier cs k (at_id x)) (ap_tiers ap).

Lemma add_patch_lookup cid m p k :
  is_Some (add_patch cid m p !! k) <-> k = p_patch p \/ is_Some (m !! k).
Proof.
  unfold add_patch. cbv zeta. destruct (decide (k = p_patch p)) as [->|Hne].
  - rewrite lookup_insert_eq. split; [by left|done].
  - rewrite lookup_insert_ne by done. split; [by right|by intros [?|?]].
Qed.

Lemma add_patch_filed cs cid m p : well_filed cs m -> well_filed cs (add_patch cid m p).
Proof.
  intros Hm k ap. unfold add_patch. cbv zeta. destruct (decide (k = p_patch p)) as [->|Hne].
  - rewrite lookup_insert_eq. intros [= <-]. destruct (m !! p_patch p) as [q|] eqn:Hq; cbn [default from_option].
    + apply Hm in Hq. by case_decide.
    + by case_decide.
  - rewrite lookup_insert_ne by done. apply Hm.
Qed.

Lemma merge_patches_spec ds cs :
  well_filed ds (merge_patches cs) /\ forall k, is_Some (merge_patches cs !! k) <-> declared_patch cs k.
Proof.
  unfold merge_patches. induction cs as [|c cs [IHf IHd]] using rev_ind.
  { split; [intros k ap; cbn; by rewrite lookup_empty|]. intros k. cbn. rewrite lookup_empty. split; [by intros []|].
    intros (c & p & ?%not_elem_of_nil & _). done. }
  rewrite foldl_app. cbn [foldl]. set (m := foldl _ _ cs) in *. clearbody m.
  assert (forall ps m', well_filed ds m' -> well_filed ds (foldl (add_patch (c_id c)) m' ps) /\
    forall k, is_Some (foldl (add_patch (c_id c)) m' ps !! k) <-> k ∈ p_patch <$> ps \/ is_Some (m' !! k)) as H.
  { induction ps as [|p ps IH]; intros m' Hm'; cbn [foldl].
    - split; [done|]. intros k. split; [by right|]. by intros [?%not_elem_of_nil|].
    - destruct (IH (add_patch (c_id c) m' p)) as [H1 H2]; [by apply add_patch_filed|]. split; [done|]. intros k.
      rewrite H2, add_patch_lookup, fmap_cons, elem_of_cons. tauto. }
  destruct (H (c_patches c) m IHf) as [H1 H2]. split; [done|]. intros k. rewrite H2, IHd. unfold declared_patch.
  rewrite list_elem_of_fmap. setoid_rewrite elem_of_app. setoid_rewrite list_elem_of_singleton. split.
  - intros [(p & -> & Hp)|(c' & p & Hc & Hp)]; [exists c, p|exists c', p]; tauto.
  - intros (c' & p & [Hc| ->] & Hp & Hk); [right; by exists c', p|left; by exists p].
Qed.

Lemma file_tiers_spec cs ds xs : forall m,
  Forall (fun x => declared_tier ds (t_patch x) (t_id x)) xs -> well_filed ds m ->
  well_filed ds (file_tiers cs xs m) /\ forall k, is_Some (file_tiers cs xs m !! k) <-> is_Some (m !! k).
Proof.
  induction xs as [|x xs IH]; intros m Hxs Hm; cbn [file_tiers]; [by split|]. apply Forall_cons in Hxs as [Hx Hxs]. cbv zeta.
  destruct (m !! t_patch x) as [p|] eqn:Hp; [|by apply IH].
  destruct (IH (<[t_patch x := push_tier p (archived_tier cs x (opened_at <$> head xs))]> m)) as [H1 H2]; [done| |].
  { intros k ap. destruct (decide (k = t_patch x)) as [->|Hne].
    - rewrite lookup_insert_eq. intros [= <-]. destruct (Hm _ _ Hp) as [He Ht]. split; [done|]. cbn. apply Forall_app. split; [done|].
      by apply Forall_singleton.
    - rewrite lookup_insert_ne by done. apply Hm. }
  split; [done|]. intros k. rewrite H2. destruct (decide (k = t_patch x)) as [->|Hne].
  - rewrite lookup_insert_eq, Hp. done.
  - by rewrite lookup_insert_ne.
Qed.

Lemma distinct_tiers_elem xs : forall seen x, x ∈ distinct_tiers seen xs -> x ∈ xs.
Proof.
  induction xs as [|y xs IH]; intros seen x; cbn [distinct_tiers]; [done|]. case_decide.
  - intros Hx. constructor. by eapply IH.
  - intros [->|Hx]%elem_of_cons; [constructor|]. constructor. by eapply IH.
Qed.

Lemma merged_tiers_declared cs : Forall (fun x => declared_tier cs (t_patch x) (t_id x)) (merged_tiers cs).
Proof.
  apply Forall_forall. intros x Hx%distinct_tiers_elem. unfold sort_by_key in Hx. rewrite sort_by_perm in Hx.
  apply list_elem_of_bind in Hx as (c & Hx & Hc). by exists c, x.
Qed.

Lemma close_patches_spec ps :
  (ap_patch <$> close_patches ps) = ap_patch <$> ps /\
  forall q, q ∈ close_patches ps -> exists p, p ∈ ps /\ ap_patch q = ap_patch p /\ ap_tiers q ≡ₚ ap_tiers p.
Proof.
  induction ps as [|p ps [IH1 IH2]]; [split; [done|by intros q ?%not_elem_of_nil]|]. cbn [close_patches]. split.
  - rewrite !fmap_cons. by f_equal.
  - intros q [->|Hq]%elem_of_cons.
    + exists p. split; [constructor|]. split; [done|]. cbn. apply sort_by_perm.
    + destruct (IH2 q Hq) as (p' & Hp' & H). exists p'. split; [by constructor|done].
Qed.

(** The patches of one expansion: each declared key once, with tiers that name it. *)
Lemma expansion_of_patches name cs collecting :
  let e := expansion_of name cs collecting in
  NoDup (ap_patch <$> ae_patches e) /\
  (forall k, k ∈ ap_patch <$> ae_patches e <-> declared_patch cs k) /\
  (forall ap x, ap ∈ ae_patches e -> x ∈ ap_tiers ap -> declared_tier cs (ap_patch ap) (at_id x)).
Proof.
  destruct (merge_patches_spec cs cs) as [Hf Hd].
  destruct (file_tiers_spec cs cs (merged_tiers cs) (merge_patches cs) (merged_tiers_declared cs) Hf) as [Hff Hfd].
  cbn [expansion_of ae_patches]. set (m := file_tiers _ _ _) in *. clearbody m.
  assert (sort_by_key ap_started (text_values m) ≡ₚ (map_to_list m).*2) as Hperm.
  { unfold sort_by_key, text_values. by rewrite !sort_by_perm. }
  destruct (close_patches_spec (sort_by_key ap_started (text_values m))) as [Hk He].
  set (ps := close_patches _) in *. assert (ap_patch <$> ps ≡ₚ (map_to_list m).*1) as Hkeys.
  { rewrite Hk, Hperm, <- list_fmap_compose.
    assert (ap_patch ∘ snd <$> map_to_list m = (map_to_list m).*1) as ->; [|done]. apply list_fmap_ext. intros i [k ap] Hi.
    apply list_elem_of_lookup_2, elem_of_map_to_list, Hff in Hi as [Hi _]. done. }
  split_and!.
  - rewrite fmap_reverse. rewrite reverse_Permutation, Hkeys. apply NoDup_fst_map_to_list.
  - intros k. rewrite fmap_reverse, elem_of_reverse, Hkeys, <- Hd, <- Hfd, list_elem_of_fmap. split.
    + intros ([k' ap] & -> & Hin%elem_of_map_to_list). by eexists.
    + intros [ap Hap]. exists (k, ap). split; [done|by apply elem_of_map_to_list].
  - intros ap x Hap Hx. rewrite elem_of_reverse in Hap. destruct (He ap Hap) as (p & Hp & -> & Ht). rewrite Hperm in Hp.
    apply list_elem_of_fmap in Hp as ([k p'] & -> & Hin%elem_of_map_to_list). cbn [snd] in *.
    destruct (Hff _ _ Hin) as [-> Hall]. rewrite Ht in Hx. rewrite Forall_forall in Hall. by apply Hall.
Qed.

Definition contents (e : ArchivedExpansion) : string * list ArchivedPatch := (ae_name e, ae_patches e).

Lemma close_expansions_contents order : forall es, contents <$> close_expansions order es = contents <$> es.
Proof.
  assert (forall u (i : nat) (es : list ArchivedExpansion), contents <$> alter (set_until u) i es = contents <$> es) as Halter.
  { intros u i es. revert i. induction es as [|e es IH]; intros [|i]; [done..|]. change (contents e :: (contents <$> alter (set_until u) i es) = contents e :: (contents <$> es)).
    by rewrite IH. }
  induction order as [|i order IH]; intros es; [done|]. destruct order as [|j order]; [done|].
  change (close_expansions (i :: j :: order) es) with
    (close_expansions (j :: order) (match es !! j with Some e => alter (set_until (ae_from e)) i es | None => es end)).
  rewrite IH.
  destruct (es !! j); [apply Halter|done].
Qed.

Lemma Archive_of_elem cs collecting pr :
  pr ∈ contents <$> expansions (Archive_of cs collecting) <->
  exists mine, by_expansion cs !! pr.1 = Some mine /\ pr = contents (expansion_of pr.1 (sort_by newest_first mine) collecting).
Proof.
  unfold Archive_of. cbv zeta. cbn [expansions]. rewrite close_expansions_contents, sort_by_perm, <- list_fmap_compose, sort_by_perm.
  rewrite list_elem_of_fmap. split.
  - intros ([name mine] & -> & Hin%elem_of_map_to_list). by exists mine.
  - intros (mine & Hm & ->). exists (pr.1, mine). split; [done|by apply elem_of_map_to_list].
Qed.

Lemma by_expansion_elem cs name mine : by_expansion cs !! name = Some mine -> forall c, c ∈ mine <-> c ∈ cs /\ c_expansion c = name.
Proof.
  unfold by_expansion. rewrite group_by_lookup, list_fmap_id. intros Hm c.
  assert (mine = filter (fun x => c_expansion x = name) cs) as -> by (destruct (filter _ cs); congruence). rewrite list_elem_of_filter. tauto.
Qed.

Lemma by_expansion_Some cs c : c ∈ cs -> is_Some (by_expansion cs !! c_expansion c).
Proof.
  intros Hc. unfold by_expansion. rewrite group_by_lookup, list_fmap_id.
  destruct (filter _ cs) as [|x l] eqn:Hf; [|done]. assert (c ∈ filter (fun x => c_expansion x = c_expansion c) cs) as Hin
    by (by apply list_elem_of_filter). rewrite Hf in Hin. by apply not_elem_of_nil in Hin.
Qed.

(** The public archive is complete and shows nothing else.  Each expansion appears
    once and each of its patches once; the patches of an expansion are exactly those its
    visible catalogues declare; and every raid tier shown is one a visible catalogue of
    that expansion declares, filed under the patch it names.  A draft is in none of it. *)
Theorem archive_faithful cs st :
  let shown := contents <$> expansions (archive cs st) in
  NoDup (fst <$> shown) /\
  (forall name, name ∈ fst <$> shown <-> exists c, visible cs st c /\ c_expansion c = name) /\
  (forall name patches, (name, patches) ∈ shown ->
     NoDup (ap_patch <$> patches) /\
     (forall key, key ∈ ap_patch <$> patches <->
        exists c p, visible cs st c /\ c_expansion c = name /\ p ∈ c_patches c /\ p_patch p = key) /\
     (forall ap x, ap ∈ patches -> x ∈ ap_tiers ap ->
        exists c y, visible cs st c /\ c_expansion c = name /\ y ∈ c_raid_tiers c /\ t_id y = at_id x /\ t_patch y = ap_patch ap)).
Proof.
  intros shown. unfold archive in shown. set (L := public_all cs st) in shown.
  set (col := fun c => CatalogStatus.is_collected (state_of st c)) in shown.
  assert (forall c, c ∈ L <-> visible cs st c) as HL by (intros c; apply public_all_elem). clearbody L.
  split_and!.
  - unfold shown, Archive_of. cbv zeta. cbn [expansions]. rewrite close_expansions_contents, sort_by_perm, <- list_fmap_compose, sort_by_perm.
    rewrite <- list_fmap_compose. apply NoDup_fst_map_to_list.
  - intros name. rewrite list_elem_of_fmap. split.
    + intros (pr & -> & (mine & Hm & Hpr)%Archive_of_elem). pose proof (by_expansion_elem _ _ _ Hm) as Hel.
      unfold by_expansion in Hm. rewrite group_by_lookup in Hm. destruct (id <$> filter _ L) as [|c l]; [done|]. injection Hm as <-.
      exists c. assert (c ∈ c :: l) as Hc by constructor. apply Hel in Hc as [Hc ?]. split; [by apply HL|done].
    + intros (c & Hc%HL & <-). destruct (by_expansion_Some L c Hc) as [mine Hm].
      exists (contents (expansion_of (c_expansion c) (sort_by newest_first mine) col)). split; [done|].
      apply Archive_of_elem. by exists mine.
  - intros name patches (mine & Hm & Hpr)%Archive_of_elem. cbn [fst] in Hm, Hpr. pose proof (f_equal snd Hpr) as Hp. cbn [snd contents] in Hp. pose proof (by_expansion_elem _ _ _ Hm) as Hel.
    destruct (expansion_of_patches name (sort_by newest_first mine) col) as (H1 & H2 & H3). rewrite <- Hp in H1, H2, H3.
    assert (forall c, c ∈ sort_by newest_first mine <-> visible cs st c /\ c_expansion c = name) as Hmine
      by (intros c; by rewrite sort_by_perm, Hel, HL).
    split_and!; [done| |].
    + intros key. rewrite H2. unfold declared_patch. setoid_rewrite Hmine. split.
      * intros (c & p & [??] & ? & ?). by exists c, p.
      * intros (c & p & ? & ? & ? & ?). by exists c, p.
    + intros ap x Hap Hx. destruct (H3 ap x Hap Hx) as (c & y & [??]%Hmine & ? & ? & ?). by exists c, y.
Qed.
