(* ===== verification/Daily.v ===== *)
(** * Daily: a market's day in one row

    Models [crates/app-core/src/market/daily.rs] and the statement of
    [crates/storage/src/sqlite/prices.rs] that stores it, [build_daily_rollups]: the
    day's extremes, the opening and closing values by the hour, means in [F64]
    arithmetic, and the percentiles of [Engine], behind an evidence gate. *)
From Stdlib Require Import Ascii ZArith.
From stdpp Require Import prelude gmap sorting strings pretty.
From S2P Require Import Prelude Text F64 Time Store Sqlite Market Catalog Engine EngineLaws PriceStore.

(** An observation: when, the price, the units and the listings. *)
Record Observation := { o_at : Millis; o_price : N; o_quantity : N; o_listings : N }.

Record DailyRollup := {
  open_price : N; close_price : N; low_price : N; low_at : Millis; high_price : N; high_at : Millis; mean_price : N;
  p05_price : N; p25_price : N; median_price : N; p75_price : N; p95_price : N;
  open_quantity : N; close_quantity : N; mean_quantity : N;
  open_listings : N; close_listings : N; mean_listings : N;
  samples : N; observed_buckets : N;
  insufficient : option string; insufficient_have : option N; insufficient_need : option N }.

#[export] Instance DailyRollup_eq_dec : EqDecision DailyRollup.
Proof. solve_decision. Defined.

(** A rollup without statistics: [..Default::default()]. *)
Definition refused (samples buckets : N) (why : option string) (have need : option N) : DailyRollup :=
  {| open_price := 0; close_price := 0; low_price := 0; low_at := 0; high_price := 0; high_at := 0; mean_price := 0;
     p05_price := 0; p25_price := 0; median_price := 0; p75_price := 0; p95_price := 0;
     open_quantity := 0; close_quantity := 0; mean_quantity := 0; open_listings := 0; close_listings := 0; mean_listings := 0;
     samples := samples; observed_buckets := buckets; insufficient := why; insufficient_have := have; insufficient_need := need |}.

(** The scan for the extremes, over what is listed. *)
Record Extremes := { x_min : N; x_min_at : Millis; x_max : N; x_max_at : Millis; x_samples : N }.

Definition scan_one (x : Extremes) (o : Observation) : Extremes :=
  if decide (0 < o_listings o) then
    let '(mn, mn_at) := if decide (o_price o < x_min x) then (o_price o, o_at o) else (x_min x, x_min_at x) in
    let '(mx, mx_at) := if decide (x_max x < o_price o) then (o_price o, o_at o) else (x_max x, x_max_at x) in
    {| x_min := mn; x_min_at := mn_at; x_max := mx; x_max_at := mx_at; x_samples := wrap 32 (x_samples x + 1) |}
  else x.

Definition scan (obs : list Observation) : Extremes :=
  foldl scan_one {| x_min := u64_max; x_min_at := 0; x_max := 0; x_max_at := 0; x_samples := 0 |} obs.

Definition listed (obs : list Observation) : list Observation := filter (fun o => 0 < o_listings o) obs.

(** The last value of each hour, in the order of the hours. *)
Definition hourly (f : Observation -> N) (obs : list Observation) : list N :=
  values (foldl (fun m o => <[o_at o / BUCKET_MS := f o]> m) ∅ (listed obs)).

(** [sum as f64 / len as f64) as u64]. *)
Definition mean (l : list N) : N := to_u64 (fdiv (of_u64 (wrap 64 (sumN l))) (of_u64 (N.of_nat (length l)))).

Definition first_of (l : list N) : N := default 0 (head l).
Definition last_of (l : list N) : N := default 0 (last l).

Definition day_gates : Gates := {| g_median := 8; g_tails := 12; g_coverage := 25 |}.

Definition refusal (e : Insufficient) : string :=
  match e with NotEnoughHistory _ _ => "not enough history" | TooManyGaps _ _ => "too many gaps" end.

Definition compute (obs : list Observation) : DailyRollup :=
  match obs with
  | [] => refused 0 0 (Some "No observations") None None
  | _ =>
      let x := scan obs in
      let price_buckets := from_observations ((fun o => (o_at o, o_price o)) <$> listed obs) in
      let q_vals := hourly o_quantity obs in
      let l_vals := hourly o_listings obs in
      let p_chronological := hourly o_price obs in
      match p_chronological with
      | [] => refused 0 0 (Some "No active listings") None None
      | _ =>
          let buckets := wrap 32 (N.of_nat (length p_chronological)) in
          match Gates_admit day_gates buckets (Some (wrap 32 (buckets * 100) / 24)) with
          | Err e => refused (x_samples x) buckets (Some (refusal e)) (Some buckets) (Some (g_median day_gates))
          | Ok _ =>
              let d := Distribution_of price_buckets in
              {| open_price := first_of p_chronological; close_price := last_of p_chronological;
                 low_price := x_min x; low_at := x_min_at x; high_price := x_max x; high_at := x_max_at x;
                 mean_price := mean p_chronological;
                 p05_price := from_option p05 0 d; p25_price := from_option p25 0 d; median_price := from_option median 0 d;
                 p75_price := from_option p75 0 d; p95_price := from_option p95 0 d;
                 open_quantity := first_of q_vals; close_quantity := last_of q_vals; mean_quantity := mean q_vals;
                 open_listings := first_of l_vals; close_listings := last_of l_vals; mean_listings := mean l_vals;
                 samples := x_samples x; observed_buckets := buckets;
                 insufficient := None; insufficient_have := None; insufficient_need := None |}
          end
      end
  end.

(** ** Storing the day *)

(** The observations a day's rows of one item and region make, oldest first. *)
Definition observation_of (row : SampleRow) : Observation :=
  {| o_at := as_u64 (sr_observed_at row); o_price := as_u64 (sr_min_unit row); o_quantity := as_u64 (sr_quantity row);
     o_listings := as_u64 (sr_listings row) |}.

Definition day_rows (day_start : Millis) (rows : list SampleRow) : list SampleRow :=
  filter (fun r => (as_i64 day_start <= sr_observed_at r < as_i64 (wrap 64 (day_start + 86400000)))%Z) rows.

(** [ORDER BY item_id, region, observed_at]. *)
Definition row_cmp (a b : SampleRow) : comparison :=
  cmp_then (Z.compare (sr_item a) (sr_item b))
    (cmp_then (string_cmp (sr_region a) (sr_region b)) (Z.compare (sr_observed_at a) (sr_observed_at b))).

Definition group_day (rows : list SampleRow) : gmap (N * string) (list Observation) :=
  group_by (fun r => (as_u32 (sr_item r), sr_region r)) observation_of rows.

(** [price_daily], by item, region and day. *)
Abbreviation DailyTable := (gmap (Z * string * Z) DailyRollup).

Definition build_daily_rollups (day_start : Millis) (p : PriceTables) (t : DailyTable) : StoreResult N * DailyTable :=
  let grouped := group_day (sort_by row_cmp (day_rows day_start (pt_samples p))) in
  let write t kv := <[((as_i64 kv.1.1, kv.1.2), as_i64 day_start) := compute kv.2]> t in
  (Ok (N.of_nat (size grouped)),
   foldl write t (sort_by (fun a b => cmp_then (N.compare a.1.1 b.1.1) (string_cmp a.1.2 b.1.2)) (map_to_list grouped))).

(** A day of nine hours is refused for want of twelve, and told that eight are needed. *)
Definition hours_of (n : nat) : list Observation :=
  (fun h => {| o_at := N.of_nat h * BUCKET_MS; o_price := 10; o_quantity := 1; o_listings := 1 |}) <$> seq 0 n.

Example nine_hours_refused :
  insufficient (compute (hours_of 9)) = Some "not enough history" /\ insufficient_have (compute (hours_of 9)) = Some 9 /\
  insufficient_need (compute (hours_of 9)) = Some 8.
Proof. vm_compute. done. Qed.

(** ** What a rollup says of its day *)
Definition extremes_of (l : list Observation) (x : Extremes) : Prop :=
  (forall o, o ∈ l -> x_min x <= o_price o <= x_max x) /\
  (x_min x = u64_max \/ exists o, o ∈ l /\ o_price o = x_min x /\ o_at o = x_min_at x) /\
  (x_max x = 0 \/ exists o, o ∈ l /\ o_price o = x_max x /\ o_at o = x_max_at x) /\
  x_samples x = wrap 32 (N.of_nat (length l)).

Lemma extremes_of_snoc l x o :
  extremes_of l x -> 0 < o_listings o -> o_price o <= u64_max -> x_min x <= u64_max ->
  extremes_of (l ++ [o]) (scan_one x o) /\ x_min (scan_one x o) <= u64_max.
Proof.
  intros (Hr & Hmin & Hmax & Hn) Hl Ho Hu. unfold scan_one. rewrite decide_True by done.
  assert (forall P : Observation -> Prop, (exists y, y ∈ l /\ P y) -> exists y, y ∈ l ++ [o] /\ P y) as Hold
    by (intros P (y & Hy & HP); exists y; rewrite elem_of_app; auto).
  assert (forall P : Observation -> Prop, P o -> exists y, y ∈ l ++ [o] /\ P y) as Hnew
    by (intros P HP; exists o; rewrite elem_of_app; split; [right; constructor|done]).
  assert (wrap 32 (x_samples x + 1) = wrap 32 (N.of_nat (length (l ++ [o])))) as Hs.
  { rewrite Hn, length_app. cbn [length]. unfold wrap. rewrite N.Div0.add_mod_idemp_l. f_equal. lia. }
  unfold extremes_of. destruct (decide (o_price o < x_min x)), (decide (x_max x < o_price o)); cbn [x_min x_min_at x_max x_max_at x_samples];
    (split; [split_and!; [| | |exact Hs]|lia]);
    try (intros y [Hy| ->%list_elem_of_singleton]%elem_of_app; [specialize (Hr y Hy); lia|lia]);
    try (right; by apply Hnew); try (destruct Hmin as [|Hmin]; [by left|right; by apply Hold]);
    try (destruct Hmax as [|Hmax]; [by left|right; by apply Hold]).
Qed.

Lemma scan_spec obs : Forall (fun o => o_price o <= u64_max) obs -> extremes_of (listed obs) (scan obs) /\ x_min (scan obs) <= u64_max.
Proof.
  unfold scan, listed. induction obs as [|o obs IH] using rev_ind; intros Hb.
  { split; [|done]. split_and!; [by intros o ?%not_elem_of_nil|by left|by left|done]. }
  apply Forall_app in Hb as [Hb [Ho _]%Forall_cons]. destruct (IH Hb) as [Hx Hu]. rewrite foldl_app, filter_app, filter_cons, filter_nil. cbn [foldl].
  case_decide as Hl.
  - by apply extremes_of_snoc.
  - rewrite app_nil_r. unfold scan_one. by rewrite decide_False.
Qed.

(** The values by the hour are values of listed observations, one per hour. *)
Lemma hourly_map f (l : list Observation) k :
  match foldl (fun m o => <[o_at o / BUCKET_MS := f o]> m) (∅ : gmap N N) l !! k with
  | Some v => exists o, o ∈ l /\ o_at o / BUCKET_MS = k /\ f o = v
  | None => forall o, o ∈ l -> o_at o / BUCKET_MS <> k
  end.
Proof.
  induction l as [|o l IH] using rev_ind; [cbn; rewrite lookup_empty; by intros o ?%not_elem_of_nil|].
  rewrite foldl_app. cbn [foldl]. destruct (decide (o_at o / BUCKET_MS = k)) as [<-|Hne].
  - rewrite lookup_insert_eq. exists o. split_and!; [set_solver|done|done].
  - rewrite lookup_insert_ne by done. destruct (_ !! k).
    + destruct IH as (y & Hy & ? & ?). exists y. split_and!; [set_solver|done|done].
    + intros y [Hy| ->%list_elem_of_singleton]%elem_of_app; [by apply IH|done].
Qed.

Lemma hourly_elem f obs v : v ∈ hourly f obs -> exists o, o ∈ listed obs /\ f o = v.
Proof.
  unfold hourly. intros [k Hk]%elem_of_values. pose proof (hourly_map f (listed obs) k) as H. rewrite Hk in H.
  destruct H as (o & Ho & _ & Hf). eauto.
Qed.

(** The hours of the day something was listed in. *)
Definition hours_listed (obs : list Observation) : gset N := list_to_set ((fun o => o_at o / BUCKET_MS) <$> listed obs).

Lemma hourly_length f obs : length (hourly f obs) = size (hours_listed obs).
Proof.
  unfold hourly. rewrite length_values, <- size_dom. f_equal. apply set_eq. intros k. unfold hours_listed.
  rewrite elem_of_dom, elem_of_list_to_set, list_elem_of_fmap. pose proof (hourly_map f (listed obs) k) as H.
  destruct (_ !! k).
  - split; [|done]. destruct H as (o & Ho & <- & _). intros _. by exists o.
  - split; [by intros []|]. intros (o & -> & Ho). by apply H in Ho.
Qed.

(** A mean of doubles lies between the least and the greatest value. *)
Lemma mean_bounds l lo hi :
  l <> [] -> Forall (fun v => lo <= v <= hi) l -> hi <= 2 ^ 53 -> N.of_nat (length l) <= 2 ^ 53 -> sumN l <= 2 ^ 53 ->
  lo <= mean l <= hi.
Proof.
  intros Hne Hl Hhi Hlen Hsum. pose proof (sumN_bounds l lo hi Hl) as [Hlo Hup].
  assert (lo <= hi) as Hlh by (destruct Hl as [|v l' Hv]; [done|lia]). assert (0 < N.of_nat (length l)) as Hpos by (destruct l; [done|cbn; lia]).
  unfold mean. rewrite wrap_small by lia. rewrite !of_u64_exact by done. pose proof one_pos as Ho.
  set (n := N.of_nat (length l)) in *. set (S := sumN l) in *. clearbody n S. unfold fdiv.
  rewrite <- (to_u64_int lo), <- (to_u64_int hi) by (unfold u64_max; lia). split; apply to_u64_mono.
  - apply rnd_ge; [apply representable_int; lia|nia|]. nia.
  - apply rnd_le; [apply representable_int; lia|nia|]. nia.
Qed.

Lemma first_of_elem l : l <> [] -> first_of l ∈ l.
Proof. destruct l; [done|]. intros _. constructor. Qed.

Lemma last_of_elem l : l <> [] -> last_of l ∈ l.
Proof.
  intros Hl. unfold last_of. destruct (last l) as [x|] eqn:Hx; [by apply last_Some_elem_of|]. by apply last_None in Hx.
Qed.

(** A day: at most twenty-four hours, and prices a double adds up exactly. *)
Definition day_ok (obs : list Observation) : Prop :=
  Forall (fun o => o_price o <= 2 ^ 48) obs /\ (size (hours_listed obs) <= 24)%nat.

Lemma hourly_bounds obs : day_ok obs -> Forall (fun v => x_min (scan obs) <= v <= x_max (scan obs)) (hourly o_price obs).
Proof.
  intros [Hp _]. destruct (scan_spec obs) as [(Hr & _) _]; [eapply Forall_impl; [exact Hp|]; unfold u64_max; cbn; lia|].
  apply Forall_forall. intros v (o & Ho & <-)%hourly_elem. by apply Hr.
Qed.

Lemma x_max_bound obs : day_ok obs -> x_max (scan obs) <= 2 ^ 48.
Proof.
  intros [Hp _]. destruct (scan_spec obs) as [(_ & _ & Hm & _) _]; [eapply Forall_impl; [exact Hp|]; unfold u64_max; cbn; lia|].
  destruct Hm as [->|(o & [_ Ho]%list_elem_of_filter & <- & _)]; [lia|]. rewrite Forall_forall in Hp. by apply Hp.
Qed.

(** The percentiles are within the extremes. *)
Lemma day_distribution obs d :
  day_ok obs -> Distribution_of (from_observations ((fun o => (o_at o, o_price o)) <$> listed obs)) = Some d ->
  x_min (scan obs) <= p05 d /\ p05 d <= p25 d /\ p25 d <= median d /\ median d <= p75 d /\ p75 d <= p95 d /\ p95 d <= x_max (scan obs).
Proof.
  intros Hok Hd. pose proof Hok as [Hp Hh]. set (ob := (fun o => (o_at o, o_price o)) <$> listed obs) in *.
  assert (Forall (fun o => o.2 <= 2 ^ 53) ob) as Hob.
  { apply Forall_fmap, Forall_forall. intros o [_ Ho]%list_elem_of_filter. rewrite Forall_forall in Hp. specialize (Hp o Ho). cbn in *. lia. }
  assert (exact (from_observations ob)) as He.
  { apply from_observations_exact. split; [done|]. assert (hours ob = hours_listed obs) as ->; [|lia].
    unfold hours, hours_listed, ob. f_equal. by rewrite <- !list_fmap_compose. }
  destruct (Distribution_of_ordered _ _ He Hd) as (Hr & H1 & H2 & H3 & H4 & H5 & H6).
  destruct (scan_spec obs) as [(Hx & _) _]; [eapply Forall_impl; [exact Hp|]; unfold u64_max; cbn; lia|].
  assert (forall p, p ∈ prices (from_observations ob) -> x_min (scan obs) <= p <= x_max (scan obs)) as Hin.
  { intros p (o & [Ho _] & <- & _)%from_observations_elem. apply list_elem_of_fmap in Ho as (o' & -> & Ho'). by apply Hx. }
  assert (1 <= len (from_observations ob)) as Hlen.
  { unfold len. destruct (prices (from_observations ob)) eqn:Hpr; [|cbn; lia]. by rewrite (proj2 (Distribution_of_None _) Hpr) in Hd. }
  pose proof (Hin _ (at_rank_elem (from_observations ob) 1 ltac:(lia))).
  pose proof (Hin _ (at_rank_elem (from_observations ob) (len (from_observations ob)) ltac:(lia))). split_and!; lia.
Qed.

(** A day's row either says why it has no statistics, and then has none, because
    fewer than twelve of the day's hours had a listing; or its numbers are of that day:
    the low and the high are the extremes of what was listed, seen when it says, and the
    opening, closing and mean price and the five percentiles, in order, lie between
    them, for all the rounding of the doubles in between. *)
Theorem daily_rollup_sound obs :
  day_ok obs ->
  let r := compute obs in
  match insufficient r with
  | Some why =>
      r = refused (samples r) (observed_buckets r) (Some why) (insufficient_have r) (insufficient_need r) /\
      (size (hours_listed obs) < 12)%nat
  | None =>
      observed_buckets r = N.of_nat (size (hours_listed obs)) /\ 12 <= observed_buckets r /\
      (forall o, o ∈ listed obs -> low_price r <= o_price o <= high_price r) /\
      (exists o, o ∈ listed obs /\ o_price o = low_price r /\ o_at o = low_at r) /\
      (high_price r = 0 \/ exists o, o ∈ listed obs /\ o_price o = high_price r /\ o_at o = high_at r) /\
      low_price r <= open_price r <= high_price r /\ low_price r <= close_price r <= high_price r /\
      low_price r <= mean_price r <= high_price r /\
      low_price r <= p05_price r /\ p05_price r <= p25_price r /\ p25_price r <= median_price r /\
      median_price r <= p75_price r /\ p75_price r <= p95_price r /\ p95_price r <= high_price r
  end.
Proof.
  intros Hok r. pose proof Hok as [Hp Hh]. pose proof (hourly_length o_price obs) as Hlen. pose proof (hourly_bounds obs Hok) as Hb.
  destruct obs as [|o0 obs']; [split; [done|vm_compute; lia]|]. set (obs := o0 :: obs') in *. subst r. unfold compute. fold obs. cbv zeta.
  change (match obs with [] => ?a | _ :: _ => ?b end) with b.
  destruct (hourly o_price obs) as [|v vs] eqn:Hv.
  { cbn [insufficient refused]. split; [done|]. rewrite <- Hlen. cbn. lia. }
  set (hs := v :: vs) in *. rewrite (wrap_small 32 (N.of_nat (length hs))) by lia. unfold Gates_admit. cbn [day_gates g_tails g_coverage g_median].
  case_decide as Ht; [cbn [insufficient refused]; split; [done|lia]|].
  assert (~ (wrap 32 (N.of_nat (length hs) * 100) / 24 < 25)) as Hcov.
  { rewrite wrap_small by lia. pose proof (N.Div0.div_le_mono 1200 (N.of_nat (length hs) * 100) 24 ltac:(lia)) as Hd.
    change (1200 / 24) with 50 in Hd. lia. }
  rewrite decide_False by exact Hcov. cbn [insufficient observed_buckets low_price high_price low_at high_at open_price close_price mean_price
    p05_price p25_price median_price p75_price p95_price].
  destruct (scan_spec obs) as [(Hr & Hmin & Hmax & _) _]; [eapply Forall_impl; [exact Hp|]; unfold u64_max; cbn; lia|].
  assert (hs <> []) as Hne by done. pose proof (x_max_bound obs Hok) as Hmb.
  assert (exists o, o ∈ listed obs) as [o Ho].
  { destruct (hourly_elem o_price obs v) as (o & Ho & _); [rewrite Hv; constructor|eauto]. }
  assert (x_min (scan obs) <= mean hs <= x_max (scan obs)) as Hmean.
  { apply mean_bounds; [done|done|lia|lia|]. pose proof (sumN_bounds hs _ _ Hb) as [_ Hs]. nia. }
  rewrite Forall_forall in Hb. pose proof (Hb _ (first_of_elem hs Hne)) as Hfirst. pose proof (Hb _ (last_of_elem hs Hne)) as Hlast. cbv beta in Hfirst, Hlast.
  destruct (Distribution_of (from_observations ((fun o => (o_at o, o_price o)) <$> listed obs))) as [d|] eqn:Hd.
  2: { apply Distribution_of_None, from_observations_nil, fmap_nil_inv in Hd. rewrite Hd in Ho. by apply not_elem_of_nil in Ho. }
  destruct (day_distribution obs d Hok Hd) as (? & ? & ? & ? & ? & ?). cbn [from_option].
  split; [by rewrite Hlen|]. split; [lia|]. split; [exact Hr|]. split; [|split; [exact Hmax|]].
  2: { destruct Hfirst, Hlast, Hmean. by split_and!. }
  destruct Hmin as [Hmin|Hmin]; [|done]. specialize (Hr o Ho). unfold u64_max in Hmin. lia.
Qed.

(** Twelve hours of rising prices, and an hour in which nothing was listed. *)
Definition demo_day : list Observation :=
  ((fun h => {| o_at := N.of_nat h * BUCKET_MS; o_price := 100 + N.of_nat h; o_quantity := 5; o_listings := 1 |}) <$> seq 0 12) ++
  [{| o_at := 12 * BUCKET_MS; o_price := 1; o_quantity := 0; o_listings := 0 |}].

Lemma daily_rollup_sound_witness :
  insufficient (compute demo_day) = None /\ low_price (compute demo_day) <= 100 /\ 111 <= high_price (compute demo_day) /\
  low_price (compute demo_day) <= mean_price (compute demo_day) <= high_price (compute demo_day).
Proof.
  assert (day_ok demo_day) as Hok.
  { split; [repeat (apply Forall_cons; split; [vm_compute; discriminate|]); constructor|vm_compute; lia]. }
  assert (size (hours_listed demo_day) = 12%nat) as Hs by (vm_compute; reflexivity).
  assert (exists a b, a ∈ listed demo_day /\ b ∈ listed demo_day /\ o_price a = 100 /\ o_price b = 111) as (a & b & Ha & Hb & Pa & Pb).
  { exists {| o_at := 0; o_price := 100; o_quantity := 5; o_listings := 1 |},
      {| o_at := 11 * BUCKET_MS; o_price := 111; o_quantity := 5; o_listings := 1 |}.
    split_and!; try reflexivity; apply list_elem_of_filter; (split; [reflexivity|]); cbn; by repeat (left || right). }
  pose proof (daily_rollup_sound demo_day Hok) as H. cbv zeta in H. generalize dependent (compute demo_day). intros r H.
  destruct (insufficient r) as [why|]; [destruct H as [_ H]; lia|].
  destruct H as (_ & _ & Hr & _ & _ & _ & _ & Hm & _). pose proof (Hr a Ha) as Hra. pose proof (Hr b Hb) as Hrb.
  rewrite Pa in Hra. rewrite Pb in Hrb. destruct Hra, Hrb. by split_and!; try apply Hm.
Defined.

(** ** Storing a day twice stores it once *)
Lemma foldl_insert_lookup `{Countable K} {A V} (f : A -> K) (g : A -> V) l (m : gmap K V) k :
  foldl (fun m x => <[f x := g x]> m) m l !! k =
    match find_first (fun x => bool_decide (f x = k)) (reverse l) with Some x => Some (g x) | None => m !! k end.
Proof.
  induction l as [|x l IH] using rev_ind; [done|]. rewrite foldl_app, reverse_app. cbn [foldl].
  change (reverse [x] ++ reverse l) with (x :: reverse l). rewrite find_first_cons. case_bool_decide as Hk.
  - by rewrite Hk, lookup_insert_eq.
  - by rewrite lookup_insert_ne.
Qed.

Lemma build_daily_rollups_idempotent day p t :
  let '(r, t') := build_daily_rollups day p t in build_daily_rollups day p t' = (r, t').
Proof.
  unfold build_daily_rollups. cbv zeta. f_equal. set (l := sort_by _ _). apply map_eq. intros k.
  rewrite !(foldl_insert_lookup (fun kv => ((as_i64 kv.1.1, kv.1.2), as_i64 day)) (fun kv => compute kv.2)).
  by destruct (find_first _ _).
Qed.
