(* ===== verification/Throttle.v ===== *)
(** * Throttle: how fast passwords can be guessed, and how many streams are open

    Models [crates/app-web/src/throttle.rs]: the per-username failure count of
    [LoginThrottle], the fixed windows of [AuthGate] and [SignUpThrottle], and the
    counters of [SseGate].

    Each method of the throttles holds its mutex throughout and is one step.
    [SseGate::enter] is not: it raises the total, then takes the lock, and the drop of
    a permit does the same the other way round, so its steps are modelled one atomic
    action at a time ([sse_step]) and its theorem holds for every interleaving. *)
From Stdlib Require Import Ascii ZArith.
From stdpp Require Import prelude gmap sorting strings pretty.
From S2P Require Import Prelude Text Time.

Definition MAX_FAILURES : N := 8.
Definition WINDOW_MS : N := 5 * 60 * 1000.
Definition MAX_ORIGIN_ATTEMPTS : N := 20.
Definition MAX_GLOBAL_ATTEMPTS : N := 100.
Definition MAX_SIGN_UPS : N := 10.

(** An address, as far as the maps care. *)
Abbreviation IpAddr := N.

(** ** Sign-ins, by username *)
Record Bucket := { failures : N; b_last : Millis }.

Abbreviation LoginThrottle := (gmap string Bucket).

Definition bucket_key (username : string) : string := to_lower username.

Definition expired (bucket : Bucket) (now : Millis) : bool := bool_decide (WINDOW_MS <= now - b_last bucket).

Definition allows (self : LoginThrottle) (username : string) (now : Millis) : bool * LoginThrottle :=
  let key := bucket_key username in
  match self !! key with
  | Some bucket => if expired bucket now then (true, delete key self) else (bool_decide (failures bucket < MAX_FAILURES), self)
  | None => (true, self)
  end.

Definition failed (self : LoginThrottle) (username : string) (now : Millis) : LoginThrottle :=
  let key := bucket_key username in
  let swept := filter (fun kv => expired kv.2 now = false) self in
  let bucket := default {| failures := 0; b_last := now |} (swept !! key) in
  <[key := {| failures := sat_add u32_max (failures bucket) 1; b_last := now |}]> swept.

Definition succeeded (self : LoginThrottle) (username : string) : LoginThrottle := delete (bucket_key username) self.

(** ** Fixed windows *)
Record Window := { started : Millis; attempts : N }.

Definition take_window (cell : option Window) (now : Millis) (maximum : N) : bool * option Window :=
  match cell with
  | Some window =>
      if decide (now - started window < WINDOW_MS) then
        let window := {| started := started window; attempts := sat_add u32_max (attempts window) 1 |} in
        (bool_decide (attempts window <= maximum), Some window)
      else (true, Some {| started := now; attempts := 1 |})
  | None => (true, Some {| started := now; attempts := 1 |})
  end.

Definition sign_up_take (cell : option Window) (now : Millis) : bool * option Window :=
  match cell with
  | Some window =>
      if decide (now - started window < WINDOW_MS) then
        let attempts := sat_add u32_max (attempts window) 1 in
        (bool_decide (attempts <= MAX_SIGN_UPS), Some {| started := started window; attempts := attempts |})
      else (true, Some {| started := now; attempts := 1 |})
  | None => (true, Some {| started := now; attempts := 1 |})
  end.

Record AuthGate := { origins : gmap IpAddr Window; global : option Window }.

Definition AuthGate_take (self : AuthGate) (origin : IpAddr) (now : Millis) : bool * AuthGate :=
  let '(global_ok, g) := take_window (global self) now MAX_GLOBAL_ATTEMPTS in
  if global_ok then
    let kept := filter (fun kv => now - started kv.2 < WINDOW_MS) (origins self) in
    let window := default {| started := now; attempts := 0 |} (kept !! origin) in
    let window := {| started := started window; attempts := sat_add u32_max (attempts window) 1 |} in
    (bool_decide (attempts window <= MAX_ORIGIN_ATTEMPTS), {| origins := <[origin := window]> kept; global := g |})
  else (false, {| origins := origins self; global := g |}).

(** ** A day of sign-in attempts

    The route asks [allows] before it hashes, and tells the outcome after. *)
Inductive Outcome := Wrong | Right.

Record Attempt := { a_user : string; a_now : Millis; a_outcome : Outcome }.

(** One attempt, and whether the password was looked at. *)
Definition attempt (self : LoginThrottle) (a : Attempt) : bool * LoginThrottle :=
  let '(ok, self) := allows self (a_user a) (a_now a) in
  if ok then
    match a_outcome a with
    | Wrong => (true, failed self (a_user a) (a_now a))
    | Right => (true, succeeded self (a_user a))
    end
  else (false, self).

(** The attempts whose password was looked at, newest first. *)
Fixpoint replay (rev_attempts : list Attempt) : LoginThrottle * list Attempt :=
  match rev_attempts with
  | [] => (∅, [])
  | a :: earlier =>
      let '(self, tried) := replay earlier in
      let '(ok, self) := attempt self a in (self, if ok then a :: tried else tried)
  end.

(** Wrong guesses at one account since its owner last got in, newest first. *)
Fixpoint guesses (key : string) (tried : list Attempt) : list Millis :=
  match tried with
  | [] => []
  | a :: rest =>
      if decide (bucket_key (a_user a) = key) then
        match a_outcome a with Wrong => a_now a :: guesses key rest | Right => [] end
      else guesses key rest
  end.

(** How long the newest run of guesses is, each less than a window after the last. *)
Fixpoint chain (times : list Millis) : nat :=
  match times with
  | t :: ((t' :: _) as rest) => if decide (t - t' < WINDOW_MS) then S (chain rest) else 1
  | [_] => 1
  | [] => 0
  end.

(** What the throttle knows of an account: the newest run, or that it has been idle. *)
Definition tracks (self : LoginThrottle) (now : Millis) (key : string) (times : list Millis) : Prop :=
  match self !! key with
  | Some b => head times = Some (b_last b) /\ failures b = N.of_nat (chain times)
  | None => match head times with Some t => WINDOW_MS <= now - t | None => True end
  end.

(** *** Runs of guesses *)
Lemma tracks_later self now now' key times : now <= now' -> tracks self now key times -> tracks self now' key times.
Proof. unfold tracks. intros Hle. destruct (self !! key); [done|]. destruct (head times); [lia|done]. Qed.

Lemma chain_cons t times : chain (t :: times) = match head times with
  | Some t' => if decide (t - t' < WINDOW_MS) then S (chain times) else 1%nat | None => 1%nat end.
Proof. by destruct times. Qed.

(** Whether the newest guess is recent. *)
Lemma tracks_known self now key times b :
  tracks self now key times -> self !! key = Some b -> head times = Some (b_last b) /\ failures b = N.of_nat (chain times).
Proof. unfold tracks. intros H Hk. by rewrite Hk in H. Qed.

Lemma tracks_swept self now key times :
  tracks self now key times -> tracks (filter (fun kv => expired kv.2 now = false) self) now key times.
Proof.
  unfold tracks. rewrite map_lookup_filter. destruct (self !! key) as [b|]; [|done]. cbn. case_guard as He; cbn; [done|].
  intros [-> _]. unfold expired in He. apply not_false_is_true, bool_decide_eq_true in He. exact He.
Qed.

Lemma tracks_failed self now user times :
  tracks self now (bucket_key user) times ->
  (forall b, self !! bucket_key user = Some b -> expired b now = false -> failures b < MAX_FAILURES) ->
  let new := failed self user now in
  tracks new now (bucket_key user) (now :: times) /\ N.of_nat (chain (now :: times)) <= MAX_FAILURES /\
  forall key ts, key <> bucket_key user -> tracks self now key ts -> tracks new now key ts.
Proof.
  intros Ht Hlt. cbv zeta. unfold failed. cbv zeta. pose proof (tracks_swept _ _ _ _ Ht) as Hs. set (swept := filter _ self) in *.
  assert (forall b, swept !! bucket_key user = Some b -> self !! bucket_key user = Some b /\ expired b now = false) as Hsw.
  { intros b Hb. by apply map_lookup_filter_Some in Hb. }
  assert (sat_add u32_max (failures (default {| failures := 0; b_last := now |} (swept !! bucket_key user))) 1 = N.of_nat (chain (now :: times)) /\
    N.of_nat (chain (now :: times)) <= MAX_FAILURES) as [Hn Hm].
  { rewrite chain_cons. unfold tracks in Hs. destruct (swept !! bucket_key user) as [b|] eqn:Hb; cbn [default from_option id failures].
    - destruct Hs as [-> Hf]. destruct (Hsw b eq_refl) as [Hself He]. pose proof (Hlt b Hself He) as Hlt'.
      unfold expired in He. apply bool_decide_eq_false in He. rewrite decide_True by lia. unfold sat_add, u32_max, MAX_FAILURES in *. lia.
    - unfold sat_add, u32_max, MAX_FAILURES. destruct (head times); [rewrite decide_False by lia|]; lia. }
  split_and!.
  - unfold tracks. rewrite lookup_insert_eq. cbn [b_last failures head]. by rewrite Hn.
  - done.
  - intros key ts Hne Hk. unfold tracks. rewrite lookup_insert_ne by done. apply (tracks_swept _ _ _ _ Hk).
Qed.

Lemma tracks_succeeded self now user :
  tracks (succeeded self user) now (bucket_key user) [] /\
  forall key ts, key <> bucket_key user -> tracks self now key ts -> tracks (succeeded self user) now key ts.
Proof.
  unfold succeeded, tracks. split; [by rewrite lookup_delete_eq|]. intros key ts Hne. by rewrite lookup_delete_ne.
Qed.

Lemma allows_spec self user now times :
  tracks self now (bucket_key user) times ->
  let '(ok, new) := allows self user now in
  (forall key ts, tracks self now key ts -> tracks new now key ts) /\
  (ok = true -> forall b, new !! bucket_key user = Some b -> failures b < MAX_FAILURES) /\
  (ok = false -> exists t, head times = Some t /\ now - t < WINDOW_MS).
Proof.
  intros Ht. unfold allows. cbv zeta. destruct (self !! bucket_key user) as [b|] eqn:Hb.
  2: { split_and!; [done| |done]. intros _ b. by rewrite Hb. }
  destruct (tracks_known _ _ _ _ _ Ht Hb) as [Hh Hf]. destruct (expired b now) eqn:He; unfold expired in He.
  - apply bool_decide_eq_true in He. split_and!; [|by rewrite lookup_delete_eq|done]. intros key ts Hk.
    destruct (decide (key = bucket_key user)) as [->|Hne].
    + destruct (tracks_known _ _ _ _ _ Hk Hb) as [Hh' _]. unfold tracks. by rewrite lookup_delete_eq, Hh'.
    + unfold tracks in *. by rewrite lookup_delete_ne.
  - apply bool_decide_eq_false in He. split_and!; [done| |].
    + intros Hok b' Hb'. apply bool_decide_eq_true in Hok. congruence.
    + intros _. exists (b_last b). split; [done|lia].
Qed.

(** What a replay keeps. *)
Definition newest_first (l : list Attempt) : Prop := StronglySorted (fun a b => a_now b <= a_now a) l.
Definition runs_ok (times : list Millis) : Prop := forall k, N.of_nat (chain (drop k times)) <= MAX_FAILURES.
Definition descending (times : list Millis) : Prop := StronglySorted (fun a b => b <= a) times.

Definition replay_ok (self : LoginThrottle) (now : Millis) (tried : list Attempt) : Prop :=
  forall key, tracks self now key (guesses key tried) /\ runs_ok (guesses key tried) /\ descending (guesses key tried) /\
    Forall (fun t => t <= now) (guesses key tried).

Lemma attempt_ok self now tried a :
  replay_ok self now tried -> now <= a_now a ->
  let '(ok, new) := attempt self a in replay_ok new (a_now a) (if ok then a :: tried else tried).
Proof.
  intros Hok Hle. unfold attempt.
  assert (forall key, tracks self (a_now a) key (guesses key tried)) as Ht by (intros key; eapply tracks_later; [exact Hle|apply Hok]).
  assert (forall key, Forall (fun t => t <= a_now a) (guesses key tried)) as Hall.
  { intros key. eapply Forall_impl; [apply Hok|]. cbn. intros. lia. }
  pose proof (allows_spec self (a_user a) (a_now a) _ (Ht (bucket_key (a_user a)))) as Ha. destruct (allows self (a_user a) (a_now a)) as [ok new].
  destruct Ha as (Hkeep & Hlt & _). destruct ok.
  2: { intros key. destruct (Hok key) as (_ & ? & ? & _). split_and!; [by apply Hkeep|done|done|done]. }
  destruct (a_outcome a) eqn:Ho.
  - destruct (tracks_failed new (a_now a) (a_user a) (guesses (bucket_key (a_user a)) tried)) as (H1 & H2 & H3);
      [by apply Hkeep|by intros b Hb _; apply Hlt|].
    intros key. cbn [guesses]. destruct (decide (bucket_key (a_user a) = key)) as [<-|Hne].
    + rewrite Ho. destruct (Hok (bucket_key (a_user a))) as (_ & Hr & Hd & _). split_and!; [exact H1| | |].
      * intros [|k]; [exact H2|apply Hr].
      * constructor; [done|]. eapply Forall_impl; [apply Hall|]. done.
      * constructor; [lia|apply Hall].
    + destruct (Hok key) as (_ & ? & ? & _). split_and!; [|done|done|apply Hall]. apply H3; [congruence|]. by apply Hkeep.
  - destruct (tracks_succeeded new (a_now a) (a_user a)) as [H1 H2]. intros key. cbn [guesses].
    destruct (decide (bucket_key (a_user a) = key)) as [<-|Hne].
    + rewrite Ho. split_and!; [exact H1| |constructor|constructor]. intros k. rewrite drop_nil. cbn. unfold MAX_FAILURES. lia.
    + destruct (Hok key) as (_ & ? & ? & _). split_and!; [|done|done|apply Hall]. apply H2; [congruence|]. by apply Hkeep.
Qed.

Lemma replay_spec l : newest_first l ->
  replay_ok (replay l).1 (from_option a_now 0 (head l)) (replay l).2.
Proof.
  induction 1 as [|a l Hs IH Hall]; cbn [replay].
  { intros key. split_and!; [done| |constructor|constructor]. intros k. cbn. rewrite drop_nil. cbn. unfold MAX_FAILURES. lia. }
  destruct (replay l) as [self tried]. cbn [fst snd head from_option] in *. pose proof (attempt_ok self _ tried a IH) as H.
  destruct (attempt self a) as [ok new]. cbn [fst snd]. apply H. destruct l as [|b l]; [cbn; lia|]. by apply Forall_cons in Hall as [? _].
Qed.

(** Guesses within a window are one run. *)
Definition within (s : Millis) (t : Millis) : Prop := s <= t < s + WINDOW_MS.

#[export] Instance within_dec s t : Decision (within s t).
Proof. unfold within. apply _. Defined.

Lemma filter_none_below s times : Forall (fun t => t < s) times -> filter (within s) times = [].
Proof. induction 1 as [|t l Ht _ IH]; [done|]. rewrite filter_cons, decide_False; [done|]. unfold within. lia. Qed.

Lemma window_in_chain s t times : descending (t :: times) -> within s t -> (length (filter (within s) (t :: times)) <= chain (t :: times))%nat.
Proof.
  revert t. induction times as [|t' times IH]; intros t Hd Ht; rewrite filter_cons, decide_True by done; cbn [length]; rewrite chain_cons; [done|].
  apply StronglySorted_inv in Hd as [Hd Hall]. apply Forall_cons in Hall as [Hle _]. cbn [head]. destruct (decide (within s t')) as [Hw|Hw].
  - specialize (IH t' Hd Hw). unfold within in *. rewrite decide_True by lia. lia.
  - rewrite filter_none_below; [case_decide; cbn; lia|]. apply StronglySorted_inv in Hd as [_ Hall]. unfold within in *.
    constructor; [lia|]. eapply Forall_impl; [exact Hall|]. cbn. intros. lia.
Qed.

Lemma window_bounded s times : descending times -> runs_ok times -> N.of_nat (length (filter (within s) times)) <= MAX_FAILURES.
Proof.
  induction times as [|t times IH]; intros Hd Hr; [unfold MAX_FAILURES; cbn; lia|]. destruct (decide (within s t)) as [Hw|Hw].
  - pose proof (window_in_chain s t times Hd Hw) as Hc. pose proof (Hr 0%nat) as H0. rewrite drop_0 in H0. lia.
  - rewrite filter_cons, decide_False by done. apply IH; [by apply StronglySorted_inv in Hd as [? _]|]. intros k. apply (Hr (S k)).
Qed.

(** Whatever attempts arrive, in the order of the clock and under any spelling of
    a name's case, the passwords looked at for one account that are wrong, since its
    owner last signed in, are at most eight in any five minutes; and an account nobody
    got wrong in the last five minutes may always be tried. *)
Theorem login_guesses_bounded l user :
  newest_first l ->
  (forall s, N.of_nat (length (filter (within s) (guesses (bucket_key user) (replay l).2))) <= MAX_FAILURES) /\
  (forall now, from_option a_now 0 (head l) <= now ->
     from_option (fun t => WINDOW_MS <= now - t) True (head (guesses (bucket_key user) (replay l).2)) ->
     (allows (replay l).1 user now).1 = true).
Proof.
  intros Hl. destruct (replay_spec l Hl (bucket_key user)) as (Ht & Hr & Hd & _). split.
  - intros s. by apply window_bounded.
  - intros now Hle Hidle. pose proof (allows_spec _ user now _ (tracks_later _ _ now _ _ Hle Ht)) as Ha.
    destruct (allows (replay l).1 user now) as [[] new]; [done|]. destruct Ha as (_ & _ & Hno).
    destruct (Hno eq_refl) as (t & Hh & Hlt). rewrite Hh in Hidle. cbn in Hidle. lia.
Qed.

(** Ten guesses in ten seconds: the last two are refused, and after a pause of five
    minutes the account may be tried again. *)
Definition demo_guesses : list Attempt :=
  (fun i => {| a_user := if Nat.even i then "Alice" else "alice"; a_now := N.of_nat i * 1000; a_outcome := Wrong |}) <$> reverse (seq 0 10).

Lemma login_guesses_bounded_witness :
  length (filter (within 0) (guesses "alice" (replay demo_guesses).2)) = 8%nat /\
  (allows (replay demo_guesses).1 "ALICE" 10000).1 = false /\ (allows (replay demo_guesses).1 "ALICE" 307000).1 = true.
Proof.
  assert (newest_first demo_guesses) as Hl.
  { unfold demo_guesses. vm_compute reverse. cbn [fmap list_fmap].
    repeat (constructor; [|repeat (apply Forall_cons; split; [vm_compute; discriminate|]); constructor]). constructor. }
  assert (length (filter (within 0) (guesses "alice" (replay demo_guesses).2)) = 8%nat) as Hn by (vm_compute; reflexivity).
  assert ((allows (replay demo_guesses).1 "ALICE" 10000).1 = false) as Hf by (vm_compute; reflexivity).
  split; [exact Hn|]. split; [exact Hf|].
  apply (proj2 (login_guesses_bounded demo_guesses "ALICE" Hl)); vm_compute; discriminate.
Defined.

(** ** Fixed windows pass at most twice their limit in any window's length *)

(** How many instants a predicate holds of. *)
Definition count (P : Millis -> Prop) `{forall t, Decision (P t)} (times : list Millis) : N := N.of_nat (length (filter P times)).

Lemma count_cons P `{forall t, Decision (P t)} t times : count P (t :: times) = (if decide (P t) then 1 else 0) + count P times.
Proof. unfold count. rewrite filter_cons. case_decide; cbn; lia. Qed.

Lemma count_mono P Q `{forall t, Decision (P t)} `{forall t, Decision (Q t)} times :
  (forall t, t ∈ times -> P t -> Q t) -> count P times <= count Q times.
Proof.
  induction times as [|t times IH]; intros HPQ; [done|]. rewrite !count_cons.
  assert (count P times <= count Q times) by (apply IH; intros x Hx; apply HPQ; by right). pose proof (HPQ t ltac:(left)).
  repeat case_decide; try lia. naive_solver.
Qed.

Lemma count_split P Q `{forall t, Decision (P t)} `{forall t, Decision (Q t)} times :
  count P times <= count (fun t => P t /\ Q t) times + count (fun t => P t /\ ~ Q t) times.
Proof. induction times as [|t times IH]; [done|]. rewrite !count_cons. repeat case_decide; try lia; exfalso; tauto. Qed.

Lemma count_none P `{forall t, Decision (P t)} times : (forall t, t ∈ times -> ~ P t) -> count P times = 0.
Proof.
  induction times as [|t times IH]; intros Hn; [done|]. rewrite count_cons, IH by (intros x Hx; apply Hn; by right).
  rewrite decide_False; [done|]. apply Hn. left.
Qed.

(** The state of one window after the instants it let through: the window, or the one
    that was swept away after it had run out. *)
Definition passed_ok (maximum : N) (cell : option Window) (now : Millis) (passed : list Millis) : Prop :=
  (forall s, count (within s) passed <= 2 * maximum) /\
  exists b n, (cell = Some {| started := b; attempts := n |} /\ b <= now \/ cell = None /\ (b + WINDOW_MS <= now \/ passed = [])) /\
    Forall (fun t => t <= now /\ t < b + WINDOW_MS) passed /\
    count (fun t => b <= t) passed <= N.min n maximum /\
    count (fun t => b <= t + WINDOW_MS /\ t < b) passed <= maximum.

(** What [take_window], and an origin's entry after the sweep, do to a window. *)
Definition take_step (maximum : N) (cell : option Window) (now : Millis) (ok : bool) (cell' : option Window) : Prop :=
  (exists w, cell = Some w /\ now - started w < WINDOW_MS /\ ok = bool_decide (sat_add u32_max (attempts w) 1 <= maximum) /\
     cell' = Some {| started := started w; attempts := sat_add u32_max (attempts w) 1 |}) \/
  ((forall w, cell = Some w -> WINDOW_MS <= now - started w) /\ ok = true /\ cell' = Some {| started := now; attempts := 1 |}).

Lemma take_window_step maximum cell now : take_step maximum cell now (take_window cell now maximum).1 (take_window cell now maximum).2.
Proof.
  unfold take_window. destruct cell as [w|]; [|right; done]. case_decide as Hd.
  - left. by exists w.
  - right. split_and!; [|done|done]. intros w' [= <-]. lia.
Qed.

(** An interval that holds the newest instant is covered by its window and the
    instants less than a window before it. *)
Lemma window_covers maximum b now passed s :
  b <= now -> count (fun t => b <= t) (now :: passed) <= maximum ->
  count (fun t => b <= t + WINDOW_MS /\ t < b) (now :: passed) <= maximum ->
  (forall s, count (within s) passed <= 2 * maximum) -> count (within s) (now :: passed) <= 2 * maximum.
Proof.
  intros Hb H1 H2 Hold. destruct (decide (within s now)) as [Hw|Hw].
  2: { rewrite count_cons, decide_False by done. apply Hold. }
  pose proof (count_split (within s) (fun t => b <= t) (now :: passed)) as Hs.
  assert (count (fun t => within s t /\ b <= t) (now :: passed) <= count (fun t => b <= t) (now :: passed)) by (apply count_mono; by intros t _ []).
  assert (count (fun t => within s t /\ ~ b <= t) (now :: passed) <= count (fun t => b <= t + WINDOW_MS /\ t < b) (now :: passed)).
  { apply count_mono. unfold within in *. intros t _ [? ?]. lia. }
  lia.
Qed.

Lemma take_step_ok maximum cell now passed now' ok cell' :
  0 < maximum < u32_max -> passed_ok maximum cell now passed -> now <= now' -> take_step maximum cell now' ok cell' ->
  passed_ok maximum cell' now' (if ok then now' :: passed else passed).
Proof.
  intros Hmax (Hbound & b & n & Hcell & Hpast & H1 & H2) Hle [(w & -> & Hin & Hok & ->)|(Hout & -> & ->)].
  - destruct Hcell as [[[= ->] Hb]|[? _]]; [|done]. cbn [started attempts] in *.
    assert (count (fun t => b <= t) (if ok then now' :: passed else passed) <= N.min (sat_add u32_max n 1) maximum) as H1'.
    { unfold sat_add in *. destruct ok; symmetry in Hok; [apply bool_decide_eq_true in Hok|apply bool_decide_eq_false in Hok; lia].
      rewrite count_cons, decide_True by lia. lia. }
    assert (count (fun t => b <= t + WINDOW_MS /\ t < b) (if ok then now' :: passed else passed) <= maximum) as H2'.
    { destruct ok; [|done]. rewrite count_cons, decide_False by lia. lia. }
    split.
    + intros s. destruct ok; [|done]. apply (window_covers maximum b); [lia|lia|done|done].
    + exists b, (sat_add u32_max n 1). split_and!; [left; split; [done|lia]| |done|done].
      assert (Forall (fun t => t <= now' /\ t < b + WINDOW_MS) passed) by (eapply Forall_impl; [exact Hpast|]; cbn; lia).
      destruct ok; [constructor; [lia|done]|done].
  - assert (b + WINDOW_MS <= now' \/ passed = []) as Hgap.
    { destruct Hcell as [[-> Hb]|[-> [?|?]]]; [|left; lia|by right]. left. specialize (Hout _ eq_refl). cbn in Hout. unfold WINDOW_MS in *. lia. }
    assert (count (fun t => now' <= t) (now' :: passed) = 1) as C1.
    { rewrite count_cons, decide_True by lia. rewrite count_none; [done|]. intros t Ht Hn. destruct Hgap as [Hg| ->]; [|by apply not_elem_of_nil in Ht].
      rewrite Forall_forall in Hpast. destruct (Hpast t Ht). lia. }
    assert (count (fun t => now' <= t + WINDOW_MS /\ t < now') (now' :: passed) <= maximum) as C2.
    { rewrite count_cons, decide_False by lia. destruct Hgap as [Hg| ->]; [|rewrite count_none; [lia|by intros ? ?%not_elem_of_nil]].
      etrans; [|etrans; [exact H1|lia]]. apply count_mono. intros t _ [? _]. lia. }
    split; [intros s; apply (window_covers maximum now'); [lia|lia|done|done]|].
    exists now', 1. split_and!; [left; split; [done|lia]| |lia|done].
    constructor; [unfold WINDOW_MS; lia|]. eapply Forall_impl; [exact Hpast|]. unfold WINDOW_MS. cbn. intros t [? ?]. lia.
Qed.

Lemma passed_ok_nil maximum now : passed_ok maximum None now [].
Proof.
  assert (forall P `{forall t, Decision (P t)}, count P [] = 0) as H0 by done.
  split; [intros s; rewrite H0; lia|]. exists 0, 0. split_and!; [right; by split; [|right]|constructor|rewrite H0; lia|rewrite H0; lia].
Qed.

(** Running out of time, or being swept away after it, changes nothing. *)
Lemma passed_ok_later maximum cell cell' now now' passed :
  passed_ok maximum cell now passed -> now <= now' ->
  cell' = cell \/ (cell' = None /\ forall w, cell = Some w -> WINDOW_MS <= now' - started w) -> passed_ok maximum cell' now' passed.
Proof.
  intros (Hbound & b & n & Hcell & Hpast & H1 & H2) Hle Hc. split; [done|]. exists b, n. split_and!; [|eapply Forall_impl; [exact Hpast|]; cbn; intros t [? ?]; lia|done|done].
  destruct Hc as [->|[-> Hout]].
  - destruct Hcell as [[? ?]|[? [?|?]]]; [left; split; [done|lia]|right; split; [done|left; lia]|right; split; [done|by right]].
  - right. split; [done|]. destruct Hcell as [[-> Hb]|[_ [?|?]]]; [|left; lia|by right]. left. specialize (Hout _ eq_refl). cbn in Hout.
    unfold WINDOW_MS in *. lia.
Qed.

(** *** The two gates over a sequence of requests, newest first *)
Fixpoint gate_run (requests : list (IpAddr * Millis)) : AuthGate * list (IpAddr * Millis) :=
  match requests with
  | [] => ({| origins := ∅; global := None |}, [])
  | r :: earlier =>
      let '(gate, passed) := gate_run earlier in
      let '(ok, gate) := AuthGate_take gate r.1 r.2 in (gate, if ok then r :: passed else passed)
  end.

Fixpoint sign_up_run (times : list Millis) : option Window * list Millis :=
  match times with
  | [] => (None, [])
  | t :: earlier =>
      let '(cell, passed) := sign_up_run earlier in
      let '(ok, cell) := sign_up_take cell t in (cell, if ok then t :: passed else passed)
  end.

Definition from_origin (o : IpAddr) (passed : list (IpAddr * Millis)) : list Millis := snd <$> filter (fun r => r.1 = o) passed.

(** An origin's entry after the sweep behaves as a window of its own. *)
Lemma origin_step kept_or_swept (m : gmap IpAddr Window) o now :
  kept_or_swept = filter (fun kv => now - started kv.2 < WINDOW_MS) m ->
  let w := default {| started := now; attempts := 0 |} (kept_or_swept !! o) in
  let w' := {| started := started w; attempts := sat_add u32_max (attempts w) 1 |} in
  take_step MAX_ORIGIN_ATTEMPTS (m !! o) now (bool_decide (attempts w' <= MAX_ORIGIN_ATTEMPTS)) (Some w').
Proof.
  intros ->. cbv zeta. rewrite map_lookup_filter. destruct (m !! o) as [w|]; cbn; [|right; by split_and!].
  case_guard as Hw; cbn in *.
  - left. by exists w.
  - right. split_and!; [|done|done]. intros w' [= <-]. lia.
Qed.

Lemma swept_step (m : gmap IpAddr Window) o now :
  filter (fun kv => now - started kv.2 < WINDOW_MS) m !! o = m !! o \/
  (filter (fun kv => now - started kv.2 < WINDOW_MS) m !! o = None /\ forall w, m !! o = Some w -> WINDOW_MS <= now - started w).
Proof.
  rewrite map_lookup_filter. destruct (m !! o) as [w|]; cbn; [|by left]. case_guard as Hw; cbn in *; [by left|]. right. split; [done|].
  intros w' [= <-]. lia.
Qed.

Definition gate_ok (gate : AuthGate) (now : Millis) (passed : list (IpAddr * Millis)) : Prop :=
  (exists gpassed, passed_ok MAX_GLOBAL_ATTEMPTS (global gate) now gpassed /\ sublist passed.*2 gpassed) /\
  forall o, passed_ok MAX_ORIGIN_ATTEMPTS (origins gate !! o) now (from_origin o passed).

Lemma gate_take_ok gate now passed r :
  gate_ok gate now passed -> now <= r.2 ->
  let '(ok, gate') := AuthGate_take gate r.1 r.2 in gate_ok gate' r.2 (if ok then r :: passed else passed).
Proof.
  destruct r as [o at_]. cbn [fst snd]. intros [(gp & Hg & Hsub) Ho] Hle. unfold AuthGate_take.
  pose proof (take_window_step MAX_GLOBAL_ATTEMPTS (global gate) at_) as Hstep. destruct (take_window (global gate) at_ _) as [gok g]. cbn [fst snd] in Hstep.
  apply (take_step_ok MAX_GLOBAL_ATTEMPTS _ now gp) in Hstep; [|done|done|done]. destruct gok.
  2: { split; [by exists gp|]. intros o'. eapply passed_ok_later; [apply Ho|done|by left]. }
  cbv zeta. set (kept := filter _ (origins gate)) in *. pose proof (origin_step kept (origins gate) o at_ eq_refl) as Hos. cbv zeta in Hos.
  set (w := {| started := _; attempts := _ |}) in *. set (ok := bool_decide _) in *.
  apply (take_step_ok _ _ now (from_origin o passed)) in Hos; [|done|done|done]. split.
  - exists (at_ :: gp). split; [done|]. cbn [global]. destruct ok; [by apply sublist_skip|by apply sublist_cons].
  - intros o'. cbn [origins]. destruct (decide (o' = o)) as [->|Hne].
    + rewrite lookup_insert_eq. destruct ok; [|done]. unfold from_origin. rewrite filter_cons, decide_True by done. exact Hos.
    + rewrite lookup_insert_ne by done. assert (from_origin o' (if ok then (o, at_) :: passed else passed) = from_origin o' passed) as ->.
      { destruct ok; [|done]. unfold from_origin. rewrite filter_cons, decide_False; [done|]. cbn. congruence. }
      eapply passed_ok_later; [apply Ho|done|]. apply swept_step.
Qed.

Lemma gate_run_ok l : StronglySorted (fun a b => b.2 <= a.2) l ->
  gate_ok (gate_run l).1 (from_option snd 0 (head l)) (gate_run l).2.
Proof.
  induction 1 as [|r l Hs IH Hall]; cbn [gate_run].
  { split; [exists []; split; [apply passed_ok_nil|done]|]. intros o. cbn [origins fst]. rewrite lookup_empty. apply passed_ok_nil. }
  destruct (gate_run l) as [gate passed]. cbn [fst snd head from_option] in *. pose proof (gate_take_ok gate _ passed r IH) as H.
  destruct (AuthGate_take gate r.1 r.2) as [ok gate']. apply H. destruct l; [cbn; lia|]. by apply Forall_cons in Hall as [? _].
Qed.

Lemma sign_up_run_ok l : StronglySorted (fun a b => b <= a) l ->
  passed_ok MAX_SIGN_UPS (sign_up_run l).1 (default 0 (head l)) (sign_up_run l).2.
Proof.
  induction 1 as [|t l Hs IH Hall]; cbn [sign_up_run]; [apply passed_ok_nil|].
  destruct (sign_up_run l) as [cell passed]. cbn [fst snd head default from_option] in *.
  assert (sign_up_take cell t = take_window cell t MAX_SIGN_UPS) as -> by (destruct cell; [|done]; cbn; by case_decide).
  pose proof (take_window_step MAX_SIGN_UPS cell t) as Hstep. destruct (take_window cell t MAX_SIGN_UPS) as [ok cell'].
  eapply take_step_ok; [done|exact IH| |exact Hstep]. destruct l; [cbn; lia|]. by apply Forall_cons in Hall as [? _].
Qed.

Lemma count_sublist P `{forall t, Decision (P t)} l k : sublist l k -> count P l <= count P k.
Proof. induction 1; rewrite ?count_cons; lia. Qed.

(** In any five minutes, however the requests are spread over addresses and
    windows, at most 200 get past the gate to a password hash, at most 40 of one
    address, and at most 20 sign-ups proceed: twice the limits, because two of the
    fixed windows can meet in it. *)
Theorem attempts_capped requests ups :
  StronglySorted (fun a b => b.2 <= a.2) requests -> StronglySorted (fun a b => b <= a) ups ->
  forall s,
  count (within s) (gate_run requests).2.*2 <= 2 * MAX_GLOBAL_ATTEMPTS /\
  (forall origin, count (within s) (from_origin origin (gate_run requests).2) <= 2 * MAX_ORIGIN_ATTEMPTS) /\
  count (within s) (sign_up_run ups).2 <= 2 * MAX_SIGN_UPS.
Proof.
  intros Hr Hu s. destruct (gate_run_ok requests Hr) as [(gp & (Hg & _) & Hsub) Ho]. split_and!.
  - etrans; [by apply count_sublist|apply Hg].
  - intros o. apply (Ho o).
  - apply (sign_up_run_ok ups Hu).
Qed.

(** Thirty requests a second from one address, and thirty sign-ups: twenty and ten pass. *)
Lemma attempts_capped_witness :
  let requests := (fun i => (7, N.of_nat i * 1000)) <$> reverse (seq 0 30) in
  let ups := (fun i => N.of_nat i * 1000) <$> reverse (seq 0 30) in
  count (within 0) (from_origin 7 (gate_run requests).2) = 20 /\ count (within 0) (sign_up_run ups).2 = 10 /\
  count (within 5000) (gate_run requests).2.*2 <= 200.
Proof.
  set (requests := (fun i => (7, N.of_nat i * 1000)) <$> reverse (seq 0 30)). set (ups := (fun i => N.of_nat i * 1000) <$> reverse (seq 0 30)).
  assert (forall l : list nat, StronglySorted (fun a b => (b <= a)%nat) l -> StronglySorted (fun a b : IpAddr * Millis => b.2 <= a.2) ((fun i => (7, N.of_nat i * 1000)) <$> l) /\
    StronglySorted (fun a b => b <= a) ((fun i => N.of_nat i * 1000) <$> l)) as Hs.
  { induction 1 as [|x l Hl [IH1 IH2] Hall]; [by split; constructor|]. split; (constructor; [done|]; apply Forall_fmap; eapply Forall_impl; [exact Hall|]; cbn; intros; lia). }
  destruct (Hs (reverse (seq 0 30))) as [Hr Hu].
  { vm_compute reverse. repeat (constructor; [|repeat (apply Forall_cons; split; [lia|]); constructor]). constructor. }
  split; [vm_compute; reflexivity|]. split; [vm_compute; reflexivity|]. apply (attempts_capped requests ups Hr Hu 5000).
Defined.

(** ** Open event streams

    The gate's counters, and where every caller is: past the first check and waiting
    for the lock, refused and about to take the total back, holding a permit, or
    dropping one with the total already lowered.  The total counts callers and permits
    that exist at one time, so its width does not matter. *)
Record SseGate := { total : N; sse_origins : gmap IpAddr N; max_total : N; max_per_origin : N }.

Definition SseGate_default : SseGate := {| total := 0; sse_origins := ∅; max_total := 256; max_per_origin := 8 |}.

Record SseState := {
  gate : SseGate; entering : list IpAddr; refusing : nat; holding : list IpAddr; leaving : list IpAddr }.

Definition set_gate (g : SseGate) (t : N) (m : gmap IpAddr N) : SseGate :=
  {| total := t; sse_origins := m; max_total := max_total g; max_per_origin := max_per_origin g |}.

(** [entry(origin).or_default()]. *)
Definition open_of (g : SseGate) (o : IpAddr) : N := default 0 (sse_origins g !! o).

(** What the lock's section of a drop does to the map. *)
Definition release (m : gmap IpAddr N) (o : IpAddr) : gmap IpAddr N :=
  match m !! o with
  | Some count => if decide (count - 1 = 0) then delete o m else <[o := count - 1]> m
  | None => m
  end.

Inductive sse_step : SseState -> SseState -> Prop :=
| fetch_add_passes s o : total (gate s) < max_total (gate s) ->
    sse_step s {| gate := set_gate (gate s) (total (gate s) + 1) (sse_origins (gate s)); entering := o :: entering s;
                  refusing := refusing s; holding := holding s; leaving := leaving s |}
| fetch_add_full s : max_total (gate s) <= total (gate s) ->
    sse_step s {| gate := set_gate (gate s) (total (gate s) + 1) (sse_origins (gate s)); entering := entering s;
                  refusing := S (refusing s); holding := holding s; leaving := leaving s |}
| lock_grants s o rest : entering s ≡ₚ o :: rest -> open_of (gate s) o < max_per_origin (gate s) ->
    sse_step s {| gate := set_gate (gate s) (total (gate s)) (<[o := open_of (gate s) o + 1]> (sse_origins (gate s)));
                  entering := rest; refusing := refusing s; holding := o :: holding s; leaving := leaving s |}
| lock_refuses s o rest : entering s ≡ₚ o :: rest -> max_per_origin (gate s) <= open_of (gate s) o ->
    sse_step s {| gate := set_gate (gate s) (total (gate s)) (<[o := open_of (gate s) o]> (sse_origins (gate s)));
                  entering := rest; refusing := S (refusing s); holding := holding s; leaving := leaving s |}
| fetch_sub_refused s n : refusing s = S n ->
    sse_step s {| gate := set_gate (gate s) (total (gate s) - 1) (sse_origins (gate s)); entering := entering s;
                  refusing := n; holding := holding s; leaving := leaving s |}
| drop_fetch_sub s o rest : holding s ≡ₚ o :: rest ->
    sse_step s {| gate := set_gate (gate s) (total (gate s) - 1) (sse_origins (gate s)); entering := entering s;
                  refusing := refusing s; holding := rest; leaving := o :: leaving s |}
| drop_lock s o rest : leaving s ≡ₚ o :: rest ->
    sse_step s {| gate := set_gate (gate s) (total (gate s)) (release (sse_origins (gate s)) o); entering := entering s;
                  refusing := refusing s; holding := holding s; leaving := rest |}.

Definition sse_start (max_total max_per_origin : N) : SseState :=
  {| gate := {| total := 0; sse_origins := ∅; max_total := max_total; max_per_origin := max_per_origin |};
     entering := []; refusing := 0; holding := []; leaving := [] |}.

Definition number (o : IpAddr) (l : list IpAddr) : N := N.of_nat (length (filter (fun x => x = o) l)).

Lemma number_cons o x l : number o (x :: l) = (if decide (x = o) then 1 else 0) + number o l.
Proof. unfold number. rewrite filter_cons. case_decide; cbn; lia. Qed.

#[export] Instance number_perm o : Proper ((≡ₚ) ==> (=)) (number o).
Proof. intros l k H. unfold number. by rewrite H. Qed.

(** The counters count. *)
Definition sse_inv (max_t max_o : N) (s : SseState) : Prop :=
  max_total (gate s) = max_t /\ max_per_origin (gate s) = max_o /\
  total (gate s) = N.of_nat (length (entering s) + refusing s + length (holding s)) /\
  N.of_nat (length (entering s) + length (holding s)) <= max_t /\
  forall o, open_of (gate s) o = number o (holding s) + number o (leaving s) /\ open_of (gate s) o <= max_o /\
    sse_origins (gate s) !! o <> Some 0.

Lemma sse_step_inv max_t max_o s s' : 0 < max_o -> sse_inv max_t max_o s -> sse_step s s' -> sse_inv max_t max_o s'.
Proof.
  intros Hpos (Hmt & Hmo & Htot & Hbound & Ho) Hstep.
  destruct Hstep as [s o Hlt|s Hge|s o rest Hp Hlt|s o rest Hp Hge|s n Hn|s o rest Hp|s o rest Hp];
    (split; [exact Hmt|]; split; [exact Hmo|]; cbn [gate set_gate total entering refusing holding leaving sse_origins length]);
    try (apply Permutation_length in Hp as Hlen; cbn in Hlen).
  - split_and!; [lia|lia|exact Ho].
  - split_and!; [lia|lia|exact Ho].
  - split_and!; [lia|lia|]. intros o'. unfold open_of in *. cbn [gate set_gate sse_origins]. rewrite number_cons.
    destruct (Ho o') as (H1 & H2 & H3). destruct (decide (o = o')) as [->|Hne].
    + rewrite lookup_insert_eq. cbn. split_and!; [lia|lia|]. intros [=]. lia.
    + rewrite lookup_insert_ne by done. split_and!; [lia|done|done].
  - split_and!; [lia|lia|]. intros o'. unfold open_of in *. cbn [gate set_gate sse_origins].
    destruct (Ho o') as (H1 & H2 & H3). destruct (decide (o = o')) as [->|Hne].
    + rewrite lookup_insert_eq. cbn. split_and!; [lia|lia|]. intros [=]. lia.
    + rewrite lookup_insert_ne by done. split_and!; [lia|done|done].
  - split_and!; [lia|lia|exact Ho].
  - split_and!; [lia|lia|]. intros o'. destruct (Ho o') as (H1 & H2 & H3). rewrite Hp, number_cons in H1. rewrite number_cons.
    split_and!; [unfold open_of in *; cbn [gate set_gate sse_origins] in *; lia|exact H2|exact H3].
  - split_and!; [lia|lia|]. intros o'. destruct (Ho o') as (H1 & H2 & H3). rewrite Hp, number_cons in H1.
    unfold open_of, release in *. cbn [gate set_gate sse_origins]. destruct (decide (o = o')) as [->|Hne].
    + destruct (sse_origins (gate s) !! o') as [c|] eqn:Hc; cbn in *; [|lia]. case_decide.
      * rewrite lookup_delete_eq. cbn. split_and!; [lia|lia|done].
      * rewrite lookup_insert_eq. cbn. split_and!; [lia|lia|]. intros [=]. lia.
    + destruct (sse_origins (gate s) !! o) as [c|]; [|split_and!; [lia|done|done]]. case_decide.
      * rewrite lookup_delete_ne by done. split_and!; [lia|done|done].
      * rewrite lookup_insert_ne by done. split_and!; [lia|done|done].
Qed.

Lemma sse_inv_start max_t max_o : sse_inv max_t max_o (sse_start max_t max_o).
Proof. split_and!; try done; [cbn; lia|]. intros o. unfold open_of. cbn. rewrite lookup_empty. split_and!; [done|cbn; lia|done]. Qed.

(** Under every interleaving of callers entering and leaving, the streams open at
    one time never exceed the gate's total, nor those of one address its own limit; the
    map holds a positive count for exactly the addresses with an open stream; and once
    nobody is entering, refused or leaving the counters say exactly what is open, so
    that after the last stream has closed nothing of it remains. *)
Theorem sse_gate_sound max_t max_o s :
  0 < max_o -> rtc sse_step (sse_start max_t max_o) s ->
  N.of_nat (length (holding s)) <= max_t /\
  (forall o, number o (holding s) <= max_o) /\
  (forall o, is_Some (sse_origins (gate s) !! o) <-> 0 < number o (holding s) + number o (leaving s)) /\
  (entering s = [] -> refusing s = 0%nat -> leaving s = [] ->
     total (gate s) = N.of_nat (length (holding s)) /\ (holding s = [] -> sse_origins (gate s) = ∅)).
Proof.
  intros Hpos Hr. assert (sse_inv max_t max_o s) as (_ & _ & Htot & Hbound & Ho).
  { pose proof (sse_inv_start max_t max_o) as Hs. induction Hr as [|s s1 s' H1 _ IH]; [done|]. apply IH. by eapply sse_step_inv. }
  assert (forall o, is_Some (sse_origins (gate s) !! o) <-> 0 < number o (holding s) + number o (leaving s)) as Hdom.
  { intros o. destruct (Ho o) as (H1 & _ & H3). unfold open_of in H1. destruct (sse_origins (gate s) !! o) as [c|]; cbn in H1.
    - split; [|done]. intros _. destruct (decide (c = 0)) as [Hz|]; [|lia]. exfalso. by apply H3; rewrite Hz.
    - split; [by intros []|lia]. }
  split_and!; [lia| |done|].
  - intros o. destruct (Ho o) as (H1 & H2 & _). lia.
  - intros He Hn Hl. rewrite He, Hn in Htot. split; [rewrite Htot; cbn; lia|]. intros Hh. apply map_empty. intros o.
    destruct (sse_origins (gate s) !! o) eqn:Hs; [|done]. exfalso. assert (is_Some (sse_origins (gate s) !! o)) as Hi by (by rewrite Hs).
    apply Hdom in Hi. rewrite Hh, Hl in Hi. by apply N.lt_irrefl in Hi.
Qed.

(** Two callers from one address race for the only stream it may have: the first to
    take the lock gets it, the second is refused and takes the total back. *)
Definition one_stream : SseState :=
  {| gate := {| total := 1; sse_origins := {[7 := 1]}; max_total := 2; max_per_origin := 1 |};
     entering := []; refusing := 0; holding := [7]; leaving := [] |}.

Lemma one_stream_reachable : rtc sse_step (sse_start 2 1) one_stream.
Proof.
  eapply rtc_l; [apply (fetch_add_passes _ 7); vm_compute; reflexivity|].
  eapply rtc_l; [apply (fetch_add_passes _ 7); vm_compute; reflexivity|].
  eapply rtc_l; [apply (lock_grants _ 7 [7]); [apply Permutation_refl|vm_compute; reflexivity]|].
  eapply rtc_l; [apply (lock_refuses _ 7 []); [apply Permutation_refl|vm_compute; discriminate]|].
  eapply rtc_l; [apply (fetch_sub_refused _ 0); reflexivity|]. vm_compute. apply rtc_refl.
Qed.

Lemma sse_gate_sound_witness :
  rtc sse_step (sse_start 2 1) one_stream /\ number 7 (holding one_stream) <= 1 /\ total (gate one_stream) = 1.
Proof.
  split; [apply one_stream_reachable|]. destruct (sse_gate_sound 2 1 one_stream eq_refl one_stream_reachable) as (_ & H1 & _ & H2).
  split; [apply H1|]. exact (proj1 (H2 eq_refl eq_refl eq_refl)).
Defined.
