(* ===== verification/Analysis.v ===== *)
(** * Analysis: what the item page derives from a series of observations

    Models [crates/app-core/src/market/analysis.rs]: the extremes, mean and median of a
    market's whole history, its trends, the hour-of-day and day-of-week cycles, and the
    thinning of a series for a chart.  [analyse] is the whole reduction.  The [u128]
    sums cannot overflow (fewer than 2^64 prices of 64 bits) and are plain sums; the
    counters and the narrowing casts keep their width. *)
From stdpp Require Import prelude gmap sorting.
From S2P Require Import Prelude Time Market Engine.

Record Point := { pt_at : Millis; pt_price : Copper; pt_quantity : N }.

Record Trend := { tr_from : Copper; tr_to : Copper; tr_percent : Z; tr_known : bool }.
Definition Trend_UNKNOWN : Trend := {| tr_from := 0; tr_to := 0; tr_percent := 0; tr_known := false |}.
Definition between (from to : Copper) : Trend :=
  {| tr_from := from; tr_to := to;
     tr_percent := if decide (from = 0) then 0%Z
                   else as_i32 (Z.quot ((Z.of_N to - Z.of_N from) * 100) (Z.of_N from));
     tr_known := true |}.

Record Cycle := { cy_bucket : N; cy_mean : Copper; cy_samples : N }.

Record ItemAnalysis := {
  current : option Point; low : option Point; high : option Point; mean : Copper; ia_median : Copper;
  samples : N; first_seen : option Millis; day : Trend; week : Trend; month : Trend; volatility_percent : N;
  by_hour : list Cycle; by_weekday : list Cycle; best_hour : option N; best_weekday : option N; series : list Point }.

Definition DAY_MS : N := 24 * 60 * 60 * 1000.

Definition trend_over (points : list Point) (now : Millis) (window_ms : N) : Trend :=
  let cutoff := now - window_ms in
  match last points with
  | None => Trend_UNKNOWN
  | Some newest =>
      match find_first (fun p => bool_decide (cutoff <= pt_at p)) points with
      | Some oldest =>
          if decide (pt_at oldest = pt_at newest) then Trend_UNKNOWN else between (pt_price oldest) (pt_price newest)
      | None => Trend_UNKNOWN
      end
  end.

(** The running sum and count of each bucket that occurs. *)
Definition add_point (key : Millis -> N) (totals : gmap N (N * N)) (p : Point) : gmap N (N * N) :=
  let entry := default (0, 0) (totals !! key (pt_at p)) in
  <[key (pt_at p) := (entry.1 + pt_price p, wrap 32 (entry.2 + 1))]> totals.

Definition cycle_of (totals : gmap N (N * N)) (bucket : N) : Cycle :=
  match totals !! bucket with
  | Some (total, count) =>
      if decide (0 < count) then {| cy_bucket := bucket; cy_mean := total / count; cy_samples := count |}
      else {| cy_bucket := bucket; cy_mean := 0; cy_samples := 0 |}
  | None => {| cy_bucket := bucket; cy_mean := 0; cy_samples := 0 |}
  end.

Definition cycle (points : list Point) (buckets : nat) (key : Millis -> N) : list Cycle :=
  cycle_of (foldl (add_point key) ∅ points) <$> (N.of_nat <$> seq 0 buckets).

Definition MIN_PER_BUCKET : N := 3.

Definition cheapest_bucket (cycles : list Cycle) : option N :=
  if decide (Exists (fun c => cy_samples c < MIN_PER_BUCKET) cycles) then None
  else cy_bucket <$> min_by_key cy_mean (filter (fun c => 0 < cy_mean c) cycles).

Definition hour_of_day (at_ : Millis) : N := at_ / (60 * 60 * 1000) mod 24.
Definition weekday (at_ : Millis) : N := (at_ / DAY_MS + 3) mod 7.

Definition slice (points : list Point) (start stop : nat) : list Point := take (stop - start) (drop start points).

(** The slice of a bucket; [bucket * len / target] to the next one's start. *)
Definition bucket_slice (points : list Point) (target bucket : nat) : list Point :=
  let start := (bucket * length points / target)%nat in
  let stop := Nat.max ((bucket + 1) * length points / target) (start + 1) in
  slice points start (Nat.min stop (length points)).

Definition downsample (points : list Point) (target : nat) : list Point :=
  if decide (length points <= target \/ target = 0)%nat then points
  else omap (fun b => min_by_key pt_price (bucket_slice points target b)) (seq 0 target).

Definition empty_analysis : ItemAnalysis :=
  {| current := None; low := None; high := None; mean := 0; ia_median := 0; samples := 0; first_seen := None;
     day := Trend_UNKNOWN; week := Trend_UNKNOWN; month := Trend_UNKNOWN; volatility_percent := 0; by_hour := [];
     by_weekday := []; best_hour := None; best_weekday := None; series := [] |}.

Definition point_of (s : PriceSample) : Point :=
  {| pt_at := observed_at s; pt_price := p05_unit_price s; pt_quantity := ps_quantity s |}.

Definition volatility (low high : option Point) (mean : Copper) : N :=
  match low, high with
  | Some l, Some h => if decide (0 < mean) then wrap 32 ((pt_price h - pt_price l) * 100 / mean) else 0
  | _, _ => 0
  end.

Definition analyse (history : list PriceSample) (now : Millis) : ItemAnalysis :=
  let points := sort_by_key pt_at (point_of <$> history) in
  match points with
  | [] => empty_analysis
  | _ :: _ =>
      let low := min_by_key pt_price points in
      let high := max_by_key pt_price points in
      let mean := wrap 64 (sumN (pt_price <$> points) / N.of_nat (length points)) in
      let sorted := sort_unstable (pt_price <$> points) in
      let by_hour := cycle points 24 hour_of_day in
      let by_weekday := cycle points 7 weekday in
      {| current := last points; low := low; high := high; mean := mean;
         ia_median := nth (length sorted / 2) sorted 0;
         samples := N.of_nat (length points); first_seen := pt_at <$> head points;
         day := trend_over points now DAY_MS; week := trend_over points now (7 * DAY_MS);
         month := trend_over points now (30 * DAY_MS); volatility_percent := volatility low high mean;
         by_hour := by_hour; by_weekday := by_weekday; best_hour := cheapest_bucket by_hour;
         best_weekday := cheapest_bucket by_weekday; series := points |}
  end.

(** ** Thinning *)

(** What is left of a list from the bucket [b] on is that bucket's slice and the rest. *)
Lemma bucket_slice_drop points target b :
  (0 < target < length points)%nat -> (b < target)%nat ->
  let start b := (b * length points / target)%nat in
  drop (start b) points = bucket_slice points target b ++ drop (start (S b)) points /\ bucket_slice points target b <> [].
Proof.
  intros Ht Hb start. unfold bucket_slice, slice. fold (start b). replace (b + 1)%nat with (S b) by lia. fold (start (S b)).
  assert (start b + 1 <= start (S b))%nat as Hstep.
  { unfold start. replace (b * length points / target + 1)%nat with ((b * length points + 1 * target) / target)%nat
      by (rewrite Nat.div_add; lia). apply Nat.Div0.div_le_mono. lia. }
  assert (start (S b) <= length points)%nat as Hend.
  { unfold start. apply Nat.Div0.div_le_upper_bound. nia. }
  clearbody start. rewrite Nat.max_l, Nat.min_l by lia. split.
  - rewrite <- (take_drop (start (S b) - start b) (drop (start b) points)) at 1. f_equal. rewrite drop_drop. f_equal. lia.
  - intros Hn%(f_equal length). rewrite length_take, length_drop in Hn. cbn in Hn. lia.
Qed.

Lemma downsample_from points target n b :
  (0 < target < length points)%nat -> (b + n = target)%nat ->
  let kept := omap (fun b => min_by_key pt_price (bucket_slice points target b)) (seq b n) in
  let rest := drop (b * length points / target) points in
  length kept = n /\ kept `sublist_of` rest /\ (forall p, p ∈ rest -> exists q, q ∈ kept /\ pt_price q <= pt_price p).
Proof.
  intros Ht. revert b. induction n as [|n IH]; intros b Hb.
  - cbn zeta. replace b with target by lia. rewrite Nat.mul_comm, Nat.div_mul, drop_all by lia.
    split_and!; [done|done|]. by intros p ?%not_elem_of_nil.
  - destruct (bucket_slice_drop points target b Ht ltac:(lia)) as [Hdrop Hne]. destruct (IH (S b) ltac:(lia)) as (Hl & Hs & Hp).
    destruct (min_by_key_is_Some pt_price _ Hne) as [m Hm]. pose proof (min_by_key_spec _ _ _ Hm) as [Hin Hmin].
    cbn zeta in *. rewrite Hdrop. cbn [seq omap list_omap]. rewrite Hm. split_and!.
    + cbn [length]. by rewrite Hl.
    + change (m :: ?k) with ([m] ++ k). apply sublist_app; [|done]. by apply singleton_sublist_l.
    + intros p [Hp1|Hp2]%elem_of_app.
      * exists m. split; [left|]. by apply Hmin.
      * destruct (Hp p Hp2) as (q & Hq & Hle). exists q. split; [by right|done].
Qed.

(** Thinning a series to [target] points keeps [target] of them, in their order, and
    loses no dip: beside every point of the series stands one at most as dear. *)
Lemma downsample_keeps_dips points target :
  (0 < target)%nat ->
  length (downsample points target) = Nat.min (length points) target /\
  downsample points target `sublist_of` points /\
  (forall p, p ∈ points -> exists q, q ∈ downsample points target /\ pt_price q <= pt_price p).
Proof.
  intros Ht. unfold downsample. case_decide as Hc.
  - split_and!; [lia|done|]. intros p Hp. by exists p.
  - destruct (downsample_from points target target 0 ltac:(lia) ltac:(lia)) as (Hl & Hs & Hp). cbn zeta in *.
    rewrite Nat.Div0.div_0_l, drop_0 in Hs, Hp by lia. split_and!; [lia|done|done].
Qed.

(** ** Cycles *)

(** The observations of a bucket, and their average. *)
Definition in_bucket (key : Millis -> N) (bucket : N) (points : list Point) : list Point :=
  filter (fun p => key (pt_at p) = bucket) points.
Definition average (points : list Point) : N := sumN (pt_price <$> points) / N.of_nat (length points).

Lemma add_points_lookup key points b :
  foldl (add_point key) ∅ points !! b =
  match in_bucket key b points with
  | [] => None
  | g => Some (sumN (pt_price <$> g), wrap 32 (N.of_nat (length g)))
  end.
Proof.
  induction points as [|p points IH] using rev_ind; [done|]. rewrite foldl_app. cbn [foldl]. unfold add_point at 1.
  unfold in_bucket in *. rewrite filter_app, filter_cons, filter_nil. set (m := foldl _ _ points) in *.
  destruct (decide (key (pt_at p) = b)) as [->|Hne].
  - rewrite lookup_insert_eq, IH. destruct (filter _ points) as [|q g] eqn:Hg; [cbn [app fmap list_fmap length]; rewrite sumN_cons; cbn; do 2 f_equal; lia|].
    cbn [app]. f_equal. cbn [default from_option id fst snd]. f_equal.
    + rewrite app_comm_cons, fmap_app, sumN_app. cbn. lia.
    + rewrite app_comm_cons, length_app. cbn [length]. unfold wrap.
      rewrite N.Div0.add_mod_idemp_l. f_equal. lia.
  - rewrite lookup_insert_ne, app_nil_r by done. exact IH.
Qed.

Lemma cycle_lookup points n key b :
  N.of_nat (length points) < 2 ^ 32 -> (b < n)%nat ->
  cycle points n key !! b =
  let g := in_bucket key (N.of_nat b) points in
  Some {| cy_bucket := N.of_nat b; cy_mean := average g; cy_samples := N.of_nat (length g) |}.
Proof.
  intros Hlen Hb. unfold cycle. rewrite !list_lookup_fmap, lookup_seq_lt by done. cbn zeta. cbn [fmap option_fmap option_map].
  f_equal. unfold cycle_of. rewrite add_points_lookup. pose proof (length_filter (fun p => key (pt_at p) = N.of_nat b) points) as Hle.
  unfold average, in_bucket. destruct (filter _ points) as [|q g] eqn:Hg; [done|].
  rewrite wrap_small by lia. cbn [length]. rewrite decide_True by lia. done.
Qed.

Lemma length_cycle points n key : length (cycle points n key) = n.
Proof. unfold cycle. by rewrite !length_fmap, length_seq. Qed.

(** The cheapest bucket is named only when every bucket was seen three times, and is
    then one of the cheapest on average. *)
Lemma cheapest_bucket_spec points n key b :
  N.of_nat (length points) < 2 ^ 32 -> cheapest_bucket (cycle points n key) = Some b ->
  let g i := in_bucket key (N.of_nat i) points in
  (N.to_nat b < n)%nat /\ (forall i, (i < n)%nat -> (3 <= length (g i))%nat) /\
  (forall i, (i < n)%nat -> 0 < average (g i) -> average (g (N.to_nat b)) <= average (g i)).
Proof.
  intros Hlen Hb g. unfold cheapest_bucket in Hb. case_decide as Hex; [done|].
  apply fmap_Some in Hb as (c & [Hin Hmin]%min_by_key_spec & ->). apply list_elem_of_filter in Hin as [Hpos [j Hj]%list_elem_of_lookup].
  assert (j < n)%nat as Hjn by (apply lookup_lt_Some in Hj; by rewrite length_cycle in Hj).
  rewrite cycle_lookup in Hj by done. injection Hj as <-. cbn [cy_bucket cy_mean] in *. rewrite Nat2N.id. fold (g j) in *.
  split_and!; [done| |].
  - intros i Hi. apply not_Exists_Forall in Hex; [|apply _]. rewrite Forall_lookup in Hex.
    specialize (Hex i _ (cycle_lookup points n key i Hlen Hi)). cbn in Hex. unfold MIN_PER_BUCKET in Hex. unfold g. lia.
  - intros i Hi Ha. apply (Hmin {| cy_bucket := N.of_nat i; cy_mean := average (g i); cy_samples := N.of_nat (length (g i)) |}).
    apply list_elem_of_filter. split; [done|]. apply list_elem_of_lookup. exists i. by apply cycle_lookup.
Qed.

(** ** Trends *)

(** A trend over [w] is known exactly when the window holds two instants, and then
    compares the newest price with the oldest of the window. *)
Lemma trend_over_spec points now w :
  StronglySorted (fun p q => pt_at p <= pt_at q) points ->
  let t := trend_over points now w in
  (tr_known t = true <-> exists p q, p ∈ points /\ q ∈ points /\ now - w <= pt_at p /\ pt_at p < pt_at q) /\
  (tr_known t = true -> exists p q, p ∈ points /\ q ∈ points /\ t = between (pt_price p) (pt_price q) /\
     now - w <= pt_at p /\ forall x, x ∈ points -> pt_at x <= pt_at q /\ (now - w <= pt_at x -> pt_at p <= pt_at x)).
Proof.
  intros Hs t. unfold t, trend_over. destruct (last points) as [q|] eqn:Hq.
  2:{ apply last_None in Hq as ->. split; [|done]. split; [done|]. by intros (p & q & ?%not_elem_of_nil & _). }
  pose proof (sorted_last pt_at points q Hs Hq) as Hmax. pose proof (last_Some_elem_of _ _ Hq) as Hqin.
  destruct (find_first _ points) as [p|] eqn:Hp.
  2:{ split; [|done]. split; [done|]. intros (p & x & Hpin & _ & Hc & _). apply find_first_None with (x := p) in Hp; [|done].
      by rewrite bool_decide_eq_false in Hp. }
  pose proof (find_first_Some _ _ _ Hp) as [Hpin Hpc%bool_decide_eq_true].
  assert (forall x, x ∈ points -> now - w <= pt_at x -> pt_at p <= pt_at x) as Hmin.
  { intros x Hx Hc. apply (find_first_sorted pt_at _ _ _ Hs Hp); [done|]. by apply bool_decide_eq_true. }
  case_decide as He; cbn [tr_known Trend_UNKNOWN between].
  - split; [|done]. split; [done|]. intros (x & y & Hx & Hy & Hc & Hlt).
    specialize (Hmin x Hx Hc). specialize (Hmax y Hy). lia.
  - split.
    + split; [|done]. intros _. exists p, q. split_and!; [done|done|done|]. specialize (Hmax p Hpin). lia.
    + intros _. exists p, q. split_and!; [done|done|done|done|]. intros x Hx. split; [by apply Hmax|by apply Hmin].
Qed.

(** ** The whole reduction *)

(** What a page may conclude from a best hour or weekday: every bucket of the cycle was
    seen three times, and none with a price is cheaper on average. *)
Definition best_of (key : Millis -> N) (n : nat) (points : list Point) (best : option N) : Prop :=
  forall b, best = Some b ->
  let g i := in_bucket key (N.of_nat i) points in
  (N.to_nat b < n)%nat /\ (forall i, (i < n)%nat -> (3 <= length (g i))%nat) /\
  (forall i, (i < n)%nat -> 0 < average (g i) -> average (g (N.to_nat b)) <= average (g i)).

Definition trend_ok (points : list Point) (now : Millis) (w : N) (t : Trend) : Prop :=
  tr_known t = true <-> exists p q, p ∈ points /\ q ∈ points /\ now - w <= pt_at p /\ pt_at p < pt_at q.

(** The extremes carry the first instant of the lowest and the last of the highest price. *)
Lemma extremes_spec points l h :
  StronglySorted (fun p q => pt_at p <= pt_at q) points ->
  min_by_key pt_price points = Some l -> max_by_key pt_price points = Some h ->
  forall p, p ∈ points -> pt_price l <= pt_price p <= pt_price h /\
    (pt_price p = pt_price l -> pt_at l <= pt_at p) /\ (pt_price p = pt_price h -> pt_at p <= pt_at h).
Proof.
  intros Hs Hl Hh p Hp. pose proof (min_by_key_spec _ _ _ Hl) as [_ H1]. pose proof (max_by_key_spec _ _ _ Hh) as [_ H2].
  split; [split; auto|]. split; intros He.
  - apply min_by_key_first in Hl as (l1 & l2 & -> & Hl1 & _). apply elem_of_app in Hp as [Hp|Hp].
    + rewrite Forall_forall in Hl1. specialize (Hl1 p Hp). lia.
    + apply elem_of_cons in Hp as [->|Hp]; [done|]. apply StronglySorted_app in Hs as (_ & _ & Hs).
      apply StronglySorted_inv in Hs as [_ Hall]. rewrite Forall_forall in Hall. by apply Hall.
  - apply max_by_key_last in Hh as (l1 & l2 & -> & _ & Hl2). apply elem_of_app in Hp as [Hp|[->|Hp]%elem_of_cons].
    + apply StronglySorted_app in Hs as (Hs & _ & _). apply Hs; [done|left].
    + done.
    + rewrite Forall_forall in Hl2. specialize (Hl2 p Hp). lia.
Qed.

Lemma wrapped_mean_bounds l lo hi :
  l <> [] -> Forall (fun v => lo <= v <= hi) l -> hi < 2 ^ 64 -> lo <= wrap 64 (sumN l / N.of_nat (length l)) <= hi.
Proof.
  intros Hne Hl Hhi. pose proof (sumN_bounds l lo hi Hl) as [Hlo Hup].
  assert (0 < N.of_nat (length l)) as Hpos by (destruct l; [done|cbn; lia]). set (n := N.of_nat (length l)) in *. clearbody n.
  assert (sumN l / n <= hi) as Hq by (apply N.Div0.div_le_upper_bound; lia).
  rewrite wrap_small by lia. split; [|done]. apply N.div_le_lower_bound; lia.
Qed.

Lemma nth_in_sorted l i : (i < length l)%nat -> nth i (sort_unstable l) 0 ∈ l.
Proof.
  intros Hi. pose proof (sort_by_perm (fun x y => N.compare (id x) (id y)) l) as Hp. rewrite <- Hp at 2.
  apply list_elem_of_In, nth_In. fold (sort_by_key id l). unfold sort_unstable, sort_by_key. by rewrite Hp.
Qed.

Lemma analyse_samples history now : samples (analyse history now) = N.of_nat (length history).
Proof.
  unfold analyse. assert (sort_by_key pt_at (point_of <$> history) ≡ₚ point_of <$> history) as Hl%Permutation_length by apply sort_by_perm.
  rewrite length_fmap in Hl. rewrite <- Hl. by destruct (sort_by_key pt_at (point_of <$> history)).
Qed.

(** The item page's figures are those of the history.  Every observation is in the
    series, in the order of time; the low and the high are its extremes, with the first
    instant of the one and the last of the other; mean and median lie between them; a
    trend is known exactly when its window holds two instants; and a best hour or
    weekday is named only on three observations of each, and is one of the cheapest. *)
Theorem analysis_sound history now :
  Forall (fun s => p05_unit_price s <= u64_max) history -> N.of_nat (length history) < 2 ^ 32 ->
  let a := analyse history now in
  samples a = N.of_nat (length history) /\ series a ≡ₚ point_of <$> history /\
  StronglySorted (fun p q => pt_at p <= pt_at q) (series a) /\
  match low a, high a with
  | Some l, Some h =>
      l ∈ series a /\ h ∈ series a /\
      (forall p, p ∈ series a -> pt_price l <= pt_price p <= pt_price h /\
         (pt_price p = pt_price l -> pt_at l <= pt_at p) /\ (pt_price p = pt_price h -> pt_at p <= pt_at h)) /\
      pt_price l <= mean a <= pt_price h /\ pt_price l <= ia_median a <= pt_price h
  | _, _ => history = []
  end /\
  (trend_ok (series a) now DAY_MS (day a) /\ trend_ok (series a) now (7 * DAY_MS) (week a) /\
   trend_ok (series a) now (30 * DAY_MS) (month a)) /\
  best_of hour_of_day 24 (series a) (best_hour a) /\ best_of weekday 7 (series a) (best_weekday a).
Proof.
  intros Hprice Hlen a. unfold a, analyse. pose proof (sort_by_key_sorted pt_at (point_of <$> history)) as Hs.
  assert (sort_by_key pt_at (point_of <$> history) ≡ₚ point_of <$> history) as Hperm by apply sort_by_perm.
  pose proof (Permutation_length Hperm) as Hl. rewrite length_fmap in Hl.
  set (points := sort_by_key pt_at (point_of <$> history)) in *. clearbody points. destruct (decide (points = [])) as [->|Hne].
  - destruct history; [|done]. cbn. split_and!; try done; unfold trend_ok; cbn;
      (split; [done|]; by intros (x & y & ?%not_elem_of_nil & _)).
  - destruct (min_by_key_is_Some pt_price _ Hne) as [l Hmin]. destruct (max_by_key_is_Some pt_price _ Hne) as [h Hmax].
    pose proof (extremes_spec _ _ _ Hs Hmin Hmax) as Hext.
    pose proof (min_by_key_spec _ _ _ Hmin) as [Hlin _]. pose proof (max_by_key_spec _ _ _ Hmax) as [Hhin _].
    destruct points as [|p points']; [done|]. set (points := p :: points') in *.
    cbn [samples series low high mean ia_median day week month best_hour best_weekday]. rewrite Hmin, Hmax.
    assert (Forall (fun v => pt_price l <= v <= pt_price h) (pt_price <$> points)) as Hall.
    { apply Forall_fmap, Forall_forall. intros x Hx. by apply Hext. }
    assert (pt_price h <= u64_max) as Hh.
    { rewrite Hperm in Hhin. apply list_elem_of_fmap in Hhin as (s & -> & Hin). rewrite Forall_forall in Hprice. by apply Hprice. }
    assert (pt_price l <= wrap 64 (sumN (pt_price <$> points) / N.of_nat (length points)) <= pt_price h) as Hmean.
    { rewrite <- (length_fmap pt_price points). apply wrapped_mean_bounds; [done..|]. unfold u64_max in Hh. lia. }
    assert (forall i, (i < length (pt_price <$> points))%nat ->
      pt_price l <= nth i (sort_unstable (pt_price <$> points)) 0 <= pt_price h) as Hmed.
    { intros i Hi. rewrite Forall_forall in Hall. apply Hall. by apply nth_in_sorted. }
    assert (length (sort_unstable (pt_price <$> points)) = length (pt_price <$> points)) as Hsl.
    { apply Permutation_length, sort_by_perm. }
    specialize (Hmed (length (sort_unstable (pt_price <$> points)) / 2)%nat ltac:(rewrite Hsl; apply Nat.div_lt; cbn; lia)).
    split_and!; try done; try (intros b Hb; apply cheapest_bucket_spec; [by rewrite Hl|done]);
      try (apply trend_over_spec; done); try (by rewrite Hl); try apply Hmean; apply Hmed.
Qed.

(** Three days of a market, listed out of order: the low is seen first on the second
    day, and the trend over a day compares the last two. *)
Definition demo_history : list PriceSample :=
  (fun x => {| ps_item := 7; ps_region := Eu; observed_at := x.1 * DAY_MS; min_unit_price := x.2; p05_unit_price := x.2;
               median_unit_price := x.2; ps_quantity := 5; ps_listings := 1 |}) <$> [(3, 90); (1, 100); (2, 80)].

Lemma analysis_sound_witness :
  let a := analyse demo_history (3 * DAY_MS) in
  low a = Some {| pt_at := (2 * DAY_MS)%N; pt_price := 80; pt_quantity := 5 |} /\ mean a = 90 /\ ia_median a = 90 /\
  tr_percent (day a) = 12%Z /\ tr_known (day a) = true /\ samples a = 3.
Proof.
  assert (N.of_nat (length demo_history) < 2 ^ 32) as Hlen by (vm_compute; reflexivity).
  assert (Forall (fun s => p05_unit_price s <= u64_max) demo_history) as Hp by (repeat constructor; vm_compute; discriminate).
  pose proof (analysis_sound demo_history (3 * DAY_MS) Hp Hlen) as Ha. cbn zeta in Ha |- *. destruct Ha as (Hs & _).
  split_and!; [vm_compute; reflexivity..|exact Hs].
Defined.
