(* ===== verification/Correlate.v ===== *)
(** * Correlate: how a market moves, and what it moves with

    Models [crates/app-core/src/market/correlate.rs]: Spearman's rank correlation of
    price and listed stock ([Association]), the falls and rises along a path
    ([Swings]), the typical move between observations ([Stability]), the grid of the
    hours of a week with its stored form ([Heatmap]) and the comparison around a moment
    ([BeforeAfter]).  The floating-point parts are computed in [F64], with the square
    root rounded as IEEE 754 rounds it. *)
From Stdlib Require Import Ascii ZArith.
From stdpp Require Import prelude gmap sorting strings pretty.
From S2P Require Import Prelude Text F64 Time Market Engine.

Definition MIN_PAIRS : nat := 20.

(** ** Association *)

(** The square root of a non-negative double: of the two neighbouring doubles around
    the root the nearer one, ties to the even one. *)
Definition fsqrt (x : f64) : f64 :=
  let v := (x * one)%Z in
  let e := ulp_exp (Z.sqrt v) in
  let q := (Z.sqrt v / 2 ^ e)%Z in
  match (4 * v ?= ((2 * q + 1) * 2 ^ e) ^ 2)%Z with
  | Lt => (q * 2 ^ e)%Z
  | Gt => ((q + 1) * 2 ^ e)%Z
  | Eq => ((if Z.even q then q else q + 1) * 2 ^ e)%Z
  end.

Record Association := { rho_percent : Z; pairs : N }.

Module Strength.
Inductive t := None_ | Weak | Moderate | Strong.
End Strength.

(** [values[i]] of an index into the slice. *)
Definition value_at (values : list N) (i : nat) : N := nth i values 0.

(** The leading run of indices with the value of the first. *)
Fixpoint run_of (values : list N) (v : N) (order : list nat) : list nat :=
  match order with
  | x :: order' => if decide (value_at values x = v) then x :: run_of values v order' else []
  | [] => []
  end.

(** The average rank of the positions [i] to [j], counted from one. *)
Definition mid_rank (i j : nat) : f64 := fadd (fdiv (of_u64 (N.of_nat (i + j))) (lit 2 1)) (lit 1 1).

(** The outer loop of [ranks], from position [i] of the order on. *)
Fixpoint rank_runs (fuel : nat) (values : list N) (i : nat) (order : list nat) (out : list f64) : list f64 :=
  match fuel, order with
  | S fuel, x :: _ =>
      let run := run_of values (value_at values x) order in
      let j := (i + length run - 1)%nat in
      let out := foldl (fun out slot => <[slot := mid_rank i j]> out) out run in
      rank_runs fuel values (j + 1) (drop (length run) order) out
  | _, _ => out
  end.

Definition ranks (values : list N) : list f64 :=
  let order := sort_by_key (value_at values) (seq 0 (length values)) in
  rank_runs (length values) values 0 order (replicate (length values) 0%Z).

Definition fmean (xs : list f64) : f64 := fdiv (foldl fadd 0%Z xs) (of_u64 (N.of_nat (length xs))).

(** One turn of the loop that accumulates the covariance and both variances. *)
Definition accumulate_pair (ma mb : f64) (acc : f64 * f64 * f64) (r : f64 * f64) : f64 * f64 * f64 :=
  let '(cov, va, vb) := acc in
  let da := fsub r.1 ma in
  let db := fsub r.2 mb in
  (fadd cov (fmul da db), fadd va (fmul da da), fadd vb (fmul db db)).

Definition Association_of (a b : list N) : option Association :=
  let n := Nat.min (length a) (length b) in
  if decide (n < MIN_PAIRS)%nat then None
  else
    let ra := ranks (take n a) in
    let rb := ranks (take n b) in
    let '(cov, va, vb) := foldl (accumulate_pair (fmean ra) (fmean rb)) (0, 0, 0)%Z (zip ra rb) in
    if decide (va = 0 \/ vb = 0)%Z then None
    else
      let rho := fdiv cov (fmul (fsqrt va) (fsqrt vb)) in
      Some {| rho_percent := Z.quot (fclamp (fround (fmul rho (lit 100 1))) (lit (-100) 1) (lit 100 1)) one;
              pairs := wrap 32 (N.of_nat n) |}.

Definition strength (self : Association) : Strength.t :=
  let r := Z.abs (rho_percent self) in
  if decide (r <= 19)%Z then Strength.None_ else if decide (r <= 39)%Z then Strength.Weak
  else if decide (r <= 69)%Z then Strength.Moderate else Strength.Strong.

Definition wording (self : Association) : string :=
  if decide (Z.abs (rho_percent self) <= 19)%Z then "No association in this window"
  else if decide (rho_percent self < 0)%Z then "Higher prices associated with lower stock"
  else "Higher prices associated with more stock".

(** ** Swings *)
Record Swings := { drawdown_percent : N; rise_percent : N }.
Definition Swings_default : Swings := {| drawdown_percent := 0; rise_percent := 0 |}.

(** The loop's state: the running peak and trough, and the swings so far. *)
Definition swing_step (st : N * N * Swings) (price : N) : N * N * Swings :=
  let '(peak, trough, s) := st in
  let s := if decide (price < peak)
           then {| drawdown_percent := N.max (drawdown_percent s) (wrap 32 ((peak - price) * 100 / peak));
                   rise_percent := rise_percent s |} else s in
  let s := if decide (trough < price)
           then {| drawdown_percent := drawdown_percent s;
                   rise_percent := N.max (rise_percent s) (wrap 32 ((price - trough) * 100 / trough)) |} else s in
  (N.max peak price, N.min trough price, s).

Definition Swings_of (prices : list N) : Swings :=
  (foldl swing_step (0, u64_max, Swings_default) (filter (fun p => 0 < p) prices)).2.

(** ** Stability *)
Record Stability := { typical_move_percent : N; changes : N }.

(** [windows(2)]. *)
Definition pairs_of {A} (l : list A) : list (A * A) := zip l (tail l).

Definition changes_of (prices : list N) : list N :=
  (fun p => wrap 64 (abs_diff p.1 p.2 * 100 / p.1)) <$> filter (fun p => 0 < p.1) (pairs_of prices).

Definition Stability_of (prices : list N) : option Stability :=
  let changes := changes_of prices in
  if decide (length changes < MIN_PAIRS)%nat then None
  else
    let b := from_observations (imap (fun i change => (wrap 64 (N.of_nat i * 3600000), change)) changes) in
    q ← quantile b (lit 50 100);
    Some {| typical_move_percent := wrap 32 q; changes := wrap 32 (N.of_nat (length changes)) |}.

(** ** Hours of the week *)
Definition MIN_HEATMAP_CELLS : N := 56.
Definition CELLS : nat := 7 * 24.

Record Heatmap := { cells : list (option Copper); hm_samples : N; filled : N }.
Definition Heatmap_default : Heatmap := {| cells := []; hm_samples := 0; filled := 0 |}.

Definition week_cell (at_ : Millis) : N :=
  (at_ / (24 * 60 * 60 * 1000) + 3) mod 7 * 24 + at_ / 3600000 mod 24.

(** One group of the map into the grid. *)
Definition fill_cell (acc : list (option Copper) * N) (group : N * list (Millis * Copper)) : list (option Copper) * N :=
  match quantile (from_observations group.2) (lit 50 100) with
  | Some median => (<[N.to_nat group.1 := Some median]> acc.1, acc.2 + 1)
  | None => acc
  end.

Definition Heatmap_of (observations : list (Millis * Copper)) : Heatmap :=
  let grouped := group_by (fun o => week_cell o.1) id observations in
  let '(cells, filled) := foldl fill_cell (replicate CELLS None, 0) (entries grouped) in
  {| cells := cells; hm_samples := wrap 32 (N.of_nat (length observations)); filled := wrap 32 filled |}.

Definition is_usable (self : Heatmap) : bool := bool_decide (MIN_HEATMAP_CELLS <= filled self).

(** [cells.iter().flatten()]. *)
Definition held (self : Heatmap) : list Copper := omap id (cells self).

Definition range (self : Heatmap) : option (Copper * Copper) :=
  lo ← min_by_key id (held self);
  hi ← max_by_key id (held self);
  Some (lo, hi).

Definition cheapest (self : Heatmap) : option (N * N) :=
  if is_usable self then
    c ← min_by_key snd (omap (fun ic => (fun price => (ic.1, price)) <$> ic.2) (imap pair (cells self)));
    Some (N.of_nat c.1 / 24, N.of_nat c.1 mod 24)
  else None.

Definition field_of (cell : option Copper) : string := match cell with Some price => pretty price | None => "" end.

Definition Heatmap_encode (self : Heatmap) : string :=
  if decide (filled self = 0) then ""
  else join ","%char (field_of <$> cells self) +:+ String ";"%char (pretty (hm_samples self)).

Definition Heatmap_decode (raw : string) : Heatmap :=
  let '(grid, samples) := default (raw, "0") (split_once ";"%char raw) in
  match grid with
  | EmptyString => Heatmap_default
  | _ =>
      let cells := parse_u64 <$> take CELLS (split ","%char grid) in
      {| cells := cells; hm_samples := default 0 (parse_u32 samples);
         filled := wrap 32 (N.of_nat (length (omap id cells))) |}
  end.

(** ** Before and after a moment *)
Definition MIN_EITHER_SIDE : N := 12.

Record BeforeAfter := {
  before_median : Copper; after_median : Copper; before_samples : N; after_samples : N; change_percent : Z }.

Definition is_before (at_ : Millis) (span : N) (o : Millis * Copper) : bool :=
  bool_decide (o.1 < at_ /\ at_ - o.1 <= span).
Definition is_after (at_ : Millis) (span : N) (o : Millis * Copper) : bool :=
  negb (is_before at_ span o) && bool_decide (at_ <= o.1 /\ o.1 - at_ <= span).

Definition BeforeAfter_of (observations : list (Millis * Copper)) (at_ : Millis) (span : N) : option BeforeAfter :=
  let b := from_observations (filter (fun o => is_before at_ span o = true) observations) in
  let a := from_observations (filter (fun o => is_after at_ span o = true) observations) in
  before ← quantile b (lit 50 100);
  after ← quantile a (lit 50 100);
  Some {| before_median := before; after_median := after; before_samples := wrap 32 (len b);
          after_samples := wrap 32 (len a); change_percent := percent_from after before |}.

Definition is_supported (self : BeforeAfter) : bool :=
  bool_decide (MIN_EITHER_SIDE <= before_samples self /\ MIN_EITHER_SIDE <= after_samples self).
