(* ===== verification/CorrelateLaws.v ===== *)
(** * CorrelateLaws: the relationship measures are what they are documented to be

    [ranks] is the mid-rank of each value, so the association depends on the order of
    the prices alone, whichever way round it is asked; it refuses exactly below twenty
    pairs or when a series never moves.  [Swings_of] is the worst fall and the best rise
    between any two moments in their order.  The week's grid holds the median of each
    hour of the week that was observed, and reads back from its stored form. *)
From Stdlib Require Import Ascii ZArith.
From stdpp Require Import prelude gmap sorting strings pretty.
From S2P Require Import Prelude Text F64 Time Market Engine EngineLaws Series Correlate.

(** ** Ranks *)
(** How many values are below [v], and how many equal it. *)
Definition below (values : list N) (v : N) : nat := length (filter (fun x => x < v) values).
Definition equal (values : list N) (v : N) : nat := length (filter (fun x => x = v) values).

(** The reference: each value at the middle of the positions its equals take up. *)
Definition mid_ranks (values : list N) : list f64 :=
  (fun v => mid_rank (below values v) (below values v + equal values v - 1)) <$> values.

Lemma run_of_sorted values v order :
  StronglySorted (fun x y => value_at values x <= value_at values y) order -> Forall (fun x => v <= value_at values x) order ->
  run_of values v order = filter (fun x => value_at values x = v) order /\
  drop (length (run_of values v order)) order = filter (fun x => v < value_at values x) order.
Proof.
  induction 1 as [|x order Hs IH Hall]; [done|]. intros [Hx Hge]%Forall_cons. cbn [run_of]. rewrite !filter_cons.
  destruct (decide (value_at values x = v)) as [He|Hne].
  - rewrite decide_False by lia. cbn [length drop]. destruct (IH Hge) as [-> ->]. done.
  - rewrite decide_True by lia. cbn [length drop].
    assert (Forall (fun y => v < value_at values y) order) as Hgt by (eapply Forall_impl; [exact Hall|]; cbn; intros; lia).
    split; [|by rewrite filter_all]. symmetry. apply filter_none. eapply Forall_impl; [exact Hgt|]. cbn. intros. lia.
Qed.

Lemma foldl_insert_out (r : f64) run out k :
  Forall (fun x => x < length out)%nat run ->
  foldl (fun out slot => <[slot := r]> out) out run !! k = if decide (k ∈ run) then Some r else out !! k.
Proof.
  revert out. induction run as [|x run IH]; intros out Hlt; [done|]. apply Forall_cons in Hlt as [Hx Hlt]. cbn [foldl].
  rewrite IH by (by rewrite length_insert). destruct (decide (k ∈ run)) as [Hin|Hin].
  - rewrite decide_True by (by right). done.
  - destruct (decide (k = x)) as [->|Hne].
    + rewrite decide_True by left. by rewrite list_lookup_insert_eq.
    + rewrite decide_False by (rewrite elem_of_cons; tauto). by rewrite list_lookup_insert_ne.
Qed.

Lemma length_foldl_insert (r : f64) run out : length (foldl (fun out slot => <[slot := r]> out) out run) = length out.
Proof. revert out. induction run as [|x run IH]; intros out; [done|]. cbn. rewrite IH. apply length_insert. Qed.

Definition count_at (values : list N) (P : N -> Prop) `{forall x, Decision (P x)} (order : list nat) : nat :=
  length (filter (fun x => P (value_at values x)) order).

(** The counts below and at a value split at a smaller one. *)
Lemma count_at_split values v w order :
  Forall (fun x => v <= value_at values x) order -> v < w ->
  count_at values (fun x => x < w) order =
    (length (filter (fun x => value_at values x = v) order) +
     count_at values (fun x => x < w)%N (filter (fun x => v < value_at values x)%N order))%nat /\
  count_at values (fun x => x = w) order = count_at values (fun x => x = w) (filter (fun x => v < value_at values x) order).
Proof.
  intros Hge Hvw. unfold count_at. induction Hge as [|x order Hx _ [IH1 IH2]]; [done|]. rewrite !filter_cons.
  destruct (decide (value_at values x = v)) as [He|Hne].
  - rewrite (decide_False (P := v < value_at values x)), (decide_True (P := value_at values x < w)), (decide_False (P := value_at values x = w)) by lia.
    cbn [length]. rewrite IH1, IH2. split; lia.
  - rewrite (decide_True (P := v < value_at values x)) by lia. rewrite !filter_cons.
    split; [destruct (decide (value_at values x < w))|destruct (decide (value_at values x = w))]; cbn [length]; rewrite ?IH1, ?IH2; lia.
Qed.

Lemma rank_runs_spec values fuel : forall i order out k,
  StronglySorted (fun x y => value_at values x <= value_at values y) order -> Forall (fun x => x < length out)%nat order ->
  (length order <= fuel)%nat ->
  rank_runs fuel values i order out !! k =
  if decide (k ∈ order) then
    let v := value_at values k in let b := (i + count_at values (fun x => x < v)%N order)%nat in
    Some (mid_rank b (b + count_at values (fun x => x = v) order - 1))
  else out !! k.
Proof.
  induction fuel as [|fuel IH]; intros i order out k Hs Hlt Hfuel.
  { destruct order; [|cbn in Hfuel; lia]. done. }
  destruct order as [|x order']; [done|]. cbn [rank_runs]. set (order := x :: order') in *. set (v := value_at values x).
  assert (Forall (fun y => v <= value_at values y) order) as Hge.
  { apply StronglySorted_inv in Hs as [_ Hall]. constructor; [done|]. exact Hall. }
  destruct (run_of_sorted values v order Hs Hge) as [Hrun Hrest]. 
  assert (run_of values v order <> []) as Hne.
  { unfold order. cbn [run_of]. rewrite decide_True by done. done. }
  assert (0 < length (run_of values v order))%nat as Hpos by (destruct (run_of values v order); [done|cbn; lia]).
  rewrite Hrest. rewrite Hrun in *. set (run := filter (fun y => value_at values y = v) order) in *.
  replace (i + length run - 1 + 1)%nat with (i + length run)%nat by lia.
  assert (Forall (fun y => y < length out)%nat run) as Hlr by (by apply Forall_filter).
  pose proof (length_filter (fun y => v < value_at values y) order) as Hlf.
  assert (length (filter (fun y => v < value_at values y)%N order) < length order)%nat as Hless.
  { rewrite <- Hrest, length_drop. cbn [order length] in *. lia. }
  rewrite IH; [|by apply StronglySorted_filter|rewrite length_foldl_insert; by apply Forall_filter|cbn [order length] in *; lia].
  rewrite foldl_insert_out by done. rewrite Forall_forall in Hge.
  destruct (decide (k ∈ order)) as [Hin|Hnin].
  2:{ rewrite decide_False by (rewrite list_elem_of_filter; tauto). unfold run. by rewrite decide_False by (rewrite list_elem_of_filter; tauto). }
  pose proof (Hge k Hin) as Hk. destruct (decide (value_at values k = v)) as [He|Hkv].
  - rewrite decide_False by (rewrite list_elem_of_filter; lia). rewrite decide_True by (unfold run; by rewrite list_elem_of_filter).
    cbn zeta. rewrite He. assert (count_at values (fun x0 => x0 < v) order = 0%nat) as ->.
    { unfold count_at. apply length_zero_iff_nil, filter_none, Forall_forall. intros y Hy. specialize (Hge y Hy). lia. }
    replace (i + 0)%nat with i by lia. reflexivity.
  - rewrite decide_True by (rewrite list_elem_of_filter; split; [lia|done]). cbn zeta. set (w := value_at values k) in *.
    destruct (count_at_split values v w order) as [H1 H2]; [by apply Forall_forall|lia|]. rewrite H1, H2. fold run. f_equal. f_equal; lia.
Qed.

Lemma values_at values : value_at values <$> seq 0 (length values) = values.
Proof.
  apply list_eq. intros k. rewrite list_lookup_fmap. destruct (decide (k < length values)%nat) as [Hk|Hk].
  - rewrite lookup_seq_lt by done. cbn. unfold value_at. destruct (lookup_lt_is_Some_2 values k Hk) as [v Hv]. by rewrite (nth_lookup_Some values k 0 v Hv).
  - rewrite lookup_seq_ge by lia. by rewrite lookup_ge_None_2 by lia.
Qed.

(** The loop over runs computes the mid-ranks. *)
Lemma ranks_mid_ranks values : ranks values = mid_ranks values.
Proof.
  unfold ranks, mid_ranks. set (order := sort_by_key _ _).
  assert (order ≡ₚ seq 0 (length values)) as Hp by apply sort_by_perm.
  assert (forall (P : N -> Prop) `{forall x, Decision (P x)}, count_at values P order = length (filter P values)) as Hcount.
  { intros P HP. unfold count_at. rewrite Hp. by rewrite <- (length_filter_fmap (value_at values) P), values_at. }
  apply list_eq. intros k. rewrite rank_runs_spec.
  - rewrite list_lookup_fmap. destruct (decide (k < length values)%nat) as [Hk|Hk].
    + rewrite decide_True by (rewrite Hp; apply elem_of_seq; lia). destruct (lookup_lt_is_Some_2 values k Hk) as [v Hv].
      rewrite Hv. cbn. unfold value_at. rewrite (nth_lookup_Some values k 0 v Hv), !Hcount. reflexivity.
    + rewrite decide_False by (rewrite Hp, elem_of_seq; lia). rewrite (lookup_ge_None_2 values) by lia.
      by rewrite lookup_ge_None_2 by (rewrite length_replicate; lia).
  - apply sort_by_key_sorted.
  - rewrite length_replicate. apply Forall_forall. intros x. rewrite Hp, elem_of_seq. lia.
  - rewrite Hp, length_seq. done.
Qed.

(** ** Exact ranks *)
Definition half : f64 := (2 ^ 1073)%Z.

Lemma one_half : one = (2 * half)%Z.
Proof. with_strategy transparent [one] unfold one. unfold half. rewrite <- Z.pow_succ_r by lia. done. Qed.

Lemma half_pos : (0 < half)%Z.
Proof. apply Z.pow_pos_nonneg; lia. Qed.

Lemma representable_half m : (Z.abs m <= 2 ^ 53)%Z -> representable (m * half).
Proof. intros Hm. exists m, 1073%Z. split_and!; [lia|done|done]. Qed.

Lemma mid_rank_exact i j : (Z.of_nat (i + j) + 2 <= 2 ^ 53)%Z -> mid_rank i j = ((Z.of_nat (i + j) + 2) * half)%Z.
Proof.
  intros Hm. unfold mid_rank. pose proof half_pos. pose proof one_pos.
  assert (lit 2 1 = 2 * one)%Z as -> by (unfold lit; rewrite <- (Z.mul_1_r (2 * one)) at 1; apply rnd_exact; [apply representable_int; lia|lia]).
  assert (lit 1 1 = one)%Z as -> by (unfold lit; rewrite Z.mul_1_l, <- (Z.mul_1_r one) at 1; apply rnd_exact; [|lia];
    rewrite <- (Z.mul_1_l one); apply representable_int; lia).
  rewrite of_u64_exact by lia. set (m := Z.of_nat (i + j)) in *. replace (Z.of_N (N.of_nat (i + j))) with m by lia.
  unfold fdiv. replace (m * one * one)%Z with (m * half * (2 * one))%Z by (rewrite one_half; lia).
  rewrite rnd_exact by (first [apply representable_half; lia|lia]). unfold fadd.
  replace (m * half + one)%Z with ((m + 2) * half * 1)%Z by (rewrite one_half; lia). rewrite rnd_exact; [done|apply representable_half; lia|lia].
Qed.

(** The running sum of equal ranks is exact while it stays below 2^52. *)
Lemma sum_constant c k : forall n,
  (0 <= c)%Z -> ((k + Z.of_nat n) * c <= 2 ^ 53)%Z -> (0 <= k)%Z ->
  foldl fadd (k * c * half)%Z (replicate n (c * half)%Z) = ((k + Z.of_nat n) * c * half)%Z.
Proof.
  intros n Hc. revert k. induction n as [|n IH]; intros k Hb Hk; [cbn; f_equal; lia|]. cbn [replicate foldl].
  assert (fadd (k * c * half) (c * half) = (k + 1) * c * half)%Z as ->.
  { unfold fadd. replace (k * c * half + c * half)%Z with ((k + 1) * c * half * 1)%Z by lia.
    rewrite rnd_exact; [done|apply representable_half; nia|lia]. }
  rewrite IH; [f_equal; lia|nia|lia].
Qed.

Lemma fmean_constant c n :
  (0 < n)%nat -> (0 <= c)%Z -> (Z.of_nat n * c <= 2 ^ 53)%Z -> (Z.of_nat n <= 2 ^ 53)%Z ->
  fmean (replicate n (c * half)%Z) = (c * half)%Z.
Proof.
  intros Hn Hc Hb Hn'. unfold fmean. rewrite length_replicate. pose proof (sum_constant c 0 n Hc ltac:(lia) ltac:(lia)) as Hs.
  rewrite !Z.mul_0_l, Z.add_0_l in Hs. rewrite Hs, of_u64_exact by lia. pose proof one_pos. unfold fdiv.
  replace (Z.of_N (N.of_nat n)) with (Z.of_nat n) by lia.
  replace (Z.of_nat n * c * half * one)%Z with (c * half * (Z.of_nat n * one))%Z by lia.
  apply rnd_exact; [apply representable_half; nia|lia].
Qed.

(** Ranks are at least one, and so is their mean. *)
Lemma fmean_ge_one xs :
  xs <> [] -> Forall (fun r => (one <= r)%Z) xs -> (Z.of_nat (length xs) <= 2 ^ 53)%Z -> (one <= fmean xs)%Z.
Proof.
  intros Hne Hxs Hlen. pose proof one_pos.
  assert (forall acc k, (0 <= k)%Z -> (k + Z.of_nat (length xs) <= 2 ^ 53)%Z -> (k * one <= acc)%Z ->
    ((k + Z.of_nat (length xs)) * one <= foldl fadd acc xs)%Z) as Hsum.
  { clear Hne Hlen. induction Hxs as [|r xs Hr _ IH]; intros acc k Hk Hb Ha; cbn [foldl length] in *; [nia|].
    replace (k + Z.of_nat (S (length xs)))%Z with ((k + 1) + Z.of_nat (length xs))%Z by lia. apply IH; [lia|lia|].
    apply fadd_ge; [apply representable_int; lia|lia]. }
  specialize (Hsum 0%Z 0%Z ltac:(lia) ltac:(lia) ltac:(lia)). assert (0 < length xs)%nat by (destruct xs; [done|cbn; lia]).
  unfold fmean. rewrite of_u64_exact by lia. unfold fdiv.
  apply rnd_ge; [rewrite <- (Z.mul_1_l one); apply representable_int; lia|nia|]. nia.
Qed.

(** ** Variance *)
Definition grain : f64 := (2 ^ 1022)%Z.

Lemma grain_pos : (0 < grain)%Z.
Proof. apply Z.pow_pos_nonneg; lia. Qed.

Lemma grain_half : half = (2 ^ 51 * grain)%Z.
Proof. unfold half, grain. by rewrite <- Z.pow_add_r by lia. Qed.

Lemma representable_grain : representable grain.
Proof. exists 1%Z, 1022%Z. split_and!; [lia|lia|]. unfold grain. lia. Qed.

Lemma rnd_zero d : (0 < d)%Z -> rnd 0 d = 0%Z.
Proof. intros Hd. exact (rnd_exact 0 d representable_0 Hd). Qed.

(** A double from 1.0 on is a multiple of 2^-52. *)
Lemma rnd_grain n d : (0 < d)%Z -> (one <= rnd n d)%Z -> (grain | rnd n d)%Z.
Proof.
  intros Hd Hone. pose proof one_pos as Hop. destruct (decide (n <= one * d)%Z) as [Hle|Hgt].
  - assert (rnd n d = one) as ->.
    { apply Z.le_antisymm; [|done]. apply rnd_le; [|done|done]. rewrite <- (Z.mul_1_l one). apply representable_int. lia. }
    exists (2 ^ 52)%Z. rewrite one_half, grain_half. lia.
  - with_strategy transparent [rnd] unfold rnd. rewrite decide_False by nia. unfold rnd_pos.
    assert (1022 <= ulp_exp (n / d))%Z as He.
    { unfold ulp_exp. apply Z.max_le_iff. right. assert (1074 <= Z.log2 (n / d))%Z; [|lia].
      apply Z.log2_le_pow2; [apply Z.div_str_pos; nia|]. apply Z.div_le_lower_bound; [done|].
      with_strategy transparent [one] unfold one in Hgt. lia. }
    set (e := ulp_exp (n / d)) in *. clearbody e. exists (rne n (d * 2 ^ e) * 2 ^ (e - 1022))%Z. unfold grain.
    rewrite <- Z.mul_assoc, <- Z.pow_add_r by lia. do 2 f_equal. lia.
Qed.

(** The square of a deviation vanishes only with the deviation. *)
Lemma square_zero r m : (grain | r)%Z -> (grain | m)%Z -> fmul (fsub r m) (fsub r m) = 0%Z <-> r = m.
Proof.
  intros Hr Hm. pose proof grain_pos as Hg. split.
  2:{ intros ->. pose proof one_pos. unfold fsub, fmul. rewrite Z.sub_diag. rewrite (rnd_zero 1), Z.mul_0_l by lia. by apply rnd_zero. }
  intros Hz. destruct (decide (r = m)) as [|Hne]; [done|]. exfalso.
  assert (grain <= Z.abs (fsub r m))%Z as Hd.
  { pose proof (Z.divide_sub_r _ _ _ Hr Hm) as [q Hq]. assert (q <> 0)%Z by (intros ->; lia). unfold fsub. rewrite Hq.
    destruct (decide (0 < q)%Z).
    - assert (grain <= rnd (q * grain) 1)%Z; [|lia]. apply rnd_ge; [apply representable_grain|lia|nia].
    - assert (rnd (q * grain) 1 <= - grain)%Z; [|lia]. apply rnd_le; [|lia|nia]. destruct representable_grain as (k & e & ? & ? & ->).
      exists (-k)%Z, e. split_and!; [done|lia|lia]. }
  set (d := fsub r m) in *. clearbody d. assert (1 <= fmul d d)%Z; [|lia]. unfold fmul.
  apply rnd_ge; [apply representable_small; lia|apply one_pos|]. assert (grain * grain <= d * d)%Z by nia.
  assert (one <= grain * grain)%Z; [|lia]. rewrite one_half, grain_half.
  assert (2 ^ 52 <= grain)%Z by (unfold grain; apply Z.pow_le_mono_r; lia). nia.
Qed.

(** The variance loop, by itself. *)
Definition add_square (m : f64) (acc r : f64) : f64 := fadd acc (fmul (fsub r m) (fsub r m)).

Lemma fmul_square_nonneg x : (0 <= fmul x x)%Z.
Proof. unfold fmul. apply rnd_ge; [apply representable_0|apply one_pos|]. nia. Qed.

Lemma fadd_zero x y : (0 <= x)%Z -> (0 <= y)%Z -> fadd x y = 0%Z <-> x = 0%Z /\ y = 0%Z.
Proof.
  intros Hx Hy. split.
  - intros Hz. destruct (decide (x + y = 0)%Z); [lia|]. exfalso. assert (1 <= fadd x y)%Z; [|lia].
    apply fadd_ge; [apply representable_small; lia|lia].
  - intros [-> ->]. unfold fadd. change (0 + 0)%Z with (0 * 1)%Z. apply rnd_exact; [apply representable_0|lia].
Qed.

Lemma variance_zero m xs : forall acc, (0 <= acc)%Z ->
  (0 <= foldl (add_square m) acc xs)%Z /\
  (foldl (add_square m) acc xs = 0%Z <-> acc = 0%Z /\ Forall (fun r => fmul (fsub r m) (fsub r m) = 0%Z) xs).
Proof.
  induction xs as [|r xs IH]; intros acc Ha; cbn [foldl]; [split; [done|]; split; [by intros ->|tauto]|].
  pose proof (fmul_square_nonneg (fsub r m)) as Hsq. assert (0 <= add_square m acc r)%Z as Hs.
  { apply fadd_ge; [apply representable_0|lia]. }
  destruct (IH _ Hs) as [Hnn Hz]. split; [done|]. rewrite Hz, Forall_cons. unfold add_square. rewrite fadd_zero by done. tauto.
Qed.

(** ** The association *)
Definition constant (l : list N) : Prop := forall x y, x ∈ l -> y ∈ l -> x = y.

(** Twice the mid-rank of a value, a whole number. *)
Definition place_of (values : list N) (v : N) : Z := (2 * Z.of_nat (below values v) + Z.of_nat (equal values v) + 1)%Z.

Lemma below_equal values v : (below values v + equal values v <= length values)%nat.
Proof.
  unfold below, equal. induction values as [|x l IH]; [done|]. rewrite !filter_cons.
  destruct (decide (x < v)), (decide (x = v)); cbn [length]; lia.
Qed.

Lemma below_lt values v w : v < w -> (below values v + equal values v <= below values w)%nat.
Proof.
  intros Hvw. unfold below, equal. induction values as [|x l IH]; [done|]. rewrite !filter_cons.
  destruct (decide (x < v)), (decide (x = v)), (decide (x < w)); cbn [length]; lia.
Qed.

Lemma equal_pos values v : v ∈ values -> (1 <= equal values v)%nat.
Proof.
  intros Hv. unfold equal. assert (v ∈ filter (fun x => x = v) values) as Hin by (by apply list_elem_of_filter).
  destruct (filter _ values); [by apply not_elem_of_nil in Hin|cbn; lia].
Qed.

Lemma place_of_inj values v w : v ∈ values -> w ∈ values -> place_of values v = place_of values w -> v = w.
Proof.
  intros Hv%equal_pos Hw%equal_pos Heq. unfold place_of in Heq. destruct (N.lt_trichotomy v w) as [Hlt|[?|Hlt]]; [|done|];
    apply (below_lt values) in Hlt; lia.
Qed.

Lemma mid_ranks_exact values :
  N.of_nat (length values) <= 2 ^ 26 -> mid_ranks values = (fun v => (place_of values v * half)%Z) <$> values.
Proof.
  intros Hlen. apply list_fmap_ext. intros k v Hv%list_elem_of_lookup_2. pose proof (below_equal values v). pose proof (equal_pos values v Hv).
  rewrite mid_rank_exact by lia. unfold place_of. f_equal. lia.
Qed.

Lemma constant_replicate l : constant l -> l <> [] -> exists v, l = replicate (length l) v.
Proof.
  destruct l as [|v l]; [done|]. intros Hc _. exists v. symmetry. apply replicate_as_Forall. split; [done|].
  apply Forall_forall. intros x Hx. apply Hc; [left|done].
Qed.

Lemma variance_constant values :
  values <> [] -> N.of_nat (length values) <= 2 ^ 26 ->
  foldl (add_square (fmean (mid_ranks values))) 0%Z (mid_ranks values) = 0%Z <-> constant values.
Proof.
  intros Hne Hlen. pose proof half_pos. pose proof grain_pos. pose proof one_half as Hone. rewrite mid_ranks_exact by done. set (rs := _ <$> values).
  assert (forall r, r ∈ rs -> (one <= r)%Z /\ (grain | r)%Z) as Hrs.
  { intros r (v & -> & Hv)%list_elem_of_fmap. pose proof (equal_pos values v Hv). unfold place_of. split; [rewrite Hone; nia|].
    rewrite grain_half. rewrite Z.mul_assoc. apply Z.divide_factor_r. }
  assert (length rs = length values) as Hl by apply length_fmap.
  assert (one <= fmean rs)%Z as Hmean.
  { apply fmean_ge_one; [intros Hn; rewrite Hn in Hl; by destruct values|apply Forall_forall; intros r Hr; by apply Hrs|lia]. }
  assert (grain | fmean rs)%Z as Hg.
  { unfold fmean in *. rewrite of_u64_exact in * by lia. pose proof one_pos. assert (0 < length values)%nat by (destruct values; [done|cbn; lia]).
    apply rnd_grain; [nia|done]. }
  destruct (variance_zero (fmean rs) rs 0%Z ltac:(lia)) as [_ ->]. rewrite Forall_forall. split.
  - intros [_ Hz] x y Hx Hy. apply (place_of_inj values); [done..|].
    assert (forall v, v ∈ values -> (place_of values v * half)%Z = fmean rs) as Hv.
    { intros v Hv. assert (place_of values v * half ∈ rs)%Z as Hin by (apply list_elem_of_fmap; by exists v).
      apply square_zero; [by apply Hrs|done|by apply Hz]. }
    pose proof (Hv x Hx). pose proof (Hv y Hy). nia.
  - intros Hc. split; [done|]. intros r Hr. apply square_zero; [by apply Hrs|done|].
    destruct (constant_replicate values Hc Hne) as [v Hv]. set (n := length values) in *.
    assert (rs = replicate n ((Z.of_nat n + 1) * half)%Z) as Hrep.
    { assert (forall g : N -> Z, g <$> values = replicate n (g v)) as Hfm by (intros g; rewrite Hv; apply fmap_replicate).
      unfold rs. rewrite Hfm. f_equal. f_equal. unfold place_of, below, equal. clearbody n. rewrite Hv.
      rewrite filter_none, filter_all, length_replicate; [cbn; lia|by apply Forall_replicate|apply Forall_replicate; lia]. }
    assert (0 < n)%nat by (unfold n; destruct values; [done|cbn; lia]).
    rewrite Hrep in Hr. apply elem_of_replicate in Hr as [-> _]. rewrite Hrep. symmetry. apply fmean_constant; [done|lia|nia|lia].
Qed.

(** The loop's two variances, and what it does with its arguments exchanged. *)
Lemma accumulate_vars ma mb ra : forall rb c a b, length ra = length rb ->
  exists cov, foldl (accumulate_pair ma mb) (c, a, b) (zip ra rb) = (cov, foldl (add_square ma) a ra, foldl (add_square mb) b rb).
Proof.
  induction ra as [|x ra IH]; intros [|y rb] c a b Hl; try done; [by eexists|]. cbn [zip zip_with foldl accumulate_pair fst snd].
  apply IH. cbn in Hl. lia.
Qed.

Lemma fmul_comm x y : fmul x y = fmul y x.
Proof. unfold fmul. by rewrite Z.mul_comm. Qed.

Lemma accumulate_swap ma mb ra : forall rb c a b,
  foldl (accumulate_pair mb ma) (c, b, a) (zip rb ra) =
  let '(cov, va, vb) := foldl (accumulate_pair ma mb) (c, a, b) (zip ra rb) in (cov, vb, va).
Proof.
  induction ra as [|x ra IH]; intros [|y rb] c a b; try done. cbn [zip zip_with foldl accumulate_pair fst snd].
  rewrite (fmul_comm (fsub y mb)). apply IH.
Qed.

Lemma mid_ranks_mono (f : N -> N) values :
  (forall x y, x ∈ values -> y ∈ values -> x < y -> f x < f y) -> mid_ranks (f <$> values) = mid_ranks values.
Proof.
  intros Hf. unfold mid_ranks. rewrite <- list_fmap_compose. apply list_fmap_ext. intros k v Hv%list_elem_of_lookup_2. cbn.
  assert (forall l, (forall x, x ∈ l -> x ∈ values) -> below (f <$> l) (f v) = below l v /\ equal (f <$> l) (f v) = equal l v) as Hcount.
  { intros l. unfold below, equal. induction l as [|x l IH]; intros Hl; [done|]. cbn [fmap list_fmap]. rewrite !filter_cons.
    destruct (IH ltac:(set_solver)) as [H1 H2]. assert (x ∈ values) as Hx by (apply Hl; left).
    pose proof (Hf x v Hx Hv) as Hxv. pose proof (Hf v x Hv Hx) as Hvx.
    destruct (N.lt_trichotomy x v) as [Hlt|[->|Hlt]].
    - rewrite (decide_True (P := f x < f v)), (decide_True (P := x < v)), (decide_False (P := f x = f v)), (decide_False (P := x = v)) by lia.
      cbn [length]. by rewrite H1, H2.
    - rewrite !(decide_False (P := _ < _)), !decide_True by lia. cbn [length]. by rewrite H1, H2.
    - rewrite (decide_False (P := f x < f v)), (decide_False (P := x < v)), (decide_False (P := f x = f v)), (decide_False (P := x = v)) by lia.
      by rewrite H1, H2. }
  destruct (Hcount values ltac:(done)) as [-> ->]. done.
Qed.

Lemma length_ranks values : length (ranks values) = length values.
Proof. rewrite ranks_mid_ranks. apply length_fmap. Qed.

Lemma Association_of_swap a b : Association_of b a = Association_of a b.
Proof.
  unfold Association_of. rewrite (Nat.min_comm (length b)). set (n := Nat.min _ _). case_decide; [done|].
  rewrite (accumulate_swap (fmean (ranks (take n a))) (fmean (ranks (take n b)))).
  destruct (foldl _ _ (zip (ranks (take n a)) _)) as [[cov va] vb].
  destruct (decide (vb = 0 \/ va = 0)%Z), (decide (va = 0 \/ vb = 0)%Z); try tauto. by rewrite (fmul_comm (fsqrt vb)).
Qed.

Lemma Association_of_None a b :
  let n := Nat.min (length a) (length b) in
  N.of_nat n <= 2 ^ 26 ->
  Association_of a b = None <-> (n < MIN_PAIRS)%nat \/ constant (take n a) \/ constant (take n b).
Proof.
  intros n Hn. unfold Association_of. fold n. case_decide as Hmin; [tauto|].
  assert (length (take n a) = n /\ length (take n b) = n) as [Ha Hb] by (rewrite !length_take; lia).
  assert (forall l : list N, length l = n -> l <> []) as Hne by (intros [|x l]; [cbn; unfold MIN_PAIRS in Hmin; lia|done]).
  destruct (accumulate_vars (fmean (ranks (take n a))) (fmean (ranks (take n b))) (ranks (take n a)) (ranks (take n b)) 0%Z 0%Z 0%Z) as [cov ->];
    [by rewrite !length_ranks, Ha, Hb|]. rewrite !ranks_mid_ranks.
  pose proof (variance_constant (take n a) (Hne _ Ha) ltac:(rewrite Ha; lia)) as Hva.
  pose proof (variance_constant (take n b) (Hne _ Hb) ltac:(rewrite Hb; lia)) as Hvb.
  destruct (decide _) as [Hz|Hz]; rewrite Hva, Hvb in Hz.
  - split; [intros _; by right|reflexivity].
  - split; [discriminate|]. intros [Hc|Hc]; [destruct (Hmin Hc)|destruct (Hz Hc)].
Qed.

Lemma clamp_percent x : (-100 <= Z.quot (fclamp x (lit (-100) 1) (lit 100 1)) one <= 100)%Z.
Proof.
  pose proof one_pos. assert (forall k, (Z.abs k <= 100)%Z -> lit k 1 = (k * one)%Z) as Hlit.
  { intros k Hk. unfold lit. rewrite <- (Z.mul_1_r (k * one)) at 1. apply rnd_exact; [apply representable_int; lia|lia]. }
  rewrite !Hlit by lia. unfold fclamp. set (y := Z.max _ _). assert (-100 * one <= y <= 100 * one)%Z by lia. clearbody y.
  pose proof (Z.quot_le_mono (-100 * one) y one ltac:(lia) ltac:(lia)) as H1. pose proof (Z.quot_le_mono y (100 * one) one ltac:(lia) ltac:(lia)) as H2.
  rewrite !Z.quot_mul in * by lia. lia.
Qed.

(** C31: Price and stock are associated by rank and nothing else.  The measure refuses
    exactly below twenty pairs or when one of the series never moves; else it counts
    the pairs and lies between -100 and 100; it is the same whichever series comes
    first; and replacing the prices by any others in the same order, however far out
    an outlier is moved, leaves it alone. *)
Theorem association_by_rank a b :
  let n := Nat.min (length a) (length b) in
  N.of_nat n <= 2 ^ 26 ->
  (Association_of a b = None <-> (n < 20)%nat \/ constant (take n a) \/ constant (take n b)) /\
  (forall r, Association_of a b = Some r -> pairs r = N.of_nat n /\ (-100 <= rho_percent r <= 100)%Z) /\
  Association_of b a = Association_of a b /\
  (forall f, (forall x y, x ∈ a -> y ∈ a -> x < y -> f x < f y) -> Association_of (f <$> a) b = Association_of a b).
Proof.
  intros n Hn. split_and!.
  - by apply Association_of_None.
  - intros r. unfold Association_of. fold n. case_decide; [done|]. destruct (foldl _ _ _) as [[cov va] vb]. case_decide; [done|].
    intros [= <-]. cbn [pairs rho_percent]. split; [|apply clamp_percent]. apply wrap_small. lia.
  - apply Association_of_swap.
  - intros f Hf. unfold Association_of. rewrite length_fmap. fold n. rewrite <- fmap_take, !ranks_mid_ranks, mid_ranks_mono; [done|].
    intros x y Hx%elem_of_take Hy%elem_of_take. destruct Hx as (i & Hx%list_elem_of_lookup_2 & _), Hy as (j & Hy%list_elem_of_lookup_2 & _). by apply Hf.
Qed.

(** Twenty hours of a rising price over a falling stock; the last price is then moved
    a thousandfold. *)
Definition rising : list N := (fun i => 100 + N.of_nat i) <$> seq 0 20.
Definition falling : list N := (fun i => 500 - N.of_nat i) <$> seq 0 20.
Definition far_out (x : N) : N := if decide (x = 119) then 119000 else x.

Lemma association_by_rank_witness :
  N.of_nat (Nat.min (length rising) (length falling)) <= 2 ^ 26 /\
  Association_of (far_out <$> rising) falling = Association_of rising falling /\
  Association_of rising falling <> None.
Proof.
  assert (N.of_nat (Nat.min (length rising) (length falling)) <= 2 ^ 26) as Hn by (vm_compute; discriminate). split; [exact Hn|].
  destruct (association_by_rank rising falling Hn) as (H0 & _ & _ & Hf). split.
  - apply Hf. intros x y _ Hy Hxy. unfold far_out. case_decide; case_decide; try lia.
    apply list_elem_of_fmap in Hy as (i & -> & Hi%elem_of_seq). lia.
  - intros Hc%H0. destruct Hc as [Hc|[Hc|Hc]].
    + apply (Nat.lt_irrefl 20). exact Hc.
    + assert (100 = 101) as Hx by (apply Hc; apply list_elem_of_lookup; [exists 0%nat|exists 1%nat]; reflexivity). discriminate Hx.
    + assert (500 = 499) as Hx by (apply Hc; apply list_elem_of_lookup; [exists 0%nat|exists 1%nat]; reflexivity). discriminate Hx.
Defined.

(** ** Swings *)

(** [q] is seen after [p]. *)
Definition later (l : list N) (p q : N) : Prop := exists l1 l2 l3, l = l1 ++ p :: l2 ++ q :: l3.

(** How far [q] is below, and above, [p], in percent of [p]. *)
Definition fall (p q : N) : N := (p - q) * 100 / p.
Definition rise (p q : N) : N := (q - p) * 100 / p.

(** [m] is the greatest value of a measure over the pairs in their order. *)
Definition greatest (measure : N -> N -> N) (l : list N) (m : N) : Prop :=
  (forall p q, later l p q -> measure p q <= m) /\ (m = 0 \/ exists p q, later l p q /\ measure p q = m).

Lemma later_snoc l x p q : later (l ++ [x]) p q <-> later l p q \/ (p ∈ l /\ q = x).
Proof.
  split.
  - intros (l1 & l2 & l3 & Heq). destruct l3 as [|y l3 _] using rev_ind.
    + right. rewrite app_comm_cons, app_assoc in Heq. apply app_inj_tail in Heq as [-> ->]. split; [|done].
      apply elem_of_app. right. left.
    + left. exists l1, l2, l3. rewrite !app_comm_cons, !app_assoc in Heq. apply app_inj_tail in Heq as [-> _].
      by rewrite <- !app_assoc.
  - intros [(l1 & l2 & l3 & ->)|[(l1 & l2 & ->)%list_elem_of_split ->]].
    + exists l1, l2, (l3 ++ [x]). by rewrite <- !app_assoc; cbn; rewrite <- app_assoc.
    + exists l1, l2, []. by rewrite <- app_assoc.
Qed.

Lemma div_le_cross x a y b : 0 < a -> 0 < b -> x * b <= y * a -> x / a <= y / b.
Proof. intros Ha Hb Hxy. apply N.div_le_lower_bound; [lia|]. pose proof (N.Div0.mul_div_le x a). nia. Qed.

Lemma fall_mono p p' q : 0 < p -> p <= p' -> fall p q <= fall p' q.
Proof. intros Hp Hpp. unfold fall. destruct (decide (q <= p)); [apply div_le_cross; nia|]. replace (p - q) with 0 by lia. rewrite N.mul_0_l, N.Div0.div_0_l. apply N.le_0_l. Qed.

Lemma rise_mono p p' q : 0 < p' -> p' <= p -> rise p q <= rise p' q.
Proof. intros Hp Hpp. unfold rise. destruct (decide (p <= q)); [apply div_le_cross; nia|]. replace (q - p) with 0 by lia. rewrite N.mul_0_l, N.Div0.div_0_l. apply N.le_0_l. Qed.

Lemma fall_zero p q : p <= q -> fall p q = 0.
Proof. intros Hle. unfold fall. replace (p - q) with 0 by lia. rewrite N.mul_0_l. apply N.Div0.div_0_l. Qed.

Lemma rise_zero p q : q <= p -> rise p q = 0.
Proof. intros Hle. unfold rise. replace (q - p) with 0 by lia. rewrite N.mul_0_l. apply N.Div0.div_0_l. Qed.

Lemma fall_le_100 p q : fall p q <= 100.
Proof. unfold fall. apply N.Div0.div_le_upper_bound. nia. Qed.

(** Taking in one more price: the extreme seen so far decides. *)
Lemma greatest_snoc measure l m x e :
  greatest measure l m -> e ∈ l -> (forall p, p ∈ l -> measure p x <= measure e x) ->
  greatest measure (l ++ [x]) (N.max m (measure e x)).
Proof.
  intros [Hub Hex] He Hbest. split.
  - intros p q [Hl|[Hp ->]]%later_snoc; [specialize (Hub p q Hl)|specialize (Hbest p Hp)]; lia.
  - destruct (N.max_spec m (measure e x)) as [[_ ->]|[_ ->]].
    + right. exists e, x. split; [|done]. apply later_snoc. by right.
    + destruct Hex as [->|(p & q & Hl & Hm)]; [by left|]. right. exists p, q. split; [|done]. apply later_snoc. by left.
Qed.

Lemma greatest_same measure l m x :
  greatest measure l m -> (forall p, p ∈ l -> measure p x = 0) -> greatest measure (l ++ [x]) m.
Proof.
  intros [Hub Hex] Hz. split.
  - intros p q [Hl|[Hp ->]]%later_snoc; [by apply Hub|]. rewrite Hz by done. lia.
  - destruct Hex as [->|(p & q & Hl & Hm)]; [by left|]. right. exists p, q. split; [|done]. apply later_snoc. by left.
Qed.

(** The loop's state after the prices [l]. *)
Definition swing_inv (l : list N) (st : N * N * Swings) : Prop :=
  let '(peak, trough, s) := st in
  (l = [] /\ peak = 0 /\ trough = u64_max \/ peak ∈ l /\ trough ∈ l) /\
  (forall p, p ∈ l -> trough <= p <= peak) /\
  greatest fall l (drawdown_percent s) /\ greatest rise l (rise_percent s).

Lemma swing_loop_inv l :
  Forall (fun p => 0 < p <= u64_max) l -> (forall p q, p ∈ l -> q ∈ l -> rise p q < 2 ^ 32) ->
  swing_inv l (foldl swing_step (0, u64_max, Swings_default) l).
Proof.
  induction l as [|x l IH] using rev_ind; intros Hpos Hw.
  { cbn. split_and!; [by left|by intros p ?%not_elem_of_nil|..]; (split; [|by left]); by intros p q ([|] & l2 & l3 & ?). }
  rewrite foldl_app. cbn [foldl]. apply Forall_app in Hpos as [Hpos [Hx _]%Forall_cons].
  specialize (IH Hpos ltac:(set_solver)). destruct (foldl _ _ l) as [[peak trough] s]. destruct IH as (Hends & Hb & Hf & Hr).
  rewrite Forall_forall in Hpos. unfold swing_step, swing_inv. split_and!.
  - right. rewrite !elem_of_app, !list_elem_of_singleton. destruct Hends as [(-> & -> & ->)|[Hp Ht]]; [split; right; lia|].
    split; [destruct (N.max_spec peak x) as [[_ ->]|[_ ->]]|destruct (N.min_spec trough x) as [[_ ->]|[_ ->]]]; auto.
  - intros p [Hp|Hp]%elem_of_app; [specialize (Hb p Hp); lia|]. apply list_elem_of_singleton in Hp as ->. lia.
  - assert (forall t, drawdown_percent (if decide (trough < x) then {| drawdown_percent := drawdown_percent t;
      rise_percent := N.max (rise_percent t) (wrap 32 ((x - trough) * 100 / trough)) |} else t) = drawdown_percent t) as ->
      by (intros t; by case_decide). case_decide as Hlt; cbn [drawdown_percent].
    + destruct Hends as [(-> & -> & ->)|[Hp Ht]]; [lia|]. pose proof (fall_le_100 peak x). fold (fall peak x). rewrite wrap_small by lia.
      apply greatest_snoc; [done|done|]. intros p Hin. apply fall_mono; [by apply Hpos|by apply Hb].
    + apply greatest_same; [done|]. intros p Hin. apply fall_zero. specialize (Hb p Hin). lia.
  - set (s' := if decide (x < peak) then _ else s). assert (rise_percent s' = rise_percent s) as Hs by (unfold s'; by case_decide).
    clearbody s'. case_decide as Hlt; cbn [rise_percent]; rewrite Hs.
    + destruct Hends as [(-> & -> & ->)|[Hp Ht]]; [lia|]. fold (rise trough x). rewrite wrap_small by (apply Hw; set_solver).
      apply greatest_snoc; [done|done|]. intros p Hin. apply rise_mono; [by apply Hpos|by apply Hb].
    + apply greatest_same; [done|]. intros p Hin. apply rise_zero. specialize (Hb p Hin). lia.
Qed.

(** One pass over the prices finds the worst fall and the best rise between any two of
    them in their order, prices of zero left out, unless a rise is so steep that its
    percentage does not fit 32 bits. *)
Theorem swings_between_any_two prices :
  Forall (fun p => p <= u64_max) prices ->
  (forall p q, p ∈ prices -> q ∈ prices -> 0 < p -> rise p q < 2 ^ 32) ->
  let seen := filter (fun p => 0 < p) prices in
  greatest fall seen (drawdown_percent (Swings_of prices)) /\ greatest rise seen (rise_percent (Swings_of prices)).
Proof.
  intros Hu Hw seen. rewrite Forall_forall in Hu.
  assert (swing_inv seen (foldl swing_step (0, u64_max, Swings_default) seen)) as Hinv.
  { apply swing_loop_inv.
    - apply Forall_forall. intros p [Hp Hin]%list_elem_of_filter. split; [done|by apply Hu].
    - intros p q [Hp Hin]%list_elem_of_filter [_ Hq]%list_elem_of_filter. by apply Hw. }
  unfold Swings_of. fold seen. destruct (foldl _ _ seen) as [[peak trough] s]. by destruct Hinv as (_ & _ & Hf & Hr).
Qed.

Lemma swings_between_any_two_witness :
  drawdown_percent (Swings_of [100; 140; 200; 180; 150]) = 25 /\
  greatest rise [100; 140; 200; 180; 150] (rise_percent (Swings_of [100; 140; 200; 180; 150])).
Proof.
  split; [reflexivity|]. apply (swings_between_any_two [100; 140; 200; 180; 150]).
  - repeat constructor; vm_compute; discriminate.
  - intros p q Hp Hq Hpos. unfold rise. apply N.Div0.div_lt_upper_bound. repeat (apply elem_of_cons in Hq as [->|Hq]; [nia|]). by apply not_elem_of_nil in Hq.
Defined.

(** A rise from one copper to fifty million is reported as some other percentage. *)
Example steep_rise_wraps : rise 1 50000000 = 4999999900 /\ rise_percent (Swings_of [1; 50000000]) = 705032604.
Proof. split; reflexivity. Qed.

(** ** The grid of the week *)
Definition median_of (obs : list (Millis * Copper)) : option Copper := quantile (from_observations obs) (lit 50 100).

Lemma median_of_nil obs : median_of obs = None <-> obs = [].
Proof. unfold median_of. rewrite quantile_None. apply from_observations_nil. Qed.

Lemma held_insert (c : list (option Copper)) k m :
  c !! k = Some None -> length (omap id (<[k := Some m]> c)) = S (length (omap id c)).
Proof.
  revert k. induction c as [|x c IH]; intros [|k] Hk; try done.
  - injection Hk as ->. done.
  - cbn in Hk |- *. destruct x; cbn [length]; by rewrite IH.
Qed.

(** Filling the grid from groups under different cells. *)
Lemma fill_cells_spec groups : forall c f,
  NoDup groups.*1 ->
  Forall (fun g => g.1 < N.of_nat (length c) /\ g.2 <> [] /\ c !! N.to_nat g.1 = Some None) groups ->
  let '(c', f') := foldl fill_cell (c, f) groups in
  length c' = length c /\ f' = f + N.of_nat (length groups) /\
  length (omap id c') = (length (omap id c) + length groups)%nat /\
  (forall k obs, (N.of_nat k, obs) ∈ groups -> c' !! k = Some (median_of obs)) /\
  (forall k, N.of_nat k ∉ groups.*1 -> c' !! k = c !! k).
Proof.
  induction groups as [|[k obs] groups IH]; intros c f Hnd Hok.
  { cbn [foldl length]. split_and!; [done|lia|by rewrite Nat.add_0_r|by intros k obs ?%not_elem_of_nil|done]. }
  apply NoDup_cons in Hnd as [Hk Hnd]. apply Forall_cons in Hok as [(Hlt & Hne & Hc) Hok]. cbn [foldl fst snd] in *.
  destruct (median_of obs) as [m|] eqn:Hm; [|by apply median_of_nil in Hm].
  assert (fill_cell (c, f) (k, obs) = (<[N.to_nat k := Some m]> c, f + 1)) as -> by (unfold fill_cell; cbn [fst snd]; fold (median_of obs); by rewrite Hm).
  specialize (IH (<[N.to_nat k := Some m]> c) (f + 1) Hnd). rewrite length_insert in IH.
  assert (Forall (fun g => g.1 < N.of_nat (length c) /\ g.2 <> [] /\ <[N.to_nat k := Some m]> c !! N.to_nat g.1 = Some None) groups) as Hok'.
  { rewrite Forall_forall in *. intros g Hg. destruct (Hok g Hg) as (H1 & H2 & H3). split_and!; [done|done|].
    rewrite list_lookup_insert_ne; [done|]. intros Heq. apply Hk. apply list_elem_of_fmap. exists g. split; [lia|done]. }
  specialize (IH Hok'). destruct (foldl _ _ groups) as [c' f']. destruct IH as (H1 & H2 & H3 & H4 & H5).
  rewrite held_insert in H3 by done. cbn [length]. split_and!; [done|lia|lia| |].
  - intros k' obs' [Heq|Hin]%elem_of_cons; [|by apply H4]. injection Heq as <- <-. rewrite Nat2N.id in *.
    rewrite H5 by done. rewrite list_lookup_insert_eq; [by rewrite Hm|lia].
  - intros k' Hk'. rewrite fmap_cons, not_elem_of_cons in Hk'. destruct Hk' as [Hne' Hk']. rewrite H5 by done.
    apply list_lookup_insert_ne. cbn in Hne'. lia.
Qed.

Lemma week_cell_lt at_ : week_cell at_ < 168.
Proof.
  unfold week_cell. assert ((at_ / (24 * 60 * 60 * 1000) + 3) mod 7 < 7) by (apply N.mod_lt; lia).
  assert (at_ / 3600000 mod 24 < 24) by (apply N.mod_lt; lia). lia.
Qed.

(** The observations of one hour of the week. *)
Definition of_cell (k : nat) (obs : list (Millis * Copper)) : list (Millis * Copper) :=
  filter (fun o => week_cell o.1 = N.of_nat k) obs.

Lemma Heatmap_of_spec obs :
  N.of_nat (length obs) < 2 ^ 32 ->
  let h := Heatmap_of obs in
  length (cells h) = CELLS /\ hm_samples h = N.of_nat (length obs) /\ filled h = N.of_nat (length (held h)) /\
  (forall k, (k < CELLS)%nat -> cells h !! k = Some (median_of (of_cell k obs))) /\ (obs <> [] -> 0 < filled h).
Proof.
  intros Hlen h. unfold h, Heatmap_of. set (grouped := group_by _ _ _).
  assert (forall k, grouped !! k = match filter (fun o => week_cell o.1 = k) obs with [] => None | g => Some g end) as Hgrp.
  { intros k. unfold grouped. rewrite group_by_lookup. by rewrite list_fmap_id. }
  pose proof (fill_cells_spec (entries grouped) (replicate CELLS None) 0 (keys_NoDup grouped)) as Hfill.
  assert (Forall (fun g => g.1 < N.of_nat (length (replicate CELLS (None : option Copper))) /\ g.2 <> [] /\
    replicate CELLS (None : option Copper) !! N.to_nat g.1 = Some None) (entries grouped)) as Hok.
  { apply Forall_forall. intros [k g] Hg%elem_of_entries. rewrite Hgrp in Hg. cbn [fst snd]. rewrite length_replicate.
    destruct (filter _ obs) as [|o l] eqn:Hf; [done|]. injection Hg as <-.
    assert (o ∈ filter (fun o => week_cell o.1 = k) obs) as Hin by (rewrite Hf; left). apply list_elem_of_filter in Hin as [<- _].
    pose proof (week_cell_lt o.1) as Hw. unfold CELLS. split_and!; [lia|done|]. apply lookup_replicate. split; [done|lia]. }
  specialize (Hfill Hok). destruct (foldl _ _ (entries grouped)) as [c f]. destruct Hfill as (H1 & H2 & H3 & H4 & H5).
  rewrite length_replicate in H1. cbn [cells hm_samples filled held].
  assert (length (omap id (replicate CELLS (None : option Copper))) = 0%nat) as Hz by reflexivity. rewrite Hz in H3.
  assert (N.of_nat (length (entries grouped)) <= 168) as Hsz.
  { rewrite Nat.add_0_l in H3. rewrite <- H3. assert (length (omap id c) <= length c)%nat; [|unfold CELLS in *; lia].
    clear. induction c as [|[x|] c IH]; cbn; lia. }
  rewrite !wrap_small by lia. unfold held. cbn [cells]. split_and!; [done|done|lia| |].
  - intros k Hk. pose proof (Hgrp (N.of_nat k)) as Hg. fold (of_cell k obs) in Hg. destruct (of_cell k obs) as [|o l] eqn:Ho.
    + rewrite H5. { rewrite (proj2 (median_of_nil []) eq_refl). apply lookup_replicate. by split. }
      fold (keys grouped). rewrite elem_of_keys, Hg. by intros [].
    + apply H4. by apply elem_of_entries.
  - intros Hne. destruct obs as [|o obs]; [done|]. assert (is_Some (grouped !! week_cell o.1)) as [g Hg].
    { rewrite Hgrp. rewrite filter_cons, decide_True by done. by eexists. }
    apply elem_of_entries in Hg. destruct (entries grouped); [by apply not_elem_of_nil in Hg|]. cbn [length] in H2. lia.
Qed.

Lemma join_has_char c d l : c <> d -> Forall (fun p => has_char d p = false) l -> has_char d (join c l) = false.
Proof.
  intros Hcd Hl. induction Hl as [|p l Hp Hl IH]; [done|]. destruct l as [|q l]; [done|].
  change (join c (p :: q :: l)) with (p +:+ String c (join c (q :: l))). rewrite has_char_app, Hp. cbn [has_char orb].
  by rewrite bool_decide_eq_false_2 by done.
Qed.

Lemma Heatmap_roundtrip h :
  length (cells h) = CELLS -> Forall (fun c => from_option (fun p => p <= u64_max) True c) (cells h) ->
  filled h = N.of_nat (length (held h)) -> 0 < filled h -> hm_samples h <= u32_max ->
  Heatmap_decode (Heatmap_encode h) = h.
Proof.
  intros Hl Hp Hf Hpos Hs. unfold Heatmap_encode, Heatmap_decode. rewrite decide_False by lia.
  assert (forall d, is_digit d = false -> Forall (fun p => has_char d p = false) (field_of <$> cells h)) as Hsep.
  { intros d Hd. apply Forall_fmap, Forall_true. intros [p|]; [by apply pretty_has_char|done]. }
  rewrite split_once_app by (apply join_has_char; [done|by apply Hsep]). cbn [default from_option id].
  assert (split ","%char (join ","%char (field_of <$> cells h)) = field_of <$> cells h) as Hsj.
  { apply split_join; [|by apply Hsep]. by destruct (cells h). }
  destruct (join ","%char (field_of <$> cells h)) as [|a s] eqn:Hj.
  { cbn in Hsj. apply (f_equal length) in Hsj. rewrite length_fmap, Hl in Hsj. done. }
  rewrite Hsj, take_ge by (rewrite length_fmap; lia).
  assert (parse_u64 <$> (field_of <$> cells h) = cells h) as Hc.
  { clear -Hp. induction Hp as [|c l Hc _ IH]; [done|]. rewrite !fmap_cons, IH. f_equal. destruct c; [by apply parse_pretty|done]. }
  rewrite Hc, parse_pretty by done. cbn [default from_option id]. fold (held h). destruct h as [cs n f]. cbn [cells hm_samples filled] in *.
  f_equal. rewrite Hf. apply wrap_small. unfold held in *. cbn [cells] in *.
  assert (length (omap id cs) <= length cs)%nat; [|unfold CELLS in *; lia]. clear. induction cs as [|[x|] c IH]; cbn; lia.
Qed.

Lemma cheapest_spec h d hr :
  length (cells h) = CELLS -> cheapest h = Some (d, hr) ->
  MIN_HEATMAP_CELLS <= filled h /\ d < 7 /\ hr < 24 /\
  exists price, cells h !! N.to_nat (d * 24 + hr) = Some (Some price) /\ forall p, p ∈ held h -> price <= p.
Proof.
  intros Hl. unfold cheapest. destruct (is_usable h) eqn:Hu; [|done]. apply bool_decide_eq_true in Hu.
  intros ((k & price) & [Hin Hmin]%min_by_key_spec & [= <- <-])%bind_Some. cbn [fst snd] in *.
  assert (cells h !! k = Some (Some price)) as Hj.
  { apply list_elem_of_omap in Hin as ([i c] & Hi & Hc). cbn [fst snd] in Hc. apply fmap_Some in Hc as (p & -> & [= -> ->]).
    apply elem_of_lookup_imap in Hi as (j & y & Heq & Hj). injection Heq as -> <-. exact Hj. }
  pose proof (lookup_lt_Some _ _ _ Hj) as Hlt. rewrite Hl in Hlt. unfold CELLS in Hlt.
  pose proof (N.div_mod (N.of_nat k) 24 ltac:(lia)) as Hdm. pose proof (N.mod_lt (N.of_nat k) 24 ltac:(lia)) as Hml.
  split_and!; [done|apply N.Div0.div_lt_upper_bound; lia|done|]. exists price. split; [by replace (N.to_nat _) with k by lia|].
  intros p Hp. unfold held in Hp. apply list_elem_of_omap in Hp as (c & Hc & Hcp). cbn in Hcp. subst c.
  apply list_elem_of_lookup in Hc as [m Hm]. apply (Hmin (m, p)). apply list_elem_of_omap. exists (m, Some p). split; [|done].
  apply elem_of_lookup_imap. by exists m, (Some p).
Qed.

(** The grid of the week is the week's.  Each of its 168 cells holds the median of the
    observations of that hour of that weekday and is a hole exactly where there are
    none; it counts what it holds; an hour is named the cheapest only when a third of
    the week was seen, and then none of the grid is cheaper; and what was observed
    reads back from its stored text as it was. *)
Theorem heatmap_faithful obs :
  N.of_nat (length obs) < 2 ^ 32 -> Forall (fun o => o.2 <= u64_max) obs ->
  let h := Heatmap_of obs in
  length (cells h) = CELLS /\ hm_samples h = N.of_nat (length obs) /\ filled h = N.of_nat (length (held h)) /\
  (forall k, (k < CELLS)%nat -> cells h !! k = Some (median_of (of_cell k obs)) /\ (median_of (of_cell k obs) = None <-> of_cell k obs = [])) /\
  (forall d hr, cheapest h = Some (d, hr) -> 56 <= filled h /\ d < 7 /\ hr < 24 /\
     exists price, cells h !! N.to_nat (d * 24 + hr) = Some (Some price) /\ forall p, p ∈ held h -> price <= p) /\
  (obs <> [] -> Heatmap_decode (Heatmap_encode h) = h).
Proof.
  intros Hlen Hp h. destruct (Heatmap_of_spec obs Hlen) as (H1 & H2 & H3 & H4 & H5). fold h in H1, H2, H3, H4, H5.
  split_and!; [done|done|done| | |].
  - intros k Hk. split; [by apply H4|apply median_of_nil].
  - intros d hr. by apply cheapest_spec.
  - intros Hne. apply Heatmap_roundtrip; [done| |done|by apply H5|unfold u32_max; lia].
    apply Forall_lookup. intros k c Hc. pose proof (lookup_lt_Some _ _ _ Hc) as Hk. rewrite H1 in Hk. rewrite H4 in Hc by done.
    injection Hc as <-. destruct (median_of (of_cell k obs)) as [v|] eqn:Hv; [|done]. cbn. eapply quantile_le; [|exact Hv].
    apply Forall_forall. intros p (o & [Ho _] & <- & _)%from_observations_elem. apply list_elem_of_filter in Ho as [_ Ho].
    rewrite Forall_forall in Hp. by apply Hp.
Qed.

Lemma heatmap_faithful_witness :
  let obs := [(0, 100); (604800000, 300)] in
  cells (Heatmap_of obs) !! 72%nat = Some (median_of obs) /\ Heatmap_decode (Heatmap_encode (Heatmap_of obs)) = Heatmap_of obs.
Proof.
  cbn zeta. assert (N.of_nat (length [(0, 100); (604800000, 300)]) < 2 ^ 32) as Hl by (vm_compute; reflexivity).
  assert (Forall (fun o => o.2 <= u64_max) [(0, 100); (604800000, 300)]) as Hp by (repeat constructor; vm_compute; discriminate).
  destruct (heatmap_faithful _ Hl Hp) as (_ & _ & _ & Hc & _ & Hr). split; [|apply Hr; discriminate].
  destruct (Hc 72%nat ltac:(apply Nat.ltb_lt; reflexivity)) as [H _]. exact H.
Defined.
