(* ===== verification/Materialise.v ===== *)
(** * Materialise: turning a commodity's history into the rows a page reads

    Models the first half of [crates/app-core/src/market/materialise.rs]: the state of
    one market ([MarketState]), its summary over one interval ([MarketWindow]), and
    [commodity], which computes both from a history.  The per-realm half is in
    [Rollup].  Field names carry a prefix per record: [ms_], [sm_], [mw_]. *)
From Stdlib Require Import Ascii.
From stdpp Require Import prelude gmap sorting strings pretty.
From S2P Require Import Prelude Text F64 Time Market Catalog Depth Engine EngineLaws Series MarketKey Window Analysis Correlate CorrelateLaws.

Definition ALGORITHM_VERSION : N := 2.
Definition CHART_POINTS : nat := 120.

Record MarketState := {
  ms_key : MarketKey; ms_observed_at : option Millis; ms_price : Copper; ms_min_price : Copper; ms_median_price : Copper;
  ms_quantity : N; ms_listings : N; ms_first_seen : option Millis; ms_samples : N; ms_mean : Copper; ms_median : Copper;
  ms_low : Copper; ms_low_at : Millis; ms_high : Copper; ms_high_at : Millis; ms_volatility_percent : N;
  ms_day : Trend; ms_week : Trend; ms_month : Trend; ms_by_hour : list Cycle; ms_by_weekday : list Cycle;
  ms_best_hour : option N; ms_best_weekday : option N; ms_series : list Point; ms_ladder : Ladder; ms_depth : option Depth;
  ms_heatmap : Heatmap; ms_stock_association : option Association; ms_swings : Swings; ms_stability : option Stability }.

Definition Ladder_default : Ladder := {| steps := [] |}.

Definition MarketState_empty (key : MarketKey) : MarketState :=
  {| ms_key := key; ms_observed_at := None; ms_price := 0; ms_min_price := 0; ms_median_price := 0; ms_quantity := 0;
     ms_listings := 0; ms_first_seen := None; ms_samples := 0; ms_mean := 0; ms_median := 0; ms_low := 0; ms_low_at := 0;
     ms_high := 0; ms_high_at := 0; ms_volatility_percent := 0; ms_day := Trend_UNKNOWN; ms_week := Trend_UNKNOWN;
     ms_month := Trend_UNKNOWN; ms_by_hour := []; ms_by_weekday := []; ms_best_hour := None; ms_best_weekday := None;
     ms_series := []; ms_ladder := Ladder_default; ms_depth := None; ms_heatmap := Heatmap_default;
     ms_stock_association := None; ms_swings := Swings_default; ms_stability := None |}.

Definition MarketState_has_data (self : MarketState) : bool := bool_decide (0 < ms_samples self).

Record MarketSummary := {
  sm_key : MarketKey; sm_observed_at : option Millis; sm_price : Copper; sm_min_price : Copper; sm_quantity : N;
  sm_listings : N; sm_samples : N }.

Definition MarketSummary_has_data (self : MarketSummary) : bool := bool_decide (0 < sm_samples self).

Record MarketWindow := {
  mw_key : MarketKey; mw_window : Window.t; mw_low : Copper; mw_low_at : Millis; mw_high : Copper; mw_high_at : Millis;
  mw_mean : Copper; mw_distribution : Distribution; mw_position : Position; mw_swing : N; mw_spark : Spark;
  mw_series : ChartSeries; mw_histogram : option Histogram; mw_samples : N; mw_first_at : Millis; mw_last_at : Millis;
  mw_expected_buckets : option N; mw_observed_buckets : N; mw_largest_gap_ms : N }.

Definition coverage_percent (self : MarketWindow) : option N :=
  expected ← mw_expected_buckets self;
  if decide (expected = 0) then None else Some (N.min (mw_observed_buckets self * 100 / expected) 100).

Record Materialised := { state : MarketState; windows : list MarketWindow }.

(** ** One market over one window *)
Definition HOUR_MS : N := 60 * 60 * 1000.

(** The observations of the window, in the order of time. *)
Definition inside_of (history : list PriceSample) (from end_ : Millis) : list PriceSample :=
  sort_by_key observed_at (filter (fun s => from <= observed_at s /\ observed_at s < end_) history).

Definition price_points (inside : list PriceSample) : list (Millis * Copper) :=
  (fun s => (observed_at s, p05_unit_price s)) <$> inside.

Definition observed_hours (inside : list PriceSample) : gset N :=
  list_to_set ((fun s => observed_at s / HOUR_MS) <$> inside).

Definition largest_gap (inside : list PriceSample) : N :=
  default 0 (maxN ((fun p => observed_at p.2 - observed_at p.1) <$> pairs_of inside)).

(** The share of the hours the market has existed inside the window. *)
Definition lived_coverage (from : Millis) (until : option Millis) (now first : Millis) (hours : N) : option N :=
  let lived_hours := div_ceil (default now until - N.max from first) HOUR_MS in
  if decide (0 < lived_hours) then Some (wrap 32 (N.min (hours * 100 / lived_hours) 100)) else None.

Definition summarise (key : MarketKey) (window : Window.t) (history : list PriceSample) (current : option Copper)
    (catalog : Catalog) (now : Millis) : option MarketWindow :=
  b ← Window.bounds window catalog now;
  let '(from, until) := b in
  let inside := inside_of history from (default u64_max until) in
  match head inside, last inside with
  | Some first, Some newest =>
      let prices := p05_unit_price <$> inside in
      cheapest ← minN prices;
      dearest ← maxN prices;
      low ← find_first (fun s => bool_decide (p05_unit_price s = cheapest)) inside;
      high ← find_first (fun s => bool_decide (p05_unit_price s = dearest)) inside;
      let mean := wrap 64 (sumN prices / N.of_nat (length prices)) in
      let buckets := from_observations (price_points inside) in
      distribution ← Distribution_of buckets;
      let hours := N.of_nat (size (observed_hours inside)) in
      let coverage := lived_coverage from until now (observed_at first) hours in
      let spark_from := if decide (from = Millis_ZERO) then observed_at first else from in
      let spark_until := default now until in
      Some {| mw_key := key; mw_window := window; mw_low := p05_unit_price low; mw_low_at := observed_at low;
              mw_high := p05_unit_price high; mw_high_at := observed_at high; mw_mean := mean;
              mw_distribution := distribution;
              mw_position := Position_of (default (median distribution) current) buckets coverage Gates_default;
              mw_swing := Swing_of buckets; mw_spark := Spark_over (price_points inside) spark_from spark_until;
              mw_series := Series.over ((fun s => {| o_at := observed_at s; o_price := p05_unit_price s;
                             o_quantity := ps_quantity s; o_listings := ps_listings s |}) <$> inside) spark_from spark_until;
              mw_histogram := Histogram_of buckets; mw_samples := wrap 32 (N.of_nat (length inside));
              mw_first_at := observed_at first; mw_last_at := observed_at newest;
              mw_expected_buckets := Window.expected_buckets window catalog now;
              mw_observed_buckets := wrap 32 hours; mw_largest_gap_ms := largest_gap inside |}
  | _, _ => None
  end.

(** ** The whole of one commodity market *)
Definition commodity_state (key : MarketKey) (history : list PriceSample) (ladder : Ladder) (catalog : Catalog)
    (now : Millis) : MarketState :=
  let analysis := analyse history now in
  let newest := max_by_key observed_at history in
  let ordered := sort_by_key observed_at history in
  let path := p05_unit_price <$> ordered in
  {| ms_key := key; ms_observed_at := observed_at <$> newest; ms_price := from_option p05_unit_price 0 newest;
     ms_min_price := from_option min_unit_price 0 newest; ms_median_price := from_option median_unit_price 0 newest;
     ms_quantity := from_option ps_quantity 0 newest; ms_listings := from_option ps_listings 0 newest;
     ms_first_seen := first_seen analysis; ms_samples := wrap 32 (samples analysis); ms_mean := mean analysis;
     ms_median := ia_median analysis; ms_low := from_option pt_price 0 (low analysis);
     ms_low_at := from_option pt_at 0 (low analysis); ms_high := from_option pt_price 0 (high analysis);
     ms_high_at := from_option pt_at 0 (high analysis); ms_volatility_percent := volatility_percent analysis;
     ms_day := day analysis; ms_week := week analysis; ms_month := month analysis; ms_by_hour := by_hour analysis;
     ms_by_weekday := by_weekday analysis; ms_best_hour := best_hour analysis; ms_best_weekday := best_weekday analysis;
     ms_series := downsample (series analysis) CHART_POINTS; ms_ladder := ladder;
     ms_depth := Depth_of ladder (from_option target 1 (find_item catalog (key_item key)));
     ms_heatmap := Heatmap_of (price_points history);
     ms_stock_association := Association_of path (ps_quantity <$> ordered);
     ms_swings := Swings_of path; ms_stability := Stability_of path |}.

Definition commodity (key : MarketKey) (history : list PriceSample) (ladder : Ladder) (catalog : Catalog)
    (over : list Window.t) (now : Millis) : Materialised :=
  let state := commodity_state key history ladder catalog now in
  {| state := state;
     windows := omap (fun window => summarise key window history (Some (ms_price state)) catalog now) over |}.

(** ** What a window's row says *)
Lemma inside_of_elem history from end_ s :
  s ∈ inside_of history from end_ <-> s ∈ history /\ from <= observed_at s < end_.
Proof. unfold inside_of, sort_by_key. rewrite sort_by_perm, list_elem_of_filter. tauto. Qed.

Lemma inside_of_sorted history from end_ :
  StronglySorted (fun s t => observed_at s <= observed_at t) (inside_of history from end_).
Proof. apply sort_by_key_sorted. Qed.

Lemma length_inside_of history from end_ : (length (inside_of history from end_) <= length history)%nat.
Proof.
  unfold inside_of, sort_by_key. rewrite sort_by_perm. apply length_filter.
Qed.

(** Two of some instants with none of them in between. *)
Definition adjacent (instants : list Millis) (a b : Millis) : Prop :=
  a ∈ instants /\ b ∈ instants /\ a <= b /\ forall u, u ∈ instants -> u <= a \/ b <= u.

Lemma pairs_of_cons {A} (x y : A) l : pairs_of (x :: y :: l) = (x, y) :: pairs_of (y :: l).
Proof. done. Qed.

Lemma pairs_of_fmap {A} (f : A -> N) l : (fun p => f p.2 - f p.1) <$> pairs_of l = (fun p => p.2 - p.1) <$> pairs_of (f <$> l).
Proof.
  induction l as [|x l IH]; [done|]. destruct l as [|y l]; [done|]. rewrite pairs_of_cons, !fmap_cons.
  change (f x :: f y :: (f <$> l)) with (f x :: f y :: (f <$> l)). rewrite pairs_of_cons, fmap_cons. f_equal. exact IH.
Qed.

Lemma pairs_of_adjacent l a b : StronglySorted N.le l -> (a, b) ∈ pairs_of l -> adjacent l a b.
Proof.
  induction 1 as [|x l Hs IH Hall]; [by intros ?%not_elem_of_nil|]. destruct l as [|y l]; [by intros ?%not_elem_of_nil|].
  rewrite pairs_of_cons. rewrite Forall_forall in Hall. intros [Heq|Hin]%elem_of_cons.
  - injection Heq as -> ->. split_and!; [left|right; left|apply Hall; left|].
    intros u [->|Hu]%elem_of_cons; [by left|]. right. apply StronglySorted_inv in Hs as [_ Hy]. rewrite Forall_forall in Hy.
    apply elem_of_cons in Hu as [->|Hu]; [done|]. by apply Hy.
  - destruct (IH Hin) as (Ha & Hb & Hle & Hno). split_and!; [by right|by right|done|].
    intros u [->|Hu]%elem_of_cons; [|by apply Hno]. left. by apply Hall.
Qed.

Lemma adjacent_pair l a b : StronglySorted N.le l -> adjacent l a b -> a < b -> (a, b) ∈ pairs_of l.
Proof.
  induction 1 as [|x l Hs IH Hall]; [by intros (?%not_elem_of_nil & _)|]. intros (Ha & Hb & _ & Hno) Hlt.
  rewrite Forall_forall in Hall. apply elem_of_cons in Hb as [->|Hb].
  { apply elem_of_cons in Ha as [->|Ha]; [lia|]. specialize (Hall a Ha). lia. }
  destruct l as [|y l]; [by apply not_elem_of_nil in Hb|]. rewrite pairs_of_cons. pose proof (Hall y ltac:(left)) as Hxy.
  destruct (Hno y ltac:(right; left)) as [Hya|Hby].
  - right. apply IH; [|done]. split_and!; [|done|lia|intros u Hu; apply Hno; by right].
    apply elem_of_cons in Ha as [->|Ha]; [|done]. replace x with y by lia. left.
  - apply StronglySorted_inv in Hs as [_ Hy]. rewrite Forall_forall in Hy.
    assert (y = b) as -> by (apply elem_of_cons in Hb as [->|Hb]; [done|]; specialize (Hy b Hb); lia).
    apply elem_of_cons in Ha as [->|[->|Ha]%elem_of_cons]; [left|lia|]. specialize (Hy a Ha). lia.
Qed.

Lemma fmap_sorted {A} (f : A -> N) l : StronglySorted (fun x y => f x <= f y) l -> StronglySorted N.le (f <$> l).
Proof. induction 1 as [|x l Hs IH Hall]; [constructor|]. rewrite fmap_cons. constructor; [done|]. by apply Forall_fmap. Qed.

(** The largest gap is the greatest distance between two instants with none between. *)
Lemma largest_gap_spec inside :
  StronglySorted (fun s t => observed_at s <= observed_at t) inside ->
  let instants := observed_at <$> inside in
  (forall a b, adjacent instants a b -> b - a <= largest_gap inside) /\
  (largest_gap inside = 0 \/ exists a b, adjacent instants a b /\ b - a = largest_gap inside).
Proof.
  intros Hs instants. apply fmap_sorted in Hs. fold instants in Hs. unfold largest_gap. rewrite pairs_of_fmap. fold instants. split.
  - intros a b Hab. destruct (decide (a < b)) as [Hlt|]; [|lia]. apply adjacent_pair in Hab; [|done|done].
    destruct (maxN_upper ((fun p => p.2 - p.1) <$> pairs_of instants) (b - a)) as (m & -> & Hm); [|done].
    apply list_elem_of_fmap. by exists (a, b).
  - destruct (maxN _) as [m|] eqn:Hm; [|by left]. right. apply maxN_spec in Hm as [([a b] & -> & Hab)%list_elem_of_fmap _].
    exists a, b. split; [|done]. by apply pairs_of_adjacent.
Qed.

Lemma hours_observed inside : hours (price_points inside) = observed_hours inside.
Proof. unfold hours, observed_hours, price_points. f_equal. rewrite <- !list_fmap_compose. done. Qed.

(** The row of a window is the window's: what it says of the samples [inside]. *)
Definition row_ok (inside : list PriceSample) (row : MarketWindow) : Prop :=
  let d := mw_distribution row in
  let instants := observed_at <$> inside in
  mw_samples row = N.of_nat (length inside) /\
  mw_observed_buckets row = N.of_nat (size (observed_hours inside)) /\ buckets d = mw_observed_buckets row /\
  (forall s, s ∈ inside -> mw_low row <= p05_unit_price s <= mw_high row /\ mw_first_at row <= observed_at s <= mw_last_at row /\
     (p05_unit_price s = mw_low row -> mw_low_at row <= observed_at s) /\
     (p05_unit_price s = mw_high row -> mw_high_at row <= observed_at s)) /\
  (exists s t, s ∈ inside /\ t ∈ inside /\ p05_unit_price s = mw_low row /\ observed_at s = mw_low_at row /\
     p05_unit_price t = mw_high row /\ observed_at t = mw_high_at row) /\
  (mw_first_at row ∈ instants /\ mw_last_at row ∈ instants) /\
  mw_low row <= mw_mean row <= mw_high row /\
  mw_low row <= p05 d /\ p05 d <= p25 d /\ p25 d <= median d /\ median d <= p75 d /\ p75 d <= p95 d /\ p95 d <= mw_high row /\
  (forall a b, adjacent instants a b -> b - a <= mw_largest_gap_ms row) /\
  (mw_largest_gap_ms row = 0 \/ exists a b, adjacent instants a b /\ b - a = mw_largest_gap_ms row).

(** What the extremes of a sorted list of samples are. *)
Lemma extremes_found inside :
  inside <> [] -> StronglySorted (fun s t => observed_at s <= observed_at t) inside ->
  exists cheapest dearest low high,
    minN (p05_unit_price <$> inside) = Some cheapest /\ maxN (p05_unit_price <$> inside) = Some dearest /\
    find_first (fun s => bool_decide (p05_unit_price s = cheapest)) inside = Some low /\
    find_first (fun s => bool_decide (p05_unit_price s = dearest)) inside = Some high /\
    low ∈ inside /\ high ∈ inside /\
    (forall s, s ∈ inside -> p05_unit_price low <= p05_unit_price s <= p05_unit_price high /\
       (p05_unit_price s = p05_unit_price low -> observed_at low <= observed_at s) /\
       (p05_unit_price s = p05_unit_price high -> observed_at high <= observed_at s)).
Proof.
  intros Hne Hs. destruct inside as [|x l] eqn:Hin; [done|]. rewrite <- Hin in *.
  assert (p05_unit_price x ∈ p05_unit_price <$> inside) as Hx by (rewrite Hin; left).
  destruct (minN_lower _ _ Hx) as (c & Hc & _), (maxN_upper _ _ Hx) as (d & Hd & _).
  pose proof (minN_spec _ _ Hc) as [(cs & -> & Hcs)%list_elem_of_fmap Hcl].
  pose proof (maxN_spec _ _ Hd) as [(ds & -> & Hds)%list_elem_of_fmap Hdu].
  destruct (proj2 (find_first_is_Some (fun s => bool_decide (p05_unit_price s = p05_unit_price cs)) inside)) as [low Hlow];
    [exists cs; split; [done|by apply bool_decide_eq_true]|].
  destruct (proj2 (find_first_is_Some (fun s => bool_decide (p05_unit_price s = p05_unit_price ds)) inside)) as [high Hhigh];
    [exists ds; split; [done|by apply bool_decide_eq_true]|].
  pose proof (find_first_Some _ _ _ Hlow) as [Hli Hlp%bool_decide_eq_true]. pose proof (find_first_Some _ _ _ Hhigh) as [Hhi Hhp%bool_decide_eq_true].
  exists (p05_unit_price cs), (p05_unit_price ds), low, high. split_and!; [done..|]. intros s Hsin. rewrite Hlp, Hhp.
  assert (p05_unit_price s ∈ p05_unit_price <$> inside) as Hsp by (by apply list_elem_of_fmap_2). split_and!; [by apply Hcl|by apply Hdu|..].
  - intros He. apply (find_first_sorted observed_at _ _ _ Hs Hlow); [done|]. by apply bool_decide_eq_true.
  - intros He. apply (find_first_sorted observed_at _ _ _ Hs Hhigh); [done|]. by apply bool_decide_eq_true.
Qed.

Lemma size_list_to_set_le (l : list N) : (size (list_to_set l : gset N) <= length l)%nat.
Proof.
  induction l as [|x l IH]; [by rewrite list_to_set_nil, size_empty|]. rewrite list_to_set_cons. cbn [length].
  pose proof (size_union_alt ({[x]} : gset N) (list_to_set l)) as Hu. rewrite size_singleton in Hu.
  pose proof (subseteq_size (list_to_set l ∖ {[x]}) (list_to_set l : gset N) ltac:(set_solver)). lia.
Qed.

(** The percentiles of the hourly prices stay between the extremes. *)
Lemma window_distribution inside lo hi :
  inside <> [] -> N.of_nat (length inside) < 2 ^ 32 -> hi <= 2 ^ 53 -> Forall (fun s => lo <= p05_unit_price s <= hi) inside ->
  exists d, Distribution_of (from_observations (price_points inside)) = Some d /\
    lo <= p05 d /\ p05 d <= p25 d /\ p25 d <= median d /\ median d <= p75 d /\ p75 d <= p95 d /\ p95 d <= hi /\
    buckets d = N.of_nat (size (observed_hours inside)) /\ N.of_nat (size (observed_hours inside)) < 2 ^ 32.
Proof.
  intros Hne Hlen Hhi Hall. rewrite Forall_forall in Hall. set (b := from_observations (price_points inside)).
  assert (size (observed_hours inside) <= length inside)%nat as Hsz.
  { unfold observed_hours. rewrite <- (length_fmap (fun s => observed_at s / HOUR_MS) inside). apply size_list_to_set_le. }
  assert (priced_history (price_points inside)) as Hph.
  { split; [|rewrite hours_observed; lia]. apply Forall_forall. intros o (s & -> & Hs)%list_elem_of_fmap. cbn. specialize (Hall s Hs). lia. }
  pose proof (from_observations_exact _ Hph) as He.
  assert (prices b <> []) as Hnp.
  { unfold b. intros Hn%from_observations_nil. apply Hne. by apply fmap_nil_inv in Hn. }
  destruct (Distribution_of_Some b Hnp) as (d & Hd & _). exists d. split; [done|].
  destruct (Distribution_of_ordered b d He Hd) as (Hin & H1 & H2 & H3 & H4 & H5 & H6).
  assert (forall i, 1 <= i <= len b -> lo <= at_rank b i <= hi) as Hrank.
  { intros i Hi. pose proof (at_rank_elem b i Hi) as Hp. apply from_observations_elem in Hp as (o & [Ho _] & <- & _).
    apply list_elem_of_fmap in Ho as (s & -> & Hs). by apply Hall. }
  assert (1 <= len b) as Hlb by (unfold len; destruct (prices b); [done|cbn; lia]).
  pose proof (Hrank 1 ltac:(lia)). pose proof (Hrank (len b) ltac:(lia)). pose proof (from_observations_len (price_points inside)) as Hl.
  rewrite hours_observed in Hl. fold b in Hl. split_and!; try lia.
  unfold Distribution_of in Hd. repeat (apply bind_Some in Hd as (? & _ & Hd)). injection Hd as <-. cbn [buckets]. rewrite Hl. apply wrap_small. lia.
Qed.

Lemma window_row_sound key window history current catalog now :
  Forall (fun s => p05_unit_price s <= 2 ^ 53) history -> N.of_nat (length history) < 2 ^ 32 ->
  match Window.bounds window catalog now with
  | None => summarise key window history current catalog now = None
  | Some (from, until) =>
      let inside := inside_of history from (default u64_max until) in
      (forall s, s ∈ inside <-> s ∈ history /\ from <= observed_at s < default u64_max until) /\
      match summarise key window history current catalog now with
      | None => inside = []
      | Some row => mw_key row = key /\ mw_window row = window /\ row_ok inside row
      end
  end.
Proof.
  intros Hp Hlen. unfold summarise. destruct (Window.bounds window catalog now) as [[from until]|]; [|done].
  cbn [mbind option_bind]. set (inside := inside_of history from (default u64_max until)). cbn zeta.
  split; [intros s; apply inside_of_elem|]. pose proof (inside_of_sorted history from (default u64_max until)) as Hs. fold inside in Hs.
  pose proof (length_inside_of history from (default u64_max until)) as Hli. fold inside in Hli.
  assert (forall s, s ∈ inside -> p05_unit_price s <= 2 ^ 53) as Hpi.
  { intros s [Hs' _]%inside_of_elem. rewrite Forall_forall in Hp. by apply Hp. }
  destruct (head inside) as [first|] eqn:Hf; [|by apply head_None in Hf].
  destruct (last inside) as [newest|] eqn:Hn; [|by apply last_None in Hn; rewrite Hn in Hf].
  assert (inside <> []) as Hne by (by intros E; rewrite E in Hf). clearbody inside.
  destruct (extremes_found inside Hne Hs) as (c & d & low & high & -> & -> & Hlow & Hhigh & Hlin & Hhin & Hext). cbn [mbind option_bind].
  rewrite Hlow, Hhigh. cbn [mbind option_bind].
  assert (Forall (fun s => p05_unit_price low <= p05_unit_price s <= p05_unit_price high) inside) as Hall by (apply Forall_forall; intros s Hsin; by apply Hext).
  destruct (window_distribution inside (p05_unit_price low) (p05_unit_price high) Hne ltac:(lia) (Hpi high Hhin) Hall) as
    (dist & -> & D1 & D2 & D3 & D4 & D5 & D6 & Dn & Dsz). cbn [mbind option_bind].
  pose proof (largest_gap_spec inside Hs) as [Hg1 Hg2].
  assert (p05_unit_price low <= wrap 64 (sumN (p05_unit_price <$> inside) / N.of_nat (length (p05_unit_price <$> inside))) <= p05_unit_price high) as Hmean.
  { apply wrapped_mean_bounds; [by intros ?%fmap_nil_inv|by apply Forall_fmap|]. specialize (Hpi high Hhin). lia. }
  split; [reflexivity|]. split; [reflexivity|]. unfold row_ok.
  cbn [mw_samples mw_observed_buckets mw_distribution mw_low mw_high mw_low_at mw_high_at mw_first_at mw_last_at mw_mean mw_largest_gap_ms].
  rewrite !wrap_small by lia. split_and!; try done; try lia.
  - intros s Hsin. destruct (Hext s Hsin) as (H1 & H2 & H3). split_and!; try apply H1; try done.
    + by apply (sorted_head observed_at inside first Hs Hf).
    + by apply (sorted_last observed_at inside newest Hs Hn).
  - by exists low, high.
  - apply list_elem_of_fmap_2. by apply head_Some_elem_of.
  - apply list_elem_of_fmap_2. by apply last_Some_elem_of.
Qed.

(** The samples a window asks for, if it has a start. *)
Definition asked (history : list PriceSample) (catalog : Catalog) (now : Millis) (window : Window.t) : list PriceSample :=
  match Window.bounds window catalog now with
  | Some (from, until) => inside_of history from (default u64_max until)
  | None => []
  end.

Lemma omap_filter_fst {A B} (f : A -> option B) (g : B -> A) (Q : A -> Prop) `{forall x, Decision (Q x)} (l : list A) :
  (forall x, match f x with Some y => g y = x /\ Q x | None => ~ Q x end) -> g <$> omap f l = filter Q l.
Proof.
  intros Hf. induction l as [|x l IH]; [done|]. cbn [omap list_omap]. rewrite filter_cons. specialize (Hf x).
  destruct (f x) as [y|]; [|by rewrite decide_False]. destruct Hf as [Hg HQ]. by rewrite decide_True, fmap_cons, Hg, IH.
Qed.

(** A market's rows are about its history.  The state carries the newest observation
    and says how many there were; the windows that hold an observation, and only they,
    have a row, in the order they were asked for; and each row is about exactly the
    observations of its window: their number, hours, extremes with the first instant of
    each, ends, mean and percentiles in order between the extremes, and the longest
    stretch without one. *)
Theorem materialised_sound key history ladder catalog over now :
  Forall (fun s => p05_unit_price s <= 2 ^ 53) history -> N.of_nat (length history) < 2 ^ 32 ->
  let m := commodity key history ladder catalog over now in
  ms_samples (state m) = N.of_nat (length history) /\
  match ms_observed_at (state m) with
  | None => history = []
  | Some t => exists s, s ∈ history /\ observed_at s = t /\ ms_price (state m) = p05_unit_price s /\
      ms_quantity (state m) = ps_quantity s /\ forall s', s' ∈ history -> observed_at s' <= t
  end /\
  mw_window <$> windows m = filter (fun w => asked history catalog now w <> []) over /\
  Forall (fun row => row_ok (asked history catalog now (mw_window row)) row) (windows m).
Proof.
  intros Hp Hlen m. unfold m, commodity. set (st := commodity_state key history ladder catalog now). cbn [state windows].
  assert (forall w, match summarise key w history (Some (ms_price st)) catalog now with
    | Some row => mw_window row = w /\ asked history catalog now w <> [] /\ row_ok (asked history catalog now w) row
    | None => asked history catalog now w = [] end) as Hrow.
  { intros w. pose proof (window_row_sound key w history (Some (ms_price st)) catalog now Hp Hlen) as Hr. unfold asked.
    destruct (Window.bounds w catalog now) as [[from until]|]; [|by rewrite Hr]. destruct Hr as [_ Hr].
    destruct (summarise _ _ _ _ _ _) as [row|]; [|done]. destruct Hr as (_ & Hw & Hok). split_and!; [done| |done].
    intros E. destruct Hok as (_ & _ & _ & _ & (s & _ & Hs & _) & _). rewrite E in Hs. by apply not_elem_of_nil in Hs. }
  split_and!.
  - unfold st, commodity_state. cbn [ms_samples]. rewrite analyse_samples. by apply wrap_small.
  - unfold st, commodity_state. cbn [ms_observed_at ms_price ms_quantity]. destruct (max_by_key observed_at history) as [s|] eqn:Hm.
    + apply max_by_key_spec in Hm as [Hin Hmax]. cbn. by exists s.
    + by destruct history.
  - apply omap_filter_fst. intros w. specialize (Hrow w). destruct (summarise _ _ _ _ _ _); [tauto|]. intros Hn. by apply Hn.
  - apply Forall_forall. intros row (w & _ & Hs)%list_elem_of_omap. specialize (Hrow w). rewrite Hs in Hrow.
    destruct Hrow as (-> & _ & Hok). exact Hok.
Qed.

(** Two days of a market over three windows: of the last day, of the last two, and of a
    patch the catalogue does not know. *)
Definition demo_catalog : Catalog :=
  {| c_id := "c"; c_expansion := "e"; c_status := CatalogStatus.Active; c_version := 1; c_patches := []; c_raid_tiers := [];
     c_items := []; c_item_levels := ∅; c_tracks := ∅; c_modifiers := ∅; c_notes := [] |}.

Definition demo_windows : list Window.t := [Window.Days 1; Window.Patch "12.1"; Window.Days 3].

Lemma materialised_sound_witness :
  let m := commodity (Commodity Eu 7 1) demo_history Ladder_default demo_catalog demo_windows (5 * DAY_MS) in
  ms_samples (state m) = 3 /\ mw_window <$> windows m = [Window.Days 3].
Proof.
  cbn zeta. assert (N.of_nat (length demo_history) < 2 ^ 32) as Hlen by (vm_compute; reflexivity).
  assert (Forall (fun s => p05_unit_price s <= 2 ^ 53) demo_history) as Hp by (repeat constructor; vm_compute; discriminate).
  destruct (materialised_sound (Commodity Eu 7 1) demo_history Ladder_default demo_catalog demo_windows (5 * DAY_MS) Hp Hlen) as (H1 & _ & H2 & _).
  split; [exact H1|]. rewrite H2. vm_compute. reflexivity.
Defined.
