(* ===== verification/Rollup.v ===== *)
(** * Rollup: a region's worth of a market that is priced per realm

    Models the second half of [crates/app-core/src/market/materialise.rs]: gear and
    recipes are auctioned realm by realm, and a page asks about all of a region's realms
    at once.  [rollups] groups a history by item and track and makes one row for the
    region and one for each realm; "now" is each realm's newest snapshot of the item,
    whatever the track, so that a track nobody lists any more has no current price. *)
From Stdlib Require Import Ascii.
From stdpp Require Import prelude gmap sorting strings pretty.
From S2P Require Import Prelude Text F64 Time Market Catalog Depth Engine MarketKey Realm Window Analysis Materialise.

(** ** Keys *)
Definition Region_index (r : Region) : N := match r with Eu => 0 | Us => 1 | Kr => 2 | Tw => 3 end.
Definition ItemKind_index := ItemKind.rank.
Definition Track_index := Track.rank.

#[export] Instance Region_countable : Countable Region.
Proof.
  refine (inj_countable' Region_index (fun n => if decide (n = 0) then Eu else if decide (n = 1) then Us else if decide (n = 2) then Kr else Tw) _).
  by intros [].
Defined.

#[export] Instance ItemKind_countable : Countable ItemKind.t.
Proof.
  refine (inj_countable' ItemKind_index (fun n => default ItemKind.Recipe (ItemKind.ALL !! N.to_nat n)) _). by intros [].
Defined.

#[export] Instance Track_countable : Countable Track.t.
Proof. refine (inj_countable' Track_index (fun n => default Track.Myth (Track.ALL !! N.to_nat n)) _). by intros []. Defined.

(** The market a sample belongs to: region, item, kind and track, in the derived order. *)
Abbreviation GroupKey := (Region * ItemId * ItemKind.t * option Track.t)%type.

Definition option_cmp {A} (cmp : A -> A -> comparison) (a b : option A) : comparison :=
  match a, b with None, None => Eq | None, Some _ => Lt | Some _, None => Gt | Some x, Some y => cmp x y end.

Definition Track_cmp (a b : Track.t) : comparison := N.compare (Track.rank a) (Track.rank b).

Definition key_cmp (a b : GroupKey) : comparison :=
  let '(r, i, k, t) := a in let '(r', i', k', t') := b in
  cmp_then (N.compare (Region_index r) (Region_index r')) (cmp_then (N.compare i i')
    (cmp_then (N.compare (ItemKind.rank k) (ItemKind.rank k')) (option_cmp Track_cmp t t'))).

(** ** Rows *)
Record LevelStat := {
  ls_item_level : N; ls_upgrade : string; ls_cheapest : Copper; ls_highest : Copper; ls_listings : N; ls_realms : N }.

Record ModifierStat := { md_name : string; md_now : N; md_seen : N }.

Module Scope.
Inductive t := Region_ | Realm_ (realm : RealmId).
#[global] Instance eq_dec : EqDecision t.
Proof. solve_decision. Defined.
Definition realm_id (self : t) : N := match self with Region_ => 0 | Realm_ r => r end.
Definition parse (realm_id : N) : t := if decide (realm_id = 0) then Region_ else Realm_ realm_id.
End Scope.

Record MarketRollup := {
  mr_region : Region; mr_item : ItemId; mr_kind : ItemKind.t; mr_track : option Track.t; mr_scope : Scope.t;
  mr_window : Window.t; mr_observed_at : option Millis; mr_snapshots : N; mr_realms_listing : N;
  mr_cheapest_now : option Copper; mr_cheapest_realm : option RealmId; mr_realms_collected : N;
  mr_realm_spread : option Distribution; mr_dearest_realm_now : option Copper; mr_dearest_realm : option RealmId;
  mr_median_realm_now : option Copper; mr_highest_now : option Copper; mr_cheapest_ever : option Copper;
  mr_highest_ever : option Copper; mr_listings_now : N; mr_listings_seen : N; mr_depth : option Depth; mr_ladder : Ladder;
  mr_level_range : string; mr_levels : list LevelStat; mr_modifiers : list ModifierStat; mr_series : list Point;
  mr_distribution : option Distribution; mr_position : option Position; mr_swing : N }.

Definition MarketRollup_empty (region : Region) (item : ItemId) (kind : ItemKind.t) (track : option Track.t) : MarketRollup :=
  {| mr_region := region; mr_item := item; mr_kind := kind; mr_track := track; mr_scope := Scope.Region_;
     mr_window := Window.All; mr_observed_at := None; mr_snapshots := 0; mr_realms_listing := 0; mr_cheapest_now := None;
     mr_cheapest_realm := None; mr_realms_collected := 0; mr_realm_spread := None; mr_dearest_realm_now := None;
     mr_dearest_realm := None; mr_median_realm_now := None; mr_highest_now := None; mr_cheapest_ever := None;
     mr_highest_ever := None; mr_listings_now := 0; mr_listings_seen := 0; mr_depth := None; mr_ladder := Ladder_default;
     mr_level_range := ""; mr_levels := []; mr_modifiers := []; mr_series := []; mr_distribution := None;
     mr_position := None; mr_swing := 0 |}.

(** ** The parts of a row *)
Definition BUCKET_APART : N := 60 * 60 * 1000.

(** The distinct values of a field, as a [BTreeSet]'s length counts them. *)
Definition distinct (l : list N) : N := wrap 32 (N.of_nat (size (list_to_set l : gset N))).

(** [min_by_key] and [max_by_key] with an ordered key. *)
Definition min_by {A} (cmp : A -> A -> comparison) (l : list A) : option A :=
  match l with
  | [] => None
  | x :: l' => Some (foldl (fun best y => match cmp y best with Lt => y | _ => best end) x l')
  end.
Definition max_by {A} (cmp : A -> A -> comparison) (l : list A) : option A :=
  match l with
  | [] => None
  | x :: l' => Some (foldl (fun best y => match cmp best y with Gt => best | _ => y end) x l')
  end.

(** A realm's price, ties by the realm. *)
Definition offer_cmp (a b : RealmId * Copper) : comparison := cmp_then (N.compare a.2 b.2) (N.compare a.1 b.1).

Definition nonzero (o : option Copper) : option Copper := p ← o; if decide (0 < p) then Some p else None.
Definition or_else {A} (a b : option A) : option A := match a with Some x => Some x | None => b end.

(** The cheapest copy on each realm. *)
Definition cheapest_copy (per_realm : gmap N Copper) (s : RealmSample) : gmap N Copper :=
  <[rs_realm s := N.min (default (rs_min_price s) (per_realm !! rs_realm s)) (rs_min_price s)]> per_realm.

Definition level_stat (group : N * list (ItemLevel * RealmSample)) : LevelStat :=
  let samples := group.2.*2 in
  let cheapest := default 0 (minN (rs_min_price <$> samples)) in
  {| ls_item_level := group.1; ls_upgrade := from_option (fun ls => il_upgrade ls.1) "" (head group.2); ls_cheapest := cheapest;
     ls_highest := default cheapest (nonzero (maxN (rs_max_price <$> samples)));
     ls_listings := wrap 32 (sumN (rs_listings <$> samples)); ls_realms := distinct (rs_realm <$> samples) |}.

Definition levels_of (current : list RealmSample) (catalog : Catalog) : list LevelStat :=
  level_stat <$> entries (group_by (fun ls => il_item_level ls.1) id
    (omap (fun s => (fun l => (l, s)) <$> rank_in catalog (rs_variant s)) current)).

Definition count_modifier (listings : N) (m : gmap string N) (name : string) : gmap string N :=
  <[name := wrap 32 (default 0 (m !! name) + listings)]> m.
Definition count_modifiers (catalog : Catalog) (samples : list RealmSample) : gmap string N :=
  foldl (fun m s => foldl (count_modifier (rs_listings s)) m (modifier_names catalog (rs_variant s))) ∅ samples.

Definition modifiers_of (samples current : list RealmSample) (catalog : Catalog) : list ModifierStat :=
  let now := count_modifiers catalog current in
  (fun kv => {| md_name := kv.1; md_now := default 0 (now !! kv.1); md_seen := kv.2 |})
    <$> sort_by (fun a b => string_cmp a.1 b.1) (map_to_list (count_modifiers catalog samples)).

Definition instant_point (group : Millis * list RealmSample) : Point :=
  let cheapest := sort_unstable (rs_min_price <$> group.2) in
  {| pt_at := group.1; pt_price := default 0 (cheapest !! (length cheapest / 2)%nat);
     pt_quantity := wrap 64 (sumN (rs_listings <$> group.2)) |}.

Definition series_of (samples : list RealmSample) : list Point :=
  instant_point <$> entries (group_by rs_observed_at id samples).

(** ** One row *)
Abbreviation Newest := (gmap (Region * ItemId * RealmId) Millis).
Abbreviation RealmLadders := (gmap (RealmId * ItemId * string) Ladder).

Definition ladder_cmp (a b : (RealmId * ItemId * string) * Ladder) : comparison :=
  let '(r, i, v) := a.1 in let '(r', i', v') := b.1 in
  cmp_then (N.compare r r') (cmp_then (N.compare i i') (string_cmp v v')).

Definition shelf_of (item : ItemId) (kind : ItemKind.t) (track : option Track.t) (scope : Scope.t) (ladders : RealmLadders)
    (catalog : Catalog) : Ladder :=
  merged match scope with
         | Scope.Region_ => []
         | Scope.Realm_ realm =>
             snd <$> filter (fun kl => kl.1.1.1 = realm /\ kl.1.1.2 = item /\
               (kind = ItemKind.Recipe \/ track_in catalog kl.1.2 = track)) (sort_by ladder_cmp (map_to_list ladders))
         end.

Definition is_current (newest : Newest) (s : RealmSample) : Prop :=
  newest !! (rs_region s, rs_item s, rs_realm s) = Some (rs_observed_at s).

#[export] Instance is_current_dec newest s : Decision (is_current newest s).
Proof. unfold is_current. apply _. Defined.

Definition per_realm_of (current : list RealmSample) : gmap N Copper := foldl cheapest_copy ∅ current.

Definition roll (region : Region) (item : ItemId) (kind : ItemKind.t) (track : option Track.t) (scope : Scope.t)
    (samples : list RealmSample) (newest : Newest) (all_ladders : RealmLadders) (catalog : Catalog) (window : Window.t) :
    MarketRollup :=
  let tgt := from_option Depth.target (Target_of kind) (find_item catalog item) in
  let shelf := shelf_of item kind track scope all_ladders catalog in
  let current := filter (is_current newest) samples in
  let per_realm := per_realm_of current in
  let across := sort_unstable (values per_realm) in
  let cheapest_now := head across in
  let cheapest_ever := minN (rs_min_price <$> samples) in
  let median_realm_now := across !! (length across / 2)%nat in
  let points := series_of samples in
  let buckets := from_observations ((fun p => (pt_at p, pt_price p)) <$> points) in
  let distribution := Distribution_of buckets in
  {| mr_region := region; mr_item := item; mr_kind := kind; mr_track := track; mr_scope := scope; mr_window := window;
     mr_depth := match scope with Scope.Region_ => None | Scope.Realm_ _ => Depth_of shelf tgt end; mr_ladder := shelf;
     mr_observed_at := maxN (rs_observed_at <$> samples); mr_snapshots := distinct (rs_observed_at <$> samples);
     mr_realms_listing := distinct (rs_realm <$> current); mr_cheapest_now := cheapest_now;
     mr_cheapest_realm := fst <$> min_by offer_cmp (entries per_realm);
     mr_realms_collected :=
       match scope with
       | Scope.Realm_ _ => 1
       | Scope.Region_ => wrap 32 (N.of_nat (length (filter (fun kv => kv.1.1.1 = region /\ kv.1.1.2 = item) (map_to_list newest))))
       end;
     mr_realm_spread := Distribution_of (from_observations ((fun rp => (rp.1 * BUCKET_APART, rp.2)) <$> entries per_realm));
     mr_dearest_realm_now := last across; mr_dearest_realm := fst <$> max_by offer_cmp (entries per_realm);
     mr_median_realm_now := median_realm_now;
     mr_highest_now := or_else (nonzero (maxN (rs_max_price <$> current))) cheapest_now;
     mr_cheapest_ever := cheapest_ever;
     mr_highest_ever := or_else (nonzero (maxN (rs_max_price <$> samples))) cheapest_ever;
     mr_listings_now := wrap 32 (sumN (rs_listings <$> current)); mr_listings_seen := wrap 32 (sumN (rs_listings <$> samples));
     mr_level_range := level_range catalog (rs_variant <$> current); mr_levels := levels_of current catalog;
     mr_modifiers := modifiers_of samples current catalog; mr_series := downsample points CHART_POINTS;
     mr_distribution := distribution;
     mr_position := d ← distribution;
       Some (Position_of (default (median d) (or_else median_realm_now cheapest_now)) buckets None Gates_default);
     mr_swing := Swing_of buckets |}.

(** ** All rows of a history *)
Definition kind_of (catalog : Catalog) (item : ItemId) : ItemKind.t :=
  from_option ci_kind ItemKind.Boe (find_item catalog item).

Definition group_key (catalog : Catalog) (s : RealmSample) : GroupKey :=
  let kind := kind_of catalog (rs_item s) in
  (rs_region s, rs_item s, kind, match kind with ItemKind.Recipe => None | _ => track_in catalog (rs_variant s) end).

Definition note_newest (m : Newest) (s : RealmSample) : Newest :=
  let k := (rs_region s, rs_item s, rs_realm s) in
  <[k := N.max (default (rs_observed_at s) (m !! k)) (rs_observed_at s)]> m.
Definition newest_of (history : list RealmSample) : Newest := foldl note_newest ∅ history.

(** [sort] and [dedup] of the realms. *)
Definition realms_of (samples : list RealmSample) : list RealmId := elements (list_to_set (rs_realm <$> samples) : gset N).
Definition sorted_realms (samples : list RealmSample) : list RealmId := sort_unstable (realms_of samples).

Definition rows_of (newest : Newest) (ladders : RealmLadders) (catalog : Catalog) (window : Window.t)
    (group : GroupKey * list RealmSample) : list MarketRollup :=
  let '((region, item, kind, track), samples) := group in
  roll region item kind track Scope.Region_ samples newest ladders catalog window ::
  ((fun realm => roll region item kind track (Scope.Realm_ realm) (filter (fun s => rs_realm s = realm) samples)
                   newest ladders catalog window) <$> sorted_realms samples).

Definition rollups (history : list RealmSample) (ladders : RealmLadders) (catalog : Catalog) (window : Window.t) :
    list MarketRollup :=
  let grouped := group_by (group_key catalog) id history in
  sort_by (fun a b => key_cmp a.1 b.1) (map_to_list grouped) ≫= rows_of (newest_of history) ladders catalog window.

(** ** What is on sale now *)
Lemma minN_snoc l x : minN (l ++ [x]) = Some (N.min (default x (minN l)) x).
Proof. destruct l as [|y l]; cbn; [by rewrite N.min_id|]. by rewrite foldl_app. Qed.

Lemma maxN_snoc l x : maxN (l ++ [x]) = Some (N.max (default x (maxN l)) x).
Proof. destruct l as [|y l]; cbn; [by rewrite N.max_id|]. by rewrite foldl_app. Qed.

(** Two samples of one realm's copies of an item, whatever their track. *)
Definition same_shelf (s s' : RealmSample) : Prop :=
  rs_region s' = rs_region s /\ rs_item s' = rs_item s /\ rs_realm s' = rs_realm s.

#[export] Instance same_shelf_dec s s' : Decision (same_shelf s s').
Proof. unfold same_shelf. apply _. Defined.

Lemma newest_of_lookup history s :
  newest_of history !! (rs_region s, rs_item s, rs_realm s) = maxN (rs_observed_at <$> filter (same_shelf s) history).
Proof.
  induction history as [|x l IH] using rev_ind; [done|]. unfold newest_of in *. rewrite foldl_app. cbn [foldl]. unfold note_newest at 1.
  rewrite filter_app, filter_cons, filter_nil, fmap_app. set (m := foldl note_newest ∅ l) in *. case_decide as Hs.
  - destruct Hs as (H1 & H2 & H3). rewrite H1, H2, H3, lookup_insert_eq, IH. cbn [fmap list_fmap]. by rewrite maxN_snoc.
  - rewrite lookup_insert_ne by (intros [= H1 H2 H3]; apply Hs; done). cbn [fmap list_fmap]. by rewrite app_nil_r.
Qed.

(** A sample is current exactly when its realm has no newer one of the item. *)
Lemma is_current_iff history s :
  s ∈ history ->
  is_current (newest_of history) s <-> forall s', s' ∈ history -> same_shelf s s' -> rs_observed_at s' <= rs_observed_at s.
Proof.
  intros Hs. unfold is_current. rewrite newest_of_lookup. set (l := rs_observed_at <$> filter (same_shelf s) history).
  assert (forall t, t ∈ l <-> exists s', s' ∈ history /\ same_shelf s s' /\ rs_observed_at s' = t) as Hl.
  { intros t. unfold l. rewrite list_elem_of_fmap. split.
    - intros (s' & -> & [Hsh Hin]%list_elem_of_filter). by exists s'.
    - intros (s' & Hin & Hsh & <-). exists s'. split; [done|]. by apply list_elem_of_filter. }
  split.
  - intros Hm s' Hin Hsh. apply maxN_spec in Hm as [_ Hm]. apply Hm, Hl. by exists s'.
  - intros Hmax. assert (rs_observed_at s ∈ l) as Hsl by (apply Hl; exists s; done).
    destruct (maxN_upper l _ Hsl) as (m & Hm & Hle). rewrite Hm. f_equal. apply maxN_spec in Hm as [(s' & Hin & Hsh & <-)%Hl _].
    specialize (Hmax s' Hin Hsh). lia.
Qed.

(** ** Prices across realms *)
Lemma per_realm_of_lookup current r :
  per_realm_of current !! r = minN (rs_min_price <$> filter (fun s => rs_realm s = r) current).
Proof.
  induction current as [|x l IH] using rev_ind; [done|]. unfold per_realm_of in *. rewrite foldl_app. cbn [foldl]. unfold cheapest_copy at 1.
  rewrite filter_app, filter_cons, filter_nil, fmap_app. set (m := foldl cheapest_copy ∅ l) in *. case_decide as Hr.
  - rewrite Hr, lookup_insert_eq, IH. cbn [fmap list_fmap]. by rewrite minN_snoc.
  - rewrite lookup_insert_ne by done. cbn [fmap list_fmap]. by rewrite app_nil_r.
Qed.

(** Each realm's price is that of a current copy there, and no copy there is cheaper. *)
Lemma per_realm_of_spec current r p :
  per_realm_of current !! r = Some p ->
  (exists s, s ∈ current /\ rs_realm s = r /\ rs_min_price s = p) /\
  (forall s, s ∈ current -> rs_realm s = r -> p <= rs_min_price s).
Proof.
  rewrite per_realm_of_lookup. intros [Hin Hle]%minN_spec. split.
  - apply list_elem_of_fmap in Hin as (s & -> & [Hr Hs]%list_elem_of_filter). by exists s.
  - intros s Hs Hr. apply Hle, list_elem_of_fmap_2. by apply list_elem_of_filter.
Qed.

Lemma per_realm_of_Some current s : s ∈ current -> exists p, per_realm_of current !! rs_realm s = Some p /\ p <= rs_min_price s.
Proof.
  intros Hs. rewrite per_realm_of_lookup. apply minN_lower. apply list_elem_of_fmap_2. by apply list_elem_of_filter.
Qed.

Lemma head_sorted_minN l : head (sort_unstable l) = minN l.
Proof.
  pose proof (sort_by_perm (fun x y => N.compare (id x) (id y)) l) as Hp. fold (sort_by_key id l) in Hp. fold (sort_unstable l) in Hp.
  destruct (head (sort_unstable l)) as [x|] eqn:Hx.
  - pose proof (sorted_head id (sort_unstable l) x (sort_by_key_sorted id l) Hx) as Hmin. pose proof (head_Some_elem_of _ _ Hx) as Hin. rewrite Hp in Hin.
    destruct (minN_lower l x Hin) as (m & Hm & Hmx). rewrite Hm. f_equal. apply minN_spec in Hm as [Hml _]. rewrite <- Hp in Hml.
    specialize (Hmin m Hml). unfold id in Hmin. lia.
  - apply head_None in Hx. rewrite Hx in Hp. apply Permutation_nil_l in Hp. by subst.
Qed.

(** The cheapest of the realms' prices is the cheapest copy there is. *)
Lemma cheapest_across current : head (sort_unstable (values (per_realm_of current))) = minN (rs_min_price <$> current).
Proof.
  rewrite head_sorted_minN. destruct (minN (rs_min_price <$> current)) as [m|] eqn:Hm.
  - apply minN_spec in Hm as [(s & -> & Hs)%list_elem_of_fmap Hle]. destruct (per_realm_of_Some current s Hs) as (p & Hp & Hps).
    assert (p ∈ values (per_realm_of current)) as Hin by (apply elem_of_values; eauto).
    destruct (minN_lower _ _ Hin) as (v & Hv & Hvp). rewrite Hv. f_equal. apply minN_spec in Hv as [(r & Hr)%elem_of_values _].
    apply per_realm_of_spec in Hr as [(s' & Hs' & _ & <-) _]. specialize (Hle _ (list_elem_of_fmap_2 rs_min_price _ _ Hs')). lia.
  - destruct current; [done|]. done.
Qed.

Lemma offer_cmp_le a b : offer_cmp a b <> Gt -> a.2 <= b.2.
Proof. unfold offer_cmp. destruct (N.compare_spec a.2 b.2); cbn; intros; lia || done. Qed.

Lemma offer_cmp_trans a b c : offer_cmp a b <> Gt -> offer_cmp b c <> Gt -> offer_cmp a c <> Gt.
Proof.
  unfold offer_cmp, cmp_then. destruct (N.compare_spec a.2 b.2), (N.compare_spec b.2 c.2), (N.compare_spec a.2 c.2); try done; try lia.
  destruct (N.compare_spec a.1 b.1), (N.compare_spec b.1 c.1), (N.compare_spec a.1 c.1); try done; lia.
Qed.

Lemma offer_cmp_flip a b : offer_cmp a b = CompOpp (offer_cmp b a).
Proof. unfold offer_cmp, cmp_then. rewrite (N.compare_antisym a.2 b.2). destruct (a.2 ?= b.2); cbn; try done. apply N.compare_antisym. Qed.

Lemma min_by_offer l x : min_by offer_cmp l = Some x -> x ∈ l /\ forall y, y ∈ l -> offer_cmp x y <> Gt.
Proof.
  destruct l as [|a l]; [done|]. cbn. intros [= <-]. induction l as [|b l IH] using rev_ind.
  - split; [left|]. intros y ->%list_elem_of_singleton. unfold offer_cmp. by rewrite !N.compare_refl.
  - rewrite foldl_app. cbn [foldl]. destruct IH as [Hin Hle]. set (m := foldl _ a l) in *. clearbody m.
    assert (forall y, y ∈ (a :: l) ++ [b] -> y ∈ a :: l \/ y = b) as Hsplit by (intros y; rewrite elem_of_app, list_elem_of_singleton; done).
    rewrite app_comm_cons. pose proof (offer_cmp_flip m b) as Hflip.
    destruct (offer_cmp b m) eqn:Hc; (split; [rewrite elem_of_app, list_elem_of_singleton; auto|]); intros y [Hy| ->]%Hsplit;
      try (by apply Hle); try (by rewrite Hflip).
    + apply (offer_cmp_trans b m y); [by rewrite Hc|by apply Hle].
    + unfold offer_cmp. by rewrite !N.compare_refl.
Qed.

(** ** Rows and the samples they are about *)
Definition row_key (row : MarketRollup) : GroupKey := (mr_region row, mr_item row, mr_kind row, mr_track row).

Definition scoped (scope : Scope.t) (samples : list RealmSample) : list RealmSample :=
  match scope with Scope.Region_ => samples | Scope.Realm_ r => filter (fun s => rs_realm s = r) samples end.

Definition row_samples (catalog : Catalog) (history : list RealmSample) (row : MarketRollup) : list RealmSample :=
  scoped (mr_scope row) (filter (fun s => group_key catalog s = row_key row) history).

Lemma sorted_realms_elem samples r : r ∈ sorted_realms samples <-> exists s, s ∈ samples /\ rs_realm s = r.
Proof.
  unfold sorted_realms, sort_unstable, sort_by_key, realms_of. rewrite sort_by_perm, elem_of_elements, elem_of_list_to_set, list_elem_of_fmap.
  split; intros (s & H1 & H2); exists s; naive_solver.
Qed.

Lemma sorted_realms_NoDup samples : NoDup (sorted_realms samples).
Proof. unfold sorted_realms, sort_unstable, sort_by_key, realms_of. rewrite sort_by_perm. apply NoDup_elements. Qed.

(** The rows are one [roll] per market and scope, over exactly its samples. *)
Lemma rollups_elem history ladders catalog window row :
  row ∈ rollups history ladders catalog window <->
  exists k scope, row = roll k.1.1.1 k.1.1.2 k.1.2 k.2 scope (scoped scope (filter (fun s => group_key catalog s = k) history))
      (newest_of history) ladders catalog window /\
    scoped scope (filter (fun s => group_key catalog s = k) history) <> [].
Proof.
  unfold rollups. rewrite list_elem_of_bind. setoid_rewrite sort_by_perm. setoid_rewrite elem_of_map_to_list'.
  setoid_rewrite group_by_lookup. setoid_rewrite list_fmap_id. split.
  - intros ([[[[region item] kind] track] samples] & Hrow & Hg). cbn [fst snd] in Hg.
    set (k := (region, item, kind, track)) in *. destruct (filter (fun x => group_key catalog x = k) history) as [|s l] eqn:Hf; [done|].
    injection Hg as <-. unfold rows_of in Hrow. apply elem_of_cons in Hrow as [->|(r & -> & Hr)%list_elem_of_fmap].
    + exists k, Scope.Region_. cbn [scoped]. by rewrite Hf.
    + exists k, (Scope.Realm_ r). cbn [scoped]. rewrite Hf. split; [done|]. apply sorted_realms_elem in Hr as (x & Hx & Hxr).
      intros Hn. by apply (filter_nil_not_elem_of _ _ x Hn).
  - intros ([[[region item] kind] track] & scope & -> & Hne). set (k := (region, item, kind, track)) in *.
    set (g := filter (fun s => group_key catalog s = k) history) in *. exists (k, g). cbn [fst snd]. fold g. split.
    + unfold rows_of, k. apply elem_of_cons. destruct scope as [|r]; [by left|]. right. apply list_elem_of_fmap. exists r. split; [done|].
      cbn [scoped] in Hne. destruct (filter (fun s => rs_realm s = r) g) as [|x l] eqn:Hf; [done|].
      assert (x ∈ filter (fun s => rs_realm s = r) g) as Hx by (rewrite Hf; left). apply list_elem_of_filter in Hx as [Hr Hx].
      apply sorted_realms_elem. by exists x.
    + destruct g eqn:Hgg; [|done]. destruct scope; done.
Qed.

Lemma rollups_NoDup history ladders catalog window :
  NoDup ((fun row => (row_key row, mr_scope row)) <$> rollups history ladders catalog window).
Proof.
  unfold rollups. set (groups := sort_by _ _).
  assert (forall (f : GroupKey * list RealmSample -> list MarketRollup), (fun row => (row_key row, mr_scope row)) <$> (groups ≫= f)
    = groups ≫= (fun g => (fun row => (row_key row, mr_scope row)) <$> f g)) as ->.
  { intros f. generalize groups. induction groups0 as [|g l IH]; [done|]. cbn. by rewrite fmap_app, IH. }
  assert (forall g, (fun row => (row_key row, mr_scope row)) <$> rows_of (newest_of history) ladders catalog window g =
    (g.1, Scope.Region_) :: ((fun r => (g.1, Scope.Realm_ r)) <$> sorted_realms g.2)) as Hrows.
  { intros [[[[region item] kind] track] samples]. unfold rows_of. rewrite fmap_cons, <- list_fmap_compose. done. }
  apply NoDup_bind.
  - intros [k g] [k' g'] [k2 scope] Hg Hg'. rewrite !Hrows. cbn [fst snd]. intros H1 H2.
    assert (k2 = k) as -> by (apply elem_of_cons in H1 as [[= -> _]|(r & [= -> _] & _)%list_elem_of_fmap]; done).
    assert (k = k') as <- by (apply elem_of_cons in H2 as [[= -> _]|(r & [= -> _] & _)%list_elem_of_fmap]; done).
    unfold groups in Hg, Hg'. rewrite sort_by_perm in Hg, Hg'. apply elem_of_map_to_list in Hg, Hg'. congruence.
  - intros [k g] _. rewrite Hrows. cbn [fst snd]. apply NoDup_cons. split; [by intros (r & [=] & _)%list_elem_of_fmap|].
    apply NoDup_fmap_2; [|apply sorted_realms_NoDup]. by intros r r' [= ->].
  - unfold groups. rewrite sort_by_perm. apply NoDup_map_to_list.
Qed.

(** ** What a row says *)
Definition rollup_ok (catalog : Catalog) (history : list RealmSample) (row : MarketRollup) : Prop :=
  let samples := row_samples catalog history row in
  let current := filter (is_current (newest_of history)) samples in
  samples <> [] /\
  mr_cheapest_now row = minN (rs_min_price <$> current) /\
  (mr_cheapest_now row = None <->
     forall s, s ∈ samples -> exists s', s' ∈ history /\ same_shelf s s' /\ rs_observed_at s < rs_observed_at s') /\
  (is_Some (mr_cheapest_realm row) <-> is_Some (mr_cheapest_now row)) /\
  (forall r, mr_cheapest_realm row = Some r ->
     exists s, s ∈ current /\ rs_realm s = r /\ mr_cheapest_now row = Some (rs_min_price s)) /\
  (forall c, mr_cheapest_now row = Some c -> exists m d e, mr_median_realm_now row = Some m /\ mr_dearest_realm_now row = Some d /\
     mr_cheapest_ever row = Some e /\ e <= c /\ c <= m /\ m <= d) /\
  mr_realms_listing row <= mr_realms_collected row /\
  (mr_scope row = Scope.Region_ -> mr_depth row = None).

Lemma scoped_elem scope samples s :
  s ∈ scoped scope samples <-> s ∈ samples /\ match scope with Scope.Region_ => True | Scope.Realm_ r => rs_realm s = r end.
Proof. destruct scope; cbn [scoped]; [tauto|]. rewrite list_elem_of_filter. tauto. Qed.

Lemma across_ordered l c :
  head (sort_unstable l) = Some c ->
  exists m d, sort_unstable l !! (length (sort_unstable l) / 2)%nat = Some m /\ last (sort_unstable l) = Some d /\ c <= m /\ m <= d.
Proof.
  intros Hc. pose proof (sort_by_key_sorted id l) as Hs. fold (sort_unstable l) in Hs. set (k := sort_unstable l) in *. clearbody k.
  assert (length k / 2 < length k)%nat as Hlt by (destruct k; [done|]; apply Nat.div_lt; cbn; lia).
  destruct (lookup_lt_is_Some_2 k _ Hlt) as [m Hm]. destruct (last k) as [d|] eqn:Hd; [|by apply last_None in Hd; rewrite Hd in Hc].
  exists m, d. pose proof (list_elem_of_lookup_2 _ _ _ Hm) as Hin. split_and!; [done|done|..].
  - exact (sorted_head id k c Hs Hc m Hin).
  - exact (sorted_last id k d Hs Hd m Hin).
Qed.

(** Every realm with a current copy was collected. *)
Lemma realms_listing_collected history region item (current : list RealmSample) :
  Forall (fun s => s ∈ history /\ rs_region s = region /\ rs_item s = item) current ->
  (size (list_to_set (rs_realm <$> current) : gset N) <=
   length (filter (fun kv => kv.1.1.1 = region /\ kv.1.1.2 = item) (map_to_list (newest_of history))))%nat.
Proof.
  intros Hall. rewrite Forall_forall in Hall. set (keys := filter _ _). rewrite <- (length_fmap (fun kv => kv.1.2) keys).
  etrans; [|apply size_list_to_set_le]. apply subseteq_size. intros r. rewrite !elem_of_list_to_set.
  intros (s & -> & Hs)%list_elem_of_fmap. destruct (Hall s Hs) as (Hin & Hr & Hi). apply list_elem_of_fmap.
  assert (rs_observed_at s ∈ rs_observed_at <$> filter (same_shelf s) history) as Ho.
  { apply list_elem_of_fmap_2. by apply list_elem_of_filter. }
  destruct (maxN_upper _ _ Ho) as (t & Ht & _). rewrite <- newest_of_lookup in Ht. exists ((rs_region s, rs_item s, rs_realm s), t).
  split; [done|]. apply list_elem_of_filter. split; [done|]. by apply elem_of_map_to_list.
Qed.

Lemma newest_of_size history : (size (newest_of history) <= length history)%nat.
Proof.
  induction history as [|s l IH] using rev_ind; [done|]. unfold newest_of in *. rewrite foldl_app, length_app. cbn [foldl length].
  unfold note_newest at 1. set (m := foldl note_newest ∅ l) in *. set (k := (_, _, _)).
  destruct (m !! k) eqn:Hk; [rewrite map_size_insert_Some by done; lia|rewrite map_size_insert_None by done; lia].
Qed.

Lemma wrap_mono_small w a b : a <= b -> b < 2 ^ w -> wrap w a <= wrap w b.
Proof. intros Hab Hb. rewrite !wrap_small by lia. done. Qed.

Lemma roll_ok history ladders catalog window row :
  N.of_nat (length history) < 2 ^ 32 -> row ∈ rollups history ladders catalog window -> rollup_ok catalog history row.
Proof.
  intros Hlen (k & scope & -> & Hne)%rollups_elem. destruct k as [[[region item] kind] track]. cbn [fst snd].
  set (k := (region, item, kind, track)) in *. unfold rollup_ok, row_samples, row_key.
  cbn [roll mr_scope mr_region mr_item mr_kind mr_track mr_cheapest_now mr_cheapest_realm mr_median_realm_now mr_dearest_realm_now mr_cheapest_ever mr_depth mr_realms_listing mr_realms_collected].
  fold k. set (samples := scoped scope (filter (fun s => group_key catalog s = k) history)) in *.
  assert (forall s, s ∈ samples -> s ∈ history /\ rs_region s = region /\ rs_item s = item) as Hsam.
  { intros s [[Hk Hin]%list_elem_of_filter _]%scoped_elem. unfold group_key, k in Hk. by injection Hk as -> -> _ _. }
  set (current := filter (is_current (newest_of history)) samples).
  assert (forall s, s ∈ current <-> s ∈ samples /\ is_current (newest_of history) s) as Hcur by (intros s; unfold current; rewrite list_elem_of_filter; tauto).
  rewrite cheapest_across. split_and!; [done|done|..].
  - split.
    + intros Hn s Hs. destruct (Hsam s Hs) as (Hin & _). destruct (decide (is_current (newest_of history) s)) as [Hc|Hc].
      { assert (s ∈ current) as Hsc by (by apply Hcur). destruct current; [by apply not_elem_of_nil in Hsc|done]. }
      unfold is_current in Hc. rewrite newest_of_lookup in Hc.
      assert (rs_observed_at s ∈ rs_observed_at <$> filter (same_shelf s) history) as Ho by (apply list_elem_of_fmap_2; by apply list_elem_of_filter).
      destruct (maxN_upper _ _ Ho) as (t & Ht & Hle). rewrite Ht in Hc. pose proof (maxN_spec _ _ Ht) as [(s' & Heq & [Hsh Hin']%list_elem_of_filter)%list_elem_of_fmap _].
      exists s'. split_and!; [done|done|]. destruct (decide (rs_observed_at s = t)); [congruence|lia].
    + intros Hold. destruct current as [|s l] eqn:Hc; [done|]. destruct (proj1 (Hcur s) ltac:(left)) as [Hs Hsc].
      destruct (Hold s Hs) as (s' & Hin & Hsh & Hlt). destruct (Hsam s Hs) as (Hin0 & _).
      pose proof (proj1 (is_current_iff history s Hin0) Hsc s' Hin Hsh). lia.
  - rewrite <- cheapest_across, fmap_is_Some, head_sorted_minN. unfold min_by, minN, values.
    destruct (entries (per_realm_of current)) as [|x l]; cbn; [done|]. split; intros _; eexists; reflexivity.
  - intros r ([r' p] & [Hin Hmin]%min_by_offer & ->)%fmap_Some. cbn [fst]. apply elem_of_entries in Hin.
    pose proof (per_realm_of_spec _ _ _ Hin) as [(s & Hs & Hr & <-) Hle]. exists s. split_and!; [done|done|].
    rewrite <- cheapest_across, head_sorted_minN. destruct (minN_lower (values (per_realm_of current)) (rs_min_price s)) as (m & Hm & Hml);
      [apply elem_of_values; eauto|]. rewrite Hm. f_equal. apply minN_spec in Hm as [(r & Hr')%elem_of_values _].
    apply elem_of_entries, Hmin, offer_cmp_le in Hr'. cbn in Hr'. lia.
  - intros c Hc. rewrite <- cheapest_across in Hc. destruct (across_ordered _ _ Hc) as (m & d & -> & -> & Hcm & Hmd).
    rewrite cheapest_across in Hc. apply minN_spec in Hc as [(s & -> & Hs)%list_elem_of_fmap _]. apply Hcur in Hs as [Hs _].
    destruct (minN_lower (rs_min_price <$> samples) (rs_min_price s)) as (e & -> & He); [by apply list_elem_of_fmap_2|]. by exists m, d, e.
  - assert (forall s, s ∈ current -> s ∈ history /\ rs_region s = region /\ rs_item s = item) as Hci by (intros s [Hs _]%Hcur; by apply Hsam).
    destruct scope as [|r].
    + apply wrap_mono_small; [|].
      * pose proof (realms_listing_collected history region item current (proj2 (Forall_forall _ _) Hci)). lia.
      * pose proof (newest_of_size history) as Hsz. rewrite <- length_map_to_list in Hsz.
        pose proof (length_filter (fun kv => kv.1.1.1 = region /\ kv.1.1.2 = item) (map_to_list (newest_of history))). lia.
    + unfold distinct. assert (size (list_to_set (rs_realm <$> current) : gset N) <= 1)%nat as H1.
      { rewrite <- (size_singleton (C := gset N) r). apply subseteq_size. intros x. rewrite elem_of_list_to_set, elem_of_singleton.
        intros (s & -> & [Hs _]%Hcur)%list_elem_of_fmap. apply scoped_elem in Hs as [_ Hs]. exact Hs. }
      rewrite wrap_small; lia.
  - by intros ->.
Qed.

(** C33: The per-realm rows cover the history and say what is on sale.  Each observation is
    counted in its region's row and in its realm's, no market and scope has two rows,
    and every row is about some observation.  A row's current price is the cheapest copy
    of the snapshots that no newer snapshot of the same realm supersedes, of whatever
    track; it has none exactly when every copy is superseded, so a track nobody lists any
    more has no price.  The realm named for the price charges it; the median and the
    dearest realm follow in order, and nothing ever cheaper is forgotten; no more realms
    list than were collected; and a region has no sweep. *)
Theorem rollups_sound history ladders catalog window :
  N.of_nat (length history) < 2 ^ 32 ->
  let rows := rollups history ladders catalog window in
  (forall s scope, s ∈ history -> scope = Scope.Region_ \/ scope = Scope.Realm_ (rs_realm s) ->
     exists row, row ∈ rows /\ row_key row = group_key catalog s /\ mr_scope row = scope /\ s ∈ row_samples catalog history row) /\
  NoDup ((fun row => (row_key row, mr_scope row)) <$> rows) /\
  Forall (rollup_ok catalog history) rows.
Proof.
  intros Hlen rows. split_and!.
  - intros s scope Hs Hscope. set (k := group_key catalog s). set (g := filter (fun x => group_key catalog x = k) history).
    assert (s ∈ scoped scope g) as Hin.
    { apply scoped_elem. split; [by apply list_elem_of_filter|]. by destruct Hscope as [->| ->]. }
    exists (roll k.1.1.1 k.1.1.2 k.1.2 k.2 scope (scoped scope g) (newest_of history) ladders catalog window).
    assert (forall r, row_key (roll k.1.1.1 k.1.1.2 k.1.2 k.2 scope r (newest_of history) ladders catalog window) = k) as Hk
      by (intros r; by destruct k as [[[]]]).
    split_and!; [|apply Hk|done|unfold row_samples; by rewrite Hk].
    apply rollups_elem. exists k, scope. split; [done|]. fold g. intros Hn. rewrite Hn in Hin. by apply not_elem_of_nil in Hin.
  - apply rollups_NoDup.
  - apply Forall_forall. intros row Hrow. by eapply roll_ok.
Qed.

(** Two tracks of one piece on one realm: the second snapshot lists only the second. *)
Definition demo_sample (variant : string) (at_ price : N) : RealmSample :=
  {| rs_item := 7; rs_region := Eu; rs_realm := 1403; rs_variant := variant; rs_observed_at := at_; rs_min_price := price;
     rs_median_price := price; rs_max_price := price; rs_listings := 1 |}.
Definition demo_tracks : Catalog :=
  {| c_id := "c"; c_expansion := "e"; c_status := CatalogStatus.Active; c_version := 1; c_patches := []; c_raid_tiers := [];
     c_items := []; c_item_levels := ∅; c_tracks := {["1" := Track.Hero; "2" := Track.Myth]}; c_modifiers := ∅; c_notes := [] |}.
Definition demo_rolled : list RealmSample := [demo_sample "1" 1000 50; demo_sample "2" 1000 90; demo_sample "2" 2000 80].

Lemma rollups_sound_witness :
  N.of_nat (length demo_rolled) < 2 ^ 32 /\
  (fun row => (mr_track row, Scope.realm_id (mr_scope row), mr_cheapest_now row)) <$> rollups demo_rolled ∅ demo_tracks Window.All =
    [(Some Track.Hero, 0, None); (Some Track.Hero, 1403, None); (Some Track.Myth, 0, Some 80); (Some Track.Myth, 1403, Some 80)] /\
  Forall (rollup_ok demo_tracks demo_rolled) (rollups demo_rolled ∅ demo_tracks Window.All).
Proof.
  assert (N.of_nat (length demo_rolled) < 2 ^ 32) as Hl by (vm_compute; reflexivity). split; [exact Hl|]. split; [vm_compute; reflexivity|].
  apply (rollups_sound demo_rolled ∅ demo_tracks Window.All Hl).
Defined.
