(* ===== verification/Deals.v ===== *)
(** * Deals: which published markets may be called a bargain

    Models [crates/app-core/src/market/deals.rs]: a deal is selected from the stored
    rows of [Rollup] alone, by a threshold on the historical median, an evidence gate and
    an availability policy; what the policy withheld is counted. *)
From Stdlib Require Import String.
From stdpp Require Import prelude gmap sorting.
From S2P Require Import Prelude Time Market Catalog Engine MarketKey Realm Rollup.

Definition MIN_DEAL_PRICE : Copper := 1500000.
Definition MIN_LISTING_REALMS : N := 3.
Definition MIN_LISTING_COVERAGE_PERCENT : N := 50.
Definition PERCENTILE_REALMS : nat := 15.

Record Deal := {
  de_item : ItemId; de_kind : ItemKind.t; de_track : option Track.t; de_realm : RealmId; de_price : Copper;
  de_threshold : Copper; de_saving_percent : N; de_realms_listing : N; de_realms_collected : N }.

Record DealSelection := { deals : list Deal; suppressed : N }.

Definition threshold (historical_median : Copper) (offers : list (Copper * RealmId)) : Copper :=
  if decide (PERCENTILE_REALMS <= length offers)%nat
  then N.min historical_median (from_option fst 0 (offers !! (length offers / 3)%nat))
  else historical_median.

(** The evidence rule of §9: a position that refused nothing. *)
Definition evidenced (row : MarketRollup) : bool :=
  match mr_position row with Some p => bool_decide (pos_insufficient p = None) | None => false end.

Definition offer_of (require_evidence : bool) (row : MarketRollup) : option (Copper * RealmId) :=
  match mr_scope row with
  | Scope.Region_ => None
  | Scope.Realm_ realm =>
      if negb require_evidence || evidenced row then
        if bool_decide (0 < mr_listings_now row) then (fun price => (price, realm)) <$> mr_cheapest_now row else None
      else None
  end.

Definition price_cmp (a b : Copper * RealmId) : comparison := cmp_then (N.compare a.1 b.1) (N.compare a.2 b.2).

Definition offered (rows : list MarketRollup) (require_evidence : bool) : list (Copper * RealmId) :=
  sort_by price_cmp (omap (offer_of require_evidence) rows).

Definition regional_of (rows : list MarketRollup) : option MarketRollup :=
  find_first (fun row => bool_decide (mr_scope row = Scope.Region_)) rows.

(** The availability policy. *)
Definition too_thin (regional : MarketRollup) : bool :=
  bool_decide (mr_realms_listing regional < MIN_LISTING_REALMS) || bool_decide (mr_realms_collected regional = 0) ||
  bool_decide (sat_mul u32_max (mr_realms_listing regional) 100 <
               sat_mul u32_max (mr_realms_collected regional) MIN_LISTING_COVERAGE_PERCENT).

Definition deal (rows : list MarketRollup) : option Deal :=
  regional ← regional_of rows;
  distribution ← mr_distribution regional;
  position ← mr_position regional;
  if bool_decide (pos_insufficient position <> None) || too_thin regional then None
  else
    let offers := offered rows true in
    first ← head offers;
    let '(price, realm) := first in
    let limit := threshold (median distribution) offers in
    if bool_decide (price < MIN_DEAL_PRICE) || bool_decide (limit <= price) then None
    else Some {| de_item := mr_item regional; de_kind := mr_kind regional; de_track := mr_track regional; de_realm := realm;
                 de_price := price; de_threshold := limit;
                 de_saving_percent := wrap 8 (wrap 64 ((limit - price) * 100) / limit);
                 de_realms_listing := mr_realms_listing regional; de_realms_collected := mr_realms_collected regional |}.

Definition candidate (rows : list MarketRollup) : bool :=
  match regional_of rows with
  | Some regional =>
      match mr_distribution regional with
      | Some distribution =>
          let offers := offered rows false in
          match head offers with
          | Some (price, _) => bool_decide (MIN_DEAL_PRICE <= price /\ price < threshold (median distribution) offers)
          | None => false
          end
      | None => false
      end
  | None => false
  end.

Abbreviation MarketId := (ItemId * ItemKind.t * option Track.t)%type.
Definition market_id (row : MarketRollup) : MarketId := (mr_item row, mr_kind row, mr_track row).
Definition market_id_cmp (a b : MarketId) : comparison :=
  let '(i, k, t) := a in let '(i', k', t') := b in
  cmp_then (N.compare i i') (cmp_then (N.compare (ItemKind.rank k) (ItemKind.rank k')) (option_cmp Track_cmp t t')).

Definition deal_cmp (a b : Deal) : comparison :=
  cmp_then (N.compare (de_saving_percent b) (de_saving_percent a)) (cmp_then (N.compare (de_price a) (de_price b))
    (cmp_then (N.compare (de_item a) (de_item b)) (option_cmp Track_cmp (de_track a) (de_track b)))).

(** One market's rows: a deal found, or one more withheld, or neither. *)
Definition select_group (acc : list Deal * N) (rows : list MarketRollup) : list Deal * N :=
  match deal rows with
  | Some d => (acc.1 ++ [d], acc.2)
  | None => if candidate rows then (acc.1, acc.2 + 1) else acc
  end.

Definition markets_of (rows : list MarketRollup) : gmap MarketId (list MarketRollup) :=
  group_by market_id id (filter (fun row => ItemKind.is_commodity (mr_kind row) = false) rows).

Definition select (rows : list MarketRollup) : DealSelection :=
  let groups := (sort_by (fun a b => market_id_cmp a.1 b.1) (map_to_list (markets_of rows))).*2 in
  let '(found, withheld) := foldl select_group ([], 0) groups in
  {| deals := sort_by deal_cmp found; suppressed := withheld |}.

Definition find (rows : list MarketRollup) : list Deal := deals (select rows).

(** ** What a deal promises *)
Definition market_rows (rows : list MarketRollup) (k : MarketId) : list MarketRollup :=
  filter (fun row => market_id row = k) (filter (fun row => ItemKind.is_commodity (mr_kind row) = false) rows).

Definition deal_id (d : Deal) : MarketId := (de_item d, de_kind d, de_track d).

(** A realm sells a copy at a price, on evidence. *)
Definition sells (rows : list MarketRollup) (price : Copper) (realm : RealmId) : Prop :=
  exists row, row ∈ rows /\ mr_scope row = Scope.Realm_ realm /\ evidenced row = true /\ 0 < mr_listings_now row /\
    mr_cheapest_now row = Some price.

(** Numbers far above what an auction house holds, below which nothing saturates. *)
Definition row_fits (row : MarketRollup) : Prop :=
  mr_realms_listing row <= 2 ^ 24 /\ mr_realms_collected row <= 2 ^ 24 /\
  from_option (fun d => median d <= 2 ^ 56) True (mr_distribution row).

Definition justified (rows : list MarketRollup) (d : Deal) : Prop :=
  let market := market_rows rows (deal_id d) in
  exists regional history,
    regional ∈ market /\ mr_scope regional = Scope.Region_ /\ mr_distribution regional = Some history /\
    evidenced regional = true /\ 3 <= mr_realms_listing regional /\ mr_realms_collected regional <= 2 * mr_realms_listing regional /\
    MIN_DEAL_PRICE <= de_price d /\ de_price d < de_threshold d /\ de_threshold d <= median history /\
    sells market (de_price d) (de_realm d) /\ (forall p r, sells market p r -> de_price d <= p) /\
    de_saving_percent d = (de_threshold d - de_price d) * 100 / de_threshold d /\ de_saving_percent d < 100.

Lemma offered_sells rows p r : (p, r) ∈ offered rows true <-> sells rows p r.
Proof.
  unfold offered. rewrite sort_by_perm, list_elem_of_omap. unfold sells, offer_of. split.
  - intros (row & Hin & Ho). exists row. destruct (mr_scope row) as [|realm]; [done|]. cbn [negb orb] in Ho.
    destruct (evidenced row); [|done]. case_bool_decide; [|done]. by apply fmap_Some in Ho as (q & Hq & [= -> ->]).
  - intros (row & Hin & Hs & He & Hl & Hc). exists row. split; [done|]. rewrite Hs, He, Hc. cbn. by rewrite bool_decide_eq_true_2.
Qed.

Lemma price_cmp_le a b : price_cmp a b <> Gt -> a.1 <= b.1.
Proof. unfold price_cmp. destruct (N.compare_spec a.1 b.1); cbn; intros; lia || done. Qed.

Lemma price_cmp_opp a b : price_cmp a b = CompOpp (price_cmp b a).
Proof. unfold price_cmp. rewrite cmp_then_opp. f_equal; apply N.compare_antisym. Qed.

Lemma offered_head rows e p r : head (offered rows e) = Some (p, r) -> forall o, o ∈ offered rows e -> p <= o.1.
Proof.
  intros Hh o Ho. apply (sorted_head fst (offered rows e) (p, r)); [|exact Hh|exact Ho].
  apply sort_by_sorted; [apply price_cmp_opp|apply price_cmp_le|intros x y z; lia].
Qed.

Lemma threshold_le m offers : threshold m offers <= m.
Proof. unfold threshold. case_decide; lia. Qed.

Lemma regional_of_Some rows row : regional_of rows = Some row -> row ∈ rows /\ mr_scope row = Scope.Region_.
Proof. intros [Hin Hp]%find_first_Some. by apply bool_decide_eq_true in Hp. Qed.

Lemma half_listed a b :
  a <= 2 ^ 24 -> b <= 2 ^ 24 -> ~ (sat_mul u32_max a 100 < sat_mul u32_max b 50) -> b <= 2 * a.
Proof.
  intros Ha Hb. unfold sat_mul. rewrite !N.min_l; [lia|..]; unfold u32_max; lia.
Qed.

Lemma too_thin_spec row :
  row_fits row -> too_thin row = false -> 3 <= mr_realms_listing row /\ mr_realms_collected row <= 2 * mr_realms_listing row.
Proof.
  intros (F1 & F2 & _) [[T1%bool_decide_eq_false _]%orb_false_iff T3%bool_decide_eq_false]%orb_false_iff.
  split; [by apply N.nlt_ge in T1|]. by apply half_listed.
Qed.

Lemma saving_below limit price : 0 < price -> price < limit -> (limit - price) * 100 / limit < 100.
Proof. intros Hp Hlt. apply N.Div0.div_lt_upper_bound. lia. Qed.

Lemma saving_fits limit price : limit <= 2 ^ 56 -> (limit - price) * 100 < 2 ^ 64.
Proof. intros Hl. lia. Qed.

Lemma saving_spec limit price :
  0 < price -> price < limit -> limit <= 2 ^ 56 ->
  wrap 8 (wrap 64 ((limit - price) * 100) / limit) = (limit - price) * 100 / limit /\ (limit - price) * 100 / limit < 100.
Proof.
  intros Hp Hlt Hl. pose proof (saving_below limit price Hp Hlt) as Hsave. rewrite (wrap_small 64 _ (saving_fits limit price Hl)).
  split; [|exact Hsave]. apply wrap_small. apply (N.lt_trans _ 100); [exact Hsave|reflexivity].
Qed.

(** What [deal] answers is justified by the rows it was given. *)
Lemma deal_sound rows d :
  Forall row_fits rows -> deal rows = Some d ->
  exists regional history,
    regional_of rows = Some regional /\ deal_id d = market_id regional /\ mr_distribution regional = Some history /\
    evidenced regional = true /\ 3 <= mr_realms_listing regional /\ mr_realms_collected regional <= 2 * mr_realms_listing regional /\
    MIN_DEAL_PRICE <= de_price d /\ de_price d < de_threshold d /\ de_threshold d <= median history /\
    sells rows (de_price d) (de_realm d) /\ (forall p r, sells rows p r -> de_price d <= p) /\
    de_saving_percent d = (de_threshold d - de_price d) * 100 / de_threshold d /\ de_saving_percent d < 100.
Proof.
  intros Hfit. unfold deal. intros (regional & Hreg & (dist & Hdist & (pos & Hpos & Hd)%bind_Some)%bind_Some)%bind_Some.
  destruct (bool_decide (pos_insufficient pos <> None) || too_thin regional) eqn:Hgate; [done|].
  apply orb_false_iff in Hgate as [He%bool_decide_eq_false Ht]. apply bind_Some in Hd as ([price realm] & Hfirst & Hd).
  set (limit := threshold (median dist) (offered rows true)) in *. pose proof (threshold_le (median dist) (offered rows true)) as Hlim. fold limit in Hlim.
  clearbody limit. destruct (bool_decide (price < MIN_DEAL_PRICE) || bool_decide (limit <= price)) eqn:Hprice; [done|].
  apply orb_false_iff in Hprice as [Hmin%bool_decide_eq_false Hlt%bool_decide_eq_false]. injection Hd as <-.
  apply regional_of_Some in Hreg as Hreg'. destruct Hreg' as [Hin _]. rewrite Forall_forall in Hfit. destruct (Hfit _ Hin) as (F1 & F2 & F3).
  rewrite Hdist in F3. cbn [from_option] in F3. destruct (too_thin_spec regional (Hfit _ Hin) Ht) as [T1 T2].
  apply N.nlt_ge in Hmin. apply N.nle_gt in Hlt. assert (0 < price) as Hpos' by (unfold MIN_DEAL_PRICE in Hmin; lia).
  destruct (saving_spec limit price Hpos' Hlt ltac:(lia)) as [-> Hsave].
  exists regional, dist. cbn [deal_id de_item de_kind de_track de_realm de_price de_threshold de_saving_percent].
  split_and!; [exact Hreg|reflexivity|exact Hdist| |exact T1|exact T2|exact Hmin|exact Hlt|exact Hlim| | |reflexivity|exact Hsave].
  - unfold evidenced. rewrite Hpos. apply bool_decide_eq_true. by destruct (decide (pos_insufficient pos = None)).
  - apply offered_sells. by apply head_Some_elem_of.
  - intros p r Hs%offered_sells. exact (offered_head _ _ _ _ Hfirst _ Hs).
Qed.

(** ** The selection *)
Lemma markets_of_lookup rows k :
  markets_of rows !! k = match market_rows rows k with [] => None | g => Some g end.
Proof. unfold markets_of. rewrite group_by_lookup, list_fmap_id. done. Qed.

(** A market whose price would do and which the policy withholds. *)
Definition withheld (rows : list MarketRollup) : Prop := deal rows = None /\ candidate rows = true.

#[export] Instance withheld_dec rows : Decision (withheld rows).
Proof.
  unfold withheld. destruct (deal rows) as [d|]; [right; by intros [? _]|]. destruct (candidate rows); [by left|right; by intros [_ ?]].
Defined.

Lemma select_groups groups : forall acc n,
  foldl select_group (acc, n) groups = (acc ++ omap deal groups, n + N.of_nat (length (filter withheld groups))).
Proof.
  induction groups as [|g groups IH]; intros acc n; [by rewrite app_nil_r, N.add_0_r|]. cbn [foldl]. unfold select_group at 2.
  cbn [omap list_omap fst snd]. rewrite filter_cons. destruct (deal g) as [d|] eqn:Hd.
  - rewrite decide_False by (intros [? _]; congruence). rewrite IH, <- app_assoc. done.
  - destruct (candidate g) eqn:Hc.
    + rewrite decide_True by done. rewrite IH. f_equal. cbn [length]. lia.
    + rewrite decide_False by (intros [_ ?]; congruence). apply IH.
Qed.

Lemma deal_cmp_saving a b : deal_cmp a b <> Gt -> de_saving_percent b <= de_saving_percent a.
Proof. unfold deal_cmp. destruct (N.compare_spec (de_saving_percent b) (de_saving_percent a)); cbn; intros; lia || done. Qed.

Lemma Track_cmp_opp a b : option_cmp Track_cmp a b = CompOpp (option_cmp Track_cmp b a).
Proof. destruct a, b; cbn; try done. apply N.compare_antisym. Qed.

Lemma deal_cmp_opp a b : deal_cmp a b = CompOpp (deal_cmp b a).
Proof. unfold deal_cmp. rewrite !cmp_then_opp. repeat f_equal; (apply N.compare_antisym || apply Track_cmp_opp). Qed.

Lemma market_rows_fit rows k : Forall row_fits rows -> Forall row_fits (market_rows rows k).
Proof. intros Hf. by apply Forall_filter, Forall_filter. Qed.

Lemma deal_of_market rows k d : Forall row_fits rows -> deal (market_rows rows k) = Some d -> deal_id d = k.
Proof.
  intros Hf Hd. destruct (deal_sound _ _ (market_rows_fit rows k Hf) Hd) as (regional & _ & Hr & -> & _).
  apply regional_of_Some in Hr as [Hin _]. by apply list_elem_of_filter in Hin as [Hk _].
Qed.

(** C34: The deals page tells the truth about the rows it reads.  There is at most one deal
    per market, and one exactly for the markets whose rows make one; each names a realm
    that sells at the price on evidence, no realm sells cheaper on evidence, the price is
    worth the trip and below the threshold, which is never above the historical median;
    the region's own history is sufficient, at least three realms and half of those
    collected list it; the saving is a percentage below one hundred, the largest first; and what is counted
    as withheld are the markets that would have done but for that. *)
Theorem deals_sound rows :
  Forall row_fits rows ->
  let s := select rows in
  (forall d, d ∈ deals s <-> exists k, deal (market_rows rows k) = Some d) /\
  NoDup (deal_id <$> deals s) /\ Forall (justified rows) (deals s) /\
  StronglySorted (fun a b => de_saving_percent b <= de_saving_percent a) (deals s) /\
  suppressed s = N.of_nat (length (filter (fun kg => withheld kg.2) (map_to_list (markets_of rows)))).
Proof.
  intros Hfit s. unfold s, select. set (groups := sort_by _ _). rewrite select_groups. cbn [deals suppressed app].
  assert (groups ≡ₚ map_to_list (markets_of rows)) as Hp by apply sort_by_perm.
  assert (forall d, d ∈ sort_by deal_cmp (omap deal groups.*2) <-> exists k, deal (market_rows rows k) = Some d) as Hel.
  { intros d. rewrite sort_by_perm, list_elem_of_omap. setoid_rewrite list_elem_of_fmap. split.
    - intros (g & ([k g'] & -> & Hin) & Hd). rewrite Hp in Hin. apply elem_of_map_to_list in Hin. rewrite markets_of_lookup in Hin.
      cbn in Hd. exists k. by destruct (market_rows rows k); [|injection Hin as ->].
    - intros [k Hd]. assert (markets_of rows !! k = Some (market_rows rows k)) as Hk.
      { rewrite markets_of_lookup. by destruct (market_rows rows k). }
      exists (market_rows rows k). split; [|done]. exists (k, market_rows rows k). split; [done|]. rewrite Hp. by apply elem_of_map_to_list. }
  split_and!; [exact Hel| | | |].
  - rewrite sort_by_perm. assert (forall kg, kg ∈ groups -> markets_of rows !! kg.1 = Some kg.2) as Hg.
    { intros [k g] Hin. rewrite Hp in Hin. by apply elem_of_map_to_list in Hin. }
    assert (NoDup groups.*1) as Hnd by (rewrite Hp; apply NoDup_fst_map_to_list). clearbody groups. clear Hel Hp s.
    induction groups as [|[k g] groups IH]; [constructor|]. apply NoDup_cons in Hnd as [Hk Hnd]. rewrite fmap_cons. cbn [snd omap list_omap].
    specialize (IH ltac:(intros kg Hkg; apply Hg; by right) Hnd). destruct (deal g) as [d|] eqn:Hd; [|exact IH].
    rewrite fmap_cons. apply NoDup_cons. split; [|exact IH]. intros (d' & Heq & (g' & ([k' g''] & -> & Hin)%list_elem_of_fmap & Hd')%list_elem_of_omap)%list_elem_of_fmap.
    pose proof (Hg (k, g) ltac:(left)) as G1. pose proof (Hg (k', g'') ltac:(by right)) as G2. rewrite markets_of_lookup in G1, G2. cbn [fst snd] in *.
    assert (g = market_rows rows k) as -> by (by destruct (market_rows rows k); [|injection G1 as <-]).
    assert (g'' = market_rows rows k') as -> by (by destruct (market_rows rows k'); [|injection G2 as <-]).
    apply deal_of_market in Hd; [|done]. apply deal_of_market in Hd'; [|done]. apply Hk. apply list_elem_of_fmap.
    exists (k', market_rows rows k'). split; [cbn; congruence|done].
  - apply Forall_forall. intros d [k Hd]%Hel. pose proof (deal_of_market rows k d Hfit Hd) as Hk. unfold justified. rewrite Hk.
    destruct (deal_sound _ _ (market_rows_fit rows k Hfit) Hd) as (regional & history & Hr & _ & Hrest). exists regional, history.
    apply regional_of_Some in Hr as [Hin Hs]. split; [exact Hin|]. split; [exact Hs|exact Hrest].
  - apply sort_by_sorted; [apply deal_cmp_opp|apply deal_cmp_saving|intros x y z; lia].
  - rewrite N.add_0_l. f_equal. rewrite (length_filter_fmap snd). by rewrite Hp.
Qed.

(** Three realms of a piece, the cheapest a tenth below the region's median. *)
Definition demo_row (scope : Scope.t) (price : Copper) : MarketRollup :=
  {| mr_region := Eu; mr_item := 7; mr_kind := ItemKind.Boe; mr_track := Some Track.Hero; mr_scope := scope;
     mr_window := Window.Window.Days 30; mr_observed_at := Some 1; mr_snapshots := 30; mr_realms_listing := 3;
     mr_cheapest_now := Some price; mr_cheapest_realm := None; mr_realms_collected := 3; mr_realm_spread := None;
     mr_dearest_realm_now := None; mr_dearest_realm := None; mr_median_realm_now := None; mr_highest_now := None;
     mr_cheapest_ever := None; mr_highest_ever := None; mr_listings_now := 1; mr_listings_seen := 1; mr_depth := None;
     mr_ladder := Materialise.Ladder_default; mr_level_range := EmptyString; mr_levels := []; mr_modifiers := []; mr_series := [];
     mr_distribution := Some {| p05 := 1; p25 := 2; median := 3000000; p75 := 4000000; p95 := 5000000; iqr := 3; mad := 1; buckets := 30 |};
     mr_position := Some {| pos_rank := Some 50; pos_valuation := None; pos_insufficient := None; pos_from_median_percent := None;
                            pos_anomaly := Anomaly.Ordinary |};
     mr_swing := 0 |}.
Definition demo_market : list MarketRollup :=
  [demo_row Scope.Region_ 2700000; demo_row (Scope.Realm_ 5) 2900000; demo_row (Scope.Realm_ 6) 2700000; demo_row (Scope.Realm_ 7) 3100000].

Lemma deals_sound_witness :
  (fun d => (de_realm d, de_price d, de_saving_percent d)) <$> deals (select demo_market) = [(6, 2700000, 10)] /\
  Forall (justified demo_market) (deals (select demo_market)).
Proof.
  assert (Forall row_fits demo_market) as Hf by (repeat constructor; vm_compute; discriminate).
  split; [vm_compute; reflexivity|]. apply (deals_sound demo_market Hf).
Defined.
