(* ===== verification/FragmentCache.v ===== *)
(** * FragmentCache: rendered fragments, bounded and built once

    Models [crates/app-web/src/fragment_cache.rs].  [FragmentKey_new] is the text a
    fragment is filed under and the tag it is revalidated by.  [get_or_build] takes the
    lock once, to find or add the key's cell and to drop the oldest entries, and then
    waits on the cell; its steps interleave freely with those of other requests
    ([cache_step]): a waiting request may be the one that builds, only one builds a cell
    at a time, a failed or abandoned build leaves the cell empty for the next.

    Cells are [Arc]s: a cell dropped from the map lives on for those who hold it, so the
    model keeps them in a store of their own and names them by number. *)
From Stdlib Require Import Ascii.
From stdpp Require Import prelude gmap strings pretty relations.
From S2P Require Import Prelude Text Market.

Definition CAPACITY : nat := 512.

(** ** Keys *)
Record FragmentId := {
  fi_route : string; fi_version : option N; fi_catalog : string; fi_region : string; fi_baseline_days : N; fi_realm : string;
  fi_locale : string; fi_group : option string }.

Definition version_text (v : option N) : string := match v with Some v => pretty v | None => "-" end.

Definition FragmentKey_new (f : FragmentId) : string :=
  join "|"%char [fi_route f; "v" +:+ version_text (fi_version f); fi_catalog f; fi_region f;
                 pretty (fi_baseline_days f) +:+ "d"; fi_realm f; fi_locale f; default "*" (fi_group f)].

Definition quote : string := String (ascii_of_N 34) EmptyString.
Definition etag (key : string) : string := quote +:+ key +:+ quote.

(** ** The cache *)

(** A [OnceCell]: [c_key] records the key it was made for, [c_builder] who is building. *)
Record Cell := { c_key : string; c_value : option string; c_builder : option N }.

Record Inner := { entries : gmap string nat; order : list string }.

(** [while order.len() > CAPACITY]: the oldest goes first. *)
Fixpoint evict (order : list string) (entries : gmap string nat) : Inner :=
  match order with
  | oldest :: rest =>
      if decide (CAPACITY < length order)%nat then evict rest (delete oldest entries)
      else {| entries := entries; order := order |}
  | [] => {| entries := entries; order := [] |}
  end.

(** The locked part of [get_or_build]: the cell of the key, which may be the [fresh] one. *)
Definition find_cell (inner : Inner) (key : string) (fresh : nat) : nat * bool * Inner :=
  match entries inner !! key with
  | Some cell => (cell, false, inner)
  | None => (fresh, true, evict (order inner ++ [key]) (<[key := fresh]> (entries inner)))
  end.

(** The whole of it: the map, the cells, who waits for which key at which cell, what each
    cell was built to (with the key of the request that built it) and what was answered. *)
Record Cache := {
  inner : Inner; events_epoch : N; cells : gmap nat Cell; waiting : gmap N (string * nat);
  built : list (nat * (string * string)); answers : list (N * (string * string)) }.

Definition Cache_new : Cache :=
  {| inner := {| entries := ∅; order := [] |}; events_epoch := 0; cells := ∅; waiting := ∅; built := []; answers := [] |}.

(** [fetch_add] wraps. *)
Definition bump_events (s : Cache) : Cache :=
  {| inner := inner s; events_epoch := (events_epoch s + 1) mod 2 ^ 64; cells := cells s; waiting := waiting s; built := built s;
     answers := answers s |}.

Definition len (s : Cache) : nat := size (entries (inner s)).
Definition is_empty (s : Cache) : bool := bool_decide (len s = 0%nat).

Definition set_cells (s : Cache) (inner : Inner) (cells : gmap nat Cell) (waiting : gmap N (string * nat)) : Cache :=
  {| inner := inner; events_epoch := events_epoch s; cells := cells; waiting := waiting; built := built s; answers := answers s |}.

(** The request takes the lock and leaves with a cell. *)
Definition arrive (s : Cache) (request : N) (key : string) (fresh : nat) : Cache :=
  let '(i, added, inner') := find_cell (inner s) key fresh in
  set_cells s inner' (if added then <[i := {| c_key := key; c_value := None; c_builder := None |}]> (cells s) else cells s)
    (<[request := (key, i)]> (waiting s)).

Definition start_build (s : Cache) (request : N) (i : nat) (c : Cell) : Cache :=
  set_cells s (inner s) (<[i := {| c_key := c_key c; c_value := c_value c; c_builder := Some request |}]> (cells s)) (waiting s).

Definition finish_build (s : Cache) (key : string) (i : nat) (c : Cell) (html : string) : Cache :=
  {| inner := inner s; events_epoch := events_epoch s;
     cells := <[i := {| c_key := c_key c; c_value := Some html; c_builder := None |}]> (cells s);
     waiting := waiting s; built := built s ++ [(i, (key, html))]; answers := answers s |}.

(** The build returned an error, or the request was dropped while it built. *)
Definition fail_build (s : Cache) (request : N) (i : nat) (c : Cell) : Cache :=
  set_cells s (inner s) (<[i := {| c_key := c_key c; c_value := c_value c; c_builder := None |}]> (cells s))
    (delete request (waiting s)).

Definition answer (s : Cache) (request : N) (key html : string) : Cache :=
  {| inner := inner s; events_epoch := events_epoch s; cells := cells s; waiting := delete request (waiting s); built := built s;
     answers := answers s ++ [(request, (key, html))] |}.

(** [request] is one caller; [html] what its build returns. *)
Inductive cache_step : Cache -> Cache -> Prop :=
| request_arrives s request key fresh :
    waiting s !! request = None -> cells s !! fresh = None -> cache_step s (arrive s request key fresh)
| build_starts s request key i c :
    waiting s !! request = Some (key, i) -> cells s !! i = Some c -> c_value c = None -> c_builder c = None ->
    cache_step s (start_build s request i c)
| build_succeeds s request key i c html :
    waiting s !! request = Some (key, i) -> cells s !! i = Some c -> c_builder c = Some request ->
    cache_step s (finish_build s key i c html)
| build_fails s request key i c :
    waiting s !! request = Some (key, i) -> cells s !! i = Some c -> c_builder c = Some request ->
    cache_step s (fail_build s request i c)
| request_leaves s request key i c :
    waiting s !! request = Some (key, i) -> cells s !! i = Some c -> c_builder c <> Some request ->
    cache_step s (set_cells s (inner s) (cells s) (delete request (waiting s)))
| request_answered s request key i c html :
    waiting s !! request = Some (key, i) -> cells s !! i = Some c -> c_value c = Some html ->
    cache_step s (answer s request key html)
| events_changed s : cache_step s (bump_events s).

(** ** Revalidation *)
(** [if_none_match] is the header as text, where it is there and is text. *)
Definition known (if_none_match : option string) (tag : string) : bool :=
  match if_none_match with
  | Some value => existsb (fun t => bool_decide (trim t = tag)) (split ","%char value)
  | None => false
  end.

Inductive Body := NotModified | Html (html : string).

Record Reply := { r_body : Body; r_etag : option string; r_cache_control : option string; r_vary : option string }.

Section Respond.

(** [HeaderValue::from_str]: the texts that may be a header's value. *)
Variable header_value : string -> bool.

Definition set_header (value : string) : option string := if header_value value then Some value else None.

(** [respond], once [get_or_build] has answered. *)
Definition respond {E} (if_none_match : option string) (key : string) (cached : string + E) : Reply + E :=
  match cached with
  | inl html =>
      inl {| r_body := if known if_none_match (etag key) then NotModified else Html html;
             r_etag := set_header (etag key); r_cache_control := set_header "private, no-cache";
             r_vary := set_header "Cookie, Accept-Encoding" |}
  | inr e => inr e
  end.

End Respond.

(** ** Keys tell fragments apart *)
Definition id_ok (f : FragmentId) : Prop :=
  has_char "|"%char (fi_route f) = false /\ has_char "|"%char (fi_catalog f) = false /\ has_char "|"%char (fi_region f) = false /\
  has_char "|"%char (fi_realm f) = false /\ has_char "|"%char (fi_locale f) = false /\
  has_char "|"%char (default "" (fi_group f)) = false /\ fi_group f <> Some "*".

Lemma version_text_inj v w : version_text v = version_text w -> v = w.
Proof.
  destruct v as [v|], w as [w|]; cbn; intros H; [f_equal; by apply pretty_inj'|..|done].
  - pose proof (pretty_has_char "-"%char v eq_refl) as Hc. by rewrite H in Hc.
  - pose proof (pretty_has_char "-"%char w eq_refl) as Hc. by rewrite <- H in Hc.
Qed.

Lemma fragment_fields_sep f : id_ok f -> Forall (fun p => has_char "|"%char p = false)
  [fi_route f; "v" +:+ version_text (fi_version f); fi_catalog f; fi_region f;
   pretty (fi_baseline_days f) +:+ "d"; fi_realm f; fi_locale f; default "*" (fi_group f)].
Proof.
  intros (H1 & H2 & H3 & H4 & H5 & H6 & _). repeat constructor; try done.
  - rewrite has_char_app. cbn. destruct (fi_version f); [by apply pretty_has_char|done].
  - rewrite has_char_app, pretty_has_char by done. done.
  - by destruct (fi_group f).
Qed.

Lemma FragmentKey_new_inj f g : id_ok f -> id_ok g -> FragmentKey_new f = FragmentKey_new g -> f = g.
Proof.
  intros Hf Hg Heq. apply (f_equal (split "|"%char)) in Heq. unfold FragmentKey_new in Heq.
  rewrite !split_join in Heq by (first [done|by apply fragment_fields_sep]).
  destruct f as [r v c re b rm l gr], g as [r' v' c' re' b' rm' l' gr'].
  cbn [fi_route fi_version fi_catalog fi_region fi_baseline_days fi_realm fi_locale fi_group] in Heq.
  injection Heq as -> Hv -> -> Hb -> -> Hgr. apply version_text_inj in Hv as ->. apply app_suffix_inj, pretty_inj' in Hb as ->.
  destruct Hf as (_ & _ & _ & _ & _ & _ & Hs), Hg as (_ & _ & _ & _ & _ & _ & Hs'). cbn in Hs, Hs', Hgr. f_equal.
  destruct gr as [x|], gr' as [y|]; cbn in Hgr; [by subst|by subst|by subst|done].
Qed.

(** ** The invariant *)

(** Every key of the map is once in the order, the bound holds, and a key's cell is its own. *)
Record inner_ok (n : Inner) (cs : gmap nat Cell) : Prop := {
  io_nodup : NoDup (order n);
  io_dom : forall k, k ∈ order n <-> is_Some (entries n !! k);
  io_bound : (length (order n) <= CAPACITY)%nat;
  io_cell : forall k i, entries n !! k = Some i -> exists c, cs !! i = Some c /\ c_key c = k }.

Record cache_ok (s : Cache) : Prop := {
  co_inner : inner_ok (inner s) (cells s);
  co_wait : forall r k i, waiting s !! r = Some (k, i) -> exists c, cells s !! i = Some c /\ c_key c = k;
  co_value : forall i c html, cells s !! i = Some c -> (c_value c = Some html <-> (i, (c_key c, html)) ∈ built s);
  co_built : forall i k html, (i, (k, html)) ∈ built s -> exists c, cells s !! i = Some c /\ c_key c = k;
  co_once : NoDup (built s).*1;
  co_idle : forall i c r, cells s !! i = Some c -> c_builder c = Some r -> c_value c = None;
  co_answers : forall r k html, (r, (k, html)) ∈ answers s -> exists i, (i, (k, html)) ∈ built s }.

Lemma evict_ok o e :
  NoDup o -> (forall k, k ∈ o <-> is_Some (e !! k)) ->
  NoDup (order (evict o e)) /\ (forall k, k ∈ order (evict o e) <-> is_Some (entries (evict o e) !! k)) /\
  (length (order (evict o e)) <= CAPACITY)%nat /\ entries (evict o e) ⊆ e /\ order (evict o e) `suffix_of` o.
Proof.
  revert e. induction o as [|x o IH]; intros e Hnd Hdom.
  - cbn [evict order entries]. split_and!; [done|done|cbn; lia|done|done].
  - cbn [evict]. destruct (decide _) as [Hlt|Hge]; [|cbn [order entries]; split_and!; [done|done|lia|done|done]].
    apply NoDup_cons in Hnd as [Hx Hnd]. destruct (IH (delete x e) Hnd) as (H1 & H2 & H3 & H4 & H5).
    + intros k. destruct (decide (k = x)) as [->|Hne].
      * rewrite lookup_delete_eq. split; [done|intros [? ?]; done].
      * rewrite lookup_delete_ne by done. rewrite <- (Hdom k), elem_of_cons. naive_solver.
    + split_and!; [done|done|done|etrans; [exact H4|apply delete_subseteq]|by apply suffix_cons_r].
Qed.

Lemma inner_ok_cells n cs cs' :
  inner_ok n cs -> (forall i c, cs !! i = Some c -> exists c', cs' !! i = Some c' /\ c_key c' = c_key c) -> inner_ok n cs'.
Proof. intros [H1 H2 H3 H4] Hsub. split; [done..|]. intros k i Hi. destruct (H4 k i Hi) as (c & Hc & <-). eauto. Qed.

Lemma find_cell_ok n cs key fresh i added n' :
  inner_ok n cs -> cs !! fresh = None -> find_cell n key fresh = (i, added, n') ->
  let cs' := if added then <[i := {| c_key := key; c_value := None; c_builder := None |}]> cs else cs in
  inner_ok n' cs' /\ (exists c, cs' !! i = Some c /\ c_key c = key) /\ (added = true -> i = fresh).
Proof.
  intros Hok Hfresh. unfold find_cell. destruct (entries n !! key) as [j|] eqn:Hk; intros [= <- <- <-].
  { split_and!; [done|by apply (io_cell _ _ Hok)|done]. }
  cbn zeta iota. split_and!; [|eexists; by rewrite lookup_insert_eq|done].
  destruct Hok as [H1 H2 H3 H4].
  assert (Hnew : key ∉ order n) by (rewrite H2, Hk; by intros [? ?]).
  destruct (evict_ok (order n ++ [key]) (<[key:=fresh]> (entries n))) as (E1 & E2 & E3 & E4 & _).
  - apply NoDup_app. split_and!; [done| |apply NoDup_singleton]. intros x Hx Hs. apply list_elem_of_singleton in Hs as ->. done.
  - intros k. rewrite elem_of_app, list_elem_of_singleton, H2, lookup_insert_is_Some'. naive_solver.
  - split; [done..|]. intros k i Hi. eapply lookup_weaken in Hi; [|exact E4].
    destruct (decide (k = key)) as [->|Hne].
    + rewrite lookup_insert_eq in Hi. injection Hi as <-. eexists. by rewrite lookup_insert_eq.
    + rewrite lookup_insert_ne in Hi by done. destruct (H4 k i Hi) as (c & Hc & Hkey). exists c. split; [|done].
      rewrite lookup_insert_ne; [done|]. intros <-. congruence.
Qed.

(** A cell rewritten in place keeps its key. *)
Lemma same_keys (cs : gmap nat Cell) (i : nat) c c' :
  cs !! i = Some c -> c_key c' = c_key c ->
  forall j d, cs !! j = Some d -> exists d', <[i := c']> cs !! j = Some d' /\ c_key d' = c_key d.
Proof.
  intros Hi Hk j d Hj. destruct (decide (j = i)) as [->|Hne].
  - exists c'. rewrite lookup_insert_eq. split; [done|congruence].
  - exists d. by rewrite lookup_insert_ne.
Qed.

Lemma cache_ok_new : cache_ok Cache_new.
Proof.
  split; cbn [Cache_new inner cells waiting built answers]; [split; cbn [entries order]|..].
  - constructor.
  - intros k. rewrite lookup_empty. split; [intros H; by apply not_elem_of_nil in H|by intros [? ?]].
  - cbn. lia.
  - intros k i. by rewrite lookup_empty.
  - intros r k i. by rewrite lookup_empty.
  - intros i c html. by rewrite lookup_empty.
  - intros i k html H. by apply not_elem_of_nil in H.
  - constructor.
  - intros i c r. by rewrite lookup_empty.
  - intros r k html H. by apply not_elem_of_nil in H.
Qed.

(** What a step does to cells that keep their keys and values. *)
Lemma cache_ok_cells s i c b w :
  cache_ok s -> cells s !! i = Some c -> (is_Some b -> c_value c = None) ->
  (forall r k j, w !! r = Some (k, j) -> exists d, cells s !! j = Some d /\ c_key d = k) ->
  cache_ok (set_cells s (inner s) (<[i := {| c_key := c_key c; c_value := c_value c; c_builder := b |}]> (cells s)) w).
Proof.
  intros [H1 H2 H3 H4 H5 H6 H7] Hc Hb Hw.
  pose proof (same_keys (cells s) i c {| c_key := c_key c; c_value := c_value c; c_builder := b |} Hc eq_refl) as Hk.
  split; cbn [set_cells inner cells waiting built answers]; [by eapply inner_ok_cells|..|done| |done].
  - intros r k j Hj. destruct (Hw r k j Hj) as (d & Hd & <-). by apply Hk.
  - intros j d html Hj. destruct (decide (j = i)) as [->|Hne].
    + rewrite lookup_insert_eq in Hj. injection Hj as <-. cbn [c_value c_key]. by apply H3.
    + rewrite lookup_insert_ne in Hj by done. by apply H3.
  - intros j k html Hj. destruct (H4 j k html Hj) as (d & Hd & <-). by apply Hk.
  - intros j d r Hj Hr. destruct (decide (j = i)) as [->|Hne].
    + rewrite lookup_insert_eq in Hj. injection Hj as <-. cbn in *. apply Hb. by rewrite Hr.
    + rewrite lookup_insert_ne in Hj by done. by eapply H6.
Qed.

Lemma cache_ok_arrive s r k fresh : cache_ok s -> cells s !! fresh = None -> cache_ok (arrive s r k fresh).
Proof.
  intros [H1 H2 H3 H4 H5 H6 H7] Hf. unfold arrive.
  destruct (find_cell (inner s) k fresh) as [[i added] n'] eqn:Hfind.
  destruct (find_cell_ok _ _ _ _ _ _ _ H1 Hf Hfind) as (Hn & Hmine & Hadd). cbn zeta in *.
  set (cs' := if added then _ else _) in *.
  assert (Hold : forall j d, cells s !! j = Some d -> cs' !! j = Some d).
  { intros j d Hj. unfold cs'. destruct added; [|done]. rewrite lookup_insert_ne; [done|]. intros <-. rewrite Hadd in Hj by done. congruence. }
  assert (Hnew : forall j d, cs' !! j = Some d ->
    cells s !! j = Some d \/ (cells s !! j = None /\ c_value d = None /\ c_builder d = None)).
  { intros j d. unfold cs'. destruct added; [|by left]. destruct (decide (j = i)) as [->|Hne].
    - rewrite lookup_insert_eq. intros [= <-]. right. by rewrite Hadd.
    - rewrite lookup_insert_ne by done. by left. }
  clearbody cs'. split; cbn [set_cells inner cells waiting built answers]; [done|..|done| |done].
  - intros r' k' j Hj. destruct (decide (r' = r)) as [->|Hne].
    + rewrite lookup_insert_eq in Hj. injection Hj as <- <-. done.
    + rewrite lookup_insert_ne in Hj by done. destruct (H2 _ _ _ Hj) as (d & Hd & Hk). eauto.
  - intros j d html Hj. destruct (Hnew j d Hj) as [Hs|(Hs & -> & _)]; [by apply H3|].
    split; [done|]. intros Hb. apply H4 in Hb as (d' & Hd' & _). congruence.
  - intros j k' html Hj. destruct (H4 _ _ _ Hj) as (d & Hd & Hk). eauto.
  - intros j d r' Hj Hb. destruct (Hnew j d Hj) as [Hs|(_ & Hv & _)]; [by eapply H6|done].
Qed.

Lemma cache_ok_finish s r k i c html :
  cache_ok s -> waiting s !! r = Some (k, i) -> cells s !! i = Some c -> c_builder c = Some r -> cache_ok (finish_build s k i c html).
Proof.
  intros Hok Hw Hc Hb. pose proof (co_idle s Hok i c r Hc Hb) as Hidle.
  destruct (co_wait s Hok r k i Hw) as (c0 & Hc0 & <-). rewrite Hc in Hc0. injection Hc0 as <-.
  destruct Hok as [H1 H2 H3 H4 H5 H6 H7].
  pose proof (same_keys (cells s) i c {| c_key := c_key c; c_value := Some html; c_builder := None |} Hc eq_refl) as Hk.
  assert (Hnone : forall k' h', (i, (k', h')) ∉ built s).
  { intros k' h' Hin. destruct (H4 _ _ _ Hin) as (d & Hd & <-). rewrite Hc in Hd. injection Hd as <-.
    apply (H3 i c h' Hc) in Hin. congruence. }
  split; cbn [finish_build inner cells waiting built answers]; [by eapply inner_ok_cells|..].
  - intros r' k' j Hj. destruct (H2 _ _ _ Hj) as (d & Hd & <-). by apply Hk.
  - intros j d h' Hj. rewrite elem_of_app, list_elem_of_singleton. destruct (decide (j = i)) as [->|Hne].
    + rewrite lookup_insert_eq in Hj. injection Hj as <-. cbn [c_value c_key].
      split; [intros [= <-]; by right|]. intros [Hin|[= <-]]; [by apply Hnone in Hin|done].
    + rewrite lookup_insert_ne in Hj by done. rewrite (H3 j d h' Hj). split; [by left|]. intros [?|[= ? ?]]; done.
  - intros j k' h' Hj. apply elem_of_app in Hj as [Hj|Hj].
    + destruct (H4 _ _ _ Hj) as (d & Hd & <-). by apply Hk.
    + apply list_elem_of_singleton in Hj. injection Hj as -> -> ->. by apply Hk.
  - rewrite fmap_app. apply NoDup_app. split_and!; [done| |apply NoDup_singleton].
    intros j Hj Hs. apply list_elem_of_singleton in Hs. cbn in Hs. subst j. apply list_elem_of_fmap in Hj as ([j [k' h']] & -> & Hin).
    by apply Hnone in Hin.
  - intros j d r' Hj Hb'. destruct (decide (j = i)) as [->|Hne].
    + rewrite lookup_insert_eq in Hj. by injection Hj as <-.
    + rewrite lookup_insert_ne in Hj by done. by eapply H6.
  - intros r' k' h' Hin. destruct (H7 _ _ _ Hin) as (j & Hj). exists j. rewrite elem_of_app. by left.
Qed.

Lemma waiting_delete s r :
  cache_ok s -> forall r' k i, delete r (waiting s) !! r' = Some (k, i) -> exists c, cells s !! i = Some c /\ c_key c = k.
Proof. intros Hok r' k i Hl. apply lookup_delete_Some in Hl as [_ Hl]. by eapply co_wait. Qed.

Lemma cache_step_ok s s' : cache_ok s -> cache_step s s' -> cache_ok s'.
Proof.
  intros Hok Hstep. destruct Hstep as [s r k fresh Hw Hf|s r k i c Hw Hc Hv Hb|s r k i c html Hw Hc Hb|s r k i c Hw Hc Hb
                                      |s r k i c Hw Hc Hb|s r k i c html Hw Hc Hv|s].
  - by apply cache_ok_arrive.
  - unfold start_build. apply cache_ok_cells; [done..|]. intros r' k' j. by apply co_wait.
  - by eapply cache_ok_finish.
  - unfold fail_build. apply cache_ok_cells; [done|done|by intros [? ?]|by apply waiting_delete].
  - pose proof (waiting_delete s r Hok). destruct Hok. by split.
  - pose proof (waiting_delete s r Hok) as Hd. destruct (co_wait s Hok r k i Hw) as (c0 & Hc0 & <-). rewrite Hc in Hc0. injection Hc0 as <-.
    destruct Hok as [H1 H2 H3 H4 H5 H6 H7]. split; [done..|]. cbn [answer answers built].
    intros r' k' h'. rewrite elem_of_app, list_elem_of_singleton. intros [Hin|[= -> -> ->]]; [by eapply H7|].
    exists i. by apply (H3 i c html Hc).
  - by destruct Hok; split.
Qed.

Lemma cache_reachable_ok s : rtc cache_step Cache_new s -> cache_ok s.
Proof. intros Hr. apply (rtc_ind_r (fun s => cache_ok s) Cache_new cache_ok_new) in Hr; [done|]. intros y z _ Hyz Hy. by eapply cache_step_ok. Qed.

Lemma cache_step_built s s' : cache_step s s' -> built s `prefix_of` built s'.
Proof.
  intros Hstep. destruct Hstep; cbn [start_build finish_build fail_build answer bump_events set_cells built]; try done.
  - unfold arrive. by destruct (find_cell _ _ _) as [[? ?] ?].
  - by eexists.
Qed.

Lemma cache_steps_built s s' : rtc cache_step s s' -> built s `prefix_of` built s'.
Proof. induction 1 as [|x y z Hxy _ IH]; [done|]. etrans; [by apply cache_step_built|done]. Qed.

Lemma built_once s i x y : cache_ok s -> (i, x) ∈ built s -> (i, y) ∈ built s -> x = y.
Proof.
  intros Hok Hx Hy. apply list_elem_of_lookup in Hx as (a & Ha), Hy as (b & Hb).
  assert (a = b) as ->.
  { eapply (NoDup_lookup _ a b i (co_once s Hok)); rewrite list_lookup_fmap; [by rewrite Ha|by rewrite Hb]. }
  congruence.
Qed.

(** A cell that has been filled stays filled, whatever happens next. *)
Lemma filled_stays s s' i c html :
  rtc cache_step Cache_new s -> rtc cache_step s s' -> cells s !! i = Some c -> c_value c = Some html ->
  exists c', cells s' !! i = Some c' /\ c_key c' = c_key c /\ c_value c' = Some html /\ c_builder c' = None.
Proof.
  intros Hs Hs' Hc Hv. pose proof (cache_reachable_ok s Hs) as Hok. assert (Hok' : cache_ok s') by (apply cache_reachable_ok; by etrans).
  assert (Hb : (i, (c_key c, html)) ∈ built s') by (eapply elem_of_prefix; [by apply (co_value s Hok)|by apply cache_steps_built]).
  destruct (co_built s' Hok' _ _ _ Hb) as (c' & Hc' & Hk). exists c'.
  assert (Hv' : c_value c' = Some html) by (apply (co_value s' Hok' i c' html Hc'); by rewrite Hk).
  split_and!; [done|done|done|]. destruct (c_builder c') as [r|] eqn:Hr; [|done]. pose proof (co_idle s' Hok' _ _ _ Hc' Hr). congruence.
Qed.

Lemma len_order s : cache_ok s -> len s = length (order (inner s)).
Proof.
  intros [[H1 H2 _ _] _ _ _ _ _ _]. unfold len. rewrite <- size_dom.
  assert (dom (entries (inner s)) = list_to_set (C := gset string) (order (inner s))) as ->.
  { apply set_eq. intros k. by rewrite elem_of_dom, elem_of_list_to_set, H2. }
  by apply size_list_to_set.
Qed.


(** ** Revalidation *)
Lemma trim_etag k : trim (etag k) = etag k.
Proof.
  unfold trim. change (trim_left (etag k)) with (etag k). unfold etag.
  assert (quote +:+ k +:+ quote = (quote +:+ k) +:+ quote) as -> by done. by apply trim_right_snoc.
Qed.

Lemma etag_inj k k' : etag k = etag k' -> k = k'.
Proof. unfold etag. intros H. injection H as H. by apply (app_suffix_inj k k' quote). Qed.

(** A reader that sends back the tag it was given gets the body again exactly when anything
    that decides the fragment has changed, and is always told the tag of what it asked for;
    a build that failed is passed on as it is. *)
Theorem revalidation_exact {E} (header_value : string -> bool) f g html (e : E) :
  id_ok f -> id_ok g -> has_char ","%char (FragmentKey_new f) = false ->
  (forall reply, respond (E := E) header_value (Some (etag (FragmentKey_new f))) (FragmentKey_new g) (inl html) = inl reply ->
     (r_body reply = NotModified <-> f = g) /\ (f <> g -> r_body reply = Html html) /\
     r_etag reply = (if header_value (etag (FragmentKey_new g)) then Some (etag (FragmentKey_new g)) else None)) /\
  respond header_value (Some (etag (FragmentKey_new f))) (FragmentKey_new g) (inr e) = inr e.
Proof.
  intros Hf Hg Hcomma. split; [|done]. intros reply Hr. unfold respond in Hr.
  assert (Hknown : known (Some (etag (FragmentKey_new f))) (etag (FragmentKey_new g)) = true <-> f = g).
  { unfold known. rewrite split_no_sep by (unfold etag; by rewrite !has_char_app, Hcomma). cbn [existsb].
    rewrite orb_false_r, bool_decide_eq_true, trim_etag. split; [|by intros ->].
    intros He. apply FragmentKey_new_inj; [done..|]. by apply etag_inj. }
  destruct (known _ _) eqn:Hk; injection Hr as <-; cbn [r_body r_etag].
  - split_and!; [|intros Hne; exfalso; by apply Hne, Hknown|done]. split; [by intros _; apply Hknown|done].
  - split_and!; [|done|done]. split; [done|]. intros Hfg. by apply Hknown in Hfg.
Qed.

(** Two readers of one fragment: the first builds, the second waits for it. *)
Definition sample_id : FragmentId :=
  {| fi_route := "reagents"; fi_version := Some 7; fi_catalog := "midnight"; fi_region := "eu"; fi_baseline_days := 7; fi_realm := "";
     fi_locale := "en_GB"; fi_group := None |}.

Definition sample_run : Cache :=
  let k := FragmentKey_new sample_id in
  let empty := {| c_key := k; c_value := None; c_builder := None |} in
  let busy := {| c_key := k; c_value := None; c_builder := Some 1 |} in
  let s1 := arrive (arrive Cache_new 1 k 0) 2 k 1 in
  answer (finish_build (start_build s1 1 0 empty) k 0 busy "<p>hello</p>") 2 k "<p>hello</p>".

Lemma sample_run_reachable : rtc cache_step Cache_new sample_run.
Proof.
  eapply rtc_l; [by apply (request_arrives Cache_new 1 (FragmentKey_new sample_id) 0)|].
  eapply rtc_l; [by apply (request_arrives _ 2 (FragmentKey_new sample_id) 1)|].
  eapply rtc_l; [by eapply (build_starts _ 1 (FragmentKey_new sample_id) 0)|].
  eapply rtc_l; [by eapply (build_succeeds _ 1 (FragmentKey_new sample_id) 0 _ "<p>hello</p>")|].
  eapply rtc_l; [by eapply (request_answered _ 2 (FragmentKey_new sample_id) 0 _ "<p>hello</p>")|].
  apply rtc_refl.
Qed.


(** The reader's copy is good for the same fragment and not for another region's. *)
Lemma revalidation_exact_witness :
  respond (E := unit) (fun _ => true) (Some (etag (FragmentKey_new sample_id))) (FragmentKey_new sample_id) (inr tt) = inr tt /\
  r_body <$> (match respond (E := unit) (fun _ => true) (Some (etag (FragmentKey_new sample_id))) (FragmentKey_new sample_id) (inl "x") with
              | inl r => Some r | inr _ => None end) = Some NotModified.
Proof.
  split; [|vm_compute; reflexivity].
  refine (proj2 (revalidation_exact (fun _ => true) sample_id sample_id "x" tt _ _ _)); [vm_compute; naive_solver..|reflexivity].
Defined.

(** No group and the group [*] are filed under one key. *)
Example group_star_collides :
  FragmentKey_new sample_id =
  FragmentKey_new {| fi_route := "reagents"; fi_version := Some 7; fi_catalog := "midnight"; fi_region := "eu"; fi_baseline_days := 7;
                     fi_realm := ""; fi_locale := "en_GB"; fi_group := Some "*" |}.
Proof. reflexivity. Qed.
