(* ===== verification/Csrf.v ===== *)
(** * Csrf: cookies, and the token a form must send back

    Models [crates/app-web/src/csrf.rs] and the cookie half of
    [crates/app-web/src/session.rs].  A byte is an [N] below 256; texts are UTF-8 byte
    strings.  Randomness is an argument: the pad of a masking, the bytes of a new token.
    A call that would panic is the value [Panics]. *)
From Stdlib Require Import Ascii.
From stdpp Require Import prelude strings pretty.
From S2P Require Import Prelude Text AppError.

Definition SESSION_TTL_MS : N := 7 * 24 * 60 * 60 * 1000.

Record WebConfig := { secure_cookies : bool; trust_proxy_headers : bool }.

(** ** Cookies *)
Definition SESSION_COOKIE : string := "wow_tracker_session".
Definition SESSION_COOKIE_HOST : string := "__Host-wow_tracker_session".
Definition CSRF_COOKIE : string := "wow_tracker_csrf".
Definition CSRF_COOKIE_HOST : string := "__Host-wow_tracker_csrf".

Definition session_cookie_name (config : WebConfig) : string := if secure_cookies config then SESSION_COOKIE_HOST else SESSION_COOKIE.
Definition csrf_cookie_name (config : WebConfig) : string := if secure_cookies config then CSRF_COOKIE_HOST else CSRF_COOKIE.

(** The [Cookie] headers of a request, each as text where it is text. *)
Definition cookie_value (headers : list (option string)) (name : string) : option string :=
  let pairs := omap (split_once "="%char) (mbind (split ";"%char) (omap id headers)) in
  (fun kv => trim kv.2) <$> head (filter (fun kv => trim kv.1 = name) pairs).

Definition secure_suffix (config : WebConfig) : string := if secure_cookies config then "; Secure" else "".

Definition session_cookie (token : string) (config : WebConfig) : string :=
  session_cookie_name config +:+ "=" +:+ token +:+ "; Path=/; HttpOnly; SameSite=Lax; Max-Age=" +:+ pretty (SESSION_TTL_MS / 1000) +:+
  secure_suffix config.

Definition cleared_session_cookie (config : WebConfig) : string :=
  session_cookie_name config +:+ "=; Path=/; HttpOnly; SameSite=Lax; Max-Age=0" +:+ secure_suffix config.

(** ** Hexadecimal *)
Definition HEX : string := "0123456789abcdef".
Definition hex_char (d : N) : ascii := default "0"%char (String.get (N.to_nat d) HEX).

Fixpoint to_hex (bytes : list N) : string :=
  match bytes with
  | [] => ""
  | b :: rest => String (hex_char (N.shiftr b 4)) (String (hex_char (N.land b 15)) (to_hex rest))
  end.

(** [char::to_digit(16)] of a byte. *)
Definition to_digit_16 (a : ascii) : option N :=
  let n := N_of_ascii a in
  if decide (48 <= n <= 57) then Some (n - 48)
  else if decide (97 <= n <= 102) then Some (n - 87)
  else if decide (65 <= n <= 70) then Some (n - 55)
  else None.

Fixpoint hex_pairs (s : string) : option (list N) :=
  match s with
  | String a (String b rest) =>
      hi ← to_digit_16 a; lo ← to_digit_16 b; out ← hex_pairs rest; Some (wrap 8 (hi * 16 + lo) :: out)
  | _ => Some []
  end.

Definition from_hex (text : string) : option (list N) :=
  if bool_decide (text = "") || negb (Nat.even (String.length text)) then None else hex_pairs text.

(** ** Slicing *)
Fixpoint take_text (n : nat) (s : string) : string :=
  match n, s with S n, String a s => String a (take_text n s) | _, _ => "" end.
Fixpoint drop_text (n : nat) (s : string) : string :=
  match n, s with S n, String _ s => drop_text n s | _, _ => s end.

Inductive Ran (A : Type) := Panics | Done (a : A).
Arguments Panics {A}.
Arguments Done {A} a.

(** A byte in the middle of a UTF-8 character. *)
Definition is_continuation (a : ascii) : bool := bool_decide (128 <= N_of_ascii a < 192).

(** [str::split_at] panics past the end and inside a character. *)
Definition split_at (mid : nat) (s : string) : Ran (string * string) :=
  if decide (String.length s < mid)%nat then Panics
  else match drop_text mid s with
       | String a _ => if is_continuation a then Panics else Done (take_text mid s, drop_text mid s)
       | EmptyString => Done (take_text mid s, drop_text mid s)
       end.

(** ** The token *)
Definition TOKEN_BYTES : nat := 32.

Definition xor_bytes (xs ys : list N) : list N := zip_with N.lxor xs ys.

(** [Csrf::masked]; [pad] is what the operating system gives, where it gives. *)
Definition masked (self : string) (pad : option (list N)) : string :=
  match from_hex self, pad with
  | Some token, Some pad => to_hex pad +:+ to_hex (xor_bytes pad token)
  | _, _ => self
  end.

Definition unmask (presented : string) : Ran (option (list N)) :=
  if decide (String.length presented = (TOKEN_BYTES * 2)%nat) then Done (from_hex presented)
  else if decide (String.length presented = (TOKEN_BYTES * 4)%nat) then
    match split_at (TOKEN_BYTES * 2) presented with
    | Done (pad, m) => Done (p ← from_hex pad; m ← from_hex m; Some (xor_bytes p m))
    | Panics => Panics
    end
  else Done None.

Definition Forbidden {A} : AppResult A := Err AppError.Forbidden.

Definition verify (self presented : string) : Ran (AppResult unit) :=
  match from_hex self with
  | None => Done Forbidden
  | Some expected =>
      match unmask presented with
      | Panics => Panics
      | Done None => Done Forbidden
      | Done (Some actual) =>
          Done (if bool_decide (length expected = length actual) &&
                   bool_decide (foldl (fun acc xy => N.lor acc (N.lxor xy.1 xy.2)) 0 (zip expected actual) = 0)
                then Ok tt else Forbidden)
      end
  end.

(** [header] is the [X-CSRF-Token] header, where it is there and is text. *)
Definition verify_request (self : string) (header form_token : option string) : Ran (AppResult unit) :=
  match header, form_token with
  | Some token, _ => verify self token
  | None, Some token => verify self token
  | None, None => Done Forbidden
  end.

(** [layer]: the token of this request, and the cookie issued with the answer.  [random]
    are the bytes a new token is made of. *)
Definition csrf_layer (config : WebConfig) (header_value : string -> bool) (cookies : list (option string)) (random : list N) :
    string * option string :=
  let name := csrf_cookie_name config in
  let existing := v ← cookie_value cookies name; _ ← from_hex v; Some v in
  let '(token, issue) := match existing with Some token => (token, false) | None => (to_hex random, true) end in
  let value := name +:+ "=" +:+ token +:+ "; Path=/; HttpOnly; SameSite=Lax; Max-Age=" +:+ pretty (SESSION_TTL_MS / 1000) +:+
               secure_suffix config in
  (token, if issue && header_value value then Some value else None).

(** ** Hexadecimal there and back *)
Definition is_byte (b : N) : Prop := b < 256.

Lemma hex_digit d : d < 16 -> to_digit_16 (hex_char d) = Some d.
Proof.
  intros Hd. assert (Hall : Forall (fun d => to_digit_16 (hex_char d) = Some d) (N.of_nat <$> seq 0 16)) by (repeat constructor).
  rewrite Forall_forall in Hall. apply Hall, list_elem_of_fmap. exists (N.to_nat d). rewrite elem_of_seq. lia.
Qed.

Lemma nibbles b : is_byte b -> N.shiftr b 4 < 16 /\ N.land b 15 < 16 /\ N.shiftr b 4 * 16 + N.land b 15 = b.
Proof.
  unfold is_byte. intros Hb. rewrite N.shiftr_div_pow2. change 15 with (N.ones 4). rewrite N.land_ones. change (2 ^ 4) with 16.
  pose proof (N.div_mod b 16). pose proof (N.mod_lt b 16). split_and!; [apply N.Div0.div_lt_upper_bound; lia|lia|lia].
Qed.

Lemma length_to_hex bs : String.length (to_hex bs) = (2 * length bs)%nat.
Proof. induction bs as [|b bs IH]; [done|]. cbn [to_hex String.length length]. lia. Qed.

Lemma hex_pairs_to_hex bs : Forall is_byte bs -> hex_pairs (to_hex bs) = Some bs.
Proof.
  induction 1 as [|b bs Hb _ IH]; [done|]. destruct (nibbles b Hb) as (H1 & H2 & H3). cbn [to_hex hex_pairs].
  rewrite !hex_digit by done. cbn [mbind option_bind]. rewrite IH. cbn [mbind option_bind]. rewrite H3, wrap_small; [done|exact Hb].
Qed.

Lemma from_hex_to_hex bs : Forall is_byte bs -> bs <> [] -> from_hex (to_hex bs) = Some bs.
Proof.
  intros Hbs Hne. unfold from_hex. rewrite length_to_hex, Nat.even_mul. rewrite bool_decide_eq_false_2; [by apply hex_pairs_to_hex|].
  by destruct bs.
Qed.

Lemma hex_pairs_length s bs : hex_pairs s = Some bs -> length bs = Nat.div2 (String.length s).
Proof.
  revert bs. induction s as [s IH] using (induction_ltof1 _ String.length). unfold ltof in IH. intros bs Hs.
  destruct s as [|a [|b s]]; cbn [hex_pairs] in Hs; [by injection Hs as <-|by injection Hs as <-|].
  apply bind_Some in Hs as (hi & _ & Hs). apply bind_Some in Hs as (lo & _ & Hs). apply bind_Some in Hs as (out & Hout & Hs).
  injection Hs as <-. cbn [length String.length Nat.div2]. f_equal. apply IH; [cbn; lia|done].
Qed.

Lemma from_hex_length s bs : from_hex s = Some bs -> length bs = Nat.div2 (String.length s).
Proof. unfold from_hex. destruct (_ || _); [done|]. apply hex_pairs_length. Qed.

(** ** Masks *)
Lemma xor_bytes_length xs ys : length xs = length ys -> length (xor_bytes xs ys) = length ys.
Proof. intros H. unfold xor_bytes. rewrite length_zip_with. lia. Qed.

Lemma xor_bytes_twice pad t : length pad = length t -> xor_bytes pad (xor_bytes pad t) = t.
Proof.
  revert t. induction pad as [|p pad IH]; intros [|x t] H; try done. cbn. f_equal; [|apply IH; cbn in H; lia].
  by rewrite <- N.lxor_assoc, N.lxor_nilpotent, N.lxor_0_l.
Qed.

Lemma lxor_byte a b : is_byte a -> is_byte b -> is_byte (N.lxor a b).
Proof.
  unfold is_byte. change 256 with (2 ^ 8). intros Ha Hb. destruct (decide (N.lxor a b = 0)) as [->|Hne]; [lia|].
  apply N.log2_lt_pow2; [lia|]. eapply N.le_lt_trans; [apply N.log2_lxor|].
  apply N.max_lub_lt; [destruct (decide (a = 0)) as [->|]|destruct (decide (b = 0)) as [->|]]; try (cbn; lia); apply N.log2_lt_pow2; lia.
Qed.

Lemma xor_bytes_ok xs ys : Forall is_byte xs -> Forall is_byte ys -> Forall is_byte (xor_bytes xs ys).
Proof.
  intros Hx. revert ys. induction Hx as [|x xs Hx _ IH]; intros ys Hy; [constructor|]. destruct Hy; [constructor|].
  cbn. constructor; [by apply lxor_byte|by apply IH].
Qed.

Lemma fold_or_zero l acc : foldl (fun acc (xy : N * N) => N.lor acc (N.lxor xy.1 xy.2)) acc l = 0 <-> acc = 0 /\ Forall (fun xy => xy.1 = xy.2) l.
Proof.
  revert acc. induction l as [|[x y] l IH]; intros acc; [cbn; split; [intros ->; by split|by intros [-> _]]|].
  cbn [foldl]. rewrite IH, N.lor_eq_0_iff, N.lxor_eq_0_iff, Forall_cons. naive_solver.
Qed.

Lemma same_bytes (xs ys : list N) :
  bool_decide (length xs = length ys) &&
  bool_decide (foldl (fun acc xy => N.lor acc (N.lxor xy.1 xy.2)) 0 (zip xs ys) = 0) = bool_decide (xs = ys).
Proof.
  apply eq_true_iff_eq. rewrite andb_true_iff, !bool_decide_eq_true, fold_or_zero. split; [|intros ->; split_and!; try done].
  - intros (Hl & _ & Hall). revert ys Hl Hall. induction xs as [|x xs IH]; intros [|y ys] Hl Hall; try done.
    cbn in Hall. apply Forall_cons in Hall as [Hxy Hall]. cbn in Hxy. subst. f_equal. apply IH; [cbn in Hl; lia|done].
  - clear. induction ys as [|y ys IH]; [constructor|]. by constructor.
Qed.

(** ** What is accepted *)
Lemma verify_spec self presented expected :
  from_hex self = Some expected ->
  verify self presented = match unmask presented with
                          | Panics => Panics
                          | Done actual => Done (if bool_decide (actual = Some expected) then Ok tt else Forbidden)
                          end.
Proof.
  intros Hself. unfold verify. rewrite Hself. destruct (unmask presented) as [|[actual|]]; [done| |done].
  rewrite same_bytes. f_equal. destruct (decide (expected = actual)) as [->|Hne].
  - by rewrite !bool_decide_eq_true_2.
  - rewrite !bool_decide_eq_false_2; [done|congruence|done].
Qed.

Lemma unmask_length presented actual : unmask presented = Done (Some actual) -> length actual = TOKEN_BYTES.
Proof.
  unfold unmask. case_decide as H1.
  { intros [= H]. apply from_hex_length in H. by rewrite H, H1. }
  case_decide as H2; [|done]. unfold split_at. rewrite decide_False by (rewrite H2; cbn; lia).
  assert (Hl : String.length (take_text (TOKEN_BYTES * 2) presented) = (TOKEN_BYTES * 2)%nat /\
               String.length (drop_text (TOKEN_BYTES * 2) presented) = (TOKEN_BYTES * 2)%nat).
  { assert (Hgen : forall n s, (n <= String.length s)%nat ->
      String.length (take_text n s) = n /\ String.length (drop_text n s) = (String.length s - n)%nat).
    { induction n as [|n IH]; intros [|a s] Hn; cbn in *; try lia. destruct (IH s); [lia|]. lia. }
    destruct (Hgen (TOKEN_BYTES * 2)%nat presented) as [-> ->]; rewrite H2; cbn; lia. }
  assert (Hx : forall p m, from_hex (take_text (TOKEN_BYTES * 2) presented) = Some p -> from_hex (drop_text (TOKEN_BYTES * 2) presented) = Some m ->
    length (xor_bytes p m) = TOKEN_BYTES).
  { intros p m Hp Hm. apply from_hex_length in Hp, Hm. destruct Hl as [Ht Hd]. rewrite Ht in Hp. rewrite Hd in Hm.
    rewrite xor_bytes_length by congruence. by rewrite Hm. }
  intros H. assert (Hs : (p ← from_hex (take_text (TOKEN_BYTES * 2) presented); m ← from_hex (drop_text (TOKEN_BYTES * 2) presented); Some (xor_bytes p m)) = Some actual).
  { destruct (drop_text (TOKEN_BYTES * 2) presented) as [|a r]; [|destruct (is_continuation a)]; by inversion H. }
  apply bind_Some in Hs as (p & Hp & Hs). apply bind_Some in Hs as (m & Hm & Hs). injection Hs as <-. by apply Hx.
Qed.

Lemma take_drop_app s t : take_text (String.length s) (s +:+ t) = s /\ drop_text (String.length s) (s +:+ t) = t.
Proof.
  induction s as [|a s [IH1 IH2]]; [by destruct t|].
  change (String a s +:+ t) with (String a (s +:+ t)). cbn [String.length take_text drop_text]. by rewrite IH1, IH2.
Qed.

Lemma hex_not_continuation bs : match to_hex bs with String a _ => is_continuation a = false | EmptyString => True end.
Proof.
  destruct bs as [|b bs]; [done|]. cbn [to_hex]. unfold is_continuation. apply bool_decide_eq_false_2. unfold hex_char.
  set (n := N.to_nat _). clearbody n. unfold HEX. do 17 (destruct n as [|n]; [vm_compute; intros [H1 H2]; by try (exfalso; apply H1)|]).
  vm_compute. intros [H1 H2]. by apply H1.
Qed.

(** A masking by any pad decodes to the token. *)
Lemma unmask_masked bytes pad :
  Forall is_byte bytes -> Forall is_byte pad -> length bytes = TOKEN_BYTES -> length pad = TOKEN_BYTES ->
  unmask (masked (to_hex bytes) (Some pad)) = Done (Some bytes).
Proof.
  intros Hb Hp Hlb Hlp. assert (Hne : forall l : list N, length l = TOKEN_BYTES -> l <> []) by (by intros [|? ?]).
  unfold masked. rewrite from_hex_to_hex by (done || by apply Hne).
  assert (Hlx : length (xor_bytes pad bytes) = TOKEN_BYTES) by (rewrite xor_bytes_length; congruence).
  unfold unmask. rewrite length_text_app, !length_to_hex, Hlp, Hlx, decide_False, decide_True by (cbn; lia).
  unfold split_at. rewrite length_text_app, !length_to_hex, Hlp, Hlx, decide_False by (cbn; lia).
  destruct (take_drop_app (to_hex pad) (to_hex (xor_bytes pad bytes))) as [Ht Hd]. rewrite length_to_hex, Hlp in Ht, Hd.
  rewrite (Nat.mul_comm TOKEN_BYTES 2), Ht, Hd. pose proof (hex_not_continuation (xor_bytes pad bytes)) as Hc.
  assert (Hback : (p ← from_hex (to_hex pad); m ← from_hex (to_hex (xor_bytes pad bytes)); Some (xor_bytes p m)) = Some bytes).
  { rewrite !from_hex_to_hex by (done || by apply Hne || by apply xor_bytes_ok). cbn [mbind option_bind].
    rewrite xor_bytes_twice; [done|congruence]. }
  rewrite <- Hback. destruct (to_hex (xor_bytes pad bytes)); [done|]. by rewrite Hc.
Qed.

Lemma unmask_ascii presented : (forall a, has_char a presented = true -> is_continuation a = false) -> unmask presented <> Panics.
Proof.
  intros Hascii. unfold unmask. case_decide; [done|]. case_decide as H2; [|done].
  unfold split_at. rewrite decide_False by (rewrite H2; cbn; lia).
  assert (Hd : forall n s a r, drop_text n s = String a r -> has_char a s = true).
  { induction n as [|n IH]; intros [|b s] a r Hs; cbn in Hs; try done.
    - injection Hs as -> ->. cbn. by rewrite bool_decide_eq_true_2.
    - cbn. rewrite (IH s a r Hs). apply orb_true_r. }
  destruct (drop_text (TOKEN_BYTES * 2) presented) as [|a r] eqn:He; [done|]. rewrite Hascii; [done|]. by eapply Hd.
Qed.

(** C29: A token of 32 bytes is accepted as it is and under every mask, however many a page
    carries; what is accepted carries exactly the token's bytes, so no mask of another
    token is; two masks of one token differ whenever their pads do; a browser's header,
    which is plain ASCII, never makes the check panic; and without a token the request is
    refused. *)
Theorem csrf_exact bytes :
  Forall is_byte bytes -> length bytes = TOKEN_BYTES ->
  verify (to_hex bytes) (to_hex bytes) = Done (Ok tt) /\
  (forall pad, Forall is_byte pad -> length pad = TOKEN_BYTES ->
     verify (to_hex bytes) (masked (to_hex bytes) (Some pad)) = Done (Ok tt) /\
     (forall other, Forall is_byte other -> length other = TOKEN_BYTES -> other <> bytes ->
        verify (to_hex bytes) (masked (to_hex other) (Some pad)) = Done Forbidden) /\
     (forall pad', Forall is_byte pad' -> length pad' = TOKEN_BYTES ->
        masked (to_hex bytes) (Some pad') = masked (to_hex bytes) (Some pad) -> pad' = pad)) /\
  (forall presented, verify (to_hex bytes) presented = Done (Ok tt) <-> unmask presented = Done (Some bytes)) /\
  (forall presented, (forall a, has_char a presented = true -> is_continuation a = false) ->
     verify (to_hex bytes) presented = Done (Ok tt) \/ verify (to_hex bytes) presented = Done Forbidden) /\
  verify_request (to_hex bytes) None None = Done Forbidden.
Proof.
  intros Hb Hlb. assert (Hne : forall l : list N, length l = TOKEN_BYTES -> l <> []) by (by intros [|? ?]).
  assert (Hself : from_hex (to_hex bytes) = Some bytes) by (apply from_hex_to_hex; [done|by apply Hne]).
  assert (Hv : forall p, verify (to_hex bytes) p = Done (Ok tt) <-> unmask p = Done (Some bytes)).
  { intros p. rewrite (verify_spec _ _ _ Hself). destruct (unmask p) as [|o]; [done|].
    case_bool_decide as Ho; [by rewrite Ho|]. split; [done|congruence]. }
  split_and!; [| |exact Hv| |done].
  - apply Hv. unfold unmask. rewrite length_to_hex, Hlb, decide_True by (cbn; lia). by rewrite Hself.
  - intros pad Hp Hlp. split_and!.
    + by apply Hv, unmask_masked.
    + intros other Ho Hlo Hneq. rewrite (verify_spec _ _ _ Hself), unmask_masked by done. rewrite bool_decide_eq_false_2; [done|congruence].
    + intros pad' Hp' Hlp' Heq. unfold masked in Heq. rewrite Hself in Heq.
      apply (f_equal (take_text (TOKEN_BYTES * 2))) in Heq.
      assert (Htk : forall q x, length q = TOKEN_BYTES -> take_text (TOKEN_BYTES * 2) (to_hex q +:+ x) = to_hex q).
      { intros q x Hq. rewrite <- Hq, Nat.mul_comm, <- length_to_hex. apply take_drop_app. }
      rewrite !Htk in Heq by done. apply (f_equal from_hex) in Heq.
      rewrite !from_hex_to_hex in Heq by (done || by apply Hne). by injection Heq.
  - intros presented Ha. rewrite (verify_spec _ _ _ Hself). pose proof (unmask_ascii presented Ha) as Hnp.
    destruct (unmask presented) as [|o]; [done|]. case_bool_decide; [by left|by right].
Qed.

Definition demo_token : list N := N.of_nat <$> seq 0 32.
Definition demo_pad : list N := N.of_nat <$> seq 200 32.

Lemma csrf_exact_witness :
  verify (to_hex demo_token) (masked (to_hex demo_token) (Some demo_pad)) = Done (Ok tt) /\
  String.length (masked (to_hex demo_token) (Some demo_pad)) = 128%nat.
Proof.
  assert (Hd : Forall is_byte demo_token) by (repeat (constructor; [vm_compute; reflexivity|]); constructor).
  assert (Hp : Forall is_byte demo_pad) by (repeat (constructor; [vm_compute; reflexivity|]); constructor).
  split; [|vm_compute; reflexivity].
  exact (proj1 (proj1 (proj2 (csrf_exact demo_token Hd eq_refl)) demo_pad Hp eq_refl)).
Defined.

(** A cookie of another length is hexadecimal all the same: the middleware keeps it, and
    no form sent with it is ever accepted. *)
Lemma short_cookie_stuck v b : from_hex v = Some b -> length b <> TOKEN_BYTES -> forall presented, verify v presented <> Done (Ok tt).
Proof.
  intros Hv Hl p. rewrite (verify_spec _ _ _ Hv). destruct (unmask p) as [|o] eqn:Hu; [done|].
  case_bool_decide as Ho; [|done]. subst. by apply unmask_length in Hu.
Qed.

Example short_cookie_kept :
  csrf_layer {| secure_cookies := false; trust_proxy_headers := false |} (fun _ => true) [Some "wow_tracker_csrf=abcd"] demo_token = ("abcd", None) /\
  verify "abcd" "abcd" = Done Forbidden /\ verify "abcd" (masked "abcd" (Some demo_pad)) = Done Forbidden.
Proof. vm_compute. done. Qed.

Fixpoint repeat_text (n : nat) (s : string) : string := match n with O => "" | S n => s +:+ repeat_text n s end.

(** 128 bytes whose 64th and 65th are one character: a form field may carry them. *)
Definition straddling : string :=
  repeat_text 63 "a" +:+ String (ascii_of_N 195) (String (ascii_of_N 169) EmptyString) +:+ repeat_text 63 "a".

Example straddling_panics : verify (to_hex demo_token) straddling = Panics.
Proof. vm_compute. reflexivity. Qed.

(** ** Cookies are read back *)
Lemma trim_space s : trim (String " "%char s) = trim s.
Proof. done. Qed.

(** What a browser sends: the pairs, [; ] between them. *)
Definition pair_text (kv : string * string) : string := kv.1 +:+ String "="%char kv.2.
Definition cookie_header (jar : list (string * string)) : string :=
  match jar with
  | [] => ""
  | kv :: rest => join ";"%char (pair_text kv :: ((fun kv => String " "%char (pair_text kv)) <$> rest))
  end.

Definition pair_ok (kv : string * string) : Prop :=
  has_char "="%char kv.1 = false /\ has_char ";"%char kv.1 = false /\ has_char ";"%char kv.2 = false /\
  trim kv.1 = kv.1 /\ trim kv.2 = kv.2.

Lemma split_once_pair kv : has_char "="%char kv.1 = false -> split_once "="%char (pair_text kv) = Some kv.
Proof. intros H. unfold pair_text. rewrite split_once_app by done. by destruct kv. Qed.

Lemma split_once_spaced kv :
  has_char "="%char kv.1 = false -> split_once "="%char (String " "%char (pair_text kv)) = Some (String " "%char kv.1, kv.2).
Proof. intros H. cbn [split_once]. rewrite decide_False by done. by rewrite split_once_pair; destruct kv. Qed.

Lemma omap_cons_some {A B} (f : A -> option B) x l y : f x = Some y -> omap f (x :: l) = y :: omap f l.
Proof. intros H. cbn. by rewrite H. Qed.

Lemma cookie_pairs rest :
  Forall pair_ok rest ->
  omap (split_once "="%char) ((fun kv => String " "%char (pair_text kv)) <$> rest) = (fun kv => (String " "%char kv.1, kv.2)) <$> rest.
Proof.
  induction 1 as [|kv rest (Hk & _) _ IH]; [done|]. rewrite !fmap_cons, (omap_cons_some _ _ _ _ (split_once_spaced kv Hk)). by rewrite IH.
Qed.

Lemma pair_text_semi kv : pair_ok kv -> has_char ";"%char (pair_text kv) = false.
Proof. intros (_ & H1 & H2 & _). unfold pair_text. rewrite has_char_app, H1. cbn [has_char]. by rewrite H2. Qed.

Lemma spaced_filter name rest :
  Forall pair_ok rest ->
  (fun kv => trim kv.2) <$> head (filter (fun kv => trim kv.1 = name) ((fun kv => (String " "%char kv.1, kv.2)) <$> rest)) =
  snd <$> head (filter (fun kv => kv.1 = name) rest).
Proof.
  induction 1 as [|[k v] rest (Hk & _ & _ & Ht & Hv) _ IH]; [done|]. cbn [fmap list_fmap] in *. rewrite !filter_cons.
  cbn [fst snd] in *. rewrite trim_space, Ht. destruct (decide (k = name)); [cbn [head fmap option_fmap option_map snd]; by rewrite Hv|exact IH].
Qed.

(** A cookie comes back as the first value its name was given, wherever it is among the
    others. *)
Theorem cookie_read_back jar name :
  Forall pair_ok jar -> cookie_value [Some (cookie_header jar)] name = snd <$> head (filter (fun kv => kv.1 = name) jar).
Proof.
  intros Hjar. unfold cookie_value. cbn [omap list_omap id mbind list_bind]. rewrite app_nil_r.
  destruct Hjar as [|[k v] rest Hkv Hrest]; [done|]. unfold cookie_header.
  rewrite split_join; [|done|].
  2: { constructor; [by apply pair_text_semi|]. apply Forall_fmap. eapply Forall_impl; [exact Hrest|].
       intros kv Hk. cbn [compose]. cbn [has_char]. rewrite bool_decide_eq_false_2 by done. by apply pair_text_semi. }
  destruct Hkv as (Hk & _ & _ & Ht & Hv). rewrite (omap_cons_some _ _ _ (k, v)) by (by apply split_once_pair).
  rewrite cookie_pairs by done. rewrite !filter_cons. cbn [fst snd] in *. rewrite Ht.
  destruct (decide (k = name)); [cbn [head fmap option_fmap option_map snd]; by rewrite Hv|by apply spaced_filter].
Qed.

Lemma cookie_read_back_witness : cookie_value [Some (cookie_header [("a", "1"); (SESSION_COOKIE, "abc"); ("b", "2")])] SESSION_COOKIE = Some "abc".
Proof.
  rewrite (cookie_read_back [("a", "1"); (SESSION_COOKIE, "abc"); ("b", "2")] SESSION_COOKIE); [vm_compute; reflexivity|].
  repeat (constructor; [vm_compute; repeat split; reflexivity|]). constructor.
Defined.
