(* ===== verification/AccountStore.v ===== *)
(** * AccountStore: users, sessions and watches in SQLite

    Models [crates/storage/src/sqlite/users.rs], [sessions.rs] and [watches.rs] with the
    records of [crates/app-core/src/model.rs], over the tables the migrations create: a
    unique username without regard to ASCII case, ids that are never reused
    ([AUTOINCREMENT]), sessions, linked accounts and watches that go when their user
    goes, and the one-row table that records that an administrator was bootstrapped.

    A statement or a transaction is one step; a statement that fails changes nothing. *)
From Stdlib Require Import Ascii ZArith.
From stdpp Require Import prelude gmap sorting strings pretty.
From S2P Require Import Prelude Text Time Store Sqlite Market.

(** ** Records *)
Abbreviation UserId := N.

Record User := { u_id : UserId; u_username : string; u_created_at : Millis; u_is_admin : bool }.
Record Credentials := { cr_user : User; cr_password_hash : string }.
Record Session := { s_id : string; s_user_id : UserId; s_created_at : Millis; s_expires_at : Millis }.
Record LinkedAccount := {
  la_user_id : UserId; la_provider : string; la_external_id : string; la_display_name : string; la_linked_at : Millis }.

Definition Session_is_expired (self : Session) (now : Millis) : bool := bool_decide (s_expires_at self <= now).

(** ** Tables *)
Record UserRow := {
  ur_username : string; ur_password_hash : string; ur_created_at : Z; ur_is_admin : Z; ur_discord_webhook_url : option string }.
Record SessionRow := { sr_user_id : UserId; sr_created_at : Z; sr_expires_at : Z }.

Record Db := {
  db_users : gmap UserId UserRow; db_seq : N; db_sessions : gmap string SessionRow;
  db_admin_bootstrap : option (option UserId);
  db_linked : gmap (UserId * string) (string * string * Z);
  db_watches : gmap (UserId * N * string) Z }.

Definition db_empty : Db :=
  {| db_users := ∅; db_seq := 0; db_sessions := ∅; db_admin_bootstrap := None; db_linked := ∅; db_watches := ∅ |}.

Definition set_users (db : Db) (users : gmap UserId UserRow) (seq : N) : Db :=
  {| db_users := users; db_seq := seq; db_sessions := db_sessions db; db_admin_bootstrap := db_admin_bootstrap db;
     db_linked := db_linked db; db_watches := db_watches db |}.
Definition set_sessions (db : Db) (sessions : gmap string SessionRow) : Db :=
  {| db_users := db_users db; db_seq := db_seq db; db_sessions := sessions; db_admin_bootstrap := db_admin_bootstrap db;
     db_linked := db_linked db; db_watches := db_watches db |}.
Definition set_bootstrap (db : Db) (b : option (option UserId)) : Db :=
  {| db_users := db_users db; db_seq := db_seq db; db_sessions := db_sessions db; db_admin_bootstrap := b;
     db_linked := db_linked db; db_watches := db_watches db |}.
Definition set_watches (db : Db) (w : gmap (UserId * N * string) Z) : Db :=
  {| db_users := db_users db; db_seq := db_seq db; db_sessions := db_sessions db; db_admin_bootstrap := db_admin_bootstrap db;
     db_linked := db_linked db; db_watches := w |}.

(** ** Users *)
Definition user_from_row (id : UserId) (row : UserRow) : User :=
  {| u_id := id; u_username := ur_username row; u_created_at := as_u64 (ur_created_at row);
     u_is_admin := bool_decide (ur_is_admin row <> 0%Z) |}.

(** [username = ?] under the column's [NOCASE] collation. *)
Definition same_name (username : string) (kv : UserId * UserRow) : bool := eq_ignore_ascii_case (ur_username kv.2) username.

Definition find_user (db : Db) (username : string) : option (UserId * UserRow) :=
  find_first (same_name username) (map_to_list (db_users db)).

(** [INSERT INTO users ... RETURNING]. *)
Definition insert_user (db : Db) (username password_hash : string) (now : Millis) (is_admin : Z) : StoreResult (User * Db) :=
  match find_user db username with
  | Some _ => Err (Conflict "UNIQUE constraint failed: users.username")
  | None =>
      if decide (Z.of_N (db_seq db) = Sqlite.i64_max) then Err (Backend "database or disk is full")
      else
        let id := db_seq db + 1 in
        let row := {| ur_username := username; ur_password_hash := password_hash; ur_created_at := as_i64 now;
                      ur_is_admin := is_admin; ur_discord_webhook_url := None |} in
        Ok (user_from_row id row, set_users db (<[id := row]> (db_users db)) id)
  end.

Definition users_create (username password_hash : string) (now : Millis) (db : Db) : StoreResult User * Db :=
  match insert_user db username password_hash now 0 with
  | Ok (user, db') => (Ok user, db')
  | Err e => (Err e, db)
  end.

(** [SELECT MIN(id) FROM users WHERE is_admin = 1], where there is one. *)
Definition first_admin (db : Db) : option UserId :=
  foldr (fun kv acc => if decide (ur_is_admin kv.2 = 1%Z) then Some (N.min kv.1 (default kv.1 acc)) else acc) None (map_to_list (db_users db)).

(** One transaction: rolled back as a whole when a statement fails. *)
Definition bootstrap_admin (username password_hash : string) (now : Millis) (db : Db) : StoreResult (option User) * Db :=
  let recorded := match db_admin_bootstrap db, first_admin db with
                  | None, Some id => set_bootstrap db (Some (Some id))
                  | _, _ => db
                  end in
  match db_admin_bootstrap recorded with
  | Some _ => (Ok None, recorded)
  | None =>
      match insert_user recorded username password_hash now 1 with
      | Ok (user, db') => (Ok (Some user), set_bootstrap db' (Some (Some (u_id user))))
      | Err e => (Err e, db)
      end
  end.

Definition by_username (username : string) (db : Db) : StoreResult (option Credentials) :=
  Ok ((fun kv => {| cr_user := user_from_row kv.1 kv.2; cr_password_hash := ur_password_hash kv.2 |}) <$> find_user db username).

Definition by_id (id : UserId) (db : Db) : StoreResult (option User) := Ok (user_from_row id <$> db_users db !! id).

Definition discord_webhook (id : UserId) (db : Db) : StoreResult (option string) :=
  Ok (db_users db !! id ≫= ur_discord_webhook_url).

Definition with_webhook (webhook : option string) (row : UserRow) : UserRow :=
  {| ur_username := ur_username row; ur_password_hash := ur_password_hash row; ur_created_at := ur_created_at row;
     ur_is_admin := ur_is_admin row; ur_discord_webhook_url := webhook |}.

Definition set_discord_webhook (id : UserId) (webhook : option string) (db : Db) : StoreResult unit * Db :=
  (Ok tt, set_users db (alter (with_webhook webhook) id (db_users db)) (db_seq db)).

Definition linked_accounts (id : UserId) (db : Db) : StoreResult (list LinkedAccount) :=
  Ok ((fun kv => {| la_user_id := kv.1.1; la_provider := kv.1.2; la_external_id := kv.2.1.1; la_display_name := kv.2.1.2;
                    la_linked_at := as_u64 kv.2.2 |}) <$>
      sort_by (fun a b => String.compare a.1.2 b.1.2) (filter (fun kv => kv.1.1 = id) (map_to_list (db_linked db)))).

(** [DELETE FROM users], and what the foreign keys take with it. *)
Definition users_delete (id : UserId) (db : Db) : StoreResult bool * Db :=
  match db_users db !! id with
  | None => (Ok false, db)
  | Some _ =>
      (Ok true,
       {| db_users := delete id (db_users db); db_seq := db_seq db;
          db_sessions := filter (fun kv => sr_user_id kv.2 <> id) (db_sessions db);
          db_admin_bootstrap := (fun u => if decide (u = Some id) then None else u) <$> db_admin_bootstrap db;
          db_linked := filter (fun kv => kv.1.1 <> id) (db_linked db);
          db_watches := filter (fun kv => kv.1.1.1 <> id) (db_watches db) |})
  end.

(** ** Sessions *)
Definition sessions_create (session : Session) (db : Db) : StoreResult unit * Db :=
  match db_sessions db !! s_id session, db_users db !! s_user_id session with
  | Some _, _ => (Err (Conflict "UNIQUE constraint failed: sessions.id"), db)
  | None, None => (Err (Backend "FOREIGN KEY constraint failed"), db)
  | None, Some _ =>
      (Ok tt, set_sessions db (<[s_id session := {| sr_user_id := s_user_id session; sr_created_at := as_i64 (s_created_at session);
                                                    sr_expires_at := as_i64 (s_expires_at session) |}]> (db_sessions db)))
  end.

Definition sessions_get (id : string) (db : Db) : StoreResult (option Session) :=
  Ok ((fun row => {| s_id := id; s_user_id := sr_user_id row; s_created_at := as_u64 (sr_created_at row);
                     s_expires_at := as_u64 (sr_expires_at row) |}) <$> db_sessions db !! id).

Definition sessions_delete (id : string) (db : Db) : StoreResult unit * Db := (Ok tt, set_sessions db (delete id (db_sessions db))).

Definition purge_expired (now : Millis) (db : Db) : StoreResult N * Db :=
  let kept := filter (fun kv => (as_i64 now < sr_expires_at kv.2)%Z) (db_sessions db) in
  (Ok (N.of_nat (size (db_sessions db) - size kept)), set_sessions db kept).

(** ** Watches *)
Record Watch := { w_item : ItemId; w_region : Region; w_added_at : Millis }.

(** Newest first. *)
Definition watches (user : UserId) (db : Db) : StoreResult (list Watch) :=
  Ok (omap (fun kv => region ← Region_parse kv.1.2;
                      Some {| w_item := wrap 32 kv.1.1.2; w_region := region; w_added_at := as_u64 kv.2 |})
        (sort_by (fun a b => Z.compare b.2 a.2) (filter (fun kv => kv.1.1.1 = user) (map_to_list (db_watches db))))).

(** [ON CONFLICT DO NOTHING] does not excuse a user that is not there. *)
Definition watch (user : UserId) (item : ItemId) (region : Region) (now : Millis) (db : Db) : StoreResult unit * Db :=
  match db_watches db !! (user, item, Region_as_str region) with
  | Some _ => (Ok tt, db)
  | None =>
      match db_users db !! user with
      | Some _ => (Ok tt, set_watches db (<[(user, item, Region_as_str region) := as_i64 now]> (db_watches db)))
      | None => (Err (Backend "FOREIGN KEY constraint failed"), db)
      end
  end.

Definition unwatch (user : UserId) (item : ItemId) (region : Region) (db : Db) : StoreResult unit * Db :=
  (Ok tt, set_watches db (delete (user, item, Region_as_str region) (db_watches db))).

Definition watchers (item : ItemId) (region : Region) (db : Db) : StoreResult (list UserId) :=
  Ok (sort_by_key id ((fun kv => kv.1.1.1) <$>
        filter (fun kv => kv.1.1.2 = item /\ kv.1.2 = Region_as_str region) (map_to_list (db_watches db)))).

(** ** Everything that writes *)
Inductive Op :=
| OpCreate (username password_hash : string) (now : Millis)
| OpBootstrap (username password_hash : string) (now : Millis)
| OpWebhook (id : UserId) (webhook : option string)
| OpDelete (id : UserId)
| OpSession (s : Session)
| OpSignOut (id : string)
| OpPurge (now : Millis)
| OpWatch (user : UserId) (item : ItemId) (region : Region) (now : Millis)
| OpUnwatch (user : UserId) (item : ItemId) (region : Region).

Definition made_user (r : StoreResult User) : list User := match r with Ok u => [u] | Err _ => [] end.
Definition made_admin (r : StoreResult (option User)) : list User := match r with Ok (Some u) => [u] | _ => [] end.

(** What an operation leaves, and the account it made. *)
Definition exec (op : Op) (db : Db) : list User * Db :=
  match op with
  | OpCreate u h now => let '(r, db') := users_create u h now db in (made_user r, db')
  | OpBootstrap u h now => let '(r, db') := bootstrap_admin u h now db in (made_admin r, db')
  | OpWebhook id w => ([], (set_discord_webhook id w db).2)
  | OpDelete id => ([], (users_delete id db).2)
  | OpSession s => ([], (sessions_create s db).2)
  | OpSignOut id => ([], (sessions_delete id db).2)
  | OpPurge now => ([], (purge_expired now db).2)
  | OpWatch user item region now => ([], (watch user item region now db).2)
  | OpUnwatch user item region => ([], (unwatch user item region db).2)
  end.

(** The newest operation first. *)
Fixpoint run (log : list Op) : list User * Db :=
  match log with
  | [] => ([], db_empty)
  | op :: earlier => let '(made, db) := run earlier in let '(m, db') := exec op db in (m ++ made, db')
  end.

(** ** Integrity *)
Record db_ok (made : list User) (db : Db) : Prop := {
  ok_names : forall i j r r', db_users db !! i = Some r -> db_users db !! j = Some r' ->
    to_lower (ur_username r) = to_lower (ur_username r') -> i = j;
  ok_ids : forall i r, db_users db !! i = Some r -> exists u, u ∈ made /\ u_id u = i /\ u_username u = ur_username r /\
    u_is_admin u = bool_decide (ur_is_admin r <> 0%Z);
  ok_seq : Forall (fun u => 1 <= u_id u <= db_seq db) made /\ (Z.of_N (db_seq db) <= Sqlite.i64_max)%Z;
  ok_fresh : NoDup (u_id <$> made);
  ok_sessions : forall t r, db_sessions db !! t = Some r -> is_Some (db_users db !! sr_user_id r);
  ok_linked : forall k r, db_linked db !! k = Some r -> is_Some (db_users db !! k.1);
  ok_watches : forall k r, db_watches db !! k = Some r -> is_Some (db_users db !! k.1.1);
  ok_admin : (length (filter (fun u => u_is_admin u = true) made) <= 1)%nat;
  ok_bootstrap : db_admin_bootstrap db = None -> Forall (fun u => u_is_admin u = false) made;
  ok_flags : forall i r, db_users db !! i = Some r -> ur_is_admin r = 0%Z \/ ur_is_admin r = 1%Z }.

Lemma same_name_true name kv : same_name name kv = true <-> to_lower (ur_username kv.2) = to_lower name.
Proof. unfold same_name, eq_ignore_ascii_case. by rewrite bool_decide_eq_true. Qed.

Lemma find_user_Some db name i r : find_user db name = Some (i, r) -> db_users db !! i = Some r /\ to_lower (ur_username r) = to_lower name.
Proof. intros [Hin Hs]%find_first_Some. apply elem_of_map_to_list in Hin. by apply same_name_true in Hs. Qed.

Lemma find_user_None db name : find_user db name = None -> forall i r, db_users db !! i = Some r -> to_lower (ur_username r) <> to_lower name.
Proof.
  intros H i r Hi Heq. unfold find_user in H. pose proof (find_first_None _ _ H (i, r)) as Hn.
  rewrite (proj2 (same_name_true name (i, r))) in Hn by done. by discriminate Hn; apply elem_of_map_to_list.
Qed.

Lemma find_user_unique made db name i r :
  db_ok made db -> db_users db !! i = Some r -> to_lower (ur_username r) = to_lower name -> find_user db name = Some (i, r).
Proof.
  intros Hok Hi Hn. destruct (find_user db name) as [[j r']|] eqn:Hf.
  - apply find_user_Some in Hf as [Hj Hn']. assert (j = i) as -> by (eapply ok_names; [done..|congruence]). congruence.
  - by apply (find_user_None _ _ Hf i r Hi) in Hn.
Qed.

(** A row joins the table. *)
Lemma insert_user_ok made db name hash now flag u db' :
  db_ok made db -> (flag = 0 \/ flag = 1)%Z -> insert_user db name hash now flag = Ok (u, db') ->
  (flag = 1%Z -> Forall (fun u => u_is_admin u = false) made) ->
  (flag = 0%Z -> db_ok (u :: made) db') /\
  (flag = 1%Z -> db_ok (u :: made) (set_bootstrap db' (Some (Some (u_id u))))) /\
  u_username u = name /\ u_is_admin u = bool_decide (flag <> 0%Z).
Proof.
  intros [H1 H2 [H3 H3'] H4 H5 H6 H7 H8 H9 H10] Hflag. unfold insert_user.
  destruct (find_user db name) as [?|] eqn:Hf; [done|]. case_decide as Hseq; [done|]. intros [= <- <-] Hno.
  assert (Hfresh : db_users db !! (db_seq db + 1) = None).
  { apply eq_None_not_Some. intros [r Hr]. destruct (H2 _ _ Hr) as (w & Hw & Hid & _). rewrite Forall_forall in H3. specialize (H3 w Hw). lia. }
  assert (Hnew : forall j r, db_users db !! j = Some r -> j <> db_seq db + 1) by (intros j r Hj ->; congruence).
  pose proof (find_user_None _ _ Hf) as Hn.
  assert (Hmono : forall k, is_Some (db_users db !! k) ->
     is_Some (<[db_seq db + 1 := {| ur_username := name; ur_password_hash := hash; ur_created_at := as_i64 now; ur_is_admin := flag;
                                    ur_discord_webhook_url := None |}]> (db_users db) !! k)) by (intros k Hk; by apply lookup_insert_is_Some'; right).
  assert (Hcore : forall b, (b = None -> flag = 0%Z /\ db_admin_bootstrap db = None) ->
    db_ok (user_from_row (db_seq db + 1) {| ur_username := name; ur_password_hash := hash; ur_created_at := as_i64 now; ur_is_admin := flag;
                                            ur_discord_webhook_url := None |} :: made)
      (set_bootstrap (set_users db (<[db_seq db + 1 := {| ur_username := name; ur_password_hash := hash; ur_created_at := as_i64 now;
                                                          ur_is_admin := flag; ur_discord_webhook_url := None |}]> (db_users db)) (db_seq db + 1)) b)).
  { intros b Hb. split; cbn [set_bootstrap set_users db_users db_seq db_sessions db_admin_bootstrap db_linked db_watches].
    - intros i j r r' Hi Hj Heq. rewrite lookup_insert_Some in Hi, Hj.
      destruct Hi as [[<- <-]|[_ Hi]], Hj as [[<- <-]|[_ Hj]]; [done|..|by eapply H1]; cbn in Heq; [by apply Hn in Hj|by apply Hn in Hi].
    - intros i r Hi. rewrite lookup_insert_Some in Hi. destruct Hi as [[<- <-]|[_ Hi]].
      + eexists. split; [by left|]. done.
      + destruct (H2 i r Hi) as (w & Hw & ?). exists w. split; [by right|done].
    - split; [constructor; cbn; [lia|]|lia]. eapply Forall_impl; [exact H3|]. cbn. intros; lia.
    - rewrite fmap_cons. apply NoDup_cons. split; [|done]. intros (w & Hw & Hin)%list_elem_of_fmap. cbn in Hw.
      rewrite Forall_forall in H3. specialize (H3 w Hin). lia.
    - intros t r Ht. apply Hmono. by eapply H5.
    - intros k r Hk. apply Hmono. by eapply H6.
    - intros k r Hk. apply Hmono. by eapply H7.
    - rewrite filter_cons. cbn [user_from_row u_is_admin ur_is_admin]. case_decide as Hadm; [|done]. apply bool_decide_eq_true in Hadm.
      rewrite filter_none; [cbn; lia|]. eapply Forall_impl; [apply Hno; destruct Hflag; [by destruct Hadm|done]|]. cbn. congruence.
    - intros Hbn. destruct (Hb Hbn) as [-> Hdb]. constructor; [done|]. by apply H9.
    - intros i r Hi. rewrite lookup_insert_Some in Hi. destruct Hi as [[<- <-]|[_ Hi]]; [done|by eapply H10]. }
  split_and!; [| |done|done].
  - intros Hcase. by apply (Hcore (db_admin_bootstrap db)).
  - intros _. by apply Hcore.
Qed.

(** What an operation that adds no account may do to the tables. *)
Lemma db_ok_shrink made db db' :
  db_ok made db -> db_seq db' = db_seq db ->
  (forall i r', db_users db' !! i = Some r' -> exists r, db_users db !! i = Some r /\ ur_username r' = ur_username r /\ ur_is_admin r' = ur_is_admin r) ->
  (forall t r, db_sessions db' !! t = Some r -> is_Some (db_users db' !! sr_user_id r)) ->
  (forall k r, db_linked db' !! k = Some r -> is_Some (db_users db' !! k.1)) ->
  (forall k r, db_watches db' !! k = Some r -> is_Some (db_users db' !! k.1.1)) ->
  (db_admin_bootstrap db' = None -> db_admin_bootstrap db = None) ->
  db_ok made db'.
Proof.
  intros [H1 H2 [H3 H3'] H4 H5 H6 H7 H8 H9 H10] Hseq Hu Hs Hl Hw Hb. split; try done.
  - intros i j r r' Hi Hj Heq. destruct (Hu i r Hi) as (a & Ha & Hna & _), (Hu j r' Hj) as (b & Hb' & Hnb & _).
    eapply H1; [exact Ha|exact Hb'|congruence].
  - intros i r Hi. destruct (Hu i r Hi) as (a & Ha & -> & ->). by apply H2.
  - by rewrite Hseq.
  - intros Hn. by apply H9, Hb.
  - intros i r Hi. destruct (Hu i r Hi) as (a & Ha & _ & ->). by eapply H10.
Qed.

Lemma create_ok made db name hash now :
  db_ok made db -> db_ok (made_user (users_create name hash now db).1 ++ made) (users_create name hash now db).2.
Proof.
  intros Hok. unfold users_create. destruct (insert_user db name hash now 0) as [[u db']|e] eqn:Hi; [|done].
  eapply (insert_user_ok made db name hash now 0 u db'); [done|by left|done|done|done].
Qed.

Lemma first_admin_None db : first_admin db = None -> forall i r, db_users db !! i = Some r -> ur_is_admin r <> 1%Z.
Proof.
  unfold first_admin. intros Hn i r Hi. apply elem_of_map_to_list in Hi. revert Hn Hi. generalize (map_to_list (db_users db)) as l.
  induction l as [|kv l IH]; intros Hn Hi; [by apply not_elem_of_nil in Hi|]. cbn in Hn. case_decide; [done|].
  apply elem_of_cons in Hi as [<-|Hi]; [done|by apply IH].
Qed.

Lemma bootstrap_ok made db name hash now :
  db_ok made db -> db_ok (made_admin (bootstrap_admin name hash now db).1 ++ made) (bootstrap_admin name hash now db).2.
Proof.
  intros Hok. unfold bootstrap_admin.
  assert (Hrec : forall b, (b = None -> db_admin_bootstrap db = None) -> db_ok made (set_bootstrap db b)).
  { intros b Hb. apply (db_ok_shrink made db); [done|done|by eauto|apply Hok|apply Hok|apply Hok|exact Hb]. }
  set (recorded := match db_admin_bootstrap db, first_admin db with None, Some id => set_bootstrap db (Some (Some id)) | _, _ => db end).
  assert (Hr : db_ok made recorded) by (unfold recorded; destruct (db_admin_bootstrap db), (first_admin db); [done|done|by apply Hrec|done]).
  destruct (db_admin_bootstrap recorded) as [?|] eqn:Hb; [done|].
  destruct (insert_user recorded name hash now 1) as [[u db']|e] eqn:Hi; [|done].
  eapply (insert_user_ok made recorded name hash now 1 u db'); [done|by right|done|intros _; by apply Hr|done].
Qed.

Lemma users_delete_ok made db id : db_ok made db -> db_ok made (users_delete id db).2.
Proof.
  intros Hok. unfold users_delete. destruct (db_users db !! id) as [row|] eqn:Hid; [|done].
  assert (Hkeep : forall j, is_Some (db_users db !! j) -> j <> id -> is_Some (delete id (db_users db) !! j))
    by (intros j Hj Hne; by rewrite lookup_delete_ne by congruence).
  apply (db_ok_shrink made db); [done|done|..]; cbn [snd db_users db_sessions db_linked db_watches db_admin_bootstrap].
  - intros i r' Hi. apply lookup_delete_Some in Hi as [_ Hi]. by eauto.
  - intros t r Ht. apply map_lookup_filter_Some in Ht as [Ht Hne]. apply Hkeep; [by eapply ok_sessions|exact Hne].
  - intros k r Hk. apply map_lookup_filter_Some in Hk as [Hk Hne]. apply Hkeep; [by eapply ok_linked|exact Hne].
  - intros k r Hk. apply map_lookup_filter_Some in Hk as [Hk Hne]. apply Hkeep; [by eapply ok_watches|exact Hne].
  - by destruct (db_admin_bootstrap db).
Qed.

Lemma exec_ok made db op : db_ok made db -> db_ok ((exec op db).1 ++ made) (exec op db).2.
Proof.
  intros Hok. pose proof (ok_sessions made db Hok) as Hs. pose proof (ok_linked made db Hok) as Hl. pose proof (ok_watches made db Hok) as Hw.
  destruct op as [u h now|u h now|id w|id|s|t|now|user item region now|user item region]; cbn [exec].
  - pose proof (create_ok made db u h now Hok) as Hc. by destruct (users_create u h now db).
  - pose proof (bootstrap_ok made db u h now Hok) as Hc. by destruct (bootstrap_admin u h now db).
  - assert (Hdom : forall j, is_Some (db_users db !! j) -> is_Some (alter (with_webhook w) id (db_users db) !! j))
      by (intros j Hj; rewrite lookup_alter; case_decide; [by apply fmap_is_Some; subst|done]).
    apply (db_ok_shrink made db); [done|done| | | | |done]; cbn [snd set_discord_webhook set_users db_users db_sessions db_linked db_watches].
    + intros i r' Hi. rewrite lookup_alter in Hi. case_decide; [|by eauto]. apply fmap_Some in Hi as (r & Hr & ->). exists r. by subst.
    + intros t r Ht. by eapply Hdom, Hs.
    + intros k r Hk. by eapply Hdom, Hl.
    + intros k r Hk. by eapply Hdom, Hw.
  - by apply users_delete_ok.
  - unfold sessions_create. destruct (db_sessions db !! s_id s) eqn:Ht; [done|]. destruct (db_users db !! s_user_id s) eqn:Hu; [|done].
    apply (db_ok_shrink made db); [done|done|by eauto| |done|done|done]. cbn. intros t r Hr. apply lookup_insert_Some in Hr as [[_ <-]|[_ Hr]]; [by eexists|].
    by eapply Hs.
  - apply (db_ok_shrink made db); [done|done|by eauto| |done|done|done]. cbn. intros t' r [_ Hr]%lookup_delete_Some. by eapply Hs.
  - apply (db_ok_shrink made db); [done|done|by eauto| |done|done|done]. cbn. intros t' r [Hr _]%map_lookup_filter_Some. by eapply Hs.
  - unfold watch. destruct (db_watches db !! _) eqn:Hx; [done|]. destruct (db_users db !! user) eqn:Hu; [|done].
    apply (db_ok_shrink made db); [done|done|by eauto|done|done| |done]. cbn. intros k r Hr. apply lookup_insert_Some in Hr as [[<- _]|[_ Hr]]; [by eexists|].
    by eapply Hw.
  - apply (db_ok_shrink made db); [done|done|by eauto|done|done| |done]. cbn. intros k r [_ Hr]%lookup_delete_Some. by eapply Hw.
Qed.

Lemma run_ok log : db_ok (run log).1 (run log).2.
Proof.
  induction log as [|op log IH].
  - split; cbn [run fst snd db_empty db_users db_seq db_sessions db_linked db_watches fmap list_fmap];
      try (intros *; rewrite lookup_empty; done); [|constructor|cbn; lia|constructor]. split; [constructor|vm_compute; discriminate].
  - cbn [run]. destruct (run log) as [made db]. cbn [fst snd] in IH. pose proof (exec_ok made db op IH) as He.
    by destruct (exec op db) as [m db'].
Qed.

(** ** Where accounts come from *)
Lemma insert_user_user db name hash now flag u db' :
  insert_user db name hash now flag = Ok (u, db') -> u_username u = name /\ u_is_admin u = bool_decide (flag <> 0%Z).
Proof. unfold insert_user. destruct (find_user db name); [done|]. case_decide; [done|]. by intros [= <- <-]. Qed.

Lemma made_by log u :
  u ∈ (run log).1 ->
  (u_is_admin u = false /\ exists h now, OpCreate (u_username u) h now ∈ log) \/
  (u_is_admin u = true /\ exists h now, OpBootstrap (u_username u) h now ∈ log).
Proof.
  induction log as [|op log IH]; [by intros ?%not_elem_of_nil|]. cbn [run]. destruct (run log) as [made db]. destruct (exec op db) as [m db'] eqn:He.
  cbn [fst] in *. rewrite elem_of_app. intros [Hm|Hm].
  2: { destruct (IH Hm) as [(Ha & h & now & Hin)|(Ha & h & now & Hin)]; [left|right]; (split; [done|]); exists h, now; by right. }
  destruct op as [n h now|n h now|id w|id|s|t|now|user item region now|user item region]; cbn in He;
    try (injection He as <- <-; by apply not_elem_of_nil in Hm).
  - unfold users_create in He. destruct (insert_user db n h now 0) as [[v d]|e] eqn:Hi; injection He as <- <-; cbn in Hm; [|by apply not_elem_of_nil in Hm].
    apply list_elem_of_singleton in Hm as ->. apply insert_user_user in Hi as [Hn Ha]. left. split; [done|]. exists h, now. rewrite Hn. by left.
  - unfold bootstrap_admin in He. set (rec := match db_admin_bootstrap db, first_admin db with None, Some id => _ | _, _ => _ end) in He.
    destruct (db_admin_bootstrap rec); [injection He as <- <-; by apply not_elem_of_nil in Hm|].
    destruct (insert_user rec n h now 1) as [[v d]|e] eqn:Hi; injection He as <- <-; cbn in Hm; [|by apply not_elem_of_nil in Hm].
    apply list_elem_of_singleton in Hm as ->. apply insert_user_user in Hi as [Hn Ha]. right. split; [done|]. exists h, now. rewrite Hn. by left.
Qed.

(** ** What ends a session *)
Definition row_of (s : Session) : SessionRow :=
  {| sr_user_id := s_user_id s; sr_created_at := as_i64 (s_created_at s); sr_expires_at := as_i64 (s_expires_at s) |}.

(** Signed out, its account deleted, or swept after it ran out. *)
Definition ends (op : Op) (s : Session) : Prop :=
  match op with
  | OpSignOut t => t = s_id s
  | OpDelete id => id = s_user_id s
  | OpPurge now => (as_i64 (s_expires_at s) <= as_i64 now)%Z
  | _ => False
  end.

#[export] Instance ends_dec op s : Decision (ends op s).
Proof. destruct op; cbn; apply _. Defined.

Lemma sessions_unchanged op db :
  match op with OpCreate _ _ _ | OpBootstrap _ _ _ | OpWebhook _ _ | OpWatch _ _ _ _ | OpUnwatch _ _ _ => True | _ => False end ->
  db_sessions (exec op db).2 = db_sessions db.
Proof.
  assert (Hins : forall d n h now f u d', insert_user d n h now f = Ok (u, d') -> db_sessions d' = db_sessions d).
  { intros d n h now f u d'. unfold insert_user. destruct (find_user d n); [done|]. case_decide; [done|]. by intros [= <- <-]. }
  destruct op as [n h now|n h now|id w|id|s|t|now|user item region now|user item region]; try done; intros _; cbn [exec].
  - unfold users_create. destruct (insert_user db n h now 0) as [[u d]|e] eqn:Hi; [by eapply Hins|done].
  - unfold bootstrap_admin. set (rec := match db_admin_bootstrap db, first_admin db with None, Some id => _ | _, _ => _ end).
    assert (Hr : db_sessions rec = db_sessions db) by (unfold rec; by destruct (db_admin_bootstrap db), (first_admin db)).
    destruct (db_admin_bootstrap rec); [done|]. destruct (insert_user rec n h now 1) as [[u d]|e] eqn:Hi; [|done].
    cbn. by rewrite (Hins _ _ _ _ _ _ _ Hi).
  - unfold watch. destruct (db_watches db !! _); [done|]. by destruct (db_users db !! user).
Qed.

Lemma session_step made db op s :
  db_ok made db ->
  db_sessions (exec op db).2 !! s_id s = Some (row_of s) <->
  (db_sessions db !! s_id s = Some (row_of s) /\ ~ ends op s) \/
  (db_sessions db !! s_id s = None /\ is_Some (db_users db !! s_user_id s) /\
   exists s', op = OpSession s' /\ s_id s' = s_id s /\ s_user_id s' = s_user_id s /\ row_of s' = row_of s).
Proof.
  intros Hok. destruct op as [n h now|n h now|id w|id|s'|t|now|user item region now|user item region];
    try (rewrite sessions_unchanged by done; cbn [ends]; naive_solver).
  - cbn [exec snd ends]. unfold users_delete. destruct (db_users db !! id) as [r|] eqn:Hid; cbn [snd db_sessions].
    + rewrite map_lookup_filter_Some. cbn [snd row_of sr_user_id]. naive_solver.
    + split; [|naive_solver]. intros Hs. left. split; [done|]. intros ->. apply (ok_sessions made db Hok) in Hs as [? ?]. cbn in *. congruence.
  - cbn [exec snd ends]. unfold sessions_create. destruct (decide (s_id s' = s_id s)) as [Heq|Hne].
    + rewrite Heq. destruct (db_sessions db !! s_id s) as [r|] eqn:Ht; [cbn; naive_solver|].
      destruct (db_users db !! s_user_id s') as [r|] eqn:Hu; cbn [snd set_sessions db_sessions].
      * rewrite lookup_insert_eq. split; [|intros [[? _]|(_ & _ & s0 & [= <-] & _ & _ & Hr)]; [done|by f_equal]].
        intros [= H1 H2 H3]. right. split; [done|]. rewrite <- H1, Hu. split; [done|]. exists s'. split_and!; try done. unfold row_of. by rewrite H1, H2, H3.
      * split; [congruence|]. intros [[? _]|(_ & [r Hr] & s0 & [= <-] & _ & Hid & _)]; [congruence|]. rewrite Hid in Hu. congruence.
    + destruct (db_sessions db !! s_id s') as [r|]; [naive_solver|]. destruct (db_users db !! s_user_id s') as [r|]; [|naive_solver].
      cbn [snd set_sessions db_sessions]. rewrite lookup_insert_ne by done. naive_solver.
  - cbn [exec snd ends sessions_delete set_sessions db_sessions]. rewrite lookup_delete_Some. naive_solver.
  - cbn [exec snd ends purge_expired set_sessions db_sessions]. rewrite map_lookup_filter_Some. cbn [snd row_of sr_expires_at].
    rewrite Z.le_ngt. destruct (decide (as_i64 now < as_i64 (s_expires_at s))%Z); naive_solver.
Qed.

(** A session is there exactly when it was begun for an account that existed, under a
    token that was free, and nothing has ended it since. *)
Lemma session_history log s :
  db_sessions (run log).2 !! s_id s = Some (row_of s) <->
  exists later s' earlier, log = later ++ OpSession s' :: earlier /\ s_id s' = s_id s /\ s_user_id s' = s_user_id s /\ row_of s' = row_of s /\
    db_sessions (run earlier).2 !! s_id s = None /\ is_Some (db_users (run earlier).2 !! s_user_id s) /\ Forall (fun op => ~ ends op s) later.
Proof.
  induction log as [|op log IH].
  - cbn. rewrite lookup_empty. split; [done|]. intros ([|? ?] & s' & earlier & Hl & _); discriminate.
  - assert (Hrun : (run (op :: log)).2 = (exec op (run log).2).2) by (cbn [run]; destruct (run log) as [made db]; cbn [snd]; by destruct (exec op db)).
    rewrite Hrun, (session_step (run log).1 _ _ _ (run_ok log)), IH. clear IH Hrun. split.
    + intros [((later & s' & earlier & -> & H) & Hne)|(Hn & Hu & s' & -> & H1 & H2 & H3)].
      * exists (op :: later), s', earlier. destruct H as (? & ? & ? & ? & ? & ?). split_and!; try done. by constructor.
      * exists [], s', log. by split_and!.
    + intros ([|op' later] & s' & earlier & Hl & H1 & H2 & H3 & H4 & H5 & H6).
      * injection Hl as -> ->. right. split_and!; try done. by exists s'.
      * injection Hl as -> ->. left. apply Forall_cons in H6 as [H6 H7]. split; [|done]. by exists later, s', earlier.
Qed.

(** C28: Whatever is written and in whatever order: two accounts never share a username, not
    even in another case; an id is given once, also after its account is gone; what
    belongs to an account goes with it; registering never makes an administrator, and
    the bootstrap makes one at most, once for the life of the database. *)
Theorem accounts_integrity log :
  let '(made, db) := run log in
  (forall i j r r', db_users db !! i = Some r -> db_users db !! j = Some r' -> to_lower (ur_username r) = to_lower (ur_username r') -> i = j) /\
  NoDup (u_id <$> made) /\
  (forall i r, db_users db !! i = Some r -> exists u, u ∈ made /\ u_id u = i /\ u_username u = ur_username r /\ user_from_row i r = {|
     u_id := i; u_username := u_username u; u_created_at := as_u64 (ur_created_at r); u_is_admin := u_is_admin u |}) /\
  (forall t r, db_sessions db !! t = Some r -> is_Some (db_users db !! sr_user_id r)) /\
  (forall k r, db_watches db !! k = Some r -> is_Some (db_users db !! k.1.1)) /\
  (length (filter (fun u => u_is_admin u = true) made) <= 1)%nat /\
  (forall u, u ∈ made -> u_is_admin u = true -> exists h now, OpBootstrap (u_username u) h now ∈ log).
Proof.
  pose proof (run_ok log) as Hok. pose proof (made_by log) as Hm. destruct (run log) as [made db]. cbn [fst snd] in *.
  split_and!; [apply Hok|apply Hok| |apply Hok|apply Hok|apply Hok|].
  - intros i r Hi. destruct (ok_ids made db Hok i r Hi) as (u & Hu & Hid & Hn & Ha). exists u. split_and!; try done.
    unfold user_from_row. by rewrite Hn, Ha.
  - intros u Hu Ha. destruct (Hm u Hu) as [[Hf _]|[_ Hx]]; [congruence|done].
Qed.

(** A username is taken whatever its case, and the bootstrap is not reopened by deleting
    the administrator it made. *)
Example bootstrap_once :
  (fun u => (u_id u, u_username u, u_is_admin u)) <$>
  (run [OpBootstrap "again" "h" 5; OpDelete 2; OpCreate "ROOT" "h" 4; OpBootstrap "other" "h" 3; OpBootstrap "root" "h" 2; OpCreate "ann" "h" 1]).1 =
  [(2, "root", true); (1, "ann", false)].
Proof. vm_compute. reflexivity. Qed.

(** ** Rows and the sessions they were made from *)
Lemma session_rows_exec op db t row :
  db_sessions (exec op db).2 !! t = Some row ->
  db_sessions db !! t = Some row \/ exists s, op = OpSession s /\ s_id s = t /\ row = row_of s.
Proof.
  destruct op as [n h now|n h now|id w|id|s|t'|now|user item region now|user item region];
    try (rewrite sessions_unchanged by done; by left); cbn [exec snd].
  - unfold users_delete. destruct (db_users db !! id); cbn [snd db_sessions]; [|by left]. intros [Hr _]%map_lookup_filter_Some. by left.
  - unfold sessions_create. destruct (db_sessions db !! s_id s) eqn:Ht; [by left|]. destruct (db_users db !! s_user_id s); [|by left].
    cbn [snd set_sessions db_sessions]. intros [[<- <-]|[_ Hr]]%lookup_insert_Some; [right; by exists s|by left].
  - cbn [snd sessions_delete set_sessions db_sessions]. intros [_ Hr]%lookup_delete_Some. by left.
  - cbn [snd purge_expired set_sessions db_sessions]. intros [Hr _]%map_lookup_filter_Some. by left.
Qed.

Lemma session_rows log t row :
  db_sessions (run log).2 !! t = Some row -> exists s, OpSession s ∈ log /\ s_id s = t /\ row = row_of s.
Proof.
  induction log as [|op log IH]; [by cbn; rewrite lookup_empty|].
  assert (Hrun : (run (op :: log)).2 = (exec op (run log).2).2) by (cbn [run]; destruct (run log) as [made db]; cbn [snd]; by destruct (exec op db)).
  rewrite Hrun. intros [Hr|(s & -> & Hs)]%session_rows_exec.
  - destruct (IH Hr) as (s & Hin & Hs). exists s. split; [by right|done].
  - exists s. split; [by left|done].
Qed.

(** Times a column holds. *)
Definition times_ok (s : Session) : Prop := s_created_at s < 2 ^ 64 /\ s_expires_at s < 2 ^ 64.

Lemma sessions_get_row s db :
  times_ok s -> db_sessions db !! s_id s = Some (row_of s) -> sessions_get (s_id s) db = Ok (Some s).
Proof.
  intros [Hc He] Hr. unfold sessions_get. rewrite Hr. cbn [fmap option_fmap option_map row_of sr_user_id sr_created_at sr_expires_at].
  rewrite !as_u64_i64 by done. by destruct s.
Qed.

Lemma row_of_inj s s' : times_ok s -> times_ok s' -> s_id s = s_id s' -> row_of s = row_of s' -> s = s'.
Proof.
  intros [Hc He] [Hc' He'] Hid Hr. injection Hr as Hu H1 H2. apply (f_equal as_u64) in H1, H2. rewrite !as_u64_i64 in H1, H2 by done.
  destruct s, s'. cbn in *. congruence.
Qed.
