(* ===== verification/Accounts.v ===== *)
(** * Accounts: registering, signing in and out

    Models [crates/app-core/src/auth.rs], the session half of
    [crates/app-web/src/session.rs] and the handlers of
    [crates/app-web/src/routes/account.rs].

    The handlers run against a store they know by its operations only ([AuthStore]): what
    is proved of them for every store holds for one that fails at any moment too.  The
    SQLite store is an instance.  Password hashing is a port: its two functions are
    arguments, as are the token the operating system gives and the reading of an address.
    A handler is a function of the world before to its answer and the world after; an
    answer may be an error or a panic ([Failure]). *)
From Stdlib Require Import Ascii ZArith.
From stdpp Require Import prelude gmap sorting strings pretty.
From S2P Require Import Prelude Text Time Store AppError Sqlite Market Throttle Csrf AccountStore.

Definition MIN_USERNAME : N := 3.
Definition MAX_USERNAME : N := 32.
Definition MIN_PASSWORD : N := 8.
Definition MAX_PASSWORD : N := 256.

Definition ABSENT_USER_HASH : string :=
  "$argon2id$v=19$m=19456,t=2,p=1$PBDGmYQeDFZi+ngthQy7oA$nWFqoA3BhV2HzsVjhYkCtBOCC1eJX9HiHrqd0jaL7aQ".

(** ** Validation *)

(** [chars().count()] of UTF-8: every byte that begins a character. *)
Fixpoint chars_count (s : string) : N :=
  match s with EmptyString => 0 | String a s => (if is_continuation a then 0 else 1) + chars_count s end.

(** The characters of UTF-8. *)
Definition continues (s : string) : bool := match s with String b _ => is_continuation b | EmptyString => false end.
Fixpoint chars (s : string) : list string :=
  match s with
  | EmptyString => []
  | String a s' =>
      match chars s' with
      | c :: rest => if continues s' then String a c :: rest else String a EmptyString :: c :: rest
      | [] => [String a EmptyString]
      end
  end.

Definition username_char (a : ascii) : bool :=
  let n := N_of_ascii a in
  bool_decide (48 <= n <= 57 \/ 65 <= n <= 90 \/ 97 <= n <= 122 \/ a = "_"%char \/ a = "-"%char).

Fixpoint all_chars (p : ascii -> bool) (s : string) : bool :=
  match s with EmptyString => true | String a s => p a && all_chars p s end.

Definition validate_username (username : string) : AppResult unit :=
  let len := chars_count username in
  if decide (MIN_USERNAME <= len <= MAX_USERNAME) then
    if all_chars username_char username then Ok tt else Err (AppError.validation text.USERNAME_CHARSET)
  else Err (AppError.validation_with text.USERNAME_LENGTH [pretty MIN_USERNAME; pretty MAX_USERNAME]).

Definition validate_password (password : string) : AppResult unit :=
  let len := chars_count password in
  if decide (MIN_PASSWORD <= len <= MAX_PASSWORD) then Ok tt
  else Err (AppError.validation_with text.PASSWORD_LENGTH [pretty MIN_PASSWORD; pretty MAX_PASSWORD]).

(** ** The store, as the services know it *)
Class AuthStore (S : Type) := {
  st_create : string -> string -> Millis -> S -> StoreResult User * S;
  st_by_username : string -> S -> StoreResult (option Credentials);
  st_by_id : UserId -> S -> StoreResult (option User);
  st_delete_user : UserId -> S -> StoreResult bool * S;
  st_set_webhook : UserId -> option string -> S -> StoreResult unit * S;
  st_session_create : Session -> S -> StoreResult unit * S;
  st_session_get : string -> S -> StoreResult (option Session);
  st_session_delete : string -> S -> StoreResult unit * S }.

#[export] Instance SqliteStore : AuthStore Db := {
  st_create := users_create; st_by_username := by_username; st_by_id := by_id; st_delete_user := users_delete;
  st_set_webhook := AccountStore.set_discord_webhook; st_session_create := sessions_create; st_session_get := sessions_get;
  st_session_delete := sessions_delete }.

(** ** Handlers *)
Inductive Failure := Panicked | Refused (e : AppError.t).

(** What a handler may change. *)
Record World (S : Type) := {
  w_store : S; w_throttle : LoginThrottle; w_sign_ups : option Window; w_gate : AuthGate; w_login_limited : N; w_argon2_saturated : N }.
Arguments w_store {S} _.
Arguments w_throttle {S} _.
Arguments w_sign_ups {S} _.
Arguments w_gate {S} _.
Arguments w_login_limited {S} _.
Arguments w_argon2_saturated {S} _.
Arguments Build_World {S} _ _ _ _ _ _.

Definition with_store {S} (s : S) (w : World S) : World S :=
  Build_World s (w_throttle w) (w_sign_ups w) (w_gate w) (w_login_limited w) (w_argon2_saturated w).
Definition with_throttle {S} (t : LoginThrottle) (w : World S) : World S :=
  Build_World (w_store w) t (w_sign_ups w) (w_gate w) (w_login_limited w) (w_argon2_saturated w).
Definition with_sign_ups {S} (c : option Window) (w : World S) : World S :=
  Build_World (w_store w) (w_throttle w) c (w_gate w) (w_login_limited w) (w_argon2_saturated w).
Definition with_gate {S} (g : AuthGate) (w : World S) : World S :=
  Build_World (w_store w) (w_throttle w) (w_sign_ups w) g (w_login_limited w) (w_argon2_saturated w).
Definition login_limited {S} (w : World S) : World S :=
  Build_World (w_store w) (w_throttle w) (w_sign_ups w) (w_gate w) (wrap 64 (w_login_limited w + 1)) (w_argon2_saturated w).
Definition argon2_saturated {S} (w : World S) : World S :=
  Build_World (w_store w) (w_throttle w) (w_sign_ups w) (w_gate w) (w_login_limited w) (wrap 64 (w_argon2_saturated w + 1)).

Definition Handler (S A : Type) : Type := World S -> Result A Failure * World S.

Definition ret {S A} (a : A) : Handler S A := fun w => (Ok a, w).
Definition fail {S A} (e : AppError.t) : Handler S A := fun w => (Err (Refused e), w).
Definition bind {S A B} (m : Handler S A) (k : A -> Handler S B) : Handler S B :=
  fun w => match m w with (Ok a, w') => k a w' | (Err e, w') => (Err e, w') end.
Notation "'do' x '<-' m ';;' k" := (bind m (fun x => k)) (at level 60, x name, m at level 55, right associativity) : gavel_scope.

Definition lift {S A} (r : AppResult A) : Handler S A := fun w => (match r with Ok a => Ok a | Err e => Err (Refused e) end, w).
(** [?] on a call of the store. *)
Definition store_call {S A} (f : S -> StoreResult A * S) : Handler S A :=
  fun w => let '(r, s) := f (w_store w) in (match r with Ok a => Ok a | Err e => Err (Refused (AppError.Repo e)) end, with_store s w).
Definition store_read {S A} (f : S -> StoreResult A) : Handler S A :=
  fun w => (match f (w_store w) with Ok a => Ok a | Err e => Err (Refused (AppError.Repo e)) end, w).
Definition change {S} (f : World S -> World S) : Handler S unit := fun w => (Ok tt, f w).
Definition ran {S} (r : Ran (AppResult unit)) : Handler S unit := match r with Panics => fun w => (Err Panicked, w) | Done r => lift r end.

(** What a request brings: the token of its [Csrf] extension, its headers as text, the
    address it came from, the clock, the token the system would give a new session, and
    whether a hashing permit is free. *)
Record Request := {
  rq_csrf : string; rq_csrf_header : option string; rq_cookies : list (option string); rq_hx_request : option string;
  rq_forwarded_for : option string; rq_peer : IpAddr; rq_now : Millis; rq_token : string; rq_permit : bool }.

Record Response := {
  rs_status : N; rs_location : option string; rs_hx_redirect : option string; rs_set_cookie : option string }.

Definition is_htmx (rq : Request) : bool :=
  match rq_hx_request rq with Some v => eq_ignore_ascii_case v "true" | None => false end.

Definition redirect_to (path : string) (htmx : bool) (cookie : option string) : Response :=
  if htmx then {| rs_status := 204; rs_location := None; rs_hx_redirect := Some path; rs_set_cookie := cookie |}
  else {| rs_status := 303; rs_location := Some path; rs_hx_redirect := None; rs_set_cookie := cookie |}.

Definition sign_ins_throttled : AppError.t :=
  AppError.TooManyRequests (Message_with text.TOO_MANY_SIGN_INS [pretty (WINDOW_MS / 60000)]).
Definition sign_ups_throttled : AppError.t :=
  AppError.TooManyRequests (Message_with text.TOO_MANY_SIGN_UPS [pretty (WINDOW_MS / 60000)]).

Definition has_admin_access (user : option User) : bool := match user with Some u => u_is_admin u | None => false end.

(** What somebody who is not an administrator gets: a redirect from the front door, a
    page that is not there everywhere else. *)
Definition refuse (path : string) : Response + AppError.t :=
  if bool_decide (path = "/") then
    inl {| rs_status := 303; rs_location := Some "/wow/auctions"; rs_hx_redirect := None; rs_set_cookie := None |}
  else inr AppError.NotFound.

(** [starts_with]. *)
Definition starts_with (p s : string) : bool := bool_decide (is_Some (strip_prefix p s)).

Definition looks_like_discord_webhook (url : string) : bool :=
  starts_with "https://discord.com/api/webhooks/" url || starts_with "https://discordapp.com/api/webhooks/" url.

Section Services.

Context {S : Type} `{AuthStore S}.
(** [PasswordHasher], and [IpAddr]'s [FromStr]. *)
Variable hash : string -> AppResult string.
Variable verify_password : string -> string -> AppResult bool.
Variable parse_ip : string -> option IpAddr.
Variable config : WebConfig.

(** ** [AuthService] *)
Definition start_session (user : User) (token : string) (now : Millis) : Handler S Session :=
  let session := {| s_id := token; s_user_id := u_id user; s_created_at := now; s_expires_at := plus_ms now SESSION_TTL_MS |} in
  do _ <- store_call (st_session_create session) ;;
  ret session.

Definition AuthService_register (username password : string) (now : Millis) : Handler S User :=
  do _ <- lift (validate_username username) ;;
  do _ <- lift (validate_password password) ;;
  do taken <- store_read (st_by_username username) ;;
  if decide (is_Some taken) then fail (AppError.Conflict (Message_new text.USERNAME_TAKEN))
  else
    do h <- lift (hash password) ;;
    store_call (st_create username h now).

Definition AuthService_login (username password token : string) (now : Millis) : Handler S Session :=
  do creds <- store_read (st_by_username username) ;;
  match creds with
  | None => fail AppError.Unauthorized
  | Some creds =>
      do ok <- lift (verify_password password (cr_password_hash creds)) ;;
      if ok : bool then start_session (cr_user creds) token now else fail AppError.Unauthorized
  end.

Definition AuthService_logout (session_id : string) : Handler S unit := store_call (st_session_delete session_id).

Definition authenticate (session_id : string) (now : Millis) : Handler S (option User) :=
  do session <- store_read (st_session_get session_id) ;;
  match session with
  | None => ret None
  | Some session =>
      if Session_is_expired session now then
        do _ <- store_call (st_session_delete session_id) ;; ret None
      else store_read (st_by_id (s_user_id session))
  end.

(** ** [session.rs] *)
Definition current_user (rq : Request) : Handler S (option User) :=
  match cookie_value (rq_cookies rq) (session_cookie_name config) with
  | None => ret None
  | Some token => authenticate token (rq_now rq)
  end.

(** Whether the page behind the gate is run; a store that cannot answer says no. *)
Definition admin_only (rq : Request) (w : World S) : bool * World S :=
  match current_user rq w with
  | (Ok user, w') => (has_admin_access user, w')
  | (Err _, w') => (false, w')
  end.

(** ** [account.rs] *)
Definition request_origin (rq : Request) : IpAddr :=
  match (if trust_proxy_headers config
         then value ← rq_forwarded_for rq; first ← head (split ","%char value); parse_ip (trim first) else None) with
  | Some ip => ip
  | None => rq_peer rq
  end.

(** [gate.take], and what is counted when it refuses. *)
Definition take_gate (rq : Request) : Handler S unit :=
  do w <- (fun w => (Ok w, w)) ;;
  let '(ok, g) := AuthGate_take (w_gate w) (request_origin rq) (rq_now rq) in
  do _ <- change (with_gate g) ;;
  if ok then ret tt else (do _ <- change login_limited ;; fail sign_ins_throttled).

(** [gate.try_hash]. *)
Definition take_permit (rq : Request) : Handler S unit :=
  if rq_permit rq then ret tt else (do _ <- change argon2_saturated ;; fail sign_ins_throttled).

Definition register (rq : Request) (username password csrf_token : string) : Handler S Response :=
  do _ <- ran (verify_request (rq_csrf rq) (rq_csrf_header rq) (Some csrf_token)) ;;
  do w <- (fun w => (Ok w, w)) ;;
  let '(ok, c) := sign_up_take (w_sign_ups w) (rq_now rq) in
  do _ <- change (with_sign_ups c) ;;
  if negb ok then fail sign_ups_throttled
  else
    do _ <- take_gate rq ;;
    do _ <- lift (validate_username username) ;;
    do _ <- lift (validate_password password) ;;
    do taken <- store_read (st_by_username username) ;;
    if decide (is_Some taken) then fail (AppError.Conflict (Message_new text.USERNAME_TAKEN))
    else
      do _ <- take_permit rq ;;
      do h <- lift (hash password) ;;
      do user <- store_call (st_create username h (rq_now rq)) ;;
      do session <- start_session user (rq_token rq) (rq_now rq) ;;
      ret (redirect_to "/account" (is_htmx rq) (Some (session_cookie (s_id session) config))).

(** The end of a sign-in: a session, or a refusal that counts when the password was wrong. *)
Definition finish_login (username : string) (now : Millis) (result : Handler S Session) : Handler S Session :=
  fun w => match result w with
           | (Ok session, w') => (Ok session, with_throttle (succeeded (w_throttle w') username) w')
           | (Err (Refused AppError.Unauthorized), w') =>
               (Err (Refused AppError.Unauthorized), with_throttle (failed (w_throttle w') username now) w')
           | (Err e, w') => (Err e, w')
           end.

Definition login (rq : Request) (username password csrf_token : string) : Handler S Response :=
  do _ <- ran (verify_request (rq_csrf rq) (rq_csrf_header rq) (Some csrf_token)) ;;
  do w <- (fun w => (Ok w, w)) ;;
  let '(ok, t) := allows (w_throttle w) username (rq_now rq) in
  do _ <- change (with_throttle t) ;;
  if negb ok then (do _ <- change login_limited ;; fail sign_ins_throttled)
  else
    do _ <- take_gate rq ;;
    do credentials <- store_read (st_by_username username) ;;
    let stored := match credentials with Some c => cr_password_hash c | None => ABSENT_USER_HASH end in
    do _ <- take_permit rq ;;
    do verified <- lift (verify_password password stored) ;;
    do session <- finish_login username (rq_now rq)
                    (match verified, credentials with
                     | true, Some c => start_session (cr_user c) (rq_token rq) (rq_now rq)
                     | _, _ => fail AppError.Unauthorized
                     end) ;;
    ret (redirect_to "/account" (is_htmx rq) (Some (session_cookie (s_id session) config))).

Definition logout (rq : Request) (csrf_token : string) : Handler S Response :=
  do _ <- ran (verify_request (rq_csrf rq) (rq_csrf_header rq) (Some csrf_token)) ;;
  do _ <- match cookie_value (rq_cookies rq) (session_cookie_name config) with
          | Some token => AuthService_logout token
          | None => ret tt
          end ;;
  ret (redirect_to "/account" (is_htmx rq) (Some (cleared_session_cookie config))).

Definition delete_account (rq : Request) (csrf_token : string) : Handler S Response :=
  do _ <- ran (verify_request (rq_csrf rq) (rq_csrf_header rq) (Some csrf_token)) ;;
  match cookie_value (rq_cookies rq) (session_cookie_name config) with
  | None => fail AppError.Unauthorized
  | Some token =>
      do user <- authenticate token (rq_now rq) ;;
      match user with
      | None => fail AppError.Unauthorized
      | Some user =>
          do deleted <- store_call (st_delete_user (u_id user)) ;;
          if negb deleted then fail AppError.NotFound
          else ret (redirect_to "/account" (is_htmx rq) (Some (cleared_session_cookie config)))
      end
  end.

Definition set_webhook (rq : Request) (csrf_token webhook_url : string) : Handler S Response :=
  do user <- current_user rq ;;
  match user with
  | None => fail AppError.NotFound
  | Some user =>
      do _ <- ran (verify_request (rq_csrf rq) (rq_csrf_header rq) (Some csrf_token)) ;;
      let webhook := trim webhook_url in
      do _ <- (if bool_decide (webhook = "") then store_call (st_set_webhook (u_id user) None)
               else if looks_like_discord_webhook webhook then store_call (st_set_webhook (u_id user) (Some webhook))
               else fail (AppError.validation text.DISCORD_WEBHOOK_INVALID)) ;;
      ret (redirect_to "/account" (is_htmx rq) None)
  end.

End Services.

(** ** Running a handler *)
Lemma bind_ok {S A B} (m : Handler S A) (k : A -> Handler S B) w b w'' :
  bind m k w = (Ok b, w'') -> exists a w', m w = (Ok a, w') /\ k a w' = (Ok b, w'').
Proof. unfold bind. destruct (m w) as [[a|e] w']; [eauto|done]. Qed.

Lemma bind_err {S A B} (m : Handler S A) (k : A -> Handler S B) w e w'' :
  bind m k w = (Err e, w'') -> m w = (Err e, w'') \/ exists a w', m w = (Ok a, w') /\ k a w' = (Err e, w'').
Proof. unfold bind. destruct (m w) as [[a|e'] w']; [eauto|]. intros [= -> ->]. by left. Qed.

Lemma ran_ok {S} r (w : World S) w' : ran r w = (Ok tt, w') -> r = Done (Ok tt) /\ w' = w.
Proof. destruct r as [|[[]|e]]; cbn; [done|by intros [= <-]|done]. Qed.

Lemma lift_ok {S A} r (w : World S) (a : A) w' : lift r w = (Ok a, w') -> r = Ok a /\ w' = w.
Proof. unfold lift. destruct r; [by intros [= -> ->]|done]. Qed.

Lemma store_read_ok {S A} f (w : World S) (a : A) w' : store_read f w = (Ok a, w') -> f (w_store w) = Ok a /\ w' = w.
Proof. unfold store_read. destruct (f (w_store w)); [by intros [= -> ->]|done]. Qed.

Lemma store_call_ok {S A} f (w : World S) (a : A) w' :
  store_call f w = (Ok a, w') -> f (w_store w) = (Ok a, w_store w') /\ w' = with_store (w_store w') w.
Proof. unfold store_call. destruct (f (w_store w)) as [[x|e] s]; [by intros [= -> <-]|done]. Qed.

(** A handler that leaves the store alone. *)
Definition quiet {S A} (m : Handler S A) : Prop := forall w, w_store (m w).2 = w_store w.

Lemma quiet_bind {S A B} (m : Handler S A) (k : A -> Handler S B) : quiet m -> (forall a, quiet (k a)) -> quiet (bind m k).
Proof.
  intros Hm Hk w. unfold bind. specialize (Hm w). destruct (m w) as [[a|e] w']; [|done]. cbn in Hm. by rewrite (Hk a w').
Qed.

Lemma quiet_ret {S A} (a : A) : quiet (S := S) (ret a).
Proof. done. Qed.
Lemma quiet_fail {S A} e : quiet (S := S) (A := A) (fail e).
Proof. done. Qed.
Lemma quiet_lift {S A} (r : AppResult A) : quiet (S := S) (lift r).
Proof. done. Qed.
Lemma quiet_read {S A} (f : S -> StoreResult A) : quiet (store_read f).
Proof. done. Qed.
Lemma quiet_ran {S} r : quiet (S := S) (ran r).
Proof. by intros w; destruct r. Qed.
Lemma quiet_look {S} : quiet (S := S) (fun w => (Ok w, w)).
Proof. done. Qed.
Lemma quiet_change {S} (f : World S -> World S) : (forall w, w_store (f w) = w_store w) -> quiet (change f).
Proof. intros Hf w. apply Hf. Qed.

Create HintDb quiet.
#[export] Hint Resolve quiet_ret quiet_fail quiet_lift quiet_read quiet_ran quiet_look : quiet.
#[export] Hint Extern 2 (quiet (change _)) => apply quiet_change; done : quiet.
#[export] Hint Extern 3 (quiet (bind _ _)) => apply quiet_bind; [|intros ?] : quiet.

Section Facts.

Context {S : Type} `{AuthStore S}.
Context (hash : string -> AppResult string) (verify_password : string -> string -> AppResult bool) (parse_ip : string -> option IpAddr) (config : WebConfig).

Lemma take_gate_ok rq (w w' : World S) :
  take_gate parse_ip config rq w = (Ok tt, w') ->
  (AuthGate_take (w_gate w) (request_origin parse_ip config rq) (rq_now rq)).1 = true /\
  w' = with_gate (AuthGate_take (w_gate w) (request_origin parse_ip config rq) (rq_now rq)).2 w.
Proof.
  unfold take_gate, bind, change. destruct (AuthGate_take _ _ _) as [[] g]; cbn; [by intros [= <-]|done].
Qed.

Lemma quiet_gate rq : quiet (take_gate parse_ip config rq : Handler S unit).
Proof. unfold take_gate. apply quiet_bind; [done|]. intros w. destruct (AuthGate_take _ _ _) as [[] g]; eauto with quiet. Qed.

Lemma take_permit_ok rq (w w' : World S) : take_permit rq w = (Ok tt, w') -> rq_permit rq = true /\ w' = w.
Proof. unfold take_permit. destruct (rq_permit rq); [by intros [= <-]|done]. Qed.

Lemma quiet_permit rq : quiet (take_permit rq : Handler S unit).
Proof. unfold take_permit. destruct (rq_permit rq); eauto with quiet. Qed.

Lemma start_session_ok user token now (w w' : World S) s :
  start_session user token now w = (Ok s, w') ->
  s = {| s_id := token; s_user_id := u_id user; s_created_at := now; s_expires_at := plus_ms now SESSION_TTL_MS |} /\
  st_session_create s (w_store w) = (Ok tt, w_store w') /\ w' = with_store (w_store w') w.
Proof.
  unfold start_session. intros ([] & w1 & Hc & Hr)%bind_ok. injection Hr as <- <-. apply store_call_ok in Hc as [Hc ->]. done.
Qed.

End Facts.
#[export] Hint Resolve quiet_gate quiet_permit : quiet.

(** ** Signing in *)
Section Login.

Context {S : Type} `{AuthStore S}.
Context (verify_password : string -> string -> AppResult bool) (parse_ip : string -> option IpAddr) (config : WebConfig).

(** The session a sign-in begins. *)
Definition new_session (rq : Request) (user : User) : Session :=
  {| s_id := rq_token rq; s_user_id := u_id user; s_created_at := rq_now rq; s_expires_at := plus_ms (rq_now rq) SESSION_TTL_MS |}.

(** The account's own password was given. *)
Definition proved (username password : string) (s : S) (creds : Credentials) : Prop :=
  st_by_username username s = Ok (Some creds) /\ verify_password password (cr_password_hash creds) = Ok true.

(** What a sign-in may do to the store. *)
Definition began (rq : Request) (username password : string) (s s' : S) : Prop :=
  exists creds r, proved username password s creds /\ st_session_create (new_session rq (cr_user creds)) s = (r, s').

Lemma bind_either {A B} (m : Handler S A) (k : A -> Handler S B) (E : S -> S -> Prop) s w :
  w_store w = s -> quiet m ->
  (forall a w1, m w = (Ok a, w1) -> w_store w1 = s -> w_store (k a w1).2 = s \/ E s (w_store (k a w1).2)) ->
  w_store (bind m k w).2 = s \/ E s (w_store (bind m k w).2).
Proof.
  intros <- Hm Hk. specialize (Hm w). unfold bind. destruct (m w) as [[a|e] w1]; [|by left]. by apply Hk.
Qed.

Lemma finish_login_store username now (m : Handler S Session) w : w_store (finish_login username now m w).2 = w_store (m w).2.
Proof. unfold finish_login. by destruct (m w) as [[s|[|[]]] w']. Qed.

Lemma finish_login_ok username now (m : Handler S Session) w s w' :
  finish_login username now m w = (Ok s, w') -> exists w1, m w = (Ok s, w1) /\ w' = with_throttle (succeeded (w_throttle w1) username) w1.
Proof. unfold finish_login. destruct (m w) as [[s'|[|[]]] w1]; try done. intros [= -> <-]. eauto. Qed.

Lemma login_store rq username password csrf_token w :
  let w' := (login verify_password parse_ip config rq username password csrf_token w).2 in
  w_store w' = w_store w \/ began rq username password (w_store w) (w_store w').
Proof.
  cbn zeta. unfold login. apply bind_either; [done|eauto with quiet|]. intros [] w1 _ H1.
  apply bind_either; [done|done|]. intros w2 w2' [= -> ->] H2.
  destruct (allows (w_throttle w2') username (rq_now rq)) as [ok t]. apply bind_either; [done|eauto with quiet|].
  intros [] w3 _ H3. destruct ok; cbn [negb]; [|left; rewrite <- H3; by apply quiet_bind; eauto with quiet].
  apply bind_either; [done|eauto with quiet|]. intros [] w4 _ H4. apply bind_either; [done|done|].
  intros creds w5 [Hc ->]%store_read_ok _. apply bind_either; [done|eauto with quiet|]. intros [] w6 _ H6. rewrite H4 in Hc.
  apply bind_either; [done|done|]. intros verified w7 [Hv ->]%lift_ok _. rewrite <- H6 in Hc |- *. clear - Hc Hv.
  destruct verified, creds as [c|]; try (left; unfold bind, finish_login, fail; cbn; done).
  right. exists c. unfold bind. destruct (finish_login _ _ _ w6) as [r w8] eqn:Hf.
  assert (Hs : w_store w8 = (st_session_create (new_session rq (cr_user c)) (w_store w6)).2).
  { change w8 with (r, w8).2. rewrite <- Hf, finish_login_store. unfold start_session, bind, store_call. fold (new_session rq (cr_user c)).
    by destruct (st_session_create _ _) as [[[]|e] s]. }
  exists (st_session_create (new_session rq (cr_user c)) (w_store w6)).1. split; [by split|].
  destruct r; cbn [ret snd]; rewrite Hs; by destruct (st_session_create _ _).
Qed.

Lemma login_ok rq username password csrf_token w resp w' :
  login verify_password parse_ip config rq username password csrf_token w = (Ok resp, w') ->
  verify_request (rq_csrf rq) (rq_csrf_header rq) (Some csrf_token) = Done (Ok tt) /\
  (allows (w_throttle w) username (rq_now rq)).1 = true /\
  (AuthGate_take (w_gate w) (request_origin parse_ip config rq) (rq_now rq)).1 = true /\ rq_permit rq = true /\
  (exists creds, proved username password (w_store w) creds /\
     st_session_create (new_session rq (cr_user creds)) (w_store w) = (Ok tt, w_store w')) /\
  resp = redirect_to "/account" (is_htmx rq) (Some (session_cookie (rq_token rq) config)) /\
  w_throttle w' = succeeded (allows (w_throttle w) username (rq_now rq)).2 username.
Proof.
  unfold login. intros ([] & w1 & [Hcsrf ->]%ran_ok & Hl)%bind_ok. apply bind_ok in Hl as (w2 & w2' & [= <- <-] & Hl).
  destruct (allows (w_throttle w) username (rq_now rq)) as [ok t]. apply bind_ok in Hl as ([] & w3 & [= <-] & Hl).
  destruct ok; cbn [negb] in Hl; [|by apply bind_ok in Hl as ([] & w4 & _ & Hl)].
  apply bind_ok in Hl as ([] & w4 & [Hg ->]%take_gate_ok & Hl). apply bind_ok in Hl as (creds & w5 & [Hc ->]%store_read_ok & Hl).
  apply bind_ok in Hl as ([] & w6 & [Hp ->]%take_permit_ok & Hl). apply bind_ok in Hl as (verified & w7 & [Hv ->]%lift_ok & Hl).
  apply bind_ok in Hl as (session & w8 & (w9 & Hs & ->)%finish_login_ok & Hr). injection Hr as <- <-.
  destruct verified, creds as [c|]; try done. apply start_session_ok in Hs as (-> & Hs & Hw). cbn [fst snd].
  split_and!; [done|done|done|done| |done|by rewrite Hw]. exists c. split; [by split|]. exact Hs.
Qed.

(** Two stores the form cannot tell apart: in one nobody has the name, in the other the
    password is not the one. *)
Lemma login_unknown_or_wrong rq username password csrf_token (w1 w2 : World S) creds b :
  st_by_username username (w_store w1) = Ok None -> verify_password password ABSENT_USER_HASH = Ok b ->
  st_by_username username (w_store w2) = Ok (Some creds) -> verify_password password (cr_password_hash creds) = Ok false ->
  w1 = with_store (w_store w1) w2 ->
  let r1 := login verify_password parse_ip config rq username password csrf_token w1 in
  let r2 := login verify_password parse_ip config rq username password csrf_token w2 in
  r1.1 = r2.1 /\ r1.2 = with_store (w_store w1) r2.2 /\ w_store r2.2 = w_store w2.
Proof.
  intros H1 Hb H2 Hf Hw. cbn zeta. rewrite Hw in H1 |- *. cbn [w_store with_store] in H1 |- *. set (s1 := w_store w1) in *. clearbody s1. clear Hw w1.
  unfold login, bind. destruct (verify_request _ _ _) as [|[[]|e]]; cbn [ran lift]; [done| |done].
  cbn [w_throttle with_store]. destruct (allows (w_throttle w2) username (rq_now rq)) as [[] t]; cbn [change negb]; [|done].
  unfold take_gate, bind, change. cbn [w_gate with_store with_throttle].
  destruct (AuthGate_take (w_gate w2) (request_origin parse_ip config rq) (rq_now rq)) as [[] g]; cbn [ret]; [|done].
  unfold store_read. cbn [w_store with_gate with_throttle with_store]. rewrite H1, H2. unfold take_permit, bind, change.
  destruct (rq_permit rq); cbn [ret]; [|done]. rewrite Hb, Hf. by destruct b.
Qed.

End Login.

(** C26: Whatever the store does, failing included.  A sign-in succeeds only with the form's own
    token, within the attempts allowed to the name, the address and the process, with a
    hashing permit, and with the password of the account the name belongs to; it then has
    stored one session, that account's, for a week, and hands out its token.  Nothing else
    it does touches the store.  And a name nobody has is answered as a wrong password is,
    with the same counting, so the answer does not say which it was. *)
Theorem login_sound {S} `{AuthStore S} verify_password parse_ip config rq username password csrf_token (w : World S) r w' :
  login verify_password parse_ip config rq username password csrf_token w = (r, w') ->
  (forall resp, r = Ok resp ->
     verify_request (rq_csrf rq) (rq_csrf_header rq) (Some csrf_token) = Done (Ok tt) /\
     (allows (w_throttle w) username (rq_now rq)).1 = true /\
     (AuthGate_take (w_gate w) (request_origin parse_ip config rq) (rq_now rq)).1 = true /\ rq_permit rq = true /\
     (exists creds, proved verify_password username password (w_store w) creds /\
        st_session_create (new_session rq (cr_user creds)) (w_store w) = (Ok tt, w_store w')) /\
     resp = redirect_to "/account" (is_htmx rq) (Some (session_cookie (rq_token rq) config)) /\
     w_throttle w' = succeeded (allows (w_throttle w) username (rq_now rq)).2 username) /\
  (w_store w' = w_store w \/ began verify_password rq username password (w_store w) (w_store w')) /\
  (forall s2 creds b, st_by_username username (w_store w) = Ok None -> verify_password password ABSENT_USER_HASH = Ok b ->
     st_by_username username s2 = Ok (Some creds) -> verify_password password (cr_password_hash creds) = Ok false ->
     login verify_password parse_ip config rq username password csrf_token (with_store s2 w) = (r, with_store s2 w') /\ w_store w' = w_store w).
Proof.
  intros Hl. split_and!.
  - intros resp ->. by apply login_ok in Hl.
  - pose proof (login_store verify_password parse_ip config rq username password csrf_token w) as Hs. cbn zeta in Hs. by rewrite Hl in Hs.
  - intros s2 creds b H1 Hb H2 Hf.
    destruct (login_unknown_or_wrong verify_password parse_ip config rq username password csrf_token w (with_store s2 w) creds b H1 Hb H2 Hf)
      as (E1 & E2 & E3); [by destruct w|]. cbn zeta in *. rewrite Hl in E1, E2. cbn [fst snd] in E1, E2.
    destruct (login _ _ _ _ _ _ _ (with_store s2 w)) as [r2 w2]. cbn [fst snd with_store w_store] in *. subst r2 w'. cbn [with_store w_store].
    split; [|done]. f_equal. subst s2. by destruct w2.
Qed.

(** A hasher for the examples: a password's hash is the password, after a mark. *)
Definition demo_hash (password : string) : AppResult string := Ok ("h:" +:+ password).
Definition demo_verify (password stored : string) : AppResult bool := Ok (bool_decide (stored = "h:" +:+ password)).
Definition demo_config : WebConfig := {| secure_cookies := true; trust_proxy_headers := false |}.
Definition demo_world (db : Db) : World Db := Build_World db ∅ None {| origins := ∅; global := None |} 0 0.
Definition demo_request (token : string) (now : Millis) (cookies : list (option string)) : Request :=
  {| rq_csrf := to_hex demo_token; rq_csrf_header := None; rq_cookies := cookies; rq_hx_request := None; rq_forwarded_for := None;
     rq_peer := 1; rq_now := now; rq_token := token; rq_permit := true |}.

Definition demo_ann : Db := (run [OpCreate "Ann" "h:correct horse" 5]).2.

Lemma login_sound_witness :
  (login (S := Db) demo_verify (fun _ => None) demo_config (demo_request "t0k" 7 []) "ann" "correct horse" (to_hex demo_token) (demo_world demo_ann)).1 =
    Ok (redirect_to "/account" false (Some (session_cookie "t0k" demo_config))) /\
  (allows ∅ "ann" 7).1 = true.
Proof.
  assert (Hl : (login (S := Db) demo_verify (fun _ => None) demo_config (demo_request "t0k" 7 []) "ann" "correct horse" (to_hex demo_token)
                  (demo_world demo_ann)).1 = Ok (redirect_to "/account" false (Some (session_cookie "t0k" demo_config)))) by (vm_compute; reflexivity).
  split; [exact Hl|].
  destruct (login_sound (S := Db) demo_verify (fun _ => None) demo_config (demo_request "t0k" 7 []) "ann" "correct horse"
    (to_hex demo_token) (demo_world demo_ann) _ _ (surjective_pairing _)) as (Hok & _ & _).
  destruct (Hok _ Hl) as (_ & Ha & _). exact Ha.
Defined.

(** ** Being signed in *)

(** The session was begun for an account that was there, under a token that was free, and
    nothing has ended it since. *)
Definition live (log : list Op) (s : Session) : Prop :=
  exists later earlier, log = later ++ OpSession s :: earlier /\ db_sessions (run earlier).2 !! s_id s = None /\
    is_Some (db_users (run earlier).2 !! s_user_id s) /\ Forall (fun op => ~ ends op s) later.

Lemma live_row log s :
  (forall s', OpSession s' ∈ log -> times_ok s') -> times_ok s ->
  live log s <-> db_sessions (run log).2 !! s_id s = Some (row_of s).
Proof.
  intros Hlog Hs. rewrite session_history. split.
  - intros (later & earlier & -> & H1 & H2 & H3). exists later, s, earlier. by split_and!.
  - intros (later & s' & earlier & -> & Hid & _ & Hr & H1 & H2 & H3).
    assert (s' = s) as -> by (apply row_of_inj; [apply Hlog; rewrite elem_of_app; right; by left|done..]). by exists later, earlier.
Qed.

(** C27: A token signs in exactly the account its session was begun for, until the session is
    signed out of, swept or runs out, or the account is deleted: whatever was done to the
    database before, in whatever order.  Asking never fails, and a session found to have
    run out is dropped. *)
Theorem authenticate_exact log t now (w : World Db) :
  w_store w = (run log).2 -> (forall s, OpSession s ∈ log -> times_ok s) ->
  (forall u, (authenticate t now w).1 = Ok (Some u) <->
     exists s row, live log s /\ s_id s = t /\ now < s_expires_at s /\
       db_users (run log).2 !! s_user_id s = Some row /\ u = user_from_row (s_user_id s) row) /\
  ((authenticate t now w).1 = Ok None -> db_sessions (w_store (authenticate t now w).2) !! t = None) /\
  (exists o, (authenticate t now w).1 = Ok o).
Proof.
  intros Hw Hlog. unfold authenticate, bind, store_read. cbn [st_session_get SqliteStore]. rewrite Hw.
  destruct (db_sessions (run log).2 !! t) as [row|] eqn:Ht.
  - destruct (session_rows log t row Ht) as (s & Hin & <- & ->). pose proof (Hlog s Hin) as Hs.
    rewrite (sessions_get_row s _ Hs Ht). destruct (ok_sessions _ _ (run_ok log) _ _ Ht) as [urow Hu]. cbn [row_of sr_user_id] in Hu.
    assert (Honly : forall s', live log s' -> s_id s' = s_id s -> s' = s).
    { intros s' Hl Hid. assert (Hs' : times_ok s').
      { destruct Hl as (later & earlier & -> & _). apply Hlog. rewrite elem_of_app. right. by left. }
      apply (live_row log s' Hlog Hs') in Hl. apply row_of_inj; [done..|]. congruence. }
    unfold Session_is_expired. case_bool_decide as He.
    + unfold store_call. cbn [st_session_delete SqliteStore sessions_delete ret fst snd with_store w_store set_sessions db_sessions].
      split_and!; [|intros _; by rewrite lookup_delete_eq|by eexists]. intros u. split; [done|].
      intros (s' & row & Hl & Hid & Hnow & _). rewrite (Honly s' Hl Hid) in Hnow. lia.
    + cbn [st_by_id SqliteStore by_id fst snd]. rewrite Hw, Hu. cbn [fmap option_fmap option_map].
      split_and!; [|done|by eexists]. intros u. split.
      * intros [= <-]. exists s, urow. split_and!; [by apply live_row|done|lia|done|done].
      * intros (s' & row & Hl & Hid & _ & Hrow & ->). rewrite (Honly s' Hl Hid) in Hrow |- *. congruence.
  - unfold sessions_get. rewrite Ht. cbn [fmap option_fmap option_map ret fst snd]. split_and!; [|by rewrite Hw|by eexists].
    intros u. split; [done|]. intros (s & row & Hl & <- & _). assert (Hs : times_ok s).
    { destruct Hl as (later & earlier & -> & _). apply Hlog. rewrite elem_of_app. right. by left. }
    apply (live_row log s Hlog Hs) in Hl. congruence.
Qed.

Definition demo_session : Session := {| s_id := "t0k"; s_user_id := 1; s_created_at := 7; s_expires_at := 100 |}.
Definition demo_log : list Op := [OpCreate "bob" "h:x" 9; OpSession demo_session; OpCreate "Ann" "h:correct horse" 5].

Lemma authenticate_exact_witness :
  (exists o, (authenticate "t0k" 99 (demo_world (run demo_log).2)).1 = Ok o) /\
  u_username <$> (match (authenticate "t0k" 99 (demo_world (run demo_log).2)).1 with Ok o => o | Err _ => None end) = Some "Ann" /\
  (match (authenticate "t0k" 100 (demo_world (run demo_log).2)).1 with Ok o => o | Err _ => None end) = None.
Proof.
  split; [|vm_compute; split; reflexivity].
  apply (authenticate_exact demo_log "t0k" 99 (demo_world (run demo_log).2) eq_refl).
  intros s Hin. unfold demo_log in Hin. rewrite !elem_of_cons in Hin.
  destruct Hin as [Hin|[Hin|[Hin|Hin]]]; [discriminate| |discriminate|by apply not_elem_of_nil in Hin].
  injection Hin as ->. split; vm_compute; reflexivity.
Defined.

(** ** From registering to being forgotten *)
(** What a browser keeps of the cookie: all before the first [;]. *)
Lemma session_cookie_pair token config :
  has_char ";"%char token = false -> head (split ";"%char (session_cookie token config)) = Some (pair_text (session_cookie_name config, token)).
Proof.
  intros Ht. set (rest := " Path=/; HttpOnly; SameSite=Lax; Max-Age=" +:+ pretty (SESSION_TTL_MS / 1000) +:+ secure_suffix config).
  assert (session_cookie token config = pair_text (session_cookie_name config, token) +:+ String ";"%char rest) as ->.
  { unfold session_cookie, pair_text. cbn [fst snd]. by rewrite (text_app_assoc (session_cookie_name config)). }
  rewrite split_cons; [done|]. unfold pair_text. cbn [fst snd]. rewrite has_char_app. cbn [has_char]. rewrite Ht.
  unfold session_cookie_name. by destruct (secure_cookies config).
Qed.

Section Registered.

Context (hash : string -> AppResult string) (parse_ip : string -> option IpAddr) (config : WebConfig).

Lemma register_ok rq username password csrf_token (w w' : World Db) resp :
  register hash parse_ip config rq username password csrf_token w = (Ok resp, w') ->
  verify_request (rq_csrf rq) (rq_csrf_header rq) (Some csrf_token) = Done (Ok tt) /\ (sign_up_take (w_sign_ups w) (rq_now rq)).1 = true /\
  validate_username username = Ok tt /\ validate_password password = Ok tt /\ find_user (w_store w) username = None /\
  resp = redirect_to "/account" (is_htmx rq) (Some (session_cookie (rq_token rq) config)) /\
  exists h u db, hash password = Ok h /\ users_create username h (rq_now rq) (w_store w) = (Ok u, db) /\
    sessions_create (new_session rq u) db = (Ok tt, w_store w').
Proof.
  unfold register. intros ([] & w1 & [Hcsrf ->]%ran_ok & Hl)%bind_ok. apply bind_ok in Hl as (w2 & w2' & [= <- <-] & Hl).
  destruct (sign_up_take (w_sign_ups w) (rq_now rq)) as [ok c]. apply bind_ok in Hl as ([] & w3 & [= <-] & Hl).
  destruct ok; cbn [negb] in Hl; [|done]. apply bind_ok in Hl as ([] & w4 & [_ ->]%take_gate_ok & Hl).
  apply bind_ok in Hl as ([] & w5 & [Hu ->]%lift_ok & Hl). apply bind_ok in Hl as ([] & w6 & [Hp ->]%lift_ok & Hl).
  apply bind_ok in Hl as (taken & w7 & [Ht ->]%store_read_ok & Hl). case_decide as Hn; [done|].
  apply bind_ok in Hl as ([] & w8 & [_ ->]%take_permit_ok & Hl). apply bind_ok in Hl as (h & w9 & [Hh ->]%lift_ok & Hl).
  apply bind_ok in Hl as (u & w10 & [Hc Hw]%store_call_ok & Hl). apply bind_ok in Hl as (s & w11 & (-> & Hs & Hw')%start_session_ok & Hr).
  injection Hr as <- <-. cbn [st_by_username SqliteStore] in Ht. unfold by_username in Ht. injection Ht as <-.
  split_and!; try done.
  - destruct (find_user (w_store w) username) eqn:Hf; [|done]. exfalso. apply Hn. by eexists.
  - by exists h, u, (w_store w10).
Qed.

Lemma cookie_back token :
  has_char ";"%char token = false -> trim token = token ->
  cookie_value [Some (cookie_header [(session_cookie_name config, token)])] (session_cookie_name config) = Some token.
Proof.
  intros Hs Ht. rewrite cookie_read_back.
  - rewrite filter_cons. by rewrite decide_True.
  - constructor; [|constructor]. unfold session_cookie_name. destruct (secure_cookies config); repeat split; done.
Qed.

Lemma users_create_row username h now db u db' :
  users_create username h now db = (Ok u, db') ->
  u_username u = username /\ u_is_admin u = false /\ exists row, db_users db' !! u_id u = Some row /\ u = user_from_row (u_id u) row.
Proof.
  unfold users_create, insert_user. destruct (find_user db username); [done|]. case_decide; [done|]. intros [= <- <-].
  cbn [set_users db_users u_id user_from_row]. split_and!; [done|done|]. eexists. by rewrite lookup_insert_eq.
Qed.

Lemma sessions_create_row s db db' :
  sessions_create s db = (Ok tt, db') -> db_sessions db' !! s_id s = Some (row_of s) /\ db_users db' = db_users db.
Proof.
  unfold sessions_create. destruct (db_sessions db !! s_id s); [done|]. destruct (db_users db !! s_user_id s); [|done]. intros [= <-].
  cbn [set_sessions db_sessions db_users]. by rewrite lookup_insert_eq.
Qed.

(** Asking with a token whose row is there, and with one whose row is not. *)
Lemma authenticate_row s now (w : World Db) row :
  times_ok s -> db_sessions (w_store w) !! s_id s = Some (row_of s) -> db_users (w_store w) !! s_user_id s = Some row ->
  (now < s_expires_at s -> authenticate (s_id s) now w = (Ok (Some (user_from_row (s_user_id s) row)), w)) /\
  (s_expires_at s <= now -> (authenticate (s_id s) now w).1 = Ok None).
Proof.
  intros Hs Ht Hu. unfold authenticate, bind, store_read. cbn [st_session_get SqliteStore]. rewrite (sessions_get_row s _ Hs Ht).
  unfold Session_is_expired. split; intros Hn.
  - rewrite bool_decide_eq_false_2 by lia. cbn [st_by_id SqliteStore by_id]. by rewrite Hu.
  - by rewrite bool_decide_eq_true_2 by lia.
Qed.

Lemma authenticate_no_row t now (w : World Db) : db_sessions (w_store w) !! t = None -> authenticate t now w = (Ok None, w).
Proof. intros Ht. unfold authenticate, bind, store_read. cbn [st_session_get SqliteStore]. unfold sessions_get. by rewrite Ht. Qed.

Lemma logout_ok rq csrf_token token (w w' : World Db) resp :
  cookie_value (rq_cookies rq) (session_cookie_name config) = Some token -> logout config rq csrf_token w = (Ok resp, w') ->
  db_sessions (w_store w') !! token = None.
Proof.
  unfold logout. intros Hc ([] & w1 & [_ ->]%ran_ok & Hl)%bind_ok. rewrite Hc in Hl.
  apply bind_ok in Hl as ([] & w2 & Hl & [= _ <-]). apply store_call_ok in Hl as [[= Hs] _]. rewrite <- Hs.
  cbn [set_sessions db_sessions]. apply lookup_delete_eq.
Qed.

Lemma delete_account_ok rq csrf_token token (w w' : World Db) resp u :
  cookie_value (rq_cookies rq) (session_cookie_name config) = Some token -> authenticate token (rq_now rq) w = (Ok (Some u), w) ->
  delete_account config rq csrf_token w = (Ok resp, w') ->
  db_users (w_store w') !! u_id u = None /\ forall t r, db_sessions (w_store w') !! t = Some r -> sr_user_id r <> u_id u.
Proof.
  unfold delete_account. intros Hc Ha ([] & w1 & [_ ->]%ran_ok & Hl)%bind_ok. rewrite Hc in Hl.
  apply bind_ok in Hl as (o & w2 & Hl & Hd). rewrite Ha in Hl. injection Hl as <- <-.
  apply bind_ok in Hd as (deleted & w3 & [Hd _]%store_call_ok & Hr). cbn [st_delete_user SqliteStore] in Hd. unfold users_delete in Hd.
  destruct (db_users (w_store w) !! u_id u) as [row|]; [|injection Hd as <- _; done]. injection Hd as <- Hd.
  injection Hr as _ <-. rewrite <- Hd. cbn [db_users db_sessions]. split; [apply lookup_delete_eq|].
  intros t r [_ Hne]%map_lookup_filter_Some. exact Hne.
Qed.

End Registered.

(** An account that could be registered is a new name with its password's hash and no
    privilege; its owner is signed in by the cookie the browser was given, for exactly a
    week; signing out, or deleting the account, ends that at once, and a deleted account
    leaves no session of any browser behind. *)
Theorem register_signs_in hash parse_ip config rq username password csrf_token (w w' : World Db) resp :
  register hash parse_ip config rq username password csrf_token w = (Ok resp, w') ->
  rq_now rq + SESSION_TTL_MS < 2 ^ 64 -> has_char ";"%char (rq_token rq) = false -> trim (rq_token rq) = rq_token rq ->
  validate_username username = Ok tt /\ validate_password password = Ok tt /\ find_user (w_store w) username = None /\
  rs_set_cookie resp = Some (session_cookie (rq_token rq) config) /\
  head (split ";"%char (session_cookie (rq_token rq) config)) = Some (pair_text (session_cookie_name config, rq_token rq)) /\
  exists u, u_username u = username /\ u_is_admin u = false /\
    forall rq', rq_cookies rq' = [Some (cookie_header [(session_cookie_name config, rq_token rq)])] ->
      (rq_now rq' < rq_now rq + SESSION_TTL_MS -> current_user config rq' w' = (Ok (Some u), w')) /\
      (rq_now rq + SESSION_TTL_MS <= rq_now rq' -> (current_user config rq' w').1 = Ok None) /\
      (forall csrf' resp' w'', logout config rq' csrf' w' = (Ok resp', w'') -> (current_user config rq' w'').1 = Ok None) /\
      (forall csrf' resp' w'', rq_now rq' < rq_now rq + SESSION_TTL_MS -> delete_account config rq' csrf' w' = (Ok resp', w'') ->
         db_users (w_store w'') !! u_id u = None /\ forall t r, db_sessions (w_store w'') !! t = Some r -> sr_user_id r <> u_id u).
Proof.
  intros Hreg Hnow Hsemi Htrim. apply register_ok in Hreg as (_ & _ & Hu & Hp & Hf & -> & h & u & db & _ & Hc & Hs).
  pose proof (cookie_back config _ Hsemi Htrim) as Hback. apply users_create_row in Hc as (Hn & Ha & row & Hrow & Hur).
  apply sessions_create_row in Hs as [Hs Hus]. rewrite <- Hus in Hrow.
  assert (Hexp : s_expires_at (new_session rq u) = rq_now rq + SESSION_TTL_MS) by (cbn; unfold plus_ms, sat_add, u64_max; lia).
  assert (Hok : times_ok (new_session rq u)) by (split; [cbn; lia|by rewrite Hexp]).
  split_and!; [done|done|done|by unfold redirect_to; destruct (is_htmx rq)|by apply session_cookie_pair|].
  exists u. split_and!; [done|done|]. intros rq' Hck. unfold current_user. rewrite Hck, Hback.
  destruct (authenticate_row (new_session rq u) (rq_now rq') w' row Hok Hs Hrow) as [Hin Hout]. rewrite Hexp in Hin, Hout.
  change (s_id (new_session rq u)) with (rq_token rq) in *. change (s_user_id (new_session rq u)) with (u_id u) in *. rewrite <- Hur in Hin.
  split_and!; [done|done| |].
  - intros csrf' resp' w'' Hl. rewrite <- Hck in Hback. by rewrite (authenticate_no_row _ _ _ (logout_ok config rq' csrf' _ _ _ _ Hback Hl)).
  - intros csrf' resp' w'' Hlt Hd. rewrite <- Hck in Hback. by apply (delete_account_ok config rq' csrf' _ _ _ _ _ Hback (Hin Hlt) Hd).
Qed.

Definition demo_register : Request := demo_request "t0k" 7 [].
Definition demo_registered : Result Response Failure * World Db :=
  register demo_hash (fun _ => None) demo_config demo_register "ann" "correct horse" (to_hex demo_token) (demo_world db_empty).

Lemma register_signs_in_witness :
  demo_registered.1 = Ok (redirect_to "/account" false (Some (session_cookie "t0k" demo_config))) /\ find_user db_empty "ann" = None.
Proof.
  assert (Hr : demo_registered.1 = Ok (redirect_to "/account" false (Some (session_cookie "t0k" demo_config)))) by (vm_compute; reflexivity).
  split; [exact Hr|]. unfold demo_registered in Hr.
  destruct (register demo_hash (fun _ => None) demo_config demo_register "ann" "correct horse" (to_hex demo_token) (demo_world db_empty))
    as [r w'] eqn:Hl. cbn [fst] in Hr. subst r.
  destruct (register_signs_in demo_hash (fun _ => None) demo_config demo_register "ann" "correct horse" (to_hex demo_token) (demo_world db_empty)
    w' _ Hl) as (_ & _ & Hf & _); [vm_compute; reflexivity..|]. exact Hf.
Defined.

(** Registering never leads past the operations gate. *)
Example ordinary_is_refused :
  (admin_only demo_config (demo_request "t1" 8 [Some (cookie_header [(SESSION_COOKIE_HOST, "t0k")])]) demo_registered.2).1 = false /\
  (admin_only demo_config (demo_request "t1" 8 [Some (cookie_header [(SESSION_COOKIE_HOST, "t0k")])])
     (demo_world (run [OpSession demo_session; OpBootstrap "root" "h:x" 5]).2)).1 = true.
Proof. vm_compute. split; reflexivity. Qed.
