(* ===== verification/ReadRows.v ===== *)
(** * ReadRows: what the read model's rows hold

    Models the row codecs of [crates/storage/src/sqlite/read_model.rs]: how the state of a
    market, one of its windows and a roll-up are spread over columns, and how they are read
    back.  Columns are signed 64-bit integers or texts; the casts of [Sqlite] are written
    out.  The texts of the JSON columns are the serialiser's, known by its law only
    ([Json], [JsonLaws]). *)
From Stdlib Require Import Ascii ZArith.
From stdpp Require Import prelude gmap sorting strings pretty.
From S2P Require Import Prelude Text F64 Time Store Sqlite Market Catalog Depth Engine Series MarketKey Window Analysis Correlate Materialise Rollup.

(** ** What the JSON columns hold *)
Record StoredPoint := { sp_at : N; sp_price : N; sp_quantity : N }.
Record StoredCycle := { sc_bucket : N; sc_mean : N; sc_samples : N }.
Record StoredLevel := {
  sl_item_level : N; sl_upgrade : string; sl_cheapest : N; sl_highest : N; sl_listings : N; sl_realms : N }.
Record StoredModifier := { sm_name : string; sm_now : N; sm_seen : N }.

Definition as_u32 (z : Z) : N := Z.to_N (z mod 2 ^ 32).
Definition of_bool (b : bool) : Z := if b then 1%Z else 0%Z.

(** ** Columns *)

(** The columns a page filters on, all of them functions of the market. *)
Record Ids := { id_kind : string; id_region : string; id_item : Z; id_rank : option Z; id_realm : option Z; id_track : option string }.

Definition parts (key : MarketKey) : Ids :=
  match key with
  | Commodity region item rank =>
      {| id_kind := "commodity"; id_region := Region_as_str region; id_item := as_i64 item; id_rank := Some (as_i64 rank); id_realm := None;
         id_track := None |}
  | Recipe region realm item =>
      {| id_kind := "recipe"; id_region := Region_as_str region; id_item := as_i64 item; id_rank := None; id_realm := Some (as_i64 realm);
         id_track := None |}
  | Boe region realm item track =>
      {| id_kind := "boe"; id_region := Region_as_str region; id_item := as_i64 item; id_rank := None; id_realm := Some (as_i64 realm);
         id_track := Track.slug <$> track |}
  end.

Record CurrentRow := {
  cu_market_key : string; cu_observed_at : option Z; cu_price : Z; cu_min_price : Z; cu_median_price : Z; cu_quantity : Z; cu_listings : Z;
  cu_first_seen : option Z; cu_samples : Z; cu_mean : Z; cu_median : Z; cu_low : Z; cu_low_at : Z; cu_high : Z; cu_high_at : Z; cu_swing : Z;
  cu_day_percent : Z; cu_day_known : Z; cu_week_percent : Z; cu_week_known : Z; cu_month_percent : Z; cu_month_known : Z;
  cu_best_hour : option Z; cu_best_weekday : option Z; cu_by_hour : string; cu_by_weekday : string; cu_series : string; cu_ladder : string;
  cu_depth : string; cu_heatmap : string; cu_stock_rho : option Z; cu_stock_pairs : option Z; cu_drawdown_percent : Z; cu_rise_percent : Z;
  cu_typical_move_percent : option Z; cu_stability_changes : option Z }.

Record WindowRow := {
  wi_market_key : string; wi_window : string; wi_low : Z; wi_low_at : Z; wi_high : Z; wi_high_at : Z; wi_mean : Z; wi_median : Z;
  wi_samples : Z; wi_first_at : Z; wi_last_at : Z; wi_expected_buckets : option Z; wi_observed_buckets : Z; wi_largest_gap_ms : Z;
  wi_p05 : Z; wi_p25 : Z; wi_p75 : Z; wi_p95 : Z; wi_iqr : Z; wi_mad : Z; wi_buckets : Z; wi_swing : Z; wi_spark : string; wi_series : string;
  wi_histogram : string; wi_rank : option Z; wi_valuation : option string; wi_from_median_percent : option Z; wi_anomaly : string;
  wi_insufficient : option string; wi_insufficient_have : option Z; wi_insufficient_need : option Z }.

Record RollupRow := {
  ro_region : string; ro_item_id : Z; ro_track : string; ro_realm_id : Z; ro_kind : string; ro_window : string; ro_observed_at : option Z;
  ro_snapshots : Z; ro_realms : Z; ro_cheapest_now : option Z; ro_cheapest_realm : option Z; ro_dearest_realm_now : option Z;
  ro_dearest_realm : option Z; ro_median_realm_now : option Z; ro_highest_now : option Z; ro_cheapest_ever : option Z; ro_highest_ever : option Z;
  ro_listings_now : Z; ro_listings_seen : Z; ro_level_range : string; ro_levels : string; ro_modifiers : string; ro_series : string;
  ro_depth : option string; ro_ladder : string; ro_p05 : option Z; ro_p25 : option Z; ro_median : option Z; ro_p75 : option Z; ro_p95 : option Z;
  ro_iqr : option Z; ro_mad : option Z; ro_buckets : option Z; ro_swing : Z; ro_rank : option Z; ro_valuation : option string;
  ro_from_median_percent : option Z; ro_anomaly : string; ro_insufficient : option string; ro_insufficient_have : option Z;
  ro_insufficient_need : option Z; ro_realms_collected : Z; ro_spread_p05 : option Z; ro_spread_p25 : option Z; ro_spread_median : option Z;
  ro_spread_p75 : option Z; ro_spread_p95 : option Z; ro_spread_iqr : option Z; ro_spread_mad : option Z; ro_spread_realms : option Z }.

(** ** Small codecs *)

(** [-] for a track no catalogue names, nothing for a recipe. *)
Definition track_column (track : option Track.t) (kind : ItemKind.t) : string :=
  match kind, track with
  | ItemKind.Recipe, _ => ""
  | _, None => "-"
  | _, Some track => Track.slug track
  end.

Definition track_from (raw : string) : option Track.t :=
  if bool_decide (raw = "" \/ raw = "-") then None else Track.from_slug raw.

Definition copper_of (value : option Z) : option Copper := as_u64 <$> value.
Definition realm_of (value : option Z) : option RealmId := as_u32 <$> value.

Definition trend (percent known : Z) : Trend :=
  if decide (known = 0%Z) then Trend_UNKNOWN else {| tr_from := 0; tr_to := 0; tr_percent := as_i32 percent; tr_known := true |}.

Definition valuation_from (raw : option string) : option Valuation.t :=
  raw ← raw; find_first (fun v => bool_decide (Valuation.as_str v = raw)) Valuation.ALL.

Definition anomaly_from (raw : string) : Anomaly.t :=
  default Anomaly.Ordinary (find_first (fun a => bool_decide (Anomaly.as_str a = raw)) [Anomaly.Ordinary; Anomaly.Mild; Anomaly.Extreme]).

Definition insufficient_from (kind : option string) (have need : option Z) : option Insufficient :=
  let have := as_u32 (default 0%Z have) in
  let need := as_u32 (default 0%Z need) in
  if decide (kind = Some "history") then Some (NotEnoughHistory have need)
  else if decide (kind = Some "gaps") then Some (TooManyGaps have need)
  else None.

Definition insufficient_parts (reason : option Insufficient) : option string * option Z * option Z :=
  match reason with
  | None => (None, None, None)
  | Some (NotEnoughHistory have need) => (Some "history", Some (as_i64 have), Some (as_i64 need))
  | Some (TooManyGaps coverage need) => (Some "gaps", Some (as_i64 coverage), Some (as_i64 need))
  end.

Definition corrupt (what value : string) : StoreError := Corrupt (what +:+ ": " +:+ value).

Definition read_market_key (raw : string) : StoreResult MarketKey :=
  match from_str raw with Ok key => Ok key | Err _ => Err (corrupt "market key" raw) end.

Section Codecs.

Context `{Json (list StoredPoint), Json (list StoredCycle), Json (list StoredLevel), Json (list StoredModifier)}.

Definition points_json (points : list Point) : string :=
  to_json ((fun p => {| sp_at := pt_at p; sp_price := pt_price p; sp_quantity := pt_quantity p |}) <$> points).
Definition points_from (raw : string) : list Point :=
  (fun p => {| pt_at := sp_at p; pt_price := sp_price p; pt_quantity := sp_quantity p |}) <$> default [] (from_json (T := list StoredPoint) raw).

Definition cycles_json (cycles : list Cycle) : string :=
  to_json ((fun c => {| sc_bucket := cy_bucket c; sc_mean := cy_mean c; sc_samples := cy_samples c |}) <$> cycles).
Definition cycles_from (raw : string) : list Cycle :=
  (fun c => {| cy_bucket := sc_bucket c; cy_mean := sc_mean c; cy_samples := sc_samples c |}) <$> default [] (from_json (T := list StoredCycle) raw).

Definition levels_json (levels : list LevelStat) : string :=
  to_json ((fun l => {| sl_item_level := ls_item_level l; sl_upgrade := ls_upgrade l; sl_cheapest := ls_cheapest l;
                        sl_highest := ls_highest l; sl_listings := ls_listings l; sl_realms := ls_realms l |}) <$> levels).
Definition levels_from (raw : string) : list LevelStat :=
  (fun l => {| ls_item_level := sl_item_level l; ls_upgrade := sl_upgrade l; ls_cheapest := sl_cheapest l;
               ls_highest := sl_highest l; ls_listings := sl_listings l; ls_realms := sl_realms l |}) <$>
  default [] (from_json (T := list StoredLevel) raw).

Definition modifiers_json (modifiers : list ModifierStat) : string :=
  to_json ((fun m => {| sm_name := md_name m; sm_now := md_now m; sm_seen := md_seen m |}) <$> modifiers).
Definition modifiers_from (raw : string) : list ModifierStat :=
  (fun m => {| md_name := sm_name m; md_now := sm_now m; md_seen := sm_seen m |}) <$> default [] (from_json (T := list StoredModifier) raw).

(** ** The state of a market *)
Definition current_row (s : MarketState) : CurrentRow :=
  {| cu_market_key := key_to_string (ms_key s); cu_observed_at := as_i64 <$> ms_observed_at s; cu_price := as_i64 (ms_price s);
     cu_min_price := as_i64 (ms_min_price s); cu_median_price := as_i64 (ms_median_price s); cu_quantity := as_i64 (ms_quantity s);
     cu_listings := as_i64 (ms_listings s); cu_first_seen := as_i64 <$> ms_first_seen s; cu_samples := as_i64 (ms_samples s);
     cu_mean := as_i64 (ms_mean s); cu_median := as_i64 (ms_median s); cu_low := as_i64 (ms_low s); cu_low_at := as_i64 (ms_low_at s);
     cu_high := as_i64 (ms_high s); cu_high_at := as_i64 (ms_high_at s); cu_swing := as_i64 (ms_volatility_percent s);
     cu_day_percent := tr_percent (ms_day s); cu_day_known := of_bool (tr_known (ms_day s));
     cu_week_percent := tr_percent (ms_week s); cu_week_known := of_bool (tr_known (ms_week s));
     cu_month_percent := tr_percent (ms_month s); cu_month_known := of_bool (tr_known (ms_month s));
     cu_best_hour := Z.of_N <$> ms_best_hour s; cu_best_weekday := Z.of_N <$> ms_best_weekday s;
     cu_by_hour := cycles_json (ms_by_hour s); cu_by_weekday := cycles_json (ms_by_weekday s); cu_series := points_json (ms_series s);
     cu_ladder := Ladder_encode (ms_ladder s); cu_depth := default "" (Depth_encode <$> ms_depth s); cu_heatmap := Heatmap_encode (ms_heatmap s);
     cu_stock_rho := rho_percent <$> ms_stock_association s; cu_stock_pairs := (fun a => as_i64 (pairs a)) <$> ms_stock_association s;
     cu_drawdown_percent := as_i64 (drawdown_percent (ms_swings s)); cu_rise_percent := as_i64 (rise_percent (ms_swings s));
     cu_typical_move_percent := (fun x => as_i64 (typical_move_percent x)) <$> ms_stability s;
     cu_stability_changes := (fun x => as_i64 (changes x)) <$> ms_stability s |}.

Definition state_from_row (row : CurrentRow) : StoreResult MarketState :=
  let? key := read_market_key (cu_market_key row) in
  Ok {| ms_key := key; ms_observed_at := as_u64 <$> cu_observed_at row; ms_price := as_u64 (cu_price row);
        ms_min_price := as_u64 (cu_min_price row); ms_median_price := as_u64 (cu_median_price row); ms_quantity := as_u64 (cu_quantity row);
        ms_listings := as_u32 (cu_listings row); ms_first_seen := as_u64 <$> cu_first_seen row; ms_samples := as_u32 (cu_samples row);
        ms_mean := as_u64 (cu_mean row); ms_median := as_u64 (cu_median row); ms_low := as_u64 (cu_low row); ms_low_at := as_u64 (cu_low_at row);
        ms_high := as_u64 (cu_high row); ms_high_at := as_u64 (cu_high_at row); ms_volatility_percent := as_u32 (cu_swing row);
        ms_day := trend (cu_day_percent row) (cu_day_known row); ms_week := trend (cu_week_percent row) (cu_week_known row);
        ms_month := trend (cu_month_percent row) (cu_month_known row); ms_by_hour := cycles_from (cu_by_hour row);
        ms_by_weekday := cycles_from (cu_by_weekday row); ms_best_hour := as_u8 <$> cu_best_hour row;
        ms_best_weekday := as_u8 <$> cu_best_weekday row; ms_series := points_from (cu_series row); ms_ladder := Ladder_decode (cu_ladder row);
        ms_depth := Depth_decode (cu_depth row); ms_heatmap := Heatmap_decode (cu_heatmap row);
        ms_stock_association := match cu_stock_rho row, cu_stock_pairs row with
                                | Some rho, Some p => Some {| rho_percent := as_i32 rho; pairs := as_u32 p |}
                                | _, _ => None
                                end;
        ms_swings := {| drawdown_percent := as_u32 (cu_drawdown_percent row); rise_percent := as_u32 (cu_rise_percent row) |};
        ms_stability := match cu_typical_move_percent row, cu_stability_changes row with
                        | Some m, Some c => Some {| typical_move_percent := as_u32 m; changes := as_u32 c |}
                        | _, _ => None
                        end |}.

Definition summary_from_row (row : CurrentRow) : StoreResult MarketSummary :=
  let? key := read_market_key (cu_market_key row) in
  Ok {| sm_key := key; sm_observed_at := as_u64 <$> cu_observed_at row; sm_price := as_u64 (cu_price row);
        sm_min_price := as_u64 (cu_min_price row); sm_quantity := as_u64 (cu_quantity row); sm_listings := as_u32 (cu_listings row);
        sm_samples := as_u32 (cu_samples row) |}.

(** ** One window of a market *)
Definition window_row (w : MarketWindow) : WindowRow :=
  let d := mw_distribution w in
  let p := mw_position w in
  {| wi_market_key := key_to_string (mw_key w); wi_window := Window.key (mw_window w); wi_low := as_i64 (mw_low w); wi_low_at := as_i64 (mw_low_at w);
     wi_high := as_i64 (mw_high w); wi_high_at := as_i64 (mw_high_at w); wi_mean := as_i64 (mw_mean w); wi_median := as_i64 (Engine.median d);
     wi_samples := as_i64 (mw_samples w); wi_first_at := as_i64 (mw_first_at w); wi_last_at := as_i64 (mw_last_at w);
     wi_expected_buckets := Z.of_N <$> mw_expected_buckets w; wi_observed_buckets := as_i64 (mw_observed_buckets w);
     wi_largest_gap_ms := as_i64 (mw_largest_gap_ms w); wi_p05 := as_i64 (p05 d); wi_p25 := as_i64 (p25 d); wi_p75 := as_i64 (p75 d);
     wi_p95 := as_i64 (p95 d); wi_iqr := as_i64 (iqr d); wi_mad := as_i64 (mad d); wi_buckets := as_i64 (buckets d); wi_swing := as_i64 (mw_swing w);
     wi_spark := Spark_encode (mw_spark w); wi_series := ChartSeries_encode (mw_series w);
     wi_histogram := default "" (Histogram_encode <$> mw_histogram w); wi_rank := Z.of_N <$> pos_rank p;
     wi_valuation := Valuation.as_str <$> pos_valuation p; wi_from_median_percent := pos_from_median_percent p;
     wi_anomaly := Anomaly.as_str (pos_anomaly p); wi_insufficient := (insufficient_parts (pos_insufficient p)).1.1;
     wi_insufficient_have := (insufficient_parts (pos_insufficient p)).1.2; wi_insufficient_need := (insufficient_parts (pos_insufficient p)).2 |}.

(** [charts] is whether the query selected the two columns a chart is drawn from. *)
Definition window_from_row (charts : bool) (row : WindowRow) : StoreResult MarketWindow :=
  let? key := read_market_key (wi_market_key row) in
  let? window := ok_or (corrupt "analysis window" (wi_window row)) (Window.parse (wi_window row)) in
  Ok {| mw_key := key; mw_window := window; mw_low := as_u64 (wi_low row); mw_low_at := as_u64 (wi_low_at row); mw_high := as_u64 (wi_high row);
        mw_high_at := as_u64 (wi_high_at row); mw_mean := as_u64 (wi_mean row);
        mw_distribution := {| p05 := as_u64 (wi_p05 row); p25 := as_u64 (wi_p25 row); Engine.median := as_u64 (wi_median row);
                              p75 := as_u64 (wi_p75 row); p95 := as_u64 (wi_p95 row); iqr := as_u64 (wi_iqr row); mad := as_u64 (wi_mad row);
                              buckets := as_u32 (wi_buckets row) |};
        mw_position := {| pos_rank := as_u8 <$> wi_rank row; pos_valuation := valuation_from (wi_valuation row);
                          pos_insufficient := insufficient_from (wi_insufficient row) (wi_insufficient_have row) (wi_insufficient_need row);
                          pos_from_median_percent := as_i32 <$> wi_from_median_percent row; pos_anomaly := anomaly_from (wi_anomaly row) |};
        mw_swing := as_u32 (wi_swing row); mw_spark := Spark_decode (wi_spark row);
        mw_series := if charts then ChartSeries_decode (wi_series row) else ChartSeries_default;
        mw_histogram := if charts then Histogram_decode (wi_histogram row) else None;
        mw_samples := as_u32 (wi_samples row); mw_first_at := as_u64 (wi_first_at row); mw_last_at := as_u64 (wi_last_at row);
        mw_expected_buckets := as_u32 <$> wi_expected_buckets row; mw_observed_buckets := as_u32 (wi_observed_buckets row);
        mw_largest_gap_ms := as_u64 (wi_largest_gap_ms row) |}.

(** ** A roll-up *)
Definition rollup_row (r : MarketRollup) : RollupRow :=
  let d := mr_distribution r in
  let p := mr_position r in
  let i := insufficient_parts (p ≫= pos_insufficient) in
  let sp := mr_realm_spread r in
  {| ro_region := Region_as_str (mr_region r); ro_item_id := as_i64 (mr_item r); ro_track := track_column (mr_track r) (mr_kind r);
     ro_realm_id := as_i64 (Scope.realm_id (mr_scope r)); ro_kind := ItemKind.as_str (mr_kind r); ro_window := Window.key (mr_window r);
     ro_observed_at := as_i64 <$> mr_observed_at r; ro_snapshots := as_i64 (mr_snapshots r); ro_realms := as_i64 (mr_realms_listing r);
     ro_cheapest_now := as_i64 <$> mr_cheapest_now r; ro_cheapest_realm := as_i64 <$> mr_cheapest_realm r;
     ro_dearest_realm_now := as_i64 <$> mr_dearest_realm_now r; ro_dearest_realm := as_i64 <$> mr_dearest_realm r;
     ro_median_realm_now := as_i64 <$> mr_median_realm_now r; ro_highest_now := as_i64 <$> mr_highest_now r;
     ro_cheapest_ever := as_i64 <$> mr_cheapest_ever r; ro_highest_ever := as_i64 <$> mr_highest_ever r;
     ro_listings_now := as_i64 (mr_listings_now r); ro_listings_seen := as_i64 (mr_listings_seen r); ro_level_range := mr_level_range r;
     ro_levels := levels_json (mr_levels r); ro_modifiers := modifiers_json (mr_modifiers r); ro_series := points_json (mr_series r);
     ro_depth := Depth_encode <$> mr_depth r; ro_ladder := Ladder_encode (mr_ladder r);
     ro_p05 := (fun d => as_i64 (p05 d)) <$> d; ro_p25 := (fun d => as_i64 (p25 d)) <$> d; ro_median := (fun d => as_i64 (Engine.median d)) <$> d;
     ro_p75 := (fun d => as_i64 (p75 d)) <$> d; ro_p95 := (fun d => as_i64 (p95 d)) <$> d; ro_iqr := (fun d => as_i64 (iqr d)) <$> d;
     ro_mad := (fun d => as_i64 (mad d)) <$> d; ro_buckets := (fun d => as_i64 (buckets d)) <$> d; ro_swing := as_i64 (mr_swing r);
     ro_rank := Z.of_N <$> (p ≫= pos_rank); ro_valuation := Valuation.as_str <$> (p ≫= pos_valuation);
     ro_from_median_percent := p ≫= pos_from_median_percent; ro_anomaly := Anomaly.as_str (default Anomaly.Ordinary (pos_anomaly <$> p));
     ro_insufficient := i.1.1; ro_insufficient_have := i.1.2; ro_insufficient_need := i.2; ro_realms_collected := as_i64 (mr_realms_collected r);
     ro_spread_p05 := (fun d => as_i64 (p05 d)) <$> sp; ro_spread_p25 := (fun d => as_i64 (p25 d)) <$> sp;
     ro_spread_median := (fun d => as_i64 (Engine.median d)) <$> sp; ro_spread_p75 := (fun d => as_i64 (p75 d)) <$> sp;
     ro_spread_p95 := (fun d => as_i64 (p95 d)) <$> sp; ro_spread_iqr := (fun d => as_i64 (iqr d)) <$> sp;
     ro_spread_mad := (fun d => as_i64 (mad d)) <$> sp; ro_spread_realms := (fun d => as_i64 (buckets d)) <$> sp |}.

(** Present together or not at all. *)
Definition distribution_from (p05 p25 median p75 p95 iqr mad buckets : option Z) : option Distribution :=
  let col (c : option Z) := as_u64 (default 0%Z c) in
  (fun m => {| Engine.p05 := col p05; Engine.p25 := col p25; Engine.median := as_u64 m; Engine.p75 := col p75; Engine.p95 := col p95;
               Engine.iqr := col iqr; Engine.mad := col mad; Engine.buckets := as_u32 (default 0%Z buckets) |}) <$> median.

Definition rollup_from_row (row : RollupRow) : StoreResult MarketRollup :=
  let? region := ok_or (corrupt "region" (ro_region row)) (Region_parse (ro_region row)) in
  let? kind := ok_or (corrupt "rollup kind" (ro_kind row))
                 (find_first (fun k => bool_decide (ItemKind.as_str k = ro_kind row)) ItemKind.ALL) in
  let? window := ok_or (corrupt "analysis window" (ro_window row)) (Window.parse (ro_window row)) in
  Ok {| mr_region := region; mr_item := as_u32 (ro_item_id row); mr_kind := kind; mr_track := track_from (ro_track row);
        mr_scope := Scope.parse (as_u32 (ro_realm_id row)); mr_window := window; mr_observed_at := as_u64 <$> ro_observed_at row;
        mr_snapshots := as_u32 (ro_snapshots row); mr_realms_listing := as_u32 (ro_realms row); mr_cheapest_now := copper_of (ro_cheapest_now row);
        mr_cheapest_realm := realm_of (ro_cheapest_realm row); mr_realms_collected := as_u32 (ro_realms_collected row);
        mr_realm_spread := distribution_from (ro_spread_p05 row) (ro_spread_p25 row) (ro_spread_median row) (ro_spread_p75 row)
                             (ro_spread_p95 row) (ro_spread_iqr row) (ro_spread_mad row) (ro_spread_realms row);
        mr_dearest_realm_now := copper_of (ro_dearest_realm_now row); mr_dearest_realm := realm_of (ro_dearest_realm row);
        mr_median_realm_now := copper_of (ro_median_realm_now row); mr_highest_now := copper_of (ro_highest_now row);
        mr_cheapest_ever := copper_of (ro_cheapest_ever row); mr_highest_ever := copper_of (ro_highest_ever row);
        mr_listings_now := as_u32 (ro_listings_now row); mr_listings_seen := as_u32 (ro_listings_seen row);
        mr_depth := ro_depth row ≫= Depth_decode; mr_ladder := Ladder_decode (ro_ladder row); mr_level_range := ro_level_range row;
        mr_levels := levels_from (ro_levels row); mr_modifiers := modifiers_from (ro_modifiers row); mr_series := points_from (ro_series row);
        mr_distribution := distribution_from (ro_p05 row) (ro_p25 row) (ro_median row) (ro_p75 row) (ro_p95 row) (ro_iqr row) (ro_mad row) (ro_buckets row);
        mr_position := (fun _ => {| pos_rank := as_u8 <$> ro_rank row; pos_valuation := valuation_from (ro_valuation row);
                                    pos_insufficient := insufficient_from (ro_insufficient row) (ro_insufficient_have row) (ro_insufficient_need row);
                                    pos_from_median_percent := as_i32 <$> ro_from_median_percent row; pos_anomaly := anomaly_from (ro_anomaly row) |}) <$>
                       ro_median row;
        mr_swing := as_u32 (ro_swing row) |}.

End Codecs.

(** ** What survives the columns *)

(** The fields that are machine words hold machine words. *)
Definition fits64 (n : N) : Prop := n < 2 ^ 64.
Definition fits32 (n : N) : Prop := n < 2 ^ 32.
Definition fits8 (n : N) : Prop := n < 2 ^ 8.
Definition fits_i32 (z : Z) : Prop := (- 2 ^ 31 <= z < 2 ^ 31)%Z.
Definition held {A} (P : A -> Prop) (o : option A) : Prop := forall x, o = Some x -> P x.

Definition trend_fits (t : Trend) : Prop := fits_i32 (tr_percent t).
Definition insufficient_fits (i : Insufficient) : Prop :=
  match i with NotEnoughHistory a b | TooManyGaps a b => fits32 a /\ fits32 b end.
Definition distribution_fits (d : Distribution) : Prop :=
  Forall fits64 [p05 d; p25 d; Engine.median d; p75 d; p95 d; iqr d; mad d] /\ fits32 (buckets d).
Definition position_fits (p : Position) : Prop :=
  held fits8 (pos_rank p) /\ held insufficient_fits (pos_insufficient p) /\ held fits_i32 (pos_from_median_percent p).

Definition state_fits (s : MarketState) : Prop :=
  key_wf (ms_key s) /\
  Forall fits64 [ms_price s; ms_min_price s; ms_median_price s; ms_quantity s; ms_mean s; ms_median s; ms_low s; ms_low_at s; ms_high s; ms_high_at s] /\
  Forall fits32 [ms_listings s; ms_samples s; ms_volatility_percent s; drawdown_percent (ms_swings s); rise_percent (ms_swings s)] /\
  held fits64 (ms_observed_at s) /\ held fits64 (ms_first_seen s) /\ held fits8 (ms_best_hour s) /\ held fits8 (ms_best_weekday s) /\
  Forall trend_fits [ms_day s; ms_week s; ms_month s] /\
  held (fun a => fits_i32 (rho_percent a) /\ fits32 (pairs a)) (ms_stock_association s) /\
  held (fun x => fits32 (typical_move_percent x) /\ fits32 (changes x)) (ms_stability s).

Definition window_fits (w : MarketWindow) : Prop :=
  key_wf (mw_key w) /\ Window.parse (Window.key (mw_window w)) = Some (mw_window w) /\
  Forall fits64 [mw_low w; mw_low_at w; mw_high w; mw_high_at w; mw_mean w; mw_first_at w; mw_last_at w; mw_largest_gap_ms w] /\
  Forall fits32 [mw_swing w; mw_samples w; mw_observed_buckets w] /\ held fits32 (mw_expected_buckets w) /\
  distribution_fits (mw_distribution w) /\ position_fits (mw_position w).

Definition rollup_fits (r : MarketRollup) : Prop :=
  Window.parse (Window.key (mr_window r)) = Some (mr_window r) /\
  Forall fits32 [mr_item r; Scope.realm_id (mr_scope r); mr_snapshots r; mr_realms_listing r; mr_realms_collected r; mr_listings_now r;
                 mr_listings_seen r; mr_swing r] /\
  Forall (held fits64) [mr_observed_at r; mr_cheapest_now r; mr_dearest_realm_now r; mr_median_realm_now r; mr_highest_now r; mr_cheapest_ever r;
                        mr_highest_ever r] /\
  Forall (held fits32) [mr_cheapest_realm r; mr_dearest_realm r] /\
  held distribution_fits (mr_realm_spread r) /\ held distribution_fits (mr_distribution r) /\ held position_fits (mr_position r) /\
  (mr_kind r = ItemKind.Recipe -> mr_track r = None) /\ mr_scope r <> Scope.Realm_ 0.

(** A trend keeps its percentage; the two prices behind it are not stored. *)
Definition stored_trend (t : Trend) : Trend :=
  if tr_known t then {| tr_from := 0; tr_to := 0; tr_percent := tr_percent t; tr_known := true |} else Trend_UNKNOWN.

(** What a page gets back: the texts of the ladder, the depth and the week are decoded from
    what was encoded. *)
Definition stored_state (s : MarketState) : MarketState :=
  {| ms_key := ms_key s; ms_observed_at := ms_observed_at s; ms_price := ms_price s; ms_min_price := ms_min_price s;
     ms_median_price := ms_median_price s; ms_quantity := ms_quantity s; ms_listings := ms_listings s; ms_first_seen := ms_first_seen s;
     ms_samples := ms_samples s; ms_mean := ms_mean s; ms_median := ms_median s; ms_low := ms_low s; ms_low_at := ms_low_at s;
     ms_high := ms_high s; ms_high_at := ms_high_at s; ms_volatility_percent := ms_volatility_percent s; ms_day := stored_trend (ms_day s);
     ms_week := stored_trend (ms_week s); ms_month := stored_trend (ms_month s); ms_by_hour := ms_by_hour s; ms_by_weekday := ms_by_weekday s;
     ms_best_hour := ms_best_hour s; ms_best_weekday := ms_best_weekday s; ms_series := ms_series s;
     ms_ladder := Ladder_decode (Ladder_encode (ms_ladder s)); ms_depth := Depth_decode (default "" (Depth_encode <$> ms_depth s));
     ms_heatmap := Heatmap_decode (Heatmap_encode (ms_heatmap s)); ms_stock_association := ms_stock_association s; ms_swings := ms_swings s;
     ms_stability := ms_stability s |}.

Definition stored_window (charts : bool) (w : MarketWindow) : MarketWindow :=
  {| mw_key := mw_key w; mw_window := mw_window w; mw_low := mw_low w; mw_low_at := mw_low_at w; mw_high := mw_high w; mw_high_at := mw_high_at w;
     mw_mean := mw_mean w; mw_distribution := mw_distribution w; mw_position := mw_position w; mw_swing := mw_swing w;
     mw_spark := Spark_decode (Spark_encode (mw_spark w));
     mw_series := if charts then ChartSeries_decode (ChartSeries_encode (mw_series w)) else ChartSeries_default;
     mw_histogram := if charts then Histogram_decode (default "" (Histogram_encode <$> mw_histogram w)) else None;
     mw_samples := mw_samples w; mw_first_at := mw_first_at w; mw_last_at := mw_last_at w; mw_expected_buckets := mw_expected_buckets w;
     mw_observed_buckets := mw_observed_buckets w; mw_largest_gap_ms := mw_largest_gap_ms w |}.

(** A position is there exactly when the distribution is. *)
Definition stored_rollup (r : MarketRollup) : MarketRollup :=
  {| mr_region := mr_region r; mr_item := mr_item r; mr_kind := mr_kind r; mr_track := mr_track r; mr_scope := mr_scope r; mr_window := mr_window r;
     mr_observed_at := mr_observed_at r; mr_snapshots := mr_snapshots r; mr_realms_listing := mr_realms_listing r;
     mr_cheapest_now := mr_cheapest_now r; mr_cheapest_realm := mr_cheapest_realm r; mr_realms_collected := mr_realms_collected r;
     mr_realm_spread := mr_realm_spread r; mr_dearest_realm_now := mr_dearest_realm_now r; mr_dearest_realm := mr_dearest_realm r;
     mr_median_realm_now := mr_median_realm_now r; mr_highest_now := mr_highest_now r; mr_cheapest_ever := mr_cheapest_ever r;
     mr_highest_ever := mr_highest_ever r; mr_listings_now := mr_listings_now r; mr_listings_seen := mr_listings_seen r;
     mr_depth := mr_depth r ≫= (fun d => Depth_decode (Depth_encode d)); mr_ladder := Ladder_decode (Ladder_encode (mr_ladder r));
     mr_level_range := mr_level_range r; mr_levels := mr_levels r; mr_modifiers := mr_modifiers r; mr_series := mr_series r;
     mr_distribution := mr_distribution r;
     mr_position := (fun _ => default {| pos_rank := None; pos_valuation := None; pos_insufficient := None; pos_from_median_percent := None;
                                         pos_anomaly := Anomaly.Ordinary |} (mr_position r)) <$> mr_distribution r;
     mr_swing := mr_swing r |}.

(** ** Columns there and back *)
Lemma col32 n : fits32 n -> as_u32 (as_i64 n) = n.
Proof. unfold fits32. intros Hn. rewrite as_i64_small by lia. unfold as_u32. rewrite Z.mod_small by lia. lia. Qed.
Lemma col32' n : fits32 n -> as_u32 (Z.of_N n) = n.
Proof. unfold fits32. intros Hn. unfold as_u32. rewrite Z.mod_small by lia. lia. Qed.
Lemma col8 n : fits8 n -> as_u8 (Z.of_N n) = n.
Proof. unfold fits8. intros Hn. unfold as_u8. rewrite Z.mod_small by lia. lia. Qed.
Lemma col_i32 z : fits_i32 z -> as_i32 z = z.
Proof. unfold fits_i32. intros Hz. unfold as_i32. rewrite Z.mod_small by lia. lia. Qed.

Lemma col_option {A B} (f : A -> B) (g : B -> A) (P : A -> Prop) o :
  (forall x, P x -> g (f x) = x) -> held P o -> g <$> (f <$> o) = o.
Proof. intros Hgf Ho. destruct o as [x|]; [|done]. cbn. f_equal. apply Hgf, Ho. done. Qed.

Lemma held_some {A} (P : A -> Prop) x : held P (Some x) -> P x.
Proof. intros Hx. by apply Hx. Qed.

Lemma trend_stored t : trend_fits t -> trend (tr_percent t) (of_bool (tr_known t)) = stored_trend t.
Proof. intros Ht. unfold trend, stored_trend. destruct (tr_known t); cbn [of_bool]; [by rewrite decide_False, col_i32|done]. Qed.

Lemma valuation_back v : valuation_from (Valuation.as_str <$> v) = v.
Proof. by destruct v as [[]|]. Qed.

Lemma anomaly_back a : anomaly_from (Anomaly.as_str a) = a.
Proof. by destruct a. Qed.

Lemma insufficient_back i :
  held insufficient_fits i ->
  insufficient_from (insufficient_parts i).1.1 (insufficient_parts i).1.2 (insufficient_parts i).2 = i.
Proof.
  intros Hi. destruct i as [[a b|a b]|]; [destruct (held_some _ _ Hi) as [Ha Hb]..|done]; unfold insufficient_from;
    cbn [insufficient_parts fst snd default from_option id]; by rewrite !col32.
Qed.

Lemma track_back track kind : (kind = ItemKind.Recipe -> track = None) -> track_from (track_column track kind) = track.
Proof. intros Hk. destruct kind; try (by destruct track as [[]|]). by rewrite Hk. Qed.

Lemma kind_back k : find_first (fun x => bool_decide (ItemKind.as_str x = ItemKind.as_str k)) ItemKind.ALL = Some k.
Proof. by destruct k. Qed.

Lemma scope_back s : s <> Scope.Realm_ 0 -> fits32 (Scope.realm_id s) -> Scope.parse (as_u32 (as_i64 (Scope.realm_id s))) = s.
Proof.
  intros Hs Hf. rewrite col32 by done. unfold Scope.parse. destruct s as [|r]; cbn; [done|]. rewrite decide_False; [done|]. by intros ->.
Qed.

Lemma distribution_back d :
  held distribution_fits d ->
  distribution_from ((fun d => as_i64 (p05 d)) <$> d) ((fun d => as_i64 (p25 d)) <$> d) ((fun d => as_i64 (Engine.median d)) <$> d)
    ((fun d => as_i64 (p75 d)) <$> d) ((fun d => as_i64 (p95 d)) <$> d) ((fun d => as_i64 (iqr d)) <$> d) ((fun d => as_i64 (mad d)) <$> d)
    ((fun d => as_i64 (buckets d)) <$> d) = d.
Proof.
  intros Hd. destruct d as [d|]; [|done]. destruct (held_some _ _ Hd) as [Hall Hb]. repeat (apply Forall_cons in Hall as [? Hall]).
  unfold distribution_from. cbn [fmap option_fmap option_map default from_option id]. rewrite !as_u64_i64, col32 by done. by destruct d.
Qed.

Section RoundTrip.

Context `{JP : Json (list StoredPoint), JC : Json (list StoredCycle), JL : Json (list StoredLevel), JM : Json (list StoredModifier)}.
Context `{!JsonLaws (list StoredPoint), !JsonLaws (list StoredCycle), !JsonLaws (list StoredLevel), !JsonLaws (list StoredModifier)}.

Lemma points_back l : points_from (points_json l) = l.
Proof.
  unfold points_from, points_json. rewrite from_to_json. cbn [default from_option id]. rewrite <- list_fmap_compose.
  rewrite <- (list_fmap_id l) at 2. apply list_fmap_ext. by intros _ [] _.
Qed.
Lemma cycles_back l : cycles_from (cycles_json l) = l.
Proof.
  unfold cycles_from, cycles_json. rewrite from_to_json. cbn [default from_option id]. rewrite <- list_fmap_compose.
  rewrite <- (list_fmap_id l) at 2. apply list_fmap_ext. by intros _ [] _.
Qed.
Lemma levels_back l : levels_from (levels_json l) = l.
Proof.
  unfold levels_from, levels_json. rewrite from_to_json. cbn [default from_option id]. rewrite <- list_fmap_compose.
  rewrite <- (list_fmap_id l) at 2. apply list_fmap_ext. by intros _ [] _.
Qed.
Lemma modifiers_back l : modifiers_from (modifiers_json l) = l.
Proof.
  unfold modifiers_from, modifiers_json. rewrite from_to_json. cbn [default from_option id]. rewrite <- list_fmap_compose.
  rewrite <- (list_fmap_id l) at 2. apply list_fmap_ext. by intros _ [] _.
Qed.

Lemma read_key_back k : key_wf k -> read_market_key (key_to_string k) = Ok k.
Proof. intros Hk. unfold read_market_key. by rewrite from_str_to_string. Qed.

Lemma state_back s : state_fits s -> state_from_row (current_row s) = Ok (stored_state s).
Proof.
  intros (Hk & H64 & H32 & Ho & Hf & Hbh & Hbw & Ht & Ha & Hst). repeat (apply Forall_cons in H64 as [? H64]).
  repeat (apply Forall_cons in H32 as [? H32]). repeat (apply Forall_cons in Ht as [? Ht]).
  unfold state_from_row, current_row.
  cbn [cu_market_key cu_observed_at cu_price cu_min_price cu_median_price cu_quantity cu_listings cu_first_seen cu_samples cu_mean cu_median cu_low
       cu_low_at cu_high cu_high_at cu_swing cu_day_percent cu_day_known cu_week_percent cu_week_known cu_month_percent cu_month_known cu_best_hour
       cu_best_weekday cu_by_hour cu_by_weekday cu_series cu_ladder cu_depth cu_heatmap cu_stock_rho cu_stock_pairs cu_drawdown_percent
       cu_rise_percent cu_typical_move_percent cu_stability_changes].
  rewrite read_key_back by done. unfold stored_state. f_equal.
  rewrite !as_u64_i64, !col32, !cycles_back, !points_back, !trend_stored by done.
  rewrite (col_option as_i64 as_u64 fits64 _ as_u64_i64 Ho), (col_option as_i64 as_u64 fits64 _ as_u64_i64 Hf).
  rewrite (col_option Z.of_N as_u8 fits8 _ col8 Hbh), (col_option Z.of_N as_u8 fits8 _ col8 Hbw).
  f_equal.
  - destruct (ms_stock_association s) as [[rho p]|]; [|done]. destruct (held_some _ _ Ha) as [Hq1 Hq2].
    cbn [fmap option_fmap option_map rho_percent pairs] in *. by rewrite col_i32, col32.
  - by destruct (ms_swings s).
  - destruct (ms_stability s) as [[m c]|]; [|done]. destruct (held_some _ _ Hst) as [Hq1 Hq2].
    cbn [fmap option_fmap option_map typical_move_percent changes] in *. by rewrite !col32.
Qed.

Lemma window_back charts w : window_fits w -> window_from_row charts (window_row w) = Ok (stored_window charts w).
Proof.
  intros (Hk & Hw & H64 & H32 & He & [Hd Hb] & (Hr & Hi & Hm)). repeat (apply Forall_cons in H64 as [? H64]).
  repeat (apply Forall_cons in H32 as [? H32]). repeat (apply Forall_cons in Hd as [? Hd]).
  unfold window_from_row, window_row.
  cbn [wi_market_key wi_window wi_low wi_low_at wi_high wi_high_at wi_mean wi_median wi_samples wi_first_at wi_last_at wi_expected_buckets
       wi_observed_buckets wi_largest_gap_ms wi_p05 wi_p25 wi_p75 wi_p95 wi_iqr wi_mad wi_buckets wi_swing wi_spark wi_series wi_histogram wi_rank
       wi_valuation wi_from_median_percent wi_anomaly wi_insufficient wi_insufficient_have wi_insufficient_need].
  rewrite read_key_back, Hw by done. cbn [ok_or]. unfold stored_window. f_equal.
  rewrite !as_u64_i64, !col32, valuation_back, anomaly_back, insufficient_back by done.
  rewrite (col_option Z.of_N as_u8 fits8 _ col8 Hr), (col_option Z.of_N as_u32 fits32 _ col32' He).
  f_equal; [by destruct (mw_distribution w)|]. destruct (mw_position w) as [r v i m a]. cbn in Hm |- *. f_equal.
  destruct m as [m|]; [|done]. cbn. by rewrite col_i32; [|apply Hm].
Qed.

Lemma rollup_back r : rollup_fits r -> rollup_from_row (rollup_row r) = Ok (stored_rollup r).
Proof.
  intros (Hw & H32 & H64 & Hr32 & Hsp & Hd & Hp & Ht & Hs). repeat (apply Forall_cons in H64 as [? H64]).
  repeat (apply Forall_cons in H32 as [? H32]). repeat (apply Forall_cons in Hr32 as [? Hr32]).
  unfold rollup_from_row, rollup_row, copper_of, realm_of.
  cbn [ro_region ro_item_id ro_track ro_realm_id ro_kind ro_window ro_observed_at ro_snapshots ro_realms ro_cheapest_now ro_cheapest_realm
       ro_dearest_realm_now ro_dearest_realm ro_median_realm_now ro_highest_now ro_cheapest_ever ro_highest_ever ro_listings_now ro_listings_seen
       ro_level_range ro_levels ro_modifiers ro_series ro_depth ro_ladder ro_p05 ro_p25 ro_median ro_p75 ro_p95 ro_iqr ro_mad ro_buckets ro_swing
       ro_rank ro_valuation ro_from_median_percent ro_anomaly ro_insufficient ro_insufficient_have ro_insufficient_need ro_realms_collected
       ro_spread_p05 ro_spread_p25 ro_spread_median ro_spread_p75 ro_spread_p95 ro_spread_iqr ro_spread_mad ro_spread_realms].
  rewrite Region_parse_as_str. cbn [ok_or]. rewrite kind_back. cbn [ok_or]. rewrite Hw. cbn [ok_or]. unfold stored_rollup. f_equal.
  rewrite !distribution_back, scope_back, !col32, track_back, levels_back, modifiers_back, points_back by done.
  rewrite !(col_option as_i64 as_u64 fits64 _ as_u64_i64) by done. rewrite !(col_option as_i64 as_u32 fits32 _ col32) by done.
  f_equal; [by destruct (mr_depth r)|].
  destruct (mr_distribution r) as [d|]; [|done]. cbn [fmap option_fmap option_map]. f_equal.
  destruct (mr_position r) as [[rk v i m a]|]; [|done]. destruct (held_some _ _ Hp) as (Hrk & Hi & Hm).
  cbn [mbind option_bind pos_rank pos_valuation pos_insufficient pos_from_median_percent pos_anomaly fmap option_fmap option_map default from_option id] in *.
  rewrite valuation_back, anomaly_back, insufficient_back by done. f_equal; [by apply (col_option Z.of_N as_u8 fits8 _ col8)|].
  destruct m as [m|]; [|done]. cbn. by rewrite col_i32; [|apply Hm].
Qed.

End RoundTrip.
