(* ===== verification/ReadModel.v ===== *)
(** * ReadModel: staging a version of the analysis and publishing it

    Models [ReadModelRepository for SqliteReadModel]
    ([crates/storage/src/sqlite/read_model.rs]) and the driver that uses it, [publish] of
    [crates/server/src/materialise_task.rs].

    A table has its rows twice over, published and staged: the state is half of its
    primary key, and the model keeps the two halves as two maps.  A call is one
    transaction and one step; what a driver does is a [Run]: it opens a version, stages
    rows in batches, and publishes, abandons or is cut short.  The theorem compares any
    number of runs with a reference that only knows which runs published. *)
From Stdlib Require Import Ascii ZArith.
From stdpp Require Import prelude gmap sorting strings pretty.
From S2P Require Import Prelude Text F64 Time Store Sqlite Market Catalog Depth Engine Series MarketKey Window Analysis Correlate Materialise Rollup ReadRows.

Module VersionState.
Inductive t := Staging | Published | Failed.
#[global] Instance eq_dec : EqDecision t.
Proof. solve_decision. Defined.
Definition as_str (self : t) : string := match self with Staging => "staging" | Published => "published" | Failed => "failed" end.
Definition parse (raw : string) : option t := find_first (fun s => bool_decide (as_str s = raw)) [Staging; Published; Failed].
End VersionState.

Record AnalysisVersion := {
  av_version : N; av_state : VersionState.t; av_algorithm : N; av_started_at : Millis; av_published_at : option Millis;
  av_source_from : option Millis; av_source_until : option Millis; av_markets : N; av_note : option string }.

(** ** Tables *)
Record VersionRow := {
  vr_state : string; vr_algorithm : Z; vr_started_at : Z; vr_published_at : option Z; vr_source_from : option Z; vr_source_until : option Z;
  vr_markets : Z; vr_note : option string }.

Section Tables.

Context {K I B : Type} `{Countable K}.

Record RowOf := { r_version : Z; r_ids : I; r_body : B }.
Record TableOf := { published_rows : gmap K RowOf; staged_rows : gmap K RowOf }.

Definition empty_table : TableOf := {| published_rows := ∅; staged_rows := ∅ |}.

(** [INSERT ... ON CONFLICT DO UPDATE]: the columns the market decides are left as they are. *)
Definition upsert (version : Z) (k : K) (ids : I) (body : B) (t : TableOf) : TableOf :=
  let ids := match staged_rows t !! k with Some old => r_ids old | None => ids end in
  {| published_rows := published_rows t; staged_rows := <[k := {| r_version := version; r_ids := ids; r_body := body |}]> (staged_rows t) |}.

(** [DELETE ... WHERE state = 'staging'], of every version or of one. *)
Definition clear_staging (t : TableOf) : TableOf := {| published_rows := published_rows t; staged_rows := ∅ |}.
Definition drop_staged (version : Z) (t : TableOf) : TableOf :=
  {| published_rows := published_rows t; staged_rows := filter (fun kv => r_version kv.2 <> version) (staged_rows t) |}.

(** Publishing: drop the published rows the candidate replaces, then turn its rows over. *)
Definition turn_over (version : Z) (t : TableOf) : TableOf :=
  let candidate := filter (fun kv => r_version kv.2 = version) (staged_rows t) in
  {| published_rows := candidate ∪ filter (fun kv => candidate !! kv.1 = None) (published_rows t);
     staged_rows := filter (fun kv => r_version kv.2 <> version) (staged_rows t) |}.

End Tables.
Arguments RowOf : clear implicits.
Arguments TableOf K I B {_ _}.

Abbreviation RollupKey := (string * Z * string * Z)%type.

Record ReadModel := {
  rm_versions : gmap Z VersionRow; rm_seq : Z; rm_current : TableOf string Ids CurrentRow; rm_windows : TableOf (string * string) Ids WindowRow;
  rm_rollups : TableOf RollupKey unit RollupRow }.

Definition ReadModel_empty : ReadModel :=
  {| rm_versions := ∅; rm_seq := 0; rm_current := empty_table; rm_windows := empty_table; rm_rollups := empty_table |}.

Definition set_state (state : string) (note : option string) (row : VersionRow) : VersionRow :=
  {| vr_state := state; vr_algorithm := vr_algorithm row; vr_started_at := vr_started_at row; vr_published_at := vr_published_at row;
     vr_source_from := vr_source_from row; vr_source_until := vr_source_until row; vr_markets := vr_markets row; vr_note := note |}.

(** [note = COALESCE(note, ...)]. *)
Definition orphan (row : VersionRow) : VersionRow :=
  if decide (vr_state row = "staging")
  then set_state "failed" (Some (default "abandoned: a later run started" (vr_note row))) row
  else row.

Definition begin (algorithm : N) (now : Millis) (m : ReadModel) : StoreResult N * ReadModel :=
  if decide (rm_seq m = Sqlite.i64_max) then (Err (Backend "database or disk is full"), m)
  else
    let version := (rm_seq m + 1)%Z in
    let row := {| vr_state := "staging"; vr_algorithm := as_i64 algorithm; vr_started_at := as_i64 now; vr_published_at := None;
                  vr_source_from := None; vr_source_until := None; vr_markets := 0; vr_note := None |} in
    (Ok (as_u64 version),
     {| rm_versions := <[version := row]> (orphan <$> rm_versions m); rm_seq := version; rm_current := clear_staging (rm_current m);
        rm_windows := clear_staging (rm_windows m); rm_rollups := clear_staging (rm_rollups m) |}).

Section Staging.

Context `{Json (list StoredPoint), Json (list StoredCycle), Json (list StoredLevel), Json (list StoredModifier)}.

(** One market and its windows. *)
Definition stage_window (version : Z) (t : TableOf (string * string) Ids WindowRow) (w : MarketWindow) : TableOf (string * string) Ids WindowRow :=
  upsert version (key_to_string (mw_key w), Window.key (mw_window w)) (parts (mw_key w)) (window_row w) t.

Definition stage_one (version : Z) (m : ReadModel) (x : Materialised) : ReadModel :=
  {| rm_versions := rm_versions m; rm_seq := rm_seq m;
     rm_current := upsert version (key_to_string (ms_key (state x))) (parts (ms_key (state x))) (current_row (state x)) (rm_current m);
     rm_windows := foldl (stage_window version) (rm_windows m) (windows x); rm_rollups := rm_rollups m |}.

Definition add_markets (written : Z) (row : VersionRow) : VersionRow :=
  {| vr_state := vr_state row; vr_algorithm := vr_algorithm row; vr_started_at := vr_started_at row; vr_published_at := vr_published_at row;
     vr_source_from := vr_source_from row; vr_source_until := vr_source_until row; vr_markets := (vr_markets row + written)%Z; vr_note := vr_note row |}.

Definition with_versions (versions : gmap Z VersionRow) (m : ReadModel) : ReadModel :=
  {| rm_versions := versions; rm_seq := rm_seq m; rm_current := rm_current m; rm_windows := rm_windows m; rm_rollups := rm_rollups m |}.

Definition stage (version : N) (markets : list Materialised) (m : ReadModel) : StoreResult N * ReadModel :=
  match markets with
  | [] => (Ok 0, m)
  | _ =>
      let v := as_i64 version in
      let written := N.of_nat (length markets) in
      let m := foldl (stage_one v) m markets in
      (Ok written, with_versions (alter (add_markets (as_i64 written)) v (rm_versions m)) m)
  end.

Definition rollup_key (r : MarketRollup) : RollupKey :=
  (Region_as_str (mr_region r), as_i64 (mr_item r), track_column (mr_track r) (mr_kind r), as_i64 (Scope.realm_id (mr_scope r))).

Definition stage_rollup (version : Z) (t : TableOf RollupKey unit RollupRow) (r : MarketRollup) : TableOf RollupKey unit RollupRow :=
  upsert version (rollup_key r) tt (rollup_row r) t.

Definition stage_rollups (version : N) (rollups : list MarketRollup) (m : ReadModel) : StoreResult N * ReadModel :=
  match rollups with
  | [] => (Ok 0, m)
  | _ => (Ok (N.of_nat (length rollups)),
          {| rm_versions := rm_versions m; rm_seq := rm_seq m; rm_current := rm_current m; rm_windows := rm_windows m;
             rm_rollups := foldl (stage_rollup (as_i64 version)) (rm_rollups m) rollups |})
  end.

Definition publish_row (source : option Millis * option Millis) (now : Millis) (row : VersionRow) : VersionRow :=
  {| vr_state := "published"; vr_algorithm := vr_algorithm row; vr_started_at := vr_started_at row; vr_published_at := Some (as_i64 now);
     vr_source_from := as_i64 <$> source.1; vr_source_until := as_i64 <$> source.2; vr_markets := vr_markets row; vr_note := vr_note row |}.

Definition publish (version : N) (source : option Millis * option Millis) (now : Millis) (m : ReadModel) : StoreResult unit * ReadModel :=
  let v := as_i64 version in
  match rm_versions m !! v with
  | None => (Err NotFound, m)
  | Some row =>
      if decide (vr_state row = "staging") then
        (Ok tt,
         {| rm_versions := alter (publish_row source now) v (rm_versions m); rm_seq := rm_seq m; rm_current := turn_over v (rm_current m);
            rm_windows := turn_over v (rm_windows m); rm_rollups := turn_over v (rm_rollups m) |})
      else (Err (Conflict ("version " +:+ pretty version +:+ " is " +:+ vr_state row +:+ ", not a candidate")), m)
  end.

Definition abandon (version : N) (note : string) (m : ReadModel) : StoreResult unit * ReadModel :=
  let v := as_i64 version in
  (Ok tt,
   {| rm_versions := alter (set_state "failed" (Some note)) v (rm_versions m); rm_seq := rm_seq m; rm_current := drop_staged v (rm_current m);
      rm_windows := drop_staged v (rm_windows m); rm_rollups := drop_staged v (rm_rollups m) |}).

(** ** Reading *)
Definition version_from_row (version : Z) (row : VersionRow) : StoreResult AnalysisVersion :=
  let? state := ok_or (corrupt "version state" (vr_state row)) (VersionState.parse (vr_state row)) in
  Ok {| av_version := as_u64 version; av_state := state; av_algorithm := as_u32 (vr_algorithm row); av_started_at := as_u64 (vr_started_at row);
        av_published_at := as_u64 <$> vr_published_at row; av_source_from := as_u64 <$> vr_source_from row;
        av_source_until := as_u64 <$> vr_source_until row; av_markets := as_u64 (vr_markets row); av_note := vr_note row |}.

Definition newest_first (rows : list (Z * VersionRow)) : list (Z * VersionRow) := sort_by (fun a b => Z.compare b.1 a.1) rows.

Definition published (m : ReadModel) : StoreResult (option AnalysisVersion) :=
  match head (newest_first (filter (fun kv => vr_state kv.2 = "published") (map_to_list (rm_versions m)))) with
  | Some (v, row) => match version_from_row v row with Ok x => Ok (Some x) | Err e => Err e end
  | None => Ok None
  end.

Definition versions (limit : N) (m : ReadModel) : StoreResult (list AnalysisVersion) :=
  collect_results ((fun kv => version_from_row kv.1 kv.2) <$> take (N.to_nat limit) (newest_first (map_to_list (rm_versions m)))).

Definition is_commodity (region : Region) (ids : Ids) : Prop := id_kind ids = "commodity" /\ id_region ids = Region_as_str region.
#[local] Instance is_commodity_dec region ids : Decision (is_commodity region ids).
Proof. apply _. Defined.

Definition commodity_rows (region : Region) (m : ReadModel) : list CurrentRow :=
  (fun kv => r_body kv.2) <$>
  sort_by (fun a b => Z.compare (id_item (r_ids a.2)) (id_item (r_ids b.2)))
    (filter (fun kv => is_commodity region (r_ids kv.2)) (map_to_list (published_rows (rm_current m)))).

(** [max(observed_at)], of those that have one. *)
Definition newest_of_rows (rows : list CurrentRow) : option Z :=
  foldr (fun row acc => match cu_observed_at row, acc with Some x, Some y => Some (Z.max x y) | Some x, None => Some x | None, acc => acc end) None rows.

Definition commodity_summary (region : Region) (m : ReadModel) : StoreResult (N * option Millis) :=
  let rows := commodity_rows region m in Ok (N.of_nat (length rows), as_u64 <$> newest_of_rows rows).

Definition commodities (region : Region) (m : ReadModel) : StoreResult (list MarketSummary) :=
  collect_results (summary_from_row <$> commodity_rows region m).

Definition market (key : MarketKey) (m : ReadModel) : StoreResult (option MarketState) :=
  match published_rows (rm_current m) !! key_to_string key with
  | Some row => match state_from_row (r_body row) with Ok s => Ok (Some s) | Err e => Err e end
  | None => Ok None
  end.

Definition commodity_windows (region : Region) (window : Window.t) (m : ReadModel) : StoreResult (list MarketWindow) :=
  collect_results ((fun kv => window_from_row false (r_body kv.2)) <$>
    sort_by (fun a b => Z.compare (id_item (r_ids a.2)) (id_item (r_ids b.2)))
       (filter (fun kv => kv.1.2 = Window.key window /\ is_commodity region (r_ids kv.2)) (map_to_list (published_rows (rm_windows m))))).

Definition windows_of (key : MarketKey) (m : ReadModel) : StoreResult (list MarketWindow) :=
  collect_results ((fun kv => window_from_row true (r_body kv.2)) <$>
    sort_by (fun a b => String.compare a.1.2 b.1.2)
       (filter (fun kv => kv.1.1 = key_to_string key) (map_to_list (published_rows (rm_windows m))))).

Definition rollup_cmp (a b : RollupKey) : comparison :=
  let '(_, i, t, r) := a in let '(_, i', t', r') := b in
  cmp_then (Z.compare i i') (cmp_then (String.compare t t') (Z.compare r r')).

Definition rollup_rows (p : RollupKey -> RollupRow -> bool) (m : ReadModel) : StoreResult (list MarketRollup) :=
  collect_results ((fun kv => rollup_from_row (r_body kv.2)) <$>
    sort_by (fun a b => rollup_cmp a.1 b.1) (filter (fun kv => p kv.1 (r_body kv.2) = true) (map_to_list (published_rows (rm_rollups m))))).

Definition rollups (region : Region) (kind : ItemKind.t) (scope : Scope.t) (m : ReadModel) : StoreResult (list MarketRollup) :=
  rollup_rows (fun k row => let '(r, _, _, realm) := k in
    bool_decide (ro_kind row = ItemKind.as_str kind /\ r = Region_as_str region /\ realm = as_i64 (Scope.realm_id scope))) m.

Definition item_rollups (region : Region) (item : ItemId) (m : ReadModel) : StoreResult (list MarketRollup) :=
  rollup_rows (fun k _ => let '(r, i, _, _) := k in bool_decide (r = Region_as_str region /\ i = as_i64 item)) m.

Definition deal_rollups (region : Region) (m : ReadModel) : StoreResult (list MarketRollup) :=
  rollup_rows (fun k _ => let '(r, _, _, _) := k in bool_decide (r = Region_as_str region)) m.

(** One row: no track is either of its two spellings. *)
Definition rollup (region : Region) (item : ItemId) (track : option Track.t) (scope : Scope.t) (m : ReadModel) : StoreResult (option MarketRollup) :=
  let at_ (t : string) := published_rows (rm_rollups m) !! ((Region_as_str region, as_i64 item, t, as_i64 (Scope.realm_id scope)) : RollupKey) in
  let row := match track with
             | Some t => at_ (Track.slug t)
             | None => match at_ "" with Some r => Some r | None => at_ "-" end
             end in
  match row with
  | Some r => match rollup_from_row (r_body r) with Ok x => Ok (Some x) | Err e => Err e end
  | None => Ok None
  end.

(** ** A run of the materialiser *)
Inductive Batch := Markets (l : list Materialised) | Rollups (l : list MarketRollup).

(** How a run ends; the process may die at any point before. *)
Inductive Ending := Publishes (source : option Millis * option Millis) (now : Millis) | Abandons (note : string) | CutShort.

Record Run := { ru_algorithm : N; ru_now : Millis; ru_batches : list Batch; ru_end : Ending }.

Definition run_batch (v : N) (m : ReadModel) (b : Batch) : ReadModel :=
  match b with Markets l => (stage v l m).2 | Rollups l => (stage_rollups v l m).2 end.

(** [publish] of the materialiser, the calculation between its calls left out. *)
Definition run_one (r : Run) (m : ReadModel) : ReadModel :=
  match begin (ru_algorithm r) (ru_now r) m with
  | (Err _, m) => m
  | (Ok v, m) =>
      let m := foldl (run_batch v) m (ru_batches r) in
      match ru_end r with
      | Publishes source now =>
          match publish v source now m with
          | (Ok _, m) => m
          | (Err e, m) => (abandon v ("publish failed: " +:+ StoreError_fmt e) m).2
          end
      | Abandons note => (abandon v note m).2
      | CutShort => m
      end
  end.

(** The newest run first. *)
Definition run_all (runs : list Run) : ReadModel := foldr run_one ReadModel_empty runs.

End Staging.

(** ** The reference: the newest published run that has something to say *)
Definition publishes (r : Run) : bool := match ru_end r with Publishes _ _ => true | _ => false end.

Fixpoint latest {A} (pick : Run -> option A) (runs : list Run) : option A :=
  match runs with
  | [] => None
  | r :: earlier => match (if publishes r then pick r else None) with Some a => Some a | None => latest pick earlier end
  end.

Definition markets_of (r : Run) : list Materialised := mbind (fun b => match b with Markets l => l | Rollups _ => [] end) (ru_batches r).
Definition rollups_of (r : Run) : list MarketRollup := mbind (fun b => match b with Markets _ => [] | Rollups l => l end) (ru_batches r).

(** The last a run staged for one market, one window of it, one roll-up. *)
Definition staged_state (key : MarketKey) (r : Run) : option MarketState :=
  last (filter (fun s => ms_key s = key) (state <$> markets_of r)).
Definition staged_window (key : MarketKey) (window : Window.t) (r : Run) : option MarketWindow :=
  last (filter (fun w => mw_key w = key /\ mw_window w = window) (mbind windows (markets_of r))).
Definition staged_rollup (key : RollupKey) (r : Run) : option MarketRollup :=
  last (filter (fun x => rollup_key x = key) (rollups_of r)).

(** ** One table *)
Section TableLaws.

Context {K I B : Type} `{Countable K}.
Implicit Types (t : TableOf K I B) (es : list (K * I * B)).

Definition put (v : Z) t (e : K * I * B) : TableOf K I B := upsert v e.1.1 e.1.2 e.2 t.
Definition last_entry es (k : K) : option B := last (snd <$> filter (fun e => e.1.1 = k) es).

Lemma last_entry_snoc es e k : last_entry (es ++ [e]) k = if decide (e.1.1 = k) then Some e.2 else last_entry es k.
Proof. unfold last_entry. rewrite filter_app, fmap_app. rewrite filter_cons, filter_nil. case_decide; [apply last_snoc|by rewrite app_nil_r]. Qed.

Lemma puts_published v es t : published_rows (foldl (put v) t es) = published_rows t.
Proof. revert t. induction es as [|e es IH]; intros t; [done|]. cbn [foldl]. by rewrite IH. Qed.

Lemma puts_staged v es t k :
  r_body <$> staged_rows (foldl (put v) t es) !! k =
  match last_entry es k with Some b => Some b | None => r_body <$> staged_rows t !! k end.
Proof.
  induction es as [|e es IH] using rev_ind; [done|]. rewrite foldl_snoc, last_entry_snoc. cbn [put upsert staged_rows].
  case_decide as Hk; [subst; by rewrite lookup_insert_eq|]. by rewrite lookup_insert_ne, IH.
Qed.

Lemma puts_version v es t :
  map_Forall (fun _ r => r_version r = v) (staged_rows t) -> map_Forall (fun _ r => r_version r = v) (staged_rows (foldl (put v) t es)).
Proof.
  intros Ht. induction es as [|e es IH] using rev_ind; [done|]. rewrite foldl_snoc. cbn [put upsert staged_rows].
  by apply map_Forall_insert_2.
Qed.

(** A candidate whose rows are all its own is published whole; what it says nothing of stays. *)
Lemma turn_over_lookup v t k :
  map_Forall (fun _ r => r_version r = v) (staged_rows t) ->
  published_rows (turn_over v t) !! k = match staged_rows t !! k with Some r => Some r | None => published_rows t !! k end.
Proof.
  intros Hv. cbn [turn_over published_rows].
  assert (filter (fun kv => r_version kv.2 = v) (staged_rows t) = staged_rows t) as ->.
  { apply map_filter_id. intros i x Hx. by apply (Hv i x Hx). }
  rewrite lookup_union. destruct (staged_rows t !! k) as [r|] eqn:Hk; [by rewrite union_Some_l|]. rewrite (left_id None _).
  destruct (published_rows t !! k) as [r|] eqn:Hp; [by apply map_lookup_filter_Some|]. apply map_lookup_filter_None. by left.
Qed.

End TableLaws.

(** ** What a run writes *)
Section Runs.

Context `{JP : Json (list StoredPoint), JC : Json (list StoredCycle), JL : Json (list StoredLevel), JM : Json (list StoredModifier)}.

Definition current_entry (x : Materialised) : string * Ids * CurrentRow :=
  (key_to_string (ms_key (state x)), parts (ms_key (state x)), current_row (state x)).
Definition window_entry (w : MarketWindow) : (string * string) * Ids * WindowRow :=
  ((key_to_string (mw_key w), Window.key (mw_window w)), parts (mw_key w), window_row w).
Definition rollup_entry (x : MarketRollup) : RollupKey * unit * RollupRow := (rollup_key x, tt, rollup_row x).

Lemma stage_tables v l m :
  rm_current (stage v l m).2 = foldl (put (as_i64 v)) (rm_current m) (current_entry <$> l) /\
  rm_windows (stage v l m).2 = foldl (put (as_i64 v)) (rm_windows m) (window_entry <$> mbind windows l) /\
  rm_rollups (stage v l m).2 = rm_rollups m /\ rm_seq (stage v l m).2 = rm_seq m.
Proof.
  assert (Hf : forall l m, rm_current (foldl (stage_one (as_i64 v)) m l) = foldl (put (as_i64 v)) (rm_current m) (current_entry <$> l) /\
    rm_windows (foldl (stage_one (as_i64 v)) m l) = foldl (put (as_i64 v)) (rm_windows m) (window_entry <$> mbind windows l) /\
    rm_rollups (foldl (stage_one (as_i64 v)) m l) = rm_rollups m /\ rm_seq (foldl (stage_one (as_i64 v)) m l) = rm_seq m).
  { clear. induction l as [|x l IH]; intros m; [done|]. cbn [foldl]. destruct (IH (stage_one (as_i64 v) m x)) as (-> & -> & -> & ->).
    split_and!; [done| |done|done]. rewrite bind_cons, fmap_app, foldl_app. cbn [stage_one rm_windows]. f_equal.
    by rewrite foldl_fmap. }
  unfold stage. destruct l as [|x l]; [done|]. apply Hf.
Qed.

Lemma stage_rollups_tables v l m :
  rm_rollups (stage_rollups v l m).2 = foldl (put (as_i64 v)) (rm_rollups m) (rollup_entry <$> l) /\
  rm_current (stage_rollups v l m).2 = rm_current m /\ rm_windows (stage_rollups v l m).2 = rm_windows m /\
  rm_seq (stage_rollups v l m).2 = rm_seq m.
Proof. unfold stage_rollups. destruct l as [|x l]; [done|]. split_and!; [|done..]. cbn [snd rm_rollups]. by rewrite foldl_fmap. Qed.

Lemma batches_tables v r m :
  let m' := foldl (run_batch v) m (ru_batches r) in
  rm_current m' = foldl (put (as_i64 v)) (rm_current m) (current_entry <$> markets_of r) /\
  rm_windows m' = foldl (put (as_i64 v)) (rm_windows m) (window_entry <$> mbind windows (markets_of r)) /\
  rm_rollups m' = foldl (put (as_i64 v)) (rm_rollups m) (rollup_entry <$> rollups_of r) /\ rm_seq m' = rm_seq m.
Proof.
  cbn zeta. unfold markets_of, rollups_of. generalize (ru_batches r) as bs. intros bs. revert m.
  induction bs as [|b bs IH]; intros m; [done|]. cbn [foldl]. destruct (IH (run_batch v m b)) as (-> & -> & -> & ->).
  rewrite !bind_cons. destruct b as [l|l]; cbn [run_batch].
  - destruct (stage_tables v l m) as (-> & -> & -> & ->). by rewrite bind_app, !fmap_app, !foldl_app.
  - destruct (stage_rollups_tables v l m) as (-> & -> & -> & ->). by rewrite !fmap_app, !foldl_app.
Qed.

Definition states (m : ReadModel) (v : Z) : option string := vr_state <$> rm_versions m !! v.

Lemma batches_states v r m k : states (foldl (run_batch v) m (ru_batches r)) k = states m k.
Proof.
  generalize (ru_batches r) as bs. intros bs. revert m. induction bs as [|b bs IH]; intros m; [done|]. cbn [foldl]. rewrite IH.
  unfold states. destruct b as [l|l]; cbn [run_batch].
  - unfold stage. destruct l as [|x l]; [done|]. cbn [snd with_versions rm_versions].
    assert (Hf : forall l m, rm_versions (foldl (stage_one (as_i64 v)) m l) = rm_versions m)
      by (clear; induction l as [|x l IH]; intros m; [done|]; cbn [foldl]; by rewrite IH).
    rewrite Hf, lookup_alter. case_decide; [|done]. subst. by destruct (rm_versions m !! as_i64 v).
  - unfold stage_rollups. by destruct l.
Qed.

Lemma as_i64_u64 z : (0 <= z <= Sqlite.i64_max)%Z -> as_i64 (as_u64 z) = z.
Proof.
  unfold Sqlite.i64_max. intros Hz. unfold as_u64. rewrite Z.mod_small by lia. rewrite as_i64_small by lia. lia.
Qed.

(** How a run changes one table. *)
Definition published_by {K I B} `{Countable K} (r : Run) (es : list (K * I * B)) (t t' : TableOf K I B) : Prop :=
  forall k, r_body <$> published_rows t' !! k =
    match (if publishes r then last_entry es k else None) with Some b => Some b | None => r_body <$> published_rows t !! k end.

Lemma table_published {K I B} `{Countable K} (v : Z) (es : list (K * I * B)) (t : TableOf K I B) r :
  (publishes r = true -> published_by r es t (turn_over v (foldl (put v) (clear_staging t) es))) /\
  (publishes r = false -> published_by r es t (drop_staged v (foldl (put v) (clear_staging t) es)) /\
                          published_by r es t (foldl (put v) (clear_staging t) es)).
Proof.
  split; intros Hp.
  - intros k. rewrite Hp. rewrite turn_over_lookup by (apply puts_version; cbn; apply map_Forall_empty).
    rewrite puts_published. pose proof (puts_staged v es (clear_staging t) k) as Hs. cbn [clear_staging staged_rows published_rows] in Hs |- *.
    rewrite lookup_empty in Hs. cbn [fmap option_fmap option_map] in Hs.
    destruct (staged_rows (foldl (put v) _ es) !! k) as [x|]; destruct (last_entry es k); cbn in Hs |- *; congruence.
  - split; intros k; rewrite Hp; cbn [drop_staged published_rows]; by rewrite puts_published.
Qed.

Definition orphaned (s : string) : string := if decide (s = "staging") then "failed" else s.

Lemma states_orphan m k : vr_state <$> (orphan <$> rm_versions m) !! k = orphaned <$> states m k.
Proof.
  unfold states. rewrite lookup_fmap. destruct (rm_versions m !! k) as [row|]; [|done]. cbn. f_equal. unfold orphan, orphaned. by case_decide.
Qed.

Definition end_state (r : Run) : string := match ru_end r with Publishes _ _ => "published" | Abandons _ => "failed" | CutShort => "staging" end.

Lemma run_one_spec r m :
  (0 <= rm_seq m < Sqlite.i64_max)%Z ->
  let m' := run_one r m in
  published_by r (current_entry <$> markets_of r) (rm_current m) (rm_current m') /\
  published_by r (window_entry <$> mbind windows (markets_of r)) (rm_windows m) (rm_windows m') /\
  published_by r (rollup_entry <$> rollups_of r) (rm_rollups m) (rm_rollups m') /\
  rm_seq m' = (rm_seq m + 1)%Z /\
  forall k, states m' k = if decide (k = rm_seq m + 1)%Z then Some (end_state r) else orphaned <$> states m k.
Proof.
  intros Hseq. cbn zeta. unfold run_one, begin. rewrite decide_False by lia. cbv beta iota zeta.
  set (m0 := {| rm_versions := _; rm_seq := _; rm_current := _; rm_windows := _; rm_rollups := _ |}).
  assert (Hv : as_i64 (as_u64 (rm_seq m + 1)) = (rm_seq m + 1)%Z) by (apply as_i64_u64; lia).
  destruct (batches_tables (as_u64 (rm_seq m + 1)) r m0) as (Hc & Hw & Hr & Hs). rewrite Hv in Hc, Hw, Hr.
  assert (Hst0 : forall k, states m0 k = if decide (k = rm_seq m + 1)%Z then Some "staging" else orphaned <$> states m k).
  { intros k. unfold states, m0. cbn [rm_versions]. case_decide as Hk; [subst; by rewrite lookup_insert_eq|].
    rewrite lookup_insert_ne by congruence. apply states_orphan. }
  pose proof (fun k => batches_states (as_u64 (rm_seq m + 1)) r m0 k) as Hst.
  set (m1 := foldl (run_batch (as_u64 (rm_seq m + 1))) m0 (ru_batches r)) in *.
  change (rm_current m0) with (clear_staging (rm_current m)) in Hc. change (rm_windows m0) with (clear_staging (rm_windows m)) in Hw.
  change (rm_rollups m0) with (clear_staging (rm_rollups m)) in Hr. change (rm_seq m0) with (rm_seq m + 1)%Z in Hs. clearbody m1 m0.
  assert (Halter : forall f k, (forall row, vr_state (f row) = end_state r) ->
    vr_state <$> alter f (rm_seq m + 1)%Z (rm_versions m1) !! k = if decide (k = rm_seq m + 1)%Z then Some (end_state r) else orphaned <$> states m k).
  { intros f k Hf. pose proof (Hst k) as Hk. rewrite Hst0 in Hk. unfold states in Hk at 1. rewrite lookup_alter.
    destruct (decide (k = rm_seq m + 1)%Z) as [->|Hne].
    - rewrite decide_True by done. destruct (rm_versions m1 !! (rm_seq m + 1)%Z); [|done]. cbn. by rewrite Hf.
    - by rewrite decide_False by congruence. }
  destruct (ru_end r) as [source now|note|] eqn:Hend.
  - assert (Hp : publishes r = true) by (unfold publishes; by rewrite Hend).
    unfold publish. rewrite Hv. pose proof (Hst (rm_seq m + 1)%Z) as Hvst. rewrite Hst0, decide_True in Hvst by done. unfold states in Hvst.
    destruct (rm_versions m1 !! (rm_seq m + 1)%Z) as [row|] eqn:Hrow; [|done]. injection Hvst as Hrs. rewrite decide_True by done.
    cbn [rm_current rm_windows rm_rollups rm_seq]. rewrite Hc, Hw, Hr, Hs.
    split_and!; [by apply table_published..|done|]. intros k. unfold states. cbn [rm_versions]. apply Halter. intros row'. unfold end_state. by rewrite Hend.
  - assert (Hp : publishes r = false) by (unfold publishes; by rewrite Hend).
    unfold abandon. rewrite Hv. cbn [snd rm_current rm_windows rm_rollups rm_seq]. rewrite Hc, Hw, Hr, Hs.
    split_and!; [by apply table_published..|done|]. intros k. unfold states. cbn [rm_versions]. apply Halter. intros row'. unfold end_state. by rewrite Hend.
  - assert (Hp : publishes r = false) by (unfold publishes; by rewrite Hend).
    rewrite Hc, Hw, Hr, Hs. split_and!; [by apply table_published..|done|]. intros k. rewrite Hst, Hst0. unfold end_state. by rewrite Hend.
Qed.

(** ** Any number of runs *)
Fixpoint version_state (runs : list Run) (k : Z) : option string :=
  match runs with
  | [] => None
  | r :: earlier => if decide (k = Z.of_nat (length runs)) then Some (end_state r) else orphaned <$> version_state earlier k
  end.

Definition tables_agree {K I B} `{Countable K} (entries : Run -> list (K * I * B)) (runs : list Run) (t : TableOf K I B) : Prop :=
  forall k, r_body <$> published_rows t !! k = latest (fun r => last_entry (entries r) k) runs.

Lemma tables_agree_step {K I B} `{Countable K} (entries : Run -> list (K * I * B)) r runs (t t' : TableOf K I B) :
  tables_agree entries runs t -> published_by r (entries r) t t' -> tables_agree entries (r :: runs) t'.
Proof. intros Ht Hp k. rewrite Hp. cbn [latest]. by rewrite Ht. Qed.

Lemma run_all_spec runs :
  (Z.of_nat (length runs) <= Sqlite.i64_max)%Z ->
  let m := run_all runs in
  tables_agree (fun r => current_entry <$> markets_of r) runs (rm_current m) /\
  tables_agree (fun r => window_entry <$> mbind windows (markets_of r)) runs (rm_windows m) /\
  tables_agree (fun r => rollup_entry <$> rollups_of r) runs (rm_rollups m) /\
  rm_seq m = Z.of_nat (length runs) /\ forall k, states m k = version_state runs k.
Proof.
  induction runs as [|r runs IH]; intros Hlen; [by split_and!|]. cbn [length] in Hlen. destruct IH as (Hc & Hw & Hr & Hs & Hst); [lia|].
  cbn [run_all foldr]. fold (run_all runs). destruct (run_one_spec r (run_all runs)) as (Hc' & Hw' & Hr' & Hs' & Hst'); [lia|].
  split_and!; [by eapply tables_agree_step..|rewrite Hs'; cbn [length]; lia|].
  intros k. rewrite Hst', Hs. cbn [version_state length]. rewrite <- Hst.
  destruct (decide (k = Z.of_nat (length runs) + 1)%Z); [by rewrite decide_True by lia|by rewrite decide_False by lia].
Qed.

End Runs.

(** ** From rows to what was staged *)
Lemma filter_iff_on {A} (P Q : A -> Prop) `{forall x, Decision (P x)} `{forall x, Decision (Q x)} l :
  Forall (fun x => P x <-> Q x) l -> filter P l = filter Q l.
Proof.
  induction 1 as [|x l Hx _ IH]; [done|]. rewrite !filter_cons. destruct (decide (P x)), (decide (Q x)); [by rewrite IH|tauto|tauto|done].
Qed.

Lemma last_fmap {A B} (f : A -> B) (l : list A) : last (f <$> l) = f <$> last l.
Proof. induction l as [|x [|y l] IH]; [done|done|]. exact IH. Qed.

Lemma filter_fmap {A B} (f : A -> B) (P : B -> Prop) `{forall x, Decision (P x)} (l : list A) : filter P (f <$> l) = f <$> filter (fun x => P (f x)) l.
Proof. induction l as [|x l IH]; [done|]. rewrite fmap_cons, !filter_cons, IH. by case_decide. Qed.

(** The last entry of a key among entries made from a list. *)
Lemma last_entry_fmap {A K I B} `{Countable K} (e : A -> K * I * B) (Q : A -> Prop) `{forall x, Decision (Q x)} (l : list A) k :
  Forall (fun x => (e x).1.1 = k <-> Q x) l -> last_entry (e <$> l) k = (fun x => (e x).2) <$> last (filter Q l).
Proof.
  intros Hl. unfold last_entry. rewrite filter_fmap. rewrite (filter_iff_on _ Q); [|exact Hl].
  rewrite last_fmap. rewrite last_fmap. by destruct (last (filter Q l)).
Qed.

Lemma latest_ext {A} (p q : Run -> option A) runs : Forall (fun r => p r = q r) runs -> latest p runs = latest q runs.
Proof. induction 1 as [|r runs Hr _ IH]; [done|]. cbn. by rewrite Hr, IH. Qed.

Lemma latest_fmap {A B} (f : A -> B) (p : Run -> option A) runs : latest (fun r => f <$> p r) runs = f <$> latest p runs.
Proof. induction runs as [|r runs IH]; [done|]. cbn [latest]. rewrite IH. destruct (publishes r); [|done]. by destruct (p r). Qed.

Lemma latest_in {A} (p : Run -> option A) runs a : latest p runs = Some a -> exists r, r ∈ runs /\ p r = Some a.
Proof.
  induction runs as [|r runs IH]; [done|]. cbn. destruct (publishes r); [destruct (p r) as [b|] eqn:Hp|].
  - intros [= <-]. exists r. split; [by left|done].
  - intros Hl. destruct (IH Hl) as (r' & Hr' & Hp'). exists r'. split; [by right|done].
  - intros Hl. destruct (IH Hl) as (r' & Hr' & Hp'). exists r'. split; [by right|done].
Qed.

Lemma collect_all {A C} (f : A -> StoreResult C) (P : A -> C -> Prop) l :
  (forall x, x ∈ l -> exists y, f x = Ok y /\ P x y) -> exists ys, collect_results (f <$> l) = Ok ys /\ Forall2 P l ys.
Proof.
  induction l as [|x l IH]; intros Hl; [exists []; by split; [|constructor]|].
  destruct (Hl x) as (y & Hy & Hp); [by left|]. destruct IH as (ys & Hys & Hf); [intros z Hz; apply Hl; by right|].
  exists (y :: ys). cbn. rewrite Hy, Hys. split; [done|by constructor].
Qed.

(** Everything staged is made of machine words, its keys readable. *)
Definition run_fits (r : Run) : Prop :=
  Forall (fun x => state_fits (state x) /\ Forall window_fits (windows x)) (markets_of r) /\ Forall rollup_fits (rollups_of r).

Lemma key_text_inj k k' : key_wf k -> key_wf k' -> key_to_string k = key_to_string k' <-> k = k'.
Proof.
  intros Hk Hk'. split; [|by intros ->]. intros E. pose proof (from_str_to_string k Hk) as H. rewrite E, from_str_to_string in H by done. congruence.
Qed.

Lemma window_text_inj w w' :
  Window.parse (Window.key w) = Some w -> Window.parse (Window.key w') = Some w' -> Window.key w = Window.key w' <-> w = w'.
Proof. intros Hw Hw'. split; [|by intros ->]. intros E. rewrite E in Hw. congruence. Qed.

Lemma last_in {A} (P : A -> Prop) `{forall x, Decision (P x)} l x : last (filter P l) = Some x -> x ∈ l /\ P x.
Proof. intros Hl. apply last_Some_elem_of in Hl. apply list_elem_of_filter in Hl as [? ?]. done. Qed.

Section Agreement.

Context `{JP : Json (list StoredPoint), JC : Json (list StoredCycle), JL : Json (list StoredLevel), JM : Json (list StoredModifier)}.
Context `{!JsonLaws (list StoredPoint), !JsonLaws (list StoredCycle), !JsonLaws (list StoredLevel), !JsonLaws (list StoredModifier)}.
Context (runs : list Run) (Hlen : (Z.of_nat (length runs) <= Sqlite.i64_max)%Z) (Hfit : Forall run_fits runs).

Lemma windows_fit r : r ∈ runs -> Forall window_fits (mbind windows (markets_of r)).
Proof.
  intros Hr. destruct (proj1 (Forall_forall _ _) Hfit r Hr) as [Hm _]. apply Forall_forall.
  intros w (x & Hw & Hx)%list_elem_of_bind. destruct (proj1 (Forall_forall _ _) Hm x Hx) as [_ Hws]. by apply (proj1 (Forall_forall _ _) Hws).
Qed.

Lemma state_row_latest key :
  key_wf key -> r_body <$> published_rows (rm_current (run_all runs)) !! key_to_string key = current_row <$> latest (staged_state key) runs.
Proof.
  intros Hk. destruct (run_all_spec runs Hlen) as (Hc & _). rewrite Hc, <- latest_fmap. apply latest_ext.
  apply (Forall_impl _ _ _ Hfit). intros r [Hm _]. unfold staged_state.
  rewrite (last_entry_fmap current_entry (fun x => ms_key (state x) = key)).
  - rewrite filter_fmap, last_fmap. by destruct (last _).
  - apply (Forall_impl _ _ _ Hm). intros x [Hs _]. cbn. apply key_text_inj; [apply Hs|done].
Qed.

Lemma window_row_latest key window :
  key_wf key -> Window.parse (Window.key window) = Some window ->
  r_body <$> published_rows (rm_windows (run_all runs)) !! (key_to_string key, Window.key window) =
  window_row <$> latest (staged_window key window) runs.
Proof.
  intros Hk Hw. destruct (run_all_spec runs Hlen) as (_ & Hc & _). rewrite Hc, <- latest_fmap. apply latest_ext. rewrite Forall_forall.
  intros r Hr. unfold staged_window. rewrite (last_entry_fmap window_entry (fun w => mw_key w = key /\ mw_window w = window)).
  - by destruct (last _).
  - apply (Forall_impl _ _ _ (windows_fit r Hr)). intros w Hf. cbn. split.
    + intros [= H1 H2]. split; [apply key_text_inj; [apply Hf|done|done]|apply window_text_inj; [apply Hf|done|done]].
    + by intros [-> ->].
Qed.

Lemma rollup_row_latest k : r_body <$> published_rows (rm_rollups (run_all runs)) !! k = rollup_row <$> latest (staged_rollup k) runs.
Proof.
  destruct (run_all_spec runs Hlen) as (_ & _ & Hc & _). rewrite Hc, <- latest_fmap. apply latest_ext. rewrite Forall_forall.
  intros r Hr. unfold staged_rollup. rewrite (last_entry_fmap rollup_entry (fun x => rollup_key x = k)); [by destruct (last _)|].
  by apply Forall_true.
Qed.

Lemma market_latest key : key_wf key -> market key (run_all runs) = Ok (stored_state <$> latest (staged_state key) runs).
Proof.
  intros Hk. pose proof (state_row_latest key Hk) as Hrow. unfold market.
  destruct (published_rows (rm_current (run_all runs)) !! key_to_string key) as [row|]; destruct (latest (staged_state key) runs) as [s|] eqn:Hl; try done.
  cbn in Hrow. injection Hrow as ->. destruct (latest_in _ _ _ Hl) as (r & Hr & Hs). unfold staged_state in Hs. apply last_in in Hs as [Hs _].
  apply list_elem_of_fmap in Hs as (x & -> & Hx). destruct (proj1 (Forall_forall _ _) Hfit r Hr) as [Hm _].
  by rewrite state_back by apply (proj1 (Forall_forall _ _) Hm x Hx).
Qed.

(** Every published row was made from something staged. *)
Lemma last_entry_in {A K I B} `{Countable K} (e : A -> K * I * B) (l : list A) k b :
  last_entry (e <$> l) k = Some b -> exists x, x ∈ l /\ (e x).1.1 = k /\ b = (e x).2.
Proof.
  unfold last_entry. rewrite last_fmap. intros (y & Hy & ->)%fmap_Some. apply last_in in Hy as [Hy Hk].
  apply list_elem_of_fmap in Hy as (x & -> & Hx). eauto.
Qed.

Lemma window_rows_made k row :
  published_rows (rm_windows (run_all runs)) !! k = Some row ->
  exists w, window_fits w /\ k = (key_to_string (mw_key w), Window.key (mw_window w)) /\ r_body row = window_row w.
Proof.
  intros Hrow. destruct (run_all_spec runs Hlen) as (_ & Hc & _). specialize (Hc k). rewrite Hrow in Hc. symmetry in Hc.
  apply latest_in in Hc as (r & Hr & Hl). apply last_entry_in in Hl as (w & Hw & <- & Hb). exists w. split_and!; [|done|done].
  by apply (proj1 (Forall_forall _ _) (windows_fit r Hr)).
Qed.

Lemma rollup_rows_made k row :
  published_rows (rm_rollups (run_all runs)) !! k = Some row -> exists x, rollup_fits x /\ k = rollup_key x /\ r_body row = rollup_row x.
Proof.
  intros Hrow. destruct (run_all_spec runs Hlen) as (_ & _ & Hc & _). specialize (Hc k). rewrite Hrow in Hc. symmetry in Hc.
  apply latest_in in Hc as (r & Hr & Hl). apply last_entry_in in Hl as (x & Hx & <- & Hb). exists x. split_and!; [|done|done].
  by apply (proj1 (Forall_forall _ _) (proj2 (proj1 (Forall_forall _ _) Hfit r Hr))).
Qed.

(** Reading a sorted selection of rows: every one reads, in some order. *)
Lemma select_all {K I B C} `{Countable K} (f : B -> StoreResult C) (cmp : K * RowOf I B -> K * RowOf I B -> comparison) (P : K * RowOf I B -> Prop)
    `{forall x, Decision (P x)} (rows : gmap K (RowOf I B)) :
  (forall k row, rows !! k = Some row -> P (k, row) -> exists y, f (r_body row) = Ok y) ->
  exists ys, collect_results ((fun kv => f (r_body kv.2)) <$> sort_by cmp (filter P (map_to_list rows))) = Ok ys /\
    forall y, y ∈ ys <-> exists k row, rows !! k = Some row /\ P (k, row) /\ f (r_body row) = Ok y.
Proof.
  intros Hok. destruct (collect_all (fun kv : K * RowOf I B => f (r_body kv.2)) (fun kv y => f (r_body kv.2) = Ok y) (sort_by cmp (filter P (map_to_list rows))))
    as (ys & Hys & Hf).
  - intros [k row] Hin. rewrite sort_by_perm in Hin. apply list_elem_of_filter in Hin as [Hp Hin]. apply elem_of_map_to_list in Hin.
    destruct (Hok k row Hin Hp) as (y & Hy). eauto.
  - exists ys. split; [done|]. intros y. split.
    + intros Hy. apply list_elem_of_lookup in Hy as (i & Hi). destruct (Forall2_lookup_r _ _ _ _ _ Hf Hi) as ([k row] & Hk & Hfy).
      exists k, row. assert (Hin : (k, row) ∈ sort_by cmp (filter P (map_to_list rows))) by (by eapply list_elem_of_lookup_2).
      rewrite sort_by_perm in Hin. apply list_elem_of_filter in Hin as [Hp Hin]. apply elem_of_map_to_list in Hin. done.
    + intros (k & row & Hrow & Hp & Hfy). assert (Hin : (k, row) ∈ sort_by cmp (filter P (map_to_list rows))).
      { rewrite sort_by_perm. apply list_elem_of_filter. split; [done|]. by apply elem_of_map_to_list. }
      apply list_elem_of_lookup in Hin as (i & Hi). destruct (Forall2_lookup_l _ _ _ _ _ Hf Hi) as (y' & Hy' & Hfy').
      cbn in Hfy'. assert (y' = y) as -> by congruence. by eapply list_elem_of_lookup_2.
Qed.

Lemma windows_latest key :
  key_wf key -> exists ws, windows_of key (run_all runs) = Ok ws /\
    forall x, x ∈ ws <-> exists window w, latest (staged_window key window) runs = Some w /\ x = stored_window true w.
Proof.
  intros Hk. unfold windows_of.
  destruct (select_all (window_from_row true) (fun a b => String.compare a.1.2 b.1.2) (fun kv => kv.1.1 = key_to_string key)
    (published_rows (rm_windows (run_all runs)))) as (ws & Hws & Hin).
  - intros k row Hrow _. destruct (window_rows_made k row Hrow) as (w & Hw & _ & ->). rewrite window_back by done. by eexists.
  - exists ws. split; [exact Hws|]. intros x. rewrite Hin. split.
    + intros (k & row & Hrow & Hkey & Hx). destruct (window_rows_made k row Hrow) as (w & Hw & -> & Hb). cbn in Hkey.
      assert (mw_key w = key) as Hwk by (apply key_text_inj; [apply Hw|done|done]). destruct Hw as (Hkw & Hpw & Hrest).
      pose proof (window_row_latest key (mw_window w) Hk Hpw) as Hl. rewrite <- Hwk in Hl at 1. rewrite Hrow in Hl. cbn in Hl. symmetry in Hl.
      apply fmap_Some in Hl as (w' & Hl & Hrw). exists (mw_window w), w'. split; [done|].
      assert (Hw' : window_fits w').
      { destruct (latest_in _ _ _ Hl) as (r & Hr & Hs). apply last_in in Hs as [Hs _]. by apply (proj1 (Forall_forall _ _) (windows_fit r Hr)). }
      rewrite Hrw, window_back in Hx by done. congruence.
    + intros (window & w & Hl & ->). destruct (latest_in _ _ _ Hl) as (r & Hr & Hs). apply last_in in Hs as [Hs [Hwk Hww]].
      pose proof (proj1 (Forall_forall _ _) (windows_fit r Hr) w Hs) as Hw.
      assert (Hpw : Window.parse (Window.key window) = Some window) by (rewrite <- Hww; apply Hw).
      pose proof (window_row_latest key window Hk Hpw) as Hrow. rewrite Hl in Hrow. apply fmap_Some in Hrow as (row & Hrow & Hb).
      exists (key_to_string key, Window.key window), row. split_and!; [done|done|]. rewrite <- Hb. by apply window_back.
Qed.

Lemma deal_rollups_latest region :
  exists l, deal_rollups region (run_all runs) = Ok l /\
    forall x, x ∈ l <-> exists k y, k.1.1.1 = Region_as_str region /\ latest (staged_rollup k) runs = Some y /\ x = stored_rollup y.
Proof.
  unfold deal_rollups, rollup_rows.
  destruct (select_all rollup_from_row (fun a b => rollup_cmp a.1 b.1)
    (fun kv : RollupKey * RowOf unit RollupRow => (let '(r, _, _, _) := kv.1 in bool_decide (r = Region_as_str region)) = true)
    (published_rows (rm_rollups (run_all runs)))) as (l & Hl & Hin).
  - intros k row Hrow _. destruct (rollup_rows_made k row Hrow) as (x & Hx & _ & ->). rewrite rollup_back by done. by eexists.
  - exists l. split; [exact Hl|]. intros x. rewrite Hin. split.
    + intros ([[[rg i] t] rm] & row & Hrow & Hreg & Hx). cbn in Hreg. apply bool_decide_eq_true in Hreg.
      pose proof (rollup_row_latest ((rg, i, t, rm) : RollupKey)) as Hla. rewrite Hrow in Hla. cbn in Hla. symmetry in Hla.
      apply fmap_Some in Hla as (y & Hy & Hb). exists (rg, i, t, rm), y. split_and!; [done|done|].
      destruct (latest_in _ _ _ Hy) as (r & Hr & Hs). apply last_in in Hs as [Hs _].
      pose proof (proj1 (Forall_forall _ _) (proj2 (proj1 (Forall_forall _ _) Hfit r Hr)) y Hs) as Hyf.
      rewrite Hb, rollup_back in Hx by done. congruence.
    + intros ([[[rg i] t] rm] & y & Hreg & Hy & ->). pose proof (rollup_row_latest ((rg, i, t, rm) : RollupKey)) as Hla. rewrite Hy in Hla.
      apply fmap_Some in Hla as (row & Hrow & Hb). exists (rg, i, t, rm), row. split_and!; [done|by apply bool_decide_eq_true|].
      destruct (latest_in _ _ _ Hy) as (r & Hr & Hs). apply last_in in Hs as [Hs _].
      pose proof (proj1 (Forall_forall _ _) (proj2 (proj1 (Forall_forall _ _) Hfit r Hr)) y Hs) as Hyf.
      rewrite <- Hb. by apply rollup_back.
Qed.

End Agreement.

(** ** Which version is published *)
Fixpoint latest_version (runs : list Run) : option nat :=
  match runs with
  | [] => None
  | r :: earlier => if publishes r then Some (length runs) else latest_version earlier
  end.

Lemma orphaned_published s : orphaned s = "published" <-> s = "published".
Proof. unfold orphaned. case_decide as Hs; [|done]. subst. split; done. Qed.

Lemma end_state_published r : end_state r = "published" <-> publishes r = true.
Proof. unfold end_state, publishes. by destruct (ru_end r). Qed.

Lemma version_state_bound runs k s : version_state runs k = Some s -> (1 <= k <= Z.of_nat (length runs))%Z.
Proof.
  revert s. induction runs as [|r runs IH]; intros s; [done|]. cbn [version_state]. case_decide as Hk; [intros _; cbn [length] in *; lia|].
  intros (s' & Hs & _)%fmap_Some. apply IH in Hs. cbn [length] in *. lia.
Qed.

Lemma latest_version_spec runs :
  match latest_version runs with
  | None => forall k, version_state runs k <> Some "published"
  | Some n => version_state runs (Z.of_nat n) = Some "published" /\ forall k, version_state runs k = Some "published" -> (k <= Z.of_nat n)%Z
  end.
Proof.
  induction runs as [|r runs IH]; [done|]. cbn [latest_version version_state]. destruct (publishes r) eqn:Hp.
  - rewrite decide_True by done. apply end_state_published in Hp. rewrite Hp. split; [done|].
    intros k. case_decide as Hk; [lia|]. intros (s & Hs & _)%fmap_Some. apply version_state_bound in Hs. cbn [length]. lia.
  - assert (He : end_state r <> "published") by (rewrite end_state_published; congruence).
    assert (Hk : forall k, (if decide (k = Z.of_nat (length (r :: runs))) then Some (end_state r) else orphaned <$> version_state runs k) = Some "published" <->
      version_state runs k = Some "published").
    { intros k. case_decide as Hk.
      - split; [congruence|]. intros Hs. apply version_state_bound in Hs. cbn [length] in Hk. lia.
      - destruct (version_state runs k) as [s|]; [|done]. cbn. split; intros Hs; f_equal; apply orphaned_published; congruence. }
    destruct (latest_version runs) as [n|]; [split; [apply Hk, IH|intros k Hs; by apply IH, Hk]|intros k Hs; apply Hk in Hs; by apply (IH k)].
Qed.

Lemma newest_first_head l x : head (newest_first l) = Some x -> x ∈ l /\ forall y, y ∈ l -> (y.1 <= x.1)%Z.
Proof.
  unfold newest_first. intros Hh.
  pose proof (sort_by_sorted (fun a b : Z * VersionRow => Z.compare b.1 a.1) (fun a b => (b.1 <= a.1)%Z) l) as Hs.
  pose proof (sort_by_perm (fun a b : Z * VersionRow => Z.compare b.1 a.1) l) as Hp.
  destruct (sort_by _ l) as [|z k]; [done|]. injection Hh as ->. split; [rewrite <- Hp; by left|]. intros y Hy. rewrite <- Hp in Hy.
  apply elem_of_cons in Hy as [->|Hy]; [lia|].
  assert (Hss : StronglySorted (fun a b : Z * VersionRow => (b.1 <= a.1)%Z) (x :: k)).
  { apply Hs; [intros a b; by rewrite Z.compare_antisym|intros a b Hc; by apply Z.compare_le_iff in Hc|intros a b c; lia]. }
  inversion_clear Hss as [|? ? _ Hall]. by apply (proj1 (Forall_forall _ _) Hall).
Qed.

Section Versions.

Context `{JP : Json (list StoredPoint), JC : Json (list StoredCycle), JL : Json (list StoredLevel), JM : Json (list StoredModifier)}.

Lemma published_latest runs :
  (Z.of_nat (length runs) <= Sqlite.i64_max)%Z ->
  match latest_version runs with
  | None => published (run_all runs) = Ok None
  | Some n => exists x, published (run_all runs) = Ok (Some x) /\ av_version x = N.of_nat n /\ av_state x = VersionState.Published
  end.
Proof.
  intros Hlen. destruct (run_all_spec runs Hlen) as (_ & _ & _ & _ & Hst). pose proof (latest_version_spec runs) as Hl. unfold published.
  destruct (head _) as [[v row]|] eqn:Hh.
  - apply newest_first_head in Hh as [Hin Hmax]. apply list_elem_of_filter in Hin as [Hrow Hin]. apply elem_of_map_to_list in Hin. cbn in Hrow.
    assert (Hv : version_state runs v = Some "published") by (rewrite <- Hst; unfold states; rewrite Hin; cbn; by f_equal).
    destruct (latest_version runs) as [n|]; [|by destruct (Hl v)]. destruct Hl as [Hn Hle].
    assert (v = Z.of_nat n) as ->.
    { apply Z.le_antisymm; [by apply Hle|]. rewrite <- Hst in Hn. unfold states in Hn. apply fmap_Some in Hn as (row' & Hr' & Hs').
      apply (Hmax (Z.of_nat n, row')). apply list_elem_of_filter. split; [done|]. by apply elem_of_map_to_list. }
    unfold version_from_row. rewrite Hrow. cbn [ok_or]. eexists. split; [done|]. cbn [av_version av_state]. split; [|done].
    apply version_state_bound in Hv. unfold as_u64. unfold Sqlite.i64_max in Hlen. rewrite Z.mod_small by lia. lia.
  - destruct (latest_version runs) as [n|]; [|done]. destruct Hl as [Hn _]. rewrite <- Hst in Hn. unfold states in Hn.
    apply fmap_Some in Hn as (row & Hrow & Hs). unfold newest_first in Hh.
    assert (Hin : (Z.of_nat n, row) ∈ filter (fun kv : Z * VersionRow => vr_state kv.2 = "published") (map_to_list (rm_versions (run_all runs)))).
    { apply list_elem_of_filter. split; [done|]. by apply elem_of_map_to_list. }
    rewrite <- (sort_by_perm (fun a b : Z * VersionRow => Z.compare b.1 a.1)) in Hin. destruct (sort_by _ _); [by apply not_elem_of_nil in Hin|done].
Qed.

End Versions.

(** C13: Whatever runs there were, one after the other, published, given up or cut short at any
    point: a page reads, of every market, every window and every roll-up, exactly what the
    newest run that published and spoke of it staged last, and nothing of a run that did
    not publish; a market the newest publication is silent on keeps what it had.  The
    version a page names is that of the newest run that published. *)
Theorem read_model_refines
    `{JP : Json (list StoredPoint), JC : Json (list StoredCycle), JL : Json (list StoredLevel), JM : Json (list StoredModifier)}
    `{!JsonLaws (list StoredPoint), !JsonLaws (list StoredCycle), !JsonLaws (list StoredLevel), !JsonLaws (list StoredModifier)} runs :
  (Z.of_nat (length runs) <= Sqlite.i64_max)%Z -> Forall run_fits runs ->
  (forall key, key_wf key ->
     market key (run_all runs) = Ok (stored_state <$> latest (staged_state key) runs) /\
     exists ws, windows_of key (run_all runs) = Ok ws /\
       forall x, x ∈ ws <-> exists window w, latest (staged_window key window) runs = Some w /\ x = stored_window true w) /\
  (forall region, exists l, deal_rollups region (run_all runs) = Ok l /\
     forall x, x ∈ l <-> exists k y, k.1.1.1 = Region_as_str region /\ latest (staged_rollup k) runs = Some y /\ x = stored_rollup y) /\
  match latest_version runs with
  | None => published (run_all runs) = Ok None
  | Some n => exists x, published (run_all runs) = Ok (Some x) /\ av_version x = N.of_nat n /\ av_state x = VersionState.Published
  end.
Proof.
  intros Hlen Hfit. split_and!.
  - intros key Hk. split; [by apply market_latest|by apply windows_latest].
  - intros region. by apply deal_rollups_latest.
  - by apply published_latest.
Qed.

(** ** A serialiser for the examples *)
Definition coded_json {T C} `{Countable C} (code : T -> C) (uncode : C -> T) : Json T :=
  {| to_json x := digits (encode (code x)); from_json s := uncode <$> decode (undigits s) |}.
Lemma coded_json_laws {T C} `{Countable C} (code : T -> C) (uncode : C -> T) :
  (forall x, uncode (code x) = x) -> @JsonLaws T (coded_json code uncode).
Proof. intros Hc x. cbn. rewrite undigits_digits, decode_encode. cbn. by rewrite Hc. Qed.

Definition listed_json {T C} `{Countable C} (code : T -> C) (uncode : C -> T) : Json (list T) := coded_json (fmap code) (fmap uncode).
Lemma listed_json_laws {T C} `{Countable C} (code : T -> C) (uncode : C -> T) :
  (forall x, uncode (code x) = x) -> @JsonLaws (list T) (listed_json code uncode).
Proof.
  intros Hc. apply coded_json_laws. intros l. rewrite <- list_fmap_compose. rewrite <- (list_fmap_id l) at 2. apply list_fmap_ext.
  intros _ x _. apply Hc.
Qed.

Definition demo_points : Json (list StoredPoint) :=
  listed_json (fun p => (sp_at p, sp_price p, sp_quantity p)) (fun c => {| sp_at := c.1.1; sp_price := c.1.2; sp_quantity := c.2 |}).
Definition demo_cycles : Json (list StoredCycle) :=
  listed_json (fun p => (sc_bucket p, sc_mean p, sc_samples p)) (fun c => {| sc_bucket := c.1.1; sc_mean := c.1.2; sc_samples := c.2 |}).
Definition demo_levels : Json (list StoredLevel) :=
  listed_json (fun p => (sl_item_level p, sl_upgrade p, sl_cheapest p, sl_highest p, sl_listings p, sl_realms p))
    (fun c => {| sl_item_level := c.1.1.1.1.1; sl_upgrade := c.1.1.1.1.2; sl_cheapest := c.1.1.1.2; sl_highest := c.1.1.2; sl_listings := c.1.2;
                 sl_realms := c.2 |}).
Definition demo_modifiers : Json (list StoredModifier) :=
  listed_json (fun p => (sm_name p, sm_now p, sm_seen p)) (fun c => {| sm_name := c.1.1; sm_now := c.1.2; sm_seen := c.2 |}).

Lemma demo_points_laws : @JsonLaws _ demo_points.
Proof. apply listed_json_laws. by intros []. Qed.
Lemma demo_cycles_laws : @JsonLaws _ demo_cycles.
Proof. apply listed_json_laws. by intros []. Qed.
Lemma demo_levels_laws : @JsonLaws _ demo_levels.
Proof. apply listed_json_laws. by intros []. Qed.
Lemma demo_modifiers_laws : @JsonLaws _ demo_modifiers.
Proof. apply listed_json_laws. by intros []. Qed.

(** Two markets published, then one of them staged again by a run that gave up, and by one
    that was cut short. *)
Definition demo_key : MarketKey := Commodity Eu 212265 3.
Definition demo_market (key : MarketKey) (price : Copper) : Materialised :=
  let e := MarketState_empty key in
  {| state := {| ms_key := key; ms_observed_at := Some 7; ms_price := price; ms_min_price := price; ms_median_price := price; ms_quantity := 1;
                 ms_listings := 1; ms_first_seen := Some 7; ms_samples := 1; ms_mean := price; ms_median := price; ms_low := price; ms_low_at := 7;
                 ms_high := price; ms_high_at := 7; ms_volatility_percent := 0; ms_day := ms_day e; ms_week := ms_week e; ms_month := ms_month e;
                 ms_by_hour := []; ms_by_weekday := []; ms_best_hour := None; ms_best_weekday := None;
                 ms_series := [{| pt_at := 7; pt_price := price; pt_quantity := 1 |}]; ms_ladder := ms_ladder e; ms_depth := None;
                 ms_heatmap := ms_heatmap e; ms_stock_association := None; ms_swings := ms_swings e; ms_stability := None |};
     windows := [] |}.
Definition demo_runs : list Run :=
  [{| ru_algorithm := 2; ru_now := 30; ru_batches := [Markets [demo_market demo_key 999]]; ru_end := CutShort |};
   {| ru_algorithm := 2; ru_now := 20; ru_batches := [Markets [demo_market demo_key 500]]; ru_end := Abandons "no" |};
   {| ru_algorithm := 2; ru_now := 10; ru_batches := [Markets [demo_market demo_key 100]; Markets [demo_market (Recipe Eu 1 2) 5]];
      ru_end := Publishes (Some 7, Some 7) 11 |}].

Lemma demo_runs_fit : Forall run_fits demo_runs.
Proof.
  assert (Hm : forall key price, key_wf key -> price < 2 ^ 32 -> state_fits (state (demo_market key price))).
  { intros key price Hk Hp. assert (price < 2 ^ 64) by lia. unfold state_fits, held, trend_fits, fits64, fits32, fits8, fits_i32. cbn.
    split_and!; try done; try (repeat constructor; done); try (intros ? [= <-]; lia). }
  repeat (constructor; [split; [|constructor]; repeat (constructor; [split; [apply Hm; [vm_compute; intuition congruence|lia]|constructor]|]); constructor|]).
  constructor.
Qed.

Lemma read_model_refines_witness :
  let _ := demo_points in let _ := demo_cycles in let _ := demo_levels in let _ := demo_modifiers in
  market demo_key (run_all demo_runs) = Ok (stored_state <$> latest (staged_state demo_key) demo_runs) /\
  ms_price <$> latest (staged_state demo_key) demo_runs = Some 100.
Proof.
  cbn zeta. split; [|vm_compute; reflexivity].
  destruct (@read_model_refines demo_points demo_cycles demo_levels demo_modifiers demo_points_laws demo_cycles_laws demo_levels_laws
    demo_modifiers_laws demo_runs) as (Hm & _).
  - vm_compute. discriminate.
  - exact demo_runs_fit.
  - apply Hm. vm_compute. intuition congruence.
Defined.
