(* ===== verification/Metrics.v ===== *)
(** * Metrics: what is counted about requests

    Models [crates/app-core/src/metrics.rs], the [layer] of
    [crates/app-web/src/metrics.rs] and the accounting of [crates/app-core/src/timing.rs].

    The counters are atomics touched by many requests at once.  [metrics_step] takes one
    atomic action at a time, each request being at some [Phase] of [started] and
    [finished]; the compare-and-exchange of the high-water mark may fail for no reason.  A
    request whose connection goes away is dropped where it waits.  What really happened is
    kept beside the counters, in fields the program does not have: how many arrived and
    were dropped, the largest number at once, what finished. *)
From Stdlib Require Import Ascii.
From stdpp Require Import prelude gmap strings pretty relations.
From S2P Require Import Prelude Text.

Record Metrics := {
  requests_total : N; responses_client_error : N; responses_server_error : N; latency_micros_total : N; in_flight : N; peak_in_flight : N }.
Definition Metrics_new : Metrics :=
  {| requests_total := 0; responses_client_error := 0; responses_server_error := 0; latency_micros_total := 0; in_flight := 0; peak_in_flight := 0 |}.

Definition fetch_add (n by_ : N) : N := wrap 64 (n + by_).
Definition fetch_sub (n by_ : N) : N := wrap 64 (n + 2 ^ 64 - by_).

Definition set_in_flight (n : N) (m : Metrics) : Metrics :=
  {| requests_total := requests_total m; responses_client_error := responses_client_error m; responses_server_error := responses_server_error m;
     latency_micros_total := latency_micros_total m; in_flight := n; peak_in_flight := peak_in_flight m |}.
Definition set_peak (n : N) (m : Metrics) : Metrics :=
  {| requests_total := requests_total m; responses_client_error := responses_client_error m; responses_server_error := responses_server_error m;
     latency_micros_total := latency_micros_total m; in_flight := in_flight m; peak_in_flight := n |}.
Definition add_request (m : Metrics) : Metrics :=
  {| requests_total := fetch_add (requests_total m) 1; responses_client_error := responses_client_error m;
     responses_server_error := responses_server_error m; latency_micros_total := latency_micros_total m; in_flight := in_flight m;
     peak_in_flight := peak_in_flight m |}.
Definition add_latency (micros : N) (m : Metrics) : Metrics :=
  {| requests_total := requests_total m; responses_client_error := responses_client_error m; responses_server_error := responses_server_error m;
     latency_micros_total := fetch_add (latency_micros_total m) micros; in_flight := in_flight m; peak_in_flight := peak_in_flight m |}.
Definition add_status (status : N) (m : Metrics) : Metrics :=
  {| requests_total := requests_total m;
     responses_client_error := if decide (400 <= status <= 499) then fetch_add (responses_client_error m) 1 else responses_client_error m;
     responses_server_error := if decide (500 <= status <= 599) then fetch_add (responses_server_error m) 1 else responses_server_error m;
     latency_micros_total := latency_micros_total m; in_flight := in_flight m; peak_in_flight := peak_in_flight m |}.

(** Where a request is: in [started], served, or in [finished]. *)
Inductive Phase :=
| Loading (now : N)
| Looping (now peak : N)
| Serving
| Counted (status micros : N)
| Timed (status micros : N)
| Classed (status : N).

(** Which of them hold a slot of [in_flight]. *)
Definition holds (p : Phase) : bool := match p with Loading _ | Looping _ _ | Serving => true | _ => false end.

Record Server := {
  metrics : Metrics; requests : gmap N Phase; arrived : N; dropped : N; most : N; served : list (N * N) }.
Definition Server_new : Server := {| metrics := Metrics_new; requests := ∅; arrived := 0; dropped := 0; most := 0; served := [] |}.

Definition move (s : Server) (r : N) (p : Phase) (m : Metrics) : Server :=
  {| metrics := m; requests := <[r := p]> (requests s); arrived := arrived s; dropped := dropped s; most := most s; served := served s |}.

Definition leave (s : Server) (r : N) (m : Metrics) (gone : N) : Server :=
  {| metrics := m; requests := delete r (requests s); arrived := arrived s; dropped := dropped s + gone; most := most s; served := served s |}.

Inductive metrics_step : Server -> Server -> Prop :=
| arrives s r : requests s !! r = None ->
    metrics_step s {| metrics := set_in_flight (fetch_add (in_flight (metrics s)) 1) (metrics s);
                      requests := <[r := Loading (wrap 64 (in_flight (metrics s) + 1))]> (requests s); arrived := arrived s + 1;
                      dropped := dropped s; most := N.max (most s) (fetch_add (in_flight (metrics s)) 1); served := served s |}
| loads s r now : requests s !! r = Some (Loading now) ->
    metrics_step s (move s r (Looping now (peak_in_flight (metrics s))) (metrics s))
| raises s r now : requests s !! r = Some (Looping now (peak_in_flight (metrics s))) -> peak_in_flight (metrics s) < now ->
    metrics_step s (move s r Serving (set_peak now (metrics s)))
| retries s r now peak : requests s !! r = Some (Looping now peak) -> peak < now ->
    metrics_step s (move s r (Looping now (peak_in_flight (metrics s))) (metrics s))
| settles s r now peak : requests s !! r = Some (Looping now peak) -> now <= peak ->
    metrics_step s (move s r Serving (metrics s))
| answers s r status micros : requests s !! r = Some Serving ->
    metrics_step s (move s r (Counted status micros) (set_in_flight (fetch_sub (in_flight (metrics s)) 1) (metrics s)))
| counts s r status micros : requests s !! r = Some (Counted status micros) ->
    metrics_step s {| metrics := add_request (metrics s); requests := <[r := Timed status micros]> (requests s); arrived := arrived s;
                      dropped := dropped s; most := most s; served := served s ++ [(status, micros)] |}
| times s r status micros : requests s !! r = Some (Timed status micros) ->
    metrics_step s (move s r (Classed status) (add_latency micros (metrics s)))
| classes s r status : requests s !! r = Some (Classed status) ->
    metrics_step s (leave s r (add_status status (metrics s)) 0)
(** A stream's response was handed over. *)
| connection_closed s r : requests s !! r = Some Serving ->
    metrics_step s (leave s r (set_in_flight (fetch_sub (in_flight (metrics s)) 1) (metrics s)) 0)
(** The connection went away while the handler ran. *)
| abandoned s r : requests s !! r = Some Serving -> metrics_step s (leave s r (metrics s) 1).

Record MetricsSnapshot := {
  sn_requests_total : N; sn_client_errors : N; sn_server_errors : N; sn_mean_latency_micros : N; sn_in_flight : N; sn_peak_in_flight : N }.

Definition snapshot (m : Metrics) : MetricsSnapshot :=
  {| sn_requests_total := requests_total m; sn_client_errors := responses_client_error m; sn_server_errors := responses_server_error m;
     sn_mean_latency_micros := if decide (requests_total m = 0) then 0 else latency_micros_total m / requests_total m;
     sn_in_flight := in_flight m; sn_peak_in_flight := peak_in_flight m |}.

(** ** The accounting of one request *)
Module Stage.
Inductive t := Db | Cache | Analysis | Template.
#[global] Instance eq_dec : EqDecision t.
Proof. solve_decision. Defined.
Definition key (self : t) : string := match self with Db => "db" | Cache => "cache" | Analysis => "calc" | Template => "tpl" end.
Definition ALL : list t := [Db; Cache; Analysis; Template].
End Stage.

Record DatabaseWork := { statements : N; rows : N; micros : N }.

Definition observe (took decoded : N) (d : DatabaseWork) : DatabaseWork :=
  {| statements := fetch_add (statements d) 1; rows := fetch_add (rows d) decoded; micros := fetch_add (micros d) took |}.

Definition since (self earlier : DatabaseWork) : DatabaseWork :=
  {| statements := statements self - statements earlier; rows := rows self - rows earlier; micros := micros self - micros earlier |}.

Record Timings := { db_micros : N; cache_micros : N; analysis_micros : N; template_micros : N; tm_queries : N; tm_rows : N }.
Definition Timings_new : Timings :=
  {| db_micros := 0; cache_micros := 0; analysis_micros := 0; template_micros := 0; tm_queries := 0; tm_rows := 0 |}.

Definition slot (self : Timings) (stage : Stage.t) : N :=
  match stage with
  | Stage.Db => db_micros self | Stage.Cache => cache_micros self | Stage.Analysis => analysis_micros self | Stage.Template => template_micros self
  end.

Definition record_ (stage : Stage.t) (took : N) (self : Timings) : Timings :=
  let add (s : Stage.t) (n : N) := if decide (s = stage) then fetch_add n took else n in
  {| db_micros := add Stage.Db (db_micros self); cache_micros := add Stage.Cache (cache_micros self);
     analysis_micros := add Stage.Analysis (analysis_micros self); template_micros := add Stage.Template (template_micros self);
     tm_queries := tm_queries self; tm_rows := tm_rows self |}.

Definition absorb (d : DatabaseWork) (self : Timings) : Timings :=
  {| db_micros := fetch_add (db_micros self) (micros d); cache_micros := cache_micros self; analysis_micros := analysis_micros self;
     template_micros := template_micros self; tm_queries := fetch_add (tm_queries self) (statements d); tm_rows := fetch_add (tm_rows self) (rows d) |}.

(** [{:03}]. *)
Definition pad3 (n : N) : string := (if decide (n < 10) then "00" else if decide (n < 100) then "0" else "") +:+ pretty n.

Definition format_millis (n : N) : string := pretty (n / 1000) +:+ "." +:+ pad3 (n mod 1000).

Definition separate (out : string) : string := match out with EmptyString => "" | _ => out +:+ ", " end.
Definition push_metric (out key : string) (n : N) : string := separate out +:+ key +:+ ";dur=" +:+ format_millis n.
Definition quote_mark : string := String (ascii_of_N 34) EmptyString.
Definition push_count (out key : string) (n : N) : string := separate out +:+ key +:+ ";desc=" +:+ quote_mark +:+ pretty n +:+ quote_mark.

Definition header (self : Timings) (total_micros : N) : string :=
  let out := foldl (fun out stage => push_metric out (Stage.key stage) (slot self stage)) "" Stage.ALL in
  let out := push_count out "q" (tm_queries self) in
  let out := push_count out "rows" (tm_rows self) in
  push_metric out "total" total_micros.

Example header_reads :
  header (absorb {| statements := 2; rows := 50; micros := 2000 |} (record_ Stage.Analysis 12345 Timings_new)) 80000 =
  "db;dur=2.000, cache;dur=0.000, calc;dur=12.345, tpl;dur=0.000, q;desc=" +:+ quote_mark +:+ "2" +:+ quote_mark +:+ ", rows;desc=" +:+ quote_mark +:+
  "50" +:+ quote_mark +:+ ", total;dur=80.000".
Proof. vm_compute. reflexivity. Qed.

(** ** The invariant *)
Definition hold (m : gmap N Phase) : N := N.of_nat (size (filter (fun kv : N * Phase => holds kv.2 = true) m)).
Definition one_if (b : bool) : N := if b then 1 else 0.

Lemma hold_insert m r p : m !! r = None -> hold (<[r := p]> m) = hold m + one_if (holds p).
Proof.
  intros Hr. unfold hold. rewrite map_filter_insert. cbn [snd]. case_decide as Hp; rewrite ?Hp.
  - rewrite map_size_insert_None; [cbn; lia|]. apply map_lookup_filter_None. by left.
  - rewrite delete_id by done. destruct (holds p); [done|]. cbn. lia.
Qed.

Lemma hold_delete m r q : m !! r = Some q -> hold m = hold (delete r m) + one_if (holds q).
Proof. intros Hr. rewrite <- (insert_delete_id m r q Hr) at 1. apply hold_insert, lookup_delete_eq. Qed.

Lemma hold_move m r p q : m !! r = Some q -> hold (<[r := p]> m) + one_if (holds q) = hold m + one_if (holds p).
Proof.
  intros Hr. rewrite (hold_delete m r q Hr). rewrite <- insert_delete_eq, hold_insert by apply lookup_delete_eq. lia.
Qed.

(** The number the request saw when it arrived, while it may still raise the mark. *)
Definition seen (p : Phase) : option N := match p with Loading now | Looping now _ => Some now | _ => None end.

Record metrics_ok (s : Server) : Prop := {
  mo_flight : in_flight (metrics s) = hold (requests s) + dropped s;
  mo_arrived : hold (requests s) + dropped s <= arrived s;
  mo_most : in_flight (metrics s) <= most s;
  mo_bound : most s <= arrived s;
  mo_peak : peak_in_flight (metrics s) <= most s;
  mo_seen : forall r p now, requests s !! r = Some p -> seen p = Some now -> now <= most s;
  mo_behind : forall r now peak, requests s !! r = Some (Looping now peak) -> peak <= peak_in_flight (metrics s);
  mo_mark : most s <= peak_in_flight (metrics s) \/ exists r p, requests s !! r = Some p /\ seen p = Some (most s);
  mo_total : requests_total (metrics s) = wrap 64 (N.of_nat (length (served s))) }.

Lemma metrics_ok_new : metrics_ok Server_new.
Proof.
  split; cbn [Server_new metrics Metrics_new in_flight requests dropped arrived most peak_in_flight requests_total served];
    first [done|intros *; rewrite lookup_empty; done|by left].
Qed.

(** A request moves on without the counters of arrival changing. *)
Lemma metrics_ok_move s r p q m :
  metrics_ok s -> requests s !! r = Some q -> holds p = holds q -> in_flight m = in_flight (metrics s) ->
  peak_in_flight (metrics s) <= peak_in_flight m <= most s -> requests_total m = requests_total (metrics s) ->
  (forall now, seen p = Some now -> seen q = Some now) -> (forall now peak, p = Looping now peak -> peak <= peak_in_flight m) ->
  (forall now, seen q = Some now -> seen p = Some now \/ now <= peak_in_flight m) ->
  metrics_ok (move s r p m).
Proof.
  intros [H1 H2 H3 H4 H5 H6 H7 H8 H9] Hr Hh Hin Hpk Htot Hs Hl Hq.
  assert (Hhold : hold (<[r := p]> (requests s)) = hold (requests s)) by (pose proof (hold_move (requests s) r p q Hr) as Hm; rewrite Hh in Hm; lia).
  split; cbn [move metrics requests dropped arrived most served]; [by rewrite Hin, Hhold|by rewrite Hhold|by rewrite Hin|done|lia|..|by rewrite Htot].
  - intros r' p' now Hr' Hsn. rewrite lookup_insert_Some in Hr'. destruct Hr' as [[<- <-]|[_ Hr']]; [eapply H6; [exact Hr|by apply Hs]|by eapply H6].
  - intros r' now peak Hr'. rewrite lookup_insert_Some in Hr'. destruct Hr' as [[<- Hp]|[_ Hr']]; [by eapply Hl|]. apply H7 in Hr'. lia.
  - destruct H8 as [H8|(r' & p' & Hr' & Hp')]; [left; lia|]. destruct (decide (r' = r)) as [->|Hne].
    + rewrite Hr in Hr'. injection Hr' as <-. destruct (Hq _ Hp') as [Hp|Hp]; [right|by left]. exists r, p. by rewrite lookup_insert_eq.
    + right. exists r', p'. by rewrite lookup_insert_ne.
Qed.

(** A request gives its slot back, goes, or is dropped with it. *)
Lemma metrics_ok_leave s r (p : option Phase) q m gone :
  metrics_ok s -> requests s !! r = Some q -> seen q = None -> (forall p', p = Some p' -> holds p' = false /\ seen p' = None) ->
  in_flight m + one_if (holds q) = in_flight (metrics s) + gone -> gone <= one_if (holds q) ->
  peak_in_flight m = peak_in_flight (metrics s) -> requests_total m = requests_total (metrics s) ->
  metrics_ok {| metrics := m; requests := match p with Some p => <[r := p]> (requests s) | None => delete r (requests s) end; arrived := arrived s;
                dropped := dropped s + gone; most := most s; served := served s |}.
Proof.
  intros [H1 H2 H3 H4 H5 H6 H7 H8 H9] Hr Hsq Hp Hin Hgone Hpk Htot.
  assert (Hhold : hold (match p with Some p => <[r := p]> (requests s) | None => delete r (requests s) end) + one_if (holds q) = hold (requests s)).
  { destruct p as [p|].
    - pose proof (hold_move (requests s) r p q Hr) as Hm. destruct (Hp p eq_refl) as [Hh _]. rewrite Hh in Hm. cbn in Hm. lia.
    - symmetry. by apply hold_delete. }
  assert (Hlook : forall r' p', match p with Some p => <[r := p]> (requests s) | None => delete r (requests s) end !! r' = Some p' ->
    (r' <> r /\ requests s !! r' = Some p') \/ (r' = r /\ p = Some p')).
  { intros r' p'. destruct p as [p|]; [rewrite lookup_insert_Some|rewrite lookup_delete_Some]; naive_solver. }
  split; cbn [metrics requests dropped arrived most served]; [lia|lia|lia|done|by rewrite Hpk|..|by rewrite Htot].
  - intros r' p' now Hr' Hs. destruct (Hlook _ _ Hr') as [[_ Hx]|[_ Hx]]; [by eapply H6|]. destruct (Hp _ Hx) as [_ Hn]. congruence.
  - intros r' now peak Hr'. rewrite Hpk. destruct (Hlook _ _ Hr') as [[_ Hx]|[_ Hx]]; [by eapply H7|]. by destruct (Hp _ Hx) as [_ Hn].
  - rewrite Hpk. destruct H8 as [H8|(r' & p' & Hr' & Hp')]; [by left|]. right. exists r', p'.
    assert (r' <> r) by (intros ->; congruence). split; [|done]. destruct p; [by rewrite lookup_insert_ne|by rewrite lookup_delete_ne].
Qed.

Lemma fetch_add_one n : n + 1 < 2 ^ 64 -> fetch_add n 1 = n + 1.
Proof. intros Hn. unfold fetch_add. by apply wrap_small. Qed.

Lemma fetch_sub_one n : 1 <= n < 2 ^ 64 -> fetch_sub n 1 = n - 1.
Proof.
  intros Hn. unfold fetch_sub, wrap. replace (n + 2 ^ 64 - 1) with ((n - 1) + 1 * 2 ^ 64) by lia. rewrite N.Div0.mod_add. apply N.mod_small. lia.
Qed.

Lemma arrived_mono s s' : metrics_step s s' -> arrived s <= arrived s'.
Proof. intros Hs. destruct Hs; cbn; lia. Qed.

Lemma metrics_ok_arrives s r :
  metrics_ok s -> requests s !! r = None -> arrived s + 1 < 2 ^ 64 ->
  metrics_ok {| metrics := set_in_flight (fetch_add (in_flight (metrics s)) 1) (metrics s);
                requests := <[r := Loading (wrap 64 (in_flight (metrics s) + 1))]> (requests s); arrived := arrived s + 1;
                dropped := dropped s; most := N.max (most s) (fetch_add (in_flight (metrics s)) 1); served := served s |}.
Proof.
  intros [H1 H2 H3 H4 H5 H6 H7 H8 H9] Hr Hlt. change (wrap 64 (in_flight (metrics s) + 1)) with (fetch_add (in_flight (metrics s)) 1).
  rewrite fetch_add_one by lia. pose proof (hold_insert (requests s) r (Loading (in_flight (metrics s) + 1)) Hr) as Hh. cbn [holds one_if] in Hh.
  split; cbn [metrics requests dropped arrived most served set_in_flight in_flight peak_in_flight requests_total]; [lia|lia|lia|lia|lia|..|done].
  - intros r' p' now Hr' Hs. rewrite lookup_insert_Some in Hr'. destruct Hr' as [[<- <-]|[_ Hr']]; [injection Hs as <-; lia|].
    apply (H6 _ _ _ Hr') in Hs. lia.
  - intros r' now peak Hr'. rewrite lookup_insert_Some in Hr'. destruct Hr' as [[<- Hp]|[_ Hr']]; [done|by eapply H7].
  - destruct (decide (in_flight (metrics s) + 1 <= most s)).
    + destruct H8 as [H8|(r' & p' & Hr' & Hp')]; [left; lia|]. right. exists r', p'. assert (r' <> r) by (intros ->; congruence).
      rewrite lookup_insert_ne by done. split; [done|]. rewrite Hp'. f_equal. lia.
    + right. exists r, (Loading (in_flight (metrics s) + 1)). rewrite lookup_insert_eq. split; [done|]. cbn. f_equal. lia.
Qed.

Lemma metrics_step_ok s s' : metrics_step s s' -> arrived s' < 2 ^ 64 -> metrics_ok s -> metrics_ok s'.
Proof.
  intros Hstep Hlt Hok. pose proof (arrived_mono s s' Hstep) as Hmono.
  destruct Hstep as [s r Hr|s r now Hr|s r now Hr Hlow|s r now peak Hr Hlow|s r now peak Hr Hhigh|s r status mic Hr|s r status mic Hr|s r status mic Hr
                    |s r status Hr|s r Hr|s r Hr]; cbn [arrived] in Hlt.
  - by apply metrics_ok_arrives.
  - eapply metrics_ok_move; [done|exact Hr|done|done|split; [done|apply Hok]|done|done|by intros ? ? [= _ ->]|by intros ? ?; left].
  - pose proof (mo_seen s Hok _ _ _ Hr eq_refl). eapply metrics_ok_move; [done|exact Hr|done|done|cbn; lia|done|done|done|intros ? [= <-]; by right].
  - eapply metrics_ok_move; [done|exact Hr|done|done|split; [done|apply Hok]|done|done|by intros ? ? [= _ ->]|by intros ? ?; left].
  - pose proof (mo_behind s Hok _ _ _ Hr). eapply metrics_ok_move; [done|exact Hr|done|done|split; [done|apply Hok]|done|done|done|intros ? [= <-]; right; lia].
  - pose proof (hold_delete _ _ _ Hr) as Hh. cbn in Hh. pose proof (mo_flight s Hok). pose proof (mo_arrived s Hok). cbn [move arrived] in *.
    pose proof (metrics_ok_leave s r (Some (Counted status mic)) Serving (set_in_flight (fetch_sub (in_flight (metrics s)) 1) (metrics s)) 0 Hok Hr eq_refl) as Hl.
    cbn [set_in_flight in_flight peak_in_flight requests_total holds one_if] in Hl. rewrite fetch_sub_one, !N.add_0_r in Hl by lia.
    unfold move. rewrite fetch_sub_one by lia. apply Hl; [by intros ? [= <-]|lia|lia|done|done].
  - pose proof (metrics_ok_leave s r (Some (Timed status mic)) (Counted status mic) (metrics s) 0 Hok Hr eq_refl) as Hl.
    destruct Hl as [L1 L2 L3 L4 L5 L6 L7 L8 L9]; [by intros ? [= <-]|cbn; lia|cbn; lia|done|done|].
    cbn [metrics requests dropped arrived most served] in *. rewrite !N.add_0_r in *.
    split; cbn [metrics requests dropped arrived most served add_request in_flight peak_in_flight requests_total]; try done.
    rewrite L9, length_app. cbn [length]. unfold fetch_add, wrap. rewrite N.Div0.add_mod_idemp_l. f_equal. lia.
  - pose proof (metrics_ok_leave s r (Some (Classed status)) (Timed status mic) (add_latency mic (metrics s)) 0 Hok Hr eq_refl) as Hl.
    rewrite !N.add_0_r in Hl. apply Hl; [by intros ? [= <-]|cbn; lia|cbn; lia|done|done].
  - apply (metrics_ok_leave s r None (Classed status)); [done|done|done|done|cbn; lia|cbn; lia|done|done].
  - pose proof (hold_delete _ _ _ Hr) as Hh. cbn in Hh. pose proof (mo_flight s Hok). pose proof (mo_arrived s Hok). cbn [leave arrived] in *.
    apply (metrics_ok_leave s r None Serving); [done|done|done|done| |cbn; lia|done|done]. cbn. rewrite fetch_sub_one by lia. lia.
  - apply (metrics_ok_leave s r None Serving); [done|done|done|done|cbn; lia|cbn; lia|done|done].
Qed.

Lemma metrics_reachable_ok s : rtc metrics_step Server_new s -> arrived s < 2 ^ 64 -> metrics_ok s.
Proof.
  intros Hr. refine (rtc_ind_r (fun s => arrived s < 2 ^ 64 -> metrics_ok s) Server_new (fun _ => metrics_ok_new) _ s Hr).
  intros y z _ Hyz IH Hz. pose proof (arrived_mono y z Hyz). eapply metrics_step_ok; [done|done|]. apply IH. lia.
Qed.

(** However arrivals, answers and disconnections interleave: the number in flight is that
    of the requests being served and of those whose connection went away under them, which
    it never forgets; the mark is never above the most that were in flight at once, and is
    exactly that whenever no arrival is still raising it; and every answer is counted
    once. *)
Theorem metrics_sound s :
  rtc metrics_step Server_new s -> arrived s < 2 ^ 64 ->
  sn_in_flight (snapshot (metrics s)) = hold (requests s) + dropped s /\
  (requests s = ∅ -> sn_in_flight (snapshot (metrics s)) = dropped s) /\
  sn_in_flight (snapshot (metrics s)) <= most s /\ sn_peak_in_flight (snapshot (metrics s)) <= most s /\
  (map_Forall (fun _ p => seen p = None) (requests s) -> sn_peak_in_flight (snapshot (metrics s)) = most s) /\
  sn_requests_total (snapshot (metrics s)) = wrap 64 (N.of_nat (length (served s))).
Proof.
  intros Hr Hlt. destruct (metrics_reachable_ok s Hr Hlt) as [H1 H2 H3 H4 H5 H6 H7 H8 H9]. cbn [snapshot sn_in_flight sn_peak_in_flight sn_requests_total].
  split_and!; [done| |done|done| |done].
  - intros He. rewrite H1, He. unfold hold. rewrite map_filter_empty, map_size_empty. cbn. lia.
  - intros Hn. destruct H8 as [H8|(r & p & Hp & Hs)]; [lia|]. specialize (Hn r p Hp). cbn in Hn. congruence.
Qed.

(** One arrives, and its connection goes away while it is served. *)
Definition demo_server : Server :=
  {| metrics := {| requests_total := 0; responses_client_error := 0; responses_server_error := 0; latency_micros_total := 0; in_flight := 1;
                   peak_in_flight := 1 |};
     requests := ∅; arrived := 1; dropped := 1; most := 1; served := [] |}.

Lemma demo_server_reachable : rtc metrics_step Server_new demo_server.
Proof.
  eapply rtc_l; [by apply (arrives Server_new 1)|].
  eapply rtc_l; [by eapply (loads _ 1)|].
  eapply rtc_l; [by eapply (raises _ 1)|].
  eapply rtc_l; [by eapply (abandoned _ 1)|].
  apply rtc_refl.
Qed.

Lemma metrics_sound_witness : sn_in_flight (snapshot (metrics demo_server)) = 1 /\ dropped demo_server = 1.
Proof.
  split; [|reflexivity]. destruct (metrics_sound demo_server demo_server_reachable) as (_ & H2 & _); [vm_compute; reflexivity|]. exact (H2 eq_refl).
Defined.
