(* ===== verification/AnalysisWork.v ===== *)
(** * AnalysisWork: materialisation as cluster work

    Models [crates/server/src/analysis_work.rs]: a region's history cut into partitions
    ([partition], [trim]), the coordinator's store of their inputs and results
    ([Artifacts]), and the handler every worker runs ([MarketWorkload]).

    The store is behind a mutex that [finish] takes twice, so a call is two steps, and
    between them anything may happen: [work_step] interleaves the calls of any number of
    workers, and the coordinator opening another candidate.  An [Arc] is a pair of its
    allocation and its content; a call holds its [Arc], so an allocation is never used
    again while it does, and allocations are numbered without reuse.

    [postcard] is the parameter [Postcard] of [Protocol]. *)
From stdpp Require Import prelude gmap sorting strings pretty relations.
From S2P Require Import Prelude Text Time Node Job Workload Protocol Market Catalog Depth Engine Series MarketKey Window Analysis Correlate Materialise.

Definition PARTITION_MARKETS : nat := 16.

Definition MarketInput : Type := MarketKey * list PriceSample * Ladder.

Record Input := {
  in_region : Region; in_markets : list MarketInput; in_windows : list Window.t; in_catalog : Catalog; in_now : Millis }.

#[export] Instance Trend_eq_dec : EqDecision Trend.
Proof. solve_decision. Defined.
#[export] Instance Cycle_eq_dec : EqDecision Cycle.
Proof. solve_decision. Defined.
#[export] Instance Point_eq_dec : EqDecision Point.
Proof. solve_decision. Defined.
#[export] Instance Ladder_eq_dec : EqDecision Ladder.
Proof. solve_decision. Defined.
#[export] Instance Depth_eq_dec : EqDecision Depth.
Proof. solve_decision. Defined.
#[export] Instance Heatmap_eq_dec : EqDecision Heatmap.
Proof. solve_decision. Defined.
#[export] Instance Association_eq_dec : EqDecision Association.
Proof. solve_decision. Defined.
#[export] Instance Swings_eq_dec : EqDecision Swings.
Proof. solve_decision. Defined.
#[export] Instance Stability_eq_dec : EqDecision Stability.
Proof. solve_decision. Defined.
#[export] Instance Spark_eq_dec : EqDecision Spark.
Proof. solve_decision. Defined.
#[export] Instance ChartPoint_eq_dec : EqDecision ChartPoint.
Proof. solve_decision. Defined.
#[export] Instance ChartSeries_eq_dec : EqDecision ChartSeries.
Proof. solve_decision. Defined.
#[export] Instance Histogram_eq_dec : EqDecision Histogram.
Proof. solve_decision. Defined.
#[export] Instance MarketState_eq_dec : EqDecision MarketState.
Proof. solve_decision. Defined.
#[export] Instance MarketWindow_eq_dec : EqDecision MarketWindow.
Proof. solve_decision. Defined.
#[export] Instance Materialised_eq_dec : EqDecision Materialised.
Proof. solve_decision. Defined.

(** ** The reduction both ends run *)
Definition reduce (input : Input) : list Materialised :=
  (fun '(key, history, ladder) => commodity key history ladder (in_catalog input) (in_windows input) (in_now input)) <$> in_markets input.

(** ** The coordinator's store *)
Abbreviation Arc := (N * Input)%type.

Record State := {
  ar_version : N; ar_algorithm : N; ar_inputs : gmap N Arc; ar_results : gmap N (list Materialised) }.
Definition Artifacts_new : State := {| ar_version := 0; ar_algorithm := 0; ar_inputs := ∅; ar_results := ∅ |}.

(** [enumerate], [i as u32] and [Arc::new]: the allocations from [heap] on. *)
Fixpoint register (i heap : N) (inputs : list Input) (m : gmap N Arc) : gmap N Arc :=
  match inputs with
  | [] => m
  | input :: rest => register (i + 1) (heap + 1) rest (<[wrap 32 i := (heap, input)]> m)
  end.

Definition begin (heap version algorithm : N) (inputs : list Input) (held : State) : N * State :=
  let registered := register 0 heap inputs ∅ in
  (wrap 16 (N.of_nat (size registered)),
   {| ar_version := version; ar_algorithm := algorithm; ar_inputs := registered; ar_results := ∅ |}).

Definition registered (held : State) (version algorithm partition : N) : option Arc :=
  if decide (ar_version held <> version \/ ar_algorithm held <> algorithm) then None else ar_inputs held !! partition.

(** The second half of [finish], under the lock again. *)
Definition file (version algorithm partition : N) (input : Arc) (rows : list Materialised) (held : State) : bool * State :=
  let same_input := match ar_inputs held !! partition with Some current => bool_decide (current.1 = input.1) | None => false end in
  if decide (ar_version held <> version \/ ar_algorithm held <> algorithm \/ same_input = false) then (false, held)
  else (true, {| ar_version := ar_version held; ar_algorithm := ar_algorithm held; ar_inputs := ar_inputs held;
                 ar_results := <[partition := rows]> (ar_results held) |}).

(** A call that nothing interrupts. *)
Definition finish (version algorithm partition : N) (rows : list Materialised) (held : State) : bool * State :=
  match registered held version algorithm partition with
  | None => (false, held)
  | Some input => if decide (rows <> reduce input.2) then (false, held) else file version algorithm partition input rows held
  end.

Definition collect (version : N) (held : State) : option (list Materialised) :=
  if decide (ar_version held <> version) then None
  else if decide (size (ar_results held) <> size (ar_inputs held)) then None
  else Some (concat (values (ar_results held))).

Definition done (held : State) : nat * nat := (size (ar_results held), size (ar_inputs held)).

Section Codec.
Context `{PI : Postcard Input, PR : Postcard (list Materialised)}.

(** [input] of [ArtifactStore]. *)
Definition artifact_input (held : State) (spec : TaskSpec) : option Bytes :=
  match spec with
  | TaskAnalysis version algorithm partition => a ← registered held version algorithm partition; to_allocvec a.2
  | _ => None
  end.

Definition produced (spec : TaskSpec) (bytes : Bytes) (held : State) : State :=
  match spec with
  | TaskAnalysis version algorithm partition =>
      match from_bytes bytes with Some rows => (finish version algorithm partition rows held).2 | None => held end
  | _ => held
  end.

(** ** The worker.  [explain] is the text of a decoding error. *)
Definition MarketWorkload_run (explain : Bytes -> string) : Workload := fun node spec input =>
  match spec with
  | TaskAnalysis _ _ partition =>
      match input with
      | [] => Some (WorkDone ("partition " +:+ pretty partition +:+ " is stale"))
      | _ =>
          match from_bytes input with
          | None => Some (WorkDone ("partition " +:+ pretty partition +:+ " could not be read: " +:+ explain input))
          | Some decoded =>
              let rows := reduce decoded in
              artifact ← to_allocvec rows;
              Some (WorkProduced (pretty (N.of_nat (length rows)) +:+ " markets in partition " +:+ pretty partition +:+ " on " +:+ NodeId_fmt node)
                      artifact)
          end
      end
  | _ => None
  end.

(** ** The store among its workers

    [begun] is what the newest candidate was opened with, which the program does not
    keep. *)
Record Call := { cl_version : N; cl_algorithm : N; cl_partition : N; cl_input : Arc; cl_rows : list Materialised }.
Record Coordinator := { held : State; heap : N; calls : gmap N Call; begun : list Input }.
Definition Coordinator_new : Coordinator := {| held := Artifacts_new; heap := 0; calls := ∅; begun := [] |}.

Definition opened (version algorithm : N) (inputs : list Input) (s : Coordinator) : Coordinator :=
  {| held := (begin (heap s) version algorithm inputs (held s)).2; heap := heap s + N.of_nat (length inputs); calls := calls s; begun := inputs |}.

(** What workers make happen; their bytes are any bytes. *)
Inductive call_step : Coordinator -> Coordinator -> Prop :=
| looks s c version algorithm partition bytes rows input :
    calls s !! c = None -> from_bytes bytes = Some rows -> registered (held s) version algorithm partition = Some input ->
    call_step s {| held := held s; heap := heap s; begun := begun s;
                   calls := <[c := {| cl_version := version; cl_algorithm := algorithm; cl_partition := partition; cl_input := input;
                                      cl_rows := rows |}]> (calls s) |}
| rejects s c x : calls s !! c = Some x -> cl_rows x <> reduce (cl_input x).2 ->
    call_step s {| held := held s; heap := heap s; begun := begun s; calls := delete c (calls s) |}
| files s c x : calls s !! c = Some x -> cl_rows x = reduce (cl_input x).2 ->
    call_step s {| held := (file (cl_version x) (cl_algorithm x) (cl_partition x) (cl_input x) (cl_rows x) (held s)).2; heap := heap s;
                   begun := begun s; calls := delete c (calls s) |}.

Inductive work_step : Coordinator -> Coordinator -> Prop :=
| begins s version algorithm inputs : work_step s (opened version algorithm inputs s)
| calls_in s s' : call_step s s' -> work_step s s'.

End Codec.

(** ** Cutting a region into partitions *)
Definition trim (catalog : Catalog) (items : list ItemId) : Catalog :=
  {| c_id := c_id catalog; c_expansion := c_expansion catalog; c_status := c_status catalog; c_version := c_version catalog;
     c_patches := c_patches catalog; c_raid_tiers := c_raid_tiers catalog;
     c_items := filter (fun entry => existsb (fun id => bool_decide (id ∈ items)) (item_ids entry) = true) (c_items catalog);
     c_item_levels := ∅; c_tracks := ∅; c_modifiers := ∅; c_notes := [] |}.

(** [finish], the function that seals a partition. *)
Definition seal (region : Region) (catalog : Catalog) (markets : list MarketInput) (windows : Catalog -> list Window.t) (now : Millis) : Input :=
  {| in_region := region; in_windows := windows catalog; in_markets := markets;
     in_catalog := trim catalog ((fun m => key_item m.1.1) <$> markets); in_now := now |}.

Fixpoint same_item (item : ItemId) (history : list PriceSample) : list PriceSample * list PriceSample :=
  match history with
  | [] => ([], [])
  | s :: rest => if decide (ps_item s = item) then let '(group, others) := same_item item rest in (s :: group, others) else ([], history)
  end.

(** One slice per market; a turn takes at least one sample. *)
Fixpoint grouped_from (fuel : nat) (history : list PriceSample) : list (list PriceSample) :=
  match fuel, history with
  | S fuel, s :: _ => let '(group, others) := same_item (ps_item s) history in group :: grouped_from fuel others
  | _, _ => []
  end.
Definition grouped (history : list PriceSample) : list (list PriceSample) := grouped_from (length history) history.

Section Partition.
Context (region : Region) (ladders : gmap ItemId Ladder) (owner : ItemId -> Catalog) (windows : Catalog -> list Window.t) (now : Millis).

Record Cut := { cut_out : list Input; cut_current : list MarketInput; cut_catalog : option Catalog }.

Definition market_input (s : PriceSample) (group : list PriceSample) : MarketInput :=
  let key := market_of (owner (ps_item s)) s in (key, group, default Ladder_default (ladders !! key_item key)).

(** [None] is a panic: an index out of range, or [expect] of a catalogue that is not there. *)
Definition cut_step (cut : option Cut) (group : list PriceSample) : option Cut :=
  cut ← cut;
  match group with
  | [] => None
  | s :: _ =>
      let owned := owner (ps_item s) in
      let same := match cut_catalog cut with Some held => bool_decide (c_id held = c_id owned) | None => false end in
      cut ← (if decide ((same = false /\ cut_current cut <> []) \/ (PARTITION_MARKETS <= length (cut_current cut))%nat)
             then held ← cut_catalog cut;
                  Some {| cut_out := cut_out cut ++ [seal region held (cut_current cut) windows now]; cut_current := []; cut_catalog := None |}
             else Some cut);
      Some {| cut_out := cut_out cut; cut_current := cut_current cut ++ [market_input s group]; cut_catalog := Some owned |}
  end.

Definition partition (history : list PriceSample) : option (list Input) :=
  cut ← foldl cut_step (Some {| cut_out := []; cut_current := []; cut_catalog := None |}) (grouped history);
  Some (cut_out cut ++ match cut_catalog cut with Some held => [seal region held (cut_current cut) windows now] | None => [] end).

(** What one process computes, without cutting anything. *)
Definition direct (group : list PriceSample) : option Materialised :=
  s ← head group;
  let m := market_input s group in Some (commodity m.1.1 m.1.2 m.2 (owner (ps_item s)) (windows (owner (ps_item s))) now).
End Partition.

(** ** A trimmed catalogue is read as the whole one *)
Lemma find_first_filter {A} (p q : A -> bool) l :
  (forall x, x ∈ l -> p x = true -> q x = true) -> find_first p (filter (fun x => q x = true) l) = find_first p l.
Proof.
  induction l as [|x l IH]; intros H; [done|]. rewrite filter_cons, find_first_cons.
  assert (find_first p (filter (fun x => q x = true) l) = find_first p l) as IH' by (apply IH; intros y Hy; apply H; set_solver).
  destruct (p x) eqn:Hp.
  - rewrite decide_True by (apply H; [by left|done]). rewrite find_first_cons, Hp. done.
  - case_decide; [rewrite find_first_cons, Hp|]; exact IH'.
Qed.

Lemma find_item_trim catalog items item : item ∈ items -> find_item (trim catalog items) item = find_item catalog item.
Proof.
  intros Hin. unfold find_item, trim. cbn [c_items]. apply (find_first_filter _ (fun entry => existsb (fun id => bool_decide (id ∈ items)) (item_ids entry))).
  intros entry _ Hr%bool_decide_eq_true%rank_of_is_Some. apply existsb_exists. exists item. split; [by apply list_elem_of_In|].
  by apply bool_decide_eq_true_2.
Qed.

Lemma bounds_trim window catalog items now : Window.bounds window (trim catalog items) now = Window.bounds window catalog now.
Proof. by destruct window. Qed.

Lemma summarise_trim key window history current catalog items now :
  summarise key window history current (trim catalog items) now = summarise key window history current catalog now.
Proof. unfold summarise, Window.expected_buckets. by rewrite !bounds_trim. Qed.

Lemma commodity_trim key history ladder catalog items windows now :
  key_item key ∈ items -> commodity key history ladder (trim catalog items) windows now = commodity key history ladder catalog windows now.
Proof.
  intros Hin. unfold commodity.
  assert (commodity_state key history ladder (trim catalog items) now = commodity_state key history ladder catalog now) as ->
    by (unfold commodity_state; by rewrite find_item_trim).
  cbv zeta. apply (f_equal (Build_Materialised _)). apply list_omap_ext, Forall_Forall2_diag, Forall_true. intros w. apply summarise_trim.
Qed.

Lemma reduce_seal region catalog markets windows now :
  reduce (seal region catalog markets windows now) =
  (fun m : MarketInput => commodity m.1.1 m.1.2 m.2 catalog (windows catalog) now) <$> markets.
Proof.
  unfold reduce, seal. cbn [in_markets in_catalog in_windows in_now]. apply list_fmap_ext. intros i [[key history] ladder] Hm. cbn [fst snd].
  apply commodity_trim. apply list_elem_of_fmap. exists (key, history, ladder). split; [done|by eapply list_elem_of_lookup_2].
Qed.

(** ** The slices of a history *)
Lemma same_item_spec item history group others :
  same_item item history = (group, others) ->
  history = group ++ others /\ Forall (fun s => ps_item s = item) group /\
  match others with s :: _ => ps_item s <> item | [] => True end.
Proof.
  revert group others. induction history as [|s history IH]; intros group others; cbn [same_item].
  { intros [= <- <-]. done. }
  case_decide as Hs.
  - destruct (same_item item history) as [g o]. intros [= <- <-]. destruct (IH g o eq_refl) as (-> & Hg & Ho).
    split_and!; [done|by constructor|done].
  - by intros [= <- <-].
Qed.

(** A market's slice: its samples one after the other, and not the end of a longer run. *)
Lemma grouped_from_spec fuel history :
  (length history <= fuel)%nat ->
  concat (grouped_from fuel history) = history /\
  Forall (fun g => exists s, head g = Some s /\ Forall (fun x => ps_item x = ps_item s) g) (grouped_from fuel history) /\
  head (grouped_from fuel history) ≫= head = head history.
Proof.
  revert history. induction fuel as [|fuel IH]; intros history Hf.
  { destruct history; [done|cbn in Hf; lia]. }
  destruct history as [|s history]; [done|]. cbn [grouped_from]. destruct (same_item (ps_item s) (s :: history)) as [group others] eqn:Hg.
  pose proof (same_item_spec _ _ _ _ Hg) as (Heq & Hall & _).
  assert (exists g, group = s :: g) as (g & ->).
  { cbn [same_item] in Hg. rewrite decide_True in Hg by done. destruct (same_item (ps_item s) history). injection Hg as <- _. eauto. }
  assert ((length others <= fuel)%nat) as Ho.
  { apply (f_equal length) in Heq. rewrite length_app in Heq. cbn in Heq, Hf. lia. }
  destruct (IH others Ho) as (Hc & Hf' & _). cbn [concat]. split_and!.
  - by rewrite Hc, <- Heq.
  - constructor; [|done]. exists s. by split.
  - done.
Qed.

Section PartitionLaws.
Context (region : Region) (ladders : gmap ItemId Ladder) (owner : ItemId -> Catalog) (windows : Catalog -> list Window.t) (now : Millis).
(** Two catalogues of one identifier are one. *)
Context (owner_id : forall i j, c_id (owner i) = c_id (owner j) -> owner i = owner j).

Abbreviation cut_by := (cut_step region ladders owner windows now).
Abbreviation direct := (direct ladders owner windows now).

Definition priced (catalog : Catalog) (m : MarketInput) : Materialised := commodity m.1.1 m.1.2 m.2 catalog (windows catalog) now.

Record cut_ok (groups : list (list PriceSample)) (cut : Cut) : Prop := {
  ok_rows : (cut_out cut ≫= reduce) ++ (from_option (fun c => priced c <$> cut_current cut) [] (cut_catalog cut)) = omap direct groups;
  ok_sizes : Forall (fun x => (1 <= length (in_markets x) <= PARTITION_MARKETS)%nat) (cut_out cut);
  ok_slices : ((cut_out cut ≫= fun x => (fun m => m.1.2) <$> in_markets x) ++ ((fun m => m.1.2) <$> cut_current cut)) = groups;
  ok_current : (length (cut_current cut) <= PARTITION_MARKETS)%nat;
  ok_catalog : match cut_catalog cut with
               | Some c => cut_current cut <> [] /\ exists i, c = owner i
               | None => cut_current cut = []
               end }.

Lemma cut_ok_flush groups cut c :
  cut_ok groups cut -> cut_catalog cut = Some c ->
  cut_ok groups {| cut_out := cut_out cut ++ [seal region c (cut_current cut) windows now]; cut_current := []; cut_catalog := None |}.
Proof.
  intros [H1 H2 H3 H4 H5] Hc. rewrite Hc in *. destruct H5 as [Hne _]. cbn [from_option] in H1. constructor; cbn [cut_out cut_current cut_catalog from_option].
  - rewrite bind_app. cbn [mbind list_bind]. rewrite reduce_seal, !app_nil_r. exact H1.
  - apply Forall_app. split; [done|]. constructor; [|done]. cbn [seal in_markets]. destruct (cut_current cut); [done|]. cbn [length] in *. lia.
  - rewrite bind_app. cbn [mbind list_bind seal in_markets]. by rewrite fmap_nil, !app_nil_r.
  - cbn. lia.
  - done.
Qed.

Lemma cut_ok_push groups cut s g :
  cut_ok groups cut -> (length (cut_current cut) < PARTITION_MARKETS)%nat ->
  match cut_catalog cut with Some c => c_id c = c_id (owner (ps_item s)) | None => True end ->
  cut_ok (groups ++ [s :: g])
    {| cut_out := cut_out cut; cut_current := cut_current cut ++ [market_input ladders owner s (s :: g)]; cut_catalog := Some (owner (ps_item s)) |}.
Proof.
  intros [H1 H2 H3 H4 H5] Hlt Hsame. constructor; cbn [cut_out cut_current cut_catalog from_option].
  - rewrite omap_app. cbn [omap list_omap direct head mbind option_bind]. rewrite fmap_app, app_assoc. f_equal. rewrite <- H1. f_equal.
    destruct (cut_catalog cut) as [c|]; [|by rewrite H5]. destruct H5 as [_ [i ->]]. cbn [from_option]. by rewrite (owner_id _ _ Hsame).
  - done.
  - rewrite fmap_app, app_assoc, H3. done.
  - rewrite length_app. cbn. lia.
  - split; [by destruct (cut_current cut)|by eexists].
Qed.

Lemma cut_step_ok groups cut s g :
  cut_ok groups cut -> exists cut', cut_by (Some cut) (s :: g) = Some cut' /\ cut_ok (groups ++ [s :: g]) cut'.
Proof.
  intros Hok. unfold cut_step. cbn [mbind option_bind]. case_decide as Hd.
  - destruct (cut_catalog cut) as [c|] eqn:Hc.
    + cbn [mbind option_bind]. eexists. split; [reflexivity|]. cbn [cut_out cut_current cut_catalog].
      apply (cut_ok_push groups {| cut_out := _; cut_current := []; cut_catalog := None |}); [by apply cut_ok_flush|cbn; unfold PARTITION_MARKETS; lia|done].
    + exfalso. pose proof (ok_catalog _ _ Hok) as He. rewrite Hc in He. rewrite He in Hd. destruct Hd as [[_ ?]|Hd]; [done|].
      cbn in Hd. unfold PARTITION_MARKETS in Hd. lia.
  - cbn [mbind option_bind]. eexists. split; [reflexivity|]. apply cut_ok_push; [done|lia|].
    destruct (cut_catalog cut) as [c|] eqn:Hc; [|done]. pose proof (ok_catalog _ _ Hok) as He. rewrite Hc in He. destruct He as [Hne _].
    apply Decidable.not_or in Hd as [Hd _]. destruct (bool_decide (c_id c = c_id (owner (ps_item s)))) eqn:Hb; [by apply bool_decide_eq_true in Hb|].
    by destruct Hd.
Qed.

Lemma cut_all groups todo cut :
  Forall (fun g => g <> []) todo -> cut_ok groups cut ->
  exists cut', foldl cut_by (Some cut) todo = Some cut' /\ cut_ok (groups ++ todo) cut'.
Proof.
  revert groups cut. induction todo as [|g todo IH]; intros groups cut Hne Hok.
  { exists cut. by rewrite app_nil_r. }
  apply Forall_cons in Hne as [Hg Hne]. destruct g as [|s g]; [done|]. cbn [foldl]. destruct (cut_step_ok groups cut s g Hok) as (cut' & -> & Hok').
  destruct (IH _ _ Hne Hok') as (cut'' & Hf & Hok''). exists cut''. split; [done|]. by rewrite <- app_assoc in Hok''.
Qed.

Lemma partition_spec history :
  exists inputs, partition region ladders owner windows now history = Some inputs /\
    inputs ≫= reduce = omap direct (grouped history) /\
    (inputs ≫= fun x => (fun m => m.1.2) <$> in_markets x) = grouped history /\
    Forall (fun x => (1 <= length (in_markets x) <= PARTITION_MARKETS)%nat) inputs.
Proof.
  destruct (grouped_from_spec (length history) history (le_n _)) as (_ & Hg & _).
  destruct (cut_all [] (grouped history) {| cut_out := []; cut_current := []; cut_catalog := None |}) as (cut & Hf & Hok).
  - apply (Forall_impl _ _ _ Hg). by intros g (s & Hs & _) ->.
  - constructor; try done. cbn. lia.
  - unfold partition. rewrite Hf. cbn [mbind option_bind app]. eexists. split; [reflexivity|].
    destruct (cut_catalog cut) as [c|] eqn:Hc.
    + destruct (cut_ok_flush _ _ _ Hok Hc) as [H1 H2 H3 _ _]. cbn [cut_out cut_current cut_catalog from_option] in H1, H2, H3.
      rewrite fmap_nil in H3. rewrite app_nil_r in H1, H3. done.
    + destruct Hok as [H1 H2 H3 _ H5]. rewrite Hc in H1, H5. rewrite H5, fmap_nil in H3. cbn [from_option] in H1. rewrite app_nil_r in *. done.
Qed.
End PartitionLaws.

(** A history in the order of its items is cut into the whole history of each. *)
Lemma grouped_from_sorted fuel history :
  (length history <= fuel)%nat -> StronglySorted (fun x y => ps_item x <= ps_item y) history ->
  Forall (fun g => exists s, head g = Some s /\ s ∈ history /\ g = filter (fun x => ps_item x = ps_item s) history) (grouped_from fuel history) /\
  NoDup (omap (fmap ps_item ∘ head) (grouped_from fuel history)).
Proof.
  revert history. induction fuel as [|fuel IH]; intros history Hf Hs.
  { destruct history; [|cbn in Hf; lia]. split; constructor. }
  destruct history as [|s history]; [split; constructor|]. cbn [grouped_from].
  destruct (same_item (ps_item s) (s :: history)) as [group others] eqn:Hg.
  destruct (same_item_spec _ _ _ _ Hg) as (Heq & Hall & Hnext).
  assert (exists g, group = s :: g) as (g & Hgs).
  { cbn [same_item] in Hg. rewrite decide_True in Hg by done. destruct (same_item (ps_item s) history). injection Hg as <- _. eauto. }
  assert ((length others <= fuel)%nat) as Ho.
  { apply (f_equal length) in Heq. rewrite length_app, Hgs in Heq. cbn in Heq, Hf. lia. }
  rewrite Heq in Hs |- *. apply StronglySorted_app in Hs as (Hle & Hs1 & Hs2).
  assert (Forall (fun x => ps_item x <> ps_item s) others) as Hout.
  { destruct others as [|o others]; [constructor|]. apply StronglySorted_inv in Hs2 as [_ Hlo].
    assert (ps_item s <= ps_item o) by (apply Hle; [rewrite Hgs|]; by left).
    constructor; [done|]. apply (Forall_impl _ _ _ Hlo). intros x Hx. lia. }
  destruct (IH others Ho Hs2) as [IH1 IH2]. split.
  - constructor.
    + exists s. rewrite Hgs. split_and!; [done|by left|]. rewrite filter_app, (filter_none _ others) by done. rewrite app_nil_r, <- Hgs.
      symmetry. by apply filter_all.
    + apply (Forall_impl _ _ _ IH1). intros g' (s' & Hs' & Hin & Hg'). exists s'. split_and!; [done|rewrite elem_of_app; by right|]. rewrite Hg'.
      rewrite filter_app, (filter_none _ group); [done|]. apply (Forall_impl _ _ _ Hall). intros x Hx. rewrite Hx.
      pose proof (proj1 (Forall_forall _ _) Hout s' Hin) as Hne. cbv beta in Hne. congruence.
  - cbn [omap list_omap compose]. rewrite Hgs. cbn [compose head fmap option_fmap option_map]. apply NoDup_cons. split; [|done].
    intros (g' & Hg' & He)%list_elem_of_omap. destruct (proj1 (Forall_forall _ _) IH1 g' Hg') as (s' & Hs' & Hin & _). cbn in He. rewrite Hs' in He.
    injection He as He. exact (proj1 (Forall_forall _ _) Hout s' Hin He).
Qed.

(** ** The registered inputs *)
Lemma register_lookup i heap inputs m k :
  i + N.of_nat (length inputs) <= 2 ^ 32 ->
  register i heap inputs m !! k =
    if decide (i <= k < i + N.of_nat (length inputs)) then (fun x => (heap + (k - i), x)) <$> inputs !! N.to_nat (k - i) else m !! k.
Proof.
  revert i heap m. induction inputs as [|x inputs IH]; intros i heap m Hlen; cbn [register].
  { rewrite decide_False by (cbn; lia). done. }
  cbn [length] in Hlen. rewrite IH by lia. rewrite (wrap_small 32 i) by lia. cbn [length].
  destruct (decide (k = i)) as [->|Hne].
  - rewrite decide_False by lia. rewrite lookup_insert_eq, decide_True by lia. replace (i - i) with 0 by lia. cbn. by rewrite N.add_0_r.
  - rewrite lookup_insert_ne by done. destruct (decide (i <= k < i + N.of_nat (S (length inputs)))) as [Hin|Hout].
    + rewrite decide_True by lia. replace (N.to_nat (k - i)) with (S (N.to_nat (k - (i + 1)))) by lia. cbn [lookup list_lookup].
      replace (heap + 1 + (k - (i + 1))) with (heap + (k - i)) by lia. done.
    + rewrite decide_False by lia. done.
Qed.

Lemma register_arcs i heap inputs m k a :
  register i heap inputs m !! k = Some a -> m !! k = Some a \/ exists j, inputs !! j = Some a.2 /\ a.1 = heap + N.of_nat j.
Proof.
  revert i heap m. induction inputs as [|x inputs IH]; intros i heap m; cbn [register]; [by left|].
  intros [H|(j & Hj & Ha)]%IH.
  - apply lookup_insert_Some in H as [[_ <-]|[_ H]]; [|by left]. right. exists 0%nat. cbn. split; [done|lia].
  - right. exists (S j). split; [done|lia].
Qed.

Lemma register_grows i heap inputs m k : is_Some (m !! k) -> is_Some (register i heap inputs m !! k).
Proof.
  revert i heap m. induction inputs as [|x inputs IH]; intros i heap m Hk; [done|]. cbn [register]. apply IH.
  destruct (decide (wrap 32 i = k)) as [<-|]; [rewrite lookup_insert_eq; by eexists|by rewrite lookup_insert_ne].
Qed.

(** A map from the first numbers to the elements of a list lists them in order. *)
Lemma values_of_list {V} (m : gmap N V) (l : list V) : (forall k, m !! k = l !! N.to_nat k) -> values m = l.
Proof.
  intros Hm. assert (keys m = N.of_nat <$> seq 0 (length l)) as Hk.
  { apply (StronglySorted_unique_strong N.lt); [intros; lia|apply keys_sorted| |].
    - clear. generalize 0%nat. induction (length l) as [|n IH]; intros i; [constructor|].
      cbn. constructor; [apply IH|]. apply Forall_fmap, Forall_forall. intros j Hj%elem_of_seq. cbn. lia.
    - apply NoDup_Permutation; [apply keys_NoDup|apply NoDup_fmap_2; [intros a b; lia|apply NoDup_seq]|]. intros k. rewrite elem_of_keys, Hm, list_elem_of_fmap. split.
      + intros Hl%lookup_lt_is_Some. exists (N.to_nat k). split; [lia|]. apply elem_of_seq. lia.
      + intros (j & -> & Hj%elem_of_seq). apply lookup_lt_is_Some. lia. }
  apply list_eq. intros i. destruct (values m !! i) as [v|] eqn:Hv.
  - unfold values in Hv. apply list_lookup_fmap_Some in Hv as ([k v'] & -> & He). cbn [snd].
    assert (keys m !! i = Some k) as Hki by (unfold keys; rewrite list_lookup_fmap, He; done).
    rewrite Hk, list_lookup_fmap in Hki. destruct (seq 0 (length l) !! i) as [j|] eqn:Hj; [|done]. injection Hki as <-.
    apply lookup_seq in Hj as [-> _]. apply list_elem_of_lookup_2, elem_of_entries in He. rewrite Hm in He. cbn in He. by rewrite Nat2N.id in He.
  - symmetry. apply lookup_ge_None in Hv. apply lookup_ge_None. unfold values in Hv. rewrite length_fmap in Hv.
    apply (f_equal length) in Hk. unfold keys in Hk. rewrite !length_fmap, length_seq in Hk. lia.
Qed.

Section WorkLaws.
Context `{PI : Postcard Input, PR : Postcard (list Materialised)}.

Record work_ok (s : Coordinator) : Prop := {
  wo_inputs : exists h, ar_inputs (held s) = register 0 h (begun s) ∅ /\ h + N.of_nat (length (begun s)) <= heap s;
  wo_results : forall p rows, ar_results (held s) !! p = Some rows -> exists a, ar_inputs (held s) !! p = Some a /\ rows = reduce a.2;
  wo_calls : forall c x, calls s !! c = Some x ->
    (cl_input x).1 < heap s /\ forall p a, ar_inputs (held s) !! p = Some a -> a.1 = (cl_input x).1 -> a.2 = (cl_input x).2 }.

Lemma work_ok_new : work_ok Coordinator_new.
Proof. constructor; cbn; [exists 0; split; [done|lia]|set_solver|set_solver]. Qed.

(** Every registered input has an allocation of its own. *)
Lemma work_arcs s p a :
  work_ok s -> ar_inputs (held s) !! p = Some a ->
  a.1 < heap s /\ forall p' a', ar_inputs (held s) !! p' = Some a' -> a'.1 = a.1 -> a'.2 = a.2.
Proof.
  intros [(h & Hreg & Hh) _ _] Ha. rewrite Hreg in *. apply register_arcs in Ha as [?|(j & Hj & Hja)]; [set_solver|].
  split; [apply lookup_lt_Some in Hj; lia|]. intros p' a' [?|(j' & Hj' & Hja')]%register_arcs He; [set_solver|]. assert (j' = j) as -> by lia. congruence.
Qed.

Lemma file_cases version algorithm partition input rows st :
  (file version algorithm partition input rows st).2 = st \/
  exists a, ar_inputs st !! partition = Some a /\ a.1 = input.1 /\ ar_version st = version /\ ar_algorithm st = algorithm /\
    (file version algorithm partition input rows st).2 =
      {| ar_version := ar_version st; ar_algorithm := ar_algorithm st; ar_inputs := ar_inputs st; ar_results := <[partition := rows]> (ar_results st) |}.
Proof.
  unfold file. case_decide as Hd; [by left|]. right. apply Decidable.not_or in Hd as [Hv [Ha Hs]%Decidable.not_or].
  destruct (ar_inputs st !! partition) as [a|]; [|by destruct Hs]. exists a. split_and!; [done| | | |done].
  - destruct (bool_decide (a.1 = input.1)) eqn:Hb; [by apply bool_decide_eq_true in Hb|by destruct Hs].
  - by destruct (N.eq_dec (ar_version st) version).
  - by destruct (N.eq_dec (ar_algorithm st) algorithm).
Qed.

Lemma work_ok_opened version algorithm inputs s : work_ok s -> work_ok (opened version algorithm inputs s).
Proof.
  intros Hok. constructor; cbn [opened begin snd held heap calls begun ar_inputs ar_results].
  - exists (heap s). split; [done|lia].
  - set_solver.
  - intros c x Hx. destruct (wo_calls s Hok c x Hx) as [Hlt _]. split; [lia|]. intros p a [?|(j & _ & Ha)]%register_arcs He; [set_solver|lia].
Qed.

Lemma call_step_ok s s' : call_step s s' -> work_ok s -> work_ok s'.
Proof.
  intros Hstep Hok. destruct Hstep as [s c version algorithm partition bytes rows input Hc Hb Hr|s c x Hx Hne|s c x Hx Heq].
  - constructor; cbn [held heap calls begun]; [apply Hok|apply Hok|]. intros c' x'. rewrite lookup_insert_Some. intros [[_ <-]|[_ Hx']]; [|by eapply (wo_calls s Hok)].
    cbn [cl_input]. unfold registered in Hr. case_decide; [done|]. by eapply work_arcs.
  - constructor; cbn [held heap calls begun]; [apply Hok|apply Hok|]. intros c' x' [_ Hx']%lookup_delete_Some. by eapply (wo_calls s Hok).
  - destruct (wo_calls s Hok c x Hx) as [Hlt Hsame].
    destruct (file_cases (cl_version x) (cl_algorithm x) (cl_partition x) (cl_input x) (cl_rows x) (held s)) as [He|(a & Ha & Hid & _ & _ & He)].
    + rewrite He. constructor; cbn [held heap calls begun]; [apply Hok|apply Hok|]. intros c' x' [_ Hx']%lookup_delete_Some. by eapply (wo_calls s Hok).
    + rewrite He. constructor; cbn [held heap calls begun ar_inputs ar_results]; [apply Hok| |].
      * intros p rows. rewrite lookup_insert_Some. intros [[<- <-]|[_ Hp]]; [|by apply (wo_results s Hok)]. exists a. split; [done|].
        by rewrite Heq, (Hsame _ _ Ha Hid).
      * intros c' x' [_ Hx']%lookup_delete_Some. by eapply (wo_calls s Hok).
Qed.

Lemma work_reachable_ok s s' : rtc work_step s s' -> work_ok s -> work_ok s'.
Proof. induction 1 as [|x y z [a|a b Hab] _ IH]; [done| |]; intros Hok; apply IH; [by apply work_ok_opened|by eapply call_step_ok]. Qed.

(** Calls only add results, and what the candidate is stays. *)
Definition same_candidate (s s' : Coordinator) : Prop :=
  begun s' = begun s /\ ar_version (held s') = ar_version (held s) /\ ar_algorithm (held s') = ar_algorithm (held s) /\
  ar_inputs (held s') = ar_inputs (held s) /\ ar_results (held s) ⊆ ar_results (held s').

Lemma call_step_keeps s s' : call_step s s' -> work_ok s -> same_candidate s s'.
Proof.
  intros Hstep Hok. destruct Hstep as [s c version algorithm partition bytes rows input Hc Hb Hr|s c x Hx Hne|s c x Hx Heq]; [by split_and!..|].
  destruct (file_cases (cl_version x) (cl_algorithm x) (cl_partition x) (cl_input x) (cl_rows x) (held s)) as [He|(a & Ha & Hid & _ & _ & He)];
    unfold same_candidate; cbn [held begun]; rewrite He; [by split_and!|]. cbn [ar_version ar_algorithm ar_inputs ar_results]. split_and!; try done.
  destruct (ar_results (held s) !! cl_partition x) as [rows|] eqn:Hp; [|by apply insert_subseteq].
  rewrite insert_id; [done|]. destruct (wo_results s Hok _ _ Hp) as (a' & Ha' & ->). assert (a' = a) as -> by congruence.
  by rewrite Heq, Hp, (proj2 (wo_calls s Hok c x Hx) _ _ Ha Hid).
Qed.

Lemma calls_keep s s' : rtc call_step s s' -> work_ok s -> work_ok s' /\ same_candidate s s'.
Proof.
  induction 1 as [s|x y z Hxy _ IH]; intros Hok; [done|]. pose proof (call_step_ok x y Hxy Hok) as Hy.
  destruct (call_step_keeps x y Hxy Hok) as (H1 & H2 & H3 & H4 & H5). destruct (IH Hy) as (Hz & K1 & K2 & K3 & K4 & K5).
  split; [done|]. unfold same_candidate. split_and!; try congruence. by etrans.
Qed.

Lemma registered_begun s p x :
  work_ok s -> N.of_nat (length (begun s)) <= 2 ^ 32 ->
  begun s !! N.to_nat p = Some x <-> snd <$> ar_inputs (held s) !! p = Some x.
Proof.
  intros [(h & Hreg & _) _ _] Hlen. rewrite Hreg, register_lookup by lia. rewrite lookup_empty, N.sub_0_r. case_decide as Hd.
  - by destruct (begun s !! N.to_nat p).
  - split; [|done]. intros Hx%lookup_lt_Some. lia.
Qed.

Lemma collect_exact s version rows :
  work_ok s -> N.of_nat (length (begun s)) <= 2 ^ 32 -> collect version (held s) = Some rows ->
  ar_version (held s) = version /\ rows = begun s ≫= reduce.
Proof.
  intros Hok Hlen. unfold collect. case_decide as Hv; [done|]. case_decide as Hsz; [done|]. intros [= <-].
  split; [by destruct (N.eq_dec (ar_version (held s)) version)|].
  assert (ar_results (held s) = (fun a : Arc => reduce a.2) <$> ar_inputs (held s)) as Hres.
  { apply map_subseteq_size_eq.
    - apply map_subseteq_spec. intros p r Hp. destruct (wo_results s Hok p r Hp) as (a & Ha & ->). by rewrite lookup_fmap, Ha.
    - rewrite map_size_fmap. lia. }
  rewrite (values_of_list _ (reduce <$> begun s)).
  - clear. induction (begun s) as [|x l IH]; [done|]. cbn. by rewrite IH.
  - intros p. rewrite Hres, lookup_fmap, list_lookup_fmap. pose proof (registered_begun s p) as Hb.
    destruct (ar_inputs (held s) !! p) as [a|] eqn:Ha.
    + rewrite (proj2 (Hb a.2 Hok Hlen) eq_refl). done.
    + destruct (begun s !! N.to_nat p) as [x|]; [|done]. by pose proof (proj1 (Hb x Hok Hlen) eq_refl).
Qed.

Lemma finish_registered version algorithm partition (st : State) a :
  registered st version algorithm partition = Some a ->
  finish version algorithm partition (reduce a.2) st =
    (true, {| ar_version := ar_version st; ar_algorithm := ar_algorithm st; ar_inputs := ar_inputs st;
              ar_results := <[partition := reduce a.2]> (ar_results st) |}).
Proof.
  intros Ha. unfold finish. rewrite Ha, decide_False by (intros H; by apply H). unfold registered in Ha. unfold file.
  destruct (decide (ar_version st <> version \/ ar_algorithm st <> algorithm)) as [|Hd] in Ha; [done|]. rewrite Ha, bool_decide_eq_true_2 by done.
  rewrite decide_False; [done|]. intros [?|[?|?]]; [apply Hd; by left|apply Hd; by right|done].
Qed.

Context `{!PostcardLaws Input, !PostcardLaws (list Materialised)} (explain : Bytes -> string).

(** What an honest worker sends for its assignment is filed. *)
Lemma honest_result node version algorithm partition bytes output artifact (st : State) :
  artifact_input st (TaskAnalysis version algorithm partition) = Some bytes ->
  MarketWorkload_run explain node (TaskAnalysis version algorithm partition) bytes = Some (WorkProduced output artifact) ->
  exists a, ar_inputs st !! partition = Some a /\
    produced (TaskAnalysis version algorithm partition) artifact st =
      {| ar_version := ar_version st; ar_algorithm := ar_algorithm st; ar_inputs := ar_inputs st;
         ar_results := <[partition := reduce a.2]> (ar_results st) |}.
Proof.
  unfold artifact_input, MarketWorkload_run, produced. destruct (registered st version algorithm partition) as [a|] eqn:Ha; [|done]. cbn [mbind option_bind].
  intros Hin%from_to_bytes. destruct bytes as [|b bytes]; [done|]. rewrite Hin. destruct (to_allocvec (reduce a.2)) as [art|] eqn:Hart; [|done].
  intros [= _ <-]. rewrite (from_to_bytes _ _ Hart), (finish_registered _ _ _ _ _ Ha). exists a. split; [|done].
  unfold registered in Ha. by case_decide.
Qed.
End WorkLaws.

(** C16: Cutting a region changes nothing about what is computed.  It never panics; the
    partitions hold the slices of the history, all of them and in order, between one and
    sixteen to a partition; what they reduce to against their trimmed catalogues is, row
    for row, what one process computes market by market against the whole ones; and a
    history in the order of its items is cut into the whole history of each item, once. *)
Theorem partition_exact region ladders owner windows now history :
  (forall i j, c_id (owner i) = c_id (owner j) -> owner i = owner j) ->
  exists inputs, partition region ladders owner windows now history = Some inputs /\
    inputs ≫= reduce = omap (direct ladders owner windows now) (grouped history) /\
    (inputs ≫= fun x => (fun m : MarketInput => m.1.2) <$> in_markets x) = grouped history /\ concat (grouped history) = history /\
    Forall (fun x => (1 <= length (in_markets x) <= PARTITION_MARKETS)%nat) inputs /\
    (StronglySorted (fun x y => ps_item x <= ps_item y) history ->
       NoDup (omap (fmap ps_item ∘ head) (grouped history)) /\
       forall g, g ∈ grouped history -> exists s, head g = Some s /\ g = filter (fun x => ps_item x = ps_item s) history).
Proof.
  intros Howner. destruct (partition_spec region ladders owner windows now Howner history) as (inputs & Hp & Hr & Hs & Hl).
  destruct (grouped_from_spec (length history) history (le_n _)) as (Hc & _ & _). exists inputs. split_and!; [done..|]. intros Hsorted.
  destruct (grouped_from_sorted (length history) history (le_n _) Hsorted) as [Hg Hnd]. split; [done|]. intros g Hin.
  destruct (proj1 (Forall_forall _ _) Hg g Hin) as (s & Hs' & _ & He). eauto.
Qed.

(** C15: However the calls of workers and the opening of candidates interleave, and whatever
    bytes the workers send: what is collected are the rows of the newest candidate's
    inputs, all of them, in order and as this process would compute them, and only under
    its own version; a worker can add a result and never take one away; the result of an
    honest worker is filed; and a candidate starts with nothing of the one before it. *)
Theorem candidate_exact `{PI : Postcard Input, PR : Postcard (list Materialised), !PostcardLaws Input, !PostcardLaws (list Materialised)}
    explain s :
  rtc work_step Coordinator_new s -> N.of_nat (length (begun s)) <= 2 ^ 32 ->
  (forall version rows, collect version (held s) = Some rows -> ar_version (held s) = version /\ rows = begun s ≫= reduce) /\
  (forall s', rtc call_step s s' ->
     begun s' = begun s /\ ar_version (held s') = ar_version (held s) /\ ar_results (held s) ⊆ ar_results (held s')) /\
  (forall node p bytes output artifact,
     let spec := TaskAnalysis (ar_version (held s)) (ar_algorithm (held s)) p in
     artifact_input (held s) spec = Some bytes -> MarketWorkload_run explain node spec bytes = Some (WorkProduced output artifact) ->
     exists x, begun s !! N.to_nat p = Some x /\ ar_results (produced spec artifact (held s)) = <[p := reduce x]> (ar_results (held s))) /\
  (forall version version' algorithm inputs, inputs <> [] -> collect version (held (opened version' algorithm inputs s)) = None).
Proof.
  intros Hr Hlen. pose proof (work_reachable_ok _ _ Hr work_ok_new) as Hok. split_and!.
  - intros version rows. by apply collect_exact.
  - intros s' Hs'. destruct (calls_keep s s' Hs' Hok) as (_ & H1 & H2 & _ & _ & H5). done.
  - intros node p bytes output artifact spec Hin Hrun. destruct (honest_result explain _ _ _ _ _ _ _ _ Hin Hrun) as (a & Ha & Hp). exists a.2.
    split; [|unfold spec; by rewrite Hp]. apply registered_begun; [done..|]. by rewrite Ha.
  - intros version version' algorithm inputs Hne. unfold collect. cbn [opened begin held snd ar_version ar_results ar_inputs].
    case_decide; [done|]. rewrite decide_True; [done|]. rewrite map_size_empty. intros Hsz%eq_sym%map_size_empty_inv. revert Hsz.
    destruct inputs as [|x inputs]; [done|]. cbn [register]. intros He. destruct (register_grows (0 + 1) (heap s + 1) inputs (<[wrap 32 0 := (heap s, x)]> ∅) (wrap 32 0)) as [a Ha].
    + rewrite lookup_insert_eq. by eexists.
    + by rewrite He in Ha.
Qed.

(** ** A serialiser that knows one value, for the examples *)
Section Lone.
Context {T : Type} `{EqDecision T} (only : T).
Definition lone_postcard : Postcard T :=
  {| to_allocvec x := if decide (x = only) then Some [7] else None; from_bytes b := if decide (b = [7]) then Some only else None |}.
Lemma lone_postcard_laws : @PostcardLaws T lone_postcard.
Proof. intros x b. cbn. case_decide as Hx; [|done]. intros [= <-]. by rewrite Hx. Qed.
End Lone.

#[export] Instance ItemRank_eq_dec : EqDecision ItemRank.
Proof. solve_decision. Defined.
#[export] Instance CatalogItem_eq_dec : EqDecision CatalogItem.
Proof. solve_decision. Defined.
#[export] Instance ItemLevel_eq_dec : EqDecision ItemLevel.
Proof. solve_decision. Defined.
#[export] Instance Patch_eq_dec : EqDecision Patch.
Proof. solve_decision. Defined.
#[export] Instance RaidTier_eq_dec : EqDecision RaidTier.
Proof. solve_decision. Defined.
#[export] Instance Catalog_eq_dec : EqDecision Catalog.
Proof. solve_decision. Defined.
#[export] Instance Input_eq_dec : EqDecision Input.
Proof. solve_decision. Defined.

Definition work_sample (item : ItemId) (at_ : Millis) : PriceSample :=
  {| ps_item := item; ps_region := Eu; observed_at := at_; min_unit_price := 5; p05_unit_price := 6; median_unit_price := 7; ps_quantity := 1; ps_listings := 1 |}.
Definition work_history : list PriceSample := [work_sample 7 1; work_sample 7 2; work_sample 9 1].

Lemma partition_exact_witness :
  exists inputs, partition Eu ∅ (fun _ => demo_catalog) (fun _ => demo_windows) 9 work_history = Some inputs /\
    inputs ≫= reduce = omap (direct ∅ (fun _ => demo_catalog) (fun _ => demo_windows) 9) [[work_sample 7 1; work_sample 7 2]; [work_sample 9 1]].
Proof.
  destruct (partition_exact Eu ∅ (fun _ => demo_catalog) (fun _ => demo_windows) 9 work_history (fun _ _ _ => eq_refl)) as (inputs & H1 & H2 & _).
  exists inputs. split; [exact H1|exact H2].
Defined.

(** A candidate of one partition, whose result comes back. *)
Definition work_input : Input := seal Eu demo_catalog [(Commodity Eu 7 1, [work_sample 7 1], Ladder_default)] (fun _ => demo_windows) 9.
Definition work_inputs : Postcard Input := lone_postcard work_input.
Definition work_results : Postcard (list Materialised) := lone_postcard (reduce work_input).

Definition answered : Coordinator :=
  {| held := {| ar_version := 3; ar_algorithm := 2; ar_inputs := {[0 := (0, work_input)]}; ar_results := {[0 := reduce work_input]} |};
     heap := 1; calls := ∅; begun := [work_input] |}.

Lemma answered_reachable : rtc (@work_step work_results) Coordinator_new answered.
Proof.
  eapply rtc_l; [exact (begins Coordinator_new 3 2 [work_input])|].
  eapply rtc_l.
  { apply calls_in. apply (@looks work_results _ 5 3 2 0 [7] (reduce work_input) (0, work_input)); [done|reflexivity|reflexivity]. }
  eapply rtc_l.
  { apply calls_in. eapply (@files work_results _ 5); [apply lookup_insert_eq|reflexivity]. }
  apply rtc_refl.
Qed.

Lemma candidate_exact_witness : exists rows, collect 3 (held answered) = Some rows /\ rows = [work_input] ≫= reduce.
Proof.
  exists (concat (values (ar_results (held answered)))). assert (collect 3 (held answered) = Some (concat (values (ar_results (held answered))))) as Hc.
  { unfold collect. rewrite decide_False by (intros H; by apply H). rewrite decide_False; [reflexivity|]. intros H. by apply H. }
  split; [exact Hc|].
  refine (proj2 (proj1 (@candidate_exact work_inputs work_results (lone_postcard_laws _) (lone_postcard_laws _) (fun _ => "") answered answered_reachable _) 3 _ Hc)).
  vm_compute. discriminate.
Defined.
