(* ===== verification/RealmStore.v ===== *)
(** * RealmStore: per-realm prices, stored when they change

    Models [crates/storage/src/sqlite/realm_prices.rs].  Each poll of a realm is entered
    in a ledger; a sample row is written only where a market differs from its newest row,
    and a row without listings where it is gone; the queries expand the rows over the
    ledger again.  A table with a primary key is a [gmap] from that key, [ON CONFLICT DO
    NOTHING] and [INSERT OR IGNORE] leave a key that is there alone, and a call is one
    transaction.  [LEAD] over a market's rows in the order of time is the least later
    instant of the market; an aggregate over no rows is [NULL], and comparing with [NULL]
    holds of nothing.

    The theorem is that storing changes only cannot be seen: the queries answer as a
    table of every sample of every poll would. *)
From Stdlib Require Import Ascii ZArith.
From stdpp Require Import prelude gmap sorting strings pretty.
From S2P Require Import Prelude Text Time Store Sqlite Market Catalog Depth DepthLaws DepthCodec MarketKey Realm PriceStore Daily.

(** ** The tables *)

(** item_id, region, realm_id, variant_id *)
Abbreviation Market := (Z * string * Z * Z)%type.
Definition m_item (m : Market) : Z := m.1.1.1.
Definition m_region (m : Market) : string := m.1.1.2.
Definition m_realm (m : Market) : Z := m.1.2.
Definition m_variant (m : Market) : Z := m.2.

Record Body := { b_min : Z; b_median : Z; b_max : Z; b_listings : Z }.
Record Rungs := { rg_levels : Z; rg_total : Z; rg_steps : string }.
Record RealmRow := { rr_name : string; rr_members : string; rr_locale : string; rr_enabled : Z }.

Abbreviation SampleTable := (gmap (Market * Z) Body).
Abbreviation LadderTable := (gmap (Market * Z) Rungs).

Record RealmTables := {
  rt_variants : list string; rt_ledger : gset (string * Z * Z); rt_samples : SampleTable; rt_ladders : LadderTable;
  rt_realms : gmap (Z * string) RealmRow; rt_daily : gmap (Market * Z) DailyRollup }.
Definition RealmTables_empty : RealmTables :=
  {| rt_variants := []; rt_ledger := ∅; rt_samples := ∅; rt_ladders := ∅; rt_realms := ∅; rt_daily := ∅ |}.

(** A new row, and the rows affected. *)
Definition insert_new {B} (k : Market * Z) (b : B) (t : gmap (Market * Z) B) : N * gmap (Market * Z) B :=
  match t !! k with Some _ => (0, t) | None => (1, <[k := b]> t) end.

(** ** The dictionary of variants: [variant_id] counts from one and no row is deleted. *)
Definition variant_index (variants : list string) (v : string) : option Z :=
  (fun p => Z.of_nat p.1 + 1)%Z <$> list_find (fun x => x = v) variants.
Definition variant_of (variants : list string) (id : Z) : option string :=
  if decide (0 < id)%Z then variants !! Z.to_nat (id - 1) else None.

Definition add_variant (variants : list string) (v : string) : list string := if decide (v ∈ variants) then variants else variants ++ [v].

Definition variant_id (cache : gmap string Z) (variants : list string) (v : string) : Z * (gmap string Z * list string) :=
  match cache !! v with
  | Some id => (id, (cache, variants))
  | None =>
      let variants := add_variant variants v in
      let id := default 0%Z (variant_index variants v) in (id, (<[v := id]> cache, variants))
  end.

(** ** Recording a poll *)
Definition Incoming : Type := ItemId * string * Ladder.

(** The instants of a market. *)
Definition instants {B} (m : Market) (t : gmap (Market * Z) B) : list Z :=
  (fun kv => kv.1.2) <$> filter (fun kv : Market * Z * B => kv.1.1 = m) (map_to_list t).

Record Prev := { pv_min : Z; pv_median : Z; pv_listings : Z; pv_steps : option string }.

(** The newest row of each market of the realm, with the ladder of its instant. *)
Definition previous_rows (region : string) (realm : Z) (samples : SampleTable) (ladders : LadderTable) : gmap (Z * Z) Prev :=
  list_to_map (omap (fun kv : Market * Z * Body =>
    let '((m, at_), b) := kv in
    if decide (m_region m = region /\ m_realm m = realm /\ maxZ (instants m samples) = Some at_)
    then Some ((m_item m, m_variant m),
               {| pv_min := b_min b; pv_median := b_median b; pv_listings := b_listings b; pv_steps := rg_steps <$> ladders !! (m, at_) |})
    else None) (map_to_list samples)).

Definition incoming_ladders (ladders : list Incoming) : gmap (Z * string) string :=
  foldl (fun m l => if Ladder_is_empty l.2 then m else <[(as_i64 l.1.1, l.1.2) := Ladder_encode l.2]> m) ∅ ladders.

Definition body_of (s : RealmSample) : Body :=
  {| b_min := as_i64 (rs_min_price s); b_median := as_i64 (rs_median_price s); b_max := as_i64 (rs_max_price s); b_listings := as_i64 (rs_listings s) |}.

Definition differs (s : RealmSample) (steps : option string) (prev : option Prev) : bool :=
  match prev with
  | Some p => bool_decide (as_i64 (rs_min_price s) <> pv_min p \/ as_i64 (rs_median_price s) <> pv_median p \/
                           as_i64 (rs_listings s) <> pv_listings p \/ steps <> pv_steps p)
  | None => true
  end.

Record Progress := {
  pg_cache : gmap string Z; pg_variants : list string; pg_samples : SampleTable; pg_ladders : LadderTable; pg_previous : gmap (Z * Z) Prev;
  pg_sample_rows : N; pg_ladder_rows : N }.

Definition record_one (region : string) (realm at_ : Z) (ladders : list Incoming) (pg : Progress) (s : RealmSample) : Progress :=
  let item := as_i64 (rs_item s) in
  let '(variant, (cache, variants)) := variant_id (pg_cache pg) (pg_variants pg) (rs_variant s) in
  let steps := incoming_ladders ladders !! (item, rs_variant s) in
  let changed := differs s steps (pg_previous pg !! (item, variant)) in
  let previous := delete (item, variant) (pg_previous pg) in
  let key := ((item, region, realm, variant), at_) in
  if changed then
    let '(n, samples) := insert_new key (body_of s) (pg_samples pg) in
    let '(k, rungs) :=
      match find_first (fun l : Incoming => bool_decide (as_i64 l.1.1 = item /\ l.1.2 = rs_variant s)) ladders with
      | Some l => if Ladder_is_empty l.2 then (0, pg_ladders pg)
                  else insert_new key {| rg_levels := as_i64 (levels l.2); rg_total := as_i64 (total l.2); rg_steps := default "" steps |} (pg_ladders pg)
      | None => (0, pg_ladders pg)
      end in
    {| pg_cache := cache; pg_variants := variants; pg_samples := samples; pg_ladders := rungs; pg_previous := previous;
       pg_sample_rows := pg_sample_rows pg + n; pg_ladder_rows := pg_ladder_rows pg + k |}
  else
    {| pg_cache := cache; pg_variants := variants; pg_samples := pg_samples pg; pg_ladders := pg_ladders pg; pg_previous := previous;
       pg_sample_rows := pg_sample_rows pg; pg_ladder_rows := pg_ladder_rows pg |}.

Definition tombstone : Body := {| b_min := 0; b_median := 0; b_max := 0; b_listings := 0 |}.

(** A market that was listed and is not any more. *)
Definition bury (region : string) (realm at_ : Z) (acc : N * SampleTable) (gone : Z * Z * Prev) : N * SampleTable :=
  if decide (0 < pv_listings gone.2)%Z then
    let '(n, samples) := insert_new ((gone.1.1, region, realm, gone.1.2), at_) tombstone acc.2 in (acc.1 + n, samples)
  else acc.

Definition record_snapshot (samples : list RealmSample) (region_ : Region) (realm_ : RealmId) (observed : Millis) (ladders : list Incoming)
    (db : RealmTables) : StoreResult (N * N) * RealmTables :=
  let region := Region_as_str region_ in
  let realm := as_i64 realm_ in
  let at_ := as_i64 observed in
  let pg := foldl (record_one region realm at_ ladders)
    {| pg_cache := ∅; pg_variants := rt_variants db; pg_samples := rt_samples db; pg_ladders := rt_ladders db;
       pg_previous := previous_rows region realm (rt_samples db) (rt_ladders db); pg_sample_rows := 0; pg_ladder_rows := 0 |} samples in
  let '(n, rows) := foldl (bury region realm at_) (pg_sample_rows pg, pg_samples pg) (map_to_list (pg_previous pg)) in
  (Ok (n, pg_ladder_rows pg),
   {| rt_variants := pg_variants pg; rt_ledger := {[(region, realm, at_)]} ∪ rt_ledger db; rt_samples := rows; rt_ladders := pg_ladders pg;
      rt_realms := rt_realms db; rt_daily := rt_daily db |}).

Definition with_samples (variants : list string) (t : SampleTable) (db : RealmTables) : RealmTables :=
  {| rt_variants := variants; rt_ledger := rt_ledger db; rt_samples := t; rt_ladders := rt_ladders db; rt_realms := rt_realms db; rt_daily := rt_daily db |}.
Definition with_ladders (variants : list string) (t : LadderTable) (db : RealmTables) : RealmTables :=
  {| rt_variants := variants; rt_ledger := rt_ledger db; rt_samples := rt_samples db; rt_ladders := t; rt_realms := rt_realms db; rt_daily := rt_daily db |}.

(** Rows without a poll: what is older than the ledger. *)
Definition record_samples (samples : list RealmSample) (db : RealmTables) : StoreResult N * RealmTables :=
  match samples with
  | [] => (Ok 0, db)
  | _ =>
      let '(written, (_, variants), t) := foldl (fun '(written, (cache, variants), t) s =>
        let '(variant, cv) := variant_id cache variants (rs_variant s) in
        let '(n, t) := insert_new ((as_i64 (rs_item s), Region_as_str (rs_region s), as_i64 (rs_realm s), variant), as_i64 (rs_observed_at s)) (body_of s) t in
        (written + n, cv, t)) (0, (∅, rt_variants db), rt_samples db) samples in
      (Ok written, with_samples variants t db)
  end.

Definition record_ladders (region : Region) (realm : RealmId) (observed : Millis) (ladders : list Incoming) (db : RealmTables) :
    StoreResult N * RealmTables :=
  match ladders with
  | [] => (Ok 0, db)
  | _ =>
      let '(written, (_, variants), t) := foldl (fun '(written, (cache, variants), t) (l : Incoming) =>
        if Ladder_is_empty l.2 then (written, (cache, variants), t)
        else
          let '(variant, cv) := variant_id cache variants l.1.2 in
          let '(n, t) := insert_new ((as_i64 l.1.1, Region_as_str region, as_i64 realm, variant), as_i64 observed)
            {| rg_levels := as_i64 (levels l.2); rg_total := as_i64 (total l.2); rg_steps := Ladder_encode l.2 |} t in
          (written + n, cv, t)) (0, (∅, rt_variants db), rt_ladders db) ladders in
      (Ok written, with_ladders variants t db)
  end.

Definition prune_ladders_before (before : Millis) (db : RealmTables) : StoreResult N * RealmTables :=
  let kept := filter (fun kv : Market * Z * Rungs => ~ (kv.1.2 < as_i64 before)%Z) (rt_ladders db) in
  (Ok (N.of_nat (size (rt_ladders db) - size kept)), with_ladders (rt_variants db) kept db).

(** ** Reading *)
Definition Row : Type := Market * string * Z * Body.

Definition sample_of_row (row : Row) : StoreResult RealmSample :=
  let '(m, variant, at_, b) := row in
  let? region := ok_or (corrupt "region" (m_region m)) (Region_parse (m_region m)) in
  Ok {| rs_item := as_u32 (m_item m); rs_region := region; rs_realm := as_u32 (m_realm m); rs_variant := variant; rs_observed_at := as_u64 at_;
        rs_min_price := as_u64 (b_min b); rs_median_price := as_u64 (b_median b); rs_max_price := as_u64 (b_max b);
        rs_listings := as_u32 (b_listings b) |}.

(** [JOIN market_variants]. *)
Definition joined (db : RealmTables) (rows : list (Market * Z * Body)) : list Row :=
  omap (fun kv : Market * Z * Body => v ← variant_of (rt_variants db) (m_variant kv.1.1); Some (kv.1.1, v, kv.1.2, kv.2)) rows.

Definition minZ (l : list Z) : option Z := match l with [] => None | x :: l' => Some (foldl Z.min x l') end.

(** The common table expressions of the three histories.  [keep] is what the query asks
    of a market, [upto] the newest poll it looks at. *)
Definition changes (keep : Market -> bool) (upto : option Z) (t : SampleTable) : list (Market * Z * Body) :=
  match upto with
  | None => []
  | Some u => filter (fun kv : Market * Z * Body => keep kv.1.1 = true /\ (kv.1.2 <= u)%Z) (map_to_list t)
  end.

Definition next_change (rows : list (Market * Z * Body)) (m : Market) (at_ : Z) : option Z :=
  minZ ((fun kv => kv.1.2) <$> filter (fun kv : Market * Z * Body => kv.1.1 = m /\ (at_ < kv.1.2)%Z) rows).

(** [next IS NULL OR at < next]. *)
Definition still (at_ : Z) (next : option Z) : bool := match next with Some n => bool_decide (at_ < n)%Z | None => true end.

Definition expanded (region : string) (since : Z) (rows : list (Market * Z * Body)) (ledger : gset (string * Z * Z)) : list (Market * Z * Body) :=
  rows ≫= fun kv => omap (fun p : string * Z * Z =>
    if decide (p.1.1 = m_region kv.1.1 /\ p.1.2 = m_realm kv.1.1 /\ (kv.1.2 <= p.2)%Z /\
               still p.2 (next_change rows kv.1.1 kv.1.2) = true /\ p.1.1 = region /\ (since <= p.2)%Z)
    then Some (kv.1.1, p.2, kv.2) else None) (elements ledger).

(** What no poll vouches for. *)
Definition unpolled (keep : Market -> bool) (since : Z) (db : RealmTables) : list (Market * Z * Body) :=
  filter (fun kv : Market * Z * Body =>
    keep kv.1.1 = true /\ (since <= kv.1.2)%Z /\ (m_region kv.1.1, m_realm kv.1.1, kv.1.2) ∉ rt_ledger db) (map_to_list (rt_samples db)).

Definition history_rows (keep : Market -> bool) (upto : option Z) (region : Region) (since : Millis) (db : RealmTables) : list Row :=
  joined db (filter (fun kv : Market * Z * Body => (0 < b_listings kv.2)%Z)
    (expanded (Region_as_str region) (as_i64 since) (changes keep upto (rt_samples db)) (rt_ledger db))) ++
  joined db (unpolled keep (as_i64 since) db).

Definition polls (region : Region) (realm : option RealmId) (db : RealmTables) : list Z :=
  (fun p => p.2) <$> filter (fun p : string * Z * Z => p.1.1 = Region_as_str region /\ match realm with Some r => bool_decide (p.1.2 = as_i64 r) | None => true end = true)
    (elements (rt_ledger db)).

Definition row_time_cmp (a b : Row) : comparison := Z.compare a.1.2 b.1.2.
Definition window_cmp (a b : Row) : comparison :=
  cmp_then (Z.compare (m_item a.1.1.1) (m_item b.1.1.1)) (cmp_then (Z.compare (m_realm a.1.1.1) (m_realm b.1.1.1))
    (cmp_then (string_cmp a.1.1.2 b.1.1.2) (row_time_cmp a b))).

Definition window_in_region (region : Region) (since : Millis) (db : RealmTables) : StoreResult (list RealmSample) :=
  collect_results (sample_of_row <$> sort_by window_cmp
    (history_rows (fun m => bool_decide (m_region m = Region_as_str region)) (maxZ (polls region None db)) region since db)).

Definition history (item : ItemId) (region : Region) (realm : RealmId) (since : Millis) (db : RealmTables) : StoreResult (list RealmSample) :=
  collect_results (sample_of_row <$> sort_by row_time_cmp
    (history_rows (fun m => bool_decide (m_region m = Region_as_str region /\ m_item m = as_i64 item /\ m_realm m = as_i64 realm))
       (maxZ (polls region (Some realm) db)) region since db)).

Definition history_in_region (item : ItemId) (region : Region) (since : Millis) (db : RealmTables) : StoreResult (list RealmSample) :=
  collect_results (sample_of_row <$> sort_by row_time_cmp
    (history_rows (fun m => bool_decide (m_region m = Region_as_str region /\ m_item m = as_i64 item)) (maxZ (polls region None db)) region since db)).

(** [LATEST] grouped [BY_MARKET]: the bare columns are those of the newest row. *)
Definition latest_rows (keep : Market -> bool) (db : RealmTables) : list Row :=
  joined db (filter (fun kv : Market * Z * Body => keep kv.1.1 = true /\ maxZ (instants kv.1.1 (rt_samples db)) = Some kv.1.2)
    (map_to_list (rt_samples db))).

Definition latest (region : Region) (realm : RealmId) (db : RealmTables) : StoreResult (list RealmSample) :=
  collect_results (sample_of_row <$> latest_rows (fun m => bool_decide (m_region m = Region_as_str region /\ m_realm m = as_i64 realm)) db).
Definition latest_in_region (region : Region) (db : RealmTables) : StoreResult (list RealmSample) :=
  collect_results (sample_of_row <$> latest_rows (fun m => bool_decide (m_region m = Region_as_str region)) db).

Definition newest_ladders (keep : Market -> bool) (db : RealmTables) : list (Market * string * Z * Rungs) :=
  omap (fun kv : Market * Z * Rungs => v ← variant_of (rt_variants db) (m_variant kv.1.1); Some (kv.1.1, v, kv.1.2, kv.2))
    (filter (fun kv : Market * Z * Rungs => keep kv.1.1 = true /\ maxZ (instants kv.1.1 (rt_ladders db)) = Some kv.1.2) (map_to_list (rt_ladders db))).

Definition latest_ladders_for (region : Region) (item : ItemId) (db : RealmTables) : StoreResult (list (RealmId * string * Millis * Ladder)) :=
  Ok ((fun r => (as_u32 (m_realm r.1.1.1), r.1.1.2, as_u64 r.1.2, Ladder_decode (rg_steps r.2))) <$>
    newest_ladders (fun m => bool_decide (m_region m = Region_as_str region /\ m_item m = as_i64 item)) db).
Definition latest_ladders_in_region (region : Region) (db : RealmTables) : StoreResult (list (RealmId * ItemId * string * Ladder)) :=
  Ok ((fun r => (as_u32 (m_realm r.1.1.1), as_u32 (m_item r.1.1.1), r.1.1.2, Ladder_decode (rg_steps r.2))) <$>
    newest_ladders (fun m => bool_decide (m_region m = Region_as_str region)) db).

(** [NULL] decodes as zero, which counts as never. *)
Definition last_observed (region : Region) (realm : RealmId) (db : RealmTables) : StoreResult (option Millis) :=
  let seen := (fun kv => kv.1.2) <$> filter (fun kv : Market * Z * Body => m_region kv.1.1 = Region_as_str region /\ m_realm kv.1.1 = as_i64 realm)
                (map_to_list (rt_samples db)) in
  let at_ := as_u64 (default 0%Z (maxZ (polls region (Some realm) db ++ seen))) in
  Ok (if decide (0 < at_) then Some at_ else None).

(** ** A day's rows *)
Definition expanded_on (from until : Z) (db : RealmTables) : list (Market * Z * Body) :=
  filter (fun p : string * Z * Z => (from <= p.2 < until)%Z) (elements (rt_ledger db)) ≫= fun p =>
    omap (fun kv : Market * Z * Body =>
      if decide (m_region kv.1.1 = p.1.1 /\ m_realm kv.1.1 = p.1.2 /\
                 maxZ (filter (fun t => (t <= p.2)%Z) (instants kv.1.1 (rt_samples db))) = Some kv.1.2)
      then Some (kv.1.1, p.2, kv.2) else None) (map_to_list (rt_samples db)).

Definition day_of_rows (from until : Z) (db : RealmTables) : list (Market * Z * Body) :=
  filter (fun kv : Market * Z * Body => (0 < b_listings kv.2)%Z) (expanded_on from until db) ++
  filter (fun kv : Market * Z * Body => (from <= kv.1.2 < until)%Z /\ (m_region kv.1.1, m_realm kv.1.1, kv.1.2) ∉ rt_ledger db)
    (map_to_list (rt_samples db)).

Definition day_cmp (a b : Market * Z * Body) : comparison :=
  cmp_then (Z.compare (m_item a.1.1) (m_item b.1.1)) (cmp_then (string_cmp (m_region a.1.1) (m_region b.1.1))
    (cmp_then (Z.compare (m_realm a.1.1) (m_realm b.1.1)) (cmp_then (Z.compare (m_variant a.1.1) (m_variant b.1.1)) (Z.compare a.1.2 b.1.2)))).

(** The quantity is not kept per realm, and the daily table has no column for it. *)
Definition observed_row (r : Market * Z * Body) : Observation :=
  {| o_at := as_u64 r.1.2; o_price := as_u64 (b_min r.2); o_quantity := 0; o_listings := as_u64 (b_listings r.2) |}.

Definition day_key_cmp (a b : (N * string * N * N) * list Observation) : comparison :=
  cmp_then (N.compare a.1.1.1.1 b.1.1.1.1) (cmp_then (string_cmp a.1.1.1.2 b.1.1.1.2)
    (cmp_then (N.compare a.1.1.2 b.1.1.2) (N.compare a.1.2 b.1.2))).

Definition build_daily_rollups (day_start : Millis) (db : RealmTables) : StoreResult N * RealmTables :=
  let from := as_i64 day_start in
  let until := as_i64 (wrap 64 (day_start + 86400000)) in
  let grouped := group_by (fun r : Market * Z * Body => (as_u32 (m_item r.1.1), m_region r.1.1, as_u32 (m_realm r.1.1), as_u32 (m_variant r.1.1)))
    observed_row (sort_by day_cmp (day_of_rows from until db)) in
  let write t (kv : (N * string * N * N) * list Observation) :=
    <[((as_i64 kv.1.1.1.1, kv.1.1.1.2, as_i64 kv.1.1.2, as_i64 kv.1.2), from) := compute kv.2]> t in
  (Ok (N.of_nat (size grouped)),
   {| rt_variants := rt_variants db; rt_ledger := rt_ledger db; rt_samples := rt_samples db; rt_ladders := rt_ladders db; rt_realms := rt_realms db;
      rt_daily := foldl write (rt_daily db) (sort_by day_key_cmp (map_to_list grouped)) |}).

(** ** The directory of realms *)
Definition with_realms (t : gmap (Z * string) RealmRow) (db : RealmTables) : RealmTables :=
  {| rt_variants := rt_variants db; rt_ledger := rt_ledger db; rt_samples := rt_samples db; rt_ladders := rt_ladders db; rt_realms := t; rt_daily := rt_daily db |}.

Section Members.
Context `{JM : Json (list string)}.

(** The upsert leaves [enabled] alone. *)
Definition record_realm (realm : Realm) (db : RealmTables) : StoreResult unit * RealmTables :=
  let k := (as_i64 (r_id realm), Region_as_str (r_region realm)) in
  let enabled := match rt_realms db !! k with Some row => rr_enabled row | None => if r_enabled realm then 1%Z else 0%Z end in
  (Ok tt, with_realms (<[k := {| rr_name := r_name realm; rr_members := to_json (r_members realm); rr_locale := r_locale realm; rr_enabled := enabled |}]>
                         (rt_realms db)) db).

Definition set_realm_enabled (region : Region) (realm : RealmId) (enabled : bool) (db : RealmTables) : StoreResult unit * RealmTables :=
  (Ok tt, with_realms (alter (fun row => {| rr_name := rr_name row; rr_members := rr_members row; rr_locale := rr_locale row;
                                             rr_enabled := if enabled then 1%Z else 0%Z |}) (as_i64 realm, Region_as_str region) (rt_realms db)) db).

Definition realm_from_row (kv : (Z * string) * RealmRow) : StoreResult Realm :=
  let? region := ok_or (corrupt "region" kv.1.2) (Region_parse kv.1.2) in
  Ok {| r_id := as_u32 kv.1.1; r_region := region; r_name := rr_name kv.2; r_members := default [] (from_json (rr_members kv.2));
        r_locale := rr_locale kv.2; r_enabled := bool_decide (rr_enabled kv.2 <> 0%Z) |}.

Definition realms (db : RealmTables) : StoreResult (list Realm) :=
  collect_results (realm_from_row <$>
    sort_by (fun a b : (Z * string) * RealmRow => cmp_then (string_cmp a.1.2 b.1.2) (string_cmp (rr_name a.2) (rr_name b.2))) (map_to_list (rt_realms db))).
End Members.

(** ** What is current *)

(** The newest row of a market up to an instant. *)
Definition current {B} (t : gmap (Market * Z) B) (m : Market) (at_ : Z) (b : B) : Prop :=
  exists u, (u <= at_)%Z /\ t !! (m, u) = Some b /\ forall u', (u < u' <= at_)%Z -> t !! (m, u') = None.

Lemma current_unique {B} (t : gmap (Market * Z) B) m at_ b b' : current t m at_ b -> current t m at_ b' -> b = b'.
Proof.
  intros (u & Hu & Hb & Hn) (u' & Hu' & Hb' & Hn'). destruct (Z.lt_trichotomy u u') as [H|[->|H]]; [|congruence|].
  - by rewrite (Hn u') in Hb' by lia.
  - by rewrite (Hn' u) in Hb by lia.
Qed.

Lemma minZ_fold x l : (foldl Z.min x l <= x)%Z /\ (foldl Z.min x l = x \/ foldl Z.min x l ∈ l) /\ forall y, y ∈ l -> (foldl Z.min x l <= y)%Z.
Proof.
  revert x. induction l as [|y l IH]; intros x; cbn [foldl]; [split_and!; [lia|by left|set_solver]|].
  destruct (IH (Z.min x y)) as (H1 & H2 & H3). split_and!; [lia| |].
  - destruct H2 as [H2|H2]; [|right; by right]. destruct (Z.min_spec x y) as [[_ He]|[_ He]]; rewrite He in H2 |- *; [by left|right; rewrite H2; by left].
  - intros z [->|Hz]%elem_of_cons; [lia|by apply H3].
Qed.

Lemma minZ_spec l x : minZ l = Some x <-> x ∈ l /\ forall y, y ∈ l -> (x <= y)%Z.
Proof.
  destruct l as [|a l]; cbn [minZ]; [split; [done|intros [H _]; set_solver]|]. destruct (minZ_fold a l) as (H1 & H2 & H3). split.
  - intros [= <-]. split; [destruct H2 as [->|H2]; [by left|by right]|]. intros y [->|Hy]%elem_of_cons; [lia|by apply H3].
  - intros [Hx Hmin]. f_equal. assert (foldl Z.min a l ∈ a :: l) as Hin by (destruct H2 as [->|H2]; [by left|by right]).
    pose proof (Hmin _ Hin). apply elem_of_cons in Hx as [->|Hx]; [lia|]. specialize (H3 x Hx). lia.
Qed.

Lemma minZ_None l : minZ l = None <-> l = [].
Proof. by destruct l. Qed.

Lemma maxZ_opp l : maxZ l = Z.opp <$> minZ (Z.opp <$> l).
Proof.
  destruct l as [|a l]; [done|]. rewrite fmap_cons. cbn [maxZ minZ fmap option_fmap option_map]. f_equal. revert a. induction l as [|y l IH]; intros a; [cbn; lia|].
  rewrite fmap_cons. cbn [foldl]. rewrite IH. do 3 f_equal. lia.
Qed.

Lemma maxZ_spec l x : maxZ l = Some x <-> x ∈ l /\ forall y, y ∈ l -> (y <= x)%Z.
Proof.
  rewrite maxZ_opp. transitivity (minZ (Z.opp <$> l) = Some (- x)%Z).
  { destruct (minZ (Z.opp <$> l)) as [z|]; cbn; [|done]. split; intros [= He]; f_equal; lia. }
  rewrite minZ_spec. split; intros [Hx Hm].
  - apply list_elem_of_fmap in Hx as (y & He & Hy). assert (y = x) as -> by lia. split; [done|]. intros z Hz.
    assert (- x <= - z)%Z; [|lia]. apply Hm. by apply list_elem_of_fmap_2.
  - split; [by apply list_elem_of_fmap_2|]. intros y (z & -> & Hz)%list_elem_of_fmap. specialize (Hm z Hz). lia.
Qed.

Lemma elem_of_instants {B} (m : Market) (u : Z) (t : gmap (Market * Z) B) : u ∈ instants m t <-> is_Some (t !! (m, u)).
Proof.
  unfold instants. rewrite list_elem_of_fmap. split.
  - intros ([[m' u'] b] & -> & [Hm Hin%elem_of_map_to_list]%list_elem_of_filter). cbn in *. subst m'. by eexists.
  - intros [b Hb]. exists ((m, u), b). split; [done|]. apply list_elem_of_filter. split; [done|]. by apply elem_of_map_to_list.
Qed.

(** The expansion by [LEAD] is the newest row at each poll. *)
Lemma expanded_elem (region : string) (since : Z) (keep : Market -> bool) (upto : option Z) (t : SampleTable) (ledger : gset (string * Z * Z)) (m : Market) (at_ : Z) (b : Body) :
  (keep m = true -> (m_region m, m_realm m, at_) ∈ ledger -> m_region m = region -> exists u0, upto = Some u0 /\ (at_ <= u0)%Z) ->
  (m, at_, b) ∈ expanded region since (changes keep upto t) ledger <->
  keep m = true /\ m_region m = region /\ (m_region m, m_realm m, at_) ∈ ledger /\ (since <= at_)%Z /\ current t m at_ b.
Proof.
  intros Hupto. unfold expanded. rewrite list_elem_of_bind. split.
  - intros ([[m' u] b'] & Hp & Hrow). apply list_elem_of_omap in Hp as (p & Hp%elem_of_elements & Hd).
    cbn [fst snd] in Hd. case_decide as Hc; [|done]. injection Hd as -> <- ->. destruct Hc as (H1 & H2 & H3 & H4 & H5 & H6).
    destruct p as [[r rl] at']. cbn [fst snd] in *. subst r rl. unfold changes in Hrow. destruct upto as [u0|]; [|by apply not_elem_of_nil in Hrow].
    apply list_elem_of_filter in Hrow as [[Hk Hu] Hin%elem_of_map_to_list]. cbn [fst snd] in *.
    destruct Hupto as (u1 & [= <-] & Hat); [done..|]. split_and!; [done..|]. exists u. split_and!; [done..|]. intros u' Hu'.
    destruct (t !! (m, u')) as [b1|] eqn:Hb1; [|done]. exfalso. unfold still, next_change in H4.
    assert (u' ∈ (fun kv : Market * Z * Body => kv.1.2) <$> filter (fun kv : Market * Z * Body => kv.1.1 = m /\ (u < kv.1.2)%Z) (changes keep (Some u0) t)) as Hin'.
    { apply list_elem_of_fmap. exists ((m, u'), b1). split; [done|]. apply list_elem_of_filter. cbn [fst snd]. split; [split; [done|lia]|].
      cbn [changes]. apply list_elem_of_filter. cbn [fst snd]. split; [split; [done|lia]|]. by apply elem_of_map_to_list. }
    destruct (minZ _) as [n|] eqn:Hn; [|apply minZ_None in Hn; cbn [changes] in *; rewrite Hn in Hin'; by apply not_elem_of_nil in Hin'].
    apply bool_decide_eq_true in H4. apply minZ_spec in Hn as [_ Hmin]. specialize (Hmin u' Hin'). lia.
  - intros (Hk & Hr & Hl & Hs & u & Hu & Hb & Hnone). destruct (Hupto Hk Hl Hr) as (u0 & -> & Hat).
    assert ((m, u, b) ∈ changes keep (Some u0) t) as Hrow.
    { apply list_elem_of_filter. cbn [fst snd]. split; [split; [done|lia]|]. by apply elem_of_map_to_list. }
    exists ((m, u), b). split; [|done]. apply list_elem_of_omap. exists (m_region m, m_realm m, at_). split; [by apply elem_of_elements|].
    cbn [fst snd]. rewrite decide_True; [done|]. split_and!; try done. unfold still. destruct (next_change _ m u) as [n|] eqn:Hn; [|done].
    apply bool_decide_eq_true_2. apply minZ_spec in Hn as [Hn _]. apply list_elem_of_fmap in Hn as ([[m' n'] b'] & -> & Hn). cbn [fst snd] in *.
    apply list_elem_of_filter in Hn as [[He Hlt] Hn]. cbn [fst snd] in *. subst m'. apply list_elem_of_filter in Hn as [_ Hn%elem_of_map_to_list].
    destruct (decide (n' <= at_)%Z); [|lia]. by rewrite Hnone in Hn by lia.
Qed.

(** And so is the expansion of a day. *)
Lemma expanded_on_elem from until db m at_ b :
  (m, at_, b) ∈ expanded_on from until db <->
  (from <= at_ < until)%Z /\ (m_region m, m_realm m, at_) ∈ rt_ledger db /\ current (rt_samples db) m at_ b.
Proof.
  unfold expanded_on. rewrite list_elem_of_bind. split.
  - intros (p & Hrow & [Hp Hl%elem_of_elements]%list_elem_of_filter). apply list_elem_of_omap in Hrow as ([[m' u] b'] & Hin%elem_of_map_to_list & Hd).
    cbn [fst snd] in Hd. case_decide as Hc; [|done]. injection Hd as -> <- ->. destruct Hc as (H1 & H2 & [H3 H4]%maxZ_spec).
    destruct p as [[r rl] at']. cbn [fst snd] in *. subst r rl. apply list_elem_of_filter in H3 as [Hu _]. split_and!; [lia|lia|done|].
    exists u. split_and!; [done|done|]. intros u' Hu'. destruct (rt_samples db !! (m, u')) eqn:He; [|done]. exfalso.
    assert (u' <= u)%Z; [|lia]. apply H4. apply list_elem_of_filter. split; [lia|]. apply elem_of_instants. by eexists.
  - intros (Hat & Hl & u & Hu & Hb & Hnone). exists (m_region m, m_realm m, at_). split.
    + apply list_elem_of_omap. exists ((m, u), b). split; [by apply elem_of_map_to_list|]. cbn [fst snd]. rewrite decide_True; [done|]. split_and!; [done..|].
      apply maxZ_spec. split; [apply list_elem_of_filter; split; [done|]; apply elem_of_instants; by eexists|].
      intros u' [Hu' [b' Hb']%elem_of_instants]%list_elem_of_filter. destruct (decide (u' <= u)%Z); [done|]. by rewrite Hnone in Hb' by lia.
    + apply list_elem_of_filter. split; [done|]. by apply elem_of_elements.
Qed.

(** ** The dictionary *)
Lemma variant_index_of variants v id : NoDup variants -> variant_index variants v = Some id <-> variant_of variants id = Some v.
Proof.
  intros Hnd. unfold variant_index, variant_of. split.
  - destruct (list_find (fun x => x = v) variants) as [[i x]|] eqn:Hf; [|done]. intros [= <-]. apply list_find_Some in Hf as (Hi & -> & _). cbn [fst].
    rewrite decide_True by lia. by replace (Z.to_nat (Z.of_nat i + 1 - 1)) with i by lia.
  - case_decide as Hid; [|done]. intros Hv. assert (list_find (fun x => x = v) variants = Some (Z.to_nat (id - 1), v)) as ->.
    { apply list_find_Some. split_and!; [done|done|]. intros j y Hj Hlt ->. assert (j = Z.to_nat (id - 1)); [|lia]. by eapply NoDup_lookup. }
    cbn. f_equal. lia.
Qed.

Lemma add_variant_NoDup variants v : NoDup variants -> NoDup (add_variant variants v).
Proof.
  intros Hnd. unfold add_variant. case_decide as Hv; [done|]. apply NoDup_app. split_and!; [done| |apply NoDup_singleton].
  intros x Hx ->%list_elem_of_singleton. done.
Qed.
Lemma add_variant_prefix variants v : variants `prefix_of` add_variant variants v.
Proof. unfold add_variant. case_decide; [done|by exists [v]]. Qed.
Lemma add_variant_elem variants v : v ∈ add_variant variants v.
Proof. unfold add_variant. case_decide; [done|]. rewrite elem_of_app. right. by left. Qed.

Lemma add_variants_prefix variants l : variants `prefix_of` foldl add_variant variants l.
Proof. revert variants. induction l as [|v l IH]; intros variants; [done|]. cbn [foldl]. etrans; [apply add_variant_prefix|apply IH]. Qed.
Lemma add_variants_NoDup variants l : NoDup variants -> NoDup (foldl add_variant variants l).
Proof. revert variants. induction l as [|v l IH]; intros variants Hnd; [done|]. cbn [foldl]. by apply IH, add_variant_NoDup. Qed.

Lemma add_variants_elem variants l v : v ∈ l -> v ∈ foldl add_variant variants l.
Proof.
  revert variants. induction l as [|w l IH]; intros variants Hv; [by apply not_elem_of_nil in Hv|]. cbn [foldl]. apply elem_of_cons in Hv as [->|Hv]; [|by apply IH].
  destruct (add_variants_prefix (add_variant variants w) l) as [k ->]. rewrite elem_of_app. left. apply add_variant_elem.
Qed.

Lemma variant_of_prefix variants variants' id v : variants `prefix_of` variants' -> variant_of variants id = Some v -> variant_of variants' id = Some v.
Proof. intros Hp. unfold variant_of. case_decide; [|done]. intros Hv. by eapply prefix_lookup_Some. Qed.

Lemma variant_of_inj variants id id' v : NoDup variants -> variant_of variants id = Some v -> variant_of variants id' = Some v -> id = id'.
Proof. intros Hnd H H'. apply variant_index_of in H; [|done]. apply variant_index_of in H'; [|done]. congruence. Qed.

Lemma variant_id_spec cache variants v id cache' variants' full :
  NoDup full -> add_variant variants v `prefix_of` full -> NoDup variants ->
  (forall x i, cache !! x = Some i -> x ∈ variants /\ variant_of full i = Some x) ->
  variant_id cache variants v = (id, (cache', variants')) ->
  variant_of full id = Some v /\ variants' = add_variant variants v /\
  (forall x i, cache' !! x = Some i -> x ∈ variants' /\ variant_of full i = Some x).
Proof.
  intros Hf Hp Hnd Hc. unfold variant_id. destruct (cache !! v) as [i|] eqn:Hv.
  - intros [= <- <- <-]. destruct (Hc v i Hv) as [Hin Hi]. unfold add_variant. rewrite decide_True by done. by split_and!.
  - intros [= <- <- <-]. assert (variant_of full (default 0%Z (variant_index (add_variant variants v) v)) = Some v) as Hid.
    { destruct (variant_index (add_variant variants v) v) as [i|] eqn:Hi.
      - apply variant_index_of in Hi; [|by apply add_variant_NoDup]. by eapply variant_of_prefix.
      - exfalso. unfold variant_index in Hi. destruct (list_find _ _) as [|] eqn:Hl; [done|]. apply list_find_None in Hl.
        exact (proj1 (Forall_forall _ _) Hl v (add_variant_elem variants v) eq_refl). }
    split_and!; [done..|]. intros x i. rewrite lookup_insert_Some. intros [[<- <-]|[_ Hx]]; [split; [apply add_variant_elem|done]|].
    destruct (Hc x i Hx) as [Hin Hi]. split; [|done]. destruct (add_variant_prefix variants v) as [k Hk]. rewrite Hk, elem_of_app. by left.
Qed.

(** ** One poll *)
Record Snap := { sn_region : Region; sn_realm : RealmId; sn_at : Millis; sn_samples : list RealmSample; sn_ladders : list Incoming }.

Definition top (l : Ladder) : Copper := default 0 (dearest l).

(** The samples of a poll as [summarise_realm] makes them: one per market, of that poll,
    each listed, with the ladder its dearest listing is the top of. *)
Record snap_ok (s : Snap) : Prop := {
  so_at : sn_at s < 2 ^ 63;
  so_realm : sn_realm s <= u32_max;
  so_samples : forall x, x ∈ sn_samples s ->
    rs_region x = sn_region s /\ rs_realm x = sn_realm s /\ rs_observed_at x = sn_at s /\ rs_item x <= u32_max /\ 0 < rs_listings x <= u32_max /\
    rs_min_price x < 2 ^ 64 /\ rs_median_price x < 2 ^ 64 /\ rs_max_price x < 2 ^ 64 /\
    exists l, (rs_item x, rs_variant x, l) ∈ sn_ladders s /\ ladder_wf l /\ steps l <> [] /\ top l = rs_max_price x;
  so_once : NoDup ((fun x => (rs_item x, rs_variant x)) <$> sn_samples s);
  so_ladders : NoDup (sn_ladders s).*1;
  so_items : forall l, l ∈ sn_ladders s -> l.1.1 <= u32_max }.

Lemma as_i64_u32 n : n <= u32_max -> as_i64 n = Z.of_N n.
Proof. unfold u32_max. intros H. apply as_i64_small. lia. Qed.

Lemma incoming_lookup ladders item v l :
  NoDup ladders.*1 -> (forall x, x ∈ ladders -> x.1.1 <= u32_max) -> (item, v, l) ∈ ladders -> steps l <> [] ->
  incoming_ladders ladders !! (as_i64 item, v) = Some (Ladder_encode l).
Proof.
  unfold incoming_ladders. induction ladders as [|[[i w] k] ladders IH] using rev_ind; intros Hnd Hfit Hin Hne; [by apply not_elem_of_nil in Hin|].
  rewrite fmap_app in Hnd. apply NoDup_app in Hnd as (Hnd & Hdis & _). rewrite foldl_app. cbn [foldl fst snd].
  apply elem_of_app in Hin as [Hin|Hin%list_elem_of_singleton].
  - assert ((i, w) <> (item, v)) as Hk.
    { intros He. apply (Hdis (item, v)); [by apply (list_elem_of_fmap_2' fst _ (item, v, l))|]. rewrite <- He. by left. }
    assert (as_i64 i = as_i64 item -> i = item) as Hi.
    { rewrite !as_i64_u32; [lia|apply (Hfit (item, v, l)); set_solver|apply (Hfit (i, w, k)); set_solver]. }
    destruct (Ladder_is_empty k); [apply IH; set_solver|]. rewrite lookup_insert_ne; [apply IH; set_solver|]. intros [= He ->]. apply Hk. by rewrite (Hi He).
  - injection Hin as -> -> ->. unfold Ladder_is_empty. rewrite bool_decide_eq_false_2 by done. apply lookup_insert_eq.
Qed.

Lemma previous_rows_lookup (region : string) (realm : Z) (t : SampleTable) (ladders : LadderTable) (i x : Z) (p : Prev) :
  previous_rows region realm t ladders !! (i, x) = Some p <->
  exists u b, t !! ((i, region, realm, x), u) = Some b /\ (forall u', is_Some (t !! ((i, region, realm, x), u')) -> (u' <= u)%Z) /\
    p = {| pv_min := b_min b; pv_median := b_median b; pv_listings := b_listings b; pv_steps := rg_steps <$> ladders !! ((i, region, realm, x), u) |}.
Proof.
  unfold previous_rows. set (f := fun kv : Market * Z * Body => _).
  assert (forall y, ((i, x), y) ∈ omap f (map_to_list t) <-> exists u b, t !! ((i, region, realm, x), u) = Some b /\
    (forall u', is_Some (t !! ((i, region, realm, x), u')) -> (u' <= u)%Z) /\
    y = {| pv_min := b_min b; pv_median := b_median b; pv_listings := b_listings b; pv_steps := rg_steps <$> ladders !! ((i, region, realm, x), u) |}) as Hin.
  { intros y. rewrite list_elem_of_omap. split.
    - intros ([[[[[i' r'] l'] x'] u] b] & Hb%elem_of_map_to_list & Hf). unfold f in Hf. case_decide as Hd; [|done]. destruct Hd as (H1 & H2 & [H3 H4]%maxZ_spec).
      cbn in H1, H2. subst r' l'. injection Hf as <- <- <-. exists u, b. split_and!; [done| |done]. intros u' Hu'. apply H4. by apply elem_of_instants.
    - intros (u & b & Hb & Hmax & ->). exists ((i, region, realm, x), u, b). split; [by apply elem_of_map_to_list|]. unfold f. rewrite decide_True; [done|].
      split_and!; [done..|]. apply maxZ_spec. split; [apply elem_of_instants; by eexists|]. intros u' Hu'%elem_of_instants. by apply Hmax. }
  rewrite <- Hin. split; [apply elem_of_list_to_map_2|]. intros Hp. apply elem_of_list_to_map_1'; [|done].
  intros y Hy. apply Hin in Hp as (u & b & Hb & Hmax & ->). apply Hin in Hy as (u' & b' & Hb' & Hmax' & ->).
  assert (u' = u) as -> by (pose proof (Hmax u' ltac:(by eexists)); pose proof (Hmax' u ltac:(by eexists)); lia). by simplify_eq.
Qed.

Lemma insert_new_lookup {B} (k : Market * Z) (b : B) (t t' : gmap (Market * Z) B) (n : N) (k' : Market * Z) (b' : B) :
  insert_new k b t = (n, t') -> t' !! k' = Some b' <-> t !! k' = Some b' \/ (k' = k /\ t !! k = None /\ b' = b).
Proof.
  unfold insert_new. destruct (t !! k) as [o|] eqn:Hk; intros [= <- <-]; [naive_solver|]. rewrite lookup_insert_Some. split.
  - intros [[<- <-]|[Hne H]]; [right; by split_and!|by left].
  - intros [H|(-> & _ & ->)]; [|by left]. right. split; [|done]. intros ->. congruence.
Qed.

Lemma incoming_some ladders (l : Incoming) : l ∈ ladders -> Ladder_is_empty l.2 = false -> is_Some (incoming_ladders ladders !! (as_i64 l.1.1, l.1.2)).
Proof.
  unfold incoming_ladders. induction ladders as [|x ladders IH] using rev_ind; intros Hin He; [by apply not_elem_of_nil in Hin|]. rewrite foldl_app. cbn [foldl].
  apply elem_of_app in Hin as [Hin|Hin%list_elem_of_singleton].
  - destruct (Ladder_is_empty x.2); [by apply IH|]. destruct (decide ((as_i64 x.1.1, x.1.2) = (as_i64 l.1.1, l.1.2))) as [->|Hne];
      [rewrite lookup_insert_eq; by eexists|rewrite lookup_insert_ne by done; by apply IH].
  - subst x. rewrite He, lookup_insert_eq. by eexists.
Qed.

Section Poll.
Context (region : string) (realm at_ : Z) (samples : list RealmSample) (ladders : list Incoming).
Context (t : SampleTable) (rungs : LadderTable) (variants : list string).
Context (Hnd : NoDup variants) (Hfit : forall s, s ∈ samples -> rs_item s <= u32_max).
Context (Hfresh : forall m u, m_region m = region -> m_realm m = realm -> is_Some (t !! (m, u)) -> (u < at_)%Z).
Context (Honce : NoDup ((fun x => (rs_item x, rs_variant x)) <$> samples)).

Abbreviation full := (foldl add_variant variants (rs_variant <$> samples)).
Abbreviation before := (previous_rows region realm t rungs).
Abbreviation steps_of s := (incoming_ladders ladders !! (as_i64 (rs_item s), rs_variant s)).

(** A market of the poll that a sample is about. *)
Definition about (s : RealmSample) (m : Market) : Prop :=
  m_region m = region /\ m_realm m = realm /\ m_item m = as_i64 (rs_item s) /\ variant_of full (m_variant m) = Some (rs_variant s).

Definition changes_to (s : RealmSample) (m : Market) : Prop := differs s (steps_of s) (before !! (m_item m, m_variant m)) = true.

Record prog_ok (done_ : list RealmSample) (pg : Progress) : Prop := {
  po_variants : pg_variants pg = foldl add_variant variants (rs_variant <$> done_);
  po_cache : forall x i, pg_cache pg !! x = Some i -> x ∈ pg_variants pg /\ variant_of full i = Some x;
  po_previous : forall i x p, pg_previous pg !! (i, x) = Some p <->
    before !! (i, x) = Some p /\ forall s, s ∈ done_ -> ~ about s (i, region, realm, x);
  po_samples : forall m u b, pg_samples pg !! (m, u) = Some b <->
    t !! (m, u) = Some b \/ exists s, s ∈ done_ /\ u = at_ /\ about s m /\ changes_to s m /\ b = body_of s;
  po_ladders : forall m u r, pg_ladders pg !! (m, u) = Some r ->
    rungs !! (m, u) = Some r \/ exists s st, s ∈ done_ /\ u = at_ /\ about s m /\ changes_to s m /\ steps_of s = Some st /\ rg_steps r = st }.

Lemma about_unique s s' m : s ∈ samples -> s' ∈ samples -> about s m -> about s' m -> s = s'.
Proof.
  intros Hs Hs' (_ & _ & Hi & Hv) (_ & _ & Hi' & Hv'). rewrite Hi in Hi'. rewrite !as_i64_u32 in Hi' by (by apply Hfit). rewrite Hv in Hv'.
  injection Hv' as Hv'. apply list_elem_of_lookup in Hs as [j Hj], Hs' as [j' Hj'].
  assert (j = j') as <-; [|congruence]. eapply (NoDup_lookup _ j j' (rs_item s, rs_variant s) Honce); rewrite list_lookup_fmap; [by rewrite Hj|rewrite Hj'].
  cbn. do 2 f_equal; [lia|done].
Qed.

Lemma record_one_ok done_ s rest pg :
  samples = done_ ++ s :: rest -> prog_ok done_ pg -> prog_ok (done_ ++ [s]) (record_one region realm at_ ladders pg s).
Proof.
  intros Hsplit [Hv Hc Hp Hs Hl]. unfold record_one.
  destruct (variant_id (pg_cache pg) (pg_variants pg) (rs_variant s)) as [variant [cache' variants']] eqn:Hid.
  assert (s ∈ samples) as Hin by (rewrite Hsplit; set_solver). assert (forall x, x ∈ done_ -> x ∈ samples) as Hdone by (intros x Hx; rewrite Hsplit; set_solver).
  apply variant_id_spec with (full := full) in Hid as (Hvar & Hvs & Hcache); [|by apply add_variants_NoDup| |rewrite Hv; by apply add_variants_NoDup|done].
  2: { rewrite Hv. rewrite Hsplit at 1. rewrite fmap_app, fmap_cons, foldl_app. cbn [foldl]. apply add_variants_prefix. }
  set (m0 := (as_i64 (rs_item s), region, realm, variant) : Market). assert (about s m0) as Ha by (by split_and!).
  assert (forall m, about s m -> m = m0) as Huniq.
  { intros [[[i r] l] v'] (H1 & H2 & H3 & H4). cbn in H1, H2, H3, H4. subst. unfold m0. f_equal. eapply variant_of_inj; [|done|done]. by apply add_variants_NoDup. }
  assert (forall x, x ∈ done_ -> ~ about x m0) as Hnew.
  { intros x Hx Hax. pose proof (about_unique x s m0 (Hdone x Hx) Hin Hax Ha) as ->. rewrite Hsplit, fmap_app, fmap_cons in Honce.
    apply NoDup_app in Honce as (_ & Hd & _). eapply Hd; [by eapply (list_elem_of_fmap_2 (fun x => (rs_item x, rs_variant x)))|by left]. }
  assert (pg_previous pg !! (as_i64 (rs_item s), variant) = before !! (as_i64 (rs_item s), variant)) as Hprev.
  { apply option_eq. intros p. rewrite Hp. split; [by intros [? _]|]. intros Hb. split; [done|]. intros x Hx. by apply Hnew. }
  assert (forall i x p, delete (as_i64 (rs_item s), variant) (pg_previous pg) !! (i, x) = Some p <->
    before !! (i, x) = Some p /\ forall y, y ∈ done_ ++ [s] -> ~ about y (i, region, realm, x)) as Hdel.
  { intros i x p. rewrite lookup_delete_Some, Hp. split.
    - intros (Hne & Hb & Hold). split; [done|]. intros y [Hy| ->%list_elem_of_singleton]%elem_of_app; [by apply Hold|]. intros He%Huniq. unfold m0 in He. by injection He as -> ->.
    - intros (Hb & Hall). split_and!; [|done|intros y Hy; apply Hall; set_solver]. intros [= <- <-]. apply (Hall s); [set_solver|done]. }
  assert (forall u, u = at_ -> t !! (m0, u) = None) as Hnone.
  { intros u ->. destruct (t !! (m0, at_)) eqn:He; [|done]. pose proof (Hfresh m0 at_ eq_refl eq_refl ltac:(by eexists)). lia. }
  assert (pg_samples pg !! (m0, at_) = None) as Hnone'.
  { destruct (pg_samples pg !! (m0, at_)) as [b|] eqn:He; [|done]. apply Hs in He as [He|(x & Hx & _ & Hax & _)]; [by rewrite Hnone in He|by destruct (Hnew x Hx)]. }
  rewrite Hprev. destruct (differs s (steps_of s) (before !! (as_i64 (rs_item s), variant))) eqn:Hch.
  - destruct (insert_new (m0, at_) (body_of s) (pg_samples pg)) as [n t'] eqn:Ht.
    match goal with |- context [let '(k, rungs0) := ?e in _] => destruct e as [k rungs'] eqn:Hr end.
    constructor; cbn [pg_variants pg_cache pg_previous pg_samples pg_ladders].
    + rewrite fmap_app, foldl_app, Hvs, Hv. reflexivity.
    + done.
    + exact Hdel.
    + intros m u b. rewrite (insert_new_lookup _ _ _ _ _ _ _ Ht), Hs. split.
      * intros [[H|(x & Hx & H)]|([= -> ->] & _ & ->)]; [by left|right; exists x; split; [set_solver|done]|right; exists s; split_and!; [set_solver|done..]].
      * intros [H|(x & [Hx| ->%list_elem_of_singleton]%elem_of_app & -> & Hax & Hcx & ->)]; [left; by left|left; right; by exists x|].
        right. rewrite (Huniq m Hax). by split_and!.
    + intros m u r Hm. assert (pg_ladders pg !! (m, u) = Some r \/ (m, u) = (m0, at_) /\ (exists st, steps_of s = Some st /\ rg_steps r = st)) as [H|[[= -> ->] (st & Hst & Hrs)]].
      { destruct (find_first _ ladders) as [l|] eqn:Hf; [|injection Hr as <- <-; by left]. destruct (Ladder_is_empty l.2) eqn:He; [injection Hr as <- <-; by left|].
        apply (insert_new_lookup _ _ _ _ _ _ _ Hr) in Hm as [Hm|(Hk & _ & ->)]; [by left|]. right. split; [done|]. cbn [rg_steps].
        destruct (steps_of s) as [st|] eqn:Hst; [by exists st|]. exfalso. apply find_first_Some in Hf as [Hlin Hkey]. apply bool_decide_eq_true in Hkey as [Hk1 Hk2].
        destruct (incoming_some ladders l Hlin He) as [st Hsome]. rewrite Hk1, Hk2 in Hsome. congruence. }
      * destruct (Hl m u r H) as [?|(x & st & Hx & Hrest)]; [by left|]. right. exists x, st. split; [set_solver|done].
      * right. exists s, st. split_and!; [set_solver|done..].
  - constructor; cbn [pg_variants pg_cache pg_previous pg_samples pg_ladders].
    + rewrite fmap_app, foldl_app, Hvs, Hv. reflexivity.
    + done.
    + exact Hdel.
    + intros m u b. rewrite Hs. split.
      * intros [H|(x & Hx & H)]; [by left|right; exists x; split; [set_solver|done]].
      * intros [H|(x & [Hx| ->%list_elem_of_singleton]%elem_of_app & -> & Hax & Hcx & ->)]; [by left|right; by exists x|].
        rewrite (Huniq m Hax) in Hcx. unfold changes_to in Hcx. cbn [m0 m_item m_variant fst snd] in Hcx. by rewrite Hch in Hcx.
    + intros m u r Hm. destruct (Hl m u r Hm) as [?|(x & st & Hx & Hrest)]; [by left|]. right. exists x, st. split; [set_solver|done].
Qed.

Lemma record_all_ok done_ rest pg :
  samples = done_ ++ rest -> prog_ok done_ pg -> prog_ok samples (foldl (record_one region realm at_ ladders) pg rest).
Proof.
  revert done_ pg. induction rest as [|s rest IH]; intros done_ pg Hsplit Hok; [by rewrite app_nil_r in Hsplit; subst done_|].
  cbn [foldl]. apply (IH (done_ ++ [s])); [by rewrite <- app_assoc|]. by eapply record_one_ok.
Qed.

(** What the rows are after a poll: those before it, a row for each market that changed,
    and one without listings for each that is gone. *)
Definition gone (m : Market) : Prop :=
  m_region m = region /\ m_realm m = realm /\ (forall s, s ∈ samples -> ~ about s m) /\
  exists p, before !! (m_item m, m_variant m) = Some p /\ (0 < pv_listings p)%Z.

Lemma bury_all (rows : list (Z * Z * Prev)) acc :
  NoDup rows.*1 -> (forall k p, (k, p) ∈ rows -> acc.2 !! ((k.1, region, realm, k.2), at_) = None) ->
  forall m u b, (foldl (bury region realm at_) acc rows).2 !! (m, u) = Some b <->
    acc.2 !! (m, u) = Some b \/
    (u = at_ /\ m_region m = region /\ m_realm m = realm /\ b = tombstone /\ exists p, ((m_item m, m_variant m), p) ∈ rows /\ (0 < pv_listings p)%Z).
Proof.
  revert acc. induction rows as [|[[i x] p] rows IH]; intros acc Hk Hfree m u b.
  { cbn [foldl]. split; [by left|]. intros [?|(_ & _ & _ & _ & p & Hp & _)]; [done|by apply not_elem_of_nil in Hp]. }
  rewrite fmap_cons in Hk. apply NoDup_cons in Hk as [Hni Hk]. cbn [foldl].
  assert (forall m u b, (bury region realm at_ acc (i, x, p)).2 !! (m, u) = Some b <->
    acc.2 !! (m, u) = Some b \/ (u = at_ /\ m = (i, region, realm, x) /\ b = tombstone /\ (0 < pv_listings p)%Z)) as Hone.
  { intros m' u' b'. unfold bury. cbn [fst snd]. case_decide as Hd; [|split; [by left|by intros [?|(_ & _ & _ & ?)]]].
    destruct (insert_new _ tombstone acc.2) as [n t'] eqn:Ht. cbn [snd]. rewrite (insert_new_lookup _ _ _ _ _ _ _ Ht). split.
    - intros [?|([= -> ->] & _ & ->)]; [by left|]. right. by split_and!.
    - intros [?|(-> & -> & -> & _)]; [by left|]. right. split_and!; [done| |done]. apply (Hfree (i, x) p). by left. }
  rewrite IH; [|done|].
  - rewrite Hone. split.
    + intros [[H|(-> & -> & -> & Hp)]|(-> & H1 & H2 & -> & q & Hq & Hpos)]; [by left| |].
      * right. split_and!; try done. exists p. split; [by left|done].
      * right. split_and!; try done. exists q. split; [by right|done].
    + intros [H|(-> & H1 & H2 & -> & q & [[= Hi Hx ->]|Hq]%elem_of_cons & Hpos)]; [left; by left| |].
      * left. right. split_and!; try done. destruct m as [[[i' r'] l'] x']. cbn in *. by subst.
      * right. split_and!; try done. by exists q.
  - intros [i' x'] q Hq. cbn [fst snd]. destruct ((bury region realm at_ acc (i, x, p)).2 !! _) as [b'|] eqn:He; [|done]. exfalso.
    apply Hone in He as [He|(_ & [= -> ->] & _)].
    + pose proof (Hfree (i', x') q ltac:(by right)) as Hx. cbn [fst snd] in Hx. congruence.
    + apply Hni. by apply (list_elem_of_fmap_2' fst _ (i, x, q)).
Qed.

Definition polled : Progress :=
  foldl (record_one region realm at_ ladders)
    {| pg_cache := ∅; pg_variants := variants; pg_samples := t; pg_ladders := rungs; pg_previous := before; pg_sample_rows := 0; pg_ladder_rows := 0 |} samples.
Definition rows_after : SampleTable := (foldl (bury region realm at_) (pg_sample_rows polled, pg_samples polled) (map_to_list (pg_previous polled))).2.

Lemma polled_ok : prog_ok samples polled.
Proof.
  apply (record_all_ok []); [done|]. constructor; cbn [pg_variants pg_cache pg_previous pg_samples pg_ladders].
  - done.
  - intros x i. by rewrite lookup_empty.
  - intros i x p. split; [|by intros [? _]]. intros Hp. split; [done|]. intros s Hs. by apply not_elem_of_nil in Hs.
  - intros m u b. split; [by left|]. intros [?|(s & Hs & _)]; [done|by apply not_elem_of_nil in Hs].
  - intros m u r Hr. by left.
Qed.

Lemma rows_after_lookup m u b :
  rows_after !! (m, u) = Some b <->
  t !! (m, u) = Some b \/ (u = at_ /\ ((exists s, s ∈ samples /\ about s m /\ changes_to s m /\ b = body_of s) \/ (gone m /\ b = tombstone))).
Proof.
  destruct polled_ok as [_ _ Hp Hs _]. unfold rows_after. rewrite bury_all; cbn [snd].
  - rewrite Hs. split.
    + intros [[H|(s & Hin & -> & Ha & Hc & ->)]|(-> & H1 & H2 & -> & p & Hq & Hpos)]; [by left|right; split; [done|]; left; by exists s|].
      apply elem_of_map_to_list, Hp in Hq as [Hb Hno]. right. split; [done|]. right. split; [|done]. split_and!; [done|done| |by exists p].
      intros s Hin. destruct m as [[[i r] l] x]. cbn in H1, H2. subst r l. by apply Hno.
    + intros [H|(-> & [(s & Hin & Ha & Hc & ->)|[(H1 & H2 & Hno & p & Hb & Hpos) ->]])]; [left; by left|left; right; by exists s|].
      right. split_and!; try done. exists p. split; [|done]. apply elem_of_map_to_list, Hp. split; [done|]. intros s Hin.
      destruct m as [[[i r] l] x]. cbn in H1, H2. subst r l. by apply Hno.
  - apply NoDup_fst_map_to_list.
  - intros [i x] p Hin%elem_of_map_to_list. cbn [fst snd]. apply Hp in Hin as [_ Hno].
    destruct (pg_samples polled !! _) as [b'|] eqn:He; [|done]. exfalso. apply Hs in He as [He|(s & Hs' & _ & Ha & _)].
    + pose proof (Hfresh (i, region, realm, x) at_ eq_refl eq_refl ltac:(by eexists)). lia.
    + by apply (Hno s Hs').
Qed.

(** A poll leaves what was current at any other one alone. *)
Lemma rows_after_elsewhere m u b :
  (m_region m <> region \/ m_realm m <> realm \/ (u < at_)%Z) -> current rows_after m u b <-> current t m u b.
Proof.
  intros Hoth. assert (forall v, (v <= u)%Z -> rows_after !! (m, v) = t !! (m, v)) as Heq.
  { intros v Hv. apply option_eq. intros b'. rewrite rows_after_lookup. split; [|by left].
    intros [?|(-> & [(s & _ & (H1 & H2 & _) & _)|[(H1 & H2 & _) _]])]; [done|destruct Hoth as [?|[?|?]]; [done|done|lia]..]. }
  unfold current. split; intros (v & Hv & Hb & Hn); exists v; (split; [done|]); [rewrite <- Heq by done|rewrite Heq by done]; (split; [done|]);
    intros w Hw; [rewrite <- Heq by lia|rewrite Heq by lia]; apply Hn; lia.
Qed.

(** The ladder of a row is the one its dearest listing tops. *)
Context (Htop : forall m u r b, rungs !! (m, u) = Some r -> t !! (m, u) = Some b ->
  exists l, ladder_wf l /\ rg_steps r = Ladder_encode l /\ b_max b = as_i64 (top l)).
Context (Hown : forall s, s ∈ samples -> 0 < rs_listings s <= u32_max /\
  exists l, steps_of s = Some (Ladder_encode l) /\ ladder_wf l /\ top l = rs_max_price s).

(** An unchanged market keeps a row that says what was polled. *)
Lemma unchanged_row s m p :
  s ∈ samples -> about s m -> before !! (m_item m, m_variant m) = Some p -> ~ changes_to s m ->
  exists u, (u < at_)%Z /\ t !! (m, u) = Some (body_of s) /\ forall u', is_Some (t !! (m, u')) -> (u' <= u)%Z.
Proof.
  intros Hin Ha Hp Hc. unfold changes_to in Hc. rewrite Hp in Hc. pose proof Ha as (Hr & Hl & Hi & _). destruct m as [[[i r] l] x]. cbn in Hr, Hl, Hi, Hp, Hc. subst r l.
  apply previous_rows_lookup in Hp as (u & b & Hb & Hmax & ->). exists u. split; [apply (Hfresh (i, region, realm, x)); [done|done|by eexists]|]. split; [|done].
  rewrite Hb. f_equal. cbn [differs pv_min pv_median pv_listings pv_steps] in Hc.
  assert (~ (as_i64 (rs_min_price s) <> b_min b \/ as_i64 (rs_median_price s) <> b_median b \/ as_i64 (rs_listings s) <> b_listings b \/
             steps_of s <> rg_steps <$> rungs !! ((i, region, realm, x), u))) as Hsame by (intros H; apply Hc; by apply bool_decide_eq_true_2).
  apply Decidable.not_or in Hsame as [H1 Hsame]. apply Decidable.not_or in Hsame as [H2 Hsame]. apply Decidable.not_or in Hsame as [H3 H4].
  apply dec_stable in H1, H2, H3, H4. destruct (Hown s Hin) as (_ & l & Hst & Hwf & Ht). rewrite Hst in H4.
  destruct (rungs !! ((i, region, realm, x), u)) as [rg|] eqn:Hrg; [|done]. injection H4 as H4.
  destruct (Htop _ _ _ _ Hrg Hb) as (l' & Hwf' & He & Hm). assert (l' = l) as -> by (rewrite <- (Ladder_roundtrip l' Hwf'), <- He, <- H4; by apply Ladder_roundtrip).
  unfold body_of. rewrite H1, H2, H3, <- Ht, <- Hm. by destruct b.
Qed.

(** What is current at the poll is what was polled. *)
Lemma rows_after_here m b :
  m_region m = region -> m_realm m = realm -> current rows_after m at_ b ->
  (exists s, s ∈ samples /\ about s m /\ b = body_of s) \/ ((forall s, s ∈ samples -> ~ about s m) /\ (b_listings b <= 0)%Z).
Proof.
  intros Hr Hl (u & Hu & Hb & Hn). apply rows_after_lookup in Hb as [Hb|(-> & [(s & Hin & Ha & _ & ->)|[(_ & _ & Hno & _) ->]])];
    [|left; by exists s|right; by split].
  destruct (decide (Exists (fun s => m_item m = as_i64 (rs_item s) /\ variant_of full (m_variant m) = Some (rs_variant s)) samples)) as [Hex|Hno].
  - apply Exists_exists in Hex as (s & Hin & Hi & Hv). left. exists s. assert (about s m) as Ha by (by split_and!). split_and!; [done..|].
    assert (exists p, before !! (m_item m, m_variant m) = Some p) as (p & Hp).
    { destruct (before !! (m_item m, m_variant m)) as [p|] eqn:Hp; [by exists p|]. exfalso.
      assert (rows_after !! (m, at_) = None) as Hnone by (apply Hn; pose proof (Hfresh m u Hr Hl ltac:(by eexists)); lia).
      assert (rows_after !! (m, at_) = Some (body_of s)) as Hsome; [|congruence].
      apply rows_after_lookup. right. split; [done|]. left. exists s. split_and!; [done..| |done]. unfold changes_to. by rewrite Hp. }
    destruct (differs s (steps_of s) (before !! (m_item m, m_variant m))) eqn:Hd.
    + exfalso. assert (rows_after !! (m, at_) = Some (body_of s)) as Hsome by (apply rows_after_lookup; right; split; [done|]; left; by exists s).
      rewrite Hn in Hsome; [done|]. pose proof (Hfresh m u Hr Hl ltac:(by eexists)). lia.
    + assert (~ changes_to s m) as Hnc by (unfold changes_to; by rewrite Hd).
      destruct (unchanged_row s m p Hin Ha Hp Hnc) as (v & Hv' & Hb' & Hmax). assert (v = u) as ->; [|congruence].
      pose proof (Hmax u ltac:(by eexists)). destruct (decide (u = v)); [done|]. assert (rows_after !! (m, v) = None) as Hx by (apply Hn; lia).
      assert (rows_after !! (m, v) = Some (body_of s)) by (apply rows_after_lookup; by left). congruence.
  - right. assert (forall s, s ∈ samples -> ~ about s m) as Hno' by (intros s Hin (_ & _ & Hi & Hv); apply Hno, Exists_exists; by exists s). split; [done|].
    destruct (decide (b_listings b <= 0)%Z); [done|]. exfalso. pose proof (Hfresh m u Hr Hl ltac:(by eexists)) as Hlt.
    assert (rows_after !! (m, at_) = Some tombstone) as Hsome; [|rewrite Hn in Hsome by lia; done]. apply rows_after_lookup. right. split; [done|]. right. split; [|done].
    split_and!; [done..|]. eexists. split; [|instantiate (1 := {| pv_min := _; pv_median := _; pv_listings := b_listings b; pv_steps := _ |}); cbn; lia].
    destruct m as [[[i r] l] x]. cbn in Hr, Hl. subst r l. apply previous_rows_lookup. exists u, b. split_and!; [done| |done]. intros u' [b' Hb'].
    destruct (decide (u' <= u)%Z); [done|]. assert (rows_after !! ((i, region, realm, x), u') = None) as Hx by (apply Hn; pose proof (Hfresh (i, region, realm, x) u' eq_refl eq_refl ltac:(by eexists)); lia).
    assert (rows_after !! ((i, region, realm, x), u') = Some b') by (apply rows_after_lookup; by left). congruence.
Qed.

Lemma polled_current s m : s ∈ samples -> about s m -> current rows_after m at_ (body_of s).
Proof.
  intros Hin Ha. pose proof Ha as (Hr & Hl & _). destruct (differs s (steps_of s) (before !! (m_item m, m_variant m))) eqn:Hd.
  - exists at_. split_and!; [lia| |lia]. apply rows_after_lookup. right. split; [done|]. left. by exists s.
  - destruct (before !! (m_item m, m_variant m)) as [p|] eqn:Hp; [|done]. assert (~ changes_to s m) as Hnc by (unfold changes_to; by rewrite Hp, Hd).
    destruct (unchanged_row s m p Hin Ha Hp Hnc) as (u & Hu & Hb & Hmax). exists u. split_and!; [lia|apply rows_after_lookup; by left|]. intros u' Hu'.
    destruct (rows_after !! (m, u')) as [b'|] eqn:Hb'; [|done]. exfalso. apply rows_after_lookup in Hb' as [Hb'|(-> & [(s' & Hin' & Ha' & Hc' & _)|[(_ & _ & Hno & _) _]])].
    + pose proof (Hmax u' ltac:(by eexists)). lia.
    + rewrite (about_unique s' s m Hin' Hin Ha' Ha) in Hc'. done.
    + by apply (Hno s).
Qed.
End Poll.

(** ** Any polls, and any pruning of ladders *)
Inductive Op := Polls (s : Snap) | Prunes (before : Millis).

Definition exec (db : RealmTables) (op : Op) : RealmTables :=
  match op with
  | Polls s => (record_snapshot (sn_samples s) (sn_region s) (sn_realm s) (sn_at s) (sn_ladders s) db).2
  | Prunes before => (prune_ladders_before before db).2
  end.
Definition run (ops : list Op) : RealmTables := foldl exec RealmTables_empty ops.
Definition snaps (ops : list Op) : list Snap := omap (fun op => match op with Polls s => Some s | Prunes _ => None end) ops.

(** Each realm is polled forward in time. *)
Definition forward (polls : list Snap) : Prop :=
  forall earlier s later x, polls = earlier ++ s :: later -> x ∈ earlier -> sn_region x = sn_region s -> sn_realm x = sn_realm s -> sn_at x < sn_at s.

Definition of_market (variants : list string) (x : RealmSample) (m : Market) : Prop :=
  m_item m = as_i64 (rs_item x) /\ variant_of variants (m_variant m) = Some (rs_variant x).
Definition of_poll (s : Snap) (m : Market) : Prop := m_region m = Region_as_str (sn_region s) /\ m_realm m = as_i64 (sn_realm s).

Record store_ok (polls : list Snap) (db : RealmTables) : Prop := {
  st_ledger : forall p, p ∈ rt_ledger db <-> exists s, s ∈ polls /\ p = (Region_as_str (sn_region s), as_i64 (sn_realm s), as_i64 (sn_at s));
  st_variants : NoDup (rt_variants db);
  st_known : forall s x, s ∈ polls -> x ∈ sn_samples s -> rs_variant x ∈ rt_variants db;
  st_rows : forall m u, is_Some (rt_samples db !! (m, u)) -> (m_region m, m_realm m, u) ∈ rt_ledger db;
  st_polled : forall s x m, s ∈ polls -> x ∈ sn_samples s -> of_poll s m -> of_market (rt_variants db) x m ->
    current (rt_samples db) m (as_i64 (sn_at s)) (body_of x);
  st_only : forall s m b, s ∈ polls -> of_poll s m -> current (rt_samples db) m (as_i64 (sn_at s)) b -> (0 < b_listings b)%Z ->
    exists x, x ∈ sn_samples s /\ of_market (rt_variants db) x m /\ b = body_of x;
  st_top : forall m u r b, rt_ladders db !! (m, u) = Some r -> rt_samples db !! (m, u) = Some b ->
    exists l, ladder_wf l /\ rg_steps r = Ladder_encode l /\ b_max b = as_i64 (top l);
  st_ladders : forall m u, is_Some (rt_ladders db !! (m, u)) -> is_Some (rt_samples db !! (m, u)) }.

Lemma store_ok_empty : store_ok [] RealmTables_empty.
Proof.
  constructor; cbn [RealmTables_empty rt_ledger rt_variants rt_samples rt_ladders]; try (intros *; rewrite lookup_empty; intros []; done).
  - intros p. split; [set_solver|]. intros (s & Hs & _). by apply not_elem_of_nil in Hs.
  - constructor.
  - intros s x Hs. by apply not_elem_of_nil in Hs.
  - intros s x m Hs. by apply not_elem_of_nil in Hs.
  - intros s m b Hs. by apply not_elem_of_nil in Hs.
Qed.

Lemma store_ok_prune polls before db : store_ok polls db -> store_ok polls (prune_ladders_before before db).2.
Proof.
  intros [H1 H2 H3 H4 H5 H6 H7 H8].
  constructor; cbn [prune_ladders_before snd with_ladders rt_ledger rt_variants rt_samples rt_ladders]; try done.
  - intros m u r b [Hr _]%map_lookup_filter_Some. by apply H7.
  - intros m u [r [Hr _]%map_lookup_filter_Some]. apply H8. by eexists.
Qed.

Lemma of_market_grows variants variants' x m :
  variants `prefix_of` variants' -> NoDup variants' -> rs_variant x ∈ variants -> of_market variants' x m <-> of_market variants x m.
Proof.
  intros Hp Hnd Hin. unfold of_market. split; intros [Hi Hv]; (split; [done|]); [|by eapply variant_of_prefix].
  apply list_elem_of_lookup in Hin as [j Hj]. assert (variant_of variants (Z.of_nat j + 1) = Some (rs_variant x)) as Hvj.
  { unfold variant_of. rewrite decide_True by lia. by replace (Z.to_nat (Z.of_nat j + 1 - 1)) with j by lia. }
  by rewrite (variant_of_inj variants' (m_variant m) (Z.of_nat j + 1) (rs_variant x) Hnd Hv (variant_of_prefix _ _ _ _ Hp Hvj)).
Qed.

Lemma record_snapshot_tables s db :
  let r := Region_as_str (sn_region s) in let l := as_i64 (sn_realm s) in let u := as_i64 (sn_at s) in
  let pg := polled r l u (sn_samples s) (sn_ladders s) (rt_samples db) (rt_ladders db) (rt_variants db) in
  (record_snapshot (sn_samples s) (sn_region s) (sn_realm s) (sn_at s) (sn_ladders s) db).2 =
  {| rt_variants := pg_variants pg; rt_ledger := {[(r, l, u)]} ∪ rt_ledger db;
     rt_samples := rows_after r l u (sn_samples s) (sn_ladders s) (rt_samples db) (rt_ladders db) (rt_variants db);
     rt_ladders := pg_ladders pg; rt_realms := rt_realms db; rt_daily := rt_daily db |}.
Proof.
  intros r l u pg. unfold record_snapshot, rows_after. fold r l u. change (foldl (record_one r l u (sn_ladders s)) _ (sn_samples s)) with pg. fold pg.
  by destruct (foldl (bury r l u) (pg_sample_rows pg, pg_samples pg) (map_to_list (pg_previous pg))).
Qed.

Lemma snap_own s : snap_ok s -> forall x, x ∈ sn_samples s -> 0 < rs_listings x <= u32_max /\
  exists l, incoming_ladders (sn_ladders s) !! (as_i64 (rs_item x), rs_variant x) = Some (Ladder_encode l) /\ ladder_wf l /\ top l = rs_max_price x.
Proof.
  intros Hok x Hx. destruct (so_samples s Hok x Hx) as (_ & _ & _ & _ & Hl & _ & _ & _ & l & Hin & Hwf & Hne & Ht). split; [done|]. exists l. split_and!; [|done..].
  apply incoming_lookup; [apply Hok|apply Hok|done|done].
Qed.

Section Step.
Context (polls : list Snap) (s : Snap) (db : RealmTables) (Hs : snap_ok s) (Hpolls : forall x, x ∈ polls -> snap_ok x).
Context (Hfwd : forall x, x ∈ polls -> sn_region x = sn_region s -> sn_realm x = sn_realm s -> sn_at x < sn_at s) (Hok : store_ok polls db).

Abbreviation r := (Region_as_str (sn_region s)).
Abbreviation l := (as_i64 (sn_realm s)).
Abbreviation u := (as_i64 (sn_at s)).
Abbreviation pg := (polled r l u (sn_samples s) (sn_ladders s) (rt_samples db) (rt_ladders db) (rt_variants db)).
Abbreviation after := (rows_after r l u (sn_samples s) (sn_ladders s) (rt_samples db) (rt_ladders db) (rt_variants db)).
Abbreviation about_ := (about r l (sn_samples s) (rt_variants db)).

Lemma poll_later x : x ∈ polls -> Region_as_str (sn_region x) = r -> as_i64 (sn_realm x) = l -> (as_i64 (sn_at x) < u)%Z.
Proof.
  intros Hx Hr Hl. pose proof (so_at x (Hpolls x Hx)). pose proof (so_at s Hs). rewrite !as_i64_small by done.
  assert (sn_at x < sn_at s); [|lia]. apply Hfwd; [done|by destruct (sn_region x), (sn_region s)|].
  rewrite !as_i64_u32 in Hl by (try apply Hs; apply (so_realm x (Hpolls x Hx))). lia.
Qed.

Lemma poll_fresh m v : m_region m = r -> m_realm m = l -> is_Some (rt_samples db !! (m, v)) -> (v < u)%Z.
Proof.
  intros Hr Hl Hm%(st_rows _ _ Hok). rewrite Hr, Hl in Hm. apply (st_ledger _ _ Hok) in Hm as (x & Hx & [= Hxr Hxl ->]). by apply poll_later.
Qed.

Lemma poll_items x : x ∈ sn_samples s -> rs_item x <= u32_max.
Proof. intros Hx. apply (so_samples s Hs x Hx). Qed.

Lemma poll_progress : prog_ok r l u (sn_samples s) (sn_ladders s) (rt_samples db) (rt_ladders db) (rt_variants db) (sn_samples s) pg.
Proof. apply polled_ok; [apply Hok|apply poll_items|apply poll_fresh|apply Hs]. Qed.

Lemma poll_lookup m v b :
  after !! (m, v) = Some b <->
  rt_samples db !! (m, v) = Some b \/ (v = u /\ ((exists x, x ∈ sn_samples s /\ about_ x m /\
    changes_to r l (sn_ladders s) (rt_samples db) (rt_ladders db) x m /\ b = body_of x) \/
    (gone r l (sn_samples s) (rt_samples db) (rt_ladders db) (rt_variants db) m /\ b = tombstone))).
Proof. apply rows_after_lookup; [apply Hok|apply poll_items|apply poll_fresh|apply Hs]. Qed.

Lemma poll_variants : pg_variants pg = foldl add_variant (rt_variants db) (rs_variant <$> sn_samples s).
Proof. exact (po_variants _ _ _ _ _ _ _ _ _ _ poll_progress). Qed.
Lemma poll_variants_NoDup : NoDup (pg_variants pg).
Proof. rewrite poll_variants. apply add_variants_NoDup, Hok. Qed.
Lemma poll_variants_prefix : rt_variants db `prefix_of` pg_variants pg.
Proof. rewrite poll_variants. apply add_variants_prefix. Qed.

(** What earlier polls found is still current at their instants. *)
Lemma poll_keeps x m b : x ∈ polls -> of_poll x m -> current after m (as_i64 (sn_at x)) b <-> current (rt_samples db) m (as_i64 (sn_at x)) b.
Proof.
  intros Hx [Hxr Hxl]. apply rows_after_elsewhere; [apply Hok|apply poll_items|apply poll_fresh|apply Hs|].
  destruct (decide (m_region m = r)) as [Hr|]; [|by left]. destruct (decide (m_realm m = l)) as [Hl|]; [|right; by left].
  right. right. apply poll_later; congruence.
Qed.

Lemma poll_market x y m : x ∈ polls -> y ∈ sn_samples x -> of_market (pg_variants pg) y m <-> of_market (rt_variants db) y m.
Proof. intros Hx Hy. apply of_market_grows; [apply poll_variants_prefix|apply poll_variants_NoDup|by eapply (st_known _ _ Hok)]. Qed.

Lemma poll_about x m : of_poll s m -> of_market (pg_variants pg) x m <-> about_ x m.
Proof.
  intros [Hr Hl]. unfold of_market, about. rewrite poll_variants. tauto.
Qed.

Lemma poll_polled x y m :
  x ∈ polls ++ [s] -> y ∈ sn_samples x -> of_poll x m -> of_market (pg_variants pg) y m -> current after m (as_i64 (sn_at x)) (body_of y).
Proof.
  intros [Hx| ->%list_elem_of_singleton]%elem_of_app Hy Hp Hm.
  - apply poll_keeps; [done..|]. apply (st_polled _ _ Hok x y); [done..|]. by apply (poll_market x).
  - apply poll_about in Hm; [|done]. apply polled_current; [apply Hok|apply poll_items|apply poll_fresh|apply Hs|apply Hok|by apply snap_own|done|done].
Qed.

Lemma poll_only x m b :
  x ∈ polls ++ [s] -> of_poll x m -> current after m (as_i64 (sn_at x)) b -> (0 < b_listings b)%Z ->
  exists y, y ∈ sn_samples x /\ of_market (pg_variants pg) y m /\ b = body_of y.
Proof.
  intros [Hx| ->%list_elem_of_singleton]%elem_of_app Hp Hc Hpos.
  - apply poll_keeps in Hc; [|done..]. destruct (st_only _ _ Hok x m b Hx Hp Hc Hpos) as (y & Hy & Hm & ->). exists y. split_and!; [done|by apply (poll_market x)|done].
  - pose proof Hp as [Hr Hl]. apply rows_after_here in Hc as [(y & Hy & Ha & ->)|[_ Hle]];
      [|lia|apply Hok|apply poll_items|apply poll_fresh|apply Hs|apply Hok|by apply snap_own|done|done].
    exists y. split_and!; [done|by apply poll_about|done].
Qed.

Lemma poll_top m v rg b :
  pg_ladders pg !! (m, v) = Some rg -> after !! (m, v) = Some b -> exists k, ladder_wf k /\ rg_steps rg = Ladder_encode k /\ b_max b = as_i64 (top k).
Proof.
  intros Hrg Hb. destruct (po_ladders _ _ _ _ _ _ _ _ _ _ poll_progress m v rg Hrg) as [Hold|(x & st & Hx & -> & Ha & _ & Hst & Hrs)].
  - destruct (st_ladders _ _ Hok m v ltac:(by eexists)) as [b' Hb']. apply poll_lookup in Hb as [Hb|(-> & Hb)]; [by eapply (st_top _ _ Hok)|]. exfalso.
    assert (m_region m = r /\ m_realm m = l) as [Hr Hl] by (destruct Hb as [(y & _ & (? & ? & _) & _)|[(? & ? & _) _]]; done).
    pose proof (poll_fresh m u Hr Hl ltac:(by eexists)). lia.
  - apply poll_lookup in Hb as [Hb|(_ & [(y & Hy & Ha' & _ & ->)|[(_ & _ & Hno & _) _]])].
    + exfalso. destruct Ha as (Hr & Hl & _). pose proof (poll_fresh m u Hr Hl ltac:(by eexists)). lia.
    + assert (y = x) as -> by (eapply about_unique; try done; [apply poll_items|apply Hs]).
      destruct (snap_own s Hs x Hx) as (_ & k & Hk & Hwf & Ht). exists k. rewrite Hst in Hk. injection Hk as Hk. split_and!; [done|congruence|]. cbn [body_of b_max]. by rewrite Ht.
    + exfalso. by apply (Hno x).
Qed.

Lemma store_ok_poll :
  store_ok (polls ++ [s]) (record_snapshot (sn_samples s) (sn_region s) (sn_realm s) (sn_at s) (sn_ladders s) db).2.
Proof.
  rewrite record_snapshot_tables. constructor; cbn [rt_ledger rt_variants rt_samples rt_ladders].
  - intros p. rewrite elem_of_union, elem_of_singleton, (st_ledger _ _ Hok p). split.
    + intros [->|(x & Hx & ->)]; [exists s|exists x]; (split; [rewrite elem_of_app; (by left) || (right; by left)|done]).
    + intros (x & [Hx| ->%list_elem_of_singleton]%elem_of_app & ->); [right; by exists x|by left].
  - apply poll_variants_NoDup.
  - intros x y [Hx| ->%list_elem_of_singleton]%elem_of_app Hy.
    + destruct poll_variants_prefix as [k ->]. rewrite elem_of_app. left. by eapply (st_known _ _ Hok).
    + rewrite poll_variants. by apply add_variants_elem, list_elem_of_fmap_2.
  - intros m v [b Hb]. apply poll_lookup in Hb as [Hb|(-> & Hb)]; rewrite elem_of_union.
    + right. apply (st_rows _ _ Hok). by eexists.
    + left. apply elem_of_singleton. destruct Hb as [(x & _ & (-> & -> & _) & _)|[(-> & -> & _) _]]; done.
  - exact poll_polled.
  - exact poll_only.
  - exact poll_top.
  - intros m v [rg Hrg]. destruct (po_ladders _ _ _ _ _ _ _ _ _ _ poll_progress m v rg Hrg) as [Hold|(x & st & Hx & -> & Ha & Hc & _)].
    + destruct (st_ladders _ _ Hok m v ltac:(by eexists)) as [b' Hb']. exists b'. apply poll_lookup. by left.
    + exists (body_of x). apply poll_lookup. right. split; [done|]. left. by exists x.
Qed.
End Step.

Lemma forward_snoc polls s : forward (polls ++ [s]) -> forward polls /\
  forall x, x ∈ polls -> sn_region x = sn_region s -> sn_realm x = sn_realm s -> sn_at x < sn_at s.
Proof.
  intros Hf. split.
  - intros earlier y later x -> Hx. apply (Hf earlier y (later ++ [s])); [by rewrite <- app_assoc|done].
  - intros x Hx. by apply (Hf polls s []).
Qed.

Lemma polled_run_ok ops : Forall snap_ok (snaps ops) -> forward (snaps ops) -> store_ok (snaps ops) (run ops).
Proof.
  unfold run. induction ops as [|op ops IH] using rev_ind; [intros _ _; apply store_ok_empty|]. unfold snaps. rewrite omap_app, foldl_app. fold (snaps ops).
  destruct op as [s|before]; cbn [omap list_omap foldl exec].
  - intros [Hall Hs]%Forall_app [Hf Hlt]%forward_snoc. apply Forall_cons in Hs as [Hs _]. apply store_ok_poll; [done|by apply Forall_forall|done|by apply IH].
  - rewrite app_nil_r. intros Hall Hf. by apply store_ok_prune, IH.
Qed.

(** ** Reading back *)
Lemma sample_back s x m :
  snap_ok s -> x ∈ sn_samples s -> of_poll s m -> m_item m = as_i64 (rs_item x) -> sample_of_row (m, rs_variant x, as_i64 (sn_at s), body_of x) = Ok x.
Proof.
  intros Hok Hx [Hr Hl] Hi. destruct (so_samples s Hok x Hx) as (H1 & H2 & H3 & H4 & H5 & H6 & H7 & H8 & _). pose proof (so_at s Hok). pose proof (so_realm s Hok).
  unfold sample_of_row. rewrite Hr, Hl, Hi. assert (Region_parse (Region_as_str (sn_region s)) = Some (sn_region s)) as -> by (by destruct (sn_region s)). cbn [ok_or].
  cbn [body_of b_min b_median b_max b_listings]. rewrite !as_u64_i64, !as_u32_i64 by (done || (unfold u32_max in *; lia)). rewrite <- H1, <- H2, <- H3. by destruct x.
Qed.

Section Queries.
Context (polls_ : list Snap) (db : RealmTables) (Hsnaps : forall s, s ∈ polls_ -> snap_ok s) (Hok : store_ok polls_ db).

(** A row of a history is a sample of a poll. *)
Definition polled_row (keep : Market -> bool) (region : Region) (since : Millis) (row : Row) : Prop :=
  exists s x m, s ∈ polls_ /\ sn_region s = region /\ since <= sn_at s /\ x ∈ sn_samples s /\ of_poll s m /\ of_market (rt_variants db) x m /\
    keep m = true /\ row = (m, rs_variant x, as_i64 (sn_at s), body_of x).

Lemma unpolled_nil keep since : unpolled keep since db = [].
Proof.
  unfold unpolled. apply filter_none, Forall_forall. intros [[m u] b] Hin%elem_of_map_to_list (_ & _ & Hno). apply Hno. cbn [fst snd].
  apply (st_rows _ _ Hok). by eexists.
Qed.

Lemma history_rows_elem keep upto region since row :
  since < 2 ^ 63 ->
  (forall m at_, keep m = true -> (m_region m, m_realm m, at_) ∈ rt_ledger db -> m_region m = Region_as_str region -> exists u, upto = Some u /\ (at_ <= u)%Z) ->
  row ∈ history_rows keep upto region since db <-> polled_row keep region since row.
Proof.
  intros Hsince Hupto. unfold history_rows. rewrite unpolled_nil. cbn [joined omap list_omap]. rewrite app_nil_r. unfold joined. rewrite list_elem_of_omap. split.
  - intros ([[m at_] b] & Hrow & Hj). apply list_elem_of_filter in Hrow as [Hpos Hrow]. cbn [fst snd] in *. apply expanded_elem in Hrow as (Hk & Hr & Hl & Hle & Hc); [|by apply Hupto].
    destruct (variant_of (rt_variants db) (m_variant m)) as [v|] eqn:Hv; [|done]. injection Hj as <-.
    apply (st_ledger _ _ Hok) in Hl as (s & Hs & [= Hsr Hsl ->]). assert (of_poll s m) as Hp by (by split).
    destruct (st_only _ _ Hok s m b Hs Hp Hc Hpos) as (x & Hx & Hm & ->). exists s, x, m. pose proof (so_at s (Hsnaps s Hs)). rewrite !as_i64_small in Hle by done.
    split_and!; try done; [|lia|]. { rewrite Hr in Hsr. by destruct region, (sn_region s). } destruct Hm as [_ Hm]. rewrite Hm in Hv. by injection Hv as ->.
  - intros (s & x & m & Hs & Hr & Hle & Hx & Hp & Hm & Hk & ->). exists (m, as_i64 (sn_at s), body_of x). destruct (Hsnaps s Hs) as [Hat _ Hsam _ _ _].
    destruct (Hsam x Hx) as (_ & _ & _ & _ & Hl & _). pose proof Hp as [Hpr Hpl]. assert ((m_region m, m_realm m, as_i64 (sn_at s)) ∈ rt_ledger db) as Hled.
    { apply (st_ledger _ _ Hok). exists s. split; [done|]. by rewrite Hpr, Hpl. }
    split; [|cbn [fst snd]; destruct Hm as [_ ->]; done]. apply list_elem_of_filter. split.
    + cbn [snd body_of b_listings]. rewrite as_i64_u32 by lia. lia.
    + apply expanded_elem; [by apply Hupto|]. split_and!; [done|by rewrite Hpr, Hr|done|rewrite !as_i64_small by done; lia|]. by apply (st_polled _ _ Hok s x).
Qed.

(** The sample a row stands for. *)
Definition row_for (row : Row) (x : RealmSample) : Prop :=
  sample_of_row row = Ok x /\ m_item row.1.1.1 = Z.of_N (rs_item x) /\ row.1.2 = Z.of_N (rs_observed_at x).

Lemma polled_row_for s x m :
  s ∈ polls_ -> x ∈ sn_samples s -> of_poll s m -> of_market (rt_variants db) x m -> row_for (m, rs_variant x, as_i64 (sn_at s), body_of x) x.
Proof.
  intros Hs Hx Hp [Hi _]. pose proof (Hsnaps s Hs) as Hsn. destruct (so_samples s Hsn x Hx) as (_ & _ & Hat & Hit & _). split_and!; [by apply sample_back| |].
  - cbn [fst snd]. by rewrite Hi, as_i64_u32.
  - cbn [fst snd]. rewrite as_i64_small, Hat by apply Hsn. done.
Qed.

Lemma row_for_inj keep region since row row' x :
  polled_row keep region since row -> polled_row keep region since row' -> row_for row x -> row_for row' x -> row = row'.
Proof.
  intros (s & y & m & Hs & Hr & _ & Hy & Hp & Hm & _ & ->) (s' & y' & m' & Hs' & Hr' & _ & Hy' & Hp' & Hm' & _ & ->) [H _] [H' _].
  rewrite (sample_back s y m (Hsnaps s Hs) Hy Hp (proj1 Hm)) in H. rewrite (sample_back s' y' m' (Hsnaps s' Hs') Hy' Hp' (proj1 Hm')) in H'.
  injection H as ->. injection H' as ->. destruct (so_samples s (Hsnaps s Hs) x Hy) as (H1 & H2 & H3 & _), (so_samples s' (Hsnaps s' Hs') x Hy') as (H1' & H2' & H3' & _).
  assert (m = m') as ->; [|by rewrite <- H3, <- H3']. destruct m as [[[i r] l] v], m' as [[[i' r'] l'] v']. destruct Hp as [Ha Hb], Hp' as [Ha' Hb'], Hm as [Hc Hd], Hm' as [Hc' Hd'].
  cbn in *. subst. rewrite <- H1, <- H2, <- H1', <- H2'. f_equal. eapply variant_of_inj; [apply Hok|done|done].
Qed.
End Queries.

Lemma expanded_NoDup (region : string) (since : Z) (keep : Market -> bool) (upto : option Z) (t : SampleTable) (ledger : gset (string * Z * Z)) :
  NoDup (expanded region since (changes keep upto t) ledger).
Proof.
  unfold expanded. apply NoDup_bind.
  - intros [[m u] b] [[m' u'] b'] y Hin Hin' (p & _ & Hp)%list_elem_of_omap (p' & _ & Hp')%list_elem_of_omap. cbn [fst snd] in Hp, Hp'.
    case_decide as Hd; [|done]. case_decide as Hd'; [|done]. injection Hp as <-. injection Hp' as <- Hpp <-. destruct Hd as (_ & _ & Hle & Hst & _), Hd' as (_ & _ & Hle' & Hst' & _).
    rewrite Hpp in *. assert (forall v w c c', (m', v, c) ∈ changes keep upto t -> (m', w, c') ∈ changes keep upto t -> still p.2 (next_change (changes keep upto t) m' v) = true ->
      (w <= p.2)%Z -> (w <= v)%Z) as Hstep.
    { intros v w c c' Hv Hw Hs Hlw. destruct (decide (w <= v)%Z); [done|]. exfalso. unfold next_change in Hs.
      assert (w ∈ (fun kv : Market * Z * Body => kv.1.2) <$> filter (fun kv : Market * Z * Body => kv.1.1 = m' /\ (v < kv.1.2)%Z) (changes keep upto t)) as Hx.
      { apply list_elem_of_fmap. exists (m', w, c'). split; [done|]. apply list_elem_of_filter. split; [|done]. cbn. split; [done|lia]. }
      destruct (minZ _) as [nx|] eqn:Hn; [|apply minZ_None in Hn; rewrite Hn in Hx; by apply not_elem_of_nil in Hx]. apply bool_decide_eq_true in Hs.
      apply minZ_spec in Hn as [_ Hn]. specialize (Hn w Hx). lia. }
    assert (u = u') as ->; [|done]. pose proof (Hstep _ _ _ _ Hin Hin' Hst' Hle). pose proof (Hstep _ _ _ _ Hin' Hin Hst Hle'). lia.
  - intros [[m u] b] _. apply (NoDup_fmap_1 (fun y : Market * Z * Body => (m_region y.1.1, m_realm y.1.1, y.1.2))). apply NoDup_omap_key; [|apply NoDup_elements].
    intros p y. cbn [fst snd]. case_decide as Hd; [|done]. intros [= <-]. destruct Hd as (H1 & H2 & _). cbn [fst snd]. rewrite <- H1, <- H2. by destruct p as [[? ?] ?].
  - unfold changes. destruct upto; [|constructor]. apply NoDup_filter, NoDup_map_to_list.
Qed.

Lemma joined_NoDup db rows : NoDup rows -> NoDup (joined db rows).
Proof.
  intros Hnd. apply (NoDup_fmap_1 (fun r : Row => (r.1.1.1, r.1.2, r.2))). apply NoDup_omap_key; [|done]. intros [[m u] b] r. cbn [fst snd].
  destruct (variant_of _ _); [|done]. by intros [= <-].
Qed.

Section Reads.
Context (polls_ : list Snap) (db : RealmTables) (Hsnaps : forall s, s ∈ polls_ -> snap_ok s) (Hok : store_ok polls_ db).

Definition kept_of (keep : Market -> bool) (s : Snap) (x : RealmSample) : Prop :=
  exists m, of_poll s m /\ of_market (rt_variants db) x m /\ keep m = true.

Lemma market_exists s x : s ∈ polls_ -> x ∈ sn_samples s -> exists m, of_poll s m /\ of_market (rt_variants db) x m.
Proof.
  intros Hs Hx. pose proof (st_known _ _ Hok s x Hs Hx) as Hv. apply list_elem_of_lookup in Hv as [j Hj].
  exists (as_i64 (rs_item x), Region_as_str (sn_region s), as_i64 (sn_realm s), Z.of_nat j + 1)%Z. split; [by split|split; [done|]]. unfold variant_of. cbn [m_variant snd].
  rewrite decide_True by lia. by replace (Z.to_nat (Z.of_nat j + 1 - 1)) with j by lia.
Qed.

Lemma query_exact (cmp : Row -> Row -> comparison) keep upto region since :
  since < 2 ^ 63 ->
  (forall m at_, keep m = true -> (m_region m, m_realm m, at_) ∈ rt_ledger db -> m_region m = Region_as_str region -> exists u, upto = Some u /\ (at_ <= u)%Z) ->
  exists l, collect_results (sample_of_row <$> sort_by cmp (history_rows keep upto region since db)) = Ok l /\ NoDup l /\
    Forall2 row_for (sort_by cmp (history_rows keep upto region since db)) l /\
    forall x, x ∈ l <-> exists s, s ∈ polls_ /\ sn_region s = region /\ since <= sn_at s /\ x ∈ sn_samples s /\ kept_of keep s x.
Proof.
  intros Hsince Hupto. pose proof (fun row => history_rows_elem polls_ db Hsnaps Hok keep upto region since row Hsince Hupto) as Hrows.
  assert (NoDup (history_rows keep upto region since db)) as Hnd.
  { unfold history_rows. rewrite (unpolled_nil polls_ db Hok). cbn [joined omap list_omap]. rewrite app_nil_r. apply joined_NoDup, NoDup_filter, expanded_NoDup. }
  set (rows := sort_by cmp (history_rows keep upto region since db)). assert (rows ≡ₚ history_rows keep upto region since db) as Hperm by apply sort_by_perm.
  assert (forall row, row ∈ rows <-> polled_row polls_ db keep region since row) as Hin by (intros row; rewrite Hperm; apply Hrows).
  assert (exists l, collect_results (sample_of_row <$> rows) = Ok l /\ Forall2 row_for rows l) as (l & Hl & H2).
  { assert (Forall (fun row => exists x, row_for row x) rows) as Hall.
    { apply Forall_forall. intros row (s & x & m & Hs & _ & _ & Hx & Hp & Hm & _ & ->)%Hin. exists x. by eapply polled_row_for. }
    clear -Hall. induction Hall as [|row rows [x Hx] _ (l & Hl & IH)]; [by exists []|]. exists (x :: l). rewrite fmap_cons, (proj1 Hx).
    cbn [collect_results]. rewrite Hl. split; [done|by constructor]. }
  exists l. split_and!; [done| |done|].
  - apply NoDup_alt. intros i j x Hi Hj. destruct (Forall2_lookup_r _ _ _ _ _ H2 Hi) as (row & Hri & Hfi), (Forall2_lookup_r _ _ _ _ _ H2 Hj) as (row' & Hrj & Hfj).
    assert (row = row') as <- by (eapply (row_for_inj polls_ db); try done; apply Hin; by eapply list_elem_of_lookup_2).
    rewrite <- Hperm in Hnd. by eapply NoDup_lookup.
  - intros x. split.
    + intros [i Hi]%list_elem_of_lookup. destruct (Forall2_lookup_r _ _ _ _ _ H2 Hi) as (row & Hri & [Hf _]). apply list_elem_of_lookup_2, Hin in Hri as (s & y & m & Hs & Hr & Hle & Hy & Hp & Hm & Hk & ->).
      rewrite (sample_back s y m (Hsnaps s Hs) Hy Hp (proj1 Hm)) in Hf. injection Hf as ->. exists s. split_and!; [done..|]. by exists m.
    + intros (s & Hs & Hr & Hle & Hx & m & Hp & Hm & Hk). assert ((m, rs_variant x, as_i64 (sn_at s), body_of x) ∈ rows) as Hrow by (apply Hin; by exists s, x, m).
      apply list_elem_of_lookup in Hrow as [i Hi]. destruct (Forall2_lookup_l _ _ _ _ _ H2 Hi) as (y & Hy & [Hf _]).
      rewrite (sample_back s x m (Hsnaps s Hs) Hx Hp (proj1 Hm)) in Hf. injection Hf as ->. by eapply list_elem_of_lookup_2.
Qed.

Lemma rows_sorted (R : Row -> Row -> Prop) (R' : RealmSample -> RealmSample -> Prop) rows l :
  (forall a b x y, row_for a x -> row_for b y -> R a b -> R' x y) -> Forall2 row_for rows l -> StronglySorted R rows -> StronglySorted R' l.
Proof.
  intros HR H2. induction H2 as [|row x rows l Hrow H2 IH]; intros Hs; [constructor|]. apply StronglySorted_inv in Hs as [Hs Hall]. constructor; [by apply IH|].
  apply Forall_forall. intros y [i Hi]%list_elem_of_lookup. destruct (Forall2_lookup_r _ _ _ _ _ H2 Hi) as (row' & Hr' & Hf').
  eapply HR; [done|done|]. exact (proj1 (Forall_forall _ _) Hall row' (list_elem_of_lookup_2 _ _ _ Hr')).
Qed.
End Reads.

(** ** The polls the collector makes *)
Lemma sorted_last_max (l : list N) x : StronglySorted N.lt l -> x ∈ l -> (forall y, y ∈ l -> y <= x) -> last l = Some x.
Proof.
  induction l as [|y l IH] using rev_ind; intros Hs Hx Hmax; [by apply not_elem_of_nil in Hx|]. rewrite last_snoc. f_equal.
  apply StronglySorted_app in Hs as (Hlt & _ & _). apply elem_of_app in Hx as [Hx|Hx%list_elem_of_singleton]; [|done].
  pose proof (Hlt x y Hx ltac:(by left)). pose proof (Hmax y ltac:(set_solver)). lia.
Qed.

Lemma listings_sum_pos f l x : x ∈ l -> 0 < f (unit_price x) * l_quantity x -> 0 < listings_sum f l.
Proof.
  induction l as [|y l IH]; intros Hx Hpos; [by apply not_elem_of_nil in Hx|]. rewrite listings_sum_cons. apply elem_of_cons in Hx as [->|Hx]; [lia|].
  specialize (IH Hx Hpos). lia.
Qed.

Lemma listings_sum_zero f l : (forall x, x ∈ l -> f (unit_price x) = 0) -> listings_sum f l = 0.
Proof.
  induction l as [|y l IH]; intros H; [done|]. rewrite listings_sum_cons, (H y ltac:(by left)), IH; [lia|]. intros x Hx. apply H. by right.
Qed.

Lemma dearest_of l x :
  supply l < 2 ^ 64 -> x ∈ l -> 0 < l_quantity x -> (forall y, y ∈ l -> unit_price y <= unit_price x) -> dearest (Ladder_of l) = Some (unit_price x).
Proof.
  intros Hfit Hx Hq Hmax. unfold dearest, Ladder_of. cbn [steps]. set (r := entries (group_listings l ∅)).
  assert (s_price <$> accumulate 0 r = r.*1) as Hr.
  { rewrite <- (accumulate_pairs 0 r) at 2. rewrite <- list_fmap_compose. by apply list_fmap_ext. }
  rewrite <- fmap_last, Hr. apply sorted_last_max; [apply of_prices_sorted| |].
  - set (f := fun p => if decide (p = unit_price x) then 1 else 0). destruct (decide (unit_price x ∈ r.*1)) as [|Hno]; [done|]. exfalso.
    pose proof (of_sum l Hfit f) as Hsum. fold r in Hsum. rewrite (listings_sum_zero f (rung_listing <$> r)) in Hsum.
    + pose proof (listings_sum_pos f l x Hx). unfold f in H at 1. rewrite decide_True in H by done. lia.
    + intros y (p & -> & Hp)%list_elem_of_fmap. unfold f. rewrite decide_False; [done|]. intros He. apply Hno. rewrite <- He. cbn.
      by apply (list_elem_of_fmap_2 fst).
  - intros p ([p' q] & -> & Hin)%list_elem_of_fmap. destruct (of_rung l Hfit p' q Hin) as (_ & y & Hy & <- & _). by apply Hmax.
Qed.

Definition snap_of (listings : list GearListing) (region : Region) (realm : RealmId) (at_ : Millis) : Snap :=
  {| sn_region := region; sn_realm := realm; sn_at := at_; sn_samples := (summarise_realm listings region realm at_).1;
     sn_ladders := (summarise_realm listings region realm at_).2 |}.

Definition listing_ok (g : GearListing) : Prop := g_item g <= u32_max /\ 0 < g_price g <= u64_max.

(** One market of a poll: its sample and its ladder. *)
Lemma gear_sample_ok region realm at_ item v ps s l :
  N.of_nat (length ps) < 2 ^ 32 -> Forall (fun p => 0 < p <= u64_max) ps -> gear_sample region realm at_ ((item, v), ps) = Some (s, l) ->
  l.1 = (item, v) /\ rs_item s = item /\ rs_variant s = v /\ rs_region s = region /\ rs_realm s = realm /\ rs_observed_at s = at_ /\ 0 < rs_listings s <= u32_max /\
  rs_min_price s < 2 ^ 64 /\ rs_median_price s < 2 ^ 64 /\ rs_max_price s < 2 ^ 64 /\ ladder_wf l.2 /\ steps l.2 <> [] /\ top l.2 = rs_max_price s.
Proof.
  intros Hlen Hps Hg. assert (ps <> []) as Hne by (intros ->; unfold gear_sample in Hg; by vm_compute in Hg).
  destruct (gear_sample_spec region realm at_ (item, v) ps Hne Hlen) as (s' & lad & Hg' & H1 & H2 & H3 & H4 & H5 & H6 & _). rewrite Hg in Hg'. injection Hg' as -> ->. cbn [fst snd].
  assert (forall p, p ∈ ps -> p < 2 ^ 64) as Hfit by (intros p Hp; pose proof (proj1 (Forall_forall _ _) Hps p Hp) as Hx; cbn in Hx; unfold u64_max in Hx; lia).
  unfold gear_sample in Hg. set (st := sort_by_key id ps) in Hg. destruct (head st) as [mn|]; [|done]. destruct (last st) as [mx|] eqn:Hla; [|done]. cbn [mbind option_bind] in Hg.
  injection Hg as <- <-. cbn [rs_item rs_variant rs_region rs_realm rs_observed_at rs_listings rs_min_price rs_median_price rs_max_price] in *.
  assert (st ≡ₚ ps) as Hperm by apply sort_by_perm. set (ls := (fun p => {| l_item := item; unit_price := p; l_quantity := 1 |}) <$> st).
  assert (supply ls = N.of_nat (length ps)) as Hsup.
  { unfold ls. rewrite <- Hperm. clear. induction st as [|p st IH]; [done|]. unfold supply in *. rewrite !fmap_cons, sumN_cons, IH. cbn. lia. }
  assert (supply ls < 2 ^ 64) as Hs64 by (rewrite Hsup; assert (2 ^ 32 < 2 ^ 64) by done; lia).
  assert (dearest (Ladder_of ls) = Some mx) as Hd.
  { apply (dearest_of ls {| l_item := item; unit_price := mx; l_quantity := 1 |}); [done|apply list_elem_of_fmap; exists mx; split; [done|by apply last_Some_elem_of]|done|].
    intros y (p & -> & Hp)%list_elem_of_fmap. cbn. exact (sorted_last id st mx (sort_by_key_sorted id ps) Hla p Hp). }
  split_and!; try done; try (by apply Hfit).
  - rewrite H3. destruct ps; [done|]. cbn [length]. lia.
  - rewrite H3. unfold u32_max. lia.
  - apply Ladder_of_wf. split; [done|]. apply Forall_fmap. rewrite <- Hperm in Hps. exact Hps.
  - intros He. unfold dearest in Hd. by rewrite He in Hd.
  - unfold top. by rewrite Hd.
Qed.

(** The prices of one market of a poll. *)
Definition group_fits (g : (N * string) * list Copper) : Prop :=
  g.1.1 <= u32_max /\ N.of_nat (length g.2) < 2 ^ 32 /\ Forall (fun p => 0 < p <= u64_max) g.2.

Lemma groups_fit listings :
  N.of_nat (length listings) < 2 ^ 32 -> Forall listing_ok listings -> Forall group_fits (sort_by market_cmp (map_to_list (group_gear listings))).
Proof.
  intros Hlen Hall. apply Forall_forall. intros [k ps] Hin. rewrite (sort_by_perm market_cmp) in Hin. apply elem_of_map_to_list in Hin. rewrite group_gear_lookup in Hin.
  assert (Realm.listed listings k = ps /\ ps <> []) as [<- Hne] by (destruct (Realm.listed listings k); [done|]; injection Hin as <-; done).
  unfold Realm.listed in *. assert (forall g, g ∈ filter (fun l => (g_item l, variant l) = k) listings -> (g_item g, variant g) = k /\ listing_ok g) as Hg.
  { intros g [Hk Hg]%list_elem_of_filter. split; [done|]. exact (proj1 (Forall_forall _ _) Hall g Hg). }
  split_and!; cbn [fst snd].
  - destruct (filter _ listings) as [|g gs]; [done|]. destruct (Hg g ltac:(by left)) as [<- [Hi _]]. done.
  - rewrite length_fmap. pose proof (length_filter (fun l => (g_item l, variant l) = k) listings). lia.
  - apply Forall_fmap, Forall_forall. intros g Hin'. by destruct (Hg g Hin') as [_ [_ Hp]].
Qed.

Section Made.
Context (region : Region) (realm : RealmId) (at_ : Millis) (groups : list ((N * string) * list Copper)) (Hfit : Forall group_fits groups).

Abbreviation made := (omap (gear_sample region realm at_) groups).

Lemma made_ok s l : (s, l) ∈ made ->
  exists k ps, (k, ps) ∈ groups /\ l.1 = k /\ rs_item s = k.1 /\ rs_variant s = k.2 /\ rs_item s <= u32_max /\ rs_region s = region /\ rs_realm s = realm /\
    rs_observed_at s = at_ /\ 0 < rs_listings s <= u32_max /\ rs_min_price s < 2 ^ 64 /\ rs_median_price s < 2 ^ 64 /\ rs_max_price s < 2 ^ 64 /\
    ladder_wf l.2 /\ steps l.2 <> [] /\ top l.2 = rs_max_price s.
Proof.
  intros ([[i v] ps] & Hg & Hs)%list_elem_of_omap. destruct (proj1 (Forall_forall _ _) Hfit _ Hg) as (Hi & Hl & Hp). cbn [fst snd] in Hi, Hl, Hp.
  destruct (gear_sample_ok _ _ _ _ _ _ _ _ Hl Hp Hs) as (H1 & H2 & H3 & Hrest). exists (i, v), ps. split_and!; try done; [by rewrite H2|apply Hrest..].
Qed.

Lemma made_NoDup : NoDup groups.*1 -> NoDup ((fun y : RealmSample * Incoming => y.2.1) <$> made).
Proof.
  induction groups as [|[k ps] gs IH]; intros Hg; [constructor|]. apply Forall_cons in Hfit as [[_ [Hl Hp]] Hrest]. rewrite fmap_cons in Hg.
  apply NoDup_cons in Hg as [Hni Hg]. specialize (IH Hrest Hg). cbn [fst snd] in Hl, Hp. cbn [omap list_omap].
  destruct (gear_sample region realm at_ (k, ps)) as [[s l]|] eqn:Hs; [|exact IH]. rewrite fmap_cons. apply NoDup_cons. split; [|exact IH]. cbn [snd].
  destruct k as [i v]. destruct (gear_sample_ok _ _ _ _ _ _ _ _ Hl Hp Hs) as [-> _].
  intros ([s' l'] & He & ([[i' v'] ps'] & Hin & Hs')%list_elem_of_omap)%list_elem_of_fmap. destruct (proj1 (Forall_forall _ _) Hrest _ Hin) as (_ & Hl' & Hp').
  destruct (gear_sample_ok _ _ _ _ _ _ _ _ Hl' Hp' Hs') as [He' _]. cbn [snd] in He. rewrite He' in He. apply Hni. rewrite He. by apply (list_elem_of_fmap_2' fst _ ((i', v'), ps')).
Qed.
End Made.

Lemma snap_of_ok listings region realm at_ :
  at_ < 2 ^ 63 -> realm <= u32_max -> N.of_nat (length listings) < 2 ^ 32 -> Forall listing_ok listings -> snap_ok (snap_of listings region realm at_).
Proof.
  intros Hat Hre Hlen Hall. pose proof (groups_fit listings Hlen Hall) as Hfit. set (groups := sort_by market_cmp (map_to_list (group_gear listings))) in *.
  assert (NoDup ((fun y : RealmSample * Incoming => y.2.1) <$> omap (gear_sample region realm at_) groups)) as Hnd.
  { apply made_NoDup; [done|]. unfold groups. rewrite (sort_by_perm market_cmp). apply NoDup_fst_map_to_list. }
  pose proof (made_ok region realm at_ groups Hfit) as Hmade.
  constructor; cbn [snap_of sn_region sn_realm sn_at sn_samples sn_ladders]; [done|done| | | |]; unfold summarise_realm; cbn [fst snd]; fold groups.
  - intros x ([s l] & -> & Hin)%list_elem_of_fmap. cbn [fst]. destruct (Hmade s l Hin) as ([i v] & ps & _ & H1 & H2 & H3 & H4 & H5 & H6 & H7 & H8 & H9 & H10 & H11 & H12 & H13 & H14).
    split_and!; try done; try lia. exists l.2. split_and!; try done. cbn [fst snd] in H2, H3. rewrite H2, H3, <- H1. destruct l as [iv l]. by apply (list_elem_of_fmap_2' snd _ (s, (iv, l))).
  - rewrite <- list_fmap_compose. erewrite list_fmap_ext; [exact Hnd|]. intros i [s l] Hin%list_elem_of_lookup_2. destruct (Hmade s l Hin) as ([it v] & ps & _ & H1 & H2 & H3 & _).
    cbn. by rewrite H1, H2, H3.
  - rewrite <- list_fmap_compose. exact Hnd.
  - intros l ([s l'] & -> & Hin)%list_elem_of_fmap. destruct (Hmade s l' Hin) as (k & ps & _ & H1 & H2 & _ & H4 & _). cbn [snd]. by rewrite H1, <- H2.
Qed.

(** ** Storing changes only is invisible *)
Lemma upto_newest (region : Region) (realm : option RealmId) (db : RealmTables) (m : Market) (at_ : Z) :
  (m_region m, m_realm m, at_) ∈ rt_ledger db -> m_region m = Region_as_str region -> match realm with Some r => m_realm m = as_i64 r | None => True end ->
  exists u, maxZ (polls region realm db) = Some u /\ (at_ <= u)%Z.
Proof.
  intros Hl Hr Hm. assert (at_ ∈ polls region realm db) as Hin.
  { apply list_elem_of_fmap. exists (m_region m, m_realm m, at_). split; [done|]. apply list_elem_of_filter. cbn [fst snd]. split; [split; [done|]|by apply elem_of_elements].
    destruct realm; [by apply bool_decide_eq_true_2|done]. }
  destruct (maxZ (polls region realm db)) as [u|] eqn:Hu; [|destruct (polls region realm db); [by apply not_elem_of_nil in Hin|done]].
  exists u. split; [done|]. by apply maxZ_spec in Hu as [_ Hu]; apply Hu.
Qed.

Lemma row_time_sorted rows : StronglySorted (fun a b : Row => (a.1.2 <= b.1.2)%Z) (sort_by row_time_cmp rows).
Proof.
  apply sort_by_sorted; [intros a b; apply Z.compare_antisym|intros a b Hab; exact Hab|intros a b c; lia].
Qed.

Lemma window_cmp_opp a b : window_cmp a b = CompOpp (window_cmp b a).
Proof.
  unfold window_cmp, row_time_cmp, string_cmp. rewrite (Z.compare_antisym (m_item b.1.1.1)), (Z.compare_antisym (m_realm b.1.1.1)), (Z.compare_antisym b.1.2), (String.compare_antisym a.1.1.2).
  by destruct (m_item b.1.1.1 ?= m_item a.1.1.1)%Z, (m_realm b.1.1.1 ?= m_realm a.1.1.1)%Z, (String.compare b.1.1.2 a.1.1.2), (b.1.2 ?= a.1.2)%Z.
Qed.

Lemma window_sorted rows : StronglySorted (fun a b : Row => (m_item a.1.1.1 <= m_item b.1.1.1)%Z) (sort_by window_cmp rows).
Proof.
  apply sort_by_sorted; [apply window_cmp_opp| |intros a b c; lia]. intros a b Hab. unfold window_cmp in Hab. unfold Z.le.
  by destruct (m_item a.1.1.1 ?= m_item b.1.1.1)%Z.
Qed.

(** What is read of a store that holds polls: their samples since the instant asked for. *)
Lemma histories_exact polls_ db since :
  (forall s, s ∈ polls_ -> snap_ok s) -> store_ok polls_ db -> since < 2 ^ 63 ->
  (forall region, exists l, window_in_region region since db = Ok l /\ NoDup l /\ StronglySorted (fun x y => rs_item x <= rs_item y) l /\
     forall x, x ∈ l <-> exists s, s ∈ polls_ /\ sn_region s = region /\ since <= sn_at s /\ x ∈ sn_samples s) /\
  (forall item region, item <= u32_max ->
     exists l, history_in_region item region since db = Ok l /\ NoDup l /\ StronglySorted (fun x y => rs_observed_at x <= rs_observed_at y) l /\
     forall x, x ∈ l <-> exists s, s ∈ polls_ /\ sn_region s = region /\ since <= sn_at s /\ x ∈ sn_samples s /\ rs_item x = item) /\
  (forall item region realm, item <= u32_max -> realm <= u32_max ->
     exists l, history item region realm since db = Ok l /\ NoDup l /\ StronglySorted (fun x y => rs_observed_at x <= rs_observed_at y) l /\
     forall x, x ∈ l <-> exists s, s ∈ polls_ /\ sn_region s = region /\ sn_realm s = realm /\ since <= sn_at s /\ x ∈ sn_samples s /\ rs_item x = item).
Proof.
  intros Hsnaps Hok Hsince.
  pose proof (market_exists polls_ db Hok) as Hmk.
  assert (forall s x i, s ∈ polls_ -> x ∈ sn_samples s -> i <= u32_max -> as_i64 (rs_item x) = as_i64 i -> rs_item x = i) as Hitem.
  { intros s x i Hs Hx Hi. rewrite !as_i64_u32; [lia|done|]. apply (so_samples s (Hsnaps s Hs) x Hx). }
  assert (forall s i, s ∈ polls_ -> i <= u32_max -> as_i64 (sn_realm s) = as_i64 i -> sn_realm s = i) as Hrealm.
  { intros s i Hs Hi. rewrite !as_i64_u32; [lia|done|]. apply (so_realm s (Hsnaps s Hs)). }
  assert (forall a b x y, row_for a x -> row_for b y -> (a.1.2 <= b.1.2)%Z -> rs_observed_at x <= rs_observed_at y) as Htime.
  { intros a b x y (_ & _ & Ha) (_ & _ & Hb). lia. }
  split_and!.
  - intros region. destruct (query_exact polls_ db Hsnaps Hok window_cmp (fun m => bool_decide (m_region m = Region_as_str region))
      (maxZ (polls region None db)) region since Hsince) as (l & Hl & Hnd & H2 & Hx); [intros m at_ _ Hled Hr; by eapply upto_newest|].
    exists l. split_and!; [done|done| |].
    + eapply (rows_sorted (fun a b : Row => (m_item a.1.1.1 <= m_item b.1.1.1)%Z)); [|exact H2|apply window_sorted]. intros a b x y (_ & Ha & _) (_ & Hb & _). lia.
    + intros x. rewrite Hx. split; intros (s & Hs & Hr & Hle & Hin); exists s; [destruct Hin as [Hin _]; by split_and!|]. split_and!; [done..|].
      destruct (Hmk s x Hs Hin) as (m & Hp & Hm). exists m. split_and!; [done..|]. apply bool_decide_eq_true_2. by rewrite (proj1 Hp), Hr.
  - intros item region Hi. destruct (query_exact polls_ db Hsnaps Hok row_time_cmp
      (fun m => bool_decide (m_region m = Region_as_str region /\ m_item m = as_i64 item)) (maxZ (polls region None db)) region since Hsince) as (l & Hl & Hnd & H2 & Hx);
      [intros m at_ _ Hled Hr; by eapply upto_newest|].
    exists l. split_and!; [done|done|eapply (rows_sorted (fun a b : Row => (a.1.2 <= b.1.2)%Z)); [exact Htime|exact H2|apply row_time_sorted]|].
    intros x. rewrite Hx. split; intros (s & Hs & Hr & Hle & Hin & Hk); exists s; split_and!; try done.
    + destruct Hk as (m & _ & [Hm _] & Hk). apply bool_decide_eq_true in Hk as [_ Hk]. rewrite Hm in Hk. by eapply Hitem.
    + destruct (Hmk s x Hs Hin) as (m & Hp & Hm). exists m. split_and!; [done..|]. apply bool_decide_eq_true_2. by rewrite (proj1 Hp), (proj1 Hm), Hr, Hk.
  - intros item region realm Hi Hre. destruct (query_exact polls_ db Hsnaps Hok row_time_cmp
      (fun m => bool_decide (m_region m = Region_as_str region /\ m_item m = as_i64 item /\ m_realm m = as_i64 realm)) (maxZ (polls region (Some realm) db)) region since Hsince)
      as (l & Hl & Hnd & H2 & Hx); [intros m at_ Hk Hled Hr; apply bool_decide_eq_true in Hk as (_ & _ & Hk); by eapply upto_newest|].
    exists l. split_and!; [done|done|eapply (rows_sorted (fun a b : Row => (a.1.2 <= b.1.2)%Z)); [exact Htime|exact H2|apply row_time_sorted]|]. intros x. rewrite Hx. split.
    + intros (s & Hs & Hr & Hle & Hin & m & [_ Hpl] & [Hm _] & Hk). apply bool_decide_eq_true in Hk as (_ & Hki & Hkl). exists s. split_and!; try done.
      * rewrite Hpl in Hkl. by apply Hrealm.
      * rewrite Hm in Hki. by eapply Hitem.
    + intros (s & Hs & Hr & Hre' & Hle & Hin & Hk). exists s. split_and!; try done. destruct (Hmk s x Hs Hin) as (m & Hp & Hm). exists m. split_and!; [done..|].
      apply bool_decide_eq_true_2. by rewrite (proj1 Hp), (proj2 Hp), (proj1 Hm), Hr, Hre', Hk.
Qed.

(** Whatever realms are polled, each forward in time, and whenever ladders are pruned:
    the history of an item on a realm, of an item in a region, and the window of a region
    are the samples of the polls since the instant asked for, each once and in order, as
    if every poll had stored every sample. *)
Theorem realm_history_exact ops since :
  Forall snap_ok (snaps ops) -> forward (snaps ops) -> since < 2 ^ 63 ->
  (forall region, exists l, window_in_region region since (run ops) = Ok l /\ NoDup l /\ StronglySorted (fun x y => rs_item x <= rs_item y) l /\
     forall x, x ∈ l <-> exists s, s ∈ snaps ops /\ sn_region s = region /\ since <= sn_at s /\ x ∈ sn_samples s) /\
  (forall item region, item <= u32_max ->
     exists l, history_in_region item region since (run ops) = Ok l /\ NoDup l /\ StronglySorted (fun x y => rs_observed_at x <= rs_observed_at y) l /\
     forall x, x ∈ l <-> exists s, s ∈ snaps ops /\ sn_region s = region /\ since <= sn_at s /\ x ∈ sn_samples s /\ rs_item x = item) /\
  (forall item region realm, item <= u32_max -> realm <= u32_max ->
     exists l, history item region realm since (run ops) = Ok l /\ NoDup l /\ StronglySorted (fun x y => rs_observed_at x <= rs_observed_at y) l /\
     forall x, x ∈ l <-> exists s, s ∈ snaps ops /\ sn_region s = region /\ sn_realm s = realm /\ since <= sn_at s /\ x ∈ sn_samples s /\ rs_item x = item).
Proof. intros Hall Hf. apply histories_exact; [by apply Forall_forall|by apply polled_run_ok]. Qed.

(** Two polls of a realm that find the same, and one that finds nothing, with the ladders
    pruned in between. *)
Definition demo_gear : list GearListing := [{| g_item := 7; g_price := 40; g_bonus_ids := [1; 2] |}; {| g_item := 7; g_price := 90; g_bonus_ids := [1; 2] |}].
Definition demo_polls : list Op :=
  [Polls (snap_of demo_gear Eu 3 1000); Polls (snap_of demo_gear Eu 3 2000); Prunes 1500; Polls (snap_of [] Eu 3 3000)].

Lemma realm_history_exact_witness :
  (exists l, history 7 Eu 3 1500 (run demo_polls) = Ok l /\ NoDup l /\ forall x, x ∈ l <-> x ∈ sn_samples (snap_of demo_gear Eu 3 2000)) /\
  size (rt_samples (run demo_polls)) = 2%nat.
Proof.
  split; [|vm_compute; reflexivity].
  destruct (realm_history_exact demo_polls 1500) as (_ & _ & H).
  - repeat (apply Forall_cons; split; [apply snap_of_ok; [done|done|done|repeat constructor; vm_compute; discriminate || reflexivity]|]). constructor.
  - intros [|a [|b [|c rest]]] s later x; cbn; intros He Hx.
    + by apply not_elem_of_nil in Hx.
    + injection He as <- <- _. apply list_elem_of_singleton in Hx as ->. intros _ _. cbn [snap_of sn_at]. lia.
    + injection He as <- <- <- _. intros _ _. apply elem_of_cons in Hx as [->|Hx%list_elem_of_singleton]; [|subst x]; cbn [snap_of sn_at]; lia.
    + injection He as _ _ _ He. by destruct rest.
  - done.
  - destruct (H 7 Eu 3 ltac:(done) ltac:(done)) as (l & Hl & Hnd & _ & Hx). exists l. split; [exact Hl|]. split; [exact Hnd|]. intros x.
    assert (Forall (fun x => rs_item x = 7) (sn_samples (snap_of demo_gear Eu 3 2000))) as H7 by (vm_compute; repeat constructor).
    assert (sn_samples (snap_of [] Eu 3 3000) = []) as Hnone by (vm_compute; reflexivity). rewrite (Hx x). split.
    + intros (s & Hs & _ & _ & Hle & Hin & _). change (snaps demo_polls) with [snap_of demo_gear Eu 3 1000; snap_of demo_gear Eu 3 2000; snap_of [] Eu 3 3000] in Hs.
      apply elem_of_cons in Hs as [->|Hs]; [cbn [snap_of sn_at] in Hle; lia|]. apply elem_of_cons in Hs as [->|Hs]; [exact Hin|].
      apply list_elem_of_singleton in Hs as ->. exfalso. rewrite Hnone in Hin. exact (not_elem_of_nil x Hin).
    + intros Hin. exists (snap_of demo_gear Eu 3 2000). split; [right; left|]. split; [reflexivity|]. split; [reflexivity|]. split; [cbn [snap_of sn_at]; lia|].
      split; [exact Hin|]. exact (proj1 (Forall_forall _ _) H7 x Hin).
Defined.
