(* ===== verification/MaterialiseTask.v ===== *)
(** * MaterialiseTask: recalculating the read model and publishing it

    Models [crates/server/src/materialise_task.rs]: the pass over a region's commodities,
    whose partitions run on the cluster or here ([distribute], [local]); the pass over its
    realms ([realm_region]); and [publish], which stages what the passes make under one
    version and publishes or abandons it.

    What the cluster does while the coordinator waits is an argument: how many nodes
    could take work, whether the job was accepted, and for each turn of the loop what
    workers did to the store of artifacts, the state of the job and the time gone by.  The answer of
    [publish] is [None] while the loop still waits; [watch_ends] shows that it does not
    wait for ever. *)
From stdpp Require Import prelude gmap sorting strings pretty relations.
From S2P Require Import Prelude Text Time Node Job Workload Protocol Store Sqlite Market Catalog Release Depth MarketKey Realm Window Materialise Rollup PriceStore ReadRows ReadModel AnalysisWork RealmStore.

Definition BATCH : nat := 250.
Definition REALM_WINDOW : Window.t := Window.Days 30.
Definition CLUSTER_DEADLINE_MS : N := 60000.
Definition POLL_MS : N := 25.

(** [chunks]. *)
Fixpoint chunks_from {A} (fuel n : nat) (l : list A) : list (list A) :=
  match fuel, l with
  | S fuel, _ :: _ => take n l :: chunks_from fuel n (drop n l)
  | _, _ => []
  end.
Definition chunks {A} (n : nat) (l : list A) : list (list A) := chunks_from (length l) n l.

Definition min_option (a b : option Millis) : option Millis :=
  match a, b with Some a, Some b => Some (N.min a b) | some, None => some | None, some => some end.
Definition max_option (a b : option Millis) : option Millis :=
  match a, b with Some a, Some b => Some (N.max a b) | some, None => some | None, some => some end.

Record RegionReport := { rp_markets : N; rp_oldest : option Millis; rp_newest : option Millis }.

(** What the passes read: the tables and the catalogues with their releases. *)
Record Ports := { en_prices : PriceTables; en_realm_prices : RealmTables; en_catalogs : CatalogSet; en_releases : ReleaseStates }.
Definition en_owners (env : Ports) : gmap N Catalog := Release.public_owners (en_catalogs env) (en_releases env).
Definition en_public (env : Ports) : list Catalog := Release.public_all (en_catalogs env) (en_releases env).
Definition en_active (env : Ports) : option Catalog := Release.active (en_catalogs env) (en_releases env).

(** The catalogue of what no catalogue lists. *)
Definition fallback_of (env : Ports) : option Catalog := match en_active env with Some c => Some c | None => head (en_public env) end.

(** ** The commodities of a region *)
(** What workers did to the store since the turn before, the job as it is then, and the
    time since the submission. *)
Record Turn := { tu_work : Coordinator -> Coordinator; tu_job : option JobState; tu_elapsed : N }.
Record Cluster := { cu_takers : N; cu_accepted : bool; cu_turns : list Turn }.

Section Task.
Context `{PI : Postcard Input, PR : Postcard (list Materialised)} (explain : Bytes -> string).
Context `{JP : Json (list StoredPoint), JC : Json (list StoredCycle), JL : Json (list StoredLevel), JM : Json (list StoredModifier)}.

(** The loop that waits for the cluster. *)
Fixpoint watch (version : N) (turns : list Turn) (s : Coordinator) : option (option (list Materialised) * Coordinator) :=
  match turns with
  | [] => None
  | t :: rest =>
      let s := tu_work t s in
      match collect version (held s) with
      | Some rows => Some (Some rows, s)
      | None =>
          if from_option JobState_is_terminal false (tu_job t) then Some (None, s)
          else if decide (CLUSTER_DEADLINE_MS < tu_elapsed t) then Some (None, s)
          else watch version rest s
      end
  end.

Definition distribute (version : N) (inputs : list Input) (cluster : Cluster) (s : Coordinator) : option (option (list Materialised) * Coordinator) :=
  match inputs with
  | [] => Some (Some [], s)
  | _ =>
      let s := opened version ALGORITHM_VERSION inputs s in
      if decide (cu_takers cluster = 0) then Some (None, s)
      else if cu_accepted cluster then watch version (cu_turns cluster) s else Some (None, s)
  end.

(** One partition, by the code a worker runs. *)
Definition run_here (version : N) (st : State) (partition : N) : State :=
  let spec := TaskAnalysis version ALGORITHM_VERSION partition in
  match artifact_input st spec with
  | None => st
  | Some input =>
      match MarketWorkload_run explain 0 spec input with
      | Some (WorkProduced _ artifact) => produced spec artifact st
      | _ => st
      end
  end.

Definition set_held (st : State) (s : Coordinator) : Coordinator := {| held := st; heap := heap s; calls := calls s; begun := begun s |}.

Definition local (version : N) (s : Coordinator) : list Materialised * Coordinator :=
  let '(_, all) := done (held s) in
  let st := foldl (run_here version) (held s) (N.of_nat <$> seq 0 all) in
  (default [] (collect version st), set_held st s).

Definition region_rows (version : N) (inputs : list Input) (cluster : Cluster) (s : Coordinator) : option (list Materialised * Coordinator) :=
  answer ← distribute version inputs cluster s;
  Some (match answer with (Some rows, s) => (rows, s) | (None, s) => local version s end).

Definition window_lists (owners : gmap N Catalog) (fallback : Catalog) : gmap string (list Window.t) :=
  foldl (fun m c => match m !! c_id c with Some _ => m | None => <[c_id c := Window.all_for c]> m end) ∅ (values owners ++ [fallback]).

Definition owner_of (env : Ports) (fallback : Catalog) (item : ItemId) : Catalog := default fallback (en_owners env !! item).
Definition windows_for (env : Ports) (fallback : Catalog) (catalog : Catalog) : list Window.t :=
  default [] (window_lists (en_owners env) fallback !! c_id catalog).
Definition ladder_map (rows : list (ItemId * Millis * Ladder)) : gmap N Ladder :=
  foldl (fun m r => <[r.1.1 := r.2]> m) ∅ rows.

(** The transactions of a batch each, until one fails. *)
Fixpoint stage_batches (version : N) (batches : list (list Materialised)) (markets : N) (m : ReadModel) : StoreResult N * ReadModel :=
  match batches with
  | [] => (Ok markets, m)
  | b :: rest => match stage version b m with (Ok n, m) => stage_batches version rest (markets + n) m | (Err e, m) => (Err e, m) end
  end.
Fixpoint stage_rollup_batches (version : N) (batches : list (list MarketRollup)) (markets : N) (m : ReadModel) : StoreResult N * ReadModel :=
  match batches with
  | [] => (Ok markets, m)
  | b :: rest => match stage_rollups version b m with (Ok n, m) => stage_rollup_batches version rest (markets + n) m | (Err e, m) => (Err e, m) end
  end.

Definition World : Type := Coordinator * ReadModel.

Definition commodity_region (env : Ports) (fallback : Catalog) (region : Region) (cluster : Cluster) (version : N) (now : Millis) (w : World) :
    option (StoreResult RegionReport * World) :=
  match sql_history_in_region region (en_prices env) with
  | Err e => Some (Err e, w)
  | Ok history =>
      let oldest := observed_at <$> head history in
      let newest := maxN (observed_at <$> history) in
      match sql_latest_ladders region (en_prices env) with
      | Err e => Some (Err e, w)
      | Ok ladders =>
          inputs ← partition region (ladder_map ladders) (owner_of env fallback) (windows_for env fallback) now history;
          '(rows, s) ← region_rows version inputs cluster w.1;
          Some match stage_batches version (chunks BATCH rows) 0 w.2 with
               | (Ok markets, m) => (Ok {| rp_markets := markets; rp_oldest := oldest; rp_newest := newest |}, (s, m))
               | (Err e, m) => (Err e, (s, m))
               end
      end
  end.

(** ** The realms of a region *)
Definition realm_ladders (rows : list (RealmId * ItemId * string * Ladder)) : RealmLadders :=
  foldl (fun m r => <[r.1 := r.2]> m) ∅ rows.

Definition owner_id (env : Ports) (fallback : Catalog) (s : RealmSample) : string := c_id (owner_of env fallback (rs_item s)).

Definition string_entries {V} (m : gmap string V) : list (string * V) := sort_by (fun a b => string_cmp a.1 b.1) (map_to_list m).

Definition realm_rollups (env : Ports) (fallback : Catalog) (history : list RealmSample) (ladders : RealmLadders) : list MarketRollup :=
  if decide (length (en_public env) < 2)%nat then Rollup.rollups history ladders fallback REALM_WINDOW
  else
    string_entries (group_by (owner_id env fallback) id history) ≫= fun part =>
      Rollup.rollups part.2 ladders (default fallback (find_first (fun c => bool_decide (c_id c = part.1)) (en_public env))) REALM_WINDOW.

Definition realm_region (env : Ports) (fallback : Catalog) (region : Region) (version : N) (now : Millis) (w : World) :
    StoreResult RegionReport * World :=
  match Window.bounds REALM_WINDOW fallback now with
  | None => (Ok {| rp_markets := 0; rp_oldest := None; rp_newest := None |}, w)
  | Some (from, _) =>
      match window_in_region region from (en_realm_prices env) with
      | Err e => (Err e, w)
      | Ok history =>
          let oldest := minN (rs_observed_at <$> history) in
          let newest := maxN (rs_observed_at <$> history) in
          match latest_ladders_in_region region (en_realm_prices env) with
          | Err e => (Err e, w)
          | Ok ladders =>
              match stage_rollup_batches version (chunks BATCH (realm_rollups env fallback history (realm_ladders ladders))) 0 w.2 with
              | (Ok markets, m) => (Ok {| rp_markets := markets; rp_oldest := oldest; rp_newest := newest |}, (w.1, m))
              | (Err e, m) => (Err e, (w.1, m))
              end
          end
      end
  end.

(** ** The version *)
Inductive Pass := Commodity_ (region : Region) (cluster : Cluster) | PerRealm (region : Region).

Definition pass_note (p : Pass) (e : StoreError) : string :=
  match p with
  | Commodity_ region _ => "commodity " +:+ Region_as_str region +:+ ": " +:+ StoreError_fmt e
  | PerRealm region => "per-realm " +:+ Region_as_str region +:+ ": " +:+ StoreError_fmt e
  end.

Definition run_pass (env : Ports) (fallback : Catalog) (version : N) (now : Millis) (p : Pass) (w : World) : option (StoreResult RegionReport * World) :=
  match p with
  | Commodity_ region cluster => commodity_region env fallback region cluster version now w
  | PerRealm region => Some (realm_region env fallback region version now w)
  end.

Fixpoint run_passes (env : Ports) (fallback : Catalog) (version : N) (now finished : Millis) (todo : list Pass) (oldest newest : option Millis) (w : World) : option World :=
  match todo with
  | [] =>
      Some match ReadModel.publish version (oldest, newest) finished w.2 with
           | (Ok _, m) => (w.1, m)
           | (Err e, m) => (w.1, (abandon version ("publish failed: " +:+ StoreError_fmt e) m).2)
           end
  | p :: rest =>
      '(outcome, w) ← run_pass env fallback version now p w;
      match outcome with
      | Ok report => run_passes env fallback version now finished rest (min_option oldest (rp_oldest report)) (max_option newest (rp_newest report)) w
      | Err e => Some (w.1, (abandon version (pass_note p e) w.2).2)
      end
  end.

(** [finished] is the clock when the version is published. *)
Definition publish (env : Ports) (commodity : list (Region * Cluster)) (per_realm : list Region) (now finished : Millis) (w : World) : option World :=
  match fallback_of env with
  | None => Some w
  | Some fallback =>
      match commodity, per_realm with
      | [], [] => Some w
      | _, _ =>
          match ReadModel.begin ALGORITHM_VERSION now w.2 with
          | (Err _, m) => Some (w.1, m)
          | (Ok version, m) =>
              run_passes env fallback version now finished (((fun rc => Commodity_ rc.1 rc.2) <$> commodity) ++ (PerRealm <$> per_realm)) None None (w.1, m)
          end
      end
  end.
End Task.

(** ** Cutting into batches *)
Lemma concat_chunks {A} (n : nat) (l : list A) : (0 < n)%nat -> List.concat (chunks n l) = l.
Proof.
  intros Hn. unfold chunks. assert (forall fuel (l : list A), (length l <= fuel)%nat -> List.concat (chunks_from fuel n l) = l) as H; [|by apply H].
  clear l. intros fuel. induction fuel as [|fuel IH]; intros l Hl; [by destruct l; [|cbn in Hl; lia]|]. destruct l as [|x l]; [done|]. cbn [chunks_from List.concat].
  rewrite IH; [apply take_drop|]. rewrite length_drop. cbn [length] in *. lia.
Qed.

Section TaskLaws.
Context `{PI : Postcard Input, PR : Postcard (list Materialised), !PostcardLaws Input, !PostcardLaws (list Materialised)} (explain : Bytes -> string).

(** ** The cluster and this process compute the same *)

(** What [postcard] can write, in a frame that is not empty. *)
Definition encodable (x : Input) : Prop := (exists b, b <> [] /\ to_allocvec x = Some b) /\ exists b, to_allocvec (reduce x) = Some b.

(** Workers do nothing to the store but send results. *)
Definition only_calls (cluster : Cluster) : Prop := forall t s, t ∈ cu_turns cluster -> rtc call_step s (tu_work t s).

Lemma run_here_spec version st p a :
  ar_version st = version -> ar_algorithm st = ALGORITHM_VERSION -> ar_inputs st !! p = Some a -> encodable a.2 ->
  run_here explain version st p =
    {| ar_version := ar_version st; ar_algorithm := ar_algorithm st; ar_inputs := ar_inputs st; ar_results := <[p := reduce a.2]> (ar_results st) |}.
Proof.
  intros Hv Ha Hp [(b & Hne & Hb) (c & Hc)]. assert (registered st version ALGORITHM_VERSION p = Some a) as Hr.
  { unfold registered. rewrite decide_False; [done|]. intros [?|?]; congruence. }
  unfold run_here. cbn [artifact_input]. rewrite Hr. cbn [mbind option_bind]. rewrite Hb. cbn [MarketWorkload_run]. destruct b as [|x b]; [done|].
  rewrite (from_to_bytes _ _ Hb). cbv zeta. rewrite Hc. cbn [mbind option_bind produced]. rewrite (from_to_bytes _ _ Hc), (finish_registered _ _ _ _ _ Hr). done.
Qed.

Lemma run_here_all version st ps :
  ar_version st = version -> ar_algorithm st = ALGORITHM_VERSION -> (forall p a, ar_inputs st !! p = Some a -> encodable a.2) ->
  (forall p, p ∈ ps -> is_Some (ar_inputs st !! p)) ->
  exists results, foldl (run_here explain version) st ps =
    {| ar_version := ar_version st; ar_algorithm := ar_algorithm st; ar_inputs := ar_inputs st; ar_results := results |} /\
    forall p, results !! p = if decide (p ∈ ps) then (fun a : Arc => reduce a.2) <$> ar_inputs st !! p else ar_results st !! p.
Proof.
  revert st. induction ps as [|p ps IH]; intros st Hv Ha Henc Hin; cbn [foldl].
  { exists (ar_results st). split; [by destruct st|]. intros p. rewrite decide_False; [done|apply not_elem_of_nil]. }
  destruct (Hin p ltac:(by left)) as [a Hp]. rewrite (run_here_spec version st p a Hv Ha Hp (Henc p a Hp)). set (st' := {| ar_version := _ |}).
  destruct (IH st' Hv Ha Henc) as (results & Hf & Hres); [intros q Hq; apply Hin; by right|]. exists results. split; [exact Hf|]. intros q. rewrite Hres. cbn [st' ar_inputs ar_results].
  destruct (decide (q ∈ ps)) as [Hq|Hq]; [rewrite decide_True by (by right); done|]. destruct (decide (q = p)) as [->|Hne].
  - rewrite lookup_insert_eq, decide_True by (by left). by rewrite Hp.
  - rewrite lookup_insert_ne by done. rewrite decide_False; [done|]. intros [->|?]%elem_of_cons; done.
Qed.

Lemma size_registered (s : Coordinator) : work_ok s -> N.of_nat (length (begun s)) <= 2 ^ 32 -> size (ar_inputs (held s)) = length (begun s).
Proof.
  intros Hok Hlen. pose proof (values_of_list (snd <$> ar_inputs (held s)) (begun s)) as Hvals. rewrite <- (map_size_fmap snd), <- length_values, Hvals; [done|].
  intros p. rewrite lookup_fmap. apply option_eq. intros x. symmetry. by apply registered_begun.
Qed.

(** Finished here, every partition is there, with or without what workers sent. *)
Lemma local_exact version (s : Coordinator) :
  work_ok s -> N.of_nat (length (begun s)) <= 2 ^ 32 -> ar_version (held s) = version -> ar_algorithm (held s) = ALGORITHM_VERSION -> Forall encodable (begun s) ->
  (local explain version s).1 = begun s ≫= reduce /\ work_ok (local explain version s).2.
Proof.
  intros Hok Hlen Hv Ha Henc. pose proof (size_registered s Hok Hlen) as Hsize. unfold local. cbn [done fst snd].
  assert (forall p a, ar_inputs (held s) !! p = Some a -> begun s !! N.to_nat p = Some a.2) as Hreg.
  { intros p a Hp. apply registered_begun; [done..|]. by rewrite Hp. }
  assert (forall p, is_Some (ar_inputs (held s) !! p) <-> p ∈ N.of_nat <$> seq 0 (size (ar_inputs (held s)))) as Hdom.
  { intros p. rewrite Hsize, list_elem_of_fmap. split.
    - intros [a Hp%Hreg%lookup_lt_Some]. exists (N.to_nat p). split; [lia|]. apply elem_of_seq. lia.
    - intros (j & -> & Hj%elem_of_seq). destruct (lookup_lt_is_Some_2 (begun s) j) as [x Hx]; [lia|].
      pose proof (proj1 (registered_begun s (N.of_nat j) x Hok Hlen)) as Hb. rewrite Nat2N.id in Hb. specialize (Hb Hx).
      destruct (ar_inputs (held s) !! N.of_nat j); [by eexists|done]. }
  destruct (run_here_all version (held s) (N.of_nat <$> seq 0 (size (ar_inputs (held s)))) Hv Ha) as (results & Hf & Hres).
  - intros p a Hp%Hreg. apply (proj1 (Forall_forall _ _) Henc). by eapply list_elem_of_lookup_2.
  - intros p Hp. by apply Hdom.
  - rewrite Hf. set (st := {| ar_version := _ |}). assert (results = (fun a : Arc => reduce a.2) <$> ar_inputs (held s)) as Heq.
    { apply map_eq. intros p. rewrite Hres, lookup_fmap. destruct (decide (p ∈ _)) as [Hp|Hp]; [done|].
      destruct (ar_inputs (held s) !! p) eqn:Hi; [exfalso; apply Hp, Hdom; by eexists|]. cbn.
      destruct (ar_results (held s) !! p) as [rows|] eqn:Hr; [|done]. destruct (wo_results s Hok p rows Hr) as (a & Hia & _). congruence. }
    assert (work_ok (set_held st s)) as Hok'.
    { destruct Hok as [H1 H2 H3]. constructor; cbn [set_held held heap calls begun st ar_inputs ar_results]; [done| |done].
      intros p rows. rewrite Heq, lookup_fmap. destruct (ar_inputs (held s) !! p) as [a|]; [|done]. intros [= <-]. by exists a. }
    split; [|done]. assert (exists rows, collect version st = Some rows) as (rows & Hc).
    { unfold collect. cbn [st ar_version ar_results ar_inputs]. rewrite decide_False by (intros H; by apply H). rewrite decide_False; [by eexists|].
      rewrite Heq, map_size_fmap. intros H. by apply H. }
    change st with (held (set_held st s)) in Hc at 1. destruct (collect_exact (set_held st s) version rows Hok' Hlen Hc) as [_ ->]. cbn [fst]. cbn [set_held held] in Hc. by rewrite Hc.
Qed.

Lemma watch_exact version turns (s s' : Coordinator) answer :
  (forall t x, t ∈ turns -> rtc call_step x (tu_work t x)) -> work_ok s -> N.of_nat (length (begun s)) <= 2 ^ 32 ->
  watch version turns s = Some (answer, s') -> work_ok s' /\ same_candidate s s' /\ forall rows, answer = Some rows -> rows = begun s ≫= reduce.
Proof.
  revert s. induction turns as [|t turns IH]; intros s Hcalls Hok Hlen; [done|]. cbn [watch]. destruct (calls_keep s (tu_work t s) (Hcalls t s ltac:(by left)) Hok) as [Hok1 Hsame].
  pose proof Hsame as (Hb & _). destruct (collect version (held (tu_work t s))) as [rows|] eqn:Hc.
  - intros [= <- <-]. split_and!; [done|done|]. intros rows' [= <-]. destruct (collect_exact _ _ _ Hok1 ltac:(by rewrite Hb) Hc) as [_ ->]. by rewrite Hb.
  - destruct (from_option _ _ _); [intros [= <- <-]; by split_and!|]. case_decide; [intros [= <- <-]; by split_and!|]. intros Hw.
    destruct (IH (tu_work t s) (fun t' x Ht => Hcalls t' x ltac:(by right)) Hok1 ltac:(by rewrite Hb) Hw) as (H1 & H2 & H3). split_and!; [done| |by rewrite Hb in H3].
    destruct Hsame as (K1 & K2 & K3 & K4 & K5), H2 as (L1 & L2 & L3 & L4 & L5). unfold same_candidate. split_and!; try congruence. by etrans.
Qed.

(** Wherever the partitions ran, the rows are those of the inputs. *)
Lemma region_rows_exact version inputs cluster (s s' : Coordinator) rows :
  work_ok s -> N.of_nat (length inputs) <= 2 ^ 32 -> Forall encodable inputs -> only_calls cluster ->
  region_rows explain version inputs cluster s = Some (rows, s') -> rows = inputs ≫= reduce /\ work_ok s'.
Proof.
  intros Hok Hlen Henc Hcalls. unfold region_rows, distribute. destruct inputs as [|x inputs]; [by intros [= <- <-]|].
  pose proof (work_ok_opened version ALGORITHM_VERSION (x :: inputs) s Hok) as Hok1. set (s1 := opened version ALGORITHM_VERSION (x :: inputs) s) in *.
  assert (forall s2, work_ok s2 -> same_candidate s1 s2 -> Some (local explain version s2) = Some (rows, s') -> rows = (x :: inputs) ≫= reduce /\ work_ok s') as Hlocal.
  { intros s2 Hok2 (H1 & H2 & H3 & _) Heq%(inj Some). change (x :: inputs) with (begun s1) at 1. rewrite <- H1.
    destruct (local_exact version s2) as [E1 E2]; [done|by rewrite H1|by rewrite H2|by rewrite H3|by rewrite H1|]. by rewrite Heq in E1, E2. }
  assert (same_candidate s1 s1) as Hrefl by (by split_and!).
  case_decide as Ht; [by apply Hlocal|]. destruct (cu_accepted cluster); [|by apply Hlocal].
  destruct (watch version (cu_turns cluster) s1) as [[answer s2]|] eqn:Hw; [|done]. destruct (watch_exact version (cu_turns cluster) s1 s2 answer) as (Hok2 & Hsame & Hrows); [intros t y Ht'; by apply Hcalls|done|done|done|].
  cbn [mbind option_bind]. destruct answer as [rows2|]; [|by apply Hlocal]. intros [= <- <-]. split; [by apply Hrows|done].
Qed.

(** The wait ends. *)
Lemma watch_ends version turns (s : Coordinator) :
  (forall i t, turns !! i = Some t -> POLL_MS * N.of_nat i <= tu_elapsed t) -> (2401 < length turns)%nat -> is_Some (watch version turns s).
Proof.
  intros Htime Hlen. destruct (lookup_lt_is_Some_2 turns 2401) as [t Ht]; [done|]. assert (CLUSTER_DEADLINE_MS < tu_elapsed t) as Hlate.
  { specialize (Htime 2401%nat t Ht). unfold POLL_MS in Htime. unfold CLUSTER_DEADLINE_MS. lia. }
  apply list_elem_of_lookup_2 in Ht. clear -Ht Hlate. revert s. induction turns as [|x turns IH]; intros s; [by apply not_elem_of_nil in Ht|]. cbn [watch].
  destruct (collect version _); [by eexists|]. destruct (from_option _ _ _); [by eexists|]. case_decide as Hd; [by eexists|]. apply elem_of_cons in Ht as [->|Ht]; [lia|by apply IH].
Qed.
End TaskLaws.

(** ** One catalogue's realms at a time *)

(** No two catalogues of the set have one name. *)
Definition ports_ok (env : Ports) : Prop :=
  forall c c', c ∈ catalogs (en_catalogs env) -> c' ∈ catalogs (en_catalogs env) -> c_id c = c_id c' -> c = c'.

Lemma owners_public env item c : en_owners env !! item = Some c -> c ∈ en_public env.
Proof.
  unfold en_owners, Release.public_owners. rewrite (fold_index_lookup (fun c _ => c)).
  intros (x & Hx & (i & _ & ->)%fmap_Some)%find_map_Some. done.
Qed.

Lemma fallback_public env c : fallback_of env = Some c -> c ∈ en_public env.
Proof.
  unfold fallback_of. destruct (en_active env) as [a|] eqn:Ha; [|by apply head_Some_elem_of]. intros [= ->]. apply find_first_Some in Ha as [Hin Hact].
  apply public_all_elem. split; [done|]. intros Hd. by rewrite Hd in Hact.
Qed.

Lemma public_names env c c' : ports_ok env -> c ∈ en_public env -> c' ∈ en_public env -> c_id c = c_id c' -> c = c'.
Proof. intros Hok [Hc _]%public_all_elem [Hc' _]%public_all_elem. by apply Hok. Qed.

Lemma owner_public env fallback item : fallback ∈ en_public env -> owner_of env fallback item ∈ en_public env.
Proof. intros Hf. unfold owner_of. destruct (en_owners env !! item) as [c|] eqn:Hc; [by eapply owners_public|done]. Qed.

Lemma newest_of_filter (P : RealmSample -> Prop) `{forall s, Decision (P s)} history region item realm :
  (forall s, rs_item s = item -> P s) -> newest_of (filter P history) !! (region, item, realm) = newest_of history !! (region, item, realm).
Proof.
  intros HP. set (s := {| rs_item := item; rs_region := region; rs_realm := realm; rs_variant := ""; rs_observed_at := 0; rs_min_price := 0;
                          rs_median_price := 0; rs_max_price := 0; rs_listings := 0 |}).
  change (region, item, realm) with (rs_region s, rs_item s, rs_realm s). rewrite !newest_of_lookup. f_equal. f_equal. apply list_filter_filter_l.
  intros x (_ & Hi & _). by apply HP.
Qed.

(** A row reads of the newest sightings only those of its item. *)
Lemma roll_newest (region : Region) (item : ItemId) (kind : ItemKind.t) (track : option Track.t) (scope : Scope.t) (samples : list RealmSample) (newest newest' : Newest) (ladders : RealmLadders) (catalog : Catalog) (window : Window.t) :
  (forall realm, newest !! (region, item, realm) = newest' !! (region, item, realm)) ->
  Forall (fun s => rs_region s = region /\ rs_item s = item) samples ->
  roll region item kind track scope samples newest ladders catalog window = roll region item kind track scope samples newest' ladders catalog window.
Proof.
  intros Hn Hs. assert (filter (is_current newest) samples = filter (is_current newest') samples) as Hcur.
  { apply filter_iff_on. apply (Forall_impl _ _ _ Hs). intros s [H1 H2]. unfold is_current. by rewrite H1, H2, Hn. }
  assert (length (filter (fun kv => kv.1.1.1 = region /\ kv.1.1.2 = item) (map_to_list newest)) =
          length (filter (fun kv => kv.1.1.1 = region /\ kv.1.1.2 = item) (map_to_list newest'))) as Hlen.
  { apply Permutation_length, NoDup_Permutation; [apply NoDup_filter, NoDup_map_to_list..|].
    intros [[[r i] realm] t]. rewrite !list_elem_of_filter, !elem_of_map_to_list. cbn [fst snd]. split; intros [[-> ->] H]; (split; [done|]); congruence. }
  unfold roll. cbv zeta. by rewrite Hcur, Hlen.
Qed.

Lemma rollups_part (P : RealmSample -> Prop) `{forall s, Decision (P s)} history ladders catalog window row :
  (forall s s', rs_item s = rs_item s' -> P s -> P s') ->
  row ∈ Rollup.rollups (filter P history) ladders catalog window <->
  row ∈ Rollup.rollups history ladders catalog window /\ exists s, s ∈ history /\ P s /\ rs_item s = mr_item row.
Proof.
  intros HP. rewrite !rollups_elem.
  assert (forall k s, s ∈ history -> P s -> rs_item s = k.1.1.2 ->
    filter (fun s => group_key catalog s = k) (filter P history) = filter (fun s => group_key catalog s = k) history /\
    forall scope, roll k.1.1.1 k.1.1.2 k.1.2 k.2 scope (scoped scope (filter (fun s => group_key catalog s = k) history)) (newest_of (filter P history)) ladders catalog window =
      roll k.1.1.1 k.1.1.2 k.1.2 k.2 scope (scoped scope (filter (fun s => group_key catalog s = k) history)) (newest_of history) ladders catalog window) as Hk.
  { intros k s Hs HPs Hi. split; [apply list_filter_filter_l; intros x <-; by apply (HP s)|]. intros scope. apply roll_newest.
    - intros realm. apply newest_of_filter. intros x Hx. apply (HP s); congruence.
    - apply Forall_forall. intros x [(Hx & _)%list_elem_of_filter _]%scoped_elem. by rewrite <- Hx. }
  split.
  - intros (k & scope & -> & Hne). destruct (scoped scope (filter (fun s => group_key catalog s = k) (filter P history))) as [|s l] eqn:Hs; [done|].
    assert (s ∈ scoped scope (filter (fun s => group_key catalog s = k) (filter P history))) as Hin by (rewrite Hs; left).
    apply scoped_elem in Hin as [(Hg & (HPs & Hh)%list_elem_of_filter)%list_elem_of_filter _]. assert (rs_item s = k.1.1.2) as Hi by (by rewrite <- Hg).
    destruct (Hk k s Hh HPs Hi) as [E1 E2]. rewrite <- Hs, E1 in *. split; [exists k, scope; split; [apply E2|done]|]. by exists s.
  - intros [(k & scope & -> & Hne) (s & Hs & HPs & Hi)]. cbn [roll mr_item] in Hi. destruct (Hk k s Hs HPs Hi) as [E1 E2]. exists k, scope. rewrite E1. by rewrite E2.
Qed.

(** Split by the catalogues that own the items, the rows are those of the whole history
    under each item's own catalogue. *)
Lemma realm_rollups_exact env fallback history ladders row :
  ports_ok env -> fallback ∈ en_public env ->
  row ∈ realm_rollups env fallback history ladders <-> row ∈ Rollup.rollups history ladders (owner_of env fallback (mr_item row)) REALM_WINDOW.
Proof.
  intros Hok Hfb. pose proof (fun item => owner_public env fallback item Hfb) as Hown.
  unfold realm_rollups. case_decide as Hlen.
  - assert (owner_of env fallback (mr_item row) = fallback) as ->; [|done]. specialize (Hown (mr_item row)). destruct (en_public env) as [|c [|]]; [|set_solver|cbn in Hlen; lia].
    by apply not_elem_of_nil in Hfb.
  - assert (forall item, default fallback (find_first (fun c => bool_decide (c_id c = c_id (owner_of env fallback item))) (en_public env)) = owner_of env fallback item) as Hfind.
    { intros item. destruct (find_first _ _) as [c|] eqn:Hf.
      - apply find_first_Some in Hf as [Hc Hid%bool_decide_eq_true_1]. by apply (public_names env).
      - pose proof (find_first_None _ _ Hf _ (Hown item)) as Hno. by apply bool_decide_eq_false_1 in Hno. }
    rewrite list_elem_of_bind. setoid_rewrite sort_by_perm. setoid_rewrite elem_of_map_to_list'. setoid_rewrite group_by_lookup. setoid_rewrite list_fmap_id. split.
    + intros ([id part] & Hrow & Hg). cbn [fst snd] in *. destruct (filter (fun s => owner_id env fallback s = id) history) as [|s l] eqn:Hf; [done|]. injection Hg as <-.
      rewrite <- Hf in Hrow. apply rollups_part in Hrow as [Hrow (x & Hx & <- & Hi)]; [|intros x y Hxy <-; unfold owner_id; by rewrite Hxy].
      unfold owner_id in Hrow. rewrite Hfind, Hi in Hrow. done.
    + intros Hrow. pose proof Hrow as (k & scope & E & Hne)%rollups_elem. destruct (scoped _ _) as [|s l] eqn:Hs; [done|].
      assert (s ∈ scoped scope (filter (fun s => group_key (owner_of env fallback (mr_item row)) s = k) history)) as Hin by (rewrite Hs; left).
      apply scoped_elem in Hin as [(Hgk & Hh)%list_elem_of_filter _]. assert (rs_item s = mr_item row) as Hi by (rewrite E; cbn [roll mr_item]; by rewrite <- Hgk).
      exists (owner_id env fallback s, filter (fun x => owner_id env fallback x = owner_id env fallback s) history). cbn [fst snd]. split.
      * match goal with |- context [Rollup.rollups _ _ ?c _] => replace c with (owner_of env fallback (mr_item row)) by (symmetry; rewrite <- Hi; apply Hfind) end. apply rollups_part; [intros x y Hxy; unfold owner_id; by rewrite Hxy|]. split; [done|]. by exists s.
      * destruct (filter (fun x => owner_id env fallback x = owner_id env fallback s) history) eqn:Hf; [|done].
        exfalso. eapply (filter_nil_not_elem_of _ _ s Hf); done.
Qed.

(** ** What each pass ought to make *)

Lemma window_lists_lookup (owners : list Catalog) (m : gmap string (list Window.t)) c :
  (forall x, x ∈ owners -> c_id x = c_id c -> x = c) -> (forall ws, m !! c_id c = Some ws -> ws = Window.all_for c) -> c ∈ owners \/ is_Some (m !! c_id c) ->
  foldl (fun m c => match m !! c_id c with Some _ => m | None => <[c_id c := Window.all_for c]> m end) m owners !! c_id c = Some (Window.all_for c).
Proof.
  revert m. induction owners as [|x l IH]; intros m Hname Hm Hin; cbn [foldl].
  { destruct Hin as [H|[ws H]]; [by apply not_elem_of_nil in H|]. by rewrite H, (Hm ws H). }
  apply IH; [intros y Hy; apply Hname; by right| |].
  - intros ws. destruct (m !! c_id x) eqn:Hx; [apply Hm|]. rewrite lookup_insert_Some. intros [[Hid <-]|[_ H]]; [|by apply Hm].
    by rewrite (Hname x ltac:(left) Hid).
  - destruct Hin as [[->|Hin]%elem_of_cons|Hin]; [|by left|].
    + right. destruct (m !! c_id x) eqn:Hx; [by rewrite Hx|]. by rewrite lookup_insert_eq.
    + right. destruct (m !! c_id x) eqn:Hx; [done|]. destruct (decide (c_id x = c_id c)) as [->|Hne]; [by rewrite lookup_insert_eq|by rewrite lookup_insert_ne].
Qed.

(** Every owner has its own list of windows. *)
Lemma windows_for_owner env fallback item :
  ports_ok env -> fallback ∈ en_public env -> windows_for env fallback (owner_of env fallback item) = Window.all_for (owner_of env fallback item).
Proof.
  intros Hok Hf. unfold windows_for, window_lists. rewrite window_lists_lookup; [done| | |left].
  - intros x Hx. apply (public_names env); [done| |by apply owner_public]. apply elem_of_app in Hx as [(k & Hk)%elem_of_values| ->%list_elem_of_singleton]; [by eapply owners_public|done].
  - done.
  - unfold owner_of. apply elem_of_app. destruct (en_owners env !! item) as [c|] eqn:Hc; [left; apply elem_of_values; by eexists|right; by apply list_elem_of_singleton].
Qed.

(** A region's commodities: each item's history under the catalogue that owns it. *)
Definition markets_read (env : Ports) (fallback : Catalog) (now : Millis) (region : Region) : StoreResult (list Materialised) :=
  match sql_history_in_region region (en_prices env), sql_latest_ladders region (en_prices env) with
  | Ok history, Ok ladders => Ok (omap (direct (ladder_map ladders) (owner_of env fallback) Window.all_for now) (grouped history))
  | Err e, _ | _, Err e => Err e
  end.

(** A region's realms: the month that every row is made from. *)
Definition realms_read (env : Ports) (fallback : Catalog) (now : Millis) (region : Region) : StoreResult (list RealmSample * RealmLadders) :=
  match Window.bounds REALM_WINDOW fallback now with
  | None => Ok ([], ∅)
  | Some (from, _) =>
      match window_in_region region from (en_realm_prices env), latest_ladders_in_region region (en_realm_prices env) with
      | Ok history, Ok ladders => Ok (history, realm_ladders ladders)
      | Err e, _ | _, Err e => Err e
      end
  end.

(** Every partition of a region can be written down, and its workers only send results. *)
Definition pass_ok `{PI : Postcard Input, PR : Postcard (list Materialised)} (env : Ports) (fallback : Catalog) (now : Millis) (p : Pass) : Prop :=
  match p with
  | PerRealm _ => True
  | Commodity_ region cluster =>
      only_calls cluster /\
      forall history ladders inputs, sql_history_in_region region (en_prices env) = Ok history -> sql_latest_ladders region (en_prices env) = Ok ladders ->
        partition region (ladder_map ladders) (owner_of env fallback) (windows_for env fallback) now history = Some inputs ->
        Forall encodable inputs /\ N.of_nat (length inputs) <= 2 ^ 32
  end.

(** The deadline is among the turns of the loop. *)
Definition patient (cluster : Cluster) : Prop :=
  (2401 < length (cu_turns cluster))%nat /\ forall i t, cu_turns cluster !! i = Some t -> POLL_MS * N.of_nat i <= tu_elapsed t.

Definition pass_batches (env : Ports) (fallback : Catalog) (now : Millis) (p : Pass) : StoreResult (list Batch) :=
  match p with
  | Commodity_ region _ => match markets_read env fallback now region with Ok rows => Ok (Markets <$> chunks BATCH rows) | Err e => Err e end
  | PerRealm region =>
      match realms_read env fallback now region with
      | Ok read => Ok (Rollups <$> chunks BATCH (realm_rollups env fallback read.1 read.2))
      | Err e => Err e
      end
  end.

Lemma region_rows_ends `{PI : Postcard Input, PR : Postcard (list Materialised)} explain version inputs cluster s :
  patient cluster -> is_Some (region_rows explain version inputs cluster s).
Proof.
  intros [Hturns Htime]. unfold region_rows. assert (is_Some (distribute version inputs cluster s)) as [answer ->]; [|by eexists].
  unfold distribute. destruct inputs; [by eexists|]. case_decide; [by eexists|]. destruct (cu_accepted cluster); [by apply watch_ends|by eexists].
Qed.

Section PublishLaws.
Context `{PI : Postcard Input, PR : Postcard (list Materialised), !PostcardLaws Input, !PostcardLaws (list Materialised)} (explain : Bytes -> string).
Context `{JP : Json (list StoredPoint), JC : Json (list StoredCycle), JL : Json (list StoredLevel), JM : Json (list StoredModifier)}.
Context (env : Ports) (fallback : Catalog) (now : Millis) (Hports : ports_ok env) (Hfb : fallback ∈ en_public env).

Lemma stage_batches_spec version batches markets m :
  exists n, stage_batches version batches markets m = (Ok n, foldl (run_batch version) m (Markets <$> batches)).
Proof.
  revert markets m. induction batches as [|b l IH]; intros markets m; cbn [stage_batches fmap list_fmap foldl]; [by eexists|]. cbn [run_batch].
  destruct (stage version b m) as [[n|e] m'] eqn:Hs; [apply IH|]. by destruct b.
Qed.

Lemma stage_rollup_batches_spec version batches markets m :
  exists n, stage_rollup_batches version batches markets m = (Ok n, foldl (run_batch version) m (Rollups <$> batches)).
Proof.
  revert markets m. induction batches as [|b l IH]; intros markets m; cbn [stage_rollup_batches fmap list_fmap foldl]; [by eexists|]. cbn [run_batch].
  destruct (stage_rollups version b m) as [[n|e] m'] eqn:Hs; [apply IH|]. by destruct b.
Qed.

(** What a pass does to the candidate, the store of artifacts staying sound. *)
Definition pass_does (version : N) (p : Pass) (w : World) (outcome : StoreResult RegionReport) (w' : World) : Prop :=
  work_ok w'.1 /\
  match pass_batches env fallback now p with
  | Ok batches => (exists report, outcome = Ok report) /\ w'.2 = foldl (run_batch version) w.2 batches
  | Err e => outcome = Err e /\ w'.2 = w.2
  end.

Lemma realm_region_does version region w :
  work_ok w.1 -> exists outcome w', realm_region env fallback region version now w = (outcome, w') /\ pass_does version (PerRealm region) w outcome w'.
Proof.
  intros Hok. unfold realm_region, pass_does, pass_batches, realms_read. destruct (Window.bounds REALM_WINDOW fallback now) as [[from until]|].
  - destruct (window_in_region region from (en_realm_prices env)) as [history|e]; [|by do 2 eexists]. destruct (latest_ladders_in_region region (en_realm_prices env)) as [ladders|e]; [|by do 2 eexists].
    destruct (stage_rollup_batches_spec version (chunks BATCH (realm_rollups env fallback history (realm_ladders ladders))) 0 w.2) as [n ->].
    do 2 eexists. split; [done|]. split; [done|]. split; [by eexists|done].
  - do 2 eexists. split; [done|]. split; [done|]. split; [by eexists|]. cbn [fst snd]. unfold realm_rollups. by case_decide.
Qed.

Lemma commodity_region_does version region cluster w :
  work_ok w.1 -> pass_ok env fallback now (Commodity_ region cluster) ->
  (patient cluster -> is_Some (commodity_region explain env fallback region cluster version now w)) /\
  forall outcome w', commodity_region explain env fallback region cluster version now w = Some (outcome, w') -> pass_does version (Commodity_ region cluster) w outcome w'.
Proof.
  intros Hok [Hcalls Hin]. unfold commodity_region, pass_does, pass_batches, markets_read.
  destruct (sql_history_in_region region (en_prices env)) as [history|e]; [|split; [by eexists|]; by intros outcome w' [= <- <-]].
  destruct (sql_latest_ladders region (en_prices env)) as [ladders|e]; [|split; [by eexists|]; by intros outcome w' [= <- <-]].
  destruct (partition_spec region (ladder_map ladders) (owner_of env fallback) (windows_for env fallback) now) with (history := history) as (inputs & Hp & Hrows & _).
  { intros i j. apply (public_names env); [done|by apply owner_public..]. }
  destruct (Hin history ladders inputs eq_refl eq_refl Hp) as [Henc Hlen]. rewrite Hp. cbn [mbind option_bind]. split.
  - intros Hpat. destruct (region_rows_ends explain version inputs cluster w.1 Hpat) as [[rows s'] ->]. by eexists.
  - intros outcome w'. destruct (region_rows explain version inputs cluster w.1) as [[rows s']|] eqn:Hr; [|done]. cbn [mbind option_bind].
    apply (region_rows_exact explain) in Hr as [-> Hok']; [|done..]. destruct (stage_batches_spec version (chunks BATCH (inputs ≫= reduce)) 0 w.2) as [n ->]. intros [= <- <-]. split; [done|].
    split; [by eexists|]. cbn [snd]. rewrite Hrows. do 3 f_equal. apply list_omap_ext. apply Forall_Forall2_diag, Forall_true. intros g. unfold direct.
    destruct (head g); [|done]. cbn [mbind option_bind]. by rewrite windows_for_owner.
Qed.

(** The rest of a run once its version is open. *)
Definition run_rest (v : N) (r : Run) (m : ReadModel) : ReadModel :=
  let m := foldl (run_batch v) m (ru_batches r) in
  match ru_end r with
  | Publishes source now =>
      match ReadModel.publish v source now m with
      | (Ok _, m) => m
      | (Err e, m) => (abandon v ("publish failed: " +:+ StoreError_fmt e) m).2
      end
  | Abandons note => (abandon v note m).2
  | CutShort => m
  end.

Definition accounted (finished : Millis) (todo : list Pass) (r : Run) : Prop :=
  ru_algorithm r = ALGORITHM_VERSION /\ ru_now r = now /\
  match ru_end r with
  | Publishes _ at_ => at_ = finished /\ exists each, Forall2 (fun p bs => pass_batches env fallback now p = Ok bs) todo each /\ ru_batches r = List.concat each
  | Abandons note => exists p e, p ∈ todo /\ pass_batches env fallback now p = Err e /\ note = pass_note p e
  | CutShort => False
  end.

Lemma run_pass_does version p w :
  work_ok w.1 -> pass_ok env fallback now p ->
  ((forall region cluster, p = Commodity_ region cluster -> patient cluster) -> is_Some (run_pass explain env fallback version now p w)) /\
  forall outcome w', run_pass explain env fallback version now p w = Some (outcome, w') -> pass_does version p w outcome w'.
Proof.
  intros Hok Hp. destruct p as [region cluster|region]; cbn [run_pass].
  - destruct (commodity_region_does version region cluster w Hok Hp) as [H1 H2]. split; [|done]. intros Hpat. apply H1. by eapply Hpat.
  - destruct (realm_region_does version region w Hok) as (outcome & w' & -> & Hdoes). split; [by eexists|]. by intros ? ? [= <- <-].
Qed.

Lemma run_passes_does version finished todo oldest newest w :
  work_ok w.1 -> Forall (pass_ok env fallback now) todo ->
  ((forall region cluster, Commodity_ region cluster ∈ todo -> patient cluster) -> is_Some (run_passes explain env fallback version now finished todo oldest newest w)) /\
  forall w', run_passes explain env fallback version now finished todo oldest newest w = Some w' ->
    work_ok w'.1 /\ exists r, w'.2 = run_rest version r w.2 /\ accounted finished todo r.
Proof.
  revert oldest newest w. induction todo as [|p todo IH]; intros oldest newest w Hok Hall; cbn [run_passes].
  - split; [by eexists|]. intros w' Hw. set (r := {| ru_algorithm := ALGORITHM_VERSION; ru_now := now; ru_batches := []; ru_end := Publishes (oldest, newest) finished |}).
    assert (work_ok w'.1 /\ w'.2 = run_rest version r w.2) as [H1 H2].
    { unfold run_rest. cbn [r ru_batches ru_end foldl]. destruct (ReadModel.publish version (oldest, newest) finished w.2) as [[[]|e] m]; by injection Hw as <-. }
    split; [done|]. exists r. split; [done|]. unfold accounted. cbn [r ru_algorithm ru_now ru_end ru_batches]. split_and!; [done..|]. exists []. by split; [constructor|].
  - apply Forall_cons_1 in Hall as [Hp Hall]. destruct (run_pass_does version p w Hok Hp) as [Hends Hdoes]. split.
    + intros Hpat. destruct Hends as [[outcome w1] Hw1]; [intros region cluster ->; eapply Hpat; by left|]. rewrite Hw1. cbn [mbind option_bind].
      destruct (Hdoes outcome w1 Hw1) as [Hok1 _]. destruct outcome as [report|e]; [|by eexists]. apply IH; [done|done|]. intros region cluster Hin. eapply Hpat. by right.
    + intros w'. destruct (run_pass explain env fallback version now p w) as [[outcome w1]|]; [|done]. cbn [mbind option_bind]. destruct (Hdoes outcome w1 eq_refl) as [Hok1 Hb].
      destruct (pass_batches env fallback now p) as [batches|e] eqn:Hpb.
      * destruct Hb as [[report ->] Hw1]. intros Hw'. destruct (proj2 (IH _ _ w1 Hok1 Hall) w' Hw') as (Hok' & r & Hr & Hwhen & Hnow & Hend). split; [done|].
        exists {| ru_algorithm := ALGORITHM_VERSION; ru_now := now; ru_batches := batches ++ ru_batches r; ru_end := ru_end r |}. split.
        { rewrite Hr, Hw1. unfold run_rest. cbn [ru_batches ru_end]. by rewrite foldl_app. }
        unfold accounted. cbn [ru_algorithm ru_now ru_end ru_batches]. split_and!; [done..|]. destruct (ru_end r) as [source at_|note|]; [|destruct Hend as (q & e & Hq & Hrest'); exists q, e; split; [by right|done]|done].
        destruct Hend as [-> (each & Heach & ->)]. split; [done|]. exists (batches :: each). split; [by constructor|done].
      * destruct Hb as [-> Hw1]. intros [= <-]. split; [done|]. cbn [snd]. exists {| ru_algorithm := ALGORITHM_VERSION; ru_now := now; ru_batches := []; ru_end := Abandons (pass_note p e) |}.
        rewrite Hw1. split; [done|]. split_and!; [done..|]. exists p, e. split; [by left|done].
Qed.
End PublishLaws.

Lemma markets_of_batches (rows : list Materialised) (reads : list MarketRollup) :
  (Markets <$> chunks BATCH rows) ≫= (fun b => match b with Markets l => l | Rollups _ => [] end) = rows /\
  (Rollups <$> chunks BATCH reads) ≫= (fun b => match b with Markets l => l | Rollups _ => [] end) = [] /\
  (Rollups <$> chunks BATCH reads) ≫= (fun b => match b with Markets _ => [] | Rollups l => l end) = reads /\
  (Markets <$> chunks BATCH rows) ≫= (fun b => match b with Markets _ => [] | Rollups l => l end) = [].
Proof.
  pose proof (concat_chunks BATCH rows ltac:(vm_compute; lia)) as H1. pose proof (concat_chunks BATCH reads ltac:(vm_compute; lia)) as H2.
  revert H1 H2. generalize (chunks BATCH rows) as a. generalize (chunks BATCH reads) as b. intros b a H1 H2. split_and!.
  - rewrite <- H1. clear. induction a as [|x a IH]; [done|]. cbn [fmap list_fmap List.concat]. by rewrite bind_cons, IH.
  - clear. induction b as [|x b IH]; [done|]. cbn [fmap list_fmap]. by rewrite bind_cons, IH.
  - rewrite <- H2. clear. induction b as [|x b IH]; [done|]. cbn [fmap list_fmap List.concat]. by rewrite bind_cons, IH.
  - clear. induction a as [|x a IH]; [done|]. cbn [fmap list_fmap]. by rewrite bind_cons, IH.
Qed.

Section Whole.
Context (env : Ports) (fallback : Catalog) (now : Millis).

(** Both lists of passes, once every read has come back. *)
Lemma all_passes commodity per_realm each :
  Forall2 (fun p bs => pass_batches env fallback now p = Ok bs) (((fun rc : Region * Cluster => Commodity_ rc.1 rc.2) <$> commodity) ++ (PerRealm <$> per_realm)) each ->
  exists markets reads,
    Forall2 (fun region rows => markets_read env fallback now region = Ok rows) commodity.*1 markets /\
    Forall2 (fun region read => realms_read env fallback now region = Ok read) per_realm reads /\
    (List.concat each ≫= fun b => match b with Markets l => l | Rollups _ => [] end) = List.concat markets /\
    (List.concat each ≫= fun b => match b with Markets _ => [] | Rollups l => l end) = reads ≫= fun read => realm_rollups env fallback read.1 read.2.
Proof.
  revert each. induction commodity as [|[region cluster] commodity IH]; intros each Heach.
  - cbn [fmap list_fmap app] in Heach. exists []. revert each Heach. induction per_realm as [|region per_realm IH]; intros each Heach.
    + apply Forall2_nil_inv_l in Heach as ->. exists []. split_and!; [constructor..|done|done].
    + apply Forall2_cons_inv_l in Heach as (bs & rest & Hbs & Hrest & ->). destruct (IH rest Hrest) as (reads & H1 & H2 & H3 & H4). cbn [pass_batches] in Hbs.
      destruct (realms_read env fallback now region) as [read|] eqn:Hread; [|done]. injection Hbs as <-. exists (read :: reads). split_and!; [done|by constructor| |].
      * cbn [List.concat]. rewrite bind_app, H3. by destruct (markets_of_batches [] (realm_rollups env fallback read.1 read.2)) as (_ & -> & _).
      * cbn [List.concat]. rewrite bind_app, H4, bind_cons. by destruct (markets_of_batches [] (realm_rollups env fallback read.1 read.2)) as (_ & _ & -> & _).
  - cbn [fmap list_fmap app fst snd] in Heach. apply Forall2_cons_inv_l in Heach as (bs & rest & Hbs & Hrest & ->). destruct (IH rest Hrest) as (markets & reads & H1 & H2 & H3 & H4).
    cbn [pass_batches] in Hbs. destruct (markets_read env fallback now region) as [rows|] eqn:Hread; [|done]. injection Hbs as <-. exists (rows :: markets), reads. split_and!; [by constructor|done| |].
    + cbn [List.concat]. rewrite bind_app, H3. by destruct (markets_of_batches rows []) as (-> & _).
    + cbn [List.concat]. rewrite bind_app, H4. by destruct (markets_of_batches rows []) as (_ & _ & _ & ->).
Qed.
End Whole.

(** C14: a recalculation answers, and leaves the read model as one run of the model of
    versions.  Where every read comes back, it publishes, at the time the passes ended, exactly every
    item's history of each region under the catalogue that owns the item, with that
    catalogue's windows, in the order of the regions, whatever the cluster did with the
    partitions; and exactly the roll-ups of each region's realms, each under the
    catalogue that owns its item.  Where a read fails it abandons the version, with a
    note that names the pass; it never stops between.  With no catalogue or no region
    nothing happens. *)
Theorem publish_exact `{PI : Postcard Input, PR : Postcard (list Materialised), !PostcardLaws Input, !PostcardLaws (list Materialised)}
    `{JP : Json (list StoredPoint), JC : Json (list StoredCycle), JL : Json (list StoredLevel), JM : Json (list StoredModifier)}
    explain env commodity per_realm now finished w :
  ports_ok env -> work_ok w.1 -> (rm_seq w.2 <> Sqlite.i64_max)%Z ->
  (forall fallback, fallback_of env = Some fallback -> Forall (fun rc : Region * Cluster => pass_ok env fallback now (Commodity_ rc.1 rc.2)) commodity) ->
  (Forall (fun rc : Region * Cluster => patient rc.2) commodity -> is_Some (publish explain env commodity per_realm now finished w)) /\
  forall w', publish explain env commodity per_realm now finished w = Some w' ->
    work_ok w'.1 /\
    match fallback_of env with
    | None => w' = w
    | Some fallback =>
        (commodity = [] -> per_realm = [] -> w' = w) /\
        (commodity <> [] \/ per_realm <> [] -> exists r, w'.2 = run_one r w.2 /\ ru_algorithm r = ALGORITHM_VERSION /\ ru_now r = now /\
          match ru_end r with
          | Publishes _ at_ =>
              at_ = finished /\ exists markets reads,
                Forall2 (fun region rows => markets_read env fallback now region = Ok rows) commodity.*1 markets /\
                Forall2 (fun region read => realms_read env fallback now region = Ok read) per_realm reads /\
                markets_of r = List.concat markets /\
                forall row, row ∈ rollups_of r <->
                  exists read, read ∈ reads /\ row ∈ Rollup.rollups read.1 read.2 (owner_of env fallback (mr_item row)) REALM_WINDOW
          | Abandons note =>
              (exists region e, region ∈ commodity.*1 /\ markets_read env fallback now region = Err e /\
                 note = "commodity " +:+ Region_as_str region +:+ ": " +:+ StoreError_fmt e) \/
              (exists region e, region ∈ per_realm /\ realms_read env fallback now region = Err e /\
                 note = "per-realm " +:+ Region_as_str region +:+ ": " +:+ StoreError_fmt e)
          | CutShort => False
          end)
    end.
Proof.
  intros Hports Hok Hseq Hcom. unfold publish. destruct (fallback_of env) as [fallback|] eqn:Hfb; [|split; [by eexists|]; by intros w' [= <-]].
  specialize (Hcom fallback eq_refl). apply fallback_public in Hfb. set (todo := ((fun rc : Region * Cluster => Commodity_ rc.1 rc.2) <$> commodity) ++ (PerRealm <$> per_realm)).
  assert (Forall (pass_ok env fallback now) todo) as Hall.
  { apply Forall_app. split; [by apply Forall_fmap|]. apply Forall_fmap, Forall_true. done. }
  destruct (ReadModel.begin ALGORITHM_VERSION now w.2) as [[version|e] m] eqn:Hbegin; [|unfold ReadModel.begin in Hbegin; by rewrite decide_False in Hbegin].
  destruct (run_passes_does explain env fallback now Hports Hfb version finished todo None None (w.1, m) Hok Hall) as [Hends Hdoes]. cbn [snd] in Hdoes. split.
  - intros Hpat. assert (is_Some (run_passes explain env fallback version now finished todo None None (w.1, m))) as Hsome.
    { apply Hends. intros region cluster [(rc & [= -> ->] & Hrc)%list_elem_of_fmap|(x & ? & _)%list_elem_of_fmap]%elem_of_app; [|done]. by apply (proj1 (Forall_forall _ _) Hpat rc). }
    destruct commodity, per_realm; [by eexists|done..].
  - intros w' Hw'. assert (commodity = [] /\ per_realm = [] /\ w' = w \/ (commodity <> [] \/ per_realm <> []) /\ run_passes explain env fallback version now finished todo None None (w.1, m) = Some w') as [(-> & -> & ->)|[Hne Hrun]].
    { destruct commodity, per_realm; [left; by injection Hw' as <-|right; split; [|exact Hw']; by (left + right)..]. }
    { split; [done|]. split; [done|]. by intros [H|H]. }
    destruct (Hdoes w' Hrun) as (Hok' & r & Hr & Halg & Hnow & Hend). split; [done|]. split; [intros -> ->; by destruct Hne|]. intros _. exists r. split_and!; [|done..|].
    + rewrite Hr. unfold run_one. by rewrite Halg, Hnow, Hbegin.
    + destruct (ru_end r) as [source at_|note|]; [|destruct Hend as (p & e & Hp & Hb & ->)|done].
      * destruct Hend as [-> (each & Heach & Hbs)]. split; [done|]. destruct (all_passes env fallback now commodity per_realm each Heach) as (markets & reads & H1 & H2 & H3 & H4).
        exists markets, reads. split_and!; [done..|by unfold markets_of; rewrite Hbs|]. intros row. unfold rollups_of. rewrite Hbs, H4, list_elem_of_bind.
        split; [intros (read & E1 & E2); exists read; split; [done|by apply (realm_rollups_exact env fallback) in E1]|].
        intros (read & E1 & E2). exists read. split; [by apply (realm_rollups_exact env fallback)|done].
      * apply elem_of_app in Hp as [(rc & -> & Hrc)%list_elem_of_fmap|(region & -> & Hregion)%list_elem_of_fmap]; cbn [pass_batches pass_note] in *; [left|right].
        -- exists rc.1, e. split; [by apply list_elem_of_fmap_2|]. split; [|done]. destruct (markets_read env fallback now rc.1); [done|congruence].
        -- exists region, e. split; [done|]. split; [|done]. destruct (realms_read env fallback now region); [done|congruence].
Qed.

(** ** An example: two markets of one region, and a cluster that takes the work and never answers *)
Definition task_sample_row (item at_ : Z) : SampleRow :=
  {| sr_item := item; sr_region := "eu"; sr_observed_at := at_; sr_min_unit := 5; sr_p05_unit := 6; sr_median_unit := 7; sr_quantity := 1; sr_listings := 1 |}.
Definition task_env : Ports :=
  {| en_prices := {| pt_samples := [task_sample_row 9 1; task_sample_row 7 5]; pt_ladders := []; pt_alerts := [] |}; en_realm_prices := RealmTables_empty;
     en_catalogs := {| catalogs := [demo_catalog] |}; en_releases := ReleaseStates_new |}.
Definition task_input : Input :=
  seal Eu demo_catalog [(Commodity Eu 7 1, [work_sample 7 5], Ladder_default); (Commodity Eu 9 1, [work_sample 9 1], Ladder_default)] Window.all_for 9.
Definition task_inputs : Postcard Input := lone_postcard task_input.
Definition task_results : Postcard (list Materialised) := lone_postcard (reduce task_input).
Definition silent : Cluster :=
  {| cu_takers := 1; cu_accepted := true; cu_turns := replicate 2402 {| tu_work := id; tu_job := None; tu_elapsed := 100000 |} |}.

(** The history is in the order of the items: its first sample is not the oldest. *)
Example first_is_not_oldest :
  match sql_history_in_region Eu (en_prices task_env) with
  | Ok history => observed_at <$> head history = Some 5 /\ minN (observed_at <$> history) = Some 1
  | Err _ => False
  end.
Proof. vm_compute. done. Qed.

Lemma silent_patient : patient silent.
Proof.
  split; [vm_compute; lia|]. intros i t [-> Hi]%lookup_replicate_1. cbn [tu_elapsed]. unfold POLL_MS. lia.
Qed.

Lemma task_history : sql_history_in_region Eu (en_prices task_env) = Ok [work_sample 7 5; work_sample 9 1].
Proof. vm_compute. reflexivity. Qed.

Lemma task_ladders : sql_latest_ladders Eu (en_prices task_env) = Ok [].
Proof. reflexivity. Qed.

Lemma task_fallback : fallback_of task_env = Some demo_catalog.
Proof. reflexivity. Qed.

Lemma task_partition :
  partition Eu (ladder_map []) (owner_of task_env demo_catalog) (windows_for task_env demo_catalog) 9 [work_sample 7 5; work_sample 9 1] = Some [task_input].
Proof. vm_compute. reflexivity. Qed.

Lemma task_encodable : @encodable task_inputs task_results task_input.
Proof.
  split; [exists [7]|exists [7]]; unfold task_inputs, task_results, lone_postcard; cbn [to_allocvec]; [split; [done|]|]; by rewrite decide_True.
Qed.

Lemma publish_exact_witness :
  exists w', @publish task_inputs task_results (fun _ => "") demo_points demo_cycles demo_levels demo_modifiers task_env [(Eu, silent)] [Eu] 9 10 (Coordinator_new, ReadModel_empty) = Some w' /\
    exists r, w'.2 = @run_one demo_points demo_cycles demo_levels demo_modifiers r ReadModel_empty /\
      publishes r = true /\ length (markets_of r) = 2%nat.
Proof.
  destruct (@publish_exact task_inputs task_results (lone_postcard_laws _) (lone_postcard_laws _) demo_points demo_cycles demo_levels demo_modifiers
    (fun _ => "") task_env [(Eu, silent)] [Eu] 9 10 (Coordinator_new, ReadModel_empty)) as [Hends Hdoes].
  - intros c c' ->%list_elem_of_singleton ->%list_elem_of_singleton _. done.
  - apply work_ok_new.
  - vm_compute. discriminate.
  - intros fallback Hf. rewrite task_fallback in Hf. injection Hf as <-. constructor; [|constructor]. split; [intros t s [-> _]%elem_of_replicate; apply rtc_refl|].
    intros history ladders inputs Hh Hl Hp. cbn [fst] in *. rewrite task_history in Hh. injection Hh as <-. rewrite task_ladders in Hl. injection Hl as <-. rewrite task_partition in Hp. injection Hp as <-. split; [constructor; [apply task_encodable|constructor]|vm_compute; discriminate].
  - destruct Hends as [w' Hw']; [constructor; [apply silent_patient|constructor]|]. exists w'. split; [exact Hw'|]. destruct (Hdoes w' Hw') as [_ Hr]. rewrite task_fallback in Hr.
    destruct Hr as [_ (r & Hr & _ & _ & Hend)]; [by left|]. exists r. split; [exact Hr|]. unfold publishes. destruct (ru_end r) as [source at_|note|]; [|exfalso|destruct Hend]. all: clear Hw' Hdoes Hr.
    + destruct Hend as [_ (markets & reads & Hm & _ & -> & _)]. split; [reflexivity|]. apply Forall2_cons_inv_l in Hm as (rows & rest & Hrows & ->%Forall2_nil_inv_l & ->).
      unfold markets_read in Hrows. cbn [fst] in Hrows. rewrite task_history, task_ladders in Hrows. injection Hrows as <-. reflexivity.
    + destruct Hend as [(region & e & ->%list_elem_of_singleton & He & _)|(region & e & ->%list_elem_of_singleton & He & _)].
      * unfold markets_read in He. cbn [fst] in He. rewrite task_history, task_ladders in He. discriminate He.
      * vm_compute in He. discriminate He.
Defined.
