(* ===== verification/EventStore.v ===== *)
(** * EventStore: the game's timeline

    Models [crates/storage/src/sqlite/market_events.rs]: the table [market_events] with its
    constraints, and recording, reading, reviewing and forgetting events.

    [events_refine] compares the table, through any statements, with a map of events: what
    a page is shown of an interval is every event of the map that overlaps it, and for a
    visitor only what was both validated and made public. *)
From stdpp Require Import prelude gmap sorting strings.
From S2P Require Import Prelude Text Time Store Sqlite Market Catalog MarketKey MarketEvent PriceStore ReadRows ReadModel.

Record EventRow := {
  er_kind : string; er_title : string; er_notes : option string; er_starts_at : Z; er_ends_at : option Z; er_regions : string;
  er_expansion : option string; er_patch : option string; er_tier : option string; er_category : option string; er_item_id : option Z;
  er_market_key : option string; er_provenance : string; er_validation : string; er_visibility : string; er_recorded_at : Z }.

Abbreviation EventTable := (gmap string EventRow).

Section Events.
Context `{JR : Json (list Region)}.

Definition regions_json (regions : list Region) : string := to_json regions.

Definition event_row (event : MarketEvent) : EventRow :=
  {| er_kind := EventKind.as_str (ev_kind event); er_title := ev_title event; er_notes := ev_notes event; er_starts_at := as_i64 (starts_at event);
     er_ends_at := as_i64 <$> ends_at event; er_regions := regions_json (es_regions (scope event)); er_expansion := es_expansion (scope event);
     er_patch := es_patch (scope event); er_tier := es_tier (scope event); er_category := ItemKind.as_str <$> es_category (scope event);
     er_item_id := as_i64 <$> es_item (scope event); er_market_key := key_to_string <$> es_market (scope event);
     er_provenance := Provenance.as_str (ev_provenance event); er_validation := Validation.as_str (ev_validation event);
     er_visibility := Visibility.as_str (ev_visibility event); er_recorded_at := as_i64 (starts_at event) |}.

Definition read_or {A} (what : string) (parse : string -> option A) (raw : string) : StoreResult A :=
  match parse raw with Some x => Ok x | None => Err (ReadRows.corrupt what raw) end.

Definition event_from_row (kv : string * EventRow) : StoreResult MarketEvent :=
  let row := kv.2 in
  let? kind := read_or "event kind" EventKind.parse (er_kind row) in
  let? provenance := read_or "event provenance" Provenance.parse (er_provenance row) in
  let? validation := read_or "event validation" Validation.parse (er_validation row) in
  let? visibility := read_or "event visibility" Visibility.parse (er_visibility row) in
  Ok {| ev_id := kv.1; ev_kind := kind; ev_title := er_title row; ev_notes := er_notes row; starts_at := as_u64 (er_starts_at row);
        ends_at := as_u64 <$> er_ends_at row;
        scope := {| es_regions := default [] (from_json (er_regions row)); es_expansion := er_expansion row; es_patch := er_patch row;
                    es_tier := er_tier row; es_category := c ← er_category row; find_first (fun k => bool_decide (ItemKind.as_str k = c)) ItemKind.ALL;
                    es_item := as_u32 <$> er_item_id row;
                    es_market := k ← er_market_key row; match from_str k with Ok key => Some key | Err _ => None end |};
        ev_provenance := provenance; ev_validation := validation; ev_visibility := visibility |}.

(** The table's own check, which an insertion meets before the conflict on the identifier. *)
Definition ends_in_order (row : EventRow) : bool :=
  match er_ends_at row with Some e => bool_decide (er_starts_at row <= e)%Z | None => true end.

Fixpoint record_loop (events : list MarketEvent) (written : N) (t : EventTable) : StoreResult (N * EventTable) :=
  match events with
  | [] => Ok (written, t)
  | event :: rest =>
      let row := event_row event in
      if ends_in_order row then
        match t !! ev_id event with
        | Some _ => record_loop rest written t
        | None => record_loop rest (written + 1) (<[ev_id event := row]> t)
        end
      else Err (Backend "CHECK constraint failed: ends_at IS NULL OR ends_at >= starts_at")
  end.

(** One transaction. *)
Definition record (events : list MarketEvent) (t : EventTable) : StoreResult N * EventTable :=
  match events with
  | [] => (Ok 0, t)
  | _ => match record_loop events 0 t with Ok (written, t') => (Ok written, t') | Err e => (Err e, t) end
  end.

Definition row_cmp (a b : string * EventRow) : comparison :=
  cmp_then (Z.compare (er_starts_at a.2) (er_starts_at b.2)) (string_cmp a.1 b.1).
Definition newest_cmp (a b : string * EventRow) : comparison :=
  cmp_then (Z.compare (er_starts_at b.2) (er_starts_at a.2)) (string_cmp a.1 b.1).

Definition overlaps (from until : Z) (row : EventRow) : bool :=
  bool_decide (er_starts_at row < until)%Z &&
  match er_ends_at row with None => true | Some e => bool_decide (from <= e)%Z end &&
  bool_decide ((match er_ends_at row with None => from | Some _ => 0 end) <= er_starts_at row)%Z.

Definition shown (public_only : bool) (row : EventRow) : bool :=
  negb public_only || (bool_decide (er_visibility row = "public") && bool_decide (er_validation row = "validated")).

Definition between (from until : Millis) (public_only : bool) (t : EventTable) : StoreResult (list MarketEvent) :=
  collect_results (event_from_row <$> sort_by row_cmp
    (filter (fun kv => overlaps (as_i64 from) (as_i64 until) kv.2 = true /\ shown public_only kv.2 = true) (map_to_list t))).

(** A negative [LIMIT] is none. *)
Definition limited {A} (limit : N) (l : list A) : list A := if decide (as_i64 limit < 0)%Z then l else take (Z.to_nat (as_i64 limit)) l.

Definition recent (limit : N) (t : EventTable) : StoreResult (list MarketEvent) :=
  collect_results (event_from_row <$> limited limit (sort_by newest_cmp (map_to_list t))).

Definition reviewed (validation : Validation.t) (visibility : Visibility.t) (row : EventRow) : EventRow :=
  {| er_kind := er_kind row; er_title := er_title row; er_notes := er_notes row; er_starts_at := er_starts_at row; er_ends_at := er_ends_at row;
     er_regions := er_regions row; er_expansion := er_expansion row; er_patch := er_patch row; er_tier := er_tier row; er_category := er_category row;
     er_item_id := er_item_id row; er_market_key := er_market_key row; er_provenance := er_provenance row;
     er_validation := Validation.as_str validation; er_visibility := Visibility.as_str visibility; er_recorded_at := er_recorded_at row |}.

Definition review (id : string) (validation : Validation.t) (visibility : Visibility.t) (t : EventTable) : StoreResult bool * EventTable :=
  match t !! id with
  | Some row => (Ok true, <[id := reviewed validation visibility row]> t)
  | None => (Ok false, t)
  end.

Definition forget (id : string) (t : EventTable) : StoreResult bool * EventTable :=
  match t !! id with
  | Some row => if decide (er_provenance row = "administrator") then (Ok true, delete id t) else (Ok false, t)
  | None => (Ok false, t)
  end.
End Events.

(** ** The reference: a map of events *)
Inductive EventOp :=
| Records (events : list MarketEvent)
| Reviews (id : string) (validation : Validation.t) (visibility : Visibility.t)
| Forgets (id : string).

Definition exec_event `{JR : Json (list Region)} (t : EventTable) (op : EventOp) : EventTable :=
  match op with
  | Records events => (record events t).2
  | Reviews id validation visibility => (review id validation visibility t).2
  | Forgets id => (forget id t).2
  end.

Definition with_review (validation : Validation.t) (visibility : Visibility.t) (e : MarketEvent) : MarketEvent :=
  {| ev_id := ev_id e; ev_kind := ev_kind e; ev_title := ev_title e; ev_notes := ev_notes e; starts_at := starts_at e; ends_at := ends_at e;
     scope := scope e; ev_provenance := ev_provenance e; ev_validation := validation; ev_visibility := visibility |}.

(** The first event of a name stays; a review changes both of its columns; only what an
    administrator added goes. *)
Definition timeline_step (m : gmap string MarketEvent) (op : EventOp) : gmap string MarketEvent :=
  match op with
  | Records events => foldl (fun m e => match m !! ev_id e with Some _ => m | None => <[ev_id e := e]> m end) m events
  | Reviews id validation visibility => alter (with_review validation visibility) id m
  | Forgets id => match m !! id with Some e => if decide (ev_provenance e = Provenance.Administrator) then delete id m else m | None => m end
  end.
Definition timeline (ops : list EventOp) : gmap string MarketEvent := foldl timeline_step ∅ ops.

(** An event made of machine words that ends no sooner than it starts. *)
Definition event_fits (e : MarketEvent) : Prop :=
  starts_at e < 2 ^ 63 /\ from_option (fun n => starts_at e <= n < 2 ^ 63) True (ends_at e) /\
  from_option (fun i => i <= u32_max) True (es_item (scope e)) /\ from_option key_wf True (es_market (scope e)).

Definition op_fits (op : EventOp) : Prop := match op with Records events => Forall event_fits events | _ => True end.

(** An event with an end overlaps when the intervals touch, one without when it starts inside. *)
Definition touches (from until : Millis) (e : MarketEvent) : Prop :=
  starts_at e < until /\ match ends_at e with Some n => from <= n | None => from <= starts_at e end.

(** ** Rows and events *)
Section EventLaws.
Context `{JR : Json (list Region), !JsonLaws (list Region)}.

Lemma event_back (e : MarketEvent) : event_fits e -> event_from_row (ev_id e, event_row e) = Ok e.
Proof.
  intros (Hs & Hn & Hi & Hm). destruct e as [name kind title notes starts ends [regions expansion patch tier category item market] provenance validation visibility].
  unfold event_from_row. cbn [fst snd event_row er_kind er_provenance er_validation er_visibility ev_kind ev_provenance ev_validation ev_visibility].
  assert (forall k, EventKind.parse (EventKind.as_str k) = Some k) as E1 by (by intros []).
  assert (forall k, Provenance.parse (Provenance.as_str k) = Some k) as E2 by (by intros []).
  assert (forall k, Validation.parse (Validation.as_str k) = Some k) as E3 by (by intros []).
  assert (forall k, Visibility.parse (Visibility.as_str k) = Some k) as E4 by (by intros []).
  unfold read_or. rewrite E1, E2, E3, E4. cbv beta iota. f_equal.
  cbn [ends_at starts_at scope es_item es_market] in Hs, Hn, Hi, Hm.
  cbn [event_row ev_id ev_title ev_notes starts_at ends_at scope es_regions es_expansion es_patch es_tier es_category es_item es_market er_title er_notes er_starts_at
       er_ends_at er_regions er_expansion er_patch er_tier er_category er_item_id er_market_key].
  rewrite as_u64_i64 by lia. unfold regions_json. rewrite from_to_json. cbn [from_option id].
  f_equal; [destruct ends as [n|]; [|done]; cbn in *; rewrite as_u64_i64 by lia; done|]. f_equal.
  - by destruct category as [[]|].
  - destruct item as [i|]; [|done]. cbn in *. by rewrite as_u32_i64.
  - destruct market as [k|]; [|done]. cbn [fmap option_fmap option_map mbind option_bind from_option] in *. by rewrite from_str_to_string.
Qed.

Lemma event_row_ends (e : MarketEvent) : event_fits e -> ends_in_order (event_row e) = true.
Proof.
  intros (Hs & Hn & _). unfold ends_in_order. cbn [event_row er_ends_at er_starts_at]. destruct (ends_at e) as [n|]; [|done]. cbn in *. apply bool_decide_eq_true_2. rewrite !as_i64_small by lia. lia.
Qed.

(** The rows are those of a map of events under their names. *)
Record holds (m : gmap string MarketEvent) (t : EventTable) : Prop := {
  ho_rows : t = event_row <$> m;
  ho_names : forall id e, m !! id = Some e -> ev_id e = id /\ event_fits e }.

Lemma holds_record m t events written :
  Forall event_fits events -> holds m t ->
  exists n t', record_loop events written t = Ok (written + n, t') /\ holds (timeline_step m (Records events)) t' /\
    ((forall e, e ∈ events -> is_Some (m !! ev_id e)) -> n = 0 /\ t' = t).
Proof.
  intros Hfit. revert m t written. induction Hfit as [|e events He _ IH]; intros m t written Hh; cbn [record_loop].
  { exists 0, t. split_and!; [by rewrite N.add_0_r|done|done]. }
  rewrite event_row_ends by done. pose proof Hh as [Hrows Hnames]. cbn [timeline_step foldl]. rewrite Hrows, lookup_fmap. destruct (m !! ev_id e) as [old|] eqn:Hm; cbn [fmap option_fmap option_map].
  - rewrite <- Hrows. destruct (IH m t written Hh) as (n & t' & H1 & H2 & H3). exists n, t'. split_and!; [done|done|]. intros Hall. apply H3. intros x Hx. apply Hall. by right.
  - rewrite <- fmap_insert. destruct (IH (<[ev_id e := e]> m) (event_row <$> <[ev_id e := e]> m) (written + 1)) as (n & t' & H1 & H2 & _).
    + split; [done|]. intros id x [[<- <-]|[_ Hx]]%lookup_insert_Some; [done|by apply Hnames].
    + exists (1 + n), t'. split_and!; [by rewrite N.add_assoc|done|]. intros Hall. exfalso. destruct (Hall e ltac:(left)) as [x Hx]. congruence.
Qed.

Lemma holds_step m t op : op_fits op -> holds m t -> holds (timeline_step m op) (exec_event t op).
Proof.
  intros Hop Hh. pose proof Hh as [Hrows Hnames]. destruct op as [events|id validation visibility|id]; cbn [exec_event].
  - unfold record. destruct events as [|e events]; [done|]. destruct (holds_record m t (e :: events) 0 Hop Hh) as (n & t' & -> & H & _). exact H.
  - unfold review. cbn [timeline_step]. rewrite Hrows, lookup_fmap. destruct (m !! id) as [e|] eqn:Hm.
    2: { assert (alter (with_review validation visibility) id m = m) as ->; [|by rewrite <- Hrows]. apply map_eq. intros j. rewrite lookup_alter. case_decide; [subst; by rewrite Hm|done]. }
    rewrite (alter_as_insert _ _ _ _ Hm). cbn [fmap option_fmap option_map snd]. split; [by rewrite fmap_insert|].
    intros j x [[<- <-]|[_ Hx]]%lookup_insert_Some; [exact (Hnames id e Hm)|by apply Hnames].
  - unfold forget. cbn [timeline_step]. rewrite Hrows, lookup_fmap. destruct (m !! id) as [e|] eqn:Hm; [|done]. cbn [fmap option_fmap option_map event_row er_provenance].
    assert (Provenance.as_str (ev_provenance e) = "administrator" <-> ev_provenance e = Provenance.Administrator) as Hp by (by destruct (ev_provenance e)).
    destruct (decide (ev_provenance e = Provenance.Administrator)) as [Ha|Ha]; [rewrite decide_True by (by apply Hp)|rewrite decide_False by (by rewrite Hp); done].
    cbn [snd]. split; [by rewrite fmap_delete|]. intros j x [_ Hx]%lookup_delete_Some. by apply Hnames.
Qed.

Lemma holds_run ops : Forall op_fits ops -> holds (timeline ops) (foldl exec_event ∅ ops).
Proof.
  intros Hall. unfold timeline. assert (holds ∅ ∅) as H0 by (split; [by rewrite fmap_empty|intros id e; by rewrite lookup_empty]). revert H0. generalize (∅ : gmap string MarketEvent) (∅ : EventTable).
  induction Hall as [|op ops Hop _ IH]; intros m t Hh; [done|]. cbn [foldl]. by apply IH, holds_step.
Qed.

(** ** Queries *)
Lemma row_cmp_opp a b : row_cmp a b = CompOpp (row_cmp b a).
Proof.
  unfold row_cmp, string_cmp. rewrite (Z.compare_antisym (er_starts_at b.2)), (String.compare_antisym a.1).
  by destruct (er_starts_at b.2 ?= er_starts_at a.2)%Z.
Qed.

Lemma newest_cmp_opp a b : newest_cmp a b = CompOpp (newest_cmp b a).
Proof.
  unfold newest_cmp, string_cmp. rewrite (Z.compare_antisym (er_starts_at a.2)), (String.compare_antisym a.1).
  by destruct (er_starts_at a.2 ?= er_starts_at b.2)%Z.
Qed.

Lemma preimages {A B} (g : B -> A) (Q : B -> Prop) (l : list A) : (forall x, x ∈ l -> exists y, x = g y /\ Q y) -> exists ys, l = g <$> ys /\ Forall Q ys.
Proof.
  induction l as [|x l IH]; intros Hl; [exists []; by split; [|constructor]|]. destruct (Hl x ltac:(left)) as (y & -> & Hy). destruct IH as (ys & -> & Hys); [intros z Hz; apply Hl; by right|].
  exists (y :: ys). split; [done|by constructor].
Qed.

Lemma sorted_among {A} (R R' : A -> A -> Prop) l : (forall a b, a ∈ l -> b ∈ l -> R a b -> R' a b) -> StronglySorted R l -> StronglySorted R' l.
Proof.
  intros HR Hs. induction Hs as [|x l Hs IH Hall]; [constructor|]. constructor; [apply IH; intros a b Ha Hb; apply HR; by right|].
  rewrite Forall_forall in *. intros y Hy. apply HR; [left|by right|by apply Hall].
Qed.

Lemma StronglySorted_fmap_inv {A B} (g : B -> A) (R : A -> A -> Prop) (l : list B) :
  StronglySorted R (g <$> l) -> StronglySorted (fun x y => R (g x) (g y)) l.
Proof.
  induction l as [|x l IH]; [constructor|]. rewrite fmap_cons. intros [Hs Hf]%StronglySorted_inv. constructor; [by apply IH|]. by apply (Forall_fmap g) in Hf.
Qed.

(** The entry of an event in the table. *)
Definition entry (e : MarketEvent) : string * EventRow := (ev_id e, event_row e).

Lemma entries_back es : Forall event_fits es -> collect_results (event_from_row <$> (entry <$> es)) = Ok es.
Proof.
  intros Hes. rewrite <- list_fmap_compose. apply collect_results_all. induction Hes as [|e es He _ IH]; constructor; [by apply event_back|done].
Qed.

Lemma entry_inj a b : event_fits a -> event_fits b -> entry a = entry b -> a = b.
Proof. intros Ha Hb E. pose proof (event_back a Ha) as H. unfold entry in E. rewrite E, event_back in H by done. congruence. Qed.

(** A query of the table of a map, sorted: its events, once each. *)
Lemma query_events m t (cmp : string * EventRow -> string * EventRow -> comparison) (P : string * EventRow -> Prop) `{forall kv, Decision (P kv)}
    (R : string * EventRow -> string * EventRow -> Prop) :
  holds m t -> (forall a b, cmp a b = CompOpp (cmp b a)) -> (forall a b, cmp a b <> Gt -> R a b) -> Transitive R ->
  exists es, sort_by cmp (filter P (map_to_list t)) = entry <$> es /\ Forall event_fits es /\ NoDup es /\ StronglySorted (fun a b => R (entry a) (entry b)) es /\
    forall e, e ∈ es <-> m !! ev_id e = Some e /\ P (entry e).
Proof.
  intros [Hrows Hnames] Hopp HR Htr. set (l := sort_by cmp (filter P (map_to_list t))).
  assert (forall kv, kv ∈ l <-> P kv /\ exists e, m !! ev_id e = Some e /\ event_fits e /\ kv = entry e) as Hl.
  { intros [id row]. unfold l. rewrite sort_by_perm, list_elem_of_filter, elem_of_map_to_list, Hrows, lookup_fmap. split; intros [Hp He]; (split; [done|]).
    - destruct (m !! id) as [e|] eqn:Hm; [|done]. injection He as <-. destruct (Hnames id e Hm) as [<- Hf]. by exists e.
    - destruct He as (e & Hm & _ & [= -> ->]). by rewrite Hm. }
  destruct (preimages entry (fun e => m !! ev_id e = Some e /\ event_fits e /\ P (entry e)) l) as (es & Hes & Hall).
  { intros kv (Hp & e & Hm & Hf & ->)%Hl. by exists e. }
  rewrite Forall_forall in Hall. exists es. split_and!; [done|apply Forall_forall; intros e He; by apply Hall| | |].
  - apply (NoDup_fmap_1 entry). rewrite <- Hes. unfold l. rewrite sort_by_perm. apply NoDup_filter, NoDup_map_to_list.
  - apply (StronglySorted_fmap_inv entry). rewrite <- Hes. by apply sort_by_sorted.
  - intros e. split; [intros He; split; by apply Hall|]. intros [Hm Hp]. destruct (Hnames (ev_id e) e Hm) as [_ Hf].
    assert (entry e ∈ l) as Hin by (apply Hl; split; [done|by exists e]). rewrite Hes in Hin. apply list_elem_of_fmap in Hin as (e' & E & He').
    rewrite (entry_inj e e' Hf); [done|by apply Hall|done].
Qed.
End EventLaws.

Lemma as_i64_order a b : a < 2 ^ 63 -> b < 2 ^ 63 -> ((as_i64 a <= as_i64 b)%Z <-> a <= b) /\ ((as_i64 a < as_i64 b)%Z <-> a < b).
Proof. intros Ha Hb. rewrite !as_i64_small by done. lia. Qed.

Lemma overlaps_touches `{JR : Json (list Region)} from until e :
  event_fits e -> from < 2 ^ 63 -> until < 2 ^ 63 -> overlaps (as_i64 from) (as_i64 until) (event_row e) = true <-> touches from until e.
Proof.
  intros (Hs & Hn & _) Hf Hu. unfold overlaps, touches. cbn [event_row er_starts_at er_ends_at]. rewrite !andb_true_iff.
  destruct (ends_at e) as [n|]; cbn [fmap option_fmap option_map from_option] in *; rewrite !bool_decide_eq_true, !as_i64_small by lia; lia.
Qed.

Lemma shown_public `{JR : Json (list Region)} public_only e : shown public_only (event_row e) = true <-> (public_only = true -> is_public e = true).
Proof.
  unfold shown, is_public. cbn [event_row er_visibility er_validation]. destruct public_only; cbn [negb orb]; [|by split].
  rewrite !andb_true_iff, !bool_decide_eq_true. destruct (ev_visibility e), (ev_validation e); cbn; naive_solver.
Qed.

Section QueryLaws.
Context `{JR : Json (list Region), !JsonLaws (list Region)} (m : gmap string MarketEvent) (t : EventTable) (Hh : holds m t).

Lemma between_exact from until public_only :
  from < 2 ^ 63 -> until < 2 ^ 63 ->
  exists l, between from until public_only t = Ok l /\ NoDup l /\ StronglySorted (fun a b => starts_at a <= starts_at b) l /\
    forall e, e ∈ l <-> m !! ev_id e = Some e /\ touches from until e /\ (public_only = true -> is_public e = true).
Proof.
  intros Hf Hu. unfold between. set (P := fun kv : string * EventRow => overlaps _ _ kv.2 = true /\ shown public_only kv.2 = true).
  destruct (query_events m t row_cmp P (fun a b => (er_starts_at a.2 <= er_starts_at b.2)%Z) Hh row_cmp_opp) as (es & -> & Hfit & Hnd & Hs & Hin).
  - intros a b Hab. unfold row_cmp in Hab. unfold Z.le. by destruct (er_starts_at a.2 ?= er_starts_at b.2)%Z.
  - intros a b c. lia.
  - exists es. rewrite entries_back by done. rewrite Forall_forall in Hfit. split_and!; [done|done| |].
    + eapply sorted_among; [|exact Hs]. intros a b Ha Hb. apply as_i64_order; by apply Hfit.
    + intros e. rewrite Hin. unfold P. cbn [entry snd]. split; intros (Hm & H1 & H2); (split; [done|]).
      all: destruct (ho_names m t Hh (ev_id e) e Hm) as [_ He]. { rewrite overlaps_touches in H1 by done. by rewrite shown_public in H2. } by rewrite overlaps_touches, shown_public.
Qed.

Lemma recent_exact limit :
  limit < 2 ^ 63 ->
  exists all, recent limit t = Ok (take (N.to_nat limit) all) /\ NoDup all /\ StronglySorted (fun a b => starts_at b <= starts_at a) all /\
    forall e, e ∈ all <-> m !! ev_id e = Some e.
Proof.
  intros Hlim. unfold recent, limited. rewrite as_i64_small by done. rewrite decide_False by lia. replace (Z.to_nat (Z.of_N limit)) with (N.to_nat limit) by lia.
  destruct (query_events m t newest_cmp (fun _ => True) (fun a b => (er_starts_at b.2 <= er_starts_at a.2)%Z) Hh newest_cmp_opp) as (es & Hl & Hfit & Hnd & Hs & Hin).
  - intros a b Hab. unfold newest_cmp in Hab. unfold Z.le. by destruct (er_starts_at b.2 ?= er_starts_at a.2)%Z.
  - intros a b c. lia.
  - rewrite (filter_all _ (map_to_list t)) in Hl by (by apply Forall_true). exists es. rewrite Hl, <- fmap_take, entries_back by (by apply Forall_take). rewrite Forall_forall in Hfit. split_and!; [done|done| |].
    + eapply sorted_among; [|exact Hs]. intros a b Ha Hb. apply as_i64_order; by apply Hfit.
    + intros e. rewrite Hin. tauto.
Qed.

Lemma record_again events : Forall event_fits events -> (forall e, e ∈ events -> is_Some (m !! ev_id e)) -> record events t = (Ok 0, t).
Proof.
  intros Hfit Hall. unfold record. destruct events as [|e events]; [done|]. destruct (holds_record m t (e :: events) 0 Hfit Hh) as (n & t' & -> & _ & H). by destruct (H Hall) as [-> ->].
Qed.
End QueryLaws.

Lemma record_refused `{JR : Json (list Region)} t events before e after n :
  events = before ++ e :: after -> Forall event_fits before -> ends_at e = Some n -> n < starts_at e -> starts_at e < 2 ^ 63 -> exists err, record events t = (Err err, t).
Proof.
  intros -> Hfit Hend Hlt Hs. exists (Backend "CHECK constraint failed: ends_at IS NULL OR ends_at >= starts_at"). unfold record.
  assert (forall w t', record_loop (before ++ e :: after) w t' = Err (Backend "CHECK constraint failed: ends_at IS NULL OR ends_at >= starts_at")) as Hloop.
  { induction Hfit as [|x l Hx _ IH]; intros w t'; cbn [app record_loop].
    - assert (ends_in_order (event_row e) = false) as ->; [|done]. unfold ends_in_order. cbn [event_row er_ends_at er_starts_at]. rewrite Hend. cbn [fmap option_fmap option_map].
      apply bool_decide_eq_false_2. rewrite !as_i64_small by lia. lia.
    - rewrite event_row_ends by done. by destruct (t' !! ev_id x). }
  rewrite Hloop. by destruct before.
Qed.


(** ** An example *)
Definition demo_regions : Json (list Region) := listed_json (fun r => Region_as_str r) (fun s => default Eu (Region_parse s)).
Lemma demo_regions_laws : @JsonLaws _ demo_regions.
Proof. apply listed_json_laws. by intros []. Qed.

Definition demo_event (id : string) (starts : Millis) (ends : option Millis) : MarketEvent :=
  {| ev_id := id; ev_kind := EventKind.Holiday; ev_title := id; ev_notes := None; starts_at := starts; ends_at := ends; scope := EventScope_default;
     ev_provenance := Provenance.Administrator; ev_validation := Validation.Unvalidated; ev_visibility := Visibility.Internal |}.
(** Two are recorded, one is published, the other forgotten, and the first recorded again. *)
Definition demo_ops : list EventOp :=
  [Records [demo_event "fair" 10 (Some 30); demo_event "rumour" 12 None]; Reviews "fair" Validation.Validated Visibility.Public; Forgets "rumour";
   Records [demo_event "fair" 10 (Some 30)]].

