(* ===== verification/SmallStores.v ===== *)
(** * SmallStores: settings, keys and values, the cache and the token's price

    Models the small tables of [crates/storage/src/sqlite]: [kv.rs], [settings.rs],
    [cache.rs] and [wow_token.rs].  A table is a finite map over its primary key; bytes are
    a [string].

    [cache_fresh] states what the cache promises: what was put last under a key until its
    time is up, whether one key is asked for or many, and however often expired rows are
    purged. *)
From stdpp Require Import prelude gmap sorting strings.
From S2P Require Import Prelude Text Time Store Sqlite Market Catalog PriceStore EventStore.

(** ** Keys and values.  The clock of the bookkeeping column is an argument. *)
Record KvRow := { kv_value : string; kv_updated_at : Z }.
Abbreviation KvTable := (gmap string KvRow).

Definition kv_get (key : string) (t : KvTable) : StoreResult (option string) := Ok (kv_value <$> t !! key).
Definition kv_put (key value : string) (now_ms : Z) (t : KvTable) : StoreResult unit * KvTable :=
  (Ok tt, <[key := {| kv_value := value; kv_updated_at := now_ms |}]> t).
Definition kv_delete (key : string) (t : KvTable) : StoreResult unit * KvTable := (Ok tt, delete key t).

(** ** What is collected *)
Abbreviation SettingsTable := (gmap string Z).

Definition set_enabled (name : string) (enabled : bool) (t : SettingsTable) : StoreResult unit * SettingsTable :=
  (Ok tt, <[name := if enabled then 1%Z else 0%Z]> t).
Definition disabled (t : SettingsTable) : StoreResult (list string) :=
  Ok ((sort_by (fun a b => string_cmp a.1 b.1) (filter (fun kv => kv.2 = 0%Z) (map_to_list t))).*1).

(** ** The price of the token *)
Record WowTokenPrice := { wt_region : Region; wt_observed_at : Millis; wt_price : Copper }.
Abbreviation TokenTable := (gmap (string * Z) Z).

Definition token_from_row (row : (string * Z) * Z) : StoreResult WowTokenPrice :=
  match Region_parse row.1.1 with
  | Some region => Ok {| wt_region := region; wt_observed_at := as_u64 row.1.2; wt_price := as_u64 row.2 |}
  | None => Err (Sqlite.corrupt "region" row.1.1)
  end.

Definition token_record (token : WowTokenPrice) (t : TokenTable) : StoreResult bool * TokenTable :=
  let k := (Region_as_str (wt_region token), as_i64 (wt_observed_at token)) in
  match t !! k with Some _ => (Ok false, t) | None => (Ok true, <[k := as_i64 (wt_price token)]> t) end.

Definition token_cmp (a b : (string * Z) * Z) : comparison := Z.compare a.1.2 b.1.2.
Definition token_history (region : Region) (t : TokenTable) : StoreResult (list WowTokenPrice) :=
  collect_results (token_from_row <$> sort_by token_cmp (filter (fun row => row.1.1 = Region_as_str region) (map_to_list t))).

(** ** The cache *)
Definition CHUNK : nat := 400.
Record CacheRow := { ca_value : string; ca_expires_at : Z }.
Abbreviation CacheTable := (gmap string CacheRow).

Definition cache_get (key : string) (now : Millis) (t : CacheTable) : StoreResult (option string) :=
  Ok (row ← t !! key; if decide (as_i64 now < ca_expires_at row)%Z then Some (ca_value row) else None).

(** One statement: the rows among [keys], in the order of the index. *)
Definition cache_rows (keys : list string) (now : Millis) (t : CacheTable) : list (string * string) :=
  (fun kv => (kv.1, ca_value kv.2)) <$> sort_by (fun a b => string_cmp a.1 b.1)
    (filter (fun kv => kv.1 ∈ keys /\ (as_i64 now < ca_expires_at kv.2)%Z) (map_to_list t)).

(** [chunks]. *)
Fixpoint key_chunks (fuel : nat) (keys : list string) : list (list string) :=
  match fuel, keys with
  | S fuel, _ :: _ => take CHUNK keys :: key_chunks fuel (drop CHUNK keys)
  | _, _ => []
  end.

Definition cache_get_many (keys : list string) (now : Millis) (t : CacheTable) : StoreResult (list (string * string)) :=
  Ok (key_chunks (length keys) keys ≫= fun chunk => cache_rows chunk now t).

Definition cache_put (key value : string) (expires_at : Millis) (t : CacheTable) : StoreResult unit * CacheTable :=
  (Ok tt, <[key := {| ca_value := value; ca_expires_at := as_i64 expires_at |}]> t).

Definition purge_expired (now : Millis) (t : CacheTable) : StoreResult N * CacheTable :=
  let kept := filter (fun kv => (as_i64 now < ca_expires_at kv.2)%Z) t in
  (Ok (N.of_nat (size t - size kept)), kept).

(** ** The token's history *)
Lemma token_back region at_ price :
  at_ < 2 ^ 64 -> price < 2 ^ 64 -> token_from_row ((Region_as_str region, as_i64 at_), as_i64 price) = Ok {| wt_region := region; wt_observed_at := at_; wt_price := price |}.
Proof. intros Ha Hp. unfold token_from_row. cbn [fst snd]. rewrite Region_parse_as_str. by rewrite !as_u64_i64. Qed.

(** What was recorded first of each instant. *)
Definition first_recorded (tokens : list WowTokenPrice) (x : WowTokenPrice) : Prop :=
  exists earlier later, tokens = earlier ++ x :: later /\ forall y, y ∈ earlier -> ~ (wt_region y = wt_region x /\ wt_observed_at y = wt_observed_at x).

Definition token_fits (x : WowTokenPrice) : Prop := wt_observed_at x < 2 ^ 63 /\ wt_price x < 2 ^ 64.

Definition token_row (x : WowTokenPrice) : (string * Z) * Z := ((Region_as_str (wt_region x), as_i64 (wt_observed_at x)), as_i64 (wt_price x)).

Lemma token_key_inj x y : token_fits x -> token_fits y -> (token_row x).1 = (token_row y).1 <-> wt_region x = wt_region y /\ wt_observed_at x = wt_observed_at y.
Proof.
  intros [Hx _] [Hy _]. cbn. split; [|by intros [-> ->]]. intros [= Hr Ht]. split; [|by apply as_i64_inj_small in Ht].
  pose proof (Region_parse_as_str (wt_region x)) as E. rewrite Hr, Region_parse_as_str in E. congruence.
Qed.

Lemma token_rows tokens :
  Forall token_fits tokens ->
  forall row, foldl (fun t x => (token_record x t).2) ∅ tokens !! row.1 = Some row.2 <-> exists x, first_recorded tokens x /\ row = token_row x.
Proof.
  induction tokens as [|x tokens IH] using rev_ind; intros Hfit row.
  { cbn [foldl]. rewrite lookup_empty. split; [done|]. intros (x & (earlier & later & He & _) & _). by destruct earlier. }
  apply Forall_app in Hfit as [Hfit Hx]. apply Forall_cons in Hx as [Hx _]. specialize (IH Hfit). rewrite foldl_app. cbn [foldl]. set (t := foldl _ ∅ tokens) in *.
  assert (forall y, first_recorded (tokens ++ [x]) y <-> first_recorded tokens y \/ (y = x /\ t !! (token_row x).1 = None)) as Hfirst.
  { intros y. split.
    - intros (earlier & later & He & Hno). destruct later as [|z later _] using rev_ind.
      + apply app_inj_tail in He as [-> ->]. right. split; [done|]. apply eq_None_not_Some. intros [v Hv]. destruct (proj1 (IH ((token_row y).1, v)) Hv) as (z & (e & l & -> & _) & [= E1 E2 _]).
        assert (wt_region y = wt_region z /\ wt_observed_at y = wt_observed_at z) as [H1 H2] by (apply token_key_inj; [done|by apply (proj1 (Forall_forall _ _) Hfit z); set_solver|cbn; congruence]).
        apply (Hno z); [set_solver|done].
      + rewrite app_comm_cons, app_assoc in He. apply app_inj_tail in He as [-> ->]. left. by exists earlier, later.
    - intros [(earlier & later & -> & Hno)|[-> Hnone]]; [exists earlier, (later ++ [x]); split; [by rewrite <- app_assoc|done]|].
      exists tokens, []. split; [done|]. intros y Hy [H1 H2].
      assert (exists z, first_recorded tokens z /\ wt_region z = wt_region x /\ wt_observed_at z = wt_observed_at x) as (z & Hz & H3 & H4).
      { clear -Hy H1 H2. induction tokens as [|a l IH]; [by apply not_elem_of_nil in Hy|]. destruct (decide (wt_region a = wt_region x /\ wt_observed_at a = wt_observed_at x)) as [Ha|Ha].
        - exists a. split; [|done]. exists [], l. split; [done|]. intros b Hb. by apply not_elem_of_nil in Hb.
        - apply elem_of_cons in Hy as [->|Hy]; [by destruct Ha|]. destruct (IH Hy) as (z & (e & l' & -> & Hno) & H3 & H4). exists z. split; [|done]. exists (a :: e), l'. split; [done|].
          intros b [->|Hb]%elem_of_cons; [rewrite H3, H4; done|by apply Hno]. }
      pose proof (proj2 (IH (token_row z)) (ex_intro _ z (conj Hz eq_refl))) as Hv. unfold token_row in Hv at 1. cbn [fst] in Hv. rewrite H3, H4 in Hv. unfold token_row in Hnone. cbn [fst] in Hnone. congruence. }
  setoid_rewrite Hfirst. unfold token_record. fold (token_row x). change (Region_as_str (wt_region x), as_i64 (wt_observed_at x)) with (token_row x).1.
  destruct (t !! (token_row x).1) as [v|] eqn:Hold; cbn [snd].
  - rewrite IH. split; [intros (y & Hy & ->); exists y; split; [by left|done]|intros (y & [Hy|[_ ?]] & ->); [by exists y|done]].
  - destruct row as [k v]. cbn [fst snd]. rewrite lookup_insert_Some. split.
    + intros [[<- <-]|[_ Hk]]; [exists x; split; [by right|done]|]. destruct (proj1 (IH (k, v)) Hk) as (y & Hy & E). exists y. split; [by left|done].
    + intros (y & [Hy|[-> _]] & [= -> ->]); [|by left]. right. pose proof (proj2 (IH (token_row y)) (ex_intro _ y (conj Hy eq_refl))) as Hk. split; [|exact Hk].
      intros E. cbn [token_row fst] in *. congruence.
Qed.

(** Of a region, the price of each instant is the one recorded first, in the order of time. *)
Theorem token_history_exact tokens region :
  Forall token_fits tokens ->
  exists l, token_history region (foldl (fun t x => (token_record x t).2) ∅ tokens) = Ok l /\ NoDup l /\
    StronglySorted (fun a b => wt_observed_at a <= wt_observed_at b) l /\ forall x, x ∈ l <-> first_recorded tokens x /\ wt_region x = region.
Proof.
  intros Hfit. pose proof (token_rows tokens Hfit) as Hrows. unfold token_history. set (t := foldl _ ∅ tokens) in *.
  assert (forall x, first_recorded tokens x -> token_fits x) as Hf.
  { intros x (e & l & -> & _). apply (proj1 (Forall_forall _ _) Hfit). set_solver. }
  assert (forall row, row ∈ sort_by token_cmp (filter (fun row => row.1.1 = Region_as_str region) (map_to_list t)) <->
    exists x, (first_recorded tokens x /\ wt_region x = region) /\ row = token_row x) as Hin.
  { intros row. rewrite sort_by_perm, list_elem_of_filter, elem_of_map_to_list', Hrows. split.
    - intros [Hr (x & Hx & ->)]. exists x. split; [split; [done|]|done]. cbn in Hr. pose proof (Region_parse_as_str (wt_region x)) as E. rewrite Hr, Region_parse_as_str in E. congruence.
    - intros (x & [Hx <-] & ->). split; [done|]. by exists x. }
  assert (NoDup (sort_by token_cmp (filter (fun row => row.1.1 = Region_as_str region) (map_to_list t)))) as Hnd by (rewrite sort_by_perm; apply NoDup_filter, NoDup_map_to_list).
  assert (StronglySorted (fun a b : (string * Z) * Z => (a.1.2 <= b.1.2)%Z) (sort_by token_cmp (filter (fun row => row.1.1 = Region_as_str region) (map_to_list t)))) as Hs.
  { apply sort_by_sorted; [intros a b; apply Z.compare_antisym|intros a b Hab; exact Hab|intros a b c; lia]. }
  set (rows := sort_by token_cmp _) in *. destruct (preimages token_row (fun x => first_recorded tokens x /\ wt_region x = region) rows) as (l & El & Hl).
  { intros row (x & Hx & ->)%Hin. by exists x. }
  rewrite El in *. rewrite Forall_forall in Hl. exists l. split_and!.
  - rewrite <- list_fmap_compose. apply collect_results_all. apply Forall_Forall2_diag, Forall_forall. intros [r u p] [[Hu Hp]%Hf _]%Hl. apply token_back; [cbn in Hu; lia|done].
  - by apply NoDup_fmap_1 in Hnd.
  - apply StronglySorted_fmap_inv in Hs. eapply sorted_among; [|exact Hs]. intros a b [[Ha _]%Hf _]%Hl [[Hb _]%Hf _]%Hl. cbn. apply as_i64_order; done.
  - intros x. split; [apply Hl|]. intros Hx. assert (token_row x ∈ token_row <$> l) as Hr by (apply Hin; by exists x). apply list_elem_of_fmap in Hr as (y & E & Hy).
    pose proof (proj1 (Hl y Hy)) as Hyf. apply Hf in Hyf as [Hyt Hyp]. destruct Hx as [[Hxt Hxp]%Hf _].
    pose proof (token_back (wt_region x) (wt_observed_at x) (wt_price x)) as B1. pose proof (token_back (wt_region y) (wt_observed_at y) (wt_price y)) as B2.
    unfold token_row in E. rewrite E, B2 in B1 by lia. specialize (B1 ltac:(lia) Hxp). injection B1 as E1 E2 E3. destruct x, y. cbn in *. by subst.
Qed.

Lemma token_history_exact_witness :
  exists l, token_history Eu (foldl (fun t x => (token_record x t).2) ∅
    [{| wt_region := Eu; wt_observed_at := 9; wt_price := 5 |}; {| wt_region := Eu; wt_observed_at := 9; wt_price := 6 |}]) = Ok l /\ NoDup l /\
    l = [{| wt_region := Eu; wt_observed_at := 9; wt_price := 5 |}].
Proof.
  destruct (token_history_exact [{| wt_region := Eu; wt_observed_at := 9; wt_price := 5 |}; {| wt_region := Eu; wt_observed_at := 9; wt_price := 6 |}] Eu) as (l & Hl & Hnd & _).
  - repeat constructor.
  - exists l. split; [exact Hl|]. split; [exact Hnd|]. vm_compute in Hl. by injection Hl as <-.
Defined.

(** ** What the cache promises *)
Inductive CacheOp := Puts (key value : string) (expires_at : Millis) | Purges (now : Millis).

Definition exec_cache (t : CacheTable) (op : CacheOp) : CacheTable :=
  match op with Puts key value expires_at => (cache_put key value expires_at t).2 | Purges now => (purge_expired now t).2 end.

(** What was put last under a key, and until when. *)
Definition last_put (ops : list CacheOp) (key : string) : option (string * Millis) :=
  last (omap (fun op => match op with Puts k v e => if decide (k = key) then Some (v, e) else None | Purges _ => None end) ops).

Definition live (ops : list CacheOp) (now : Millis) (key : string) : option string :=
  '(value, expires_at) ← last_put ops key; if decide (now < expires_at) then Some value else None.

Definition cache_op_fits (now : Millis) (op : CacheOp) : Prop := match op with Puts _ _ e => e < 2 ^ 63 | Purges t => t <= now end.

Lemma cache_get_live ops now key :
  now < 2 ^ 63 -> Forall (cache_op_fits now) ops -> cache_get key now (foldl exec_cache ∅ ops) = Ok (live ops now key).
Proof.
  intros Hnow Hops. unfold cache_get. f_equal. revert key. induction ops as [|op ops IH] using rev_ind; intros key; [done|].
  apply Forall_app in Hops as [Hops Hop]. apply Forall_cons in Hop as [Hop _]. specialize (IH Hops). rewrite foldl_app. cbn [foldl]. set (t := foldl exec_cache ∅ ops) in *.
  unfold live, last_put in *. rewrite omap_app. destruct op as [k v e|u]; cbn [exec_cache cache_put purge_expired snd omap list_omap].
  - destruct (decide (k = key)) as [->|Hne].
    + rewrite lookup_insert_eq, last_snoc. cbn [mbind option_bind ca_expires_at ca_value]. cbn in Hop. rewrite !as_i64_small by done.
      destruct (decide (now < e)); [by rewrite decide_True by lia|by rewrite decide_False by lia].
    + rewrite lookup_insert_ne by done. rewrite app_nil_r. apply IH.
  - rewrite app_nil_r, <- IH. cbn in Hop. destruct (t !! key) as [row|] eqn:Hrow; cbn [mbind option_bind].
    + destruct (decide (as_i64 u < ca_expires_at row)%Z) as [Hu|Hu].
      * assert (filter (fun kv => (as_i64 u < ca_expires_at kv.2)%Z) t !! key = Some row) as -> by (by apply map_lookup_filter_Some). done.
      * assert (filter (fun kv => (as_i64 u < ca_expires_at kv.2)%Z) t !! key = None) as ->.
        { apply map_lookup_filter_None. right. intros r Hr. by rewrite Hrow in Hr; injection Hr as <-. }
        rewrite decide_False; [done|]. rewrite as_i64_small in * by lia. lia.
    + assert (filter (fun kv => (as_i64 u < ca_expires_at kv.2)%Z) t !! key = None) as ->; [|done]. apply map_lookup_filter_None. by left.
Qed.

Lemma key_chunks_concat fuel keys : (length keys <= fuel)%nat -> List.concat (key_chunks fuel keys) = keys.
Proof.
  revert keys. induction fuel as [|fuel IH]; intros keys Hl; [by destruct keys; [|cbn in Hl; lia]|]. destruct keys as [|k keys]; [done|]. cbn [key_chunks List.concat].
  rewrite IH; [apply take_drop|]. rewrite length_drop. cbn [length] in *. unfold CHUNK. lia.
Qed.

Lemma cache_rows_elem keys now t k v : (k, v) ∈ cache_rows keys now t <-> k ∈ keys /\ cache_get k now t = Ok (Some v).
Proof.
  unfold cache_rows, cache_get. rewrite list_elem_of_fmap. setoid_rewrite sort_by_perm. setoid_rewrite list_elem_of_filter. setoid_rewrite elem_of_map_to_list'. split.
  - intros ([k' row] & [= -> ->] & [Hk Hl] & Hrow). cbn [fst snd] in *. split; [done|]. rewrite Hrow. cbn [mbind option_bind]. by rewrite decide_True.
  - intros [Hk Hg]. destruct (t !! k) as [row|] eqn:Hrow; [|done]. cbn [mbind option_bind] in Hg. case_decide; [|done]. injection Hg as <-. by exists (k, row).
Qed.

Lemma cache_rows_keys keys now t : NoDup (cache_rows keys now t).*1.
Proof.
  unfold cache_rows. rewrite <- list_fmap_compose. change (fst ∘ (fun kv : string * CacheRow => (kv.1, ca_value kv.2))) with (@fst string CacheRow). rewrite sort_by_perm.
  apply NoDup_fmap_2_strong; [|apply NoDup_filter, NoDup_map_to_list]. intros [k r] [k' r'] [_ H1%elem_of_map_to_list]%list_elem_of_filter [_ H2%elem_of_map_to_list]%list_elem_of_filter. cbn. intros <-. congruence.
Qed.

Lemma elem_of_concat {A} (x : A) ls : x ∈ List.concat ls <-> exists l, l ∈ ls /\ x ∈ l.
Proof. rewrite list_elem_of_In, in_concat. by setoid_rewrite list_elem_of_In. Qed.

(** Whatever was put and purged, with no purge in the future, the cache answers a key
    with what was put last under it, until its time is up and no longer; and a question
    about many keys is answered, however it is cut into statements, with exactly the
    answers about each, once where no key is asked twice. *)
Theorem cache_fresh ops now :
  now < 2 ^ 63 -> Forall (cache_op_fits now) ops ->
  let t := foldl exec_cache ∅ ops in
  (forall key, cache_get key now t = Ok (live ops now key)) /\
  (forall keys, exists l, cache_get_many keys now t = Ok l /\ (forall k v, (k, v) ∈ l <-> k ∈ keys /\ live ops now k = Some v) /\ (NoDup keys -> NoDup l.*1)).
Proof.
  intros Hnow Hops. cbn zeta. split; [intros key; by apply cache_get_live|]. intros keys. set (t := foldl exec_cache ∅ ops).
  pose proof (key_chunks_concat (length keys) keys (le_n _)) as Hcat. unfold cache_get_many. set (chunks := key_chunks (length keys) keys) in *. eexists. split; [done|]. split.
  - intros k v. rewrite list_elem_of_bind. setoid_rewrite cache_rows_elem. unfold t. rewrite <- Hcat. split.
    + intros (c & (Hk & Hg) & Hc). rewrite cache_get_live in Hg by done. injection Hg as Hg. split; [|done]. apply elem_of_concat. by exists c.
    + intros [(c & Hc & Hk)%elem_of_concat Hl]. exists c. rewrite cache_get_live, Hl by done. done.
  - rewrite <- Hcat. generalize chunks as cs. induction cs as [|c cs IH]; [by intros _; constructor|]. cbn [List.concat]. intros (Hc & Hd & Hcs)%NoDup_app. rewrite bind_cons, fmap_app. apply NoDup_app. split_and!.
    + apply cache_rows_keys.
    + intros k ([k1 v1] & -> & H1)%list_elem_of_fmap ([k2 v2] & E & H2)%list_elem_of_fmap. cbn in E. subst k2. apply cache_rows_elem in H1 as [H1 _].
      apply list_elem_of_bind in H2 as (c' & H2 & Hc'). apply cache_rows_elem in H2 as [H2 _]. apply (Hd k1 H1), elem_of_concat. by exists c'.
    + by apply IH.
Qed.

Lemma cache_fresh_witness :
  Forall (cache_op_fits 20) [Puts "a" "x" 30; Purges 15; Puts "b" "y" 18; Puts "a" "z" 25] /\
  cache_get "a" 20 (foldl exec_cache ∅ [Puts "a" "x" 30; Purges 15; Puts "b" "y" 18; Puts "a" "z" 25]) = Ok (Some "z") /\
  cache_get "b" 20 (foldl exec_cache ∅ [Puts "a" "x" 30; Purges 15; Puts "b" "y" 18; Puts "a" "z" 25]) = Ok None.
Proof.
  assert (Forall (cache_op_fits 20) [Puts "a" "x" 30; Purges 15; Puts "b" "y" 18; Puts "a" "z" 25]) as Hf by (repeat constructor; cbn; lia).
  split; [exact Hf|]. destruct (cache_fresh _ 20 ltac:(lia) Hf) as [H _]. split; [exact (H "a")|exact (H "b")].
Defined.
