(* ===== verification/CollectorTask.v ===== *)
(** * CollectorTask: the recurring collection

    Models [crates/server/src/collector_task.rs]: which realms a cycle asks and how many at a
    time, one realm's collection, the commodity pass over the regions, the retention of
    histories and ladders, the daily rows, and when the archive is rebuilt.

    The collections of a cycle are tasks of a set that is kept at the cluster's width.  A
    task is a state machine with one step per await ([task_step]), and a cycle is the
    interleaving of its tasks with the loop that starts and joins them ([cycle_step]).
    What the upstream answers is a relation with the contract of a conditional request.

    Proved: under every interleaving each due realm is asked once, never two at a time and
    never more than the width together, and the cycle ends ([cycle_sound]); and whatever
    cycles, prunings and daily passes there were, the pages read of every realm exactly
    what the upstream answered ([collector_faithful]). *)
From stdpp Require Import prelude gmap sorting strings pretty relations.
From S2P Require Import Prelude Text Time Store Sqlite Market Catalog Depth MarketKey Realm Alerts PriceStore AppError Collector Daily Materialise ReadRows ReadModel RealmStore EventStore SmallStores.

Module RealmSnapshot.
Inductive t := NotModified | Fresh (generated_at : Millis) (listings : list GearListing).
End RealmSnapshot.

(** ** Commodities *)
(** What an administrator has switched off; a table that cannot be read switches nothing off. *)
Definition disabled_kinds (settings : StoreResult (list string)) : list string :=
  match settings with Ok names => names | Err _ => [] end.

Definition skipped_kinds (names : list string) : list ItemKind.t :=
  omap (fun name => find_first (fun k => bool_decide (ItemKind.as_str k = name)) ItemKind.ALL) names.

Definition collector_config (market : MarketConfig) (catalog : Catalog) (settings : StoreResult (list string)) : Collector.Config :=
  {| Collector.catalog := catalog; Collector.alert_rule := rule market; Collector.skip := skipped_kinds (disabled_kinds settings) |}.

(** One region after the other, each at its reading of the clock; the regions that moved. *)
Fixpoint collect_each `{PriceRepository P} (config : Collector.Config) (provider : Collector.Provider) (todo : list (Region * Millis)) (w : @Collector.World P) :
    list Region * @Collector.World P :=
  match todo with
  | [] => ([], w)
  | (region, now) :: rest =>
      let '(r, w) := Collector.collect config provider region now w in
      let '(changed, w) := collect_each config provider rest w in
      (match r with Ok {| Collector.rp_outcome := Collector.Collected _ _ _ _ |} => region :: changed | _ => changed end, w)
  end.

Definition collect_once `{PriceRepository P} (market : MarketConfig) (catalog : option Catalog) (settings : StoreResult (list string)) (provider : Collector.Provider)
    (clock : Region -> Millis) (w : @Collector.World P) : list Region * @Collector.World P :=
  match catalog with
  | None => ([], w)
  | Some catalog => collect_each (collector_config market catalog settings) provider ((fun r => (r, clock r)) <$> regions market) w
  end.

(** ** Realms: which, and how many at a time *)
Definition wanted_items (catalog : Catalog) (disabled : list string) : list ItemId :=
  filter (fun i => ItemKind.is_commodity (ci_kind i) = false /\ ItemKind.as_str (ci_kind i) ∉ disabled) (c_items catalog) ≫= item_ids.

Definition CAP : nat := 16.
Definition fan_out (nodes_online : N) : nat := Nat.min (Nat.max (N.to_nat nodes_online) 1) CAP.

Section Directory.
Context `{JM : Json (list string)}.

(** The early returns of [collect_realms]: what to ask for, and of which realms. *)
Definition plan (configured : bool) (catalog : option Catalog) (settings : StoreResult (list string)) (market : MarketConfig) (now : Millis)
    (db : RealmTables) (kv : KvTable) : option (list ItemId * list (Realm * RealmCadence)) :=
  if negb configured then None
  else
    catalog ← catalog;
    let wanted := wanted_items catalog (disabled_kinds settings) in
    match wanted, RealmStore.realms db with
    | [], _ | _, Err _ => None
    | _, Ok realms =>
        match due_realms (fun r => match kv_get (realm_cadence_key r) kv with Ok value => Some value | Err _ => None end) realms now market with
        | [] => None
        | due => Some (wanted, due)
        end
    end.

(** [name_realms]: [listed] is what the upstream lists of a region. *)
Definition wanted_realms (market : MarketConfig) (region : Region) : list RealmId := (filter (fun rr => rr.1 = region) (Market.realms market)).*2.

Definition name_region (market : MarketConfig) (listed : Region -> list RealmId -> AppResult (list Realm)) (db : RealmTables) (region : Region) : RealmTables :=
  let wanted := wanted_realms market region in
  if decide (Market.realms market <> [] /\ wanted = []) then db
  else match listed region wanted with Ok realms => foldl (fun db realm => (record_realm realm db).2) db realms | Err _ => db end.

Definition name_realms (configured : bool) (market : MarketConfig) (listed : Region -> list RealmId -> AppResult (list Realm)) (db : RealmTables) : RealmTables :=
  if configured then foldl (name_region market listed) db (regions market) else db.
End Directory.

(** ** One realm's collection *)
Inductive Phase :=
| Starting
| Asked (since : option Millis)
| Answered (answer : AppResult RealmSnapshot.t)
| Saving (cadence : RealmCadence) (outcome : Realm.Outcome)
| Ended (outcome : Realm.Outcome).

Record Poll := { po_realm : Realm; po_cadence : RealmCadence; po_phase : Phase }.
Definition at_phase (p : Poll) (phase : Phase) : Poll := {| po_realm := po_realm p; po_cadence := po_cadence p; po_phase := phase |}.

(** A read that fails fetches in full. *)
Definition since_of (r : StoreResult (option Millis)) : option Millis := match r with Ok at_ => at_ | Err _ => None end.

Section Cycle.
Context (market : MarketConfig) (wanted : list ItemId) (width : nat).
Context (answers : Region -> RealmId -> list ItemId -> option Millis -> AppResult RealmSnapshot.t -> Prop) (reads_fail : Prop).

Abbreviation minimum := (realm_min_interval_ms market).
Abbreviation maximum := (realm_max_interval_ms market).

Definition store_fresh (realm : Realm) (generated_at : Millis) (listings : list GearListing) (db : RealmTables) : StoreResult (N * N) * RealmTables :=
  let '(samples, ladders) := summarise_realm listings (r_region realm) (r_id realm) generated_at in
  RealmStore.record_snapshot samples (r_region realm) (r_id realm) generated_at ladders db.

(** The steps of [collect_one_realm], with the snapshots that were stored.  A transaction
    that fails leaves the tables as they were. *)
Inductive task_step : RealmTables * KvTable * Poll -> list Snap -> RealmTables * KvTable * Poll -> Prop :=
| looks db kv p r :
    po_phase p = Starting -> r = RealmStore.last_observed (r_region (po_realm p)) (r_id (po_realm p)) db \/ (reads_fail /\ exists e, r = Err e) ->
    task_step (db, kv, p) [] (db, kv, at_phase p (Asked (since_of r)))
| hears db kv p since answer :
    po_phase p = Asked since -> answers (r_region (po_realm p)) (r_id (po_realm p)) wanted since answer ->
    task_step (db, kv, p) [] (db, kv, at_phase p (Answered answer))
| unmodified db kv p now :
    po_phase p = Answered (Ok RealmSnapshot.NotModified) ->
    task_step (db, kv, p) [] (db, kv, at_phase p (Saving (after_unchanged (po_cadence p) now minimum maximum) Realm.Unchanged))
| stores db db' kv p generated_at listings counts now :
    po_phase p = Answered (Ok (RealmSnapshot.Fresh generated_at listings)) -> store_fresh (po_realm p) generated_at listings db = (Ok counts, db') ->
    task_step (db, kv, p) [snap_of listings (r_region (po_realm p)) (r_id (po_realm p)) generated_at]
      (db', kv, at_phase p (Saving (after_activity now minimum maximum) Realm.Collected))
| loses db kv p generated_at listings now :
    po_phase p = Answered (Ok (RealmSnapshot.Fresh generated_at listings)) ->
    task_step (db, kv, p) [] (db, kv, at_phase p (Saving (after_failure (po_cadence p) now minimum maximum) Realm.Failed))
| refused db kv p e now :
    po_phase p = Answered (Err e) ->
    task_step (db, kv, p) [] (db, kv, at_phase p (Saving (after_failure (po_cadence p) now minimum maximum) Realm.Failed))
| saves db kv p cadence outcome now_ms :
    po_phase p = Saving cadence outcome ->
    task_step (db, kv, p) [] (db, (kv_put (realm_cadence_key (po_realm p)) (cadence_text cadence) now_ms kv).2, at_phase p (Ended outcome))
| unsaved db kv p cadence outcome :
    po_phase p = Saving cadence outcome -> task_step (db, kv, p) [] (db, kv, at_phase p (Ended outcome)).

(** ** A cycle *)
Record Tally := { ta_collected : N; ta_unchanged : N; ta_failed : N }.
Definition tally (o : Realm.Outcome) (t : Tally) : Tally :=
  match o with
  | Realm.Collected => {| ta_collected := ta_collected t + 1; ta_unchanged := ta_unchanged t; ta_failed := ta_failed t |}
  | Realm.Unchanged => {| ta_collected := ta_collected t; ta_unchanged := ta_unchanged t + 1; ta_failed := ta_failed t |}
  | Realm.Failed => {| ta_collected := ta_collected t; ta_unchanged := ta_unchanged t; ta_failed := ta_failed t + 1 |}
  end.

Record Cycle := {
  cy_queue : list (Realm * RealmCadence); cy_running : list Poll; cy_tally : Tally; cy_db : RealmTables; cy_kv : KvTable }.

Definition start (due : list (Realm * RealmCadence)) (db : RealmTables) (kv : KvTable) : Cycle :=
  {| cy_queue := due; cy_running := []; cy_tally := {| ta_collected := 0; ta_unchanged := 0; ta_failed := 0 |}; cy_db := db; cy_kv := kv |}.

(** The set is topped up before one is waited for.  A task that panics is joined as a failure. *)
Inductive cycle_step : Cycle -> list Snap -> Cycle -> Prop :=
| spawns cy realm cadence queue :
    (length (cy_running cy) < width)%nat -> cy_queue cy = (realm, cadence) :: queue ->
    cycle_step cy [] {| cy_queue := queue; cy_running := cy_running cy ++ [{| po_realm := realm; po_cadence := cadence; po_phase := Starting |}];
                        cy_tally := cy_tally cy; cy_db := cy_db cy; cy_kv := cy_kv cy |}
| works cy before p after stored db kv p' :
    cy_running cy = before ++ p :: after -> task_step (cy_db cy, cy_kv cy, p) stored (db, kv, p') ->
    cycle_step cy stored {| cy_queue := cy_queue cy; cy_running := before ++ p' :: after; cy_tally := cy_tally cy; cy_db := db; cy_kv := kv |}
| panics cy before p after :
    cy_running cy = before ++ p :: after -> (forall o, po_phase p <> Ended o) ->
    cycle_step cy [] {| cy_queue := cy_queue cy; cy_running := before ++ at_phase p (Ended Realm.Failed) :: after; cy_tally := cy_tally cy;
                        cy_db := cy_db cy; cy_kv := cy_kv cy |}
| joins cy before p after outcome :
    cy_running cy = before ++ p :: after -> po_phase p = Ended outcome -> cy_queue cy = [] \/ (width <= length (cy_running cy))%nat ->
    cycle_step cy [] {| cy_queue := cy_queue cy; cy_running := before ++ after; cy_tally := tally outcome (cy_tally cy); cy_db := cy_db cy; cy_kv := cy_kv cy |}.

Definition some_step (cy cy' : Cycle) : Prop := exists stored, cycle_step cy stored cy'.

Definition finished (cy : Cycle) : Prop := cy_queue cy = [] /\ cy_running cy = [].

(** Whether the roll-ups are to be rebuilt. *)
Definition moved (cy : Cycle) : bool := bool_decide (0 < ta_collected (cy_tally cy)).
End Cycle.

(** ** Retention and the daily rows *)
Definition prune (market : MarketConfig) (now : Millis) (p : PriceTables) : PriceTables :=
  if decide (retain_ms market = 0) then p else (PriceStore.sql_prune_before (now - retain_ms market) p).2.

Definition prune_ladders (market : MarketConfig) (now : Millis) (p : PriceTables) (db : RealmTables) : PriceTables * RealmTables :=
  if decide (ladder_hot_ms market = 0) then (p, db)
  else let cutoff := now - ladder_hot_ms market in ((sql_prune_ladders_before cutoff p).2, (prune_ladders_before cutoff db).2).

(** The start of the day before, in the arithmetic of a word. *)
Definition yesterday (now : Millis) : Millis := wrap 64 (wrap 64 (now / 86400000 + (2 ^ 64 - 1)) * 86400000).

Definition build_daily_rows (now : Millis) (p : PriceTables) (daily : DailyTable) (db : RealmTables) : DailyTable * RealmTables :=
  ((Daily.build_daily_rollups (yesterday now) p daily).2, (RealmStore.build_daily_rollups (yesterday now) db).2).

(** ** When the archive is rebuilt *)
Definition rebuilds (published : StoreResult (option AnalysisVersion)) : bool :=
  match published with
  | Ok (Some version) => bool_decide (av_algorithm version < ALGORITHM_VERSION)
  | Ok None => true
  | Err _ => false
  end.

(** ** A cycle ends, and asks every due realm once *)
Definition rkey (r : Realm) : Region * RealmId := (r_region r, r_id r).

(** The realms that wait and those that are being asked. *)
Definition in_hand (cy : Cycle) : list Realm := (cy_queue cy).*1 ++ (po_realm <$> cy_running cy).
Definition total (t : Tally) : N := ta_collected t + ta_unchanged t + ta_failed t.

Definition weight (p : Poll) : nat :=
  match po_phase p with Starting => 5 | Asked _ => 4 | Answered _ => 3 | Saving _ _ => 2 | Ended _ => 1 end.
Definition work (cy : Cycle) : nat := 6 * length (cy_queue cy) + sum_list_with weight (cy_running cy).

Section CycleLaws.
Context (market : MarketConfig) (wanted : list ItemId) (width : nat).
Context (answers : Region -> RealmId -> list ItemId -> option Millis -> AppResult RealmSnapshot.t -> Prop) (reads_fail : Prop).
Abbreviation task_step_ := (task_step market wanted answers reads_fail).
Abbreviation cycle_step_ := (cycle_step market wanted width answers reads_fail).

Lemma task_step_weight x l y : task_step_ x l y -> po_realm y.2 = po_realm x.2 /\ (weight y.2 < weight x.2)%nat.
Proof. destruct 1 as [? ? ? ? H|? ? ? ? ? H|? ? ? ? H|? ? ? ? ? ? ? ? H|? ? ? ? ? ? H|? ? ? ? ? H|? ? ? ? ? ? H|? ? ? ? ? H]; unfold weight; cbn [snd at_phase po_phase po_realm]; rewrite H; split; (done || lia). Qed.

(** What a step does to the realms in hand, the tally and the work left. *)
Lemma cycle_step_bound cy l cy' :
  cycle_step_ cy l cy' ->
  (work cy' < work cy)%nat /\ ((length (cy_running cy) <= width)%nat -> (length (cy_running cy') <= width)%nat) /\
  total (cy_tally cy') + N.of_nat (length (in_hand cy')) = total (cy_tally cy) + N.of_nat (length (in_hand cy)) /\
  exists gone, in_hand cy ≡ₚ gone ++ in_hand cy'.
Proof.
  unfold work, in_hand. destruct 1 as [cy realm cadence queue Hw Hq|cy before p after stored db kv p' Hr Ht|cy before p after Hr Hp|cy before p after outcome Hr Hp Hj];
    cbn [cy_queue cy_running cy_tally].
  - rewrite Hq, fmap_app, sum_list_with_app, !length_app. cbn [fmap list_fmap length sum_list_with po_realm weight po_phase fst].
    split_and!; [lia|lia|lia|]. exists []. cbn [app]. solve_Permutation.
  - apply task_step_weight in Ht as [Hre Hwt]. cbn [snd] in Hre, Hwt. rewrite Hr, !fmap_app, !sum_list_with_app, !length_app. cbn [sum_list_with fmap list_fmap length].
    rewrite Hre. split_and!; [lia|lia|lia|]. by exists [].
  - assert (1 < weight p)%nat as Hwt by (unfold weight; destruct (po_phase p); try lia; by destruct (Hp outcome)).
    rewrite Hr, !fmap_app, !sum_list_with_app, !length_app. cbn [sum_list_with fmap list_fmap length at_phase po_realm].
    change (weight (at_phase p (Ended Realm.Failed))) with 1%nat. split_and!; [lia|lia|lia|]. by exists [].
  - assert (1 <= weight p)%nat as Hwt by (unfold weight; destruct (po_phase p); lia).
    rewrite Hr, !fmap_app, !sum_list_with_app, !length_app. cbn [sum_list_with fmap list_fmap length].
    split_and!; [lia|lia|unfold total; destruct outcome; cbn [tally ta_collected ta_unchanged ta_failed]; rewrite !length_fmap; lia|].
    exists [po_realm p]. solve_Permutation.
Qed.

Lemma cycle_progress cy :
  (1 <= width)%nat -> (forall region realm since, exists answer, answers region realm wanted since answer) ->
  finished cy \/ exists l cy', cycle_step_ cy l cy'.
Proof.
  intros Hw Hans. destruct (cy_running cy) as [|p rest] eqn:Hr.
  - destruct (cy_queue cy) as [|[realm cadence] queue] eqn:Hq; [by left|]. right. do 2 eexists. eapply spawns; [|exact Hq]. rewrite Hr. cbn. lia.
  - assert (forall l db kv p', task_step_ (cy_db cy, cy_kv cy, p) l (db, kv, p') -> exists l cy', cycle_step_ cy l cy') as Hgo.
    { intros l db kv p' Ht. do 2 eexists. eapply (works _ _ _ _ _ _ []); [exact Hr|exact Ht]. }
    destruct (po_phase p) as [|since|[[|g ls]|e]|c o|o] eqn:Hp; [right..|].
    + eapply Hgo. eapply looks; [done|by left].
    + destruct (Hans (r_region (po_realm p)) (r_id (po_realm p)) since) as [answer Ha]. eapply Hgo, hears; eassumption.
    + eapply Hgo, (unmodified _ _ _ _ _ _ _ 0); done.
    + eapply Hgo, (loses _ _ _ _ _ _ _ _ _ 0); done.
    + eapply Hgo, (refused _ _ _ _ _ _ _ _ 0); done.
    + eapply Hgo, unsaved; done.
    + destruct (cy_queue cy) as [|[realm cadence] queue] eqn:Hq.
      * right. do 2 eexists. eapply (joins _ _ _ _ _ _ []); [exact Hr|exact Hp|by left].
      * right. destruct (decide (length (cy_running cy) < width)%nat); do 2 eexists.
        -- eapply spawns; eassumption.
        -- eapply (joins _ _ _ _ _ _ []); [exact Hr|exact Hp|right; lia].
Qed.
End CycleLaws.

Section CycleRuns.
Context (market : MarketConfig) (wanted : list ItemId) (width : nat).
Context (answers : Region -> RealmId -> list ItemId -> option Millis -> AppResult RealmSnapshot.t -> Prop) (reads_fail : Prop).

Lemma cycle_runs n cy0 cy :
  nsteps (some_step market wanted width answers reads_fail) n cy0 cy -> (length (cy_running cy0) <= width)%nat ->
  (n + work cy <= work cy0)%nat /\ (length (cy_running cy) <= width)%nat /\
  total (cy_tally cy) + N.of_nat (length (in_hand cy)) = total (cy_tally cy0) + N.of_nat (length (in_hand cy0)) /\
  exists gone, in_hand cy0 ≡ₚ gone ++ in_hand cy.
Proof.
  induction 1 as [cy|n cy0 cy1 cy [l Hs] _ IH]; intros Hw; [split_and!; [lia|done|done|by exists []]|].
  destruct (cycle_step_bound _ _ _ _ _ _ _ _ Hs) as (H1 & H2 & H3 & gone & H4). destruct (IH (H2 Hw)) as (H5 & H6 & H7 & gone' & H8).
  split_and!; [lia|done|lia|]. exists (gone ++ gone'). by rewrite H4, H8, app_assoc.
Qed.
End CycleRuns.

(** C18: Under every interleaving of a cycle's tasks with the loop that starts and joins
    them, whatever the upstream answers, whichever writes fail and whichever tasks panic:
    no more than the cluster's width are asked at a time, no realm is asked twice, every
    due realm is waiting, being asked or counted, and within six steps for each of them
    the cycle is over with all of them counted; until then it can go on. *)
Theorem cycle_sound market wanted nodes answers reads_fail due db kv n cy :
  let width := fan_out nodes in
  (forall region realm since, exists answer, answers region realm wanted since answer) -> NoDup (rkey <$> due.*1) ->
  nsteps (some_step market wanted width answers reads_fail) n (start due db kv) cy ->
  (length (cy_running cy) <= width <= 16)%nat /\ NoDup (rkey <$> in_hand cy) /\ in_hand cy ⊆ due.*1 /\
  total (cy_tally cy) + N.of_nat (length (in_hand cy)) = N.of_nat (length due) /\ (n <= 6 * length due)%nat /\
  (finished cy /\ total (cy_tally cy) = N.of_nat (length due) \/ exists cy', some_step market wanted width answers reads_fail cy cy').
Proof.
  intros width Hans Hnd Hs. assert (1 <= width <= 16)%nat as Hw by (unfold width, fan_out, CAP; lia).
  destruct (cycle_runs _ _ _ _ _ _ _ _ Hs ltac:(cbn; lia)) as (H1 & H2 & H3 & gone & H4).
  assert (in_hand (start due db kv) = due.*1) as Hd by apply app_nil_r. rewrite Hd in H3, H4. rewrite length_fmap in H3.
  change (work (start due db kv)) with (6 * length due + 0)%nat in H1. change (total (cy_tally (start due db kv))) with 0 in H3.
  split_and!; [done|lia| | |lia|lia|].
  - rewrite H4, fmap_app in Hnd. by apply NoDup_app in Hnd as (_ & _ & Hnd).
  - rewrite H4. intros x Hx. apply elem_of_app. by right.
  - destruct (cycle_progress market wanted width answers reads_fail cy ltac:(lia) Hans) as [Hf|(l & cy' & Hc)]; [left|right; by exists cy', l].
    split; [done|]. destruct Hf as [Hq Hr]. unfold in_hand in H3. rewrite Hq, Hr in H3. cbn [fmap list_fmap app length] in H3. lia.
Qed.

Definition demo_realm (n : N) : Realm := {| r_id := n; r_region := Eu; r_name := "Draenor"; r_members := []; r_locale := "en_GB"; r_enabled := true |}.
Definition demo_due : list (Realm * RealmCadence) := (fun n => (demo_realm n, RealmCadence_new 0 60000)) <$> [3; 4].
Definition demo_unmodified (region : Region) (realm : RealmId) (wanted : list ItemId) (since : option Millis) (answer : AppResult RealmSnapshot.t) : Prop :=
  answer = Ok RealmSnapshot.NotModified.

(** One realm of two has been asked and counted; six steps of the twelve. *)
Lemma cycle_sound_witness :
  exists cy, nsteps (some_step MarketConfig_default [7] (fan_out 0) demo_unmodified False) 6 (start demo_due RealmTables_empty ∅) cy /\
  total (cy_tally cy) = 1 /\ po_realm <$> cy_running cy = [] /\ (cy_queue cy).*1 = [demo_realm 4] /\
  exists cy', some_step MarketConfig_default [7] (fan_out 0) demo_unmodified False cy cy'.
Proof.
  set (p := {| po_realm := demo_realm 3; po_cadence := RealmCadence_new 0 60000; po_phase := Starting |}).
  set (mk := fun ps t => {| cy_queue := [(demo_realm 4, RealmCadence_new 0 60000)]; cy_running := ps; cy_tally := t; cy_db := RealmTables_empty; cy_kv := ∅ |}).
  set (zero := {| ta_collected := 0; ta_unchanged := 0; ta_failed := 0 |}).
  set (c := after_unchanged (RealmCadence_new 0 60000) 5 (realm_min_interval_ms MarketConfig_default) (realm_max_interval_ms MarketConfig_default)).
  assert (nsteps (some_step MarketConfig_default [7] (fan_out 0) demo_unmodified False) 6 (start demo_due RealmTables_empty ∅) (mk [] (tally Realm.Unchanged zero))) as Hrun.
  { eapply (nsteps_l _ _ _ (mk [p] zero)); [exists []; apply (spawns _ _ _ _ _ (start demo_due RealmTables_empty ∅)); [vm_compute; lia|reflexivity]|].
    eapply (nsteps_l _ _ _ (mk [at_phase p (Asked None)] zero)); [exists []; apply (works _ _ _ _ _ (mk [p] zero) [] p []); [reflexivity|apply (looks _ _ _ _ _ _ _ (Ok None)); [reflexivity|left; reflexivity]]|].
    eapply (nsteps_l _ _ _ (mk [at_phase p (Answered (Ok RealmSnapshot.NotModified))] zero));
      [exists []; apply (works _ _ _ _ _ (mk [at_phase p (Asked None)] zero) [] (at_phase p (Asked None)) []); [reflexivity|apply (hears _ _ _ _ _ _ (at_phase p (Asked None)) None); reflexivity]|].
    eapply (nsteps_l _ _ _ (mk [at_phase p (Saving c Realm.Unchanged)] zero));
      [exists []; eapply (works _ _ _ _ _ (mk [at_phase p (Answered (Ok RealmSnapshot.NotModified))] zero) [] _ []); [reflexivity|apply (unmodified _ _ _ _ _ _ (at_phase p (Answered _))); reflexivity]|].
    eapply (nsteps_l _ _ _ (mk [at_phase p (Ended Realm.Unchanged)] zero));
      [exists []; eapply (works _ _ _ _ _ (mk [at_phase p (Saving c Realm.Unchanged)] zero) [] _ []); [reflexivity|apply (unsaved _ _ _ _ _ _ (at_phase p (Saving c Realm.Unchanged)) c); reflexivity]|].
    eapply nsteps_l; [|apply nsteps_O]. exists []. eapply (joins _ _ _ _ _ (mk [at_phase p (Ended Realm.Unchanged)] zero) [] _ []); [reflexivity|reflexivity|right; vm_compute; lia]. }
  eexists. split; [exact Hrun|].
  destruct (cycle_sound MarketConfig_default [7] 0 demo_unmodified False demo_due RealmTables_empty ∅ 6 _ (fun _ _ _ => ex_intro _ _ eq_refl)
    ltac:(by apply (bool_decide_unpack _); vm_compute) Hrun) as (_ & _ & _ & H4 & _ & H6).
  split; [cbn in H4 |- *; lia|]. split; [reflexivity|]. split; [reflexivity|].
  destruct H6 as [[[Hq _] _]|H6]; [exfalso; cbn in Hq; congruence|exact H6].
Defined.

(** ** The tracker: cycles one after the other, and what happens around them *)
Record Tracker := { tk_wanted : list ItemId; tk_width : nat; tk_cycle : Cycle }.
Abbreviation tk_db t := (cy_db (tk_cycle t)).
Abbreviation tk_kv t := (cy_kv (tk_cycle t)).

Definition with_cycle (t : Tracker) (cy : Cycle) : Tracker := {| tk_wanted := tk_wanted t; tk_width := tk_width t; tk_cycle := cy |}.
Definition with_db (t : Tracker) (db : RealmTables) : Tracker :=
  with_cycle t {| cy_queue := cy_queue (tk_cycle t); cy_running := cy_running (tk_cycle t); cy_tally := cy_tally (tk_cycle t); cy_db := db; cy_kv := tk_kv t |}.

Definition idle : Tracker := {| tk_wanted := []; tk_width := 1; tk_cycle := start [] RealmTables_empty ∅ |}.

Section Tracker.
Context `{JM : Json (list string)} (market : MarketConfig).
Context (answers : Region -> RealmId -> list ItemId -> option Millis -> AppResult RealmSnapshot.t -> Prop).

(** The loop of [run_market] for realms: naming them, a cycle when the ticker fires, the
    daily rows and the pruning between cycles.  An administrator switches realms at any
    time. *)
Inductive tracker_step : Tracker -> list Snap -> Tracker -> Prop :=
| learns t listed :
    finished (tk_cycle t) -> (forall region wanted rs r, listed region wanted = Ok rs -> r ∈ rs -> r_id r <= u32_max) ->
    tracker_step t [] (with_db t (name_realms true market listed (tk_db t)))
| begins t catalog settings now nodes wanted due :
    finished (tk_cycle t) -> plan true catalog settings market now (tk_db t) (tk_kv t) = Some (wanted, due) ->
    tracker_step t [] {| tk_wanted := wanted; tk_width := fan_out nodes; tk_cycle := start due (tk_db t) (tk_kv t) |}
| goes_on t stored cy :
    cycle_step market (tk_wanted t) (tk_width t) answers False (tk_cycle t) stored cy -> tracker_step t stored (with_cycle t cy)
| switches t region realm enabled :
    tracker_step t [] (with_db t (set_realm_enabled region realm enabled (tk_db t)).2)
| sums t now p daily :
    finished (tk_cycle t) -> tracker_step t [] (with_db t (build_daily_rows now p daily (tk_db t)).2)
| tidies t now p :
    finished (tk_cycle t) -> tracker_step t [] (with_db t (prune_ladders market now p (tk_db t)).2).

(** What has been stored on the way, oldest first. *)
Inductive tracks (t : Tracker) : list Snap -> Tracker -> Prop :=
| tracks_refl : tracks t [] t
| tracks_step stored t' more t'' : tracks t stored t' -> tracker_step t' more t'' -> tracks t (stored ++ more) t''.
End Tracker.

(** The contract of a conditional request: a fresh snapshot is newer than the one asked
    about, of an instant that is one, and of a size the payload's bound allows. *)
Definition upstream_ok (answers : Region -> RealmId -> list ItemId -> option Millis -> AppResult RealmSnapshot.t -> Prop) : Prop :=
  forall region realm wanted since at_ listings, answers region realm wanted since (Ok (RealmSnapshot.Fresh at_ listings)) ->
    (forall t, since = Some t -> t < at_) /\ 0 < at_ < 2 ^ 63 /\ Forall listing_ok listings /\ N.of_nat (length listings) < 2 ^ 32.

(** ** The directory *)
Definition dir_ok (db : RealmTables) : Prop :=
  forall k row, rt_realms db !! k = Some row -> exists n region, k = (as_i64 n, Region_as_str region) /\ n <= u32_max.

Section DirectoryLaws.
Context `{JM : Json (list string)}.

Lemma dir_ok_record realm db : r_id realm <= u32_max -> dir_ok db -> dir_ok (record_realm realm db).2.
Proof.
  intros Hr Hd k row. cbn [record_realm snd with_realms rt_realms]. intros [[<- _]|[_ Hk]]%lookup_insert_Some; [by eexists _, _|by eapply Hd].
Qed.

Lemma dir_ok_switch region realm enabled db : dir_ok db -> dir_ok (set_realm_enabled region realm enabled db).2.
Proof.
  intros Hd k row. cbn [set_realm_enabled snd with_realms rt_realms]. rewrite lookup_alter_Some. intros [(_ & row' & Hk & _)|[_ Hk]]; by eapply Hd.
Qed.

Lemma dir_ok_named market listed db :
  (forall region wanted rs r, listed region wanted = Ok rs -> r ∈ rs -> r_id r <= u32_max) -> dir_ok db -> dir_ok (name_realms true market listed db).
Proof.
  intros Hl. unfold name_realms. generalize (regions market). intros rs. revert db. induction rs as [|region rs IH]; intros db Hd; [done|]. cbn [foldl]. apply IH.
  unfold name_region. case_decide; [done|]. destruct (listed region (wanted_realms market region)) as [found|] eqn:Hf; [|done].
  pose proof (fun r => Hl _ _ _ r Hf) as Hs. clear Hf. revert db Hd. induction found as [|r found IHf]; intros db Hd; [done|]. cbn [foldl].
  apply IHf; [intros r' Hr'; apply Hs; by right|]. apply dir_ok_record; [apply Hs; by left|done].
Qed.

(** The directory gives each realm once. *)
Lemma realms_once db rs : dir_ok db -> RealmStore.realms db = Ok rs -> NoDup (rkey <$> rs) /\ Forall (fun r => r_id r <= u32_max) rs.
Proof.
  intros Hd Hrs. unfold RealmStore.realms in Hrs. apply collect_results_Ok in Hrs. revert Hrs.
  match goal with |- Forall2 _ (sort_by ?c ?l) _ -> _ => pose proof (sort_by_perm c l) as Hperm; set (rows := sort_by c l) in * end.
  intros Hrs. assert (NoDup rows.*1) as Hnd by (rewrite Hperm; apply NoDup_fst_map_to_list).
  assert (forall kv, kv ∈ rows -> exists n region, kv.1 = (as_i64 n, Region_as_str region) /\ n <= u32_max) as Hrow.
  { intros [k row] Hin. rewrite Hperm in Hin. apply elem_of_map_to_list in Hin. by eapply Hd. }
  assert (Forall2 (fun kv r => kv.1 = (as_i64 (r_id r), Region_as_str (r_region r)) /\ r_id r <= u32_max) rows rs) as Hkeys.
  { clear Hnd Hperm. induction Hrs as [|kv r rows' rs' Hkr _ IH]; constructor; [|apply IH; intros x Hx; apply Hrow; by right].
    destruct (Hrow kv ltac:(by left)) as (n & region & Hk & Hn). unfold realm_from_row in Hkr. rewrite Hk in Hkr. cbn [fst snd] in Hkr.
    rewrite Region_parse_as_str in Hkr. cbn [ok_or] in Hkr. injection Hkr as <-. cbn [r_id r_region]. by rewrite as_u32_i64. }
  clear Hperm Hrs Hrow. split.
  - assert (rows.*1 = (fun k : Region * RealmId => (as_i64 k.2, Region_as_str k.1)) <$> (rkey <$> rs)) as He.
    { clear Hnd. induction Hkeys as [|kv r ? ? [Hk _] _ IH]; [done|]. by rewrite !fmap_cons, Hk, IH. }
    rewrite He in Hnd. by eapply NoDup_fmap_1.
  - clear Hnd. by induction Hkeys as [|? ? ? ? [_ ?] _ IH]; constructor.
Qed.
End DirectoryLaws.

Lemma planned `{JM : Json (list string)} market catalog settings now db kv wanted due :
  dir_ok db -> plan true catalog settings market now db kv = Some (wanted, due) -> NoDup (rkey <$> due.*1) /\ Forall (fun r => r_id r <= u32_max) due.*1.
Proof.
  intros Hd. unfold plan. destruct catalog as [c|]; [|done]. cbn [negb mbind option_bind].
  destruct (wanted_items c (disabled_kinds settings)) as [|i l]; [done|]. destruct (RealmStore.realms db) as [rs|] eqn:Hrs; [|done].
  destruct (realms_once db rs Hd Hrs) as [Hnd Hall]. set (read := fun r : Realm => _). intros Hp.
  assert (due = due_realms read rs now market) as -> by (destruct (due_realms read rs now market); congruence). clear Hp.
  unfold due_realms. clear Hrs. induction rs as [|r rs IH]; [split; constructor|]. rewrite fmap_cons in Hnd. apply NoDup_cons in Hnd as [Hni Hnd]. apply Forall_cons in Hall as [Hr Hall].
  destruct (IH Hnd Hall) as [IH1 IH2]. rewrite filter_cons. case_decide; [|done]. cbn [omap list_omap]. destruct (is_due _ now); [|done].
  cbn [fmap list_fmap fst]. split; [|by constructor]. apply NoDup_cons. split; [|done]. intros Hin. apply Hni. revert Hin. clear.
  rewrite !list_elem_of_fmap. intros (x & Hx & ([r' c'] & -> & Hin)%list_elem_of_fmap). exists r'. split; [done|].
  apply list_elem_of_omap in Hin as (y & Hy & He). apply list_elem_of_filter in Hy as [_ Hy]. destruct (is_due _ now); [|done]. by injection He as -> _.
Qed.

(** ** What a cycle knows of the store *)
Lemma store_ok_same polls db db' :
  rt_ledger db' = rt_ledger db -> rt_variants db' = rt_variants db -> rt_samples db' = rt_samples db -> rt_ladders db' = rt_ladders db ->
  store_ok polls db -> store_ok polls db'.
Proof. intros H1 H2 H3 H4 [S1 S2 S3 S4 S5 S6 S7 S8]. constructor; rewrite ?H1, ?H2, ?H3, ?H4; assumption. Qed.

(** The newest snapshot of a realm bounds all of them. *)
Lemma last_observed_bounds polls db s :
  store_ok polls db -> (forall x, x ∈ polls -> snap_ok x) -> s ∈ polls -> 0 < sn_at s ->
  exists t, RealmStore.last_observed (sn_region s) (sn_realm s) db = Ok (Some t) /\ sn_at s <= t.
Proof.
  intros Hok Hsn Hs Hpos. unfold RealmStore.last_observed. set (seen := fmap _ (filter _ _)).
  assert (as_i64 (sn_at s) ∈ RealmStore.polls (sn_region s) (Some (sn_realm s)) db) as Hin.
  { apply list_elem_of_fmap. exists (Region_as_str (sn_region s), as_i64 (sn_realm s), as_i64 (sn_at s)). split; [done|]. apply list_elem_of_filter.
    split; [split; [done|by apply bool_decide_eq_true_2]|]. apply elem_of_elements, (st_ledger _ _ Hok). by exists s. }
  assert (forall z, z ∈ RealmStore.polls (sn_region s) (Some (sn_realm s)) db ++ seen -> exists x, x ∈ polls /\ z = as_i64 (sn_at x)) as Hall.
  { intros z [Hz|Hz]%elem_of_app.
    - apply list_elem_of_fmap in Hz as (q & -> & [_ Hq]%list_elem_of_filter). apply elem_of_elements, (st_ledger _ _ Hok) in Hq as (x & Hx & ->). by exists x.
    - apply list_elem_of_fmap in Hz as ([[m u] b] & -> & [_ Hb]%list_elem_of_filter). apply elem_of_map_to_list in Hb.
      destruct (proj1 (st_ledger _ _ Hok _) (st_rows _ _ Hok m u (mk_is_Some _ _ Hb))) as (x & Hx & [= _ _ Hu]). exists x. by split. }
  set (l := RealmStore.polls _ _ _ ++ seen) in *. assert (as_i64 (sn_at s) ∈ l) as Hl by (apply elem_of_app; by left).
  destruct (maxZ l) as [m|] eqn:Hm; [|destruct l; [by apply not_elem_of_nil in Hl|done]]. apply maxZ_spec in Hm as [Hml Hmax].
  destruct (Hall m Hml) as (x & Hx & ->). specialize (Hmax _ Hl). pose proof (so_at _ (Hsn s Hs)) as Has. pose proof (so_at _ (Hsn x Hx)) as Hax.
  cbn [default from_option id]. rewrite as_u64_i64 by lia. apply (as_i64_order _ _ Has Hax) in Hmax. rewrite decide_True by lia. by exists (sn_at x).
Qed.

Definition of_realm (r : Realm) (s : Snap) : Prop := sn_region s = r_region r /\ sn_realm s = r_id r.

Section Knows.
Context (answers : Region -> RealmId -> list ItemId -> option Millis -> AppResult RealmSnapshot.t -> Prop).

(** A stored snapshot is an answer of the upstream. *)
Definition heard (s : Snap) : Prop :=
  exists wanted since listings, answers (sn_region s) (sn_realm s) wanted since (Ok (RealmSnapshot.Fresh (sn_at s) listings)) /\
    s = snap_of listings (sn_region s) (sn_realm s) (sn_at s).

(** A task's question is about all that is stored of its realm, and its answer is newer. *)
Definition phase_ok (stored : list Snap) (p : Poll) : Prop :=
  match po_phase p with
  | Asked since => forall s, s ∈ stored -> of_realm (po_realm p) s -> exists t, since = Some t /\ sn_at s <= t
  | Answered (Ok (RealmSnapshot.Fresh at_ listings)) =>
      (exists wanted since, answers (r_region (po_realm p)) (r_id (po_realm p)) wanted since (Ok (RealmSnapshot.Fresh at_ listings))) /\
      forall s, s ∈ stored -> of_realm (po_realm p) s -> sn_at s < at_
  | _ => True
  end.

Record known (stored : list Snap) (db : RealmTables) : Prop := {
  kn_store : store_ok stored db;
  kn_snaps : forall s, s ∈ stored -> snap_ok s /\ 0 < sn_at s /\ heard s;
  kn_forward : forward stored;
  kn_dir : dir_ok db }.

Record cycle_ok (stored : list Snap) (cy : Cycle) : Prop := {
  ck_known : known stored (cy_db cy);
  ck_once : NoDup (rkey <$> in_hand cy);
  ck_ids : Forall (fun r => r_id r <= u32_max) (in_hand cy);
  ck_tasks : Forall (phase_ok stored) (cy_running cy) }.

Lemma forward_app polls s : forward polls -> (forall x, x ∈ polls -> sn_region x = sn_region s -> sn_realm x = sn_realm s -> sn_at x < sn_at s) -> forward (polls ++ [s]).
Proof.
  intros Hf Hs earlier y later x He Hx. destruct later as [|z later _] using rev_ind.
  - apply app_inj_tail in He as [-> ->]. by apply Hs.
  - rewrite app_comm_cons, app_assoc in He. apply app_inj_tail in He as [-> _]. by apply (Hf earlier y later).
Qed.

Lemma phase_ok_other stored s p : phase_ok stored p -> ~ of_realm (po_realm p) s -> phase_ok (stored ++ [s]) p.
Proof.
  unfold phase_ok. intros Hp Hn. destruct (po_phase p) as [|since|[[|g ls]|e]|c o|o]; try done.
  - intros x [Hx| ->%list_elem_of_singleton]%elem_of_app Hr; [by apply Hp|done].
  - destruct Hp as [Ha Hp]. split; [done|]. intros x [Hx| ->%list_elem_of_singleton]%elem_of_app Hr; [by apply Hp|done].
Qed.

Context (Hup : upstream_ok answers) (market : MarketConfig) (wanted : list ItemId).

(** A snapshot is stored: it is newer than what there is of its realm. *)
Lemma known_stored stored db p at_ listings :
  known stored db -> phase_ok stored p -> r_id (po_realm p) <= u32_max -> po_phase p = Answered (Ok (RealmSnapshot.Fresh at_ listings)) ->
  known (stored ++ [snap_of listings (r_region (po_realm p)) (r_id (po_realm p)) at_]) (store_fresh (po_realm p) at_ listings db).2.
Proof.
  intros [Hst Hsn Hf Hd] Hp Hid He. unfold phase_ok in Hp. rewrite He in Hp. destruct Hp as [(w & since & Ha) Hlt]. destruct (Hup _ _ _ _ _ _ Ha) as (_ & Hat & Hls & Hlen).
  set (s := snap_of _ _ _ _). assert (snap_ok s) as Hs by (apply snap_of_ok; [lia|done|done|done]).
  assert (forall x, x ∈ stored -> sn_region x = sn_region s -> sn_realm x = sn_realm s -> sn_at x < sn_at s) as Hnew by (intros x Hx H1 H2; by apply Hlt).
  assert ((store_fresh (po_realm p) at_ listings db).2 = (RealmStore.record_snapshot (sn_samples s) (sn_region s) (sn_realm s) (sn_at s) (sn_ladders s) db).2) as ->.
  { unfold store_fresh, s. cbn [snap_of sn_samples sn_region sn_realm sn_at sn_ladders]. by destruct (summarise_realm _ _ _ _). }
  constructor.
  - apply store_ok_poll; [done|intros x Hx; by apply Hsn|done|done].
  - intros x [Hx| ->%list_elem_of_singleton]%elem_of_app; [by apply Hsn|]. split_and!; [done|cbn; lia|]. by exists w, since, listings.
  - by apply forward_app.
  - rewrite record_snapshot_tables. exact Hd.
Qed.

Lemma task_step_ok stored db kv p more db' kv' p' :
  known stored db -> phase_ok stored p -> r_id (po_realm p) <= u32_max ->
  task_step market wanted answers False (db, kv, p) more (db', kv', p') ->
  known (stored ++ more) db' /\ phase_ok (stored ++ more) p' /\ (more = [] \/ exists s, more = [s] /\ of_realm (po_realm p) s).
Proof.
  intros Hk Hp Hid Hs. inversion Hs as [? ? ? r Hph Hr|? ? ? since answer Hph Ha|? ? ? ? Hph|? ? ? ? at_ listings counts ? Hph Hst|? ? ? ? ? ? Hph|? ? ? ? ? Hph|? ? ? ? ? ? Hph|? ? ? ? ? Hph];
    subst; rewrite ?app_nil_r; try (split_and!; [assumption|exact I|by left]).
  - split_and!; [done| |by left]. destruct Hr as [->|[[] _]]. intros s Hin [Hr Hl]. cbn [at_phase po_realm] in Hr, Hl. rewrite <- Hr, <- Hl.
    destruct (last_observed_bounds stored db' s (kn_store _ _ Hk)) as (t & -> & Ht); [intros x Hx; by apply (kn_snaps _ _ Hk)|done|by apply (kn_snaps _ _ Hk)|].
    by exists t.
  - split_and!; [done| |by left]. unfold phase_ok in Hp |- *. rewrite Hph in Hp. cbn [at_phase po_phase po_realm]. destruct answer as [[|at_ listings]|e]; [done| |done].
    split; [by exists wanted, since|]. intros s Hin Hof. destruct (Hp s Hin Hof) as (t & -> & Ht). destruct (Hup _ _ _ _ _ _ Ha) as [Hlt _]. specialize (Hlt t eq_refl). lia.
  - split_and!; [|exact I|right; by eexists]. replace db' with (store_fresh (po_realm p) at_ listings db).2 by by rewrite Hst. by apply known_stored.
Qed.

Lemma cycle_step_ok width stored cy more cy' :
  cycle_ok stored cy -> cycle_step market wanted width answers False cy more cy' -> cycle_ok (stored ++ more) cy'.
Proof.
  intros [Hk Ho Hi Ht] Hs. destruct (cycle_step_bound _ _ _ _ _ _ _ _ Hs) as (_ & _ & _ & gone & Hperm).
  assert (NoDup (rkey <$> in_hand cy')) as Ho' by (rewrite Hperm, fmap_app in Ho; by apply NoDup_app in Ho as (_ & _ & Ho)).
  assert (Forall (fun r => r_id r <= u32_max) (in_hand cy')) as Hi' by (rewrite Hperm in Hi; by apply Forall_app in Hi as [_ Hi]).
  destruct Hs as [cy realm cadence queue Hw Hq|cy before p after more db kv p' Hr Hs|cy before p after Hr Hp|cy before p after outcome Hr Hp Hj]; rewrite ?app_nil_r;
    [|rewrite Hr in Ht; apply Forall_app in Ht as [Hb [Hp' Ha]%Forall_cons]..].
  - constructor; [done..|]. cbn [cy_running]. apply Forall_app. split; [done|]. by repeat constructor.
  - assert (r_id (po_realm p) <= u32_max /\ forall q, q ∈ before ++ after -> rkey (po_realm q) <> rkey (po_realm p)) as [Hid Hne].
    { assert (in_hand cy ≡ₚ po_realm p :: (cy_queue cy).*1 ++ (po_realm <$> before ++ after)) as Hin
        by (unfold in_hand; rewrite Hr, !fmap_app, fmap_cons; solve_Permutation).
      rewrite Hin in Ho, Hi. split; [by apply Forall_cons in Hi as [Hi _]|]. rewrite fmap_cons, fmap_app in Ho. apply NoDup_cons in Ho as [Hni _].
      intros q Hq He. apply Hni. rewrite <- He. apply elem_of_app. right. by apply list_elem_of_fmap_2, list_elem_of_fmap_2. }
    destruct (task_step_ok stored (cy_db cy) (cy_kv cy) p more db kv p' Hk Hp' Hid Hs) as (Hk' & Hp2 & Hm). constructor; [done..|]. cbn [cy_running].
    assert (forall q, q ∈ before ++ after -> phase_ok stored q -> phase_ok (stored ++ more) q) as Hkeep.
    { intros q Hq Hok. destruct Hm as [->|(s & -> & Hof)]; [by rewrite app_nil_r|]. apply phase_ok_other; [done|]. intros [H1 H2]. apply (Hne q Hq).
      destruct Hof as [H3 H4]. unfold rkey. congruence. }
    apply Forall_app. split; [|constructor; [done|]]; apply Forall_forall; intros q Hq; (apply Hkeep; [rewrite elem_of_app; tauto|]).
    + exact (proj1 (Forall_forall _ _) Hb q Hq).
    + exact (proj1 (Forall_forall _ _) Ha q Hq).
  - constructor; [done..|]. cbn [cy_running]. apply Forall_app. split; [done|]. by constructor.
  - constructor; [done..|]. cbn [cy_running]. apply Forall_app. by split.
Qed.
End Knows.

(** ** The tracker keeps what it knows *)
(** All but the directory and the daily rows. *)
Definition same_prices (db db' : RealmTables) : Prop :=
  rt_ledger db' = rt_ledger db /\ rt_variants db' = rt_variants db /\ rt_samples db' = rt_samples db /\ rt_ladders db' = rt_ladders db.

Lemma same_prices_named `{JM : Json (list string)} market listed db : same_prices db (name_realms true market listed db).
Proof.
  unfold name_realms. generalize (regions market). intros rs. assert (forall db db', same_prices db db' -> same_prices db (foldl (name_region market listed) db' rs)) as H.
  { induction rs as [|region rs IH]; intros db0 db' Hs; [done|]. cbn [foldl]. apply IH. unfold name_region. case_decide; [done|].
    destruct (listed region (wanted_realms market region)) as [found|]; [|done]. clear -Hs. revert db' Hs. induction found as [|r found IHf]; intros db' Hs; [done|].
    cbn [foldl]. by apply IHf. }
  by apply H.
Qed.

Section Tracking.
Context `{JM : Json (list string)} (market : MarketConfig).
Context (answers : Region -> RealmId -> list ItemId -> option Millis -> AppResult RealmSnapshot.t -> Prop) (Hup : upstream_ok answers).

Lemma cycle_ok_with_db stored t db :
  cycle_ok answers stored (tk_cycle t) -> store_ok stored db -> dir_ok db -> cycle_ok answers stored (tk_cycle (with_db t db)).
Proof. intros [[H1 H2 H3 H4] H5 H6 H7] Hs Hd. by constructor. Qed.

Lemma tracker_step_ok stored t more t' :
  cycle_ok answers stored (tk_cycle t) -> tracker_step market answers t more t' -> cycle_ok answers (stored ++ more) (tk_cycle t').
Proof.
  intros Hok Hs. pose proof (kn_store _ _ _ (ck_known _ _ _ Hok)) as Hst. pose proof (kn_dir _ _ _ (ck_known _ _ _ Hok)) as Hd.
  destruct Hs as [t listed Hf Hl|t catalog settings now nodes wanted due Hf Hp|t more cy Hs|t region realm enabled|t now p daily Hf|t now p Hf]; rewrite ?app_nil_r.
  - apply cycle_ok_with_db; [done| |by apply dir_ok_named]. destruct (same_prices_named market listed (tk_db t)) as (H1 & H2 & H3 & H4). by apply (store_ok_same stored (tk_db t)).
  - destruct (planned _ _ _ _ _ _ _ _ Hd Hp) as [Hnd Hids]. assert (in_hand (start due (tk_db t) (tk_kv t)) = due.*1) as Hin by apply app_nil_r.
    constructor; cbn [tk_cycle]; [exact (ck_known _ _ _ Hok)|by rewrite Hin|by rewrite Hin|constructor].
  - by eapply cycle_step_ok.
  - apply cycle_ok_with_db; [done| |by apply dir_ok_switch]. by apply (store_ok_same stored (tk_db t)).
  - apply cycle_ok_with_db; [done| |exact Hd]. by apply (store_ok_same stored (tk_db t)).
  - unfold prune_ladders. case_decide; apply cycle_ok_with_db; try done. by apply store_ok_prune.
Qed.

Lemma idle_ok : cycle_ok answers [] (tk_cycle idle).
Proof.
  constructor; [|constructor|constructor|constructor]. constructor; [apply store_ok_empty| | |].
  - intros s Hs. by apply not_elem_of_nil in Hs.
  - intros earlier s later x He. by destruct earlier.
  - intros k row. cbn. by rewrite lookup_empty.
Qed.

Lemma tracks_ok stored t : tracks market answers idle stored t -> cycle_ok answers stored (tk_cycle t).
Proof. induction 1 as [|stored t' more t'' _ IH Hs]; [apply idle_ok|by eapply tracker_step_ok]. Qed.
End Tracking.

(** C17: However often cycles run, with as many realms asked at once as the cluster is wide,
    answers that arrive in any order, writes that fail and tasks that panic, with realms
    learnt and switched on and off meanwhile, days summed and ladders pruned: each stored
    snapshot is one the upstream gave for its realm, a realm's are in the order of time,
    and what the pages read of an item on a realm or of a region since an instant is the
    samples of exactly those snapshots, at any moment of a cycle too. *)
Theorem collector_faithful `{JM : Json (list string)} market answers stored t since :
  upstream_ok answers -> tracks market answers idle stored t -> since < 2 ^ 63 ->
  forward stored /\ (forall s, s ∈ stored -> heard answers s) /\
  (forall region, exists l, window_in_region region since (tk_db t) = Ok l /\ NoDup l /\
     forall x, x ∈ l <-> exists s, s ∈ stored /\ sn_region s = region /\ since <= sn_at s /\ x ∈ sn_samples s) /\
  (forall item region realm, item <= u32_max -> realm <= u32_max ->
     exists l, RealmStore.history item region realm since (tk_db t) = Ok l /\ NoDup l /\ StronglySorted (fun x y => rs_observed_at x <= rs_observed_at y) l /\
     forall x, x ∈ l <-> exists s, s ∈ stored /\ sn_region s = region /\ sn_realm s = realm /\ since <= sn_at s /\ x ∈ sn_samples s /\ rs_item x = item).
Proof.
  intros Hup Ht Hsince. destruct (tracks_ok market answers Hup stored t Ht) as [[Hst Hsn Hf _] _ _ _].
  destruct (histories_exact stored (tk_db t) since (fun s Hs => proj1 (Hsn s Hs)) Hst Hsince) as (H1 & _ & H3).
  split_and!; [done|intros s Hs; apply (Hsn s Hs)| |exact H3]. intros region. destruct (H1 region) as (l & Hl & Hnd & _ & Hx). by exists l.
Qed.

(** A realm is learnt, asked, and its two listings stored. *)
Definition demo_members : Json (list string) := listed_json (fun s => s) (fun s => s).
Definition demo_directory (region : Region) (wanted : list RealmId) : AppResult (list Realm) := Ok [demo_realm 3].
Definition demo_boe : Catalog :=
  {| c_id := "demo"; c_expansion := "Demo"; c_status := CatalogStatus.Active; c_version := 1; c_patches := []; c_raid_tiers := [];
     c_items := [{| ci_name := "Cloak"; ci_category := Category.Flask; ci_kind := ItemKind.Boe; ci_profession := None; ci_slot := None;
                    ci_audience := Audience.Common; ci_stat := default_stat; ci_ranks := [{| ir_rank := 1; ir_item_id := 7 |}];
                    ci_floor_copper := None; ci_icon := None; ci_target_quantity := None |}];
     c_item_levels := ∅; c_tracks := ∅; c_modifiers := ∅; c_notes := [] |}.
Definition demo_answers (region : Region) (realm : RealmId) (wanted : list ItemId) (since : option Millis) (answer : AppResult RealmSnapshot.t) : Prop :=
  since = None /\ answer = Ok (RealmSnapshot.Fresh 1000 demo_gear).

Definition counted (r : StoreResult (N * N) * RealmTables) : option (N * N) := match r.1 with Ok counts => Some counts | Err _ => None end.

Lemma store_fresh_counts realm at_ listings db :
  store_fresh realm at_ listings db = (Ok (default (0, 0) (counted (store_fresh realm at_ listings db))), (store_fresh realm at_ listings db).2).
Proof.
  unfold store_fresh. destruct (summarise_realm _ _ _ _) as [samples ladders]. unfold RealmStore.record_snapshot.
  by match goal with |- context[foldl ?f ?a (map_to_list ?m)] => destruct (foldl f a (map_to_list m)) end.
Qed.

Lemma demo_tracked :
  exists t, tracks (JM := demo_members) MarketConfig_default demo_answers idle [snap_of demo_gear Eu 3 1000] t.
Proof.
  set (market := MarketConfig_default). set (due := [(demo_realm 3, RealmCadence_new 5000 60000)]).
  set (db := name_realms (JM := demo_members) true market demo_directory RealmTables_empty).
  set (p := {| po_realm := demo_realm 3; po_cadence := RealmCadence_new 5000 60000; po_phase := Starting |}).
  set (mk := fun q d => {| tk_wanted := [7]; tk_width := 1; tk_cycle := {| cy_queue := []; cy_running := [q]; cy_tally := cy_tally (tk_cycle idle); cy_db := d; cy_kv := ∅ |} |}).
  assert (tracks (JM := demo_members) market demo_answers idle [] (with_db idle db)) as H1.
  { apply (tracks_step _ _ idle [] idle [] _); [apply tracks_refl|]. apply learns; [done|]. intros region wanted rs r [= <-] Hr. by apply list_elem_of_singleton in Hr as ->. }
  assert (tracks (JM := demo_members) market demo_answers idle [] {| tk_wanted := [7]; tk_width := 1; tk_cycle := start due db ∅ |}) as H2.
  { apply (tracks_step _ _ _ [] _ [] _ H1). apply (begins _ _ (with_db idle db) (Some demo_boe) (Ok []) 5000 0); [done|vm_compute; reflexivity]. }
  assert (tracks (JM := demo_members) market demo_answers idle [] (mk p db)) as H3.
  { apply (tracks_step _ _ _ [] _ [] _ H2). apply (goes_on _ _ {| tk_wanted := [7]; tk_width := 1; tk_cycle := start due db ∅ |} [] (tk_cycle (mk p db))). apply (spawns _ _ _ _ _ (start due db ∅)); [cbn; lia|reflexivity]. }
  assert (tracks (JM := demo_members) market demo_answers idle [] (mk (at_phase p (Asked None)) db)) as H4.
  { apply (tracks_step _ _ _ [] _ [] _ H3). apply (goes_on _ _ (mk p db) [] (tk_cycle (mk (at_phase p (Asked None)) db))). apply (works _ _ _ _ _ (tk_cycle (mk p db)) [] p []); [reflexivity|].
    apply (looks _ _ _ _ _ _ _ (Ok None)); [reflexivity|left; vm_compute; reflexivity]. }
  assert (tracks (JM := demo_members) market demo_answers idle [] (mk (at_phase p (Answered (Ok (RealmSnapshot.Fresh 1000 demo_gear)))) db)) as H5.
  { apply (tracks_step _ _ _ [] _ [] _ H4). apply (goes_on _ _ (mk (at_phase p (Asked None)) db) [] (tk_cycle (mk (at_phase p (Answered (Ok (RealmSnapshot.Fresh 1000 demo_gear)))) db))). eapply (works _ _ _ _ _ (tk_cycle (mk (at_phase p (Asked None)) db)) [] _ []); [reflexivity|].
    by apply (hears _ _ _ _ _ _ (at_phase p (Asked None)) None). }
  eexists. apply (tracks_step _ _ _ [] _ [snap_of demo_gear Eu 3 1000] _ H5). eapply goes_on.
  eapply (works _ _ _ _ _ _ [] (at_phase p (Answered (Ok (RealmSnapshot.Fresh 1000 demo_gear)))) []); [reflexivity|].
  eapply (stores _ _ _ _ _ _ _ (at_phase p (Answered (Ok (RealmSnapshot.Fresh 1000 demo_gear)))) 1000 demo_gear (default (0, 0) (counted (store_fresh (demo_realm 3) 1000 demo_gear db))) 5000); [reflexivity|]. apply store_fresh_counts.
Qed.

Lemma demo_answers_ok : upstream_ok demo_answers.
Proof. intros region realm wanted since at_ listings [-> [= -> ->]]. split; [done|]. split; [done|]. split; [by repeat constructor|done]. Qed.

Lemma collector_faithful_witness :
  exists t l, tracks (JM := demo_members) MarketConfig_default demo_answers idle [snap_of demo_gear Eu 3 1000] t /\
  RealmStore.history 7 Eu 3 500 (tk_db t) = Ok l /\ forall x, x ∈ l <-> x ∈ sn_samples (snap_of demo_gear Eu 3 1000).
Proof.
  destruct demo_tracked as [t Ht]. destruct (collector_faithful (JM := demo_members) _ _ _ t 500 demo_answers_ok Ht eq_refl) as (_ & _ & _ & H).
  destruct (H 7 Eu 3 ltac:(done) ltac:(done)) as (l & Hl & _ & _ & Hx). exists t, l. split; [exact Ht|]. split; [exact Hl|]. intros x. rewrite (Hx x). split.
  - intros (s & ->%list_elem_of_singleton & _ & _ & _ & Hin & _). exact Hin.
  - assert (Forall (fun x => rs_item x = 7) (sn_samples (snap_of demo_gear Eu 3 1000))) as H7 by (vm_compute; repeat constructor).
    intros Hin. exists (snap_of demo_gear Eu 3 1000). split; [by left|]. split; [reflexivity|]. split; [reflexivity|]. split; [cbn [snap_of sn_at]; lia|].
    split; [exact Hin|]. exact (proj1 (Forall_forall _ _) H7 x Hin).
Defined.
