(* ===== verification/AdminDate.v ===== *)
(** * AdminDate: an instant typed into a form

    Models [parse_instant] and [days_in_month] of
    [crates/app-web/src/routes/admin.rs]: a date, or a date and a time of day, as UTC
    milliseconds.

    [typed_instant_exact] measures it against the calendar of [Time]: every minute from
    1970 to 9999 is read as the instant that is shown with that date and time, and what is
    read is always such a minute. *)
From Stdlib Require Import Ascii ZArith.
From stdpp Require Import prelude strings pretty.
From S2P Require Import Prelude Text Time.

(** [i64::from_str]. *)
Definition parse_i64 (s : string) : option Z :=
  match s with
  | String "-"%char s' => match s' with EmptyString => None | _ => Z.opp ∘ Z.of_N <$> parse_digits (2 ^ 63) 0 s' end
  | _ => Z.of_N <$> parse_uint (2 ^ 63 - 1) s
  end.

Definition checked_add (a b : N) : option N := if decide (a + b <= u64_max) then Some (a + b) else None.
Definition checked_mul (a b : N) : option N := if decide (a * b <= u64_max) then Some (a * b) else None.

#[local] Open Scope Z_scope.

Definition days_in_month (year month : Z) : Z :=
  if decide (month = 4 \/ month = 6 \/ month = 9 \/ month = 11) then 30
  else if decide (month = 2) then
    if decide (Z.rem year 4 = 0 /\ (Z.rem year 100 <> 0 \/ Z.rem year 400 = 0)) then 29 else 28
  else 31.

(** The days since the epoch, by the shifted year that begins in March. *)
Definition days_of (year month day : Z) : Z :=
  let y := if decide (month <= 2) then year - 1 else year in
  let era := Z.quot (if decide (0 <= y) then y else y - 399) 400 in
  let yoe := y - era * 400 in
  let mp := Z.rem (month + 9) 12 in
  let doy := Z.quot (153 * mp + 2) 5 + day - 1 in
  let doe := yoe * 365 + Z.quot yoe 4 - Z.quot yoe 100 + doy in
  era * 146097 + doe - 719468.

Definition parse_date (date : string) : option (Z * Z * Z) :=
  match split "-"%char date with
  | [year; month; day] =>
      if decide (String.length year = 4%nat /\ String.length month = 2%nat /\ String.length day = 2%nat) then
        year ← parse_i64 year; month ← parse_i64 month; day ← parse_i64 day;
        if decide (1 <= month <= 12 /\ 1 <= day <= days_in_month year month) then Some (year, month, day) else None
      else None
  | _ => None
  end.

Definition parse_time (time : string) : option (Z * Z) :=
  match split ":"%char time with
  | [hour; minute] =>
      if decide (String.length hour = 2%nat /\ String.length minute = 2%nat) then
        hour ← parse_i64 hour; minute ← parse_i64 minute;
        if decide (0 <= hour < 24 /\ 0 <= minute < 60) then Some (hour, minute) else None
      else None
  | _ => None
  end.

Definition parse_instant (raw : string) : option Millis :=
  let '(date, time) := default (raw, "00:00"%string) (split_once "T"%char raw) in
  '(year, month, day) ← parse_date date;
  '(hour, minute) ← parse_time time;
  let days := days_of year month day in
  if decide (days < 0) then None
  else
    d ← checked_mul (Z.to_N days) 86400000;
    h ← checked_mul (Z.to_N hour) 3600000;
    dh ← checked_add d h;
    m ← checked_mul (Z.to_N minute) 60000;
    checked_add dh m.

(** ** Against the calendar *)
Lemma days_in_month_time y m : 1 <= m <= 12 -> days_in_month y m = Time.days_in_month y m.
Proof.
  intros Hm. unfold days_in_month, Time.days_in_month, leap.
  assert (forall k, 0 < k -> Z.rem y k = 0 <-> y mod k = 0) as Hr.
  { intros k Hk. rewrite Z.rem_divide, Z.mod_divide by lia. done. }
  pose proof (Hr 4 ltac:(lia)). pose proof (Hr 100 ltac:(lia)). pose proof (Hr 400 ltac:(lia)). clear Hr. repeat case_decide; tauto || lia.
Qed.

Lemma days_of_number y m d : 1 <= m <= 12 -> days_of y m d = day_number y m d.
Proof.
  intros Hm. unfold days_of, day_number, year_start, doy_of. cbv zeta. set (y' := if decide (m <= 2) then y - 1 else y).
  assert (Z.quot (if decide (0 <= y') then y' else y' - 399) 400 = y' / 400) as ->.
  { case_decide; Z.to_euclidean_division_equations; lia. }
  set (yoe := y' - y' / 400 * 400). assert (0 <= yoe < 400) as Hyoe by (unfold yoe; Z.to_euclidean_division_equations; lia). clearbody yoe.
  rewrite (Z.quot_div_nonneg yoe 4), (Z.quot_div_nonneg yoe 100) by lia. set (e := y' / 400). clearbody e. clear y'.
  assert (Z.rem (m + 9) 12 = if decide (m > 2) then m - 3 else m + 9) as Hmp by (case_decide; Z.to_euclidean_division_equations; lia).
  rewrite Hmp. rewrite Z.quot_div_nonneg by (case_decide; lia). lia.
Qed.

(** Before 1970 there is no instant. *)
Lemma day_number_1970 y m d : 1 <= m <= 12 -> 1 <= d <= Time.days_in_month y m -> 0 <= day_number y m d -> 1970 <= y.
Proof.
  intros Hm Hd Hn. destruct (decide (1970 <= y)) as [|Hy]; [done|]. exfalso. unfold day_number in Hn. cbv zeta in Hn.
  set (y' := if decide (m <= 2) then y - 1 else y) in *. set (e := y' / 400) in *.
  assert (y' <= 1968 \/ (y' = 1969 /\ 2 < m)) as Hy' by (unfold y'; case_decide; lia).
  assert (0 <= y' - e * 400 < 400) as Hyoe by (unfold e; Z.to_euclidean_division_equations; lia).
  destruct (march_year_fits e (y' - e * 400) y m d Hyoe) as (_ & Hle & Hmo); [|done|done|].
  { unfold y'. case_decide; lia. }
  pose proof (year_end_bound _ Hyoe) as Hb. destruct Hy' as [Hy'|[Hy' Hm2]].
  - destruct (decide (e <= 3)) as [He|He]; [lia|]. assert (e = 4) as He4 by (unfold e in *; Z.to_euclidean_division_equations; lia).
    pose proof (year_end_1969 (y' - e * 400) ltac:(lia)). lia.
  - assert (e = 4) as He4 by (unfold e; by rewrite Hy'). rewrite He4, Hy' in Hn. change (year_start _) with 134774 in Hn.
    assert (doy_of m d <= 305); [|lia]. unfold doy_of. unfold Time.days_in_month in Hd. rewrite decide_True by lia.
    repeat case_decide; Z.to_euclidean_division_equations; lia.
Qed.

(** ** An instant of a date and a time of day *)
Definition at_minute (y m d h mi : Z) : Millis := (from_utc_date y m d + Z.to_N (h * 3600 + mi * 60) * 1000)%N.
Definition date_text (y m d : Z) : string := (pad 4 (Z.to_N y) +:+ "-" +:+ pad 2 (Z.to_N m) +:+ "-" +:+ pad 2 (Z.to_N d))%string.
Definition time_text (h mi : Z) : string := (pad 2 (Z.to_N h) +:+ ":" +:+ pad 2 (Z.to_N mi))%string.

Lemma at_minute_parts y m d h mi :
  valid_date y m d -> y <= 99999 -> 0 <= h < 24 -> 0 <= mi < 60 ->
  to_utc_parts (at_minute y m d h mi) = {| utc_y := y; utc_m := m; utc_d := d; utc_h := h; utc_mi := mi; utc_s := 0 |}.
Proof.
  intros Hv Hmax Hh Hmi. destruct (day_number_decomposition y m d Hv Hmax) as (era & yoe & Hyoe & Hdn & Hrange & Hy). destruct Hv as (_ & Hm & Hd).
  destruct (march_year_fits era yoe y m d Hyoe ltac:(intros; rewrite decide_True in Hy; lia) Hm Hd) as (Hdoy & Hle & Hmo).
  unfold at_minute. rewrite from_utc_date_day by done.
  pose proof (to_utc_parts_day era yoe (doy_of m d) (h * 3600 + mi * 60) Hyoe Hdoy Hle ltac:(lia) ltac:(lia)
    (Z.to_N (day_number y m d) * 86400000 + Z.to_N (h * 3600 + mi * 60) * 1000)) as Hp.
  rewrite Hmo in Hp. rewrite Hp, Hy.
  - f_equal; Z.to_euclidean_division_equations; lia.
  - rewrite <- Hdn. replace (Z.to_N (day_number y m d) * 86400000 + Z.to_N (h * 3600 + mi * 60) * 1000)%N
      with ((Z.to_N (day_number y m d) * 86400 + Z.to_N (h * 3600 + mi * 60)) * 1000)%N by lia. rewrite N.div_mul by done. lia.
Qed.

(** Padded numbers are read back, and hold no separator. *)
Definition reads_padded (w : nat) (n : nat) : bool :=
  let s := pad w (N.of_nat n) in
  bool_decide (parse_i64 s = Some (Z.of_nat n)) && bool_decide (String.length s = w) && negb (has_char "-"%char s) && negb (has_char ":"%char s) &&
  negb (has_char "T"%char s).

Lemma reads_padded_all : forallb (reads_padded 2) (seq 0 100) = true /\ forallb (reads_padded 4) (seq 0 (Z.to_nat 10000)) = true.
Proof. split; vm_compute; reflexivity. Qed.

Lemma padded w z :
  (w = 2%nat /\ 0 <= z < 100) \/ (w = 4%nat /\ 0 <= z < 10000) ->
  let s := pad w (Z.to_N z) in
  parse_i64 s = Some z /\ String.length s = w /\ has_char "-"%char s = false /\ has_char ":"%char s = false /\ has_char "T"%char s = false.
Proof.
  intros Hw. cbn zeta. assert (reads_padded w (Z.to_nat z) = true) as Hr.
  { destruct reads_padded_all as [H2 H4]. rewrite forallb_forall in H2, H4. destruct Hw as [[-> Hz]|[-> Hz]]; [apply H2|apply H4]; apply in_seq; lia. }
  unfold reads_padded in Hr. replace (N.of_nat (Z.to_nat z)) with (Z.to_N z) in Hr by (destruct Hw; lia).
  rewrite !andb_true_iff, !negb_true_iff, !bool_decide_eq_true in Hr. destruct Hr as ((((Hp & Hl) & Hd) & Hc) & Ht).
  split_and!; [rewrite Hp; f_equal; destruct Hw; lia|done..].
Qed.

Lemma date_reads y m d : 1 <= m <= 12 -> 1 <= d <= Time.days_in_month y m -> 0 <= y <= 9999 ->
  parse_date (date_text y m d) = Some (y, m, d) /\ has_char "T"%char (date_text y m d) = false.
Proof.
  intros Hm Hd Hy. assert (d <= 31) as Hd31 by (unfold Time.days_in_month in Hd; repeat case_decide; lia).
  destruct (padded 4 y ltac:(lia)) as (Y1 & Y2 & Y3 & _ & Y5). destruct (padded 2 m ltac:(lia)) as (M1 & M2 & M3 & _ & M5).
  destruct (padded 2 d ltac:(lia)) as (D1 & D2 & D3 & _ & D5). unfold date_text. split.
  - unfold parse_date.
    change (pad 4 (Z.to_N y) +:+ "-" +:+ pad 2 (Z.to_N m) +:+ "-" +:+ pad 2 (Z.to_N d))%string
      with (pad 4 (Z.to_N y) +:+ String "-" (pad 2 (Z.to_N m) +:+ String "-" (pad 2 (Z.to_N d))))%string.
    rewrite (split_cons _ (pad 4 _)), (split_cons _ (pad 2 _)), split_no_sep by done.
    rewrite Y2, M2, D2, decide_True by done. rewrite Y1, M1, D1. cbn [mbind option_bind]. rewrite days_in_month_time by done. by rewrite decide_True.
  - rewrite !has_char_app, Y5, M5, D5. done.
Qed.

Lemma time_reads h mi : 0 <= h < 24 -> 0 <= mi < 60 -> parse_time (time_text h mi) = Some (h, mi).
Proof.
  intros Hh Hmi. destruct (padded 2 h ltac:(lia)) as (H1 & H2 & _ & H4 & _). destruct (padded 2 mi ltac:(lia)) as (M1 & M2 & _ & M4 & _).
  unfold time_text, parse_time. change (?a +:+ ":" +:+ ?b)%string with (a +:+ String ":" b)%string. rewrite split_cons, split_no_sep by done.
  rewrite H2, M2, decide_True by done. rewrite H1, M1. cbn [mbind option_bind]. by rewrite decide_True.
Qed.

(** ** What is read is a minute of the calendar *)
Lemma parse_digits_bound max s acc n : parse_digits max acc s = Some n -> (n < (acc + 1) * 10 ^ N.of_nat (String.length s))%N.
Proof.
  revert acc. induction s as [|a s IH]; intros acc; cbn [parse_digits String.length]; [intros [= <-]; cbn; lia|].
  destruct (digit a) as [x|] eqn:Hx; [|done]. cbn [mbind option_bind]. case_decide; [|done]. intros Hn%IH.
  assert (x <= 9)%N by (unfold digit in Hx; case_decide; [injection Hx as <-; lia|done]).
  rewrite Nat2N.inj_succ, N.pow_succ_r'. nia.
Qed.

Lemma parse_i64_bound s z : parse_i64 s = Some z -> z < Z.of_N (10 ^ N.of_nat (String.length s)).
Proof.
  assert (forall max t n, parse_digits max 0 t = Some n -> forall k, (String.length t <= k)%nat -> (n < 10 ^ N.of_nat k)%N) as Hd.
  { intros max t n Hn k Hk. apply parse_digits_bound in Hn. assert (10 ^ N.of_nat (String.length t) <= 10 ^ N.of_nat k)%N by (apply N.pow_le_mono_r; lia). lia. }
  assert (forall t n, Z.of_N <$> parse_uint (2 ^ 63 - 1) t = Some n -> n < Z.of_N (10 ^ N.of_nat (String.length t))) as Hu.
  { intros t n (k & Hk & ->)%fmap_Some. unfold parse_uint in Hk. destruct t as [|a t]; [done|].
    case_decide; [destruct t as [|b t]; [done|]|]; apply N2Z.inj_lt, (Hd _ _ _ Hk); cbn [String.length]; lia. }
  destruct s as [|a s]; [done|]. unfold parse_i64. destruct (decide (a = "-"%char)) as [->|Hne].
  - destruct s as [|b s]; [done|]. intros (k & Hk & ->)%fmap_Some. unfold compose.
    assert (10 ^ N.of_nat (String.length (String "-" (String b s))) <> 0)%N by (apply N.pow_nonzero; lia). lia.
  - intros Hz. apply Hu. destruct a as [[] [] [] [] [] [] [] []]; try exact Hz. by destruct Hne.
Qed.

Lemma parse_date_valid s y m d : parse_date s = Some (y, m, d) -> 1 <= m <= 12 /\ 1 <= d <= Time.days_in_month y m /\ y <= 9999.
Proof.
  unfold parse_date. destruct (split _ s) as [|a [|b [|c [|? ?]]]]; try done. case_decide as Hl; [|done].
  destruct (parse_i64 a) as [y'|] eqn:Ha; [|done]. destruct (parse_i64 b) as [m'|]; [|done]. destruct (parse_i64 c) as [d'|]; [|done]. cbn [mbind option_bind].
  case_decide as Hv; [|done]. intros [= -> -> ->]. apply parse_i64_bound in Ha. rewrite (proj1 Hl) in Ha. change (Z.of_N (10 ^ N.of_nat 4)) with 10000 in Ha.
  destruct Hv as [Hm Hd]. rewrite days_in_month_time in Hd by done. lia.
Qed.

Lemma parse_time_valid s h mi : parse_time s = Some (h, mi) -> 0 <= h < 24 /\ 0 <= mi < 60.
Proof.
  unfold parse_time. destruct (split _ s) as [|a [|b [|? ?]]]; try done. case_decide; [|done].
  destruct (parse_i64 a); [|done]. destruct (parse_i64 b); [|done]. cbn [mbind option_bind]. case_decide as Hv; [|done]. by intros [= -> ->].
Qed.

(** The instant of a date and a time that were read. *)
Lemma instant_of y m d h mi :
  1 <= m <= 12 -> 1 <= d <= Time.days_in_month y m -> y <= 9999 -> 0 <= h < 24 -> 0 <= mi < 60 ->
  (if decide (days_of y m d < 0) then None
   else d_ ← checked_mul (Z.to_N (days_of y m d)) 86400000; h_ ← checked_mul (Z.to_N h) 3600000; dh ← checked_add d_ h_;
        m_ ← checked_mul (Z.to_N mi) 60000; checked_add dh m_) =
  (if decide (1970 <= y) then Some (at_minute y m d h mi) else None).
Proof.
  intros Hm Hd Hy Hh Hmi. rewrite days_of_number by done. destruct (decide (1970 <= y)) as [H70|H70].
  - destruct (day_number_decomposition y m d ltac:(unfold valid_date; lia) ltac:(lia)) as (_ & _ & _ & _ & Hr & _). rewrite decide_False by lia.
    assert (day_number y m d < 4000000) as Hsmall.
    { unfold day_number, doy_of, year_start. unfold Time.days_in_month in Hd. repeat case_decide; Z.to_euclidean_division_equations; lia. }
    unfold at_minute. rewrite from_utc_date_day by done.
    unfold checked_mul, checked_add, u64_max. rewrite decide_True by lia. cbn [mbind option_bind]. rewrite decide_True by lia. cbn [mbind option_bind].
    rewrite decide_True by lia. cbn [mbind option_bind]. rewrite decide_True by lia. cbn [mbind option_bind]. rewrite decide_True by lia. f_equal. lia.
  - rewrite decide_True; [done|]. destruct (decide (day_number y m d < 0)); [done|]. exfalso. apply H70, (day_number_1970 y m d); [done..|lia].
Qed.

Lemma parse_instant_split raw date time :
  (raw = date /\ time = "00:00"%string \/ raw = (date +:+ "T" +:+ time)%string) -> has_char "T"%char date = false ->
  parse_instant raw = ('(y, m, d) ← parse_date date; '(h, mi) ← parse_time time; if decide (1970 <= y) then Some (at_minute y m d h mi) else None).
Proof.
  intros Hraw Ht. assert (default (raw, "00:00"%string) (split_once "T"%char raw) = (date, time)) as He.
  { destruct Hraw as [[-> ->]| ->]; [by rewrite split_once_none|]. change (date +:+ "T" +:+ time)%string with (date +:+ String "T" time)%string. by rewrite split_once_app. }
  unfold parse_instant. rewrite He. destruct (parse_date date) as [[[y m] d]|] eqn:Hd; [|done]. destruct (parse_time time) as [[h mi]|] eqn:Hti; [|done].
  cbn [mbind option_bind]. apply parse_date_valid in Hd as (Hm & Hd & Hy). apply parse_time_valid in Hti as [Hh Hmi]. cbv zeta. by apply instant_of.
Qed.

(** Every minute from 1970 to 9999, typed as a date and a time, is read as the instant
    that is shown as that date and that time, and a date alone as its midnight.  What is
    read is always an instant of that kind: no month has a day it does not have, in leap
    years and centuries, and nothing before 1970 is taken for the beginning of it. *)
Theorem typed_instant_exact :
  (forall y m d h mi, valid_date y m d -> y <= 9999 -> 0 <= h < 24 -> 0 <= mi < 60 ->
     parse_instant (date_text y m d +:+ "T" +:+ time_text h mi) = Some (at_minute y m d h mi) /\
     parse_instant (date_text y m d) = Some (at_minute y m d 0 0) /\
     to_utc_string (at_minute y m d h mi) = (date_text y m d +:+ " " +:+ time_text h mi +:+ ":00")%string) /\
  (forall raw ms, parse_instant raw = Some ms ->
     exists y m d h mi, valid_date y m d /\ y <= 9999 /\ 0 <= h < 24 /\ 0 <= mi < 60 /\ ms = at_minute y m d h mi).
Proof.
  split.
  - intros y m d h mi Hv Hy Hh Hmi. pose proof Hv as (H70 & Hm & Hd). destruct (date_reads y m d Hm Hd ltac:(lia)) as [Hrd Ht]. split_and!.
    + rewrite (parse_instant_split _ (date_text y m d) (time_text h mi)) by (by right || done). rewrite Hrd, time_reads by done. cbn [mbind option_bind]. by rewrite decide_True.
    + rewrite (parse_instant_split _ (date_text y m d) "00:00"%string) by (by left || done). rewrite Hrd. cbn [mbind option_bind].
      change (parse_time "00:00") with (Some (0, 0)). cbn [mbind option_bind]. by rewrite decide_True.
    + unfold to_utc_string, to_date_string, to_clock_string. rewrite at_minute_parts by (done || lia). cbn [utc_y utc_m utc_d utc_h utc_mi utc_s]. unfold date_text, time_text.
      by rewrite !text_app_assoc.
  - intros raw ms Hms. assert (exists date time, default (raw, "00:00"%string) (split_once "T"%char raw) = (date, time)) as (date & time & He) by (destruct (default _ _); eauto).
    unfold parse_instant in Hms. rewrite He in Hms. destruct (parse_date date) as [[[y m] d]|] eqn:Hd; [|done]. destruct (parse_time time) as [[h mi]|] eqn:Hti; [|done].
    cbn [mbind option_bind] in Hms. apply parse_date_valid in Hd as (Hm & Hd & Hy). apply parse_time_valid in Hti as [Hh Hmi]. cbv zeta in Hms.
    rewrite instant_of in Hms by done. case_decide; [|done]. injection Hms as <-. exists y, m, d, h, mi. split; [unfold valid_date; lia|]. split_and!; (done || lia).
Qed.

(** A sign counts as a digit's place. *)
Example signed_parts : parse_instant "2026-+8-01" = parse_instant "2026-08-01" /\ parse_instant "2026-08-01T12:-0" = parse_instant "2026-08-01T12:00".
Proof. vm_compute. done. Qed.
