(* ===== verification/Admin.v ===== *)
(** * Admin: what is behind the administrator's gate

    Models the handlers of [crates/app-web/src/routes/admin.rs], [jobs.rs] and [cluster.rs]
    that change something, the gate [admin_only] of [session.rs] they are routed through
    ([routes/mod.rs]), and the following of an item of [routes/alerts.rs].

    The handlers run against a store known by its operations ([AuthStore], [AdminStore]), as
    those of [Accounts] do: the guard holds of a store that fails at any moment.  The SQLite
    tables and the state the process keeps are an instance ([Site]).  The Unicode tables
    ([char::is_alphanumeric], [str::to_lowercase]) are arguments.

    Proved: nothing behind the gate happens without an administrator's session and the
    form's token, and everybody else is told that there is nothing ([admin_guarded]); over
    any requests by anybody, what visitors see of the timeline and which catalogue collects
    is what an administrator decided ([site_curated]). *)
From Stdlib Require Import Ascii ZArith.
From stdpp Require Import prelude gmap sorting strings pretty.
From S2P Require Import Prelude Text Time Role Node Job Workload Store AppError Sqlite Market MarketKey Catalog Release MarketEvent Throttle Csrf FragmentCache AccountStore Accounts PriceStore RealmStore EventStore SmallStores AdminDate.

(** ** Forms *)
Inductive Switch := SwitchCategory (kind : string) | SwitchRealm (region : Region) (realm : RealmId).

Definition parse_switch (raw : string) : option Switch :=
  '(what, rest) ← split_once ":"%char raw;
  if decide (what = "category"%string) then
    SwitchCategory ∘ ItemKind.as_str <$> find_first (fun k => bool_decide (ItemKind.as_str k = rest)) ItemKind.ALL
  else if decide (what = "realm"%string) then
    '(region, id) ← split_once ":"%char rest; region ← Region_parse region; id ← parse_u32 id; Some (SwitchRealm region id)
  else None.

Record AddEvent := { ae_kind : string; ae_title : string; ae_starts_at : string; ae_notes : string; ae_region : string }.

Inductive Form :=
| FToggle (switch : string) (enabled : bool)
| FActivate (catalog : string)
| FAddEvent (form : AddEvent)
| FReviewEvent (id action : string)
| FSubmit (kind : string) (size tasks : N)
| FSetRole (node : NodeId) (role : string) (enabled : bool)
| FWatch (item : ItemId) (region : string) (watch : bool) (back : string).

(** [char::is_control] of UTF-8: the C0 and C1 controls and DEL. *)
Fixpoint has_control (s : string) : bool :=
  match s with
  | EmptyString => false
  | String a s' =>
      let n := N_of_ascii a in
      bool_decide (n < 32 \/ n = 127) ||
      (bool_decide (n = 194) && match s' with String b _ => bool_decide (128 <= N_of_ascii b < 160) | EmptyString => false end) || has_control s'
  end.

Definition safe_return (raw : string) : string :=
  if starts_with "/" raw && negb (starts_with "//" raw) && negb (has_char "\"%char raw) && negb (has_control raw) then raw else "/wow/alerts".

(** ** The store, as these handlers know it *)
Class AdminStore (S : Type) := {
  ad_set_enabled : string -> bool -> S -> StoreResult unit * S;
  ad_set_realm_enabled : Region -> RealmId -> bool -> S -> StoreResult unit * S;
  ad_activate : string -> Millis -> S -> StoreResult Activation * S;
  ad_releases : S -> StoreResult (list Release);
  ad_states : S -> ReleaseStates;
  ad_replace : list (string * CatalogStatus.t) -> S -> S;
  ad_record : list MarketEvent -> S -> StoreResult N * S;
  ad_review : string -> Validation.t -> Visibility.t -> S -> StoreResult bool * S;
  ad_forget : string -> S -> StoreResult bool * S;
  ad_bump_events : S -> S;
  ad_submit : JobSpec -> S -> Result JobId ClusterError * S;
  ad_set_role : NodeId -> Role -> bool -> S -> Result unit ClusterError * S;
  ad_watch : UserId -> ItemId -> Region -> Millis -> S -> StoreResult unit * S;
  ad_unwatch : UserId -> ItemId -> Region -> S -> StoreResult unit * S }.

Definition see_other (path : string) : Response := {| rs_status := 303; rs_location := Some path; rs_hx_redirect := None; rs_set_cookie := None |}.
(** A rendered fragment. *)
Definition fragment : Response := {| rs_status := 200; rs_location := None; rs_hx_redirect := None; rs_set_cookie := None |}.

Definition spec_error (e : SpecError) : AppError.t :=
  match e with
  | TaskCountRange => AppError.validation_with text.TASK_COUNT_RANGE [pretty MAX_TASKS_PER_JOB]
  | SleepRange => AppError.validation_with text.SLEEP_RANGE [pretty MAX_SLEEP_MS]
  | PrimeRange => AppError.validation_with text.PRIME_RANGE [pretty MAX_PRIME_BOUND]
  | UnknownJobKind kind => AppError.validation_with text.UNKNOWN_JOB_KIND [kind]
  end.

Section Handlers.
Context {S : Type} `{AuthStore S, AdminStore S}.
Variable config : WebConfig.
Variable catalogs : CatalogSet.
Variable is_alphanumeric : string -> bool.
Variable to_lowercase : string -> string.

(** [?] on a call of the cluster. *)
Definition cluster_call {A} (f : S -> Result A ClusterError * S) : Handler S A :=
  fun w => let '(r, s) := f (w_store w) in (match r with Ok a => Ok a | Err e => Err (Refused (AppError.Cluster e)) end, with_store s w).
Definition update {A} (f : S -> S) (k : Handler S A) : Handler S A := fun w => k (with_store (f (w_store w)) w).

Definition csrf_checked (rq : Request) (token : string) : Handler S unit := ran (verify_request (rq_csrf rq) (rq_csrf_header rq) (Some token)).

(** The beginning of the handlers of [admin.rs]. *)
Definition administrator (rq : Request) (token : string) : Handler S User :=
  do user <- current_user config rq ;;
  match user with
  | Some user => if u_is_admin user then (do _ <- csrf_checked rq token ;; ret user) else fail AppError.NotFound
  | None => fail AppError.NotFound
  end.

Definition toggle (rq : Request) (token switch : string) (enabled : bool) : Handler S Response :=
  do _ <- administrator rq token ;;
  match parse_switch switch with
  | Some (SwitchCategory kind) => do _ <- store_call (ad_set_enabled kind enabled) ;; ret (see_other "/admin")
  | Some (SwitchRealm region realm) => do _ <- store_call (ad_set_realm_enabled region realm enabled) ;; ret (see_other "/admin")
  | None => fail AppError.NotFound
  end.

(** A catalogue that does not hold together is not activated.  What the pages read of the
    states is read back from the store. *)
Definition activate (rq : Request) (token catalog : string) : Handler S Response :=
  do _ <- administrator rq token ;;
  match Catalog.by_id catalogs catalog with
  | None => fail AppError.NotFound
  | Some c =>
      if decide (problems c = []) then
        do _ <- store_call (ad_activate (c_id c) (rq_now rq)) ;;
        do states <- store_read ad_releases ;;
        update (ad_replace ((fun r => (r_catalog r, r_state r)) <$> states)) (ret (see_other "/admin"))
      else fail AppError.NotFound
  end.

Definition note_id (starts_at : Millis) (title : string) : string :=
  "note:" +:+ pretty starts_at +:+ ":" +:+ to_lowercase (String.concat "" (take 32 (filter (fun c => is_alphanumeric c = true) (chars title)))).

Definition annotation (kind : EventKind.t) (starts_at : Millis) (title notes : string) (region : option Region) : MarketEvent :=
  {| ev_id := note_id starts_at title; ev_kind := kind; ev_title := title; ev_notes := if decide (notes = ""%string) then None else Some notes;
     starts_at := starts_at; ends_at := None;
     scope := {| es_regions := option_list region; es_expansion := None; es_patch := None; es_tier := None; es_category := None; es_item := None; es_market := None |};
     ev_provenance := Provenance.Administrator; ev_validation := Validation.Unvalidated; ev_visibility := Visibility.Internal |}.

Definition add_event (rq : Request) (token : string) (form : AddEvent) : Handler S Response :=
  do _ <- administrator rq token ;;
  let title := trim (ae_title form) in
  match EventKind.parse (ae_kind form) with
  | None => fail AppError.NotFound
  | Some kind =>
      match parse_instant (trim (ae_starts_at form)) with
      | None => fail (AppError.validation text.EVENT_NEEDS_A_DATE)
      | Some at_ =>
          if decide (title = ""%string) then fail (AppError.validation text.EVENT_NEEDS_A_TITLE)
          else
            do _ <- store_call (ad_record [annotation kind at_ title (trim (ae_notes form)) (Region_parse (trim (ae_region form)))]) ;;
            update ad_bump_events (ret (see_other "/admin"))
      end
  end.

(** What a review of an event is to do, by the button that was pressed. *)
Definition review_action (id action : string) : option (S -> StoreResult bool * S) :=
  if decide (action = "publish"%string) then Some (ad_review id Validation.Validated Visibility.Public)
  else if decide (action = "reject"%string) then Some (ad_review id Validation.Rejected Visibility.Internal)
  else if decide (action = "retract"%string) then Some (ad_review id Validation.Unvalidated Visibility.Internal)
  else if decide (action = "forget"%string) then Some (ad_forget id)
  else None.

Definition review_event (rq : Request) (token id action : string) : Handler S Response :=
  do _ <- administrator rq token ;;
  match review_action id action with
  | Some f => do _ <- store_call f ;; update ad_bump_events (ret (see_other "/admin"))
  | None => fail AppError.NotFound
  end.

(** [jobs.rs] and [cluster.rs]: only the form's token is asked for here. *)
Definition submit (rq : Request) (token kind : string) (size tasks : N) : Handler S Response :=
  do _ <- csrf_checked rq token ;;
  match build_job_spec kind size tasks with
  | Err e => fail (spec_error e)
  | Ok spec => do _ <- cluster_call (ad_submit spec) ;; ret fragment
  end.

Definition set_role (rq : Request) (token : string) (node : NodeId) (role : string) (enabled : bool) : Handler S Response :=
  do _ <- csrf_checked rq token ;;
  match Role_parse role with
  | None => fail (AppError.validation_with text.UNKNOWN_ROLE [role])
  | Some role => do _ <- cluster_call (ad_set_role node role enabled) ;; ret fragment
  end.

(** [alerts.rs]: the item is one a visitor may see. *)
Definition watch_item (rq : Request) (token : string) (item : ItemId) (region : string) (watch : bool) (back : string) : Handler S Response :=
  do user <- current_user config rq ;;
  match user with
  | None => fail AppError.NotFound
  | Some user =>
      do _ <- csrf_checked rq token ;;
      match Region_parse region with
      | None => fail AppError.NotFound
      | Some region =>
          do w <- (fun w => (Ok w, w)) ;;
          match public_item catalogs (ad_states (w_store w)) item with
          | None => fail AppError.NotFound
          | Some _ =>
              do _ <- store_call (if watch then ad_watch (u_id user) item region (rq_now rq) else ad_unwatch (u_id user) item region) ;;
              ret (see_other (safe_return back))
          end
      end
  end.

(** [admin_only] in front of a handler. *)
Definition gated (path : string) (rq : Request) (h : Handler S Response) : Handler S Response :=
  fun w => match admin_only config rq w with
           | (true, w') => h w'
           | (false, w') => match refuse path with inl response => (Ok response, w') | inr e => (Err (Refused e), w') end
           end.

Definition path_of (form : Form) : string :=
  match form with
  | FToggle _ _ => "/admin" | FActivate _ => "/admin/release" | FAddEvent _ => "/admin/events" | FReviewEvent _ _ => "/admin/events/review"
  | FSubmit _ _ _ => "/jobs" | FSetRole node _ _ => "/nodes/" +:+ pretty node +:+ "/roles" | FWatch _ _ _ _ => "/wow/alerts"
  end.

Definition handler_of (rq : Request) (token : string) (form : Form) : Handler S Response :=
  match form with
  | FToggle switch enabled => toggle rq token switch enabled
  | FActivate catalog => activate rq token catalog
  | FAddEvent form => add_event rq token form
  | FReviewEvent id action => review_event rq token id action
  | FSubmit kind size tasks => submit rq token kind size tasks
  | FSetRole node role enabled => set_role rq token node role enabled
  | FWatch item region watch back => watch_item rq token item region watch back
  end.

Definition operations (form : Form) : bool := match form with FWatch _ _ _ _ => false | _ => true end.

Definition serve (rq : Request) (token : string) (form : Form) : Handler S Response :=
  if operations form then gated (path_of form) rq (handler_of rq token form) else handler_of rq token form.
End Handlers.

(** ** The gate *)
Section Gate.
Context {S : Type} `{AuthStore S, AdminStore S} (config : WebConfig) (catalogs : CatalogSet) (alnum : string -> bool) (lower : string -> string).

Definition token_ok (rq : Request) (token : string) : Prop := verify_request (rq_csrf rq) (rq_csrf_header rq) (Some token) = Done (Ok tt).

Lemma csrf_checked_cases rq token (w : World S) :
  (token_ok rq token /\ csrf_checked rq token w = (Ok tt, w)) \/ exists e, csrf_checked rq token w = (Err e, w).
Proof.
  unfold csrf_checked, token_ok. destruct (verify_request _ _ _) as [|[[]|e]]; cbn; [right; by eexists|by left|right; by eexists].
Qed.

(** A handler that begins with the check of an administrator: it goes on only after it. *)
Lemma administrator_first {A} rq token (k : User -> Handler S A) (w : World S) :
  (exists u w1, current_user config rq w = (Ok (Some u), w1) /\ u_is_admin u = true /\ token_ok rq token /\
     bind (administrator config rq token) k w = k u w1) \/
  exists e, bind (administrator config rq token) k w = (Err e, (current_user config rq w).2).
Proof.
  unfold administrator, bind. destruct (current_user config rq w) as [[[u|]|e] w1]; cbn [snd fail]; [|right; by eexists..].
  destruct (u_is_admin u) eqn:Hu; [|right; by eexists]. destruct (csrf_checked_cases rq token w1) as [[Ht ->]|[e ->]]; [|right; by eexists]. left. by exists u, w1.
Qed.

Lemma csrf_first {A} rq token (k : unit -> Handler S A) (w : World S) :
  (token_ok rq token /\ bind (csrf_checked rq token) k w = k tt w) \/ exists e, bind (csrf_checked rq token) k w = (Err e, w).
Proof. unfold bind. destruct (csrf_checked_cases rq token w) as [[Ht ->]|[e ->]]; [by left|right; by eexists]. Qed.

(** Behind the gate nothing is done without the form's token, and by [admin.rs] nothing
    without an administrator. *)
Lemma handler_guarded rq token form (w : World S) :
  operations form = true ->
  token_ok rq token \/ exists e, handler_of config catalogs alnum lower rq token form w = (Err e, w) \/
    handler_of config catalogs alnum lower rq token form w = (Err e, (current_user config rq w).2).
Proof.
  intros Hop. destruct form; try done; cbn [handler_of]; unfold toggle, activate, add_event, review_event, submit, set_role;
    lazymatch goal with
    | |- context[bind (administrator _ ?rq ?tok) ?k ?w0] => destruct (administrator_first rq tok k w0) as [(u & w1 & _ & _ & Ht & _)|[e ->]]; eauto
    | |- context[bind (csrf_checked ?rq ?tok) ?k ?w0] => destruct (csrf_first rq tok k w0) as [[Ht _]|[e ->]]; eauto
    end.
Qed.

Lemma path_not_front form : operations form = true -> refuse (path_of form) = inr AppError.NotFound.
Proof. by destruct form. Qed.
End Gate.

(** C19: Whatever the store does, failing included.  Behind the gate nothing is done, no
    switch, no release, no event, no job and no role, unless the request brings the session
    of an administrator and the token of the form; otherwise no more has happened than that
    the session was looked up.  And whoever is not an administrator is told that there is
    no such page, whatever the form says. *)
Theorem admin_guarded {S} `{AuthStore S, AdminStore S} config catalogs alnum lower rq token form (w : World S) r w' :
  operations form = true -> serve config catalogs alnum lower rq token form w = (r, w') ->
  let w1 := (current_user config rq w).2 in
  (exists u, (current_user config rq w).1 = Ok (Some u) /\ u_is_admin u = true /\ token_ok rq token) \/
  ((w' = w1 \/ w' = (current_user config rq w1).2) /\ (exists e, r = Err e) /\
   ((forall u, (current_user config rq w).1 = Ok (Some u) -> u_is_admin u = false) -> r = Err (Refused AppError.NotFound) /\ w' = w1)).
Proof.
  intros Hop Hs. cbn zeta. unfold serve in Hs. rewrite Hop in Hs. unfold gated, admin_only in Hs.
  destruct (current_user config rq w) as [who w1]. cbn [fst snd]. destruct who as [[u|]|e]; cbn [has_admin_access] in Hs.
  - destruct (u_is_admin u) eqn:Hu.
    + destruct (handler_guarded config catalogs alnum lower rq token form w1 Hop) as [Ht|[e He]]; [left; by exists u|]. right.
      destruct He as [He|He]; rewrite He in Hs; injection Hs as <- <-; split_and!; eauto; intros Hno; specialize (Hno u eq_refl); congruence.
    + rewrite path_not_front in Hs by done. injection Hs as <- <-. right. split_and!; eauto.
  - rewrite path_not_front in Hs by done. injection Hs as <- <-. right. split_and!; eauto.
  - rewrite path_not_front in Hs by done. injection Hs as <- <-. right. split_and!; eauto.
Qed.

(** ** The site: its tables, and what the process keeps beside them *)
Record Cluster := {
  cl_submitted : list JobSpec; cl_roles : list (NodeId * Role * bool);
  cl_on_submit : JobSpec -> Result JobId ClusterError; cl_on_role : NodeId -> Role -> bool -> Result unit ClusterError }.

Record Site := {
  si_accounts : Db; si_settings : SettingsTable; si_realms : RealmTables; si_events : EventTable; si_releases : ReleaseTable;
  si_states : ReleaseStates; si_cache : Cache; si_cluster : Cluster }.

Definition set_accounts (x : Db) (s : Site) : Site := Build_Site x (si_settings s) (si_realms s) (si_events s) (si_releases s) (si_states s) (si_cache s) (si_cluster s).
Definition set_settings (x : SettingsTable) (s : Site) : Site := Build_Site (si_accounts s) x (si_realms s) (si_events s) (si_releases s) (si_states s) (si_cache s) (si_cluster s).
Definition set_realms (x : RealmTables) (s : Site) : Site := Build_Site (si_accounts s) (si_settings s) x (si_events s) (si_releases s) (si_states s) (si_cache s) (si_cluster s).
Definition set_events (x : EventTable) (s : Site) : Site := Build_Site (si_accounts s) (si_settings s) (si_realms s) x (si_releases s) (si_states s) (si_cache s) (si_cluster s).
Definition set_releases (x : ReleaseTable) (s : Site) : Site := Build_Site (si_accounts s) (si_settings s) (si_realms s) (si_events s) x (si_states s) (si_cache s) (si_cluster s).
Definition set_states (x : ReleaseStates) (s : Site) : Site := Build_Site (si_accounts s) (si_settings s) (si_realms s) (si_events s) (si_releases s) x (si_cache s) (si_cluster s).
Definition set_cache (x : Cache) (s : Site) : Site := Build_Site (si_accounts s) (si_settings s) (si_realms s) (si_events s) (si_releases s) (si_states s) x (si_cluster s).
Definition set_cluster (x : Cluster) (s : Site) : Site := Build_Site (si_accounts s) (si_settings s) (si_realms s) (si_events s) (si_releases s) (si_states s) (si_cache s) x.

(** A statement on one of the tables. *)
Definition on {X A} (get : Site -> X) (set : X -> Site -> Site) (f : X -> A * X) (s : Site) : A * Site := let '(r, x) := f (get s) in (r, set x s).

#[export] Instance SiteAuth : AuthStore Site := {
  st_create name hash now := on si_accounts set_accounts (users_create name hash now);
  st_by_username name s := by_username name (si_accounts s);
  st_by_id id s := AccountStore.by_id id (si_accounts s);
  st_delete_user id := on si_accounts set_accounts (users_delete id);
  st_set_webhook id url := on si_accounts set_accounts (AccountStore.set_discord_webhook id url);
  st_session_create session := on si_accounts set_accounts (sessions_create session);
  st_session_get id s := sessions_get id (si_accounts s);
  st_session_delete id := on si_accounts set_accounts (sessions_delete id) }.

#[export] Instance SiteAdmin `{JR : Json (list Region)} : AdminStore Site := {
  ad_set_enabled name enabled := on si_settings set_settings (SmallStores.set_enabled name enabled);
  ad_set_realm_enabled region realm enabled := on si_realms set_realms (RealmStore.set_realm_enabled region realm enabled);
  ad_activate id now := on si_releases set_releases (sql_activate id now);
  ad_releases s := sql_releases (si_releases s);
  ad_states := si_states;
  ad_replace fresh := set_states (Release.replace fresh);
  ad_record events := on si_events set_events (EventStore.record events);
  ad_review id validation visibility := on si_events set_events (EventStore.review id validation visibility);
  ad_forget id := on si_events set_events (EventStore.forget id);
  ad_bump_events s := set_cache (bump_events (si_cache s)) s;
  ad_submit spec s :=
    (cl_on_submit (si_cluster s) spec,
     set_cluster {| cl_submitted := cl_submitted (si_cluster s) ++ [spec]; cl_roles := cl_roles (si_cluster s); cl_on_submit := cl_on_submit (si_cluster s);
                    cl_on_role := cl_on_role (si_cluster s) |} s);
  ad_set_role node role enabled s :=
    (cl_on_role (si_cluster s) node role enabled,
     set_cluster {| cl_submitted := cl_submitted (si_cluster s); cl_roles := cl_roles (si_cluster s) ++ [(node, role, enabled)];
                    cl_on_submit := cl_on_submit (si_cluster s); cl_on_role := cl_on_role (si_cluster s) |} s);
  ad_watch user item region now := on si_accounts set_accounts (AccountStore.watch user item region now);
  ad_unwatch user item region := on si_accounts set_accounts (AccountStore.unwatch user item region) }.

(** ** Framing: a handler that leaves part of the site alone *)
Section Frames.
Context {X : Type} (F : Site -> X).

Definition frames {A} (m : Handler Site A) : Prop := forall w, F (w_store (m w).2) = F (w_store w).

Lemma frames_bind {A B} (m : Handler Site A) (k : A -> Handler Site B) : frames m -> (forall a, frames (k a)) -> frames (bind m k).
Proof. intros Hm Hk w. unfold bind. specialize (Hm w). destruct (m w) as [[a|e] w']; [|done]. cbn in Hm. by rewrite (Hk a w'). Qed.

Lemma frames_quiet {A} (m : Handler Site A) : quiet m -> frames m.
Proof. intros Hq w. by rewrite Hq. Qed.

Lemma frames_call {A} (f : Site -> StoreResult A * Site) : (forall s, F (f s).2 = F s) -> frames (store_call f).
Proof. intros Hf w. unfold store_call. specialize (Hf (w_store w)). by destruct (f (w_store w)). Qed.

Lemma frames_cluster {A} (f : Site -> Result A ClusterError * Site) : (forall s, F (f s).2 = F s) -> frames (cluster_call f).
Proof. intros Hf w. unfold cluster_call. specialize (Hf (w_store w)). by destruct (f (w_store w)). Qed.

Lemma frames_update {A} (f : Site -> Site) (k : Handler Site A) : (forall s, F (f s) = F s) -> frames k -> frames (update f k).
Proof. intros Hf Hk w. unfold update. by rewrite Hk; cbn; rewrite Hf. Qed.

Lemma on_frames {Y A} (get : Site -> Y) (set : Y -> Site -> Site) (f : Y -> A * Y) s : (forall y s, F (set y s) = F s) -> F (on get set f s).2 = F s.
Proof. intros Hs. unfold on. destruct (f (get s)). apply Hs. Qed.
End Frames.

(** ** Requests, one after the other *)
Record Visit := { vi_request : Request; vi_token : string; vi_form : Form }.

Section Visits.
Context `{JR : Json (list Region)} (config : WebConfig) (catalogs : CatalogSet) (alnum : string -> bool) (lower : string -> string).

Definition visit (w : World Site) (v : Visit) : World Site := (serve config catalogs alnum lower (vi_request v) (vi_token v) (vi_form v) w).2.
Definition visits (w : World Site) (vs : list Visit) : World Site := foldl visit w vs.

(** The request of an administrator, with the form's token, where it arrives. *)
Definition by_admin (v : Visit) (w : World Site) : Prop :=
  (exists u, (current_user config (vi_request v) w).1 = Ok (Some u) /\ u_is_admin u = true) /\ token_ok (vi_request v) (vi_token v).

Lemma frames_user {X} (F : Site -> X) rq : (forall x s, F (set_accounts x s) = F s) -> frames F (current_user config rq).
Proof.
  intros HF. unfold current_user. destruct (cookie_value _ _) as [token|]; [|by apply frames_quiet]. unfold authenticate.
  apply frames_bind; [by apply frames_quiet|]. intros [session|]; [|by apply frames_quiet]. destruct (Session_is_expired _ _); [|by apply frames_quiet].
  apply frames_bind; [|intros; by apply frames_quiet]. apply frames_call. intros s. by apply on_frames.
Qed.

Lemma frames_watch {X} (F : Site -> X) rq token item region watch back :
  (forall x s, F (set_accounts x s) = F s) -> frames F (watch_item config catalogs rq token item region watch back).
Proof.
  intros HF. unfold watch_item. apply frames_bind; [by apply frames_user|]. intros [u|]; [|by apply frames_quiet].
  apply frames_bind; [apply frames_quiet, quiet_ran|]. intros _. destruct (Region_parse region); [|by apply frames_quiet].
  apply frames_bind; [by apply frames_quiet|]. intros w. destruct (public_item _ _ _); [|by apply frames_quiet].
  apply frames_bind; [|intros; by apply frames_quiet]. apply frames_call. intros s. destruct watch; by apply on_frames.
Qed.

(** Only an administrator's request gets to anything but the accounts. *)
Lemma visit_frames {X} (F : Site -> X) v w :
  (forall x s, F (set_accounts x s) = F s) ->
  F (w_store (visit w v)) = F (w_store w) \/
  (operations (vi_form v) = true /\ by_admin v w /\
   F (w_store (visit w v)) = F (w_store (handler_of config catalogs alnum lower (vi_request v) (vi_token v) (vi_form v) (current_user config (vi_request v) w).2).2)).
Proof.
  intros HF. unfold visit. destruct (serve config catalogs alnum lower (vi_request v) (vi_token v) (vi_form v) w) as [r w'] eqn:Hs. cbn [snd].
  destruct (operations (vi_form v)) eqn:Hop.
  - unfold serve in Hs. rewrite Hop in Hs. unfold gated, admin_only in Hs. pose proof (frames_user F (vi_request v) HF w) as Hw.
    destruct (current_user config (vi_request v) w) as [who w1] eqn:Hc. cbn [snd] in Hw |- *. destruct who as [[u|]|e]; cbn [has_admin_access] in Hs.
    + destruct (u_is_admin u) eqn:Hu.
      * destruct (handler_guarded config catalogs alnum lower (vi_request v) (vi_token v) (vi_form v) w1 Hop) as [Ht|[e He]].
        -- right. split; [done|]. split; [|by rewrite Hs]. split; [|done]. exists u. by rewrite Hc.
        -- left. destruct He as [He|He]; rewrite He in Hs; injection Hs as <- <-; [done|]. by rewrite frames_user.
      * rewrite path_not_front in Hs by done. injection Hs as <- <-. by left.
    + rewrite path_not_front in Hs by done. injection Hs as <- <-. by left.
    + rewrite path_not_front in Hs by done. injection Hs as <- <-. by left.
  - left. unfold serve in Hs. rewrite Hop in Hs. destruct (vi_form v) as [| | | | | |item region watch back]; try done. cbn [handler_of] in Hs.
    pose proof (frames_watch F (vi_request v) (vi_token v) item region watch back HF w) as Hf. by rewrite Hs in Hf.
Qed.

(** What a form asks of the timeline. *)
Definition event_change (form : Form) (t t' : EventTable) : Prop :=
  match form with
  | FAddEvent _ => exists kind at_ title notes region, t' = (EventStore.record [annotation alnum lower kind at_ title notes region] t).2
  | FReviewEvent id action =>
      (action = "publish"%string /\ t' = (EventStore.review id Validation.Validated Visibility.Public t).2) \/
      (exists validation, t' = (EventStore.review id validation Visibility.Internal t).2) \/ t' = (EventStore.forget id t).2
  | _ => False
  end.

Lemma frames_administrator {X} (F : Site -> X) rq token : (forall x s, F (set_accounts x s) = F s) -> frames F (administrator config rq token).
Proof.
  intros HF. apply frames_bind; [by apply frames_user|]. intros [u|]; [|by apply frames_quiet]. destruct (u_is_admin u); [|by apply frames_quiet].
  apply frames_bind; [apply frames_quiet, quiet_ran|]. intros _. by apply frames_quiet.
Qed.

(** A handler after the check of an administrator, on a part of the site: as the rest of it leaves that. *)
Lemma after_administrator {X A} (F : Site -> X) rq token (k : User -> Handler Site A) (P : X -> Prop) w :
  (forall x s, F (set_accounts x s) = F s) -> P (F (w_store w)) -> (forall u w1, F (w_store w1) = F (w_store w) -> P (F (w_store (k u w1).2))) ->
  P (F (w_store (bind (administrator config rq token) k w).2)).
Proof.
  intros HF Hw Hk. pose proof (frames_administrator F rq token HF w) as Hf. unfold bind. destruct (administrator config rq token w) as [[u|e] w1]; cbn [snd] in Hf |- *; [by apply Hk|by rewrite Hf].
Qed.
End Visits.

Section Steps.
Context `{JR : Json (list Region)} (config : WebConfig) (catalogs : CatalogSet) (alnum : string -> bool) (lower : string -> string).

Lemma frames_toggle {X} (F : Site -> X) rq token switch enabled :
  (forall x s, F (set_accounts x s) = F s) -> (forall x s, F (set_settings x s) = F s) -> (forall x s, F (set_realms x s) = F s) ->
  frames F (toggle config rq token switch enabled).
Proof.
  intros HF H1 H2. unfold toggle. apply frames_bind; [by apply frames_administrator|]. intros _. destruct (parse_switch switch) as [[k|r l]|]; [| |by apply frames_quiet];
    (apply frames_bind; [|intros; by apply frames_quiet]); apply frames_call; intros s; by apply on_frames.
Qed.

Lemma frames_submit {X} (F : Site -> X) rq token kind size tasks : (forall x s, F (set_cluster x s) = F s) -> frames F (submit rq token kind size tasks).
Proof.
  intros HF. unfold submit. apply frames_bind; [apply frames_quiet, quiet_ran|]. intros _. destruct (build_job_spec kind size tasks); [|by apply frames_quiet].
  apply frames_bind; [apply frames_cluster; intros s; apply HF|intros; by apply frames_quiet].
Qed.

Lemma frames_set_role {X} (F : Site -> X) rq token node role enabled : (forall x s, F (set_cluster x s) = F s) -> frames F (set_role rq token node role enabled).
Proof.
  intros HF. unfold set_role. apply frames_bind; [apply frames_quiet, quiet_ran|]. intros _. destruct (Role_parse role); [|by apply frames_quiet].
  apply frames_bind; [apply frames_cluster; intros s; apply HF|intros; by apply frames_quiet].
Qed.

(** A request leaves the timeline as it is, or an administrator's changes it as its form says. *)
Lemma visit_events v w :
  let t := si_events (w_store w) in let t' := si_events (w_store (visit config catalogs alnum lower w v)) in
  t' = t \/ (by_admin config v w /\ event_change alnum lower (vi_form v) t t').
Proof.
  cbn zeta. destruct (visit_frames config catalogs alnum lower si_events v w ltac:(done)) as [->|(Hop & Hby & ->)]; [by left|].
  set (w1 := (current_user config (vi_request v) w).2). pose proof (frames_user config si_events (vi_request v) ltac:(done) w) as Hw1. fold w1 in Hw1. rewrite <- Hw1. clear Hw1.
  enough (si_events (w_store (handler_of config catalogs alnum lower (vi_request v) (vi_token v) (vi_form v) w1).2) = si_events (w_store w1) \/
          event_change alnum lower (vi_form v) (si_events (w_store w1)) (si_events (w_store (handler_of config catalogs alnum lower (vi_request v) (vi_token v) (vi_form v) w1).2)))
    as [->|He] by ((by left) || (right; by split)). clearbody w1. clear Hby w.
  destruct (vi_form v) as [switch enabled|catalog|form|id action|kind size tasks|node role enabled|]; [| | | | | |done]; cbn [handler_of].
  - left. by apply frames_toggle.
  - left. unfold activate. apply frames_bind; [by apply frames_administrator|]. intros _. destruct (Catalog.by_id catalogs catalog); [|by apply frames_quiet].
    case_decide; [|by apply frames_quiet]. apply frames_bind; [apply frames_call; intros s; by apply on_frames|]. intros _. apply frames_bind; [by apply frames_quiet|]. intros rs.
    by apply frames_update; [|apply frames_quiet].
  - unfold add_event. apply after_administrator; [done|by left|]. intros u w2 H2. destruct (EventKind.parse _) as [kind|]; [|by left]. destruct (parse_instant _) as [at_|]; [|by left].
    case_decide; [by left|]. right. exists kind, at_, (trim (ae_title form)), (trim (ae_notes form)), (Region_parse (trim (ae_region form))).
    unfold bind, store_call. cbn [ad_record SiteAdmin]. unfold on. rewrite H2. destruct (EventStore.record _ _) as [[n|e] t]; done.
  - unfold review_event. apply after_administrator; [done|by left|]. intros u w2 H2. unfold review_action.
    repeat case_decide; [right..|by left]; unfold bind, store_call; cbn [ad_review ad_forget SiteAdmin]; unfold on; rewrite H2; cbn [event_change].
    + left. split; [done|]. by destruct (EventStore.review _ _ _ _) as [[b|e] t].
    + right. left. exists Validation.Rejected. by destruct (EventStore.review _ _ _ _) as [[b|e] t].
    + right. left. exists Validation.Unvalidated. by destruct (EventStore.review _ _ _ _) as [[b|e] t].
    + right. right. by destruct (EventStore.forget _ _) as [[b|e] t].
  - left. by apply frames_submit.
  - left. by apply frames_set_role.
Qed.

Definition released (s : Site) : ReleaseTable * ReleaseStates := (si_releases s, si_states s).

(** So with the releases and what the pages read of them. *)
Definition release_change (form : Form) (x x' : ReleaseTable * ReleaseStates) : Prop :=
  exists id c now, form = FActivate id /\ Catalog.by_id catalogs id = Some c /\ problems c = [] /\ x'.1 = (sql_activate (c_id c) now x.1).2 /\
    (x'.2 = x.2 /\ (exists e, (sql_activate (c_id c) now x.1).1 = Err e \/ sql_releases x'.1 = Err e) \/ loaded x'.1 = Ok x'.2).

Lemma visit_releases v w :
  let x := released (w_store w) in let x' := released (w_store (visit config catalogs alnum lower w v)) in
  x' = x \/ (by_admin config v w /\ release_change (vi_form v) x x').
Proof.
  cbn zeta. destruct (visit_frames config catalogs alnum lower released v w ltac:(done)) as [->|(Hop & Hby & ->)]; [by left|].
  set (w1 := (current_user config (vi_request v) w).2). pose proof (frames_user config released (vi_request v) ltac:(done) w) as Hw1. fold w1 in Hw1. rewrite <- Hw1. clear Hw1.
  enough (released (w_store (handler_of config catalogs alnum lower (vi_request v) (vi_token v) (vi_form v) w1).2) = released (w_store w1) \/
          release_change (vi_form v) (released (w_store w1)) (released (w_store (handler_of config catalogs alnum lower (vi_request v) (vi_token v) (vi_form v) w1).2)))
    as [->|He] by ((by left) || (right; by split)). clearbody w1. clear Hby w.
  destruct (vi_form v) as [switch enabled|catalog|form|id action|kind size tasks|node role enabled|]; [| | | | | |done]; cbn [handler_of].
  - left. by apply frames_toggle.
  - unfold activate. apply (after_administrator config released _ _ _ (fun x' => x' = released (w_store w1) \/ release_change (FActivate catalog) (released (w_store w1)) x')); [done|by left|].
    intros u w2 H2. destruct (Catalog.by_id catalogs catalog) as [c|] eqn:Hc; [|by left]. case_decide as Hp; [|by left]. right. exists catalog, c, (rq_now (vi_request v)).
    split; [done|]. split; [done|]. split; [done|]. rewrite <- H2. unfold bind, store_call, store_read, update, loaded. cbn [ad_activate ad_releases ad_replace SiteAdmin]. unfold on.
    change (released (w_store w2)).1 with (si_releases (w_store w2)). destruct (sql_activate (c_id c) (rq_now (vi_request v)) (si_releases (w_store w2))) as [[a|e] t]; cbn [fst snd].
    + destruct (sql_releases _) as [rs|e] eqn:Hrs; cbn [snd]; (split; [done|]); [right|left; eauto]. cbn. cbn in Hrs. by rewrite Hrs.
    + split; [done|]. left. eauto.
  - left. unfold add_event. apply frames_bind; [by apply frames_administrator|]. intros _. destruct (EventKind.parse _); [|by apply frames_quiet]. destruct (parse_instant _); [|by apply frames_quiet].
    case_decide; [by apply frames_quiet|]. apply frames_bind; [apply frames_call; intros s; by apply on_frames|]. intros _. by apply frames_update; [|apply frames_quiet].
  - left. unfold review_event. apply frames_bind; [by apply frames_administrator|]. intros _. unfold review_action.
    repeat case_decide; try (by apply frames_quiet); (apply frames_bind; [apply frames_call; intros s; by apply on_frames|]); intros _; by apply frames_update; [|apply frames_quiet].
  - left. by apply frames_submit.
  - left. by apply frames_set_role.
Qed.
End Steps.

(** ** What any requests leave behind *)
(** Whatever holds at the end and not at the beginning began with one of the steps. *)
Lemma began_with {W V} (step : W -> V -> W) (P : W -> Prop) `{forall w, Decision (P w)} vs w :
  P (foldl step w vs) -> ~ P w -> exists before v after, vs = before ++ v :: after /\ ~ P (foldl step w before) /\ P (step (foldl step w before) v).
Proof.
  induction vs as [|v vs IH] using rev_ind; [done|]. rewrite foldl_app. cbn [foldl]. intros Hp Hn. destruct (decide (P (foldl step w vs))) as [Hq|Hq].
  - destruct (IH Hq Hn) as (before & v' & after & -> & H1 & H2). exists before, v', (after ++ [v]). by rewrite <- app_assoc.
  - by exists vs, v, [].
Qed.

Definition is_shown (id : string) (t : EventTable) : bool := match t !! id with Some row => shown true row | None => false end.

(** What an event says, whoever has checked it. *)
Definition fact (row : EventRow) : EventRow := reviewed Validation.Unvalidated Visibility.Internal row.

Section Curated.
Context `{JR : Json (list Region)} (config : WebConfig) (catalogs : CatalogSet) (alnum : string -> bool) (lower : string -> string).

Lemma event_change_shown form t t' id :
  event_change alnum lower form t t' -> is_shown id t = false -> is_shown id t' = true -> form = FReviewEvent id "publish".
Proof.
  destruct form as [| |form|id' action| | |]; try done; cbn [event_change].
  - intros (kind & at_ & title & notes & region & ->) Hn Hs. exfalso. revert Hs. unfold EventStore.record, is_shown in *. cbn [record_loop]. set (e := annotation _ _ _ _ _ _ _).
    change (ends_in_order (event_row e)) with true. cbn match. destruct (t !! ev_id e); cbn [snd]; [congruence|].
    destruct (decide (id = ev_id e)) as [->|Hne]; [by rewrite lookup_insert_eq|rewrite lookup_insert_ne by done; congruence].
  - assert (forall va vi, is_shown id t = false -> is_shown id (EventStore.review id' va vi t).2 = true -> id = id' /\ Visibility.as_str vi = "public"%string) as Hrev.
    { intros va vi Hn. unfold EventStore.review, is_shown. destruct (t !! id') as [row|] eqn:Ht; cbn [snd]; [|unfold is_shown in Hn; congruence].
      destruct (decide (id = id')) as [->|Hne]; [|rewrite lookup_insert_ne by done; unfold is_shown in Hn; congruence]. rewrite lookup_insert_eq.
      unfold shown. cbn [negb orb reviewed er_visibility er_validation]. intros [Hv _]%andb_true_iff. by apply bool_decide_eq_true in Hv. }
    intros [[-> ->]|[[va ->]| ->]] Hn Hs.
    + by destruct (Hrev _ _ Hn Hs) as [-> _].
    + by destruct (Hrev _ _ Hn Hs) as [_ Hv].
    + exfalso. unfold EventStore.forget, is_shown in *. destruct (t !! id') as [row|] eqn:Ht; [|cbn [snd] in Hs; congruence]. case_decide; cbn [snd] in Hs; [|congruence].
      destruct (decide (id = id')) as [->|Hne]; [by rewrite lookup_delete_eq in Hs|rewrite lookup_delete_ne in Hs by done; congruence].
Qed.

(** What the catalogue or the calendar says stays said. *)
Lemma event_change_keeps form t t' id row :
  event_change alnum lower form t t' -> t !! id = Some row -> er_provenance row <> "administrator"%string ->
  exists row', t' !! id = Some row' /\ fact row' = fact row.
Proof.
  destruct form as [| |form|id' action| | |]; try done; cbn [event_change].
  - intros (kind & at_ & title & notes & region & ->) Hid _. exists row. split; [|done]. unfold EventStore.record. cbn [record_loop]. set (e := annotation _ _ _ _ _ _ _).
    change (ends_in_order (event_row e)) with true. cbn match. destruct (t !! ev_id e) eqn:He; cbn [snd]; [done|]. rewrite lookup_insert_ne; [done|]. congruence.
  - assert (forall va vi, t !! id = Some row -> exists row', (EventStore.review id' va vi t).2 !! id = Some row' /\ fact row' = fact row) as Hrev.
    { intros va vi Hid. unfold EventStore.review. destruct (t !! id') as [r|] eqn:Ht; cbn [snd]; [|by exists row].
      destruct (decide (id = id')) as [->|Hne]; [|rewrite lookup_insert_ne by done; by exists row]. rewrite lookup_insert_eq. eexists. split; [done|]. by simplify_eq. }
    intros [[-> ->]|[[va ->]| ->]] Hid Hp; [by apply Hrev..|]. unfold EventStore.forget. destruct (t !! id') as [r|] eqn:Ht; cbn [snd]; [|by exists row].
    case_decide as Hr; [|by exists row]. cbn [snd]. exists row. split; [|done]. rewrite lookup_delete_ne; [done|]. intros ->. congruence.
Qed.

Lemma fact_provenance row row' : fact row' = fact row -> er_provenance row' = er_provenance row.
Proof. intros H. by apply (f_equal er_provenance) in H. Qed.

(** The table allows one active release, and the pages read what it says. *)
Definition releases_ok (x : ReleaseTable * ReleaseStates) : Prop := one_active x.1 /\ valid_states x.1 /\ loaded x.1 = Ok x.2.

Lemma release_change_ok form x x' : releases_ok x -> release_change catalogs form x x' -> releases_ok x'.
Proof.
  intros (Hone & Hv & Hl) (id & c & now & _ & _ & _ & Ht & Hst). pose proof (sql_activate_spec (c_id c) now x.1 Hone) as Hspec.
  destruct (sql_activate (c_id c) now x.1) as [[a|e] t]; cbn [fst snd] in *; subst t.
  - destruct Hspec as (_ & _ & H1 & _ & H2 & _). pose proof (after_activate_valid _ _ _ Hv H2) as Hv'. split_and!; [done|done|].
    destruct Hst as [[_ [e [He|He]]]|Hst]; [done| |done]. destruct (loaded_spec _ Hv') as (st & Hld & _). unfold loaded in Hld. by rewrite He in Hld.
  - destruct Hspec as (_ & Ht & _). unfold releases_ok. rewrite Ht. split_and!; [done|done|]. destruct Hst as [[-> _]|Hst]; [done|]. by rewrite Ht in Hst.
Qed.

(** A release that becomes active was asked for. *)
Lemma release_change_active form x x' id :
  releases_ok x -> release_change catalogs form x x' -> state_in x.1 id <> Some "active"%string -> state_in x'.1 id = Some "active"%string ->
  exists asked c, form = FActivate asked /\ Catalog.by_id catalogs asked = Some c /\ problems c = [] /\ c_id c = id.
Proof.
  intros (Hone & _ & _) (asked & c & now & -> & Hc & Hp & Ht & _) Hn Ha. exists asked, c. split_and!; [done..|].
  pose proof (sql_activate_spec (c_id c) now x.1 Hone) as Hspec. destruct (sql_activate (c_id c) now x.1) as [[a|e] t]; cbn [fst snd] in *; subst t.
  - destruct Hspec as (_ & _ & _ & _ & H2 & _). rewrite H2 in Ha. unfold after_activate in Ha. repeat case_decide; done.
  - destruct Hspec as (_ & Ht & _). by rewrite Ht in Ha.
Qed.

Lemma visits_releases_ok vs w :
  releases_ok (released (w_store w)) -> releases_ok (released (w_store (visits config catalogs alnum lower w vs))).
Proof.
  intros Hok. induction vs as [|v vs IH] using rev_ind; [done|]. unfold visits in *. rewrite foldl_app. cbn [foldl].
  destruct (visit_releases config catalogs alnum lower v (foldl (visit config catalogs alnum lower) w vs)) as [->|[_ Hc]]; [done|]. by eapply release_change_ok.
Qed.

Lemma visits_keep_events vs w id row :
  si_events (w_store w) !! id = Some row -> er_provenance row <> "administrator"%string ->
  exists row', si_events (w_store (visits config catalogs alnum lower w vs)) !! id = Some row' /\ fact row' = fact row.
Proof.
  intros Hid Hp. induction vs as [|v vs (row1 & H1 & Hf)] using rev_ind; [by exists row|]. unfold visits in *. rewrite foldl_app. cbn [foldl].
  destruct (visit_events config catalogs alnum lower v (foldl (visit config catalogs alnum lower) w vs)) as [->|[_ Hc]]; [by exists row1|].
  destruct (event_change_keeps _ _ _ id row1 Hc H1) as (row2 & H2 & Hf2); [by rewrite (fact_provenance _ _ Hf)|]. exists row2. by rewrite Hf2.
Qed.
End Curated.

(** C20: Through any requests by anybody.  An event that visitors see and did not see before
    was published by an administrator, with the form's token, by its identifier: what is
    typed in is not seen before that.  What the catalogue or the calendar says is still
    there, whatever was pressed.  There is at most one active release and the pages read the
    releases as the table has them; and a catalogue that has become active is one an
    administrator activated and in which nothing is wrong. *)
Theorem site_curated `{JR : Json (list Region)} config catalogs alnum lower vs (w : World Site) :
  let w' := visits config catalogs alnum lower w vs in
  (forall id, is_shown id (si_events (w_store w)) = false -> is_shown id (si_events (w_store w')) = true ->
     exists before v after, vs = before ++ v :: after /\ by_admin config v (visits config catalogs alnum lower w before) /\ vi_form v = FReviewEvent id "publish") /\
  (forall id row, si_events (w_store w) !! id = Some row -> er_provenance row <> "administrator"%string ->
     exists row', si_events (w_store w') !! id = Some row' /\ fact row' = fact row) /\
  (releases_ok (released (w_store w)) ->
     releases_ok (released (w_store w')) /\
     forall id, state_in (si_releases (w_store w)) id <> Some "active"%string -> state_in (si_releases (w_store w')) id = Some "active"%string ->
       exists before v after asked c, vs = before ++ v :: after /\ by_admin config v (visits config catalogs alnum lower w before) /\
         vi_form v = FActivate asked /\ Catalog.by_id catalogs asked = Some c /\ problems c = [] /\ c_id c = id).
Proof.
  cbn zeta. split_and!.
  - intros id Hn Hs. destruct (began_with (visit config catalogs alnum lower) (fun w => is_shown id (si_events (w_store w)) = true) vs w) as (before & v & after & -> & H1 & H2); [done|congruence|].
    exists before, v, after. split; [done|]. destruct (visit_events config catalogs alnum lower v (foldl (visit config catalogs alnum lower) w before)) as [He|[Hby Hc]]; [congruence|].
    split; [done|]. eapply event_change_shown; [exact Hc|by apply not_true_is_false|done].
  - intros id row. apply visits_keep_events.
  - intros Hok. split; [by apply visits_releases_ok|]. intros id Hn Ha.
    destruct (began_with (visit config catalogs alnum lower) (fun w => state_in (si_releases (w_store w)) id = Some "active"%string) vs w) as (before & v & after & -> & H1 & H2); [done|done|].
    destruct (visit_releases config catalogs alnum lower v (foldl (visit config catalogs alnum lower) w before)) as [He|[Hby Hc]]; [injection He as He _; congruence|].
    destruct (release_change_active catalogs _ _ _ id (visits_releases_ok config catalogs alnum lower before w Hok) Hc H1 H2) as (asked & c & Hf & Hc1 & Hc2 & Hc3).
    exists before, v, after, asked, c. by split_and!.
Qed.

(** ** Following an item *)
(** A path of this site to a browser: one slash, and nothing it would take for another
    or drop. *)
Definition local_path (s : string) : Prop :=
  exists rest, s = String "/"%char rest /\ has_char "\"%char s = false /\ has_control s = false /\ starts_with "/" rest = false.

Lemma safe_return_local raw : local_path (safe_return raw) /\ (local_path raw -> safe_return raw = raw).
Proof.
  assert (forall s, starts_with "/" s = true <-> exists rest, s = String "/"%char rest) as Hone.
  { intros s. unfold starts_with. rewrite bool_decide_eq_true. destruct s as [|a s]; cbn; [split; [by intros []|by intros []]|]. case_decide as Ha.
    - split; [intros _; exists s; by rewrite <- Ha|by eexists].
    - split; [by intros []|]. intros [rest [= -> _]]. done. }
  assert (forall rest, starts_with "//" (String "/"%char rest) = starts_with "/" rest) as Htwo.
  { intros rest. unfold starts_with. apply bool_decide_ext. by destruct rest. }
  unfold safe_return, local_path. split.
  - destruct (starts_with "/" raw) eqn:H1; [|by exists "wow/alerts"%string]. destruct (starts_with "//" raw) eqn:H2; [by exists "wow/alerts"%string|].
    destruct (has_char "\"%char raw) eqn:H3; [by exists "wow/alerts"%string|]. destruct (has_control raw) eqn:H4; [by exists "wow/alerts"%string|]. cbn [negb andb].
    apply Hone in H1 as [rest ->]. exists rest. rewrite Htwo in H2. done.
  - intros (rest & -> & H3 & H4 & H5). rewrite H3, H4, Htwo, H5. rewrite (proj2 (Hone _)) by (by eexists). done.
Qed.

(** An item is followed, or no longer followed, only by the account the request's
    session belongs to, with the form's token and where the item is one visitors may see;
    otherwise no more has happened than that the session was looked up.  The answer sends
    the browser to a path of this site, whatever the form asked for. *)
Theorem watch_sound {S} `{AuthStore S, AdminStore S} config catalogs alnum lower rq token item region watch back (w : World S) r w' :
  serve config catalogs alnum lower rq token (FWatch item region watch back) w = (r, w') ->
  let w1 := (current_user config rq w).2 in
  (exists u place, (current_user config rq w).1 = Ok (Some u) /\ token_ok rq token /\ Region_parse region = Some place /\
     is_Some (public_item catalogs (ad_states (w_store w1)) item) /\
     w' = with_store ((if watch then ad_watch (u_id u) item place (rq_now rq) else ad_unwatch (u_id u) item place) (w_store w1)).2 w1 /\
     (forall resp, r = Ok resp -> exists path, resp = see_other path /\ local_path path)) \/
  (w' = w1 /\ exists e, r = Err e).
Proof.
  cbn zeta. unfold serve. cbn [operations handler_of]. unfold watch_item, bind at 1. destruct (current_user config rq w) as [[[u|]|e] w1]; cbn [fst snd]; [|by intros [= <- <-]; right; eauto..].
  match goal with |- context[bind (csrf_checked rq token) ?k w1] => destruct (csrf_first rq token k w1) as [[Ht ->]|[e ->]] end; [|intros [= <- <-]; right; eauto].
  destruct (Region_parse region) as [place|]; [|intros [= <- <-]; right; eauto]. unfold bind at 1.
  destruct (public_item catalogs (ad_states (w_store w1)) item) as [entry|] eqn:Hp; [|intros [= <- <-]; right; eauto]. unfold bind, store_call.
  intros Hs. left. exists u, place. split_and!; [done|done|done|by eexists| |].
  - destruct ((if watch then _ else _) (w_store w1)) as [[[]|e] s]; cbn in Hs; by injection Hs as <- <-.
  - intros resp ->. destruct ((if watch then _ else _) (w_store w1)) as [[[]|e] s]; cbn in Hs; [|done]. injection Hs as <- <-.
    exists (safe_return back). split; [done|]. apply safe_return_local.
Qed.

(** ** A site for the examples *)
Definition demo_catalogs : CatalogSet :=
  {| catalogs := [{| c_id := "c"; c_expansion := "e"; c_status := CatalogStatus.Active; c_version := 1; c_patches := []; c_raid_tiers := [];
                     c_items := [{| ci_name := "Flask"; ci_category := Category.Flask; ci_kind := ItemKind.Consumable; ci_profession := None; ci_slot := None;
                                    ci_audience := Audience.Common; ci_stat := default_stat; ci_ranks := [{| ir_rank := 1; ir_item_id := 7 |}];
                                    ci_floor_copper := None; ci_icon := None; ci_target_quantity := None |}];
                     c_item_levels := ∅; c_tracks := ∅; c_modifiers := ∅; c_notes := [] |}] |}.
Definition demo_people : Db := (AccountStore.run [OpSession demo_session; OpBootstrap "Ann" "h:correct horse" 5]).2.
Definition demo_site (people : Db) : World Site :=
  Build_World {| si_accounts := people; si_settings := ∅; si_realms := RealmTables_empty; si_events := ∅; si_releases := ∅; si_states := ReleaseStates_new;
                 si_cache := Cache_new; si_cluster := {| cl_submitted := []; cl_roles := []; cl_on_submit := fun _ => Ok 1; cl_on_role := fun _ _ _ => Ok tt |} |}
    ∅ None {| origins := ∅; global := None |} 0 0.
Definition demo_cookie : list (option string) := [Some (pair_text (session_cookie_name demo_config, "t0k"%string))].
Definition demo_serve (form : Form) (w : World Site) : Result Response Failure * World Site :=
  serve (H0 := SiteAdmin (JR := demo_regions)) demo_config demo_catalogs (fun _ => true) (fun s => s) (demo_request "new" 50 demo_cookie) (to_hex demo_token) form w.

Lemma admin_guarded_witness :
  (demo_serve (FToggle "category:gem" false) (demo_site demo_people)).1 = Ok (see_other "/admin") /\
  exists u, (current_user demo_config (demo_request "new" 50 demo_cookie) (demo_site demo_people)).1 = Ok (Some u) /\ u_is_admin u = true.
Proof.
  assert ((demo_serve (FToggle "category:gem" false) (demo_site demo_people)).1 = Ok (see_other "/admin")) as Hr by (vm_compute; reflexivity). split; [exact Hr|].
  destruct (admin_guarded (H0 := SiteAdmin (JR := demo_regions)) demo_config demo_catalogs (fun _ => true) (fun s => s) (demo_request "new" 50 demo_cookie) (to_hex demo_token)
    (FToggle "category:gem" false) (demo_site demo_people) _ _ eq_refl (surjective_pairing _)) as [(u & H1 & H2 & _)|(_ & [e He] & _)].
  - exists u. split; [exact H1|exact H2].
  - exfalso. unfold demo_serve in Hr. rewrite Hr in He. discriminate He.
Defined.

(** An event is typed in and published. *)
Definition demo_visit (form : Form) : Visit := {| vi_request := demo_request "new" 50 demo_cookie; vi_token := to_hex demo_token; vi_form := form |}.
Definition demo_note : string := "note:1785542400000:Fair".
Definition demo_visits : list Visit :=
  [demo_visit (FAddEvent {| ae_kind := "holiday"; ae_title := " Fair "; ae_starts_at := "2026-08-01"; ae_notes := ""; ae_region := "eu" |});
   demo_visit (FReviewEvent demo_note "publish")].

Lemma site_curated_witness :
  exists before v after, demo_visits = before ++ v :: after /\ vi_form v = FReviewEvent demo_note "publish".
Proof.
  destruct (site_curated (JR := demo_regions) demo_config demo_catalogs (fun _ => true) (fun s => s) demo_visits (demo_site demo_people)) as (H & _ & _).
  destruct (H demo_note) as (before & v & after & Hv & _ & Hf); [vm_compute; reflexivity|vm_compute; reflexivity|]. exists before, v, after. split; [exact Hv|exact Hf].
Defined.

Lemma watch_sound_witness :
  exists path, (demo_serve (FWatch 7 "eu" true "//evil.example") (demo_site demo_people)).1 = Ok (see_other path) /\ local_path path.
Proof.
  assert ((demo_serve (FWatch 7 "eu" true "//evil.example") (demo_site demo_people)).1 = Ok (see_other "/wow/alerts")) as Hr by (vm_compute; reflexivity).
  destruct (watch_sound (H0 := SiteAdmin (JR := demo_regions)) demo_config demo_catalogs (fun _ => true) (fun s => s) (demo_request "new" 50 demo_cookie) (to_hex demo_token)
    7 "eu" true "//evil.example" (demo_site demo_people) _ _ (surjective_pairing _)) as [(u & place & _ & _ & _ & _ & _ & H)|(_ & e & He)].
  - destruct (H _ Hr) as (path & Hp & Hl). exists path. split; [rewrite Hr, Hp; reflexivity|exact Hl].
  - exfalso. unfold demo_serve in Hr. rewrite Hr in He. discriminate He.
Defined.
