(* ===== verification/Locale.v ===== *)
(** * Locale: the languages item text comes in

    Models [crates/app-core/src/locale.rs].  [from_accept_language] reads a header, which
    is visible ASCII where it is text at all; its [to_lowercase] is that of ASCII. *)
From Stdlib Require Import Ascii ZArith.
From stdpp Require Import prelude strings.
From S2P Require Import Prelude Text Market.

Module Locale.
Inductive t := EnGb | EnUs | DeDe | EsEs | EsMx | FrFr | ItIt | PtBr | RuRu | KoKr | ZhTw | ZhCn.
#[global] Instance eq_dec : EqDecision t.
Proof. solve_decision. Defined.

Definition ALL_LOCALES : list t := [EnGb; EnUs; DeDe; EsEs; EsMx; FrFr; ItIt; PtBr; RuRu; KoKr; ZhTw; ZhCn].
Definition DEFAULT_LOCALE : t := EnGb.

Definition code (self : t) : string :=
  match self with
  | EnGb => "en_GB" | EnUs => "en_US" | DeDe => "de_DE" | EsEs => "es_ES" | EsMx => "es_MX" | FrFr => "fr_FR"
  | ItIt => "it_IT" | PtBr => "pt_BR" | RuRu => "ru_RU" | KoKr => "ko_KR" | ZhTw => "zh_TW" | ZhCn => "zh_CN"
  end.

Definition bcp47 (self : t) : string :=
  match self with
  | EnGb => "en-GB" | EnUs => "en-US" | DeDe => "de-DE" | EsEs => "es-ES" | EsMx => "es-MX" | FrFr => "fr-FR"
  | ItIt => "it-IT" | PtBr => "pt-BR" | RuRu => "ru-RU" | KoKr => "ko-KR" | ZhTw => "zh-TW" | ZhCn => "zh-CN"
  end.

Definition label (self : t) : string :=
  match self with
  | EnGb => "English (GB)" | EnUs => "English (US)" | DeDe => "Deutsch" | EsEs => "Español (ES)" | EsMx => "Español (MX)"
  | FrFr => "Français" | ItIt => "Italiano" | PtBr => "Português (BR)" | RuRu => "Русский" | KoKr => "한국어"
  | ZhTw => "繁體中文" | ZhCn => "简体中文"
  end.

Definition language (self : t) : string :=
  match self with
  | EnGb | EnUs => "en" | DeDe => "de" | EsEs | EsMx => "es" | FrFr => "fr" | ItIt => "it" | PtBr => "pt" | RuRu => "ru"
  | KoKr => "ko" | ZhTw | ZhCn => "zh"
  end.

(** [replace('-', "_")]. *)
Fixpoint underscored (s : string) : string :=
  match s with
  | EmptyString => EmptyString
  | String a s => String (if decide (a = "-"%char) then "_"%char else a) (underscored s)
  end.

Definition parse (value : string) : option t :=
  let value := underscored (trim value) in find_first (fun l => eq_ignore_ascii_case (code l) value) ALL_LOCALES.

(** The piece before the first [-] or [_]. *)
Fixpoint primary (s : string) : string :=
  match s with
  | EmptyString => EmptyString
  | String a s => if decide (a = "-"%char \/ a = "_"%char) then EmptyString else String a (primary s)
  end.

(** What one entry of the list asks for. *)
Definition of_tag (entry : string) : option t :=
  let tag := trim (default "" (head (split ";"%char entry))) in
  if decide (tag = "" \/ tag = "*") then None
  else match parse tag with
       | Some exact => Some exact
       | None => find_first (fun l => bool_decide (language l = to_lower (primary tag))) ALL_LOCALES
       end.

Definition from_accept_language (header : string) : option t := find_map of_tag (split ","%char header).
End Locale.

(** ** What is understood *)
Lemma locale_all l : l ∈ Locale.ALL_LOCALES.
Proof. by destruct l; repeat constructor. Qed.

(** A language's own two names are read as that language, with either separator and in
    any case of the letters. *)
Lemma locale_parse_code l : Locale.parse (Locale.code l) = Some l /\ Locale.parse (Locale.bcp47 l) = Some l.
Proof. by destruct l. Qed.

Lemma locale_parse_sound value l : Locale.parse value = Some l -> eq_ignore_ascii_case (Locale.code l) (Locale.underscored (trim value)) = true.
Proof. unfold Locale.parse. by intros [_ H]%find_first_Some. Qed.

Lemma locale_language_offered l : exists l', Locale.language l' = Locale.language l /\ Locale.of_tag (Locale.language l) = Some l'.
Proof. destruct l; eexists; (split; [|vm_compute; reflexivity]); reflexivity. Qed.

Example german_of_austria : Locale.from_accept_language "cy-GB, de-AT;q=0.7,en" = Some Locale.DeDe /\ Locale.from_accept_language "*" = None.
Proof. vm_compute. done. Qed.
