(* ===== verification/Prefs.v ===== *)
(** * Prefs: whose prices, in which language, against which baseline

    Models [crates/app-web/src/prefs.rs]: the choice a request makes in its query, the one
    its cookie remembers, and the layer that resolves them and remembers an explicit choice.

    The parser of form-encoded text, the test of what may stand in a header, and the Unicode
    tables ([char::is_alphanumeric], [char::to_lowercase]) are arguments.  A character is the
    text of its bytes.

    [prefs_stick] is the round trip a visitor sees: what was chosen once is what the next
    visit gets. *)
From Stdlib Require Import Ascii ZArith.
From stdpp Require Import prelude strings pretty.
From S2P Require Import Prelude Text Market Csrf AppError Accounts Locale.

Definition MARKET_COOKIE : string := "wow_tracker_market".
Definition COOKIE_MAX_AGE : N := 31536000.
Definition BASELINE_CHOICES : list (N * string) :=
  [(1, "Last 24 hours"); (3, "Last 3 days"); (7, "Last 7 days"); (14, "Last 14 days"); (30, "Last 30 days")]%string.
Definition DEFAULT_BASELINE_DAYS : N := 7.

Record MarketPrefs := { mp_region : Region; mp_locale : Locale.t; mp_baseline_days : N }.

(** [None] is the view across realms. *)
Abbreviation RealmChoice := (option string).

(** What one source had to say; of the realm also that it is to be none. *)
Record Choice := { ch_region : option Region; ch_locale : option Locale.t; ch_baseline : option N; ch_realm : option RealmChoice }.
#[export] Instance Choice_eq_dec : EqDecision Choice.
Proof. solve_decision. Defined.
Definition Choice_default : Choice := {| ch_region := None; ch_locale := None; ch_baseline := None; ch_realm := None |}.

Definition parse_baseline (raw : string) : option N :=
  days ← parse_u64 raw; if existsb (fun c => bool_decide (c.1 = days)) BASELINE_CHOICES then Some days else None.

(** ** Percent encoding *)
Definition hex_value (b : N) : option N :=
  if decide (48 <= b <= 57) then Some (b - 48)
  else if decide (97 <= b <= 102) then Some (b - 97 + 10)
  else if decide (65 <= b <= 70) then Some (b - 65 + 10)
  else None.

Fixpoint percent_decoded (s : string) : option (list N) :=
  match s with
  | EmptyString => Some []
  | String a rest =>
      if decide (a = "%"%char) then
        match rest with
        | String h (String l rest) =>
            high ← hex_value (N_of_ascii h); low ← hex_value (N_of_ascii l); bytes ← percent_decoded rest; Some (high * 16 + low :: bytes)
        | _ => None
        end
      else bytes ← percent_decoded rest; Some ((if decide (a = "+"%char) then 32 else N_of_ascii a) :: bytes)
  end.

(** [String::from_utf8]: no overlong form, no surrogate, nothing above U+10FFFF. *)
Definition cont (b : N) : bool := bool_decide (128 <= b <= 191).
Fixpoint is_utf8 (l : list N) : bool :=
  match l with
  | [] => true
  | a :: rest =>
      if decide (a <= 127) then is_utf8 rest
      else if decide (194 <= a <= 223) then
        match rest with b :: rest => cont b && is_utf8 rest | _ => false end
      else if decide (224 <= a <= 239) then
        match rest with
        | b :: c :: rest =>
            bool_decide ((if decide (a = 224) then 160 else 128) <= b <= (if decide (a = 237) then 159 else 191)) && cont c && is_utf8 rest
        | _ => false
        end
      else if decide (240 <= a <= 244) then
        match rest with
        | b :: c :: d :: rest =>
            bool_decide ((if decide (a = 240) then 144 else 128) <= b <= (if decide (a = 244) then 143 else 191)) && cont c && cont d && is_utf8 rest
        | _ => false
        end
      else false
  end.

Definition validate_percent_encoding (raw : string) : bool := match percent_decoded raw with Some bytes => is_utf8 bytes | None => false end.

(** ** Slugs *)
Fixpoint drop_hyphens (cs : list string) : list string :=
  match cs with c :: rest => if decide (c = "-"%string) then drop_hyphens rest else cs | [] => [] end.
(** [trim_matches('-')]. *)
Definition trim_hyphens (cs : list string) : list string := reverse (drop_hyphens (reverse (drop_hyphens cs))).

Section Prefs.
Context (is_alphanumeric : string -> bool) (to_lowercase : string -> list string).

Fixpoint slug_chars (cs out : list string) : list string :=
  match cs with
  | [] => out
  | c :: cs =>
      if is_alphanumeric c then slug_chars cs (out ++ to_lowercase c)
      else if decide (last out = Some "-"%string) then slug_chars cs out
      else slug_chars cs (out ++ ["-"%string])
  end.

Definition slug (raw : string) : option string :=
  match trim_hyphens (slug_chars (chars raw) []) with [] => None | out => Some (String.concat "" out) end.

(** ** The cookie *)
Definition prefs_cookie_value (self : MarketPrefs) (realm : RealmChoice) : string :=
  join "|"%char [Region_as_str (mp_region self); Locale.code (mp_locale self); pretty (mp_baseline_days self); default "" realm].

Definition parse_cookie (raw : string) : Choice :=
  let fields := split "|"%char raw in
  {| ch_region := fields !! 0%nat ≫= Region_parse; ch_locale := fields !! 1%nat ≫= Locale.parse; ch_baseline := fields !! 2%nat ≫= parse_baseline;
     ch_realm := slug <$> fields !! 3%nat |}.

(** ** The query *)
Context (urlencoded : string -> option (list (string * string))).

Definition choose (choice : Choice) (pair : string * string) : Choice :=
  let '(name, value) := pair in
  if decide (name = "region") then {| ch_region := Region_parse value; ch_locale := ch_locale choice; ch_baseline := ch_baseline choice; ch_realm := ch_realm choice |}
  else if decide (name = "lang") then {| ch_region := ch_region choice; ch_locale := Locale.parse value; ch_baseline := ch_baseline choice; ch_realm := ch_realm choice |}
  else if decide (name = "baseline") then {| ch_region := ch_region choice; ch_locale := ch_locale choice; ch_baseline := parse_baseline value; ch_realm := ch_realm choice |}
  else if decide (name = "realm") then {| ch_region := ch_region choice; ch_locale := ch_locale choice; ch_baseline := ch_baseline choice; ch_realm := Some (slug value) |}
  else choice.

Definition from_query (query : option string) : option Choice :=
  match query with
  | None => Some Choice_default
  | Some query => if validate_percent_encoding query then foldl choose Choice_default <$> urlencoded query else None
  end.

(** ** The layer *)
Context (header_value : string -> bool) (collected : list Region).

Definition allowed (region : option Region) : option Region := r ← region; if decide (r ∈ collected) then Some r else None.

Definition or_else {A} (a b : option A) : option A := match a with Some _ => a | None => b end.

Definition resolve (query cookie : Choice) (accept : option string) : MarketPrefs * RealmChoice :=
  ({| mp_region := default Eu (or_else (allowed (ch_region query)) (or_else (allowed (ch_region cookie)) (head collected)));
      mp_locale := default Locale.DEFAULT_LOCALE (or_else (ch_locale query) (or_else (ch_locale cookie) (accept ≫= Locale.from_accept_language)));
      mp_baseline_days := default DEFAULT_BASELINE_DAYS (or_else (ch_baseline query) (ch_baseline cookie)) |},
   mjoin (or_else (ch_realm query) (ch_realm cookie))).

Definition set_market_cookie (prefs : MarketPrefs) (realm : RealmChoice) : string :=
  MARKET_COOKIE +:+ "=" +:+ prefs_cookie_value prefs realm +:+ "; Path=/; SameSite=Lax; Max-Age=" +:+ pretty COOKIE_MAX_AGE.

(** The choice the request is served with, and the cookie its answer sets; a query that is
    not valid is refused.  [accept] is the header where it is text. *)
Definition layer (query : option string) (cookies : list (option string)) (accept : option string) : AppResult (MarketPrefs * RealmChoice * option string) :=
  match from_query query with
  | None => Err (AppError.validation "The query string is not valid percent-encoded UTF-8.")
  | Some query =>
      let cookie := default Choice_default (parse_cookie <$> cookie_value cookies MARKET_COOKIE) in
      let '(prefs, realm) := resolve query cookie accept in
      let text := set_market_cookie prefs realm in
      Ok (prefs, realm, if decide (query <> Choice_default) then if header_value text then Some text else None else None)
  end.
End Prefs.

(** ** Characters and their text *)
Fixpoint continuation (s : string) : bool := match s with EmptyString => true | String a s => is_continuation a && continuation s end.
Definition is_char (c : string) : Prop := exists a s, c = String a s /\ is_continuation a = false /\ continuation s = true.

Lemma concat_cons x xs : String.concat "" (x :: xs) = x +:+ String.concat "" xs.
Proof.
  destruct xs as [|y xs]; [|done]. cbn. induction x as [|a x IH]; [done|]. change (String a x = String a (x +:+ "")). by rewrite <- IH.
Qed.

Lemma chars_tail t s : continuation t = true -> continues s = false -> forall a, chars (String a (t +:+ s)) = String a t :: chars s.
Proof.
  induction t as [|b t IH]; intros Ht Hs a.
  - change (String a ("" +:+ s)) with (String a s). cbn [chars]. destruct (chars s) as [|c rest] eqn:Hc; [done|]. by rewrite Hs.
  - cbn [continuation] in Ht. apply andb_true_iff in Ht as [Hb Ht]. change (String b t +:+ s) with (String b (t +:+ s)).
    cbn [chars]. specialize (IH Ht Hs b). cbn [chars] in IH. rewrite IH. change (continues (String b (t +:+ s))) with (is_continuation b). by rewrite Hb.
Qed.

Lemma chars_concat cs : Forall is_char cs -> chars (String.concat "" cs) = cs.
Proof.
  assert (forall cs, Forall is_char cs -> continues (String.concat "" cs) = false) as Hb.
  { intros l Hl. destruct Hl as [|c l (a & s & -> & Ha & _) _]; [done|]. rewrite concat_cons. exact Ha. }
  induction 1 as [|c l (a & s & -> & _ & Hs) Hl IH]; [done|]. rewrite concat_cons. change (String a s +:+ String.concat "" l) with (String a (s +:+ String.concat "" l)).
  rewrite chars_tail by (done || by apply Hb). by rewrite IH.
Qed.

(** ** A slug is its own slug *)
Section Slugs.
Context (alnum : string -> bool) (lower : string -> list string).

(** What stands for a letter in a slug. *)
Definition settled (c : string) : Prop := alnum c = true /\ lower c = [c].
(** Words with a hyphen between them. *)
Definition neat (cs : list string) : Prop :=
  Forall (fun c => settled c \/ c = "-"%string) cs /\ forall before after, cs <> before ++ "-"%string :: "-"%string :: after.
(** Text whose letters have lower-case forms that are letters of lower case. *)
Definition steady (raw : string) : Prop := forall c, c ∈ chars raw -> alnum c = true -> Forall settled (lower c).

Context (Hhyphen : alnum "-" = false).

Lemma neat_snoc cs c : neat cs -> settled c \/ (c = "-"%string /\ last cs <> Some "-"%string) -> neat (cs ++ [c]).
Proof.
  intros [Hall Hno] Hc. split.
  - apply Forall_app. split; [done|]. constructor; [tauto|constructor].
  - intros before after He. destruct after as [|x after _] using rev_ind.
    + change ("-"%string :: ["-"%string]) with (["-"%string] ++ ["-"%string]) in He. rewrite app_assoc in He. apply app_inj_tail in He as [-> ->].
      destruct Hc as [[Ha _]|[_ Hl]]; [congruence|]. by rewrite last_snoc in Hl.
    + change ("-"%string :: "-"%string :: after ++ [x]) with (("-"%string :: "-"%string :: after) ++ [x]) in He. rewrite app_assoc in He.
      apply app_inj_tail in He as [-> _]. by eapply Hno.
Qed.

Lemma neat_letters cs ls : neat cs -> Forall settled ls -> neat (cs ++ ls).
Proof.
  intros Hn Hl. revert cs Hn. induction Hl as [|c ls Hc _ IH]; intros cs Hn; [by rewrite app_nil_r|].
  change (c :: ls) with ([c] ++ ls). rewrite app_assoc. apply IH, neat_snoc; [done|by left].
Qed.

Lemma slug_chars_neat cs out :
  (forall c, c ∈ cs -> alnum c = true -> Forall settled (lower c)) -> neat out -> neat (slug_chars alnum lower cs out).
Proof.
  revert out. induction cs as [|c cs IH]; intros out Hs Hn; [done|]. cbn [slug_chars].
  assert (forall d, d ∈ cs -> alnum d = true -> Forall settled (lower d)) as Hs' by (intros d Hd; apply Hs; by right).
  destruct (alnum c) eqn:Hc; [apply IH; [done|]; apply neat_letters; [done|]; apply Hs; [by left|done]|].
  case_decide; apply IH; try done. apply neat_snoc; [done|]. by right.
Qed.

(** Reading neat text again changes nothing. *)
Lemma slug_chars_fixed cs out : neat (out ++ cs) -> slug_chars alnum lower cs out = out ++ cs.
Proof.
  revert out. induction cs as [|c cs IH]; intros out Hn; [by rewrite app_nil_r|]. cbn [slug_chars].
  assert (neat ((out ++ [c]) ++ cs)) as Hn' by (by rewrite <- app_assoc). destruct Hn as [Hall Hno].
  apply Forall_app in Hall as [_ [Hc _]%Forall_cons]. destruct Hc as [[Ha Hl]| ->].
  - rewrite Ha, Hl, IH by done. by rewrite <- app_assoc.
  - rewrite Hhyphen. rewrite decide_False; [rewrite IH by done; by rewrite <- app_assoc|].
    intros [l Hl]%last_Some. apply (Hno l cs). rewrite Hl. by rewrite <- app_assoc.
Qed.
End Slugs.

Lemma drop_hyphens_suffix cs : exists dropped, cs = dropped ++ drop_hyphens cs /\ head (drop_hyphens cs) <> Some "-"%string.
Proof.
  induction cs as [|c cs (d & Hd & Hh)]; [by exists []|]. cbn [drop_hyphens]. case_decide as Hc.
  - exists (c :: d). split; [|done]. cbn [app]. by rewrite <- Hd.
  - exists []. split; [done|]. cbn. congruence.
Qed.

Lemma drop_hyphens_id cs : head cs <> Some "-"%string -> drop_hyphens cs = cs.
Proof. destruct cs as [|c cs]; [done|]. cbn. intros H. rewrite decide_False; [done|congruence]. Qed.

Lemma trim_hyphens_infix cs : exists a b, cs = a ++ trim_hyphens cs ++ b /\ head (trim_hyphens cs) <> Some "-"%string /\ last (trim_hyphens cs) <> Some "-"%string.
Proof.
  unfold trim_hyphens. destruct (drop_hyphens_suffix cs) as (a & Ha & Hh). set (mid := drop_hyphens cs) in *.
  destruct (drop_hyphens_suffix (reverse mid)) as (b & Hb & Hl). set (out := drop_hyphens (reverse mid)) in *.
  assert (mid = reverse out ++ reverse b) as Hm by (rewrite <- reverse_app, <- Hb; by rewrite reverse_involutive).
  exists a, (reverse b). split_and!; [by rewrite Ha, Hm| |by rewrite last_reverse]. rewrite Hm in Hh. by destruct (reverse out).
Qed.

Lemma trim_hyphens_id cs : head cs <> Some "-"%string -> last cs <> Some "-"%string -> trim_hyphens cs = cs.
Proof. intros Hh Hl. unfold trim_hyphens. rewrite (drop_hyphens_id cs Hh), drop_hyphens_id, reverse_involutive; [done|]. by rewrite head_reverse. Qed.

(** ** What was chosen is remembered *)
(** Text without any of the characters. *)
Definition free_of (bad : ascii -> Prop) (s : string) : Prop := forall a, has_char a s = true -> ~ bad a.

Lemma free_app bad s t : free_of bad s -> free_of bad t -> free_of bad (s +:+ t).
Proof. intros Hs Ht a. rewrite has_char_app. intros [H|H]%orb_true_iff; [by apply Hs|by apply Ht]. Qed.

Lemma free_char bad s c : free_of bad s -> bad c -> has_char c s = false.
Proof. intros Hs Hc. destruct (has_char c s) eqn:H; [|done]. by destruct (Hs c H). Qed.

Lemma free_concat bad cs : Forall (free_of bad) cs -> free_of bad (String.concat "" cs).
Proof. induction 1 as [|c cs Hc _ IH]; [intros a Ha; discriminate Ha|]. rewrite concat_cons. by apply free_app. Qed.

(** What would end or split the cookie's value. *)
Definition breaks (a : ascii) : Prop := a = ";"%char \/ a = "|"%char \/ is_space a = true.

Lemma trim_free s : free_of (fun a => is_space a = true) s -> trim s = s.
Proof.
  intros Hf. assert (forall a, has_char a s = true -> is_space a = false) as Hsp by (intros a Ha; by apply not_true_is_false, Hf).
  clear Hf. unfold trim. assert (trim_left s = s) as ->.
  { destruct s as [|a s]; [done|]. cbn [trim_left]. rewrite (Hsp a); [done|]. cbn. by rewrite bool_decide_eq_true_2. }
  induction s as [|a s IH]; [done|]. cbn [trim_right]. rewrite IH by (intros b Hb; apply Hsp; cbn; rewrite Hb; apply orb_true_r).
  destruct s; [|done]. rewrite (Hsp a); [done|]. cbn. by rewrite bool_decide_eq_true_2.
Qed.

Lemma free_literal (l : list ascii) s : (forall a, has_char a s = true -> a ∈ l) -> Forall (fun a => ~ breaks a) l -> free_of breaks s.
Proof. intros Hin Hl a Ha. exact (proj1 (Forall_forall _ _) Hl a (Hin a Ha)). Qed.

Fixpoint letters (s : string) : list ascii := match s with EmptyString => [] | String a s => a :: letters s end.

Lemma free_letters s : Forall (fun a => ~ breaks a) (letters s) -> free_of breaks s.
Proof.
  intros H. apply (free_literal (letters s)); [|done]. clear H. induction s as [|b s IH]; [done|]. intros a. cbn [has_char letters].
  intros [->%bool_decide_eq_true|Ha]%orb_true_iff; [by left|right; by apply IH].
Qed.

#[local] Instance breaks_dec a : Decision (breaks a).
Proof. unfold breaks. apply _. Defined.

Lemma free_names (r : Region) (l : Locale.t) : free_of breaks (Region_as_str r) /\ free_of breaks (Locale.code l).
Proof. split; apply free_letters; [destruct r|destruct l]; by apply (bool_decide_unpack _); vm_compute. Qed.

Section Stick.
Context (alnum : string -> bool) (lower : string -> list string) (urlencoded : string -> option (list (string * string))) (header_value : string -> bool).
Context (collected : list Region).
(** Of the Unicode tables: a hyphen is no letter, and a letter is one character that is
    none of the separators. *)
Context (Hhyphen : alnum "-" = false) (Hletter : forall c, alnum c = true -> is_char c /\ free_of breaks c).

Lemma neat_infix a m b : neat alnum lower (a ++ m ++ b) -> neat alnum lower m.
Proof.
  intros [Hall Hno]. rewrite !Forall_app in Hall. split; [tauto|]. intros before after ->. apply (Hno (a ++ before) (after ++ b)).
  by rewrite <- !app_assoc.
Qed.

Lemma hyphen_char : is_char "-" /\ free_of breaks "-".
Proof. split; [by exists "-"%char, ""%string|]. apply free_letters. by apply (bool_decide_unpack _); vm_compute. Qed.

Lemma slug_again raw s : steady alnum lower raw -> slug alnum lower raw = Some s -> slug alnum lower s = Some s /\ free_of breaks s.
Proof.
  intros Hst. unfold slug at 1. assert (neat alnum lower (slug_chars alnum lower (chars raw) [])) as Hn.
  { apply slug_chars_neat; [done|done|]. split; [constructor|]. by intros [|]. }
  destruct (trim_hyphens_infix (slug_chars alnum lower (chars raw) [])) as (a & b & Hab & Hh & Hl). rewrite Hab in Hn. apply neat_infix in Hn.
  set (out := trim_hyphens _) in *. destruct (decide (out = [])) as [->|Hne]; [done|]. intros Hs.
  assert (s = String.concat "" out) as -> by (destruct out; [done|congruence]). clear Hs Hab.
  assert (Forall (fun c => is_char c /\ free_of breaks c) out) as Hcs.
  { apply (Forall_impl _ _ _ (proj1 Hn)). intros c [[Hc _]| ->]; [by apply Hletter|apply hyphen_char]. }
  split; [|apply free_concat; apply (Forall_impl _ _ _ Hcs); by intros c [_ ?]].
  unfold slug. rewrite chars_concat by (apply (Forall_impl _ _ _ Hcs); by intros c [? _]). rewrite slug_chars_fixed by done. cbn [app].
  rewrite trim_hyphens_id by done. by destruct out.
Qed.

(** A realm as it is chosen: none, or the slug of a steady name. *)
Definition realm_ok (realm : RealmChoice) : Prop := match realm with Some s => slug alnum lower s = Some s /\ free_of breaks s | None => True end.

Definition baseline_ok (days : N) : Prop := days ∈ BASELINE_CHOICES.*1.

Lemma cookie_fields prefs realm :
  baseline_ok (mp_baseline_days prefs) -> realm_ok realm ->
  Forall (fun f => free_of breaks f) [Region_as_str (mp_region prefs); Locale.code (mp_locale prefs); pretty (mp_baseline_days prefs); default "" realm] /\
  parse_cookie alnum lower (prefs_cookie_value prefs realm) =
    {| ch_region := Some (mp_region prefs); ch_locale := Some (mp_locale prefs); ch_baseline := Some (mp_baseline_days prefs); ch_realm := Some realm |}.
Proof.
  intros Hb Hr. destruct (free_names (mp_region prefs) (mp_locale prefs)) as [F1 F2].
  assert (free_of breaks (pretty (mp_baseline_days prefs)) /\ parse_baseline (pretty (mp_baseline_days prefs)) = Some (mp_baseline_days prefs)) as [F3 P3].
  { unfold baseline_ok in Hb. cbn in Hb. rewrite !elem_of_cons in Hb.
    destruct Hb as [->|[->|[->|[->|[->|Hb]]]]]; [split; [apply free_letters; by apply (bool_decide_unpack _); vm_compute|by vm_compute]..|by apply not_elem_of_nil in Hb]. }
  assert (free_of breaks (default "" realm) /\ slug alnum lower (default "" realm) = realm) as [F4 P4].
  { destruct realm as [s|]; [destruct Hr; done|]. split; [|done]. intros a Ha. discriminate Ha. }
  split; [by repeat constructor|]. unfold parse_cookie, prefs_cookie_value. rewrite split_join; [|done|].
  - cbn [lookup list_lookup mbind option_bind fmap option_fmap option_map]. rewrite Region_parse_as_str, (proj1 (locale_parse_code _)), P3, P4. done.
  - repeat constructor; (eapply free_char; [eassumption|right; by left]).
Qed.

Lemma market_pair prefs realm : baseline_ok (mp_baseline_days prefs) -> realm_ok realm -> pair_ok (MARKET_COOKIE, prefs_cookie_value prefs realm).
Proof.
  intros Hb Hr. destruct (cookie_fields prefs realm Hb Hr) as [Hf _]. apply Forall_cons in Hf as [F1 Hf]. apply Forall_cons in Hf as [F2 Hf].
  apply Forall_cons in Hf as [F3 Hf]. apply Forall_cons in Hf as [F4 _].
  assert (prefs_cookie_value prefs realm = Region_as_str (mp_region prefs) +:+ String "|" (Locale.code (mp_locale prefs) +:+ String "|" (pretty (mp_baseline_days prefs) +:+ String "|" (default "" realm)))) as Hv by done.
  unfold pair_ok. cbn [fst snd]. split_and!; [done|done| |done|].
  - rewrite Hv. rewrite !has_char_app. cbn [has_char]. rewrite !has_char_app. cbn [has_char]. rewrite !has_char_app. cbn [has_char].
    by rewrite !(fun s H => free_char breaks s ";"%char H (or_introl eq_refl)) by done.
  - apply trim_free. assert (forall f, free_of breaks f -> free_of (fun a => is_space a = true) f) as Hsp by (intros f Hff a Ha Hs; apply (Hff a Ha); by right; right).
    assert (forall f, free_of (fun a => is_space a = true) f -> free_of (fun a => is_space a = true) (String "|" f)) as Hbar.
    { intros f Hff a. cbn [has_char]. intros [<-%bool_decide_eq_true|Ha]%orb_true_iff; [done|by apply Hff]. }
    rewrite Hv. auto 10 using free_app.
Qed.

(** Whoever is served is served what is collected, and compared with what is offered. *)
Lemma resolved query cookie accept :
  let prefs := (resolve collected query cookie accept).1 in
  (ch_baseline query = None \/ exists raw, ch_baseline query = parse_baseline raw) -> (ch_baseline cookie = None \/ exists raw, ch_baseline cookie = parse_baseline raw) ->
  (collected <> [] -> mp_region prefs ∈ collected) /\ baseline_ok (mp_baseline_days prefs).
Proof.
  assert (forall raw d, parse_baseline raw = Some d -> baseline_ok d) as Hpb.
  { intros raw d. unfold parse_baseline. destruct (parse_u64 raw) as [n|]; [|done]. cbn [mbind option_bind]. destruct (existsb _ _) eqn:He; [|done]. intros [= <-].
    apply existsb_exists in He as ([k lab] & Hin & Hk%bool_decide_eq_true). cbn in Hk. subst k. apply list_elem_of_fmap. exists (n, lab). split; [done|]. by apply list_elem_of_In. }
  cbn zeta. unfold resolve. cbn [fst mp_region mp_baseline_days]. intros Hq Hc. split.
  - intros Hne. destruct (allowed collected (ch_region query)) as [r|] eqn:H1; cbn [or_else default from_option].
    { unfold allowed in H1. destruct (ch_region query); [|done]. cbn in H1. case_decide; [|done]. by injection H1 as ->. }
    destruct (allowed collected (ch_region cookie)) as [r|] eqn:H2; cbn [or_else default from_option].
    { unfold allowed in H2. destruct (ch_region cookie); [|done]. cbn in H2. case_decide; [|done]. by injection H2 as ->. }
    destruct collected as [|r rest]; [done|]. by left.
  - destruct (ch_baseline query) as [d|] eqn:H1; cbn [or_else default from_option]; [destruct Hq as [|[raw Hq]]; [done|by eapply Hpb]|].
    destruct (ch_baseline cookie) as [d|] eqn:H2; cbn [default from_option]; [destruct Hc as [|[raw Hc]]; [done|by eapply Hpb]|]. apply elem_of_cons. right. apply elem_of_cons. right. by left.
Qed.

Lemma chosen_baseline pairs choice :
  ch_baseline choice = None \/ (exists raw, ch_baseline choice = parse_baseline raw) ->
  ch_baseline (foldl (choose alnum lower) choice pairs) = None \/ exists raw, ch_baseline (foldl (choose alnum lower) choice pairs) = parse_baseline raw.
Proof.
  revert choice. induction pairs as [|[name value] pairs IH]; intros choice Hc; [done|]. cbn [foldl]. apply IH. unfold choose. repeat case_decide; try done. right. by eexists.
Qed.

(** The realm of a choice is the slug of what was written. *)
Lemma chosen_realm pairs choice realm :
  ch_realm (foldl (choose alnum lower) choice pairs) = Some realm -> ch_realm choice = Some realm \/ exists name value, (name, value) ∈ pairs /\ realm = slug alnum lower value.
Proof.
  revert choice. induction pairs as [|[name value] pairs IH]; intros choice Hc; [by left|]. cbn [foldl] in Hc. apply IH in Hc as [Hc|(n & v & Hin & ->)].
  - unfold choose in Hc. repeat case_decide; try (by left). right. injection Hc as <-. exists name, value. split; [by left|done].
  - right. exists n, v. split; [by right|done].
Qed.
End Stick.

(** A request is served for a region that is collected and a baseline that is on the
    menu, and what it chose, region, language, baseline and realm, or that it wants all
    realms, is what the cookie it is given says: a later visit that brings the cookie among
    its others, from whatever browser language, is served the same and is given no new one.
    Asked of the text of a realm is that its letters have lower-case letters. *)
Theorem prefs_stick alnum lower urlencoded header_value collected query cookies accept prefs realm cookie :
  alnum "-" = false -> (forall c, alnum c = true -> is_char c /\ free_of breaks c) -> collected <> [] ->
  (forall q pairs name value, query = Some q -> urlencoded q = Some pairs -> (name, value) ∈ pairs -> steady alnum lower value) ->
  (forall raw field, cookie_value cookies MARKET_COOKIE = Some raw -> field ∈ split "|"%char raw -> steady alnum lower field) ->
  layer alnum lower urlencoded header_value collected query cookies accept = Ok (prefs, realm, cookie) ->
  mp_region prefs ∈ collected /\ baseline_ok (mp_baseline_days prefs) /\
  (forall text, cookie = Some text -> head (split ";"%char text) = Some (pair_text (MARKET_COOKIE, prefs_cookie_value prefs realm))) /\
  (forall jar accept', Forall pair_ok jar -> head (filter (fun kv => kv.1 = MARKET_COOKIE) jar) = Some (MARKET_COOKIE, prefs_cookie_value prefs realm) ->
     layer alnum lower urlencoded header_value collected None [Some (cookie_header jar)] accept' = Ok (prefs, realm, None)).
Proof.
  intros Hhy Hle Hne Hq Hck Hl. unfold layer in Hl. destruct (from_query alnum lower urlencoded query) as [choice|] eqn:Hfq; [|done].
  set (old := default Choice_default (parse_cookie alnum lower <$> cookie_value cookies MARKET_COOKIE)) in *.
  destruct (resolve collected choice old accept) as [prefs' realm'] eqn:Hr. injection Hl as -> -> Hcookie.
  assert (ch_baseline choice = None \/ exists raw, ch_baseline choice = parse_baseline raw) as Hcb.
  { unfold from_query in Hfq. destruct query as [q|]; [|injection Hfq as <-; by left]. destruct (validate_percent_encoding q); [|done].
    apply fmap_Some in Hfq as (pairs & _ & ->). apply chosen_baseline. by left. }
  assert (ch_baseline old = None \/ exists raw, ch_baseline old = parse_baseline raw) as Hob.
  { unfold old. destruct (cookie_value cookies MARKET_COOKIE) as [raw|]; [|by left]. cbn [fmap option_fmap option_map default from_option id parse_cookie ch_baseline].
    destruct (split _ raw !! 2%nat); [right; by eexists|by left]. }
  destruct (resolved collected choice old accept Hcb Hob) as [Hreg Hbase]. rewrite Hr in Hreg, Hbase. cbn [fst] in Hreg, Hbase. specialize (Hreg Hne).
  assert (realm_ok alnum lower realm) as Hrealm.
  { assert (realm = mjoin (or_else (ch_realm choice) (ch_realm old))) as -> by (unfold resolve in Hr; congruence). clear Hr.
    assert (forall value, steady alnum lower value -> realm_ok alnum lower (slug alnum lower value)) as Hs.
    { intros value Hst. destruct (slug alnum lower value) as [s|] eqn:Hs; [|done]. by eapply slug_again. }
    destruct (ch_realm choice) as [x|] eqn:Hx; cbn [or_else].
    - unfold from_query in Hfq. destruct query as [q|]; [|injection Hfq as <-; done]. destruct (validate_percent_encoding q); [|done].
      apply fmap_Some in Hfq as (pairs & Hp & ->). apply chosen_realm in Hx as [|(name & value & Hin & ->)]; [done|]. by eapply Hs, Hq.
    - unfold old. destruct (cookie_value cookies MARKET_COOKIE) as [raw|] eqn:Hraw; [|done]. cbn [fmap option_fmap option_map default from_option id parse_cookie ch_realm].
      destruct (split _ raw !! 3%nat) as [f|] eqn:Hf; [|done]. cbn [fmap option_fmap option_map]. eapply Hs, Hck; [done|]. by apply list_elem_of_lookup_2 in Hf. }
  split_and!; [done|done| |].
  - intros text ->. repeat case_decide; try done. destruct (header_value _); [|done]. injection Hcookie as <-.
    change (set_market_cookie prefs realm) with (pair_text (MARKET_COOKIE, prefs_cookie_value prefs realm) +:+ String ";"%char (" Path=/; SameSite=Lax; Max-Age=" +:+ pretty COOKIE_MAX_AGE)).
    rewrite split_cons; [done|]. apply pair_text_semi. by apply (market_pair alnum lower).
  - intros jar accept' Hjar Hhead. unfold layer. cbn [from_query]. rewrite cookie_read_back by done. rewrite Hhead. cbn [fmap option_fmap option_map snd default from_option id].
    destruct (cookie_fields alnum lower prefs realm Hbase Hrealm) as [_ ->]. unfold resolve. cbn [Choice_default ch_region ch_locale ch_baseline ch_realm allowed mbind option_bind or_else].
    rewrite decide_True by done. cbn [or_else default from_option id mjoin option_join]. rewrite decide_False by (intros H; by apply H). by destruct prefs, realm.
Qed.

(** ** ASCII letters, for the examples *)
Definition ascii_alnum (c : string) : bool := match c with String a EmptyString => username_char a && negb (bool_decide (a = "_"%char \/ a = "-"%char)) | _ => false end.
Definition ascii_lower_char (c : string) : list string := [to_lower c].
Definition demo_pairs (q : string) : option (list (string * string)) := Some [("realm", "Tarren Mill")]%string.

Lemma ascii_letters c : ascii_alnum c = true -> is_char c /\ free_of breaks c /\ settled ascii_alnum ascii_lower_char (to_lower c).
Proof.
  destruct c as [|a [|]]; try done. cbn [ascii_alnum]. intros H.
  assert (forallb (fun n => let a := ascii_of_nat n in
    implb (username_char a && negb (bool_decide (a = "_"%char \/ a = "-"%char)))
      (negb (is_continuation a) && bool_decide (~ breaks a) && ascii_alnum (to_lower (String a EmptyString)) &&
       bool_decide (to_lower (to_lower (String a EmptyString)) = to_lower (String a EmptyString)))) (seq 0 256) = true) as Hall by (vm_compute; reflexivity).
  rewrite forallb_forall in Hall. specialize (Hall (nat_of_ascii a) ltac:(apply in_seq; pose proof (nat_ascii_bounded a); lia)). cbn zeta in Hall.
  rewrite ascii_nat_embedding in Hall. rewrite H in Hall. cbn [implb] in Hall. rewrite !andb_true_iff, negb_true_iff in Hall. destruct Hall as [[[H1 H2%bool_decide_eq_true] H3] H4%bool_decide_eq_true].
  split_and!; [by exists a, ""%string| |split; [done|unfold ascii_lower_char; by rewrite H4]].
  intros b. cbn [has_char]. rewrite orb_false_r. by intros ->%bool_decide_eq_true.
Qed.

Lemma prefs_stick_witness :
  exists prefs cookie, layer ascii_alnum ascii_lower_char demo_pairs (fun _ => true) [Eu; Us] (Some "realm=Tarren+Mill") [] (Some "de-DE") =
      Ok (prefs, Some "tarren-mill"%string, Some cookie) /\
    layer ascii_alnum ascii_lower_char demo_pairs (fun _ => true) [Eu; Us] None
      [Some (cookie_header [("a", "1"); (MARKET_COOKIE, prefs_cookie_value prefs (Some "tarren-mill"))])]%string None = Ok (prefs, Some "tarren-mill"%string, None).
Proof.
  set (r := layer ascii_alnum ascii_lower_char demo_pairs (fun _ => true) [Eu; Us] (Some "realm=Tarren+Mill") [] (Some "de-DE")).
  assert (exists cookie, r = Ok ({| mp_region := Eu; mp_locale := Locale.DeDe; mp_baseline_days := 7 |}, Some "tarren-mill"%string, Some cookie)) as [cookie Hr] by (eexists; vm_compute; reflexivity).
  eexists _, cookie. split; [exact Hr|]. apply (fun H1 H2 H3 H4 H5 => prefs_stick ascii_alnum ascii_lower_char demo_pairs (fun _ => true) [Eu; Us] (Some "realm=Tarren+Mill"%string) [] (Some "de-DE"%string)
    {| mp_region := Eu; mp_locale := Locale.DeDe; mp_baseline_days := 7 |} (Some "tarren-mill"%string) (Some cookie) H1 H2 H3 H4 H5 Hr).
  - reflexivity.
  - intros c Hc. destruct (ascii_letters c Hc) as (H1 & H2 & _). by split.
  - done.
  - intros q pairs name value _ _ _ c _ Hc. destruct (ascii_letters c Hc) as (_ & _ & H). apply Forall_singleton, H.
  - intros raw field _ _ c _ Hc. destruct (ascii_letters c Hc) as (_ & _ & H). apply Forall_singleton, H.
  - repeat constructor; vm_compute; reflexivity.
  - vm_compute. reflexivity.
Defined.
