(* ===== verification/Tooltips.v ===== *)
(** * Tooltips: what an item is, fetched once and kept

    Models [crates/app-core/src/item.rs], the [ItemTooltipService] of
    [crates/app-core/src/service.rs] over the cache of [SmallStores], and the warm-up pass
    of [crates/server/src/collector_task.rs].  The upstream is an argument, and the JSON of a
    cached tooltip a codec.

    [tooltips_exact] is what a page may rely on: the right item in the right language, from
    the cache for as long as the entry lives and as it was fetched. *)
From Stdlib Require Import Ascii ZArith.
From stdpp Require Import prelude gmap sorting strings pretty.
From S2P Require Import Prelude Text Time Store AppError Sqlite Market Catalog ReadModel SmallStores Locale.

Module ItemQuality.
Inductive t := Poor | Common | Uncommon | Rare | Epic | Legendary | Artifact | Heirloom.
#[global] Instance eq_dec : EqDecision t.
Proof. solve_decision. Defined.
Definition as_str (self : t) : string :=
  match self with
  | Poor => "poor" | Common => "common" | Uncommon => "uncommon" | Rare => "rare" | Epic => "epic" | Legendary => "legendary"
  | Artifact => "artifact" | Heirloom => "heirloom"
  end.
Definition rarity (self : t) : N :=
  match self with Poor => 0 | Common => 1 | Uncommon => 2 | Rare => 3 | Epic => 4 | Legendary => 5 | Artifact => 6 | Heirloom => 5 end.
(** Unknown text is common; the text is compared in upper case. *)
Definition parse (value : string) : t :=
  default Common (find_first (fun q => eq_ignore_ascii_case (trim value) (as_str q)) [Poor; Uncommon; Rare; Epic; Legendary; Artifact; Heirloom]).
End ItemQuality.

Record ItemTooltip := {
  tt_item : ItemId; tt_locale : Locale.t; tt_name : string; tt_quality : ItemQuality.t; tt_item_level : option string; tt_binding : option string;
  tt_unique : option string; tt_item_class : option string; tt_item_subclass : option string; tt_subclass_hidden : bool; tt_required_level : option string;
  tt_required_item_level : option string; tt_stats : list string; tt_effects : list string; tt_flavor : option string; tt_crafting_reagent : option string;
  tt_sell_price : option Copper; tt_sell_price_label : option string; tt_fetched_at : Millis }.

Definition cache_key (item : ItemId) (locale : Locale.t) : string := "item-tooltip:v3:" +:+ Locale.code locale +:+ ":" +:+ pretty item.

Definition placeholder (item : ItemId) (locale : Locale.t) (name : string) (at_ : Millis) : ItemTooltip :=
  {| tt_item := item; tt_locale := locale; tt_name := name; tt_quality := ItemQuality.Common; tt_item_level := None; tt_binding := None; tt_unique := None;
     tt_item_class := None; tt_item_subclass := None; tt_subclass_hidden := false; tt_required_level := None; tt_required_item_level := None; tt_stats := [];
     tt_effects := []; tt_flavor := None; tt_crafting_reagent := None; tt_sell_price := None; tt_sell_price_label := None; tt_fetched_at := at_ |}.

Definition is_some {A} (o : option A) : bool := match o with Some _ => true | None => false end.
Definition is_detailed (self : ItemTooltip) : bool :=
  is_some (tt_item_level self) || is_some (tt_required_level self) || is_some (tt_required_item_level self) || bool_decide (tt_stats self <> []) ||
  bool_decide (tt_effects self <> []) || is_some (tt_flavor self).

Abbreviation LocalizedTooltips := (list (Locale.t * ItemTooltip)).

Inductive Freshness := Cached | Fetched | Missing | Unavailable.
#[export] Instance Freshness_eq_dec : EqDecision Freshness.
Proof. solve_decision. Defined.

Section Service.
Context `{JT : Json ItemTooltip} (ttl_ms : N).

Definition cached (locale : Locale.t) (item : ItemId) (now : Millis) (t : CacheTable) : option ItemTooltip :=
  match cache_get (cache_key item locale) now t with Ok (Some bytes) => from_json bytes | _ => None end.

Definition cached_many (locale : Locale.t) (items : list ItemId) (now : Millis) (t : CacheTable) : list (ItemId * ItemTooltip) :=
  let wanted := dedup (sort_by_key id items) in
  match cache_get_many ((fun i => cache_key i locale) <$> wanted) now t with
  | Ok rows => (fun tip => (tt_item tip, tip)) <$> omap (fun row => from_json row.2) rows
  | Err _ => []
  end.

Definition store (locale : Locale.t) (item : ItemId) (tooltip : ItemTooltip) (now : Millis) (t : CacheTable) : CacheTable :=
  (cache_put (cache_key item locale) (to_json tooltip) (plus_ms now ttl_ms) t).2.
Definition store_all (item : ItemId) (localized : LocalizedTooltips) (now : Millis) (t : CacheTable) : CacheTable :=
  foldl (fun t lt => store lt.1 item lt.2 now t) t localized.

(** [configured] and [tooltips] are the provider's. *)
Definition lookup_tip (configured : bool) (tooltips : Region -> ItemId -> AppResult LocalizedTooltips) (region : Region) (locale : Locale.t) (item : ItemId)
    (fallback_name : string) (now : Millis) (t : CacheTable) : (ItemTooltip * Freshness) * CacheTable :=
  match cached locale item now t with
  | Some tooltip => ((tooltip, Cached), t)
  | None =>
      let nothing := placeholder item locale fallback_name now in
      if negb configured then ((nothing, Unavailable), t)
      else
        match tooltips region item with
        | Ok localized =>
            (match find_first (fun lt : Locale.t * ItemTooltip => bool_decide (lt.1 = locale)) localized with
             | Some lt => (lt.2, Fetched)
             | None => (nothing, Missing)
             end, store_all item localized now t)
        | Err AppError.NotFound => ((nothing, Missing), store locale item nothing now t)
        | Err _ => ((nothing, Unavailable), t)
        end
  end.

(** ** The warm-up *)
(** What is left of a pass: the items with their names and the reading of the clock. *)
Fixpoint warm_loop (tooltips : Region -> ItemId -> AppResult LocalizedTooltips) (region : Region) (todo : list (ItemId * string * Millis)) (fetched missing : N)
    (t : CacheTable) : (N * N * bool) * CacheTable :=
  match todo with
  | [] => ((fetched, missing, false), t)
  | (item, name, now) :: rest =>
      match cached Locale.DEFAULT_LOCALE item now t with
      | Some _ => warm_loop tooltips region rest fetched missing t
      | None =>
          let '((_, fresh), t) := lookup_tip true tooltips region Locale.DEFAULT_LOCALE item name now t in
          match fresh with
          | Unavailable => ((fetched, missing, true), t)
          | Missing => warm_loop tooltips region rest fetched (missing + 1) t
          | _ => warm_loop tooltips region rest (fetched + 1) missing t
          end
      end
  end.

Definition warm_tooltips (configured : bool) (catalog : option Catalog) (regions : list Region) (clock : ItemId -> Millis)
    (tooltips : Region -> ItemId -> AppResult LocalizedTooltips) (t : CacheTable) : (N * N * bool) * CacheTable :=
  match catalog, head regions with
  | Some catalog, Some region =>
      if configured then
        warm_loop tooltips region (c_items catalog ≫= fun entry => (fun i => (i, ci_name entry, clock i)) <$> item_ids entry) 0 0 t
      else ((0, 0, false), t)
  | _, _ => ((0, 0, false), t)
  end.
End Service.

(** ** What the cache of tooltips holds *)
Lemma cache_key_inj i l i' l' : cache_key i l = cache_key i' l' -> i = i' /\ l = l'.
Proof.
  destruct l, l'; intros H; unfold cache_key in H; cbn in H; try discriminate H; (split; [|done]); repeat injection H as H; by apply (inj pretty).
Qed.

(** What [ItemDetailProvider] documents: the answer about an item is that item's, each
    language once and under its own name. *)
Definition answers_item (tooltips : Region -> ItemId -> AppResult LocalizedTooltips) : Prop :=
  forall region item localized, tooltips region item = Ok localized ->
    NoDup localized.*1 /\ forall l tip, (l, tip) ∈ localized -> tt_item tip = item /\ tt_locale tip = l.

Section Exact.
Context `{JL : JsonLaws ItemTooltip} (ttl_ms : N) (configured : bool) (tooltips : Region -> ItemId -> AppResult LocalizedTooltips) (Hans : answers_item tooltips).

(** Every entry is the text of a tooltip of the item and language it is filed under. *)
Definition tips_ok (t : CacheTable) : Prop :=
  forall item locale row, t !! cache_key item locale = Some row ->
    exists tip, ca_value row = to_json tip /\ tt_item tip = item /\ tt_locale tip = locale.

(** One request for a tooltip. *)
Record Ask := { ask_region : Region; ask_locale : Locale.t; ask_item : ItemId; ask_name : string; ask_now : Millis }.
Definition ask (q : Ask) (t : CacheTable) : (ItemTooltip * Freshness) * CacheTable :=
  lookup_tip ttl_ms configured tooltips (ask_region q) (ask_locale q) (ask_item q) (ask_name q) (ask_now q) t.
Definition asked (qs : list Ask) : CacheTable := foldl (fun t q => (ask q t).2) ∅ qs.

Lemma store_ok locale item tip now t : tt_item tip = item -> tt_locale tip = locale -> tips_ok t -> tips_ok (store ttl_ms locale item tip now t).
Proof.
  intros Hi Hl Ht i l row. unfold store, cache_put. cbn [snd]. rewrite lookup_insert_Some. intros [[Hk <-]|[_ Hrow]]; [|by apply Ht].
  apply cache_key_inj in Hk as [-> ->]. by exists tip.
Qed.

Lemma store_all_ok item localized now t :
  (forall l tip, (l, tip) ∈ localized -> tt_item tip = item /\ tt_locale tip = l) -> tips_ok t -> tips_ok (store_all ttl_ms item localized now t).
Proof.
  unfold store_all. revert t. induction localized as [|[l tip] rest IH]; intros t Hall Ht; [done|]. cbn [foldl fst snd]. apply IH.
  - intros l' tip' Hin. apply Hall. by apply elem_of_cons; right.
  - destruct (Hall l tip) as [Hi Hl]; [by apply elem_of_cons; left|]. by apply store_ok.
Qed.

Lemma cached_ok locale item now t tip : tips_ok t -> cached locale item now t = Some tip -> tt_item tip = item /\ tt_locale tip = locale.
Proof.
  intros Ht. unfold cached, cache_get. destruct (t !! cache_key item locale) as [row|] eqn:Hrow; [|done]. cbn [mbind option_bind]. case_decide; [|done].
  destruct (Ht _ _ _ Hrow) as (tip' & -> & Hi & Hl). rewrite from_to_json. by intros [= <-].
Qed.

Lemma ask_ok q t : tips_ok t -> tips_ok (ask q t).2 /\ tt_item (ask q t).1.1 = ask_item q /\ tt_locale (ask q t).1.1 = ask_locale q.
Proof.
  intros Ht. unfold ask, lookup_tip. destruct (cached _ _ _ _) as [tip|] eqn:Hc; [by apply cached_ok in Hc|]. destruct configured; [|done]. cbn [negb].
  destruct (tooltips _ _) as [localized|[]] eqn:Hl; try done.
  - destruct (Hans _ _ _ Hl) as [_ Hin]. cbn [snd fst]. split; [by apply store_all_ok|].
    destruct (find_first _ _) as [[l tip]|] eqn:Hf; [|done]. apply find_first_Some in Hf as (Hm & Hp). apply bool_decide_eq_true in Hp. cbn in Hp. subst l.
    by apply Hin.
  - cbn [snd fst]. split; [|done]. by apply store_ok.
Qed.

Lemma asked_ok qs : tips_ok (asked qs).
Proof.
  induction qs as [|q qs IH] using rev_ind; [by intros i l row; unfold asked; cbn [foldl]; rewrite lookup_empty|]. unfold asked. rewrite foldl_app. cbn [foldl]. by apply ask_ok.
Qed.

(** An entry is read back until its time is up. *)
Lemma cached_store locale item tip now later t :
  now + ttl_ms < 2 ^ 63 -> later < now + ttl_ms -> cached locale item later (store ttl_ms locale item tip now t) = Some tip.
Proof.
  intros Hfit Hl. unfold cached, cache_get, store, cache_put. cbn [snd]. rewrite lookup_insert_eq. cbn [mbind option_bind ca_expires_at ca_value].
  unfold plus_ms, sat_add. rewrite N.min_l by (unfold u64_max; lia). rewrite decide_True by (rewrite !as_i64_small by lia; lia). apply from_to_json.
Qed.

Lemma cached_store_ne locale item locale' tip now later t :
  locale <> locale' -> cached locale item later (store ttl_ms locale' item tip now t) = cached locale item later t.
Proof.
  intros Hne. unfold cached, cache_get, store, cache_put. cbn [snd]. rewrite lookup_insert_ne; [done|]. by intros [_ ->]%cache_key_inj.
Qed.

Lemma cached_store_all_ne locale item localized now later t :
  locale ∉ localized.*1 -> cached locale item later (store_all ttl_ms item localized now t) = cached locale item later t.
Proof.
  unfold store_all. revert t. induction localized as [|[l tip] rest IH]; intros t Hni; [done|]. cbn [foldl fst snd fmap list_fmap] in *.
  apply not_elem_of_cons in Hni as [Hne Hni]. rewrite IH by done. by apply cached_store_ne.
Qed.

Lemma cached_store_all locale item localized tip now later t :
  NoDup localized.*1 -> (locale, tip) ∈ localized -> now + ttl_ms < 2 ^ 63 -> later < now + ttl_ms ->
  cached locale item later (store_all ttl_ms item localized now t) = Some tip.
Proof.
  intros Hnd Hin Hfit Hl. revert t Hnd Hin. induction localized as [|[l tip'] rest IH]; intros t Hnd Hin; [by apply not_elem_of_nil in Hin|].
  apply NoDup_cons in Hnd as [Hni Hnd]. change (store_all ttl_ms item ((l, tip') :: rest) now t) with (store_all ttl_ms item rest now (store ttl_ms l item tip' now t)).
  apply elem_of_cons in Hin as [[= <- <-]|Hin]; [|by apply IH]. rewrite cached_store_all_ne by done. by apply cached_store.
Qed.

(** What has expired stays expired. *)
Lemma cached_later locale item now later t :
  tips_ok t -> later < 2 ^ 63 -> now <= later -> cached locale item now t = None -> cached locale item later t = None.
Proof.
  intros Ht Hl Hle. unfold cached, cache_get. destruct (t !! cache_key item locale) as [row|] eqn:Hrow; [|done]. cbn [mbind option_bind].
  destruct (Ht _ _ _ Hrow) as (tip & -> & _). rewrite !as_i64_small by lia. repeat case_decide; rewrite ?from_to_json; first [done|lia].
Qed.
End Exact.

Lemma elem_of_dedup l x : x ∈ dedup l <-> x ∈ l.
Proof.
  induction l as [|a [|b l] IH]; [done..|]. cbn [dedup]. case_decide as E; [rewrite IH; set_solver|]. rewrite !(elem_of_cons _ x a). by rewrite IH.
Qed.

Section Many.
Context `{JL : JsonLaws ItemTooltip}.

Lemma cached_many_elem locale items now t i tip :
  tips_ok t -> (i, tip) ∈ cached_many locale items now t <-> i ∈ items /\ cached locale i now t = Some tip.
Proof.
  intros Ht. unfold cached_many. set (wanted := dedup (sort_by_key id items)).
  assert (forall j, j ∈ wanted <-> j ∈ items) as Hw. { intros j. unfold wanted, sort_by_key. by rewrite elem_of_dedup, sort_by_perm. }
  set (keys := (fun i => cache_key i locale) <$> wanted). unfold cache_get_many.
  pose proof (key_chunks_concat (length keys) keys (le_n _)) as Hcat. set (chunks := key_chunks (length keys) keys) in *.
  assert (forall k v, (k, v) ∈ (chunks ≫= fun chunk => cache_rows chunk now t) <-> k ∈ keys /\ cache_get k now t = Ok (Some v)) as Hrows.
  { intros k v. rewrite list_elem_of_bind. setoid_rewrite cache_rows_elem. rewrite <- Hcat, elem_of_concat. naive_solver. }
  rewrite list_elem_of_fmap. setoid_rewrite list_elem_of_omap. split.
  - intros (tip' & [= -> ->] & [k v] & Hr & Hj). cbn in Hj. apply Hrows in Hr as [Hk Hg]. unfold keys in Hk. apply list_elem_of_fmap in Hk as (j & -> & Hj').
    assert (cached locale j now t = Some tip') as Hc by (unfold cached; by rewrite Hg). destruct (cached_ok _ _ _ _ _ Ht Hc) as [-> _].
    split; [by apply Hw|done].
  - intros [Hi Hc]. exists tip. destruct (cached_ok _ _ _ _ _ Ht Hc) as [-> _]. split; [done|]. unfold cached in Hc.
    destruct (cache_get _ _ _) as [[v|]|] eqn:Hg; [|done..]. exists (cache_key i locale, v). split; [|done]. apply Hrows. split; [|done].
    apply list_elem_of_fmap. exists i. split; [done|]. by apply Hw.
Qed.
End Many.


(** ** The warm-up *)
Section Warm.
Context `{JL : JsonLaws ItemTooltip} (ttl_ms : N) (tooltips : Region -> ItemId -> AppResult LocalizedTooltips) (Hans : answers_item tooltips) (region : Region).

Lemma cached_store_other locale item locale' item' tip now later t :
  item <> item' -> cached locale item later (store ttl_ms locale' item' tip now t) = cached locale item later t.
Proof.
  intros Hne. unfold cached, cache_get, store, cache_put. cbn [snd]. rewrite lookup_insert_ne; [done|]. by intros [-> _]%cache_key_inj.
Qed.

Lemma cached_lookup_other locale item later configured r locale' item' name now t :
  item <> item' -> cached locale item later (lookup_tip ttl_ms configured tooltips r locale' item' name now t).2 = cached locale item later t.
Proof.
  intros Hne. unfold lookup_tip. destruct (cached locale' _ _ _); [done|]. destruct configured; [|done]. cbn [negb].
  destruct (tooltips _ _) as [localized|[]]; try done; cbn [snd]; [|by apply cached_store_other].
  unfold store_all. revert t. induction localized as [|[l tip] rest IH]; intros t; [done|]. cbn [foldl fst snd]. rewrite IH. by apply cached_store_other.
Qed.

Lemma warm_loop_other locale item later todo fetched missing t :
  item ∉ (fst ∘ fst) <$> todo -> cached locale item later (warm_loop ttl_ms tooltips region todo fetched missing t).2 = cached locale item later t.
Proof.
  revert fetched missing t. induction todo as [|[[i name] now] rest IH]; intros fetched missing t Hni; [done|].
  cbn [fmap list_fmap compose fst] in Hni. apply not_elem_of_cons in Hni as [Hne Hni]. cbn [warm_loop].
  destruct (cached _ _ _ t); [by apply IH|].
  pose proof (cached_lookup_other locale item later true region Locale.DEFAULT_LOCALE i name now t Hne) as Ho.
  destruct (lookup_tip _ _ _ _ _ _ _ _ _) as [[tip fresh] t']. cbn [snd] in Ho. rewrite <- Ho. destruct fresh; first [by apply IH|done].
Qed.

(** A warm-up pass that is not cut short by the upstream leaves every item of the
    catalogue with a tooltip in the default language, for as long as the cache keeps it,
    unless the upstream answered about it without that language. *)
Theorem warm_fills todo fetched missing t f m t' :
  0 < ttl_ms -> NoDup ((fst ∘ fst) <$> todo) -> (forall i name now, (i, name, now) ∈ todo -> now + ttl_ms < 2 ^ 63) ->
  warm_loop ttl_ms tooltips region todo fetched missing t = ((f, m, false), t') ->
  forall i name now, (i, name, now) ∈ todo ->
    is_Some (cached Locale.DEFAULT_LOCALE i now t') \/ (exists localized, tooltips region i = Ok localized /\ Locale.DEFAULT_LOCALE ∉ localized.*1).
Proof.
  intros Httl. revert fetched missing t. induction todo as [|[[i name] now] rest IH]; intros fetched missing t Hnd Hfit Hrun i0 name0 now0 Hin; [by apply not_elem_of_nil in Hin|].
  cbn [fmap list_fmap compose fst] in Hnd. apply NoDup_cons in Hnd as [Hni Hnd].
  assert (forall i name now, (i, name, now) ∈ rest -> now + ttl_ms < 2 ^ 63) as Hfit' by (intros i' name' now' Hin'; apply (Hfit i' name' now'), elem_of_cons; by right).
  assert (now + ttl_ms < 2 ^ 63) as Hnow by (apply (Hfit i name now), elem_of_cons; by left).
  cbn [warm_loop] in Hrun. apply elem_of_cons in Hin as [[= -> -> ->]|Hin].
  - destruct (cached _ i now t) as [tip|] eqn:Hc.
    + left. pose proof (warm_loop_other Locale.DEFAULT_LOCALE i now rest fetched missing t Hni) as Ho. rewrite Hrun in Ho. cbn [snd] in Ho. rewrite Ho, Hc. done.
    + unfold lookup_tip in Hrun. rewrite Hc in Hrun. cbn [negb] in Hrun. destruct (tooltips region i) as [localized|e] eqn:Hl.
      * destruct (Hans _ _ _ Hl) as [Hnd' _]. destruct (find_first _ _) as [[l tip]|] eqn:Hf.
        -- left. apply find_first_Some in Hf as (Hm & Hp). apply bool_decide_eq_true in Hp. cbn in Hp. subst l.
           pose proof (f_equal snd Hrun) as Ho. cbn [snd] in Ho. rewrite <- Ho, warm_loop_other by done. rewrite (cached_store_all _ _ _ _ tip) by (done || lia). done.
        -- right. exists localized. split; [done|]. intros ([l tip] & El & Hin)%list_elem_of_fmap. by apply (find_first_None _ _ Hf), bool_decide_eq_false in Hin.
      * destruct e; try discriminate Hrun. left. pose proof (f_equal snd Hrun) as Ho. cbn [snd] in Ho. rewrite <- Ho, warm_loop_other by done. rewrite cached_store by (done || lia). done.
  - destruct (cached _ i now t) as [tip|]; [by eapply IH|]. destruct (lookup_tip _ _ _ _ _ _ _ _ _) as [[tip fresh] t1].
    destruct fresh; first [discriminate Hrun|by apply (IH _ _ _ Hnd Hfit' Hrun i0 name0 now0)].
Qed.
End Warm.

(** ** Examples *)
#[local] Instance Locale_countable : Countable Locale.t.
Proof. refine (inj_countable' Locale.code (fun s => default Locale.EnGb (Locale.parse s)) _). by intros []. Defined.
#[local] Instance ItemQuality_countable : Countable ItemQuality.t.
Proof. refine (inj_countable' ItemQuality.as_str ItemQuality.parse _). by intros []. Defined.

Definition tip_code (x : ItemTooltip) :=
  ((tt_item x, tt_locale x, tt_name x, tt_quality x), [tt_item_level x; tt_binding x; tt_unique x; tt_item_class x; tt_item_subclass x; tt_required_level x; tt_required_item_level x;
    tt_flavor x; tt_crafting_reagent x; tt_sell_price_label x], tt_subclass_hidden x, (tt_stats x, tt_effects x), tt_sell_price x, tt_fetched_at x).
Definition tip_uncode (c : (N * Locale.t * string * ItemQuality.t) * list (option string) * bool * (list string * list string) * option N * N) : ItemTooltip :=
  let '((item, locale, name, quality), lines, hidden, (stats, effects), price, at_) := c in
  let line i := default None (lines !! i) in
  {| tt_item := item; tt_locale := locale; tt_name := name; tt_quality := quality; tt_item_level := line 0%nat; tt_binding := line 1%nat; tt_unique := line 2%nat;
     tt_item_class := line 3%nat; tt_item_subclass := line 4%nat; tt_subclass_hidden := hidden; tt_required_level := line 5%nat;
     tt_required_item_level := line 6%nat; tt_stats := stats; tt_effects := effects; tt_flavor := line 7%nat; tt_crafting_reagent := line 8%nat;
     tt_sell_price := price; tt_sell_price_label := line 9%nat; tt_fetched_at := at_ |}.
Definition demo_tips : Json ItemTooltip := coded_json tip_code tip_uncode.
Lemma demo_tips_laws : @JsonLaws _ demo_tips.
Proof. apply coded_json_laws. by intros []. Qed.

(** An upstream with one item, in two languages. *)
Definition demo_upstream (region : Region) (item : ItemId) : AppResult LocalizedTooltips :=
  if decide (item = 7) then Ok [(Locale.EnGb, placeholder 7 Locale.EnGb "Flask" 5); (Locale.DeDe, placeholder 7 Locale.DeDe "Phiole" 5)] else Err AppError.NotFound.
Lemma demo_upstream_answers : answers_item demo_upstream.
Proof.
  intros region item localized. unfold demo_upstream. case_decide as E; [|done]. intros [= <-]. split; [by repeat (constructor; [set_solver|]); constructor|].
  intros l tip [[= -> ->]|[[= -> ->]|Hn%not_elem_of_nil]%elem_of_cons]%elem_of_cons; done.
Qed.

Definition demo_ask (locale : Locale.t) (item : ItemId) (now : Millis) : Ask :=
  {| ask_region := Eu; ask_locale := locale; ask_item := item; ask_name := "?"; ask_now := now |}.


Lemma warm_fills_witness :
  (@warm_loop demo_tips 100 demo_upstream Eu [(7, "Flask", 5); (8, "Gone", 6)] 0 0 ∅).1 = (1, 1, false) /\
  is_Some (@cached demo_tips Locale.DEFAULT_LOCALE 8 6 (@warm_loop demo_tips 100 demo_upstream Eu [(7, "Flask", 5); (8, "Gone", 6)] 0 0 ∅).2).
Proof.
  assert (exists t', @warm_loop demo_tips 100 demo_upstream Eu [(7, "Flask", 5); (8, "Gone", 6)] 0 0 ∅ = ((1, 1, false), t')) as (t' & Ha) by (eexists; reflexivity).
  rewrite Ha. split; [done|]. cbn [snd].
  edestruct (@warm_fills demo_tips demo_tips_laws 100 demo_upstream demo_upstream_answers Eu [(7, "Flask", 5); (8, "Gone", 6)] 0 0 ∅ 1 1 t') with (i := 8) (name := "Gone") (now := 6)
    as [Hc|(localized & Hl & _)]; [lia| |  |exact Ha|by repeat constructor|exact Hc|done].
  - cbn. repeat (constructor; [set_solver|]). constructor.
  - intros i name now [[= -> -> ->]|[[= -> -> ->]|Hn%not_elem_of_nil]%elem_of_cons]%elem_of_cons; [lia..|done].
Defined.
