(* ===== verification/EnvFile.v ===== *)
(** * EnvFile: the settings file of a development machine

    Models [crates/server/src/env_file.rs]: the reader of [.env], the search for it, and how
    it is laid under the process's environment.  Texts are the bytes of UTF-8; what [trim]
    takes off is the white space of ASCII.  The environment is a map of texts, and
    [set_var] panics on a value with a NUL, as the standard library documents: a panic is
    [None].

    [env_file_faithful] says what reaches the configuration. *)
From Stdlib Require Import Ascii ZArith.
From stdpp Require Import prelude gmap strings.
From S2P Require Import Prelude Text Accounts Market.

Record Entry := { en_key : string; en_value : string }.

Definition LF : ascii := ascii_of_N 10.
Definition CR : ascii := ascii_of_N 13.
Definition HASH : ascii := "#"%char.
Definition QUOTE : ascii := ascii_of_N 34.
Definition APOSTROPHE : ascii := ascii_of_N 39.
Definition NUL : ascii := ascii_of_N 0.

(** [str::lines]: a line ends at a line feed, with the carriage return before it; what is
    after the last one is a line when there is something. *)
Fixpoint lines_of (pieces : list string) : list string :=
  match pieces with
  | [] => []
  | [rest] => if decide (rest = "") then [] else [rest]
  | piece :: pieces => default piece (strip_suffix CR piece) :: lines_of pieces
  end.
Definition lines (s : string) : list string := lines_of (split LF s).

(** [trim_end_matches('\r')]. *)
Fixpoint trim_cr (s : string) : string :=
  match s with
  | EmptyString => EmptyString
  | String a t => match trim_cr t with EmptyString => if decide (a = CR) then EmptyString else String a EmptyString | t' => String a t' end
  end.

(** [split_once(" #")]: what is before it. *)
Fixpoint before_comment (s : string) : option string :=
  match s with
  | String a ((String b _) as t) => if decide (a = " "%char /\ b = HASH) then Some "" else String a <$> before_comment t
  | _ => None
  end.

(** What is between two quotes [q], when the text begins and ends with one. *)
Definition unquoted (q : ascii) (value : string) : option string :=
  match value with String a t => if decide (a = q) then strip_suffix q t else None | EmptyString => None end.

Definition clean_value (value : string) : string :=
  match unquoted QUOTE value with
  | Some inside => inside
  | None =>
      match unquoted APOSTROPHE value with
      | Some inside => inside
      | None => match before_comment value with Some before => trim_right before | None => value end
      end
  end.

Definition key_char (a : ascii) : bool :=
  let n := N_of_ascii a in bool_decide (48 <= n <= 57 \/ 65 <= n <= 90 \/ 97 <= n <= 122 \/ a = "_"%char).

Definition starts_with (c : ascii) (s : string) : bool := match s with String a _ => bool_decide (a = c) | EmptyString => false end.

Definition parse_line (raw : string) : option Entry :=
  let line := trim (trim_cr raw) in
  if bool_decide (line = "") || starts_with HASH line then None
  else
    let line := trim_left (default line (strip_prefix "export " line)) in
    '(key, value) ← split_once "="%char line;
    let key := trim key in
    if bool_decide (key = "") || negb (all_chars key_char key) then None
    else Some {| en_key := key; en_value := clean_value (trim value) |}.

Definition parse (contents : string) : list Entry := omap parse_line (lines contents).

(** The directories from the working directory up; [is_file] asks for a [.env] there. *)
Fixpoint find_up (fuel : nat) (is_file : string -> bool) (dirs : list string) : option string :=
  match fuel, dirs with
  | S fuel, dir :: parents => if is_file dir then Some dir else find_up fuel is_file parents
  | _, _ => None
  end.
Definition find (is_file : string -> bool) (start_and_parents : list string) : option string := find_up 4 is_file start_and_parents.

Abbreviation Environment := (gmap string string).

Definition set_var (key value : string) (env : Environment) : option Environment :=
  if bool_decide (key = "") || has_char "="%char key || has_char NUL key || has_char NUL value then None else Some (<[key := value]> env).

Fixpoint apply_entries (entries : list Entry) (applied : list string) (env : Environment) : option (list string * Environment) :=
  match entries with
  | [] => Some (applied, env)
  | e :: entries =>
      match env !! en_key e with
      | Some _ => apply_entries entries applied env
      | None => env ← set_var (en_key e) (en_value e) env; apply_entries entries (applied ++ [en_key e]) env
      end
  end.

Definition load_from (file : option string) (env : Environment) : option (list string * Environment) :=
  match file with
  | None => Some ([], env)
  | Some contents => apply_entries (parse contents) [] env
  end.

Definition load_default (is_file : string -> bool) (read : string -> option string) (start_and_parents : list string) (env : Environment) :
    option ((option string * list string) * Environment) :=
  match find is_file start_and_parents with
  | Some path => '(keys, env) ← load_from (read path) env; Some ((Some path, keys), env)
  | None => Some ((None, []), env)
  end.

(** ** Reading back what is written *)
Definition key_ok (key : string) : Prop := key <> "" /\ all_chars key_char key = true.

(** A line that gives [key] the very text [value], whatever it holds but a line feed. *)
Definition assignment (e : Entry) : string := en_key e +:+ "=" +:+ String QUOTE (en_value e +:+ String QUOTE EmptyString).

Lemma key_char_plain a : key_char a = true -> is_space a = false /\ a <> "="%char /\ a <> HASH /\ a <> NUL /\ a <> CR.
Proof. destruct a as [[] [] [] [] [] [] [] []]; vm_compute; try discriminate; intros _; split_and!; first [done|discriminate]. Qed.

Lemma all_chars_has_char p c s : p c = false -> all_chars p s = true -> has_char c s = false.
Proof.
  intros Hc. induction s as [|a s IH]; [done|]. cbn. intros [Ha Hs]%andb_true_iff. rewrite IH by done. rewrite orb_false_r. apply bool_decide_eq_false. intros ->. congruence.
Qed.

Lemma trim_cr_snoc s a : a <> CR -> trim_cr (s +:+ String a EmptyString) = s +:+ String a EmptyString.
Proof.
  intros Ha. induction s as [|b s IH].
  - change (trim_cr (String a EmptyString) = String a EmptyString). cbn. by rewrite decide_False.
  - change (trim_cr (String b (s +:+ String a EmptyString)) = String b (s +:+ String a EmptyString)). cbn [trim_cr]. rewrite IH. by destruct s.
Qed.

Lemma key_first key : key_ok key -> exists a k, key = String a k /\ key_char a = true.
Proof. intros [Hne Hk]. destruct key as [|a k]; [done|]. cbn in Hk. apply andb_true_iff in Hk as [Ha _]. by exists a, k. Qed.

Lemma key_trim key : key_ok key -> trim key = key.
Proof.
  intros [Hne Hk]. destruct (key_first key) as (a & k & -> & Ha); [done|]. unfold trim. cbn [trim_left]. destruct (key_char_plain a Ha) as [Hs _]. rewrite Hs.
  clear Hne Ha Hs. revert Hk. generalize (String a k) as t. clear. induction t as [|b t IH]; [done|]. cbn [all_chars trim_right]. intros [Hb Ht]%andb_true_iff. rewrite IH by done.
  destruct (key_char_plain b Hb) as [-> _]. by destruct t.
Qed.

Lemma key_no_export key rest : key_ok key -> strip_prefix "export " (key +:+ String "="%char rest) = None.
Proof.
  intros [Hne Hk]. destruct (strip_prefix _ _) as [r|] eqn:E; [|done]. apply strip_prefix_Some in E. exfalso.
  assert (forall t s : string, all_chars key_char t = true -> t +:+ String "="%char rest = s +:+ String " "%char r -> has_char "="%char s = false -> False) as Hx.
  { clear. intros t. induction t as [|a t IH]; intros [|b s] Ht E Hs; cbn in *; try discriminate.
    - injection E as <- _. by rewrite bool_decide_eq_true_2 in Hs.
    - injection E as -> _. apply andb_true_iff in Ht as [Ha _]. vm_compute in Ha. discriminate.
    - injection E as -> E. apply andb_true_iff in Ht as [_ Ht]. apply orb_false_iff in Hs as [_ Hs]. by apply (IH s). }
  by apply (Hx key "export").
Qed.

Lemma parse_line_assignment e : key_ok (en_key e) -> parse_line (assignment e) = Some e.
Proof.
  intros Hk. destruct e as [key value]. unfold assignment. cbn [en_key en_value] in *. unfold parse_line.
  destruct (key_first key Hk) as (a & k & Ek & Ha). destruct (key_char_plain a Ha) as (Hsp & _ & Hh & _).
  set (quoted := String QUOTE (value +:+ String QUOTE EmptyString)). change ("=" +:+ quoted) with (String "="%char quoted).
  assert (exists body, key +:+ String "="%char quoted = String a (body +:+ String QUOTE EmptyString)) as (body & Eb).
  { exists (k +:+ String "="%char (String QUOTE value)). rewrite Ek. unfold quoted. cbn. f_equal. rewrite text_app_assoc. done. }
  assert (trim (trim_cr (key +:+ String "="%char quoted)) = key +:+ String "="%char quoted) as ->.
  { rewrite Eb. change (String a (body +:+ String QUOTE EmptyString)) with ((String a body) +:+ String QUOTE EmptyString). rewrite trim_cr_snoc by done. by apply trim_solid. }
  rewrite bool_decide_eq_false_2 by (by rewrite Eb).
  assert (starts_with HASH (key +:+ String "="%char quoted) = false) as -> by (rewrite Eb; by apply bool_decide_eq_false_2). cbn [orb].
  rewrite key_no_export by done. cbn [default].
  assert (trim_left (key +:+ String "="%char quoted) = key +:+ String "="%char quoted) as -> by (rewrite Eb; cbn [trim_left]; by rewrite Hsp).
  rewrite split_once_app by (destruct Hk as [_ Hk]; by apply (all_chars_has_char key_char)). cbn [mbind option_bind]. rewrite key_trim by done.
  destruct Hk as [Hne Hk]. rewrite bool_decide_eq_false_2, Hk by done. cbn [negb orb]. do 2 f_equal.
  unfold quoted. rewrite trim_solid by done. unfold clean_value, unquoted. rewrite decide_True by done. by rewrite strip_suffix_app.
Qed.

(** A file of such lines, each ended by a line feed. *)
Definition written (entries : list Entry) : string := foldr (fun e s => assignment e +:+ String LF s) "" entries.

Lemma lines_of_cons piece pieces : pieces <> [] -> lines_of (piece :: pieces) = default piece (strip_suffix CR piece) :: lines_of pieces.
Proof. by destruct pieces. Qed.

Lemma assignment_no_lf e : key_ok (en_key e) -> has_char LF (en_value e) = false -> has_char LF (assignment e) = false.
Proof.
  intros [_ Hk] Hv. unfold assignment. rewrite has_char_app. rewrite (all_chars_has_char key_char) by done.
  change (has_char LF (en_value e +:+ String QUOTE EmptyString) = false). by rewrite has_char_app, Hv.
Qed.

Lemma assignment_no_cr e : strip_suffix CR (assignment e) = None.
Proof.
  destruct (strip_suffix CR (assignment e)) as [r|] eqn:E; [|done]. apply strip_suffix_Some in E. exfalso. unfold assignment in E.
  assert (forall s t : string, s +:+ String QUOTE EmptyString <> t +:+ String CR EmptyString) as Hx.
  { clear. induction s as [|a s IH]; intros [|b t] E; cbn in E; try discriminate.
    - injection E as <- E. by destruct t.
    - injection E as -> E. by destruct s.
    - injection E as -> E. by apply (IH t). }
  apply (Hx (en_key e +:+ "=" +:+ String QUOTE (en_value e)) r). rewrite <- E. rewrite !text_app_assoc. done.
Qed.

Lemma parse_written entries :
  Forall (fun e => key_ok (en_key e) /\ has_char LF (en_value e) = false) entries -> parse (written entries) = entries.
Proof.
  unfold parse, lines. induction 1 as [|e entries [Hk Hv] _ IH]; [done|]. cbn [written foldr]. rewrite split_cons by by apply assignment_no_lf.
  rewrite lines_of_cons by apply split_nonempty. rewrite assignment_no_cr. cbn [default omap list_omap]. rewrite parse_line_assignment by done. f_equal. exact IH.
Qed.

(** ** Laying the file under the environment *)
Lemma parse_line_key raw e : parse_line raw = Some e -> key_ok (en_key e).
Proof.
  unfold parse_line. destruct (_ || _); [done|]. destruct (split_once _ _) as [[k v]|]; [|done]. cbn [mbind option_bind].
  destruct (bool_decide _) eqn:Hne; [done|]. apply bool_decide_eq_false in Hne. destruct (all_chars _ _) eqn:Hk; [|done]. cbn. by intros [= <-].
Qed.

Lemma parse_keys contents : Forall (fun e => key_ok (en_key e)) (parse contents).
Proof. apply Forall_forall. unfold parse. intros e (raw & _ & He)%list_elem_of_omap. by apply parse_line_key in He. Qed.

Definition first_of (k : string) (entries : list Entry) : option string := en_value <$> find_first (fun e => bool_decide (en_key e = k)) entries.

Lemma set_var_ok key value env : key_ok key -> has_char NUL value = false -> set_var key value env = Some (<[key := value]> env).
Proof.
  intros [Hne Hk] Hv. unfold set_var. rewrite bool_decide_eq_false_2, Hv by done. by rewrite !(all_chars_has_char key_char) by done.
Qed.

Lemma first_of_cons k e entries : first_of k (e :: entries) = if decide (en_key e = k) then Some (en_value e) else first_of k entries.
Proof.
  unfold first_of. rewrite find_first_cons. case_decide as E; [by rewrite bool_decide_eq_true_2|by rewrite bool_decide_eq_false_2].
Qed.

Lemma apply_entries_ok entries applied env :
  Forall (fun e => key_ok (en_key e)) entries -> Forall (fun e => has_char NUL (en_value e) = false) entries ->
  exists keys env', apply_entries entries applied env = Some (applied ++ keys, env') /\
    (forall k, env' !! k = match env !! k with Some v => Some v | None => first_of k entries end) /\
    NoDup keys /\ (forall k, k ∈ keys <-> env !! k = None /\ k ∈ en_key <$> entries).
Proof.
  intros Hks Hvs. revert applied env Hvs. induction Hks as [|e entries Hk _ IH]; intros applied env Hvs.
  { exists [], env. rewrite app_nil_r. split_and!; [done|by intros k; destruct (env !! k)|constructor|]. intros k. cbn. rewrite elem_of_nil. intuition done. }
  apply Forall_cons in Hvs as [Hv Hvs]. cbn [apply_entries]. destruct (env !! en_key e) as [v|] eqn:He.
  - destruct (IH applied env Hvs) as (keys & env' & Hrun & Henv & Hnd & Hkeys). exists keys, env'. split_and!; [done| |done|].
    + intros k. rewrite Henv, first_of_cons. destruct (env !! k) eqn:Hk'; [done|]. rewrite decide_False; [done|]. intros <-. congruence.
    + intros k. rewrite Hkeys. cbn [fmap list_fmap]. rewrite elem_of_cons. split; [by intuition|]. intros [Hn [->|Hin]]; [congruence|done].
  - rewrite set_var_ok by done. cbn [mbind option_bind].
    destruct (IH (applied ++ [en_key e]) (<[en_key e := en_value e]> env) Hvs) as (keys & env' & Hrun & Henv & Hnd & Hkeys).
    exists (en_key e :: keys), env'. split_and!.
    + rewrite Hrun. by rewrite <- app_assoc.
    + intros k. rewrite Henv, first_of_cons. case_decide as E; [subst k; by rewrite lookup_insert_eq, He|]. by rewrite lookup_insert_ne.
    + constructor; [|done]. rewrite Hkeys, lookup_insert_eq. by intros [? _].
    + intros k. cbn [fmap list_fmap]. rewrite !elem_of_cons, Hkeys. destruct (decide (en_key e = k)) as [<-|Hne].
      * rewrite lookup_insert_eq. intuition done.
      * rewrite lookup_insert_ne by done. intuition congruence.
Qed.

(** A value written between quotes reads back as it is, whatever it holds but a line
    feed, and a file of such lines as its assignments in order.  The file found is that of
    the nearest of the four directories.  Loading a file leaves every variable that was
    set as it was and gives every other one the file names its first value there, reports
    exactly the names it set, once each, and does not panic unless a value holds a NUL. *)
Theorem env_file_faithful :
  (forall entries, Forall (fun e => key_ok (en_key e) /\ has_char LF (en_value e) = false) entries -> parse (written entries) = entries) /\
  (forall is_file dirs, find is_file dirs = find_first is_file (take 4 dirs)) /\
  (forall contents env, Forall (fun e => has_char NUL (en_value e) = false) (parse contents) ->
    exists keys env', load_from (Some contents) env = Some (keys, env') /\
      (forall k, env' !! k = match env !! k with Some v => Some v | None => first_of k (parse contents) end) /\
      NoDup keys /\ (forall k, k ∈ keys <-> env !! k = None /\ k ∈ en_key <$> parse contents)).
Proof.
  split_and!; [exact parse_written| |].
  - intros is_file dirs. unfold find. generalize 4%nat. induction dirs as [|d dirs IH]; intros [|n]; [done..|]. cbn [find_up take].
    rewrite find_first_cons. by destruct (is_file d).
  - intros contents env Hv. by apply apply_entries_ok; [apply parse_keys|].
Qed.

(** The file of the documentation's example, and the rest of its rules at work. *)
Example env_rules :
  parse ("# keys" +:+ String LF ("export A=secret" +:+ String CR (String LF ("B=v#1 # note" +:+ String LF "A B=1")))) =
  [{| en_key := "A"; en_value := "secret" |}; {| en_key := "B"; en_value := "v#1" |}].
Proof. vm_compute. reflexivity. Qed.
