(* ===== verification/Charts.v ===== *)
(** * Charts: the sparkline of a card, and what a chart may claim

    Models the parts of [crates/app-web/src/chart.rs] that decide rather than decorate: what
    is escaped, when a chart is refused, the runs a line is drawn in, the clipped ceiling, and
    the whole of [sparkline], down to its text, with its geometry in binary64.

    [sparkline_faithful]: the drawing says what was observed and nothing else. *)
From Stdlib Require Import Ascii ZArith.
From stdpp Require Import prelude strings pretty.
From S2P Require Import Prelude F64 Text Market Engine Catalog Series.

(** ** Text in markup *)
Definition AMP : ascii := "&"%char.
Definition QUOT : ascii := ascii_of_N 34.
Definition APOS : ascii := ascii_of_N 39.

(** [replace(char, text)]. *)
Fixpoint replace_char (c : ascii) (by_ s : string) : string :=
  match s with EmptyString => EmptyString | String a s => (if decide (a = c) then by_ else String a EmptyString) +:+ replace_char c by_ s end.

Definition escape (s : string) : string :=
  replace_char APOS "&#x27;" (replace_char QUOT "&quot;" (replace_char ">" "&gt;" (replace_char "<" "&lt;" (replace_char AMP "&amp;" s)))).

(** An attribute: a name and its text in quotes. *)
Definition attr (name value : string) : string := name +:+ "=" +:+ String QUOT (value +:+ String QUOT EmptyString).

Definition placeholder (note : string) : string := "<p " +:+ attr "class" "chart-empty muted" +:+ ">" +:+ escape note +:+ "</p>".

(** ** What a chart may claim *)
Definition CHART_GATES : Gates := {| g_median := 6; g_tails := 6; g_coverage := 0 |}.
Definition chart_admission (series : ChartSeries) : Result unit Insufficient := Gates_admit CHART_GATES (wrap 32 (observed series)) None.

Definition refused_chart (empty_note : string) (reason : Insufficient) : string :=
  match reason with
  | NotEnoughHistory have need => placeholder (empty_note +:+ " (" +:+ pretty have +:+ " of " +:+ pretty need +:+ " snapshots)")
  | TooManyGaps coverage need => placeholder (empty_note +:+ " (" +:+ pretty coverage +:+ "% coverage; need " +:+ pretty need +:+ "%)")
  end.

(** [None] is the panic of the two [expect]s. *)
Definition clipped_price_max (observed : list ChartPoint) : option N :=
  observed_max ← maxN (cp_price <$> observed);
  p95 ← quantile (from_observations ((fun p => (cp_at p, cp_price p)) <$> observed)) (lit 95 100);
  Some (N.min observed_max ((N.min u64_max (p95 * 11) + 9) / 10)).

(** The loop of [runs]: what is out, and the run so far. *)
Definition run_step (acc : list (list ChartPoint) * list ChartPoint) (p : ChartPoint) : list (list ChartPoint) * list ChartPoint :=
  if cp_observed p then (acc.1, acc.2 ++ [p]) else if decide (acc.2 = []) then acc else (acc.1 ++ [acc.2], []).
Definition runs (points : list ChartPoint) : list (list ChartPoint) :=
  let '(out, run) := foldl run_step ([], []) points in if decide (run = []) then out else out ++ [run].

(** ** The sparkline *)
Definition SPARK_W : f64 := lit 100 1.
Definition SPARK_H : f64 := lit 24 1.

(** [as i32]: truncation, saturating. *)
Definition to_i32 (x : f64) : Z := Z.max (- 2 ^ 31) (Z.min (2 ^ 31 - 1) (Z.quot x one)).

Definition spark_x (slots : N) (index : nat) : Z := to_i32 (fround (fmul (fdiv (of_u64 (N.of_nat index)) (of_u64 (slots - 1))) SPARK_W)).
Definition spark_y (lo hi price : N) : Z :=
  let span := of_u64 (hi - lo) in
  if decide (span = 0%Z) then to_i32 (fround (fdiv SPARK_H (lit 2 1)))
  else to_i32 (fround (fsub (fsub SPARK_H (lit 1 1)) (fmul (fdiv (of_u64 (price - lo)) span) (fsub SPARK_H (lit 2 1))))).

Definition point_text (p : Z * Z) : string := pretty p.1 +:+ "," +:+ pretty p.2.

(** [flush]: what a run of points adds to the drawing. *)
Definition flush (run : list (Z * Z)) : string :=
  match run with
  | [] => ""
  | [p] => "<circle " +:+ attr "class" "spark-dot" +:+ " " +:+ attr "cx" (pretty p.1) +:+ " " +:+ attr "cy" (pretty p.2) +:+ " " +:+ attr "r" "1" +:+ "/>"
  | _ => "<polyline " +:+ attr "class" "spark-line" +:+ " " +:+ attr "points" (join " "%char (point_text <$> run)) +:+ "/>"
  end.

Definition spark_step (point : nat -> N -> Z * Z) (acc : string * list (Z * Z)) (slot : nat * option Copper) : string * list (Z * Z) :=
  match slot.2 with Some price => (acc.1, acc.2 ++ [point slot.1 price]) | None => (acc.1 +:+ flush acc.2, []) end.

Definition enumerated (spark : Spark) : list (nat * option Copper) := imap pair (slots spark).
Definition seen (spark : Spark) : list (nat * N) := omap (fun s => (fun p => (s.1, p)) <$> s.2) (enumerated spark).

(** [None] is the panic of the two [expect]s. *)
Definition sparkline (spark : Spark) (label : string) : option string :=
  if Spark_is_empty spark then Some ""
  else
    let values := omap id (slots spark) in
    lo ← minN values; hi ← maxN values;
    let n := N.max (N.of_nat (length (slots spark))) 2 in
    let point i price := (spark_x n i, spark_y lo hi price) in
    let svg := "<svg " +:+ attr "class" "spark" +:+ " " +:+ attr "viewBox" "0 0 100 24" +:+ " " +:+ attr "role" "img" +:+ " " +:+ attr "aria-label" (escape label) +:+ " " +:+
               attr "preserveAspectRatio" "none" +:+ ">" in
    let '(svg, run) := foldl (spark_step point) (svg, []) (enumerated spark) in
    let svg := svg +:+ flush run in
    let svg := match last (seen spark) with
               | Some (i, price) => svg +:+ "<circle " +:+ attr "class" "spark-now" +:+ " " +:+ attr "cx" (pretty (spark_x n i)) +:+ " " +:+ attr "cy" (pretty (spark_y lo hi price)) +:+
                                    " " +:+ attr "r" "1.8" +:+ "/>"
               | None => svg
               end in
    Some (svg +:+ "</svg>").

(** ** Nothing breaks out of the markup *)
Lemma replace_char_has c by_ s a :
  has_char a (replace_char c by_ s) = true -> (a <> c /\ has_char a s = true) \/ has_char a by_ = true.
Proof.
  induction s as [|b s IH]; [done|]. cbn [replace_char]. rewrite has_char_app. intros [H|H]%orb_true_iff.
  - case_decide as Hb; [by right|]. cbn in H. rewrite orb_false_r in H. apply bool_decide_eq_true in H as <-. left. split; [done|]. cbn. by rewrite bool_decide_eq_true_2.
  - destruct (IH H) as [[Hne Hs]|Hb]; [left|by right]. split; [done|]. cbn [has_char]. by rewrite Hs, orb_true_r.
Qed.

(** No angle bracket and no quote is left, so a text stays in its element or attribute. *)
Lemma escape_inert s a : a = "<"%char \/ a = ">"%char \/ a = QUOT \/ a = APOS -> has_char a (escape s) = false.
Proof.
  intros Ha. apply not_true_is_false. intros H. unfold escape in H.
  destruct (replace_char_has _ _ _ _ H) as [[H1 H']|H']; [|by destruct Ha as [ -> | [ -> | [ -> | -> ]]]].
  destruct (replace_char_has _ _ _ _ H') as [[H2 H'']|H'']; [|by destruct Ha as [ -> | [ -> | [ -> | -> ]]]].
  destruct (replace_char_has _ _ _ _ H'') as [[H3 H3']|H3']; [|by destruct Ha as [ -> | [ -> | [ -> | -> ]]]].
  destruct (replace_char_has _ _ _ _ H3') as [[H4 _]|H4']; [|by destruct Ha as [ -> | [ -> | [ -> | -> ]]]].
  by destruct Ha as [ -> | [ -> | [ -> | -> ]]].
Qed.

(** ** Geometry *)
Lemma of_u64_mono n m : n <= m -> (of_u64 n <= of_u64 m)%Z.
Proof. intros H. pose proof one_pos. apply rnd_mono; [lia..|]. rewrite !Z.mul_1_r. apply Z.mul_le_mono_nonneg_r; lia. Qed.
Lemma of_u64_pos n : 0 < n -> (one <= of_u64 n)%Z.
Proof. intros H. pose proof one_pos. apply rnd_ge; [rewrite <- (Z.mul_1_l one); apply representable_int; lia|lia|]. rewrite !Z.mul_1_r. rewrite <- (Z.mul_1_l one) at 1. apply Z.mul_le_mono_nonneg_r; lia. Qed.
Lemma lit_int n : (0 <= n <= 2 ^ 52)%Z -> lit n 1 = (n * one)%Z.
Proof. intros H. unfold lit. rewrite <- (Z.mul_1_r (n * one)) at 1. apply rnd_exact; [apply representable_int; lia|lia]. Qed.

(** A share of a whole, between nothing and one. *)
Lemma share_range a b : (0 <= a <= b)%Z -> (0 < b)%Z -> (0 <= fdiv a b <= one)%Z.
Proof.
  intros Ha Hb. pose proof one_pos. split; [apply rnd_ge; [apply representable_0|lia|nia]|apply rnd_le; [rewrite <- (Z.mul_1_l one); apply representable_int; lia|lia|nia]].
Qed.
Lemma share_mono a a' b : (a <= a')%Z -> (0 < b)%Z -> (fdiv a b <= fdiv a' b)%Z.
Proof. intros H Hb. pose proof one_pos. apply rnd_mono; [done..|]. repeat (apply Z.mul_le_mono_nonneg_r; [lia|]). done. Qed.

Lemma to_i32_round n x : (0 <= n < 2 ^ 31)%Z -> (0 <= x)%Z -> ((x <= n * one)%Z -> (to_i32 (fround x) <= n)%Z) /\ ((n * one <= x)%Z -> (x < 2 ^ 31 * one)%Z -> (n <= to_i32 (fround x))%Z).
Proof.
  intros Hn Hx. pose proof one_pos as Ho. split.
  - intros H. assert (fround x <= n * one)%Z as Hf by (rewrite <- (fround_int n) by lia; apply fround_mono; lia).
    unfold to_i32. assert (Z.quot (fround x) one <= n)%Z; [|lia]. rewrite <- (Z.quot_mul n one) by lia. apply Z.quot_le_mono; lia.
  - intros H Hlt. assert (n * one <= fround x)%Z as Hf by (rewrite <- (fround_int n) by lia; apply fround_mono; lia).
    unfold to_i32. assert (n <= Z.quot (fround x) one)%Z; [|lia]. rewrite <- (Z.quot_mul n one) at 1 by lia. apply Z.quot_le_mono; lia.
Qed.

Lemma to_i32_mono x y : (x <= y)%Z -> (to_i32 x <= to_i32 y)%Z.
Proof. intros H. pose proof one_pos. unfold to_i32. assert (Z.quot x one <= Z.quot y one)%Z by (apply Z.quot_le_mono; lia). lia. Qed.

Lemma spark_x_range n i : 2 <= n -> N.of_nat i < n -> (0 <= spark_x n i <= 100)%Z.
Proof.
  intros Hn Hi. pose proof one_pos as Ho. unfold spark_x. set (t := fdiv _ _).
  assert (0 <= t <= one)%Z as Ht by (apply share_range; [split; [apply of_u64_nonneg|apply of_u64_mono; lia]|pose proof (of_u64_pos (n - 1)); lia]).
  assert (SPARK_W = 100 * one)%Z as Ew by by apply lit_int. assert (0 <= fmul t SPARK_W <= 100 * one)%Z as Hm.
  { rewrite Ew. split; [apply fmul_nonneg; lia|apply fmul_le_l; [apply representable_int; lia|lia|lia]]. }
  destruct (to_i32_round 100 (fmul t SPARK_W)) as [H1 _]; [lia..|]. destruct (to_i32_round 0 (fmul t SPARK_W)) as [_ H2]; [lia..|]. split; [apply H2; lia|apply H1; lia].
Qed.

Lemma spark_x_mono n i j : 2 <= n -> (i <= j)%nat -> (spark_x n i <= spark_x n j)%Z.
Proof.
  intros Hn Hij. unfold spark_x. apply to_i32_mono, fround_mono. assert (0 < of_u64 (n - 1))%Z as Hp by (pose proof (of_u64_pos (n - 1)); pose proof one_pos; lia).
  assert (forall k, 0 <= fdiv (of_u64 (N.of_nat k)) (of_u64 (n - 1)))%Z as Hk.
  { intros k. pose proof one_pos. apply rnd_ge; [apply representable_0|done|]. pose proof (of_u64_nonneg (N.of_nat k)). nia. }
  assert (0 <= SPARK_W)%Z as Hw by (unfold SPARK_W; rewrite lit_int by lia; pose proof one_pos; lia).
  split; [by apply fmul_nonneg|]. apply fmul_mono; [split; [done|]|lia]. apply share_mono; [|done]. apply of_u64_mono. lia.
Qed.

(** The height before rounding: between the two insets. *)
Definition height (span above : f64) : f64 := fsub (fsub SPARK_H (lit 1 1)) (fmul (fdiv above span) (fsub SPARK_H (lit 2 1))).

Lemma fsub_int a b : (Z.abs (a - b) <= 2 ^ 53)%Z -> fsub (a * one) (b * one) = ((a - b) * one)%Z.
Proof. intros H. rewrite fsub_exact; [by rewrite Z.mul_sub_distr_r|]. rewrite <- Z.mul_sub_distr_r. by apply representable_int. Qed.

Lemma height_eq span above : height span above = fsub (23 * one) (fmul (fdiv above span) (22 * one)).
Proof. unfold height, SPARK_H. rewrite !lit_int by lia. by rewrite (fsub_int 24 1), (fsub_int 24 2) by lia. Qed.

Lemma height_range span above : (0 <= above <= span)%Z -> (0 < span)%Z -> (one <= height span above <= 23 * one)%Z.
Proof.
  intros Ha Hs. rewrite height_eq. pose proof one_pos as Ho. pose proof (share_range above span Ha Hs) as Ht. set (t := fdiv above span) in *.
  assert (0 <= fmul t (22 * one) <= 22 * one)%Z as Hm by (split; [apply fmul_nonneg; lia|apply fmul_le_l; [apply representable_int; lia|lia|lia]]).
  unfold fsub. split; [apply rnd_ge; [rewrite <- (Z.mul_1_l one); apply representable_int; lia|lia|lia]|apply rnd_le; [apply representable_int; lia|lia|lia]].
Qed.

Lemma height_antitone span a a' : (0 <= a <= a')%Z -> (0 < span)%Z -> (height span a' <= height span a)%Z.
Proof.
  intros Ha Hs. rewrite (height_eq span a), (height_eq span a'). pose proof one_pos as Ho. assert (forall b, 0 <= b -> 0 <= fdiv b span)%Z as Hn.
  { intros b Hb. apply rnd_ge; [apply representable_0|done|]. rewrite Z.mul_0_l. apply Z.mul_nonneg_nonneg; lia. }
  assert (fmul (fdiv a span) (22 * one) <= fmul (fdiv a' span) (22 * one))%Z by (apply fmul_mono; [split; [apply Hn; lia|apply share_mono; lia]|lia]).
  unfold fsub. apply rnd_mono; lia.
Qed.

Lemma share_whole a : (0 < a)%Z -> fdiv a a = one.
Proof.
  intros Ha. pose proof one_pos. assert (representable one) as H1 by (rewrite <- (Z.mul_1_l one); apply representable_int; lia).
  apply Z.le_antisymm; [apply rnd_le; [done|done|lia]|apply rnd_ge; [done|done|lia]].
Qed.

Lemma spark_y_height lo hi price : lo < hi -> spark_y lo hi price = to_i32 (fround (height (of_u64 (hi - lo)) (of_u64 (price - lo)))) /\ (0 < of_u64 (hi - lo))%Z.
Proof.
  intros H. pose proof (of_u64_pos (hi - lo) ltac:(lia)) as Hp. pose proof one_pos. unfold spark_y, height. rewrite decide_False by lia. split; [reflexivity|lia].
Qed.

Lemma spark_y_range lo hi price : lo <= price <= hi -> (1 <= spark_y lo hi price <= 23)%Z.
Proof.
  intros Hp. destruct (decide (lo = hi)) as [->|Hne].
  - unfold spark_y. rewrite N.sub_diag, decide_True by done. assert (fdiv SPARK_H (lit 2 1) = 12 * one)%Z as ->.
    { unfold SPARK_H. rewrite !lit_int by lia. unfold fdiv. replace (24 * one * one)%Z with (12 * one * (2 * one))%Z by lia. apply rnd_exact; [apply representable_int; lia|pose proof one_pos; lia]. }
    pose proof one_pos. destruct (to_i32_round 12 (12 * one)) as [H1 H2]; [lia..|]. specialize (H1 ltac:(lia)). specialize (H2 ltac:(lia) ltac:(lia)). lia.
  - destruct (spark_y_height lo hi price ltac:(lia)) as [-> Hs]. pose proof one_pos as Ho.
    assert (one <= height (of_u64 (hi - lo)) (of_u64 (price - lo)) <= 23 * one)%Z as Hh by (apply height_range; [split; [apply of_u64_nonneg|apply of_u64_mono; lia]|done]).
    destruct (to_i32_round 23 (height (of_u64 (hi - lo)) (of_u64 (price - lo)))) as [H1 _]; [lia..|]. destruct (to_i32_round 1 (height (of_u64 (hi - lo)) (of_u64 (price - lo)))) as [_ H2]; [lia..|].
    split; [apply H2; lia|apply H1; lia].
Qed.

Lemma spark_y_antitone lo hi p q : lo <= p <= q -> q <= hi -> (spark_y lo hi q <= spark_y lo hi p)%Z.
Proof.
  intros Hp Hq. destruct (decide (lo = hi)) as [->|Hne]; [replace q with p by lia; lia|].
  destruct (spark_y_height lo hi p ltac:(lia)) as [-> Hs], (spark_y_height lo hi q ltac:(lia)) as [-> _]. pose proof one_pos as Ho. apply to_i32_mono, fround_mono.
  assert (0 <= of_u64 (p - lo) <= of_u64 (q - lo))%Z as Ha by (split; [apply of_u64_nonneg|apply of_u64_mono; lia]).
  assert (0 <= of_u64 (q - lo) <= of_u64 (hi - lo))%Z as Hb by (split; [apply of_u64_nonneg|apply of_u64_mono; lia]).
  pose proof (height_range _ _ Hb Hs). split; [lia|]. by apply height_antitone.
Qed.

Lemma spark_y_ends lo hi : lo < hi -> spark_y lo hi lo = 23%Z /\ spark_y lo hi hi = 1%Z.
Proof.
  intros H. destruct (spark_y_height lo hi lo H) as [-> Hs], (spark_y_height lo hi hi H) as [-> _]. pose proof one_pos as Ho. rewrite (height_eq (of_u64 (hi - lo)) (of_u64 (lo - lo))), (height_eq (of_u64 (hi - lo)) (of_u64 (hi - lo))), N.sub_diag, (share_whole (of_u64 (hi - lo))) by done.
  assert (fdiv (of_u64 0) (of_u64 (hi - lo)) = 0)%Z as ->.
  { assert (of_u64 0 = 0)%Z as -> by (vm_compute; reflexivity). unfold fdiv. rewrite Z.mul_0_l. rewrite <- (Z.mul_0_l (of_u64 (hi - lo))) at 1. apply rnd_exact; [apply representable_0|done]. }
  assert (fmul 0 (22 * one) = 0)%Z as -> by (unfold fmul; apply (rnd_exact 0 one); [apply representable_0|done]).
  assert (fmul one (22 * one) = 22 * one)%Z as -> by (unfold fmul; rewrite (Z.mul_comm one); apply rnd_exact; [apply representable_int; lia|done]).
  rewrite (fsub_int 23 22) by lia. change 0%Z with (0 * one)%Z. rewrite (fsub_int 23 0) by lia. rewrite !fround_int by lia. unfold to_i32. by rewrite !Z.quot_mul by lia.
Qed.

(** ** Runs *)
(** The stretches of observed slots, each with its numbers. *)
Fixpoint runs_from (run : list (nat * N)) (l : list (nat * option Copper)) : list (list (nat * N)) :=
  match l with
  | [] => if decide (run = []) then [] else [run]
  | (i, Some p) :: l => runs_from (run ++ [(i, p)]) l
  | (_, None) :: l => (if decide (run = []) then [] else [run]) ++ runs_from [] l
  end.

Fixpoint number (k : nat) (slots : list (option Copper)) : list (nat * option Copper) :=
  match slots with [] => [] | s :: slots => (k, s) :: number (S k) slots end.

Lemma enumerated_number spark : enumerated spark = number 0 (slots spark).
Proof.
  unfold enumerated. assert (forall k l, imap (fun i s => ((k + i)%nat, s)) l = number k l) as H.
  { intros k l. revert k. induction l as [|s l IH]; intros k; [done|]. cbn [imap number]. rewrite Nat.add_0_r. f_equal. rewrite <- IH. apply imap_ext. intros i x _. cbn. f_equal. lia. }
  rewrite <- H. by apply imap_ext.
Qed.

Definition consecutive (r : list (nat * N)) : Prop := forall j a b, r !! j = Some a -> r !! S j = Some b -> b.1 = S a.1.
(** Between two runs there is a slot nothing was observed in. *)
Definition gapped (rs : list (list (nat * N))) : Prop :=
  forall j r r' a b, rs !! j = Some r -> rs !! S j = Some r' -> last r = Some a -> head r' = Some b -> (S a.1 < b.1)%nat.
(** A run that ends just before slot [k]. *)
Definition ends_before (k : nat) (r : list (nat * N)) : Prop := consecutive r /\ forall a, last r = Some a -> S a.1 = k.

Lemma ends_before_snoc k r p : ends_before k r -> ends_before (S k) (r ++ [(k, p)]).
Proof.
  intros [Hc Hl]. split; [|intros a; rewrite last_snoc; by intros [= <-]]. intros j a b Ha Hb. destruct (decide (S j < length r)%nat) as [Hj|Hj].
  - rewrite lookup_app_l in Ha, Hb by lia. by apply (Hc j).
  - assert (S j = length r) as Ej by (apply lookup_lt_Some in Hb; rewrite length_app in Hb; cbn in Hb; lia). rewrite lookup_app_r in Hb by lia. rewrite Ej, Nat.sub_diag in Hb. injection Hb as <-.
    rewrite lookup_app_l in Ha by lia. cbn. symmetry. apply Hl. rewrite last_lookup, <- Ej. done.
Qed.

Lemma runs_from_spec run k slots :
  ends_before k run ->
  let rs := runs_from run (number k slots) in
  rs ≫= id = run ++ omap (fun s : nat * option Copper => (fun p => (s.1, p)) <$> s.2) (number k slots) /\
  Forall (fun r => r <> [] /\ consecutive r) rs /\ gapped rs /\
  (forall r b, head rs = Some r -> head r = Some b -> if decide (run = []) then (k <= b.1)%nat else head run = Some b).
Proof.
  cbn zeta. revert run k. induction slots as [|s slots IH]; intros run k He; cbn [number runs_from omap list_omap].
  - case_decide as Hr; [subst run; split_and!; [done|constructor|intros j r r' a b H; by rewrite lookup_nil in H|done]|].
    rewrite app_nil_r. split_and!; [by cbn; rewrite app_nil_r|by apply Forall_singleton; split; [|apply He]| |by intros r b [= <-]].
    intros j r r' a b _ H2. by destruct j.
  - destruct s as [p|]; cbn [fmap option_fmap option_map snd fst].
    + destruct (IH (run ++ [(k, p)]) (S k) (ends_before_snoc k run p He)) as (H1 & H2 & H3 & H4). split_and!; [|done|done|].
      * rewrite H1. by rewrite <- app_assoc.
      * intros r b Hr Hb. specialize (H4 r b Hr Hb). rewrite decide_False in H4 by (by destruct run). case_decide as E; [subst run; cbn in H4; injection H4 as <-; cbn; lia|].
        destruct run; [done|]. exact H4.
    + destruct (IH [] (S k)) as (H1 & H2 & H3 & H4); [split; [by intros j a b Hn; rewrite lookup_nil in Hn|done]|]. destruct (decide (run = [])) as [Hr|Hr].
      * subst run. cbn [app]. split_and!; [done..|]. intros r b Hh Hb. specialize (H4 r b Hh Hb). rewrite decide_True in H4 by done. lia.
      * cbn [app]. rewrite bind_cons, H1. split_and!; [done|constructor; [split; [done|apply He]|done]| |by intros r b [= <-]].
        intros [|j] r r' a b Hj Hj' Ha Hb; cbn in Hj, Hj'; [|by apply (H3 j r r')]. injection Hj as <-. destruct He as [_ Hl]. specialize (Hl a Ha).
        assert (head (runs_from [] (number (S k) slots)) = Some r') as Hh by (destruct (runs_from _ _); [done|]; injection Hj' as ->; done). specialize (H4 r' b Hh Hb). rewrite decide_True in H4 by done. lia.
Qed.

(** The texts, one after another. *)
Definition together (l : list string) : string := foldr (fun a b => a +:+ b) "" l.

Lemma together_app l k : together (l ++ k) = together l +:+ together k.
Proof. induction l as [|s l IH]; [done|]. cbn [app together foldr]. fold (together l). fold (together (l ++ k)). by rewrite IH, text_app_assoc. Qed.

Lemma flush_runs (point : nat -> N -> Z * Z) l svg run :
  let acc := foldl (spark_step point) (svg, (fun s : nat * N => point s.1 s.2) <$> run) l in
  acc.1 +:+ flush acc.2 = svg +:+ together ((fun r => flush ((fun s : nat * N => point s.1 s.2) <$> r)) <$> runs_from run l).
Proof.
  cbn zeta. revert svg run. induction l as [|[i [p|]] l IH]; intros svg run; cbn [foldl runs_from].
  - case_decide as Hr; [subst run; done|]. cbn [fst snd fmap list_fmap together foldr]. f_equal.
    generalize (flush ((fun s : nat * N => point s.1 s.2) <$> run)) as t. induction t as [|a t IHt]; [done|]. change (String a t = String a (t +:+ "")). by rewrite <- IHt.
  - assert (spark_step point (svg, (fun s : nat * N => point s.1 s.2) <$> run) (i, Some p) = (svg, ((fun s : nat * N => point s.1 s.2) <$> run) ++ [point i p])) as -> by done.
    change [point i p] with ((fun s : nat * N => point s.1 s.2) <$> [(i, p)]). rewrite <- fmap_app. apply IH.
  - assert (spark_step point (svg, (fun s : nat * N => point s.1 s.2) <$> run) (i, None) = (svg +:+ flush ((fun s : nat * N => point s.1 s.2) <$> run), [])) as -> by done.
    rewrite (IH _ []). case_decide as Hr; [subst run; cbn [fmap list_fmap flush app]; f_equal; induction svg as [|a svg IHs]; [done|]; change (String a (svg +:+ "") = String a svg); by rewrite IHs|].
    cbn [app fmap list_fmap together foldr]. by rewrite text_app_assoc.
Qed.

Definition opening (label : string) : string :=
  "<svg " +:+ attr "class" "spark" +:+ " " +:+ attr "viewBox" "0 0 100 24" +:+ " " +:+ attr "role" "img" +:+ " " +:+ attr "aria-label" (escape label) +:+ " " +:+
  attr "preserveAspectRatio" "none" +:+ ">".
Definition now_mark (p : Z * Z) : string :=
  "<circle " +:+ attr "class" "spark-now" +:+ " " +:+ attr "cx" (pretty p.1) +:+ " " +:+ attr "cy" (pretty p.2) +:+ " " +:+ attr "r" "1.8" +:+ "/>".

Lemma seen_slots spark i p : (i, p) ∈ seen spark -> slots spark !! i = Some (Some p).
Proof.
  unfold seen, enumerated. intros ([j s] & Hin & Hs)%list_elem_of_omap. cbn in Hs. destruct s as [q|]; [|done]. injection Hs as -> ->.
  apply elem_of_lookup_imap in Hin as (k & s & [= -> ->] & Hk). done.
Qed.

Lemma seen_values spark : (seen spark).*2 = omap id (slots spark).
Proof.
  unfold seen. rewrite enumerated_number. generalize 0%nat. induction (slots spark) as [|[p|] l IH]; intros k; [done| |]; cbn [number omap list_omap fmap option_fmap option_map snd fst list_fmap id]; [by f_equal|].
  apply IH.
Qed.

(** C32: a sparkline is empty exactly below two observations, and never panics.  Otherwise it
    is one line, or dot, for each stretch of observed slots, which together are the
    observations in their order, with a gap between two of them exactly where a slot was
    not observed, and a mark on the latest.  Every point is in the box; later is never to the
    left, dearer never lower, the cheapest is at the foot and the dearest at the top, under
    floating-point rounding; and no label can break out of its attribute. *)
Theorem sparkline_faithful spark label :
  (Spark_is_empty spark = true -> sparkline spark label = Some "") /\
  (Spark_is_empty spark = false -> exists lo hi final,
    let n := N.max (N.of_nat (length (slots spark))) 2 in
    let point (s : nat * N) := (spark_x n s.1, spark_y lo hi s.2) in
    let rs := runs_from [] (enumerated spark) in
    minN (seen spark).*2 = Some lo /\ maxN (seen spark).*2 = Some hi /\ last (seen spark) = Some final /\
    sparkline spark label = Some (opening label +:+ together ((fun r => flush (point <$> r)) <$> rs) +:+ now_mark (point final) +:+ "</svg>") /\
    rs ≫= id = seen spark /\ Forall (fun r => r <> [] /\ consecutive r) rs /\ gapped rs /\
    (forall s, s ∈ seen spark -> slots spark !! s.1 = Some (Some s.2) /\ (0 <= (point s).1 <= 100)%Z /\ (1 <= (point s).2 <= 23)%Z) /\
    (forall s s', s ∈ seen spark -> s' ∈ seen spark -> ((s.1 <= s'.1)%nat -> ((point s).1 <= (point s').1)%Z) /\ (s.2 <= s'.2 -> ((point s').2 <= (point s).2)%Z)) /\
    (lo < hi -> spark_y lo hi lo = 23%Z /\ spark_y lo hi hi = 1%Z)) /\
  (forall a, a = "<"%char \/ a = ">"%char \/ a = QUOT \/ a = APOS -> has_char a (escape label) = false).
Proof.
  refine (conj _ (conj _ _)); [intros H; unfold sparkline; by rewrite H| |intros a; apply escape_inert].
  intros He. assert (seen spark <> []) as Hne.
  { intros E. apply (f_equal (fmap snd)) in E. rewrite seen_values in E. cbn in E. unfold Spark_is_empty in He. apply bool_decide_eq_false in He. apply He.
    assert (filter is_Some (slots spark) = []) as ->; [|cbn; lia]. clear -E. induction (slots spark) as [|[p|] l IH]; [done|done|]. rewrite filter_cons. cbn in E. rewrite decide_False by (by intros [? ?]). by apply IH. }
  destruct (last (seen spark)) as [final|] eqn:Hl; [|by apply last_None in Hl].
  assert (final.2 ∈ omap id (slots spark)) as Hin by (rewrite <- seen_values; apply list_elem_of_fmap_2; by apply last_Some_elem_of in Hl).
  destruct (minN_lower _ _ Hin) as (lo & Hlo & _), (maxN_upper _ _ Hin) as (hi & Hhi & _). exists lo, hi, final. cbn zeta.
  set (n := N.max (N.of_nat (length (slots spark))) 2). set (point := fun s : nat * N => (spark_x n s.1, spark_y lo hi s.2)).
  assert (forall s, s ∈ seen spark -> slots spark !! s.1 = Some (Some s.2) /\ lo <= s.2 <= hi /\ N.of_nat s.1 < n) as Hs.
  { intros [i p] Hi. pose proof (seen_slots _ _ _ Hi) as Hsl. cbn [fst snd]. assert (p ∈ omap id (slots spark)) as Hp by (rewrite <- seen_values; by apply (list_elem_of_fmap_2 snd _ (i, p))).
    apply minN_spec in Hlo as [_ Hlo]. apply maxN_spec in Hhi as [_ Hhi]. apply lookup_lt_Some in Hsl as Hlt. split; [done|]. split; [split; [by apply Hlo|by apply Hhi]|unfold n; lia]. }
  destruct (runs_from_spec [] 0 (slots spark)) as (R1 & R2 & R3 & _); [split; [by intros j a b Hn; rewrite lookup_nil in Hn|done]|]. rewrite <- enumerated_number in R1, R2, R3.
  rewrite seen_values. refine (conj Hlo (conj Hhi (conj eq_refl (conj _ (conj R1 (conj R2 (conj R3 (conj _ (conj _ (spark_y_ends lo hi)))))))))).
  - unfold sparkline. rewrite He, Hlo, Hhi, Hl. cbn [mbind option_bind]. fold n. fold (opening label).
    pose proof (flush_runs (fun i price => (spark_x n i, spark_y lo hi price)) (enumerated spark) (opening label) []) as Hf. cbn [fmap list_fmap] in Hf.
    destruct (foldl _ _ _) as [svg run]. cbn [fst snd] in Hf. rewrite Hf. destruct final as [i price]. f_equal.
    set (t := together ((fun r => flush (point <$> r)) <$> runs_from [] (enumerated spark))).
    change (together _) with t. clearbody t.
    transitivity (((opening label +:+ t) +:+ now_mark (point (i, price))) +:+ "</svg>"); [reflexivity|by rewrite !(text_app_assoc (opening label)), text_app_assoc].
  - intros s Hin'. destruct (Hs s Hin') as (H1 & H2 & H3). split; [done|]. split; [apply spark_x_range; [unfold n; lia|done]|by apply spark_y_range].
  - intros s s' Hi Hi'. destruct (Hs s Hi) as (_ & H2 & _), (Hs s' Hi') as (_ & H2' & _). split; intros Hle; [apply spark_x_mono; [unfold n; lia|done]|apply spark_y_antitone; lia].
Qed.

(** ** Runs of a chart *)
Lemma runs_exact points : runs points ≫= id = filter (fun p => cp_observed p = true) points /\ Forall (fun r => r <> []) (runs points).
Proof.
  assert (forall out run, let acc := foldl run_step (out, run) points in
            (acc.1 ≫= id) ++ acc.2 = (out ≫= id) ++ run ++ filter (fun p => cp_observed p = true) points /\ (Forall (fun r => r <> []) out -> Forall (fun r => r <> []) acc.1)) as H.
  { induction points as [|p l IH]; intros out run; [cbn; by rewrite app_nil_r|]. cbn [foldl]. unfold run_step at 2 4 6. cbn [fst snd]. rewrite filter_cons. destruct (cp_observed p).
    - destruct (IH out (run ++ [p])) as [H1 H2]. split; [|exact H2]. rewrite H1. by rewrite <- !app_assoc.
    - case_decide as Hr; [subst run; apply IH|]. destruct (IH (out ++ [run]) []) as [H1 H2]. split; [rewrite H1, bind_app; cbn; by rewrite app_nil_r, <- app_assoc|].
      intros Ho. apply H2, Forall_app. split; [done|]. by apply Forall_singleton. }
  destruct (H [] []) as [H1 H2]. unfold runs. destruct (foldl _ _ _) as [out run]. cbn [fst snd app] in *. specialize (H2 (Forall_nil_2 _)). case_decide as Hr.
  - subst run. rewrite app_nil_r in H1. done.
  - rewrite bind_app. cbn. rewrite app_nil_r. split; [done|]. apply Forall_app. split; [done|]. by apply Forall_singleton.
Qed.
