(* ===== verification/Cards.v ===== *)
(** * Cards: one item of a category page

    Models [crates/app-web/src/cards.rs], the two reads of [crates/app-web/src/read_model.rs],
    the tooltips of [crates/app-web/src/routes/tooltip.rs] with [TooltipView] of
    [crates/app-web/src/views.rs], and the records of the card there.

    The translation of a sentence and the wording of an age are arguments ([translate],
    [ago]): they put into words what is decided here, and no decision reads them.  The
    sparkline of a column is that of [Charts]. *)
From Stdlib Require Import Ascii ZArith.
From stdpp Require Import prelude gmap sorting strings pretty.
From S2P Require Import Prelude Text Time Store AppError Sqlite Market MarketKey Window Engine Catalog Release Charts Materialise ReadModel ReadRows SmallStores Locale Tooltips.

(** ** Tooltips as a page shows them *)
Record TooltipView := {
  tv_name : string; tv_quality : string; tv_rarity : N; tv_lang : string; tv_type_line : option string; tv_material : option string; tv_item_level : option string;
  tv_binding : option string; tv_unique : option string; tv_required_level : option string; tv_required_item_level : option string; tv_stats : list string;
  tv_effects : list string; tv_flavor : option string; tv_crafting_reagent : option string; tv_sell_price : option string; tv_rank_line : option string;
  tv_note : option string }.

Definition TooltipView_new (tooltip : ItemTooltip) (rank_line : option string) (available : bool) : TooltipView :=
  let subclass := if tt_subclass_hidden tooltip then None else tt_item_subclass tooltip in
  let type_line :=
    match tt_item_class tooltip, subclass with
    | Some class, Some sub => Some (if decide (class = sub) then sub else class +:+ " · " +:+ sub)
    | Some class, None => Some class
    | None, sub => sub
    end in
  {| tv_name := tt_name tooltip; tv_quality := ItemQuality.as_str (tt_quality tooltip); tv_rarity := ItemQuality.rarity (tt_quality tooltip);
     tv_lang := Locale.bcp47 (tt_locale tooltip); tv_type_line := type_line; tv_material := tt_item_subclass tooltip; tv_item_level := tt_item_level tooltip;
     tv_binding := tt_binding tooltip; tv_unique := tt_unique tooltip; tv_required_level := tt_required_level tooltip;
     tv_required_item_level := tt_required_item_level tooltip; tv_stats := tt_stats tooltip; tv_effects := tt_effects tooltip; tv_flavor := tt_flavor tooltip;
     tv_crafting_reagent := tt_crafting_reagent tooltip;
     tv_sell_price := (fun c => default "Sell price:" (tt_sell_price_label tooltip) +:+ " " +:+ Copper_fmt c) <$> tt_sell_price tooltip;
     tv_rank_line := rank_line;
     tv_note := if available then None else Some "Item details are unavailable right now; prices below are unaffected." |}.

(** ** Cards *)
Record RankColumn := {
  rc_item_id : N; rc_label : string; rc_has_data : bool; rc_current : string; rc_median : string; rc_delta_percent : Z; rc_cheap : bool; rc_dear : bool;
  rc_band : option string; rc_band_slug : string; rc_rank_percent : option N; rc_insufficient : option string; rc_insufficient_have : N; rc_insufficient_need : N;
  rc_quantity : N; rc_listings : N; rc_freshness : string; rc_stale : bool; rc_spark : string }.

Record ItemCard := {
  ic_name : string; ic_icon : option string; ic_material : option string; ic_tooltip_item_id : N; ic_tooltip : option TooltipView; ic_category : string;
  ic_stat : string; ic_rarity : N; ic_sort_name : string; ic_any_data : bool; ic_columns : list RankColumn }.

Record CardContext := { cc_locale : Locale.t; cc_now : Millis; cc_newest : option Millis }.

(** The drawing, which never panics. *)
Definition spark_text (spark : Spark) (label : string) : string := default "" (sparkline spark label).

Definition STALE_AFTER_MS : N := 90 * 60 * 1000.
Definition dash : string := "—".

Section Words.
Context (translate : Locale.t -> string -> string) (ago : Locale.t -> N -> string).

Definition rank_line (locale : Locale.t) (entry : CatalogItem) (item : ItemId) : option string :=
  rank ← rank_of entry item;
  if decide (1 < length (ci_ranks entry))%nat then
    Some (replace_first (pretty (length (ci_ranks entry))) (replace_first (pretty rank) (translate locale "Rank {} of {}")))
  else None.

Definition base_column (id : ItemId) (label : string) : RankColumn :=
  {| rc_item_id := id; rc_label := label; rc_has_data := false; rc_current := dash; rc_median := dash; rc_delta_percent := 0; rc_cheap := false; rc_dear := false;
     rc_band := None; rc_band_slug := "none"; rc_rank_percent := None; rc_insufficient := None; rc_insufficient_have := 0; rc_insufficient_need := 0;
     rc_quantity := 0; rc_listings := 0; rc_freshness := dash; rc_stale := false; rc_spark := "" |}.

Definition column (id : ItemId) (label : string) (sample : option MarketSummary) (recent : option MarketWindow) (ctx : CardContext) : RankColumn :=
  let base := base_column id label in
  match sample with
  | None => base
  | Some sample =>
      let window := w ← recent; if decide (0 < mw_samples w) then Some w else None in
      let delta := default 0%Z (window ≫= fun w => pos_from_median_percent (mw_position w)) in
      let position := mw_position <$> window in
      let insufficient := position ≫= pos_insufficient in
      let valuation := position ≫= pos_valuation in
      {| rc_item_id := id; rc_label := label; rc_has_data := true; rc_current := Copper_fmt (sm_price sample);
         rc_median := default (rc_median base) ((fun w => Copper_fmt (median (mw_distribution w))) <$> window);
         rc_delta_percent := delta; rc_cheap := bool_decide (delta <= -15)%Z; rc_dear := bool_decide (15 <= delta)%Z;
         rc_band := Valuation.as_str <$> valuation; rc_band_slug := default (rc_band_slug base) (Valuation.slug <$> valuation);
         rc_rank_percent := position ≫= pos_rank;
         rc_insufficient := (fun why => match why with NotEnoughHistory _ _ => "Not enough history" | TooManyGaps _ _ => "Too many gaps" end) <$> insufficient;
         rc_insufficient_have := match insufficient with Some (NotEnoughHistory have _) => have | Some (TooManyGaps coverage _) => coverage | None => 0 end;
         rc_insufficient_need := match insufficient with Some (NotEnoughHistory _ need) | Some (TooManyGaps _ need) => need | None => 0 end;
         rc_quantity := sm_quantity sample; rc_listings := sm_listings sample;
         rc_freshness := default (rc_freshness base) ((fun at_ => ago (cc_locale ctx) (since (cc_now ctx) at_)) <$> sm_observed_at sample);
         rc_stale := match sm_observed_at sample, cc_newest ctx with Some at_, Some newest => bool_decide (STALE_AFTER_MS < since newest at_) | _, _ => false end;
         rc_spark := default "" ((fun w => spark_text (mw_spark w) (translate (cc_locale ctx) "Price over the comparison window")) <$> window) |}
  end.

Definition card (entry : CatalogItem) (latest : gmap N MarketSummary) (recent : gmap N MarketWindow) (tooltips : gmap N TooltipView) (ctx : CardContext) : ItemCard :=
  let multi_rank := bool_decide (1 < length (ci_ranks entry))%nat in
  let ranks := sort_by_key ir_rank (ci_ranks entry) in
  let columns := (fun rank => column (ir_item_id rank) (if multi_rank then "R" +:+ pretty (ir_rank rank) else "Price") (latest !! ir_item_id rank)
                                (recent !! ir_item_id rank) ctx) <$> ranks in
  let tooltip_item_id := default 0 (ir_item_id <$> last ranks) in
  let tooltip := tooltips !! tooltip_item_id in
  {| ic_material := match ci_kind entry with ItemKind.Consumable => None | _ => tooltip ≫= tv_material end;
     ic_name := default (ci_name entry) (tv_name <$> tooltip); ic_icon := icon_url entry; ic_tooltip_item_id := tooltip_item_id; ic_tooltip := tooltip;
     ic_category := Category.label (ci_category entry); ic_stat := Stat.as_str (ci_stat entry); ic_rarity := default 0 (tv_rarity <$> tooltip);
     ic_sort_name := ci_name entry; ic_any_data := existsb rc_has_data columns; ic_columns := columns |}.

Definition by_rarity (a b : ItemCard) : comparison := cmp_then (N.compare (ic_rarity b) (ic_rarity a)) (string_cmp (ic_name a) (ic_name b)).

Definition display_name (tooltips : gmap N TooltipView) (entry : CatalogItem) (item : ItemId) : string :=
  let base := default (ci_name entry) (tv_name <$> tooltips !! item) in
  match rank_of entry item with
  | Some rank => if decide (1 < length (ci_ranks entry))%nat then base +:+ " (R" +:+ pretty rank +:+ ")" else base
  | None => base
  end.

(** ** What a page reads *)
Definition by_item {V} (key : V -> ItemId) (rows : list V) : gmap N V := foldl (fun m v => <[key v := v]> m) ∅ rows.

Record CommodityPage := { cp_current : gmap N MarketSummary; cp_recent : gmap N MarketWindow }.
Definition CommodityPage_default : CommodityPage := {| cp_current := ∅; cp_recent := ∅ |}.

Section Reads.
Context `{JT : Json ItemTooltip}.

Definition commodity_page (region : Region) (baseline_days : N) (m : ReadModel) : AppResult CommodityPage :=
  match commodities region m with
  | Err e => Err (AppError.Repo e)
  | Ok current =>
      match commodity_windows region (Window.Days baseline_days) m with
      | Err e => Err (AppError.Repo e)
      | Ok recent => Ok {| cp_current := by_item (fun s => key_item (sm_key s)) current; cp_recent := by_item (fun w => key_item (mw_key w)) recent |}
      end
  end.

(** Which entry an item belongs to: the last that lists it. *)
Definition owners (catalog : Catalog) : gmap N CatalogItem := index_items id (c_items catalog) ∅.

Definition cached_all (locale : Locale.t) (catalog : Catalog) (now : Millis) (t : CacheTable) : gmap N TooltipView :=
  foldl (fun m (row : ItemId * ItemTooltip) =>
    match owners catalog !! row.1 with Some entry => <[row.1 := TooltipView_new row.2 (rank_line locale entry row.1) true]> m | None => m end) ∅
    (cached_many locale (map_to_list (owners catalog)).*1 now t).
End Reads.

(** The route of one tooltip: only items a visitor may see are looked up. *)
Definition tooltip `{JT : Json ItemTooltip} (ttl_ms : N) (configured : bool) (upstream : Region -> ItemId -> AppResult LocalizedTooltips) (cs : CatalogSet) (st : ReleaseStates)
    (region : Region) (locale : Locale.t) (item : ItemId) (now : Millis) (t : CacheTable) : AppResult TooltipView * CacheTable :=
  match public_item cs st item with
  | None => (Err AppError.NotFound, t)
  | Some (_, entry) =>
      let '((tip, freshness), t) := lookup_tip ttl_ms configured upstream region locale item (ci_name entry) now t in
      (Ok (TooltipView_new tip (rank_line locale entry item) (negb (bool_decide (freshness = Unavailable)))), t)
  end.
End Words.
