(* ===== verification/Pages.v ===== *)
(** * Pages: the category pages and what arrives in their first response

    Models [crates/app-web/src/groups.rs], the reagents page ([routes/reagents.rs]), the
    enchants and gems pages ([routes/enhancements.rs]), the consumables page and its
    catalogue ([routes/market.rs]) and [query_value] of [routes/gear.rs].  Reagents and
    enhancements build their views by the same loop over different sections, which is
    [build] here over a [Category]; [reagents] and [enhancements] are the two.  The lower
    case of a text ([lowercase]) is that of Unicode, an argument.

    [category_complete]: nothing of a category is lost between the first response and the
    groups that fetch themselves. *)
From Stdlib Require Import Ascii ZArith.
From stdpp Require Import prelude gmap sorting strings pretty.
From S2P Require Import Prelude Text Time Store AppError Accounts Sqlite Market MarketKey Engine Catalog Release PriceStore Materialise ReadModel ReadRows SmallStores Locale Prefs Tooltips Cards.

(** ** Groups *)
Definition INLINE_LIMIT : nat := 40.

Class Deferrable (G : Type) := { card_count : G -> nat; slug_of : G -> string; defer_to : string -> G -> G; undefer : G -> G }.

Record CardGroup := { cg_audience : string; cg_label : string; cg_cards : list ItemCard; cg_deferred : bool; cg_href : string }.
(** The gear page's group, over its cards. *)
Record GearGroup (C : Type) := { gg_label : string; gg_anchor : string; gg_cards : list C; gg_deferred : bool; gg_href : string }.
Arguments gg_label {C}. Arguments gg_anchor {C}. Arguments gg_cards {C}. Arguments gg_deferred {C}. Arguments gg_href {C}.

#[export] Instance CardGroup_Deferrable : Deferrable CardGroup := {|
  card_count g := length (cg_cards g); slug_of := cg_audience;
  defer_to href g := {| cg_audience := cg_audience g; cg_label := cg_label g; cg_cards := cg_cards g; cg_deferred := true; cg_href := href |};
  undefer g := {| cg_audience := cg_audience g; cg_label := cg_label g; cg_cards := cg_cards g; cg_deferred := false; cg_href := "" |} |}.
#[export] Instance GearGroup_Deferrable {C} : Deferrable (GearGroup C) := {|
  card_count g := length (gg_cards g); slug_of := gg_anchor;
  defer_to href g := {| gg_label := gg_label g; gg_anchor := gg_anchor g; gg_cards := gg_cards g; gg_deferred := true; gg_href := href |};
  undefer g := {| gg_label := gg_label g; gg_anchor := gg_anchor g; gg_cards := gg_cards g; gg_deferred := false; gg_href := "" |} |}.

(** What the two promise: deferring marks a group and gives it an address, and nothing else. *)
Class DeferrableLaws (G : Type) {C : Type} `{!Deferrable G} := {
  cards_of : G -> list C; is_deferred : G -> bool; address : G -> string;
  law_count g : card_count g = length (cards_of g);
  law_cards href g : cards_of (defer_to href g) = cards_of g;
  law_slug href g : slug_of (defer_to href g) = slug_of g;
  law_deferred href g : is_deferred (defer_to href g) = true;
  law_address href g : address (defer_to href g) = href }.
#[export] Instance CardGroup_laws : DeferrableLaws CardGroup := {| cards_of := cg_cards; is_deferred := cg_deferred; address := cg_href;
  law_count _ := eq_refl; law_cards _ _ := eq_refl; law_slug _ _ := eq_refl; law_deferred _ _ := eq_refl; law_address _ _ := eq_refl |}.
#[export] Instance GearGroup_laws {C} : DeferrableLaws (GearGroup C) := {| cards_of := gg_cards; is_deferred := gg_deferred; address := gg_href;
  law_count _ := eq_refl; law_cards _ _ := eq_refl; law_slug _ _ := eq_refl; law_deferred _ _ := eq_refl; law_address _ _ := eq_refl |}.

Fixpoint defer_loop `{Deferrable G} (href : string -> string) (inlined : nat) (groups : list G) : list G :=
  match groups with
  | [] => []
  | g :: groups =>
      if decide (inlined = 0 \/ inlined + card_count g <= INLINE_LIMIT)%nat then g :: defer_loop href (inlined + card_count g)%nat groups
      else defer_to (href (slug_of g)) g :: defer_loop href inlined groups
  end.

Definition defer `{Deferrable G} (groups : list G) (searching : bool) (href : string -> string) : list G :=
  if searching then groups
  else if decide (sum_list (card_count <$> groups) <= INLINE_LIMIT)%nat then groups
  else defer_loop href 0 groups.

Definition only `{Deferrable G} (groups : list G) (wanted : string) : option G :=
  undefer <$> find_first (fun g => bool_decide (slug_of g = wanted)) groups.

(** ** Addresses and searches *)
Definition unreserved (b : N) : bool :=
  bool_decide (65 <= b <= 90 \/ 97 <= b <= 122 \/ 48 <= b <= 57 \/ b = 45 \/ b = 95 \/ b = 46 \/ b = 126).
Definition hex_digit (d : N) : ascii := ascii_of_N (if decide (d < 10) then 48 + d else 55 + d).
Fixpoint query_value (raw : string) : string :=
  match raw with
  | EmptyString => EmptyString
  | String a raw =>
      let b := N_of_ascii a in
      if unreserved b then String a (query_value raw) else String "%" (String (hex_digit (b / 16)) (String (hex_digit (b mod 16)) (query_value raw)))
  end.

(** [str::contains]. *)
Fixpoint contains (needle s : string) : bool :=
  bool_decide (is_Some (strip_prefix needle s)) || match s with EmptyString => false | String _ s => contains needle s end.

Definition MAX_QUERY : nat := 64.

Record SearchParams := { sp_q : option string; sp_group : option string; sp_expansion : option string }.

Inductive Detail := Shell | Full.
#[export] Instance Detail_eq_dec : EqDecision Detail.
Proof. solve_decision. Defined.

(** What a page is built from: the catalogues and their states, the stored tables and the
    clock. *)
Record PageEnv := {
  pe_catalogs : CatalogSet; pe_states : ReleaseStates; pe_read : ReadModel; pe_prices : PriceTables; pe_cache : CacheTable; pe_now : Millis;
  pe_configured : bool }.

Abbreviation Section_ := (string * string * list CatalogItem)%type.

(** The loop every category page makes its groups by: the cards of a section that match, in
    their order; a section with none is left out. *)
Definition group_with {C G} (mk : CatalogItem -> C) (keep : C -> bool) (order : C -> C -> comparison) (wrap : Section_ -> list C -> G) (s : Section_) : option G :=
  let cards := filter (fun c => keep c = true) (mk <$> s.2) in if decide (cards = []) then None else Some (wrap s (sort_by order cards)).

Section Pages.
Context (translate : Locale.t -> string -> string) (ago : Locale.t -> N -> string) (lowercase : string -> string).
Context `{JT : Json ItemTooltip}.

Definition normalise (query : option string) : option string :=
  value ← trim <$> query;
  if decide (value = "") then None else Some (lowercase (String.concat "" (take MAX_QUERY (chars value)))).

Definition matches (needle : option string) (c : ItemCard) : bool :=
  match needle with None => true | Some needle => contains needle (lowercase (ic_name c)) end.

Definition observed (prefs : MarketPrefs) (now : Millis) (at_ : option Millis) : string :=
  match at_ with Some at_ => ago (mp_locale prefs) (since now at_) | None => "never" end.

(** ** Reagents, enchants, gems *)
Record Category := {
  ca_kind : ItemKind.t; ca_sections : Catalog -> list Section_; ca_order : ItemCard -> ItemCard -> comparison; ca_defers : bool; ca_fragment : string;
  ca_heading_id : string }.

Definition reagents : Category :=
  {| ca_kind := ItemKind.Reagent;
     ca_sections catalog := (fun p => (Profession.as_str p, Profession.label p, by_profession catalog p)) <$> Profession.ALL;
     ca_order := by_rarity; ca_defers := true; ca_fragment := "/partials/reagents"; ca_heading_id := "profession" |}.

Definition sections (kind : ItemKind.t) (catalog : Catalog) : list Section_ :=
  match kind with
  | ItemKind.Enchant => (fun s => (Slot.as_str s, Slot.label s, by_slot catalog s)) <$> Slot.ALL
  | _ => [("all", "", of_kind catalog kind)]
  end.
Definition fragment_path (kind : ItemKind.t) : string := match kind with ItemKind.Gem => "/partials/gems" | _ => "/partials/enchants" end.
Definition enhancements (kind : ItemKind.t) : Category :=
  {| ca_kind := kind; ca_sections := sections kind;
     ca_order a b := match kind with ItemKind.Gem => string_cmp (ic_sort_name a) (ic_sort_name b) | _ => by_rarity a b end;
     ca_defers := bool_decide (kind = ItemKind.Enchant); ca_fragment := fragment_path kind; ca_heading_id := "slot" |}.

(** One section as a group, unless nothing in it matches. *)
Definition group_of (p : Category) (mk : CatalogItem -> ItemCard) (needle : option string) : Section_ -> option CardGroup :=
  group_with mk (matches needle) (ca_order p)
    (fun s cards => {| cg_audience := s.1.1; cg_label := s.1.2; cg_cards := cards; cg_deferred := false; cg_href := "" |}).

Record CategoryView := {
  cv_fragment_href : string; cv_expansion : string; cv_expansion_id : string; cv_archived : bool; cv_query : string; cv_total : nat; cv_matched : nat;
  cv_observed : string; cv_baseline_days : N; cv_groups : list CardGroup }.

Definition selected (env : PageEnv) (expansion : option string) : option Catalog :=
  match (id ← expansion; if decide (id = "") then None else Some id) with
  | Some id => public (pe_catalogs env) (pe_states env) id
  | None => active (pe_catalogs env) (pe_states env)
  end.

Definition group_href (p : Category) (catalog : Catalog) (group : string) : string :=
  ca_fragment p +:+ "?expansion=" +:+ query_value (c_id catalog) +:+ "&group=" +:+ query_value group.

Definition page_of (env : PageEnv) (prefs : MarketPrefs) (detail : Detail) : AppResult CommodityPage :=
  match detail with Shell => Ok CommodityPage_default | Full => commodity_page (mp_region prefs) (mp_baseline_days prefs) (pe_read env) end.

Definition card_maker (env : PageEnv) (prefs : MarketPrefs) (detail : Detail) (catalog : Catalog) (page : CommodityPage) : CatalogItem -> ItemCard :=
  let ctx := {| cc_locale := mp_locale prefs; cc_now := pe_now env; cc_newest := maxN (omap sm_observed_at (map_to_list (cp_current page)).*2) |} in
  let tooltips := match detail with Shell => ∅ | Full => cached_all translate (mp_locale prefs) catalog (pe_now env) (pe_cache env) end in
  fun entry => card translate ago entry (cp_current page) (cp_recent page) tooltips ctx.

Definition build (p : Category) (env : PageEnv) (prefs : MarketPrefs) (query expansion : option string) (detail : Detail) : AppResult CategoryView :=
  match selected env expansion with
  | None => Err AppError.NotFound
  | Some catalog =>
      match page_of env prefs detail with
      | Err e => Err e
      | Ok page =>
          let needle := normalise query in
          let groups := match detail with Shell => [] | Full => omap (group_of p (card_maker env prefs detail catalog page) needle) (ca_sections p catalog) end in
          match sql_last_observed (mp_region prefs) (pe_prices env) with
          | Err e => Err (AppError.Repo e)
          | Ok last =>
              Ok {| cv_fragment_href := ca_fragment p +:+ "?expansion=" +:+ query_value (c_id catalog) +:+ "&q=" +:+ query_value (default "" needle);
                    cv_expansion := c_expansion catalog; cv_expansion_id := c_id catalog;
                    cv_archived := negb (CatalogStatus.is_collected (state_of (pe_states env) catalog)); cv_query := default "" needle;
                    cv_total := length (of_kind catalog (ca_kind p)); cv_matched := sum_list (card_count <$> groups);
                    cv_observed := observed prefs (pe_now env) last; cv_baseline_days := mp_baseline_days prefs;
                    cv_groups := if ca_defers p then defer groups (bool_decide (is_Some needle)) (group_href p catalog) else groups |}
          end
      end
  end.

Inductive Fragment := Whole (view : CategoryView) | One (group : CardGroup) (baseline_days : N) (heading_id : string).

Definition render_fragment (p : Category) (env : PageEnv) (prefs : MarketPrefs) (params : SearchParams) : AppResult Fragment :=
  match build p env prefs (sp_q params) (sp_expansion params) Full with
  | Err e => Err e
  | Ok view =>
      match sp_group params with
      | None => Ok (Whole view)
      | Some wanted =>
          match only (cv_groups view) wanted with
          | Some group => Ok (One group (cv_baseline_days view) (ca_heading_id p))
          | None => Err AppError.NotFound
          end
      end
  end.

(** ** Consumables *)
Definition ALL_AUDIENCES_LABELS : list (Audience.t * string) :=
  [(Audience.Common, "Everyone"); (Audience.Melee, "Melee — tanks and melee DPS"); (Audience.Caster, "Caster — caster DPS and healers")].

Definition select (env : PageEnv) (id : option string) : option Catalog :=
  match id with
  | Some id => public (pe_catalogs env) (pe_states env) id
  | None => match active (pe_catalogs env) (pe_states env) with Some c => Some c | None => head (public_all (pe_catalogs env) (pe_states env)) end
  end.

Record MarketView := {
  mv_expansion : string; mv_season : string; mv_archived : bool; mv_configured : bool; mv_groups : list CardGroup; mv_observed : string; mv_baseline_days : N }.

Definition by_category (a b : ItemCard) : comparison := cmp_then (string_cmp (ic_category a) (ic_category b)) (by_rarity a b).

Definition build_consumables (env : PageEnv) (prefs : MarketPrefs) (id : option string) (detail : Detail) : AppResult MarketView :=
  match select env id with
  | None => Err AppError.NotFound
  | Some catalog =>
      match page_of env prefs detail with
      | Err e => Err e
      | Ok page =>
          let mk := card_maker env prefs detail catalog page in
          let groups := match detail with
                        | Shell => []
                        | Full => (fun al : Audience.t * string =>
                            {| cg_audience := Audience.as_str al.1; cg_label := al.2; cg_cards := sort_by by_category (mk <$> by_audience catalog al.1);
                               cg_deferred := false; cg_href := "" |}) <$> ALL_AUDIENCES_LABELS
                        end in
          match commodity_summary (mp_region prefs) (pe_read env) with
          | Err e => Err (AppError.Repo e)
          | Ok summary =>
              Ok {| mv_expansion := c_expansion catalog; mv_season := season_label catalog;
                    mv_archived := negb (CatalogStatus.is_collected (state_of (pe_states env) catalog)); mv_configured := pe_configured env; mv_groups := groups;
                    mv_observed := observed prefs (pe_now env) summary.2; mv_baseline_days := mp_baseline_days prefs |}
          end
      end
  end.
End Pages.

(** ** Addresses read back *)
Fixpoint bytes_of (s : string) : list N := match s with EmptyString => [] | String a s => N_of_ascii a :: bytes_of s end.

Lemma hex_digit_value d : d < 16 -> hex_value (N_of_ascii (hex_digit d)) = Some d.
Proof.
  intros Hd. unfold hex_digit, hex_value. rewrite N_ascii_embedding by (case_decide; lia). repeat case_decide; try lia; f_equal; lia.
Qed.

Lemma query_value_decoded s : percent_decoded (query_value s) = Some (bytes_of s).
Proof.
  induction s as [|a s IH]; [done|]. cbn [query_value bytes_of]. pose proof (N_ascii_bounded a) as Ha. destruct (unreserved (N_of_ascii a)) eqn:Hu.
  - cbn [percent_decoded]. apply bool_decide_eq_true in Hu.
    rewrite decide_False by (intros ->; vm_compute in Hu; intuition lia). rewrite decide_False by (intros ->; vm_compute in Hu; intuition lia). by rewrite IH.
  - cbn [percent_decoded]. rewrite decide_True by done. rewrite !hex_digit_value by (apply N.Div0.div_lt_upper_bound || apply N.mod_lt; lia).
    cbn [mbind option_bind]. rewrite IH. cbn [mbind option_bind]. do 2 f_equal. rewrite (N.div_mod (N_of_ascii a) 16) at 3 by lia. lia.
Qed.

(** What stays literal in an address separates no parameters. *)
Lemma query_value_literal s c : c = "&"%char \/ c = "="%char \/ c = "+"%char \/ c = "#"%char -> has_char c (query_value s) = false.
Proof.
  intros Hc. assert (unreserved (N_of_ascii c) = false /\ c <> "%"%char /\ forall d, d < 16 -> hex_digit d <> c) as (Hu & Hp & Hd).
  { split_and!; [by destruct Hc as [ -> | [ -> | [ -> | -> ]]]..|]. intros d Hd E. apply (f_equal N_of_ascii) in E. unfold hex_digit in E.
    rewrite N_ascii_embedding in E by (case_decide; lia). destruct Hc as [ -> | [ -> | [ -> | -> ]]]; vm_compute (N_of_ascii _) in E; case_decide; lia. }
  induction s as [|a s IH]; [done|]. cbn [query_value]. pose proof (N_ascii_bounded a) as Ha. destruct (unreserved (N_of_ascii a)) eqn:Hua; cbn [has_char]; rewrite IH.
  - rewrite orb_false_r. apply bool_decide_eq_false. intros ->. congruence.
  - rewrite !bool_decide_eq_false_2; [done|apply Hd, N.mod_lt; lia|apply Hd, N.Div0.div_lt_upper_bound; lia|done].
Qed.

(** ** Groups *)
Section Groups.
Context {G C : Type} `{Deferrable G, !DeferrableLaws G (C := C)}.

Definition shown (groups : list G) : list G := filter (fun g => is_deferred g = false) groups.
Definition cards_in (groups : list G) : nat := sum_list (card_count <$> groups).

Lemma shown_cons g groups : shown (g :: groups) = if is_deferred g then shown groups else g :: shown groups.
Proof. unfold shown. rewrite filter_cons. by destruct (is_deferred g). Qed.

Lemma shown_all groups : Forall (fun g => is_deferred g = false) groups -> shown groups = groups.
Proof. induction 1 as [|g l Hg _ IH]; [done|]. by rewrite shown_cons, Hg, IH. Qed.

Lemma cards_in_cons g groups : cards_in (g :: groups) = (card_count g + cards_in groups)%nat.
Proof. done. Qed.

Lemma defer_loop_rel href inlined (groups : list G) :
  Forall2 (fun g g' => g' = g \/ g' = defer_to (href (slug_of g)) g) groups (defer_loop href inlined groups).
Proof using. revert inlined. induction groups as [|g groups IH]; intros inlined; cbn [defer_loop]; [constructor|]. case_decide; constructor; [by left|apply IH|by right|apply IH]. Qed.

Lemma defer_rel searching href (groups : list G) :
  Forall2 (fun g g' => g' = g \/ (searching = false /\ g' = defer_to (href (slug_of g)) g)) groups (defer groups searching href).
Proof using.
  unfold defer. destruct searching; [apply Forall_Forall2_diag, Forall_true; by left|]. case_decide; [apply Forall_Forall2_diag, Forall_true; by left|].
  eapply Forall2_impl; [apply defer_loop_rel|]. naive_solver.
Qed.

(** What is deferred is found again by its slug, with its cards. *)
Lemma only_deferred searching href (groups : list G) g :
  NoDup (slug_of <$> groups) -> Forall (fun g => is_deferred g = false) groups -> g ∈ defer groups searching href -> is_deferred g = true ->
  searching = false /\ address g = href (slug_of g) /\ only (defer groups searching href) (slug_of g) = Some (undefer g).
Proof.
  intros Hnd Hf Hg Hd. pose proof (defer_rel searching href groups) as Hr. revert Hg Hnd Hf. generalize dependent (defer groups searching href). intros groups' Hr Hg Hnd Hf.
  assert (searching = false /\ address g = href (slug_of g)) as [-> Hh].
  { apply list_elem_of_lookup in Hg as [i Hi]. apply (Forall2_lookup_r _ _ _ _ _ Hr) in Hi as (g0 & Hi & [->|[-> ->]]); [|by rewrite law_address, law_slug].
    apply list_elem_of_lookup_2 in Hi. rewrite Forall_forall in Hf. rewrite (Hf g0 Hi) in Hd. done. }
  split_and!; [done..|]. unfold only. cut (find_first (fun g0 : G => bool_decide (slug_of g0 = slug_of g)) groups' = Some g); [by intros ->|].
  induction Hr as [|g0 g1 l l' Hrel Hr IH]; [by apply not_elem_of_nil in Hg|]. rewrite find_first_cons. cbn [fmap list_fmap] in Hnd. apply NoDup_cons in Hnd as [Hni Hnd].
  apply Forall_cons in Hf as [_ Hf]. assert (slug_of g1 = slug_of g0) as Ha by (destruct Hrel as [ -> | [_ ->]]; [done|apply law_slug]).
  apply elem_of_cons in Hg as [->|Hg]; [by rewrite bool_decide_eq_true_2|]. rewrite bool_decide_eq_false_2; [by apply IH|]. rewrite Ha. intros E. apply Hni. rewrite E.
  apply list_elem_of_lookup in Hg as [i Hi]. apply (Forall2_lookup_r _ _ _ _ _ Hr) in Hi as (g2 & Hi & Hrel2). apply list_elem_of_fmap. exists g2.
  split; [destruct Hrel2 as [ -> | [_ ->]]; [done|apply law_slug]|]. by apply list_elem_of_lookup_2 in Hi.
Qed.

Lemma defer_cards searching href (groups : list G) : (defer groups searching href ≫= cards_of) = (groups ≫= cards_of).
Proof.
  pose proof (defer_rel searching href groups) as Hr. induction Hr as [|g g' l l' Hrel _ IH]; [done|]. rewrite !bind_cons, IH. f_equal. destruct Hrel as [ -> | [_ ->]]; [done|apply law_cards].
Qed.

Lemma cards_in_length (groups : list G) : cards_in groups = length (groups ≫= cards_of).
Proof. induction groups as [|g l IH]; [done|]. rewrite cards_in_cons, bind_cons, length_app, law_count. by rewrite <- IH. Qed.

(** The first response holds the first group and stays within the limit, or is that group. *)
Lemma defer_loop_budget href inlined (groups : list G) :
  Forall (fun g => is_deferred g = false) groups -> (0 < inlined)%nat -> (inlined + cards_in (shown (defer_loop href inlined groups)) <= inlined `max` INLINE_LIMIT)%nat.
Proof.
  intros Hf. revert inlined. induction Hf as [|g groups Hg _ IH]; intros inlined Hi; [cbn; lia|]. cbn [defer_loop]. case_decide as Hd; rewrite shown_cons.
  - rewrite Hg. specialize (IH (inlined + card_count g)%nat ltac:(lia)). rewrite cards_in_cons. lia.
  - rewrite law_deferred. by apply IH.
Qed.

Lemma defer_budget searching href g (groups : list G) :
  Forall (fun g => is_deferred g = false /\ cards_of g <> []) (g :: groups) ->
  head (defer (g :: groups) searching href) = Some g /\
  (searching = false -> cards_in (shown (defer (g :: groups) searching href)) <= card_count g `max` INLINE_LIMIT)%nat.
Proof.
  intros [[Hd Hc] Hf]%Forall_cons. assert (Forall (fun g => is_deferred g = false) groups) as Hf' by (eapply Forall_impl; [exact Hf|]; naive_solver).
  assert (0 < card_count g)%nat as Hpos by (rewrite law_count; destruct (cards_of g); [done|cbn; lia]).
  unfold defer. destruct searching; [done|]. case_decide as Hs.
  - split; [done|]. intros _. rewrite shown_all by by constructor. exact (Nat.le_trans _ _ _ Hs (Nat.le_max_r _ _)).
  - cbn [defer_loop]. rewrite decide_True by by left. split; [done|]. intros _. rewrite shown_cons, Hd.
    pose proof (defer_loop_budget href (0 + card_count g)%nat groups Hf' ltac:(lia)) as Hb. rewrite cards_in_cons. cbn [Nat.add] in *. lia.
Qed.
(** Made section by section, no entry that matches is lost and none is made up. *)
Lemma groups_made mk keep order wrap key (ss : list Section_) :
  (forall s l, cards_of (wrap s l) = l /\ is_deferred (wrap s l) = false /\ slug_of (wrap s l) = key s) -> NoDup (key <$> ss) ->
  let groups := omap (group_with mk keep order wrap) ss in
  (groups ≫= cards_of) ≡ₚ filter (fun c => keep c = true) (mk <$> (ss ≫= snd)) /\
  NoDup (slug_of <$> groups) /\ Forall (fun g => is_deferred g = false /\ cards_of g <> []) groups.
Proof.
  intros Hw. cbn zeta.
  assert (forall s g, group_with mk keep order wrap s = Some g ->
            slug_of g = key s /\ is_deferred g = false /\ cards_of g <> [] /\ cards_of g ≡ₚ filter (fun c => keep c = true) (mk <$> s.2)) as Hg.
  { intros s g. unfold group_with. case_decide as Hc; [done|]. intros [= <-]. destruct (Hw s (sort_by order (filter (fun c => keep c = true) (mk <$> s.2)))) as (-> & -> & ->).
    split_and!; [done..| |apply sort_by_perm]. intros E. apply Hc, Permutation_nil_r. rewrite <- E. symmetry. apply sort_by_perm. }
  induction ss as [|s ss IH]; cbn [omap list_omap fmap list_fmap]; [done|]. intros [Hni Hnd]%NoDup_cons. destruct (IH Hnd) as (H1 & H2 & H3).
  rewrite bind_cons, fmap_app, filter_app, <- H1. destruct (group_with _ _ _ _ s) as [g|] eqn:Hs.
  - destruct (Hg _ _ Hs) as (Hk & Hd & Hc & Hp). rewrite bind_cons. split; [by f_equiv|]. split; [|by constructor]. cbn [fmap list_fmap]. constructor; [|done].
    rewrite Hk. intros (g' & E & (s' & Hs' & Hg')%list_elem_of_omap)%list_elem_of_fmap. apply Hni, list_elem_of_fmap. exists s'. split; [|done]. apply Hg in Hg' as [Ha _]. congruence.
  - split; [|done]. unfold group_with in Hs. case_decide as Hc; [|done]. by rewrite Hc.
Qed.
End Groups.

(** ** Sections *)
Lemma bind_insert {A K} `{EqDecision K} (keys : list K) (k0 : K) (x : A) (g g' : K -> list A) :
  NoDup keys -> k0 ∈ keys -> g' k0 = x :: g k0 -> (forall k, k <> k0 -> g' k = g k) -> (keys ≫= g') ≡ₚ x :: (keys ≫= g).
Proof.
  intros Hnd Hin H0 Hne. induction keys as [|k keys IH]; [by apply not_elem_of_nil in Hin|]. apply NoDup_cons in Hnd as [Hni Hnd]. rewrite !bind_cons.
  destruct (decide (k = k0)) as [->|Hk].
  - rewrite H0. cbn [app]. constructor. f_equiv. clear -Hni Hne. induction keys as [|k keys IHk]; [done|]. apply not_elem_of_cons in Hni as [Hk Hni].
    rewrite !bind_cons, (Hne k) by done. by rewrite IHk.
  - rewrite Hne by done. apply elem_of_cons in Hin as [->|Hin]; [done|]. rewrite IH by done. by rewrite Permutation_middle.
Qed.

(** Filing a list under the keys of its entries loses exactly the entries without one. *)
Lemma bind_classes {A K} `{EqDecision K} (f : A -> option K) (keys : list K) (l : list A) :
  NoDup keys -> (forall k, k ∈ keys) -> (keys ≫= fun k => filter (fun x => f x = Some k) l) ≡ₚ filter (fun x => is_Some (f x)) l.
Proof.
  intros Hnd Hall. induction l as [|x l IH].
  - clear. induction keys as [|k keys IHk]; [done|]. rewrite bind_cons. exact IHk.
  - rewrite filter_cons. destruct (f x) as [k0|] eqn:Hf.
    + rewrite decide_True by by exists k0. rewrite <- IH. apply (bind_insert _ k0); [done|apply Hall| |].
      * rewrite filter_cons. by rewrite decide_True.
      * intros k Hk. rewrite filter_cons. by rewrite decide_False by congruence.
    + rewrite decide_False by (by intros [? ?]). rewrite <- IH. clear -Hf. induction keys as [|k keys IHk]; [done|].
      rewrite !bind_cons, IHk. f_equiv. rewrite filter_cons. by rewrite decide_False by congruence.
Qed.

Definition categories : list Category := [reagents; enhancements ItemKind.Enchant; enhancements ItemKind.Gem].

(** The entries a category shows: those of its kind that say where they belong. *)
Definition listed (p : Category) (catalog : Catalog) : list CatalogItem :=
  match ca_kind p with
  | ItemKind.Reagent => filter (fun i => is_Some (ci_profession i)) (of_kind catalog ItemKind.Reagent)
  | ItemKind.Enchant => filter (fun i => is_Some (ci_slot i)) (of_kind catalog ItemKind.Enchant)
  | kind => of_kind catalog kind
  end.

Lemma sections_exact p catalog : p ∈ categories -> (ca_sections p catalog ≫= snd) ≡ₚ listed p catalog /\ NoDup (fst ∘ fst <$> ca_sections p catalog).
Proof.
  assert (forall {K} (l : list K) (f : K -> string) (g : K -> string) (h : K -> list CatalogItem),
            ((fun k => (f k, g k, h k)) <$> l) ≫= snd = l ≫= h /\ fst ∘ fst <$> ((fun k => (f k, g k, h k)) <$> l) = f <$> l) as Hs.
  { intros K l f g h. split; [|by rewrite <- list_fmap_compose]. induction l as [|k l IH]; [done|]. cbn [fmap list_fmap]. rewrite !bind_cons. f_equal. exact IH. }
  intros [->|[->|[->|Hn%not_elem_of_nil]%elem_of_cons]%elem_of_cons]%elem_of_cons; [..|done]; unfold listed.
  - cbn [ca_sections reagents ca_kind]. destruct (Hs _ Profession.ALL Profession.as_str Profession.label (by_profession catalog)) as [-> ->]. split.
    + apply bind_classes; [by apply (bool_decide_unpack _)|]. intros k. apply (bool_decide_unpack _). by destruct k.
    + apply (bool_decide_unpack _). vm_compute. exact I.
  - cbn [ca_sections enhancements ca_kind sections]. destruct (Hs _ Slot.ALL Slot.as_str Slot.label (by_slot catalog)) as [-> ->]. split.
    + apply bind_classes; [by apply (bool_decide_unpack _)|]. intros k. apply (bool_decide_unpack _). by destruct k.
    + apply (bool_decide_unpack _). vm_compute. exact I.
  - cbn [ca_sections enhancements ca_kind sections]. split; [|cbn; apply NoDup_singleton]. rewrite bind_cons. cbn. by rewrite app_nil_r.
Qed.

Section Complete.
Context (translate : Locale.t -> string -> string) (ago : Locale.t -> N -> string) (lowercase : string -> string).
Context `{JT : Json ItemTooltip}.

Lemma selected_again env expansion catalog :
  NoDup (c_id <$> catalogs (pe_catalogs env)) -> selected env expansion = Some catalog -> selected env (Some (c_id catalog)) = Some catalog.
Proof.
  intros Hnd Hs. assert (selected env (Some (c_id catalog)) = if decide (c_id catalog = "") then active (pe_catalogs env) (pe_states env) else public (pe_catalogs env) (pe_states env) (c_id catalog)) as ->.
  { unfold selected. cbn [mbind option_bind]. by case_decide. }
  unfold selected in Hs. destruct expansion as [id|]; cbn [mbind option_bind] in Hs; [destruct (decide (id = "")) as [->|Hid]|].
  2: { pose proof Hs as Hp. unfold public in Hp. destruct (by_id _ id) as [c|] eqn:Hb; [|done]. cbn [mbind option_bind] in Hp. destruct (CatalogStatus.is_public _); [|done]. injection Hp as ->.
       apply find_first_Some in Hb as [_ Hb]. apply bool_decide_eq_true in Hb. rewrite Hb. by rewrite decide_False. }
  all: case_decide as He; [done|]; unfold public; unfold active in Hs; apply find_first_Some in Hs as [Hin Ha];
    assert (by_id (pe_catalogs env) (c_id catalog) = Some catalog) as ->;
    [|cbn [mbind option_bind]; by destruct (state_of _ catalog)].
  all: unfold by_id; clear -Hnd Hin; induction (catalogs (pe_catalogs env)) as [|c l IH]; [by apply not_elem_of_nil in Hin|]; rewrite find_first_cons;
    cbn [fmap list_fmap] in Hnd; apply NoDup_cons in Hnd as [Hni Hnd]; apply elem_of_cons in Hin as [->|Hin]; [by rewrite bool_decide_eq_true_2|];
    rewrite bool_decide_eq_false_2; [by apply IH|]; intros E; apply Hni; rewrite E; by apply list_elem_of_fmap_2.
Qed.

(** C21: a category page shows every entry of its kind that says where it belongs, once,
    and with a search exactly those whose name holds the term; it counts what it shows.  A
    search is never deferred.  The first group is there from the start and the response
    stays within forty cards or is that group; each group left out carries an address that
    decodes to its catalogue and itself, and the request it makes is answered with that
    very group and its cards, not with another placeholder. *)
Theorem category_complete p env prefs query expansion view :
  p ∈ categories -> NoDup (c_id <$> catalogs (pe_catalogs env)) ->
  build translate ago lowercase p env prefs query expansion Full = Ok view ->
  exists catalog page,
    selected env expansion = Some catalog /\ page_of env prefs Full = Ok page /\
    let needle := normalise lowercase query in
    let mk := card_maker translate ago env prefs Full catalog page in
    (cv_groups view ≫= cg_cards) ≡ₚ filter (fun c => matches lowercase needle c = true) (mk <$> listed p catalog) /\
    cv_matched view = length (cv_groups view ≫= cg_cards) /\
    (is_Some needle -> shown (cv_groups view) = cv_groups view) /\
    (forall g, head (cv_groups view) = Some g ->
      cg_deferred g = false /\ (needle = None -> ca_defers p = true -> cards_in (shown (cv_groups view)) <= card_count g `max` INLINE_LIMIT)%nat) /\
    (forall g, g ∈ cv_groups view -> cg_deferred g = true ->
      cg_href g = group_href p catalog (cg_audience g) /\
      percent_decoded (query_value (c_id catalog)) = Some (bytes_of (c_id catalog)) /\ percent_decoded (query_value (cg_audience g)) = Some (bytes_of (cg_audience g)) /\
      render_fragment translate ago lowercase p env prefs {| sp_q := None; sp_group := Some (cg_audience g); sp_expansion := Some (c_id catalog) |} =
        Ok (One (undefer g) (cv_baseline_days view) (ca_heading_id p))).
Proof.
  intros Hp Hnd Hb. unfold build in Hb. destruct (selected env expansion) as [catalog|] eqn:Hsel; [|done]. destruct (page_of env prefs Full) as [page|] eqn:Hpage; [|done].
  destruct (sql_last_observed _ _) as [last|] eqn:Hlast; [|done]. injection Hb as <-. exists catalog, page. split_and!; [done..|]. cbn zeta. cbn [cv_groups cv_matched cv_baseline_days].
  set (needle := normalise lowercase query). set (mk := card_maker translate ago env prefs Full catalog page).
  set (groups := omap (group_of lowercase p mk needle) (ca_sections p catalog)).
  destruct (sections_exact p catalog Hp) as [Hent Hslug].
  destruct (groups_made (C := ItemCard) mk (matches lowercase needle) (ca_order p)
    (fun s cards => {| cg_audience := s.1.1; cg_label := s.1.2; cg_cards := cards; cg_deferred := false; cg_href := "" |}) (fst ∘ fst) _ ltac:(done) Hslug)
    as (Hcards & Hgs & Hgood).
  fold (group_of lowercase p mk needle) in Hcards, Hgs, Hgood. fold groups in Hcards, Hgs, Hgood. rewrite Hent in Hcards. cbn [cards_of CardGroup_laws] in Hcards.
  assert (Forall (fun g => is_deferred g = false) groups) as Hfree by (eapply Forall_impl; [exact Hgood|]; naive_solver).
  assert (forall b, ((if ca_defers p then defer groups b (group_href p catalog) else groups) ≫= cg_cards) = groups ≫= cg_cards) as Hdc
    by (intros b; destruct (ca_defers p); [exact (defer_cards b _ groups)|done]).
  split_and!.
  - by rewrite Hdc.
  - change (cards_in groups = length ((if ca_defers p then defer groups (bool_decide (is_Some needle)) (group_href p catalog) else groups) ≫= cg_cards)).
    rewrite cards_in_length. by rewrite Hdc.
  - intros Hn. destruct (ca_defers p); [|by apply shown_all]. unfold defer. rewrite bool_decide_eq_true_2 by done. by apply shown_all.
  - intros g Hg. destruct groups as [|g0 groups'] eqn:Eg; [by destruct (ca_defers p), (bool_decide (is_Some needle))|].
    destruct (ca_defers p); [|cbn in Hg; injection Hg as <-; split; [by apply Forall_cons in Hfree as [? _]|done]].
    destruct (defer_budget (bool_decide (is_Some needle)) (group_href p catalog) g0 groups' Hgood) as [Hh Hbudget]. rewrite Hh in Hg. injection Hg as <-.
    split; [by apply Forall_cons in Hfree as [? _]|]. intros Hn _. apply Hbudget. rewrite Hn. done.
  - intros g Hg Hd. destruct (ca_defers p) eqn:Hdef; [|rewrite Forall_forall in Hfree; by rewrite (Hfree g Hg : cg_deferred g = false) in Hd].
    destruct (only_deferred (G := CardGroup) (C := ItemCard) (H := CardGroup_Deferrable) (DeferrableLaws0 := CardGroup_laws) _ _ _ _ Hgs Hfree Hg Hd) as (Hs & Hh & Ho). cbn [slug_of address CardGroup_Deferrable CardGroup_laws] in Hh, Ho. apply bool_decide_eq_false in Hs. assert (needle = None) as Hn by (destruct needle; [by destruct Hs|done]).
    split_and!; [done|apply query_value_decoded..|]. unfold render_fragment, build. cbn [sp_q sp_group sp_expansion].
    rewrite (selected_again _ _ _ Hnd Hsel), Hpage, Hlast. cbn [cv_groups cv_baseline_days]. rewrite Hdef.
    change (normalise lowercase None) with (@None string). rewrite <- Hn. fold mk groups. by rewrite Ho.
Qed.
End Complete.

(** ** An example: forty-one reagents of one profession and one of another *)
Definition demo_reagent (profession : Profession.t) (n : nat) : CatalogItem :=
  {| ci_name := "Reagent"; ci_category := Category.Reagent; ci_kind := ItemKind.Reagent; ci_profession := Some profession; ci_slot := None; ci_audience := Audience.Common;
     ci_stat := default_stat; ci_ranks := [{| ir_rank := 1; ir_item_id := N.of_nat n |}]; ci_floor_copper := None; ci_icon := None; ci_target_quantity := None |}.
Definition demo_env : PageEnv :=
  {| pe_catalogs := {| catalogs := [{| c_id := "c d"; c_expansion := "e"; c_status := CatalogStatus.Active; c_version := 1; c_patches := []; c_raid_tiers := [];
       c_items := (demo_reagent Profession.Alchemy <$> seq 0 41) ++ [demo_reagent Profession.Blacksmithing 41]; c_item_levels := ∅; c_tracks := ∅; c_modifiers := ∅;
       c_notes := [] |}] |};
     pe_states := ReleaseStates_new; pe_read := ReadModel_empty; pe_prices := PriceTables_empty; pe_cache := ∅; pe_now := 0; pe_configured := true |}.
Definition demo_market_prefs : MarketPrefs := {| mp_region := Eu; mp_locale := Locale.EnGb; mp_baseline_days := 7 |}.
Definition demo_build : AppResult CategoryView :=
  build (JT := demo_tips) (fun _ s => s) (fun _ n => pretty n) (fun s => s)
    reagents demo_env demo_market_prefs None None Full.
Definition demo_fragment (params : SearchParams) : AppResult Fragment :=
  render_fragment (JT := demo_tips) (fun _ s => s) (fun _ n => pretty n) (fun s => s)
    reagents demo_env demo_market_prefs params.

Lemma category_complete_witness :
  exists view g, demo_build = Ok view /\ g ∈ cv_groups view /\ cg_href g = "/partials/reagents?expansion=c%20d&group=blacksmithing" /\
    demo_fragment {| sp_q := None; sp_group := Some "blacksmithing"; sp_expansion := Some "c d" |} = Ok (One (undefer g) 7 "profession").
Proof.
  assert (exists view, demo_build = Ok view) as [view Hv] by (eexists; vm_compute; reflexivity).
  destruct (category_complete (JT := demo_tips) (fun _ s => s) (fun _ n => pretty n)
    (fun s => s) reagents demo_env demo_market_prefs None None view ltac:(apply elem_of_cons; by left) ltac:(apply NoDup_singleton) Hv)
    as (catalog & page & Hsel & _ & _ & _ & _ & _ & Hdef).
  assert (exists g, (match demo_build with Ok view => cv_groups view !! 1%nat | Err _ => None end) = Some g /\ cg_deferred g = true /\ cg_audience g = "blacksmithing") as (g & Hg & Hd & Ha)
    by (eexists; vm_compute; split_and!; reflexivity).
  rewrite Hv in Hg. exists view, g. split; [exact Hv|]. apply list_elem_of_lookup_2 in Hg. split; [exact Hg|]. destruct (Hdef g Hg Hd) as (Hh & _ & _ & Hr).
  assert (c_id catalog = "c d") as Hc by (injection Hsel as <-; reflexivity). unfold group_href in Hh. rewrite Hc, Ha in *. split; [exact Hh|].
  assert (cv_baseline_days view = 7) as Hb. { assert ((match demo_build with Ok view => cv_baseline_days view | Err _ => 0 end) = 7) as Hx by (vm_compute; reflexivity). by rewrite Hv in Hx. }
  rewrite Hb in Hr. exact Hr.
Defined.
