(* ===== verification/Gear.v ===== *)
(** * Gear: the pages of what is sold realm by realm

    Models [crates/app-web/src/routes/gear.rs] whole, but for its templates: the
    bind-on-equip page, the recipes page and the fragments they fetch, with the records of
    [crates/app-web/src/views.rs] they fill.  The realm is chosen by a slug ([Prefs.slug]),
    the figures are the stored roll-ups of the reader's region and that realm
    ([ReadModel.rollups]).

    [gear_complete]: what the pages show of which market, and that nothing is lost between the
    first response and the groups that fetch themselves. *)
From Stdlib Require Import Ascii ZArith.
From stdpp Require Import prelude gmap sorting strings pretty.
From S2P Require Import Prelude Text Time Store AppError Accounts Sqlite Market MarketKey Window Engine Catalog Release Realm PriceStore RealmStore Materialise Rollup ReadRows ReadModel SmallStores FragmentCache Locale Prefs Tooltips Cards Pages.

(** ** What a card shows *)
Record GearWhere := { gw_realm_full : string; gw_realm : option string; gw_price : string }.
Definition GearWhere_default : GearWhere := {| gw_realm_full := ""; gw_realm := None; gw_price := "" |}.
Record GearExtra := { gx_name : string; gx_listings : N }.
Record GearCell := {
  ge_listed : bool; ge_price : string; ge_cheapest : GearWhere; ge_highest : GearWhere; ge_listings : N; ge_realms : N; ge_band : option string; ge_band_slug : string;
  ge_rank_percent : option N; ge_extras : list GearExtra }.
Definition GearCell_default : GearCell :=
  {| ge_listed := false; ge_price := ""; ge_cheapest := GearWhere_default; ge_highest := GearWhere_default; ge_listings := 0; ge_realms := 0; ge_band := None; ge_band_slug := "";
     ge_rank_percent := None; ge_extras := [] |}.
Record GearTrackRow := { gt_track : string; gt_levels : string; gt_leveled : bool; gt_href : string; gt_listed : bool; gt_cells : list GearCell }.
Record GearCard := {
  gc_name : string; gc_icon : option string; gc_tooltip_item_id : N; gc_tooltip : option TooltipView; gc_slot : string; gc_material : option string; gc_scopes : list string;
  gc_tracks : list GearTrackRow; gc_unlisted : bool }.
Record RealmOption := { ro_name : string }.
Record GearView := {
  gv_realm_name : string; gv_region_label : string; gv_kind : string; gv_has_realms : bool; gv_expansion : string; gv_expansion_id : string; gv_archived : bool;
  gv_observed : string; gv_realm_label : option string; gv_region : string; gv_realm_slug : string; gv_title : string; gv_blurb : string; gv_path : string;
  gv_fragment_path : string; gv_leveled : bool; gv_searchable : bool; gv_query : string; gv_compact : bool; gv_groups : list (GearGroup GearCard) }.

(** [to_uppercase], of the letters of a region. *)
Definition upper (a : ascii) : ascii := let n := N_of_ascii a in if decide (97 <= n <= 122) then ascii_of_N (n - 32) else a.
Fixpoint to_uppercase (s : string) : string := match s with EmptyString => EmptyString | String a s => String (upper a) (to_uppercase s) end.

(** ** Realms *)
Abbreviation Named := (gmap (Region * RealmId) (string * string)).

Definition realm_name_of (r : Realm) : string * string :=
  let members := sort_by string_cmp (r_members r) in
  (default (r_name r) (head members), if decide (1 < length members)%nat then String.concat ", " members else "").
Definition realm_names (realms : list Realm) : Named := foldl (fun m r => <[(r_region r, r_id r) := realm_name_of r]> m) ∅ realms.

Definition realm_options (realms : list Realm) : list RealmOption :=
  sort_by (fun a b => string_cmp (ro_name a) (ro_name b))
    (realms ≫= fun realm => Build_RealmOption <$> (if decide (r_members realm = []) then [r_name realm] else r_members realm)).

(** What the label of a chosen realm says of the others that share its auction house. *)
Definition shared_label (realm : Realm) (chosen_name : string) : string :=
  let others := filter (fun m => m <> chosen_name) (r_members realm) in
  if decide (others = []) then chosen_name else chosen_name +:+ " (" +:+ String.concat ", " others +:+ ")".

(** ** Cards *)
Definition rollups_by_item (rollups : list MarketRollup) : gmap N (list MarketRollup) := group_by mr_item id rollups.

Definition cell_name (named : Named) (region : Region) (realm : option RealmId) : string * string :=
  default (default "" (pretty <$> realm), "") (realm ≫= fun realm => named !! (region, realm)).

Definition cell (rollup : MarketRollup) (named : Named) (one_realm : bool) : GearCell :=
  match mr_cheapest_now rollup with
  | None => GearCell_default
  | Some cheapest =>
      let name := cell_name named (mr_region rollup) in
      let '(price, high, high_realm) :=
        if one_realm then (cheapest, default cheapest (mr_highest_now rollup), None)
        else (default cheapest (mr_median_realm_now rollup), default cheapest (mr_dearest_realm_now rollup), mr_dearest_realm rollup) in
      let valuation := mr_position rollup ≫= pos_valuation in
      {| ge_listed := true; ge_price := Copper_fmt price;
         ge_cheapest := {| gw_realm := if one_realm then None else Some (name (mr_cheapest_realm rollup)).1;
                           gw_realm_full := if one_realm then "" else (name (mr_cheapest_realm rollup)).2; gw_price := Copper_fmt cheapest |};
         ge_highest := {| gw_realm := if one_realm then None else Some (name high_realm).1; gw_realm_full := if one_realm then "" else (name high_realm).2;
                          gw_price := Copper_fmt high |};
         ge_listings := mr_listings_now rollup; ge_realms := mr_realms_listing rollup; ge_band := Valuation.as_str <$> valuation;
         ge_band_slug := default "none" (Valuation.slug <$> valuation); ge_rank_percent := mr_position rollup ≫= pos_rank;
         ge_extras := (fun m => {| gx_name := md_name m; gx_listings := md_now m |}) <$> filter (fun m => 0 < md_now m) (mr_modifiers rollup) |}
  end.

(** A recipe has one version of itself; gear always shows all four tracks. *)
Definition wanted_tracks (kind : ItemKind.t) : list (option Track.t) := if decide (kind = ItemKind.Recipe) then [None] else Some <$> Track.ALL.

Definition first_item (entry : CatalogItem) : ItemId := default 0 (ir_item_id <$> head (ci_ranks entry)).

Definition track_row (entry : CatalogItem) (mine : list MarketRollup) (named : Named) (one_realm : bool) (track : option Track.t) : GearTrackRow :=
  let rollup := find_first (fun r => bool_decide (mr_track r = track)) mine in
  let c := default GearCell_default ((fun r => cell r named one_realm) <$> rollup) in
  {| gt_track := default "" (Track.as_str <$> track); gt_levels := default "" (mr_level_range <$> rollup); gt_leveled := bool_decide (is_Some track);
     gt_href := match track with
                | Some track => "/wow/gear/" +:+ pretty (first_item entry) +:+ "/" +:+ Track.slug track
                | None => if decide (ci_kind entry = ItemKind.Recipe) then "/wow/recipe/" +:+ pretty (first_item entry) else ""
                end;
     gt_listed := ge_listed c; gt_cells := [c] |}.

Definition gear_card (entry : CatalogItem) (rows : gmap N (list MarketRollup)) (named : Named) (selected : option Realm) (tooltips : gmap N TooltipView) : GearCard :=
  let item := first_item entry in
  let mine := default [] (rows !! item) in
  let label := match selected with Some realm => r_name realm | None => default "" ((fun r => to_uppercase (Region_as_str (mr_region r))) <$> head mine) end in
  let tracks := track_row entry mine named (bool_decide (is_Some selected)) <$> wanted_tracks (ci_kind entry) in
  {| gc_name := default (ci_name entry) (tv_name <$> tooltips !! item); gc_icon := icon_url entry; gc_tooltip_item_id := item; gc_tooltip := tooltips !! item;
     gc_slot := default "" (Slot.label <$> ci_slot entry); gc_material := match ci_slot entry with Some _ => None | None => tooltips !! item ≫= tv_material end;
     gc_unlisted := forallb (fun t => negb (gt_listed t)) tracks; gc_scopes := [label]; gc_tracks := tracks |}.

(** ** The page *)
Definition gear_sections (catalog : Catalog) (kind : ItemKind.t) : list Section_ :=
  match kind with
  | ItemKind.Recipe => (fun p => (Profession.label p, Profession.as_str p, recipes_for catalog p)) <$> Profession.ALL
  | _ => [("", "all", of_kind catalog kind)]
  end.

Record PageText := { pt_title : string; pt_blurb : string; pt_path : string; pt_fragment_path : string }.
Definition GEAR : PageText :=
  {| pt_title := "Bind-on-equip gear";
     pt_blurb := "Raid bind-on-equip pieces from {}. Gear is not a commodity: every connected realm has its own price, and one item id trades at several upgrade levels.";
     pt_path := "/wow/auctions/gear"; pt_fragment_path := "/partials/gear" |}.
Definition RECIPES : PageText :=
  {| pt_title := "Recipes";
     pt_blurb := "Every recipe of {} trading on the auction house, by the profession that reads it. Recipes are per realm, like gear, and have no upgrade levels.";
     pt_path := "/wow/auctions/recipes"; pt_fragment_path := "/partials/recipes" |}.
Definition PageText_of (kind : ItemKind.t) : PageText := match kind with ItemKind.Recipe => RECIPES | _ => GEAR end.

Section Gear.
Context (translate : Locale.t -> string -> string) (ago : Locale.t -> N -> string) (lowercase : string -> string).
Context (is_alphanumeric : string -> bool) (to_lowercase : string -> list string).
Context `{JT : Json ItemTooltip, JN : Json (list string)}.
Context `{JP : Json (list StoredPoint), JL : Json (list StoredLevel), JM : Json (list StoredModifier)}.

Abbreviation slugged := (slug is_alphanumeric to_lowercase).

Definition realm_matches (want : string) (realm : Realm) : bool :=
  bool_decide (slugged (r_name realm) = Some want) || existsb (fun member => bool_decide (slugged member = Some want)) (r_members realm).

Definition member_named (realm : Realm) (want : string) : string :=
  default (r_name realm) (find_first (fun member => bool_decide (slugged member = Some want)) (r_members realm)).

Definition gear_matches (needle : option string) (c : GearCard) : bool :=
  match needle with None => true | Some needle => contains needle (lowercase (gc_name c)) end.

Definition gear_group (mk : CatalogItem -> GearCard) (needle : option string) : Section_ -> option (GearGroup GearCard) :=
  group_with mk (gear_matches needle) (fun a b => string_cmp (gc_name a) (gc_name b))
    (fun s cards => {| gg_label := s.1.1; gg_anchor := s.1.2; gg_cards := cards; gg_deferred := false; gg_href := "" |}).

Definition gear_href (kind : ItemKind.t) (catalog : Catalog) (region_code realm_slug group : string) : string :=
  pt_fragment_path (PageText_of kind) +:+ "?expansion=" +:+ query_value (c_id catalog) +:+ "&region=" +:+ region_code +:+ "&realm=" +:+ query_value realm_slug +:+
  "&group=" +:+ query_value group.

(** The realms of the reader's region, and the one a slug names among them. *)
Definition region_realms (prefs : MarketPrefs) (db : RealmTables) : AppResult (list Realm) :=
  match RealmStore.realms db with Err e => Err (AppError.Repo e) | Ok all => Ok (filter (fun r => r_region r = mp_region prefs) all) end.
Definition resolve_realm (realms : list Realm) (chosen : RealmChoice) : option Realm := want ← chosen; find_first (realm_matches want) realms.
Definition scope_of (selected : option Realm) : Scope.t := match selected with None => Scope.Region_ | Some realm => Scope.Realm_ (r_id realm) end.

Definition rollups_for (env : PageEnv) (prefs : MarketPrefs) (kind : ItemKind.t) (scope : Scope.t) (detail : Detail) : AppResult (list MarketRollup) :=
  match detail with
  | Shell => Ok []
  | Full => match ReadModel.rollups (mp_region prefs) kind scope (pe_read env) with Err e => Err (AppError.Repo e) | Ok rows => Ok rows end
  end.

Definition gear_card_maker (env : PageEnv) (prefs : MarketPrefs) (detail : Detail) (catalog : Catalog) (realms : list Realm) (selected : option Realm)
    (rollups : list MarketRollup) : CatalogItem -> GearCard :=
  let tooltips := match detail with Shell => ∅ | Full => cached_all translate (mp_locale prefs) catalog (pe_now env) (pe_cache env) end in
  fun entry => gear_card entry (rollups_by_item rollups) (realm_names realms) selected tooltips.

Definition gear_build (kind : ItemKind.t) (env : PageEnv) (db : RealmTables) (prefs : MarketPrefs) (chosen : RealmChoice) (expansion query : option string) (detail : Detail) :
    AppResult GearView :=
  match selected env expansion with
  | None => Err AppError.NotFound
  | Some catalog =>
      match region_realms prefs db with
      | Err e => Err e
      | Ok realms =>
          let selected := resolve_realm realms chosen in
          if decide (is_Some chosen /\ selected = None) then Err AppError.NotFound
          else
            match rollups_for env prefs kind (scope_of selected) detail with
            | Err e => Err e
            | Ok rollups =>
                let needle := normalise lowercase query in
                let mk := gear_card_maker env prefs detail catalog realms selected rollups in
                let groups := match detail with Shell => [] | Full => omap (gear_group mk needle) (gear_sections catalog kind) end in
                let text := PageText_of kind in
                let realm_name := match selected, chosen with Some realm, Some want => member_named realm want | _, _ => "" end in
                let realm_slug := default "" chosen in
                let region_code := Region_as_str (match selected with Some r => r_region r | None => mp_region prefs end) in
                Ok {| gv_realm_name := realm_name; gv_region_label := to_uppercase (Region_as_str (mp_region prefs));
                      gv_kind := match kind with ItemKind.Recipe => "recipes" | _ => "gear" end; gv_has_realms := negb (bool_decide (realms = []));
                      gv_title := pt_title text; gv_blurb := pt_blurb text; gv_path := pt_path text; gv_fragment_path := pt_fragment_path text;
                      gv_leveled := match kind with ItemKind.Recipe => false | _ => true end; gv_compact := bool_decide (is_Some selected);
                      gv_searchable := match kind with ItemKind.Recipe => true | _ => false end; gv_query := default "" needle; gv_expansion := c_expansion catalog;
                      gv_expansion_id := c_id catalog; gv_archived := negb (CatalogStatus.is_collected (state_of (pe_states env) catalog));
                      gv_observed := observed ago prefs (pe_now env) (maxN (omap mr_observed_at rollups));
                      gv_realm_label := (fun realm => shared_label realm realm_name) <$> selected; gv_region := region_code; gv_realm_slug := realm_slug;
                      gv_groups := defer groups (bool_decide (is_Some needle)) (gear_href kind catalog region_code realm_slug) |}
            end
      end
  end.

(** ** Fragments *)
Inductive GearFragment := GearWhole (view : GearView) | GearOne (group : GearGroup GearCard) (region realm_slug : string) (compact : bool).

Definition gear_fragment (kind : ItemKind.t) (env : PageEnv) (db : RealmTables) (prefs : MarketPrefs) (chosen : RealmChoice) (params : SearchParams) : AppResult GearFragment :=
  match gear_build kind env db prefs chosen (sp_expansion params) (sp_q params) Full with
  | Err e => Err e
  | Ok gear =>
      match sp_group params with
      | None => Ok (GearWhole gear)
      | Some wanted =>
          match only (gv_groups gear) wanted with
          | Some group => Ok (GearOne group (gv_region gear) (gv_realm_slug gear) (gv_compact gear))
          | None => Err AppError.NotFound
          end
      end
  end.

(** What a request for a fragment is filed under; a search ([Ok None]) is answered as it is. *)
Definition fragment_id (kind : ItemKind.t) (env : PageEnv) (prefs : MarketPrefs) (chosen : RealmChoice) (params : SearchParams) : AppResult (option FragmentId) :=
  if decide (trim (default "" (sp_q params)) <> "") then Ok None
  else
    match ReadModel.published (pe_read env) with
    | Err e => Err (AppError.Repo e)
    | Ok v =>
        Ok (Some {| fi_route := match kind with ItemKind.Recipe => "recipes" | _ => "gear" end; fi_version := av_version <$> v; fi_catalog := default "" (sp_expansion params);
                    fi_region := Region_as_str (mp_region prefs); fi_baseline_days := mp_baseline_days prefs; fi_realm := default "" chosen;
                    fi_locale := Locale.code (mp_locale prefs); fi_group := sp_group params |})
    end.
End Gear.

(** ** Rows *)
Lemma rollups_by_item_lookup rollups item : default [] (rollups_by_item rollups !! item) = filter (fun r => mr_item r = item) rollups.
Proof. unfold rollups_by_item. rewrite group_by_lookup, list_fmap_id. by destruct (filter _ rollups). Qed.

(** The stored row of an item and track: the first of the query's. *)
Definition market_row (rows : list MarketRollup) (item : ItemId) (track : option Track.t) : option MarketRollup :=
  find_first (fun r => bool_decide (mr_item r = item /\ mr_track r = track)) rows.

Lemma find_first_among {A} (p : A -> Prop) `{forall x, Decision (p x)} (q : A -> bool) l :
  find_first q (filter p l) = find_first (fun x => bool_decide (p x) && q x) l.
Proof.
  induction l as [|x l IH]; [done|]. rewrite filter_cons, find_first_cons. case_decide as Hp.
  - rewrite bool_decide_eq_true_2 by done. cbn [andb]. rewrite find_first_cons. by destruct (q x).
  - rewrite bool_decide_eq_false_2 by done. exact IH.
Qed.

Lemma find_first_ext {A} (q q' : A -> bool) l : (forall x, q x = q' x) -> find_first q l = find_first q' l.
Proof. intros H. induction l as [|x l IH]; [done|]. rewrite !find_first_cons, H. by rewrite IH. Qed.

Lemma mine_row rollups item track : find_first (fun r => bool_decide (mr_track r = track)) (default [] (rollups_by_item rollups !! item)) = market_row rollups item track.
Proof. rewrite rollups_by_item_lookup, find_first_among. apply find_first_ext. intros r. symmetry. apply bool_decide_and. Qed.

(** A row is listed exactly when its market's stored row has a price now, and then shows it. *)
Lemma track_row_exact entry rollups named one_realm track :
  let row := track_row entry (default [] (rollups_by_item rollups !! first_item entry)) named one_realm track in
  exists c, gt_cells row = [c] /\ gt_listed row = ge_listed c /\
    (gt_listed row = true <-> exists r cheapest, market_row rollups (first_item entry) track = Some r /\ mr_cheapest_now r = Some cheapest) /\
    (forall r cheapest, market_row rollups (first_item entry) track = Some r -> mr_cheapest_now r = Some cheapest ->
       ge_price c = Copper_fmt (if one_realm then cheapest else default cheapest (mr_median_realm_now r)) /\ gw_price (ge_cheapest c) = Copper_fmt cheapest /\
       gw_price (ge_highest c) = Copper_fmt (default cheapest (if one_realm then mr_highest_now r else mr_dearest_realm_now r)) /\
       (gw_realm (ge_cheapest c) = None <-> one_realm = true)).
Proof.
  cbn zeta. unfold track_row. rewrite mine_row. eexists. split; [reflexivity|]. split; [reflexivity|]. cbn [gt_listed].
  destruct (market_row _ _ _) as [r|]; cbn [fmap option_fmap option_map from_option id]; [|split; [by split; [|intros (? & ? & ? & _)]|done]].
  unfold cell. destruct (mr_cheapest_now r) as [cheapest|] eqn:Hc; cbn [ge_listed GearCell_default].
  - split; [|intros ? ? [= <-]; rewrite Hc; intros [= <-]; by destruct one_realm]. destruct one_realm; cbn; (split; [by intros _; exists r, cheapest|done]).
  - split; [split; [done|]|]; [intros (? & ? & [= <-] & ?); congruence|intros ? ? [= <-]; congruence].
Qed.

(** ** Sections *)
Definition gear_listed (kind : ItemKind.t) (catalog : Catalog) : list CatalogItem :=
  match kind with ItemKind.Recipe => filter (fun i => is_Some (ci_profession i)) (of_kind catalog ItemKind.Recipe) | _ => of_kind catalog kind end.

Lemma gear_sections_exact kind catalog : (gear_sections catalog kind ≫= snd) ≡ₚ gear_listed kind catalog /\ NoDup (snd ∘ fst <$> gear_sections catalog kind).
Proof.
  assert (kind = ItemKind.Recipe \/ (gear_sections catalog kind = [("", "all", of_kind catalog kind)] /\ gear_listed kind catalog = of_kind catalog kind)) as [->|[-> ->]]
    by (destruct kind; auto); [|split; [rewrite bind_cons; cbn; by rewrite app_nil_r|apply NoDup_singleton]].
  unfold gear_sections, gear_listed. split; [|rewrite <- list_fmap_compose; apply (bool_decide_unpack _); vm_compute; exact I].
  assert (((fun p => (Profession.label p, Profession.as_str p, recipes_for catalog p)) <$> Profession.ALL) ≫= snd = Profession.ALL ≫= recipes_for catalog) as ->.
  { induction Profession.ALL as [|p l IH]; [done|]. cbn [fmap list_fmap]. rewrite !bind_cons. f_equal. exact IH. }
  apply bind_classes; [by apply (bool_decide_unpack _)|]. intros k. apply (bool_decide_unpack _). by destruct k.
Qed.

Section Complete.
Context (translate : Locale.t -> string -> string) (ago : Locale.t -> N -> string) (lowercase : string -> string).
Context (is_alphanumeric : string -> bool) (to_lowercase : string -> list string).
Context `{JT : Json ItemTooltip, JN : Json (list string)}.
Context `{JP : Json (list StoredPoint), JL : Json (list StoredLevel), JM : Json (list StoredModifier)}.

Abbreviation page := (Gear.gear_build translate ago lowercase is_alphanumeric to_lowercase).
Abbreviation fragment := (Gear.gear_fragment translate ago lowercase is_alphanumeric to_lowercase).
Abbreviation names := (Gear.realm_matches is_alphanumeric to_lowercase).
Abbreviation resolve := (Gear.resolve_realm is_alphanumeric to_lowercase).

Lemma region_realms_in prefs db realms r : region_realms prefs db = Ok realms -> r ∈ realms -> r_region r = mp_region prefs.
Proof. unfold region_realms. destruct (RealmStore.realms db); [|done]. intros [= <-]. by intros [? _]%list_elem_of_filter. Qed.

(** Every name the picker offers leads to a realm that bears it. *)
Lemma offered_resolves realms o s :
  o ∈ realm_options realms -> slug is_alphanumeric to_lowercase (ro_name o) = Some s ->
  exists realm, resolve realms (Some s) = Some realm /\ realm ∈ realms /\ names s realm = true.
Proof.
  unfold realm_options. intros Ho Hs. assert (exists realm, realm ∈ realms /\ names s realm = true) as (realm & Hin & Hm).
  { rewrite sort_by_perm in Ho. apply list_elem_of_bind in Ho as (realm & Hn & Hr). exists realm. split; [done|]. apply list_elem_of_fmap in Hn as (name & -> & Hn). cbn [ro_name] in Hs.
    unfold Gear.realm_matches. case_decide as Hm.
    - apply list_elem_of_singleton in Hn as ->. by rewrite bool_decide_eq_true_2.
    - apply orb_true_iff. right. apply existsb_exists. exists name. split; [by apply list_elem_of_In|by apply bool_decide_eq_true_2]. }
  unfold Gear.resolve_realm. cbn [mbind option_bind]. destruct (find_first (names s) realms) as [r|] eqn:Hf.
  - exists r. split; [done|]. by apply find_first_Some in Hf as [? ?].
  - exfalso. clear -Hin Hm Hf. induction realms as [|x l IH]; [by apply not_elem_of_nil in Hin|]. rewrite find_first_cons in Hf.
    apply elem_of_cons in Hin as [->|Hin]; [by rewrite Hm in Hf|]. destruct (names s x); [done|by apply IH].
Qed.

(** A realm that is not one of the region's is an error, not the cross-realm view. *)
Lemma unknown_realm_refused kind env db prefs want expansion query detail catalog realms :
  selected env expansion = Some catalog -> region_realms prefs db = Ok realms -> (forall r, r ∈ realms -> names want r = false) ->
  page kind env db prefs (Some want) expansion query detail = Err AppError.NotFound.
Proof.
  intros Hc Hr Hn. unfold Gear.gear_build. rewrite Hc, Hr, decide_True; [done|]. split; [by exists want|]. unfold Gear.resolve_realm. cbn [mbind option_bind].
  destruct (find_first _ realms) as [r|] eqn:Hf; [|done]. apply find_first_Some in Hf as [Hin Hm]. rewrite (Hn r Hin) in Hm. done.
Qed.

Lemma realm_resolved realms chosen :
  ~ (is_Some chosen /\ resolve realms chosen = None) ->
  match chosen with
  | None => resolve realms chosen = None
  | Some want => exists realm, resolve realms chosen = Some realm /\ realm ∈ realms /\ names want realm = true
  end.
Proof.
  intros H. destruct chosen as [want|]; [|done]. unfold Gear.resolve_realm in *. cbn [mbind option_bind] in *. destruct (find_first _ realms) as [r|] eqn:Hf.
  - exists r. split; [done|]. by apply find_first_Some in Hf as [? ?].
  - exfalso. apply H. split; [by eexists|done].
Qed.

Lemma tracks_exact env prefs catalog realms (sel : option Realm) rows entry :
  Forall2 (fun track row => exists c, gt_cells row = [c] /\
      (gt_listed row = true <-> exists r cheapest, market_row rows (first_item entry) track = Some r /\ mr_cheapest_now r = Some cheapest) /\
      (forall r cheapest, market_row rows (first_item entry) track = Some r -> mr_cheapest_now r = Some cheapest ->
         ge_price c = Copper_fmt (if sel then cheapest else default cheapest (mr_median_realm_now r)) /\ gw_price (ge_cheapest c) = Copper_fmt cheapest /\
         gw_price (ge_highest c) = Copper_fmt (default cheapest (if sel then mr_highest_now r else mr_dearest_realm_now r)) /\
         (gw_realm (ge_cheapest c) = None <-> is_Some sel)))
    (wanted_tracks (ci_kind entry)) (gc_tracks (gear_card_maker translate env prefs Full catalog realms sel rows entry)).
Proof.
  unfold gear_card_maker, gear_card. cbn [gc_tracks]. apply Forall2_fmap_r, Forall_Forall2_diag, Forall_true. intros track.
  destruct (track_row_exact entry rows (realm_names realms) (bool_decide (is_Some sel)) track) as (c & Hc & Hl & Hlisted & Hfig). exists c. split; [done|]. split; [done|].
  intros r cheapest Hr Hp. destruct (Hfig r cheapest Hr Hp) as (H1 & H2 & H3 & H4). rewrite bool_decide_eq_true in H4. by destruct sel.
Qed.

(** C25: a per-realm page that is answered shows, of the realms of the reader's region, the
    one its slug names, or all of them when none is chosen; it has a card for each entry of
    its kind that says where it belongs, once, and with a search exactly those whose name
    holds the term.  A card has a row for every track, and a row is listed exactly when the
    stored row of that item, track, region and realm has a price now: the price on it is
    that one, the median of the realms' when no realm is chosen, and a realm is named only
    then.  The first group is there from the start and the response stays within forty cards
    or is that group; each group left out carries an address that decodes to its catalogue,
    region, realm and itself, and its request is answered with that very group. *)
Theorem gear_complete kind env db prefs chosen expansion query view :
  NoDup (c_id <$> catalogs (pe_catalogs env)) ->
  page kind env db prefs chosen expansion query Full = Ok view ->
  exists catalog realms sel rows,
    selected env expansion = Some catalog /\ region_realms prefs db = Ok realms /\
    ReadModel.rollups (mp_region prefs) kind (scope_of sel) (pe_read env) = Ok rows /\
    match chosen with None => sel = None | Some want => exists realm, sel = Some realm /\ realm ∈ realms /\ names want realm = true end /\
    let needle := normalise lowercase query in
    let mk := gear_card_maker translate env prefs Full catalog realms sel rows in
    (gv_groups view ≫= gg_cards) ≡ₚ filter (fun c => gear_matches lowercase needle c = true) (mk <$> gear_listed kind catalog) /\
    (forall entry, Forall2 (fun track row => exists c, gt_cells row = [c] /\
        (gt_listed row = true <-> exists r cheapest, market_row rows (first_item entry) track = Some r /\ mr_cheapest_now r = Some cheapest) /\
        (forall r cheapest, market_row rows (first_item entry) track = Some r -> mr_cheapest_now r = Some cheapest ->
           ge_price c = Copper_fmt (if sel then cheapest else default cheapest (mr_median_realm_now r)) /\ gw_price (ge_cheapest c) = Copper_fmt cheapest /\
           gw_price (ge_highest c) = Copper_fmt (default cheapest (if sel then mr_highest_now r else mr_dearest_realm_now r)) /\
           (gw_realm (ge_cheapest c) = None <-> is_Some sel)))
      (wanted_tracks (ci_kind entry)) (gc_tracks (mk entry))) /\
    (is_Some needle -> shown (gv_groups view) = gv_groups view) /\
    (forall g, head (gv_groups view) = Some g ->
      gg_deferred g = false /\ (needle = None -> cards_in (shown (gv_groups view)) <= card_count g `max` INLINE_LIMIT)%nat) /\
    (forall g, g ∈ gv_groups view -> gg_deferred g = true ->
      gg_href g = gear_href kind catalog (Region_as_str (mp_region prefs)) (default "" chosen) (gg_anchor g) /\
      percent_decoded (query_value (c_id catalog)) = Some (bytes_of (c_id catalog)) /\ percent_decoded (query_value (default "" chosen)) = Some (bytes_of (default "" chosen)) /\
      percent_decoded (query_value (gg_anchor g)) = Some (bytes_of (gg_anchor g)) /\
      fragment kind env db prefs chosen {| sp_q := None; sp_group := Some (gg_anchor g); sp_expansion := Some (c_id catalog) |} =
        Ok (GearOne (undefer g) (Region_as_str (mp_region prefs)) (default "" chosen) (bool_decide (is_Some chosen)))).
Proof.
  intros Hnd Hb. unfold Gear.gear_build in Hb. destruct (selected env expansion) as [catalog|] eqn:Hsel; [|done]. destruct (region_realms prefs db) as [realms|] eqn:Hrealms; [|done].
  destruct (decide (is_Some chosen /\ _)) as [|Hch]; [done|]. set (sel := resolve realms chosen) in *.
  destruct (rollups_for env prefs kind (scope_of sel) Full) as [rows|] eqn:Hrows; [|done]. injection Hb as <-.
  assert (match chosen with None => sel = None | Some want => exists realm, sel = Some realm /\ realm ∈ realms /\ names want realm = true end) as Hcs by by apply realm_resolved.
  assert (Region_as_str (match sel with Some r => r_region r | None => mp_region prefs end) = Region_as_str (mp_region prefs)) as Hcode.
  { destruct chosen as [want|]; [|by rewrite Hcs]. destruct Hcs as (realm & -> & Hin & _). by rewrite (region_realms_in _ _ _ _ Hrealms Hin). }
  assert (bool_decide (is_Some sel) = bool_decide (is_Some chosen)) as Hcomp.
  { apply bool_decide_ext. destruct chosen as [want|]; [destruct Hcs as (realm & -> & _); by split; eexists|by rewrite Hcs]. }
  exists catalog, realms, sel, rows. split; [done|]. split; [done|]. split; [unfold rollups_for in Hrows; by destruct (ReadModel.rollups _ _ _ _); [injection Hrows as ->|]|].
  split; [exact Hcs|]. cbn zeta. cbn [gv_groups]. rewrite Hcode.
  set (needle := normalise lowercase query). set (mk := gear_card_maker translate env prefs Full catalog realms sel rows). set (href := gear_href kind catalog _ _).
  destruct (gear_sections_exact kind catalog) as [Hent Hslug].
  destruct (groups_made (C := GearCard) mk (gear_matches lowercase needle) (fun a b => string_cmp (gc_name a) (gc_name b))
    (fun s cards => {| gg_label := s.1.1; gg_anchor := s.1.2; gg_cards := cards; gg_deferred := false; gg_href := "" |}) (snd ∘ fst) _ ltac:(done) Hslug) as (Hcards & Hgs & Hgood).
  fold (gear_group lowercase mk needle) in Hcards, Hgs, Hgood. set (groups := omap (gear_group lowercase mk needle) _) in *. rewrite Hent in Hcards.
  assert (Forall (fun g => is_deferred g = false) groups) as Hfree by (eapply Forall_impl; [exact Hgood|]; naive_solver).
  refine (conj _ (conj _ (conj _ (conj _ _)))).
  - pose proof (defer_cards (bool_decide (is_Some needle)) href groups) as Hdc. cbn [cards_of GearGroup_laws] in Hdc, Hcards. by rewrite Hdc.
  - intros entry. apply tracks_exact.
  - intros Hn. unfold defer. rewrite bool_decide_eq_true_2 by done. by apply shown_all.
  - intros g Hg. destruct groups as [|g0 groups'] eqn:Eg; [by destruct (bool_decide (is_Some needle))|].
    destruct (defer_budget (bool_decide (is_Some needle)) href g0 groups' Hgood) as [Hh Hbudget]. rewrite Hh in Hg. injection Hg as <-.
    split; [by apply Forall_cons in Hfree as [? _]|]. intros Hn. apply Hbudget. by rewrite Hn.
  - intros g Hg Hd.
    destruct (only_deferred (G := GearGroup GearCard) (C := GearCard) (H := GearGroup_Deferrable) (DeferrableLaws0 := GearGroup_laws) _ _ _ _ Hgs Hfree Hg Hd) as (Hs & Hh & Ho).
    cbn [slug_of address GearGroup_Deferrable GearGroup_laws] in Hh, Ho. apply bool_decide_eq_false in Hs. assert (needle = None) as Hn by (destruct needle; [by destruct Hs|done]).
    refine (conj Hh (conj (query_value_decoded _) (conj (query_value_decoded _) (conj (query_value_decoded _) _)))). unfold Gear.gear_fragment, Gear.gear_build. cbn [sp_q sp_group sp_expansion].
    rewrite (selected_again _ _ _ Hnd Hsel), Hrealms. rewrite decide_False by exact Hch. fold sel. rewrite Hrows. cbn [gv_groups gv_region gv_realm_slug gv_compact]. rewrite Hcode, Hcomp.
    change (normalise lowercase None) with (@None string). rewrite <- Hn. fold mk href groups. by rewrite Ho.
Qed.

Lemma selected_default env expansion : selected env expansion = selected env (Some (default "" expansion)).
Proof. unfold selected. by destruct expansion. Qed.

Lemma normalise_blank q : trim (default "" q) = "" -> normalise lowercase q = None.
Proof. unfold normalise. destruct q as [q|]; [|done]. cbn [from_option id fmap option_fmap option_map mbind option_bind]. intros ->. by rewrite decide_True. Qed.

(** What is filed under one key is one fragment, as long as the tables and the clock stand
    still: the key holds everything of the request a fragment is made from. *)
Lemma gear_key_sound kind kind' env db prefs prefs' chosen chosen' params params' f :
  kind = ItemKind.Boe \/ kind = ItemKind.Recipe -> kind' = ItemKind.Boe \/ kind' = ItemKind.Recipe -> chosen <> Some "" -> chosen' <> Some "" ->
  fragment_id kind env prefs chosen params = Ok (Some f) -> fragment_id kind' env prefs' chosen' params' = Ok (Some f) ->
  fragment kind env db prefs chosen params = fragment kind' env db prefs' chosen' params'.
Proof.
  intros Hk Hk' Hc Hc'. unfold fragment_id. case_decide as Hq; [done|]. destruct (ReadModel.published _) as [v|]; [|done]. intros [= <-].
  case_decide as Hq'; [done|]. intros [= Hr Hcat Hreg Hbase Hrealm Hloc Hgroup].
  assert (kind = kind') as <- by (destruct Hk as [-> | ->], Hk' as [-> | ->]; done).
  assert (prefs = prefs') as <-.
  { destruct prefs, prefs'. cbn in *. apply Region_as_str_inj in Hreg. f_equal; [done| |done]. apply (f_equal Locale.parse) in Hloc. rewrite !(proj1 (locale_parse_code _)) in Hloc. by injection Hloc. }
  assert (chosen = chosen') as <- by (destruct chosen as [c|], chosen' as [c'|]; cbn in Hrealm; congruence).
  unfold Gear.gear_fragment, Gear.gear_build. rewrite (selected_default env (sp_expansion params)), (selected_default env (sp_expansion params')), Hcat, Hgroup.
  rewrite (normalise_blank (sp_q params) Hq), (normalise_blank (sp_q params') Hq'). done.
Qed.

Definition at_time (now : Millis) (env : PageEnv) : PageEnv :=
  {| pe_catalogs := pe_catalogs env; pe_states := pe_states env; pe_read := pe_read env; pe_prices := pe_prices env; pe_cache := pe_cache env; pe_now := now;
     pe_configured := pe_configured env |}.

(** The clock is not in the key, and the page says how old its prices are: the words of one
    instant are kept for as long as the key is. *)
Lemma age_outside_key kind env db prefs chosen params :
  (forall now, fragment_id kind (at_time now env) prefs chosen params = fragment_id kind env prefs chosen params) /\
  exists newest, forall now view, fragment kind (at_time now env) db prefs chosen params = Ok (GearWhole view) -> gv_observed view = observed ago prefs now newest.
Proof.
  split; [done|]. set (rows := match region_realms prefs db with
    | Ok realms => match rollups_for env prefs kind (scope_of (resolve realms chosen)) Full with Ok rows => rows | Err _ => [] end | Err _ => [] end).
  exists (maxN (omap mr_observed_at rows)). intros now view. unfold Gear.gear_fragment, Gear.gear_build, rows.
  change (selected (at_time now env)) with (selected env). destruct (selected env _) as [catalog|]; [|done]. destruct (region_realms prefs db) as [realms|]; [|done]. case_decide; [done|].
  change (rollups_for (at_time now env)) with (rollups_for env). destruct (rollups_for _ _ _ _ _) as [l|]; [|done]. destruct (sp_group params) as [wanted|]; [by destruct (only _ wanted)|].
  by intros [= <-].
Qed.
End Complete.

(** ** An example: forty-one recipes of one profession and one of another, on one realm *)
Definition demo_recipe (profession : Profession.t) (n : nat) : CatalogItem :=
  {| ci_name := "Recipe"; ci_category := Category.Recipe; ci_kind := ItemKind.Recipe; ci_profession := Some profession; ci_slot := None; ci_audience := Audience.Common;
     ci_stat := default_stat; ci_ranks := [{| ir_rank := 1; ir_item_id := N.of_nat n |}]; ci_floor_copper := None; ci_icon := None; ci_target_quantity := None |}.
Definition demo_gear_env : PageEnv :=
  {| pe_catalogs := {| catalogs := [{| c_id := "c"; c_expansion := "e"; c_status := CatalogStatus.Active; c_version := 1; c_patches := []; c_raid_tiers := [];
       c_items := (demo_recipe Profession.Alchemy <$> seq 0 41) ++ [demo_recipe Profession.Tailoring 41]; c_item_levels := ∅; c_tracks := ∅; c_modifiers := ∅;
       c_notes := [] |}] |};
     pe_states := ReleaseStates_new; pe_read := ReadModel_empty; pe_prices := PriceTables_empty; pe_cache := ∅; pe_now := 0; pe_configured := true |}.
Definition no_members : Json (list string) := {| to_json := fun _ => ""; from_json := fun _ => None |}.
Definition demo_gear_db : RealmTables :=
  (record_realm (JM := no_members) {| r_id := 1403; r_region := Eu; r_name := "Draenor"; r_members := []; r_locale := "en"; r_enabled := true |} RealmTables_empty).2.
Definition demo_gear (chosen : RealmChoice) : AppResult GearView :=
  gear_build (JT := demo_tips) (JN := no_members) (JP := demo_points) (JL := demo_levels) (JM := demo_modifiers)
    (fun _ s => s) (fun _ n => pretty n) (fun s => s) (fun _ => true) (fun c => [c]) ItemKind.Recipe demo_gear_env demo_gear_db demo_market_prefs chosen None None Full.

Lemma gear_complete_witness :
  exists view g, demo_gear (Some "Draenor") = Ok view /\ g ∈ gv_groups view /\ gg_href g = "/partials/recipes?expansion=c&region=eu&realm=Draenor&group=tailoring" /\
    demo_gear (Some "Silvermoon") = Err AppError.NotFound.
Proof.
  assert (exists view, demo_gear (Some "Draenor") = Ok view) as [view Hv] by (eexists; vm_compute; reflexivity).
  destruct (gear_complete (JT := demo_tips) (JN := no_members) (JP := demo_points) (JL := demo_levels) (JM := demo_modifiers)
    (fun _ s => s) (fun _ n => pretty n) (fun s => s) (fun _ => true) (fun c => [c]) ItemKind.Recipe demo_gear_env demo_gear_db demo_market_prefs (Some "Draenor") None None view
    ltac:(apply NoDup_singleton) Hv) as (catalog & realms & sel & rows & Hsel & _ & _ & _ & _ & _ & _ & _ & Hdef).
  assert (exists g, (match demo_gear (Some "Draenor") with Ok view => gv_groups view !! 1%nat | Err _ => None end) = Some g /\ gg_deferred g = true /\ gg_anchor g = "tailoring") as (g & Hg & Hd & Ha)
    by (eexists; vm_compute; split_and!; reflexivity).
  rewrite Hv in Hg. exists view, g. split; [exact Hv|]. apply list_elem_of_lookup_2 in Hg. split; [exact Hg|]. destruct (Hdef g Hg Hd) as (Hh & _).
  assert (catalog = default catalog (head (catalogs (pe_catalogs demo_gear_env)))) as Hc by (injection Hsel as <-; reflexivity). split; [|vm_compute; reflexivity].
  rewrite Hh, Ha, Hc. vm_compute. reflexivity.
Defined.
