(* ===== verification/Bonuses.v ===== *)
(** * Bonuses: what a bonus list says about an item

    Models [crates/app-core/src/market/bonuses.rs].  The rules are generated data
    ([bonus-data.json], embedded at build time): the record [Data] is an argument.  An
    [i64] is an integer that wraps, as in the shipped profile; the curves are evaluated in
    [F64], whose division is for a positive divisor: [curve_divides] shows that is all a
    curve in ascending order asks of it.

    [curve_within] and [bonuses_exact] are the theorems. *)
From Stdlib Require Import ZArith.
From stdpp Require Import prelude gmap sorting strings pretty.
From S2P Require Import Prelude F64 Market.

#[local] Open Scope Z_scope.

Definition PLAYER_LEVEL_CAP : Z := 90.

Module TertiaryStat.
Inductive t := Speed | Leech | Avoidance | Indestructible.
#[global] Instance eq_dec : EqDecision t.
Proof. solve_decision. Defined.
Definition ALL : list t := [Speed; Leech; Avoidance; Indestructible].
Definition key (self : t) : string :=
  match self with Speed => "speed" | Leech => "leech" | Avoidance => "avoidance" | Indestructible => "indestructible" end.
End TertiaryStat.

Record DecodedItem := { di_item_level : N; di_name_suffix : option string; di_tertiary_stats : list TertiaryStat.t }.

Abbreviation Curve := (list (f64 * f64)).

Record LevelData := {
  legacy_adjust : gmap string Z; content_tuning : gmap string (Z * Z * Z); legacy_set : gmap string (Z * Z); era_curve_set : gmap string (Z * Z * Z);
  item_scaling_set : gmap string (Z * Z * Z * Z * Z); item_scaling_set_by_player : gmap string (Z * Z * Z * Z * Z); era_adjust : gmap string (Z * Z * Z);
  adjust : gmap string (Z * Z) }.
Record SquishEra := { sq_id : Z; sq_curve : Curve; sq_target : bool }.
Record Item := {
  it_icon : option string; it_vendor_buy : option Copper; it_vendor_sell : option Copper; it_stack_size : N; it_bind_on_pickup : bool; it_expansion : option N;
  it_base_item_level : Z; it_squish_era : Z }.
Record Data := {
  da_level : LevelData; da_suffixes : gmap string (Z * Z); da_suffix_names : gmap string string; da_curve_points : gmap string Curve;
  da_tertiary_stats : gmap string (list N); da_squish_eras : list SquishEra; da_items : gmap string Item }.

Record ItemMetadata := {
  im_item : ItemId; im_icon : option string; im_vendor_buy : option Copper; im_vendor_sell : option Copper; im_stack_size : N; im_bind_on_pickup : bool;
  im_expansion : option N }.

Definition id_key (id : N) : string := pretty id.

(** Two's complement, and [as i64] of a double: saturating. *)
Definition i64 (z : Z) : Z := (z + 2 ^ 63) mod 2 ^ 64 - 2 ^ 63.
Definition rounded (value : f64) : Z := Z.max (- 2 ^ 63) (Z.min (2 ^ 63 - 1) (fround value / one)).

(** The loop over [windows(2)]. *)
Fixpoint segments (points : Curve) (x : f64) : option f64 :=
  match points with
  | (previous_x, previous_y) :: (((next_x, next_y) :: _) as points) =>
      if decide (x < next_x) then Some (fadd previous_y (fmul (fdiv (fsub x previous_x) (fsub next_x previous_x)) (fsub next_y previous_y)))
      else segments points x
  | _ => None
  end.

Definition curve_points (points : Curve) (x : Z) : f64 :=
  match points with
  | [] => 0
  | (first_x, first_y) :: _ =>
      let x := lit x 1 in
      if decide (x <= first_x) then first_y
      else match segments points x with Some y => y | None => default 0 (snd <$> last points) end
  end.

Definition curve (data : Data) (curve_id : Z) (x : Z) : f64 :=
  match da_curve_points data !! (pretty curve_id : string) with Some points => curve_points points x | None => 0 end.

(** [max_by_key]: the last of the greatest. *)
Definition max_by_first {V} (first : V -> Z) (l : list V) : option V :=
  match l with [] => None | x :: l => Some (foldl (fun best y => if decide (first best <= first y) then y else best) x l) end.

Definition looked_up {V} (ids : list N) (values : gmap string V) : list V := omap (fun id => values !! id_key id) ids.
Definition highest {V} (first : V -> Z) (ids : list N) (values : gmap string V) : option V := max_by_first first (looked_up ids values).

(** The item's level and era while the rules are applied, and what is owed to later eras. *)
Record Level := { lv_level : Z; lv_era : Z; lv_owed : gmap Z Z }.
Definition with_level (level : Z) (l : Level) : Level := {| lv_level := level; lv_era := lv_era l; lv_owed := lv_owed l |}.
Definition owe (era amount : Z) (m : gmap Z Z) : gmap Z Z := <[era := i64 (default 0 (m !! era) + amount)]> m.

Section Decode.
Context (data : Data) (bonus_ids : list N) (player_level : Z).

Definition set_legacy (l : Level) : Level :=
  match highest fst bonus_ids (legacy_set (da_level data)) with Some (_, set_level) => with_level set_level l | None => l end.

Definition tune_content (l : Level) : Level :=
  match highest (fun v => v.1.1) bonus_ids (content_tuning (da_level data)) with
  | Some (_, curve_id, player_max) =>
      let player := if decide (player_max = 0) then player_level else Z.min player_level player_max in with_level (rounded (curve data curve_id player)) l
  | None => l
  end.

Definition adjust_legacy (l : Level) : Level :=
  foldl (fun l amount => with_level (i64 (lv_level l + amount)) l) l (looked_up bonus_ids (legacy_adjust (da_level data))).

Definition scaled (base : Z) (v : Z * Z * Z * Z * Z) (l : Level) : Level :=
  let '(_, base_level, curve_id, offset, set_era) := v in
  let base := if decide (base_level = 0) then base else base_level in
  {| lv_level := i64 ((if decide (curve_id = 0) then base_level else rounded (curve data curve_id base)) + offset); lv_era := set_era; lv_owed := lv_owed l |}.

Definition scale_item (l : Level) : Level :=
  match highest (fun v => v.1.1.1.1) bonus_ids (item_scaling_set (da_level data)) with Some v => scaled (lv_level l) v l | None => l end.

Definition set_era_curve (l : Level) : Level :=
  foldl (fun l (v : Z * Z * Z) =>
    let '(curve_id, base_level, set_era) := v in
    {| lv_level := rounded (curve data curve_id (if decide (base_level = 0) then lv_level l else base_level)); lv_era := set_era; lv_owed := lv_owed l |})
    l (looked_up bonus_ids (era_curve_set (da_level data))).

Definition scale_by_player (l : Level) : Level :=
  match highest (fun v => v.1.1.1.1) bonus_ids (item_scaling_set_by_player (da_level data)) with Some v => scaled player_level v l | None => l end.

Definition adjust_era (l : Level) : Level :=
  foldl (fun l (v : Z * Z * Z) =>
    let '(amount, fallback, check_era) := v in
    if decide (lv_era l < check_era) then
      {| lv_level := lv_level l; lv_era := lv_era l; lv_owed := if decide (lv_era l = 0) then owe 2 4 (owe check_era amount (lv_owed l)) else owe check_era amount (lv_owed l) |}
    else with_level (i64 (lv_level l + (if decide (check_era < lv_era l) then fallback else amount))) l)
    l (looked_up bonus_ids (era_adjust (da_level data))).

Definition adjust_once (l : Level) : Level :=
  match highest fst bonus_ids (adjust (da_level data)) with Some (_, amount) => with_level (i64 (lv_level l + amount)) l | None => l end.

Fixpoint squish (eras : list SquishEra) (l : Level) : Level :=
  match eras with
  | [] => l
  | s :: eras =>
      let l := if decide (lv_era l < sq_id s /\ sq_curve s <> []) then with_level (rounded (curve_points (sq_curve s) (lv_level l))) l else l in
      let l := with_level (i64 (lv_level l + default 0 (lv_owed l !! sq_id s))) l in
      if sq_target s then l else squish eras l
  end.

Definition final_level (item_data : Item) : Z :=
  lv_level (squish (da_squish_eras data) (adjust_once (adjust_era (scale_by_player (set_era_curve (scale_item (adjust_legacy (tune_content (set_legacy
    {| lv_level := it_base_item_level item_data; lv_era := it_squish_era item_data; lv_owed := ∅ |}))))))))).

Definition name_suffix : option string :=
  v ← highest fst bonus_ids (da_suffixes data); da_suffix_names data !! (pretty v.2 : string).

Definition tertiary_stats : list TertiaryStat.t :=
  filter (fun stat => match da_tertiary_stats data !! TertiaryStat.key stat with Some ids => existsb (fun id => bool_decide (id ∈ bonus_ids)) ids | None => false end = true)
    TertiaryStat.ALL.
End Decode.

(** [try_into().unwrap_or(u16::MAX)]. *)
Definition to_u16 (level : Z) : N := if decide (level <= 65535) then Z.to_N level else 65535%N.

Definition decode (data : Data) (item : ItemId) (bonus_ids : list N) (timewalker_level : option N) : option DecodedItem :=
  item_data ← da_items data !! id_key item;
  let player_level := match timewalker_level with Some l => Z.of_N l | None => PLAYER_LEVEL_CAP end in
  Some {| di_item_level := to_u16 (Z.max (final_level data bonus_ids player_level item_data) 1); di_name_suffix := name_suffix data bonus_ids;
          di_tertiary_stats := tertiary_stats data bonus_ids |}.

Definition metadata (data : Data) (item : ItemId) : option ItemMetadata :=
  item_data ← da_items data !! id_key item;
  Some {| im_item := item; im_icon := it_icon item_data; im_vendor_buy := it_vendor_buy item_data; im_vendor_sell := it_vendor_sell item_data;
          im_stack_size := it_stack_size item_data; im_bind_on_pickup := it_bind_on_pickup item_data; im_expansion := it_expansion item_data |}.

(** ** Curves *)
Definition whole (v : f64) : Prop := exists n, v = n * one /\ Z.abs n <= 2 ^ 52.

(** Points of whole coordinates in ascending order. *)
Definition curve_ok (points : Curve) : Prop := Forall (fun p => whole p.1 /\ whole p.2) points /\ StronglySorted (fun p q => p.1 <= q.1) points.

Lemma whole_representable v : whole v -> representable v.
Proof. intros (n & -> & Hn). apply representable_int. lia. Qed.

Lemma whole_sub v w : whole v -> whole w -> fsub v w = v - w /\ representable (v - w).
Proof.
  intros (n & -> & Hn) (m & -> & Hm). assert (representable (n * one - m * one)) as Hr by (rewrite <- Z.mul_sub_distr_r; apply representable_int; lia).
  split; [by apply fsub_exact|done].
Qed.

Lemma lit_whole x : Z.abs x <= 2 ^ 52 -> lit x 1 = x * one /\ whole (lit x 1).
Proof.
  intros Hx. assert (lit x 1 = x * one) as E by (unfold lit; rewrite <- (Z.mul_1_r (x * one)) at 1; apply rnd_exact; [apply representable_int; lia|lia]).
  split; [done|]. rewrite E. by exists x.
Qed.

Lemma one_representable : representable one.
Proof. rewrite <- (Z.mul_1_l one). apply representable_int. lia. Qed.

(** On a segment the value is between its ends, and at its beginning it is the beginning. *)
Lemma segment_within px py nx ny x :
  whole px -> whole py -> whole nx -> whole ny -> whole x -> px <= x < nx ->
  let v := fadd py (fmul (fdiv (fsub x px) (fsub nx px)) (fsub ny py)) in
  0 < fsub nx px /\ Z.min py ny <= v <= Z.max py ny /\ (x = px -> v = py).
Proof.
  intros Hpx Hpy Hnx Hny Hx Hlt. cbn zeta. destruct (whole_sub x px Hx Hpx) as [-> _], (whole_sub nx px Hnx Hpx) as [-> _], (whole_sub ny py Hny Hpy) as [-> Hd].
  pose proof one_pos as Ho. pose proof one_representable as H1. pose proof representable_0 as H0.
  set (t := fdiv (x - px) (nx - px)). assert (0 <= t) as Ht0 by (apply rnd_ge; [done|lia|nia]). assert (t <= one) as Ht1 by (apply rnd_le; [done|lia|nia]).
  assert (Z.min 0 (ny - py) <= fmul t (ny - py) <= Z.max 0 (ny - py)) as Hm.
  { destruct (Z.le_gt_cases 0 (ny - py)) as [Hp|Hn].
    - rewrite Z.min_l, Z.max_r by lia. split; [by apply fmul_nonneg|by apply fmul_le_l].
    - rewrite Z.min_r, Z.max_l by lia. split; [apply rnd_ge; [done..|nia]|apply rnd_le; [done..|nia]]. }
  split_and!; [lia| | |].
  - apply fadd_ge; [|lia]. destruct (Z.min_spec py ny) as [[_ ->]|[_ ->]]; by apply whole_representable.
  - apply fadd_le; [|lia]. destruct (Z.max_spec py ny) as [[_ ->]|[_ ->]]; by apply whole_representable.
  - intros ->. assert (t = 0) as -> by (unfold t, fdiv; rewrite Z.sub_diag; apply Z.le_antisymm; [apply rnd_le; [done|lia|lia]|apply rnd_ge; [done|lia|lia]]).
    assert (fmul 0 (ny - py) = 0) as -> by (apply Z.le_antisymm; [apply rnd_le; [done|lia|lia]|apply rnd_ge; [done|lia|lia]]).
    apply Z.le_antisymm; [apply fadd_le|apply fadd_ge]; [by apply whole_representable|lia|by apply whole_representable|lia].
Qed.

Lemma segments_within points x lo hi :
  curve_ok points -> whole x -> Forall (fun p => lo <= p.2 <= hi) points -> (forall p, head points = Some p -> p.1 <= x) ->
  (forall y, segments points x = Some y -> lo <= y <= hi) /\
  (segments points x = None -> Forall (fun p => p.1 <= x) points).
Proof.
  intros [Hw Hs] Hx Hb Hh. induction points as [|[px py] points IH]; [done|]. apply Forall_cons in Hw as [[Hpx Hpy] Hw]. apply StronglySorted_inv in Hs as [Hs Hle].
  apply Forall_cons in Hb as [Hpb Hb]. specialize (Hh _ eq_refl). cbn [fst snd] in *. destruct points as [|[nx ny] points]; [split; [done|intros _; by constructor]|].
  cbn [segments]. destruct (decide (x < nx)) as [Hlt|Hge].
  - split; [|done]. intros y [= <-]. apply Forall_cons in Hw as [[Hnx Hny] _]. apply Forall_cons in Hb as [Hnb _]. cbn [fst snd] in *.
    pose proof (segment_within px py nx ny x Hpx Hpy Hnx Hny Hx (conj Hh Hlt)) as (_ & Hv & _). lia.
  - destruct (IH Hw Hs Hb) as [H1 H2]; [intros p [= <-]; cbn; lia|]. split; [done|]. intros Hn. constructor; [done|by apply H2].
Qed.

Lemma segments_point points x y :
  Forall (fun p => whole p.1 /\ whole p.2) points -> StronglySorted (fun p q => p.1 < q.1) points -> (x, y) ∈ points ->
  segments points x = Some y \/ (segments points x = None /\ last points = Some (x, y)).
Proof.
  intros Hw Hs Hin. induction points as [|[px py] points IH]; [by apply not_elem_of_nil in Hin|]. apply Forall_cons in Hw as [[Hpx Hpy] Hw]. apply StronglySorted_inv in Hs as [Hs Hlt].
  cbn [fst snd] in *. apply elem_of_cons in Hin as [[= -> ->]|Hin].
  - destruct points as [|[nx ny] points]; [by right|]. left. cbn [segments]. apply Forall_cons in Hlt as [Hlt _]. cbn [fst] in Hlt. rewrite decide_True by done.
    apply Forall_cons in Hw as [[Hnx Hny] _]. f_equal. pose proof (segment_within px py nx ny px Hpx Hpy Hnx Hny Hpx ltac:(lia)) as (_ & _ & Hv). by apply Hv.
  - destruct points as [|[nx ny] points]; [by apply not_elem_of_nil in Hin|]. cbn [segments]. rewrite decide_False.
    + destruct (IH Hw Hs Hin) as [H|[H Hl]]; [by left|right]. split; [done|]. by rewrite last_cons, Hl.
    + apply elem_of_cons in Hin as [[= -> ->]|Hin]; [lia|]. apply StronglySorted_inv in Hs as [_ Hf]. rewrite Forall_forall in Hf. specialize (Hf _ Hin). cbn in Hf. lia.
Qed.

Lemma segments_beyond points x : Forall (fun p => p.1 <= x) points -> segments points x = None.
Proof.
  induction points as [|[px py] points IH]; [done|]. intros [_ Hf]%Forall_cons. destruct points as [|[nx ny] points]; [done|]. cbn [segments].
  apply Forall_cons in Hf as [Hn Hf]. cbn in Hn. rewrite decide_False by lia. apply IH. by constructor.
Qed.

(** A curve of whole points in ascending order is read without dividing by zero or less,
    never leaves the range of its points, keeps its end values beyond its ends, and passes
    through each of its points where no two share a place, whatever floating-point rounding
    does in between. *)
Theorem curve_within points x lo hi :
  curve_ok points -> points <> [] -> Z.abs x <= 2 ^ 52 -> Forall (fun p => lo <= p.2 <= hi) points ->
  lo <= curve_points points x <= hi /\
  (forall p, head points = Some p -> x * one <= p.1 -> curve_points points x = p.2) /\
  (forall p, last points = Some p -> Forall (fun q => q.1 < x * one) points -> curve_points points x = p.2) /\
  (StronglySorted (fun p q => p.1 < q.1) points -> forall y, (x * one, y) ∈ points -> curve_points points x = y) /\
  (forall i px py nx ny, points !! i = Some (px, py) -> points !! S i = Some (nx, ny) -> px < x * one < nx -> 0 < fsub nx px).
Proof.
  intros Hok Hne Hx Hb. destruct (lit_whole x Hx) as [Hlit Hwx]. destruct points as [|[fx fy] points]; [done|]. set (all := (fx, fy) :: points) in *.
  assert (curve_points all x = if decide (x * one <= fx) then fy else match segments all (x * one) with Some y => y | None => default 0 (snd <$> last all) end) as ->.
  { unfold curve_points, all. by rewrite Hlit. }
  rewrite Hlit in Hwx. refine (conj _ (conj _ (conj _ (conj _ _)))).
  - destruct (decide (x * one <= fx)) as [Hf|Hf]; [by apply Forall_cons in Hb as [? _]|].
    destruct (segments_within all (x * one) lo hi Hok Hwx Hb) as [H1 _]; [intros p [= <-]; cbn; lia|]. destruct (segments all (x * one)) as [y|]; [by apply H1|].
    destruct (last all) as [p|] eqn:Hl; [|by apply last_None in Hl]. cbn [fmap option_fmap option_map default]. apply last_Some_elem_of in Hl. rewrite Forall_forall in Hb. by apply Hb.
  - intros p [= <-] Hle. cbn in Hle. by rewrite decide_True.
  - intros p Hl Hall. pose proof Hall as [Hf _]%Forall_cons. cbn in Hf. rewrite decide_False by lia. rewrite segments_beyond; [by rewrite Hl|].
    eapply Forall_impl; [exact Hall|]. cbn. lia.
  - intros Hs y Hin. destruct Hok as [Hw _]. destruct (decide (x * one <= fx)) as [Hle|Hle].
    + apply elem_of_cons in Hin as [[= _ ->]|Hin]; [done|]. apply StronglySorted_inv in Hs as [_ Hf]. rewrite Forall_forall in Hf. specialize (Hf _ Hin). cbn in Hf. lia.
    + destruct (segments_point all (x * one) y Hw Hs Hin) as [->|[-> ->]]; done.
  - intros i px py nx ny Hi Hj Hlt. destruct Hok as [Hw _]. rewrite Forall_forall in Hw.
    destruct (Hw _ (list_elem_of_lookup_2 _ _ _ Hi)) as [Hpx _], (Hw _ (list_elem_of_lookup_2 _ _ _ Hj)) as [Hnx _]. destruct (whole_sub nx px Hnx Hpx) as [-> _]. lia.
Qed.

Definition demo_curve : Curve := [(70 * one, 133 * one); (83 * one, 133 * one); (84 * one, 152 * one)].

Lemma curve_within_witness : 133 * one <= curve_points demo_curve 80 <= 152 * one /\ curve_points demo_curve 83 = 133 * one.
Proof.
  pose proof one_pos as Ho. assert (StronglySorted (fun p q : f64 * f64 => p.1 < q.1) demo_curve) as Hs.
  { repeat first [apply SSorted_nil | apply SSorted_cons | apply Forall_nil; done | (apply Forall_cons; split; [cbn [fst]; lia|])]. }
  assert (curve_ok demo_curve) as Hok.
  { split; [repeat (apply Forall_cons; split; [split; eexists; (split; [reflexivity|lia])|]); by apply Forall_nil|].
    repeat first [apply SSorted_nil | apply SSorted_cons | apply Forall_nil; done | (apply Forall_cons; split; [cbn [fst]; lia|])]. }
  assert (Forall (fun p : f64 * f64 => 133 * one <= p.2 <= 152 * one) demo_curve) as Hb by (repeat (apply Forall_cons; split; [cbn [snd]; lia|]); by apply Forall_nil).
  split; [exact (proj1 (curve_within demo_curve 80 _ _ Hok ltac:(done) ltac:(lia) Hb))|].
  destruct (curve_within demo_curve 83 _ _ Hok ltac:(done) ltac:(lia) Hb) as (_ & _ & _ & Hp & _). apply (Hp Hs). apply elem_of_cons. right. apply elem_of_cons. by left.
Defined.

(** ** Bonus lists *)
(** The identifiers some rule speaks of. *)
Definition known (data : Data) (id : N) : bool :=
  let at_ {V} (m : gmap string V) := bool_decide (is_Some (m !! id_key id)) in
  at_ (legacy_adjust (da_level data)) || at_ (content_tuning (da_level data)) || at_ (legacy_set (da_level data)) || at_ (era_curve_set (da_level data)) ||
  at_ (item_scaling_set (da_level data)) || at_ (item_scaling_set_by_player (da_level data)) || at_ (era_adjust (da_level data)) || at_ (adjust (da_level data)) ||
  at_ (da_suffixes data) || existsb (fun stat => match da_tertiary_stats data !! TertiaryStat.key stat with Some ids => bool_decide (id ∈ ids) | None => false end) TertiaryStat.ALL.

Lemma looked_up_known {V} data ids (m : gmap string V) :
  (forall id, is_Some (m !! id_key id) -> known data id = true) -> looked_up (filter (fun id => known data id = true) ids) m = looked_up ids m.
Proof.
  intros H. unfold looked_up. induction ids as [|id ids IH]; [done|]. rewrite filter_cons. cbn [omap list_omap]. case_decide as Hk; cbn [omap list_omap]; [by rewrite <- IH|].
  destruct (m !! id_key id) as [v|] eqn:E; [|exact IH]. destruct Hk. apply H. by exists v.
Qed.

Lemma known_spec data id :
  known data id = true <->
  is_Some (legacy_adjust (da_level data) !! id_key id) \/ is_Some (content_tuning (da_level data) !! id_key id) \/ is_Some (legacy_set (da_level data) !! id_key id) \/
  is_Some (era_curve_set (da_level data) !! id_key id) \/ is_Some (item_scaling_set (da_level data) !! id_key id) \/
  is_Some (item_scaling_set_by_player (da_level data) !! id_key id) \/ is_Some (era_adjust (da_level data) !! id_key id) \/ is_Some (adjust (da_level data) !! id_key id) \/
  is_Some (da_suffixes data !! id_key id) \/ exists stat ids, da_tertiary_stats data !! TertiaryStat.key stat = Some ids /\ id ∈ ids.
Proof.
  unfold known. rewrite !orb_true_iff, !bool_decide_eq_true, !Logic.or_assoc. repeat (apply or_iff_compat_l). rewrite existsb_exists. split.
  - intros (stat & _ & H). exists stat. destruct (da_tertiary_stats data !! _) as [ids|]; [|done]. exists ids. by apply bool_decide_eq_true in H.
  - intros (stat & ids & E & H). exists stat. rewrite E. split; [by destruct stat; cbn; auto|by apply bool_decide_eq_true].
Qed.

Lemma to_u16_range level : (1 <= to_u16 (Z.max level 1) <= 65535)%N.
Proof. unfold to_u16. case_decide; lia. Qed.

(** A curated item is decoded and no other is; its level is at least one and fits its
    sixteen bits whatever the rules add up to; and identifiers no rule speaks of, which a
    new patch brings, change nothing about it. *)
Theorem bonuses_exact data item ids timewalker_level :
  (is_Some (decode data item ids timewalker_level) <-> is_Some (metadata data item)) /\
  (forall d, decode data item ids timewalker_level = Some d -> (1 <= di_item_level d <= 65535)%N) /\
  decode data item (filter (fun id => known data id = true) ids) timewalker_level = decode data item ids timewalker_level.
Proof.
  refine (conj _ (conj _ _)).
  - unfold decode, metadata. destruct (da_items data !! id_key item); cbn; split; intros [? ?]; eauto; done.
  - intros d. unfold decode. destruct (da_items data !! id_key item); [|done]. intros [= <-]. cbn [di_item_level]. apply to_u16_range.
  - set (ids' := filter _ ids).
    assert (forall {V} (m : gmap string V), (forall id, is_Some (m !! id_key id) -> known data id = true) -> looked_up ids' m = looked_up ids m) as Hl
      by (intros V m H; by apply looked_up_known).
    unfold decode. destruct (da_items data !! id_key item) as [x|]; [|done]. cbn [mbind option_bind]. f_equal. f_equal.
    + unfold final_level, set_legacy, tune_content, adjust_legacy, scale_item, set_era_curve, scale_by_player, adjust_era, adjust_once, highest.
      by rewrite !Hl by (intros id Hid; apply known_spec; tauto).
    + unfold name_suffix, highest. by rewrite Hl by (intros id Hid; apply known_spec; tauto).
    + unfold tertiary_stats. apply list_filter_iff. intros stat. destruct (da_tertiary_stats data !! _) as [tids|] eqn:E; [|done]. rewrite !existsb_exists.
      split; intros (id & Hin & Hid); exists id; (split; [done|]); apply bool_decide_eq_true in Hid; apply bool_decide_eq_true; unfold ids' in *.
      * by apply list_elem_of_filter in Hid as [_ ?].
      * apply list_elem_of_filter. split; [|done]. apply known_spec. do 9 right. exists stat, tids. split; [done|]. by apply list_elem_of_In.
Qed.
