(* ===== verification/Live.v ===== *)
(** * Live: the handle on the cluster and the stream a browser holds

    Models [crates/cluster-local/src/cluster.rs] (each call of the handle as one command to
    the supervisor, and what it answers when there is none), [EventStream] there over the
    broadcast channel, [crates/app-web/src/shutdown.rs] and the stream of
    [crates/app-web/src/routes/stream.rs].

    The broadcast channel is tokio's: what a receiver is given is a list of [Recv], and
    [channel_answers] is what the crate documents of it.  The connection gate of the stream
    is in [Throttle], its counters in [Metrics]. *)
From Stdlib Require Import ZArith.
From stdpp Require Import prelude gmap strings.
From S2P Require Import Prelude Time Role Node Job Event Scheduler Store Snapshot Supervisor.

(** ** The handle *)
Definition unavailable : ClusterError := Job.Unavailable "cluster supervisor is not running".

Section Handle.
Context {P S L : Type} `{ClusterStore P, Scheduler S, Elector L} (E : Env S L).

(** [Some]: the supervisor runs and answers; [None]: it has stopped, before the command was
    sent or before it was read. *)
Abbreviation Cluster := (option (Sup P)).

Definition ask (command : Command) (c : Cluster) : option Reply * Cluster :=
  match c with None => (None, None) | Some s => let '(reply, s) := handle_command E command s in (Some reply, Some s) end.

Definition cluster_snapshot (tel : Telemetry) (instant : Millis) (c : Cluster) : ClusterSnapshot * Cluster :=
  let '(reply, c) := ask CmdSnapshot c in
  (Telemetry_apply tel instant (match reply with Some (ReplySnapshot s) => s | _ => ClusterSnapshot_default end), c).
Definition cluster_nodes (c : Cluster) : list Node * Cluster :=
  let '(reply, c) := ask CmdNodes c in (match reply with Some (ReplyNodes l) => l | _ => [] end, c).
Definition cluster_node (id : NodeId) (c : Cluster) : option Node * Cluster :=
  let '(reply, c) := ask (CmdNode id) c in (match reply with Some (ReplyNode n) => n | _ => None end, c).
Definition cluster_recent_events (limit : nat) (c : Cluster) : list EventRecord * Cluster :=
  let '(reply, c) := ask (CmdEvents limit) c in (match reply with Some (ReplyEvents l) => l | _ => [] end, c).
Definition cluster_jobs (limit : nat) (c : Cluster) : list Job * Cluster :=
  let '(reply, c) := ask (CmdJobs limit) c in (match reply with Some (ReplyJobs l) => l | _ => [] end, c).
Definition cluster_job (id : JobId) (c : Cluster) : option JobDetail * Cluster :=
  let '(reply, c) := ask (CmdJob id) c in (match reply with Some (ReplyJob d) => d | _ => None end, c).
Definition cluster_submit_job (spec : JobSpec) (c : Cluster) : Result JobId ClusterError * Cluster :=
  let '(reply, c) := ask (CmdSubmitJob spec) c in (match reply with Some (ReplySubmit r) => r | _ => Err unavailable end, c).

(** The calls that answer with nothing but success. *)
Definition ask_unit (command : Command) (c : Cluster) : Result unit ClusterError * Cluster :=
  let '(reply, c) := ask command c in (match reply with Some (ReplyUnit r) => r | _ => Err unavailable end, c).
Definition cluster_set_role (node : NodeId) (role : Role) (enabled : bool) : Cluster -> Result unit ClusterError * Cluster := ask_unit (CmdSetRole node role enabled).
Definition cluster_stop_node (node : NodeId) : Cluster -> Result unit ClusterError * Cluster := ask_unit (CmdStopNode node).
Definition cluster_start_node (node : NodeId) : Cluster -> Result unit ClusterError * Cluster := ask_unit (CmdStartNode node).
Definition cluster_pause_heartbeat (node : NodeId) (paused : bool) : Cluster -> Result unit ClusterError * Cluster := ask_unit (CmdPauseHeartbeat node paused).
Definition cluster_inject_failures (node : NodeId) (count : N) : Cluster -> Result unit ClusterError * Cluster := ask_unit (CmdInjectFailures node count).
Definition cluster_set_task_delay (node : NodeId) (ms : N) : Cluster -> Result unit ClusterError * Cluster := ask_unit (CmdSetTaskDelay node ms).
End Handle.

(** ** The stream of events *)
Inductive Recv := Item (e : EventRecord) | Lagged (n : nat) | NoneYet | Closed.
Inductive Poll (A : Type) := Ready (x : A) | Ended | Pending.
Arguments Ready {A} x. Arguments Ended {A}. Arguments Pending {A}.

Definition Poll_map {A B} (f : A -> B) (p : Poll A) : Poll B := match p with Ready x => Ready (f x) | Ended => Ended | Pending => Pending end.

(** [EventStream::poll_next]: a gap is skipped. *)
Fixpoint poll_events (raw : list Recv) : Poll EventRecord * list Recv :=
  match raw with
  | [] => (Pending, [])
  | Item e :: raw => (Ready e, raw)
  | Lagged _ :: raw => poll_events raw
  | NoneYet :: raw => (Pending, raw)
  | Closed :: raw => (Ended, raw)
  end.

(** ** Shutdown *)
(** The watched flag, and whether its sender is still there. *)
Record Signal := { sg_value : bool; sg_sender : bool }.
(** [Shutdown::wait]: resolved or not. *)
Definition wait (s : Signal) : bool := sg_value s || negb (sg_sender s).

(** [Until::poll_next] over the stream inside it. *)
Definition poll_until {A T} (inner : T -> Poll A * T) (signal : Signal) (self : bool * T) : Poll A * (bool * T) :=
  let '(stopped, stream) := self in
  if stopped then (Ended, (true, stream))
  else if wait signal then (Ended, (true, stream))
  else let '(p, stream) := inner stream in (p, (false, stream)).

Definition PUBLIC_KIND : string := "changed".
Definition event_data (detailed : bool) (record : EventRecord) : string := if detailed then ClusterEvent_kind (er_event record) else PUBLIC_KIND.

(** The body of [events]: who is told what, until the server goes away. *)
Definition poll_stream (detailed : bool) (signal : Signal) (self : bool * list Recv) : Poll string * (bool * list Recv) :=
  poll_until (fun raw => let '(p, raw) := poll_events raw in (Poll_map (event_data detailed) p, raw)) signal self.

Fixpoint polls (detailed : bool) (signals : list Signal) (self : bool * list Recv) : list (Poll string) :=
  match signals with [] => [] | s :: signals => let '(p, self) := poll_stream detailed s self in p :: polls detailed signals self end.

(** ** What a stream carries *)
Definition item_of {A} (p : Poll A) : option A := match p with Ready x => Some x | _ => None end.

(** What the channel documents: a receiver is given the records sent after it subscribed, in
    their order; one that fell behind is told how many it lost and goes on after them. *)
Fixpoint channel_answers (sent : list EventRecord) (raw : list Recv) : Prop :=
  match raw with
  | [] => True
  | Item e :: raw => match sent with e' :: sent => e = e' /\ channel_answers sent raw | [] => False end
  | Lagged n :: raw => (0 < n <= length sent)%nat /\ channel_answers (drop n sent) raw
  | NoneYet :: raw => channel_answers sent raw
  | Closed :: raw => raw = []
  end.

Definition lags (r : Recv) : bool := match r with Lagged _ => true | _ => false end.

Lemma poll_events_answers sent raw :
  channel_answers sent raw ->
  exists gap, (Forall (fun r => lags r = false) raw -> gap = 0%nat /\ Forall (fun r => lags r = false) (poll_events raw).2) /\
    match (poll_events raw).1 with
    | Ready e => sent !! gap = Some e /\ channel_answers (drop (S gap) sent) (poll_events raw).2
    | _ => channel_answers (drop gap sent) (poll_events raw).2
    end.
Proof.
  revert sent. induction raw as [|r raw IH]; intros sent Hc; [by exists 0%nat|]. destruct r as [e|n| |]; cbn [poll_events channel_answers] in *.
  - destruct sent as [|e' sent]; [done|]. destruct Hc as [-> Hc]. exists 0%nat. split; [by intros [_ ?]%Forall_cons|]. cbn. by rewrite drop_0.
  - destruct Hc as [Hn Hc]. destruct (IH _ Hc) as (gap & Hf & Hg). exists (n + gap)%nat. split; [by intros [? _]%Forall_cons|].
    destruct (poll_events raw).1 as [e| |]; rewrite ?lookup_drop, drop_drop in Hg; [by rewrite Nat.add_succ_r in Hg|done..].
  - exists 0%nat. split; [by intros [_ ?]%Forall_cons|]. by rewrite drop_0.
  - subst raw. exists 0%nat. split; [done|]. by rewrite drop_0.
Qed.

Lemma polls_stopped detailed signals raw : polls detailed signals (true, raw) = replicate (length signals) Ended.
Proof. induction signals as [|s signals IH]; [done|]. cbn [polls]. unfold poll_stream, poll_until. by rewrite IH. Qed.

Lemma polls_cons detailed s signals raw :
  polls detailed (s :: signals) (false, raw) =
  if wait s then Ended :: replicate (length signals) Ended
  else Poll_map (event_data detailed) (poll_events raw).1 :: polls detailed signals (false, (poll_events raw).2).
Proof.
  cbn [polls]. unfold poll_stream, poll_until. destruct (wait s); [by rewrite polls_stopped|]. by destruct (poll_events raw).
Qed.

Lemma items_ended {A} n : omap item_of (replicate n (@Ended A)) = [].
Proof. by induction n. Qed.


Definition demo_record (seq : N) (e : ClusterEvent) : EventRecord := EventRecord_new seq 0 e.
Definition demo_sent : list EventRecord := [demo_record 1 (LeaderLost 1); demo_record 2 (LeaderElected 2); demo_record 3 (JobCreated 9)].
Definition demo_raw : list Recv := [Lagged 1; Item (demo_record 2 (LeaderElected 2)); Item (demo_record 3 (JobCreated 9))].
Definition running : Signal := {| sg_value := false; sg_sender := true |}.


(** ** The handle without a supervisor, and with one *)
Section Degrades.
Context {P S L : Type} `{ClusterStore P, Scheduler S, Elector L} (E : Env S L).

Definition unit_call (command : Command) : bool :=
  match command with
  | CmdSetRole _ _ _ | CmdStopNode _ | CmdStartNode _ | CmdPauseHeartbeat _ _ | CmdInjectFailures _ _ | CmdSetTaskDelay _ _ => true
  | _ => false
  end.

(** Without a supervisor every read is empty and every write reports it; with one, every
    call is that command's own answer and leaves the supervisor as the command does. *)
Theorem handle_degrades command tel instant id limit spec (c : option (Sup P)) :
  unit_call command = true ->
  match c with
  | None =>
      cluster_snapshot E tel instant c = (Telemetry_apply tel instant ClusterSnapshot_default, None) /\ cluster_nodes E c = ([], None) /\
      cluster_node E id c = (None, None) /\ cluster_recent_events E limit c = ([], None) /\ cluster_jobs E limit c = ([], None) /\ cluster_job E id c = (None, None) /\
      cluster_submit_job E spec c = (Err unavailable, None) /\ ask_unit E command c = (Err unavailable, None)
  | Some s =>
      cluster_snapshot E tel instant c = (Telemetry_apply tel instant (snapshot E s), Some s) /\ cluster_nodes E c = (e_node <$> values (s_nodes s), Some s) /\
      cluster_node E id c = (e_node <$> s_nodes s !! id, Some s) /\ cluster_recent_events E limit c = (take limit (reverse (s_events s)), Some s) /\
      cluster_job E id c = (job_detail id s, Some s) /\
      cluster_submit_job E spec c = ((submit_job E spec s).1, Some (submit_job E spec s).2) /\
      exists r, handle_command E command s = (ReplyUnit r, (handle_command E command s).2) /\ ask_unit E command c = (r, Some (handle_command E command s).2)
  end.
Proof.
  intros Hu. destruct c as [s|]; [|done]. split_and!; try done.
  - unfold cluster_submit_job, ask. cbn [handle_command]. by destruct (submit_job E spec s).
  - unfold ask_unit, ask. destruct command; try discriminate Hu; cbn [handle_command].
    all: lazymatch goal with |- context [let '(_, _) := ?x in _] => destruct x as [r s'] end; exists r; by destruct r.
Qed.
End Degrades.
