(* ===== verification/Tsm.v ===== *)
(** * Tsm: a third party's prices, kept beside ours and compared

    Models [crates/app-core/src/market/tsm.rs], [crates/storage/src/sqlite/tsm.rs] over the
    sample table of [PriceStore], and a pass of [crates/server/src/tsm_task.rs].  A column of
    type [REAL] holds the double it was given.

    [contrast_per_item]: the one query that is grouped in memory says of each item what a
    query about that item alone would. *)
From Stdlib Require Import ZArith.
From stdpp Require Import prelude gmap sorting strings.
From S2P Require Import Prelude F64 Text Time Store AppError Sqlite Market Engine PriceStore.

Record TsmRegionDaily := {
  rd_item : ItemId; rd_region : Region; rd_day : Millis; rd_market_value : Copper; rd_historical : Copper; rd_avg_sale_price : Copper; rd_sale_rate_bp : N;
  rd_sold_per_day : f64; rd_updated_at : Millis }.
Record TsmCommoditySample := {
  tc_item : ItemId; tc_region : Region; tc_observed_at : Millis; tc_market_value : Copper; tc_min_buyout : Copper; tc_recent : Copper; tc_historical : Copper;
  tc_updated_at : Millis }.
Record TsmContrast := {
  co_item : ItemId; co_region : Region; co_observed_at : Millis; co_own_observed_at : Millis; co_min_buyout_matches : bool; co_market_value_ratio_bp : option N }.

(** ** The tables *)
Record DailyCols := { dc_market_value : Z; dc_historical : Z; dc_avg_sale_price : Z; dc_sale_rate_bp : Z; dc_sold_per_day : f64; dc_updated_at : Z }.
Record CommodityCols := { cc_market_value : Z; cc_min_buyout : Z; cc_recent : Z; cc_historical : Z; cc_updated_at : Z }.
(** By item, region, and day or instant. *)
Abbreviation DailyTable := (gmap (Z * string * Z) DailyCols).
Abbreviation CommodityTable := (gmap (Z * string * Z) CommodityCols).

Definition daily_put (acc : N * DailyTable) (s : TsmRegionDaily) : N * DailyTable :=
  (acc.1 + 1, <[((as_i64 (rd_item s), Region_as_str (rd_region s)), as_i64 (rd_day s)) :=
    {| dc_market_value := as_i64 (rd_market_value s); dc_historical := as_i64 (rd_historical s); dc_avg_sale_price := as_i64 (rd_avg_sale_price s);
       dc_sale_rate_bp := as_i64 (rd_sale_rate_bp s); dc_sold_per_day := rd_sold_per_day s; dc_updated_at := as_i64 (rd_updated_at s) |}]> acc.2).
Definition record_region_daily (samples : list TsmRegionDaily) (t : DailyTable) : StoreResult N * DailyTable :=
  let '(written, t) := foldl daily_put (0, t) samples in (Ok written, t).

Definition commodity_key (s : TsmCommoditySample) : Z * string * Z := ((as_i64 (tc_item s), Region_as_str (tc_region s)), as_i64 (tc_observed_at s)).
Definition commodity_put (acc : N * CommodityTable) (s : TsmCommoditySample) : N * CommodityTable :=
  match acc.2 !! commodity_key s with
  | Some _ => acc
  | None =>
      (acc.1 + 1, <[commodity_key s :=
        {| cc_market_value := as_i64 (tc_market_value s); cc_min_buyout := as_i64 (tc_min_buyout s); cc_recent := as_i64 (tc_recent s);
           cc_historical := as_i64 (tc_historical s); cc_updated_at := as_i64 (tc_updated_at s) |}]> acc.2)
  end.
Definition record_commodity_samples (samples : list TsmCommoditySample) (t : CommodityTable) : StoreResult N * CommodityTable :=
  let '(written, t) := foldl commodity_put (0, t) samples in (Ok written, t).

Definition has_commodity_snapshot (region : Region) (observed_at : Millis) (t : CommodityTable) : StoreResult bool :=
  Ok (bool_decide (filter (fun kv => kv.1.1.2 = Region_as_str region /\ kv.1.2 = as_i64 observed_at) (map_to_list t) <> [])).

(** ** The comparison *)
Definition ALIGNMENT_MS : N := 90 * 60 * 1000.

(** A row of the join: the feed's columns and one sample of ours. *)
Record JoinRow := { jr_item : Z; jr_min_buyout : Z; jr_market_value : Z; jr_own_observed_at : Z; jr_min_unit : Z; jr_median_unit : Z }.

Definition join_row (t : Z * CommodityCols) (p : SampleRow) : JoinRow :=
  {| jr_item := t.1; jr_min_buyout := cc_min_buyout t.2; jr_market_value := cc_market_value t.2; jr_own_observed_at := sr_observed_at p; jr_min_unit := sr_min_unit p;
     jr_median_unit := sr_median_unit p |}.

(** The feed's rows of one snapshot, and our samples of an item around it. *)
Definition feed_rows (region : Region) (observed_at : Millis) (t : CommodityTable) : list (Z * CommodityCols) :=
  (fun kv : (Z * string * Z) * CommodityCols => (kv.1.1.1, kv.2)) <$>
    filter (fun kv => kv.1.1.2 = Region_as_str region /\ kv.1.2 = as_i64 observed_at) (map_to_list t).
Definition own_rows (region : Region) (observed_at : Millis) (item : Z) (p : PriceTables) : list SampleRow :=
  let before := as_i64 (observed_at - ALIGNMENT_MS) in
  let after := as_i64 (plus_ms observed_at ALIGNMENT_MS) in
  filter (fun r => sr_item r = item /\ sr_region r = Region_as_str region /\ (before <= sr_observed_at r <= after)%Z) (pt_samples p).

Definition join_cmp (a b : JoinRow) : comparison := cmp_then (Z.compare (jr_item a) (jr_item b)) (Z.compare (jr_own_observed_at a) (jr_own_observed_at b)).
Definition joined (region : Region) (observed_at : Millis) (t : CommodityTable) (p : PriceTables) : list JoinRow :=
  sort_by join_cmp (feed_rows region observed_at t ≫= fun f => join_row f <$> own_rows region observed_at f.1 p).

Definition stable (observed_at : Millis) (group : list JoinRow) : bool :=
  bool_decide (2 <= length group)%nat && existsb (fun r => bool_decide (jr_own_observed_at r < as_i64 observed_at)%Z) group &&
  existsb (fun r => bool_decide (as_i64 observed_at < jr_own_observed_at r)%Z) group &&
  match group with first :: _ => forallb (fun r => bool_decide (jr_min_unit r = jr_min_unit first)) group | [] => false end.

(** One run of rows of an item. *)
Definition contrast_group (region : Region) (observed_at : Millis) (group : list JoinRow) : option TsmContrast :=
  if stable observed_at group then
    own ← min_by_key (fun r => abs_diff (as_u64 (jr_own_observed_at r)) observed_at) group;
    first ← head group;
    let own_median := as_u64 (jr_median_unit own) in
    Some {| co_item := as_u32 (jr_item first); co_region := region; co_observed_at := observed_at; co_own_observed_at := as_u64 (jr_own_observed_at own);
            co_min_buyout_matches := bool_decide (as_u64 (jr_min_buyout first) = as_u64 (jr_min_unit own));
            co_market_value_ratio_bp :=
              if decide (own_median = 0) then None else Some (wrap 32 (N.min u64_max (as_u64 (jr_market_value first) * 10000) / own_median)) |}
  else None.

(** The loop with its cursor: a run, then the rest. *)
Fixpoint run_of (item : N) (rows : list JoinRow) : list JoinRow * list JoinRow :=
  match rows with
  | [] => ([], [])
  | r :: rows => if decide (as_u32 (jr_item r) = item) then let '(run, rest) := run_of item rows in (r :: run, rest) else ([], r :: rows)
  end.
Fixpoint contrast_loop (fuel : nat) (region : Region) (observed_at : Millis) (rows : list JoinRow) : list TsmContrast :=
  match fuel, rows with
  | S fuel, r :: _ =>
      let '(group, rest) := run_of (as_u32 (jr_item r)) rows in
      match contrast_group region observed_at group with
      | Some c => c :: contrast_loop fuel region observed_at rest
      | None => contrast_loop fuel region observed_at rest
      end
  | _, _ => []
  end.

Definition contrast (region : Region) (observed_at : Millis) (t : CommodityTable) (p : PriceTables) : StoreResult (list TsmContrast) :=
  let rows := joined region observed_at t p in Ok (contrast_loop (length rows) region observed_at rows).

(** ** A pass of the task *)
Inductive Passed := Failed | NoItems | Unchanged | Compared (rows : N) (contrasts : list TsmContrast).

Definition collect_region (commodities : Region -> AppResult (list TsmCommoditySample)) (region : Region) (p : PriceTables) (t : CommodityTable) : Passed * CommodityTable :=
  match commodities region with
  | Err _ => (Failed, t)
  | Ok samples =>
      match head samples with
      | None => (NoItems, t)
      | Some first =>
          match has_commodity_snapshot region (tc_observed_at first) t with
          | Err _ => (Failed, t)
          | Ok true => (Unchanged, t)
          | Ok false =>
              match record_commodity_samples samples t with
              | (Err _, t) => (Failed, t)
              | (Ok rows, t) => (match contrast region (tc_observed_at first) t p with Ok cs => Compared rows cs | Err _ => Failed end, t)
              end
          end
      end
  end.

(** ** One query about each item *)
Definition by_instant (l : list SampleRow) : list SampleRow := sort_by (fun a b => Z.compare (sr_observed_at a) (sr_observed_at b)) l.
Definition by_feed_item (l : list (Z * CommodityCols)) : list (Z * CommodityCols) := sort_by (fun a b => Z.compare a.1 b.1) l.

(** What the snapshot's row about one item says against our samples of that item alone. *)
Definition contrast_item (region : Region) (observed_at : Millis) (p : PriceTables) (f : Z * CommodityCols) : option TsmContrast :=
  contrast_group region observed_at (join_row f <$> by_instant (own_rows region observed_at f.1 p)).

(** The primary keys: one sample for an item, a region and an instant; items of 32 bits. *)
Definition samples_keyed (p : PriceTables) : Prop := forall a b, a ∈ pt_samples p -> b ∈ pt_samples p -> same_key a b -> a = b.
Definition feed_fits (t : CommodityTable) : Prop := forall k c, t !! k = Some c -> (0 <= k.1.1 < 2 ^ 32)%Z.

Definition join_le (a b : JoinRow) : Prop := (jr_item a < jr_item b \/ (jr_item a = jr_item b /\ jr_own_observed_at a <= jr_own_observed_at b))%Z.

Lemma join_cmp_opp a b : join_cmp a b = CompOpp (join_cmp b a).
Proof. unfold join_cmp. by rewrite cmp_then_opp, <- !Z.compare_antisym. Qed.
Lemma join_cmp_le a b : join_cmp a b <> Gt -> join_le a b.
Proof. unfold join_cmp, join_le, cmp_then. destruct (Z.compare_spec (jr_item a) (jr_item b)) as [E|Hl|Hg]; [|by left|done]. rewrite Z.compare_gt_iff. intros H. right. lia. Qed.
#[local] Instance join_le_trans : Transitive join_le.
Proof. intros a b c. unfold join_le. lia. Qed.

Lemma feed_rows_elem region at_ t f : f ∈ feed_rows region at_ t <-> t !! ((f.1, Region_as_str region), as_i64 at_) = Some f.2.
Proof.
  unfold feed_rows. rewrite list_elem_of_fmap. setoid_rewrite list_elem_of_filter. split.
  - intros ([[[i r] a] c] & -> & [Hr Ha] & Hin). cbn in *. subst. by apply elem_of_map_to_list in Hin.
  - intros H. exists (((f.1, Region_as_str region), as_i64 at_), f.2). cbn. split; [by destruct f|]. split; [done|]. by apply elem_of_map_to_list.
Qed.

Lemma feed_rows_items region at_ t : NoDup (feed_rows region at_ t).*1.
Proof.
  unfold feed_rows. rewrite <- list_fmap_compose. apply NoDup_fmap_2_strong; [|apply NoDup_filter, NoDup_map_to_list].
  intros [[[i r] a] c] [[[i' r'] a'] c'] [[Hr Ha] Hin]%list_elem_of_filter [[Hr' Ha'] Hin']%list_elem_of_filter. cbn in *. intros <-. subst.
  apply elem_of_map_to_list in Hin, Hin'. congruence.
Qed.

Lemma feed_sorted region at_ t : StronglySorted (fun a b : Z * CommodityCols => (a.1 < b.1)%Z) (by_feed_item (feed_rows region at_ t)).
Proof.
  assert (StronglySorted (fun a b : Z * CommodityCols => (a.1 <= b.1)%Z) (by_feed_item (feed_rows region at_ t))) as Hs.
  { apply sort_by_sorted; [intros a b; apply Z.compare_antisym|intros a b; by rewrite Z.compare_gt_iff; lia|intros a b c; lia]. }
  assert (NoDup (by_feed_item (feed_rows region at_ t)).*1) as Hnd by (unfold by_feed_item; rewrite sort_by_perm; apply feed_rows_items).
  induction Hs as [|f l Hs IH Hf]; [constructor|]. cbn [fmap list_fmap] in Hnd. apply NoDup_cons in Hnd as [Hni Hnd]. constructor; [by apply IH|].
  rewrite Forall_forall in Hf |- *. intros g Hg. specialize (Hf g Hg). assert (f.1 <> g.1); [|lia]. intros E. apply Hni. rewrite E. by apply list_elem_of_fmap_2.
Qed.

Lemma StronglySorted_concat {A B} (R : B -> B -> Prop) (S : A -> A -> Prop) (g : A -> list B) l :
  StronglySorted S l -> (forall a, a ∈ l -> StronglySorted R (g a)) -> (forall a b x y, S a b -> x ∈ g a -> y ∈ g b -> R x y) -> StronglySorted R (l ≫= g).
Proof.
  intros Hs Hg HR. induction Hs as [|a l Hs IH Hf]; [constructor|]. rewrite bind_cons.
  assert (StronglySorted R (l ≫= g)) as Hrest by (apply IH; intros b Hb; apply Hg, elem_of_cons; by right).
  assert (StronglySorted R (g a)) as Ha by (apply Hg, elem_of_cons; by left). assert (forall x y, x ∈ g a -> y ∈ (l ≫= g) -> R x y) as Hx.
  { intros x y Hxa (b & Hy & Hb)%list_elem_of_bind. rewrite Forall_forall in Hf. by apply (HR a b); [apply Hf|..]. }
  by apply StronglySorted_app_2.
Qed.

Lemma own_sorted region at_ i p : StronglySorted (fun a b => (sr_observed_at a <= sr_observed_at b)%Z) (by_instant (own_rows region at_ i p)).
Proof. apply sort_by_sorted; [intros a b; apply Z.compare_antisym|intros a b; by rewrite Z.compare_gt_iff; lia|intros a b c; lia]. Qed.

Lemma own_rows_item region at_ i p r : r ∈ own_rows region at_ i p -> sr_item r = i /\ sr_region r = Region_as_str region /\ r ∈ pt_samples p.
Proof. unfold own_rows. rewrite list_elem_of_filter. naive_solver. Qed.

(** The sorted join is the items in order, each with its samples in order. *)
Lemma joined_grouped region at_ t p :
  samples_keyed p ->
  joined region at_ t p = by_feed_item (feed_rows region at_ t) ≫= fun f => join_row f <$> by_instant (own_rows region at_ f.1 p).
Proof.
  intros Hkey. apply (StronglySorted_unique_strong join_le).
  - intros x y Hx Hy Hxy Hyx. unfold joined in Hx. rewrite sort_by_perm in Hx.
    apply list_elem_of_bind in Hx as (f & (a & -> & Ha)%list_elem_of_fmap & Hf). apply list_elem_of_bind in Hy as (f' & (b & -> & Hb)%list_elem_of_fmap & Hf').
    unfold by_instant in Hb. rewrite sort_by_perm in Hb. unfold by_feed_item in Hf'. rewrite sort_by_perm in Hf'. unfold join_le in *. cbn in *.
    apply feed_rows_elem in Hf, Hf'. assert (f.1 = f'.1) as Ei by lia. rewrite Ei, Hf' in Hf. injection Hf as Ec.
    assert (f = f') as -> by (destruct f, f'; cbn in *; congruence). apply own_rows_item in Ha as (Ia & Ra & Pa), Hb as (Ib & Rb & Pb).
    rewrite (Hkey a b Pa Pb); [done|]. unfold same_key. split_and!; [congruence..|lia].
  - apply sort_by_sorted; [apply join_cmp_opp|apply join_cmp_le|apply _].
  - apply (StronglySorted_concat _ _ _ _ (feed_sorted region at_ t)).
    + intros f _. pose proof (own_sorted region at_ f.1 p) as Hs. induction Hs as [|r l Hs IH Hr]; cbn [fmap list_fmap]; constructor; [done|].
      apply Forall_fmap. eapply Forall_impl; [exact Hr|]. intros r' Hr'. right. by cbn in *.
    + intros f f' x y Hlt (a & -> & _)%list_elem_of_fmap (b & -> & _)%list_elem_of_fmap. left. by cbn.
  - unfold joined, by_feed_item. rewrite !sort_by_perm. generalize (feed_rows region at_ t) as l. induction l as [|f l IH]; [done|]. rewrite !bind_cons, IH. f_equiv.
    unfold by_instant. by rewrite sort_by_perm.
Qed.

Lemma run_of_app item g rest :
  Forall (fun r => as_u32 (jr_item r) = item) g -> (forall r, head rest = Some r -> as_u32 (jr_item r) <> item) -> run_of item (g ++ rest) = (g, rest).
Proof.
  intros Hg Hr. induction Hg as [|r g Hrg _ IH]; cbn [app run_of].
  - destruct rest as [|r rest]; [done|]. cbn [run_of]. by rewrite decide_False by by apply Hr.
  - by rewrite decide_True, IH.
Qed.

(** The loop with its cursor visits the runs one by one. *)
Lemma contrast_loop_groups region at_ (gs : list (N * list JoinRow)) fuel :
  Forall (fun g => Forall (fun r => as_u32 (jr_item r) = g.1) g.2) gs -> NoDup gs.*1 -> (length (gs ≫= snd) <= fuel)%nat ->
  contrast_loop fuel region at_ (gs ≫= snd) = omap (fun g => contrast_group region at_ g.2) gs.
Proof.
  intros Hgs. revert fuel. induction Hgs as [|[key g] gs Hg Hgs IH]; intros fuel Hnd Hf; [by destruct fuel|]. cbn [fmap list_fmap fst snd] in *.
  apply NoDup_cons in Hnd as [Hni Hnd]. rewrite bind_cons in Hf |- *. cbn [omap list_omap snd] in *. destruct g as [|r g]; [cbn [app]; by apply IH|].
  destruct fuel as [|fuel]; [cbn in Hf; lia|]. change (contrast_loop (S fuel) region at_ ((r :: g) ++ (gs ≫= snd))) with
    (let '(group, rest) := run_of (as_u32 (jr_item r)) ((r :: g) ++ (gs ≫= snd)) in
     match contrast_group region at_ group with Some c => c :: contrast_loop fuel region at_ rest | None => contrast_loop fuel region at_ rest end).
  assert (as_u32 (jr_item r) = key) as Er by by apply Forall_cons in Hg as [? _]. rewrite Er. rewrite run_of_app; [|done|].
  - rewrite IH; [done|done|]. rewrite length_app in Hf. cbn in Hf. lia.
  - intros r' Hr' E. apply Hni. assert (r' ∈ (gs ≫= snd)) as Hin by (destruct (gs ≫= snd); [done|]; injection Hr' as ->; by apply elem_of_cons; left).
    apply list_elem_of_bind in Hin as (g' & Hr2 & Hg'). apply list_elem_of_fmap. exists g'. split; [|done]. rewrite Forall_forall in Hgs. specialize (Hgs g' Hg').
    rewrite Forall_forall in Hgs. rewrite <- E. by rewrite <- (Hgs r' Hr2).
Qed.

(** C23: comparing a snapshot of the feed with our samples, read in one query and cut into
    runs by a cursor, says of each item of the snapshot, in order, exactly what comparing
    that item's row with that item's samples alone would say. *)
Theorem contrast_per_item region at_ t p :
  samples_keyed p -> feed_fits t ->
  contrast region at_ t p = Ok (omap (contrast_item region at_ p) (by_feed_item (feed_rows region at_ t))).
Proof.
  intros Hkey Hfits. unfold contrast. rewrite (joined_grouped region at_ t p Hkey). f_equal. set (feed := by_feed_item (feed_rows region at_ t)).
  set (group := fun f : Z * CommodityCols => (as_u32 f.1, join_row f <$> by_instant (own_rows region at_ f.1 p))).
  assert (forall l, (l ≫= fun f => join_row f <$> by_instant (own_rows region at_ f.1 p)) = (group <$> l) ≫= snd) as Eb.
  { intros l. induction l as [|f l IH]; [done|]. cbn [fmap list_fmap]. by rewrite !bind_cons, IH. }
  assert (forall f, f ∈ feed -> (0 <= f.1 < 2 ^ 32)%Z) as Hf32.
  { intros f Hf. unfold feed, by_feed_item in Hf. rewrite sort_by_perm in Hf. apply feed_rows_elem in Hf. apply Hfits in Hf. done. }
  rewrite Eb, contrast_loop_groups; [..|done].
  - generalize feed as l. induction l as [|f l IH]; [done|]. cbn [fmap list_fmap omap list_omap]. by rewrite IH.
  - apply Forall_fmap, Forall_forall. intros f _. cbn. apply Forall_fmap, Forall_forall. intros r _. done.
  - rewrite <- list_fmap_compose. apply NoDup_fmap_2_strong.
    + intros f g Hf Hg E. cbn in E. unfold as_u32 in E. rewrite !Z.mod_small in E by by apply Hf32. assert (f.1 = g.1) as Ei by (pose proof (Hf32 f Hf); pose proof (Hf32 g Hg); lia).
      unfold feed, by_feed_item in Hf, Hg. rewrite sort_by_perm in Hf, Hg. apply feed_rows_elem in Hf, Hg. rewrite Ei, Hg in Hf. injection Hf as Ec. destruct f, g; cbn in *; congruence.
    + apply (NoDup_fmap_1 fst). unfold feed, by_feed_item. rewrite sort_by_perm. apply feed_rows_items.
Qed.

(** ** An example: a still market and one that moved *)
Definition demo_sample (item at_ price : N) : PriceSample :=
  {| ps_item := item; ps_region := Eu; observed_at := at_; min_unit_price := price; p05_unit_price := price; median_unit_price := 110; ps_quantity := 1; ps_listings := 1 |}.
Definition demo_prices : PriceTables :=
  {| pt_samples := sample_row <$> [demo_sample 1 5000000 100; demo_sample 1 9000000 100; demo_sample 2 5000000 100; demo_sample 2 9000000 101]; pt_ladders := []; pt_alerts := [] |}.
Definition demo_feed (item : N) : TsmCommoditySample :=
  {| tc_item := item; tc_region := Eu; tc_observed_at := 7000000; tc_market_value := 121; tc_min_buyout := 100; tc_recent := 0; tc_historical := 0; tc_updated_at := 0 |}.
Definition demo_table : CommodityTable := (record_commodity_samples [demo_feed 1; demo_feed 2] ∅).2.

Lemma contrast_per_item_witness :
  contrast Eu 7000000 demo_table demo_prices =
  Ok [{| co_item := 1; co_region := Eu; co_observed_at := 7000000; co_own_observed_at := 5000000; co_min_buyout_matches := true; co_market_value_ratio_bp := Some 11000 |}].
Proof.
  rewrite contrast_per_item; [vm_compute; reflexivity| |].
  - intros a b Ha Hb. apply list_elem_of_In in Ha, Hb. cbn in Ha, Hb. unfold same_key.
    destruct Ha as [<-|[<-|[<-|[<-|[]]]]], Hb as [<-|[<-|[<-|[<-|[]]]]]; vm_compute; intros (? & ? & ?); first [reflexivity|discriminate].
  - intros k c Hk. apply elem_of_map_to_list in Hk. vm_compute in Hk. apply list_elem_of_In in Hk. destruct Hk as [[= <- _]|[[= <- _]|[]]]; vm_compute; split; congruence.
Defined.

(** The ratio is cut to 32 bits: a feed whose value is 429,497 times our median is reported
    as a quarter of it. *)
Example ratio_wraps :
  (contrast_group Eu 7 ((fun at_ => {| jr_item := 1; jr_min_buyout := 1; jr_market_value := 429497; jr_own_observed_at := at_; jr_min_unit := 1; jr_median_unit := 1 |}) <$> [6; 8]%Z) ≫=
    co_market_value_ratio_bp) = Some 2704.
Proof. vm_compute. reflexivity. Qed.
