(* ===== verification/Config.v ===== *)
(** * Config: what the process is told to be

    Models [crates/server/src/config.rs] after the parsing of flags (which is [clap]'s): the
    secrets read from the environment, the configurations made for the cluster and the web
    tier ([WebConfig] of [crates/app-core/src/ports.rs]), the regions and realms collected; and
    from [crates/server/src/main.rs] the choice of mode and the first administrator.  The
    environment is a map of texts, as in [EnvFile].

    [boot_sound]: what a process that starts has been given. *)
From Stdlib Require Import Ascii ZArith.
From stdpp Require Import prelude gmap sorting strings pretty.
From S2P Require Import Prelude Text Time Role Node Job Store AppError Market MarketKey Accounts AccountStore Supervisor.

(** The fields of [Cli] the code below reads; [workers] and the like have their width from
    the parser. *)
Record Cli := {
  cl_workers : N; cl_worker_listen : option string; cl_max_worker_connections : N; cl_max_worker_handshakes : N; cl_connect : option string; cl_heartbeat_ms : N;
  cl_suspect_ms : N; cl_offline_ms : N; cl_max_task_attempts : N; cl_poll_ms : N; cl_gateway_min : N; cl_frontend_min : N; cl_backend_min : N; cl_storage_min : N;
  cl_coordinator_min : N; cl_debug_controls : bool; cl_cluster_token : option string; cl_bootstrap_admin : option (string * string); cl_server_timing : bool;
  cl_show_tsm_data : bool; cl_secure_cookies : bool; cl_trust_proxy_headers : bool; cl_cache_ttl_secs : N; cl_market_regions : list string;
  cl_market_realms : list string }.

Definition with_token (cli : Cli) (token : option string) : Cli :=
  {| cl_workers := cl_workers cli; cl_worker_listen := cl_worker_listen cli; cl_max_worker_connections := cl_max_worker_connections cli;
     cl_max_worker_handshakes := cl_max_worker_handshakes cli; cl_connect := cl_connect cli; cl_heartbeat_ms := cl_heartbeat_ms cli; cl_suspect_ms := cl_suspect_ms cli;
     cl_offline_ms := cl_offline_ms cli; cl_max_task_attempts := cl_max_task_attempts cli; cl_poll_ms := cl_poll_ms cli; cl_gateway_min := cl_gateway_min cli;
     cl_frontend_min := cl_frontend_min cli; cl_backend_min := cl_backend_min cli; cl_storage_min := cl_storage_min cli; cl_coordinator_min := cl_coordinator_min cli;
     cl_debug_controls := cl_debug_controls cli; cl_cluster_token := token; cl_bootstrap_admin := cl_bootstrap_admin cli; cl_server_timing := cl_server_timing cli;
     cl_show_tsm_data := cl_show_tsm_data cli; cl_secure_cookies := cl_secure_cookies cli; cl_trust_proxy_headers := cl_trust_proxy_headers cli;
     cl_cache_ttl_secs := cl_cache_ttl_secs cli; cl_market_regions := cl_market_regions cli; cl_market_realms := cl_market_realms cli |}.
Definition with_bootstrap (cli : Cli) (admin : option (string * string)) : Cli :=
  {| cl_workers := cl_workers cli; cl_worker_listen := cl_worker_listen cli; cl_max_worker_connections := cl_max_worker_connections cli;
     cl_max_worker_handshakes := cl_max_worker_handshakes cli; cl_connect := cl_connect cli; cl_heartbeat_ms := cl_heartbeat_ms cli; cl_suspect_ms := cl_suspect_ms cli;
     cl_offline_ms := cl_offline_ms cli; cl_max_task_attempts := cl_max_task_attempts cli; cl_poll_ms := cl_poll_ms cli; cl_gateway_min := cl_gateway_min cli;
     cl_frontend_min := cl_frontend_min cli; cl_backend_min := cl_backend_min cli; cl_storage_min := cl_storage_min cli; cl_coordinator_min := cl_coordinator_min cli;
     cl_debug_controls := cl_debug_controls cli; cl_cluster_token := cl_cluster_token cli; cl_bootstrap_admin := admin; cl_server_timing := cl_server_timing cli;
     cl_show_tsm_data := cl_show_tsm_data cli; cl_secure_cookies := cl_secure_cookies cli; cl_trust_proxy_headers := cl_trust_proxy_headers cli;
     cl_cache_ttl_secs := cl_cache_ttl_secs cli; cl_market_regions := cl_market_regions cli; cl_market_realms := cl_market_realms cli |}.

(** ** Secrets *)
Abbreviation Environment := (gmap string string).

Definition secret_env (env : Environment) (name : string) : option string :=
  value ← trim <$> env !! name; if decide (value = "") then None else Some value.

Definition CLUSTER_TOKEN_ENV : string := "APP_CLUSTER_TOKEN".
Definition BOOTSTRAP_USERNAME : string := "APP_BOOTSTRAP_ADMIN_USERNAME".
Definition BOOTSTRAP_PASSWORD : string := "APP_BOOTSTRAP_ADMIN_PASSWORD".

(** Why the process does not start. *)
Inductive BootError := ListensWithoutToken | HalfAnAdministrator.

Definition resolve_cluster_token (env : Environment) (cli : Cli) : Result Cli BootError :=
  let cli := with_token cli (secret_env env CLUSTER_TOKEN_ENV) in
  if decide (is_Some (cl_worker_listen cli) /\ cl_cluster_token cli = None) then Err ListensWithoutToken else Ok cli.

Definition resolve_bootstrap_admin (env : Environment) (cli : Cli) : Result Cli BootError :=
  match secret_env env BOOTSTRAP_USERNAME, secret_env env BOOTSTRAP_PASSWORD with
  | Some username, Some password => Ok (with_bootstrap cli (Some (username, password)))
  | None, None => Ok (with_bootstrap cli None)
  | _, _ => Err HalfAnAdministrator
  end.

(** The head of [run]: a worker takes its token to the coordinator, everything else is a
    server. *)
Inductive Mode := WorkerOf (address : string) (token : option string) | Server (cli : Cli).

Definition boot (env : Environment) (cli : Cli) : Result Mode BootError :=
  match resolve_cluster_token env cli with
  | Err e => Err e
  | Ok cli =>
      match resolve_bootstrap_admin env cli with
      | Err e => Err e
      | Ok cli => Ok (match cl_connect cli with Some address => WorkerOf address (cl_cluster_token cli) | None => Server cli end)
      end
  end.

(** ** What the parts are told *)
Definition role_policies (cli : Cli) : RolePolicies :=
  let p := RolePolicies_default in
  let p := RolePolicies_set p Gateway (RolePolicy_new (cl_gateway_min cli)) in
  let p := RolePolicies_set p Frontend (RolePolicy_new (cl_frontend_min cli)) in
  let p := RolePolicies_set p Role.Backend (RolePolicy_new (cl_backend_min cli)) in
  let p := RolePolicies_set p Storage (RolePolicy_new (cl_storage_min cli)) in
  RolePolicies_set p Coordinator (RolePolicy_new (cl_coordinator_min cli)).

(** The configuration, and where to listen ([node_listen]). *)
Definition cluster_config (available_parallelism : option N) (cli : Cli) : LocalClusterConfig * option string :=
  let default_ := LocalClusterConfig_default available_parallelism in
  let connections := N.max (cl_max_worker_connections cli) 1 in
  ({| node_count := cl_workers cli; remote_nodes := []; join_token := cl_cluster_token cli; max_remote_connections := connections;
      max_pending_handshakes := N.min connections (N.max 1 (cl_max_worker_handshakes cli));
      health := {| heartbeat_interval_ms := cl_heartbeat_ms cli; suspect_after_ms := cl_suspect_ms cli; offline_after_ms := cl_offline_ms cli |};
      policies := role_policies cli; max_task_attempts := cl_max_task_attempts cli; tick_interval_ms := tick_interval_ms default_; event_buffer := event_buffer default_;
      job_buffer := job_buffer default_; profiles := profiles default_; simulate_load := simulate_load default_ |},
   cl_worker_listen cli).

Record WebSettings := {
  ws_app_name : string; ws_poll_interval_ms : N; ws_event_log_limit : N; ws_debug_controls : bool; ws_secure_cookies : bool; ws_trust_proxy_headers : bool;
  ws_upstream_cache_ttl_ms : N; ws_item_cache_ttl_ms : N; ws_server_timing : bool; ws_show_tsm_data : bool }.
Definition WebSettings_default : WebSettings :=
  {| ws_app_name := "Gavel"; ws_poll_interval_ms := 2000; ws_event_log_limit := 25; ws_debug_controls := false; ws_secure_cookies := false; ws_trust_proxy_headers := false;
     ws_upstream_cache_ttl_ms := 10 * 60 * 1000; ws_item_cache_ttl_ms := 7 * 24 * 60 * 60 * 1000; ws_server_timing := false; ws_show_tsm_data := false |}.

(** The product is that of a release build, which wraps. *)
Definition web_config (cli : Cli) : WebSettings :=
  let default_ := WebSettings_default in
  {| ws_poll_interval_ms := cl_poll_ms cli; ws_debug_controls := cl_debug_controls cli; ws_server_timing := cl_server_timing cli; ws_show_tsm_data := cl_show_tsm_data cli;
     ws_secure_cookies := cl_secure_cookies cli; ws_trust_proxy_headers := cl_trust_proxy_headers cli; ws_upstream_cache_ttl_ms := wrap 64 (cl_cache_ttl_secs cli * 1000);
     ws_app_name := ws_app_name default_; ws_event_log_limit := ws_event_log_limit default_; ws_item_cache_ttl_ms := ws_item_cache_ttl_ms default_ |}.

(** ** What is collected *)
(** [Vec::dedup]. *)
Fixpoint dedup_adjacent {A} `{EqDecision A} (l : list A) : list A :=
  match l with x :: ((y :: _) as l') => if decide (x = y) then dedup_adjacent l' else x :: dedup_adjacent l' | _ => l end.

(** The derived order of [Region]. *)
Definition region_rank (r : Region) : N := match r with Eu => 0 | Us => 1 | Kr => 2 | Tw => 3 end.
Definition region_order (a b : Region) : comparison := N.compare (region_rank a) (region_rank b).
Definition realm_order (a b : Region * RealmId) : comparison := cmp_then (region_order a.1 b.1) (N.compare a.2 b.2).

Definition regions (cli : Cli) : list Region := dedup_adjacent (sort_by region_order (omap (fun r => Region_parse (trim r)) (cl_market_regions cli))).

Definition parse_realm (entry : string) : option (Region * RealmId) :=
  let entry := trim entry in
  if decide (entry = "") then None
  else '(region, id) ← split_once ":"%char entry; region ← Region_parse (trim region); id ← parse_u32 (trim id); Some (region, id).
Definition realms (cli : Cli) : list (Region * RealmId) := dedup_adjacent (sort_by realm_order (omap parse_realm (cl_market_realms cli))).

(** ** The settings written down at boot *)
Definition DQUOTE : ascii := ascii_of_N 34.
Definition json_field (name value : string) : string := String DQUOTE (name +:+ String DQUOTE (":" +:+ value)).
Definition bool_text (b : bool) : string := if b then "true" else "false".
Definition effective_settings_json (cli : Cli) : string :=
  "{" +:+ join ","%char
    [json_field "workers" (pretty (cl_workers cli)); json_field "heartbeat_ms" (pretty (cl_heartbeat_ms cli)); json_field "suspect_ms" (pretty (cl_suspect_ms cli));
     json_field "offline_ms" (pretty (cl_offline_ms cli)); json_field "max_task_attempts" (pretty (cl_max_task_attempts cli));
     json_field "gateway_min" (pretty (cl_gateway_min cli)); json_field "frontend_min" (pretty (cl_frontend_min cli)); json_field "backend_min" (pretty (cl_backend_min cli));
     json_field "storage_min" (pretty (cl_storage_min cli)); json_field "coordinator_min" (pretty (cl_coordinator_min cli));
     json_field "debug_controls" (bool_text (cl_debug_controls cli)); json_field "server_timing" (bool_text (cl_server_timing cli))] +:+ "}".

(** ** The first administrator *)
Inductive AdminError := BadCredentials (e : AppError.t) | HashFailed (e : AppError.t) | NotCreated (e : StoreError).

(** [bootstrap_admin] of [main.rs]; the hasher is a port. *)
Definition first_administrator (hash : string -> AppResult string) (now : Millis) (username password : string) (db : Db) : Result (option User) AdminError * Db :=
  match validate_username username, validate_password password, hash password with
  | Err e, _, _ | Ok _, Err e, _ => (Err (BadCredentials e), db)
  | Ok _, Ok _, Err e => (Err (HashFailed e), db)
  | Ok _, Ok _, Ok h => let '(r, db) := bootstrap_admin username h now db in (match r with Ok user => Ok user | Err e => Err (NotCreated e) end, db)
  end.

(** Nothing is written for an account that could not have been registered, and a hash that
    failed leaves the database as it was. *)
Lemma first_administrator_checked hash now username password db user db' :
  first_administrator hash now username password db = (Ok (Some user), db') ->
  exists h, validate_username username = Ok tt /\ validate_password password = Ok tt /\ hash password = Ok h /\ bootstrap_admin username h now db = (Ok (Some user), db').
Proof.
  unfold first_administrator. destruct (validate_username username) as [[]|]; [|done]. destruct (validate_password password) as [[]|]; [|done]. destruct (hash password) as [h|]; [|done].
  destruct (bootstrap_admin username h now db) as [[u|e] d] eqn:Hb; [|done]. intros [= -> ->]. by exists h.
Qed.

(** ** Order *)
Lemma elem_of_dedup_adjacent {A} `{EqDecision A} (l : list A) x : x ∈ dedup_adjacent l <-> x ∈ l.
Proof. induction l as [|a [|b l] IH]; [done..|]. cbn [dedup_adjacent]. case_decide as E; [rewrite IH; set_solver|]. rewrite !(elem_of_cons _ x a). by rewrite IH. Qed.

(** Sorted, and without neighbours that are equal: each once, in order. *)
Lemma dedup_sorted_once {A} `{EqDecision A} (R : A -> A -> Prop) (l : list A) :
  (forall a b, R a b -> R b a -> a = b) -> StronglySorted R l -> StronglySorted R (dedup_adjacent l) /\ NoDup (dedup_adjacent l).
Proof.
  intros Hanti. induction l as [|a [|b l] IH]; intros Hs; [split; constructor|split; [done|apply NoDup_singleton]|]. apply StronglySorted_cons in Hs as [Ha Hs]. destruct (IH Hs) as [H1 H2].
  cbn [dedup_adjacent]. case_decide as E; [done|]. assert (Forall (R a) (dedup_adjacent (b :: l))) as Hall.
  { apply Forall_forall. intros x Hx. apply (proj1 (elem_of_dedup_adjacent _ _)) in Hx. rewrite Forall_forall in Ha. by apply Ha. }
  split; constructor; [done..| |done]. intros Hin. apply (proj1 (elem_of_dedup_adjacent (b :: l) a)) in Hin. apply elem_of_cons in Hin as [->|Hin]; [done|]. apply E, Hanti.
  - rewrite Forall_forall in Ha. apply Ha. set_solver.
  - apply StronglySorted_cons in Hs as [Hb _]. rewrite Forall_forall in Hb. by apply Hb.
Qed.

Definition realm_le (a b : Region * RealmId) : Prop := region_rank a.1 < region_rank b.1 \/ (a.1 = b.1 /\ a.2 <= b.2).
Definition region_le (a b : Region) : Prop := region_rank a <= region_rank b.

Lemma region_rank_inj a b : region_rank a = region_rank b -> a = b.
Proof. by destruct a, b. Qed.

Lemma regions_sorted cli : StronglySorted region_le (regions cli) /\ NoDup (regions cli).
Proof.
  apply dedup_sorted_once; [intros a b Ha Hb; apply region_rank_inj; unfold region_le in *; lia|]. apply sort_by_sorted.
  - intros a b. unfold region_order. apply N.compare_antisym.
  - intros a b H. exact H.
  - intros a b c. unfold region_le. lia.
Qed.

Lemma realms_sorted cli : StronglySorted realm_le (realms cli) /\ NoDup (realms cli).
Proof.
  apply dedup_sorted_once.
  - intros [r i] [r' i'] [Ha|[Ha Ha']] [Hb|[Hb Hb']]; cbn in *; subst; try lia. f_equal. lia.
  - apply sort_by_sorted.
    + intros a b. unfold realm_order, region_order. rewrite cmp_then_opp. by rewrite <- !N.compare_antisym.
    + intros [r i] [r' i']. unfold realm_order, region_order, realm_le. cbn [fst snd]. destruct (N.compare_spec (region_rank r) (region_rank r')) as [E|E|E]; cbn [cmp_then]; [|by left|done].
      intros H. right. split; [by apply region_rank_inj|exact H].
    + intros a b c [H|[H H']] [K|[K K']]; unfold realm_le; rewrite ?H, ?K in *; [left; lia|left; lia|left; lia|right; split; [congruence|lia]].
Qed.

Lemma secret_env_Some env name v : secret_env env name = Some v <-> v <> "" /\ trim <$> env !! name = Some v.
Proof. unfold secret_env. destruct (trim <$> env !! name) as [t|]; cbn [mbind option_bind]; [case_decide; naive_solver|naive_solver]. Qed.

(** What a server is given, once its secrets are resolved. *)
Definition served (env : Environment) (cli : Cli) (available_parallelism : option N) (admin : option (string * string)) (cli' : Cli) : Prop :=
  let '(config, listen) := cluster_config available_parallelism cli' in
  listen = cl_worker_listen cli /\ join_token config = secret_env env CLUSTER_TOKEN_ENV /\
  (is_Some listen -> exists t, join_token config = Some t /\ t <> "" /\ trim <$> env !! CLUSTER_TOKEN_ENV = Some t) /\
  1 <= max_pending_handshakes config <= max_remote_connections config /\ remote_nodes config = [] /\
  (forall role, min_replicas (RolePolicies_get (policies config) role) =
     match role with
     | Gateway => cl_gateway_min cli | Frontend => cl_frontend_min cli | Role.Backend => cl_backend_min cli | Storage => cl_storage_min cli
     | Coordinator => cl_coordinator_min cli | Compute => 0
     end) /\
  cl_bootstrap_admin cli' = admin /\
  (forall r, r ∈ regions cli' <-> exists entry, entry ∈ cl_market_regions cli /\ Region_parse (trim entry) = Some r) /\
  StronglySorted region_le (regions cli') /\ NoDup (regions cli') /\
  (forall r, r ∈ realms cli' <-> exists entry, entry ∈ cl_market_realms cli /\ parse_realm entry = Some r) /\
  StronglySorted realm_le (realms cli') /\ NoDup (realms cli').

Lemma server_sound env cli available_parallelism admin :
  ~ (is_Some (cl_worker_listen cli) /\ secret_env env CLUSTER_TOKEN_ENV = None) ->
  served env cli available_parallelism admin (with_bootstrap (with_token cli (secret_env env CLUSTER_TOKEN_ENV)) admin).
Proof.
  intros Hl. unfold served, cluster_config. set (cli' := with_bootstrap _ admin).
  destruct (regions_sorted cli') as [R1 R2], (realms_sorted cli') as [S1 S2].
  refine (conj eq_refl (conj eq_refl (conj _ (conj _ (conj eq_refl (conj _ (conj eq_refl (conj _ (conj R1 (conj R2 (conj _ (conj S1 S2)))))))))))).
  - intros Hs. cbn [join_token cl_cluster_token cli' with_bootstrap with_token]. destruct (secret_env env CLUSTER_TOKEN_ENV) as [t|] eqn:Ht; [|by destruct Hl].
    exists t. split; [done|]. by apply secret_env_Some in Ht.
  - cbn [max_pending_handshakes max_remote_connections]. lia.
  - intros role. by destruct role.
  - intros r. unfold regions. rewrite elem_of_dedup_adjacent, sort_by_perm. apply list_elem_of_omap.
  - intros r. unfold realms. rewrite elem_of_dedup_adjacent, sort_by_perm. apply list_elem_of_omap.
Qed.

(** A process does not start when it would listen for workers without a token, or with
    half of an administrator; otherwise it does.  A server that listens has a token, which is
    what the environment says without its white space; its handshakes are between one and
    its connections; every role has the replicas asked for; an administrator is made of the
    two secrets and only of both; and what it collects is what was named and recognised, each
    once and in order. *)
Theorem boot_sound env cli available_parallelism :
  let token := secret_env env CLUSTER_TOKEN_ENV in
  let username := secret_env env BOOTSTRAP_USERNAME in let password := secret_env env BOOTSTRAP_PASSWORD in
  ((exists e, boot env cli = Err e) <-> (is_Some (cl_worker_listen cli) /\ token = None) \/ ~ (is_Some username <-> is_Some password)) /\
  (forall mode, boot env cli = Ok mode ->
    match cl_connect cli with
    | Some address => mode = WorkerOf address token
    | None => exists cli', mode = Server cli' /\
        served env cli available_parallelism (match username, password with Some u, Some p => Some (u, p) | _, _ => None end) cli'
    end).
Proof.
  cbn zeta. unfold boot, resolve_cluster_token, resolve_bootstrap_admin. cbn [cl_worker_listen cl_cluster_token with_token].
  destruct (decide (is_Some (cl_worker_listen cli) /\ _)) as [Hl|Hl]; [split; [split; [by left|by eexists]|done]|].
  pose proof (fun admin => server_sound env cli available_parallelism admin Hl) as Hok.
  assert (forall admin mode, mode = match cl_connect (with_bootstrap (with_token cli (secret_env env CLUSTER_TOKEN_ENV)) admin) with
      | Some address => WorkerOf address (secret_env env CLUSTER_TOKEN_ENV) | None => Server (with_bootstrap (with_token cli (secret_env env CLUSTER_TOKEN_ENV)) admin) end ->
    match cl_connect cli with
    | Some address => mode = WorkerOf address (secret_env env CLUSTER_TOKEN_ENV)
    | None => exists cli', mode = Server cli' /\ served env cli available_parallelism admin cli'
    end) as Hmode.
  { intros admin mode ->. cbn [cl_connect with_bootstrap with_token]. destruct (cl_connect cli); [done|]. eexists. split; [done|apply Hok]. }
  destruct (secret_env env BOOTSTRAP_USERNAME) as [u|], (secret_env env BOOTSTRAP_PASSWORD) as [p|].
  - split; [|intros mode [= <-]; by apply (Hmode (Some (u, p)))]. split; [by intros [e ?]|intros [?|H]; [done|]]. destruct H. split; by eexists.
  - split; [|done]. split; [|by eexists]. intros _. right. intros [H _]. by destruct (H (ex_intro _ u eq_refl)).
  - split; [|done]. split; [|by eexists]. intros _. right. intros [_ H]. by destruct (H (ex_intro _ p eq_refl)).
  - split; [|intros mode [= <-]; by apply (Hmode None)]. split; [by intros [e ?]|intros [?|H]; [done|]]. by destruct H.
Qed.
